(* ===== verification/_CoqProject ===== *)
-Q . S2P
Prelude.v
DList.v
Buddy.v
CString.v
Sort.v
Locking.v
Irq.v
Printf.v
Kfifo.v
Pipe.v
Path.v
Vfs.v
FsSys.v
Inet.v
Crc32.v
ExtTypes.v
Bitmap.v
ExtDev.v
Bcache.v
CacheSpec.v
Net.v
Sockets.v
Blk.v
Virtio.v
VirtioIrq.v
VirtioDisk.v
Device.v
Uart.v
Tty.v
Disk.v
DevFs.v
DevFsSafe.v
PageTable.v
Task.v
Vma.v
Proc.v
ProcTable.v
Sched.v
ProcCalls.v
Exec.v
ExecStack.v
Trap.v
Grep.v
Umalloc.v
Sh.v
