(* ===== verification/Prelude.v ===== *)
(** * HANA: a verification development of the kernel

    HANA is a small Unix-like kernel for RISC-V and LoongArch.  Its machine-independent half
    lives under [src/kernel]: the page allocator, page tables, processes, a virtual
    file system with pipes and mount points, a UDP/IP stack and the small C library all of
    them use; its programs and their library are under [src/user].  This library is a shallow
    embedding of the kernel's half and of three of the programs: every C function is a Rocq
    function on an explicit state, written in the order of the source, and the theorems are
    about those functions.

    ** Conventions

    - A machine integer is a [Z] with its wrap written out ([u8] ... [u64], [i32], [i64]); a
      pointer is a [Z], 0 being NULL.  Where the code multiplies or adds two [int]s the wrap is
      that of [i32], and theorems are bounded to the sizes at which it does not happen.
    - An operation is a term of [M S A]: a state of type [S] goes to [Ret (a, s')], or to
      [Panic] (a failed [Assert], which never returns), [Fault] (an access outside the
      objects of the model: NULL, freed or foreign memory) or [Spin] (a wait nothing on this
      CPU can end, or fuel that ran out).  [zoom] runs a component inside a larger state.
    - Above [Buddy] an allocation takes the next address of a list of free memory; where the size
      is not a constant, [kalloc_bytes] has the assertion and the largest block.
    - Loops whose bound the code does not show take fuel.  The callers pass enough: the length
      of the list or string walked, the number of pages of the range, the number of orders
      of the allocator; each total-correctness theorem ([... = Ret _]) shows that
      the fuel passed suffices.

    ** Files, and the sources they model

    - [Prelude]: words, page geometry ([include/common.h]), the monad, arrays as lists.
    - [DList]: [lib/list.c], [include/tools/list.h].
    - [Buddy]: [mm/buddy.c], [mm/kalloc.c]; the free lists live in the free blocks.
    - [CString]: [lib/string.c] on byte-addressed memory.
    - [Sort]: [lib/sort.c].
    - [Printf]: [lib/printf.c] on lists of characters, with a reference renderer.
    - [Locking]: [locking/spinlock.c], [irq_pushoff]/[irq_popoff], [include/locking/atomic.h];
      module [SMP] is the instruction-level interleaving of several CPUs.
    - [Irq]: the handler table of [irq/interrupt.c] and the RISC-V interrupt controller.
    - [Kfifo], [Pipe]: [lib/kfifo.c] and [fs/pipe.c]; a pipe uses its buffer through the class
      of byte queues, which the kfifo implements.
    - [Path], [Vfs], [FsSys]: the path helpers and system calls of [fs/fs.c], [fs/dirent.c],
      [fs/file.c], [fs/mountp.c], [fs/kernel.c].
    - [Inet], [Net], [Sockets]: [net/netutils.c], [net/inet.c]; [net/eth.c], [net/ip.c],
      [net/udp.c]; [net/socket.c].
    - [Blk], [Virtio], [VirtioIrq], [VirtioDisk]: [io/blk.c] over the class of block drivers;
      [drivers/virtio.c] and the RISC-V virtio block driver, which implements it, with the
      device as steps of its own; the interrupt handler while the device moves; what driver,
      device and block layer guarantee together.
    - [Device], [Uart], [Tty], [Disk], [DevFs], [DevFsSafe]: [io/device.c], [io/chr.c],
      [io/net.c]; both builds of the serial port and [drivers/uart.c]; the files behind [/dev]
      ([fs/devfs/devs/tty.c], [fs/devfs/devs/block.c], [fs/devfs/devfs.c]) and, in the last, the
      invariant of device nodes with a concrete system.
    - [ExtTypes], [Crc32], [Bitmap], [ExtDev], [Bcache], [CacheSpec]: parts of [fs/ext4/lwext4]:
      [ext4_crc32.c], [ext4_bitmap.c] with the search of [ext4_balloc.c] in one group,
      [ext4_blockdev.c], [ext4_bcache.c], and what the cache promises over any driver.
    - [PageTable]: [mm/vm.c], [mm/page.c] and [arch/riscv/mm/mm.c].
    - [Task], [Vma], [Proc], [ProcTable], [Sched], [ProcCalls]: the state of processes and areas;
      [mm/sys_mm.c] and [page_unmap_handler]; [proc/proc.c], [proc/sched.c] and
      [proc/sys_proc.c] with [sys/time.c] and the timer interrupt; what each of these does to
      the table of processes; the scheduler and the relation [step] that interleaves it with
      the calls of the running process; what waking, killing and blocking do in a
      reachable state.
    - [Exec], [ExecStack]: [execve] of [proc/sys_proc.c] with [include/elf.h]: the segments of
      the program and of its interpreter, and the first stack; what that stack holds.
    - [Trap]: [arch/riscv/trap/trap.c] and the dispatch of system calls in
      [arch/riscv/boot/syscall.c].

    - [Grep], [Umalloc], [Sh]: [user/src/grep.c]; [user/lib/umalloc.c]; the line reader and the
      parser of [user/src/sh.c].

    ** How the parts interact

    A process calls into [FsSys], [Sockets], [Vma], [Proc] and [Exec] through system calls;
    [Exec] reads files through [FsSys] and maps pages through [PageTable]; file operations go
    through the table of the open file ([fops] in [Vfs]), which is where pipes, sockets and
    devices hang.  The state of [Sockets] embeds the network's, the state
    [kernel] of [Task] embeds the page tables ([kvm]) and the files ([kfs]), and [on_vm] and
    [on_fs] run their operations.  [Trap] is the way in: it dispatches system calls to those
    files, and interrupts through the table of [Irq] to the device classes of [Device], which
    call the drivers [Uart] and [Virtio].  A device file of [DevFs] hands over to [Disk] or
    [Tty], which use the classes [BlkDriver] and [chrdev_ops] and so any driver.  In ext4, the
    cache of [Bcache] runs over the class [BlockIface] of [ExtDev].  The user programs reach
    the system through classes of their own ([ReadWrite], [Break]).  Locks live in the
    environment ([lockenv]) that [Locking] defines and every component with a lock carries.
    [swtch] cuts a function in two:
    [sched] saves the caller and its live variables in the context of the process, [resume]
    goes on from there.

    ** The theorems

    - Resources: blocks of the page allocator partition the pool and requests make progress
      ([Buddy]); the mutual exclusion of spinlocks ([Locking.SMP]).
    - Memory: mapping, copy-on-write copies, copies to and from user memory ([PageTable]),
      the areas of a process and its break ([Vma]).
    - Processes: the invariant of the process table in every state reachable by whole calls,
      scheduler turns and wakeups of interrupts, what a preempted [fork] does to it, the
      search of the scheduler ([Sched]), waking, killing and blocking ([ProcCalls]); the first
      stack of a program ([ExecStack]).
    - Files and pipes: byte streams and their one release, descriptors, mount points, the
      checks of the calls ([Kfifo], [Pipe], [Vfs], [FsSys], [Path]).
    - Network: the frames sent, their delivery, the consumption of every packet,
      checksums and addresses ([Net], [Inet], [Sockets]).
    - Disk: the interrupt handler, whatever the device completes between its reads, and the
      descriptors ([VirtioIrq], [VirtioDisk]); waiting, and sectors written through [/dev] and
      read again ([Disk]), over a device that completes nothing while the handler runs, where
      a completion can be passed over ([VirtioDisk.isr_loses_completion]).
    - Devices: claims of interrupts are completed ([Irq]), characters leave the serial port in
      order ([Uart]), device nodes are used at their type ([DevFsSafe]).
    - Traps: what a trap, whose handler may give up the CPU, and a system call leave of the
      interrupted state, unknown calls and faults ([Trap]).
    - ext4: checksums as polynomial division ([Crc32]), bits and the search for a free block
      ([Bitmap]), byte ranges on a device of blocks ([ExtDev]), and the block cache as a
      faithful disk, whatever is evicted or fails ([CacheSpec]).
    - Programs: the pattern matcher against the meaning of patterns and the lines that [grep]
      prints ([Grep]); blocks of [malloc] that never overlap ([Umalloc]); the parser of the
      shell against its grammar ([Sh]).
    - Library: lists as sequences, sorting, memory and strings, formatted output
      ([DList], [Sort], [CString], [Printf]).

    ** Not modelled

    - [swtch], the trap vectors, [uservec] and boot code are assembly; [main]
      calls the initialisers in turn.
    - Preemption in the middle of a call: a call is one step of [Sched], and the theorems say
      so.  Several CPUs appear in [Locking.SMP] only.
    - The rest of lwext4 (journal, extents, inodes, directories and their index, extended
      attributes, [mkfs], the interface [ext4.c]) is third-party code; a mounted file system is
      a table of operations ([fsops]) here, and [fs/ext4/ext4.c] fills it with calls of
      [lwext4].  The callback [end_write] of a buffer belongs to the journal and is a parameter
      of [Bcache].  The red-black trees of [misc/tree.h] are sequences of their nodes.
    - The LoongArch variants of page tables, traps and drivers repeat the RISC-V ones for
      another machine; the drivers of PCI and of the network card, and the negotiation of
      virtio features, only talk to registers of devices.
    - Of [src/user], the functions [runcmd] and [fork1] of the shell, the [main] of [grep], and
      the programs that only make system calls; the string functions and [printf] there are
      those of the kernel.  [src/kernel/test] only calls what is modelled.
    - Log messages are left out everywhere, and memory barriers, which one CPU does not
      notice. *)

From stdpp Require Export base gmap list strings numbers tactics fin_maps sorting.
From Stdlib Require Export ZArith Lia Btauto.

#[global] Open Scope Z_scope.

Declare Scope hana_scope.
Delimit Scope hana_scope with hana.
#[global] Open Scope hana_scope.

(** ** Machine words ([kernel/include/common.h], the typedefs)

    A [uintN] is a [Z] kept in [0, 2^N) by an explicit wrap; an [int] is a [Z]
    kept in [-2^31, 2^31) by [i32]. *)

Definition u8 (z : Z) : Z := z mod 2 ^ 8.
Definition u16 (z : Z) : Z := z mod 2 ^ 16.
Definition u32 (z : Z) : Z := z mod 2 ^ 32.
Definition u64 (z : Z) : Z := z mod 2 ^ 64.
Definition i8 (z : Z) : Z := (z + 2 ^ 7) mod 2 ^ 8 - 2 ^ 7.
Definition i32 (z : Z) : Z := (z + 2 ^ 31) mod 2 ^ 32 - 2 ^ 31.
Definition i64 (z : Z) : Z := (z + 2 ^ 63) mod 2 ^ 64 - 2 ^ 63.

(** The truth value of a C integer. *)
Definition ctrue (z : Z) : bool := negb (z =? 0).

(** ** Page geometry ([kernel/include/common.h], lines 9-29) *)

Definition PGSIZE : Z := 4096.
Definition PGSHIFT : Z := 12.
Definition PGMASK : Z := 0xFFFFFFFFFFFFF000.
Definition PGOFFMASK : Z := 0xFFF.

Definition PGROUNDUP (sz : Z) : Z := Z.land (u64 (u64 sz + PGOFFMASK)) PGMASK.
Definition PGROUNDDOWN (a : Z) : Z := Z.land (u64 a) PGMASK.
Definition IS_PGALIGNED (a : Z) : bool := Z.land (u64 a) PGOFFMASK =? 0.
Definition PGOFFSET (a : Z) : Z := Z.land (u64 a) PGOFFMASK.

Definition MAX (a b : Z) : Z := if b <? a then a else b.
Definition MIN (a b : Z) : Z := if a <? b then a else b.

(** ** Outcomes and the kernel monad

    A kernel operation runs on a state and either returns, or fails one of the
    [Assert]s of [debug.h] (whose expansion never returns), or touches memory
    outside the objects of the model, or waits for something that no step of the
    same CPU can bring about. *)

Inductive outcome (A : Type) : Type :=
  | Ret (a : A)
  | Panic
  | Fault
  | Spin.
Arguments Ret {A} a.
Arguments Panic {A}.
Arguments Fault {A}.
Arguments Spin {A}.

#[global] Instance outcome_eq_dec A `{EqDecision A} : EqDecision (outcome A).
Proof. solve_decision. Defined.

Definition M (S A : Type) : Type := S → outcome (A * S).

#[global] Instance M_ret S : MRet (M S) := λ A a s, Ret (a, s).
#[global] Instance M_bind S : MBind (M S) := λ A B k m s,
  match m s with
  | Ret (a, s') => k a s'
  | Panic => Panic
  | Fault => Fault
  | Spin => Spin
  end.

Section kernel_ops.
Context {S : Type}.

Definition mget : M S S := λ s, Ret (s, s).
Definition gets {A} (f : S → A) : M S A := λ s, Ret (f s, s).
Definition modify (f : S → S) : M S unit := λ s, Ret (tt, f s).
Definition mpanic {A} : M S A := λ _, Panic.
Definition mfault {A} : M S A := λ _, Fault.
Definition mspin {A} : M S A := λ _, Spin.
(** [assert(cond)] of [debug.h]. *)
Definition massert (b : bool) : M S unit := if b then mret tt else mpanic.
Definition mwhen (b : bool) (m : M S unit) : M S unit := if b then m else mret tt.
(** A read that faults when the object is not there. *)
Definition mtry {A} (f : S → option A) : M S A := λ s,
  match f s with Some a => Ret (a, s) | None => Fault end.
Definition mlift {A} (o : option A) : M S A :=
  match o with Some a => mret a | None => mfault end.
End kernel_ops.

(** The state an operation that returns leaves, and [d] otherwise. *)
Definition outcome_state {A S} (o : outcome (A * S)) (d : S) : S :=
  match o with Ret (_, s) => s | _ => d end.

(** A component's state often embeds another's: [zoom] runs an operation of the
    part inside the whole. *)
Record lens (S T : Type) := Lens {
  lget : S → T;
  lset : T → S → S
}.
Arguments Lens {S T} _ _.
Arguments lget {S T} _ _.
Arguments lset {S T} _ _ _.

Definition zoom {S T A} (l : lens S T) (m : M T A) : M S A := λ s,
  match m (lget l s) with
  | Ret (a, t) => Ret (a, lset l t s)
  | Panic => Panic
  | Fault => Fault
  | Spin => Spin
  end.

Class LawfulLens {S T} (l : lens S T) : Prop := {
  lens_get_set : ∀ t s, lget l (lset l t s) = t;
  lens_set_get : ∀ s, lset l (lget l s) s = s;
  lens_set_set : ∀ t t' s, lset l t (lset l t' s) = lset l t s
}.

(** Two parts of a state that do not overlap. *)
Class Indep {S A B : Type} (l1 : lens S A) (l2 : lens S B) : Prop := {
  indep_l : ∀ b s, lget l1 (lset l2 b s) = lget l1 s;
  indep_r : ∀ a s, lget l2 (lset l1 a s) = lget l2 s
}.
Arguments indep_l {S A B} l1 l2 {_} b s.
Arguments indep_r {S A B} l1 l2 {_} a s.

(** A part of a part. *)
Definition lcomp {S T U} (l : lens S T) (k : lens T U) : lens S U :=
  Lens (λ s, lget k (lget l s)) (λ u s, lset l (lset k u (lget l s)) s).

#[export] Instance lcomp_lawful {S T U} (l : lens S T) (k : lens T U) :
  LawfulLens l → LawfulLens k → LawfulLens (lcomp l k).
Proof.
  intros Hl Hk. split; intros; cbn; by rewrite ?lens_get_set, ?lens_set_get, ?lens_set_get,
    ?lens_set_set, ?lens_set_set.
Qed.
#[export] Instance lcomp_indep {S T U V} (l : lens S T) (k1 : lens T U) (k2 : lens T V) :
  LawfulLens l → Indep k1 k2 → Indep (lcomp l k1) (lcomp l k2).
Proof. intros Hl Hk. split; intros; cbn; rewrite lens_get_set; apply Hk. Qed.
#[export] Instance lcomp_indep_l {S T U V} (l : lens S T) (k : lens T U) (l2 : lens S V) :
  Indep l l2 → Indep (lcomp l k) l2.
Proof. intros H. split; intros; cbn; [by rewrite (indep_l l l2)|apply (indep_r l l2)]. Qed.

(** ** Total correctness triples *)

Definition triple {S A} (P : S → Prop) (m : M S A) (Q : A → S → Prop) : Prop :=
  ∀ s, P s → ∃ a s', m s = Ret (a, s') ∧ Q a s'.

(** ** Lists as arrays, indexed by [Z] *)

Definition zlen {A} (l : list A) : Z := Z.of_nat (length l).

Definition znth {A} (l : list A) (i : Z) : option A :=
  if decide (0 ≤ i) then l !! Z.to_nat i else None.

Definition zset {A} (l : list A) (i : Z) (x : A) : option (list A) :=
  if decide (0 ≤ i < zlen l) then Some (<[Z.to_nat i := x]> l) else None.

(** [n] elements of [l] from index [off]; [None] when the range leaves [l]. *)
Definition zslice {A} (l : list A) (off n : Z) : option (list A) :=
  if decide (0 ≤ off ∧ 0 ≤ n ∧ off + n ≤ zlen l)
  then Some (take (Z.to_nat n) (drop (Z.to_nat off) l)) else None.

(** [src] written over [l] from index [off]; [None] when it leaves [l]. *)
Definition zsplice {A} (l : list A) (off : Z) (src : list A) : option (list A) :=
  if decide (0 ≤ off ∧ off + zlen src ≤ zlen l)
  then Some (take (Z.to_nat off) l ++ src ++ drop (Z.to_nat off + length src) l)
  else None.

(** ** Tactics *)

(** Run the monad one layer. *)
Ltac munfold :=
  unfold mget, gets, modify, massert, mwhen, mtry, mlift, mpanic, mfault, mspin,
    mbind, mret, M_bind, M_ret in *.

Ltac case_if_eq :=
  match goal with
  | |- context [if ?b then _ else _] => let E := fresh "E" in destruct b eqn:E
  | H : context [if ?b then _ else _] |- _ => let E := fresh "E" in destruct b eqn:E
  end.

Ltac case_match_eq :=
  match goal with
  | |- context [match ?e with _ => _ end] => let E := fresh "E" in destruct e eqn:E
  | H : context [match ?e with _ => _ end] |- _ => let E := fresh "E" in destruct e eqn:E
  end.

(** Turn boolean tests of [Z] into propositions. *)
Ltac zbool :=
  repeat match goal with
  | H : (_ && _) = true |- _ => apply andb_prop in H; destruct H
  | H : (_ || _) = false |- _ => apply orb_false_iff in H; destruct H
  | H : negb _ = true |- _ => apply negb_true_iff in H
  | H : negb _ = false |- _ => apply negb_false_iff in H
  | H : (_ =? _) = true |- _ => apply Z.eqb_eq in H
  | H : (_ =? _) = false |- _ => apply Z.eqb_neq in H
  | H : (_ <? _) = true |- _ => apply Z.ltb_lt in H
  | H : (_ <? _) = false |- _ => apply Z.ltb_ge in H
  | H : (_ <=? _) = true |- _ => apply Z.leb_le in H
  | H : (_ <=? _) = false |- _ => apply Z.leb_gt in H
  end.

(** ** Word lemmas *)

Create HintDb hana.
Create Rewrite HintDb hana.

Lemma u8_range z : 0 ≤ u8 z < 2 ^ 8.
Proof. apply Z.mod_pos_bound; lia. Qed.
Lemma u16_range z : 0 ≤ u16 z < 2 ^ 16.
Proof. apply Z.mod_pos_bound; lia. Qed.
Lemma u32_range z : 0 ≤ u32 z < 2 ^ 32.
Proof. apply Z.mod_pos_bound; lia. Qed.
Lemma u64_range z : 0 ≤ u64 z < 2 ^ 64.
Proof. apply Z.mod_pos_bound; lia. Qed.
Lemma i32_range z : - 2 ^ 31 ≤ i32 z < 2 ^ 31.
Proof. unfold i32. pose proof (Z.mod_pos_bound (z + 2 ^ 31) (2 ^ 32)). lia. Qed.

Lemma u8_small z : 0 ≤ z < 2 ^ 8 → u8 z = z.
Proof. apply Z.mod_small. Qed.
Lemma u16_small z : 0 ≤ z < 2 ^ 16 → u16 z = z.
Proof. apply Z.mod_small. Qed.
Lemma u32_small z : 0 ≤ z < 2 ^ 32 → u32 z = z.
Proof. apply Z.mod_small. Qed.
Lemma u64_small z : 0 ≤ z < 2 ^ 64 → u64 z = z.
Proof. apply Z.mod_small. Qed.
Lemma i32_small z : - 2 ^ 31 ≤ z < 2 ^ 31 → i32 z = z.
Proof. intros. unfold i32. rewrite Z.mod_small; lia. Qed.

#[export] Hint Resolve u8_range u16_range u32_range u64_range i32_range : hana.
#[export] Hint Rewrite u8_small u16_small u32_small u64_small i32_small
  using lia : hana.

Lemma u64_mod_u32 z : u32 (u64 z) = u32 z.
Proof. unfold u32, u64. apply Z.mod_mod_divide. by exists (2 ^ 32). Qed.

(** Reducing modulo a power of two below 2^32 ignores the 32-bit wrap. *)
Lemma u32_mod_pow2 z k : 0 ≤ k ≤ 32 → u32 z mod 2 ^ k = z mod 2 ^ k.
Proof.
  intros. unfold u32. apply Z.mod_mod_divide.
  exists (2 ^ (32 - k)). rewrite <- Z.pow_add_r by lia. f_equal. lia.
Qed.

(** The mask [size - 1] of a power-of-two size is a remainder. *)
Lemma land_mask_pow2 x k : 0 ≤ k ≤ 32 → Z.land x (u32 (2 ^ k - 1)) = x mod 2 ^ k.
Proof.
  intros. assert (0 < 2 ^ k ≤ 2 ^ 32) by
    (split; [apply Z.pow_pos_nonneg|apply Z.pow_le_mono_r]; lia).
  rewrite u32_small by lia. replace (2 ^ k - 1) with (Z.ones k) by
    (rewrite Z.ones_equiv; lia).
  by rewrite Z.land_ones by lia.
Qed.

(** A step of less than one lap around a ring. *)
Lemma mod_add_small a d n :
  0 < n → - n ≤ d < n →
  (a + d) mod n =
    let o := a mod n + d in if o <? 0 then o + n else if o <? n then o else o - n.
Proof.
  intros Hn Hd. pose proof (Z.mod_pos_bound a n Hn) as Ho. cbv zeta.
  replace (a + d) with (a mod n + d + (a / n) * n) by (pose proof (Z.div_mod a n); lia).
  rewrite Z.mod_add by lia.
  destruct (Z.ltb_spec (a mod n + d) 0); [|destruct (Z.ltb_spec (a mod n + d) n)].
  - rewrite <- (Z.mod_add _ 1) by lia. rewrite Z.mod_small; lia.
  - apply Z.mod_small. lia.
  - rewrite <- (Z.mod_add _ (-1)) by lia. rewrite Z.mod_small; lia.
Qed.

(** Bit fields: disjoint halves add up, and a masked field is a remainder. *)
Lemma lor_high a b k : 0 ≤ k → 0 ≤ a < 2 ^ k → Z.lor a (b * 2 ^ k) = a + b * 2 ^ k.
Proof.
  intros Hk Ha. rewrite Z.add_comm, <- Z.lor_comm.
  rewrite <- Z.shiftl_mul_pow2 by done.
  apply Z.bits_inj'. intros n Hn. rewrite Z.lor_spec.
  replace (Z.shiftl b k + a) with (Z.lor (Z.shiftl b k) a); [by rewrite Z.lor_spec|].
  symmetry. rewrite <- Z.add_lor_land.
  replace (Z.land (Z.shiftl b k) a) with 0; [lia|].
  symmetry. apply Z.bits_inj'. intros m Hm. rewrite Z.land_spec, Z.bits_0.
  destruct (decide (m < k)).
  - by rewrite Z.shiftl_spec_low.
  - destruct (decide (a = 0)) as [->|]; [rewrite Z.bits_0; apply andb_false_r|].
    rewrite (Z.bits_above_log2 a); [apply andb_false_r|lia|].
    apply Z.lt_le_trans with k; [|lia]. apply Z.log2_lt_pow2; lia.
Qed.

Lemma land_field x m k :
  0 ≤ k → 0 ≤ m → Z.land x (Z.ones m * 2 ^ k) = (x / 2 ^ k) mod 2 ^ m * 2 ^ k.
Proof.
  intros Hk Hm. rewrite <- (Z.land_ones _ m), <- Z.shiftr_div_pow2 by done.
  rewrite <- !Z.shiftl_mul_pow2 by done. apply Z.bits_inj'. intros n Hn.
  rewrite Z.land_spec, !Z.shiftl_spec by done.
  destruct (decide (n < k)).
  - rewrite !(Z.testbit_neg_r _ (n - k)) by lia. apply andb_false_r.
  - rewrite Z.land_spec, Z.shiftr_spec by lia. do 2 f_equal. lia.
Qed.

(** ** Page lemmas *)

(** Masking with [PGMASK] clears the twelve offset bits of a 64-bit word. *)
Lemma land_PGMASK a : 0 ≤ a < 2 ^ 64 → Z.land a PGMASK = a - a mod PGSIZE.
Proof.
  intros Ha. unfold PGMASK, PGSIZE.
  replace 0xFFFFFFFFFFFFF000 with (Z.ldiff (Z.ones 64) (Z.ones 12)) by reflexivity.
  replace (Z.land a _) with (Z.ldiff (Z.land a (Z.ones 64)) (Z.ones 12))
    by (apply Z.bits_inj'; intros n Hn; rewrite !Z.land_spec, !Z.ldiff_spec,
          Z.land_spec; btauto).
  rewrite Z.land_ones, Z.mod_small by lia.
  rewrite Z.ldiff_ones_r by lia.
  rewrite Z.shiftl_mul_pow2, Z.shiftr_div_pow2 by lia.
  change (2 ^ 12) with 4096. pose proof (Z.div_mod a 4096). lia.
Qed.

Lemma PGROUNDDOWN_eq a : 0 ≤ a < 2 ^ 64 → PGROUNDDOWN a = a - a mod PGSIZE.
Proof. intros. unfold PGROUNDDOWN. rewrite u64_small by lia. by apply land_PGMASK. Qed.

Lemma PGROUNDUP_eq a :
  0 ≤ a → a + PGOFFMASK < 2 ^ 64 →
  PGROUNDUP a = (a + PGOFFMASK) - (a + PGOFFMASK) mod PGSIZE.
Proof.
  intros. unfold PGROUNDUP, PGOFFMASK in *. rewrite !u64_small by (rewrite ?u64_small; lia).
  apply land_PGMASK. lia.
Qed.

Lemma IS_PGALIGNED_iff a :
  0 ≤ a < 2 ^ 64 → IS_PGALIGNED a = true ↔ a mod PGSIZE = 0.
Proof.
  intros. unfold IS_PGALIGNED, PGSIZE, PGOFFMASK. rewrite u64_small by lia.
  change 0xFFF with (Z.ones 12). rewrite Z.land_ones by lia.
  change (2 ^ 12) with 4096. apply Z.eqb_eq.
Qed.

Lemma PGROUNDUP_bounds a :
  0 ≤ a → a + PGOFFMASK < 2 ^ 64 →
  a ≤ PGROUNDUP a < a + PGSIZE ∧ PGROUNDUP a mod PGSIZE = 0.
Proof.
  intros. rewrite PGROUNDUP_eq by lia. unfold PGOFFMASK, PGSIZE in *.
  Z.div_mod_to_equations. lia.
Qed.

Lemma PGROUNDDOWN_bounds a :
  0 ≤ a < 2 ^ 64 →
  PGROUNDDOWN a ≤ a < PGROUNDDOWN a + PGSIZE ∧ PGROUNDDOWN a mod PGSIZE = 0.
Proof.
  intros. rewrite PGROUNDDOWN_eq by lia. unfold PGSIZE in *.
  Z.div_mod_to_equations. lia.
Qed.

(** ** Monad lemmas *)

Section monad_lemmas.
Context {S : Type}.

Lemma mbind_Ret {A B} (m : M S A) (k : A → M S B) s a s' :
  m s = Ret (a, s') → (m ≫= k) s = k a s'.
Proof. intros E. munfold. by rewrite E. Qed.

Lemma mbind_Fault {A B} (m : M S A) (k : A → M S B) s : m s = Fault → (m ≫= k) s = Fault.
Proof. intros E. munfold. by rewrite E. Qed.
Lemma mbind_Panic {A B} (m : M S A) (k : A → M S B) s : m s = Panic → (m ≫= k) s = Panic.
Proof. intros E. munfold. by rewrite E. Qed.

Lemma mbind_inv {A B} (m : M S A) (k : A → M S B) s b s'' :
  (m ≫= k) s = Ret (b, s'') → ∃ a s', m s = Ret (a, s') ∧ k a s' = Ret (b, s'').
Proof. munfold. destruct (m s) as [[a s']| | |] eqn:E; try done. eauto. Qed.

Lemma triple_ret {A} (a : A) (P : S → Prop) (Q : A → S → Prop) :
  (∀ s, P s → Q a s) → triple P (mret a) Q.
Proof. intros HQ s HP. exists a, s. eauto. Qed.

Lemma triple_bind {A B} (m : M S A) (k : A → M S B) P Q R :
  triple P m Q → (∀ a, triple (Q a) (k a) R) → triple P (m ≫= k) R.
Proof.
  intros Hm Hk s HP. destruct (Hm s HP) as (a & s' & E & HQ).
  destruct (Hk a s' HQ) as (b & s'' & E' & HR).
  exists b, s''. split; [|done]. by rewrite (mbind_Ret _ _ _ _ _ E).
Qed.

Lemma triple_conseq {A} (m : M S A) P P' Q Q' :
  triple P m Q → (∀ s, P' s → P s) → (∀ a s, Q a s → Q' a s) → triple P' m Q'.
Proof.
  intros Hm HP HQ s Hs. destruct (Hm s (HP s Hs)) as (a & s' & E & H). eauto.
Qed.
End monad_lemmas.

(** ** Array lemmas *)

Section array_lemmas.
Context {A : Type}.
Implicit Types l src : list A.

Lemma zlen_nonneg l : 0 ≤ zlen l.
Proof. unfold zlen. lia. Qed.
Lemma zlen_app l1 l2 : zlen (l1 ++ l2) = zlen l1 + zlen l2.
Proof. unfold zlen. rewrite length_app. lia. Qed.
Lemma zlen_cons x l : zlen (x :: l) = 1 + zlen l.
Proof. unfold zlen. cbn [length]. lia. Qed.

Lemma znth_Some l i x : znth l i = Some x ↔ 0 ≤ i ∧ l !! Z.to_nat i = Some x.
Proof. unfold znth. case_decide; naive_solver. Qed.

Lemma znth_lt l i : 0 ≤ i < zlen l → is_Some (znth l i).
Proof.
  intros [? Hi]. unfold znth, zlen in *. rewrite decide_True by done.
  apply lookup_lt_is_Some. lia.
Qed.

Lemma zset_length l i x l' : zset l i x = Some l' → zlen l' = zlen l.
Proof.
  unfold zset, zlen. case_decide; intros; simplify_eq. by rewrite length_insert.
Qed.

Lemma znth_zset_eq l i x l' : zset l i x = Some l' → znth l' i = Some x.
Proof.
  unfold zset, znth, zlen. case_decide; intros; simplify_eq.
  rewrite decide_True by lia. apply list_lookup_insert_eq. lia.
Qed.

Lemma znth_zset_ne l i j x l' : i ≠ j → zset l i x = Some l' → znth l' j = znth l j.
Proof.
  unfold zset, znth, zlen. case_decide; intros; simplify_eq.
  case_decide; [|done]. apply list_lookup_insert_ne. lia.
Qed.

Lemma zslice_length l off n l' : zslice l off n = Some l' → zlen l' = n.
Proof.
  unfold zslice, zlen. case_decide; intros; simplify_eq.
  rewrite length_take, length_drop. lia.
Qed.

Lemma zsplice_length l off src l' : zsplice l off src = Some l' → zlen l' = zlen l.
Proof.
  unfold zsplice, zlen. case_decide as H; intros; simplify_eq.
  rewrite !length_app, length_take, length_drop. lia.
Qed.

Lemma zslice_Some l off n :
  0 ≤ off → 0 ≤ n → off + n ≤ zlen l →
  zslice l off n = Some (take (Z.to_nat n) (drop (Z.to_nat off) l)).
Proof. intros. unfold zslice. by rewrite decide_True. Qed.

Lemma zsplice_is_Some l off src :
  0 ≤ off → off + zlen src ≤ zlen l → ∃ l', zsplice l off src = Some l'.
Proof. intros. unfold zsplice. rewrite decide_True by done. eauto. Qed.

(** What an index holds after a splice. *)
Lemma lookup_zsplice l off src l' i :
  zsplice l off src = Some l' →
  l' !! i = if decide (off ≤ Z.of_nat i < off + zlen src)
            then src !! Z.to_nat (Z.of_nat i - off) else l !! i.
Proof.
  unfold zsplice, zlen. case_decide as H; intros; simplify_eq.
  destruct (decide (Z.of_nat i < off)).
  - rewrite decide_False by lia. rewrite lookup_app_l, lookup_take_lt; [done|lia|].
    rewrite length_take. lia.
  - rewrite lookup_app_r by (rewrite length_take; lia).
    rewrite length_take, Nat.min_l by lia.
    case_decide.
    + rewrite lookup_app_l by lia. f_equal. lia.
    + rewrite lookup_app_r by lia. rewrite lookup_drop. f_equal. lia.
Qed.

(** A slice of what was just spliced in. *)
Lemma zslice_zsplice l off src l' :
  zsplice l off src = Some l' → zslice l' off (zlen src) = Some src.
Proof.
  intros Hs. pose proof (zsplice_length _ _ _ _ Hs) as Hl.
  unfold zsplice in Hs. case_decide as Hd; [|done]. injection Hs as <-.
  pose proof (zlen_nonneg src). rewrite zslice_Some by lia. f_equal.
  rewrite drop_app_length' by (rewrite length_take; unfold zlen in *; lia).
  unfold zlen. by rewrite Nat2Z.id, take_app_length.
Qed.

(** A lookup in an updated array is at the updated place or elsewhere. *)
Lemma lookup_list_insert_cases l i j x y :
  <[i := x]> l !! j = Some y → (j = i ∧ y = x) ∨ (j ≠ i ∧ l !! j = Some y).
Proof.
  destruct (decide (j = i)) as [->|].
  - intros H. pose proof (lookup_lt_Some _ _ _ H) as Hlt. rewrite length_insert in Hlt.
    rewrite list_lookup_insert_eq in H by done. naive_solver.
  - rewrite list_lookup_insert_ne by done. naive_solver.
Qed.
End array_lemmas.

(** Filters that agree on the list, and one that keeps it. *)
Lemma filter_ext {A} (P Q : A → Prop) `{!∀ x, Decision (P x), !∀ x, Decision (Q x)} (l : list A) :
  (∀ x, x ∈ l → P x ↔ Q x) → filter P l = filter Q l.
Proof.
  induction l as [|x l IH]; intros Hpq; [done|].
  rewrite !filter_cons, IH by (intros; apply Hpq; by right).
  pose proof (Hpq x ltac:(left)). repeat case_decide; tauto || done.
Qed.
Lemma filter_all {A} (P : A → Prop) `{!∀ x, Decision (P x)} (l : list A) :
  (∀ x, x ∈ l → P x) → filter P l = l.
Proof.
  induction l as [|x l IH]; intros Hp; [done|].
  rewrite filter_cons_True by (apply Hp; left). by rewrite IH by (intros; apply Hp; by right).
Qed.

(** Two lists with the same elements at every index. *)
Lemma list_eq_Z {A} (l1 l2 : list A) :
  zlen l1 = zlen l2 →
  (∀ i, 0 ≤ i < zlen l1 → l1 !! Z.to_nat i = l2 !! Z.to_nat i) → l1 = l2.
Proof.
  intros Hz H. apply list_eq. intros i. destruct (decide (i < length l1)%nat).
  - specialize (H (Z.of_nat i)). rewrite Nat2Z.id in H. apply H. unfold zlen. lia.
  - rewrite !lookup_ge_None_2; [done|unfold zlen in Hz; lia..].
Qed.

(** Appending: a list described index by index. *)
Lemma list_eq_app {A} (l l1 l2 : list A) :
  zlen l = zlen l1 + zlen l2 →
  (∀ i, 0 ≤ i < zlen l1 → l !! Z.to_nat i = l1 !! Z.to_nat i) →
  (∀ i, 0 ≤ i < zlen l2 → l !! Z.to_nat (zlen l1 + i) = l2 !! Z.to_nat i) →
  l = l1 ++ l2.
Proof.
  intros Hz H1 H2. apply list_eq. intros i.
  destruct (decide (i < length l1)%nat).
  - rewrite lookup_app_l by done. specialize (H1 (Z.of_nat i)).
    rewrite Nat2Z.id in H1. apply H1. unfold zlen. lia.
  - rewrite lookup_app_r by lia.
    destruct (decide (i < length l1 + length l2)%nat).
    + specialize (H2 (Z.of_nat (i - length l1))). rewrite Nat2Z.id in H2.
      rewrite <- H2 by (unfold zlen; lia). f_equal. unfold zlen. lia.
    + rewrite !lookup_ge_None_2; [done|lia|unfold zlen in Hz; lia].
Qed.

(** A run that returns [a] ends in its own [outcome_state]: evaluating only the value avoids
    comparing the states. *)
Lemma outcome_value {S A} (o : outcome (A * S)) a d :
  match o with Ret (b, _) => b = a | _ => False end → o = Ret (a, outcome_state o d).
Proof. by destruct o as [[b s]| | |]; [intros ->|..]. Qed.

(** Run the first operation of a sequence with the equation [H]. *)
Ltac mstep H := erewrite mbind_Ret by (exact H); cbv beta iota.

#[export] Hint Resolve zlen_nonneg : hana.
