(* ===== verification/DList.v ===== *)
(** * Intrusive linked lists

    The first part is a theory of circular doubly linked lists threaded through the
    [next]/[prev] fields of nodes in a store, shared by [list.c] and by the buddy
    allocator.  The second part models [kernel/lib/list.c] and the traversal macros
    of [kernel/include/tools/list.h]. *)

From S2P Require Export Prelude.

(** ** Link chains *)

(** [links nf pf c]: along the sequence [c] every node's [next] is its successor
    and every successor's [prev] is the node. *)
Fixpoint links (nf pf : Z → option Z) (c : list Z) : Prop :=
  match c with
  | a :: ((b :: _) as c') => nf a = Some b ∧ pf b = Some a ∧ links nf pf c'
  | _ => True
  end.

(** The circular list with head [h] and nodes [l]. *)
Definition dlist (nf pf : Z → option Z) (h : Z) (l : list Z) : Prop :=
  NoDup (h :: l) ∧ links nf pf (h :: l ++ [h]).

Section links.
Context (nf pf : Z → option Z).

Lemma links_cons2 a b c :
  links nf pf (a :: b :: c) ↔ nf a = Some b ∧ pf b = Some a ∧ links nf pf (b :: c).
Proof. done. Qed.

Lemma links_app c1 a c2 :
  links nf pf (c1 ++ a :: c2) ↔ links nf pf (c1 ++ [a]) ∧ links nf pf (a :: c2).
Proof.
  induction c1 as [|x [|y c1] IH]; [cbn; naive_solver|cbn; naive_solver|].
  cbn [app] in *. rewrite !links_cons2, IH. naive_solver.
Qed.

Section frame.
Context (nf' pf' : Z → option Z).

(** Only the [next] of all nodes but the last, and the [prev] of all but the first,
    matter. *)
Lemma links_frame c :
  links nf pf c →
  (∀ c1 a b c2, c = c1 ++ a :: b :: c2 → nf' a = nf a ∧ pf' b = pf b) →
  links nf' pf' c.
Proof.
  induction c as [|a [|b c] IH]; [done|done|].
  rewrite links_cons2. intros (Hn & Hp & Hl) Hf.
  destruct (Hf [] a b c eq_refl) as [En Ep]. cbn.
  split; [congruence|]. split; [congruence|]. apply IH; [done|].
  intros c1 a' b' c2 E. apply (Hf (a :: c1) a' b' c2). by rewrite E.
Qed.
End frame.
End links.

(** Adjacent elements of a list without repetitions. *)
Lemma NoDup_adjacent (c1 c2 : list Z) a b :
  NoDup (c1 ++ a :: b :: c2) → (a ∉ c1) ∧ (b ∉ c1) ∧ a ≠ b ∧ (a ∉ c2) ∧ (b ∉ c2).
Proof. rewrite NoDup_app, !NoDup_cons. set_solver. Qed.

Section updates.
Context {nf pf nf' pf' : Z → option Z} {h : Z} {l : list Z}.

(** Links of a sub-chain survive updates of the [next] of nodes in [ns] and of the
    [prev] of nodes in [ps]. *)
Lemma links_frame_nodup c :
  links nf pf c →
  (∀ a, a ∈ c → ((∃ c1, c = c1 ++ [a]) ∨ nf' a = nf a)) →
  (∀ b, b ∈ c → ((∃ c2, c = b :: c2) ∨ pf' b = pf b)) →
  NoDup c → links nf' pf' c.
Proof.
  intros Hl Hn Hp Hnd. eapply links_frame; [done|]. intros c1 a b c2 ->.
  pose proof (NoDup_adjacent _ _ _ _ Hnd) as (Ha1 & Hb1 & Hab & Ha2 & Hb2). split.
  - destruct (Hn a) as [[c3 E]|]; [set_solver| |done].
    exfalso. rewrite cons_middle, app_assoc in E.
    destruct (exists_last (l := b :: c2)) as (c4 & z & Ez); [done|].
    rewrite Ez, app_assoc in E. apply app_inj_tail in E as [_ <-].
    assert (z ∈ b :: c2) by (rewrite Ez; set_solver). set_solver.
  - destruct (Hp b) as [[c3 E]|]; [set_solver| |done].
    exfalso. destruct c1; cbn in E; simplify_eq. set_solver.
Qed.

(** Insertion right after the head. *)
Lemma dlist_insert_front x f :
  dlist nf pf h l → x ∉ h :: l → head (l ++ [h]) = Some f →
  nf' h = Some x → pf' x = Some h → nf' x = Some f → pf' f = Some x →
  (∀ a, a ≠ h → a ≠ x → nf' a = nf a) → (∀ b, b ≠ f → b ≠ x → pf' b = pf b) →
  dlist nf' pf' h (x :: l).
Proof.
  intros [Hnd Hl] Hx Hf H1 H2 H3 H4 Hn Hp. apply NoDup_cons in Hnd as [Hh Hnd].
  split; [rewrite !NoDup_cons; set_solver|]. cbn [app]. rewrite links_cons2.
  assert (NoDup (l ++ [h])) as Hnd' by
    (apply NoDup_app; split_and!; [done|set_solver|apply NoDup_singleton]).
  destruct (l ++ [h]) as [|f' c] eqn:E; [done|]. injection Hf as ->.
  rewrite links_cons2 in Hl. destruct Hl as (_ & _ & Hl).
  rewrite links_cons2. split_and!; [done..|].
  apply (links_frame_nodup (f :: c)); [done| | |done].
  - intros a Ha. destruct (decide (a = h)) as [->|].
    + left. by exists l.
    + right. apply Hn; [done|]. intros ->. rewrite <- E in Ha. set_solver.
  - intros b Hb. destruct (decide (b = f)) as [->|]; [left; by exists c|].
    right. apply Hp; [done|]. intros ->. rewrite <- E in Hb. set_solver.
Qed.

(** Insertion right before the head; [t] is the old last node. *)
Lemma dlist_insert_back x t :
  dlist nf pf h l → x ∉ h :: l → last (h :: l) = Some t →
  nf' t = Some x → pf' x = Some t → nf' x = Some h → pf' h = Some x →
  (∀ a, a ≠ t → a ≠ x → nf' a = nf a) → (∀ b, b ≠ h → b ≠ x → pf' b = pf b) →
  dlist nf' pf' h (l ++ [x]).
Proof.
  intros [Hnd Hl] Hx Ht H1 H2 H3 H4 Hn Hp. apply last_Some in Ht as [c E].
  split; [rewrite app_comm_cons; apply NoDup_app; split_and!;
    [done|set_solver|apply NoDup_singleton]|].
  replace (h :: (l ++ [x]) ++ [h]) with (c ++ t :: [x; h]) by
    (rewrite <- app_assoc, (app_comm_cons l), E, <- app_assoc; done).
  rewrite app_comm_cons, E, <- app_assoc in Hl. cbn [app] in Hl.
  rewrite links_app in Hl. destruct Hl as [Hl _]. rewrite E in Hnd, Hx.
  rewrite links_app. split; [|cbn; naive_solver].
  apply (links_frame_nodup (c ++ [t])); [done| | |done].
  - intros a Ha. destruct (decide (a = t)) as [->|]; [left; by exists c|].
    right. apply Hn; [done|]. intros ->. done.
  - intros b Hb. destruct (decide (b = h)) as [->|].
    + left. destruct c as [|h' c]; injection E as -> ?; [by exists []|by exists (c ++ [t])].
    + right. apply Hp; [done|]. intros ->. done.
Qed.

(** Unlinking a node: its neighbours are its fields. *)
Lemma dlist_neighbours l1 x l2 :
  l = l1 ++ x :: l2 → dlist nf pf h l →
  ∃ p n, last (h :: l1) = Some p ∧ head (l2 ++ [h]) = Some n ∧
    pf x = Some p ∧ nf x = Some n.
Proof.
  intros -> [Hnd Hl].
  destruct (last (h :: l1)) as [p|] eqn:Ep;
    [|apply last_None in Ep; done].
  destruct (l2 ++ [h]) as [|n c2] eqn:En; [by destruct l2|].
  exists p, n. split_and!; [done..| |]; apply last_Some in Ep as [c1 Ep].
  - replace (h :: (l1 ++ x :: l2) ++ [h]) with (c1 ++ p :: x :: (l2 ++ [h])) in Hl.
    + rewrite links_app, links_cons2 in Hl. naive_solver.
    + rewrite <- app_assoc. cbn. by rewrite (app_comm_cons l1), Ep, <- app_assoc.
  - replace (h :: (l1 ++ x :: l2) ++ [h]) with ((h :: l1) ++ x :: n :: c2) in Hl.
    + rewrite links_app, links_cons2 in Hl. naive_solver.
    + rewrite <- app_assoc. cbn. by rewrite En.
Qed.

Lemma dlist_remove l1 x l2 p n :
  l = l1 ++ x :: l2 → dlist nf pf h l →
  last (h :: l1) = Some p → head (l2 ++ [h]) = Some n →
  nf' p = Some n → pf' n = Some p →
  (∀ a, a ≠ p → a ≠ x → nf' a = nf a) → (∀ b, b ≠ n → b ≠ x → pf' b = pf b) →
  dlist nf' pf' h (l1 ++ l2).
Proof.
  intros -> [Hnd Hl] Ep En H1 H2 Hn Hp. apply last_Some in Ep as [c1 Ep].
  destruct (l2 ++ [h]) as [|n' c2] eqn:En'; [done|]. injection En as ->.
  rewrite app_comm_cons in Hnd. apply NoDup_app in Hnd as (Hnd1 & Hd & Hnd2).
  apply NoDup_cons in Hnd2 as [Hx2 Hnd2].
  assert (x ∉ h :: l1) as Hx1 by (intros ?; by apply (Hd x); set_solver).
  split.
  { rewrite app_comm_cons. apply NoDup_app. split_and!; [done| |done].
    intros z Hz ?. apply (Hd z Hz). set_solver. }
  replace (h :: (l1 ++ x :: l2) ++ [h]) with ((h :: l1) ++ x :: n :: c2) in Hl by
    (rewrite <- app_assoc; cbn; by rewrite En').
  replace (h :: (l1 ++ l2) ++ [h]) with (c1 ++ p :: n :: c2) by
    (rewrite <- app_assoc, En', (app_comm_cons l1), Ep, <- app_assoc; done).
  rewrite Ep, <- app_assoc in Hl. cbn [app] in Hl.
  rewrite links_app, links_cons2 in Hl. destruct Hl as (Hl1 & _ & _ & Hl2).
  rewrite links_cons2 in Hl2. destruct Hl2 as (_ & _ & Hl2).
  assert (NoDup (n :: c2)) as Hnd3.
  { rewrite <- En'. apply NoDup_app. split_and!; [done| |apply NoDup_singleton].
    intros z Hz ->%list_elem_of_singleton. apply (Hd h); set_solver. }
  assert (x ∉ n :: c2) as Hxn by (rewrite <- En'; set_solver).
  rewrite links_app, links_cons2. rewrite Ep in Hnd1, Hx1, Hd. split_and!; [|done..|].
  - apply (links_frame_nodup (c1 ++ [p])); [done| | |done].
    + intros a Ha. destruct (decide (a = p)) as [->|]; [left; by exists c1|].
      right. apply Hn; [done|]. intros ->. done.
    + intros b Hb. destruct (decide (b = h)) as [->|].
      * left. destruct c1 as [|h' c1]; injection Ep as -> ?; [by exists []|by exists (c1 ++ [p])].
      * right. apply Hp; [|intros ->; done]. intros ->.
        assert (n ∈ l2 ++ [h]) as Hin by (rewrite En'; set_solver).
        apply (Hd n); set_solver.
  - apply (links_frame_nodup (n :: c2)); [done| | |done].
    + intros a Ha. destruct (decide (a = h)) as [->|]; [left; by exists l2|].
      right. apply Hn; [|intros ->; done]. intros ->.
      rewrite <- En' in Ha. apply (Hd p); set_solver.
    + intros b Hb. destruct (decide (b = n)) as [->|]; [left; by exists c2|].
      right. apply Hp; [done|]. intros ->. done.
Qed.

(** A list none of whose nodes is touched stays as it is. *)
Lemma dlist_frame :
  dlist nf pf h l → (∀ a, a ∈ h :: l → nf' a = nf a ∧ pf' a = pf a) →
  dlist nf' pf' h l.
Proof.
  intros [Hnd Hl] Hf. split; [done|]. eapply links_frame; [done|].
  intros c1 a b c2 E.
  split; apply Hf; assert (a ∈ h :: l ++ [h] ∧ b ∈ h :: l ++ [h]) by
    (rewrite E; set_solver); set_solver.
Qed.
End updates.

(** ** [kernel/lib/list.c] *)

Record list_head := ListHead { next : Z; prev : Z }.

(** The nodes of all lists, by address. *)
Abbreviation node_heap := (gmap Z list_head).

Definition get_next (a : Z) : M node_heap Z := mtry (λ σ, next <$> σ !! a).
Definition get_prev (a : Z) : M node_heap Z := mtry (λ σ, prev <$> σ !! a).
Definition set_next (a v : Z) : M node_heap unit :=
  n ← mtry (λ σ : node_heap, σ !! a); modify <[a := ListHead v (prev n)]>.
Definition set_prev (a v : Z) : M node_heap unit :=
  n ← mtry (λ σ : node_heap, σ !! a); modify <[a := ListHead (next n) v]>.

Definition list_init (head : Z) : M node_heap unit :=
  set_prev head head;; set_next head head.

Definition list_insert (head item : Z) : M node_heap unit :=
  f ← get_next head;
  set_next item f;;
  set_prev item head;;
  f ← get_next item;
  set_prev f item;;
  set_next head item.

Definition list_insert_end (head item : Z) : M node_heap unit :=
  set_next item head;;
  t ← get_prev head;
  set_prev item t;;
  t ← get_prev head;
  set_next t item;;
  set_prev head item.

Definition list_remove (item : Z) : M node_heap unit :=
  p ← get_prev item;
  n ← get_next item;
  set_next p n;;
  n ← get_next item;
  p ← get_prev item;
  set_prev n p.

(** [list_for_each]: the nodes visited, or [Spin] when [fuel] runs out. *)
Fixpoint list_for_each (fuel : nat) (head cur : Z) : M node_heap (list Z) :=
  match fuel with
  | O => mspin
  | S fuel =>
      if cur =? head then mret []
      else n ← get_next cur; l ← list_for_each fuel head n; mret (cur :: l)
  end.

(** [list_for_each_entry] and [list_for_each] visit the same nodes. *)
Definition list_nodes (fuel : nat) (head : Z) : M node_heap (list Z) :=
  n ← get_next head; list_for_each fuel head n.

(** Singly linked lists: the [next] field alone. *)
Definition hlist_insert (head item : Z) : M node_heap unit :=
  n ← get_next head;
  set_next item n;;
  set_next head item.

Fixpoint hlist_remove (fuel : nat) (parent item : Z) : M node_heap unit :=
  match fuel with
  | O => mspin
  | S fuel =>
      n ← get_next parent;
      if negb (n =? item) then hlist_remove fuel n item
      else n' ← get_next item; set_next parent n'
  end.

Definition next_of (σ : node_heap) (a : Z) : option Z := next <$> σ !! a.
Definition prev_of (σ : node_heap) (a : Z) : option Z := prev <$> σ !! a.

(** [h] is the head of the list [l] in [σ]. *)
Definition is_list (σ : node_heap) (h : Z) (l : list Z) : Prop :=
  dlist (next_of σ) (prev_of σ) h l.

Lemma get_next_ok σ a v : next_of σ a = Some v → get_next a σ = Ret (v, σ).
Proof. unfold next_of, get_next, mtry. by intros ->. Qed.
Lemma get_prev_ok σ a v : prev_of σ a = Some v → get_prev a σ = Ret (v, σ).
Proof. unfold prev_of, get_prev, mtry. by intros ->. Qed.

(** A write of one field, seen through the two projections. *)
Lemma set_next_ok σ a v :
  a ∈ dom σ → ∃ σ', set_next a v σ = Ret (tt, σ') ∧ dom σ' = dom σ ∧
    (∀ b, next_of σ' b = if decide (b = a) then Some v else next_of σ b) ∧
    (∀ b, prev_of σ' b = prev_of σ b).
Proof.
  intros [n Hn]%elem_of_dom. unfold set_next, next_of, prev_of. munfold. rewrite Hn.
  eexists. split; [done|]. split; [rewrite dom_insert_L; apply elem_of_dom_2 in Hn; set_solver|].
  split; intros b; destruct (decide (b = a)) as [->|];
    by rewrite ?lookup_insert_eq, ?lookup_insert_ne, ?Hn by done.
Qed.

Lemma set_prev_ok σ a v :
  a ∈ dom σ → ∃ σ', set_prev a v σ = Ret (tt, σ') ∧ dom σ' = dom σ ∧
    (∀ b, prev_of σ' b = if decide (b = a) then Some v else prev_of σ b) ∧
    (∀ b, next_of σ' b = next_of σ b).
Proof.
  intros [n Hn]%elem_of_dom. unfold set_prev, next_of, prev_of. munfold. rewrite Hn.
  eexists. split; [done|]. split; [rewrite dom_insert_L; apply elem_of_dom_2 in Hn; set_solver|].
  split; intros b; destruct (decide (b = a)) as [->|];
    by rewrite ?lookup_insert_eq, ?lookup_insert_ne, ?Hn by done.
Qed.

Lemma next_of_dom σ a v : next_of σ a = Some v → a ∈ dom σ.
Proof. unfold next_of. rewrite fmap_Some, elem_of_dom. naive_solver. Qed.
Lemma prev_of_dom σ a v : prev_of σ a = Some v → a ∈ dom σ.
Proof. unfold prev_of. rewrite fmap_Some, elem_of_dom. naive_solver. Qed.

(** Symbolic execution of a sequence of field reads and writes. *)
Ltac lget E := erewrite mbind_Ret by (first [apply get_next_ok | apply get_prev_ok]; exact E).

(** The first node and the last node of a list. *)
Lemma dlist_head nf pf h l :
  dlist nf pf h l → ∃ f, head (l ++ [h]) = Some f ∧ nf h = Some f ∧ pf f = Some h.
Proof.
  intros [_ Hl]. destruct (l ++ [h]) as [|f c] eqn:E; [by destruct l|].
  exists f. rewrite links_cons2 in Hl. naive_solver.
Qed.

Lemma dlist_last nf pf h l :
  dlist nf pf h l → ∃ t, last (h :: l) = Some t ∧ nf t = Some h ∧ pf h = Some t.
Proof.
  intros [_ Hl]. destruct (last (h :: l)) as [t|] eqn:E; [|apply last_None in E; done].
  exists t. split; [done|]. apply last_Some in E as [c E].
  rewrite (app_comm_cons l), E, <- app_assoc in Hl. cbn [app] in Hl.
  rewrite links_app in Hl. cbn in Hl. naive_solver.
Qed.

Lemma list_init_ok σ h :
  h ∈ dom σ → ∃ σ', list_init h σ = Ret (tt, σ') ∧ dom σ' = dom σ ∧ is_list σ' h [] ∧
    (∀ b, b ≠ h → next_of σ' b = next_of σ b ∧ prev_of σ' b = prev_of σ b).
Proof.
  intros Hh. unfold list_init.
  destruct (set_prev_ok σ h h Hh) as (σ1 & E1 & D1 & P1 & N1). mstep E1.
  destruct (set_next_ok σ1 h h) as (σ2 & E2 & D2 & N2 & P2); [by rewrite D1|].
  exists σ2. split; [done|]. split; [congruence|]. split.
  - split; [apply NoDup_singleton|]. cbn.
    rewrite N2, P2, P1. by rewrite !decide_True by done.
  - intros b Hb. rewrite N2, P2, P1, N1. by rewrite !decide_False by done.
Qed.

(** Rewrite the projections of a chain of field writes. *)
Ltac proj_tac :=
  repeat match goal with
  | H : ∀ b, next_of ?s b = _ |- context [next_of ?s _] => rewrite H
  | H : ∀ b, prev_of ?s b = _ |- context [prev_of ?s _] => rewrite H
  end; repeat case_decide; try congruence.

Lemma list_insert_ok σ h l x :
  is_list σ h l → x ∈ dom σ → x ∉ h :: l →
  ∃ σ', list_insert h x σ = Ret (tt, σ') ∧ dom σ' = dom σ ∧ is_list σ' h (x :: l) ∧
    (∀ b, b ∉ x :: h :: l → next_of σ' b = next_of σ b ∧ prev_of σ' b = prev_of σ b).
Proof.
  intros Hl Hx Hxl. destruct (dlist_head _ _ _ _ Hl) as (f & Hf & Hn & Hp).
  pose proof (next_of_dom _ _ _ Hn) as Hh. pose proof (prev_of_dom _ _ _ Hp) as Hfd.
  assert (f ∈ h :: l) as Hfl by
    (apply head_Some_elem_of in Hf; set_solver).
  unfold list_insert. lget Hn.
  destruct (set_next_ok σ x f Hx) as (σ1 & E1 & D1 & N1 & P1). mstep E1.
  destruct (set_prev_ok σ1 x h) as (σ2 & E2 & D2 & P2 & N2); [congruence|]. mstep E2.
  erewrite mbind_Ret by (apply get_next_ok; proj_tac; done). cbv beta iota.
  destruct (set_prev_ok σ2 f x) as (σ3 & E3 & D3 & P3 & N3); [congruence|]. mstep E3.
  destruct (set_next_ok σ3 h x) as (σ4 & E4 & D4 & N4 & P4); [congruence|].
  exists σ4. split; [done|]. split; [congruence|]. split.
  - eapply (dlist_insert_front x f Hl); [done|done|..];
      [proj_tac; set_solver|proj_tac; set_solver|proj_tac; set_solver|proj_tac; set_solver|..];
      intros; proj_tac.
  - intros b Hb. split; proj_tac; set_solver.
Qed.

Lemma list_insert_end_ok σ h l x :
  is_list σ h l → x ∈ dom σ → x ∉ h :: l →
  ∃ σ', list_insert_end h x σ = Ret (tt, σ') ∧ dom σ' = dom σ ∧ is_list σ' h (l ++ [x]) ∧
    (∀ b, b ∉ x :: h :: l → next_of σ' b = next_of σ b ∧ prev_of σ' b = prev_of σ b).
Proof.
  intros Hl Hx Hxl. destruct (dlist_last _ _ _ _ Hl) as (t & Ht & Hn & Hp).
  pose proof (next_of_dom _ _ _ Hn) as Htd. pose proof (prev_of_dom _ _ _ Hp) as Hh.
  assert (t ∈ h :: l) as Htl by (apply last_Some_elem_of in Ht; set_solver).
  unfold list_insert_end.
  destruct (set_next_ok σ x h Hx) as (σ1 & E1 & D1 & N1 & P1). mstep E1.
  erewrite mbind_Ret by (apply get_prev_ok; proj_tac; done). cbv beta iota.
  destruct (set_prev_ok σ1 x t) as (σ2 & E2 & D2 & P2 & N2); [congruence|]. mstep E2.
  erewrite mbind_Ret by (apply get_prev_ok; proj_tac; first [done | set_solver]).
  cbv beta iota.
  destruct (set_next_ok σ2 t x) as (σ3 & E3 & D3 & N3 & P3); [congruence|]. mstep E3.
  destruct (set_prev_ok σ3 h x) as (σ4 & E4 & D4 & P4 & N4); [congruence|].
  exists σ4. split; [done|]. split; [congruence|]. split.
  - eapply (dlist_insert_back x t Hl); [done|done|..];
      [proj_tac; set_solver|proj_tac; set_solver|proj_tac; set_solver|proj_tac; set_solver|..];
      intros; proj_tac.
  - intros b Hb. split; proj_tac; set_solver.
Qed.

Lemma list_remove_ok σ h l1 x l2 :
  is_list σ h (l1 ++ x :: l2) →
  ∃ σ', list_remove x σ = Ret (tt, σ') ∧ dom σ' = dom σ ∧ is_list σ' h (l1 ++ l2) ∧
    (∀ b, b ∉ h :: l1 ++ x :: l2 → next_of σ' b = next_of σ b ∧ prev_of σ' b = prev_of σ b).
Proof.
  intros Hl. destruct (dlist_neighbours _ _ _ eq_refl Hl) as (p & n & Ep & En & Hp & Hn).
  pose proof Hl as [Hnd _]. rewrite (app_comm_cons l1) in Hnd.
  apply NoDup_app in Hnd as (_ & Hd & [Hx2 _]%NoDup_cons).
  assert (p ∈ h :: l1) as Hpl by (by apply last_Some_elem_of in Ep).
  assert (n ∈ l2 ++ [h]) as Hnl by (by apply head_Some_elem_of in En).
  assert (p ≠ x) as Hpx by (intros ->; apply (Hd x); set_solver).
  assert (n ≠ x) as Hnx by (intros ->; apply (Hd x); set_solver).
  assert (p ∈ dom σ ∧ n ∈ dom σ) as [Hpd Hnd].
  { destruct Hl as [_ Hl].
    apply last_Some in Ep as [c1 Ep]. destruct (l2 ++ [h]) as [|n' c2] eqn:E2; [done|].
    injection En as ->. rewrite <- app_assoc in Hl. cbn [app] in Hl.
    rewrite E2, (app_comm_cons l1), Ep, <- app_assoc in Hl. cbn [app] in Hl.
    rewrite links_app, !links_cons2 in Hl. destruct Hl as (_ & Hl1 & _ & _ & Hl2 & _).
    split; [by eapply next_of_dom|by eapply prev_of_dom]. }
  unfold list_remove. lget Hp. lget Hn.
  destruct (set_next_ok σ p n Hpd) as (σ1 & E1 & D1 & N1 & P1). mstep E1.
  erewrite mbind_Ret by (apply get_next_ok; proj_tac; done). cbv beta iota.
  erewrite mbind_Ret by (apply get_prev_ok; proj_tac; done). cbv beta iota.
  destruct (set_prev_ok σ1 n p) as (σ2 & E2 & D2 & P2 & N2); [congruence|].
  exists σ2. split; [done|]. split; [congruence|]. split.
  - eapply (dlist_remove l1 x l2 p n eq_refl Hl); [done|done|..];
      [proj_tac; set_solver|proj_tac; set_solver|..]; intros; proj_tac.
  - intros b Hb. split; proj_tac; set_solver.
Qed.

(** A traversal visits the nodes in order, and [length l + 1] steps are enough. *)
Lemma list_for_each_ok σ h c fuel :
  h ∉ c → links (next_of σ) (prev_of σ) (c ++ [h]) → (length c < fuel)%nat →
  list_for_each fuel h (default h (head (c ++ [h]))) σ = Ret (c, σ).
Proof.
  revert fuel. induction c as [|a c IH]; intros [|fuel] Hh Hl Hf; cbn in Hf; [lia| |lia|].
  - cbn. by rewrite Z.eqb_refl.
  - change (default h (head ((a :: c) ++ [h]))) with a. cbn [list_for_each].
    rewrite (proj2 (Z.eqb_neq a h)) by set_solver.
    assert (∃ b c', c ++ [h] = b :: c') as (b & c' & E)
      by (destruct c; cbn; eauto).
    cbn [app] in Hl. rewrite E, links_cons2, <- E in Hl. destruct Hl as (Hn & _ & Hl).
    lget Hn. replace b with (default h (head (c ++ [h]))) by (by rewrite E).
    by erewrite mbind_Ret by (apply IH; [set_solver|done|lia]).
Qed.

Lemma list_nodes_ok σ h l fuel :
  is_list σ h l → (length l < fuel)%nat → list_nodes fuel h σ = Ret (l, σ).
Proof.
  intros Hl Hf. destruct (dlist_head _ _ _ _ Hl) as (f & Ef & Hn & _).
  unfold list_nodes. lget Hn. destruct Hl as [Hnd Hl]. apply NoDup_cons in Hnd as [Hh _].
  replace f with (default h (head (l ++ [h]))) by (by rewrite Ef).
  apply list_for_each_ok; [done| |done].
  destruct (l ++ [h]) as [|b c]; [done|]. rewrite links_cons2 in Hl. naive_solver.
Qed.

(** ** Any sequence of list operations *)

Inductive list_op :=
  | InsertFirst (x : Z)
  | InsertLast (x : Z)
  | Remove (x : Z).

Definition run_op (h : Z) (o : list_op) : M node_heap unit :=
  match o with
  | InsertFirst x => list_insert h x
  | InsertLast x => list_insert_end h x
  | Remove x => list_remove x
  end.

Fixpoint run_ops (h : Z) (os : list list_op) : M node_heap unit :=
  match os with
  | [] => mret tt
  | o :: os => run_op h o;; run_ops h os
  end.

(** The same operation on a sequence of addresses. *)
Definition spec_op (o : list_op) (l : list Z) : list Z :=
  match o with
  | InsertFirst x => x :: l
  | InsertLast x => l ++ [x]
  | Remove x => filter (λ y, y ≠ x) l
  end.

(** What callers guarantee: a node is inserted when it is allocated and in no list of
    the head, removed when it is in the list. *)
Definition op_valid (σ : node_heap) (h : Z) (l : list Z) (o : list_op) : Prop :=
  match o with
  | InsertFirst x | InsertLast x => x ∈ dom σ ∧ x ∉ h :: l
  | Remove x => x ∈ l
  end.

Fixpoint ops_valid (σ : node_heap) (h : Z) (l : list Z) (os : list list_op) : Prop :=
  match os with
  | [] => True
  | o :: os => op_valid σ h l o ∧ ops_valid σ h (spec_op o l) os
  end.

Lemma filter_ne_id (l : list Z) x : x ∉ l → filter (λ y, y ≠ x) l = l.
Proof.
  induction l as [|y l IH]; [done|]. intros Hx.
  rewrite filter_cons_True by set_solver. f_equal. apply IH. set_solver.
Qed.

Lemma filter_ne_middle (l1 l2 : list Z) x :
  NoDup (l1 ++ x :: l2) → filter (λ y, y ≠ x) (l1 ++ x :: l2) = l1 ++ l2.
Proof.
  intros (_ & Hd & [Hx _]%NoDup_cons)%NoDup_app.
  assert (x ∉ l1) by (intros ?; apply (Hd x); set_solver).
  rewrite filter_app, filter_cons_False by naive_solver.
  by rewrite !filter_ne_id.
Qed.

Lemma op_valid_dom σ σ' h l o : dom σ' = dom σ → op_valid σ h l o → op_valid σ' h l o.
Proof. intros E. by destruct o; cbn; rewrite ?E. Qed.

Lemma ops_valid_dom σ σ' h l os : dom σ' = dom σ → ops_valid σ h l os → ops_valid σ' h l os.
Proof.
  intros E. revert l. induction os as [|o os IH]; intros l; cbn; [done|].
  intros [? ?]. split; [by eapply op_valid_dom|eauto].
Qed.

(** One operation: the concrete list follows the abstract one, and nodes of other
    lists keep their fields. *)
Lemma run_op_ok σ h l o :
  is_list σ h l → op_valid σ h l o →
  ∃ σ', run_op h o σ = Ret (tt, σ') ∧ dom σ' = dom σ ∧ is_list σ' h (spec_op o l).
Proof.
  intros Hl. destruct o as [x|x|x]; cbn.
  - intros [? ?]. destruct (list_insert_ok σ h l x) as (σ' & ? & ? & ? & _); eauto.
  - intros [? ?]. destruct (list_insert_end_ok σ h l x) as (σ' & ? & ? & ? & _); eauto.
  - intros (l1 & l2 & ->)%list_elem_of_split.
    destruct (list_remove_ok σ h l1 x l2 Hl) as (σ' & ? & ? & ? & _).
    exists σ'. split_and!; [done..|]. rewrite filter_ne_middle; [done|].
    destruct Hl as [Hnd _]. by apply NoDup_cons in Hnd as [_ ?].
Qed.

(** C11: starting from [list_init], any sequence of [list_insert], [list_insert_end]
    and [list_remove] calls that inserts only nodes not in the list and removes only
    nodes in it returns, and a [list_for_each] traversal afterwards visits exactly
    the nodes of the corresponding sequence, in order, after as many steps as there
    are nodes. *)
Theorem list_refines_sequence σ h os :
  h ∈ dom σ → ops_valid σ h [] os →
  let l := foldl (λ l o, spec_op o l) [] os in
  ∃ σ', (list_init h;; run_ops h os) σ = Ret (tt, σ') ∧ is_list σ' h l ∧
    list_nodes (S (length l)) h σ' = Ret (l, σ').
Proof.
  intros Hh Hv. cbv zeta.
  assert (∀ os l σ1, is_list σ1 h l → ops_valid σ1 h l os →
    ∃ σ', run_ops h os σ1 = Ret (tt, σ') ∧
      is_list σ' h (foldl (λ l o, spec_op o l) l os)) as Hrun.
  { clear. induction os as [|o os IH]; intros l σ1 Hl Hv; [by exists σ1|].
    destruct Hv as [Hv Hvs]. destruct (run_op_ok _ _ _ _ Hl Hv) as (σ2 & E & D & Hl2).
    cbn [run_ops foldl]. mstep E. apply IH; [done|]. by eapply ops_valid_dom. }
  destruct (list_init_ok σ h Hh) as (σ1 & E & D & Hl & _).
  destruct (Hrun os [] σ1 Hl) as (σ' & E' & Hl'); [by eapply ops_valid_dom|].
  exists σ'. mstep E. split_and!; [done..|]. apply list_nodes_ok; [done|lia].
Qed.

Lemma list_refines_sequence_witness :
  let σ := list_to_map ((λ a, (a, ListHead 0 0)) <$> [1; 2; 3; 4]) : node_heap in
  let os := [InsertFirst 2; InsertLast 3; InsertFirst 4; Remove 2] in
  ∃ σ', (list_init 1;; run_ops 1 os) σ = Ret (tt, σ') ∧
    list_nodes 3 1 σ' = Ret ([4; 3], σ').
Proof.
  destruct (list_refines_sequence
    (list_to_map ((λ a, (a, ListHead 0 0)) <$> [1; 2; 3; 4])) 1
    [InsertFirst 2; InsertLast 3; InsertFirst 4; Remove 2]) as (σ' & E & _ & N).
  - vm_compute. eauto.
  - cbn; split_and!; try done; set_solver.
  - exists σ'. done.
Defined.
