(* ===== verification/Buddy.v ===== *)
(** * The buddy allocator

    Models [kernel/mm/buddy.c] and [kernel/mm/kalloc.c].  The block headers live in
    the free pages themselves: [bmem] maps an address to the header stored there,
    both for the pages of RAM and for the list heads inside [zone]. *)

From stdpp Require Export functions.
From S2P Require Export DList.

Definition MAX_ORDER : Z := 11.
Definition BUDDY_MAGIC : Z := 0x42554459.

Definition BLOCK_SIZE (order : Z) : Z := Z.shiftl PGSIZE order.
Definition BLOCK_NPAGES (order : Z) : Z := Z.shiftl 1 order.
Definition BUDDY_BLOCK (addr order : Z) : Z := Z.lxor (u64 addr) (Z.shiftl PGSIZE order).
Definition BUDDY_LOW (addr order : Z) : Z :=
  Z.land (u64 addr) (u64 (Z.lnot (Z.shiftl PGSIZE order))).

Record block := Block {
  magic : Z;
  border : Z;
  bprev : Z;
  bnext : Z
}.

Definition set_magic (v : Z) (b : block) : block := Block v (border b) (bprev b) (bnext b).
Definition set_order (v : Z) (b : block) : block := Block (magic b) v (bprev b) (bnext b).
Definition set_bprev (v : Z) (b : block) : block := Block (magic b) (border b) v (bnext b).
Definition set_bnext (v : Z) (b : block) : block := Block (magic b) (border b) (bprev b) v.

(** Where the linker and [kmem_init] put things: the RAM bounds of [memlayout.h], the
    address of [zone] and the value of [pages]. *)
Class layout := {
  KERNELBASE : Z;
  PHYSTOP : Z;
  zone_addr : Z;
  pages_base : Z
}.

(** Block headers, the [nr_free] counters, and the [order] fields of [pages]. *)
Record buddy := Buddy {
  bmem : gmap Z block;
  nr_free : list Z;
  page_order : gmap Z Z
}.

Section buddy.
Context `{layout}.

Definition IN_RAM (a : Z) : bool := (KERNELBASE <=? u64 a) && (u64 a <? PHYSTOP).

(** [&zone.free_area[order].free_list]; a [struct free_area] has 40 bytes. *)
Definition free_list (order : Z) : Z := zone_addr + 40 * order.

Definition rd (a : Z) : M buddy block := mtry (λ s, bmem s !! a).
Definition wr (a : Z) (f : block → block) : M buddy unit :=
  rd a;; modify (λ s, Buddy (alter f a (bmem s)) (nr_free s) (page_order s)).
Definition get_nr_free (order : Z) : M buddy Z := mtry (λ s, znth (nr_free s) order).
Definition set_nr_free (order v : Z) : M buddy unit :=
  l ← mtry (λ s, zset (nr_free s) order (u64 v));
  modify (λ s, Buddy (bmem s) l (page_order s)).

Definition page_idx (a : Z) : Z := Z.shiftr (u64 (a - pages_base)) PGSHIFT.
Definition GET_PAGE_ORDER (a : Z) : M buddy Z := mtry (λ s, page_order s !! page_idx a).
(** The field is four bits wide. *)
Definition SET_PAGE_ORDER (a o : Z) : M buddy unit :=
  GET_PAGE_ORDER a;;
  modify (λ s, Buddy (bmem s) (nr_free s) (<[page_idx a := Z.land o 15]> (page_order s))).

(** The loop of [get_order]; the shift of an [int] is undefined from 31 on. *)
Fixpoint order_loop (fuel : nat) (size order : Z) : option Z :=
  match fuel with
  | O => None
  | S fuel =>
      if Z.shiftl 1 order <? size then order_loop fuel size (order + 1) else Some order
  end.

Definition get_order (size : Z) : option Z := order_loop 31 (Z.shiftr size PGSHIFT) 0.

Definition add_first (addr order : Z) : M buddy unit :=
  massert (IS_PGALIGNED addr);;
  wr addr (set_order order);;
  hd ← rd (free_list order);
  let first_block := bnext hd in
  wr (free_list order) (set_bnext addr);;
  wr addr (set_bprev (free_list order));;
  wr addr (set_bnext first_block);;
  wr first_block (set_bprev addr);;
  n ← get_nr_free order;
  set_nr_free order (n + 1).

Definition add_last (addr order : Z) : M buddy unit :=
  massert (IS_PGALIGNED addr);;
  wr addr (set_order order);;
  wr addr (set_magic BUDDY_MAGIC);;
  hd ← rd (free_list order);
  let last_block := bprev hd in
  wr (free_list order) (set_bprev addr);;
  wr addr (set_bnext (free_list order));;
  wr addr (set_bprev last_block);;
  wr last_block (set_bnext addr);;
  n ← get_nr_free order;
  set_nr_free order (n + 1).

Definition remove (b : Z) : M buddy unit :=
  blk ← rd b;
  let prev_block := bprev blk in
  let next_block := bnext blk in
  wr prev_block (set_bnext next_block);;
  wr next_block (set_bprev prev_block);;
  blk ← rd b;
  n ← get_nr_free (border blk);
  set_nr_free (border blk) (n - 1);;
  wr b (set_order (-1));;
  wr b (set_magic 0).

(** The splitting loop of [require]: [n] halvings from [j = order + n - 1]. *)
Fixpoint split_loop (n : nat) (addr order : Z) : M buddy Z :=
  match n with
  | O => mret addr
  | S n' =>
      let j := order + Z.of_nat n' in
      add_first addr j;;
      split_loop n' (u64 (addr + BLOCK_SIZE j)) order
  end.

(** The search loop of [require], [i] from [order + 1]; NULL is 0. *)
Fixpoint require_loop (fuel : nat) (i order : Z) : M buddy Z :=
  match fuel with
  | O => mret 0
  | S fuel =>
      if i <? MAX_ORDER then
        n ← get_nr_free i;
        if ctrue n then
          hd ← rd (free_list i);
          let free_block := bprev hd in
          remove free_block;;
          split_loop (Z.to_nat (i - order)) free_block order
        else require_loop fuel (i + 1) order
      else mret 0
  end.

Definition require (order : Z) : M buddy Z := require_loop 11 (order + 1) order.

Definition buddy_alloc (sz : Z) : M buddy Z :=
  massert (0 <? sz);;
  let size := PGROUNDUP sz in
  order ← mlift (get_order size);
  massert (sz <=? Z.shiftl PGSIZE order);;
  n ← get_nr_free order;
  if ctrue n then
    hd ← rd (free_list order);
    let free_block := bprev hd in
    remove free_block;;
    SET_PAGE_ORDER free_block order;;
    mret free_block
  else
    require_result ← require order;
    if ctrue require_result then
      SET_PAGE_ORDER require_result order;;
      mret require_result
    else mpanic.

Fixpoint buddy_free_helper (fuel : nat) (addr order : Z) : M buddy unit :=
  match fuel with
  | O => mspin
  | S fuel =>
      let buddy := BUDDY_BLOCK addr order in
      merge ← (if order <? MAX_ORDER - 1 then
                 b ← rd buddy;
                 mret ((magic b =? BUDDY_MAGIC) && (border b =? order) &&
                       IN_RAM (bprev b) && IN_RAM (bnext b))
               else mret false);
      if (merge : bool) then
        remove buddy;;
        buddy_free_helper fuel (BUDDY_LOW addr order) (order + 1)
      else add_last addr order
  end.

Definition buddy_free (addr order : Z) : M buddy unit :=
  SET_PAGE_ORDER addr 0;;
  buddy_free_helper 12 addr order.

Definition kalloc (sz : Z) : M buddy Z :=
  massert (0 <? sz);;
  buddy_alloc sz.

Definition kfree (addr : Z) : M buddy unit :=
  o ← GET_PAGE_ORDER addr;
  buddy_free addr o.

(** ** [buddy_init] *)

(** [memset(&zone, 0, sizeof(struct zone))] *)
Definition zone_clear : M buddy unit :=
  modify (λ s, Buddy
    (foldr (λ i m, <[free_list i := Block 0 0 0 0]> m) (bmem s) (seqZ 0 MAX_ORDER))
    (replicate 11 0) (page_order s)).

(** The two loops that compute [nr_free], [i] downwards in the second. *)
Definition init_base (big : bool) : M buddy unit :=
  mwhen big (foldr (λ i m, set_nr_free i (Z.shiftl 1 (MAX_ORDER - 1 - i));; m)
    (mret tt) (seqZ 0 MAX_ORDER)).

Fixpoint init_counts (n : nat) (npages : Z) : M buddy unit :=
  match n with
  | O => mret tt
  | S n' =>
      let i := Z.of_nat n' in
      f ← get_nr_free i;
      set_nr_free i (f + Z.shiftr npages i);;
      wr (free_list i) (set_bprev (free_list i));;
      wr (free_list i) (set_bnext (free_list i));;
      init_counts n' (Z.land npages (u64 (i32 (Z.shiftl 1 i - 1))))
  end.

(** [npages_copy -= BLOCK_NPAGES(i) * nr_free] *)
Fixpoint init_check (areas : list Z) (npages_copy : Z) : M buddy Z :=
  match areas with
  | [] => mret npages_copy
  | i :: areas =>
      f ← get_nr_free i;
      init_check areas (u64 (npages_copy - BLOCK_NPAGES i * f))
  end.

Fixpoint init_blocks (n : nat) (s size i : Z) : M buddy Z :=
  match n with
  | O => mret s
  | S n => add_last s i;; init_blocks n (u64 (s + size)) size i
  end.

Fixpoint init_areas (areas : list Z) (s : Z) : M buddy Z :=
  match areas with
  | [] => mret s
  | i :: areas =>
      f ← get_nr_free i;
      let nr_alloc := i32 f in
      set_nr_free i 0;;
      s ← init_blocks (Z.to_nat nr_alloc) s (BLOCK_SIZE i) i;
      init_areas areas s
  end.

Definition buddy_init (start end_ : Z) : M buddy unit :=
  let s := PGROUNDUP start in
  let e := PGROUNDDOWN end_ in
  let npages := Z.shiftr (u64 (e - s)) PGSHIFT in
  zone_clear;;
  massert (s <=? e);;
  let square_npages := MAX_ORDER * BLOCK_NPAGES (MAX_ORDER - 1) in
  let big := square_npages <? npages in
  init_base big;;
  init_counts 11 (if big then npages - square_npages else npages);;
  npages_copy ← init_check (seqZ 0 MAX_ORDER) npages;
  massert (npages_copy =? 0);;
  s ← init_areas (seqZ 0 MAX_ORDER) s;
  massert (s =? e).

(** ** Field projections through updates *)

Lemma proj_alter_same {A} (π : block → A) f (m : gmap Z block) a b :
  (∀ x, π (f x) = π x) → π <$> alter f a m !! b = π <$> m !! b.
Proof.
  intros Hf. destruct (decide (b = a)) as [->|].
  - rewrite lookup_alter_eq. destruct (m !! a); cbn; [by rewrite Hf|done].
  - by rewrite lookup_alter_ne.
Qed.

Class Sets {A} (π : block → A) (f : A → block → block) : Prop :=
  sets_proj v b : π (f v b) = v.
#[global] Instance sets_magic : Sets magic set_magic.
Proof. done. Qed.
#[global] Instance sets_order : Sets border set_order.
Proof. done. Qed.
#[global] Instance sets_bprev : Sets bprev set_bprev.
Proof. done. Qed.
#[global] Instance sets_bnext : Sets bnext set_bnext.
Proof. done. Qed.

Lemma proj_alter_set {A} (π : block → A) f `{!Sets π f} (m : gmap Z block) a b v :
  a ∈ dom m →
  π <$> alter (f v) a m !! b = if decide (b = a) then Some v else π <$> m !! b.
Proof.
  intros [x Hx]%elem_of_dom. case_decide as Hb.
  - rewrite Hb, lookup_alter_eq, Hx. cbn. by rewrite sets_proj.
  - by rewrite lookup_alter_ne.
Qed.

Definition nf (m : gmap Z block) (a : Z) : option Z := bnext <$> m !! a.
Definition pf (m : gmap Z block) (a : Z) : option Z := bprev <$> m !! a.
Definition orders (m : gmap Z block) (a : Z) : option Z := border <$> m !! a.
Definition magics (m : gmap Z block) (a : Z) : option Z := magic <$> m !! a.

(** Evaluate the projections of a chain of [alter]s, down to the original map. *)
Ltac bproj :=
  unfold nf, pf, orders, magics;
  repeat first
    [ rewrite proj_alter_set by (rewrite ?dom_alter_L; done)
    | rewrite proj_alter_same by done ].
(** The same, with every address comparison decided. *)
Ltac bproj_cases := bproj; repeat case_decide; try congruence.

(** ** Blocks and the pages they cover *)

Definition pages_of (b : Z * Z) : list Z := (λ i, b.1 + PGSIZE * i) <$> seqZ 0 (2 ^ b.2).

Definition free_blocks (fl : Z → list Z) : list (Z * Z) :=
  seqZ 0 MAX_ORDER ≫= λ k, (λ a, (a, k)) <$> fl k.

Lemma elem_of_free_blocks fl a k :
  (a, k) ∈ free_blocks fl ↔ 0 ≤ k < MAX_ORDER ∧ a ∈ fl k.
Proof.
  unfold free_blocks. rewrite list_elem_of_bind. split.
  - intros (k' & Hin & Hk%elem_of_seqZ). apply list_elem_of_fmap in Hin as (a' & ? & ?).
    simplify_eq. split; [lia|done].
  - intros [Hk Ha]. exists k. rewrite elem_of_seqZ. split; [|lia].
    apply list_elem_of_fmap. eauto.
Qed.

(** Changing one free list by an element. *)
Lemma free_blocks_update fl k x l :
  0 ≤ k < MAX_ORDER →
  free_blocks (<[k := x :: l]> fl) ≡ₚ (x, k) :: free_blocks (<[k := l]> fl).
Proof.
  intros Hk. unfold free_blocks.
  assert (k ∈ seqZ 0 MAX_ORDER) as (s1 & s2 & E)%list_elem_of_split by
    (apply elem_of_seqZ; lia).
  assert (NoDup (s1 ++ k :: s2)) as Hnd by (rewrite <- E; apply NoDup_seqZ).
  apply NoDup_app in Hnd as (_ & Hd & [Hk2 _]%NoDup_cons).
  assert (k ∉ s1) as Hk1 by (intros ?; apply (Hd k); set_solver).
  rewrite E, !bind_app, !bind_cons, !fn_lookup_insert. cbn [fmap list_fmap].
  assert (∀ (s : list Z) l', k ∉ s →
    (s ≫= λ k0, (λ a, (a, k0)) <$> <[k := l']> fl k0) = s ≫= λ k0, (λ a, (a, k0)) <$> fl k0)
    as Hs.
  { intros s l' Hks. induction s as [|z s IH]; [done|].
    rewrite !bind_cons, fn_lookup_insert_ne, IH by set_solver. done. }
  rewrite !Hs by done. cbn. solve_Permutation.
Qed.

Lemma free_blocks_perm fl k l l' :
  0 ≤ k < MAX_ORDER → l ≡ₚ l' →
  free_blocks (<[k := l]> fl) ≡ₚ free_blocks (<[k := l']> fl).
Proof.
  intros Hk Hl. unfold free_blocks. induction (seqZ 0 MAX_ORDER) as [|z s IH]; [done|].
  rewrite !bind_cons, IH. destruct (decide (z = k)) as [->|].
  - by rewrite !fn_lookup_insert, Hl.
  - by rewrite !fn_lookup_insert_ne.
Qed.

(** Two halves cover the pages of the whole. *)
Lemma pages_of_halves a k :
  0 ≤ k → pages_of (a, k + 1) ≡ₚ pages_of (a, k) ++ pages_of (a + BLOCK_SIZE k, k).
Proof.
  intros Hk. unfold pages_of, BLOCK_SIZE. cbn [fst snd].
  rewrite Z.shiftl_mul_pow2 by done.
  replace (2 ^ (k + 1)) with (2 ^ k + 2 ^ k) by (rewrite Z.pow_add_r by lia; lia).
  assert (0 < 2 ^ k) by (apply Z.pow_pos_nonneg; lia).
  rewrite seqZ_app by lia. rewrite fmap_app. f_equiv.
  rewrite (Z.add_comm 0), <- fmap_add_seqZ, <- list_fmap_compose.
  apply Permutation_refl', list_fmap_ext. intros i x _. cbn. lia.
Qed.

(** Flipping and clearing one bit of an address. *)
Lemma land_pow2_testbit a j : 0 ≤ j → Z.testbit a j = false → Z.land a (2 ^ j) = 0.
Proof.
  intros Hj Hb. apply Z.bits_inj'. intros n Hn. rewrite Z.land_spec, Z.bits_0.
  rewrite Z.pow2_bits_eqb by done. destruct (Z.eqb_spec j n) as [->|];
    rewrite ?Hb; btauto.
Qed.

Lemma lxor_pow2 a j :
  0 ≤ j → Z.lxor a (2 ^ j) = if Z.testbit a j then a - 2 ^ j else a + 2 ^ j.
Proof.
  intros Hj. destruct (Z.testbit a j) eqn:Hb.
  - assert (Z.lxor a (2 ^ j) + 2 ^ j = a); [|lia].
    rewrite Z.add_nocarry_lxor.
    + by rewrite Z.lxor_assoc, Z.lxor_nilpotent, Z.lxor_0_r.
    + apply land_pow2_testbit; [done|].
      by rewrite Z.lxor_spec, Hb, Z.pow2_bits_true by done.
  - symmetry. by apply Z.add_nocarry_lxor, land_pow2_testbit.
Qed.

Lemma ldiff_pow2 a j :
  0 ≤ j → Z.ldiff a (2 ^ j) = if Z.testbit a j then a - 2 ^ j else a.
Proof.
  intros Hj. pose proof (lxor_pow2 a j Hj) as Hx. destruct (Z.testbit a j) eqn:Hb.
  - rewrite <- Hx. apply Z.bits_inj'. intros n Hn.
    rewrite Z.ldiff_spec, Z.lxor_spec, Z.pow2_bits_eqb by done.
    destruct (Z.eqb_spec j n) as [<-|]; [by rewrite Hb|btauto].
  - apply Z.bits_inj'. intros n Hn.
    rewrite Z.ldiff_spec, Z.pow2_bits_eqb by done.
    destruct (Z.eqb_spec j n) as [<-|]; [by rewrite Hb|btauto].
Qed.

Lemma BUDDY_BLOCK_eq a k :
  0 ≤ a < 2 ^ 64 → 0 ≤ k →
  BUDDY_BLOCK a k = if Z.testbit a (12 + k) then a - BLOCK_SIZE k else a + BLOCK_SIZE k.
Proof.
  intros. unfold BUDDY_BLOCK, BLOCK_SIZE, PGSIZE. rewrite u64_small by done.
  rewrite Z.shiftl_mul_pow2 by done. change 4096 with (2 ^ 12).
  rewrite <- Z.pow_add_r by lia. apply lxor_pow2. lia.
Qed.

Lemma BUDDY_LOW_eq a k :
  0 ≤ a < 2 ^ 64 → 0 ≤ k →
  BUDDY_LOW a k = if Z.testbit a (12 + k) then a - BLOCK_SIZE k else a.
Proof.
  intros. unfold BUDDY_LOW, BLOCK_SIZE, PGSIZE. rewrite u64_small by done.
  rewrite Z.shiftl_mul_pow2 by done. change 4096 with (2 ^ 12).
  rewrite <- Z.pow_add_r by lia. rewrite <- ldiff_pow2 by lia.
  apply Z.bits_inj'. intros n Hn. unfold u64.
  rewrite Z.land_spec, Z.ldiff_spec.
  destruct (Z.ltb_spec n 64).
  - rewrite Z.mod_pow2_bits_low, Z.lnot_spec by lia. done.
  - replace (Z.testbit a n) with false; [done|].
    symmetry. destruct (decide (a = 0)) as [->|]; [apply Z.bits_0|].
    apply Z.bits_above_log2; [lia|].
    apply Z.lt_le_trans with 64; [|done]. apply Z.log2_lt_pow2; lia.
Qed.

(** Whichever of the two is lower, a block and its buddy make the next larger block. *)
Lemma pages_of_merge a k :
  0 ≤ a < 2 ^ 64 → 0 ≤ k →
  pages_of (BUDDY_LOW a k, k + 1) ≡ₚ pages_of (a, k) ++ pages_of (BUDDY_BLOCK a k, k).
Proof.
  intros. rewrite BUDDY_BLOCK_eq, BUDDY_LOW_eq, pages_of_halves by done.
  destruct (Z.testbit a (12 + k)).
  - rewrite Z.sub_add. apply Permutation_app_comm.
  - done.
Qed.

(** ** The invariant *)

(** The pages given to the allocator, and the memory around them that it reads: every
    buddy address a merge looks at, and the list heads. *)
Record pool_ok (D : gset Z) (pool : list Z) : Prop := {
  pool_nodup : NoDup pool;
  pool_len : zlen pool < 2 ^ 30;
  pool_page a : a ∈ pool → 0 < a < 2 ^ 64 - PGSIZE ∧ a mod PGSIZE = 0;
  pool_base a : a ∈ pool → 0 ≤ pages_base ≤ a ∧ pages_base mod PGSIZE = 0;
  pool_dom a : a ∈ pool → a ∈ D;
  pool_buddy a k : a ∈ pool → 0 ≤ k < MAX_ORDER - 1 → BUDDY_BLOCK a k ∈ D;
  pool_heads k : 0 ≤ k < MAX_ORDER → free_list k ∈ D ∧ (free_list k ∉ pool)
}.

(** [fl k] are the free blocks of order [k], [used] the other blocks. *)
Record buddy_wf (pool : list Z) (s : buddy) (fl : Z → list Z) (used : list (Z * Z)) :
  Prop := {
  wf_list k : 0 ≤ k < MAX_ORDER → dlist (nf (bmem s)) (pf (bmem s)) (free_list k) (fl k);
  wf_order k a : 0 ≤ k < MAX_ORDER → a ∈ fl k → orders (bmem s) a = Some k;
  wf_nr : nr_free s = (λ k, zlen (fl k)) <$> seqZ 0 MAX_ORDER;
  wf_part : (free_blocks fl ++ used) ≫= pages_of ≡ₚ pool;
  wf_used : Forall (λ b, 0 ≤ b.2 < MAX_ORDER) used;
  wf_unforged a : magics (bmem s) a = Some BUDDY_MAGIC →
    ∃ k, 0 ≤ k < MAX_ORDER ∧ a ∈ fl k;
  wf_pool : pool_ok (dom (bmem s)) pool
}.

Lemma pages_of_first a k : 0 ≤ k → a ∈ pages_of (a, k).
Proof.
  intros. apply list_elem_of_fmap. exists 0. cbn. rewrite elem_of_seqZ.
  assert (0 < 2 ^ k) by (apply Z.pow_pos_nonneg; lia). lia.
Qed.

Section wf_facts.
Context {pool : list Z} {s : buddy} {fl : Z → list Z} {used : list (Z * Z)}.
Context (Hwf : buddy_wf pool s fl used).

Lemma wf_block_in_pool a k :
  (a, k) ∈ free_blocks fl ++ used → 0 ≤ k < MAX_ORDER ∧ a ∈ pool.
Proof.
  intros Hb. assert (0 ≤ k < MAX_ORDER) as Hk.
  { apply elem_of_app in Hb as [Hb|Hb].
    - by apply elem_of_free_blocks in Hb as [? _].
    - pose proof (wf_used _ _ _ _ Hwf) as Hu. rewrite Forall_forall in Hu.
      apply (Hu _ Hb). }
  split; [done|]. rewrite <- (wf_part _ _ _ _ Hwf). apply list_elem_of_bind.
  exists (a, k). split; [apply pages_of_first; lia|done].
Qed.

Lemma wf_free_in_pool a k : 0 ≤ k < MAX_ORDER → a ∈ fl k → a ∈ pool.
Proof.
  intros ? ?. apply (wf_block_in_pool a k), elem_of_app. left.
  by apply elem_of_free_blocks.
Qed.

Lemma wf_head_fresh k j : 0 ≤ k < MAX_ORDER → 0 ≤ j < MAX_ORDER → free_list k ∉ fl j.
Proof.
  intros Hk Hj Hin. apply (pool_heads _ _ (wf_pool _ _ _ _ Hwf) k Hk).
  by apply (wf_free_in_pool _ j).
Qed.

(** A block is in one place only. *)
Lemma wf_disjoint_lists a k j :
  0 ≤ k < MAX_ORDER → 0 ≤ j < MAX_ORDER → a ∈ fl k → a ∈ fl j → j = k.
Proof.
  intros Hk Hj Ha Ha'. pose proof (wf_order _ _ _ _ Hwf k a Hk Ha).
  pose proof (wf_order _ _ _ _ Hwf j a Hj Ha'). congruence.
Qed.

Lemma wf_used_not_free a k j : (a, k) ∈ used → 0 ≤ j < MAX_ORDER → a ∉ fl j.
Proof.
  intros Hu Hj Ha. pose proof (pool_nodup _ _ (wf_pool _ _ _ _ Hwf)) as Hnd.
  rewrite <- (wf_part _ _ _ _ Hwf), bind_app in Hnd. apply NoDup_app in Hnd as (_ & Hd & _).
  assert (0 ≤ k) by (apply (wf_block_in_pool a k); set_solver).
  apply (Hd a); apply list_elem_of_bind.
  - exists (a, j). split; [apply pages_of_first; lia|by apply elem_of_free_blocks].
  - exists (a, k). split; [by apply pages_of_first|done].
Qed.

(** No area has more blocks than the pool has pages. *)
Lemma wf_fl_len k : 0 ≤ k < MAX_ORDER → zlen (fl k) < 2 ^ 30.
Proof.
  intros Hk. eapply Z.le_lt_trans; [|apply (pool_len _ _ (wf_pool _ _ _ _ Hwf))].
  unfold zlen. apply inj_le, submseteq_length, NoDup_submseteq.
  - destruct (wf_list _ _ _ _ Hwf k Hk) as [Hnd _]. by apply NoDup_cons in Hnd as [_ ?].
  - intros x. by apply wf_free_in_pool.
Qed.

End wf_facts.

(** ** The list operations keep the invariant *)

Lemma wr_ok s a f :
  a ∈ dom (bmem s) →
  wr a f s = Ret (tt, Buddy (alter f a (bmem s)) (nr_free s) (page_order s)).
Proof. intros [b Hb]%elem_of_dom. unfold wr, rd. munfold. by rewrite Hb. Qed.

Lemma rd_ok s a :
  a ∈ dom (bmem s) → ∃ b, rd a s = Ret (b, s) ∧ bmem s !! a = Some b.
Proof. intros [b Hb]%elem_of_dom. unfold rd. munfold. rewrite Hb. eauto. Qed.

(** The counter of an area. *)
Lemma get_nr_g s (g : Z → Z) k :
  nr_free s = g <$> seqZ 0 MAX_ORDER → 0 ≤ k < MAX_ORDER → get_nr_free k s = Ret (g k, s).
Proof.
  intros Hn Hk. unfold get_nr_free. munfold. rewrite Hn.
  unfold znth. rewrite decide_True by lia.
  rewrite list_lookup_fmap, lookup_seqZ_lt by lia.
  cbn [fmap option_fmap option_map Z.add]. by rewrite Z2Nat.id by lia.
Qed.

Lemma get_nr_ok s (fl : Z → list Z) k :
  nr_free s = (λ k, zlen (fl k)) <$> seqZ 0 MAX_ORDER → 0 ≤ k < MAX_ORDER →
  get_nr_free k s = Ret (zlen (fl k), s).
Proof. apply (get_nr_g s (λ k, zlen (fl k))). Qed.

Lemma set_nr_g s (g : Z → Z) k v :
  nr_free s = g <$> seqZ 0 MAX_ORDER → 0 ≤ k < MAX_ORDER → 0 ≤ v < 2 ^ 64 →
  set_nr_free k v s = Ret (tt, Buddy (bmem s)
    ((λ j, if decide (j = k) then v else g j) <$> seqZ 0 MAX_ORDER) (page_order s)).
Proof.
  intros Hn Hk Hv. unfold set_nr_free. munfold. rewrite Hn. unfold zset.
  rewrite decide_True by (unfold zlen, MAX_ORDER in *; rewrite length_fmap, length_seqZ; lia).
  rewrite u64_small by done. unfold MAX_ORDER in *. do 4 f_equal.
  apply list_eq. intros i. rewrite list_lookup_fmap.
  destruct (decide (i < 11)%nat).
  - rewrite (lookup_seqZ_lt 0 11 i) by lia. cbn [fmap option_fmap option_map].
    case_decide as Hi.
    + replace i with (Z.to_nat k) by lia. apply list_lookup_insert_eq.
      rewrite length_fmap, length_seqZ. lia.
    + rewrite list_lookup_insert_ne by lia.
      by rewrite list_lookup_fmap, lookup_seqZ_lt by lia.
  - rewrite (lookup_seqZ_ge 0 11 i) by lia. apply lookup_ge_None_2.
    rewrite length_insert, length_fmap, length_seqZ. lia.
Qed.

Lemma set_nr_ok s (fl : Z → list Z) k v :
  nr_free s = (λ k, zlen (fl k)) <$> seqZ 0 MAX_ORDER → 0 ≤ k < MAX_ORDER → 0 ≤ v < 2 ^ 64 →
  set_nr_free k v s = Ret (tt, Buddy (bmem s)
    ((λ j, if decide (j = k) then v else zlen (fl j)) <$> seqZ 0 MAX_ORDER) (page_order s)).
Proof. apply (set_nr_g s (λ k, zlen (fl k))). Qed.

Lemma nr_insert (fl : Z → list Z) k l :
  (λ j, if decide (j = k) then zlen l else zlen (fl j)) <$> seqZ 0 MAX_ORDER =
  (λ j, zlen (<[k := l]> fl j)) <$> seqZ 0 MAX_ORDER.
Proof.
  apply list_fmap_ext. intros i j _. case_decide as E.
  - by rewrite E, fn_lookup_insert.
  - by rewrite fn_lookup_insert_ne.
Qed.

Lemma free_blocks_same fl k : free_blocks (<[k := fl k]> fl) = free_blocks fl.
Proof.
  unfold free_blocks. apply list_bind_ext; [|done]. intros j.
  destruct (decide (k = j)) as [->|]; [by rewrite fn_lookup_insert|].
  by rewrite fn_lookup_insert_ne.
Qed.

Lemma free_blocks_take fl k l1 a l2 :
  0 ≤ k < MAX_ORDER → fl k = l1 ++ a :: l2 →
  free_blocks fl ≡ₚ (a, k) :: free_blocks (<[k := l1 ++ l2]> fl).
Proof.
  intros Hk E. rewrite <- (free_blocks_same fl k), <- free_blocks_update by done.
  apply free_blocks_perm; [done|]. rewrite E. by rewrite Permutation_middle.
Qed.

Lemma free_list_inj j k : free_list j = free_list k → j = k.
Proof. unfold free_list. lia. Qed.

(** A list of another order than [k] is not disturbed by writes to nodes of the list
    of order [k] and to [a], which is in no list. *)
Lemma dlist_other pool s fl used k j a m' :
  buddy_wf pool s fl used → 0 ≤ k < MAX_ORDER → 0 ≤ j < MAX_ORDER → j ≠ k →
  (∀ i, 0 ≤ i < MAX_ORDER → i ≠ k → (a ≠ free_list i) ∧ (a ∉ fl i)) →
  (∀ x, x ≠ a → x ≠ free_list k → x ∉ fl k →
    nf m' x = nf (bmem s) x ∧ pf m' x = pf (bmem s) x) →
  dlist (nf m') (pf m') (free_list j) (fl j).
Proof.
  intros Hwf Hk Hj Hjk Ha Hm. destruct (Ha j Hj Hjk) as [Ha1 Ha2].
  eapply dlist_frame; [by eapply wf_list|]. intros x Hx.
  apply elem_of_cons in Hx as [->|Hx]; apply Hm.
  - done.
  - by intros ?%free_list_inj.
  - by apply (wf_head_fresh Hwf).
  - intros ->. done.
  - intros ->. by apply (wf_head_fresh Hwf k j).
  - intros Hxk. apply Hjk. symmetry. by apply (wf_disjoint_lists Hwf x j k).
Qed.

Lemma remove_ok pool s fl used k l1 a l2 :
  buddy_wf pool s fl used → 0 ≤ k < MAX_ORDER → fl k = l1 ++ a :: l2 →
  ∃ s', remove a s = Ret (tt, s') ∧ page_order s' = page_order s ∧
    buddy_wf pool s' (<[k := l1 ++ l2]> fl) ((a, k) :: used).
Proof.
  intros Hwf Hk Hfl. pose proof (wf_pool _ _ _ _ Hwf) as Hpool.
  pose proof (wf_list _ _ _ _ Hwf k Hk) as Hl.
  assert (a ∈ fl k) as Hak by (rewrite Hfl; set_solver).
  pose proof (wf_free_in_pool Hwf a k Hk Hak) as Hap.
  pose proof (pool_dom _ _ Hpool a Hap) as Had.
  destruct (dlist_neighbours _ _ _ Hfl Hl) as (p & n & Ep & En & Hp & Hn).
  assert (NoDup (l1 ++ a :: l2)) as Hnd by
    (destruct Hl as [Hnd _]; apply NoDup_cons in Hnd as [_ ?]; by rewrite <- Hfl).
  apply NoDup_app in Hnd as (_ & Hd1 & [Hd2 _]%NoDup_cons).
  assert (a ∉ l1) as Hal1 by (intros ?; apply (Hd1 a); set_solver).
  assert (∀ j, 0 ≤ j < MAX_ORDER → a ≠ free_list j) as Hah.
  { intros j Hj ->. by apply (wf_head_fresh Hwf j k). }
  assert (p ∈ free_list k :: l1) as Hpl by (by apply last_Some_elem_of in Ep).
  assert (n ∈ l2 ++ [free_list k]) as Hnl by (by apply head_Some_elem_of in En).
  assert (p ≠ a) as Hpa by (intros ->; specialize (Hah k Hk); set_solver).
  assert (n ≠ a) as Hna by (intros ->; specialize (Hah k Hk); set_solver).
  assert (∀ x, x ∈ free_list k :: fl k → x ∈ dom (bmem s)) as Hdom.
  { intros x [->|Hx]%elem_of_cons; [by apply (pool_heads _ _ Hpool)|].
    by apply (pool_dom _ _ Hpool), (wf_free_in_pool Hwf x k). }
  assert (p ∈ dom (bmem s)) as Hpd by (apply Hdom; rewrite Hfl; set_solver).
  assert (n ∈ dom (bmem s)) as Hndm by (apply Hdom; rewrite Hfl; set_solver).
  assert (p ∈ free_list k :: fl k ∧ n ∈ free_list k :: fl k) as [Hpk Hnk]
    by (rewrite Hfl; set_solver).
  unfold remove. destruct (rd_ok s a Had) as (blk & E1 & Hblk). mstep E1.
  pose proof (wf_order _ _ _ _ Hwf k a Hk Hak) as Ho.
  unfold nf, pf, orders in Hn, Hp, Ho. rewrite Hblk in Hn, Hp, Ho.
  cbn in Hn, Hp, Ho. injection Hn as Hn. injection Hp as Hp. injection Ho as Ho.
  rewrite Hn, Hp.
  erewrite mbind_Ret by (by apply wr_ok).
  erewrite mbind_Ret by (apply wr_ok; cbn; by rewrite dom_alter_L).
  erewrite mbind_Ret by (unfold rd; munfold; cbn;
    rewrite !lookup_alter_ne, Hblk by done; reflexivity).
  cbv beta. rewrite Ho.
  erewrite mbind_Ret by (apply (get_nr_ok _ fl); [apply (wf_nr _ _ _ _ Hwf)|done]).
  assert (zlen (fl k) - 1 = zlen (l1 ++ l2)) as Hlen by
    (rewrite Hfl, !zlen_app, zlen_cons; lia).
  rewrite Hlen.
  assert (0 ≤ zlen (l1 ++ l2) < 2 ^ 64) as Hlb.
  { pose proof (zlen_nonneg (l1 ++ l2)). pose proof (wf_fl_len Hwf k Hk). lia. }
  erewrite mbind_Ret by (apply (set_nr_ok _ fl); cbn; [apply (wf_nr _ _ _ _ Hwf)|done|done]).
  cbv beta iota.
  erewrite mbind_Ret by (apply wr_ok; cbn; by rewrite !dom_alter_L).
  erewrite wr_ok by (cbn; by rewrite !dom_alter_L).
  eexists. split; [reflexivity|]. cbn. split; [done|]. rewrite nr_insert.
  assert (∀ j x, 0 ≤ j < MAX_ORDER → x ∈ <[k := l1 ++ l2]> fl j → x ∈ fl j ∧ x ≠ a) as Hin.
  { intros j x Hj. destruct (decide (k = j)) as [<-|].
    - rewrite fn_lookup_insert, Hfl. set_solver.
    - rewrite fn_lookup_insert_ne by done. split; [done|]. intros ->.
      by destruct (wf_disjoint_lists Hwf a j k). }
  split; cbn [bmem nr_free].
  - intros j Hj. destruct (decide (k = j)) as [<-|Hjk].
    + rewrite fn_lookup_insert.
      eapply (dlist_remove l1 a l2 p n Hfl Hl); [done|done|..]; intros; bproj_cases.
    + rewrite fn_lookup_insert_ne by done.
      apply (dlist_other pool s fl used k j a _ Hwf); [done..| |].
      * intros i Hi Hik. split; [by apply Hah|]. intros Hai. apply Hik.
        by apply (wf_disjoint_lists Hwf a k i).
      * intros x Hxa Hxh Hxk. assert (x ≠ p ∧ x ≠ n) as [] by set_solver.
        split; by bproj_cases.
  - intros j x Hj Hx. destruct (Hin j x Hj Hx).
    rewrite <- (wf_order _ _ _ _ Hwf j x Hj) by done. by bproj_cases.
  - done.
  - rewrite <- (wf_part _ _ _ _ Hwf). rewrite (free_blocks_take fl k l1 a l2 Hk Hfl).
    f_equiv. solve_Permutation.
  - constructor; [done|]. apply (wf_used _ _ _ _ Hwf).
  - intros x. bproj. case_decide; [done|].
    intros Hm. destruct (wf_unforged _ _ _ _ Hwf x Hm) as (j & Hj & Hx).
    exists j. split; [done|]. destruct (decide (k = j)) as [<-|].
    + rewrite fn_lookup_insert. rewrite Hfl in Hx. set_solver.
    + by rewrite fn_lookup_insert_ne.
  - by rewrite !dom_alter_L.
Qed.

Lemma wf_used_block pool s fl used a k :
  buddy_wf pool s fl ((a, k) :: used) →
  0 ≤ k < MAX_ORDER ∧ a ∈ pool ∧ (∀ j, 0 ≤ j < MAX_ORDER → (a ∉ fl j) ∧ a ≠ free_list j).
Proof.
  intros Hwf. destruct (wf_block_in_pool Hwf a k) as [Hk Ha]; [set_solver|].
  split_and!; [lia..|done|]. intros j Hj. split; [by eapply (wf_used_not_free Hwf a k); [set_solver|]|].
  intros ->. by apply (pool_heads _ _ (wf_pool _ _ _ _ Hwf) j Hj).
Qed.

Lemma wf_added pool s fl used k a l' m' po :
  buddy_wf pool s fl ((a, k) :: used) → l' ≡ₚ a :: fl k → dom m' = dom (bmem s) →
  dlist (nf m') (pf m') (free_list k) l' →
  (∀ x, x ≠ a → x ≠ free_list k → x ∉ fl k →
    nf m' x = nf (bmem s) x ∧ pf m' x = pf (bmem s) x) →
  orders m' a = Some k →
  (∀ x, x ≠ a → orders m' x = orders (bmem s) x ∧ magics m' x = magics (bmem s) x) →
  buddy_wf pool (Buddy m' ((λ j, if decide (j = k) then zlen (fl k) + 1 else zlen (fl j))
    <$> seqZ 0 MAX_ORDER) po) (<[k := l']> fl) used.
Proof.
  intros Hwf Hl' Hdom Hl Hm Hok Hom.
  destruct (wf_used_block _ _ _ _ _ _ Hwf) as (Hk & Hap & Ha).
  replace (zlen (fl k) + 1) with (zlen l')
    by (unfold zlen; rewrite Hl'; cbn [length]; lia).
  assert (∀ j x, 0 ≤ j < MAX_ORDER → x ∈ <[k := l']> fl j → (j = k ∧ x = a) ∨ (x ≠ a ∧ x ∈ fl j)) as Hin.
  { intros j x Hj. destruct (decide (k = j)) as [<-|].
    - rewrite fn_lookup_insert, Hl', elem_of_cons. intros [->|Hx]; [by left|].
      right. split; [|done]. intros ->. by destruct (Ha k Hk).
    - rewrite fn_lookup_insert_ne by done. right. split; [|done]. intros ->.
      by destruct (Ha j Hj). }
  split; cbn [bmem nr_free].
  - intros j Hj. destruct (decide (k = j)) as [<-|Hjk]; [by rewrite fn_lookup_insert|].
    rewrite fn_lookup_insert_ne by done.
    apply (dlist_other pool s fl ((a, k) :: used) k j a _ Hwf); [done..| |done].
    intros i Hi _. by destruct (Ha i Hi).
  - intros j x Hj [[-> ->]|[Hxa Hx]]%Hin; [done| |done].
    destruct (Hom x Hxa) as [-> _]. by apply (wf_order _ _ _ _ Hwf).
  - apply nr_insert.
  - rewrite <- (wf_part _ _ _ _ Hwf), (free_blocks_perm fl k _ _ Hk Hl').
    rewrite (free_blocks_update fl k), free_blocks_same by done.
    f_equiv. solve_Permutation.
  - pose proof (wf_used _ _ _ _ Hwf) as Hu. by apply Forall_cons in Hu as [_ ?].
  - intros x Hx. destruct (decide (x = a)) as [->|Hxa].
    + exists k. split; [done|]. rewrite fn_lookup_insert, Hl'. set_solver.
    + destruct (Hom x Hxa) as [_ Em]. rewrite Em in Hx.
      destruct (wf_unforged _ _ _ _ Hwf x Hx) as (j & Hj & Hxj). exists j. split; [done|].
      destruct (decide (k = j)) as [<-|]; [rewrite fn_lookup_insert, Hl'; set_solver|].
      by rewrite fn_lookup_insert_ne.
  - rewrite Hdom. apply (wf_pool _ _ _ _ Hwf).
Qed.

Lemma pool_aligned pool D a : pool_ok D pool → a ∈ pool → IS_PGALIGNED a = true.
Proof.
  intros Hp Ha. destruct (pool_page _ _ Hp a Ha) as [? ?].
  apply IS_PGALIGNED_iff; [unfold PGSIZE in *; lia|done].
Qed.

Lemma wf_list_dom pool s fl used k x :
  buddy_wf pool s fl used → 0 ≤ k < MAX_ORDER → x ∈ free_list k :: fl k → x ∈ dom (bmem s).
Proof.
  intros Hwf Hk [->|Hx]%elem_of_cons; [by apply (pool_heads _ _ (wf_pool _ _ _ _ Hwf))|].
  by apply (pool_dom _ _ (wf_pool _ _ _ _ Hwf)), (wf_free_in_pool Hwf x k).
Qed.

(** One write of a sequence of writes to known addresses. *)
Ltac wr_step :=
  first [erewrite mbind_Ret by (apply wr_ok; cbn [bmem]; rewrite ?dom_alter_L; done)
        | erewrite wr_ok by (cbn [bmem]; rewrite ?dom_alter_L; done)];
  cbv beta iota; cbn [bmem nr_free page_order].

Lemma rd_proj {A} (π : block → A) m nr po a v :
  π <$> m !! a = Some v → ∃ b, rd a (Buddy m nr po) = Ret (b, Buddy m nr po) ∧ π b = v.
Proof.
  intros (b & Hb & Hv)%fmap_Some. exists b. unfold rd, mtry. cbn. by rewrite Hb.
Qed.

(** What both insertions start from. *)
Lemma wf_add_ctx pool s fl used k a :
  buddy_wf pool s fl ((a, k) :: used) →
  0 ≤ k < MAX_ORDER ∧ (a ∉ free_list k :: fl k) ∧ IS_PGALIGNED a = true ∧
  a ∈ dom (bmem s) ∧ free_list k ∈ dom (bmem s) ∧ 0 ≤ zlen (fl k) + 1 < 2 ^ 64.
Proof.
  intros Hwf. destruct (wf_used_block _ _ _ _ _ _ Hwf) as (Hk & Hap & Ha).
  destruct (Ha k Hk). pose proof (wf_pool _ _ _ _ Hwf) as Hpool.
  pose proof (wf_fl_len Hwf k Hk). pose proof (zlen_nonneg (fl k)).
  split_and!; [lia|lia|set_solver|by eapply pool_aligned|by apply (pool_dom _ _ Hpool)| |lia|lia].
  by apply (pool_heads _ _ Hpool).
Qed.

(** The common end of both insertions: the counter goes up by one. *)
Ltac count_up Hwf fl :=
  erewrite mbind_Ret by (apply (get_nr_ok _ fl); [apply (wf_nr _ _ _ _ Hwf)|done]);
  rewrite (set_nr_ok _ fl) by (first [apply (wf_nr _ _ _ _ Hwf)|done]);
  eexists; split; [reflexivity|]; split; [done|]; eapply wf_added;
    [done| |cbn [bmem]; by rewrite !dom_alter_L|..]; cbn [bmem].

Lemma add_first_ok pool s fl used k a :
  buddy_wf pool s fl ((a, k) :: used) →
  ∃ s', add_first a k s = Ret (tt, s') ∧ page_order s' = page_order s ∧
    buddy_wf pool s' (<[k := a :: fl k]> fl) used.
Proof.
  intros Hwf. destruct (wf_add_ctx _ _ _ _ _ _ Hwf) as (Hk & Ha & Hal & Had & Hhd & Hlen).
  pose proof (wf_list _ _ _ _ Hwf k Hk) as Hl.
  destruct (dlist_head _ _ _ _ Hl) as (f & Ef & Hnh & Hpf).
  assert (f ∈ free_list k :: fl k) as Hfl by (apply head_Some_elem_of in Ef; set_solver).
  pose proof (wf_list_dom _ _ _ _ k _ Hwf Hk Hfl) as Hfd.
  assert (f ≠ a ∧ free_list k ≠ a) as [] by set_solver.
  unfold add_first. rewrite Hal. erewrite mbind_Ret by reflexivity. cbv beta iota.
  wr_step.
  destruct (rd_proj bnext (alter (set_order k) a (bmem s)) (nr_free s) (page_order s)
    (free_list k) f) as (b & Eb & Hb); [by bproj|].
  mstep Eb. cbv zeta. rewrite Hb. do 4 wr_step. count_up Hwf fl.
  - done.
  - eapply (dlist_insert_front a f Hl); [done|done|..]; intros; bproj_cases.
  - intros x Hxa Hxh Hxk. assert (x ≠ f) by set_solver. split; by bproj_cases.
  - by bproj_cases.
  - intros x Hxa. split; by bproj_cases.
Qed.

(** [add_last] only looks at the counter of its own area: it also runs while the
    counters [g] of the other areas are not those of their lists. *)
Definition counts (g : Z → Z) : list Z := g <$> seqZ 0 MAX_ORDER.

Lemma add_last_gen pool m nr po fl used k a g :
  buddy_wf pool (Buddy m nr po) fl ((a, k) :: used) → g k = zlen (fl k) →
  ∃ m' nr', add_last a k (Buddy m (counts g) po) =
      Ret (tt, Buddy m' (counts (λ j, if decide (j = k) then zlen (fl k) + 1 else g j)) po) ∧
    buddy_wf pool (Buddy m' nr' po) (<[k := fl k ++ [a]]> fl) used.
Proof.
  intros Hwf Hg. destruct (wf_add_ctx _ _ _ _ _ _ Hwf) as (Hk & Ha & Hal & Had & Hhd & Hlen).
  pose proof (wf_list _ _ _ _ Hwf k Hk) as Hl. cbn [bmem] in *.
  destruct (dlist_last _ _ _ _ Hl) as (t & Et & Hnt & Hph).
  assert (t ∈ free_list k :: fl k) as Htl by (by apply last_Some_elem_of in Et).
  pose proof (wf_list_dom _ _ _ _ k _ Hwf Hk Htl) as Htd. cbn [bmem] in Htd.
  assert (t ≠ a ∧ free_list k ≠ a) as [] by set_solver.
  unfold add_last. rewrite Hal. erewrite mbind_Ret by reflexivity. cbv beta iota.
  do 2 wr_step.
  destruct (rd_proj bprev (alter (set_magic BUDDY_MAGIC) a (alter (set_order k) a m))
    (counts g) po (free_list k) t) as (b & Eb & Hb); [by bproj|].
  mstep Eb. cbv zeta. rewrite Hb. do 4 wr_step.
  erewrite mbind_Ret by (by apply (get_nr_g _ g)). rewrite Hg.
  rewrite (set_nr_g _ g) by done. do 2 eexists. split; [reflexivity|].
  eapply wf_added; [exact Hwf| |cbn [bmem]; by rewrite !dom_alter_L|..]; cbn [bmem].
  - by rewrite Permutation_app_comm.
  - eapply (dlist_insert_back a t Hl); [done|done|..]; intros; bproj_cases.
  - intros x Hxa Hxh Hxk. assert (x ≠ t) by set_solver. split; by bproj_cases.
  - by bproj_cases.
  - intros x Hxa. split; by bproj_cases.
Qed.

Lemma add_last_ok pool s fl used k a :
  buddy_wf pool s fl ((a, k) :: used) →
  ∃ s', add_last a k s = Ret (tt, s') ∧ page_order s' = page_order s ∧
    buddy_wf pool s' (<[k := fl k ++ [a]]> fl) used.
Proof.
  intros Hwf. destruct s as [m nr po].
  destruct (add_last_gen _ _ _ _ _ _ _ _ (λ k, zlen (fl k)) Hwf eq_refl) as (m' & nr' & E & Hwf').
  pose proof (wf_nr _ _ _ _ Hwf) as Hn. cbn in Hn. fold (counts (λ k, zlen (fl k))) in Hn.
  rewrite <- Hn in E. eexists. split; [exact E|]. split; [done|]. cbn.
  destruct Hwf'. split; try done. cbn. unfold counts. rewrite <- nr_insert.
  apply list_fmap_ext. intros i j _. case_decide; [|done].
  rewrite zlen_app. unfold zlen. cbn. lia.
Qed.

(** ** Splitting, searching, merging *)

(** The blocks in use may be regrouped as long as they cover the same pages. *)
Lemma wf_regroup pool s fl used used' :
  buddy_wf pool s fl used → used ≫= pages_of ≡ₚ used' ≫= pages_of →
  Forall (λ b, 0 ≤ b.2 < MAX_ORDER) used' → buddy_wf pool s fl used'.
Proof.
  intros [] Hu Hf. split; try done. by rewrite bind_app, <- Hu, <- bind_app.
Qed.

Lemma wf_split pool s fl used a k :
  0 ≤ k → buddy_wf pool s fl ((a, k + 1) :: used) →
  buddy_wf pool s fl ((a, k) :: (a + BLOCK_SIZE k, k) :: used).
Proof.
  intros Hk Hwf. eapply wf_regroup; [done| |].
  - rewrite !bind_cons, pages_of_halves, app_assoc by done. done.
  - pose proof (wf_used _ _ _ _ Hwf) as Hu. apply Forall_cons in Hu as [Hu ?].
    cbn in Hu. repeat constructor; cbn; (done || lia).
Qed.

Lemma wf_swap pool s fl used b1 b2 :
  buddy_wf pool s fl (b1 :: b2 :: used) → buddy_wf pool s fl (b2 :: b1 :: used).
Proof.
  intros Hwf. eapply wf_regroup; [done| |].
  - rewrite !bind_cons. rewrite !app_assoc. f_equiv. apply Permutation_app_comm.
  - pose proof (wf_used _ _ _ _ Hwf) as Hu. rewrite !Forall_cons in *. naive_solver.
Qed.

Lemma wf_merge pool s fl used a k :
  0 ≤ k < MAX_ORDER - 1 → buddy_wf pool s fl ((BUDDY_BLOCK a k, k) :: (a, k) :: used) →
  buddy_wf pool s fl ((BUDDY_LOW a k, k + 1) :: used).
Proof.
  intros Hk Hwf.
  assert (a ∈ pool) as Ha by (eapply (wf_block_in_pool Hwf a k); set_solver).
  pose proof (pool_page _ _ (wf_pool _ _ _ _ Hwf) a Ha) as [? _]. unfold PGSIZE in *.
  eapply wf_regroup; [done| |].
  - rewrite !bind_cons, pages_of_merge, <- app_assoc by lia.
    rewrite !app_assoc. f_equiv. apply Permutation_app_comm.
  - pose proof (wf_used _ _ _ _ Hwf) as Hu. rewrite !Forall_cons in *. cbn. split; [lia|].
    naive_solver.
Qed.

Lemma split_loop_ok pool n : ∀ s fl used a k,
  0 ≤ k → buddy_wf pool s fl ((a, k + Z.of_nat n) :: used) →
  ∃ r s' fl', split_loop n a k s = Ret (r, s') ∧ page_order s' = page_order s ∧
    buddy_wf pool s' fl' ((r, k) :: used).
Proof.
  induction n as [|n IH]; intros s fl used a k Hk Hwf.
  - exists a, s, fl. by rewrite Z.add_0_r in Hwf.
  - cbn [split_loop]. set (j := k + Z.of_nat n).
    replace (k + Z.of_nat (S n)) with (j + 1) in Hwf by lia.
    apply wf_split in Hwf; [|lia].
    assert (a + BLOCK_SIZE j ∈ pool) as Hp by
      (eapply (wf_block_in_pool Hwf _ j); set_solver).
    pose proof (pool_page _ _ (wf_pool _ _ _ _ Hwf) _ Hp) as [? _].
    destruct (add_first_ok _ _ _ _ _ _ Hwf) as (s1 & E1 & Hpo & Hwf1). mstep E1.
    rewrite u64_small by (unfold PGSIZE in *; lia).
    destruct (IH s1 _ used (a + BLOCK_SIZE j) k Hk Hwf1) as (r & s2 & fl2 & E2 & Hpo2 & Hwf2).
    exists r, s2, fl2. split_and!; [done|congruence|done].
Qed.

(** Taking the last block of a non-empty area. *)
Lemma take_last_ok pool s fl used k :
  buddy_wf pool s fl used → 0 ≤ k < MAX_ORDER → fl k ≠ [] →
  ∃ b a s' fl', rd (free_list k) s = Ret (b, s) ∧ bprev b = a ∧
    remove a s = Ret (tt, s') ∧ page_order s' = page_order s ∧
    buddy_wf pool s' fl' ((a, k) :: used) ∧ a ≠ 0.
Proof.
  intros Hwf Hk Hne. pose proof (wf_list _ _ _ _ Hwf k Hk) as Hl.
  destruct (dlist_last _ _ _ _ Hl) as (a & Ea & _ & Hpa).
  apply last_Some in Ea as [c Ec]. destruct c as [|h' c]; [injection Ec; naive_solver|].
  injection Ec as _ Ec.
  assert (free_list k ∈ dom (bmem s)) as Hd by
    (apply (wf_list_dom _ _ _ _ k _ Hwf Hk); set_solver).
  destruct (rd_ok s _ Hd) as (b & Eb & Hb). unfold pf in Hpa. rewrite Hb in Hpa.
  injection Hpa as Hpa.
  destruct (remove_ok _ _ _ _ k c a [] Hwf Hk Ec) as (s' & Er & Hpo & Hwf').
  exists b, a, s', (<[k := c ++ []]> fl). split_and!; try done.
  assert (a ∈ pool) as Hap by (apply (wf_free_in_pool Hwf a k Hk); rewrite Ec; set_solver).
  pose proof (pool_page _ _ (wf_pool _ _ _ _ Hwf) _ Hap). lia.
Qed.

Lemma ctrue_zlen {A} (l : list A) : ctrue (zlen l) = true ↔ l ≠ [].
Proof. unfold ctrue, zlen. destruct l; cbn; naive_solver. Qed.

Lemma require_loop_ok pool s fl used k fuel : ∀ i,
  buddy_wf pool s fl used → 0 ≤ k < i → MAX_ORDER ≤ i + Z.of_nat fuel →
  ∃ r s', require_loop fuel i k s = Ret (r, s') ∧ page_order s' = page_order s ∧
    ((r = 0 ∧ ∀ j, i ≤ j < MAX_ORDER → fl j = []) ∨
     (r ≠ 0 ∧ ∃ fl', buddy_wf pool s' fl' ((r, k) :: used))).
Proof.
  intros i Hwf. revert i. induction fuel as [|fuel IH]; intros i Hi Hf.
  { exists 0, s. split_and!; [done..|]. left. split; [done|]. intros. lia. }
  cbn [require_loop]. destruct (Z.ltb_spec i MAX_ORDER) as [Hlt|];
    [|exists 0, s; split_and!; [done..|]; left; split; [done|]; intros; lia].
  erewrite mbind_Ret by (apply (get_nr_ok _ fl); [apply (wf_nr _ _ _ _ Hwf)|lia]).
  destruct (ctrue (zlen (fl i))) eqn:Ec.
  - apply ctrue_zlen in Ec.
    destruct (take_last_ok _ _ _ _ i Hwf ltac:(lia) Ec)
      as (b & a & s1 & fl1 & Eb & Hb & Er & Hpo & Hwf1 & Ha0).
    mstep Eb. cbv zeta. rewrite Hb. mstep Er.
    replace i with (k + Z.of_nat (Z.to_nat (i - k))) in Hwf1 by lia.
    destruct (split_loop_ok pool (Z.to_nat (i - k)) s1 fl1 used a k ltac:(lia) Hwf1) as (r & s2 & fl2 & E2 & Hpo2 & Hwf2).
    exists r, s2. split_and!; [done|congruence|]. right. split; [|by exists fl2].
    assert (r ∈ pool) as Hrp by (eapply (wf_block_in_pool Hwf2 r k); set_solver).
    pose proof (pool_page _ _ (wf_pool _ _ _ _ Hwf2) _ Hrp). lia.
  - destruct (IH (i + 1)) as (r & s' & E & Hpo & Hr); [lia|lia|].
    exists r, s'. split_and!; [done..|]. destruct Hr as [[-> Hj]|Hr]; [left|by right].
    split; [done|]. intros j Hj'. destruct (decide (j = i)) as [->|]; [|apply Hj; lia].
    destruct (fl i) eqn:E'; [done|]. exfalso. apply not_true_iff_false in Ec. apply Ec.
    by apply ctrue_zlen.
Qed.

Lemma buddy_free_helper_ok pool fuel : ∀ s fl used a k,
  buddy_wf pool s fl ((a, k) :: used) → MAX_ORDER ≤ k + Z.of_nat fuel →
  ∃ s' fl', buddy_free_helper fuel a k s = Ret (tt, s') ∧ page_order s' = page_order s ∧
    buddy_wf pool s' fl' used.
Proof.
  induction fuel as [|fuel IH]; intros s fl used a k Hwf Hf;
    destruct (wf_used_block _ _ _ _ _ _ Hwf) as (Hk & Hap & _); [lia|].
  destruct (add_last_ok _ _ _ _ _ _ Hwf) as (s' & Ea & Hpo & Hwf').
  cbn [buddy_free_helper]. destruct (Z.ltb_spec k (MAX_ORDER - 1)) as [Hlt|Hge].
  2:{ erewrite mbind_Ret by reflexivity. cbv beta iota. eauto 6. }
  destruct (rd_ok s (BUDDY_BLOCK a k)) as (b & Eb & Hb).
  { apply (pool_buddy _ _ (wf_pool _ _ _ _ Hwf)); [done|lia]. }
  erewrite mbind_Ret by (mstep Eb; reflexivity). cbv beta.
  destruct ((magic b =? BUDDY_MAGIC) && (border b =? k) && IN_RAM (bprev b) &&
    IN_RAM (bnext b)) eqn:Em; [|eauto 6].
  apply andb_prop in Em as [[[Em Eo]%andb_prop _]%andb_prop _].
  apply Z.eqb_eq in Em, Eo.
  destruct (wf_unforged _ _ _ _ Hwf (BUDDY_BLOCK a k)) as (j & Hj & Hin).
  { unfold magics. rewrite Hb. cbn. by rewrite Em. }
  pose proof (wf_order _ _ _ _ Hwf j _ Hj Hin) as Ho. unfold orders in Ho.
  rewrite Hb in Ho. injection Ho as Ho. assert (j = k) as -> by congruence.
  apply list_elem_of_split in Hin as (l1 & l2 & Hin).
  destruct (remove_ok _ _ _ _ k l1 _ l2 Hwf Hk Hin) as (s1 & E1 & Hpo1 & Hwf1). mstep E1.
  apply wf_merge in Hwf1; [|lia].
  destruct (IH _ _ _ _ _ Hwf1) as (s2 & fl2 & E2 & Hpo2 & Hwf2); [lia|].
  exists s2, fl2. split_and!; [done|congruence|done].
Qed.

(** ** [buddy_alloc] and [buddy_free] *)

Lemma order_loop_spec fuel n : ∀ o,
  0 ≤ o → (∀ j, 0 ≤ j < o → 2 ^ j < n) → n ≤ 2 ^ (o + Z.of_nat fuel - 1) →
  (0 < fuel)%nat →
  ∃ k, order_loop fuel n o = Some k ∧ 0 ≤ k ∧ n ≤ 2 ^ k ∧ (∀ j, 0 ≤ j < k → 2 ^ j < n).
Proof.
  induction fuel as [|fuel IH]; intros o Ho Hlt Hn Hf; [lia|]. cbn [order_loop].
  rewrite Z.shiftl_mul_pow2, Z.mul_1_l by done.
  destruct (Z.ltb_spec (2 ^ o) n) as [Hlt'|]; [|by exists o].
  destruct fuel as [|fuel].
  { replace (o + Z.of_nat 1 - 1) with o in Hn by lia. lia. }
  apply IH; [lia| |by replace (o + 1 + Z.of_nat (S fuel) - 1)
    with (o + Z.of_nat (S (S fuel)) - 1) by lia|lia].
  intros j Hj. destruct (decide (j = o)) as [->|]; [done|]. apply Hlt. lia.
Qed.

(** The order chosen for a request: the least block that holds it. *)
Definition least_order (sz k : Z) : Prop :=
  0 ≤ k < MAX_ORDER ∧ sz ≤ BLOCK_SIZE k ∧ (∀ j, 0 ≤ j < k → BLOCK_SIZE j < sz).

Lemma get_order_spec sz :
  0 < sz ≤ BLOCK_SIZE (MAX_ORDER - 1) →
  ∃ k, get_order (PGROUNDUP sz) = Some k ∧ least_order sz k.
Proof.
  intros Hsz. change (BLOCK_SIZE (MAX_ORDER - 1)) with 4194304 in Hsz.
  destruct (PGROUNDUP_bounds sz) as [Hb Hm]; [lia|unfold PGOFFMASK; lia|].
  unfold PGSIZE in *. set (p := PGROUNDUP sz) in *.
  unfold get_order. rewrite Z.shiftr_div_pow2 by (unfold PGSHIFT; lia).
  change (2 ^ PGSHIFT) with 4096.
  assert (p = 4096 * (p / 4096)) as Hp by (pose proof (Z.div_mod p 4096); lia).
  set (n := p / 4096) in *.
  destruct (order_loop_spec 31 n 0) as (k & E & Hk & Hn & Hlt);
    [lia|lia| |lia|].
  { change (2 ^ (0 + Z.of_nat 31 - 1)) with 1073741824. lia. }
  exists k. split; [done|]. unfold least_order, BLOCK_SIZE, PGSIZE, MAX_ORDER.
  assert (k < 11).
  { destruct (decide (k < 11)); [done|]. specialize (Hlt 10 ltac:(lia)).
    change (2 ^ 10) with 1024 in Hlt. lia. }
  split; [lia|]. rewrite Z.shiftl_mul_pow2 by done. split; [lia|].
  intros j Hj. rewrite Z.shiftl_mul_pow2 by lia. specialize (Hlt j Hj). lia.
Qed.

(** The [order] field of every pool page can be read and written, and holds the
    order of each block in use. *)
Record pages_ok (pool : list Z) (po : gmap Z Z) (used : list (Z * Z)) : Prop := {
  pages_dom a : a ∈ pool → page_idx a ∈ dom po;
  pages_used a k : (a, k) ∈ used → po !! page_idx a = Some k
}.

Definition alloc_inv (pool : list Z) (s : buddy) (used : list (Z * Z)) : Prop :=
  (∃ fl, buddy_wf pool s fl used) ∧ pages_ok pool (page_order s) used.

Lemma page_idx_inj D pool a b :
  pool_ok D pool → a ∈ pool → b ∈ pool → page_idx a = page_idx b → a = b.
Proof.
  intros Hp Ha Hb. unfold page_idx.
  destruct (pool_page _ _ Hp a Ha) as [Ha1 Ha2], (pool_page _ _ Hp b Hb) as [Hb1 Hb2].
  destruct (pool_base _ _ Hp a Ha) as [Hba Hm], (pool_base _ _ Hp b Hb) as [Hbb _].
  unfold PGSIZE in *. rewrite !u64_small by lia.
  rewrite !Z.shiftr_div_pow2 by (unfold PGSHIFT; lia). change (2 ^ PGSHIFT) with 4096.
  intros E. Z.div_mod_to_equations. lia.
Qed.

Lemma SET_PAGE_ORDER_ok s a v :
  page_idx a ∈ dom (page_order s) → 0 ≤ v < 16 →
  SET_PAGE_ORDER a v s =
    Ret (tt, Buddy (bmem s) (nr_free s) (<[page_idx a := v]> (page_order s))).
Proof.
  intros [x Hx]%elem_of_dom Hv. unfold SET_PAGE_ORDER, GET_PAGE_ORDER. munfold.
  rewrite Hx. replace (Z.land v 15) with v; [done|].
  change 15 with (Z.ones 4). rewrite Z.land_ones, Z.mod_small by lia. done.
Qed.

(** The invariant does not look at [page_order]. *)
Lemma wf_pages_irrel pool m nr po po' fl used :
  buddy_wf pool (Buddy m nr po) fl used → buddy_wf pool (Buddy m nr po') fl used.
Proof. intros []. by split. Qed.

(** Two blocks in use start at different pages. *)
Lemma wf_used_distinct pool s fl used a k b :
  buddy_wf pool s fl ((a, k) :: used) → b ∈ used → b.1 ≠ a.
Proof.
  intros Hwf Hb <-. pose proof (pool_nodup _ _ (wf_pool _ _ _ _ Hwf)) as Hnd.
  rewrite <- (wf_part _ _ _ _ Hwf), bind_app, bind_cons in Hnd.
  apply NoDup_app in Hnd as (_ & _ & (_ & Hd & _)%NoDup_app).
  pose proof (wf_used _ _ _ _ Hwf) as Hu.
  apply Forall_cons in Hu as [Hk Hu]. rewrite Forall_forall in Hu. specialize (Hu _ Hb).
  destruct b as [b j]. cbn in *. apply (Hd b); [apply pages_of_first; lia|].
  apply list_elem_of_bind. exists (b, j). split; [apply pages_of_first; lia|done].
Qed.

Lemma pages_ok_alloc pool s fl used a k po :
  buddy_wf pool s fl ((a, k) :: used) → pages_ok pool po used →
  pages_ok pool (<[page_idx a := k]> po) ((a, k) :: used).
Proof.
  intros Hwf [Hd Hu]. destruct (wf_used_block _ _ _ _ _ _ Hwf) as (Hk & Hap & _).
  split.
  - intros b Hb. rewrite dom_insert_L. specialize (Hd b Hb). set_solver.
  - intros b j [E|Hb]%elem_of_cons; [injection E as -> ->; apply lookup_insert_eq|].
    rewrite lookup_insert_ne; [by apply Hu|]. intros Eidx.
    apply (wf_used_distinct _ _ _ _ _ _ _ Hwf Hb). cbn. symmetry.
    eapply page_idx_inj; [apply (wf_pool _ _ _ _ Hwf)|done| |done].
    eapply (wf_block_in_pool Hwf b j). set_solver.
Qed.

(** A request is served from the least area that fits, or by splitting a block of the
    first larger area that has one; it fails only when all of those are empty. *)
Lemma buddy_alloc_ok pool s fl used sz :
  buddy_wf pool s fl used → pages_ok pool (page_order s) used →
  0 < sz ≤ BLOCK_SIZE (MAX_ORDER - 1) →
  ∃ k, least_order sz k ∧
    ((buddy_alloc sz s = Panic ∧ ∀ j, k ≤ j < MAX_ORDER → fl j = []) ∨
     (∃ r s', buddy_alloc sz s = Ret (r, s') ∧ alloc_inv pool s' ((r, k) :: used))).
Proof.
  intros Hwf Hpg Hsz. destruct (get_order_spec sz Hsz) as (k & Eo & Hl).
  pose proof Hl as (Hk & Hfit & _). exists k. split; [done|].
  assert (∀ r s1 fl1, page_order s1 = page_order s → buddy_wf pool s1 fl1 ((r, k) :: used) →
    ∃ s2, SET_PAGE_ORDER r k s1 = Ret (tt, s2) ∧ alloc_inv pool s2 ((r, k) :: used)) as Hset.
  { intros r s1 fl1 Hpo Hwf1. destruct (wf_used_block _ _ _ _ _ _ Hwf1) as (_ & Hrp & _).
    rewrite SET_PAGE_ORDER_ok; [|rewrite Hpo; by apply Hpg|unfold MAX_ORDER in *; lia].
    eexists. split; [done|]. destruct s1. split.
    - exists fl1. by eapply wf_pages_irrel.
    - cbn in *. rewrite Hpo. by eapply pages_ok_alloc. }
  unfold buddy_alloc. rewrite (proj2 (Z.ltb_lt 0 sz)) by lia.
  erewrite mbind_Ret by reflexivity. cbv zeta. rewrite Eo.
  erewrite mbind_Ret by reflexivity. cbv beta.
  unfold BLOCK_SIZE in Hfit. rewrite (proj2 (Z.leb_le sz _)) by done.
  erewrite mbind_Ret by reflexivity. cbv beta.
  erewrite mbind_Ret by (apply (get_nr_ok _ fl); [apply (wf_nr _ _ _ _ Hwf)|done]).
  destruct (ctrue (zlen (fl k))) eqn:Ec.
  - right. apply ctrue_zlen in Ec.
    destruct (take_last_ok _ _ _ _ k Hwf Hk Ec)
      as (b & a & s1 & fl1 & Eb & Hb & Er & Hpo & Hwf1 & Ha0).
    destruct (Hset a s1 fl1 Hpo Hwf1) as (s2 & E2 & Hi).
    mstep Eb. cbv zeta. rewrite Hb. mstep Er. mstep E2. eauto.
  - destruct (require_loop_ok pool s fl used k 11 (k + 1)) as (r & s1 & E1 & Hpo & Hr);
      [done|lia|unfold MAX_ORDER; lia|].
    mstep E1. destruct Hr as [[-> Hj]|[Hr0 [fl1 Hwf1]]].
    + left. split; [done|]. intros j Hj'. destruct (decide (j = k)) as [->|]; [|apply Hj; lia].
      destruct (fl k) eqn:E'; [done|]. exfalso. apply not_true_iff_false in Ec. apply Ec.
      by apply ctrue_zlen.
    + right. destruct (Hset r s1 fl1 Hpo Hwf1) as (s2 & E2 & Hi).
      unfold ctrue. rewrite (proj2 (Z.eqb_neq r 0)) by done. cbn [negb].
      mstep E2. eauto.
Qed.

Lemma kfree_ok pool s used1 a k used2 :
  alloc_inv pool s (used1 ++ (a, k) :: used2) →
  ∃ s', kfree a s = Ret (tt, s') ∧ alloc_inv pool s' (used1 ++ used2).
Proof.
  intros [[fl Hwf] [Hd Hu]].
  assert (buddy_wf pool s fl ((a, k) :: used1 ++ used2)) as Hwf'.
  { eapply wf_regroup; [done| |].
    - by rewrite <- Permutation_middle.
    - pose proof (wf_used _ _ _ _ Hwf) as Hf. by rewrite <- Permutation_middle in Hf. }
  destruct (wf_used_block _ _ _ _ _ _ Hwf') as (Hk & Hap & _).
  unfold kfree. erewrite mbind_Ret by (unfold GET_PAGE_ORDER, mtry;
    rewrite (Hu a k) by set_solver; reflexivity). cbv beta.
  unfold buddy_free. rewrite (mbind_Ret _ _ _ _ _ (SET_PAGE_ORDER_ok s a 0 (Hd a Hap) ltac:(lia))).
  destruct s as [m nr po]. apply (wf_pages_irrel _ _ _ _ (<[page_idx a := 0]> po)) in Hwf'.
  destruct (buddy_free_helper_ok pool 12 _ _ _ _ _ Hwf') as (s' & fl' & E & Hpo & Hwf2);
    [unfold MAX_ORDER; lia|].
  exists s'. split; [done|]. split; [by exists fl'|]. rewrite Hpo. cbn [page_order] in *. split.
  - intros b Hb. rewrite dom_insert_L. specialize (Hd b Hb). set_solver.
  - intros b j Hb. rewrite lookup_insert_ne; [apply Hu; set_solver|].
    intros Eidx. apply (wf_used_distinct _ _ _ _ _ _ _ Hwf' Hb). cbn. symmetry.
    eapply page_idx_inj; [apply (wf_pool _ _ _ _ Hwf')|done| |done].
    eapply (wf_block_in_pool Hwf' b j). set_solver.
Qed.

(** ** [buddy_init] establishes the invariant *)

Definition range_pages (s n : Z) : list Z := (λ i, s + PGSIZE * i) <$> seqZ 0 n.

Lemma range_pages_app s n1 n2 :
  0 ≤ n1 → 0 ≤ n2 → range_pages s (n1 + n2) = range_pages s n1 ++ range_pages (s + PGSIZE * n1) n2.
Proof.
  intros. unfold range_pages. rewrite seqZ_app, fmap_app by done. f_equal.
  rewrite (Z.add_comm 0), <- fmap_add_seqZ, <- list_fmap_compose.
  apply list_fmap_ext. intros i x _. cbn. unfold PGSIZE. lia.
Qed.

(** The blocks [init_areas] will make. *)
Fixpoint blocks_from (n : nat) (s i : Z) : list (Z * Z) :=
  match n with
  | O => []
  | S n => (s, i) :: blocks_from n (s + BLOCK_SIZE i) i
  end.

Fixpoint plan (g : Z → Z) (areas : list Z) (s : Z) : list (Z * Z) :=
  match areas with
  | [] => []
  | i :: areas =>
      blocks_from (Z.to_nat (g i)) s i ++ plan g areas (s + g i * BLOCK_SIZE i)
  end.

Definition wsum (g : Z → Z) (areas : list Z) : Z :=
  foldr (λ i acc, 2 ^ i * g i + acc) 0 areas.

Lemma blocks_from_pages n s i :
  0 ≤ i → blocks_from n s i ≫= pages_of = range_pages s (Z.of_nat n * 2 ^ i).
Proof.
  intros Hi. revert s. induction n as [|n IH]; intros s; [done|].
  cbn [blocks_from]. rewrite bind_cons, IH.
  replace (Z.of_nat (S n) * 2 ^ i) with (2 ^ i + Z.of_nat n * 2 ^ i) by lia.
  assert (0 < 2 ^ i) by (apply Z.pow_pos_nonneg; lia).
  rewrite range_pages_app by nia. unfold BLOCK_SIZE. by rewrite Z.shiftl_mul_pow2.
Qed.

Lemma wsum_nonneg g areas : Forall (λ i, 0 ≤ i ∧ 0 ≤ g i) areas → 0 ≤ wsum g areas.
Proof.
  induction 1 as [|i areas [Hi Hg] _ IH]; [done|].
  cbn [wsum foldr]. fold (wsum g areas).
  assert (0 < 2 ^ i) by (apply Z.pow_pos_nonneg; lia). nia.
Qed.

Lemma plan_pages g areas s :
  Forall (λ i, 0 ≤ i ∧ 0 ≤ g i) areas →
  plan g areas s ≫= pages_of = range_pages s (wsum g areas).
Proof.
  intros Hf. revert s. induction Hf as [|i areas [Hi Hg] Hf IH]; intros s; [done|].
  cbn [plan wsum foldr]. rewrite bind_app, IH, blocks_from_pages by done.
  fold (wsum g areas). pose proof (wsum_nonneg g areas Hf).
  assert (0 < 2 ^ i) by (apply Z.pow_pos_nonneg; lia).
  rewrite range_pages_app by nia. rewrite Z2Nat.id by done.
  f_equal; [f_equal; lia|]. f_equal. unfold BLOCK_SIZE.
  rewrite Z.shiftl_mul_pow2 by done. lia.
Qed.

Lemma plan_orders g areas s :
  Forall (λ i, 0 ≤ i < MAX_ORDER) areas → Forall (λ b, 0 ≤ b.2 < MAX_ORDER) (plan g areas s).
Proof.
  intros Hf. revert s. induction Hf as [|i l Hi _ IH]; intros s; [constructor|]. cbn [plan].
  apply Forall_app. split; [|apply IH]. clear IH. revert s.
  induction (Z.to_nat (g i)); constructor; auto.
Qed.

(** ** The loops of [buddy_init] *)

Lemma counts_ext g g' :
  (∀ j, 0 ≤ j < MAX_ORDER → g j = g' j) → counts g = counts g'.
Proof.
  intros Hg. apply list_fmap_ext. intros i j Hj%list_elem_of_lookup_2%elem_of_seqZ.
  apply Hg. lia.
Qed.

Lemma counts_Ret {A} po (a : A) m g g' :
  counts g = counts g' →
  Ret (a, Buddy m (counts g) po) = Ret (a, Buddy m (counts g') po).
Proof. by intros ->. Qed.

Lemma init_blocks_ok pool n po : ∀ m nr g fl rest s i,
  buddy_wf pool (Buddy m nr po) fl (blocks_from n s i ++ rest) → 0 ≤ i < MAX_ORDER →
  g i = zlen (fl i) → 0 ≤ s → s + Z.of_nat n * BLOCK_SIZE i < 2 ^ 64 →
  ∃ m' nr' fl', init_blocks n s (BLOCK_SIZE i) i (Buddy m (counts g) po) =
      Ret (s + Z.of_nat n * BLOCK_SIZE i,
        Buddy m' (counts (λ j, if decide (j = i) then zlen (fl' i) else g j)) po) ∧
    buddy_wf pool (Buddy m' nr' po) fl' rest ∧
    (∀ j, j ≠ i → fl' j = fl j).
Proof.
  induction n as [|n IH]; intros m nr g fl rest s i Hwf Hi Hg Hs0 Hs.
  - exists m, nr, fl. split_and!; [|done|done]. rewrite Z.add_0_r.
    apply (counts_Ret po), counts_ext. intros j _. case_decide as E; [|done]. by rewrite E.
  - assert (0 < BLOCK_SIZE i) by (unfold BLOCK_SIZE, PGSIZE; rewrite Z.shiftl_mul_pow2 by lia;
      assert (0 < 2 ^ i) by (apply Z.pow_pos_nonneg; lia); lia).
    cbn [blocks_from app] in Hwf.
    destruct (add_last_gen _ _ _ _ _ _ _ _ g Hwf Hg) as (m1 & nr1 & E1 & Hwf1).
    cbn [init_blocks]. mstep E1. rewrite u64_small by nia.
    destruct (IH m1 nr1 (λ j, if decide (j = i) then zlen (fl i) + 1 else g j) _ rest
      (s + BLOCK_SIZE i) i Hwf1) as (m2 & nr2 & fl2 & E2 & Hwf2 & Hfl2);
      [done| |lia|nia|].
    { rewrite decide_True, fn_lookup_insert, zlen_app by done. unfold zlen. cbn. lia. }
    exists m2, nr2, fl2. split_and!; [|done|].
    + rewrite E2. replace (s + BLOCK_SIZE i + Z.of_nat n * BLOCK_SIZE i)
        with (s + Z.of_nat (S n) * BLOCK_SIZE i) by lia.
      apply (counts_Ret po), counts_ext. intros j _. by repeat case_decide.
    + intros j Hj. rewrite Hfl2 by done. by rewrite fn_lookup_insert_ne.
Qed.

Lemma init_areas_ok pool po areas : ∀ m nr g fl s,
  buddy_wf pool (Buddy m nr po) fl (plan g areas s) → NoDup areas →
  Forall (λ i, 0 ≤ i < MAX_ORDER ∧ 0 ≤ g i < 2 ^ 31 ∧ fl i = []) areas →
  0 ≤ s → s + PGSIZE * wsum g areas < 2 ^ 64 →
  (∀ j, 0 ≤ j < MAX_ORDER → j ∉ areas → g j = zlen (fl j)) →
  ∃ s' fl', init_areas areas s (Buddy m (counts g) po) = Ret (s + PGSIZE * wsum g areas, s') ∧
    page_order s' = po ∧ buddy_wf pool s' fl' [].
Proof.
  induction areas as [|i areas IH]; intros m nr g fl s Hwf Hnd Hf Hs0 Hs Hg.
  - exists (Buddy m (counts g) po), fl. split_and!; [cbn; by rewrite Z.add_0_r|done|].
    destruct Hwf. split; try done. apply counts_ext. intros j Hj. apply Hg; set_solver.
  - apply NoDup_cons in Hnd as [Hi Hnd]. apply Forall_cons in Hf as [(Hi1 & Hgi & Hfi) Hf].
    assert (Forall (λ i, 0 ≤ i ∧ 0 ≤ g i) areas) as Hf'.
    { eapply Forall_impl; [exact Hf|]. cbn. lia. }
    pose proof (wsum_nonneg g areas Hf') as Hw.
    assert (0 < 2 ^ i) by (apply Z.pow_pos_nonneg; lia).
    assert (BLOCK_SIZE i = PGSIZE * 2 ^ i) as EB by
      (unfold BLOCK_SIZE; by rewrite Z.shiftl_mul_pow2 by lia).
    cbn [wsum foldr] in Hs |- *. fold (wsum g areas) in Hs |- *.
    cbn [init_areas plan] in *.
    erewrite mbind_Ret by (apply (get_nr_g _ g); [done|lia]). cbv beta zeta.
    rewrite i32_small by lia.
    erewrite mbind_Ret by (apply (set_nr_g _ g); [done|lia|lia]). cbv beta.
    cbn [bmem page_order]. fold (counts (λ j, if decide (j = i) then 0 else g j)).
    destruct (init_blocks_ok pool (Z.to_nat (g i)) po m nr (λ j, if decide (j = i) then 0 else g j)
      fl _ s i Hwf) as (m1 & nr1 & fl1 & E1 & Hwf1 & Hfl1);
      [done|by rewrite decide_True, Hfi|done|unfold PGSIZE in *; rewrite EB; nia|].
    mstep E1. rewrite Z2Nat.id by lia.
    set (g1 := λ j, if decide (j = i) then zlen (fl1 i) else
                    if decide (j = i) then 0 else g j).
    assert (∀ j, j ≠ i → g1 j = g j) as Eg.
    { intros j Hj. unfold g1. by rewrite !decide_False. }
    assert (∀ s0, plan g1 areas s0 = plan g areas s0 ∧ wsum g1 areas = wsum g areas) as Hpl.
    { clear -Eg Hi. induction areas as [|j areas IH]; [done|]. intros s0.
      cbn [plan wsum foldr]. rewrite Eg by set_solver.
      destruct (IH ltac:(set_solver) (s0 + g j * BLOCK_SIZE j)) as [-> Hw2]. unfold wsum in Hw2.
      by rewrite Hw2. }
    destruct (Hpl (s + g i * BLOCK_SIZE i)) as [Ep Ew].
    destruct (IH m1 nr1 g1 fl1 (s + g i * BLOCK_SIZE i)) as (s2 & fl2 & E2 & Hpo & Hwf2).
    + by rewrite Ep.
    + done.
    + rewrite Forall_forall in Hf |- *. intros j Hj. destruct (Hf j Hj) as (? & ? & ?).
      assert (j ≠ i) by set_solver. by rewrite Eg, Hfl1.
    + rewrite EB. unfold PGSIZE in *. nia.
    + rewrite Ew, EB. unfold PGSIZE in *. nia.
    + intros j Hj Hja. destruct (decide (j = i)) as [->|Hji].
      * unfold g1. by rewrite decide_True.
      * rewrite Eg, Hfl1 by done. apply Hg; [done|]. set_solver.
    + exists s2, fl2. split_and!; [|done|done]. rewrite Ew in E2.
      rewrite E2, EB.
      do 2 f_equal. lia.
Qed.

Lemma wsum_snoc g n : wsum g (seqZ 0 (Z.of_nat (S n))) =
  wsum g (seqZ 0 (Z.of_nat n)) + 2 ^ Z.of_nat n * g (Z.of_nat n).
Proof.
  assert (∀ l x, wsum g (l ++ [x]) = wsum g l + 2 ^ x * g x) as Happ.
  { intros l x. induction l as [|y l IH]; cbn; [lia|].
    fold (wsum g (l ++ [x])) (wsum g l). lia. }
  rewrite seqZ_S, Happ. by rewrite Z.add_0_l.
Qed.

(** An empty list head. *)
Definition head_empty (m : gmap Z block) (i : Z) : Prop :=
  nf m (free_list i) = Some (free_list i) ∧ pf m (free_list i) = Some (free_list i).

Lemma init_counts_ok po n : ∀ m g np,
  (n ≤ 11)%nat → (n = O → np = 0) → 0 ≤ np < 2 ^ 30 →
  (∀ j, 0 ≤ j < Z.of_nat n → 0 ≤ g j ≤ 2 ^ 10 ∧ free_list j ∈ dom m) →
  ∃ m' g', init_counts n np (Buddy m (counts g) po) = Ret (tt, Buddy m' (counts g') po) ∧
    dom m' = dom m ∧
    (∀ j, Z.of_nat n ≤ j → g' j = g j ∧ (head_empty m j → head_empty m' j)) ∧
    (∀ j, 0 ≤ j < Z.of_nat n → 0 ≤ g' j < 2 ^ 31 ∧ head_empty m' j) ∧
    wsum g' (seqZ 0 (Z.of_nat n)) = wsum g (seqZ 0 (Z.of_nat n)) + np ∧
    (∀ x, magics m' x = magics m x).
Proof.
  induction n as [|n IH]; intros m g np Hn11 Hn0 Hnp Hg.
  { exists m, g. rewrite Hn0 by done. split_and!; try done; lia. }
  cbn [init_counts]. set (i := Z.of_nat n).
  assert (0 < 2 ^ i) as Hpow by (apply Z.pow_pos_nonneg; lia).
  assert (2 ^ i ≤ 2 ^ 10) as Hpow10 by (apply Z.pow_le_mono_r; lia).
  destruct (Hg i) as [Hgi Hdi]; [lia|].
  assert (0 ≤ np / 2 ^ i ≤ np) as Hq.
  { split; [apply Z.div_pos; lia|]. apply Z.div_le_upper_bound; [lia|nia]. }
  rewrite Z.shiftr_div_pow2 by lia.
  assert (0 ≤ i < MAX_ORDER) as Hi by (unfold MAX_ORDER; lia).
  erewrite mbind_Ret by (by apply (get_nr_g _ g)). cbv beta.
  erewrite mbind_Ret by (apply (set_nr_g _ g); [done|done|lia]). cbv beta.
  cbn [bmem page_order]. do 2 wr_step.
  set (m1 := alter _ _ _).
  assert (Z.land np (u64 (i32 (Z.shiftl 1 i - 1))) = np mod 2 ^ i) as ->.
  { rewrite Z.shiftl_mul_pow2, Z.mul_1_l by lia. rewrite i32_small, u64_small by lia.
    replace (2 ^ i - 1) with (Z.ones i) by (rewrite Z.ones_equiv; lia).
    apply Z.land_ones. lia. }
  set (g1 := λ j, if decide (j = i) then g i + np / 2 ^ i else g j).
  assert (dom m1 = dom m) as Hd1 by (unfold m1; by rewrite !dom_alter_L).
  pose proof (Z.mod_pos_bound np (2 ^ i) Hpow) as Hmod.
  pose proof (Z.div_mod np (2 ^ i)) as Hdm.
  assert (head_empty m1 i) as Hei by (unfold m1; split; by bproj_cases).
  assert (∀ j, j ≠ i → head_empty m j → head_empty m1 j) as Hej.
  { intros j Hj [H1 H2]. assert (free_list j ≠ free_list i) by (by intros ?%free_list_inj).
    unfold nf, pf in H1, H2. unfold m1. split; by bproj_cases. }
  destruct (IH m1 g1 (np mod 2 ^ i)) as (m2 & g2 & E2 & Hd2 & Hhi & Hlo & Hw & Hmg).
  - lia.
  - intros ->. apply Z.mod_1_r.
  - lia.
  - intros j Hj. unfold g1. rewrite decide_False by lia. rewrite Hd1. apply Hg. lia.
  - exists m2, g2. split; [exact E2|]. split; [congruence|]. split_and!.
    + intros j Hj. destruct (Hhi j) as [-> He]; [lia|]. unfold g1.
      rewrite decide_False by lia. split; [done|]. intros ?. apply He, Hej; [lia|done].
    + intros j Hj. destruct (decide (j = i)) as [->|]; [|apply Hlo; lia].
      destruct (Hhi i) as [-> He]; [lia|]. split; [|by apply He].
      unfold g1. rewrite decide_True by done. lia.
    + rewrite !wsum_snoc, Hw. fold i. destruct (Hhi i) as [-> _]; [lia|].
      unfold g1 at 2. rewrite decide_True by done.
      assert (wsum g1 (seqZ 0 i) = wsum g (seqZ 0 i)) as ->; [|lia].
      assert (Forall (λ j, j ≠ i) (seqZ 0 i)) as Hall.
      { apply Forall_forall. intros j ?%elem_of_seqZ. lia. }
      induction Hall as [|j l Hj _ IHl]; [done|]. cbn [wsum foldr].
      unfold wsum in IHl. rewrite IHl. unfold g1. by rewrite decide_False.
    + intros x. rewrite Hmg. unfold m1. by bproj.
Qed.

Lemma init_check_ok s g areas : ∀ c,
  nr_free s = counts g → Forall (λ i, 0 ≤ i < MAX_ORDER) areas → 0 ≤ c < 2 ^ 64 →
  init_check areas c s = Ret (u64 (c - wsum g areas), s).
Proof.
  induction areas as [|i areas IH]; intros c Hs Hf Hc.
  - cbn. rewrite Z.sub_0_r, u64_small by done. done.
  - apply Forall_cons in Hf as [Hi Hf]. cbn [init_check].
    erewrite mbind_Ret by (by apply (get_nr_g _ g)).
    rewrite IH by (try done; apply u64_range). do 2 f_equal.
    unfold u64. rewrite Zminus_mod_idemp_l. f_equal. unfold BLOCK_NPAGES.
    rewrite Z.shiftl_mul_pow2 by lia. cbn. fold (wsum g areas). lia.
Qed.

Lemma init_base_ok big m po :
  init_base big (Buddy m (replicate 11 0) po) =
    Ret (tt, Buddy m (counts (λ j, if big then 2 ^ (10 - j) else 0)) po).
Proof. by destruct big. Qed.

(** Clearing the zone makes no new header. *)
Lemma zone_clear_mem m :
  (∀ k, 0 ≤ k < MAX_ORDER → free_list k ∈ dom m) →
  let m' := foldr (λ i m, <[free_list i := Block 0 0 0 0]> m) m (seqZ 0 MAX_ORDER) in
  dom m' = dom m ∧
  ∀ x, magics m' x = Some BUDDY_MAGIC → magics m x = Some BUDDY_MAGIC.
Proof.
  intros Hd. cbv zeta.
  assert (Forall (λ k, free_list k ∈ dom m) (seqZ 0 MAX_ORDER)) as Hf.
  { apply Forall_forall. intros k ?%elem_of_seqZ. apply Hd. lia. }
  clear Hd. induction Hf as [|k l Hk _ [IH1 IH2]]; cbn [foldr]; [done|]. split.
  - rewrite dom_insert_L, IH1. set_solver.
  - intros x. unfold magics. destruct (decide (x = free_list k)) as [->|].
    + by rewrite lookup_insert_eq.
    + rewrite lookup_insert_ne by done. apply IH2.
Qed.

Definition init_pool (start end_ : Z) : list Z :=
  range_pages (PGROUNDUP start) ((PGROUNDDOWN end_ - PGROUNDUP start) / PGSIZE).

Lemma buddy_init_ok s0 start end_ :
  0 ≤ start → start + PGOFFMASK < 2 ^ 64 → 0 ≤ end_ < 2 ^ 64 →
  PGROUNDUP start ≤ PGROUNDDOWN end_ →
  pool_ok (dom (bmem s0)) (init_pool start end_) →
  (∀ x, magics (bmem s0) x ≠ Some BUDDY_MAGIC) →
  ∃ s, buddy_init start end_ s0 = Ret (tt, s) ∧ page_order s = page_order s0 ∧
    ∃ fl, buddy_wf (init_pool start end_) s fl [].
Proof.
  intros Hst0 Hst1 He0 Hse Hpool Hmg. unfold init_pool in *.
  destruct (PGROUNDUP_bounds start) as [Hs Hsm]; [done..|].
  destruct (PGROUNDDOWN_bounds end_) as [He Hem]; [done|].
  set (s := PGROUNDUP start) in *. set (e := PGROUNDDOWN end_) in *.
  set (np := (e - s) / PGSIZE) in *.
  assert (e = s + PGSIZE * np) as Hnp.
  { unfold np, PGSIZE in *. Z.div_mod_to_equations. lia. }
  assert (0 ≤ np) as Hnp0 by (unfold PGSIZE in *; lia).
  assert (np < 2 ^ 30) as Hnp1.
  { pose proof (pool_len _ _ Hpool) as Hlen. unfold zlen, range_pages in Hlen.
    rewrite length_fmap, length_seqZ in Hlen. lia. }
  assert (∀ k, 0 ≤ k < MAX_ORDER → free_list k ∈ dom (bmem s0)) as Hheads
    by (intros k Hk; by apply (pool_heads _ _ Hpool)).
  unfold buddy_init. fold s e. cbv zeta.
  replace (Z.shiftr (u64 (e - s)) PGSHIFT) with np.
  2:{ rewrite u64_small by (unfold PGSIZE in *; lia).
      rewrite Z.shiftr_div_pow2 by (unfold PGSHIFT; lia). done. }
  destruct s0 as [m0 nr0 po]. cbn [bmem page_order] in *.
  destruct (zone_clear_mem m0 Hheads) as [Hd1 Hm1].
  unfold zone_clear at 1. erewrite mbind_Ret by reflexivity. cbv beta. cbn [bmem page_order].
  set (m1 := foldr _ _ _) in *.
  rewrite (proj2 (Z.leb_le s e)) by lia. erewrite mbind_Ret by reflexivity. cbv beta.
  set (big := _ <? np).
  erewrite mbind_Ret by (apply init_base_ok). cbv beta.
  set (g0 := λ j : Z, if big then 2 ^ (10 - j) else 0).
  set (np1 := if big then np - MAX_ORDER * BLOCK_NPAGES (MAX_ORDER - 1) else np).
  assert (wsum g0 (seqZ 0 11) + np1 = np ∧ 0 ≤ np1 < 2 ^ 30) as [Hw0 Hnp2].
  { unfold np1, g0. destruct big eqn:Eb.
    - subst big. apply Z.ltb_lt in Eb.
      change (MAX_ORDER * BLOCK_NPAGES (MAX_ORDER - 1)) with 11264 in *.
      change (wsum (λ j, 2 ^ (10 - j)) (seqZ 0 11)) with 11264. lia.
    - change (wsum (λ j, 0) (seqZ 0 11)) with 0. lia. }
  destruct (init_counts_ok po 11 m1 g0 np1) as (m2 & g2 & E2 & Hd2 & _ & Hlo & Hw2 & Hmg2);
    [done|done|done| |].
  { intros j Hj. rewrite Hd1. split; [|apply Hheads; unfold MAX_ORDER; lia].
    unfold g0. destruct big; [|lia].
    split; [apply Z.pow_nonneg; lia|apply Z.pow_le_mono_r; lia]. }
  mstep E2. change (Z.of_nat 11) with 11 in *.
  rewrite Hw0 in Hw2. change MAX_ORDER with 11.
  erewrite mbind_Ret by (apply (init_check_ok _ g2); [done| |lia];
    apply Forall_forall; intros j ?%elem_of_seqZ; unfold MAX_ORDER; lia).
  cbv beta. rewrite Hw2, Z.sub_diag, u64_small by lia. cbn [Z.eqb].
  erewrite mbind_Ret by reflexivity. cbv beta.
  assert (Forall (λ i, 0 ≤ i ∧ 0 ≤ g2 i) (seqZ 0 11)) as Hf2.
  { apply Forall_forall. intros j ?%elem_of_seqZ. destruct (Hlo j); lia. }
  assert (buddy_wf (range_pages s np) (Buddy m2 (counts (λ _, 0)) po) (λ _, [])
    (plan g2 (seqZ 0 11) s)) as Hwf.
  { split; cbn [bmem nr_free].
    - intros k Hk. destruct (Hlo k) as [_ [Hn Hp]]; [done|].
      split; [apply NoDup_singleton|]. by cbn.
    - set_solver.
    - done.
    - replace (free_blocks (λ _, [])) with (@nil (Z * Z)) by reflexivity. cbn [app].
      by rewrite plan_pages, Hw2.
    - apply plan_orders, Forall_forall. intros j ?%elem_of_seqZ. unfold MAX_ORDER. lia.
    - intros x Hx. exfalso. rewrite Hmg2 in Hx. by apply (Hmg x), Hm1.
    - by rewrite Hd2, Hd1. }
  destruct (init_areas_ok _ po (seqZ 0 11) m2 _ g2 _ s Hwf) as (s3 & fl3 & E3 & Hpo3 & Hwf3).
  - apply NoDup_seqZ.
  - apply Forall_forall. intros j ?%elem_of_seqZ. destruct (Hlo j); [lia|].
    unfold MAX_ORDER. split_and!; (done || lia).
  - lia.
  - rewrite Hw2. lia.
  - intros j Hj Hin. exfalso. apply Hin, elem_of_seqZ. unfold MAX_ORDER in *. lia.
  - exists s3. mstep E3. rewrite Hw2, <- Hnp, Z.eqb_refl. split_and!; [done..|]. by exists fl3.
Qed.

(** ** The allocator and its clients *)

(** A client writes a header-sized object at a page of a block it owns. *)
Definition client_write (p : Z) (b : block) (s : buddy) : buddy :=
  Buddy (<[p := b]> (bmem s)) (nr_free s) (page_order s).

(** A state of the allocator with the blocks handed out and not yet freed. *)
Inductive kmem_step : buddy * list (Z * Z) → buddy * list (Z * Z) → Prop :=
  | step_alloc s used sz r k s' :
      0 < sz ≤ BLOCK_SIZE (MAX_ORDER - 1) → get_order (PGROUNDUP sz) = Some k →
      kalloc sz s = Ret (r, s') → kmem_step (s, used) (s', (r, k) :: used)
  | step_free s used1 a k used2 s' :
      kfree a s = Ret (tt, s') →
      kmem_step (s, used1 ++ (a, k) :: used2) (s', used1 ++ used2)
  | step_write s used blk p b :
      blk ∈ used → p ∈ pages_of blk → magic b ≠ BUDDY_MAGIC →
      kmem_step (s, used) (client_write p b s, used).

(** What [kmem_init] provides: a pool of RAM pages whose struct page entries exist,
    and no block header in memory yet (RAM is not cleared, so this is an assumption). *)
Record boot_ok (start end_ : Z) (s0 : buddy) : Prop := {
  boot_start : 0 ≤ start ∧ start + PGOFFMASK < 2 ^ 64;
  boot_end : 0 ≤ end_ < 2 ^ 64 ∧ PGROUNDUP start ≤ PGROUNDDOWN end_;
  boot_pool : pool_ok (dom (bmem s0)) (init_pool start end_);
  boot_mem x : magics (bmem s0) x ≠ Some BUDDY_MAGIC;
  boot_pages a : a ∈ init_pool start end_ → page_idx a ∈ dom (page_order s0)
}.

Inductive reachable (start end_ : Z) : buddy * list (Z * Z) → Prop :=
  | reach_init s0 s :
      boot_ok start end_ s0 → buddy_init start end_ s0 = Ret (tt, s) →
      reachable start end_ (s, [])
  | reach_step x y : reachable start end_ x → kmem_step x y → reachable start end_ y.

Lemma client_write_ok pool s used blk p b :
  alloc_inv pool s used → blk ∈ used → p ∈ pages_of blk → magic b ≠ BUDDY_MAGIC →
  alloc_inv pool (client_write p b s) used.
Proof.
  intros [[fl Hwf] Hpg] Hblk Hp Hb. split; [|done]. exists fl.
  pose proof (wf_pool _ _ _ _ Hwf) as Hpool.
  assert (p ∈ used ≫= pages_of) as Hpu by (apply list_elem_of_bind; eauto).
  assert (p ∈ pool) as Hpp by (rewrite <- (wf_part _ _ _ _ Hwf), bind_app; set_solver).
  assert (∀ j, 0 ≤ j < MAX_ORDER → p ∉ free_list j :: fl j) as Hfree.
  { intros j Hj [->|Hin]%elem_of_cons; [by apply (pool_heads _ _ Hpool j Hj)|].
    pose proof (pool_nodup _ _ Hpool) as Hnd.
    rewrite <- (wf_part _ _ _ _ Hwf), bind_app in Hnd. apply NoDup_app in Hnd as (_ & Hd & _).
    apply (Hd p); [|done]. apply list_elem_of_bind. exists (p, j).
    split; [apply pages_of_first; lia|by apply elem_of_free_blocks]. }
  assert (∀ x, x ≠ p → bmem (client_write p b s) !! x = bmem s !! x) as Hne
    by (intros x Hx; cbn; by rewrite lookup_insert_ne).
  split.
  - intros j Hj. eapply dlist_frame; [by eapply wf_list|]. intros x Hx.
    assert (x ≠ p) by (intros ->; by apply (Hfree j)). unfold nf, pf. by rewrite Hne.
  - intros j x Hj Hx. assert (x ≠ p) by (intros ->; apply (Hfree j); set_solver).
    unfold orders. rewrite Hne by done. by apply (wf_order _ _ _ _ Hwf).
  - apply (wf_nr _ _ _ _ Hwf).
  - apply (wf_part _ _ _ _ Hwf).
  - apply (wf_used _ _ _ _ Hwf).
  - intros x. destruct (decide (x = p)) as [->|Hx].
    + unfold magics. cbn. rewrite lookup_insert_eq. cbn. congruence.
    + unfold magics. rewrite Hne by done. apply (wf_unforged _ _ _ _ Hwf).
  - cbn. rewrite dom_insert_L. replace ({[p]} ∪ dom (bmem s)) with (dom (bmem s)); [done|].
    pose proof (pool_dom _ _ Hpool p Hpp). set_solver.
Qed.

Lemma least_order_unique sz k k' : least_order sz k → least_order sz k' → k = k'.
Proof.
  intros (? & H1 & H2) (? & H3 & H4).
  destruct (Z.lt_trichotomy k k') as [Hlt|[Heq|Hlt]]; [|done|].
  - specialize (H4 k). lia.
  - specialize (H2 k'). lia.
Qed.

(** The blocks of one order among all free blocks. *)
Lemma filter_free_blocks fl k :
  0 ≤ k < MAX_ORDER → zlen (filter (λ b, b.2 = k) (free_blocks fl)) = zlen (fl k).
Proof.
  intros Hk. unfold free_blocks.
  assert (∀ j, filter (λ b : Z * Z, b.2 = k) ((λ a, (a, j)) <$> fl j) =
    if decide (j = k) then (λ a, (a, j)) <$> fl j else []) as Hone.
  { intros j. induction (fl j) as [|a l IH]; [by case_decide|]. cbn [fmap list_fmap].
    case_decide; [rewrite filter_cons_True|rewrite filter_cons_False]; try done. by rewrite IH. }
  assert (∀ l, NoDup l → zlen (filter (λ b : Z * Z, b.2 = k) (l ≫= λ j, (λ a, (a, j)) <$> fl j)) =
    if decide (k ∈ l) then zlen (fl k) else 0) as Hall.
  { induction 1 as [|j l Hj _ IH]; [done|]. rewrite bind_cons, filter_app, zlen_app, IH, Hone.
    destruct (decide (j = k)) as [->|].
    - rewrite (decide_False (P := k ∈ l)), (decide_True (P := k ∈ k :: l)) by set_solver.
      unfold zlen. rewrite length_fmap. lia.
    - destruct (decide (k ∈ l)); [rewrite decide_True|rewrite decide_False]; set_solver. }
  rewrite Hall by apply NoDup_seqZ. rewrite decide_True; [done|]. apply elem_of_seqZ. lia.
Qed.

Lemma alloc_reachable_inv start end_ x :
  reachable start end_ x → alloc_inv (init_pool start end_) x.1 x.2.
Proof.
  induction 1 as [s0 s [[] [] ? ? ?] E|x y _ IH Hs].
  - destruct (buddy_init_ok s0 start end_) as (s' & E' & Hpo & Hwf); [done..|].
    rewrite E' in E. injection E as ->. split; cbn [fst snd]; [done|].
    split; [by rewrite Hpo|set_solver].
  - destruct Hs as [s used sz r k s' Hsz Ho E|s used1 a k used2 s' E|s used blk p b Hb Hp Hm];
      cbn [fst snd] in *.
    + destruct IH as [[fl Hwf] Hpg]. unfold kalloc in E.
      rewrite (proj2 (Z.ltb_lt 0 sz)) in E by lia.
      erewrite mbind_Ret in E by reflexivity. cbv beta in E.
      destruct (buddy_alloc_ok _ _ _ _ sz Hwf Hpg Hsz) as (k' & Hk' & [[E' _]|(r' & s1 & E' & Hi)]);
        rewrite E' in E; [done|]. injection E as -> ->.
      destruct (get_order_spec sz Hsz) as (k2 & Ho2 & Hk2).
      rewrite Ho in Ho2. injection Ho2 as ->. by rewrite (least_order_unique sz k2 k').
    + destruct (kfree_ok _ _ _ _ _ _ IH) as (s1 & E1 & Hi). rewrite E1 in E. by injection E as ->.
    + by eapply client_write_ok.
Qed.

(** C2: in every state reached from [buddy_init] by calls of [kalloc] (of at least one byte,
    up to the largest block), calls of [kfree] on blocks not yet freed, and writes of the
    owners to their blocks, the allocator's free blocks and the blocks handed out partition
    the pages given to [buddy_init]: no two live allocations share a page, none overlaps a
    free block, none leaves the pool, and no page is lost.  Condition: nowhere in the memory
    given to [buddy_init], and in no write of an owner, does a page start with the word
    [BUDDY_MAGIC].  The allocator tells its free blocks by that word alone, and an owner that
    writes it makes [kfree] of the neighbour merge a live block
    ([forged_header_merges_live_block]). *)
Theorem kalloc_blocks_partition start end_ s used :
  reachable start end_ (s, used) →
  NoDup (used ≫= pages_of) ∧ (∀ p, p ∈ used ≫= pages_of → p ∈ init_pool start end_) ∧
  ∃ free, (free ≫= pages_of) ++ (used ≫= pages_of) ≡ₚ init_pool start end_ ∧
    nr_free s = (λ k, zlen (filter (λ b, b.2 = k) free)) <$> seqZ 0 MAX_ORDER.
Proof.
  intros Hr. destruct (alloc_reachable_inv _ _ _ Hr) as [[fl Hwf] _]. cbn [fst snd] in Hwf.
  pose proof (wf_part _ _ _ _ Hwf) as Hp. rewrite bind_app in Hp.
  pose proof (pool_nodup _ _ (wf_pool _ _ _ _ Hwf)) as Hnd. rewrite <- Hp in Hnd.
  apply NoDup_app in Hnd as (_ & _ & Hnd). split; [done|]. split.
  - intros p Hin. rewrite <- Hp. set_solver.
  - exists (free_blocks fl). split; [done|]. rewrite (wf_nr _ _ _ _ Hwf).
    apply list_fmap_ext. intros i k Hk%list_elem_of_lookup_2%elem_of_seqZ.
    by rewrite filter_free_blocks by lia.
Qed.

(** C15: in every state reached from [buddy_init] by [kalloc], [kfree] and writes of the owners
    to their blocks (without a page that starts with the word [BUDDY_MAGIC] in the memory at boot
    or written by an owner) a request of at most the largest block size gets a block of the least
    order that holds it, unless no area of that order or above has a block, and then the kernel
    panics; and [kfree] of any live block returns. *)
Theorem kalloc_kfree_progress start end_ s used :
  reachable start end_ (s, used) →
  (∀ sz, 0 < sz ≤ BLOCK_SIZE (MAX_ORDER - 1) → ∃ k, least_order sz k ∧
    ((kalloc sz s = Panic ∧ ∀ j, k ≤ j < MAX_ORDER → znth (nr_free s) j = Some 0) ∨
     ∃ r s', kalloc sz s = Ret (r, s') ∧ kmem_step (s, used) (s', (r, k) :: used))) ∧
  (∀ a k, (a, k) ∈ used → ∃ s', kfree a s = Ret (tt, s')).
Proof.
  intros Hr. destruct (alloc_reachable_inv _ _ _ Hr) as [[fl Hwf] Hpg]. cbn [fst snd] in *. split.
  - intros sz Hsz. destruct (get_order_spec sz Hsz) as (k & Ho & Hk).
    destruct (buddy_alloc_ok _ _ _ _ sz Hwf Hpg Hsz) as (k' & Hk' & Hr').
    exists k'. split; [done|].
    assert (kalloc sz s = buddy_alloc sz s) as Ek.
    { unfold kalloc. rewrite (proj2 (Z.ltb_lt 0 sz)) by lia. by erewrite mbind_Ret. }
    rewrite Ek. destruct Hr' as [[E Hj]|(r & s' & E & _)]; [left|right].
    + split; [done|]. intros j Hj'.
      assert (0 ≤ j < MAX_ORDER) as Hj2 by (destruct Hk'; lia).
      pose proof (get_nr_ok s fl j (wf_nr _ _ _ _ Hwf) Hj2) as En.
      unfold get_nr_free, mtry in En. destruct (znth (nr_free s) j); [|done].
      injection En as ->. by rewrite Hj.
    + exists r, s'. split; [done|]. apply (step_alloc s used sz); [done| |by rewrite Ek].
      rewrite Ho. f_equal. by apply (least_order_unique sz).
  - intros a k Hin. apply list_elem_of_split in Hin as (u1 & u2 & ->).
    destruct (kfree_ok (init_pool start end_) s u1 a k u2) as (s' & E & _); [|by exists s'].
    split; [by exists fl|done].
Qed.

End buddy.

(** ** A concrete machine *)

Definition demo_layout : layout := {|
  KERNELBASE := 0x80200000; PHYSTOP := 0x88000000;
  zone_addr := 0x80210000; pages_base := 0x80300000 |}.

Section demo.
#[local] Existing Instance demo_layout.

Definition demo_start : Z := 0x80301000.
Definition demo_end : Z := 0x80305000.

(** Four pages, their buddies of every order, and the list heads. *)
Definition demo_mem : Buddy.buddy :=
  let pool := init_pool demo_start demo_end in
  Buddy
    (list_to_map ((λ a, (a, Block 0 0 0 0)) <$>
      pool ++ (pool ≫= λ a, BUDDY_BLOCK a <$> seqZ 0 10) ++ (free_list <$> seqZ 0 11)))
    [] (list_to_map ((λ i, (i, 0)) <$> seqZ 0 8)).

Definition demo_s1 : Buddy.buddy := outcome_state (buddy_init demo_start demo_end demo_mem) demo_mem.
Definition demo_s2 : Buddy.buddy := outcome_state (kalloc 5000 demo_s1) demo_mem.

Lemma demo_dom_check :
  let D := dom (bmem demo_mem) in
  bool_decide (Forall (λ a, a ∈ D ∧ 0 < a < 2 ^ 64 - PGSIZE ∧ a mod PGSIZE = 0 ∧
    0 ≤ pages_base ≤ a ∧ pages_base mod PGSIZE = 0 ∧
    page_idx a ∈ dom (page_order demo_mem) ∧
    Forall (λ k, BUDDY_BLOCK a k ∈ D) (seqZ 0 10)) (init_pool demo_start demo_end) ∧
    NoDup (init_pool demo_start demo_end) ∧
    Forall (λ k, free_list k ∈ D ∧ free_list k ∉ init_pool demo_start demo_end) (seqZ 0 11)) = true.
Proof. vm_compute. reflexivity. Qed.

Lemma demo_boot : boot_ok demo_start demo_end demo_mem.
Proof.
  pose proof demo_dom_check as H. cbv zeta in H. apply bool_decide_eq_true in H.
  destruct H as (Hp & Hnd & Hh). rewrite Forall_forall in Hp. rewrite Forall_forall in Hh.
  split; [by vm_compute|by vm_compute| | |intros a Ha; by destruct (Hp a Ha) as (? & ? & ? & ? & ? & ? & ?)].
  - split; [done|by vm_compute|..]; try (intros a Ha;
      by destruct (Hp a Ha) as (? & ? & ? & ? & ? & ? & ?)).
    + intros a k Ha Hk. destruct (Hp a Ha) as (_ & _ & _ & _ & _ & _ & Hb).
      rewrite Forall_forall in Hb. apply Hb, elem_of_seqZ. unfold MAX_ORDER in Hk. lia.
    + intros k Hk. apply Hh, elem_of_seqZ. unfold MAX_ORDER in Hk. lia.
  - intros x. unfold magics, demo_mem. cbn [bmem].
    destruct (list_to_map _ !! x) as [b|] eqn:E; [|done].
    apply elem_of_list_to_map_2, list_elem_of_fmap in E as (a & E & _).
    injection E as -> ->. done.
Qed.

Lemma demo_reachable : reachable demo_start demo_end (demo_s2, [(0x80303000, 1)]).
Proof.
  eapply reach_step; [eapply reach_init; [apply demo_boot|]|].
  - instantiate (1 := demo_s1). vm_compute. reflexivity.
  - apply (step_alloc demo_s1 [] 5000); [by vm_compute|by vm_compute|].
    vm_compute. reflexivity.
Qed.

Lemma kalloc_blocks_partition_witness :
  reachable demo_start demo_end (demo_s2, [(0x80303000, 1)]) ∧
  NoDup ([(0x80303000, 1)] ≫= pages_of).
Proof.
  split; [apply demo_reachable|].
  exact (proj1 (kalloc_blocks_partition _ _ _ _ demo_reachable)).
Defined.

Lemma kalloc_kfree_progress_witness :
  reachable demo_start demo_end (demo_s2, [(0x80303000, 1)]) ∧
  ∃ s', kfree 0x80303000 demo_s2 = Ret (tt, s').
Proof.
  split; [apply demo_reachable|].
  apply (proj2 (kalloc_kfree_progress _ _ _ _ demo_reachable) _ 1). apply list_elem_of_here.
Defined.

(** Three pages are handed out; the owner of the second writes what looks like the header of a
    free page, and [kfree] of the third, its buddy, merges the two.  The next request of two
    pages gets both, the second page among them, which is still in use. *)
Example forged_header_merges_live_block :
  match (kalloc 4096;; b ← kalloc 4096; c ← kalloc 4096;
         modify (client_write b (Block BUDDY_MAGIC 0 b b));; kfree c;;
         d ← kalloc 8192; mret (b, d)) demo_s1 with
  | Ret ((b, d), _) => b = 0x80303000 ∧ d = 0x80302000
  | _ => False
  end.
Proof. by vm_compute. Qed.
End demo.
