(* ===== verification/CString.v ===== *)
(** * Strings and blocks of memory

    Models [kernel/lib/string.c] on a byte-addressed memory.  A loop that ends at a
    NUL byte takes fuel and reports [Spin] when it runs out; a loop counted by [n]
    recurses on [n]. *)

From S2P Require Export Prelude.

(** Memory: the bytes that may be accessed, by address. *)
Abbreviation bytes := (gmap Z Z).

(** A state with a memory in it. *)
Class HasMem (S : Type) := {
  mem_lens : lens S bytes;
  #[global] mem_lens_lawful :: LawfulLens mem_lens
}.

(** A memory operation inside such a state. *)
Definition on_mem {S A : Type} `{HasMem S} (m : M bytes A) : M S A := zoom mem_lens m.

Definition ld (a : Z) : M bytes Z := mtry (λ m : bytes, m !! a).
Definition st (a v : Z) : M bytes unit :=
  ld a;; modify (λ m : bytes, <[a := u8 v]> m).

(** [size_t strlen] keeps its index in an [int]. *)
Fixpoint strlen_loop (fuel : nat) (s i : Z) : M bytes Z :=
  match fuel with
  | O => mspin
  | S fuel => c ← ld (s + i); if c =? 0 then mret i else strlen_loop fuel s (i + 1)
  end.
Definition strlen (fuel : nat) (s : Z) : M bytes Z := strlen_loop fuel s 0.

(** The loop of [strncpy] returns the final [dst]. *)
Fixpoint strncpy_loop (n : nat) (dst src : Z) : M bytes Z :=
  match n with
  | O => mret dst
  | S n =>
      c ← ld src; st dst c;;
      if c =? 0 then mret (dst + 1) else strncpy_loop n (dst + 1) (src + 1)
  end.
Definition strncpy (dst src : Z) (n : nat) : M bytes Z :=
  d ← strncpy_loop n dst src; st d 0;; mret dst.

Fixpoint strcpy_loop (fuel : nat) (dst src : Z) : M bytes Z :=
  match fuel with
  | O => mspin
  | S fuel =>
      c ← ld src;
      if c =? 0 then mret dst
      else st dst c;; strcpy_loop fuel (dst + 1) (src + 1)
  end.
Definition strcpy (fuel : nat) (dst src : Z) : M bytes Z :=
  d ← strcpy_loop fuel dst src; st d 0;; mret dst.

Section chars.
(** The value of a [char]: signed on LoongArch, unsigned on RISC-V. *)
Context (char_val : Z → Z).

Fixpoint strncmp (n : nat) (s1 s2 : Z) : M bytes Z :=
  match n with
  | O => mret 0
  | S n =>
      c1 ← ld s1;
      if c1 =? 0 then c2 ← ld s2; mret (char_val c1 - char_val c2)
      else
        c2 ← ld s2;
        if c1 =? c2 then strncmp n (s1 + 1) (s2 + 1)
        else mret (char_val c1 - char_val c2)
  end.

Fixpoint strcmp_loop (fuel : nat) (s1 s2 i : Z) : M bytes Z :=
  match fuel with
  | O => mspin
  | S fuel =>
      c1 ← ld (s1 + i); c2 ← ld (s2 + i);
      if c1 =? 0 then mret (if c2 =? 0 then 0 else - char_val c2)
      else if negb (c1 =? c2) then mret (char_val c1 - char_val c2)
      else strcmp_loop fuel s1 s2 (i + 1)
  end.
Definition strcmp (fuel : nat) (s1 s2 : Z) : M bytes Z := strcmp_loop fuel s1 s2 0.

Fixpoint memcmp (n : nat) (s1 s2 : Z) : M bytes Z :=
  match n with
  | O => mret 0
  | S n =>
      c1 ← ld s1; c2 ← ld s2;
      if negb (c1 =? c2) then mret (char_val c1 - char_val c2)
      else memcmp n (s1 + 1) (s2 + 1)
  end.
End chars.

Fixpoint strcat_loop (fuel : nat) (dst src len i : Z) : M bytes Z :=
  match fuel with
  | O => mspin
  | S fuel =>
      c ← ld (src + i);
      if c =? 0 then mret i
      else st (dst + (i + len)) c;; strcat_loop fuel dst src len (i + 1)
  end.
Definition strcat (fuel : nat) (dst src : Z) : M bytes Z :=
  len ← strlen fuel dst;
  i ← strcat_loop fuel dst src len 0;
  st (dst + (i + len)) 0;;
  mret dst.

Fixpoint memset_loop (n : nat) (dst c i : Z) : M bytes unit :=
  match n with
  | O => mret tt
  | S n => st (dst + i) c;; memset_loop n dst c (i + 1)
  end.
Definition memset (dst c : Z) (n : nat) : M bytes Z :=
  memset_loop n dst c 0;; mret dst.

Fixpoint copy_up (n : nat) (d s : Z) : M bytes unit :=
  match n with
  | O => mret tt
  | S n => c ← ld s; st d c;; copy_up n (d + 1) (s + 1)
  end.
Fixpoint copy_down (n : nat) (d s : Z) : M bytes unit :=
  match n with
  | O => mret tt
  | S n => c ← ld (s - 1); st (d - 1) c;; copy_down n (d - 1) (s - 1)
  end.
Definition memmove (dst src : Z) (n : nat) : M bytes Z :=
  if bool_decide (n = O) then mret dst
  else
    (if (src <? dst) && (dst <? src + Z.of_nat n)
     then copy_down n (dst + Z.of_nat n) (src + Z.of_nat n)
     else copy_up n dst src);;
    mret dst.
Definition memcpy (dst src : Z) (n : nat) : M bytes Z := memmove dst src n.

Definition name_append_suffix (fuel : nat) (name buflen suffix : Z) : M bytes unit :=
  len ← strlen fuel name;
  suflen ← strlen fuel suffix;
  let append pos :=
    massert ((0 <=? pos) && (pos + suflen <? buflen));;
    strncpy (name + pos) suffix (Z.to_nat suflen);;
    st (name + (pos + suflen)) 0 in
  if len + suflen <? buflen then append len
  else if buflen <? len then append (buflen - suflen - 1)
  else mret tt.

(** ** Allocating copies *)

Section alloc.
(** [kalloc]: fresh memory of the size asked for. *)
Context (kalloc : Z → M bytes Z).

Definition strdup (fuel : nat) (str : Z) : M bytes Z :=
  len ← strlen fuel str;
  dst ← kalloc len;
  strncpy dst str (Z.to_nat len).

Definition memdup (src : Z) (n : nat) : M bytes Z :=
  dst ← kalloc (Z.of_nat n);
  memcpy dst src n.
End alloc.

(** ** Contents *)

(** The bytes of [l] are in memory from [a]. *)
Definition holds (m : bytes) (a : Z) (l : list Z) : Prop :=
  ∀ i x, l !! i = Some x → m !! (a + Z.of_nat i) = Some x.

(** A C string. *)
Definition cstr (m : bytes) (a : Z) (l : list Z) : Prop :=
  holds m a (l ++ [0]) ∧ Forall (λ c, 0 < c < 256) l.

Lemma holds_cons m a x l : holds m a (x :: l) ↔ m !! a = Some x ∧ holds m (a + 1) l.
Proof.
  split.
  - intros H. split; [by rewrite <- (H O x eq_refl), Z.add_0_r|].
    intros i y Hi. rewrite <- (H (S i) y Hi). f_equal. lia.
  - intros [Hx Hl] [|i] y Hy; cbn in Hy; [injection Hy as <-; by rewrite Z.add_0_r|].
    rewrite <- (Hl i y Hy). f_equal. lia.
Qed.

Lemma holds_nil m a : holds m a [].
Proof. intros i x Hx. by rewrite lookup_nil in Hx. Qed.

Lemma cstr_cons m a x l : cstr m a (x :: l) ↔ m !! a = Some x ∧ 0 < x < 256 ∧ cstr m (a + 1) l.
Proof. unfold cstr. cbn [app]. rewrite holds_cons, Forall_cons. naive_solver. Qed.

Lemma cstr_nil m a : cstr m a [] ↔ m !! a = Some 0.
Proof. unfold cstr. cbn [app]. rewrite holds_cons. split; [naive_solver|].
  intros ?. split; [split; [done|apply holds_nil]|constructor]. Qed.

Lemma ld_ok m a x : m !! a = Some x → ld a m = Ret (x, m).
Proof. unfold ld, mtry. by intros ->. Qed.

Lemma st_ok m a v x : m !! a = Some x → st a v m = Ret (tt, <[a := u8 v]> m).
Proof. intros H. unfold st. by rewrite (mbind_Ret _ _ _ _ _ (ld_ok _ _ _ H)). Qed.

(** A memory whose byte values are bytes. *)
Definition bytes_ok (m : bytes) : Prop := ∀ a x, m !! a = Some x → 0 ≤ x < 256.

Lemma bytes_ok_insert m a v : bytes_ok m → bytes_ok (<[a := u8 v]> m).
Proof.
  intros H b x [[_ <-]|[_ Hx]]%lookup_insert_Some; [apply u8_range|by apply (H b)].
Qed.

Ltac ld_step := erewrite mbind_Ret by (by apply ld_ok); cbv beta.
Ltac st_step := erewrite mbind_Ret by (by eapply st_ok); cbv beta.

Lemma strlen_ok m s l fuel :
  cstr m s l → (length l < fuel)%nat → strlen fuel s m = Ret (zlen l, m).
Proof.
  intros Hl Hf. unfold strlen.
  assert (∀ l fuel i, cstr m (s + i) l → (length l < fuel)%nat →
    strlen_loop fuel s i m = Ret (i + zlen l, m)) as Hloop.
  { clear. induction l as [|c l IH]; intros [|fuel] i Hl Hf; cbn in Hf; try lia;
      cbn [strlen_loop].
    - apply cstr_nil in Hl. ld_step. by rewrite Z.add_0_r.
    - apply cstr_cons in Hl as (Hc & Hr & Hl). ld_step.
      rewrite (proj2 (Z.eqb_neq c 0)) by lia. rewrite <- Z.add_assoc in Hl.
      rewrite IH by (done || lia). rewrite zlen_cons. do 2 f_equal. lia. }
  rewrite (Hloop l); [done|by rewrite Z.add_0_r|done].
Qed.

(** ** [memmove] *)

(** The memory after copying [n] bytes from [s] to [d], in terms of the memory before. *)
Definition copied (m : bytes) (d s n : Z) (m' : bytes) : Prop :=
  ∀ a, m' !! a = if decide (d ≤ a < d + n) then m !! (s + (a - d)) else m !! a.

Definition accessible (m : bytes) (a n : Z) : Prop :=
  ∀ i, 0 ≤ i < n → is_Some (m !! (a + i)).

Lemma accessible_insert m a n b v : accessible m a n → accessible (<[b := v]> m) a n.
Proof.
  intros H i Hi. destruct (decide (b = a + i)) as [->|]; [rewrite lookup_insert_eq; eauto|].
  rewrite lookup_insert_ne by done. by apply H.
Qed.

Lemma accessible_mono m a n i k :
  accessible m a n → 0 ≤ i → i + k ≤ n → accessible m (a + i) k.
Proof. intros H ? ? j ?. rewrite <- Z.add_assoc. apply H. lia. Qed.

Lemma copy_up_ok n : ∀ m d s,
  bytes_ok m → accessible m d (Z.of_nat n) → accessible m s (Z.of_nat n) →
  (s < d → s + Z.of_nat n ≤ d) →
  ∃ m', copy_up n d s m = Ret (tt, m') ∧ copied m d s (Z.of_nat n) m'.
Proof.
  induction n as [|n IH]; intros m d s Hb Hd Hs Hov.
  { exists m. split; [done|]. intros a. by rewrite decide_False by lia. }
  destruct (Hs 0 ltac:(lia)) as [c Hc]. destruct (Hd 0 ltac:(lia)) as [o Ho].
  rewrite Z.add_0_r in Hc, Ho. cbn [copy_up]. ld_step. st_step.
  destruct (IH (<[d := u8 c]> m) (d + 1) (s + 1)) as (m' & E & Hm').
  - by apply bytes_ok_insert.
  - apply accessible_insert, (accessible_mono _ _ (Z.of_nat (S n))); [done|lia..].
  - apply accessible_insert, (accessible_mono _ _ (Z.of_nat (S n))); [done|lia..].
  - lia.
  - exists m'. split; [done|]. intros a. rewrite Hm'.
    assert (u8 c = c) as Hu by (apply u8_small; by apply (Hb s)).
    destruct (decide (a = d)) as [->|Ha].
    + rewrite decide_False, decide_True by lia. rewrite lookup_insert_eq, Hu, <- Hc.
      f_equal. lia.
    + destruct (decide (d ≤ a < d + Z.of_nat (S n))).
      * rewrite decide_True by lia. rewrite lookup_insert_ne by lia. f_equal. lia.
      * rewrite decide_False by lia. by rewrite lookup_insert_ne.
Qed.

Lemma copy_down_ok n : ∀ m d s,
  bytes_ok m → accessible m d (Z.of_nat n) → accessible m s (Z.of_nat n) → s ≤ d →
  ∃ m', copy_down n (d + Z.of_nat n) (s + Z.of_nat n) m = Ret (tt, m') ∧
    copied m d s (Z.of_nat n) m'.
Proof.
  induction n as [|n IH]; intros m d s Hb Hd Hs Hov.
  { exists m. split; [done|]. intros a. by rewrite decide_False by lia. }
  destruct (Hs (Z.of_nat n) ltac:(lia)) as [c Hc].
  destruct (Hd (Z.of_nat n) ltac:(lia)) as [o Ho].
  cbn [copy_down].
  replace (d + Z.of_nat (S n) - 1) with (d + Z.of_nat n) by lia.
  replace (s + Z.of_nat (S n) - 1) with (s + Z.of_nat n) by lia. ld_step. st_step.
  destruct (IH (<[d + Z.of_nat n := u8 c]> m) d s) as (m' & E & Hm').
  - by apply bytes_ok_insert.
  - apply accessible_insert. intros i Hi. apply Hd. lia.
  - apply accessible_insert. intros i Hi. apply Hs. lia.
  - done.
  - exists m'. split; [done|]. intros a. rewrite Hm'.
    assert (u8 c = c) as Hu by (apply u8_small; by apply (Hb _ _ Hc)).
    destruct (decide (a = d + Z.of_nat n)) as [->|Ha].
    + rewrite decide_False, decide_True by lia. rewrite lookup_insert_eq, Hu, <- Hc.
      f_equal. lia.
    + destruct (decide (d ≤ a < d + Z.of_nat (S n))).
      * rewrite decide_True by lia. by rewrite lookup_insert_ne by lia.
      * rewrite decide_False by lia. by rewrite lookup_insert_ne.
Qed.

Lemma memmove_run m dst src n :
  bytes_ok m → accessible m dst (Z.of_nat n) → accessible m src (Z.of_nat n) →
  ∃ m', memmove dst src n m = Ret (dst, m') ∧ copied m dst src (Z.of_nat n) m'.
Proof.
  intros Hb Hd Hs. unfold memmove. case_bool_decide as Hn.
  { subst n. exists m. split; [done|]. intros a. by rewrite decide_False by lia. }
  destruct ((src <? dst) && (dst <? src + Z.of_nat n)) eqn:Ec.
  - apply andb_prop in Ec as [Ec _]. apply Z.ltb_lt in Ec.
    destruct (copy_down_ok n m dst src Hb Hd Hs) as (m' & E & Hm'); [lia|].
    exists m'. erewrite mbind_Ret by done. done.
  - destruct (copy_up_ok n m dst src Hb Hd Hs) as (m' & E & Hm').
    { intros Hlt. apply andb_false_iff in Ec as [Ec|Ec];
        [apply Z.ltb_ge in Ec|apply Z.ltb_ge in Ec]; lia. }
    exists m'. erewrite mbind_Ret by done. done.
Qed.

(** [memmove] (and [memcpy], which calls it) returns, leaves in the destination the
    bytes the source had before the call however the two ranges overlap, and changes
    no other byte. *)
Theorem memmove_spec m dst src n :
  bytes_ok m → accessible m dst (Z.of_nat n) → accessible m src (Z.of_nat n) →
  ∃ m', memmove dst src n m = Ret (dst, m') ∧ memcpy dst src n m = Ret (dst, m') ∧
    ∀ a, m' !! a = if decide (dst ≤ a < dst + Z.of_nat n)
                   then m !! (src + (a - dst)) else m !! a.
Proof.
  intros Hb Hd Hs. destruct (memmove_run m dst src n Hb Hd Hs) as (m' & E & Hm'). by exists m'.
Qed.

Lemma memmove_spec_witness :
  let m := list_to_map (zip (seqZ 100 6) [1; 2; 3; 4; 5; 6]) : bytes in
  ∃ m', memmove 101 100 4 m = Ret (101, m') ∧ (λ a, m' !! a) <$> seqZ 100 6 =
    Some <$> [1; 1; 2; 3; 4; 6].
Proof.
  destruct (memmove_spec (list_to_map (zip (seqZ 100 6) [1; 2; 3; 4; 5; 6])) 101 100 4)
    as (m' & E & _ & Hm').
  - intros a x Hx. apply elem_of_list_to_map_2 in Hx.
    vm_compute in Hx. repeat (apply elem_of_cons in Hx as [Hx|Hx]; [injection Hx; lia|]).
    by apply not_elem_of_nil in Hx.
  - intros i Hi. assert (i = 0 ∨ i = 1 ∨ i = 2 ∨ i = 3) as [->|[->|[->| ->]]] by lia; by eexists.
  - intros i Hi. assert (i = 0 ∨ i = 1 ∨ i = 2 ∨ i = 3) as [->|[->|[->| ->]]] by lia; by eexists.
  - exists m'. split; [done|]. vm_compute seqZ. cbn [fmap list_fmap]. by rewrite !Hm'.
Defined.

(** ** Comparison *)

Section compare.
Context (char_val : Z → Z).
Context (char_inj : ∀ c d, 0 ≤ c < 256 → 0 ≤ d < 256 → char_val c = char_val d → c = d).

Lemma char_diff c d : 0 ≤ c < 256 → 0 ≤ d < 256 → c ≠ d → char_val c - char_val d ≠ 0.
Proof. intros ? ? Hne E. apply Hne, char_inj; [done|done|lia]. Qed.

Lemma strcmp_loop_ok m fuel : ∀ l1 l2 s1 s2 i,
  char_val 0 = 0 →
  cstr m (s1 + i) l1 → cstr m (s2 + i) l2 → (length l1 < fuel)%nat →
  ∃ r, strcmp_loop char_val fuel s1 s2 i m = Ret (r, m) ∧ (r = 0 ↔ l1 = l2).
Proof.
  induction fuel as [|fuel IH]; intros l1 l2 s1 s2 i H0 Hl1 Hl2 Hf; [lia|].
  cbn [strcmp_loop]. destruct l1 as [|c l1], l2 as [|d l2].
  - apply cstr_nil in Hl1, Hl2. do 2 ld_step. exists 0. by cbn.
  - apply cstr_nil in Hl1. apply cstr_cons in Hl2 as (Hd & Hr & _). do 2 ld_step.
    rewrite (proj2 (Z.eqb_neq d 0)) by lia. eexists. split; [reflexivity|].
    pose proof (char_diff d 0 ltac:(lia) ltac:(lia) ltac:(lia)).
    split; [lia|done].
  - apply cstr_nil in Hl2. apply cstr_cons in Hl1 as (Hc & Hr & _). do 2 ld_step.
    rewrite (proj2 (Z.eqb_neq c 0)) by lia. cbn [negb].
    eexists. split; [reflexivity|].
    pose proof (char_diff c 0 ltac:(lia) ltac:(lia) ltac:(lia)). split; [lia|done].
  - apply cstr_cons in Hl1 as (Hc & Hr & Hl1), Hl2 as (Hd & Hr' & Hl2). do 2 ld_step.
    rewrite (proj2 (Z.eqb_neq c 0)) by lia.
    destruct (Z.eqb_spec c d) as [->|Hne]; cbn [negb].
    + rewrite <- Z.add_assoc in Hl1, Hl2.
      destruct (IH l1 l2 s1 s2 (i + 1)) as (r & E & Hiff); [done..|cbn in Hf; lia|].
      exists r. split; [done|]. rewrite Hiff. naive_solver.
    + eexists. split; [reflexivity|].
      pose proof (char_diff c d ltac:(lia) ltac:(lia) Hne). split; [lia|naive_solver].
Qed.

Lemma strncmp_ok m n : ∀ l1 l2 s1 s2,
  cstr m s1 l1 → cstr m s2 l2 →
  ∃ r, strncmp char_val n s1 s2 m = Ret (r, m) ∧ (r = 0 ↔ take n l1 = take n l2).
Proof.
  induction n as [|n IH]; intros l1 l2 s1 s2 Hl1 Hl2; cbn [strncmp]; [by exists 0|].
  destruct l1 as [|c l1], l2 as [|d l2].
  - apply cstr_nil in Hl1, Hl2. ld_step. rewrite Z.eqb_refl. ld_step. eexists. split; [reflexivity|].
    rewrite Z.sub_diag. naive_solver.
  - apply cstr_nil in Hl1. apply cstr_cons in Hl2 as (Hd & Hr & _). ld_step. rewrite Z.eqb_refl. ld_step.
    eexists. split; [reflexivity|].
    pose proof (char_diff 0 d ltac:(lia) ltac:(lia) ltac:(lia)). split; [lia|done].
  - apply cstr_nil in Hl2. apply cstr_cons in Hl1 as (Hc & Hr & _). ld_step.
    rewrite (proj2 (Z.eqb_neq c 0)) by lia. ld_step.
    rewrite (proj2 (Z.eqb_neq c 0)) by lia. eexists. split; [reflexivity|].
    pose proof (char_diff c 0 ltac:(lia) ltac:(lia) ltac:(lia)). split; [lia|done].
  - apply cstr_cons in Hl1 as (Hc & Hr & Hl1), Hl2 as (Hd & Hr' & Hl2). ld_step.
    rewrite (proj2 (Z.eqb_neq c 0)) by lia. ld_step.
    destruct (Z.eqb_spec c d) as [->|Hne].
    + destruct (IH l1 l2 (s1 + 1) (s2 + 1)) as (r & E & Hiff); [done..|].
      exists r. split; [done|]. cbn [take]. rewrite Hiff. split; [by intros ->|by intros [= ->]].
    + eexists. split; [reflexivity|].
      pose proof (char_diff c d ltac:(lia) ltac:(lia) Hne). split; [lia|by intros [= ?]].
Qed.

(** For two C strings in memory, [strcmp] returns (after as many steps as the first
    string is long) and gives 0 exactly when they are equal; [strncmp] gives 0 exactly
    when their first [n] characters are; neither changes memory. *)
Theorem string_compare_spec m s1 s2 l1 l2 n fuel :
  char_val 0 = 0 → cstr m s1 l1 → cstr m s2 l2 → (length l1 < fuel)%nat →
  (∃ r, strcmp char_val fuel s1 s2 m = Ret (r, m) ∧ (r = 0 ↔ l1 = l2)) ∧
  (∃ r, strncmp char_val n s1 s2 m = Ret (r, m) ∧ (r = 0 ↔ take n l1 = take n l2)).
Proof.
  intros H0 Hl1 Hl2 Hf. split; [|by apply strncmp_ok].
  apply strcmp_loop_ok; by rewrite ?Z.add_0_r.
Qed.
End compare.

Lemma cstr_intro m a l :
  bool_decide (Forall (λ p : nat * Z, m !! (a + Z.of_nat p.1) = Some p.2)
    (imap (λ i x, (i, x)) (l ++ [0])) ∧ Forall (λ c, 0 < c < 256) l) = true → cstr m a l.
Proof.
  intros [H Hl]%bool_decide_eq_true. split; [|done]. intros i x Hx.
  rewrite Forall_forall in H. apply (H (i, x)), list_elem_of_lookup. exists i.
  by rewrite list_lookup_imap, Hx.
Qed.

Lemma string_compare_spec_witness :
  let m := list_to_map (zip (seqZ 100 8) [97; 98; 99; 0; 97; 98; 100; 0]) : bytes in
  (∃ r, strcmp id 4 100 104 m = Ret (r, m) ∧ (r = 0 ↔ [97; 98; 99] = [97; 98; 100])) ∧
  (∃ r, strncmp id 2 100 104 m = Ret (r, m) ∧ (r = 0 ↔ [97; 98] = [97; 98])).
Proof.
  cbv zeta. apply (string_compare_spec id (λ c d _ _ E, E) _ 100 104 [97; 98; 99] [97; 98; 100]).
  - done.
  - by apply cstr_intro.
  - by apply cstr_intro.
  - cbn. lia.
Defined.

(** ** [strncpy] *)

Lemma holds_insert_ne m a l b v :
  holds m a l → (b < a ∨ a + zlen l ≤ b) → holds (<[b := v]> m) a l.
Proof.
  intros H Hb i x Hx. rewrite lookup_insert_ne; [by apply H|].
  apply lookup_lt_Some in Hx. unfold zlen in Hb. lia.
Qed.

Lemma strncpy_loop_ok n : ∀ m dst src l,
  cstr m src l → accessible m dst (Z.of_nat n) →
  (dst + Z.of_nat n ≤ src ∨ src + zlen l < dst) →
  ∃ m', strncpy_loop n dst src m = Ret (dst + zlen (take n (l ++ [0])), m') ∧
    holds m' dst (take n (l ++ [0])) ∧
    (∀ a, (a < dst ∨ dst + zlen (take n (l ++ [0])) ≤ a) → m' !! a = m !! a).
Proof.
  induction n as [|n IH]; intros m dst src l Hl Hd Hdj.
  { exists m. split_and!; [by rewrite Z.add_0_r|apply holds_nil|done]. }
  destruct (Hd 0 ltac:(lia)) as [o Ho]. rewrite Z.add_0_r in Ho. cbn [strncpy_loop].
  destruct l as [|c l].
  - apply cstr_nil in Hl. ld_step. st_step. cbn [Z.eqb app take].
    exists (<[dst := u8 0]> m). rewrite take_nil. split_and!.
    + done.
    + apply holds_cons. split; [by rewrite lookup_insert_eq|apply holds_nil].
    + intros a Ha. unfold zlen in Ha. cbn in Ha. by rewrite lookup_insert_ne by lia.
  - pose proof (zlen_nonneg l). rewrite zlen_cons in Hdj.
    apply cstr_cons in Hl as (Hc & Hr & Hl). ld_step. st_step.
    rewrite (proj2 (Z.eqb_neq c 0)) by lia. rewrite (u8_small c) by lia. cbn [app take].
    rewrite zlen_cons. set (t := take n (l ++ [0])) in *. pose proof (zlen_nonneg t).
    destruct Hl as [Hl Hlb].
    destruct (IH (<[dst := c]> m) (dst + 1) (src + 1) l) as (m' & E & Hh & Hf).
    + split; [|done]. apply holds_insert_ne; [done|].
      rewrite zlen_app. unfold zlen in *. cbn. lia.
    + apply accessible_insert, (accessible_mono _ _ (Z.of_nat (S n))); [done|lia..].
    + lia.
    + exists m'. fold t in E, Hh, Hf. split_and!.
      * rewrite E. do 2 f_equal. lia.
      * apply holds_cons. split; [|done]. rewrite Hf by lia. apply lookup_insert_eq.
      * intros a Ha. rewrite Hf by lia. by rewrite lookup_insert_ne by lia.
Qed.

Lemma strncpy_run m dst src l n :
  cstr m src l → accessible m dst (Z.of_nat n + 1) →
  (dst + Z.of_nat n < src ∨ src + zlen l < dst) →
  ∃ m', strncpy dst src n m = Ret (dst, m') ∧
    holds m' dst (take n (l ++ [0]) ++ [0]) ∧
    (∀ a, (a < dst ∨ dst + zlen (take n (l ++ [0])) < a) → m' !! a = m !! a) ∧
    ((n ≤ length l)%nat →
      m' !! (dst + Z.of_nat n) = Some 0 ∧ cstr m' dst (take n l)).
Proof.
  intros Hl Hd Hdj. pose proof Hl as [_ Hlb].
  destruct (strncpy_loop_ok n m dst src l Hl) as (m1 & E & Hh & Hf).
  { intros i Hi. apply Hd. lia. }
  { lia. }
  set (t := take n (l ++ [0])) in *. pose proof (zlen_nonneg t) as Ht0.
  assert (zlen t ≤ Z.of_nat n) as Ht by (unfold zlen, t; rewrite length_take; lia).
  destruct (Hd (zlen t) ltac:(lia)) as [o Ho].
  unfold strncpy. mstep E.
  assert (m1 !! (dst + zlen t) = Some o) as Ho1 by (rewrite Hf by lia; done).
  st_step. exists (<[dst + zlen t := u8 0]> m1).
  assert (holds (<[dst + zlen t := u8 0]> m1) dst (t ++ [0])) as Hh'.
  { intros i x Hx. apply lookup_app_Some in Hx as [Hx|[Hi Hx]].
    - pose proof (lookup_lt_Some _ _ _ Hx). rewrite lookup_insert_ne by (unfold zlen; lia).
      by apply Hh.
    - destruct (i - length t)%nat eqn:Ei; [|done]. injection Hx as <-.
      replace (dst + Z.of_nat i) with (dst + zlen t) by (unfold zlen; lia).
      apply lookup_insert_eq. }
  split_and!; [done|done| |].
  - intros a Ha. rewrite lookup_insert_ne by lia. apply Hf. lia.
  - intros Hn. assert (t = take n l) as Et.
    { unfold t. rewrite take_app_le by done. done. }
    assert (zlen t = Z.of_nat n) as Hzt.
    { rewrite Et. unfold zlen. rewrite length_take. lia. }
    split; [rewrite Hzt; apply lookup_insert_eq|].
    split; [by rewrite <- Et|by apply Forall_take].
Qed.

(** [strncpy] of a C string into memory disjoint from it returns, leaves in the
    destination the first [n] characters (and the terminator when it is among them)
    followed by a NUL byte, and changes nothing else; so it writes up to [n + 1] bytes,
    one more than [n]. *)
Theorem strncpy_spec m dst src l n :
  cstr m src l → accessible m dst (Z.of_nat n + 1) →
  (dst + Z.of_nat n < src ∨ src + zlen l < dst) →
  ∃ m', strncpy dst src n m = Ret (dst, m') ∧
    holds m' dst (take n (l ++ [0]) ++ [0]) ∧
    (∀ a, (a < dst ∨ dst + zlen (take n (l ++ [0])) < a) → m' !! a = m !! a) ∧
    ((n ≤ length l)%nat →
      m' !! (dst + Z.of_nat n) = Some 0 ∧ cstr m' dst (take n l)).
Proof. apply strncpy_run. Qed.

Lemma strncpy_spec_witness :
  let m := list_to_map (zip (seqZ 100 10) [97; 98; 99; 0; 0; 7; 7; 7; 7; 7]) : bytes in
  ∃ m', strncpy 105 100 3 m = Ret (105, m') ∧ cstr m' 105 [97; 98; 99].
Proof.
  destruct (strncpy_spec (list_to_map (zip (seqZ 100 10) [97; 98; 99; 0; 0; 7; 7; 7; 7; 7]))
    105 100 [97; 98; 99] 3) as (m' & E & _ & _ & H).
  - by apply cstr_intro.
  - intros i Hi.
    assert (i = 0 ∨ i = 1 ∨ i = 2 ∨ i = 3) as [->|[->|[->| ->]]] by lia; by eexists.
  - vm_compute. auto.
  - exists m'. split; [done|]. apply H. cbn. lia.
Defined.

(** ** [name_append_suffix] *)

Lemma cstr_app m a l1 l2 :
  holds m a l1 → Forall (λ c, 0 < c < 256) l1 → cstr m (a + zlen l1) l2 → cstr m a (l1 ++ l2).
Proof.
  intros H1 Hf [H2 Hf2]. split; [|by apply Forall_app].
  rewrite <- app_assoc. intros i x [Hx|[Hi Hx]]%lookup_app_Some; [by apply H1|].
  specialize (H2 _ _ Hx). unfold zlen in H2. rewrite <- H2. f_equal. lia.
Qed.

Lemma cstr_frame m m' a l :
  cstr m a l → (∀ b, a ≤ b ≤ a + zlen l → m' !! b = m !! b) → cstr m' a l.
Proof.
  intros [H Hf] Hm. split; [|done]. intros i x Hx. rewrite Hm; [by apply H|].
  apply lookup_lt_Some in Hx. rewrite length_app in Hx. cbn in Hx. unfold zlen. lia.
Qed.

(** A suffix that fits is appended and nothing else changes. *)
Lemma name_append_suffix_run m name buflen suffix l sfx fuel :
  cstr m name l → cstr m suffix sfx → accessible m name (zlen l + zlen sfx + 1) →
  zlen l + zlen sfx < buflen →
  (name + zlen l + zlen sfx < suffix ∨ suffix + zlen sfx < name) →
  (length l < fuel)%nat → (length sfx < fuel)%nat →
  ∃ m', name_append_suffix fuel name buflen suffix m = Ret (tt, m') ∧
    cstr m' name (l ++ sfx) ∧
    (∀ a, (a < name + zlen l ∨ name + zlen l + zlen sfx < a) → m' !! a = m !! a).
Proof.
  intros Hl Hs Hacc Hlen Hdj Hf1 Hf2. pose proof (zlen_nonneg l). pose proof (zlen_nonneg sfx).
  unfold name_append_suffix. mstep (strlen_ok m name l fuel Hl Hf1).
  mstep (strlen_ok m suffix sfx fuel Hs Hf2). cbv zeta.
  rewrite (proj2 (Z.ltb_lt _ _)) by lia.
  rewrite (proj2 (Z.leb_le 0 (zlen l))) by lia. cbn [andb massert].
  erewrite mbind_Ret by reflexivity.
  destruct (strncpy_run m (name + zlen l) suffix sfx (Z.to_nat (zlen sfx)))
    as (m1 & E & Hh & Hfr & Hend).
  { done. }
  { intros i Hi. replace (name + zlen l + i) with (name + (zlen l + i)) by lia. apply Hacc. lia. }
  { lia. }
  destruct (Hend ltac:(unfold zlen; lia)) as [Hz Hc].
  rewrite take_ge in Hc by (unfold zlen; lia).
  erewrite mbind_Ret by exact E.
  replace (name + (zlen l + zlen sfx)) with (name + zlen l + Z.of_nat (Z.to_nat (zlen sfx))) by lia.
  rewrite (st_ok _ _ _ _ Hz). eexists. split; [reflexivity|].
  replace (u8 0) with 0 by done. rewrite insert_id by done.
  assert (zlen (take (Z.to_nat (zlen sfx)) (sfx ++ [0])) = zlen sfx) as Et.
  { unfold zlen. rewrite length_take, length_app. cbn. lia. }
  rewrite Et in Hfr. split.
  - apply cstr_app; [|apply Hl|done]. destruct Hl as [Hl _]. intros i x Hx.
    pose proof (lookup_lt_Some _ _ _ Hx). rewrite Hfr by (unfold zlen; lia).
    apply Hl. by apply lookup_app_l_Some.
  - intros a Ha. apply Hfr. lia.
Qed.

(** Copying past the memory there is. *)
Lemma strncpy_loop_fault n : ∀ m dst src l k,
  cstr m src l → accessible m dst (Z.of_nat k) → m !! (dst + Z.of_nat k) = None →
  (dst + Z.of_nat k ≤ src ∨ src + zlen l < dst) → (k < n)%nat → (k ≤ length l)%nat →
  strncpy_loop n dst src m = Fault.
Proof.
  induction n as [|n IH]; intros m dst src l k Hl Hacc Hk Hdj Hkn Hkl; [lia|].
  cbn [strncpy_loop]. destruct k as [|k].
  - replace (dst + Z.of_nat 0) with dst in Hk by lia. unfold st, ld. munfold.
    destruct l as [|c l]; [apply cstr_nil in Hl|apply cstr_cons in Hl as (Hl & _)];
      by rewrite Hl, Hk.
  - destruct l as [|c l]; [cbn in Hkl; lia|]. cbn in Hkl.
    pose proof (zlen_nonneg l). rewrite zlen_cons in Hdj.
    apply cstr_cons in Hl as (Hc & Hr & Hl). ld_step.
    destruct (Hacc 0 ltac:(lia)) as [o Ho]. rewrite Z.add_0_r in Ho. st_step.
    rewrite (proj2 (Z.eqb_neq c 0)) by lia.
    apply (IH _ (dst + 1) (src + 1) l k); try lia.
    + destruct Hl as [Hl Hlb]. split; [|done]. apply holds_insert_ne; [done|].
      rewrite zlen_app. unfold zlen in *. cbn. lia.
    + apply accessible_insert, (accessible_mono _ _ (Z.of_nat (Datatypes.S k))); [done|lia..].
    + rewrite lookup_insert_ne by lia. replace (dst + 1 + Z.of_nat k) with (dst + Z.of_nat (Datatypes.S k)) by lia.
      done.
Qed.

(** The bound does not matter once the string ends before it. *)
Lemma strncpy_loop_short l : ∀ n m dst src,
  cstr m src l → (dst + zlen l < src ∨ src + zlen l < dst) → (length l < n)%nat →
  strncpy_loop n dst src m = strncpy_loop (Datatypes.S (length l)) dst src m.
Proof.
  induction l as [|c l IH]; intros [|n] m dst src Hl Hdj Hn; cbn in Hn; try lia;
    cbn [strncpy_loop length].
  - apply cstr_nil in Hl. munfold. unfold ld. munfold. rewrite Hl.
    by destruct (st dst 0 m) as [[]| | |].
  - pose proof (zlen_nonneg l). rewrite zlen_cons in Hdj.
    apply cstr_cons in Hl as (Hc & Hr & Hl). munfold. unfold ld. munfold. rewrite Hc.
    destruct (m !! dst) as [o|] eqn:Eo.
    + rewrite (st_ok _ _ _ _ Eo), (proj2 (Z.eqb_neq c 0)) by lia. apply IH; [|lia|lia].
      destruct Hl as [Hl Hlb]. split; [|done]. apply holds_insert_ne; [done|].
      rewrite zlen_app. unfold zlen in *. cbn. lia.
    + unfold st, ld. munfold. by rewrite Eo.
Qed.

(** Copying a whole string needs room for it and for two NUL bytes. *)
Lemma strncpy_whole m dst src l n :
  cstr m src l → accessible m dst (zlen l + 2) → (dst + zlen l + 1 < src ∨ src + zlen l < dst) →
  (length l < n)%nat →
  ∃ m', strncpy dst src n m = Ret (dst, m') ∧ cstr m' dst l ∧
    (∀ a, (a < dst ∨ dst + zlen l + 1 < a) → m' !! a = m !! a).
Proof.
  intros Hl Hacc Hdj Hn.
  destruct (strncpy_run m dst src l (Datatypes.S (length l))) as (m' & E & Hh & Hf & _); [done| |unfold zlen in *; lia|].
  { intros i Hi. apply Hacc. unfold zlen. lia. }
  exists m'. rewrite take_ge in Hh, Hf by (rewrite length_app; cbn; lia).
  rewrite zlen_app in Hf. change (zlen [0]) with 1 in Hf. split_and!.
  - rewrite <- E. unfold strncpy. munfold.
    by rewrite (strncpy_loop_short l n) by (done || lia).
  - split; [|apply Hl]. intros i x Hx. apply Hh. by apply lookup_app_l_Some.
  - intros a Ha. apply Hf. lia.
Qed.

Lemma strncpy_fault m dst src l n k :
  cstr m src l → accessible m dst (Z.of_nat k) → m !! (dst + Z.of_nat k) = None →
  (dst + Z.of_nat k ≤ src ∨ src + zlen l < dst) → (k ≤ length (take n (l ++ [0%Z])))%nat →
  strncpy dst src n m = Fault.
Proof.
  intros Hl Hacc Hk Hdj Hle. rewrite length_take, length_app in Hle. cbn in Hle.
  unfold strncpy. destruct (decide (k < n ∧ k ≤ length l)%nat) as [[]|Hlast].
  { munfold. by rewrite (strncpy_loop_fault n m dst src l k). }
  assert (strncpy_loop n dst src m = strncpy_loop k dst src m) as E.
  { destruct (decide (n = k)) as [->|]; [done|].
    replace k with (Datatypes.S (length l)) by lia.
    apply strncpy_loop_short; [done|unfold zlen in *; lia|lia]. }
  destruct (strncpy_loop_ok k m dst src l Hl Hacc) as (m' & E' & _ & Hf).
  { unfold zlen in *. lia. }
  assert (zlen (take k (l ++ [0])) = Z.of_nat k) as Et.
  { unfold zlen. rewrite length_take, length_app. cbn. lia. }
  rewrite Et in E', Hf. erewrite mbind_Ret by (rewrite E; exact E').
  unfold st, ld. munfold. by rewrite Hf, Hk by lia.
Qed.

Lemma accessible_frame m m' a n :
  accessible m a n → (∀ b, a ≤ b < a + n → m' !! b = m !! b) → accessible m' a n.
Proof. intros H Hf i Hi. rewrite Hf by lia. by apply H. Qed.

Lemma accessible_le m a n k : accessible m a n → k ≤ n → accessible m a k.
Proof. intros H ? i ?. apply H. lia. Qed.

(** Memory operations neither make nor lose bytes. *)
Lemma accessible_dom m m' a n : dom m' = dom m → accessible m a n → accessible m' a n.
Proof.
  intros E H i Hi. apply elem_of_dom. rewrite E. by apply elem_of_dom, H.
Qed.

Lemma st_dom a v m r m' : st a v m = Ret (r, m') → dom m' = dom m.
Proof.
  unfold st, ld. munfold. destruct (m !! a) as [x|] eqn:E; intros; simplify_eq.
  apply dom_insert_lookup_L. by eexists.
Qed.

Lemma strncpy_loop_dom n : ∀ dst src m r m', strncpy_loop n dst src m = Ret (r, m') → dom m' = dom m.
Proof.
  induction n as [|n IH]; intros dst src m r m'; cbn [strncpy_loop]; [by intros [= _ ->]|].
  intros (c & m1 & E1 & (u & m2 & E2 & E3)%mbind_inv)%mbind_inv.
  assert (m1 = m) as -> by (revert E1; unfold ld; munfold; by destruct (m !! src); intros; simplify_eq).
  rewrite <- (st_dom _ _ _ _ _ E2). destruct (c =? 0); [by injection E3 as _ ->|by eapply IH].
Qed.

Lemma strncpy_dom dst src n m r m' : strncpy dst src n m = Ret (r, m') → dom m' = dom m.
Proof.
  unfold strncpy. intros (d & m1 & E1 & (u & m2 & E2 & [= _ <-])%mbind_inv)%mbind_inv.
  by rewrite (st_dom _ _ _ _ _ E2), (strncpy_loop_dom _ _ _ _ _ _ E1).
Qed.

Lemma cstr_holds m a l : cstr m a l → holds m a l.
Proof. intros [H _] i x Hx. apply H. by apply lookup_app_l_Some. Qed.
