(* ===== verification/Sort.v ===== *)
(** * Quicksort

    Models [kernel/lib/sort.c].  The array is the list of its elements; the byte-wise
    [swap] of two elements exchanges two entries, and [comp] is given the elements its
    pointers refer to.  Indices and byte offsets are [int]s: an offset that wraps around is
    another element, or none. *)

From S2P Require Export Prelude.

Section qsort.
Context {A : Type} (comp : A → A → Z) (size : Z).

(** The element at [v + i * size], whose product is an [int]. *)
Definition slot (i : Z) : option Z :=
  let off := i32 (i * size) in
  if off mod size =? 0 then Some (off / size) else None.
Definition elem (i : Z) : M (list A) A := mtry (λ v, k ← slot i; znth v k).
Definition put (i : Z) (x : A) : M (list A) unit :=
  v ← mtry (λ v, k ← slot i; zset v k x); modify (λ _, v).

Definition swap (i j : Z) : M (list A) unit :=
  buffer ← elem i;
  y ← elem j;
  put i y;;
  put j buffer.

(** The partition loop; it returns the final [last]. *)
Fixpoint partition_loop (n : nat) (left i last : Z) : M (list A) Z :=
  match n with
  | O => mret last
  | S n =>
      vl ← elem left;
      vt ← elem i;
      if 0 <? comp vl vt
      then swap i (i32 (last + 1));; partition_loop n left (i32 (i + 1)) (i32 (last + 1))
      else partition_loop n left (i32 (i + 1)) last
  end.

Fixpoint _qsort (fuel : nat) (left right : Z) : M (list A) unit :=
  match fuel with
  | O => mspin
  | S fuel =>
      let mid := Z.quot (i32 (left + right)) 2 in
      if right <=? left then mret tt
      else
        swap left mid;;
        last ← partition_loop (Z.to_nat (right - left)) left (i32 (left + 1)) left;
        swap left last;;
        _qsort fuel left (i32 (last - 1));;
        _qsort fuel (i32 (last + 1)) right
  end.

Definition qsort (fuel : nat) (nmemb : Z) : M (list A) unit :=
  _qsort fuel 0 (i32 (nmemb - 1)).

(** ** Rearranging a segment *)

(** The sizes [int] arithmetic can handle. *)
Definition indexable (l : list A) : Prop := 0 < size ∧ zlen l ≤ 2 ^ 30 ∧ zlen l * size ≤ 2 ^ 31.

Lemma slot_ok l i : indexable l → 0 ≤ i < zlen l → slot i = Some i.
Proof.
  intros (Hs & _ & Hb) Hi. unfold slot. rewrite i32_small by nia.
  by rewrite Z.mod_mul, Z.div_mul by lia.
Qed.
Lemma elem_ok l i x : indexable l → 0 ≤ i < zlen l → znth l i = Some x → elem i l = Ret (x, l).
Proof. intros Hl Hi Hx. unfold elem, mtry. rewrite (slot_ok l) by done. cbn. by rewrite Hx. Qed.
Lemma put_ok l i x l' : indexable l → 0 ≤ i < zlen l → zset l i x = Some l' → put i x l = Ret (tt, l').
Proof.
  intros Hl Hi Hx. unfold put. munfold. rewrite (slot_ok l) by done. cbn. by rewrite Hx.
Qed.


(** [l'] is [l] with the entries [left..right] rearranged. *)
Record rearranged (left right : Z) (l l' : list A) : Prop := {
  re_perm : l' ≡ₚ l;
  re_outside k : ¬ (left ≤ k ≤ right) → znth l' k = znth l k;
  re_inside (P : A → Prop) :
    (∀ k x, left ≤ k ≤ right → znth l k = Some x → P x) →
    ∀ k x, left ≤ k ≤ right → znth l' k = Some x → P x
}.

Lemma rearranged_refl left right l : rearranged left right l l.
Proof. split; auto. Qed.

Lemma rearranged_trans left right l1 l2 l3 :
  rearranged left right l1 l2 → rearranged left right l2 l3 → rearranged left right l1 l3.
Proof.
  intros [P1 O1 I1] [P2 O2 I2]. split.
  - by rewrite P2.
  - intros k Hk. by rewrite O2, O1.
  - intros P HP. apply I2. by apply I1.
Qed.

Lemma rearranged_widen left right left' right' l l' :
  left' ≤ left → right ≤ right' → rearranged left right l l' → rearranged left' right' l l'.
Proof.
  intros Hl Hr [P O I]. split; [done| |].
  - intros k Hk. apply O. lia.
  - intros Q HQ k x Hk Hx. destruct (decide (left ≤ k ≤ right)) as [Hk'|Hk'].
    + apply (I Q) with k; [|done|done]. intros j y Hj. apply HQ. lia.
    + rewrite O in Hx by done. by apply (HQ k).
Qed.

Lemma zlen_rearranged left right l l' : rearranged left right l l' → zlen l' = zlen l.
Proof. intros [P _ _]. unfold zlen. by rewrite P. Qed.

Lemma indexable_length l l' : zlen l' = zlen l → indexable l → indexable l'.
Proof. unfold indexable. by intros ->. Qed.

Lemma swap_ok left right l i j :
  indexable l → 0 ≤ left → right < zlen l → left ≤ i ≤ right → left ≤ j ≤ right →
  ∃ l' x y, swap i j l = Ret (tt, l') ∧ rearranged left right l l' ∧
    znth l i = Some x ∧ znth l j = Some y ∧ znth l' i = Some y ∧ znth l' j = Some x ∧
    (∀ k, k ≠ i → k ≠ j → znth l' k = znth l k).
Proof.
  intros Hsz H0 Hr Hi Hj.
  destruct (znth_lt l i) as [x Hx]; [lia|]. destruct (znth_lt l j) as [y Hy]; [lia|].
  assert (∃ l1, zset l i y = Some l1) as [l1 E1] by
    (unfold zset; rewrite decide_True by lia; eauto).
  pose proof (zset_length _ _ _ _ E1) as Hlen.
  assert (∃ l2, zset l1 j x = Some l2) as [l2 E2] by
    (unfold zset; rewrite decide_True by lia; eauto).
  assert (∀ k, znth l2 k = if decide (k = j) then Some x else if decide (k = i) then Some y
    else znth l k) as Hz.
  { intros k. case_decide as Hkj; [subst k; by apply (znth_zset_eq l1 j x)|].
    rewrite (znth_zset_ne l1 j k x l2) by done. case_decide as Hki;
      [subst k; by apply (znth_zset_eq l i y)|]. by apply (znth_zset_ne l i k y). }
  exists l2, x, y. split_and!.
  - unfold swap. mstep (elem_ok l i x Hsz ltac:(lia) Hx). mstep (elem_ok l j y Hsz ltac:(lia) Hy).
    mstep (put_ok l i y l1 Hsz ltac:(lia) E1).
    apply (put_ok l1 j x l2); [by eapply indexable_length|lia|done].
  - split.
    + unfold zset in E1, E2. rewrite decide_True in E1 by lia.
      rewrite decide_True in E2 by lia. injection E1 as <-. injection E2 as <-.
      apply znth_Some in Hx as [_ Hx], Hy as [_ Hy]. by apply Permutation_insert_swap.
    + intros k Hk. rewrite Hz, !decide_False; [done|lia|lia].
    + intros P HP k z Hk. rewrite Hz. repeat case_decide; intros [= <-] || intros Hz'.
      * by apply (HP i).
      * by apply (HP j).
      * by apply (HP k).
  - done.
  - done.
  - rewrite Hz. destruct (decide (i = j)) as [<-|]; [congruence|]. by rewrite decide_True.
  - rewrite Hz. by rewrite decide_True.
  - intros k Hki Hkj. by rewrite Hz, !decide_False.
Qed.

(** ** The partition *)

Definition smaller (l : list A) (p : A) (lo hi : Z) : Prop :=
  ∀ k x, lo < k ≤ hi → znth l k = Some x → 0 < comp p x.
Definition not_smaller (l : list A) (p : A) (lo hi : Z) : Prop :=
  ∀ k x, lo < k ≤ hi → znth l k = Some x → comp p x ≤ 0.

Lemma partition_ok p n : ∀ l left right i last,
  indexable l → 0 ≤ left → right < zlen l → left ≤ last < i → i + Z.of_nat n = right + 1 →
  znth l left = Some p → smaller l p left last → not_smaller l p last (i - 1) →
  ∃ last' l', partition_loop n left i last l = Ret (last', l') ∧
    rearranged left right l l' ∧ left ≤ last' ≤ right ∧ znth l' left = Some p ∧
    smaller l' p left last' ∧ not_smaller l' p last' right.
Proof.
  induction n as [|n IH]; intros l left right i last Hsz H0 Hr Hlast Hn Hp Hs Hns.
  { exists last, l. replace right with (i - 1) by lia.
    split_and!; [done|apply rearranged_refl|lia|lia|done..]. }
  cbn [partition_loop]. destruct (znth_lt l i) as [x Hx]; [lia|].
  pose proof Hsz as (_ & Hmax & _).
  mstep (elem_ok l left p Hsz ltac:(lia) Hp). mstep (elem_ok l i x Hsz ltac:(lia) Hx).
  rewrite !i32_small by lia.
  destruct (Z.ltb_spec 0 (comp p x)) as [Hc|Hc].
  - destruct (swap_ok left right l i (last + 1)) as (l1 & a & b & E & Hre & Ha & Hb & Ha1 & Hb1 & Ho);
      [done|lia..|]. mstep E. assert (a = x) as -> by congruence.
    destruct (IH l1 left right (i + 1) (last + 1)) as (last' & l2 & E2 & Hre2 & Hrest).
    + eapply indexable_length; [by eapply zlen_rearranged|done].
    + lia.
    + by rewrite (zlen_rearranged _ _ _ _ Hre).
    + lia.
    + lia.
    + rewrite Ho by lia. done.
    + intros k y Hk. destruct (decide (k = last + 1)) as [->|].
      * rewrite Hb1. intros [= <-]. done.
      * rewrite Ho by lia. apply Hs. lia.
    + intros k y Hk. destruct (decide (k = i)) as [->|].
      * rewrite Ha1. intros [= <-]. destruct (decide (last + 1 = i)) as [Hi|]; [lia|].
        apply (Hns (last + 1)); [lia|done].
      * rewrite Ho by lia. apply Hns. lia.
    + exists last', l2. split_and!; [done| |apply Hrest..]. by eapply rearranged_trans.
  - destruct (IH l left right (i + 1) last) as (last' & l2 & E2 & Hre2 & Hrest); try done; try lia.
    + intros k y Hk. destruct (decide (k = i)) as [->|]; [rewrite Hx; by intros [= <-]|].
      apply Hns. lia.
    + exists last', l2. split_and!; [done|done|apply Hrest..].
Qed.

(** ** Sortedness *)

Definition sorted (l : list A) (left right : Z) : Prop :=
  ∀ i j x y, left ≤ i → i < j → j ≤ right → znth l i = Some x → znth l j = Some y →
    comp x y ≤ 0.

(** [comp] orders the elements: what [qsort] asks of its callers. *)
Context (comp_total : ∀ x y, 0 < comp x y → comp y x ≤ 0).
Context (comp_trans : ∀ x y z, comp x y ≤ 0 → comp y z ≤ 0 → comp x z ≤ 0).

Lemma _qsort_ok fuel : ∀ l left right,
  indexable l → 0 ≤ left → right < zlen l → right - left < Z.of_nat fuel →
  (0 < fuel)%nat →
  ∃ l', _qsort fuel left right l = Ret (tt, l') ∧ rearranged left right l l' ∧
    sorted l' left right.
Proof.
  induction fuel as [|fuel IH]; intros l left right Hsz H0 Hr Hf Hf0; [lia|]. cbn [_qsort].
  pose proof Hsz as (_ & Hmax & _).
  destruct (Z.leb_spec right left) as [Hle|Hlt].
  { exists l. split; [done|]. split; [apply rearranged_refl|]. intros i j x y. lia. }
  rewrite (i32_small (left + right)), (i32_small (left + 1)) by lia.
  assert (left ≤ Z.quot (left + right) 2 ≤ right) as Hmid.
  { rewrite Z.quot_div_nonneg by lia. Z.div_mod_to_equations. lia. }
  destruct (swap_ok left right l left (Z.quot (left + right) 2))
    as (l1 & a & p & E1 & Hre1 & _ & _ & Hp & _); [done|lia..|]. mstep E1.
  pose proof (zlen_rearranged _ _ _ _ Hre1) as Hz1. pose proof (indexable_length _ _ Hz1 Hsz) as Hsz1.
  destruct (partition_ok p (Z.to_nat (right - left)) l1 left right (left + 1) left)
    as (last & l2 & E2 & Hre2 & Hlast & Hp2 & Hs & Hns); [done|lia..|done|intros ?; lia|intros ?; lia|].
  mstep E2. pose proof (zlen_rearranged _ _ _ _ Hre2) as Hz2.
  pose proof (indexable_length _ _ Hz2 Hsz1) as Hsz2.
  destruct (swap_ok left last l2 left last)
    as (l3 & p' & b & E3 & Hre3 & Hp' & Hb & Hb3 & Hp3 & Ho3); [done|lia..|]. mstep E3.
  assert (p' = p) as -> by congruence.
  pose proof (zlen_rearranged _ _ _ _ Hre3) as Hz3. pose proof (indexable_length _ _ Hz3 Hsz2) as Hsz3.
  rewrite (i32_small (last - 1)), (i32_small (last + 1)) by lia.
  destruct (IH l3 left (last - 1)) as (l4 & E4 & Hre4 & Hs4); [done|lia..|]. mstep E4.
  pose proof (zlen_rearranged _ _ _ _ Hre4) as Hz4. pose proof (indexable_length _ _ Hz4 Hsz3) as Hsz4.
  destruct (IH l4 (last + 1) right) as (l5 & E5 & Hre5 & Hs5); [done|lia..|].
  exists l5. split; [done|].
(* What the two sides and the middle contain in the end. *)
  assert (∀ k x, left ≤ k ≤ last - 1 → znth l5 k = Some x → 0 < comp p x) as Hleft.
  { intros k x Hk. rewrite (re_outside _ _ _ _ Hre5) by lia. revert k x Hk.
    apply (re_inside _ _ _ _ Hre4). intros k x Hk Hx. destruct (decide (k = left)) as [->|].
    - rewrite Hb3 in Hx. injection Hx as <-. apply (Hs last); [lia|done].
    - rewrite Ho3 in Hx by lia. apply (Hs k); [lia|done]. }
  assert (∀ k x, last + 1 ≤ k ≤ right → znth l5 k = Some x → comp p x ≤ 0) as Hright.
  { apply (re_inside _ _ _ _ Hre5). intros k x Hk.
    rewrite (re_outside _ _ _ _ Hre4) by lia. rewrite Ho3 by lia. apply Hns. lia. }
  assert (znth l5 last = Some p) as Hmidp.
  { rewrite (re_outside _ _ _ _ Hre5), (re_outside _ _ _ _ Hre4) by lia. done. }
  split.
  - eapply rearranged_trans; [done|]. eapply rearranged_trans; [done|].
    eapply rearranged_trans; [eapply rearranged_widen; [..|done]; lia|].
    eapply rearranged_trans; [eapply rearranged_widen; [..|done]; lia|].
    eapply rearranged_widen; [..|done]; lia.
  - intros i j x y Hi Hij Hj Hx Hy.
    destruct (Z.lt_trichotomy i last) as [Hil|[->|Hil]].
    + destruct (decide (j < last)).
      * rewrite (re_outside _ _ _ _ Hre5) in Hx, Hy by lia.
        apply (Hs4 i j); try lia; done.
      * apply comp_trans with p; [apply comp_total, (Hleft i); [lia|done]|].
        destruct (decide (j = last)) as [->|]; [|apply (Hright j); [lia|done]].
        rewrite Hmidp in Hy. injection Hy as <-. destruct (Z.lt_ge_cases 0 (comp p p)) as [Hpp|];
          [by apply comp_total|done].
    + rewrite Hmidp in Hx. injection Hx as <-. apply (Hright j); [lia|done].
    + apply (Hs5 i j); try lia; done.
Qed.

(** C22: on an array of at most 2^30 elements and 2^31 bytes (more is beyond the [int] indices
  and offsets) and a comparison that is total and transitive, [qsort] terminates within a
  recursion depth of [nmemb + 1], never touches anything outside the array, and leaves a
  permutation of the array in which every element compares less than or equal to the ones
  after it. *)
Theorem qsort_sorts l :
  0 < size → zlen l ≤ 2 ^ 30 → zlen l * size ≤ 2 ^ 31 →
  ∃ l', qsort (S (length l)) (zlen l) l = Ret (tt, l') ∧ l' ≡ₚ l ∧
    ∀ i j x y, (i < j)%nat → l' !! i = Some x → l' !! j = Some y → comp x y ≤ 0.
Proof.
  intros Hs0 Hl Hb. pose proof (zlen_nonneg l). unfold qsort. rewrite i32_small by lia.
  destruct (_qsort_ok (S (length l)) l 0 (zlen l - 1)) as (l' & E & Hre & Hs);
    [by split_and!|lia|lia|unfold zlen; lia|lia|].
  exists l'. split; [done|]. split; [by apply (re_perm _ _ _ _ Hre)|].
  intros i j x y Hij Hx Hy. pose proof (lookup_lt_Some _ _ _ Hy) as Hj.
  pose proof (zlen_rearranged _ _ _ _ Hre) as Hz. unfold zlen in *.
  apply (Hs (Z.of_nat i) (Z.of_nat j)); [lia..| |];
    apply znth_Some; by rewrite Nat2Z.id; split; [lia|].
Qed.
End qsort.

(** [(left + right) / 2] of an array of 2^31 - 1 elements is negative in the upper half. *)
Example mid_overflows : Z.quot (i32 (2 ^ 30 + (2 ^ 31 - 2))) 2 < 0.
Proof. reflexivity. Qed.

Lemma qsort_sorts_witness :
    let l := [5; 1; 4; 1; 3] in
    ∃ l', qsort (λ x y, x - y) 4 6 5 l = Ret (tt, l') ∧ l' ≡ₚ l ∧
      ∀ i j x y, (i < j)%nat → l' !! i = Some x → l' !! j = Some y → x - y ≤ 0.
Proof.
    apply (qsort_sorts (λ x y, x - y) 4) with (l := [5; 1; 4; 1; 3]); [lia..| |]; by vm_compute.
Defined.
