(* ===== verification/Locking.v ===== *)
(** * Interrupt nesting, spinlocks and lock-protected counters

    Models [kernel/locking/spinlock.c], the [irq_pushoff]/[irq_popoff] pair of
    [kernel/irq/interrupt.c] and the macros of [kernel/include/locking/atomic.h].
    The state is the per-CPU interrupt record and a store of locks indexed by
    address.  [HasLocks] is the interface through which every other component
    takes its locks.  The last part gives the instruction-level step relation of
    several CPUs running [spinlock_acquire]/[spinlock_release] and its invariant. *)

From S2P Require Export Prelude.

(** ** Data *)

Definition UNLOCKED : Z := 0.
Definition LOCKED : Z := 1.
Definition SPINLOCK_NAME_MAX_LEN : nat := 32.

(** [struct spinlock]; [lcpu] is the [cpu] pointer, [None] for [NULL]. *)
Record spinlock := Spinlock {
  locked : Z;
  lname : string;
  lcpu : option nat
}.

(** The part of [struct cpu] that interrupt nesting uses, with the hardware's
    interrupt-enable bit ([intr_get]/[intr_on]/[intr_off]). *)
Record cpu := Cpu {
  noff : Z;
  intena : bool;
  intr : bool
}.

(** The array [cpus] of [proc.h] and the locks, by address. *)
Record lockenv := LockEnv {
  cpus : list cpu;
  locks : gmap Z spinlock
}.

#[export] Instance spinlock_eq_dec : EqDecision spinlock.
Proof. solve_decision. Defined.
#[export] Instance cpu_eq_dec : EqDecision cpu.
Proof. solve_decision. Defined.
#[export] Instance lockenv_eq_dec : EqDecision lockenv.
Proof. solve_decision. Defined.

Definition set_cpu (c : nat) (x : cpu) (e : lockenv) : lockenv :=
  LockEnv (<[c := x]> (cpus e)) (locks e).
Definition set_lock (lk : Z) (x : spinlock) (e : lockenv) : lockenv :=
  LockEnv (cpus e) (<[lk := x]> (locks e)).

(** ** Interrupt nesting ([interrupt.c]) *)

Definition irq_pushoff (me : nat) : M lockenv unit :=
  c ← mtry (λ e, cpus e !! me);
  let old_intr_status := intr c in
  let c := Cpu (noff c) (intena c) false in
  let c := if noff c =? 0 then Cpu (noff c) old_intr_status (intr c) else c in
  modify (set_cpu me (Cpu (i32 (noff c + 1)) (intena c) (intr c))).

Definition irq_popoff (me : nat) : M lockenv unit :=
  c ← mtry (λ e, cpus e !! me);
  massert (negb (intr c));;
  massert (0 <? noff c);;
  let c := Cpu (i32 (noff c - 1)) (intena c) (intr c) in
  let c := if (noff c =? 0) && intena c then Cpu (noff c) (intena c) true else c in
  modify (set_cpu me c).

(** ** Spinlocks ([spinlock.c]) *)

Definition spinlock_init (lk : Z) (name : string) : M lockenv unit :=
  modify (set_lock lk (Spinlock UNLOCKED (String.substring 0 SPINLOCK_NAME_MAX_LEN name) None)).

Definition spinlock_holding (l : spinlock) (me : nat) : bool :=
  ctrue (locked l) && bool_decide (lcpu l = Some me).

Definition spinlock_acquire (me : nat) (lk : Z) : M lockenv unit :=
  irq_pushoff me;;
  l ← mtry (λ e, locks e !! lk);
  massert (negb (spinlock_holding l me));;
  (if negb (locked l =? UNLOCKED) then mspin else mret tt);;
  modify (set_lock lk (Spinlock LOCKED (lname l) (lcpu l)));;
  modify (set_lock lk (Spinlock LOCKED (lname l) (Some me))).

Definition spinlock_release (me : nat) (lk : Z) : M lockenv unit :=
  l ← mtry (λ e, locks e !! lk);
  massert (spinlock_holding l me);;
  modify (set_lock lk (Spinlock (locked l) (lname l) None));;
  modify (set_lock lk (Spinlock UNLOCKED (lname l) None));;
  irq_popoff me.

(** ** The interface to the other components

    [NCPU] is 1 in [common.h], so a component runs on CPU 0. *)

Class HasLocks (S : Type) := {
  lock_lens : lens S lockenv;
  #[global] lock_lens_lawful :: LawfulLens lock_lens
}.

Section lock_clients.
Context {S : Type} `{HasLocks S}.

Definition acquire (lk : Z) : M S unit := zoom lock_lens (spinlock_acquire 0 lk).
Definition release (lk : Z) : M S unit := zoom lock_lens (spinlock_release 0 lk).
Definition lockinit (lk : Z) (name : string) : M S unit :=
  zoom lock_lens (spinlock_init lk name).

(** The running CPU is known and its interrupt nesting is sane. *)
Definition env_ok (e : lockenv) : Prop :=
  ∃ c, cpus e !! 0%nat = Some c ∧ 0 ≤ noff c < 2 ^ 30 ∧
       (0 < noff c → intr c = false).

(** ... and nobody holds the existing lock [lk]. *)
Definition lock_free (lk : Z) (s : S) : Prop :=
  env_ok (lget lock_lens s) ∧
  ∃ nm, locks (lget lock_lens s) !! lk = Some (Spinlock UNLOCKED nm None).

(** The environment inside a critical section entered from [e]... *)
Definition enter_cpu (c : cpu) : cpu :=
  Cpu (noff c + 1) (if noff c =? 0 then intr c else intena c) false.
Definition on_cpu0 (f : cpu → cpu) (e : lockenv) : lockenv :=
  match cpus e with c :: cs => LockEnv (f c :: cs) (locks e) | [] => e end.
Definition entered (lk : Z) (e : lockenv) : lockenv :=
  match locks e !! lk with
  | Some l => set_lock lk (Spinlock LOCKED (lname l) (Some 0%nat)) (on_cpu0 enter_cpu e)
  | None => e
  end.
(** ... and after leaving it: [irq_pushoff] has recorded the interrupt state. *)
Definition touch_cpu (c : cpu) : cpu :=
  Cpu (noff c) (if noff c =? 0 then intr c else intena c) (intr c).
Definition touched (e : lockenv) : lockenv :=
  on_cpu0 touch_cpu e.
End lock_clients.

(** ** [atomic_inc]/[atomic_dec]/[atomic_get] ([atomic.h]): a counter with its lock *)

Section atomic.
Context {S : Type} `{HasLocks S}.
Variable alock : Z.
Variable aval : lens S Z.

Definition atomic_inc : M S Z :=
  acquire alock;;
  modify (λ s, lset aval (i32 (lget aval s + 1)) s);;
  r ← gets (lget aval);
  release alock;;
  mret r.

Definition atomic_dec : M S Z :=
  acquire alock;;
  modify (λ s, lset aval (i32 (lget aval s - 1)) s);;
  r ← gets (lget aval);
  release alock;;
  mret r.

Definition atomic_get : M S Z :=
  acquire alock;;
  r ← gets (lget aval);
  release alock;;
  mret r.
End atomic.

(** ** Facts about one CPU *)

Lemma irq_pushoff_ok me e c :
  cpus e !! me = Some c → 0 ≤ noff c < 2 ^ 31 - 1 →
  irq_pushoff me e = Ret (tt, set_cpu me (enter_cpu c) e).
Proof.
  intros Hc Hn. unfold irq_pushoff, enter_cpu. munfold. rewrite Hc. cbn.
  destruct (Z.eqb_spec (noff c) 0); cbn; by rewrite i32_small by lia.
Qed.

Lemma irq_popoff_ok me e c :
  cpus e !! me = Some c → intr c = false → 0 < noff c < 2 ^ 31 →
  irq_popoff me e =
    Ret (tt, set_cpu me (Cpu (noff c - 1) (intena c)
                             ((noff c - 1 =? 0) && intena c)) e).
Proof.
  intros Hc Hi Hn. unfold irq_popoff. munfold. rewrite Hc. cbn. rewrite Hi. cbn.
  rewrite (proj2 (Z.ltb_lt 0 (noff c))) by lia. cbn. rewrite !i32_small by lia.
  by destruct (noff c - 1 =? 0), (intena c).
Qed.

(** The nesting pair restores the CPU, except that a first push records [intena]. *)
Lemma pushoff_popoff me e c :
  cpus e !! me = Some c → 0 ≤ noff c < 2 ^ 31 - 1 →
  (0 < noff c → intr c = false) →
  (irq_pushoff me;; irq_popoff me) e = Ret (tt, set_cpu me (touch_cpu c) e).
Proof.
  intros Hc Hn Hi. assert (me < length (cpus e))%nat by eauto using lookup_lt_Some.
  erewrite mbind_Ret by (by apply irq_pushoff_ok).
  rewrite (irq_popoff_ok me _ (enter_cpu c));
    [|by apply list_lookup_insert_eq|done|cbn; lia].
  unfold set_cpu, touch_cpu, enter_cpu. cbn.
  rewrite list_insert_insert_eq. do 4 f_equal. replace (noff c + 1 - 1) with (noff c) by lia.
  destruct (Z.eqb_spec (noff c) 0); cbn; [done|].
  rewrite Hi by lia. done.
Qed.

Section lock_client_lemmas.
Context {S : Type} `{HasLocks S}.

Lemma acquire_ok lk s :
  lock_free lk s →
  acquire lk s = Ret (tt, lset lock_lens (entered lk (lget lock_lens s)) s).
Proof.
  intros [(c & Hc & Hn & Hi) [nm Hl]]. unfold acquire, zoom, spinlock_acquire.
  erewrite mbind_Ret by (apply irq_pushoff_ok; [done|lia]). munfold. cbn. rewrite Hl. cbn.
  unfold entered, on_cpu0, set_lock, set_cpu. rewrite Hl. cbn. rewrite insert_insert_eq.
  destruct (cpus (lget lock_lens s)); simplify_eq/=. done.
Qed.

Lemma release_ok lk s s' :
  lock_free lk s → lget lock_lens s' = entered lk (lget lock_lens s) →
  release lk s' = Ret (tt, lset lock_lens (touched (lget lock_lens s)) s').
Proof.
  intros [(c & Hc & Hn & Hi) [nm Hl]] E. unfold release, zoom. rewrite E. clear E.
  unfold entered, spinlock_release, touched. rewrite Hl. munfold. cbn.
  rewrite lookup_insert_eq. cbn.
  destruct (lget lock_lens s) as [[|c0 cs] ls]; simplify_eq/=.
  unfold set_lock. cbn. rewrite !insert_insert_eq, (insert_id ls) by done.
  rewrite (irq_popoff_ok 0 _ (enter_cpu c)); [|done|done|cbn; lia].
  unfold set_cpu, on_cpu0, touch_cpu, enter_cpu. cbn. replace (noff c + 1 - 1) with (noff c) by lia.
  destruct (Z.eqb_spec (noff c) 0); cbn; [done|]. by rewrite Hi by lia.
Qed.

(** Leaving a critical section keeps every free lock free. *)
Lemma touched_env_ok e : env_ok e → env_ok (touched e).
Proof.
  intros (c & Hc & Hn & Hi). destruct e as [[|c0 cs] ls]; simplify_eq/=.
  exists (touch_cpu c). done.
Qed.

Lemma lock_free_lset lk s s' :
  lock_free lk s → lock_free lk (lset lock_lens (touched (lget lock_lens s)) s').
Proof.
  intros [He [nm Hl]]. unfold lock_free. rewrite lens_get_set.
  split; [by apply touched_env_ok|]. exists nm.
  by destruct (lget lock_lens s) as [[|c0 cs] ls].
Qed.

Lemma touched_idemp e : touched (touched e) = touched e.
Proof.
  destruct e as [[|c cs] ls]; [done|]. unfold touched, on_cpu0, touch_cpu. cbn.
  by destruct (noff c =? 0).
Qed.

(** The shape every locked operation has. *)
Lemma locked_op {A} lk (m : M S A) s a s' :
  lock_free lk s →
  m (lset lock_lens (entered lk (lget lock_lens s)) s) = Ret (a, s') →
  lget lock_lens s' = entered lk (lget lock_lens s) →
  (acquire lk;; r ← m; release lk;; mret r) s =
    Ret (a, lset lock_lens (touched (lget lock_lens s)) s').
Proof.
  intros Hf Hm Hg. erewrite mbind_Ret by (by apply acquire_ok).
  erewrite mbind_Ret by done. erewrite mbind_Ret by (by apply release_ok). done.
Qed.

(** Taking a lock that this CPU already holds never returns. *)
Lemma acquire_held lk s l c :
  cpus (lget lock_lens s) !! 0%nat = Some c → 0 ≤ noff c < 2 ^ 31 - 1 →
  locks (lget lock_lens s) !! lk = Some l → spinlock_holding l 0 = true →
  acquire lk s = Panic.
Proof.
  intros Hc Hn Hl Hh. unfold acquire, zoom, spinlock_acquire.
  erewrite mbind_Ret by (apply irq_pushoff_ok; [done|lia]). munfold. cbn. rewrite Hl. cbn.
  by rewrite Hh.
Qed.
End lock_client_lemmas.

(** ** Several CPUs, one instruction at a time

    [phase] is where a CPU is inside [spinlock_acquire]/[spinlock_release]; [held]
    is the ghost set of the locks it has finished acquiring and not begun to
    release.  A CPU that finds the lock word LOCKED spins: it takes no step. *)

Module SMP.

Inductive phase :=
  | Run
  | Acq (lk : Z)    (** after [irq_pushoff] and the [Assert] *)
  | Taken (lk : Z)  (** after the successful test-and-set *)
  | Rel (lk : Z)    (** after [lk->cpu = NULL] *)
  | Unl.            (** after [__sync_lock_release], before [irq_popoff] *)

Record state := St {
  env : lockenv;
  ph : nat → phase;
  held : nat → gset Z
}.

Definition upd {A} (c : nat) (x : A) (f : nat → A) : nat → A :=
  λ c', if decide (c' = c) then x else f c'.
#[global] Arguments upd : simpl never.

Inductive step : state → state → Prop :=
  | step_push c lk s e' l :
      ph s c = Run → locks (env s) !! lk = Some l →
      spinlock_holding l c = false →
      (∀ x, cpus (env s) !! c = Some x → noff x < 2 ^ 31 - 1) →
      irq_pushoff c (env s) = Ret (tt, e') →
      step s (St e' (upd c (Acq lk) (ph s)) (held s))
  | step_test_and_set c lk s l :
      ph s c = Acq lk → locks (env s) !! lk = Some l → locked l = UNLOCKED →
      step s (St (set_lock lk (Spinlock LOCKED (lname l) (lcpu l)) (env s))
                 (upd c (Taken lk) (ph s)) (held s))
  | step_own c lk s l :
      ph s c = Taken lk → locks (env s) !! lk = Some l →
      step s (St (set_lock lk (Spinlock (locked l) (lname l) (Some c)) (env s))
                 (upd c Run (ph s)) (upd c ({[lk]} ∪ held s c) (held s)))
  | step_disown c lk s l :
      ph s c = Run → locks (env s) !! lk = Some l →
      spinlock_holding l c = true →
      step s (St (set_lock lk (Spinlock (locked l) (lname l) None) (env s))
                 (upd c (Rel lk) (ph s)) (upd c (held s c ∖ {[lk]}) (held s)))
  | step_unlock c lk s l :
      ph s c = Rel lk → locks (env s) !! lk = Some l →
      step s (St (set_lock lk (Spinlock UNLOCKED (lname l) (lcpu l)) (env s))
                 (upd c Unl (ph s)) (held s))
  | step_pop c s e' :
      ph s c = Unl → irq_popoff c (env s) = Ret (tt, e') →
      step s (St e' (upd c Run (ph s)) (held s))
  | step_intr c b s x :
      ph s c = Run → cpus (env s) !! c = Some x → noff x = 0 →
      step s (St (set_cpu c (Cpu (noff x) (intena x) b) (env s)) (ph s) (held s)).

(** Boot: every lock initialised, every CPU outside any critical section. *)
Definition initial (s : state) : Prop :=
  (∀ c, ph s c = Run) ∧ (∀ c, held s c = ∅) ∧
  (∀ lk l, locks (env s) !! lk = Some l → locked l = UNLOCKED ∧ lcpu l = None) ∧
  (∀ c x, cpus (env s) !! c = Some x → noff x = 0).

Definition owns (s : state) (c : nat) (lk : Z) : Prop :=
  lk ∈ held s c ∨ ph s c = Taken lk ∨ ph s c = Rel lk.

Definition nesting (p : phase) : Z := match p with Run => 0 | _ => 1 end.

Record inv (s : state) : Prop := Inv {
  inv_locked c lk :
    owns s c lk → ∃ l, locks (env s) !! lk = Some l ∧ locked l = LOCKED;
  inv_unique c1 c2 lk : owns s c1 lk → owns s c2 lk → c1 = c2;
  inv_owner c lk l :
    locks (env s) !! lk = Some l → lcpu l = Some c → lk ∈ held s c;
  inv_fresh c lk : ph s c = Taken lk ∨ ph s c = Rel lk → lk ∉ held s c;
  inv_nesting c x :
    cpus (env s) !! c = Some x →
    noff x = Z.of_nat (size (held s c)) + nesting (ph s c) ∧
    0 ≤ noff x < 2 ^ 31 ∧ (0 < noff x → intr x = false)
}.

Lemma upd_eq {A} c (x : A) f : upd c x f c = x.
Proof. unfold upd. by rewrite decide_True. Qed.
Lemma upd_ne {A} c c' (x : A) f : c' ≠ c → upd c x f c' = f c'.
Proof. intros. unfold upd. by rewrite decide_False. Qed.

(** Look at one CPU: is it the one that moved? *)
Ltac who c' :=
  match goal with
  | |- context [upd ?c _ _ c'] =>
      destruct (decide (c' = c)) as [->|?];
      [rewrite ?upd_eq in * | rewrite ?upd_ne in * by done]
  | _ : context [upd ?c _ _ c'] |- _ =>
      destruct (decide (c' = c)) as [->|?];
      [rewrite ?upd_eq in * | rewrite ?upd_ne in * by done]
  end.

Lemma initial_inv s : initial s → inv s.
Proof.
  intros (Hp & Hh & Hl & Hc). split.
  - intros c lk [H|[H|H]]; [rewrite Hh in H; set_solver|by rewrite Hp in H..].
  - intros c1 c2 lk [H|[H|H]]; [rewrite Hh in H; set_solver|by rewrite Hp in H..].
  - intros c lk l E ?. destruct (Hl lk l E). congruence.
  - intros c lk _. rewrite Hh. set_solver.
  - intros c x E. rewrite Hp, Hh, size_empty, (Hc c x E). cbn. lia.
Qed.

Lemma irq_pushoff_inv c e e' :
  irq_pushoff c e = Ret (tt, e') →
  ∃ x, cpus e !! c = Some x.
Proof. unfold irq_pushoff. munfold. destruct (cpus e !! c); [eauto|done]. Qed.

Lemma irq_popoff_inv c e e' :
  irq_popoff c e = Ret (tt, e') →
  ∃ x, cpus e !! c = Some x ∧ intr x = false ∧ 0 < noff x.
Proof.
  unfold irq_popoff. munfold. destruct (cpus e !! c) as [x|]; [|done]. cbn.
  destruct (intr x) eqn:?; [done|]. cbn.
  destruct (0 <? noff x) eqn:?; [|done]. intros _. zbool. eauto.
Qed.

(** A lookup in an updated CPU array or lock store: at the place or elsewhere. *)
Ltac inv_env :=
  repeat match goal with
  | H : <[_ := _]> (cpus _) !! _ = Some _ |- _ =>
      apply lookup_list_insert_cases in H as [[-> ->]|[? H]]
  | H : <[_ := _]> (locks _) !! _ = Some _ |- _ =>
      apply lookup_insert_Some in H as [[<- <-]|[? H]]
  end.

Lemma inv_push c lk s e' l :
  inv s → ph s c = Run → locks (env s) !! lk = Some l →
  spinlock_holding l c = false →
  (∀ x, cpus (env s) !! c = Some x → noff x < 2 ^ 31 - 1) →
  irq_pushoff c (env s) = Ret (tt, e') →
  inv (St e' (upd c (Acq lk) (ph s)) (held s)).
Proof.
  intros [Hl Hu Ho Hf Hn] Hp El Hh Hb E.
  destruct (irq_pushoff_inv _ _ _ E) as [x Ex].
  destruct (Hn c x Ex) as (Hx & Hr & Hi). specialize (Hb x Ex).
  rewrite (irq_pushoff_ok c (env s) x Ex) in E by lia. simplify_eq.
  assert (Hown : ∀ c' lk', owns (St (set_cpu c (enter_cpu x) (env s))
    (upd c (Acq lk) (ph s)) (held s)) c' lk' → owns s c' lk').
  { intros c' lk'. unfold owns. cbn. who c'; naive_solver. }
  split; cbn.
  - intros c' lk' H. apply Hl with c'. by apply Hown.
  - intros c1 c2 lk' H1 H2. apply Hu with lk'; by apply Hown.
  - intros c' lk' l' ? ?. by apply Ho with l'.
  - intros c' lk' H. apply Hf. who c'; naive_solver.
  - intros c' x' H. inv_env; cbn.
    + rewrite upd_eq. rewrite Hp in Hx. cbn in *. lia.
    + rewrite upd_ne by done. by apply Hn.
Qed.

Lemma inv_test_and_set c lk s l :
  inv s → ph s c = Acq lk → locks (env s) !! lk = Some l → locked l = UNLOCKED →
  inv (St (set_lock lk (Spinlock LOCKED (lname l) (lcpu l)) (env s))
          (upd c (Taken lk) (ph s)) (held s)).
Proof.
  intros [Hl Hu Ho Hf Hn] Hp El Hz.
  assert (Hno : ∀ c', ¬ owns s c' lk).
  { intros c' H. destruct (Hl c' lk H) as (l' & ? & ?). unfold LOCKED, UNLOCKED in *.
    simplify_eq. congruence. }
  assert (Hown : ∀ c' lk', owns (St (set_lock lk (Spinlock LOCKED (lname l) (lcpu l)) (env s))
    (upd c (Taken lk) (ph s)) (held s)) c' lk' → (c' = c ∧ lk' = lk) ∨ owns s c' lk').
  { intros c' lk'. unfold owns. cbn. who c'; naive_solver. }
  split; cbn.
  - intros c' lk' H. destruct (decide (lk = lk')) as [->|]; simplify_map_eq; [eauto|].
    apply Hown in H as [[-> ->]|H]; [done|]. eauto.
  - intros c1 c2 lk' H1%Hown H2%Hown.
    destruct H1 as [[-> ->]|H1], H2 as [[-> ?]|H2]; simplify_eq; eauto;
      exfalso; by eapply Hno.
  - intros c' lk' l' H1 H2. inv_env; eauto.
  - intros c' lk' H Hin. who c'.
    + destruct H as [[= ->]|?]; [|done]. apply (Hno c). by left.
    + by apply (Hf c' lk').
  - intros c' x' H. who c'; [|eauto]. specialize (Hn c x' H). rewrite Hp in Hn. done.
Qed.

Lemma inv_own c lk s l :
  inv s → ph s c = Taken lk → locks (env s) !! lk = Some l →
  inv (St (set_lock lk (Spinlock (locked l) (lname l) (Some c)) (env s))
          (upd c Run (ph s)) (upd c ({[lk]} ∪ held s c) (held s))).
Proof.
  intros [Hl Hu Ho Hf Hn] Hp El.
  set (s' := St _ _ _).
  assert (Hown : ∀ c' lk', owns s' c' lk' → owns s c' lk').
  { intros c' lk'. unfold owns, s'. cbn. who c'; set_solver. }
  split; cbn.
  - intros c' lk' H%Hown%Hl. destruct H as (l' & H & ?).
    destruct (decide (lk = lk')) as [->|]; simplify_map_eq; eauto.
  - intros c1 c2 lk' H1%Hown H2%Hown. eauto.
  - intros c' lk' l' H1 H2. inv_env; cbn in *; simplify_eq.
    + rewrite upd_eq. set_solver.
    + who c'; [|eauto]. apply elem_of_union_r. eauto.
  - intros c' lk' H. who c'; [naive_solver|]. by apply Hf.
  - intros c' x' H. who c'; [|eauto]. destruct (Hn c x' H) as (Hx & ? & ?).
    rewrite size_union, size_singleton by (specialize (Hf c lk); set_solver).
    rewrite Hp in Hx. cbn in *. naive_solver lia.
Qed.

Lemma inv_disown c lk s l :
  inv s → ph s c = Run → locks (env s) !! lk = Some l →
  spinlock_holding l c = true →
  inv (St (set_lock lk (Spinlock (locked l) (lname l) None) (env s))
          (upd c (Rel lk) (ph s)) (upd c (held s c ∖ {[lk]}) (held s))).
Proof.
  intros [Hl Hu Ho Hf Hn] Hp El Hh.
  apply andb_prop in Hh as [_ Hh]. apply bool_decide_eq_true in Hh.
  pose proof (Ho c lk l El Hh) as Hin.
  set (s' := St _ _ _).
  assert (Hown : ∀ c' lk', owns s' c' lk' → owns s c' lk').
  { intros c' lk'. unfold owns, s'. cbn. who c'; [|done].
    intros [?|[?|?]]; [set_solver|done|]. simplify_eq. by left. }
  split; cbn.
  - intros c' lk' H%Hown%Hl. destruct H as (l' & H & ?).
    destruct (decide (lk = lk')) as [->|]; simplify_map_eq; eauto.
  - intros c1 c2 lk' H1%Hown H2%Hown. eauto.
  - intros c' lk' l' H1 H2. inv_env; cbn in *; simplify_eq.
    who c'; [|eauto]. apply elem_of_difference. split; [eauto|set_solver].
  - intros c' lk' H. who c'; [set_solver|]. by apply Hf.
  - intros c' x' H. who c'; [|eauto]. destruct (Hn c x' H) as (Hx & ? & ?).
    assert (Hs : size (held s c) = S (size (held s c ∖ {[lk]}))).
    { rewrite (union_difference_singleton_L lk (held s c)) at 1 by done.
      rewrite size_union, size_singleton by set_solver. lia. }
    rewrite Hp in Hx. cbn in *. naive_solver lia.
Qed.

Lemma inv_unlock c lk s l :
  inv s → ph s c = Rel lk → locks (env s) !! lk = Some l →
  inv (St (set_lock lk (Spinlock UNLOCKED (lname l) (lcpu l)) (env s))
          (upd c Unl (ph s)) (held s)).
Proof.
  intros [Hl Hu Ho Hf Hn] Hp El.
  set (s' := St _ _ _).
  assert (Hown : ∀ c' lk', owns s' c' lk' → owns s c' lk' ∧ lk' ≠ lk).
  { intros c' lk' H. assert (owns s c' lk').
    { revert H. unfold owns, s'. cbn. who c'; naive_solver. }
    split; [done|]. intros ->. assert (c' = c) as ->.
    { eapply Hu; [done|]. right. by right. }
    assert (lk ∉ held s c) by (apply Hf; by right).
    destruct H as [H|H]; [done|]. cbn in H. rewrite upd_eq in H. naive_solver. }
  split; cbn.
  - intros c' lk' [H%Hl ?]%Hown. destruct H as (l' & H & ?). simplify_map_eq. eauto.
  - intros c1 c2 lk' [H1 _]%Hown [H2 _]%Hown. eauto.
  - intros c' lk' l' H1 H2. inv_env; eauto.
  - intros c' lk' H. who c'; [naive_solver|]. by apply Hf.
  - intros c' x' H. who c'; [|eauto]. specialize (Hn c x' H). rewrite Hp in Hn. done.
Qed.

Lemma inv_pop c s e' :
  inv s → ph s c = Unl → irq_popoff c (env s) = Ret (tt, e') →
  inv (St e' (upd c Run (ph s)) (held s)).
Proof.
  intros [Hl Hu Ho Hf Hn] Hp E.
  destruct (irq_popoff_inv _ _ _ E) as (x & Ex & Hi & H0).
  destruct (Hn c x Ex) as (Hx & Hr & _).
  rewrite (irq_popoff_ok c (env s) x) in E by (done || lia). simplify_eq.
  set (s' := St _ _ _).
  assert (Hown : ∀ c' lk', owns s' c' lk' → owns s c' lk').
  { intros c' lk'. unfold owns, s'. cbn. who c'; naive_solver. }
  split; cbn.
  - intros c' lk' H. apply Hl with c'. by apply Hown.
  - intros c1 c2 lk' H1 H2. apply Hu with lk'; by apply Hown.
  - intros c' lk' l' ? ?. by apply Ho with l'.
  - intros c' lk' H. apply Hf. who c'; naive_solver.
  - intros c' x' H. inv_env; cbn.
    + rewrite upd_eq. rewrite Hp in Hx. cbn in *.
      split; [lia|]. split; [lia|]. intros ?.
      by rewrite (proj2 (Z.eqb_neq _ _)) by lia.
    + rewrite upd_ne by done. by apply Hn.
Qed.

Lemma inv_intr c b s x :
  inv s → ph s c = Run → cpus (env s) !! c = Some x → noff x = 0 →
  inv (St (set_cpu c (Cpu (noff x) (intena x) b) (env s)) (ph s) (held s)).
Proof.
  intros [Hl Hu Ho Hf Hn] Hp Ex H0. split; cbn; [done..|].
  - intros c' x' H. inv_env; cbn; [|eauto].
    specialize (Hn c x Ex). split; [apply Hn|]. lia.
Qed.

Lemma step_inv s s' : step s s' → inv s → inv s'.
Proof.
  destruct 1; intros ?;
    eauto using inv_push, inv_test_and_set, inv_own, inv_disown, inv_unlock,
      inv_pop, inv_intr.
Qed.

Lemma reachable_inv s s' : initial s → rtc step s s' → inv s'.
Proof.
  intros Hi H. apply initial_inv in Hi. induction H; eauto using step_inv.
Qed.

(** C5: In every state that several CPUs can reach by executing the
    instructions of [spinlock_acquire] and [spinlock_release] in any
    interleaving, two CPUs that have both finished acquiring the same lock are
    the same CPU, and a CPU inside a critical section runs with interrupts off. *)
Theorem mutual_exclusion s0 s c1 c2 lk :
  initial s0 → rtc step s0 s → lk ∈ held s c1 → lk ∈ held s c2 →
  c1 = c2 ∧ ∀ x, cpus (env s) !! c1 = Some x → intr x = false.
Proof.
  intros Hi Hr H1 H2. pose proof (reachable_inv _ _ Hi Hr) as [_ Hu _ _ Hn].
  split; [by apply (Hu c1 c2 lk); left|].
  intros x Hx. destruct (Hn c1 x Hx) as (E & _ & Hoff). apply Hoff.
  assert (size (held s c1) ≠ 0%nat) by (intros ?%size_empty_inv; set_solver).
  destruct (ph s c1); cbn in E; lia.
Qed.

Definition boot : state :=
  St (LockEnv [Cpu 0 false true; Cpu 0 false true] {[1 := Spinlock UNLOCKED "l" None]})
     (λ _, Run) (λ _, ∅).

Lemma mutual_exclusion_witness :
  ∃ s, rtc step boot s ∧ 1 ∈ held s 0%nat ∧
       0%nat = 0%nat ∧ ∀ x, cpus (env s) !! 0%nat = Some x → intr x = false.
Proof.
  eexists. assert (initial boot) as Hb.
  { split; [done|]. split; [done|]. split.
    - intros lk l. cbn. intros [<- <-]%lookup_singleton_Some. done.
    - intros [|[|c]] x [= <-]; done. }
  eassert (rtc step boot _) as Hr.
  { eapply rtc_l. { eapply (step_push 0 1); [reflexivity..|by intros x [= <-]|].
      eapply irq_pushoff_ok; [reflexivity|done]. }
    eapply rtc_l. { eapply (step_test_and_set 0 1); reflexivity. }
    eapply rtc_l. { eapply (step_own 0 1); reflexivity. }
    apply rtc_refl. }
  split; [exact Hr|].
  eassert (Hin : 1 ∈ held _ 0%nat); [|split; [exact Hin|]].
  { cbn [held]. rewrite upd_eq. set_solver. }
  exact (mutual_exclusion _ _ 0 0 1 Hb Hr Hin Hin).
Defined.

End SMP.

(** ** Critical sections on one CPU *)

Section critical_sections.
Context {S : Type} `{HasLocks S}.

(** A lock that nobody holds can be acquired; releasing it again gives back
    the lock store and the interrupt nesting as they were (the first push only
    records the interrupt state in [intena]), so the lock is free again. *)
Theorem acquire_release lk s :
  lock_free lk s →
  ∃ s', (acquire lk;; release lk) s = Ret (tt, s') ∧
        s' = lset lock_lens (touched (lget lock_lens s)) s ∧ lock_free lk s'.
Proof.
  intros Hf. eexists. split; [|split; [reflexivity|by apply lock_free_lset]].
  erewrite mbind_Ret by (by apply acquire_ok).
  rewrite (release_ok lk s) by (done || by rewrite lens_get_set).
  by rewrite lens_set_set.
Qed.
End critical_sections.

(** The lock environment alone is the smallest state with locks. *)
#[export] Instance lockenv_lens_lawful : LawfulLens (Lens id (λ e (_ : lockenv), e)).
Proof. split; done. Qed.
#[export] Instance lockenv_HasLocks : HasLocks lockenv :=
  {| lock_lens := Lens id (λ e _, e) |}.

(** The boot state of the uniprocessor build with one lock at address 1. *)
Definition one_lock : lockenv :=
  LockEnv [Cpu 0 false true] {[1 := Spinlock UNLOCKED "l" None]}.

Lemma one_lock_free : lock_free 1 one_lock.
Proof.
  split; [|by eexists]. exists (Cpu 0 false true). split; [done|]. cbn. lia.
Qed.

Lemma acquire_release_witness :
  lock_free 1 one_lock ∧
  ∃ s', (acquire 1;; release 1) one_lock = Ret (tt, s') ∧
        s' = touched one_lock ∧ lock_free 1 s'.
Proof.
  split; [apply one_lock_free|]. exact (acquire_release 1 one_lock one_lock_free).
Defined.
