(* ===== verification/Irq.v ===== *)
(** * Interrupt numbers, their handlers and the interrupt controller

    Models the table of [kernel/irq/interrupt.c] ([irq_register], [irq_free], [irq_response])
    and the driver of the RISC-V controller ([kernel/arch/riscv/drivers/plic.c] through the
    macros of [drivers/intc.h]).  A handler is known by its address; the class [IrqState] says
    how a system calls it. *)

From S2P Require Export Prelude.

(** ** Data *)

Definition MAX_NR_IRQ : Z := 256.
Definition DEFAULT_HART : Z := 0.
Definition DEFAULT_PRI : Z := 2.
Definition IRQ_HANDLED : Z := 0.
Definition IRQ_SKIP : Z := 1.
Definition IRQ_ERR : Z := 2.

(** [irq_handlers] and [irq_privates]; NULL is 0. *)
Record irqtab := IrqTab {
  irq_handlers : list Z;
  irq_privates : list Z
}.

(** The controller: its registers by address, what it answers to the next reads of the claim
    register, the log of the reads and writes of that register, and the register [sie] of the
    hart. *)
Inductive plic_event := Claim (irq : Z) | Complete (irq : Z).

Record plic := Plic {
  plic_regs : gmap Z Z;
  plic_claims : list Z;
  plic_log : list plic_event;
  sie : Z
}.

#[export] Instance plic_event_eq_dec : EqDecision plic_event.
Proof. solve_decision. Defined.
#[export] Instance irqtab_eq_dec : EqDecision irqtab.
Proof. solve_decision. Defined.
#[export] Instance plic_eq_dec : EqDecision plic.
Proof. solve_decision. Defined.

(** ** The controller ([plic.c]) *)

Definition VIRT_PLIC : Z := 0xc000000.
Definition PLIC_ENABLE_S_MODE : Z := VIRT_PLIC + 0x80 + 0x2000.
Definition PLIC_THRESHOLD_S_MODE : Z := VIRT_PLIC + 0x1000 + 0x200000.
Definition PLIC_PRIORITY : Z := VIRT_PLIC + 0x0.

Definition reg_read (a : Z) : M plic Z := gets (λ p, default 0 (plic_regs p !! a)).
Definition reg_write (a v : Z) : M plic unit :=
  modify (λ p, Plic (<[a := u32 v]> (plic_regs p)) (plic_claims p) (plic_log p) (sie p)).

(** [1 << irq] of an [int]; a shift by 32 or more is undefined. *)
Definition irq_bit (irq : Z) : M plic Z :=
  if (0 <=? irq) && (irq <? 32) then mret (u32 (Z.shiftl 1 irq)) else mfault.

Definition ENABLE_IRQ (hart irq : Z) : M plic unit :=
  b ← irq_bit irq;
  v ← reg_read (PLIC_ENABLE_S_MODE + 4 * hart);
  reg_write (PLIC_ENABLE_S_MODE + 4 * hart) (Z.lor v b).
Definition DISABLE_IRQ (hart irq : Z) : M plic unit :=
  b ← irq_bit irq;
  v ← reg_read (PLIC_ENABLE_S_MODE + 4 * hart);
  reg_write (PLIC_ENABLE_S_MODE + 4 * hart) (Z.land v (Z.lnot b)).
Definition SET_IRQ_PRIORITY (irq priority : Z) : M plic unit :=
  reg_write (PLIC_PRIORITY + 4 * irq) priority.
Definition SET_THRESHOLD (hart threshold : Z) : M plic unit :=
  reg_write (PLIC_THRESHOLD_S_MODE + 4 * hart) threshold.

Definition plic_enable_irq (hart irq priority : Z) : M plic unit :=
  ENABLE_IRQ hart irq;;
  SET_IRQ_PRIORITY irq priority.

Definition plic_disable_irq (hart irq : Z) : M plic unit :=
  SET_IRQ_PRIORITY irq 0;;
  DISABLE_IRQ hart irq.

(** The read of the claim register, 0 when nothing is pending. *)
Definition plic_claim_irq (hart : Z) : M plic Z := λ p,
  match plic_claims p with
  | irq :: l => Ret (i32 irq, Plic (plic_regs p) l (plic_log p ++ [Claim (i32 irq)]) (sie p))
  | [] => Ret (0, Plic (plic_regs p) [] (plic_log p ++ [Claim 0]) (sie p))
  end.

Definition plic_complete_irq (hart irq : Z) : M plic unit :=
  modify (λ p, Plic (plic_regs p) (plic_claims p) (plic_log p ++ [Complete irq]) (sie p)).

Definition plic_init_hart (hart : Z) : M plic unit := SET_THRESHOLD hart 0.

(** ** The table ([interrupt.c]) *)

(** A system with interrupts: where the table and the controller are, and the call of a
    handler with the number of the interrupt and its data. *)
Class IrqState (S : Type) := {
  irq_tab : lens S irqtab;
  irq_plic : lens S plic;
  #[global] irq_tab_lawful :: LawfulLens irq_tab;
  #[global] irq_plic_lawful :: LawfulLens irq_plic;
  #[global] irq_tab_plic :: Indep irq_tab irq_plic;
  call_isr : Z → Z → Z → M S Z
}.

Section irq.
Context {S : Type} `{IrqState S}.

Definition irq_handler (irq : Z) : M S Z :=
  t ← gets (lget irq_tab); mlift (znth (irq_handlers t) irq).
Definition irq_private (irq : Z) : M S Z :=
  t ← gets (lget irq_tab); mlift (znth (irq_privates t) irq).
Definition set_irq (irq handler data : Z) : M S unit :=
  t ← gets (lget irq_tab);
  h ← mlift (zset (irq_handlers t) irq handler);
  p ← mlift (zset (irq_privates t) irq data);
  modify (lset irq_tab (IrqTab h p)).

Definition irq_register (irq handler data : Z) : M S Z :=
  bad ← (if MAX_NR_IRQ <=? irq then mret true else h ← irq_handler irq; mret (ctrue h));
  if (bad : bool) then mret (-1)
  else
    set_irq irq handler data;;
    zoom irq_plic (plic_enable_irq DEFAULT_HART irq DEFAULT_PRI);;
    mret 0.

Definition irq_free (irq : Z) : M S unit :=
  zoom irq_plic (plic_disable_irq DEFAULT_HART irq);;
  set_irq irq 0 0.

Definition irq_response : M S unit :=
  irq ← zoom irq_plic (plic_claim_irq DEFAULT_HART);
  if irq =? 0 then mret tt
  else
    bad ← (if MAX_NR_IRQ <=? irq then mret true else h ← irq_handler irq; mret (negb (ctrue h)));
    (if (bad : bool) then mret tt
     else
       h ← irq_handler irq;
       data ← irq_private irq;
       ret ← call_isr h irq data;
       mwhen (ret =? IRQ_ERR) mpanic);;
    zoom irq_plic (plic_complete_irq DEFAULT_HART irq).

(** [__irq_init_default] of [drivers/intc.h]. *)
Definition SIE_SSIE : Z := Z.shiftl 1 1.
Definition SIE_SEIE : Z := Z.shiftl 1 9.
Definition irq_init : M S unit :=
  zoom irq_plic (plic_init_hart DEFAULT_HART);;
  zoom irq_plic (modify (λ p, Plic (plic_regs p) (plic_claims p) (plic_log p)
    (Z.lor (Z.lor (sie p) SIE_SSIE) SIE_SEIE))).
End irq.

(** ** The table as a partial map *)

Definition tab_ok (t : irqtab) : Prop :=
  zlen (irq_handlers t) = MAX_NR_IRQ ∧ zlen (irq_privates t) = MAX_NR_IRQ.

Definition handler_of (t : irqtab) (irq : Z) : option (Z * Z) :=
  match znth (irq_handlers t) irq, znth (irq_privates t) irq with
  | Some h, Some d => if h =? 0 then None else Some (h, d)
  | _, _ => None
  end.

(** The interrupt enable bit of a source. *)
Definition irq_enabled (p : plic) (irq : Z) : bool :=
  Z.testbit (default 0 (plic_regs p !! PLIC_ENABLE_S_MODE)) irq.

Section irq_lemmas.
Context {S : Type} `{IrqState S}.

Lemma tab_lookup t irq :
  tab_ok t → 0 ≤ irq < MAX_NR_IRQ →
  ∃ h d, znth (irq_handlers t) irq = Some h ∧ znth (irq_privates t) irq = Some d ∧
    handler_of t irq = if h =? 0 then None else Some (h, d).
Proof.
  intros [Hh Hp] Hi. destruct (znth_lt (irq_handlers t) irq) as [h Eh]; [lia|].
  destruct (znth_lt (irq_privates t) irq) as [d Ed]; [lia|].
  exists h, d. split_and!; [done..|]. unfold handler_of. by rewrite Eh, Ed.
Qed.

(** The entry of [irq] replaced. *)
Definition tab_set (t : irqtab) (irq h d : Z) : irqtab :=
  IrqTab (<[Z.to_nat irq := h]> (irq_handlers t)) (<[Z.to_nat irq := d]> (irq_privates t)).

Lemma tab_set_ok t irq h d : tab_ok t → tab_ok (tab_set t irq h d).
Proof. unfold tab_ok, tab_set, zlen. cbn. by rewrite !length_insert. Qed.

Lemma handler_of_tab_set t irq h d j :
  tab_ok t → 0 ≤ irq < MAX_NR_IRQ →
  handler_of (tab_set t irq h d) j =
    if decide (j = irq) then (if h =? 0 then None else Some (h, d)) else handler_of t j.
Proof.
  intros [Hh Hp] Hi. unfold handler_of, tab_set, znth, zlen, MAX_NR_IRQ in *. cbn.
  destruct (decide (j = irq)) as [->|Hj].
  - rewrite !decide_True by lia. by rewrite !list_lookup_insert_eq by lia.
  - destruct (decide (0 ≤ j)); [|done]. by rewrite !list_lookup_insert_ne by lia.
Qed.

Lemma set_irq_ok s t irq h d :
  lget irq_tab s = t → tab_ok t → 0 ≤ irq < MAX_NR_IRQ →
  set_irq irq h d s = Ret (tt, lset irq_tab (tab_set t irq h d) s).
Proof.
  intros Ht [Hh Hp] Hi. unfold set_irq, zset. munfold. rewrite Ht.
  rewrite decide_True by lia. cbn. rewrite decide_True by lia. done.
Qed.

(** ** The controller's enable bits *)

Lemma irq_bit_ok irq p : 0 ≤ irq < 32 → irq_bit irq p = Ret (u32 (Z.shiftl 1 irq), p).
Proof.
  intros. unfold irq_bit. by rewrite (proj2 (Z.leb_le 0 irq)), (proj2 (Z.ltb_lt irq 32)) by lia.
Qed.

Lemma irq_bit_testbit irq j :
  0 ≤ irq < 32 → 0 ≤ j < 32 → Z.testbit (u32 (Z.shiftl 1 irq)) j = (j =? irq).
Proof.
  intros. unfold u32. rewrite Z.mod_pow2_bits_low by lia.
  rewrite Z.shiftl_1_l, Z.pow2_bits_eqb by lia. apply Z.eqb_sym.
Qed.

(** The registers after enabling and after disabling a source. *)
Definition enabled_regs (irq priority : Z) (r : gmap Z Z) : gmap Z Z :=
  <[PLIC_PRIORITY + 4 * irq := u32 priority]>
    (<[PLIC_ENABLE_S_MODE := u32 (Z.lor (default 0 (r !! PLIC_ENABLE_S_MODE))
                                   (u32 (Z.shiftl 1 irq)))]> r).
Definition disabled_regs (irq : Z) (r : gmap Z Z) : gmap Z Z :=
  let r := <[PLIC_PRIORITY + 4 * irq := 0]> r in
  <[PLIC_ENABLE_S_MODE := u32 (Z.land (default 0 (r !! PLIC_ENABLE_S_MODE))
                                 (Z.lnot (u32 (Z.shiftl 1 irq))))]> r.
Definition with_regs (r : gmap Z Z) (p : plic) : plic :=
  Plic r (plic_claims p) (plic_log p) (sie p).

Lemma plic_enable_run irq v p :
  0 ≤ irq < 32 →
  plic_enable_irq 0 irq v p = Ret (tt, with_regs (enabled_regs irq v (plic_regs p)) p).
Proof.
  intros. unfold plic_enable_irq, ENABLE_IRQ. munfold. by rewrite irq_bit_ok.
Qed.

Lemma plic_disable_run irq p :
  0 ≤ irq < 32 →
  plic_disable_irq 0 irq p = Ret (tt, with_regs (disabled_regs irq (plic_regs p)) p).
Proof.
  intros. unfold plic_disable_irq, DISABLE_IRQ. munfold. cbn. by rewrite irq_bit_ok.
Qed.

Lemma priority_ne irq : 0 ≤ irq < 32 → PLIC_PRIORITY + 4 * irq ≠ PLIC_ENABLE_S_MODE.
Proof. unfold PLIC_PRIORITY, PLIC_ENABLE_S_MODE, VIRT_PLIC. lia. Qed.

Lemma irq_enabled_enable irq v p j :
  0 ≤ irq < 32 → 0 ≤ j < 32 →
  irq_enabled (with_regs (enabled_regs irq v (plic_regs p)) p) j =
    (j =? irq) || irq_enabled p j.
Proof.
  intros. unfold irq_enabled, with_regs, enabled_regs. cbn [plic_regs].
  rewrite lookup_insert_ne by (by apply priority_ne). rewrite lookup_insert_eq. cbn.
  unfold u32 at 1. rewrite Z.mod_pow2_bits_low by lia.
  by rewrite Z.lor_spec, irq_bit_testbit, orb_comm by done.
Qed.

Lemma irq_enabled_disable irq p j :
  0 ≤ irq < 32 → 0 ≤ j < 32 →
  irq_enabled (with_regs (disabled_regs irq (plic_regs p)) p) j =
    negb (j =? irq) && irq_enabled p j.
Proof.
  intros. unfold irq_enabled, with_regs, disabled_regs. cbn [plic_regs].
  rewrite lookup_insert_eq. cbn. unfold u32 at 1. rewrite Z.mod_pow2_bits_low by lia.
  rewrite Z.land_spec, Z.lnot_spec, irq_bit_testbit by lia.
  rewrite lookup_insert_ne by (by apply priority_ne). apply andb_comm.
Qed.

(** The table of interrupt handlers is a partial map.  For a source the controller's
    first enable word holds (below 32), [irq_register] of a free number installs the handler
    with its data, enables exactly that source with priority 2 and returns 0; of a taken
    number it returns -1 and changes nothing; [irq_free] removes the entry and disables
    exactly that source.  A number of 256 or more is refused. *)
Theorem irq_table_refines s t p irq h d :
  lget irq_tab s = t → lget irq_plic s = p → tab_ok t → 0 ≤ irq → h ≠ 0 →
  (MAX_NR_IRQ ≤ irq → irq_register irq h d s = Ret (-1, s)) ∧
  (irq < 32 →
   match handler_of t irq with
   | Some _ => irq_register irq h d s = Ret (-1, s)
   | None => ∃ s', irq_register irq h d s = Ret (0, s') ∧ tab_ok (lget irq_tab s') ∧
       (∀ j, handler_of (lget irq_tab s') j =
          if decide (j = irq) then Some (h, d) else handler_of t j) ∧
       (∀ j, 0 ≤ j < 32 → irq_enabled (lget irq_plic s') j = (j =? irq) || irq_enabled p j) ∧
       plic_regs (lget irq_plic s') !! (PLIC_PRIORITY + 4 * irq) = Some DEFAULT_PRI
   end ∧
   ∃ s', irq_free irq s = Ret (tt, s') ∧ tab_ok (lget irq_tab s') ∧
     (∀ j, handler_of (lget irq_tab s') j =
        if decide (j = irq) then None else handler_of t j) ∧
     (∀ j, 0 ≤ j < 32 →
        irq_enabled (lget irq_plic s') j = negb (j =? irq) && irq_enabled p j)).
Proof.
  intros Ht Hp Hok H0 Hh. split; [|intros Hi; split].
  - intros Hi. unfold irq_register. munfold. by rewrite (proj2 (Z.leb_le _ _)) by lia.
  - assert (0 ≤ irq < MAX_NR_IRQ) as Hir by (unfold MAX_NR_IRQ; lia).
    destruct (tab_lookup t irq Hok Hir) as (h0 & d0 & E1 & E2 & Eh). rewrite Eh.
    assert (irq_handler irq s = Ret (h0, s)) as El.
    { unfold irq_handler. munfold. by rewrite Ht, E1. }
    unfold irq_register. rewrite (proj2 (Z.leb_gt _ _)) by lia.
    unfold ctrue. destruct (Z.eqb_spec h0 0) as [->|Hne].
    + erewrite mbind_Ret by (erewrite mbind_Ret by exact El; reflexivity). cbn [Z.eqb negb].
      erewrite mbind_Ret by (by eapply set_irq_ok).
      erewrite mbind_Ret by (unfold zoom;
        rewrite (indep_r irq_tab irq_plic), plic_enable_run by done; reflexivity).
      eexists. split; [reflexivity|]. rewrite (indep_l irq_tab irq_plic), !lens_get_set, Hp. split_and!.
      * by apply tab_set_ok.
      * intros j. rewrite handler_of_tab_set by done. by rewrite (proj2 (Z.eqb_neq h 0)).
      * intros j Hj. by apply irq_enabled_enable.
      * unfold with_regs, enabled_regs. cbn. by rewrite lookup_insert_eq.
    + erewrite mbind_Ret by (erewrite mbind_Ret by exact El; reflexivity).
      by rewrite (proj2 (Z.eqb_neq _ _)).
  - unfold irq_free.
    erewrite mbind_Ret by (unfold zoom; rewrite Hp, plic_disable_run by done; reflexivity).
    assert (0 ≤ irq < MAX_NR_IRQ) as Hir by (unfold MAX_NR_IRQ; lia).
    eexists. split; [eapply set_irq_ok; [by rewrite (indep_l irq_tab irq_plic)|done..]|].
    rewrite (indep_r irq_tab irq_plic), !lens_get_set. split_and!.
    + by apply tab_set_ok.
    + intros j. by rewrite handler_of_tab_set.
    + intros j Hj. by apply irq_enabled_disable.
Qed.
End irq_lemmas.

(** ** Serving interrupts *)

Section serving.
Context {S : Type} `{IrqState S}.

(** The state after the claim register answered [irq]. *)
Definition claimed (irq : Z) (s : S) : S :=
  let p := lget irq_plic s in
  lset irq_plic (Plic (plic_regs p) (tail (plic_claims p)) (plic_log p ++ [Claim irq]) (sie p)) s.
Definition completed (irq : Z) (s : S) : S :=
  let p := lget irq_plic s in
  lset irq_plic (Plic (plic_regs p) (plic_claims p) (plic_log p ++ [Complete irq]) (sie p)) s.

(** What the next read of the claim register gives. *)
Definition next_claim (s : S) : Z := default 0 (head (plic_claims (lget irq_plic s))).

Lemma irq_claim_run s :
  0 ≤ next_claim s < 2 ^ 31 →
  zoom irq_plic (plic_claim_irq DEFAULT_HART) s = Ret (next_claim s, claimed (next_claim s) s).
Proof.
  unfold zoom, plic_claim_irq, claimed, next_claim. intros Hc.
  destruct (plic_claims (lget irq_plic s)) as [|c l]; [done|]. cbn in *.
  by rewrite i32_small by lia.
Qed.

(** [irq_response] on each of its branches. *)
Lemma irq_response_run s irq :
  next_claim s = irq → 0 ≤ irq < 2 ^ 31 → tab_ok (lget irq_tab s) →
  irq_response s =
    if irq =? 0 then Ret (tt, claimed 0 s)
    else match handler_of (lget irq_tab s) irq with
         | None => Ret (tt, completed irq (claimed irq s))
         | Some (h, d) =>
             match call_isr h irq d (claimed irq s) with
             | Ret (r, s') => if r =? IRQ_ERR then Panic else Ret (tt, completed irq s')
             | Panic => Panic
             | Fault => Fault
             | Spin => Spin
             end
         end.
Proof.
  intros Hn Hi Hok. unfold irq_response.
  erewrite mbind_Ret by (apply irq_claim_run; lia). rewrite Hn.
  destruct (Z.eqb_spec irq 0) as [->|H0]; [done|].
  assert (∀ s, zoom irq_plic (plic_complete_irq DEFAULT_HART irq) s = Ret (tt, completed irq s))
    as Hput by done.
  assert (lget irq_tab (claimed irq s) = lget irq_tab s) as Ht by apply (indep_l irq_tab irq_plic).
  assert (∀ j x, znth (irq_handlers (lget irq_tab s)) j = Some x →
    irq_handler j (claimed irq s) = Ret (x, claimed irq s)) as Hhd.
  { intros j x E. unfold irq_handler. munfold. by rewrite Ht, E. }
  assert (∀ j x, znth (irq_privates (lget irq_tab s)) j = Some x →
    irq_private j (claimed irq s) = Ret (x, claimed irq s)) as Hpr.
  { intros j x E. unfold irq_private. munfold. by rewrite Ht, E. }
  destruct (Z.leb_spec MAX_NR_IRQ irq) as [Hlarge|Hsmall].
  - erewrite mbind_Ret by reflexivity. erewrite mbind_Ret by reflexivity. rewrite Hput.
    unfold handler_of, znth. case_decide; [|done]. rewrite lookup_ge_None_2; [done|].
    destruct Hok as [Hok _]. unfold zlen in Hok. lia.
  - destruct (tab_lookup (lget irq_tab s) irq Hok ltac:(lia)) as (h & d & Eh & Ed & Eo).
    rewrite Eo. erewrite mbind_Ret by (erewrite mbind_Ret by (by apply Hhd); reflexivity).
    unfold ctrue. rewrite negb_involutive. destruct (h =? 0).
    + erewrite mbind_Ret by reflexivity. apply Hput.
    + munfold. rewrite (Hhd _ _ Eh), (Hpr _ _ Ed).
      destruct (call_isr h irq d (claimed irq s)) as [[r s']| | |]; try done.
      by destruct (r =? IRQ_ERR).
Qed.

(** A run of interrupts, one after the other. *)
Fixpoint serve (n : nat) : M S unit :=
  match n with O => mret tt | Datatypes.S n => irq_response;; serve n end.

(** What one interrupt leaves in the log of the claim register. *)
Definition served (irq : Z) : list plic_event :=
  if irq =? 0 then [Claim 0] else [Claim irq; Complete irq].

(** Claiming and completing come in pairs.  While the handlers return anything but
    [IRQ_ERR] and leave the controller's claim register alone, any number of interrupts,
    from registered sources or not, is served without a panic, and the accesses to the claim
    register are: for each interrupt in the order of the claims, one read and, unless it gave
    0, one write of the same number before the next read. *)
Theorem irq_claims_paired n s :
  (∀ h irq d s, tab_ok (lget irq_tab s) →
     ∃ r s', call_isr h irq d s = Ret (r, s') ∧ r ≠ IRQ_ERR ∧ tab_ok (lget irq_tab s') ∧
       plic_log (lget irq_plic s') = plic_log (lget irq_plic s) ∧
       plic_claims (lget irq_plic s') = plic_claims (lget irq_plic s)) →
  tab_ok (lget irq_tab s) →
  Forall (λ c, 0 ≤ c < 2 ^ 31) (plic_claims (lget irq_plic s)) →
  ∃ s', serve n s = Ret (tt, s') ∧ tab_ok (lget irq_tab s') ∧
    plic_log (lget irq_plic s') = plic_log (lget irq_plic s) ++
      concat (served <$> take n (plic_claims (lget irq_plic s) ++ replicate n 0)).
Proof.
  intros Hisr. revert s. induction n as [|n IH]; intros s Hok Hc.
  { exists s. by rewrite app_nil_r. }
  assert (∃ s1, irq_response s = Ret (tt, s1) ∧ tab_ok (lget irq_tab s1) ∧
    plic_log (lget irq_plic s1) = plic_log (lget irq_plic s) ++ served (next_claim s) ∧
    plic_claims (lget irq_plic s1) = tail (plic_claims (lget irq_plic s)))
    as (s1 & E & Hok1 & Hl1 & Hc1).
  { assert (0 ≤ next_claim s < 2 ^ 31) as Hr.
    { unfold next_claim. destruct Hc; cbn; lia. }
    rewrite (irq_response_run s _ eq_refl Hr Hok). unfold served.
    destruct (Z.eqb_spec (next_claim s) 0) as [E0|_].
    { eexists. split; [done|]. unfold claimed.
      by rewrite (indep_l irq_tab irq_plic), lens_get_set. }
    destruct (handler_of _ _) as [[h d]|].
    - destruct (Hisr h (next_claim s) d (claimed (next_claim s) s))
        as (r & s2 & -> & Hr2 & Hok2 & Hl2 & Hc2); [unfold claimed; by rewrite (indep_l irq_tab irq_plic)|].
      rewrite (proj2 (Z.eqb_neq _ _)) by done. eexists. split; [done|].
      unfold completed. rewrite (indep_l irq_tab irq_plic), lens_get_set. cbn. rewrite Hl2, Hc2.
      unfold claimed. rewrite lens_get_set. cbn. by rewrite <- app_assoc.
    - eexists. split; [done|]. unfold completed, claimed.
      rewrite !(indep_l irq_tab irq_plic), !lens_get_set. cbn. by rewrite <- app_assoc. }
  destruct (IH s1 Hok1) as (s' & E' & Hok' & Hl'); [rewrite Hc1; by destruct Hc|].
  exists s'. cbn [serve]. erewrite mbind_Ret by done. split_and!; [done..|].
  rewrite Hl', Hl1, Hc1, <- app_assoc. f_equal. unfold next_claim.
  destruct (plic_claims (lget irq_plic s)) as [|c l]; cbn [tail head default app].
  - done.
  - cbn [take fmap list_fmap concat replicate]. do 2 f_equal.
    replace (l ++ 0 :: replicate n 0) with ((l ++ replicate n 0) ++ [0]).
    { rewrite (take_app_le (l ++ replicate n 0)); [done|].
      rewrite length_app, length_replicate. lia. }
    by rewrite <- app_assoc, <- replicate_cons_app.
Qed.
End serving.

(** ** A concrete system: the handlers record their calls *)

Record isys := ISys { i_tab : irqtab; i_plic : plic; i_calls : list (Z * Z * Z) }.

#[export] Instance isys_tab_lawful :
  LawfulLens (Lens i_tab (λ t s, ISys t (i_plic s) (i_calls s))).
Proof. split; by intros; destruct s || done. Qed.
#[export] Instance isys_plic_lawful :
  LawfulLens (Lens i_plic (λ p s, ISys (i_tab s) p (i_calls s))).
Proof. split; by intros; destruct s || done. Qed.
#[export] Instance isys_indep :
  Indep (Lens i_tab (λ t s, ISys t (i_plic s) (i_calls s)))
        (Lens i_plic (λ p s, ISys (i_tab s) p (i_calls s))).
Proof. by split. Qed.
#[export] Instance isys_irq : IrqState isys := {|
  irq_tab := Lens i_tab (λ t s, ISys t (i_plic s) (i_calls s));
  irq_plic := Lens i_plic (λ p s, ISys (i_tab s) p (i_calls s));
    call_isr := λ h irq d s,
    Ret (IRQ_HANDLED, ISys (i_tab s) (i_plic s) (i_calls s ++ [(h, irq, d)]))
|}.

Definition empty_tab : irqtab := IrqTab (replicate 256 0) (replicate 256 0).
Definition demo_isys (claims : list Z) : isys := ISys empty_tab (Plic ∅ claims [] 0) [].

Lemma irq_table_refines_witness :
  ∃ s', irq_register 10 0x80001000 0x80002000 (demo_isys []) = Ret (0, s') ∧
    handler_of (i_tab s') 10 = Some (0x80001000, 0x80002000) ∧
    irq_enabled (i_plic s') 10 = true ∧ irq_enabled (i_plic s') 11 = false.
Proof.
  destruct (irq_table_refines (demo_isys []) empty_tab (Plic ∅ [] [] 0) 10 0x80001000 0x80002000)
    as [_ Hs]; [done|done|done|lia|lia|].
  destruct (Hs ltac:(lia)) as [(s' & E & _ & Hh & He & _) _].
  exists s'. split_and!; [exact E|..].
  - etrans; [apply (Hh 10)|reflexivity].
  - etrans; [apply (He 10); lia|reflexivity].
  - etrans; [apply (He 11); lia|reflexivity].
Defined.

Lemma irq_claims_paired_witness :
  ∃ s', serve 3 (demo_isys [5; 10]) = Ret (tt, s') ∧
    plic_log (i_plic s') = [Claim 5; Complete 5; Claim 10; Complete 10; Claim 0].
Proof.
  destruct (irq_claims_paired 3 (demo_isys [5; 10])) as (s' & E & _ & Hl).
  - intros h irq d s Hok. exists IRQ_HANDLED, (ISys (i_tab s) (i_plic s) (i_calls s ++ [(h, irq, d)])).
    done.
  - done.
  - by repeat constructor.
  - exists s'. split; [exact E|exact Hl].
Defined.

(** A source of 32 or more, although below [MAX_NR_IRQ], shifts [1] by its number: undefined. *)
Example irq_register_wide : irq_register 40 0x80001000 0 (demo_isys []) = Fault.
Proof. reflexivity. Qed.
