(* ===== verification/Printf.v ===== *)
(** * Formatted output

    Models [kernel/lib/printf.c].  A call writes its characters one after another from the
    start of the buffer; the state [fmtst] is the text written so far, the arguments that
    are left, and what [%n] stored.  Whether the buffer was large enough is checked once at
    the end, since a contiguous write leaves it exactly when the whole text does. *)

From S2P Require Export Locking.
From Stdlib Require Import Ascii.

Definition ZEROPAD : Z := 1.
Definition BIN : Z := 2.
Definition SIGN : Z := 4.
Definition OCT : Z := 8.
Definition HEX : Z := 16.
Definition LEFT : Z := 32.
Definition SMALL : Z := 64.
Definition PREFIX : Z := 128.
Definition BUFMAX : Z := 128.

(** The code of a character. *)
Definition ch (a : ascii) : Z := Z.of_N (N_of_ascii a).

Definition text := list Z.
Definition txt (s : string) : text := ch <$> String.list_ascii_of_string s.

(** A variadic argument: the register that holds a number, a string ([None] for NULL), or
    the pointer of [%n]. *)
Inductive arg := ANum (z : Z) | AStr (s : option text) | AOut.

Record fmtst := Fmt {
  out : text;
  va : list arg;
  stores : list Z
}.

Definition emit (l : text) : M fmtst unit := modify (λ s, Fmt (out s ++ l) (va s) (stores s)).

(** [va_arg]; taking what is not there, or as another type, is undefined. *)
Definition va_num : M fmtst Z :=
  s ← mget;
  match va s with
  | ANum z :: l => modify (λ s, Fmt (out s) l (stores s));; mret z
  | _ => mfault
  end.
Definition va_int : M fmtst Z := z ← va_num; mret (i32 z).
Definition va_str : M fmtst text :=
  s ← mget;
  match va s with
  | AStr t :: l =>
      modify (λ s, Fmt (out s) l (stores s));;
      mret (default (txt "(null)") t)
  | _ => mfault
  end.
Definition va_out : M fmtst unit :=
  s ← mget;
  match va s with AOut :: l => modify (λ s, Fmt (out s) l (stores s)) | _ => mfault end.

Definition is_digit (c : Z) : bool := (ch "0" <=? c) && (c <=? ch "9").

Fixpoint skip_atoi (s : text) (i : Z) : Z * text :=
  match s with
  | c :: t => if is_digit c then skip_atoi t (i32 (i32 (i * 10) + c - ch "0")) else (i, s)
  | [] => (i, [])
  end.

Definition digits (num : Z) : Z := (if 10 <=? num then 87 else 48) + num.

(** The [do] loop of [number]: digits from the lowest; every turn divides by at least 2. *)
Fixpoint digit_loop (fuel : nat) (unum base : Z) : text :=
  match fuel with
  | O => []
  | S fuel =>
      let rest := unum / base in
      digits (unum mod base) :: (if rest =? 0 then [] else digit_loop fuel rest base)
  end.

Definition flag (type f : Z) : bool := ctrue (Z.land type f).
Definition base_of (type : Z) : Z :=
  if flag type BIN then BIN else if flag type OCT then OCT else if flag type HEX then HEX else 10.
Definition times (n : Z) (c : ascii) : text := replicate (Z.to_nat n) (ch c).

(** [num_str] has 36 entries.  A count that a loop has run down is left at 0 here and at -1 by
    [while (size-- > 0)]; what follows only asks whether it is positive. *)
Definition number (num size precision type : Z) : M fmtst unit :=
  let base := base_of type in
  let type := if flag type LEFT then Z.land type (Z.lnot ZEROPAD) else type in
  let c := if flag type ZEROPAD then "0"%char else " "%char in
  let sign := flag type SIGN && (num <? 0) in
  let num := if sign then i64 (- num) else num in
  let size := size - (if sign then 1 else 0) in
  let size := if flag type PREFIX
              then size - (if flag type BIN || flag type HEX then 2 else 0)
                        - (if flag type OCT then 1 else 0)
              else size in
  let num_str := if num =? 0 then [ch "0"] else digit_loop 64 (u64 num) base in
  let i := zlen num_str in
  if 36 <? i then mfault
  else
    let precision := if precision <? i then i else precision in
    let size := size - precision in
    let blank := negb (flag type ZEROPAD || flag type LEFT) in
    mwhen blank (emit (times size " "));;
    let size := if blank then MIN size 0 else size in
    mwhen sign (emit [ch "-"]);;
    mwhen (flag type PREFIX)
      (emit [ch "0"];;
       mwhen (flag type BIN) (emit [ch "b"]);;
       mwhen (flag type HEX) (emit [ch "x"]));;
    mwhen (negb (flag type LEFT)) (emit (times size c));;
    let size := if negb (flag type LEFT) then MIN size 0 else size in
    emit (times (precision - i) "0");;
    emit (reverse num_str);;
    emit (times size " ").

Definition fill_left (flags field_width : Z) : M fmtst Z :=
  if negb (flag flags LEFT) then emit (times field_width " ");; mret (MIN field_width 0)
  else mret field_width.
Definition fill_right (field_width : Z) : M fmtst unit := emit (times field_width " ").

(** ** One directive *)

(** The characters after [%] up to the width; [cnt] counts them. *)
Fixpoint read_flags (fmt : text) (flags cnt : Z) : Z * Z * text :=
  match fmt with
  | c :: f =>
      if c =? ch "-" then read_flags f (Z.lor flags LEFT) (cnt + 1)
      else if c =? ch "#" then read_flags f (Z.lor flags PREFIX) (cnt + 1)
      else if c =? ch "0" then read_flags f (Z.lor flags ZEROPAD) (cnt + 1)
      else (flags, cnt, fmt)
  | [] => (flags, cnt, fmt)
  end.

(** Whether [*fmt] is [c]. *)
Definition at_char (fmt : text) (c : ascii) : bool :=
  match fmt with x :: _ => x =? ch c | [] => false end.
Definition at_digit (fmt : text) : bool :=
  match fmt with x :: _ => is_digit x | [] => false end.

Definition read_width (fmt : text) (flags cnt : Z) : M fmtst (Z * Z * Z * text) :=
  if at_digit fmt then
    let '(w, f) := skip_atoi fmt 0 in mret (w, flags, cnt, f)
  else if at_char fmt "*" then
    w ← va_int;
    if w <? 0 then mret (i32 (- w), Z.lor flags LEFT, cnt + 1, tail fmt)
    else mret (w, flags, cnt + 1, tail fmt)
  else mret (-1, flags, cnt, fmt).

(** A [*] after the dot is not skipped. *)
Definition read_precision (fmt : text) (cnt : Z) : M fmtst (Z * Z * text) :=
  if at_char fmt "." then
    let f := tail fmt in
    '(p, f) ← (if at_digit f then mret (skip_atoi f 0)
               else if at_char f "*" then p ← va_int; mret (p, f)
               else mret (-1, f));
    mret (if p <? 0 then 0 else p, cnt + 1, f)
  else mret (-1, cnt, fmt).

Definition skip_length (fmt : text) (cnt : Z) : Z * text :=
  if at_char fmt "h" || at_char fmt "l" || at_char fmt "L" then (cnt + 1, tail fmt) else (cnt, fmt).

Definition put_number (flags field_width precision : Z) : M fmtst unit :=
  z ← va_num; number (i64 z) field_width precision flags.

(** The [switch] on the conversion [c]; [None] is the end of the format. *)
Definition convert (c : option Z) (flags field_width precision : Z) : M fmtst unit :=
  match c with
  | None => emit [ch "%"]
  | Some c =>
      if c =? ch "c" then
        w ← fill_left flags field_width;
        z ← va_int; emit [u8 z];;
        fill_right w
      else if c =? ch "s" then
        s ← va_str;
        w ← fill_left flags field_width;
        emit s;;
        fill_right w
      else if c =? ch "o" then put_number (Z.lor flags OCT) field_width precision
      else if c =? ch "p" then
        if field_width =? -1 then put_number (Z.lor (Z.lor flags ZEROPAD) HEX) 8 precision
        else put_number (Z.lor flags HEX) field_width precision
      else if c =? ch "x" then
        put_number (Z.lor (Z.lor flags SMALL) HEX) field_width precision
      else if c =? ch "X" then put_number (Z.lor flags HEX) field_width precision
      else if c =? ch "d" then put_number (Z.lor flags SIGN) field_width precision
      else if c =? ch "u" then put_number flags field_width precision
      else if c =? ch "n" then
        va_out;; modify (λ s, Fmt (out s) (va s) (stores s ++ [u8 (zlen (out s))]))
      else
        mwhen (negb (c =? ch "%")) (emit [ch "%"]);;
        emit [c]
  end.

(** From behind the [%], with [cnt] characters counted; the format and the count after the
    conversion character (at the end of the format both stay). *)
Definition directive (fmt : text) (cnt : Z) : M fmtst (text * Z) :=
  let '(flags, cnt, fmt) := read_flags fmt 0 cnt in
  '(w, flags, cnt, fmt) ← read_width fmt flags cnt;
  '(p, cnt, fmt) ← read_precision fmt cnt;
  let '(cnt, fmt) := skip_length fmt cnt in
  convert (head fmt) flags w p;;
  mret (match fmt with _ :: f => (f, cnt + 1) | [] => ([], cnt) end).

(** The loop; [cnt] counts characters of the format, not of the text. *)
Fixpoint vloop (fuel : nat) (n cnt : Z) (fmt : text) : M fmtst unit :=
  match fuel with
  | O => mspin
  | S fuel =>
      match fmt with
      | [] => mret tt
      | c :: f =>
          if negb (cnt <? n) then mret tt
          else if negb (c =? ch "%") then emit [c];; vloop fuel n (cnt + 1) f
          else '(f, cnt) ← directive f (cnt + 1); vloop fuel n cnt f
      end
  end.

(** [cap] is the size of the buffer behind [out].  The result, the bytes written, and the
    values stored by [%n]. *)
Definition vsnprintf (cap n : Z) (fmt : text) (args : list arg) : outcome (Z * text * list Z) :=
  match vloop (S (length fmt)) n 0 fmt (Fmt [] args []) with
  | Ret (_, s) =>
      if zlen (out s) + 1 <=? cap then Ret (i32 (zlen (out s)), out s ++ [0], stores s) else Fault
  | Panic => Panic
  | Fault => Fault
  | Spin => Spin
  end.

Definition vsprintf (cap : Z) (fmt : text) (args : list arg) := vsnprintf cap BUFMAX fmt args.
Definition snprintf (cap n : Z) (fmt : text) (args : list arg) := vsnprintf cap n fmt args.
Definition sprintf (cap : Z) (fmt : text) (args : list arg) := vsprintf cap fmt args.


(** ** Numbers *)

Definition digit_val (c : Z) : Z := if c <? 58 then c - 48 else c - 87.
(** The number a text of digits stands for, the highest digit first. *)
Definition value (base : Z) (l : text) : Z := foldl (λ a c, a * base + digit_val c) 0 l.
(** The text of a number. *)
Definition numeral (base v : Z) : text := if v =? 0 then [ch "0"] else reverse (digit_loop 64 v base).
Definition is_digit_of (base c : Z) : Prop := ∃ d, 0 ≤ d < base ∧ c = digits d.

Lemma digit_val_digits d : 0 ≤ d < 36 → digit_val (digits d) = d.
Proof.
  intros Hd. unfold digit_val, digits. destruct (Z.leb_spec 10 d).
  - destruct (Z.ltb_spec (87 + d) 58); lia.
  - destruct (Z.ltb_spec (48 + d) 58); lia.
Qed.

Lemma value_snoc base l c : value base (l ++ [c]) = value base l * base + digit_val c.
Proof. unfold value. by rewrite foldl_app. Qed.

Lemma digit_loop_spec base fuel : ∀ u,
  2 ≤ base ≤ 36 → 0 ≤ u < base ^ Z.of_nat fuel →
  value base (reverse (digit_loop fuel u base)) = u ∧
  Forall (is_digit_of base) (digit_loop fuel u base).
Proof.
  induction fuel as [|fuel IH]; intros u Hb Hu; cbn [digit_loop].
  { change (base ^ Z.of_nat 0) with 1 in Hu. split; [cbn; lia|constructor]. }
  pose proof (Z.mod_pos_bound u base ltac:(lia)) as Hm.
  pose proof (Z.div_mod u base ltac:(lia)) as Hdm.
  assert (Hd : is_digit_of base (digits (u mod base))) by (exists (u mod base); split; [lia|done]).
  rewrite reverse_cons, value_snoc, digit_val_digits by lia.
  destruct (Z.eqb_spec (u / base) 0) as [E|E].
  - cbn. rewrite E in Hdm. split; [lia|]. by repeat constructor.
  - assert (Hq : 0 ≤ u / base < base ^ Z.of_nat fuel).
    { split; [apply Z.div_pos; lia|]. apply Z.div_lt_upper_bound; [lia|].
      rewrite <- Z.pow_succ_r by lia. rewrite <- Nat2Z.inj_succ. lia. }
    destruct (IH _ Hb Hq) as [-> Hf]. split; [lia|by constructor].
Qed.

Lemma digit_loop_length base k : ∀ fuel u,
  2 ≤ base → 0 ≤ u < base ^ Z.of_nat (S k) → (length (digit_loop fuel u base) ≤ S k)%nat.
Proof.
  induction k as [|k IH]; intros fuel u Hb Hu; (destruct fuel as [|fuel]; cbn; [lia|]).
  - rewrite Z.div_small by (change (base ^ Z.of_nat 1) with (base ^ 1) in Hu; lia). cbn. lia.
  - destruct (Z.eqb_spec (u / base) 0); cbn; [lia|]. apply le_n_S, IH; [done|].
    split; [apply Z.div_pos; lia|]. apply Z.div_lt_upper_bound; [lia|].
    rewrite <- Z.pow_succ_r by lia. rewrite <- Nat2Z.inj_succ. lia.
Qed.

Lemma digit_loop_ne base fuel u : digit_loop (S fuel) u base ≠ [].
Proof. by cbn. Qed.

(** The highest digit is not zero. *)
Lemma digit_loop_top base fuel : ∀ u,
  2 ≤ base ≤ 36 → 0 < u < base ^ Z.of_nat fuel → last (digit_loop fuel u base) ≠ Some (ch "0").
Proof.
  induction fuel as [|fuel IH]; intros u Hb Hu; cbn [digit_loop].
  { change (base ^ Z.of_nat 0) with 1 in Hu. lia. }
  pose proof (Z.mod_pos_bound u base ltac:(lia)) as Hm.
  pose proof (Z.div_mod u base ltac:(lia)) as Hdm.
  destruct (Z.eqb_spec (u / base) 0) as [E|E].
  - cbn. unfold digits. rewrite E in Hdm. destruct (10 <=? u mod base);
      (intros [= E']; change (ch "0") with 48 in E'; lia).
  - rewrite last_cons. assert (Hq : 0 < u / base < base ^ Z.of_nat fuel).
    { split; [pose proof (Z.div_pos u base); lia|]. apply Z.div_lt_upper_bound; [lia|].
      rewrite <- Z.pow_succ_r by lia. rewrite <- Nat2Z.inj_succ. lia. }
    specialize (IH _ Hb Hq). destruct (last (digit_loop fuel (u / base) base)) eqn:El; [done|].
    apply last_None in El. destruct fuel; [|done].
    change (base ^ Z.of_nat 0) with 1 in Hq. lia.
Qed.

Lemma numeral_spec base v :
  2 ≤ base ≤ 36 → 0 ≤ v < 2 ^ 64 →
  value base (numeral base v) = v ∧ Forall (is_digit_of base) (numeral base v) ∧
  (v ≠ 0 → head (numeral base v) ≠ Some (ch "0")) ∧ numeral base v ≠ [].
Proof.
  intros Hb Hv. unfold numeral. destruct (Z.eqb_spec v 0) as [->|Hv0].
  - split_and!; [done| |done|done]. repeat constructor. exists 0. split; [lia|done].
  - assert (Hv' : 0 ≤ v < base ^ Z.of_nat 64).
    { split; [lia|]. pose proof (Z.pow_le_mono_l 2 base (Z.of_nat 64)). lia. }
    destruct (digit_loop_spec base 64 v Hb Hv') as [E Hf]. split_and!; [done| | |].
    + by apply Forall_reverse.
    + intros _. rewrite head_reverse. apply digit_loop_top; lia.
    + intros E'. apply (f_equal reverse) in E'. by rewrite reverse_involutive in E'.
Qed.

(** ** Flags *)

Lemma flag_bit t k : 0 ≤ k → flag t (2 ^ k) = Z.testbit t k.
Proof.
  intros Hk. unfold flag. assert (E : Z.land t (2 ^ k) = if Z.testbit t k then 2 ^ k else 0).
  { apply Z.bits_inj'. intros i Hi. rewrite Z.land_spec, Z.pow2_bits_eqb by lia.
    destruct (Z.eqb_spec k i) as [->|Hki]; rewrite ?andb_true_r, ?andb_false_r.
    - destruct (Z.testbit t i); [by rewrite Z.pow2_bits_true by lia|by rewrite Z.bits_0].
    - destruct (Z.testbit t k); [by rewrite Z.pow2_bits_false by lia|by rewrite Z.bits_0]. }
  rewrite E. destruct (Z.testbit t k); [|done]. unfold ctrue.
  destruct (Z.eqb_spec (2 ^ k) 0); [|done]. pose proof (Z.pow_pos_nonneg 2 k). lia.
Qed.

Lemma flag_lor t u f k : f = 2 ^ k → 0 ≤ k → flag (Z.lor t u) f = flag t f || flag u f.
Proof. intros -> Hk. rewrite !flag_bit by done. apply Z.lor_spec. Qed.

Lemma flag_drop t f k : f = 2 ^ k → 0 < k → flag (Z.land t (Z.lnot ZEROPAD)) f = flag t f.
Proof.
  intros -> Hk. rewrite !flag_bit by lia. rewrite Z.land_spec, Z.lnot_spec by lia.
  change ZEROPAD with (2 ^ 0). rewrite Z.pow2_bits_eqb by lia.
  rewrite (proj2 (Z.eqb_neq 0 k)) by lia. by rewrite andb_true_r.
Qed.
Lemma flag_drop_zero t : flag (Z.land t (Z.lnot ZEROPAD)) ZEROPAD = false.
Proof.
  change (flag (Z.land t (Z.lnot ZEROPAD)) ZEROPAD) with (flag (Z.land t (Z.lnot ZEROPAD)) (2 ^ 0)).
  rewrite flag_bit, Z.land_spec, Z.lnot_spec by lia. cbn. by rewrite andb_false_r.
Qed.

(** ** What [number] writes *)

(** A numeral laid out in a field: [alt] asks for the prefix of the base, [zero] for padding
    with zeros, [left] for padding on the right.  A decimal number with [alt] gets a [0]
    that the width does not count. *)
Definition layout (left zero alt : bool) (base : Z) (neg : bool) (width precision : Z) (ds : text) : text :=
  let sgn := if neg then txt "-" else [] in
  let pre := if alt then txt (if base =? 16 then "0x" else "0") else [] in
  let body := times (precision - zlen ds) "0" ++ ds in
  let room := width - zlen sgn - (if base =? 10 then 0 else zlen pre) - zlen body in
  if left then sgn ++ pre ++ body ++ times room " "
  else if zero then sgn ++ pre ++ times room "0" ++ body
  else times room " " ++ sgn ++ pre ++ body.

Definition add (l : text) (s : fmtst) : fmtst := Fmt (out s ++ l) (va s) (stores s).
Lemma emit_run {A} l (k : unit → M fmtst A) s : (emit l ≫= k) s = k tt (add l s).
Proof. reflexivity. Qed.
Lemma add_add l1 l2 s : add l2 (add l1 s) = add (l1 ++ l2) s.
Proof. unfold add. cbn. by rewrite app_assoc. Qed.
Lemma add_nil s : add [] s = s.
Proof. unfold add. rewrite app_nil_r. by destruct s. Qed.
Lemma when_emit b l s : mwhen b (emit l) s = Ret (tt, add (if b then l else []) s).
Proof. destruct b; [done|]. cbn. by rewrite add_nil. Qed.

Lemma when_emit_run {A} b l (k : unit → M fmtst A) s :
  (mwhen b (emit l) ≫= k) s = k tt (add (if b then l else []) s).
Proof. destruct b; [done|]. cbn. by rewrite add_nil. Qed.
Lemma prefix_run {A} b c (k : unit → M fmtst A) s :
  (mwhen b (emit [ch "0"];; mwhen false (emit [ch "b"]);; mwhen c (emit [ch "x"])) ≫= k) s =
  k tt (add (if b then if c then txt "0x" else txt "0" else []) s).
Proof.
  destruct b; [|by rewrite add_nil]. destruct c; [|done].
  change (k tt (add (txt "x") (add (txt "0") s)) = k tt (add (txt "0x") s)). by rewrite add_add.
Qed.

Lemma times_nonpos n c : n ≤ 0 → times n c = [].
Proof. intros. unfold times. by replace (Z.to_nat n) with O by lia. Qed.
Lemma zlen_times n c : zlen (times n c) = Z.max 0 n.
Proof. unfold zlen, times. rewrite length_replicate. lia. Qed.

(** The base the flags select; [BIN] is never set. *)
Lemma base_of_cases type :
  flag type BIN = false →
  base_of type = 8 ∧ flag type OCT = true ∨
  base_of type = 16 ∧ flag type OCT = false ∧ flag type HEX = true ∨
  base_of type = 10 ∧ flag type OCT = false ∧ flag type HEX = false.
Proof.
  intros Hb. unfold base_of. rewrite Hb.
  destruct (flag type OCT); [by left|right]. destruct (flag type HEX); [by left|by right].
Qed.

Lemma numeral_length base v :
  8 ≤ base ≤ 36 → 0 ≤ v < 2 ^ 64 → 1 ≤ zlen (numeral base v) ≤ 22.
Proof.
  intros Hb Hv. unfold numeral, zlen. destruct (Z.eqb_spec v 0); [cbn; lia|].
  rewrite length_reverse. split.
  - pose proof (digit_loop_ne base 63 v) as Hn. destruct (digit_loop 64 v base); [done|cbn; lia].
  - assert (length (digit_loop 64 v base) ≤ 22)%nat; [|lia]. apply digit_loop_length; [lia|].
    pose proof (Z.pow_le_mono_l 8 base (Z.of_nat 22)). lia.
Qed.

(** What of the sign, and the number behind it. *)
Definition signed (type num : Z) : bool := flag type SIGN && (num <? 0).
Definition magnitude (type num : Z) : Z := if signed type num then - num else u64 num.

Lemma number_digits type num base :
  - 2 ^ 63 ≤ num < 2 ^ 63 →
  (if (if signed type num then i64 (- num) else num) =? 0 then [ch "0"]
   else digit_loop 64 (u64 (if signed type num then i64 (- num) else num)) base) =
  reverse (numeral base (magnitude type num)) ∧ 0 ≤ magnitude type num < 2 ^ 64.
Proof.
  intros Hn. unfold magnitude, numeral.
  assert (E : ∀ z w, (z =? 0) = (w =? 0) → u64 z = w →
    (if z =? 0 then [ch "0"] else digit_loop 64 (u64 z) base) =
    reverse (if w =? 0 then [ch "0"] else reverse (digit_loop 64 w base))).
  { intros z w -> <-. destruct (_ =? 0); [done|by rewrite reverse_involutive]. }
  destruct (signed type num) eqn:Es; [apply andb_prop in Es as [_ Hl%Z.ltb_lt]|];
    (split; [apply E|]).
  - unfold i64. rewrite (proj2 (Z.eqb_neq (- num) 0)) by lia.
    pose proof (Z.mod_pos_bound (- num + 2 ^ 63) (2 ^ 64)). apply Z.eqb_neq. intros E0.
    destruct (decide (num = - 2 ^ 63)) as [->|]; [done|]. rewrite Z.mod_small in E0; lia.
  - unfold i64, u64. rewrite Zminus_mod_idemp_l. rewrite Z.mod_small; lia.
  - lia.
  - unfold u64. destruct (Z.eqb_spec num 0) as [->|]; [done|]. symmetry. apply Z.eqb_neq.
    intros E0. apply Z.mod_divide in E0 as [k E0]; lia.
  - done.
  - apply u64_range.
Qed.

(** The flags after [LEFT] has cancelled [ZEROPAD]. *)
Lemma number_flags type t :
  t = (if flag type LEFT then Z.land type (Z.lnot ZEROPAD) else type) →
  flag t SIGN = flag type SIGN ∧ flag t PREFIX = flag type PREFIX ∧ flag t BIN = flag type BIN ∧
  flag t OCT = flag type OCT ∧ flag t HEX = flag type HEX ∧ flag t LEFT = flag type LEFT ∧
  flag t ZEROPAD = flag type ZEROPAD && negb (flag type LEFT).
Proof.
  intros ->. destruct (flag type LEFT) eqn:El.
  - rewrite (flag_drop _ SIGN 2), (flag_drop _ PREFIX 7), (flag_drop _ BIN 1), (flag_drop _ OCT 3),
      (flag_drop _ HEX 4), (flag_drop _ LEFT 5), flag_drop_zero, El, andb_false_r by done. done.
  - by rewrite andb_true_r, El.
Qed.

Lemma number_run st num size precision type :
  flag type BIN = false → flag type OCT && flag type HEX = false → - 2 ^ 63 ≤ num < 2 ^ 63 →
  number num size precision type st = Ret (tt, add (layout (flag type LEFT) (flag type ZEROPAD)
    (flag type PREFIX) (base_of type) (signed type num) size precision
    (numeral (base_of type) (magnitude type num))) st).
Proof.
  intros Hb Hoh Hn. unfold number. set (t := if flag type LEFT then _ else type).
  destruct (number_flags type t eq_refl) as (-> & -> & -> & -> & -> & -> & ->).
  fold (signed type num). destruct (number_digits type num (base_of type) Hn) as [-> Hm].
  set (ds := numeral (base_of type) (magnitude type num)).
  assert (Hlen : 1 ≤ zlen ds ≤ 22).
  { apply numeral_length; [|done]. destruct (base_of_cases type Hb) as [[-> _]|[[-> _]|[-> _]]]; lia. }
  assert (Er : zlen (reverse ds) = zlen ds) by (unfold zlen; by rewrite length_reverse).
  cbv zeta. rewrite Er, reverse_involutive, Hb. destruct (Z.ltb_spec 36 (zlen ds)); [lia|].
  cbn [orb]. set (sg := signed type num).
  rewrite when_emit_run. cbv beta. rewrite when_emit_run. cbv beta. rewrite prefix_run. cbv beta.
  rewrite when_emit_run. cbv beta. rewrite !emit_run.
  set (body := times (precision - zlen ds) "0" ++ ds).
  set (pre := if flag type PREFIX then txt (if base_of type =? 16 then "0x" else "0") else []).
  set (prec := if precision <? zlen ds then zlen ds else precision).
  set (room := size - zlen (if sg then txt "-" else []) -
    (if base_of type =? 10 then 0 else zlen pre) - zlen body).
  assert (Hprec : prec = Z.max precision (zlen ds))
    by (subst prec; destruct (Z.ltb_spec precision (zlen ds)); lia).
  assert (Hbody : zlen body = prec).
  { subst body. rewrite zlen_app, zlen_times. lia. }
  assert (Hpad : times (prec - zlen ds) "0" = times (precision - zlen ds) "0").
  { unfold times. f_equal. lia. }
  assert (Hpre : (if flag type PREFIX then if flag type HEX then txt "0x" else txt "0" else []) = pre).
  { subst pre. destruct (flag type PREFIX); [|done].
    destruct (base_of_cases type Hb) as [[-> E]|[(-> & E1 & E2)|(-> & E1 & E2)]].
    - rewrite E in Hoh. cbn in Hoh. by rewrite Hoh.
    - by rewrite E2.
    - by rewrite E2. }
  rewrite Hpre, Hpad. clear Hpre Hpad.
  match goal with |- context [?e - prec] => assert (Hroom : e - prec = room) end.
  { subst room pre. rewrite Hbody. f_equal. destruct sg, (flag type PREFIX);
      destruct (base_of_cases type Hb) as [[-> E]|[(-> & E1 & E2)|(-> & E1 & E2)]];
      rewrite ?E, ?E1, ?E2 in *; cbn in Hoh; rewrite ?Hoh; unfold zlen; cbn; lia. }
  rewrite Hroom. unfold layout. cbv zeta.
  assert (Hr : size - zlen (if sg then [ch "-"] else []) - (if base_of type =? 10 then 0 else zlen pre) -
    zlen (times (precision - zlen ds) "0" ++ ds) = room) by done.
  assert (Hmin : ∀ r c, times (MIN r 0) c = []).
  { intros r c. apply times_nonpos. unfold MIN. destruct (Z.ltb_spec r 0); lia. }
  clear Hroom Hbody. clearbody room. unfold emit, modify, body, pre, add in *.
  do 2 f_equal. destruct (flag type LEFT), (flag type ZEROPAD); cbn [negb andb orb];
    rewrite ?Hmin; cbn [out va stores]; rewrite ?app_nil_r; change (txt "-") with [ch "-"];
    rewrite <- ?app_assoc; repeat first [reflexivity|symmetry; exact Hr|f_equal].
Qed.

(** With the flags [vsnprintf] passes, [number] writes the numeral of its argument in the
    base of the flags laid out in the field, and nothing else.  Reading the numeral back in
    that base gives the magnitude of the argument, so every [long] survives printing; all
    its characters are digits of the base and it has no leading zero. *)
Theorem number_spec (st : fmtst) (num size precision type : Z) :
  flag type BIN = false → flag type OCT && flag type HEX = false → - 2 ^ 63 ≤ num < 2 ^ 63 →
  ∃ ds, number num size precision type st =
      Ret (tt, add (layout (flag type LEFT) (flag type ZEROPAD) (flag type PREFIX) (base_of type)
        (signed type num) size precision ds) st) ∧
    value (base_of type) ds = (if signed type num then - num else num mod 2 ^ 64) ∧
    Forall (is_digit_of (base_of type)) ds ∧ (num ≠ 0 → head ds ≠ Some (ch "0")).
Proof.
  intros Hb Hoh Hn. exists (numeral (base_of type) (magnitude type num)).
  destruct (number_digits type num (base_of type) Hn) as [_ Hm].
  destruct (numeral_spec (base_of type) (magnitude type num)) as (Hv & Hf & Hh & _); [|done|].
  { destruct (base_of_cases type Hb) as [[-> _]|[[-> _]|[-> _]]]; lia. }
  split_and!; [by apply number_run|exact Hv|exact Hf|].
  intros Hnz. apply Hh. unfold magnitude, signed, u64.
  destruct (flag type SIGN && (num <? 0)) eqn:E; [lia|].
  intros E0. apply Z.mod_divide in E0 as [k E0]; lia.
Qed.

(** ** A reference for the formats in use *)

Inductive kind := KD | KU | KX | KO | KS | KC.

(** [%], the flags, a width, a precision, a length mark and the conversion. *)
Record conv := Conv {
  k_left : bool;
  k_alt : bool;
  k_zero : bool;
  k_width : option Z;
  k_prec : option Z;
  k_long : bool;
  k_kind : kind
}.

Inductive piece := Lit (c : Z) | Percent | Dir (c : conv).

Definition kind_char (k : kind) : ascii :=
  match k with KD => "d" | KU => "u" | KX => "x" | KO => "o" | KS => "s" | KC => "c" end%char.
Definition opt (b : bool) (s : string) : text := if b then txt s else [].

Definition unparse_conv (c : conv) : text :=
  opt (k_left c) "-" ++ opt (k_alt c) "#" ++ opt (k_zero c) "0" ++
  match k_width c with Some w => numeral 10 w | None => [] end ++
  match k_prec c with Some p => txt "." ++ numeral 10 p | None => [] end ++
  opt (k_long c) "l" ++ [ch (kind_char (k_kind c))].
Definition unparse (p : piece) : text :=
  match p with
  | Lit c => [c]
  | Percent => txt "%%"
  | Dir c => ch "%" :: unparse_conv c
  end.

(** The characters of a format that are not directives, and the widths C allows. *)
Definition piece_ok (p : piece) : Prop :=
  match p with
  | Lit c => c ≠ 0 ∧ c ≠ ch "%"
  | Percent => True
  | Dir c => (∀ w, k_width c = Some w → 0 < w < 10 ^ 8) ∧ (∀ p, k_prec c = Some p → 0 ≤ p < 10 ^ 8)
  end.

(** A field of characters: the whole width is filled, however long the string is. *)
Definition field (c : conv) (s : text) : text :=
  let blank := times (default (-1) (k_width c)) " " in
  if k_left c then s ++ blank else blank ++ s.
Definition num_field (c : conv) (base : Z) (neg : bool) (v : Z) : text :=
  layout (k_left c) (k_zero c) (k_alt c) base neg (default (-1) (k_width c)) (default (-1) (k_prec c))
    (numeral base v).

(** What a directive writes for its argument. *)
Definition render_conv (c : conv) (a : arg) : option text :=
  match k_kind c, a with
  | KD, ANum z => Some (num_field c 10 (i64 z <? 0) (Z.abs (i64 z)))
  | KU, ANum z => Some (num_field c 10 false (u64 z))
  | KX, ANum z => Some (num_field c 16 false (u64 z))
  | KO, ANum z => Some (num_field c 8 false (u64 z))
  | KS, AStr s => Some (field c (default (txt "(null)") s))
  | KC, ANum z => Some (field c [u8 z])
  | _, _ => None
  end.

Fixpoint render (ps : list piece) (args : list arg) : option text :=
  match ps with
  | [] => Some []
  | Lit c :: ps => t ← render ps args; Some (c :: t)
  | Percent :: ps => t ← render ps args; Some (txt "%" ++ t)
  | Dir c :: ps =>
      match args with
      | a :: args => l ← render_conv c a; t ← render ps args; Some (l ++ t)
      | [] => None
      end
  end.

(** ** Reading a directive *)

Lemma is_digit_of_10 c : is_digit_of 10 c ↔ is_digit c = true.
Proof.
  unfold is_digit. change (ch "0") with 48. change (ch "9") with 57. unfold is_digit_of, digits. split.
  - intros (d & Hd & ->). destruct (Z.leb_spec 10 d); [lia|]. apply andb_true_iff. split; lia.
  - intros E. zbool. exists (c - 48). split; [lia|]. destruct (Z.leb_spec 10 (c - 48)); lia.
Qed.

Lemma skip_atoi_digits ds rest : ∀ i,
  Forall (is_digit_of 10) ds → at_digit rest = false → 0 ≤ i →
  foldl (λ a c, a * 10 + digit_val c) i ds < 2 ^ 31 →
  skip_atoi (ds ++ rest) i = (foldl (λ a c, a * 10 + digit_val c) i ds, rest).
Proof.
  assert (Hgrow : ∀ l i, Forall (is_digit_of 10) l → 0 ≤ i →
    i ≤ foldl (λ a c, a * 10 + digit_val c) i l).
  { induction l as [|c l IH]; intros i Hf Hi; cbn; [lia|].
    apply Forall_cons in Hf as [(d & Hd & ->) Hf]. rewrite digit_val_digits by lia.
    specialize (IH (i * 10 + d) Hf). lia. }
  induction ds as [|c ds IH]; intros i Hf Hr Hi Hb; cbn [app foldl] in *.
  - destruct rest as [|x rest]; [done|]. cbn in Hr |- *. by rewrite Hr.
  - apply Forall_cons in Hf as [Hc Hf]. cbn [skip_atoi]. rewrite (proj1 (is_digit_of_10 c) Hc).
    destruct Hc as (d & Hd & ->). rewrite digit_val_digits in * by lia.
    pose proof (Hgrow ds (i * 10 + d) Hf) as Hg.
    assert (E : digits d = 48 + d) by (unfold digits; destruct (Z.leb_spec 10 d); lia).
    rewrite E. change (ch "0") with 48. rewrite (i32_small (i * 10)) by lia.
    replace (i * 10 + (48 + d) - 48) with (i * 10 + d) by lia. rewrite i32_small by lia.
    apply IH; [done|done|lia|lia].
Qed.

Lemma skip_atoi_numeral w rest :
  0 ≤ w < 10 ^ 8 → at_digit rest = false → skip_atoi (numeral 10 w ++ rest) 0 = (w, rest).
Proof.
  intros Hw Hr. destruct (numeral_spec 10 w) as (Hv & Hf & _); [lia|lia|].
  change (foldl (λ a c, a * 10 + digit_val c) 0 (numeral 10 w) = w) in Hv.
  rewrite skip_atoi_digits, Hv; [done|done|done|lia|lia].
Qed.

Definition conv_flags (c : conv) : Z :=
  Z.lor (Z.lor (if k_left c then LEFT else 0) (if k_alt c then PREFIX else 0))
    (if k_zero c then ZEROPAD else 0).

(** The parts of a directive behind the flags. *)
Definition conv_end (c : conv) (rest : text) : text :=
  opt (k_long c) "l" ++ ch (kind_char (k_kind c)) :: rest.
Definition conv_prec (c : conv) (rest : text) : text :=
  match k_prec c with Some p => txt "." ++ numeral 10 p | None => [] end ++ conv_end c rest.
Definition conv_width (c : conv) (rest : text) : text :=
  match k_width c with Some w => numeral 10 w | None => [] end ++ conv_prec c rest.

Lemma unparse_conv_parts c rest :
  unparse_conv c ++ rest =
  opt (k_left c) "-" ++ opt (k_alt c) "#" ++ opt (k_zero c) "0" ++ conv_width c rest.
Proof. unfold unparse_conv, conv_width, conv_prec, conv_end. by rewrite <- !app_assoc. Qed.

(** The first character of these parts. *)
Lemma conv_end_head c rest a :
  head (conv_end c rest) = Some a → is_digit a = false ∧ a ≠ ch "-" ∧ a ≠ ch "#" ∧ a ≠ ch "*" ∧ a ≠ ch ".".
Proof. unfold conv_end. destruct (k_long c), (k_kind c); intros [= <-]; by split_and!. Qed.
Lemma conv_prec_head c rest a :
  head (conv_prec c rest) = Some a → is_digit a = false ∧ a ≠ ch "-" ∧ a ≠ ch "#" ∧ a ≠ ch "*".
Proof.
  unfold conv_prec. destruct (k_prec c); [intros [= <-]; by split_and!|].
  intros (? & ? & ? & ? & _)%conv_end_head. done.
Qed.
Lemma at_digit_head fmt a : head fmt = Some a → at_digit fmt = is_digit a.
Proof. destruct fmt; [done|]. by intros [= ->]. Qed.
Lemma at_char_head fmt a x : head fmt = Some a → at_char fmt x = (a =? ch x).
Proof. destruct fmt; [done|]. by intros [= ->]. Qed.

Lemma conv_end_some c rest : ∃ a, head (conv_end c rest) = Some a.
Proof. unfold conv_end. destruct (k_long c); eauto. Qed.
Lemma conv_prec_some c rest : ∃ a, head (conv_prec c rest) = Some a.
Proof. unfold conv_prec. destruct (k_prec c); [eauto|]. apply conv_end_some. Qed.

Lemma read_flags_stop fmt flags cnt :
  (∀ a, head fmt = Some a → a ≠ ch "-" ∧ a ≠ ch "#" ∧ a ≠ ch "0") →
  read_flags fmt flags cnt = (flags, cnt, fmt).
Proof.
  destruct fmt as [|a f]; [done|]. intros Ha. destruct (Ha a eq_refl) as (H1 & H2 & H3). cbn.
  by rewrite !(proj2 (Z.eqb_neq _ _)).
Qed.

Lemma read_flags_run c rest cnt :
  (∀ w, k_width c = Some w → 0 < w < 10 ^ 8) →
  ∃ k, 0 ≤ k ≤ zlen (opt (k_left c) "-" ++ opt (k_alt c) "#" ++ opt (k_zero c) "0") ∧
    read_flags (opt (k_left c) "-" ++ opt (k_alt c) "#" ++ opt (k_zero c) "0" ++ conv_width c rest)
      0 cnt = (conv_flags c, cnt + k, conv_width c rest).
Proof.
  intros Hw. assert (Hstop : ∀ flags cnt, read_flags (conv_width c rest) flags cnt =
    (flags, cnt, conv_width c rest)).
  { intros flags n. apply read_flags_stop. intros a. unfold conv_width.
    destruct (k_width c) as [w|].
    - destruct (numeral_spec 10 w) as (_ & Hf & Hh & Hne); [lia|specialize (Hw w eq_refl); lia|].
      destruct (numeral 10 w) as [|x l]; [done|]. intros [= <-].
      apply Forall_cons in Hf as [Hx%is_digit_of_10 _]. specialize (Hw w eq_refl).
      split_and!; [intros ->; done..|]. intros ->. apply Hh; [lia|done].
    - intros (Hd & ? & ? & _)%conv_prec_head. split_and!; [done..|]. by intros ->. }
  exists (zlen (opt (k_left c) "-" ++ opt (k_alt c) "#" ++ opt (k_zero c) "0")).
  split; [split; [apply zlen_nonneg|lia]|].
  revert Hstop. generalize (conv_width c rest). intros fmt Hstop. unfold conv_flags.
  assert (R1 : ∀ f fl n, read_flags (txt "-" ++ f) fl n = read_flags f (Z.lor fl LEFT) (n + 1)) by done.
  assert (R2 : ∀ f fl n, read_flags (txt "#" ++ f) fl n = read_flags f (Z.lor fl PREFIX) (n + 1)) by done.
  assert (R3 : ∀ f fl n, read_flags (txt "0" ++ f) fl n = read_flags f (Z.lor fl ZEROPAD) (n + 1)) by done.
  destruct (k_left c), (k_alt c), (k_zero c); cbn [opt app];
    rewrite ?R1, ?R2, ?R3, Hstop, ?zlen_app; do 2 f_equal; unfold zlen; cbn; lia.
Qed.

Lemma read_width_run c rest flags cnt st :
  (∀ w, k_width c = Some w → 0 < w < 10 ^ 8) →
  read_width (conv_width c rest) flags cnt st =
    Ret ((default (-1) (k_width c), flags, cnt, conv_prec c rest), st).
Proof.
  intros Hw. destruct (conv_prec_some c rest) as [a Ha].
  destruct (conv_prec_head _ _ _ Ha) as (Hd & _ & _ & Hs). unfold read_width, conv_width.
  destruct (k_width c) as [w|].
  - specialize (Hw w eq_refl). destruct (numeral_spec 10 w) as (_ & Hf & _ & Hne); [lia|lia|].
    assert (E : at_digit (numeral 10 w ++ conv_prec c rest) = true).
    { destruct (numeral 10 w); [done|]. apply Forall_cons in Hf as [Hx _]. by apply is_digit_of_10. }
    rewrite E, skip_atoi_numeral; [done|lia|]. by rewrite (at_digit_head _ _ Ha).
  - cbn [app default]. rewrite (at_digit_head _ _ Ha), Hd, (at_char_head _ _ _ Ha).
    by rewrite (proj2 (Z.eqb_neq _ _)).
Qed.

Definition dots (c : conv) : Z := match k_prec c with Some _ => 1 | None => 0 end.

Lemma read_precision_run c rest cnt st :
  (∀ p, k_prec c = Some p → 0 ≤ p < 10 ^ 8) →
  read_precision (conv_prec c rest) cnt st =
    Ret ((default (-1) (k_prec c), cnt + dots c, conv_end c rest), st).
Proof.
  unfold dots. intros Hp. destruct (conv_end_some c rest) as [a Ha].
  destruct (conv_end_head _ _ _ Ha) as (Hd & _ & _ & _ & Hdot). unfold read_precision, conv_prec.
  destruct (k_prec c) as [p|].
  - specialize (Hp p eq_refl). destruct (numeral_spec 10 p) as (_ & Hf & _ & Hne); [lia|lia|].
    change (at_char ((txt "." ++ numeral 10 p) ++ conv_end c rest) ".") with true. cbv iota zeta.
    change (tail ((txt "." ++ numeral 10 p) ++ conv_end c rest)) with (numeral 10 p ++ conv_end c rest).
    assert (E : at_digit (numeral 10 p ++ conv_end c rest) = true).
    { destruct (numeral 10 p); [done|]. apply Forall_cons in Hf as [Hx _]. by apply is_digit_of_10. }
    rewrite E, skip_atoi_numeral; [|lia|by rewrite (at_digit_head _ _ Ha)].
    unfold mbind, M_bind, mret, M_ret. cbv iota beta. cbn [default].
    destruct (Z.ltb_spec p 0); [lia|done].
  - cbn [app default]. rewrite (at_char_head _ _ _ Ha), (proj2 (Z.eqb_neq _ _)) by done.
    by rewrite Z.add_0_r.
Qed.

Lemma skip_length_run c rest cnt :
  skip_length (conv_end c rest) cnt =
    (cnt + (if k_long c then 1 else 0), ch (kind_char (k_kind c)) :: rest).
Proof.
  unfold conv_end. destruct (k_long c); [done|]. rewrite Z.add_0_r. by destruct (k_kind c).
Qed.

(** A directive is read as it was written, and no more characters are counted than it has. *)
Lemma directive_run c rest cnt st :
  piece_ok (Dir c) →
  ∃ k, k ≤ zlen (unparse_conv c) ∧ directive (unparse_conv c ++ rest) cnt st =
    (convert (Some (ch (kind_char (k_kind c)))) (conv_flags c) (default (-1) (k_width c))
       (default (-1) (k_prec c));; mret (rest, cnt + k)) st.
Proof.
  intros [Hw Hp]. destruct (read_flags_run c rest cnt Hw) as (k1 & Hk1 & E1).
  pose proof (read_precision_run c rest (cnt + k1) st Hp) as E2. unfold dots in *.
  exists (k1 + dots c + (if k_long c then 1 else 0) + 1). unfold dots. split.
  - unfold unparse_conv. rewrite !app_assoc, <- (app_assoc (opt (k_left c) "-")).
    rewrite !zlen_app in *. pose proof (zlen_nonneg (match k_width c with Some w => numeral 10 w | None => [] end)).
    destruct (k_prec c), (k_long c); unfold zlen in *; cbn [length opt txt] in *; cbn; lia.
  - unfold directive. rewrite unparse_conv_parts, E1. mstep (read_width_run c rest (conv_flags c) (cnt + k1) st Hw).
    mstep E2. rewrite skip_length_run. cbn [head].
    by replace (cnt + (k1 + match k_prec c with Some _ => 1 | None => 0 end + (if k_long c then 1 else 0) + 1))
      with (cnt + k1 + match k_prec c with Some _ => 1 | None => 0 end + (if k_long c then 1 else 0) + 1) by lia.
Qed.

(** ** Writing it *)

Lemma conv_flag c f k :
  f = 2 ^ k → 0 ≤ k →
  flag (conv_flags c) f =
    (k_left c && (f =? LEFT)) || (k_alt c && (f =? PREFIX)) || (k_zero c && (f =? ZEROPAD)).
Proof.
  intros Hf Hk. unfold conv_flags. rewrite !(flag_lor _ _ f k) by done.
  assert (E : ∀ (b : bool) g j, g = 2 ^ j → 0 ≤ j → flag (if b then g else 0) f = b && (f =? g)).
  { intros [] g j -> Hj; cbn [andb].
    - rewrite Hf, flag_bit, Z.pow2_bits_eqb by lia. destruct (Z.eqb_spec j k) as [->|Hjk].
      + symmetry. apply Z.eqb_refl.
      + symmetry. apply Z.eqb_neq. intros E. apply Hjk. symmetry. by apply (Z.pow_inj_r 2); lia.
    - unfold flag. by rewrite Z.land_0_l. }
  by rewrite (E _ LEFT 5), (E _ PREFIX 7), (E _ ZEROPAD 0).
Qed.

(** Flags a conversion adds. *)
Lemma conv_flags_type c u :
  u = SIGN ∨ u = 0 ∨ u = Z.lor SMALL HEX ∨ u = OCT →
  let t := Z.lor (conv_flags c) u in
  flag t BIN = false ∧ flag t LEFT = k_left c ∧ flag t PREFIX = k_alt c ∧ flag t ZEROPAD = k_zero c ∧
  flag t SIGN = (u =? SIGN) ∧ flag t OCT = (u =? OCT) ∧ flag t HEX = (u =? Z.lor SMALL HEX).
Proof.
  intros Hu t. subst t.
  rewrite (flag_lor _ _ BIN 1), (flag_lor _ _ LEFT 5), (flag_lor _ _ PREFIX 7), (flag_lor _ _ ZEROPAD 0),
    (flag_lor _ _ SIGN 2), (flag_lor _ _ OCT 3), (flag_lor _ _ HEX 4) by done.
  rewrite (conv_flag c BIN 1), (conv_flag c LEFT 5), (conv_flag c PREFIX 7), (conv_flag c ZEROPAD 0),
    (conv_flag c SIGN 2), (conv_flag c OCT 3), (conv_flag c HEX 4) by done.
  destruct Hu as [->|[->|[->| ->]]]; destruct (k_left c), (k_alt c), (k_zero c); by vm_compute.
Qed.

Lemma i64_range z : - 2 ^ 63 ≤ i64 z < 2 ^ 63.
Proof. unfold i64. pose proof (Z.mod_pos_bound (z + 2 ^ 63) (2 ^ 64)). lia. Qed.
Lemma u64_i64 z : u64 (i64 z) = u64 z.
Proof.
  unfold u64, i64. rewrite Zminus_mod_idemp_l. by replace (z + 2 ^ 63 - 2 ^ 63) with z by lia.
Qed.

Lemma u8_i32 z : u8 (i32 z) = u8 z.
Proof.
  unfold u8, i32. rewrite Zminus_mod, Z.mod_mod_divide by (by exists (2 ^ 24)).
  rewrite <- Zminus_mod. f_equal. lia.
Qed.

Lemma va_num_run z l st : va st = ANum z :: l → va_num st = Ret (z, Fmt (out st) l (stores st)).
Proof. intros E. unfold va_num. munfold. by rewrite E. Qed.
Lemma va_str_run s l st :
  va st = AStr s :: l → va_str st = Ret (default (txt "(null)") s, Fmt (out st) l (stores st)).
Proof. intros E. unfold va_str. munfold. by rewrite E. Qed.

(** A numeric conversion. *)
Lemma put_number_run c u z l st :
  u = SIGN ∨ u = 0 ∨ u = Z.lor SMALL HEX ∨ u = OCT → va st = ANum z :: l →
  let base := if u =? OCT then 8 else if u =? Z.lor SMALL HEX then 16 else 10 in
  let neg := (u =? SIGN) && (i64 z <? 0) in
  put_number (Z.lor (conv_flags c) u) (default (-1) (k_width c)) (default (-1) (k_prec c)) st =
    Ret (tt, Fmt (out st ++ num_field c base neg (if neg then - i64 z else u64 z)) l (stores st)).
Proof.
  intros Hu Hva base neg. destruct (conv_flags_type c u Hu) as (Eb & El & Ea & Ez & Es & Eo & Eh).
  unfold put_number. mstep (va_num_run z l st Hva). rewrite number_run; [|done| |apply i64_range].
  - rewrite El, Ea, Ez. unfold magnitude, signed. rewrite Es, u64_i64. fold neg.
    assert (E : base_of (Z.lor (conv_flags c) u) = base).
    { unfold base_of. rewrite Eb, Eo, Eh. done. }
    rewrite E. done.
  - rewrite Eo, Eh. by destruct Hu as [->|[->|[->| ->]]].
Qed.

(** [%s] and [%c]: the blanks of the field are written on one side; what is written between
    may take arguments. *)
Lemma field_run c m s (l : list arg) st :
  (∀ st', va st' = va st → m st' = Ret (tt, Fmt (out st' ++ s) l (stores st'))) →
  (w ← fill_left (conv_flags c) (default (-1) (k_width c)); m;; fill_right w) st =
    Ret (tt, Fmt (out st ++ field c s) l (stores st)).
Proof.
  intros Hm. unfold fill_left, fill_right, field. rewrite (conv_flag c LEFT 5) by done.
  change (LEFT =? LEFT) with true. change (LEFT =? PREFIX) with false. change (LEFT =? ZEROPAD) with false.
  rewrite !andb_false_r, !orb_false_r, andb_true_r. set (w := default (-1) (k_width c)).
  destruct (k_left c); cbn [negb].
  - change ((m;; emit (times w " ")) st = Ret (tt, Fmt (out st ++ s ++ times w " ") l (stores st))).
    mstep (Hm st eq_refl). unfold emit, modify. cbn. by rewrite app_assoc.
  - change ((m;; emit (times (MIN w 0) " ")) (add (times w " ") st) =
      Ret (tt, Fmt (out st ++ times w " " ++ s) l (stores st))).
    mstep (Hm (add (times w " ") st) eq_refl). rewrite times_nonpos.
    + unfold emit, modify. cbn. by rewrite app_nil_r, app_assoc.
    + unfold MIN. destruct (Z.ltb_spec w 0); lia.
Qed.

Lemma convert_run c a l t st :
  va st = a :: l → render_conv c a = Some t →
  convert (Some (ch (kind_char (k_kind c)))) (conv_flags c) (default (-1) (k_width c))
    (default (-1) (k_prec c)) st = Ret (tt, Fmt (out st ++ t) l (stores st)).
Proof.
  intros Hva Hr. unfold render_conv in Hr.
  assert (Hlor : conv_flags c = Z.lor (conv_flags c) 0) by (by rewrite Z.lor_0_r).
  destruct (k_kind c) eqn:Ek; destruct a as [z|s|]; try done; injection Hr as <-; unfold convert, kind_char.
  - change (put_number (Z.lor (conv_flags c) SIGN) (default (-1) (k_width c)) (default (-1) (k_prec c)) st =
      Ret (tt, Fmt (out st ++ num_field c 10 (i64 z <? 0) (Z.abs (i64 z))) l (stores st))).
    rewrite (put_number_run c SIGN z l st) by auto. cbn [Z.eqb andb]. change (SIGN =? SIGN) with true.
    cbn [andb]. destruct (Z.ltb_spec (i64 z) 0) as [Hn|Hn].
    + rewrite Z.abs_neq by lia. done.
    + rewrite Z.abs_eq by lia. rewrite <- u64_i64. pose proof (i64_range z). rewrite u64_small by lia. done.
  - change (put_number (conv_flags c) (default (-1) (k_width c)) (default (-1) (k_prec c)) st =
      Ret (tt, Fmt (out st ++ num_field c 10 false (u64 z)) l (stores st))).
    rewrite Hlor, (put_number_run c 0 z l st) by auto. done.
  - change (put_number (Z.lor (Z.lor (conv_flags c) SMALL) HEX) (default (-1) (k_width c)) (default (-1) (k_prec c)) st =
      Ret (tt, Fmt (out st ++ num_field c 16 false (u64 z)) l (stores st))).
    rewrite <- Z.lor_assoc, (put_number_run c _ z l st) by auto. done.
  - change (put_number (Z.lor (conv_flags c) OCT) (default (-1) (k_width c)) (default (-1) (k_prec c)) st =
      Ret (tt, Fmt (out st ++ num_field c 8 false (u64 z)) l (stores st))).
    rewrite (put_number_run c OCT z l st) by auto. done.
  - change ((s ← va_str; w ← fill_left (conv_flags c) (default (-1) (k_width c)); emit s;; fill_right w) st =
      Ret (tt, Fmt (out st ++ field c (default (txt "(null)") s)) l (stores st))).
    mstep (va_str_run s l st Hva).
    rewrite (field_run c (emit (default (txt "(null)") s)) (default (txt "(null)") s) l); [done|].
    intros st' Hst. unfold emit, modify. by rewrite Hst.
  - change ((w ← fill_left (conv_flags c) (default (-1) (k_width c)); z ← va_int; emit [u8 z];; fill_right w) st =
      Ret (tt, Fmt (out st ++ field c [u8 z]) l (stores st))).
    rewrite <- (field_run c (z ← va_int; emit [u8 z]) [u8 z] l st).
    + unfold mbind, M_bind. case_match; [|done..]. case_match. case_match; [|done..]. by case_match.
    + intros st' Hst. rewrite Hva in Hst.
      assert (E : va_int st' = Ret (i32 z, Fmt (out st') l (stores st')))
        by (unfold va_int; by mstep (va_num_run z l st' Hst)).
      mstep E. unfold emit, modify. cbn. by rewrite u8_i32.
Qed.

(** ** The whole format *)

Lemma vloop_run n ps : ∀ fuel cnt st t,
  Forall piece_ok ps → render ps (va st) = Some t →
  cnt + zlen (concat (unparse <$> ps)) ≤ n → (length (concat (unparse <$> ps)) < fuel)%nat →
  ∃ l, vloop fuel n cnt (concat (unparse <$> ps)) st = Ret (tt, Fmt (out st ++ t) l (stores st)).
Proof.
  induction ps as [|p ps IH]; intros fuel cnt st t Hok Hr Hn Hf; (destruct fuel as [|fuel]; [lia|]).
  { exists (va st). injection Hr as <-. cbn. rewrite app_nil_r. by destruct st. }
  apply Forall_cons in Hok as [Hp Hok]. cbn [fmap list_fmap concat] in *.
  rewrite zlen_app in Hn. rewrite length_app in Hf.
  pose proof (zlen_nonneg (concat (unparse <$> ps))) as Hnn.
  destruct p as [c| |c]; cbn [unparse render] in *.
  - apply bind_Some in Hr as (t' & Hr & [= <-]). destruct Hp as [Hc0 Hc].
    change (zlen [c]) with 1 in Hn. change (length [c]) with 1%nat in Hf.
    cbn [app vloop]. rewrite (proj2 (Z.ltb_lt cnt n)), (proj2 (Z.eqb_neq c _)) by (done || lia).
    cbn [negb]. destruct (IH fuel (cnt + 1) (add [c] st) t') as [l E]; [done|done|lia|lia|].
    exists l. rewrite emit_run, E. cbn. by rewrite <- app_assoc.
  - apply bind_Some in Hr as (t' & Hr & [= <-]).
    change (zlen (txt "%%")) with 2 in Hn. change (length (txt "%%")) with 2%nat in Hf.
    change (txt "%%" ++ concat (unparse <$> ps)) with (ch "%" :: txt "%" ++ concat (unparse <$> ps)).
    cbn [vloop]. rewrite (proj2 (Z.ltb_lt cnt n)) by lia. change (ch "%" =? ch "%") with true. cbn [negb].
    assert (E1 : directive (txt "%" ++ concat (unparse <$> ps)) (cnt + 1) st =
      Ret ((concat (unparse <$> ps), cnt + 1 + 1), add (txt "%") st)).
    { change (Ret ((concat (unparse <$> ps), cnt + 1 + 1), add (txt "%") (add [] st)) =
        Ret ((concat (unparse <$> ps), cnt + 1 + 1), add (txt "%") st)) || idtac.
      unfold directive. cbn. by rewrite ?add_nil. }
    mstep E1. destruct (IH fuel (cnt + 1 + 1) (add (txt "%") st) t') as [l E]; [done|done|lia|lia|].
    exists l. rewrite E. cbn. by rewrite <- app_assoc.
  - destruct (va st) as [|a l] eqn:Hva; [done|].
    apply bind_Some in Hr as (t1 & Hr1 & Hr). apply bind_Some in Hr as (t2 & Hr2 & [= <-]).
    rewrite (zlen_cons (ch "%")) in Hn. cbn [length] in Hf. cbn [app vloop].
    pose proof (zlen_nonneg (unparse_conv c)).
    rewrite (proj2 (Z.ltb_lt cnt n)) by lia. change (ch "%" =? ch "%") with true. cbn [negb].
    destruct (directive_run c (concat (unparse <$> ps)) (cnt + 1) st Hp) as (k & Hk & E1).
    rewrite (mbind_Ret _ _ _ _ _ (convert_run c a l t1 st Hva Hr1)) in E1.
    mstep E1. destruct (IH fuel (cnt + 1 + k) (Fmt (out st ++ t1) l (stores st)) t2) as [l' E];
      [done|done|lia|lia|].
    exists l'. rewrite E. cbn. by rewrite <- app_assoc.
Qed.

Lemma vsnprintf_run (cap n : Z) (ps : list piece) (args : list arg) (t : text) :
  Forall piece_ok ps → render ps args = Some t → zlen (concat (unparse <$> ps)) ≤ n →
  zlen t < 2 ^ 31 →
  vsnprintf cap n (concat (unparse <$> ps)) args =
    if zlen t <? cap then Ret (zlen t, t ++ [0], []) else Fault.
Proof.
  intros Hok Hr Hn Ht. unfold vsnprintf.
  destruct (vloop_run n ps (S (length (concat (unparse <$> ps)))) 0 (Fmt [] args []) t) as [l E];
    [done|done|lia|lia|].
  rewrite E. cbn [out stores app]. pose proof (zlen_nonneg t). rewrite i32_small by lia.
  destruct (Z.leb_spec (zlen t + 1) cap), (Z.ltb_spec (zlen t) cap); (done || lia).
Qed.

(** ** The console *)

(** Interrupt nesting, and the characters handed to [put_char]. *)
Record console := Console {
  con_env : lockenv;
  con_out : text
}.
Definition on_env {A} (m : M lockenv A) : M console A :=
  zoom (Lens con_env (λ e s, Console e (con_out s))) m.
Definition putchar (c : Z) : M console unit := modify (λ s, Console (con_env s) (con_out s ++ [c])).

Fixpoint put_all (l : text) : M console unit :=
  match l with [] => mret tt | c :: l => putchar c;; put_all l end.

(** [write(buf, n)]; [i < n] compares as unsigned numbers, and [buf] holds the [n] bytes. *)
Definition write (l : text) : M console unit :=
  on_env (irq_pushoff 0);; put_all l;; on_env (irq_popoff 0).

Definition printf (fmt : text) (args : list arg) : M console Z := λ s,
  match vsnprintf BUFMAX BUFMAX fmt args with
  | Ret (i, buf, _) => (write (take (Z.to_nat i) buf);; mret i) s
  | Panic => Panic
  | Fault => Fault
  | Spin => Spin
  end.

Definition puts (buf : text) : M console Z := put_all buf;; mret (zlen buf).

Lemma put_all_run l : ∀ s, put_all l s = Ret (tt, Console (con_env s) (con_out s ++ l)).
Proof.
  induction l as [|c l IH]; intros s; [by destruct s; cbn; rewrite app_nil_r|].
  change (put_all l (Console (con_env s) (con_out s ++ [c])) =
    Ret (tt, Console (con_env s) (con_out s ++ c :: l))).
  rewrite IH. cbn. by rewrite <- app_assoc.
Qed.

(** [printf] hands the text to the console with interrupts off, and leaves the interrupt
    nesting as it was. *)
Lemma printf_run s ps args t :
  env_ok (con_env s) → Forall piece_ok ps → render ps args = Some t →
  zlen (concat (unparse <$> ps)) ≤ BUFMAX → zlen t < BUFMAX →
  printf (concat (unparse <$> ps)) args s =
    Ret (zlen t, Console (touched (con_env s)) (con_out s ++ t)).
Proof.
  intros (c & Hc & Hn & Hi) Hok Hr Hf Ht. change BUFMAX with 128 in *. unfold printf.
  rewrite (vsnprintf_run BUFMAX BUFMAX ps args t); [|done..|lia].
  rewrite (proj2 (Z.ltb_lt (zlen t) BUFMAX)) by (change BUFMAX with 128; lia).
  assert (Et : take (Z.to_nat (zlen t)) (t ++ [0]) = t) by (apply take_app_length'; unfold zlen; lia).
  rewrite Et. unfold write, on_env, zoom. munfold. cbn.
  rewrite (irq_pushoff_ok 0 _ c) by (done || lia). cbn. rewrite put_all_run. cbn.
  erewrite (irq_popoff_ok 0 _ (enter_cpu c)); [|apply list_lookup_insert_eq; by eapply lookup_lt_Some|done|cbn; lia].
  cbn. do 3 f_equal. unfold touched, on_cpu0, set_cpu. destruct (con_env s) as [[|c0 cs] ls]; [done|].
  cbn in *. simplify_eq/=. unfold touch_cpu, enter_cpu. cbn.
  replace (noff c + 1 - 1) with (noff c) by lia.
  destruct (Z.eqb_spec (noff c) 0); cbn; [done|]. by rewrite Hi by lia.
Qed.

(** C23: Every format of literal characters, [%%] and the directives [%d %u %x %o %s %c] with
    flags, width, precision and length mark is rendered piece by piece, provided the bound
    [n] covers the format.  The bound counts characters of the format, so it does not
    protect the buffer: a text that does not fit is written past its end. *)
Theorem vsnprintf_renders (cap n : Z) (ps : list piece) (args : list arg) (t : text) :
  Forall piece_ok ps → render ps args = Some t → zlen (concat (unparse <$> ps)) ≤ n →
  zlen t < 2 ^ 31 →
  vsnprintf cap n (concat (unparse <$> ps)) args =
    if zlen t <? cap then Ret (zlen t, t ++ [0], []) else Fault.
Proof. apply vsnprintf_run. Qed.

(** ** Examples *)

Definition demo_fmt : list piece :=
  [Dir (Conv false false false (Some 5) None false KD); Lit (ch "|");
   Dir (Conv true true false (Some 6) None true KX); Lit (ch "|");
   Dir (Conv false false false None None false KS); Percent].

Lemma vsnprintf_renders_witness :
  vsnprintf 64 64 (txt "%5d|%-#6lx|%s%%") [ANum (-42); ANum 255; AStr (Some (txt "ok"))] =
  Ret (16, txt "  -42|0xff  |ok%" ++ [0], []).
Proof.
  refine (vsnprintf_renders 64 64 demo_fmt [ANum (-42); ANum 255; AStr (Some (txt "ok"))]
    (txt "  -42|0xff  |ok%") _ _ _ _).
  - repeat (apply Forall_cons_2; [first [exact I|split; (discriminate || intros ? [= <-]; lia)]|]).
    apply Forall_nil_2.
  - vm_compute. reflexivity.
  - vm_compute. discriminate.
  - vm_compute. reflexivity.
Defined.

Lemma number_spec_witness :
  ∃ ds, number (-255) 10 (-1) (Z.lor SIGN ZEROPAD) (Fmt [] [] []) =
      Ret (tt, add (layout false true false 10 true 10 (-1) ds) (Fmt [] [] [])) ∧
    value 10 ds = 255.
Proof.
  destruct (number_spec (Fmt [] [] []) (-255) 10 (-1) (Z.lor SIGN ZEROPAD)) as (ds & E & Hv & _ & _).
  - reflexivity.
  - reflexivity.
  - lia.
  - exists ds. split; [exact E|exact Hv].
Defined.

(** [snprintf] into eight bytes with the bound 8 writes eleven. *)
Example snprintf_overruns : snprintf 8 8 (txt "%s") [AStr (Some (txt "0123456789"))] = Fault.
Proof. by vm_compute. Qed.
(** A [*] as the precision takes its argument and is then printed as a directive. *)
Example precision_star :
  vsnprintf 64 64 (txt "%.*d") [ANum 3; ANum 7] = Ret (3, txt "%*d" ++ [0], []).
Proof. by vm_compute. Qed.
(** A field is filled with its whole width in front of a string of any length. *)
Example string_width : vsnprintf 64 64 (txt "%4s") [AStr (Some (txt "ab"))] = Ret (6, txt "    ab" ++ [0], []).
Proof. by vm_compute. Qed.
