(* ===== verification/Kfifo.v ===== *)
(** * The kernel FIFO

    Models [kernel/lib/kfifo.c] and the inline functions of
    [kernel/include/tools/kfifo.h]: a power-of-two ring buffer whose two indices
    are free-running 32-bit counters.  The refinement theorem relates it to a
    bounded byte queue, and [ByteQueue] is the interface under which the pipe
    uses it. *)

From S2P Require Export Locking.

(** ** The ring buffer *)

Record kfifo := Kfifo {
  buffer : option (list Z);
  size : Z;
  in_ : Z;
  out : Z;
  lock : Z
}.

#[export] Instance kfifo_eq_dec : EqDecision kfifo.
Proof. solve_decision. Defined.

Definition is_power_of_2 (x : Z) : bool :=
  ctrue x && (Z.land x (u32 (x - 1)) =? 0).

(** The loop of [roundup_pow_of_two]: the number of significant bits. *)
Fixpoint bit_length (fuel : nat) (temp : Z) : Z :=
  match fuel with
  | O => 0
  | S fuel => if 0 <? temp then u32 (1 + bit_length fuel (Z.shiftr temp 1)) else 0
  end.

(** [1U << bit_length] has no meaning in C once the count reaches 32. *)
Definition roundup_pow_of_two (n : Z) : option Z :=
  if n =? 0 then Some 1
  else if n =? Z.land n (u32 (- n)) then Some n
  else let b := bit_length 32 n in
       if b <? 32 then Some (Z.shiftl 1 b) else None.

Definition sizeof_kfifo : Z := 32.

Section alloc.
(** What the allocator answers: the contents of a fresh block, or NULL. *)
Variable kmem : Z → option (list Z).

Definition kfifo_init (buf : list Z) (size lock : Z) : option kfifo :=
  match kmem sizeof_kfifo with
  | None => None
  | Some _ => Some (Kfifo (Some buf) size 0 0 lock)
  end.

(** [None] inside [Ret] is the NULL result. *)
Definition kfifo_alloc (size lock : Z) : outcome (option kfifo) :=
  match (if negb (is_power_of_2 size) then roundup_pow_of_two size else Some size) with
  | None => Fault
  | Some size =>
      match kmem size with
      | None => Ret None
      | Some buf => Ret (kfifo_init buf size lock)
      end
  end.
End alloc.

Definition set_in (x : Z) (f : kfifo) : kfifo :=
  Kfifo (buffer f) (size f) x (out f) (lock f).
Definition set_out (x : Z) (f : kfifo) : kfifo :=
  Kfifo (buffer f) (size f) (in_ f) x (lock f).
Definition set_buffer (b : list Z) (f : kfifo) : kfifo :=
  Kfifo (Some b) (size f) (in_ f) (out f) (lock f).

Definition __kfifo_reset : M kfifo unit := modify (λ f, set_in 0 (set_out 0 f)).

Definition __kfifo_len : M kfifo Z := gets (λ f, u32 (in_ f - out f)).

(** [src] is the caller's buffer; the two [memcpy]s are slices and splices. *)
Definition __kfifo_put (src : list Z) (len : Z) : M kfifo Z :=
  f ← mget;
  let mask := u32 (size f - 1) in
  let len := MIN len (u32 (size f - in_ f + out f)) in
  let l := MIN len (u32 (size f - Z.land (in_ f) mask)) in
  b ← mlift (buffer f);
  s1 ← mlift (zslice src 0 l);
  b ← mlift (zsplice b (Z.land (in_ f) mask) s1);
  s2 ← mlift (zslice src l (len - l));
  b ← mlift (zsplice b 0 s2);
  modify (set_buffer b);;
  modify (λ f, set_in (u32 (in_ f + len)) f);;
  mret len.

(** [dst] is the caller's buffer, handed back with the bytes copied into it. *)
Definition __kfifo_get (dst : list Z) (len : Z) : M kfifo (Z * list Z) :=
  f ← mget;
  let mask := u32 (size f - 1) in
  let len := MIN len (u32 (in_ f - out f)) in
  let l := MIN len (u32 (size f - Z.land (out f) mask)) in
  b ← mlift (buffer f);
  s1 ← mlift (zslice b (Z.land (out f) mask) l);
  dst ← mlift (zsplice dst 0 s1);
  s2 ← mlift (zslice b 0 (len - l));
  dst ← mlift (zsplice dst l s2);
  modify (λ f, set_out (u32 (out f + len)) f);;
  mret (len, dst).

(** ** The locked operations: a FIFO inside a state with locks *)

Record fifo_state := FifoState {
  fifo : kfifo;
  fenv : lockenv
}.

#[export] Instance fenv_lawful : LawfulLens (Lens fenv (λ e s, FifoState (fifo s) e)).
Proof. split; [done|by intros []|done]. Qed.
#[export] Instance fifo_HasLocks : HasLocks fifo_state :=
  {| lock_lens := Lens fenv (λ e s, FifoState (fifo s) e) |}.

Definition fifo_lens : lens fifo_state kfifo :=
  Lens fifo (λ f s, FifoState f (fenv s)).

Definition kfifo_reset : M fifo_state unit :=
  lk ← gets (λ s, lock (fifo s));
  acquire lk;;
  zoom fifo_lens __kfifo_reset;;
  release lk.

Definition kfifo_put (src : list Z) (len : Z) : M fifo_state Z :=
  lk ← gets (λ s, lock (fifo s));
  acquire lk;;
  ret ← zoom fifo_lens (__kfifo_put src len);
  release lk;;
  mret ret.

Definition kfifo_get (dst : list Z) (len : Z) : M fifo_state (Z * list Z) :=
  lk ← gets (λ s, lock (fifo s));
  acquire lk;;
  ret ← zoom fifo_lens
    (r ← __kfifo_get dst len;
     f ← mget;
     (if in_ f =? out f then __kfifo_reset else mret tt);;
     mret r);
  release lk;;
  mret ret.

(** The buffer pointer becomes NULL; the FIFO itself is gone with it, so every later
    use of it faults. *)
Definition kfifo_free : M fifo_state unit :=
  lk ← gets (λ s, lock (fifo s));
  acquire lk;;
  zoom fifo_lens (modify (λ f, Kfifo None (size f) (in_ f) (out f) (lock f)));;
  release lk.

Definition kfifo_len : M fifo_state Z :=
  lk ← gets (λ s, lock (fifo s));
  acquire lk;;
  ret ← zoom fifo_lens __kfifo_len;
  release lk;;
  mret ret.

(** ** Well-formedness and the abstract queue *)

Record ring (f : kfifo) (b : list Z) (k : Z) : Prop := Ring {
  ring_buffer : buffer f = Some b;
  ring_shift : 0 ≤ k ≤ 31;
  ring_pow2 : size f = 2 ^ k;
  ring_length : zlen b = size f;
  ring_in : 0 ≤ in_ f < 2 ^ 32;
  ring_out : 0 ≤ out f < 2 ^ 32;
  ring_occ : u32 (in_ f - out f) ≤ size f
}.

Definition kfifo_wf (f : kfifo) : Prop := ∃ b k, ring f b k.

(** The bytes in the queue, oldest first. *)
Definition fifo_bytes (f : kfifo) : list Z :=
  match buffer f with
  | Some b =>
      (λ i, nth (Z.to_nat ((out f + i) mod size f)) b 0) <$>
        seqZ 0 (u32 (in_ f - out f))
  | None => []
  end.

(** ** The interface: a bounded byte queue *)

Class ByteQueue (Q : Type) := {
  q_ok : Q → Prop;
  q_cap : Q → Z;
  q_bytes : Q → list Z;
  q_put : list Z → Z → M Q Z;
  q_get : list Z → Z → M Q (Z * list Z);
  q_free : M Q unit;
  q_put_spec q src len :
    q_ok q → 0 ≤ len < 2 ^ 32 → len ≤ zlen src →
    ∃ n q', n = MIN len (q_cap q - zlen (q_bytes q)) ∧
      q_put src len q = Ret (n, q') ∧ q_ok q' ∧ q_cap q' = q_cap q ∧
      q_bytes q' = q_bytes q ++ take (Z.to_nat n) src;
  q_get_spec q dst len :
    q_ok q → 0 ≤ len < 2 ^ 32 → len ≤ zlen dst →
    ∃ n q', n = MIN len (zlen (q_bytes q)) ∧
      q_get dst len q =
        Ret ((n, take (Z.to_nat n) (q_bytes q) ++ drop (Z.to_nat n) dst), q') ∧
      q_ok q' ∧ q_cap q' = q_cap q ∧
      q_bytes q' = drop (Z.to_nat n) (q_bytes q);
  q_free_spec q : q_ok q → ∃ q', q_free q = Ret (tt, q');
  q_cap_spec q : q_ok q → zlen (q_bytes q) ≤ q_cap q
}.

(** ** Ring arithmetic *)

Section ring.
Context {f : kfifo} {b : list Z} {k : Z} (R : ring f b k).

Lemma ring_size : 0 < size f ≤ 2 ^ 31.
Proof using R.
  destruct R as [Hb Hk Hs Hlen Hin Hout Hocc]. rewrite Hs.
  split; [apply Z.pow_pos_nonneg|apply Z.pow_le_mono_r]; lia.
Qed.

Lemma ring_mask x : Z.land x (u32 (size f - 1)) = x mod size f.
Proof. destruct R as [Hb Hk Hs Hlen Hin Hout Hocc]. rewrite Hs. apply land_mask_pow2. lia. Qed.

Lemma ring_index_range x : 0 ≤ x mod size f < size f.
Proof. apply Z.mod_pos_bound. pose proof ring_size. lia. Qed.

(** Free space, computed with wrap-around exactly as the code does. *)
Lemma ring_space : u32 (size f - in_ f + out f) = size f - u32 (in_ f - out f).
Proof.
  pose proof ring_size. pose proof (u32_range (in_ f - out f)).
  pose proof (ring_occ _ _ _ R).
  rewrite <- (u32_small (size f - u32 (in_ f - out f))) by lia.
  unfold u32. rewrite Zminus_mod_idemp_r. f_equal. lia.
Qed.

(** An index modulo the size, counted from the write end. *)
Lemma ring_from_in i :
  (out f + i) mod size f = (in_ f + (i - u32 (in_ f - out f))) mod size f.
Proof.
  destruct R as [Hb Hk Hs Hlen Hin Hout Hocc]. rewrite Hs.
  replace (in_ f + (i - u32 (in_ f - out f)))
    with (in_ f + i - u32 (in_ f - out f)) by lia.
  rewrite <- (Zminus_mod_idemp_r _ (u32 _)), u32_mod_pow2, Zminus_mod_idemp_r by lia.
  f_equal. lia.
Qed.

Lemma fifo_bytes_zlen : zlen (fifo_bytes f) = u32 (in_ f - out f).
Proof.
  pose proof (u32_range (in_ f - out f)). unfold fifo_bytes, zlen.
  rewrite (ring_buffer _ _ _ R), length_fmap, length_seqZ. lia.
Qed.

Lemma fifo_bytes_lookup i :
  0 ≤ i < u32 (in_ f - out f) →
  fifo_bytes f !! Z.to_nat i = b !! Z.to_nat ((out f + i) mod size f).
Proof.
  intros Hi. unfold fifo_bytes. rewrite (ring_buffer _ _ _ R), list_lookup_fmap.
  rewrite (lookup_seqZ_lt 0) by lia. cbn. rewrite Z2Nat.id by lia. cbn.
  pose proof (ring_index_range (out f + i)). pose proof (ring_length _ _ _ R).
  rewrite nth_lookup, Z.add_0_l. destruct (lookup_lt_is_Some_2 b
    (Z.to_nat ((out f + i) mod size f))) as [x ->]; [unfold zlen in *; lia|done].
Qed.

(** What the arithmetic of [__kfifo_put] and [__kfifo_get] computes: the count
    [n] and the length [l] of the part before the end of the buffer. *)
Lemma ring_split idx len space :
  0 ≤ len → 0 ≤ space ≤ size f →
  let off := idx mod size f in
  let n := MIN len space in
  let l := MIN n (u32 (size f - off)) in
  0 ≤ l ≤ n ∧ n ≤ len ∧ n ≤ space ∧ l ≤ size f - off ∧
  (l < n → l = size f - off).
Proof.
  intros Hl Hs off n l. pose proof ring_size. pose proof (ring_index_range idx).
  subst l n. rewrite u32_small by (subst off; lia). unfold MIN.
  repeat case_if_eq; zbool; lia.
Qed.
End ring.

(** Adding [n] to one index adds [n] to the distance, modulo the wrap. *)
Lemma u32_sub_add_l a b n : u32 (u32 (a + n) - b) = u32 (u32 (a - b) + n).
Proof.
  unfold u32. rewrite Zminus_mod_idemp_l, Zplus_mod_idemp_l. f_equal. lia.
Qed.
Lemma u32_sub_add_r a b n : u32 (a - u32 (b + n)) = u32 (u32 (a - b) - n).
Proof.
  unfold u32. rewrite Zminus_mod_idemp_l, Zminus_mod_idemp_r. f_equal. lia.
Qed.

(** Two consecutive splices, the second at the start of the buffer: what the two
    [memcpy]s of [__kfifo_put] leave at index [j]. *)
Lemma two_splices (b src b1 b2 : list Z) off l n j :
  zsplice b off (take (Z.to_nat l) src) = Some b1 →
  zsplice b1 0 (take (Z.to_nat (n - l)) (drop (Z.to_nat l) src)) = Some b2 →
  0 ≤ l ≤ n → n ≤ zlen src → 0 ≤ j →
  b2 !! Z.to_nat j =
    if decide (j < n - l) then src !! Z.to_nat (l + j)
    else if decide (off ≤ j < off + l) then src !! Z.to_nat (j - off)
    else b !! Z.to_nat j.
Proof.
  intros H1 H2 Hl Hn Hj. unfold zlen in Hn.
  rewrite (lookup_zsplice _ _ _ _ _ H2), (lookup_zsplice _ _ _ _ _ H1).
  unfold zlen. rewrite !length_take, !length_drop, !Z2Nat.id by lia.
  repeat case_decide; try lia; try done.
  - rewrite lookup_take_lt, lookup_drop by lia. f_equal. lia.
  - by rewrite lookup_take_lt by lia.
Qed.

(** The bytes of the ring after the two copies of [__kfifo_put]. *)
Lemma fifo_bytes_put f b k src n l b1 b2 :
  ring f b k → 0 ≤ l ≤ n → n ≤ zlen src →
  n ≤ size f - u32 (in_ f - out f) →
  l ≤ size f - in_ f mod size f → (l < n → l = size f - in_ f mod size f) →
  zsplice b (in_ f mod size f) (take (Z.to_nat l) src) = Some b1 →
  zsplice b1 0 (take (Z.to_nat (n - l)) (drop (Z.to_nat l) src)) = Some b2 →
  let f' := set_in (u32 (in_ f + n)) (set_buffer b2 f) in
  ring f' b2 k ∧ fifo_bytes f' = fifo_bytes f ++ take (Z.to_nat n) src.
Proof.
  intros R Hl Hn Hsp Hlo Hlw H1 H2 f'. pose proof (ring_size R).
  pose proof (u32_range (in_ f - out f)) as Hr. pose proof (ring_index_range R (in_ f)).
  set (occ := u32 (in_ f - out f)) in *. set (off := in_ f mod size f) in *.
  assert (Hocc : u32 (in_ f' - out f') = occ + n).
  { cbn. rewrite u32_sub_add_l. apply u32_small. fold occ. lia. }
  assert (R' : ring f' b2 k).
  { destruct R as [Hb Hk Hs Hlen Hin Hout Ho].
    split; cbn; try done; [|apply u32_range|cbn in Hocc; lia].
    by rewrite (zsplice_length _ _ _ _ H2), (zsplice_length _ _ _ _ H1). }
  split; [done|].
  assert (zlen (take (Z.to_nat n) src) = n) as Htk
    by (unfold zlen in *; rewrite length_take; lia).
  pose proof (fifo_bytes_zlen R) as Hz. fold occ in Hz.
  apply list_eq_app; rewrite ?Htk, ?Hz; [by rewrite (fifo_bytes_zlen R'), Hocc| |]; intros i Hi;
    rewrite (fifo_bytes_lookup R') by (rewrite Hocc; lia);
    rewrite (two_splices _ _ _ _ _ _ _ _ H1 H2) by (done || apply (ring_index_range R'));
    change (out f') with (out f); change (size f') with (size f);
    rewrite (ring_from_in R); fold occ; rewrite mod_add_small by lia; fold off; cbv zeta.
  - rewrite (fifo_bytes_lookup R) by (fold occ; lia).
    rewrite (ring_from_in R); fold occ; rewrite mod_add_small by lia; fold off; cbv zeta.
    repeat case_if_eq; zbool; repeat case_decide; done || lia.
  - rewrite lookup_take_lt by lia.
    repeat case_if_eq; zbool; repeat case_decide; try lia; f_equal; lia.
Qed.

Lemma kfifo_put_spec f src len :
  kfifo_wf f → 0 ≤ len < 2 ^ 32 → len ≤ zlen src →
  ∃ n f', n = MIN len (size f - zlen (fifo_bytes f)) ∧
    __kfifo_put src len f = Ret (n, f') ∧ kfifo_wf f' ∧
    size f' = size f ∧ lock f' = lock f ∧
    fifo_bytes f' = fifo_bytes f ++ take (Z.to_nat n) src.
Proof.
  intros (b & k & R) Hl Hsrc. pose proof (ring_size R) as Hsz.
  pose proof (u32_range (in_ f - out f)). pose proof (ring_occ _ _ _ R).
  rewrite (fifo_bytes_zlen R).
  destruct (ring_split R (in_ f) len (size f - u32 (in_ f - out f))) as (Hl1 & Hl2 & Hl3 & Hl4 & Hl5);
    [lia..|].
  pose proof (ring_index_range R (in_ f)). pose proof (ring_length _ _ _ R).
  unfold __kfifo_put, mget. munfold. rewrite (ring_buffer _ _ _ R), !(ring_mask R), (ring_space R).
  set (n := MIN len _) in *. set (l := MIN n _) in *.
  rewrite zslice_Some by (unfold zlen in *; lia).
  change (drop (Z.to_nat 0) src) with src. cbv beta iota.
  destruct (zsplice_is_Some b (in_ f mod size f) (take (Z.to_nat l) src)) as [b1 Hb1];
    [lia|unfold zlen in *; rewrite length_take; lia|].
  rewrite Hb1. cbv beta iota. rewrite zslice_Some by (unfold zlen in *; lia). cbv beta iota.
  destruct (zsplice_is_Some b1 0 (take (Z.to_nat (n - l)) (drop (Z.to_nat l) src))) as [b2 Hb2];
    [lia|apply zsplice_length in Hb1; unfold zlen in *; rewrite length_take, length_drop; lia|].
  rewrite Hb2. eexists n, _. split; [done|]. split; [reflexivity|].
  destruct (fifo_bytes_put f b k src n l b1 b2) as [R' Hbytes]; [done || lia..|].
  split; [by eexists _, _|]. done.
Qed.

(** Two consecutive splices from the start: what [__kfifo_get] leaves in the
    caller's buffer. *)
Lemma splice_prefix (dst s1 s2 : list Z) :
  zlen s1 + zlen s2 ≤ zlen dst →
  ∃ d1, zsplice dst 0 s1 = Some d1 ∧
        zsplice d1 (zlen s1) s2 = Some (s1 ++ s2 ++ drop (length s1 + length s2) dst).
Proof.
  intros H. unfold zsplice, zlen in *. rewrite decide_True by lia.
  eexists. split; [done|]. change (Z.to_nat 0) with 0%nat. rewrite take_0, app_nil_l, Nat.add_0_l.
  rewrite decide_True by (rewrite length_app, length_drop; lia). f_equal.
  rewrite Nat2Z.id, take_app_length, drop_app_ge, drop_drop by lia.
  by replace (length s1 + (length s1 + length s2 - length s1))%nat
    with (length s1 + length s2)%nat by lia.
Qed.

(** The two slices read by [__kfifo_get] are the oldest bytes of the queue. *)
Lemma fifo_bytes_front f b k n l :
  ring f b k → 0 ≤ l ≤ n → n ≤ u32 (in_ f - out f) →
  l ≤ size f - out f mod size f → (l < n → l = size f - out f mod size f) →
  take (Z.to_nat n) (fifo_bytes f) =
    take (Z.to_nat l) (drop (Z.to_nat (out f mod size f)) b) ++
    take (Z.to_nat (n - l)) (drop (Z.to_nat 0) b).
Proof.
  intros R Hl Hn Hlo Hlw. pose proof (ring_size R). pose proof (ring_occ _ _ _ R).
  pose proof (u32_range (in_ f - out f)) as Hr. pose proof (ring_index_range R (out f)).
  set (off := out f mod size f) in *. pose proof (fifo_bytes_zlen R) as Hz.
  pose proof (ring_length _ _ _ R).
  assert (zlen (take (Z.to_nat l) (drop (Z.to_nat off) b)) = l) as Hz1
    by (unfold zlen in *; rewrite length_take, length_drop; lia).
  assert (zlen (take (Z.to_nat (n - l)) (drop (Z.to_nat 0) b)) = n - l) as Hz2
    by (unfold zlen in *; rewrite length_take, length_drop; lia).
  apply list_eq_app; rewrite ?Hz1, ?Hz2;
    [unfold zlen in *; rewrite length_take; lia| |]; intros i Hi;
    rewrite !lookup_take_lt, lookup_drop, (fifo_bytes_lookup R) by lia;
    rewrite mod_add_small by lia; fold off; cbv zeta;
    repeat case_if_eq; zbool; try lia; f_equal; lia.
Qed.

Lemma ring_after_get f b k n :
  ring f b k → 0 ≤ n ≤ u32 (in_ f - out f) →
  ring (set_out (u32 (out f + n)) f) b k ∧
  fifo_bytes (set_out (u32 (out f + n)) f) = drop (Z.to_nat n) (fifo_bytes f).
Proof.
  intros R Hn. pose proof (u32_range (in_ f - out f)) as Hr.
  assert (Hocc : u32 (in_ f - u32 (out f + n)) = u32 (in_ f - out f) - n).
  { rewrite u32_sub_add_r. apply u32_small. lia. }
  assert (R' : ring (set_out (u32 (out f + n)) f) b k).
  { destruct R as [Hb Hk Hs Hlen Hin Hout Ho].
    split; cbn; try done; [apply u32_range|lia]. }
  split; [done|]. pose proof (fifo_bytes_zlen R) as Hz.
  apply list_eq_Z.
  - rewrite (fifo_bytes_zlen R'). cbn. rewrite Hocc.
    unfold zlen in *. rewrite length_drop. lia.
  - intros i Hi.
    rewrite (fifo_bytes_zlen R') in Hi. cbn in Hi. rewrite Hocc in Hi.
    rewrite lookup_drop, (fifo_bytes_lookup R') by (cbn; lia).
    replace (Z.to_nat n + Z.to_nat i)%nat with (Z.to_nat (n + i)) by lia.
    rewrite (fifo_bytes_lookup R) by lia. cbn. do 2 f_equal.
    rewrite (ring_pow2 _ _ _ R), <- Zplus_mod_idemp_l, u32_mod_pow2, Zplus_mod_idemp_l
      by (pose proof (ring_shift _ _ _ R); lia).
    f_equal. lia.
Qed.

Lemma kfifo_get_spec f dst len :
  kfifo_wf f → 0 ≤ len < 2 ^ 32 → len ≤ zlen dst →
  ∃ n f', n = MIN len (zlen (fifo_bytes f)) ∧
    __kfifo_get dst len f =
      Ret ((n, take (Z.to_nat n) (fifo_bytes f) ++ drop (Z.to_nat n) dst), f') ∧
    kfifo_wf f' ∧ size f' = size f ∧ lock f' = lock f ∧
    fifo_bytes f' = drop (Z.to_nat n) (fifo_bytes f).
Proof.
  intros (b & k & R) Hl Hdst. pose proof (ring_size R) as Hsz.
  pose proof (u32_range (in_ f - out f)). pose proof (ring_occ _ _ _ R).
  rewrite (fifo_bytes_zlen R).
  destruct (ring_split R (out f) len (u32 (in_ f - out f))) as (Hl1 & Hl2 & Hl3 & Hl4 & Hl5);
    [lia..|].
  pose proof (ring_index_range R (out f)). pose proof (ring_length _ _ _ R).
  unfold __kfifo_get, mget. munfold. rewrite (ring_buffer _ _ _ R), !(ring_mask R).
  set (n := MIN len _) in *. set (l := MIN n _) in *.
  pose proof (fifo_bytes_front f b k n l R ltac:(lia) ltac:(lia) Hl4 Hl5) as Hfront.
  destruct (ring_after_get f b k n R) as [R' Hdrop]; [lia|].
  rewrite zslice_Some by lia. cbv beta iota. rewrite (zslice_Some b 0) by lia. cbv beta iota.
  set (s1 := take (Z.to_nat l) _) in *. set (s2 := take (Z.to_nat (n - l)) _) in *.
  assert (zlen s1 = l) as Hz1 by (unfold s1, zlen in *; rewrite length_take, length_drop; lia).
  assert (zlen s2 = n - l) as Hz2
    by (unfold s2, zlen in *; rewrite length_take, length_drop; lia).
  destruct (splice_prefix dst s1 s2) as (d1 & E1 & E2); [lia|].
  rewrite E1. cbv beta iota. rewrite Hz1 in E2. rewrite E2.
  eexists n, _. split; [done|]. split; [|split; [by eexists _, _|done]].
  rewrite Hfront, <- app_assoc.
  by replace (length s1 + length s2)%nat with (Z.to_nat n) by (unfold zlen in *; lia).
Qed.

(** Emptying: both indices back to zero. *)
Lemma ring_reset f b k :
  ring f b k → ring (set_in 0 (set_out 0 f)) b k ∧ fifo_bytes (set_in 0 (set_out 0 f)) = [].
Proof.
  intros R. pose proof (ring_size R). destruct R as [Hb Hk Hs Hlen Hin Hout Ho].
  split; [split; cbn; done || lia || (change (u32 (0 - 0)) with 0; lia)|]. unfold fifo_bytes. cbn. by rewrite Hb.
Qed.

(** ** The locked FIFO is a byte queue *)

Definition fifo_ok (s : fifo_state) : Prop :=
  kfifo_wf (fifo s) ∧ lock_free (lock (fifo s)) s.

Lemma fifo_ok_touched s f :
  fifo_ok s → kfifo_wf f → lock f = lock (fifo s) →
  fifo_ok (FifoState f (touched (fenv s))).
Proof.
  intros [_ Hf] Hw El. split; [done|]. cbn. rewrite El.
  exact (lock_free_lset _ s (FifoState f (fenv s)) Hf).
Qed.

Lemma kfifo_put_queue s src len :
  fifo_ok s → 0 ≤ len < 2 ^ 32 → len ≤ zlen src →
  ∃ n s', n = MIN len (size (fifo s) - zlen (fifo_bytes (fifo s))) ∧
    kfifo_put src len s = Ret (n, s') ∧ fifo_ok s' ∧ size (fifo s') = size (fifo s) ∧
    fifo_bytes (fifo s') = fifo_bytes (fifo s) ++ take (Z.to_nat n) src.
Proof.
  intros Hok Hl Hs. pose proof Hok as [Hw Hf].
  destruct (kfifo_put_spec (fifo s) src len Hw Hl Hs) as (n & f' & -> & E & Hw' & Hz & Hlk & Hb).
  eexists _, (FifoState f' (touched (fenv s))). split; [done|]. split.
  - unfold kfifo_put. erewrite mbind_Ret by done.
    erewrite (locked_op (lock (fifo s)) _ s _ (FifoState f' (entered _ (fenv s)))); [done|done| |done].
    unfold zoom. cbn. by rewrite E.
  - split; [by apply fifo_ok_touched|]. done.
Qed.

Lemma kfifo_get_queue s dst len :
  fifo_ok s → 0 ≤ len < 2 ^ 32 → len ≤ zlen dst →
  ∃ n s', n = MIN len (zlen (fifo_bytes (fifo s))) ∧
    kfifo_get dst len s =
      Ret ((n, take (Z.to_nat n) (fifo_bytes (fifo s)) ++ drop (Z.to_nat n) dst), s') ∧
    fifo_ok s' ∧ size (fifo s') = size (fifo s) ∧
    fifo_bytes (fifo s') = drop (Z.to_nat n) (fifo_bytes (fifo s)).
Proof.
  intros Hok Hl Hs. pose proof Hok as [Hw Hf].
  destruct (kfifo_get_spec (fifo s) dst len Hw Hl Hs) as (n & f' & En & E & Hw' & Hz & Hlk & Hb).
  set (f2 := if in_ f' =? out f' then set_in 0 (set_out 0 f') else f').
  assert (kfifo_wf f2 ∧ size f2 = size f' ∧ lock f2 = lock f' ∧ fifo_bytes f2 = fifo_bytes f')
    as (Hw2 & Hz2 & Hlk2 & Hb2).
  { unfold f2. destruct (Z.eqb_spec (in_ f') (out f')) as [Heq|]; [|done].
    destruct Hw' as (b & k & R). destruct (ring_reset f' b k R) as [R2 ->].
    split; [by eexists _, _|]. repeat (split; [done|]). unfold fifo_bytes.
    rewrite (ring_buffer _ _ _ R), Heq, Z.sub_diag. done. }
  eexists n, (FifoState f2 (touched (fenv s))). split; [done|]. split.
  - unfold kfifo_get. erewrite mbind_Ret by done.
    erewrite (locked_op (lock (fifo s)) _ s _ (FifoState f2 (entered _ (fenv s)))); [done|done| |done].
    unfold zoom. cbn. erewrite mbind_Ret by done. cbn. unfold f2, __kfifo_reset. munfold.
    by destruct (in_ f' =? out f').
  - split; [apply fifo_ok_touched; [done|done|congruence]|]. cbn. split; congruence.
Qed.

Lemma kfifo_free_queue s : fifo_ok s → ∃ s', kfifo_free s = Ret (tt, s').
Proof.
  intros [_ Hf]. unfold kfifo_free. eexists. erewrite mbind_Ret by done.
  erewrite mbind_Ret by (by apply acquire_ok). erewrite mbind_Ret by done.
  by apply (release_ok _ s).
Qed.

Lemma fifo_bytes_cap s : fifo_ok s → zlen (fifo_bytes (fifo s)) ≤ size (fifo s).
Proof.
  intros [(b & k & R) _]. rewrite (fifo_bytes_zlen R). apply (ring_occ _ _ _ R).
Qed.

#[export] Instance fifo_ByteQueue : ByteQueue fifo_state := {|
  q_ok := fifo_ok;
  q_cap s := size (fifo s);
  q_bytes s := fifo_bytes (fifo s);
  q_put := kfifo_put;
  q_get := kfifo_get;
  q_free := kfifo_free;
  q_put_spec := kfifo_put_queue;
  q_get_spec := kfifo_get_queue;
  q_free_spec := kfifo_free_queue;
  q_cap_spec := fifo_bytes_cap
|}.

(** ** [roundup_pow_of_two] *)

Lemma bit_length_spec fuel n :
  (fuel < 32)%nat ∨ fuel = 32%nat → 0 < n < 2 ^ Z.of_nat fuel →
  2 ^ (bit_length fuel n - 1) ≤ n < 2 ^ bit_length fuel n ∧
  1 ≤ bit_length fuel n ≤ Z.of_nat fuel.
Proof.
  revert n. induction fuel as [|fuel IH]; intros n Hf Hn; [cbn in Hn; lia|].
  cbn [bit_length]. rewrite (proj2 (Z.ltb_lt 0 n)) by lia.
  rewrite Z.shiftr_div_pow2 by lia. change (2 ^ 1) with 2.
  rewrite Nat2Z.inj_succ, Z.pow_succ_r in Hn by lia.
  destruct (decide (n = 1)) as [->|].
  { assert (bit_length fuel (1 / 2) = 0) as -> by by destruct fuel.
    rewrite u32_small by lia. cbn. lia. }
  destruct (IH (n / 2)) as [Hb Hr]; [lia|Z.div_mod_to_equations; lia|].
  rewrite u32_small by lia. set (b := bit_length fuel (n / 2)) in *.
  replace (1 + b - 1) with b by lia.
  replace (1 + b) with (Z.succ b) by lia. rewrite Z.pow_succ_r by lia.
  replace (2 ^ b) with (2 * 2 ^ (b - 1)) in * by
    (rewrite <- Z.pow_succ_r by lia; f_equal; lia).
  Z.div_mod_to_equations. lia.
Qed.

(** A number equal to its lowest set bit is a power of two. *)
Lemma lowest_bit_pow2 n :
  0 < n < 2 ^ 32 → n = Z.land n (u32 (- n)) → n = 2 ^ Z.log2 n.
Proof.
  intros Hn E. pose proof (Z.log2_spec n ltac:(lia)) as [Hlo Hhi].
  pose proof (Z.log2_nonneg n).
  destruct (decide (n = 2 ^ Z.log2 n)) as [|Hne]; [done|exfalso].
  (* [n] has a lowest set bit strictly below its highest one, where [-n] is 0. *)
  assert (Hl : Z.log2 n < 32) by (apply Z.log2_lt_pow2; lia).
  assert (Z.testbit (Z.land n (u32 (- n))) (Z.log2 n) = true) as Ht
    by (rewrite <- E; apply Z.bit_log2; lia).
  rewrite Z.land_spec in Ht. apply andb_prop in Ht as [_ Ht].
  unfold u32 in Ht. rewrite Z.mod_pow2_bits_low in Ht by lia.
  rewrite Z.bits_opp, negb_true_iff in Ht by lia.
  assert (Z.testbit (Z.pred n) (Z.log2 n) = true); [|congruence].
  pose proof (Z.pow_pos_nonneg 2 (Z.log2 n)).
  replace (Z.log2 n) with (Z.log2 (Z.pred n)); [apply Z.bit_log2; lia|].
  apply Z.log2_unique; lia.
Qed.

Lemma pow2_lowest_bit j : 0 ≤ j < 32 → Z.land (2 ^ j) (u32 (- 2 ^ j)) = 2 ^ j.
Proof.
  intros Hj.
  assert (Forall (λ j, Z.land (2 ^ j) (u32 (- 2 ^ j)) = 2 ^ j) (seqZ 0 32)) as H
    by (apply (bool_decide_unpack _); by vm_compute).
  rewrite Forall_forall in H. apply H, elem_of_seqZ. lia.
Qed.

(** A number without common bits with its predecessor is a power of two. *)
Lemma is_power_of_2_log2 x :
  0 < x < 2 ^ 32 → is_power_of_2 x = true → x = 2 ^ Z.log2 x.
Proof.
  intros Hx E. unfold is_power_of_2 in E. zbool. rewrite u32_small in * by lia.
  pose proof (Z.log2_spec x ltac:(lia)) as [Hlo Hhi].
  pose proof (Z.log2_nonneg x). pose proof (Z.pow_pos_nonneg 2 (Z.log2 x)).
  destruct (decide (x = 2 ^ Z.log2 x)) as [|Hne]; [done|exfalso].
  assert (Z.testbit (Z.land x (x - 1)) (Z.log2 x) = true) as Ht.
  { rewrite Z.land_spec, Z.bit_log2 by lia. cbn.
    replace (Z.log2 x) with (Z.log2 (x - 1)); [apply Z.bit_log2; lia|].
    apply Z.log2_unique; lia. }
  replace (Z.land x (x - 1)) with 0 in Ht. by rewrite Z.bits_0 in Ht.
Qed.

Lemma roundup_pow2_bounds n :
  0 ≤ n ≤ 2 ^ 31 →
  ∃ k, roundup_pow_of_two n = Some (2 ^ k) ∧ 0 ≤ k ≤ 31 ∧
       n ≤ 2 ^ k ∧ (0 < n → 2 ^ k < 2 * n).
Proof.
  intros Hn. unfold roundup_pow_of_two.
  destruct (Z.eqb_spec n 0) as [->|]; [exists 0; split; [done|lia]|].
  destruct (Z.eqb_spec n (Z.land n (u32 (- n)))) as [E|E].
  - apply lowest_bit_pow2 in E; [|lia]. exists (Z.log2 n). rewrite <- E.
    split; [done|]. pose proof (Z.log2_nonneg n).
    assert (Z.log2 n < 32) by (apply Z.log2_lt_pow2; lia). lia.
  - assert (n ≠ 2 ^ 31) by (intros ->; by apply E).
    destruct (bit_length_spec 32 n) as [Hb Hr]; [lia|lia|].
    set (b := bit_length 32 n) in *.
    assert (b ≠ 32) by (intros Hb32; rewrite Hb32 in Hb; change (32 - 1) with 31 in Hb; lia).
    rewrite (proj2 (Z.ltb_lt b 32)) by lia. exists b.
    rewrite Z.shiftl_1_l. split; [done|]. split; [lia|]. split; [lia|]. intros _.
    assert (n ≠ 2 ^ (b - 1)) by (intros Hp; apply E; rewrite Hp, pow2_lowest_bit; lia).
    replace (2 ^ b) with (2 * 2 ^ (b - 1))
      by (rewrite <- Z.pow_succ_r by lia; f_equal; lia). lia.
Qed.

(** For every size up to 2^31 the rounding returns a power of two at least the
    size and less than twice it (1 for size 0), within the 32 iterations of its
    loop and without the undefined shift by 32. *)
Theorem roundup_pow_of_two_spec n :
  0 ≤ n ≤ 2 ^ 31 →
  ∃ k, roundup_pow_of_two n = Some (2 ^ k) ∧ 0 ≤ k ≤ 31 ∧
       n ≤ 2 ^ k ∧ (0 < n → 2 ^ k < 2 * n).
Proof. apply roundup_pow2_bounds. Qed.

Lemma roundup_pow_of_two_spec_witness :
  0 ≤ 5000 ≤ 2 ^ 31 ∧
  ∃ k, roundup_pow_of_two 5000 = Some (2 ^ k) ∧ 0 ≤ k ≤ 31 ∧
       5000 ≤ 2 ^ k ∧ (0 < 5000 → 2 ^ k < 2 * 5000).
Proof. split; [lia|]. apply (roundup_pow_of_two_spec 5000). lia. Defined.

(** ** Runs of operations against the abstract queue *)

Inductive queue_op :=
  | Put (src : list Z) (len : Z)
  | Get (dst : list Z) (len : Z).

Definition op_ok (o : queue_op) : Prop :=
  match o with
  | Put b len | Get b len => 0 ≤ len < 2 ^ 32 ∧ len ≤ zlen b
  end.

(** The specification: a list of at most [cap] bytes. *)
Definition spec_op (cap : Z) (o : queue_op) (q : list Z) : (Z * list Z) * list Z :=
  match o with
  | Put src len =>
      let n := MIN len (cap - zlen q) in ((n, []), q ++ take (Z.to_nat n) src)
  | Get dst len =>
      let n := MIN len (zlen q) in
      ((n, take (Z.to_nat n) q ++ drop (Z.to_nat n) dst), drop (Z.to_nat n) q)
  end.

Fixpoint spec_run (cap : Z) (os : list queue_op) (q : list Z) :
  list (Z * list Z) * list Z :=
  match os with
  | [] => ([], q)
  | o :: os =>
      let '(r, q) := spec_op cap o q in
      let '(rs, q) := spec_run cap os q in (r :: rs, q)
  end.

Section runs.
Context {Q : Type} `{ByteQueue Q}.

Definition run_op (o : queue_op) : M Q (Z * list Z) :=
  match o with
  | Put src len => n ← q_put src len; mret (n, [])
  | Get dst len => q_get dst len
  end.

Fixpoint run (os : list queue_op) : M Q (list (Z * list Z)) :=
  match os with
  | [] => mret []
  | o :: os => r ← run_op o; rs ← run os; mret (r :: rs)
  end.

Lemma run_op_refines o q :
  q_ok q → op_ok o →
  ∃ q', run_op o q = Ret ((spec_op (q_cap q) o (q_bytes q)).1, q') ∧
        q_ok q' ∧ q_cap q' = q_cap q ∧
        q_bytes q' = (spec_op (q_cap q) o (q_bytes q)).2.
Proof.
  intros Hq. destruct o as [src len|dst len]; intros [Hl Hs].
  - destruct (q_put_spec q src len Hq Hl Hs) as (n & q' & -> & E & ? & ? & ?).
    exists q'. cbn. by erewrite mbind_Ret by done.
  - destruct (q_get_spec q dst len Hq Hl Hs) as (n & q' & -> & E & ? & ? & ?).
    exists q'. by cbn.
Qed.

Lemma run_refines os q :
  q_ok q → Forall op_ok os →
  ∃ q', run os q = Ret ((spec_run (q_cap q) os (q_bytes q)).1, q') ∧
        q_ok q' ∧ q_cap q' = q_cap q ∧
        q_bytes q' = (spec_run (q_cap q) os (q_bytes q)).2.
Proof.
  intros Hq Hos. revert q Hq. induction Hos as [|o os Ho _ IH]; intros q Hq; [by exists q|].
  destruct (run_op_refines o q Hq Ho) as (q1 & E1 & Hq1 & Hc1 & Hb1).
  destruct (IH q1 Hq1) as (q2 & E2 & Hq2 & Hc2 & Hb2).
  exists q2. cbn. erewrite mbind_Ret by done. erewrite mbind_Ret by done.
  rewrite Hc1, Hb1 in *. destruct (spec_op (q_cap q) o (q_bytes q)) as [r q1'].
  cbn in *. destruct (spec_run (q_cap q) os q1') as [rs q2']. done.
Qed.
End runs.

(** C8: Any sequence of [kfifo_put] and [kfifo_get] calls on a well-formed FIFO
    returns, call by call, what a queue of at most [size] bytes returns: a put
    appends as many of its bytes as fit, a get hands out the oldest bytes in order,
    through any number of wrap-arounds of the buffer and of the 32-bit indices.
    Every call returns, and the lock is free again after it. *)
Theorem kfifo_refines_queue os (s : fifo_state) :
  fifo_ok s → Forall op_ok os →
  ∃ s', run os s = Ret ((spec_run (size (fifo s)) os (fifo_bytes (fifo s))).1, s') ∧
        fifo_ok s' ∧ size (fifo s') = size (fifo s) ∧
        fifo_bytes (fifo s') = (spec_run (size (fifo s)) os (fifo_bytes (fifo s))).2.
Proof. exact (run_refines os s). Qed.

(** A four-byte FIFO whose indices are about to wrap past 2^32. *)
Definition wrapping_fifo : fifo_state :=
  FifoState (Kfifo (Some [7; 8; 5; 6]) 4 0 (2 ^ 32 - 2) 1) one_lock.

Lemma wrapping_fifo_ok : fifo_ok wrapping_fifo.
Proof.
  split; [|exact one_lock_free].
  exists [7; 8; 5; 6], 2. split; cbn; done || lia || by vm_compute.
Qed.

Lemma kfifo_refines_queue_witness :
  fifo_bytes (fifo wrapping_fifo) = [5; 6] ∧
  ∃ s', run [Put [1; 2; 3] 3; Get [0; 0; 0] 3] wrapping_fifo
          = Ret ([(2, []); (3, [5; 6; 1])], s') ∧
        fifo_ok s' ∧ size (fifo s') = 4 ∧ fifo_bytes (fifo s') = [2].
Proof.
  split; [reflexivity|].
  refine (kfifo_refines_queue [Put [1; 2; 3] 3; Get [0; 0; 0] 3] wrapping_fifo
            wrapping_fifo_ok _).
  apply Forall_cons_2; [done|]. apply Forall_cons_2; [done|]. apply Forall_nil_2.
Defined.

(** [kfifo_alloc] returns a well-formed empty FIFO whose capacity is the
    requested size rounded up, when the allocator hands out blocks of the size it
    is asked for; it returns NULL when the allocator does. *)
Theorem kfifo_alloc_spec kmem sz lk :
  0 < sz ≤ 2 ^ 31 →
  (∀ n b, kmem n = Some b → zlen b = n) →
  match kfifo_alloc kmem sz lk with
  | Ret (Some f) =>
      kfifo_wf f ∧ sz ≤ size f < 2 * sz ∧ fifo_bytes f = [] ∧ lock f = lk
  | Ret None => ∃ n, kmem n = None
  | _ => False
  end.
Proof.
  intros Hs Hk. unfold kfifo_alloc.
  assert (∃ k, (if negb (is_power_of_2 sz) then roundup_pow_of_two sz else Some sz)
               = Some (2 ^ k) ∧ 0 ≤ k ≤ 31 ∧ sz ≤ 2 ^ k < 2 * sz) as (k & -> & Hk31 & Hb).
  { destruct (is_power_of_2 sz) eqn:E; cbn.
    - apply is_power_of_2_log2 in E; [|lia]. exists (Z.log2 sz). rewrite <- E.
      pose proof (Z.log2_nonneg sz).
      assert (Z.log2 sz < 32) by (apply Z.log2_lt_pow2; lia). split; [done|lia].
    - destruct (roundup_pow2_bounds sz) as (k & E' & ? & ? & ?); [lia|]. exists k. split; [done|lia]. }
  destruct (kmem (2 ^ k)) as [b|] eqn:E; [|by exists (2 ^ k)].
  unfold kfifo_init. destruct (kmem sizeof_kfifo) eqn:E2; [|by exists sizeof_kfifo].
  split; [|done]. exists b, k. specialize (Hk _ _ E).
  split; cbn; done || lia || (change (u32 (0 - 0)) with 0; lia).
Qed.

(** An allocator that hands out zeroed blocks. *)
Definition zero_kmem (n : Z) : option (list Z) :=
  if 0 <=? n then Some (replicate (Z.to_nat n) 0) else None.

Lemma zero_kmem_length n b : zero_kmem n = Some b → zlen b = n.
Proof.
  unfold zero_kmem, zlen. intros. case_if_eq; simplify_eq. zbool.
  rewrite length_replicate. lia.
Qed.

Lemma kfifo_alloc_spec_witness :
  0 < 5 ≤ 2 ^ 31 ∧ (∀ n b, zero_kmem n = Some b → zlen b = n) ∧
  match kfifo_alloc zero_kmem 5 9 with
  | Ret (Some f) => kfifo_wf f ∧ 5 ≤ size f < 2 * 5 ∧ fifo_bytes f = [] ∧ lock f = 9
  | Ret None => ∃ n, zero_kmem n = None
  | _ => False
  end.
Proof.
  split; [lia|]. split; [exact zero_kmem_length|].
  apply (kfifo_alloc_spec zero_kmem 5 9); [lia|exact zero_kmem_length].
Defined.
