(* ===== verification/Pipe.v ===== *)
(** * Pipes

    Models [kernel/fs/pipe.c].  A pipe is a reference-counted object holding a FIFO
    and a lock; its two [struct file]s share it.  Everything but [pipe_init] is
    written against the [ByteQueue] interface. *)

From S2P Require Export Kfifo.

Definition O_RDONLY : Z := 0.
Definition O_WRONLY : Z := 1.
Definition PIPE_KFIFO_SIZE_DEFAULT : Z := 4096.

(** [struct pipe]; the pointers are [None] when NULL. *)
Record pipe (Q : Type) := Pipe {
  pkfifo : option Q;
  plock : option Z;
  pref : Z
}.
Arguments Pipe {Q} _ _ _.
Arguments pkfifo {Q} _.
Arguments plock {Q} _.
Arguments pref {Q} _.

(** The fields of [struct file] that the pipe code reads and writes: whether
    [f_op] is set, whether [f_private] still points to the pipe, and the flags. *)
Record pipe_file := PipeFile {
  pf_fops : bool;
  pf_private : bool;
  pf_flags : Z
}.

(** The memory of one pipe: [None] once it has been passed to [kfree]. *)
Abbreviation pipe_mem Q := (option (pipe Q)).

Section pipe.
Context {Q : Type} `{ByteQueue Q}.

(** Run a queue operation inside the pipe's FIFO. *)
Definition with_fifo {A} (q : Q) (m : M Q A) : M (pipe_mem Q) A := λ s,
  match s, m q with
  | Some p, Ret (a, q') => Ret (a, Some (Pipe (Some q') (plock p) (pref p)))
  | Some _, Panic => Panic
  | Some _, Spin => Spin
  | _, _ => Fault
  end.

Definition pipe_free (private : bool) : M (pipe_mem Q) unit :=
  if private then
    p ← mtry id;
    let ref := i32 (pref p - 1) in
    modify (λ _, Some (Pipe (pkfifo p) (plock p) ref));;
    if negb (ctrue ref) then
      match pkfifo p with
      | Some q =>
          with_fifo q q_free;;
          modify (λ _, Some (Pipe None (plock p) ref))
      | None => mret tt
      end;;
      modify (λ _, None)
    else mret tt
  else mret tt.

(** Returns the result, the caller's buffer and the new file offset. *)
Definition pipe_read (f : pipe_file) (buf : list Z) (size offset : Z) :
  M (pipe_mem Q) (Z * list Z * Z) :=
  massert (pf_private f);;
  p ← mtry id;
  match pkfifo p, plock p with
  | Some q, Some _ =>
      '(rcnt, buf) ← with_fifo q (q_get buf (u32 size));
      mret (rcnt, buf, offset + rcnt)
  | _, _ => mret (-1, buf, offset)
  end.

Definition pipe_write (f : pipe_file) (buf : list Z) (size offset : Z) :
  M (pipe_mem Q) (Z * Z) :=
  massert (pf_private f);;
  p ← mtry id;
  match pkfifo p, plock p with
  | Some q, Some _ =>
      rcnt ← with_fifo q (q_put buf (u32 size));
      mret (rcnt, offset + rcnt)
  | _, _ => mret (-1, offset)
  end.

Definition pipe_close (f : pipe_file) : M (pipe_mem Q) (Z * pipe_file) :=
  massert (pf_private f);;
  pipe_free (pf_private f);;
  mret (0, PipeFile false false (pf_flags f)).

(** ** Well-formed pipes *)

Definition pipe_ok (p : pipe Q) (q : Q) : Prop :=
  pkfifo p = Some q ∧ q_ok q ∧ is_Some (plock p) ∧ 0 < pref p < 2 ^ 31.

Lemma pipe_ok_step p q q' :
  pipe_ok p q → q_ok q' → pipe_ok (Pipe (Some q') (plock p) (pref p)) q'.
Proof. intros (? & ? & ? & ?) ?. done. Qed.

Lemma pipe_write_ok p q f buf size offset :
  pipe_ok p q → pf_private f = true → u32 size ≤ zlen buf →
  ∃ q', let n := MIN (u32 size) (q_cap q - zlen (q_bytes q)) in
    pipe_write f buf size offset (Some p) =
      Ret ((n, offset + n), Some (Pipe (Some q') (plock p) (pref p))) ∧
    pipe_ok (Pipe (Some q') (plock p) (pref p)) q' ∧ q_cap q' = q_cap q ∧
    q_bytes q' = q_bytes q ++ take (Z.to_nat n) buf.
Proof.
  intros Hok Hf Hs. pose proof Hok as (Hk & Hq & [lk Hlk] & Hr).
  destruct (q_put_spec q buf (u32 size) Hq (u32_range _) Hs)
    as (n & q' & -> & E & Hq' & Hc & Hb).
  exists q'. cbv zeta. split; [|split; [by apply (pipe_ok_step p q)|done]].
  unfold pipe_write. munfold. rewrite Hf. cbn. rewrite Hk, Hlk. cbn. by rewrite E, ?Hlk.
Qed.

Lemma pipe_read_ok p q f buf size offset :
  pipe_ok p q → pf_private f = true → u32 size ≤ zlen buf →
  ∃ q', let n := MIN (u32 size) (zlen (q_bytes q)) in
    pipe_read f buf size offset (Some p) =
      Ret ((n, take (Z.to_nat n) (q_bytes q) ++ drop (Z.to_nat n) buf, offset + n),
           Some (Pipe (Some q') (plock p) (pref p))) ∧
    pipe_ok (Pipe (Some q') (plock p) (pref p)) q' ∧ q_cap q' = q_cap q ∧
    q_bytes q' = drop (Z.to_nat n) (q_bytes q).
Proof.
  intros Hok Hf Hs. pose proof Hok as (Hk & Hq & [lk Hlk] & Hr).
  destruct (q_get_spec q buf (u32 size) Hq (u32_range _) Hs)
    as (n & q' & -> & E & Hq' & Hc & Hb).
  exists q'. cbv zeta. split; [|split; [by apply (pipe_ok_step p q)|done]].
  unfold pipe_read. munfold. rewrite Hf. cbn. rewrite Hk, Hlk. cbn. by rewrite E, ?Hlk.
Qed.

(** ** A byte stream *)

Inductive pipe_op :=
  | Write (buf : list Z) (size : Z)
  | Read (buf : list Z) (size : Z).

Definition pipe_op_ok (o : pipe_op) : Prop :=
  match o with Write b sz | Read b sz => u32 sz ≤ zlen b end.

(** What one call moved: (bytes accepted, bytes delivered). *)
Definition pipe_step (rf wf : pipe_file) (o : pipe_op) :
  M (pipe_mem Q) (list Z * list Z) :=
  match o with
  | Write buf size =>
      '(n, _) ← pipe_write wf buf size 0; mret (take (Z.to_nat n) buf, [])
  | Read buf size =>
      '(n, buf, _) ← pipe_read rf buf size 0; mret ([], take (Z.to_nat n) buf)
  end.

Fixpoint pipe_run (rf wf : pipe_file) (os : list pipe_op) :
  M (pipe_mem Q) (list Z * list Z) :=
  match os with
  | [] => mret ([], [])
  | o :: os =>
      '(w, r) ← pipe_step rf wf o;
      '(ws, rs) ← pipe_run rf wf os;
      mret (w ++ ws, r ++ rs)
  end.

Lemma pipe_step_stream p q rf wf o :
  pipe_ok p q → pf_private rf = true → pf_private wf = true → pipe_op_ok o →
  ∃ w r q', pipe_step rf wf o (Some p) =
      Ret ((w, r), Some (Pipe (Some q') (plock p) (pref p))) ∧
    pipe_ok (Pipe (Some q') (plock p) (pref p)) q' ∧
    q_cap q' = q_cap q ∧ q_bytes q ++ w = r ++ q_bytes q'.
Proof.
  intros Hok Hr Hw Ho. pose proof Hok as (_ & Hq & _).
  destruct o as [buf size|buf size]; cbn [pipe_step].
  - destruct (pipe_write_ok p q wf buf size 0 Hok Hw Ho) as (q' & E & Hok' & Hc & Hb).
    eexists _, [], q'. mstep E. done.
  - destruct (pipe_read_ok p q rf buf size 0 Hok Hr Ho) as (q' & E & Hok' & Hc & Hb).
    eexists [], _, q'. mstep E. split; [done|]. do 2 (split; [done|]).
    rewrite Hb, app_nil_r, take_app_le, take_take, Nat.min_id, take_drop; [done|].
    rewrite length_take. unfold MIN, zlen. case_if_eq; zbool; lia.
Qed.

Lemma pipe_run_stream p q rf wf os :
  pipe_ok p q → pf_private rf = true → pf_private wf = true →
  Forall pipe_op_ok os →
  ∃ ws rs q', pipe_run rf wf os (Some p) =
      Ret ((ws, rs), Some (Pipe (Some q') (plock p) (pref p))) ∧
    pipe_ok (Pipe (Some q') (plock p) (pref p)) q' ∧
    q_cap q' = q_cap q ∧ q_bytes q ++ ws = rs ++ q_bytes q'.
Proof.
  intros Hok Hr Hw Hos. revert p q Hok.
  induction Hos as [|o os Ho _ IH]; intros p q Hok; cbn [pipe_run].
  { exists [], [], q. pose proof Hok as (Hk & _). destruct p as [k l n]. cbn in *.
    subst k. by rewrite app_nil_r. }
  destruct (pipe_step_stream p q rf wf o Hok Hr Hw Ho) as (w & r & q1 & E1 & Hok1 & Hc1 & Hs1).
  destruct (IH _ _ Hok1) as (ws & rs & q2 & E2 & Hok2 & Hc2 & Hs2).
  exists (w ++ ws), (r ++ rs), q2.
  mstep E1. mstep E2.
  do 2 (split; [done|]). split; [congruence|]. by rewrite app_assoc, Hs1, <- !app_assoc, Hs2.
Qed.

(** ** Reference counting *)

Lemma pipe_close_shared p q f :
  pipe_ok p q → pf_private f = true → 1 < pref p →
  pipe_close f (Some p) =
    Ret ((0, PipeFile false false (pf_flags f)),
         Some (Pipe (pkfifo p) (plock p) (pref p - 1))) ∧
  pipe_ok (Pipe (pkfifo p) (plock p) (pref p - 1)) q.
Proof.
  intros (Hk & Hq & Hl & Hr) Hf H1. split; [|by unfold pipe_ok; cbn; naive_solver lia].
  unfold pipe_close, pipe_free. rewrite Hf. munfold. cbn.
  rewrite i32_small by lia. unfold ctrue. by rewrite (proj2 (Z.eqb_neq _ _)) by lia.
Qed.

Lemma pipe_close_last p q f :
  pipe_ok p q → pf_private f = true → pref p = 1 →
  pipe_close f (Some p) = Ret ((0, PipeFile false false (pf_flags f)), None).
Proof.
  intros (Hk & Hq & Hl & Hr) Hf H1. destruct (q_free_spec q Hq) as [q' E].
  unfold pipe_close, pipe_free. rewrite Hf. munfold. cbn. rewrite H1, Hk.
  change (i32 (1 - 1)) with 0. cbn.
  by rewrite E.
Qed.
End pipe.

(** ** [pipe_init] *)

(** The address the allocator gives the pipe's lock, and its answers for the FIFO.
    [kcalloc] never answers NULL: the buddy allocator panics first. *)
Definition pipe_init (kmem : Z → option (list Z)) (lockaddr : Z) (e : lockenv) :
  outcome (Z * pipe_mem fifo_state * (pipe_file * pipe_file)) :=
  match kfifo_alloc kmem PIPE_KFIFO_SIZE_DEFAULT lockaddr with
  | Ret None => Ret (-1, None, (PipeFile false false 0, PipeFile false false 0))
  | Ret (Some f) =>
      match spinlock_init lockaddr "pipe" e with
      | Ret (_, e) =>
          Ret (0, Some (Pipe (Some (FifoState f e)) (Some lockaddr) 2),
               (PipeFile true true O_RDONLY, PipeFile true true O_WRONLY))
      | Panic => Panic | Fault => Fault | Spin => Spin
      end
  | Panic => Panic | Fault => Fault | Spin => Spin
  end.

(** An allocator that never runs out. *)
Definition kmem_total (kmem : Z → option (list Z)) : Prop :=
  ∀ n, 0 ≤ n → ∃ b, kmem n = Some b ∧ zlen b = n.

Lemma pipe_init_ok kmem lk e :
  kmem_total kmem → env_ok e →
  ∃ f e', pipe_init kmem lk e =
    Ret (0, Some (Pipe (Some (FifoState f e')) (Some lk) 2),
         (PipeFile true true O_RDONLY, PipeFile true true O_WRONLY)) ∧
    pipe_ok (Pipe (Some (FifoState f e')) (Some lk) 2) (FifoState f e') ∧
    size f = PIPE_KFIFO_SIZE_DEFAULT ∧ fifo_bytes f = [].
Proof.
  intros Hk He. unfold pipe_init, kfifo_alloc.
  change (if negb (is_power_of_2 PIPE_KFIFO_SIZE_DEFAULT) then _ else _)
    with (Some PIPE_KFIFO_SIZE_DEFAULT). cbv beta iota.
  destruct (Hk PIPE_KFIFO_SIZE_DEFAULT) as (b & Hb & Hz); [done|]. rewrite Hb.
  unfold kfifo_init. destruct (Hk sizeof_kfifo) as (b2 & -> & _); [done|]. eexists _, _. split; [reflexivity|].
  split; [|by split].
  split; [done|]. split; [|split; [by eexists|cbn; lia]]. split.
  - exists b, 12. split; cbn; done || lia || (change (u32 (0 - 0)) with 0; unfold PIPE_KFIFO_SIZE_DEFAULT; lia).
  - split; [done|]. eexists. apply lookup_insert_eq.
Qed.

(** C20: A pipe made by [pipe_init] is a byte stream: whatever the sequence of
    writes and reads, every call returns, the bytes delivered are a prefix of the
    bytes accepted, in order, and at most 4096 accepted bytes are undelivered. *)
Theorem pipe_is_byte_stream kmem lk e os :
  kmem_total kmem → env_ok e →
  Forall pipe_op_ok os →
  ∃ m rf wf ws rs m',
    pipe_init kmem lk e = Ret (0, m, (rf, wf)) ∧
    pipe_run rf wf os m = Ret ((ws, rs), m') ∧
    rs `prefix_of` ws ∧ zlen ws - zlen rs ≤ PIPE_KFIFO_SIZE_DEFAULT.
Proof.
  intros Hk He Hos. destruct (pipe_init_ok kmem lk e Hk He) as (f & e' & E & Hok & Hz & Hb).
  destruct (pipe_run_stream _ _ (PipeFile true true O_RDONLY) (PipeFile true true O_WRONLY) os
    Hok eq_refl eq_refl Hos) as (ws & rs & q' & E' & Hok' & Hc & Hs).
  eexists _, _, _, ws, rs, _. split; [exact E|]. split; [exact E'|].
  cbn in Hs. rewrite Hb in Hs. cbn in Hs. subst ws. split; [by eexists|].
  destruct Hok' as (_ & Hq' & _ & _). rewrite zlen_app.
  pose proof (q_cap_spec q' Hq') as Hcap. cbn in Hcap.
  cbn in Hc, Hcap |- *. lia.
Qed.

Lemma zero_kmem_total : kmem_total zero_kmem.
Proof.
  intros n Hn. unfold zero_kmem. rewrite (proj2 (Z.leb_le 0 n)) by done.
  eexists. split; [done|]. unfold zlen. rewrite length_replicate. lia.
Qed.

Lemma pipe_is_byte_stream_witness :
  kmem_total zero_kmem ∧
  ∃ m rf wf ws rs m',
    pipe_init zero_kmem 1 one_lock = Ret (0, m, (rf, wf)) ∧
    pipe_run rf wf [Write [1; 2; 3] 3; Read [0; 0] 2] m = Ret ((ws, rs), m') ∧
    rs `prefix_of` ws ∧ zlen ws - zlen rs ≤ PIPE_KFIFO_SIZE_DEFAULT.
Proof.
  split; [exact zero_kmem_total|].
  apply (pipe_is_byte_stream zero_kmem 1 one_lock); [exact zero_kmem_total|apply one_lock_free|].
  apply Forall_cons_2; [done|]. apply Forall_cons_2; [done|]. apply Forall_nil_2.
Defined.

(** C21: After [pipe_init] the two ends are closed in either order: the first close
    only drops a reference and leaves the other end a working pipe, the second
    frees the pipe; both files end with no operations and no private data, so a
    later read through a closed file stops in its assertion instead of touching
    the freed pipe, and a read through a stale copy of the file would fault. *)
Theorem pipe_close_frees_once kmem lk e :
  kmem_total kmem → env_ok e →
  ∃ p q rf wf, pipe_init kmem lk e = Ret (0, Some p, (rf, wf)) ∧
  ∀ f1 f2, (f1, f2) = (rf, wf) ∨ (f1, f2) = (wf, rf) →
  ∃ p' c1 c2,
    pipe_close f1 (Some p) = Ret ((0, c1), Some p') ∧ pipe_ok p' q ∧
    pipe_close f2 (Some p') = Ret ((0, c2), None) ∧
    (∀ buf sz off, pipe_read c1 buf sz off (Some p') = Panic) ∧
    (∀ buf sz off, pipe_read f1 buf sz off None = Fault).
Proof.
  intros Hk He. destruct (pipe_init_ok kmem lk e Hk He) as (f & e' & E & Hok & _ & _).
  eexists _, (FifoState f e'), _, _. split; [exact E|]. intros f1 f2 Hf.
  assert (pf_private f1 = true ∧ pf_private f2 = true) as [H1 H2]
    by (destruct Hf as [[= -> ->]|[= -> ->]]; done).
  destruct (pipe_close_shared _ _ f1 Hok H1) as [E1 Hok1]; [cbn; lia|].
  eexists _, _, _. split; [exact E1|]. split; [exact Hok1|].
  split; [by apply (pipe_close_last _ _ f2 Hok1)|]. split; [done|].
  intros buf sz off. unfold pipe_read. by rewrite H1.
Qed.

Lemma pipe_close_frees_once_witness :
  kmem_total zero_kmem ∧
  ∃ p q rf wf, pipe_init zero_kmem 1 one_lock = Ret (0, Some p, (rf, wf)) ∧
  ∀ f1 f2, (f1, f2) = (rf, wf) ∨ (f1, f2) = (wf, rf) →
  ∃ p' c1 c2,
    pipe_close f1 (Some p) = Ret ((0, c1), Some p') ∧ pipe_ok p' q ∧
    pipe_close f2 (Some p') = Ret ((0, c2), None) ∧
    (∀ buf sz off, pipe_read c1 buf sz off (Some p') = Panic) ∧
    (∀ buf sz off, pipe_read f1 buf sz off None = Fault).
Proof.
  split; [exact zero_kmem_total|].
  apply (pipe_close_frees_once zero_kmem 1 one_lock); [exact zero_kmem_total|].
  apply one_lock_free.
Defined.
