(* ===== verification/Path.v ===== *)
(** * Path names and directory-entry types

    Models the path helpers of [kernel/fs/fs.c] and [kernel/include/fs/fs.h] and the
    type tables of [kernel/fs/dirent.c].  A string is the list of its bytes before the
    terminating NUL; a path buffer is an array of bytes. *)

From S2P Require Export Prelude.

Abbreviation str := (list Z).

Definition MAX_PATH_LEN : Z := 1024.
Definition SLASH : Z := 47.
Definition DOT : Z := 46.

(** [s[i]] for an index up to the terminator. *)
Definition chr (s : str) (i : Z) : Z := default 0 (znth s i).

(** ** [str_match_prefix] ([fs.h]) *)

Fixpoint match_loop (fuel : nat) (s prefix : str) (end_index : Z) : Z :=
  match fuel with
  | O => end_index
  | S fuel =>
      if (end_index <? zlen prefix) && (end_index <? zlen s) &&
         (chr prefix end_index =? chr s end_index)
      then match_loop fuel s prefix (end_index + 1) else end_index
  end.
Definition str_match_prefix (s prefix : str) : Z :=
  match_loop (length prefix) s prefix 0.

(** ** [dirent_name_len] *)

Fixpoint dirent_name_len (s : str) : Z :=
  match s with
  | [] => 0
  | c :: s => if c =? SLASH then 0 else 1 + dirent_name_len s
  end.

(** ** [fullpath_connect] *)

(** The string a buffer holds. *)
Fixpoint buf_str (b : list Z) : str :=
  match b with
  | [] => []
  | c :: b => if c =? 0 then [] else c :: buf_str b
  end.

Definition get_buf (i : Z) : M (list Z) Z := mtry (λ b, znth b i).
Definition set_buf (i c : Z) : M (list Z) unit :=
  b ← mtry (λ b, zset b i c); modify (λ _, b).

Fixpoint skip_slashes (fuel : nat) (path : str) (i : Z) : Z :=
  match fuel with
  | O => i
  | S fuel =>
      if (chr path i =? SLASH) && (i <? zlen path) then skip_slashes fuel path (i + 1) else i
  end.

(** The scan back to the previous slash. *)
Fixpoint scan_back (fuel : nat) (i_f : Z) : M (list Z) Z :=
  match fuel with
  | O => mret i_f
  | S fuel =>
      if 0 <? i_f then
        c ← get_buf (i_f - 1);
        if negb (c =? SLASH) then scan_back fuel (i_f - 1) else mret i_f
      else mret i_f
  end.

(** Copying one path component. *)
Fixpoint copy_comp (fuel : nat) (path : str) (i_path i_f : Z) : M (list Z) (Z * Z) :=
  match fuel with
  | O => mret (i_path, i_f)
  | S fuel =>
      if negb (chr path i_path =? SLASH) && (i_path <? zlen path) && (i_f <? MAX_PATH_LEN)
      then set_buf i_f (chr path i_path);; copy_comp fuel path (i_path + 1) (i_f + 1)
      else mret (i_path, i_f)
  end.

Fixpoint connect_loop (fuel : nat) (path : str) (i_path i_f : Z) : M (list Z) (Z * Z) :=
  match fuel with
  | O => mspin
  | S fuel =>
      let path_len := zlen path in
      if (i_path <? path_len) && (i_f <? MAX_PATH_LEN) then
        let i_path := skip_slashes (length path) path i_path in
        if (chr path i_path =? DOT) &&
           ((i_path + 2 =? path_len) ||
            ((i_path + 2 <? path_len) && (chr path (i_path + 2) =? SLASH))) &&
           (chr path (i_path + 1) =? DOT)
        then
          let i_path := i_path + 2 in
          let i_f := i_f - 1 in
          i_f ← scan_back (Z.to_nat MAX_PATH_LEN) i_f;
          let i_f := if 0 <? i_f then i_f - 1 else i_f in
          connect_loop fuel path i_path i_f
        else if (chr path i_path =? DOT) &&
                ((i_path + 1 <? path_len) && (chr path (i_path + 1) =? SLASH))
        then connect_loop fuel path (i_path + 1) i_f
        else
          '(i_path, i_f) ← copy_comp (length path) path i_path i_f;
          connect_loop fuel path i_path i_f
      else mret (i_path, i_f)
  end.

Definition fullpath_connect (path : str) : M (list Z) Z :=
  let path_len := zlen path in
  i_f ← gets (λ b, zlen (buf_str b));
  if chr path 0 =? SLASH then mret (-1)
  else
    c ← get_buf (i_f - 1);
    i_f ← (if negb (c =? SLASH) then set_buf i_f SLASH;; mret (i_f + 1) else mret i_f);
    '(i_path, i_f) ← connect_loop (S (length path)) path 0 i_f;
    if i_path <? path_len then mret (-1)
    else set_buf i_f 0;; mret i_f.

(** ** [dirent.c] *)

Definition DT_UNKNOWN : Z := 0.
Definition DT_FIFO : Z := 1.
Definition DT_CHR : Z := 2.
Definition DT_DIR : Z := 4.
Definition DT_BLK : Z := 6.
Definition DT_REG : Z := 8.
Definition DT_LNK : Z := 10.
Definition DT_SOCK : Z := 12.
Definition FT_UNKNOWN : Z := 0.
Definition FT_REG_FILE : Z := 1.
Definition FT_DIR : Z := 2.
Definition FT_CHRDEV : Z := 3.
Definition FT_BLKDEV : Z := 4.
Definition FT_FIFO : Z := 5.
Definition FT_SOCK : Z := 6.
Definition FT_SYMLINK : Z := 7.
Definition FT_MAX : Z := 8.
Definition S_IFMT : Z := 0xF000.
Definition S_DT (mode : Z) : Z := Z.shiftr (Z.land mode S_IFMT) 12.

Definition fs_dtype_by_ftype : list Z :=
  [DT_UNKNOWN; DT_REG; DT_DIR; DT_CHR; DT_BLK; DT_FIFO; DT_SOCK; DT_LNK].
Definition fs_ftype_by_dtype : list Z :=
  [0; FT_FIFO; FT_CHRDEV; 0; FT_DIR; 0; FT_BLKDEV; 0; FT_REG_FILE; 0; FT_SYMLINK; 0;
   FT_SOCK; 0; 0; 0].

Definition fs_ftype_to_dtype (filetype : Z) : option Z :=
  if FT_MAX <=? filetype then Some DT_UNKNOWN else znth fs_dtype_by_ftype filetype.
Definition fs_umode_to_ftype (mode : Z) : option Z := znth fs_ftype_by_dtype (S_DT mode).
Definition fs_umode_to_dtype (mode : Z) : option Z :=
  ft ← fs_umode_to_ftype mode; fs_ftype_to_dtype ft.

(** ** Prefix matching *)

Lemma chr_lookup s i c : s !! i = Some c → chr s (Z.of_nat i) = c.
Proof.
  intros H. unfold chr, znth. rewrite decide_True by lia. by rewrite Nat2Z.id, H.
Qed.

Lemma chr_app_r s1 s2 i : 0 ≤ i → chr (s1 ++ s2) (zlen s1 + i) = chr s2 i.
Proof.
  intros Hi. unfold chr, znth, zlen. rewrite !decide_True by lia. f_equal.
  rewrite lookup_app_r by lia. f_equal. lia.
Qed.

Lemma chr_at pre c post : chr (pre ++ c :: post) (zlen pre) = c.
Proof. rewrite <- (Z.add_0_r (zlen pre)). by rewrite chr_app_r. Qed.

Lemma chr_end s : chr s (zlen s) = 0.
Proof.
  unfold chr, znth, zlen. rewrite decide_True by lia.
  rewrite lookup_ge_None_2 by lia. done.
Qed.

(** The whole prefix matches exactly when it is a prefix. *)
Lemma match_loop_spec fuel : ∀ s prefix pre,
  (length prefix ≤ fuel)%nat →
  match_loop fuel (pre ++ s) (pre ++ prefix) (zlen pre) = zlen (pre ++ prefix) ↔
  prefix `prefix_of` s.
Proof.
  induction fuel as [|fuel IH]; intros s prefix pre Hf.
  - destruct prefix; [|cbn in Hf; lia]. cbn. rewrite app_nil_r.
    split; [intros _; apply prefix_nil|done].
  - cbn [match_loop]. destruct prefix as [|c prefix].
    + rewrite !app_nil_r, Z.ltb_irrefl. cbn. split; [intros _; apply prefix_nil|done].
    + rewrite !zlen_app, zlen_cons. pose proof (zlen_nonneg prefix).
      rewrite (proj2 (Z.ltb_lt (zlen pre) _)) by lia.
      destruct s as [|d s].
      { replace (zlen pre <? zlen pre + zlen (@nil Z)) with false by
          (symmetry; apply Z.ltb_ge; unfold zlen; cbn; lia).
        cbn [andb]. split; [lia|]. intros Hp. by apply prefix_nil_inv in Hp. }
      rewrite zlen_cons. pose proof (zlen_nonneg s).
      rewrite (proj2 (Z.ltb_lt (zlen pre) _)) by lia. cbn [andb].
      rewrite !chr_at.
      destruct (Z.eqb_spec c d) as [->|Hne].
      * specialize (IH s prefix (pre ++ [d])). rewrite <- !app_assoc in IH. cbn [app] in IH.
        rewrite (zlen_app pre [d]), (zlen_app pre (d :: prefix)), (zlen_cons d prefix) in IH.
        change (zlen [d]) with 1 in IH. rewrite IH by (cbn in Hf; lia).
        split; [apply prefix_cons|apply prefix_cons_inv_2].
      * split; [lia|]. intros Hp. by apply prefix_cons_inv_1 in Hp.
Qed.

Lemma str_match_prefix_full s prefix :
  str_match_prefix s prefix = zlen prefix ↔ prefix `prefix_of` s.
Proof. unfold str_match_prefix. by apply (match_loop_spec (length prefix) s prefix []). Qed.

(** ** Connecting a path to a directory *)

Fixpoint path_of (comps : list str) : str :=
  match comps with
  | [] => []
  | [c] => c
  | c :: comps => c ++ SLASH :: path_of comps
  end.

(** A component that is neither empty nor starts with a dot. *)
Definition plain (c : str) : Prop :=
  c ≠ [] ∧ Forall (λ x, x ≠ 0 ∧ x ≠ SLASH) c ∧ head c ≠ Some DOT.

(** The buffer starts with [s]. *)
Definition starts (b : list Z) (s : str) : Prop := take (length s) b = s.

Lemma set_buf_ok i c (b : list Z) :
  0 ≤ i < zlen b → set_buf i c b = Ret (tt, <[Z.to_nat i := c]> b).
Proof. intros H. unfold set_buf, zset. munfold. by rewrite decide_True. Qed.

Lemma starts_snoc b s c :
  starts b s → zlen s < zlen b → starts (<[Z.to_nat (zlen s) := c]> b) (s ++ [c]).
Proof.
  unfold starts, zlen. intros Hs Hl. rewrite Nat2Z.id, length_app. cbn [length].
  rewrite Nat.add_1_r. erewrite take_S_r by (apply list_lookup_insert_eq; lia).
  f_equal. by rewrite take_insert_ge.
Qed.

Lemma starts_buf_str b s :
  starts b s → Forall (λ x, x ≠ 0) s → zlen s < zlen b →
  buf_str (<[Z.to_nat (zlen s) := 0]> b) = s.
Proof.
  unfold starts, zlen. rewrite Nat2Z.id. intros Hs Hf. revert b Hs.
  induction Hf as [|c s Hc Hf IH]; intros b Hs Hl; destruct b as [|d b]; cbn in Hl; try lia;
    [done|].
  cbn in Hs. injection Hs as -> Hs. cbn. rewrite (proj2 (Z.eqb_neq c 0)) by done.
  f_equal. apply IH; [done|lia].
Qed.

Lemma copy_comp_ok fuel : ∀ path pre c post b s,
  path = pre ++ c ++ post → (post = [] ∨ (∃ post', post = SLASH :: post')) →
  Forall (λ x, x ≠ SLASH) c → (length c ≤ fuel)%nat →
  starts b s → zlen b = MAX_PATH_LEN → zlen s + zlen c ≤ MAX_PATH_LEN →
  ∃ b', copy_comp fuel path (zlen pre) (zlen s) b =
      Ret ((zlen pre + zlen c, zlen s + zlen c), b') ∧
    starts b' (s ++ c) ∧ zlen b' = MAX_PATH_LEN.
Proof.
  induction fuel as [|fuel IH]; intros path pre c post b s Hpath Hpost Hc Hf Hs Hb Hl.
  { destruct c; [|cbn in Hf; lia]. exists b. rewrite app_nil_r, !Z.add_0_r. done. }
  cbn [copy_comp]. destruct c as [|x c].
  - exists b. rewrite app_nil_r, !Z.add_0_r. split; [|done].
    destruct Hpost as [->|[post' ->]]; cbn [app] in Hpath; subst path.
    + rewrite app_nil_r, Z.ltb_irrefl, andb_false_r. done.
    + by rewrite chr_at, Z.eqb_refl.
  - apply Forall_cons in Hc as [Hx Hc]. rewrite zlen_cons in Hl.
    pose proof (zlen_nonneg c). pose proof (zlen_nonneg s). pose proof (zlen_nonneg post).
    assert (chr path (zlen pre) = x) as Hchr.
    { subst path. apply chr_at. }
    rewrite Hchr, (proj2 (Z.eqb_neq x SLASH)) by done.
    assert ((zlen pre <? zlen path) = true) as ->.
    { apply Z.ltb_lt. subst path. rewrite !zlen_app, zlen_cons. lia. }
    rewrite (proj2 (Z.ltb_lt (zlen s) MAX_PATH_LEN)) by lia. cbn [negb andb].
    erewrite mbind_Ret by (apply set_buf_ok; lia). cbv beta.
    replace (zlen s + 1) with (zlen (s ++ [x])) by (rewrite zlen_app; done).
    replace (zlen pre + 1) with (zlen (pre ++ [x])) by (rewrite zlen_app; done).
    destruct (IH path (pre ++ [x]) c post (<[Z.to_nat (zlen s) := x]> b) (s ++ [x]))
      as (b' & E & Hs' & Hb').
    + by rewrite <- app_assoc.
    + done.
    + done.
    + cbn in Hf. lia.
    + apply starts_snoc; [done|lia].
    + unfold zlen. by rewrite length_insert.
    + rewrite zlen_app. change (zlen [x]) with 1. lia.
    + exists b'. rewrite E, !zlen_app, !zlen_cons. change (zlen (@nil Z)) with 0.
      rewrite <- app_assoc in Hs'. split_and!; [|done|done].
      do 3 f_equal; lia.
Qed.

Lemma skip_slashes_plain fuel path pre c post :
  path = pre ++ c ++ post → plain c → skip_slashes fuel path (zlen pre) = zlen pre.
Proof.
  intros -> (Hne & Hc & _). destruct fuel as [|fuel]; [done|]. cbn [skip_slashes].
  destruct c as [|x c]; [done|]. apply Forall_cons in Hc as [[_ Hx] _].
  cbn [app]. by rewrite chr_at, (proj2 (Z.eqb_neq x SLASH)).
Qed.

Lemma skip_slashes_one fuel path pre c post :
  path = pre ++ SLASH :: c ++ post → plain c → (0 < fuel)%nat →
  skip_slashes fuel path (zlen pre) = zlen (pre ++ [SLASH]).
Proof.
  intros -> Hc Hf. destruct fuel as [|fuel]; [lia|]. cbn [skip_slashes].
  rewrite chr_at, Z.eqb_refl.
  pose proof (zlen_nonneg (c ++ post)).
  rewrite (proj2 (Z.ltb_lt _ _)) by (rewrite zlen_app, zlen_cons; lia). cbn [andb].
  replace (zlen pre + 1) with (zlen (pre ++ [SLASH])) by (rewrite zlen_app; done).
  apply (skip_slashes_plain _ _ _ c post); [by rewrite <- app_assoc|done].
Qed.

(** One round of the loop on a plain component. *)
Lemma connect_step fuel path i_path pre c post b s :
  path = pre ++ c ++ post → (post = [] ∨ (∃ post', post = SLASH :: post')) → plain c →
  i_path < zlen path → skip_slashes (length path) path i_path = zlen pre →
  starts b s → zlen b = MAX_PATH_LEN → zlen s + zlen c ≤ MAX_PATH_LEN →
  ∃ b', connect_loop (S fuel) path i_path (zlen s) b =
      connect_loop fuel path (zlen (pre ++ c)) (zlen (s ++ c)) b' ∧
    starts b' (s ++ c) ∧ zlen b' = MAX_PATH_LEN.
Proof.
  intros Hpath Hpost Hc Hi Hskip Hs Hb Hl. cbn [connect_loop].
  destruct Hc as (Hne & Hcf & Hdot).
  assert (0 < zlen c) by (destruct c; [done|]; rewrite zlen_cons; pose proof (zlen_nonneg c); lia).
  rewrite (proj2 (Z.ltb_lt i_path _)) by done.
  rewrite (proj2 (Z.ltb_lt (zlen s) _)) by lia. cbn [andb]. rewrite Hskip.
  assert ((chr path (zlen pre) =? DOT) = false) as ->.
  { subst path. destruct c as [|x c]; [done|]. cbn [app]. rewrite chr_at.
    apply Z.eqb_neq. cbn in Hdot. congruence. }
  cbn [andb].
  destruct (copy_comp_ok (length path) path pre c post b s) as (b' & E & Hs' & Hb');
    [done|done| | |done..|].
  { eapply Forall_impl; [exact Hcf|]. cbn. by intros x []. }
  { subst path. rewrite !length_app. lia. }
  exists b'. mstep E. rewrite !zlen_app. done.
Qed.

Lemma connect_loop_ok comps : ∀ fuel path pre b s,
  Forall plain comps → path = pre ++ SLASH :: path_of comps → comps ≠ [] →
  (length comps < fuel)%nat →
  starts b s → zlen b = MAX_PATH_LEN → zlen s + zlen (concat comps) ≤ MAX_PATH_LEN →
  ∃ b', connect_loop fuel path (zlen pre) (zlen s) b =
      Ret ((zlen path, zlen (s ++ concat comps)), b') ∧
    starts b' (s ++ concat comps) ∧ zlen b' = MAX_PATH_LEN.
Proof.
  induction comps as [|c comps IH]; intros fuel path pre b s Hf Hpath Hne Hfu Hs Hb Hl; [done|].
  apply Forall_cons in Hf as [Hc Hf]. destruct fuel as [|fuel]; [lia|].
  cbn [concat] in *. rewrite zlen_app in Hl.
  set (post := match comps with [] => [] | _ => SLASH :: path_of comps end).
  assert (path = (pre ++ [SLASH]) ++ c ++ post) as Hpath2.
  { rewrite Hpath, <- app_assoc. unfold post. destruct comps; cbn; by rewrite ?app_nil_r. }
  destruct (connect_step fuel path (zlen pre) (pre ++ [SLASH]) c post b s) as (b1 & E1 & Hs1 & Hb1);
    try done.
  - unfold post. destruct comps; [by left|right; eauto].
  - rewrite Hpath, zlen_app, zlen_cons. pose proof (zlen_nonneg (path_of (c :: comps))). lia.
  - rewrite <- app_assoc in Hpath2. apply (skip_slashes_one _ _ _ c post); [done|done|].
    rewrite Hpath2, !length_app. cbn. lia.
  - pose proof (zlen_nonneg (concat comps)). lia.
  - rewrite E1. destruct comps as [|c2 comps].
    + cbn [concat]. rewrite app_nil_r. exists b1. split; [|done].
      destruct fuel as [|fuel]; [cbn in Hfu; lia|]. cbn [connect_loop].
      unfold post in Hpath2. rewrite app_nil_r in Hpath2. rewrite <- Hpath2.
      by rewrite Z.ltb_irrefl.
    + destruct (IH fuel path ((pre ++ [SLASH]) ++ c) b1 (s ++ c)) as (b2 & E2 & Hs2 & Hb2);
        try done.
      * rewrite Hpath2, <- !app_assoc. done.
      * cbn in Hfu |- *. lia.
      * rewrite zlen_app. lia.
      * exists b2. rewrite <- (app_assoc s) in E2, Hs2. done.
Qed.

Lemma buf_str_starts b : starts b (buf_str b) ∧ Forall (λ x, x ≠ 0) (buf_str b).
Proof.
  unfold starts. induction b as [|c b [IH1 IH2]]; [by split|]. cbn [buf_str].
  destruct (Z.eqb_spec c 0); [by split|]. cbn. rewrite IH1. split; [done|by constructor].
Qed.

(** The directory part the loop starts from. *)
Definition with_slash (d : str) : str :=
  if bool_decide (last d = Some SLASH) then d else d ++ [SLASH].

Lemma with_slash_len d : zlen d ≤ zlen (with_slash d).
Proof.
  unfold with_slash. case_bool_decide; [lia|]. rewrite zlen_app.
  pose proof (zlen_nonneg [SLASH]). lia.
Qed.

(** The slash after the directory. *)
Lemma add_slash_ok b :
  zlen b = MAX_PATH_LEN → buf_str b ≠ [] → zlen (with_slash (buf_str b)) < MAX_PATH_LEN →
  ∃ c b1, get_buf (zlen (buf_str b) - 1) b = Ret (c, b) ∧
    (if negb (c =? SLASH) then set_buf (zlen (buf_str b)) SLASH;; mret (zlen (buf_str b) + 1)
     else mret (zlen (buf_str b))) b = Ret (zlen (with_slash (buf_str b)), b1) ∧
    starts b1 (with_slash (buf_str b)) ∧ zlen b1 = MAX_PATH_LEN.
Proof.
  intros Hb Hd Hl. destruct (buf_str_starts b) as [Hsd _]. set (d := buf_str b) in *.
  destruct (exists_last Hd) as (d0 & x & Ed).
  assert (last d = Some x) as Hlast by (rewrite Ed; apply last_snoc).
  assert (znth b (zlen d - 1) = Some x) as Hx.
  { apply znth_Some. rewrite Ed, zlen_app. change (zlen [x]) with 1.
    pose proof (zlen_nonneg d0). split; [lia|].
    rewrite <- (take_drop (length d) b). unfold starts in Hsd. rewrite Hsd, Ed.
    unfold zlen. replace (Z.to_nat (Z.of_nat (length d0) + 1 - 1)) with (length d0) by lia.
    rewrite <- app_assoc. by apply list_lookup_middle. }
  exists x. unfold with_slash in *. rewrite Hlast in *.
  destruct (Z.eqb_spec x SLASH) as [->|Hxs]; cbn [negb].
  - rewrite bool_decide_true in * by done. exists b. split; [|done].
    unfold get_buf, mtry. by rewrite Hx.
  - rewrite bool_decide_false in * by congruence.
    rewrite zlen_app in *. change (zlen [SLASH]) with 1 in *. pose proof (zlen_nonneg d).
    exists (<[Z.to_nat (zlen d) := SLASH]> b). split_and!.
    + unfold get_buf, mtry. by rewrite Hx.
    + by erewrite mbind_Ret by (apply set_buf_ok; lia).
    + apply starts_snoc; [done|]. lia.
    + unfold zlen. by rewrite length_insert.
Qed.

Lemma path_of_length cs : Forall plain cs → (length cs ≤ length (path_of cs))%nat.
Proof.
  induction cs as [|x cs IH]; [done|]. intros [(Hx & _) Hcs]%Forall_cons.
  specialize (IH Hcs). assert (0 < length x)%nat by (destruct x; [done|cbn; lia]).
  destruct cs; cbn [path_of length] in *; rewrite ?length_app; cbn [length]; lia.
Qed.

(** The loop on a whole path of plain components. *)
Lemma connect_path_ok c comps b s :
  Forall plain (c :: comps) → starts b s → zlen b = MAX_PATH_LEN →
  zlen s + zlen (concat (c :: comps)) < MAX_PATH_LEN →
  let path := path_of (c :: comps) in
  ∃ b', connect_loop (S (length path)) path 0 (zlen s) b =
      Ret ((zlen path, zlen (s ++ concat (c :: comps))), b') ∧
    starts b' (s ++ concat (c :: comps)) ∧ zlen b' = MAX_PATH_LEN.
Proof.
  intros [Hc Hf]%Forall_cons Hs Hb Hl path. cbn [concat] in *. rewrite zlen_app in Hl.
  set (post := match comps with [] => [] | _ => SLASH :: path_of comps end).
  assert (path = c ++ post) as Hpath.
  { unfold path, post. destruct comps; cbn; by rewrite ?app_nil_r. }
  pose proof (zlen_nonneg (concat comps)). pose proof Hc as (Hcne & _ & _).
  assert (0 < length c)%nat by (destruct c; [done|cbn; lia]).
  assert (length path = length c + length post)%nat as Hlp by (rewrite Hpath, length_app; lia).
  destruct (connect_step (length path) path 0 [] c post b s) as (b2 & E2 & Hs2 & Hb2); try done.
  - unfold post. destruct comps; [by left|right; eauto].
  - unfold zlen. lia.
  - change 0 with (zlen (@nil Z)). by apply (skip_slashes_plain _ _ [] c post).
  - lia.
  - rewrite E2. cbn [app]. destruct comps as [|c2 comps].
    + cbn [concat]. rewrite app_nil_r. exists b2. split; [|done].
      unfold post in Hpath. rewrite app_nil_r in Hpath. rewrite <- Hpath.
      destruct (length path) as [|fuel]; [lia|]. cbn [connect_loop]. by rewrite Z.ltb_irrefl.
    + pose proof (path_of_length _ Hf) as Hcs.
      destruct (connect_loop_ok (c2 :: comps) (length path) path c b2 (s ++ c))
        as (b3 & E3 & Hs3 & Hb3); try done.
      * rewrite Hlp. unfold post. cbn [length] in *. lia.
      * rewrite zlen_app. lia.
      * exists b3. rewrite <- (app_assoc s) in E3, Hs3. done.
Qed.

(** For a relative path of plain components [c1/.../cn] and a buffer holding a
    non-empty directory path, [fullpath_connect] returns the length of the result and
    leaves in the buffer the directory, a slash, and the components one after another
    with nothing between them: with one component this is the file in the directory, with
    more the separators of the path are lost. *)
Theorem fullpath_connect_spec comps b :
  comps ≠ [] → Forall plain comps → zlen b = MAX_PATH_LEN → buf_str b ≠ [] →
  zlen (with_slash (buf_str b)) + zlen (concat comps) < MAX_PATH_LEN →
  ∃ b', let r := with_slash (buf_str b) ++ concat comps in
    fullpath_connect (path_of comps) b = Ret (zlen r, b') ∧ buf_str b' = r.
Proof.
  intros Hne Hf Hb Hd Hl. destruct comps as [|c comps]; [done|].
  pose proof (zlen_nonneg (concat (c :: comps))).
  destruct (add_slash_ok b Hb Hd) as (x & b1 & Ex & E1 & Hs1 & Hb1); [lia|].
  destruct (connect_path_ok c comps b1 (with_slash (buf_str b)) Hf Hs1 Hb1 Hl)
    as (b2 & E2 & Hs2 & Hb2).
  set (r := with_slash (buf_str b) ++ concat (c :: comps)) in *.
  assert (zlen r < MAX_PATH_LEN) as Hr by (unfold r; rewrite zlen_app; lia).
  exists (<[Z.to_nat (zlen r) := 0]> b2). cbv zeta. split.
  - unfold fullpath_connect. erewrite mbind_Ret by reflexivity. cbv beta.
    assert ((chr (path_of (c :: comps)) 0 =? SLASH) = false) as ->.
    { apply Forall_cons in Hf as [(Hcne & Hcf & _) _]. destruct c as [|y c]; [done|].
      apply Forall_cons in Hcf as [[_ Hy] _]. apply Z.eqb_neq. by destruct comps. }
    mstep Ex. mstep E1. mstep E2. rewrite Z.ltb_irrefl.
    by erewrite mbind_Ret by (apply set_buf_ok; pose proof (zlen_nonneg r); lia).
  - apply starts_buf_str; [done| |lia]. destruct (buf_str_starts b) as [_ Hz].
    apply Forall_app. split.
    + unfold with_slash. case_bool_decide; [done|]. apply Forall_app. split; [done|].
      by repeat constructor.
    + apply Forall_concat. eapply Forall_impl; [exact Hf|].
      intros y (_ & Hy & _). eapply Forall_impl; [exact Hy|]. by intros z [].
Qed.

Lemma fullpath_connect_spec_witness :
  let b := [SLASH; 97] ++ replicate 1022 0 in
  ∃ b', fullpath_connect (path_of [[98]; [99]]) b = Ret (5, b') ∧
    buf_str b' = [SLASH; 97; SLASH] ++ [98] ++ [99].
Proof.
  cbv zeta.
  destruct (fullpath_connect_spec [[98]; [99]] ([SLASH; 97] ++ replicate 1022 0))
    as (b' & E & Hb'); [done|by repeat constructor|by vm_compute|done|by vm_compute|].
  assert (with_slash (buf_str ([SLASH; 97] ++ replicate 1022 0)) = [SLASH; 97; SLASH]) as Hd
    by (vm_compute; reflexivity).
  rewrite Hd in E, Hb'. exists b'. split; [exact E|exact Hb'].
Defined.

(** ** Types of directory entries *)

(** The file types a mode can name, with their entry types. *)
Definition mode_types : list (Z * Z) :=
  [(0x1000, DT_FIFO); (0x2000, DT_CHR); (0x4000, DT_DIR); (0x6000, DT_BLK);
   (0x8000, DT_REG); (0xA000, DT_LNK); (0xC000, DT_SOCK)].

Lemma S_DT_range mode : 0 ≤ mode → 0 ≤ S_DT mode < 16.
Proof.
  intros Hm. unfold S_DT. change S_IFMT with (Z.land (Z.ones 16) (Z.shiftl (Z.ones 4) 12)).
  rewrite Z.shiftr_land, Z.shiftr_land, Z.shiftr_shiftl_l by lia.
  change (Z.shiftl (Z.ones 4) (12 - 12)) with (Z.ones 4).
  rewrite Z.land_assoc, Z.land_ones by lia. apply Z.mod_pos_bound. lia.
Qed.

(** The two table lookups of [dirent.c] never leave their tables, whatever the mode;
    a mode of one of the seven file types gets exactly its entry type (its file-type
    bits shifted down, also when permission bits are set), any other one [DT_UNKNOWN]. *)
Theorem fs_umode_to_dtype_spec mode :
  0 ≤ mode →
  fs_umode_to_dtype mode =
    Some (if bool_decide (S_DT mode ∈ (λ t, t.2) <$> mode_types) then S_DT mode
          else DT_UNKNOWN).
Proof.
  intros Hm. unfold fs_umode_to_dtype, fs_umode_to_ftype.
  pose proof (S_DT_range mode Hm) as Hr. set (t := S_DT mode) in *. clearbody t.
  assert (t ∈ seqZ 0 16) as Ht by (apply elem_of_seqZ; lia). clear Hr Hm.
  vm_compute in Ht.
  repeat (apply elem_of_cons in Ht as [->|Ht]; [reflexivity|]).
  by apply not_elem_of_nil in Ht.
Qed.

Lemma fs_umode_to_dtype_spec_witness :
  fs_umode_to_dtype 0x81FF = Some DT_REG ∧ fs_umode_to_dtype 0x41ED = Some DT_DIR.
Proof.
  split; [rewrite (fs_umode_to_dtype_spec 0x81FF) by lia|
          rewrite (fs_umode_to_dtype_spec 0x41ED) by lia]; reflexivity.
Defined.

(** ** Leaving the root *)

(** From the root, [..] leaves the empty path instead of the root, and a second [..]
    makes the next write go before the start of the buffer. *)
Example fullpath_dotdot_root :
  let b := [SLASH] ++ replicate 1023 0 in
  (∃ b', fullpath_connect [DOT; DOT] b = Ret (0, b') ∧ buf_str b' = []) ∧
  fullpath_connect [DOT; DOT; SLASH; DOT; DOT; SLASH; 120] b = Fault.
Proof. split; [eexists; split; vm_compute; reflexivity|by vm_compute]. Qed.
