(* ===== verification/Vfs.v ===== *)
(** * The virtual file system: files, descriptor tables and mount points

    Models [kernel/fs/file.c] and [kernel/fs/mountp.c] over the state that the
    file-system calls share.  File systems are seen through their operation tables
    ([struct file_operations], [struct fs_operations]), which are a parameter. *)

From S2P Require Export Path Locking.

Definition NR_OPEN : Z := 1024.
Definition O_ACCMODE : Z := 3.
Definition O_RDONLY : Z := 0.
Definition O_WRONLY : Z := 1.

(** ** Data *)

(** [struct file]; pointers are addresses, 0 for NULL. *)
Record file := File {
  f_flags : Z;
  f_op : Z;
  f_inode : Z;
  f_path : str;
  fpos : Z;
  f_private : Z;
  f_ref : Z
}.

Record inode := Inode {
  i_mode : Z;
  i_size : Z;
  i_ino : Z;
  i_atime : Z;
  i_mtime : Z;
  i_ctime : Z;
  i_mp : Z
}.

(** The fields of [struct stat] the kernel reads. *)
Record stat := Stat {
  st_ino : Z;
  st_mode : Z;
  st_size : Z;
  st_atime : Z;
  st_mtime : Z;
  st_ctime : Z
}.

(** [struct files_struct]; its lock is kept under its address. *)
Record files_struct := FilesStruct {
  fd : list Z;
  next_fd : Z;
  nr_avail_fd : Z
}.

Record mountpoint := Mountpoint {
  mp_path : str;
  mp_fs : Z;
  mp_blkdev : Z;
  mp_device : Z
}.

(** What the file-system code works on: the locks, the allocated objects by kind, the
    list of mount points in order, the addresses the allocator will hand out (0 when it
    fails), the running process's directory and descriptor table, and the state [F] of
    the mounted file systems and of user memory. *)
Record vfs (F : Type) := Vfs {
  venv : lockenv;
  files : gmap Z file;
  inodes : gmap Z inode;
  tables : gmap Z files_struct;
  bufs : gmap Z (list Z);
  mp_list : list Z;
  mps : gmap Z mountpoint;
  avail : list Z;
  cwd : str;
  myfdt : Z;
  fsd : F
}.
Arguments Vfs {F} _ _ _ _ _ _ _ _ _ _ _.
Arguments venv {F} _.
Arguments files {F} _.
Arguments inodes {F} _.
Arguments tables {F} _.
Arguments bufs {F} _.
Arguments mp_list {F} _.
Arguments mps {F} _.
Arguments avail {F} _.
Arguments cwd {F} _.
Arguments myfdt {F} _.
Arguments fsd {F} _.

Section setters.
Context {F : Type}.
Implicit Types s : vfs F.

Definition set_venv x s := Vfs x (files s) (inodes s) (tables s) (bufs s) (mp_list s) (mps s)
  (avail s) (cwd s) (myfdt s) (fsd s).
Definition set_files x s := Vfs (venv s) x (inodes s) (tables s) (bufs s) (mp_list s) (mps s)
  (avail s) (cwd s) (myfdt s) (fsd s).
Definition set_inodes x s := Vfs (venv s) (files s) x (tables s) (bufs s) (mp_list s) (mps s)
  (avail s) (cwd s) (myfdt s) (fsd s).
Definition set_tables x s := Vfs (venv s) (files s) (inodes s) x (bufs s) (mp_list s) (mps s)
  (avail s) (cwd s) (myfdt s) (fsd s).
Definition set_bufs x s := Vfs (venv s) (files s) (inodes s) (tables s) x (mp_list s) (mps s)
  (avail s) (cwd s) (myfdt s) (fsd s).
Definition set_mounts l x s := Vfs (venv s) (files s) (inodes s) (tables s) (bufs s) l x
  (avail s) (cwd s) (myfdt s) (fsd s).
Definition set_avail x s := Vfs (venv s) (files s) (inodes s) (tables s) (bufs s) (mp_list s)
  (mps s) x (cwd s) (myfdt s) (fsd s).
Definition set_cwd x s := Vfs (venv s) (files s) (inodes s) (tables s) (bufs s) (mp_list s)
  (mps s) (avail s) x (myfdt s) (fsd s).
End setters.

#[export] Instance vfs_lens_lawful F : LawfulLens (Lens (S := vfs F) venv set_venv).
Proof. split; by intros; destruct s || done. Qed.
#[export] Instance vfs_HasLocks F : HasLocks (vfs F) := {| lock_lens := Lens venv set_venv |}.

(** ** Operation tables *)

(** [struct file_operations]: a NULL entry is [None]. *)
Record file_operations (S : Type) := FileOps {
  op_llseek : option (Z → Z → Z → M S Z);
  op_read : option (Z → Z → Z → M S Z);
  op_write : option (Z → Z → Z → M S Z);
  op_openat : option (Z → str → Z → Z → M S Z);
  op_close : option (Z → M S Z);
  op_getdents64 : option (Z → Z → Z → M S Z);
  op_truncate : option (Z → Z → M S Z)
}.
Arguments op_llseek {S} _.
Arguments op_read {S} _.
Arguments op_write {S} _.
Arguments op_openat {S} _.
Arguments op_close {S} _.
Arguments op_getdents64 {S} _.
Arguments op_truncate {S} _.

(** [struct fs_operations]; [getattr] returns the result and the [struct stat]. *)
Record fs_operations (S : Type) := FsOps {
  op_mount : option (Z → Z → Z → M S Z);
  op_umount : option (Z → M S Z);
  op_ifget : option (Z → Z → Z → M S Z);
  op_link : option (str → str → M S Z);
  op_unlink : option (str → M S Z);
  op_symlink : option (str → str → M S Z);
  op_mkdir : option (str → Z → M S Z);
  op_rmdir : option (str → M S Z);
  op_getattr : option (str → M S (Z * stat))
}.
Arguments op_mount {S} _.
Arguments op_umount {S} _.
Arguments op_ifget {S} _.
Arguments op_link {S} _.
Arguments op_unlink {S} _.
Arguments op_symlink {S} _.
Arguments op_mkdir {S} _.
Arguments op_rmdir {S} _.
Arguments op_getattr {S} _.

(** What the VFS asks of the rest of the kernel: the tables behind the operation
    pointers, the three standard files, and the lock of the mount list. *)
Class VfsEnv (F : Type) := {
  fops : Z → option (file_operations (vfs F));
  fsops : Z → option (fs_operations (vfs F));
  f_stdin : Z;
  f_stdout : Z;
  f_stderr : Z;
  mplst_lock : Z
}.

Section vfs.
Context {F : Type} `{VfsEnv F}.

Definition get_file (f : Z) : M (vfs F) file := mtry (λ s, files s !! f).
Definition put_file (f : Z) (x : file) : M (vfs F) unit :=
  modify (λ s, set_files (<[f := x]> (files s)) s).
Definition set_fpos (f v : Z) : M (vfs F) unit :=
  x ← get_file f;
  put_file f (File (f_flags x) (f_op x) (f_inode x) (f_path x) v (f_private x) (f_ref x)).
Definition get_inode (i : Z) : M (vfs F) inode := mtry (λ s, inodes s !! i).
Definition put_inode (i : Z) (x : inode) : M (vfs F) unit :=
  modify (λ s, set_inodes (<[i := x]> (inodes s)) s).
Definition get_table (t : Z) : M (vfs F) files_struct := mtry (λ s, tables s !! t).
Definition put_table (t : Z) (x : files_struct) : M (vfs F) unit :=
  modify (λ s, set_tables (<[t := x]> (tables s)) s).
Definition get_mp (m : Z) : M (vfs F) mountpoint := mtry (λ s, mps s !! m).

(** [call_interface]: a NULL entry gives -1, a bad table pointer faults. *)
Definition call_fop {A} (sel : file_operations (vfs F) → option A) (err : A) (f : Z) :
  M (vfs F) A :=
  x ← get_file f;
  ops ← mlift (fops (f_op x));
  mret (default err (sel ops)).
Definition call_fs {A} (sel : fs_operations (vfs F) → option A) (err : A) (fs : Z) :
  M (vfs F) A :=
  ops ← mlift (fsops fs);
  mret (default err (sel ops)).

(** The allocator of one kind of object: the next address, or NULL. *)
Definition next_addr : M (vfs F) Z :=
  s ← mget;
  match avail s with
  | [] => mpanic
  | a :: l => modify (set_avail l);; mret a
  end.
Definition kcalloc_file : M (vfs F) Z :=
  a ← next_addr;
  mwhen (ctrue a) (put_file a (File 0 0 0 [] 0 0 0));; mret a.
Definition kcalloc_inode : M (vfs F) Z :=
  a ← next_addr;
  mwhen (ctrue a) (put_inode a (Inode 0 0 0 0 0 0 0));; mret a.
Definition kcalloc_buf (n : Z) : M (vfs F) Z :=
  a ← next_addr;
  mwhen (ctrue a)
    (modify (λ s, set_bufs (<[a := replicate (Z.to_nat n) 0]> (bufs s)) s));; mret a.

(** [kfree] of what is not allocated corrupts the allocator. *)
Definition kfree (a : Z) : M (vfs F) unit :=
  s ← mget;
  if bool_decide (a ∈ dom (files s)) then modify (λ s, set_files (delete a (files s)) s)
  else if bool_decide (a ∈ dom (inodes s)) then modify (λ s, set_inodes (delete a (inodes s)) s)
  else if bool_decide (a ∈ dom (bufs s)) then modify (λ s, set_bufs (delete a (bufs s)) s)
  else mfault.

(** ** Reference counts *)

(** The reference count of a file, with its lock under the file's address. *)
Definition ref_lens (f : Z) : lens (vfs F) Z :=
  Lens (λ s, default 0 (f_ref <$> files s !! f))
       (λ r s, set_files (alter (λ x, File (f_flags x) (f_op x) (f_inode x) (f_path x)
                                        (fpos x) (f_private x) r) f (files s)) s).

Definition IS_STDSTREAM (f : Z) : bool :=
  (f =? f_stdin) || (f =? f_stdout) || (f =? f_stderr).

Definition file_init (f f_op : Z) (path : option str) (flags private : Z) : M (vfs F) unit :=
  put_file f (File flags f_op 0
    (match path with Some p => take (Z.to_nat (MAX_PATH_LEN - 1)) p | None => [] end)
    0 private 0);;
  lockinit f "atomic".

Definition file_get (f : Z) : M (vfs F) unit :=
  if ctrue f then atomic_inc f (ref_lens f);; mret tt else mret tt.

Definition file_put (f : Z) : M (vfs F) Z :=
  if negb (ctrue f) || IS_STDSTREAM f then mret (-1)
  else
    ret ← atomic_dec f (ref_lens f);
    if ret =? 0 then
      close ← call_fop op_close (λ _, mret (-1)) f;
      ret ← close f;
      if ret <? 0 then mret (-1)
      else
        x ← get_file f;
        (if ctrue (f_inode x) then kfree (f_inode x) else mret tt);;
        kfree f;;
        mret 0
    else mret ret.

Definition file_refcnt (f : Z) : M (vfs F) Z :=
  if negb (ctrue f) then mret 0 else atomic_get f (ref_lens f).

(** ** Descriptor tables *)

Definition get_fd (t i : Z) : M (vfs F) Z := x ← get_table t; mlift (znth (fd x) i).
Definition set_fd (t i v : Z) : M (vfs F) unit :=
  x ← get_table t;
  l ← mlift (zset (fd x) i v);
  put_table t (FilesStruct l (next_fd x) (nr_avail_fd x)).
Definition set_next_fd (t v : Z) : M (vfs F) unit :=
  x ← get_table t; put_table t (FilesStruct (fd x) (u32 v) (nr_avail_fd x)).
Definition set_nr_avail (t v : Z) : M (vfs F) unit :=
  x ← get_table t; put_table t (FilesStruct (fd x) (next_fd x) (u32 v)).

(** The scan of [find_avail_fd]: the first NULL entry, or [NR_OPEN]. *)
Fixpoint scan_fd (l : list Z) (i : Z) : Z :=
  match l with
  | [] => NR_OPEN
  | p :: l => if p =? 0 then i else scan_fd l (i + 1)
  end.

Definition find_avail_fd (t : Z) : M (vfs F) unit :=
  x ← get_table t;
  if negb (ctrue (nr_avail_fd x)) then set_next_fd t NR_OPEN
  else set_next_fd t (scan_fd (take (Z.to_nat NR_OPEN) (fd x)) 0).

Definition fdt_init (t : Z) (name : string) : M (vfs F) unit :=
  put_table t (FilesStruct (replicate (Z.to_nat NR_OPEN) 0) 0 0);;
  lockinit t name;;
  set_fd t 0 f_stdin;;
  set_fd t 1 f_stdout;;
  set_fd t 2 f_stderr;;
  set_next_fd t 3;;
  set_nr_avail t (NR_OPEN - 3);;
  file_get f_stdin;;
  file_get f_stdout;;
  file_get f_stderr.

(** The copies [fdt_dup] makes of one entry: the file, then its inode. *)
Definition dup_entry (old new i : Z) : M (vfs F) unit :=
  f ← get_fd old i;
  if negb (ctrue f) then mret tt
  else
    x ← get_file f;
    g ← next_addr;
    put_file g x;;
    set_fd new i g;;
    n ← get_inode (f_inode x);
    j ← next_addr;
    put_inode j n;;
    y ← get_file g;
    put_file g (File (f_flags y) (f_op y) j (f_path y) (fpos y) (f_private y) (f_ref y)).

Fixpoint for_fds (l : list Z) (body : Z → M (vfs F) unit) : M (vfs F) unit :=
  match l with [] => mret tt | i :: l => body i;; for_fds l body end.

Definition fdt_dup (t : Z) (name : string) : M (vfs F) Z :=
  n ← next_addr;
  if negb (ctrue n) then mret 0
  else
    put_table n (FilesStruct (replicate (Z.to_nat NR_OPEN) 0) 0 0);;
    lockinit n name;;
    acquire n;;
    acquire t;;
    for_fds (seqZ 0 NR_OPEN) (dup_entry t n);;
    x ← get_table t;
    set_next_fd n (next_fd x);;
    set_nr_avail n (nr_avail_fd x);;
    release t;;
    release n;;
    mret n.

Definition fdt_freeall (t : Z) : M (vfs F) unit :=
  acquire t;;
  for_fds (seqZ 0 NR_OPEN) (λ i,
    f ← get_fd t i;
    if ctrue f then file_put f;; set_fd t i 0 else mret tt);;
  set_next_fd t (-1);;
  set_nr_avail t (-1);;
  release t.

Definition fd_alloc (t f : Z) : M (vfs F) Z :=
  if negb (ctrue f) then mret (-1)
  else
    acquire t;;
    x ← get_table t;
    let fd := i32 (next_fd x) in
    if NR_OPEN <=? fd then mret (-1)
    else
      old ← get_fd t fd;
      massert (negb (ctrue old));;
      set_fd t fd f;;
      find_avail_fd t;;
      x ← get_table t;
      set_nr_avail t (nr_avail_fd x - 1);;
      file_get f;;
      release t;;
      mret fd.

Definition fd_free (t fd : Z) : M (vfs F) unit :=
  if (fd <? 0) || (NR_OPEN <=? fd) then mret tt
  else
    acquire t;;
    f ← get_fd t fd;
    (if ctrue f then
       file_put f;;
       set_fd t fd 0;;
       x ← get_table t;
       set_nr_avail t (nr_avail_fd x + 1);;
       find_avail_fd t
     else mret tt);;
    release t.

Definition fd_clone (t old_fd new_fd : Z) : M (vfs F) Z :=
  acquire t;;
  x ← get_table t;
  let new_fd := if new_fd =? -1 then i32 (next_fd x) else new_fd in
  o ← get_fd t old_fd;
  bad ← (if o =? 0 then mret true else n ← get_fd t new_fd; mret (ctrue n));
  if (bad : bool) then mret (-1)
  else
    o ← get_fd t old_fd;
    set_fd t new_fd o;;
    find_avail_fd t;;
    release t;;
    mret new_fd.

Definition fd_get (t fd : Z) : M (vfs F) Z :=
  acquire t;;
  res ← get_fd t fd;
  release t;;
  mret res.

(** ** Mount points *)

(** The loop of [mountpoint_find] over the addresses of the list. *)
Fixpoint find_loop (l : list Z) (path : str) (max_len res : Z) : M (vfs F) Z :=
  match l with
  | [] => mret res
  | a :: l =>
      mp ← get_mp a;
      let len := str_match_prefix path (mp_path mp) - 1 in
      if (len + 1 =? zlen (mp_path mp)) && (max_len <? len)
      then find_loop l path len a else find_loop l path max_len res
  end.

Definition mountpoint_find (path : str) : M (vfs F) Z :=
  acquire mplst_lock;;
  l ← gets mp_list;
  res ← find_loop l path (-1) 0;
  release mplst_lock;;
  mret res.

(** Whether some mount point of the list has the path. *)
Fixpoint path_used (l : list Z) (path : str) : M (vfs F) bool :=
  match l with
  | [] => mret false
  | a :: l =>
      mp ← get_mp a;
      if bool_decide (mp_path mp = path) then mret true else path_used l path
  end.

(** [mp] with a NULL [fs] is refused; on a used path the lock stays taken. *)
Definition mountpoint_add (m : Z) : M (vfs F) unit :=
  if negb (ctrue m) then mret tt
  else
    mp ← get_mp m;
    if negb (ctrue (mp_fs mp)) then mret tt
    else
      acquire mplst_lock;;
      l ← gets mp_list;
      used ← path_used l (mp_path mp);
      if (used : bool) then mret tt
      else
        release mplst_lock;;
        modify (λ s, set_mounts (m :: mp_list s) (mps s) s).

(** The first mount point with the path is unlinked and freed, and the function
    returns without releasing the lock. *)
Fixpoint remove_loop (l : list Z) (path : str) : M (vfs F) bool :=
  match l with
  | [] => mret false
  | a :: l =>
      mp ← get_mp a;
      if negb (bool_decide (mp_path mp = path)) then remove_loop l path
      else
        modify (λ s, set_mounts (filter (λ b, b ≠ a) (mp_list s)) (delete a (mps s)) s);;
        mret true
  end.

Definition mountpoint_remove (path : str) : M (vfs F) unit :=
  acquire mplst_lock;;
  l ← gets mp_list;
  found ← remove_loop l path;
  if (found : bool) then mret tt else release mplst_lock.
End vfs.

(** ** Longest-prefix mount lookup *)

Section mounts.
Context {F : Type} `{VfsEnv F}.

(** [a] is the mount point of [path] with the longest path among those of [l]. *)
Definition best_mount (s : vfs F) (l : list Z) (path : str) (a : Z) : Prop :=
  ∃ mp, a ∈ l ∧ mps s !! a = Some mp ∧ mp_path mp `prefix_of` path ∧
    ∀ b mq, b ∈ l → mps s !! b = Some mq → mp_path mq `prefix_of` path →
      zlen (mp_path mq) ≤ zlen (mp_path mp).

Lemma find_loop_ok (s : vfs F) path l : ∀ best (mp0 : str),
  (∀ a, a ∈ l → ∃ mp, mps s !! a = Some mp ∧ mp_path mp ≠ []) →
  ∃ r, find_loop l path (zlen mp0 - 1) best s = Ret (r, s) ∧
    ((r = best ∧ ∀ b mq, b ∈ l → mps s !! b = Some mq → mp_path mq `prefix_of` path →
        zlen (mp_path mq) ≤ zlen mp0) ∨
     (∃ mp, r ∈ l ∧ mps s !! r = Some mp ∧ mp_path mp `prefix_of` path ∧
        zlen mp0 < zlen (mp_path mp) ∧
        ∀ b mq, b ∈ l → mps s !! b = Some mq → mp_path mq `prefix_of` path →
          zlen (mp_path mq) ≤ zlen (mp_path mp))).
Proof.
  induction l as [|a l IH]; intros best mp0 Hl.
  { exists best. split; [done|]. left. split; [done|]. set_solver. }
  destruct (Hl a) as (mp & Hmp & Hne); [set_solver|]. cbn [find_loop].
  erewrite mbind_Ret by (unfold get_mp, mtry; by rewrite Hmp). cbv beta zeta.
  assert (∀ b, b ∈ l → ∃ mp, mps s !! b = Some mp ∧ mp_path mp ≠ []) as Hl'
    by (intros b Hb; apply Hl; set_solver).
  destruct (decide (mp_path mp `prefix_of` path ∧ zlen mp0 < zlen (mp_path mp)))
    as [[Hp Hlen]|Hnot].
  - pose proof (proj2 (str_match_prefix_full path (mp_path mp)) Hp) as Hm. rewrite Hm.
    rewrite (proj2 (Z.eqb_eq _ _)) by lia. rewrite (proj2 (Z.ltb_lt _ _)) by lia. cbn [andb].
    destruct (IH a (mp_path mp) Hl') as (r & E & Hr). exists r. split; [done|]. right.
    destruct Hr as [[-> Hle]|(mp' & Hin & Hmp' & Hp' & Hlt & Hle)].
    + exists mp. split_and!; [set_solver|done..|]. intros b mq [->|Hb]%elem_of_cons Hmq Hq.
      * assert (mq = mp) as -> by congruence. lia.
      * by apply (Hle b).
    + exists mp'. split_and!; [set_solver|done|done|lia|].
      intros b mq [->|Hb]%elem_of_cons Hmq Hq.
      * assert (mq = mp) as -> by congruence. lia.
      * by apply (Hle b).
  - assert (((str_match_prefix path (mp_path mp) - 1 + 1 =? zlen (mp_path mp)) &&
      (zlen mp0 - 1 <? str_match_prefix path (mp_path mp) - 1)) = false) as ->.
    { apply not_true_iff_false. intros [H1 H2]%andb_prop. apply Z.eqb_eq in H1.
      apply Z.ltb_lt in H2. rewrite Z.sub_add in H1. apply Hnot.
      split; [by apply str_match_prefix_full|lia]. }
    destruct (IH best mp0 Hl') as (r & E & Hr). exists r. split; [done|].
    assert (∀ mq, mps s !! a = Some mq → mp_path mq `prefix_of` path →
      zlen (mp_path mq) ≤ zlen mp0) as Ha.
    { intros mq Hmq Hq. assert (mq = mp) as -> by congruence.
      destruct (Z.le_gt_cases (zlen (mp_path mp)) (zlen mp0)); [done|]. exfalso. auto. }
    destruct Hr as [[-> Hle]|(mp' & Hin & Hmp' & Hp' & Hlt & Hle)]; [left|right].
    + split; [done|]. intros b mq [->|Hb]%elem_of_cons; [by apply Ha|by apply Hle].
    + exists mp'. split_and!; [set_solver|done..|].
      intros b mq [->|Hb]%elem_of_cons Hmq Hq; [specialize (Ha mq Hmq Hq); lia|by apply (Hle b)].
Qed.

(** C18: when the mount-list lock is free and every mount path is nonempty,
    [mountpoint_find] returns (with the lock free again and the mounts unchanged) a mounted
    file system whose mount path is a prefix of the path and at least as long as any other
    such mount path, and NULL exactly when no mount path is a prefix.  Lengths of paths fit
    an [int]. *)
Theorem mountpoint_find_longest (s : vfs F) path :
  lock_free mplst_lock s →
  (∀ a, a ∈ mp_list s → a ≠ 0 ∧ ∃ mp, mps s !! a = Some mp ∧ mp_path mp ≠ []) →
  ∃ r s', mountpoint_find path s = Ret (r, s') ∧ lock_free mplst_lock s' ∧
    mp_list s' = mp_list s ∧ mps s' = mps s ∧
    (r ≠ 0 → best_mount s (mp_list s) path r) ∧
    (r = 0 ↔ ∀ a mp, a ∈ mp_list s → mps s !! a = Some mp → ¬ mp_path mp `prefix_of` path).
Proof.
  intros Hlk Hl. unfold mountpoint_find.
  erewrite mbind_Ret by (by apply acquire_ok). cbv beta.
  set (s1 := lset lock_lens _ s).
  erewrite mbind_Ret by reflexivity. cbv beta.
  destruct (find_loop_ok s1 path (mp_list s1) 0 []) as (r & E & Hr).
  { intros a Ha. by destruct (Hl a Ha) as [_ ?]. }
  mstep E. erewrite mbind_Ret by (by apply (release_ok mplst_lock s s1)).
  do 2 eexists. split; [reflexivity|]. split; [by apply lock_free_lset|].
  split_and!; [done|done| |].
  - intros Hr0. destruct Hr as [[-> _]|(mp & Hin & Hmp & Hp & _ & Hle)]; [done|].
    exists mp. done.
  - split.
    + intros ->. destruct Hr as [[_ Hle]|(mp & Hin & _)].
      * intros a mp Ha Hmp Hp. destruct (Hl a Ha) as (_ & mp' & Hmp' & Hne).
        assert (mp' = mp) as -> by congruence. specialize (Hle a mp Ha Hmp Hp).
        destruct (mp_path mp) as [|c l]; [done|]. rewrite zlen_cons in Hle.
        change (zlen (@nil Z)) with 0 in Hle. pose proof (zlen_nonneg l). lia.
      * by destruct (Hl 0 Hin).
    + intros Hno. destruct Hr as [[-> _]|(mp & Hin & Hmp & Hp & _)]; [done|].
      by destruct (Hno r mp Hin Hmp).
Qed.
End mounts.

(** ** Nested critical sections *)

(** In process context no spinlock is held. *)
Definition quiet (e : lockenv) : Prop := ∃ c, cpus e !! 0%nat = Some c ∧ noff c = 0.

Lemma quiet_env_ok e : quiet e → env_ok e.
Proof. intros (c & Hc & Hn). exists c. split; [done|]. lia. Qed.

Lemma entered_env_ok lk e : quiet e → env_ok (entered lk e).
Proof.
  intros Hq. pose proof (quiet_env_ok e Hq) as Hok. destruct Hq as (c & Hc & Hn).
  unfold entered. destruct (locks e !! lk); [|done].
  destruct e as [[|c0 cs] ls]; simplify_eq/=. exists (enter_cpu c). split; [done|].
  unfold enter_cpu. cbn. rewrite Hn. lia.
Qed.

Lemma touched_entered lk e : quiet e → is_Some (locks e !! lk) → touched (entered lk e) = entered lk e.
Proof.
  intros (c & Hc & Hn) [l Hl]. unfold entered. rewrite Hl.
  destruct e as [[|c0 cs] ls]; simplify_eq/=.
  unfold touched, on_cpu0, set_lock, touch_cpu, enter_cpu. cbn. by rewrite Hn.
Qed.

Lemma quiet_touched e : quiet e → quiet (touched e).
Proof.
  intros (c & Hc & Hn). destruct e as [[|c0 cs] ls]; simplify_eq/=.
  by exists (touch_cpu c).
Qed.

Section nested.
Context {S : Type} `{HasLocks S}.

Lemma lock_free_entered lk lk' (s s' : S) :
  quiet (lget lock_lens s) → lock_free lk' s → lk ≠ lk' →
  lget lock_lens s' = entered lk (lget lock_lens s) → lock_free lk' s'.
Proof.
  intros Hq [_ [nm Hl]] Hne E. unfold lock_free. rewrite E. split; [by apply entered_env_ok|].
  exists nm. unfold entered. destruct (locks _ !! lk); [|done].
  destruct (lget lock_lens s) as [[|c cs] ls]; cbn; by rewrite lookup_insert_ne.
Qed.

Lemma lock_free_touched lk (s s' : S) :
  lock_free lk s → lget lock_lens s' = touched (lget lock_lens s) → lock_free lk s'.
Proof.
  intros [He [nm Hl]] E. unfold lock_free. rewrite E. split; [by apply touched_env_ok|].
  exists nm. by destruct (lget lock_lens s) as [[|c cs] ls].
Qed.
End nested.

(** ** Descriptor allocation *)

Section fdt.
Context {F : Type} `{VfsEnv F}.

(** The number of free descriptors of a table. *)
Definition nulls (l : list Z) : Z := zlen (filter (λ p, p = 0) l).

(** [next_fd] is the lowest free descriptor; [nr_avail_fd] is at least the number of
    free ones ([fd_clone] does not count the descriptor it takes). *)
Record fdt_wf (x : files_struct) : Prop := {
  wf_fd_len : zlen (fd x) = NR_OPEN;
  wf_next_fd : next_fd x = scan_fd (fd x) 0;
  wf_nr_avail : nulls (fd x) ≤ nr_avail_fd x < 2 ^ 32
}.

Lemma scan_fd_spec l : ∀ i,
  zlen l + i = NR_OPEN → 0 ≤ i →
  (nulls l = 0 ∧ scan_fd l i = NR_OPEN) ∨
  (0 < nulls l ∧ i ≤ scan_fd l i < NR_OPEN ∧
   l !! Z.to_nat (scan_fd l i - i) = Some 0 ∧
   ∀ j, i ≤ j < scan_fd l i → ∃ p, l !! Z.to_nat (j - i) = Some p ∧ p ≠ 0).
Proof.
  unfold nulls. induction l as [|p l IH]; intros i Hl Hi; [by left|].
  rewrite zlen_cons in Hl. pose proof (zlen_nonneg l). cbn [scan_fd].
  destruct (Z.eqb_spec p 0) as [->|Hp].
  - right. rewrite filter_cons_True, zlen_cons by done.
    pose proof (zlen_nonneg (filter (λ p, p = 0) l)).
    rewrite Z.sub_diag. split_and!; [lia|lia|lia|done|lia].
  - rewrite filter_cons_False by done.
    destruct (IH (i + 1)) as [[E1 E2]|(E1 & E2 & E3 & E4)]; [lia|lia|by left|right].
    assert (∀ j, i + 1 ≤ j → (p :: l) !! Z.to_nat (j - i) = l !! Z.to_nat (j - (i + 1))) as Hs.
    { intros j Hj. replace (Z.to_nat (j - i)) with (S (Z.to_nat (j - (i + 1)))) by lia. done. }
    split_and!; [done|lia|lia|by rewrite Hs by lia|].
    intros j Hj. destruct (decide (j = i)) as [->|].
    + rewrite Z.sub_diag. eauto.
    + rewrite Hs by lia. apply E4. lia.
Qed.

Lemma nulls_take l i f :
  l !! i = Some 0 → f ≠ 0 → nulls (<[i := f]> l) = nulls l - 1.
Proof.
  intros Hi Hf. unfold nulls. rewrite insert_take_drop by (by eapply lookup_lt_Some).
  rewrite <- (take_drop_middle _ _ _ Hi) at 3.
  rewrite !filter_app, filter_cons_False, filter_cons_True by done.
  rewrite !zlen_app, zlen_cons. lia.
Qed.

Lemma get_table_ok (s : vfs F) t x : tables s !! t = Some x → get_table t s = Ret (x, s).
Proof. intros Hx. unfold get_table, mtry. by rewrite Hx. Qed.

Lemma get_fd_ok (s : vfs F) t x i p :
  tables s !! t = Some x → znth (fd x) i = Some p → get_fd t i s = Ret (p, s).
Proof.
  intros Hx Hp. unfold get_fd. erewrite mbind_Ret by (by apply get_table_ok).
  unfold mlift. by rewrite Hp.
Qed.

Definition upd_table (t : Z) (x : files_struct) (s : vfs F) : vfs F :=
  set_tables (<[t := x]> (tables s)) s.

Lemma put_table_ok (s : vfs F) t x : put_table t x s = Ret (tt, upd_table t x s).
Proof. done. Qed.

Lemma upd_table_lookup (s : vfs F) t x : tables (upd_table t x s) !! t = Some x.
Proof. apply lookup_insert_eq. Qed.

Lemma upd_table_twice (s : vfs F) t x y : upd_table t y (upd_table t x s) = upd_table t y s.
Proof. unfold upd_table, set_tables. cbn. by rewrite insert_insert_eq. Qed.

Lemma set_fd_ok (s : vfs F) t x i v :
  tables s !! t = Some x → 0 ≤ i < zlen (fd x) →
  set_fd t i v s =
    Ret (tt, upd_table t (FilesStruct (<[Z.to_nat i := v]> (fd x)) (next_fd x) (nr_avail_fd x)) s).
Proof.
  intros Hx Hi. unfold set_fd. erewrite mbind_Ret by (by apply get_table_ok).
  unfold mlift, zset. rewrite decide_True by done. by erewrite mbind_Ret by reflexivity.
Qed.

Lemma find_avail_fd_ok (s : vfs F) t x :
  tables s !! t = Some x → zlen (fd x) = NR_OPEN → nulls (fd x) ≤ nr_avail_fd x →
  find_avail_fd t s =
    Ret (tt, upd_table t (FilesStruct (fd x) (scan_fd (fd x) 0) (nr_avail_fd x)) s).
Proof.
  intros Hx Hl Hn. unfold find_avail_fd. erewrite mbind_Ret by (by apply get_table_ok).
  pose proof (scan_fd_spec (fd x) 0 ltac:(lia) ltac:(lia)) as Hs.
  rewrite take_ge by (unfold zlen, NR_OPEN in *; lia).
  assert (u32 (scan_fd (fd x) 0) = scan_fd (fd x) 0) as Hu.
  { apply u32_small. unfold NR_OPEN in *. lia. }
  unfold ctrue. destruct (Z.eqb_spec (nr_avail_fd x) 0) as [E|]; cbn [negb].
  - pose proof (zlen_nonneg (filter (λ p, p = 0) (fd x))). unfold nulls in *.
    destruct Hs as [[_ Es]|[? _]]; [|lia].
    unfold set_next_fd. erewrite mbind_Ret by (by apply get_table_ok).
    rewrite put_table_ok, u32_small, Es by (unfold NR_OPEN; lia). done.
  - unfold set_next_fd. erewrite mbind_Ret by (by apply get_table_ok).
    by rewrite put_table_ok, Hu.
Qed.

Definition with_ref (f : Z) (r : Z) (s : vfs F) : vfs F := lset (ref_lens f) r s.

Lemma file_get_nested t f (s s1 : vfs F) x :
  quiet (venv s) → lock_free t s → lock_free f s → t ≠ f →
  venv s1 = entered t (venv s) → f ≠ 0 → files s1 !! f = Some x → -2^31 ≤ f_ref x < 2 ^ 31 - 1 →
  file_get f s1 = Ret (tt, with_ref f (f_ref x + 1) s1).
Proof.
  intros Hq Ht Hf Hne E Hf0 Hx Hr. unfold file_get, ctrue.
  rewrite (proj2 (Z.eqb_neq f 0)) by done. cbn [negb].
  assert (lget (ref_lens f) s1 = f_ref x) as Er by (cbn; by rewrite Hx).
  assert (i32 (lget (ref_lens f) s1 + 1) = f_ref x + 1) as Ei by (rewrite Er; apply i32_small; lia).
  erewrite mbind_Ret.
  2:{ unfold atomic_inc. pose proof (lock_free_entered t f s s1 Hq Hf Hne E) as Hf1.
      assert (touched (venv s1) = venv s1) as Htt.
      { rewrite E. apply touched_entered; [done|]. destruct Ht as [_ [nm Hl]]. by eexists. }
      erewrite mbind_Ret by (by apply acquire_ok). cbv beta.
      erewrite mbind_Ret by reflexivity. erewrite mbind_Ret by reflexivity. cbv beta.
      erewrite mbind_Ret by (apply (release_ok f s1); [done|reflexivity]).
      cbn [lock_lens vfs_HasLocks lget lset]. rewrite Htt. reflexivity. }
  cbv beta. unfold with_ref. rewrite <- Ei. by destruct s1.
Qed.

Lemma fd_alloc_avail (s : vfs F) t x f y :
  quiet (venv s) → lock_free t s → lock_free f s → t ≠ f → f ≠ 0 →
  tables s !! t = Some x → fdt_wf x → files s !! f = Some y → 0 ≤ f_ref y < 2 ^ 31 - 1 →
  0 < nulls (fd x) → ∃ i x' s',
    fd_alloc t f s = Ret (i, s') ∧ 0 ≤ i < NR_OPEN ∧ znth (fd x) i = Some 0 ∧
    (∀ j, 0 ≤ j < i → ∃ p, znth (fd x) j = Some p ∧ p ≠ 0) ∧
    tables s' !! t = Some x' ∧ fdt_wf x' ∧ fd x' = <[Z.to_nat i := f]> (fd x) ∧
    f_ref <$> files s' !! f = Some (f_ref y + 1) ∧ quiet (venv s') ∧ lock_free t s'.
Proof.
  intros Hq Ht Hf Hne Hf0 Hx [Hlen Hnext Havail] Hy Hr Hpos.
  pose proof (scan_fd_spec (fd x) 0 ltac:(lia) ltac:(lia)) as Hs.
  set (s1 := set_venv (entered t (venv s)) s).
  assert (acquire t s = Ret (tt, s1)) as Eacq by (exact (acquire_ok t s Ht)).
  assert ((f =? 0) = false) as Ef by (by apply Z.eqb_neq).
  destruct Hs as [[? _]|(_ & Hi & Hz & Hlow)]; [lia|].
  set (i := scan_fd (fd x) 0) in *. rewrite Z.sub_0_r in Hz.
  assert (znth (fd x) i = Some 0) as Hzi by (apply znth_Some; split; [lia|done]).
  unfold fd_alloc, ctrue at 1. rewrite Ef. cbn [negb]. mstep Eacq.
  erewrite mbind_Ret by (by apply get_table_ok). cbv beta zeta.
  rewrite Hnext, i32_small by (unfold NR_OPEN in *; lia).
  rewrite (proj2 (Z.leb_gt NR_OPEN i)) by lia.
  erewrite mbind_Ret by (by eapply get_fd_ok). erewrite mbind_Ret by reflexivity. cbv beta.
  erewrite mbind_Ret by (apply (set_fd_ok _ t x); [done|lia]). cbv beta.
  set (l' := <[Z.to_nat i := f]> (fd x)).
  assert (zlen l' = NR_OPEN) as Hl' by (unfold zlen, l'; by rewrite length_insert).
  assert (nulls l' = nulls (fd x) - 1) as Hnl by (by apply nulls_take).
  erewrite mbind_Ret by (apply find_avail_fd_ok; [apply upd_table_lookup|done|cbn; lia]).
  cbv beta. cbn [fd nr_avail_fd].
  erewrite mbind_Ret by (apply get_table_ok, upd_table_lookup). cbv beta. cbn [nr_avail_fd].
  erewrite mbind_Ret by (unfold set_nr_avail;
    erewrite mbind_Ret by (apply get_table_ok, upd_table_lookup); apply put_table_ok).
  cbv beta. cbn [fd next_fd]. rewrite !upd_table_twice.
  rewrite (u32_small (nr_avail_fd x - 1)) by lia.
  set (x' := FilesStruct l' (scan_fd l' 0) (nr_avail_fd x - 1)).
  erewrite mbind_Ret by (apply (file_get_nested t f s _ y); (done || lia)). cbv beta.
  erewrite mbind_Ret by (by apply (release_ok t s)). cbv beta.
  eexists i, x', _. split; [reflexivity|]. split_and!.
  - lia.
  - lia.
  - done.
  - intros j Hj. destruct (Hlow j Hj) as (p & Hp & Hp0). rewrite Z.sub_0_r in Hp.
    exists p. split; [|done]. apply znth_Some. split; [lia|done].
  - cbn. apply lookup_insert_eq.
  - split; cbn; [done|done|lia].
  - done.
  - cbn. rewrite lookup_alter_eq, Hy. done.
  - by apply quiet_touched.
  - by apply (lock_free_touched t s).
Qed.

Lemma fd_alloc_full (s : vfs F) t x f :
  quiet (venv s) → lock_free t s → f ≠ 0 → tables s !! t = Some x → fdt_wf x →
  nulls (fd x) = 0 → ∃ s', fd_alloc t f s = Ret (-1, s') ∧
    ∀ n, fd_get t n s' = Panic ∧ fd_alloc t f s' = Panic.
Proof.
  intros Hq Ht Hf0 Hx [Hlen Hnext Havail] Hz.
  pose proof (scan_fd_spec (fd x) 0 ltac:(lia) ltac:(lia)) as Hs.
  set (s1 := set_venv (entered t (venv s)) s).
  assert (acquire t s = Ret (tt, s1)) as Eacq by (exact (acquire_ok t s Ht)).
  assert ((f =? 0) = false) as Ef by (by apply Z.eqb_neq).
  destruct Hs as [[_ Hs]|[? _]]; [|lia].
  exists s1. split.
  - unfold fd_alloc, ctrue at 1. rewrite Ef. cbn [negb]. mstep Eacq. erewrite mbind_Ret by (by apply get_table_ok). cbv beta zeta.
    by rewrite Hnext, Hs.
  - assert (acquire t s1 = Panic) as Ep.
    { destruct Hq as (c & Hc & Hn0). destruct Ht as [_ [nm Hl]].
      destruct (venv s) as [[|c0 cs] ls] eqn:Ev; [done|]. cbn in Hl, Hc. injection Hc as ->.
      rewrite Ev in Hl. cbn in Hl.
      apply (acquire_held t s1 (Spinlock LOCKED nm (Some 0%nat)) (enter_cpu c)).
      - cbn. unfold entered. rewrite ?Ev. cbn. by rewrite Hl.
      - cbn. lia.
      - cbn. unfold entered. cbn. rewrite Hl. cbn. by rewrite lookup_insert_eq.
      - done. }
    intros n. split; [unfold fd_get|unfold fd_alloc, ctrue at 1; rewrite Ef; cbn [negb]];
      unfold mbind at 1, M_bind at 1; by rewrite Ep.
Qed.

(** On a well-formed descriptor table with its lock free, [fd_alloc] stores the file
    under the lowest unused descriptor, returns it, adds one reference to the file and
    keeps the table well formed and every lock free; when all [NR_OPEN] descriptors are
    in use it returns -1 without releasing the table's lock, and the next operation on
    the table never returns. *)
Theorem fd_alloc_lowest (s : vfs F) t x f y :
  quiet (venv s) → lock_free t s → lock_free f s → t ≠ f → f ≠ 0 →
  tables s !! t = Some x → fdt_wf x → files s !! f = Some y → 0 ≤ f_ref y < 2 ^ 31 - 1 →
  (0 < nulls (fd x) → ∃ i x' s',
    fd_alloc t f s = Ret (i, s') ∧ 0 ≤ i < NR_OPEN ∧ znth (fd x) i = Some 0 ∧
    (∀ j, 0 ≤ j < i → ∃ p, znth (fd x) j = Some p ∧ p ≠ 0) ∧
    tables s' !! t = Some x' ∧ fdt_wf x' ∧ fd x' = <[Z.to_nat i := f]> (fd x) ∧
    f_ref <$> files s' !! f = Some (f_ref y + 1) ∧ quiet (venv s') ∧ lock_free t s') ∧
  (nulls (fd x) = 0 → ∃ s', fd_alloc t f s = Ret (-1, s') ∧
    ∀ n, fd_get t n s' = Panic ∧ fd_alloc t f s' = Panic).
Proof.
  intros. split; intros; [by eapply fd_alloc_avail|by eapply fd_alloc_full].
Qed.
End fdt.

(** ** A concrete file system *)

Section demo.

(** A file system with a close operation that succeeds and does nothing else. *)
Definition demo_fops : file_operations (vfs unit) :=
  FileOps (vfs unit) None None None None (Some (λ _, mret 0)) None None.

Definition demo_env : VfsEnv unit := {|
  fops := λ p, if p =? 500 then Some demo_fops else None;
  fsops := λ _, None;
  f_stdin := 100; f_stdout := 101; f_stderr := 102;
  mplst_lock := 2 |}.
#[local] Existing Instance demo_env.

Definition demo_locks : lockenv :=
  LockEnv [Cpu 0 false true]
    (list_to_map ((λ a, (a, Spinlock UNLOCKED "l" None)) <$> [1; 2; 10; 100; 101; 102])).

(** The table at address 1 after [fdt_init]; the file at 10 is not yet open. *)
Definition demo_files : gmap Z file :=
  list_to_map ((λ a, (a, File 0 500 0 [] 0 0 1)) <$> [100; 101; 102]).
Definition demo_vfs : vfs unit :=
  Vfs demo_locks (<[10 := File 0 500 0 [] 0 0 0]> demo_files) ∅
    {[1 := FilesStruct ([100; 101; 102] ++ replicate 1021 0) 3 1021]} ∅
    [201; 200] (list_to_map [(200, Mountpoint [SLASH] 1 0 0);
      (201, Mountpoint [SLASH; 100; 101; 118] 2 0 0)]) [300; 301; 302; 303] [SLASH] 1 tt.

Lemma demo_lock_free a :
  a ∈ [1; 2; 10; 100; 101; 102] → lock_free a demo_vfs.
Proof.
  intros Ha. split; [exists (Cpu 0 false true); split; [done|cbn; lia]|].
  exists "l"%string. repeat (apply elem_of_cons in Ha as [->|Ha]; [by vm_compute|]).
  by apply not_elem_of_nil in Ha.
Qed.

Lemma mountpoint_find_longest_witness :
  lock_free mplst_lock demo_vfs ∧
  ∃ r s', mountpoint_find [SLASH; 100; 101; 118; SLASH; 97] demo_vfs = Ret (r, s') ∧
    (r ≠ 0 → best_mount demo_vfs [201; 200] [SLASH; 100; 101; 118; SLASH; 97] r).
Proof.
  assert (lock_free mplst_lock demo_vfs) as Hl by (apply demo_lock_free; set_solver).
  split; [done|].
  destruct (mountpoint_find_longest demo_vfs [SLASH; 100; 101; 118; SLASH; 97] Hl)
    as (r & s' & E & _ & _ & _ & Hr & _); [|by exists r, s'].
  cbn [mp_list demo_vfs]. intros a [->|[->|Ha]%elem_of_cons]%elem_of_cons.
  - split; [done|]. eexists. split; [by vm_compute|done].
  - split; [done|]. eexists. split; [by vm_compute|done].
  - by apply not_elem_of_nil in Ha.
Defined.

Lemma fd_alloc_lowest_witness :
  ∃ i x' s', fd_alloc 1 10 demo_vfs = Ret (i, s') ∧ tables s' !! 1 = Some x' ∧ fdt_wf x' ∧
    lock_free 1 s'.
Proof.
  destruct (fd_alloc_lowest demo_vfs 1
    (FilesStruct ([100; 101; 102] ++ replicate 1021 0) 3 1021) 10 (File 0 500 0 [] 0 0 0))
    as [H _]; [by eexists|apply demo_lock_free; set_solver|apply demo_lock_free; set_solver|
      done|done|by vm_compute|split; by vm_compute|by vm_compute|cbn; lia|].
  destruct H as (i & x' & s' & E & _ & _ & _ & Ht & Hw & _ & _ & _ & Hl); [by vm_compute|].
  by exists i, x', s'.
Defined.

Definition run_state {A} (m : M (vfs unit) A) (s : vfs unit) : vfs unit :=
  match m s with Ret (_, s') => s' | _ => s end.

(** [dup] does not count the new descriptor: closing the old one frees the file, and the
    new descriptor still holds its address. *)
Example fd_clone_dangling :
  let s := run_state (fd_alloc 1 10;; fd_clone 1 3 (-1);; fd_free 1 3) demo_vfs in
  files s !! 10 = None ∧ (∃ s', fd_get 1 4 s = Ret (10, s')) ∧ fd_free 1 4 s = Fault.
Proof. vm_compute. split_and!; [done|eexists; reflexivity|done]. Qed.

(** [fdt_dup] copies the inode of every open file; the standard streams have none. *)
Example fdt_dup_std_inode : fdt_dup 1 "dup" demo_vfs = Fault.
Proof. by vm_compute. Qed.

(** A second mount on a used path leaves the mount list locked, and so does every
    removal. *)
Example mountpoint_lock_kept :
  (mountpoint_add 201;; mountpoint_find [SLASH]) demo_vfs = Panic ∧
  (mountpoint_remove [SLASH; 100; 101; 118];; mountpoint_find [SLASH]) demo_vfs = Panic.
Proof. by vm_compute. Qed.
End demo.
