(* ===== verification/FsSys.v ===== *)
(** * File-system calls

    Models the system calls of [kernel/fs/fs.c] and the in-kernel file interface of
    [kernel/fs/kernel.c].  Each definition follows the call from its argument checks
    to its result, with every early return and every resource it leaves behind. *)

From S2P Require Export Vfs.

Definition O_APPEND : Z := 0x400.
Definition O_DIRECTORY : Z := 0x10000.
Definition SEEK_END : Z := 2.
Definition AT_FDCWD : Z := -100.
Definition AT_REMOVEDIR : Z := 0x200.
Definition AT_SYMLINK_FOLLOW : Z := 0x400.
Definition AT_EMPTY_PATH : Z := 0x1000.
Definition FT_BLKDEV_DEV : Z := 4.
Definition KERNEL_OPEN_FLAG : Z := O_RDONLY.
(** [ERR_PTR(-EINVAL)] as an address. *)
Definition ERR_EINVAL : Z := 2 ^ 64 - 22.
Definition S_ISLNK (m : Z) : bool := Z.land m S_IFMT =? 0xA000.

(** What the calls use besides the VFS: copies from and to user memory (negative or
    [None] on a bad address), the layout of [struct stat], the table [filesys], the
    device nodes and the pipe constructor. *)
Class SysEnv (F : Type) `{VfsEnv F} := {
  copy_from_user_str : Z → Z → M (vfs F) (option str);
  copy_to_user_str : Z → str → Z → M (vfs F) Z;
  copy_to_user : Z → list Z → M (vfs F) Z;
  copy_from_user : Z → Z → Z → M (vfs F) Z;
  stat_bytes : stat → list Z;
  fd_bytes : Z → list Z;
  filesys : list (str * Z);
  devfs_get_by_path : str → M (vfs F) Z;
  device_type : Z → M (vfs F) Z;
  device_blkdev : Z → M (vfs F) Z;
  pipe_init : Z → Z → M (vfs F) Z;
  pipe_free : Z → M (vfs F) unit
}.

(** [if (cond) return v;] *)
Notation "'return_if' c 'with' v ;; k" := (if c then mret v else k)
  (at level 100, c at level 99, v at level 99, k at level 200, right associativity) : hana_scope.

Section calls.
Context {F : Type} `{SysEnv F}.

Definition filesys_find (fstype : str) : Z :=
  match list_find (λ p, p.1 = fstype) filesys with Some (_, (_, fs)) => fs | None => 0 end.

(** The path buffer after [strcpy]. *)
Definition path_buf (p : str) : M (vfs F) (list Z) :=
  if zlen p <? MAX_PATH_LEN
  then mret (p ++ replicate (Z.to_nat (MAX_PATH_LEN - zlen p)) 0) else mfault.

(** The result and the path; an unsuccessful call leaves the buffer unspecified. *)
Definition get_absolute_path (path : str) (dirfd : Z) : M (vfs F) (Z * str) :=
  if chr path 0 =? SLASH then
    path_buf path;; mret (0, path)
  else
    base ← (if dirfd =? AT_FDCWD then gets cwd
            else t ← gets myfdt; f ← fd_get t dirfd; x ← get_file f; mret (f_path x));
    b ← path_buf base;
    match fullpath_connect path b with
    | Ret (ret, b) => mret (if ret <? 0 then (-1, []) else (0, buf_str b))
    | Panic => mpanic
    | Fault => mfault
    | Spin => mspin
    end.

Definition sys_getcwd (buf size : Z) : M (vfs F) Z :=
  d ← gets cwd;
  if (buf =? 0) || (size <? zlen d) then mret 0
  else
    r ← copy_to_user_str buf d size;
    mret (if r <? 0 then 0 else buf).

Definition sys_dup (fd : Z) : M (vfs F) Z :=
  t ← gets myfdt;
  ret ← fd_clone t fd (-1);
  mret (if ret <? 0 then -1 else ret).

Definition sys_dup3 (old new flags : Z) : M (vfs F) Z :=
  t ← gets myfdt;
  ret ← fd_clone t old new;
  mret (if ret <? 0 then -1 else ret).

(** The new directory is the argument as it was given. *)
Definition sys_chdir (path : Z) : M (vfs F) Z :=
  p ← copy_from_user_str path MAX_PATH_LEN;
  match p with
  | None => mret (-1)
  | Some p => modify (set_cwd p);; mret 0
  end.

(** The common part of the openers: path, mount point, the two allocations,
    [file_init], [ifget] and [openat].  [inl] is the value of an early return. *)
Definition open_file (path : str) (dirfd flags mode err : Z) :
  M (vfs F) (Z + (Z * Z * Z * str)) :=
  '(ret, full_path) ← get_absolute_path path dirfd;
  if ret <? 0 then mret (inl err)
  else
    mp ← mountpoint_find full_path;
    if mp =? 0 then mret (inl (if err =? -1 then -1 else 0))
    else
      let fail := if err =? -1 then -1 else 0 in
      m ← get_mp mp;
      file ← kcalloc_file;
      if file =? 0 then mret (inl fail)
      else
        inode ← kcalloc_inode;
        if inode =? 0 then kfree file;; mret (inl fail)
        else
          file_init file 0 (Some full_path) flags 0;;
          ifget ← call_fs op_ifget (λ _ _ _, mret (-1)) (mp_fs m);
          ret ← ifget mp inode file;
          if ret <? 0 then kfree inode;; kfree file;; mret (inl fail)
          else
            openat ← call_fop op_openat (λ _ _ _ _, mret (-1)) file;
            ret ← openat file full_path flags mode;
            if negb (ret =? 0) then kfree inode;; kfree file;; mret (inl fail)
            else mret (inr (mp, file, inode, full_path)).

Definition sys_openat (dirfd path flags mode : Z) : M (vfs F) Z :=
  t ← gets myfdt;
  p ← copy_from_user_str path MAX_PATH_LEN;
  match p with
  | None => mret (-1)
  | Some p =>
      r ← open_file p dirfd flags mode (-1);
      match r with
      | inl e => mret e
      | inr (mp, file, inode, full_path) =>
          fd ← fd_alloc t file;
          if fd <? 0 then kfree inode;; kfree file;; mret (-1)
          else
            m ← get_mp mp;
            getattr ← call_fs op_getattr (λ _, mret (-1, Stat 0 0 0 0 0 0)) (mp_fs m);
            '(ret, st) ← getattr full_path;
            if negb (ret =? 0) then
              (* out_fd falls through to out_inode and out_file *)
              fd_free t fd;; kfree inode;; kfree file;; mret (-1)
            else
              i ← get_inode inode;
              put_inode inode (Inode (st_mode st) (st_size st) (st_ino st) (st_atime st)
                                     (st_mtime st) (st_ctime st) (i_mp i));;
              mret fd
      end
  end.

Definition get_bufd (a : Z) : M (vfs F) (list Z) := mtry (λ s, bufs s !! a).

Definition sys_read (fd buf count : Z) : M (vfs F) Z :=
  t ← gets myfdt;
  return_if count =? 0 with 0;;
  kernel_buf ← kcalloc_buf count;
  return_if kernel_buf =? 0 with (-1);;
  return_if (fd <? 0) || (NR_OPEN <=? fd) with (-1);;
  file ← fd_get t fd;
  return_if file =? 0 with (-1);;
  x ← get_file file;
  return_if Z.land (f_flags x) O_ACCMODE =? O_WRONLY with (-1);;
  let ori_fpos := fpos x in
  read ← call_fop op_read (λ _ _ _, mret (-1)) file;
  ret ← read file kernel_buf count;
  return_if ret <? 0 with (-1);;
  data ← get_bufd kernel_buf;
  data ← mlift (zslice data 0 ret);
  r ← copy_to_user buf data;
  if r <? 0 then kfree kernel_buf;; mret (-1)
  else
    kfree kernel_buf;;
    x ← get_file file;
    mret (fpos x - ori_fpos).

Definition sys_write (fd buf count : Z) : M (vfs F) Z :=
  t ← gets myfdt;
  return_if count =? 0 with 0;;
  kernel_buf ← kcalloc_buf count;
  return_if kernel_buf =? 0 with (-1);;
  return_if (fd <? 0) || (NR_OPEN <=? fd) with (-1);;
  file ← fd_get t fd;
  return_if file =? 0 with (-1);;
  x ← get_file file;
  return_if Z.land (f_flags x) O_ACCMODE =? O_RDONLY with (-1);;
  (if ctrue (Z.land (f_flags x) O_APPEND) then
     llseek ← call_fop op_llseek (λ _ _ _, mret (-1)) file;
     r ← llseek file 0 SEEK_END;
     set_fpos file r
   else mret tt);;
  r ← copy_from_user kernel_buf buf count;
  if r <? 0 then kfree kernel_buf;; mret (-1)
  else
    x ← get_file file;
    let ori_fpos := fpos x in
    write ← call_fop op_write (λ _ _ _, mret (-1)) file;
    ret ← write file kernel_buf count;
    return_if ret <? 0 with (-1);;
    kfree kernel_buf;;
    x ← get_file file;
    mret (fpos x - ori_fpos).

Definition sys_close (fd : Z) : M (vfs F) Z :=
  t ← gets myfdt;
  return_if (fd <? 0) || (NR_OPEN <=? fd) with (-1);;
  file ← fd_get t fd;
  return_if file =? 0 with (-1);;
  fd_free t fd;;
  mret 0.

Definition sys_lseek (fd offset whence : Z) : M (vfs F) Z :=
  t ← gets myfdt;
  return_if (fd <? 0) || (NR_OPEN <=? fd) with (-1);;
  file ← fd_get t fd;
  return_if file =? 0 with (-1);;
  llseek ← call_fop op_llseek (λ _ _ _, mret (-1)) file;
  ret ← llseek file offset whence;
  let ret := i32 ret in
  return_if ret <? 0 with (-1);;
  set_fpos file ret;;
  mret ret.

(** ** Files opened by the kernel ([kernel.c]) *)

Definition kernel_openat (dfd : Z) (path : str) : M (vfs F) Z :=
  r ← open_file path dfd KERNEL_OPEN_FLAG 0 ERR_EINVAL;
  match r with
  | inl e => mret e
  | inr (_, file, _, _) => file_get file;; mret file
  end.
Definition kernel_open (path : str) : M (vfs F) Z := kernel_openat AT_FDCWD path.

Definition kernel_read (file buf size : Z) : M (vfs F) Z :=
  x ← get_file file;
  let ori_fpos := fpos x in
  read ← call_fop op_read (λ _ _ _, mret (-1)) file;
  ret ← read file buf size;
  return_if ret <? 0 with (-1);;
  x ← get_file file;
  mret (fpos x - ori_fpos).

Definition kernel_write (file buf size : Z) : M (vfs F) Z :=
  x ← get_file file;
  let ori_fpos := fpos x in
  write ← call_fop op_write (λ _ _ _, mret (-1)) file;
  ret ← write file buf size;
  return_if ret <? 0 with (-1);;
  x ← get_file file;
  mret (fpos x - ori_fpos).

Definition kernel_close (file : Z) : M (vfs F) Z :=
  ret ← file_put file;
  mret (if ret <? 0 then -1 else 0).

Definition kernel_lseek (file offset whence : Z) : M (vfs F) Z :=
  llseek ← call_fop op_llseek (λ _ _ _, mret (-1)) file;
  ret ← llseek file offset whence;
  let ret := i32 ret in
  return_if ret <? 0 with (-1);;
  set_fpos file ret;;
  mret ret.

(** A [struct mountpoint] from [kcalloc]. *)
Definition kcalloc_mp : M (vfs F) Z :=
  a ← next_addr;
  mwhen (ctrue a)
    (modify (λ s, set_mounts (mp_list s) (<[a := Mountpoint [] 0 0 0]> (mps s)) s));; mret a.

(** The end of both mount calls: the device, the mount point, the file system's own
    [mount]. *)
Definition do_mount (mp : Z) (special dir fstype : str) (data : Z) : M (vfs F) Z :=
  return_if negb (str_match_prefix special [SLASH; 100; 101; 118; SLASH] =? 5) with (-1);;
  device ← devfs_get_by_path special;
  bad ← (if device =? 0 then mret true
         else ft ← device_type device; mret (negb (ft =? FT_BLKDEV_DEV)));
  return_if (bad : bool) with (-1);;
  blkdev ← device_blkdev device;
  old ← mountpoint_find dir;
  return_if negb (old =? 0) with (-1);;
  get_mp mp;;
  modify (λ s, set_mounts (mp_list s)
    (<[mp := Mountpoint dir (filesys_find fstype) blkdev device]> (mps s)) s);;
  mountpoint_add mp;;
  m ← get_mp mp;
  mount ← call_fs op_mount (λ _ _ _, mret (-1)) (mp_fs m);
  mount blkdev mp data.

Definition kernel_mount (special dir fstype : str) (flags data : Z) : M (vfs F) Z :=
  mp ← kcalloc_mp;
  do_mount mp special dir fstype data.

(** ** Calls on paths *)

Definition sys_truncate64 (path length : Z) : M (vfs F) Z :=
  p ← copy_from_user_str path MAX_PATH_LEN;
  match p with
  | None => mret (-1)
  | Some p =>
      file ← kernel_open p;
      return_if file =? 0 with (-1);;
      truncate ← call_fop op_truncate (λ _ _, mret (-1)) file;
      ret ← truncate file length;
      ret ← (if ret <? 0 then mret ret
             else
               x ← get_file file;
               i ← get_inode (f_inode x);
               put_inode (f_inode x) (Inode (i_mode i) length (i_ino i) (i_atime i)
                                            (i_mtime i) (i_ctime i) (i_mp i));;
               mret 0);
      kernel_close file;;
      mret ret
  end.

(** Copy a path in, make it absolute and find its mount point; [None] is the early
    return of -1. *)
Definition resolve (path dirfd : Z) : M (vfs F) (option (str * mountpoint)) :=
  p ← copy_from_user_str path MAX_PATH_LEN;
  match p with
  | None => mret None
  | Some p =>
      '(ret, full_path) ← get_absolute_path p dirfd;
      if ret <? 0 then mret None
      else
        mp ← mountpoint_find full_path;
        if mp =? 0 then mret None
        else m ← get_mp mp; mret (Some (full_path, m))
  end.

Definition sys_faccessat (dfd filename mode : Z) : M (vfs F) Z :=
  r ← resolve filename AT_FDCWD;
  match r with
  | None => mret (-1)
  | Some (full_path, m) =>
      getattr ← call_fs op_getattr (λ _, mret (-1, Stat 0 0 0 0 0 0)) (mp_fs m);
      '(ret, _) ← getattr full_path;
      mret (if ret <? 0 then -1 else 0)
  end.

Definition sys_stat (path buf : Z) : M (vfs F) Z :=
  r ← resolve path AT_FDCWD;
  match r with
  | None => mret (-1)
  | Some (full_path, m) =>
      getattr ← call_fs op_getattr (λ _, mret (-1, Stat 0 0 0 0 0 0)) (mp_fs m);
      '(ret, st) ← getattr full_path;
      return_if ret <? 0 with (-1);;
      r ← copy_to_user buf (stat_bytes st);
      mret (if r <? 0 then -1 else 0)
  end.

Definition sys_fstat (fd buf : Z) : M (vfs F) Z :=
  t ← gets myfdt;
  return_if (fd <? 0) || (NR_OPEN <=? fd) with (-1);;
  file ← fd_get t fd;
  return_if file =? 0 with (-1);;
  x ← get_file file;
  i ← get_inode (f_inode x);
  m ← get_mp (i_mp i);
  getattr ← call_fs op_getattr (λ _, mret (-1, Stat 0 0 0 0 0 0)) (mp_fs m);
  '(ret, st) ← getattr (f_path x);
  return_if ret <? 0 with (-1);;
  r ← copy_to_user buf (stat_bytes st);
  mret (if r <? 0 then -1 else 0).

Definition sys_unlinkat (dirfd path flags : Z) : M (vfs F) Z :=
  r ← resolve path dirfd;
  match r with
  | None => mret (-1)
  | Some (full_path, m) =>
      op ← (if ctrue (Z.land flags AT_REMOVEDIR)
            then call_fs op_rmdir (λ _, mret (-1)) (mp_fs m)
            else call_fs op_unlink (λ _, mret (-1)) (mp_fs m));
      ret ← op full_path;
      mret (if ret <? 0 then -1 else 0)
  end.

Definition sys_mkdirat (dirfd path mode : Z) : M (vfs F) Z :=
  r ← resolve path dirfd;
  match r with
  | None => mret (-1)
  | Some (full_path, m) =>
      mkdir ← call_fs op_mkdir (λ _ _, mret (-1)) (mp_fs m);
      ret ← mkdir full_path mode;
      mret (if ret <? 0 then -1 else 0)
  end.

Definition sys_linkat (olddirfd oldpath newdirfd newpath flags : Z) : M (vfs F) Z :=
  t ← gets myfdt;
  old_file ← fd_get t olddirfd;
  po ← copy_from_user_str oldpath MAX_PATH_LEN;
  match po with
  | None => mret (-1)
  | Some po =>
      pn ← copy_from_user_str newpath MAX_PATH_LEN;
      match pn with
      | None => mret (-1)
      | Some pn =>
          '(ret, full_old) ←
            (if ctrue (Z.land flags AT_EMPTY_PATH) then
               x ← get_file old_file;
               mret (if ctrue (Z.land (f_flags x) O_DIRECTORY) then (-1, []) else (0, f_path x))
             else get_absolute_path po olddirfd);
          return_if ret <? 0 with (-1);;
          '(ret, full_new) ← get_absolute_path pn newdirfd;
          return_if ret <? 0 with (-1);;
          mp ← mountpoint_find full_old;
          return_if mp =? 0 with (-1);;
          m ← get_mp mp;
          link ← call_fs op_link (λ _ _, mret (-1)) (mp_fs m);
          ret ← link full_old full_new;
          return_if ret <? 0 with (-1);;
          if ctrue (Z.land flags AT_SYMLINK_FOLLOW) then
            x ← get_file old_file;
            i ← get_inode (f_inode x);
            if S_ISLNK (i_mode i) then
              unlink ← call_fs op_unlink (λ _, mret (-1)) (mp_fs m);
              ret ← unlink (f_path x);
              mret (if ret <? 0 then -1 else 0)
            else mret 0
          else mret 0
      end
  end.

(** The mount point is looked up with the target, which is not made absolute. *)
Definition sys_symlinkat (target newdirfd linkpath : Z) : M (vfs F) Z :=
  pt ← copy_from_user_str target MAX_PATH_LEN;
  match pt with
  | None => mret (-1)
  | Some pt =>
      pl ← copy_from_user_str linkpath MAX_PATH_LEN;
      match pl with
      | None => mret (-1)
      | Some pl =>
          '(ret, full_link) ← get_absolute_path pl newdirfd;
          return_if ret <? 0 with (-1);;
          mp ← mountpoint_find pt;
          return_if mp =? 0 with (-1);;
          m ← get_mp mp;
          symlink ← call_fs op_symlink (λ _ _, mret (-1)) (mp_fs m);
          ret ← symlink pt full_link;
          mret (if ret <? 0 then -1 else 0)
      end
  end.

(** ** Mounting *)

Definition sys_mount (special dir fstype flags data : Z) : M (vfs F) Z :=
  mp ← kcalloc_mp;
  massert (data =? 0);;
  ps ← copy_from_user_str special MAX_PATH_LEN;
  match ps with
  | None => mret (-1)
  | Some ps =>
      pd ← copy_from_user_str dir MAX_PATH_LEN;
      match pd with
      | None => mret (-1)
      | Some pd =>
          pf ← copy_from_user_str fstype MAX_PATH_LEN;
          match pf with
          | None => mret (-1)
          | Some pf =>
              '(ret, full_sp) ← get_absolute_path ps AT_FDCWD;
              return_if ret <? 0 with (-1);;
              return_if negb (str_match_prefix full_sp [SLASH; 100; 101; 118; SLASH] =? 5)
                with (-1);;
              device ← devfs_get_by_path full_sp;
              bad ← (if device =? 0 then mret true
                     else ft ← device_type device; mret (negb (ft =? FT_BLKDEV_DEV)));
              return_if (bad : bool) with (-1);;
              blkdev ← device_blkdev device;
              '(ret, full_dir) ← get_absolute_path pd AT_FDCWD;
              return_if ret <? 0 with (-1);;
              old ← mountpoint_find full_dir;
              return_if negb (old =? 0) with (-1);;
              get_mp mp;;
              modify (λ s, set_mounts (mp_list s)
                (<[mp := Mountpoint full_dir (filesys_find pf) blkdev device]> (mps s)) s);;
              mountpoint_add mp;;
              m ← get_mp mp;
              mount ← call_fs op_mount (λ _ _ _, mret (-1)) (mp_fs m);
              mount blkdev mp data
          end
      end
  end.

Definition sys_umount2 (special flags : Z) : M (vfs F) Z :=
  p ← copy_from_user_str special MAX_PATH_LEN;
  match p with
  | None => mret (-1)
  | Some p =>
      '(ret, full_sp) ← get_absolute_path p AT_FDCWD;
      return_if ret <? 0 with (-1);;
      mp ← mountpoint_find full_sp;
      return_if mp =? 0 with (-1);;
      m ← get_mp mp;
      massert (ctrue (mp_fs m));;
      umount ← call_fs op_umount (λ _, mret (-1)) (mp_fs m);
      ret ← umount mp;
      return_if ret <? 0 with (-1);;
      mountpoint_remove (mp_path m);;
      mret 0
  end.

(** ** [pipe2] *)

(** The last error path reads [pipefd[0]] through the user pointer. *)
Definition sys_pipe2 (pipefd flags : Z) : M (vfs F) Z :=
  t ← gets myfdt;
  rfile ← kcalloc_file;
  wfile ← kcalloc_file;
  ret ← pipe_init rfile wfile;
  if ret <? 0 then kfree wfile;; kfree rfile;; mret ret
  else
    fd0 ← fd_alloc t rfile;
    if fd0 <? 0 then
      xw ← get_file wfile; pipe_free (f_private xw);;
      xr ← get_file rfile; pipe_free (f_private xr);;
      kfree wfile;; kfree rfile;; mret (-1)
    else
      fd1 ← fd_alloc t wfile;
      if fd1 <? 0 then mfault
      else
        copy_to_user pipefd (fd_bytes fd0 ++ fd_bytes fd1);;
        mret 0.

(** ** [getdents64] *)

(** [n] little-endian bytes. *)
Fixpoint le_bytes (n : nat) (z : Z) : list Z :=
  match n with O => [] | S n => z mod 256 :: le_bytes n (z / 256) end.

Definition SIZEOF_DIRENT : Z := 24.

(** A [struct dirent] written at [off] of the kernel buffer: [d_ino], [d_off],
    [d_reclen], [d_type], then the name; the bytes up to [d_reclen] stay as they are. *)
Definition put_dirent (kbuf off ino reclen type : Z) (name : str) : M (vfs F) unit :=
  b ← get_bufd kbuf;
  b ← mlift (zsplice b off (le_bytes 8 ino ++ le_bytes 8 0 ++ le_bytes 2 reclen ++
                            [type] ++ name));
  modify (λ s, set_bufs (<[kbuf := b]> (bufs s)) s).

(** [while (s[i] == '/') i++] *)
Fixpoint past_slashes (fuel : nat) (s : str) (i : Z) : Z :=
  match fuel with
  | O => i
  | S fuel => if chr s i =? SLASH then past_slashes fuel s (i + 1) else i
  end.

(** The name under which a mount point shows up in a directory, if it does. *)
Definition mount_name (mpath dir : str) : option str :=
  let posl := past_slashes (length mpath) mpath (str_match_prefix mpath dir) in
  let name := drop (Z.to_nat posl) mpath in
  let posr := past_slashes (length mpath) mpath (dirent_name_len name + posl) in
  if chr mpath posr =? 0 then Some name else None.

(** One step of [mp_list_for_each_entry_locked]. *)
Definition next_mp : M (vfs F) unit := acquire mplst_lock;; release mplst_lock.

(** The loop over the mount points after the file system's own entries. *)
Fixpoint mount_dents (l : list Z) (file kbuf ret len : Z) : M (vfs F) Z :=
  match l with
  | [] => mret ret
  | mp :: l =>
      x ← get_file file;
      i ← get_inode (f_inode x);
      if mp =? i_mp i then next_mp;; mount_dents l file kbuf ret len
      else
        m ← get_mp mp;
        match mount_name (mp_path m) (f_path x) with
        | None => next_mp;; mount_dents l file kbuf ret len
        | Some name =>
            getattr ← call_fs op_getattr (λ _, mret (-1, Stat 0 0 0 0 0 0)) (mp_fs m);
            '(r, st) ← getattr (mp_path m);
            if r <? 0 then next_mp;; mount_dents l file kbuf ret len
            else
              let size := SIZEOF_DIRENT + zlen name + 1 in
              if len <? size then mret ret
              else
                type ← mlift (fs_umode_to_dtype (st_mode st));
                put_dirent kbuf ret (st_ino st) (u16 size) type name;;
                next_mp;;
                mount_dents l file kbuf (ret + size) (u64 (len - size))
        end
  end.

Definition sys_getdents64 (fd buf len : Z) : M (vfs F) Z :=
  t ← gets myfdt;
  return_if (fd <? 0) || (NR_OPEN <=? fd) with (-1);;
  file ← fd_get t fd;
  bad ← (if file =? 0 then mret true
         else x ← get_file file; mret (negb (ctrue (Z.land (f_flags x) O_DIRECTORY))));
  return_if (bad : bool) with (-1);;
  kernel_buf ← kcalloc_buf len;
  return_if kernel_buf =? 0 with (-1);;
  getdents ← call_fop op_getdents64 (λ _ _ _, mret (-1)) file;
  ret ← getdents file kernel_buf len;
  return_if ret <? 0 with (-1);;
  next_mp;;
  l ← gets mp_list;
  ret ← mount_dents l file kernel_buf ret (u64 (len - ret));
  data ← get_bufd kernel_buf;
  data ← mlift (zslice data 0 ret);
  r ← copy_to_user buf data;
  kfree kernel_buf;;
  mret (if r <? 0 then -1 else ret).

(** ** Access modes *)

Lemma fd_get_ok (s : vfs F) t x i p :
  lock_free t s → tables s !! t = Some x → znth (fd x) i = Some p →
  fd_get t i s = Ret (p, set_venv (touched (venv s)) s).
Proof.
  intros Ht Hx Hp. unfold fd_get.
  assert (get_fd t i (set_venv (entered t (venv s)) s) =
    Ret (p, set_venv (entered t (venv s)) s)) as E by (by apply (get_fd_ok _ t x)).
  exact (locked_op t (get_fd t i) s p _ Ht E eq_refl).
Qed.

(** The state is as before but for an allocated kernel buffer (and the recorded
    interrupt state). *)
Definition only_leaks (a : Z) (s s' : vfs F) : Prop :=
  files s' = files s ∧ inodes s' = inodes s ∧ tables s' = tables s ∧ fsd s' = fsd s ∧
  mp_list s' = mp_list s ∧ mps s' = mps s ∧ dom (bufs s') = {[a]} ∪ dom (bufs s).

(** [read] on a descriptor opened write-only and [write] on one opened read-only
    return -1 without calling the file system and without any effect on files, mounts,
    file-system state or user memory; the kernel buffer allocated for the transfer is
    left allocated. *)
Theorem rw_access_checked (s : vfs F) fd_ buf count x f y a l :
  lock_free (myfdt s) s → tables s !! myfdt s = Some x → 0 ≤ fd_ < NR_OPEN →
  znth (fd x) fd_ = Some f → f ≠ 0 → files s !! f = Some y →
  avail s = a :: l → a ≠ 0 → count ≠ 0 →
  (Z.land (f_flags y) O_ACCMODE = O_WRONLY →
    ∃ s', sys_read fd_ buf count s = Ret (-1, s') ∧ only_leaks a s s') ∧
  (Z.land (f_flags y) O_ACCMODE = O_RDONLY →
    ∃ s', sys_write fd_ buf count s = Ret (-1, s') ∧ only_leaks a s s').
Proof.
  intros Hl Hx Hfd Hf Hf0 Hy Ha Ha0 Hc.
  set (s1 := set_bufs (<[a := replicate (Z.to_nat count) 0]> (bufs s)) (set_avail l s)).
  assert (kcalloc_buf count s = Ret (a, s1)) as Ek.
  { unfold kcalloc_buf, next_addr, ctrue. munfold. rewrite Ha.
    by rewrite (proj2 (Z.eqb_neq a 0)) by done. }
  pose proof (fd_get_ok s1 (myfdt s) x fd_ f) as Eg.
  assert (((fd_ <? 0) || (NR_OPEN <=? fd_)) = false) as Er.
  { apply orb_false_iff. split; [apply Z.ltb_ge|apply Z.leb_gt]; lia. }
  assert (only_leaks a s (set_venv (touched (venv s1)) s1)) as Hol.
  { unfold only_leaks. cbn. rewrite dom_insert_L. done. }
  split; intros Hm; eexists; (split; [|exact Hol]).
  - unfold sys_read. erewrite mbind_Ret by reflexivity. cbv beta.
    rewrite (proj2 (Z.eqb_neq count 0)) by done. mstep Ek.
    rewrite (proj2 (Z.eqb_neq a 0)), Er by done.
    erewrite mbind_Ret by (by apply Eg). cbv beta. rewrite (proj2 (Z.eqb_neq f 0)) by done.
    erewrite mbind_Ret by (unfold get_file, mtry; cbn; by rewrite Hy). cbv beta. by rewrite Hm.
  - unfold sys_write. erewrite mbind_Ret by reflexivity. cbv beta.
    rewrite (proj2 (Z.eqb_neq count 0)) by done. mstep Ek.
    rewrite (proj2 (Z.eqb_neq a 0)), Er by done.
    erewrite mbind_Ret by (by apply Eg). cbv beta. rewrite (proj2 (Z.eqb_neq f 0)) by done.
    erewrite mbind_Ret by (unfold get_file, mtry; cbn; by rewrite Hy). cbv beta. by rewrite Hm.
Qed.

(** [get_absolute_path] leaves an absolute path as it is: "." and ".." stay in it. *)
Lemma get_absolute_path_absolute (s : vfs F) p dirfd :
  zlen p < MAX_PATH_LEN → chr p 0 = SLASH → get_absolute_path p dirfd s = Ret ((0, p), s).
Proof.
  intros Hp Hc. unfold get_absolute_path, path_buf. rewrite Hc, Z.eqb_refl.
  by rewrite (proj2 (Z.ltb_lt _ _)).
Qed.
End calls.

(** ** Concrete runs *)

Section demo.
(** User memory is reached through fixed arguments; one file system with id 1. *)
Definition demo_sys (e : VfsEnv unit) : SysEnv unit := {|
  copy_from_user_str := λ p _, mret (if p =? 7 then Some [SLASH; 97] else None);
  copy_to_user_str := λ _ _ n, mret n;
  copy_to_user := λ _ d, mret (zlen d);
  copy_from_user := λ _ _ n, mret n;
  stat_bytes := λ _, [];
  fd_bytes := λ z, le_bytes 4 z;
  filesys := [([100], 2); ([101], 1)];
  devfs_get_by_path := λ _, mret 0;
  device_type := λ _, mret 0;
  device_blkdev := λ _, mret 0;
  pipe_init := λ _ _, mret (-1);
  pipe_free := λ _, mret tt |}.

Lemma rw_access_checked_witness :
  ∃ s', @sys_write unit demo_env (demo_sys demo_env) 0 0 5 demo_vfs = Ret (-1, s') ∧
    only_leaks 300 demo_vfs s'.
Proof.
  apply (@rw_access_checked unit demo_env (demo_sys demo_env) demo_vfs 0 0 5
    (FilesStruct ([100; 101; 102] ++ replicate 1021 0) 3 1021) 100 (File 0 500 0 [] 0 0 1)
    300 [301; 302; 303]); try done.
  - apply demo_lock_free. set_solver.
Defined.

(** A file system whose [getattr] fails after [ifget] and [openat] succeeded. *)
Definition bad_fs : fs_operations (vfs unit) :=
  FsOps (vfs unit) None None
    (Some (λ mp inode file,
       x ← get_file file;
       put_file file (File (f_flags x) 500 inode (f_path x) (fpos x) 0 (f_ref x));; mret 0))
    None None None None None (Some (λ _, mret (-5, Stat 0 0 0 0 0 0))).
Definition bad_fops : file_operations (vfs unit) :=
  FileOps (vfs unit) None None None (Some (λ _ _ _ _, mret 0)) (Some (λ _, mret 0)) None None.
Definition bad_env : VfsEnv unit := {|
  fops := λ p, if p =? 500 then Some bad_fops else None;
  fsops := λ p, if p =? 1 then Some bad_fs else None;
  f_stdin := 100; f_stdout := 101; f_stderr := 102;
  mplst_lock := 2 |}.

(** When [getattr] fails at the end of [openat], closing the new descriptor frees the
    inode and the file, and the error path frees them again. *)
Example sys_openat_double_free :
  @sys_openat unit bad_env (demo_sys bad_env) AT_FDCWD 7 O_RDONLY 0 demo_vfs = Fault.
Proof. by vm_compute. Qed.

(** [truncate64] of a path that cannot be made absolute uses [ERR_PTR(-EINVAL)] as a
    file. *)
Example kernel_open_err_ptr :
  ∃ s', @kernel_open unit bad_env (replicate 1024 97) demo_vfs = Ret (ERR_EINVAL, s').
Proof. eexists. vm_compute. reflexivity. Qed.
End demo.
