(* ===== verification/Inet.v ===== *)
(** * Internet checksums, byte order and address parsing

    Models [kernel/net/netutils.c] (the checksum) and [kernel/net/inet.c]. A string is
    the list of its characters before the NUL; a buffer of 16-bit words is the list of
    the words the CPU reads from it. *)

From S2P Require Export Path.

(** ** Checksums *)

Definition csum_init : Z := 0.

Definition csum_add (csum : Z) (data : list Z) : Z :=
  fold_left (λ c w, u32 (c + w)) data csum.

Definition csum_add_value (csum data : Z) : Z := csum_add csum [data].

Fixpoint finalize_loop (fuel : nat) (csum : Z) : option Z :=
  if ctrue (Z.land csum 0xFFFF0000) then
    match fuel with
    | O => None
    | S fuel =>
        let add := Z.shiftr (Z.land csum 0xFFFF0000) 16 in
        finalize_loop fuel (u32 (Z.land csum 0xFFFF + add))
    end
  else Some csum.

(** Two rounds settle any 32-bit sum. *)
Definition csum_finalize (csum : Z) : option Z :=
  (λ c, u16 (Z.lnot (u16 c))) <$> finalize_loop 2 csum.

(** ** Byte order *)

Definition ntohl (orig : Z) : Z :=
  Z.lor (Z.lor (Z.lor (u32 (Z.shiftl (Z.land orig 0xFF) 24))
                      (u32 (Z.shiftl (Z.land orig 0xFF00) 8)))
               (Z.shiftr (Z.land orig 0xFF0000) 8))
        (Z.shiftr (Z.land orig 0xFF000000) 24).

Definition ntohs (orig : Z) : Z :=
  u16 (Z.lor (Z.shiftl (Z.land orig 0xFF) 8) (Z.shiftr (Z.land orig 0xFF00) 8)).

Definition htonl (orig : Z) : Z := ntohl orig.

(** The result type is [uint32]. *)
Definition htons (orig : Z) : Z := ntohs orig.

(** ** Addresses *)

Definition DOT : Z := 46.
Definition is_digit (c : Z) : bool := (48 <=? c) && (c <=? 57).

(** The loop of [inet_aton] and the tests after it; [None] is the result 0. *)
Fixpoint aton_loop (cp : list Z) (group component myaddr : Z) (seen_in_group : bool) :
  option Z :=
  match cp with
  | [] =>
      if 255 <? component then None
      else if negb (group =? 3) then None
      else if negb seen_in_group then None
      else Some (Z.lor myaddr (u32 (Z.shiftl component (8 * group))))
  | c :: cp =>
      if is_digit c then aton_loop cp group (u32 (component * 10 + (c - 48))) myaddr true
      else if c =? DOT then
        if 255 <? component then None
        else if 3 <=? group then None
        else if negb seen_in_group then None
        else aton_loop cp (group + 1) 0
               (Z.lor myaddr (u32 (Z.shiftl component (8 * group)))) false
      else None
  end.

Definition inet_aton (cp : list Z) : option Z := aton_loop cp 0 0 0 false.

(** ** What they should compute *)

(** The little-endian bytes of a word. *)
Fixpoint le_bytes (n : nat) (z : Z) : list Z :=
  match n with O => [] | S n => z mod 256 :: le_bytes n (z / 256) end.

(** The one's complement sum of a total, in [0, 0xFFFF]. *)
Definition ones_fold (s : Z) : Z := if s =? 0 then 0 else (s - 1) mod 65535 + 1.

Definition word16 (w : Z) : Prop := 0 ≤ w < 2 ^ 16.

Fixpoint total (ws : list Z) : Z :=
  match ws with [] => 0 | w :: ws => w + total ws end.

(** The dot-separated parts of a string. *)
Fixpoint split_dots (s : list Z) : list (list Z) :=
  match s with
  | [] => [[]]
  | c :: s =>
      if c =? DOT then [] :: split_dots s
      else match split_dots s with p :: ps => (c :: p) :: ps | [] => [] end
  end.

(** The value of a part, in 32-bit arithmetic. *)
Definition part_value (p : list Z) : Z :=
  fold_left (λ v c, u32 (v * 10 + (c - 48))) p 0.

Definition good_part (p : list Z) : bool :=
  negb (bool_decide (p = [])) && forallb is_digit p && (part_value p <=? 255).

(** Octets, the first in the low byte. *)
Fixpoint octets (l : list Z) : Z :=
  match l with [] => 0 | v :: l => v + 256 * octets l end.

Definition aton_result (parts : list (list Z)) : option Z :=
  if (length parts =? 4)%nat && forallb good_part parts
  then Some (octets (part_value <$> parts)) else None.

(** ** Bits and bytes *)

Lemma ntohl_bytes x :
  ntohl x = (x mod 256) * 2 ^ 24 + ((x / 2 ^ 8) mod 256) * 2 ^ 16
            + ((x / 2 ^ 16) mod 256) * 2 ^ 8 + (x / 2 ^ 24) mod 256.
Proof.
  unfold ntohl.
  change 0xFF000000 with (Z.ones 8 * 2 ^ 24). change 0xFF0000 with (Z.ones 8 * 2 ^ 16).
  change 0xFF00 with (Z.ones 8 * 2 ^ 8). change 0xFF with (Z.ones 8 * 2 ^ 0) at 1.
  rewrite !land_field by lia.
  rewrite !Z.shiftl_mul_pow2, !Z.shiftr_div_pow2 by lia.
  change (x / 2 ^ 0) with (x / 1). rewrite Z.div_1_r. change (2 ^ 8) with 256 in *.
  pose proof (Z.mod_pos_bound x 256). pose proof (Z.mod_pos_bound (x / 256) 256).
  pose proof (Z.mod_pos_bound (x / 2 ^ 16) 256). pose proof (Z.mod_pos_bound (x / 2 ^ 24) 256).
  rewrite !u32_small by lia.
  set (a := x mod 256) in *. set (b := (x / 256) mod 256) in *.
  set (c := (x / 2 ^ 16) mod 256) in *. set (d := (x / 2 ^ 24) mod 256) in *.
  replace (c * 2 ^ 16 / 256) with (c * 256)
    by (change (2 ^ 16) with (256 * 256); rewrite Z.mul_assoc, Z.div_mul; lia).
  rewrite Z.div_mul by lia.
  replace (a * 2 ^ 0 * 2 ^ 24) with (a * 2 ^ 24) by lia.
  replace (b * 256 * 256) with (b * 2 ^ 16) by lia.
  rewrite (Z.lor_comm (a * 2 ^ 24)), (lor_high (b * 2 ^ 16) a 24) by lia.
  rewrite (Z.lor_comm _ (c * 256)).
  replace (b * 2 ^ 16 + a * 2 ^ 24) with ((b + a * 256) * 2 ^ 16) by lia.
  rewrite (lor_high (c * 256) _ 16) by lia.
  rewrite Z.lor_comm.
  replace (c * 256 + (b + a * 256) * 2 ^ 16) with ((c + (b + a * 256) * 256) * 2 ^ 8) by lia.
  rewrite lor_high by lia. lia.
Qed.

Lemma ntohs_bytes x : ntohs x = (x mod 256) * 256 + (x / 256) mod 256.
Proof.
  unfold ntohs. change 0xFF00 with (Z.ones 8 * 2 ^ 8).
  change 0xFF with (Z.ones 8 * 2 ^ 0). rewrite !land_field by lia.
  rewrite !Z.shiftl_mul_pow2, !Z.shiftr_div_pow2, Z.div_mul by lia.
  change (x / 2 ^ 0) with (x / 1). rewrite Z.div_1_r. change (2 ^ 8) with 256.
  pose proof (Z.mod_pos_bound x 256). pose proof (Z.mod_pos_bound (x / 256) 256).
  rewrite Z.lor_comm. replace (x mod 256 * 2 ^ 0 * 256) with (x mod 256 * 2 ^ 8) by lia.
  rewrite lor_high by lia. rewrite u16_small; lia.
Qed.

Definition is_byte (b : Z) : Prop := 0 ≤ b < 256.

Lemma le_bytes_octets l : Forall is_byte l → le_bytes (length l) (octets l) = l.
Proof.
  unfold is_byte. induction 1 as [|v l Hv _ IH]; [done|]. cbn [length le_bytes octets].
  rewrite (Z.mul_comm 256), Z.mod_add, Z.mod_small, Z.div_add, Z.div_small by lia. by rewrite Z.add_0_l, IH.
Qed.

Lemma octets_le_bytes n x : 0 ≤ x < 256 ^ Z.of_nat n → octets (le_bytes n x) = x.
Proof.
  revert x. induction n as [|n IH]; intros x Hx; cbn [le_bytes octets]; [lia|].
  rewrite Nat2Z.inj_succ, Z.pow_succ_r in Hx by lia.
  rewrite IH; [pose proof (Z.div_mod x 256); lia|].
  split; [apply Z.div_pos; lia|apply Z.div_lt_upper_bound; lia].
Qed.

Lemma le_bytes_are_bytes n x : Forall is_byte (le_bytes n x).
Proof.
  revert x. induction n as [|n IH]; intros x; cbn [le_bytes]; constructor; [|done].
  apply Z.mod_pos_bound. lia.
Qed.

Lemma length_le_bytes n x : length (le_bytes n x) = n.
Proof. revert x. induction n as [|n IH]; intros x; cbn; [done|by rewrite IH]. Qed.

Lemma ntohl_reverse x : ntohl x = octets (reverse (le_bytes 4 x)).
Proof.
  rewrite ntohl_bytes. unfold reverse. cbn [le_bytes rev_append octets].
  change (2 ^ 24) with (256 * 256 * 256). change (2 ^ 16) with (256 * 256).
  rewrite <- !Z.div_div by lia. change (2 ^ 8) with 256. lia.
Qed.

Lemma ntohs_reverse x : ntohs x = octets (reverse (le_bytes 2 x)).
Proof. rewrite ntohs_bytes. unfold reverse. cbn [le_bytes rev_append octets]. lia. Qed.

(** Reversing the bytes of a word twice. *)
Lemma reverse_bytes_twice n x :
  0 ≤ x < 256 ^ Z.of_nat n →
  le_bytes n (octets (reverse (le_bytes n x))) = reverse (le_bytes n x) ∧
  octets (reverse (le_bytes n (octets (reverse (le_bytes n x))))) = x.
Proof.
  intros Hx.
  assert (E : le_bytes n (octets (reverse (le_bytes n x))) = reverse (le_bytes n x)).
  { rewrite <- (length_le_bytes n x) at 1. rewrite <- length_reverse.
    apply le_bytes_octets, Forall_reverse, le_bytes_are_bytes. }
  split; [done|]. rewrite E, reverse_involutive. by apply octets_le_bytes.
Qed.

(** The byte-order conversions reverse the bytes of a word in memory, so that
    converting twice gives the word back. *)
Theorem ntoh_reverses_bytes x y :
  0 ≤ x < 2 ^ 32 → 0 ≤ y < 2 ^ 16 →
  le_bytes 4 (ntohl x) = reverse (le_bytes 4 x) ∧ htonl (ntohl x) = x ∧
  le_bytes 2 (ntohs y) = reverse (le_bytes 2 y) ∧ htons (ntohs y) = y.
Proof.
  intros Hx Hy. unfold htonl, htons. rewrite !ntohl_reverse, !ntohs_reverse.
  destruct (reverse_bytes_twice 4 x Hx), (reverse_bytes_twice 2 y Hy). done.
Qed.

Lemma ntoh_reverses_bytes_witness :
  le_bytes 4 (ntohl 0x0A000203) = reverse (le_bytes 4 0x0A000203).
Proof. destruct (ntoh_reverses_bytes 0x0A000203 80) as [H _]; [lia..|exact H]. Defined.

(** ** Checksum lemmas *)

Lemma total_app l1 l2 : total (l1 ++ l2) = total l1 + total l2.
Proof. induction l1 as [|w l IH]; cbn [total app]; lia. Qed.

Lemma total_bound ws : Forall word16 ws → 0 ≤ total ws ≤ 65535 * zlen ws.
Proof.
  unfold word16. induction 1 as [|w ws Hw _ IH]; [done|].
  rewrite zlen_cons. cbn [total]. lia.
Qed.

Lemma csum_add_total c ws :
  0 ≤ c → Forall word16 ws → c + total ws < 2 ^ 32 → csum_add c ws = c + total ws.
Proof.
  intros Hc Hws. revert c Hc. induction Hws as [|w ws Hw Hws IH]; intros c Hc Hb.
  - cbn. lia.
  - unfold word16 in Hw. unfold csum_add in *. cbn [total fold_left] in *. pose proof (total_bound ws Hws). pose proof (zlen_nonneg ws).
    rewrite u32_small by lia. rewrite IH; lia.
Qed.

Lemma csum_add_app c l1 l2 : csum_add c (l1 ++ l2) = csum_add (csum_add c l1) l2.
Proof. apply fold_left_app. Qed.

Lemma finalize_step fuel c :
  0 ≤ c < 2 ^ 32 →
  finalize_loop fuel c =
    if c <? 65536 then Some c
    else match fuel with O => None | S fuel => finalize_loop fuel (c / 65536 + c mod 65536) end.
Proof.
  intros Hc. assert (Hl : Z.land c 0xFFFF0000 = (c / 2 ^ 16) mod 2 ^ 16 * 2 ^ 16)
    by (change 0xFFFF0000 with (Z.ones 16 * 2 ^ 16); apply land_field; lia).
  rewrite (Z.mod_small (c / 2 ^ 16)) in Hl by (Z.div_mod_to_equations; lia).
  assert (Hf : Z.land c 0xFFFF = c mod 65536)
    by (change 0xFFFF with (Z.ones 16); by rewrite Z.land_ones).
  change (2 ^ 16) with 65536 in Hl. pose proof (Z.mod_pos_bound c 65536).
  unfold finalize_loop at 1. destruct fuel; fold finalize_loop; rewrite Hl, ?Hf; unfold ctrue;
    destruct (Z.ltb_spec c 65536) as [Hlt|Hge].
  1, 3: rewrite Z.div_small by lia; done.
  all: assert (1 ≤ c / 65536 < 65536) by (Z.div_mod_to_equations; lia).
  all: rewrite (proj2 (Z.eqb_neq _ 0)) by lia; cbn [negb].
  { done. }
  rewrite Z.shiftr_div_pow2, Z.div_mul by lia. rewrite u32_small by lia.
  f_equal. lia.
Qed.

(** One round keeps the one's complement sum. *)
Lemma ones_fold_round c :
  0 ≤ c < 2 ^ 32 → 65536 ≤ c → ones_fold (c / 65536 + c mod 65536) = ones_fold c.
Proof.
  intros Hc Hge. unfold ones_fold. pose proof (Z.mod_pos_bound c 65536).
  assert (1 ≤ c / 65536) by (Z.div_mod_to_equations; lia).
  rewrite !(proj2 (Z.eqb_neq _ 0)) by lia. f_equal.
  rewrite <- (Z.mod_add (c / 65536 + c mod 65536 - 1) (c / 65536)) by lia. f_equal.
  pose proof (Z.div_mod c 65536). lia.
Qed.

Lemma ones_fold_small c : 0 ≤ c < 65536 → ones_fold c = c.
Proof.
  intros. unfold ones_fold. destruct (Z.eqb_spec c 0); [lia|]. rewrite Z.mod_small; lia.
Qed.

Lemma ones_fold_range c : 0 ≤ c → 0 ≤ ones_fold c < 65536.
Proof.
  intros. unfold ones_fold. pose proof (Z.mod_pos_bound (c - 1) 65535).
  destruct (c =? 0); lia.
Qed.

Lemma finalize_loop_fold c : 0 ≤ c < 2 ^ 32 → finalize_loop 2 c = Some (ones_fold c).
Proof.
  intros Hc. rewrite finalize_step by done. destruct (Z.ltb_spec c 65536).
  { by rewrite ones_fold_small by lia. }
  rewrite <- ones_fold_round by lia. pose proof (Z.mod_pos_bound c 65536).
  set (d := c / 65536 + c mod 65536).
  assert (Hd : 0 ≤ d ≤ 131070) by (subst d; Z.div_mod_to_equations; lia).
  rewrite finalize_step by lia. destruct (Z.ltb_spec d 65536).
  { by rewrite ones_fold_small by lia. }
  rewrite <- (ones_fold_round d) by lia.
  set (e := d / 65536 + d mod 65536).
  assert (He : 0 ≤ e < 65536) by (subst e; Z.div_mod_to_equations; lia).
  rewrite finalize_step by lia. rewrite (proj2 (Z.ltb_lt e 65536)) by lia.
  by rewrite ones_fold_small by lia.
Qed.

Lemma csum_finalize_fold c : 0 ≤ c < 2 ^ 32 → csum_finalize c = Some (65535 - ones_fold c).
Proof.
  intros Hc. unfold csum_finalize. rewrite finalize_loop_fold by done. cbn. f_equal.
  pose proof (ones_fold_range c). rewrite (u16_small (ones_fold c)) by lia.
  unfold u16, Z.lnot. rewrite <- (Z.mod_add _ 1) by lia. rewrite Z.mod_small; lia.
Qed.

(** The checksum of a buffer of words. *)
Lemma csum_finalize_words ws :
  Forall word16 ws → zlen ws ≤ 65537 →
  csum_finalize (csum_add csum_init ws) = Some (65535 - ones_fold (total ws)).
Proof.
  intros Hws Hn. pose proof (total_bound ws Hws).
  rewrite csum_add_total; unfold csum_init; [|lia|done|lia].
  rewrite Z.add_0_l. apply csum_finalize_fold. lia.
Qed.

Lemma ones_fold_full s : 0 ≤ s → ones_fold s = 65535 ↔ 0 < s ∧ s mod 65535 = 0.
Proof.
  intros Hs. unfold ones_fold. destruct (Z.eqb_spec s 0); [lia|].
  Z.div_mod_to_equations. lia.
Qed.

(** Putting the checksum of the rest into a zero word makes the one's complement sum
    full. *)
Lemma ones_fold_complement s : 0 ≤ s → ones_fold (s + (65535 - ones_fold s)) = 65535.
Proof.
  intros Hs. pose proof (ones_fold_range s Hs). apply ones_fold_full; [lia|].
  unfold ones_fold in *. destruct (Z.eqb_spec s 0) as [->|].
  - split; [lia|done].
  - Z.div_mod_to_equations. lia.
Qed.

(** Storing a checksum into its zero word. *)
Lemma csum_store ws1 ws2 :
  Forall word16 ws1 → Forall word16 ws2 → zlen ws1 + zlen ws2 < 65536 →
  ∃ c, csum_finalize (csum_add csum_init (ws1 ++ 0 :: ws2)) = Some c ∧ word16 c ∧
    csum_finalize (csum_add csum_init (ws1 ++ c :: ws2)) = Some 0.
Proof.
  intros H1 H2 Hn. pose proof (total_bound ws1 H1). pose proof (total_bound ws2 H2).
  set (s := total ws1 + total ws2). assert (Hs : 0 ≤ s) by lia.
  pose proof (ones_fold_range s Hs) as Hr.
  assert (Hsum : ∀ w, word16 w → csum_finalize (csum_add csum_init (ws1 ++ w :: ws2)) =
    Some (65535 - ones_fold (s + w))).
  { intros w Hw. rewrite csum_finalize_words.
    - rewrite total_app. cbn [total]. subst s. do 3 f_equal. lia.
    - apply Forall_app. auto.
    - rewrite zlen_app, zlen_cons. lia. }
  exists (65535 - ones_fold s).
  assert (Hc : word16 (65535 - ones_fold s)) by (unfold word16; lia).
  split_and!; [rewrite Hsum, Z.add_0_r by done; done|done|].
  by rewrite Hsum, ones_fold_complement by done.
Qed.

(** A checksum computed over words with a zero in its place always exists, and
    once stored there the whole verifies (sums to the checksum 0); replacing one word
    of a verifying buffer by another is noticed, unless they are the two zeros of
    one's complement arithmetic. *)
Theorem csum_verifies ws1 ws2 :
  Forall word16 ws1 → Forall word16 ws2 → zlen ws1 + zlen ws2 < 65536 →
  ∃ c, csum_finalize (csum_add csum_init (ws1 ++ 0 :: ws2)) = Some c ∧ word16 c ∧
    csum_finalize (csum_add csum_init (ws1 ++ c :: ws2)) = Some 0 ∧
    ∀ w w', word16 w → word16 w' →
      csum_finalize (csum_add csum_init (ws1 ++ w :: ws2)) = Some 0 →
      csum_finalize (csum_add csum_init (ws1 ++ w' :: ws2)) = Some 0 →
      w = w' ∨ (w = 0 ∧ w' = 65535) ∨ (w = 65535 ∧ w' = 0).
Proof.
  intros H1 H2 Hn.
  assert (Hsum : ∀ w, word16 w → csum_finalize (csum_add csum_init (ws1 ++ w :: ws2)) =
    Some (65535 - ones_fold (total ws1 + total ws2 + w))).
  { intros w Hw. rewrite csum_finalize_words.
    - rewrite total_app. cbn [total]. do 3 f_equal. lia.
    - apply Forall_app. auto.
    - rewrite zlen_app, zlen_cons. lia. }
  pose proof (total_bound ws1 H1). pose proof (total_bound ws2 H2).
  set (s := total ws1 + total ws2) in *. assert (Hs : 0 ≤ s) by lia.
  pose proof (ones_fold_range s Hs) as Hr.
  exists (65535 - ones_fold s).
  assert (Hc : word16 (65535 - ones_fold s)) by (unfold word16; lia).
  split_and!; [rewrite Hsum, Z.add_0_r by done; done|done| |].
  - rewrite Hsum, ones_fold_complement by done. done.
  - intros w w' Hw Hw'. rewrite !Hsum by done. intros E E'.
    assert (F : ones_fold (s + w) = 65535) by (injection E; lia).
    assert (F' : ones_fold (s + w') = 65535) by (injection E'; lia).
    unfold word16 in *. rewrite ones_fold_full in F, F' by lia.
    Z.div_mod_to_equations. lia.
Qed.

Lemma csum_verifies_witness :
  ∃ c, csum_finalize (csum_add csum_init ([0x4500; 0x1C] ++ 0 :: [0xFFFF])) = Some c ∧
    csum_finalize (csum_add csum_init ([0x4500; 0x1C] ++ c :: [0xFFFF])) = Some 0.
Proof.
  destruct (csum_verifies [0x4500; 0x1C] [0xFFFF]) as (c & H & _ & H' & _).
  - repeat constructor; unfold word16; lia.
  - repeat constructor; unfold word16; lia.
  - reflexivity.
  - exists c. split; assumption.
Defined.

(** ** Parsing an address *)

Lemma part_value_snoc p c : part_value (p ++ [c]) = u32 (part_value p * 10 + (c - 48)).
Proof. unfold part_value. by rewrite fold_left_app. Qed.

Lemma part_value_range p : 0 ≤ part_value p < 2 ^ 32.
Proof.
  destruct p as [|c p _] using rev_ind; [cbn; lia|].
  rewrite part_value_snoc. apply u32_range.
Qed.

Lemma octets_range l : Forall is_byte l → 0 ≤ octets l < 256 ^ zlen l.
Proof.
  unfold is_byte. induction 1 as [|v l Hv _ IH]; [done|].
  cbn [octets]. rewrite zlen_cons, Z.pow_add_r by (pose proof (zlen_nonneg l); lia). lia.
Qed.

Lemma octets_snoc l v : octets (l ++ [v]) = octets l + v * 256 ^ zlen l.
Proof.
  induction l as [|w l IH]; cbn [octets app];
    [change (zlen (@nil Z)) with 0; lia|].
  rewrite IH, zlen_cons, Z.pow_add_r by (pose proof (zlen_nonneg l); lia). lia.
Qed.

(** Adding the octet of a group. *)
Lemma octets_lor l v :
  Forall is_byte l → zlen l ≤ 3 → is_byte v →
  Z.lor (octets l) (u32 (Z.shiftl v (8 * zlen l))) = octets (l ++ [v]).
Proof.
  intros Hl Hn Hv. unfold is_byte in Hv. pose proof (zlen_nonneg l).
  pose proof (octets_range l Hl) as Hr. rewrite octets_snoc.
  assert (Hp : 256 ^ zlen l = 2 ^ (8 * zlen l)) by
    (change 256 with (2 ^ 8); rewrite <- Z.pow_mul_r by lia; done).
  rewrite Hp in *.
  assert (2 ^ (8 * zlen l) ≤ 2 ^ 24) by (apply Z.pow_le_mono_r; lia).
  assert (0 < 2 ^ (8 * zlen l)) by (apply Z.pow_pos_nonneg; lia).
  rewrite Z.shiftl_mul_pow2 by lia. rewrite u32_small by nia. apply lor_high; lia.
Qed.

Lemma good_part_byte p : good_part p = true → is_byte (part_value p).
Proof.
  unfold good_part, is_byte. pose proof (part_value_range p).
  intros E. apply andb_prop in E as [_ E]. apply Z.leb_le in E. lia.
Qed.

Lemma good_part_nondigit p c q : is_digit c = false → good_part (p ++ c :: q) = false.
Proof.
  intros E. unfold good_part. rewrite forallb_app. cbn [forallb]. rewrite E.
  by rewrite andb_false_l, andb_false_r, andb_false_r.
Qed.

Lemma split_dots_cons s : ∃ p ps, split_dots s = p :: ps.
Proof.
  induction s as [|c s (p & ps & E)]; cbn [split_dots]; [eauto|].
  rewrite E. case_match; eauto.
Qed.

Lemma aton_result_bad vs p ps : good_part p = false → aton_result (vs ++ p :: ps) = None.
Proof.
  intros E. unfold aton_result. rewrite forallb_app. cbn [forallb]. rewrite E.
  by rewrite andb_false_l, !andb_false_r.
Qed.

Lemma aton_result_long l : (4 < length l)%nat → aton_result l = None.
Proof.
  intros. unfold aton_result. by rewrite (proj2 (Nat.eqb_neq _ _)) by lia.
Qed.

(** What the tests on a finished part decide. *)
Lemma good_part_tests p :
  forallb is_digit p = true →
  good_part p = negb (255 <? part_value p) && negb (bool_decide (p = [])).
Proof.
  intros E. unfold good_part. rewrite E, andb_true_r, andb_comm. f_equal.
  by rewrite Z.leb_antisym.
Qed.

(** The loop, after the good parts [vs] and the digits [p] of the current part. *)
Lemma aton_loop_spec s : ∀ vs p q ps,
  split_dots s = q :: ps →
  forallb good_part vs = true → (length vs ≤ 3)%nat → forallb is_digit p = true →
  aton_loop s (zlen vs) (part_value p) (octets (part_value <$> vs))
    (negb (bool_decide (p = []))) = aton_result (vs ++ (p ++ q) :: ps).
Proof.
  assert (Hb : ∀ vs, forallb good_part vs = true → Forall is_byte (part_value <$> vs)).
  { intros vs Hvs. apply Forall_fmap, Forall_forall. intros x Hx.
    apply good_part_byte. rewrite forallb_forall in Hvs. apply Hvs.
    by apply list_elem_of_In. }
  assert (Hor : ∀ vs p, forallb good_part vs = true → (length vs ≤ 3)%nat →
    good_part p = true →
    Z.lor (octets (part_value <$> vs)) (u32 (Z.shiftl (part_value p) (8 * zlen vs))) =
      octets (part_value <$> (vs ++ [p]))).
  { intros vs p Hvs Hl Hp. rewrite fmap_app.
    replace (zlen vs) with (zlen (part_value <$> vs)) by (unfold zlen; by rewrite length_fmap).
    apply octets_lor; [by apply Hb|unfold zlen; rewrite length_fmap; lia|].
    by apply good_part_byte. }
  induction s as [|c s IH]; intros vs p q ps Hs Hvs Hl Hp; cbn [split_dots aton_loop] in *.
  - simplify_eq. rewrite app_nil_r. pose proof (good_part_tests p Hp) as Ht.
    destruct (255 <? part_value p); [by rewrite aton_result_bad|].
    destruct (Z.eqb_spec (zlen vs) 3) as [H3|H3]; cbn [negb].
    + destruct (bool_decide (p = [])); cbn [negb] in *; [by rewrite aton_result_bad|].
      rewrite Hor by done. unfold aton_result. rewrite length_app, forallb_app.
      unfold zlen in H3. cbn [length forallb]. rewrite Hvs, Ht.
      by replace (length vs + 1)%nat with 4%nat by lia.
    + unfold aton_result. unfold zlen in H3. rewrite length_app. cbn [length].
      by rewrite (proj2 (Nat.eqb_neq _ _)) by lia.
  - destruct (is_digit c) eqn:Ed.
    + assert (Hc : (c =? DOT) = false).
      { unfold is_digit, DOT in *. zbool. apply Z.eqb_neq. lia. }
      rewrite Hc in Hs. destruct (split_dots_cons s) as (q' & ps' & Es).
      rewrite Es in Hs. simplify_eq. rewrite <- part_value_snoc.
      replace true with (negb (bool_decide (p ++ [c] = []))) by
        (rewrite bool_decide_eq_false_2; [done|by destruct p]).
      rewrite (IH _ _ q' ps) by
        (rewrite ?forallb_app, ?Hp; cbn [forallb]; rewrite ?Ed; done).
      by rewrite <- app_assoc.
    + destruct (Z.eqb_spec c DOT) as [->|Hc].
      * simplify_eq. rewrite app_nil_r. pose proof (good_part_tests p Hp) as Ht.
        destruct (split_dots_cons s) as (q' & ps' & Es).
        destruct (255 <? part_value p); [by rewrite aton_result_bad|].
        destruct (Z.leb_spec 3 (zlen vs)) as [H3|H3].
        { unfold zlen in H3. rewrite aton_result_long; [done|].
          rewrite Es, length_app. cbn [length]. lia. }
        destruct (bool_decide (p = [])) eqn:En; cbn [negb] in *; [by rewrite aton_result_bad|].
        rewrite Hor by done.
        replace (zlen vs + 1) with (zlen (vs ++ [p])) by (rewrite zlen_app; done).
        change (aton_loop s (zlen (vs ++ [p])) (part_value [])
          (octets (part_value <$> (vs ++ [p]))) (negb (bool_decide (@nil Z = []))) =
          aton_result (vs ++ p :: split_dots s)).
        rewrite (IH _ _ q' ps').
        -- rewrite <- app_assoc, Es. done.
        -- done.
        -- rewrite forallb_app. cbn [forallb]. by rewrite Hvs, Ht.
        -- rewrite length_app. unfold zlen in H3. cbn [length]. lia.
        -- done.
      * destruct (split_dots_cons s) as (q' & ps' & Es). rewrite Es in Hs. simplify_eq.
        by rewrite aton_result_bad by (by apply good_part_nondigit).
Qed.

(** [inet_aton] accepts exactly four dot-separated non-empty decimal parts whose
    values, in 32-bit arithmetic, are at most 255, and gives their octets with the
    first part in the low byte; every other string is refused. *)
Theorem inet_aton_spec cp : inet_aton cp = aton_result (split_dots cp).
Proof.
  destruct (split_dots_cons cp) as (q & ps & E). rewrite E.
  exact (aton_loop_spec cp [] [] q ps E eq_refl (le_S _ _ (le_S _ _ (le_S _ _ (le_n 0)))) eq_refl).
Qed.

(** The 32-bit value lets a part of ten digits through. *)
Example inet_aton_wraps : inet_aton [52;50;57;52;57;54;55;50;57;55;46;48;46;48;46;49] = Some 0x01000001.
Proof. reflexivity. Qed.
