(* ===== verification/Crc32.v ===== *)
(** * Checksums of the ext4 metadata

    Models [fs/ext4/lwext4/ext4_crc32.c]: two tables of 256 words and the loop that folds the
    bytes of a buffer through one of them.  The reference is the division they are made for:
    one step per bit, by the reversed polynomial. *)

From S2P Require Export Inet.

(** ** The tables and the loop *)

Definition crc32_tab : list Z := [
  0x00000000; 0x77073096; 0xee0e612c; 0x990951ba; 0x076dc419; 0x706af48f; 0xe963a535;
  0x9e6495a3; 0x0edb8832; 0x79dcb8a4; 0xe0d5e91e; 0x97d2d988; 0x09b64c2b; 0x7eb17cbd;
  0xe7b82d07; 0x90bf1d91; 0x1db71064; 0x6ab020f2; 0xf3b97148; 0x84be41de; 0x1adad47d;
  0x6ddde4eb; 0xf4d4b551; 0x83d385c7; 0x136c9856; 0x646ba8c0; 0xfd62f97a; 0x8a65c9ec;
  0x14015c4f; 0x63066cd9; 0xfa0f3d63; 0x8d080df5; 0x3b6e20c8; 0x4c69105e; 0xd56041e4;
  0xa2677172; 0x3c03e4d1; 0x4b04d447; 0xd20d85fd; 0xa50ab56b; 0x35b5a8fa; 0x42b2986c;
  0xdbbbc9d6; 0xacbcf940; 0x32d86ce3; 0x45df5c75; 0xdcd60dcf; 0xabd13d59; 0x26d930ac;
  0x51de003a; 0xc8d75180; 0xbfd06116; 0x21b4f4b5; 0x56b3c423; 0xcfba9599; 0xb8bda50f;
  0x2802b89e; 0x5f058808; 0xc60cd9b2; 0xb10be924; 0x2f6f7c87; 0x58684c11; 0xc1611dab;
  0xb6662d3d; 0x76dc4190; 0x01db7106; 0x98d220bc; 0xefd5102a; 0x71b18589; 0x06b6b51f;
  0x9fbfe4a5; 0xe8b8d433; 0x7807c9a2; 0x0f00f934; 0x9609a88e; 0xe10e9818; 0x7f6a0dbb;
  0x086d3d2d; 0x91646c97; 0xe6635c01; 0x6b6b51f4; 0x1c6c6162; 0x856530d8; 0xf262004e;
  0x6c0695ed; 0x1b01a57b; 0x8208f4c1; 0xf50fc457; 0x65b0d9c6; 0x12b7e950; 0x8bbeb8ea;
  0xfcb9887c; 0x62dd1ddf; 0x15da2d49; 0x8cd37cf3; 0xfbd44c65; 0x4db26158; 0x3ab551ce;
  0xa3bc0074; 0xd4bb30e2; 0x4adfa541; 0x3dd895d7; 0xa4d1c46d; 0xd3d6f4fb; 0x4369e96a;
  0x346ed9fc; 0xad678846; 0xda60b8d0; 0x44042d73; 0x33031de5; 0xaa0a4c5f; 0xdd0d7cc9;
  0x5005713c; 0x270241aa; 0xbe0b1010; 0xc90c2086; 0x5768b525; 0x206f85b3; 0xb966d409;
  0xce61e49f; 0x5edef90e; 0x29d9c998; 0xb0d09822; 0xc7d7a8b4; 0x59b33d17; 0x2eb40d81;
  0xb7bd5c3b; 0xc0ba6cad; 0xedb88320; 0x9abfb3b6; 0x03b6e20c; 0x74b1d29a; 0xead54739;
  0x9dd277af; 0x04db2615; 0x73dc1683; 0xe3630b12; 0x94643b84; 0x0d6d6a3e; 0x7a6a5aa8;
  0xe40ecf0b; 0x9309ff9d; 0x0a00ae27; 0x7d079eb1; 0xf00f9344; 0x8708a3d2; 0x1e01f268;
  0x6906c2fe; 0xf762575d; 0x806567cb; 0x196c3671; 0x6e6b06e7; 0xfed41b76; 0x89d32be0;
  0x10da7a5a; 0x67dd4acc; 0xf9b9df6f; 0x8ebeeff9; 0x17b7be43; 0x60b08ed5; 0xd6d6a3e8;
  0xa1d1937e; 0x38d8c2c4; 0x4fdff252; 0xd1bb67f1; 0xa6bc5767; 0x3fb506dd; 0x48b2364b;
  0xd80d2bda; 0xaf0a1b4c; 0x36034af6; 0x41047a60; 0xdf60efc3; 0xa867df55; 0x316e8eef;
  0x4669be79; 0xcb61b38c; 0xbc66831a; 0x256fd2a0; 0x5268e236; 0xcc0c7795; 0xbb0b4703;
  0x220216b9; 0x5505262f; 0xc5ba3bbe; 0xb2bd0b28; 0x2bb45a92; 0x5cb36a04; 0xc2d7ffa7;
  0xb5d0cf31; 0x2cd99e8b; 0x5bdeae1d; 0x9b64c2b0; 0xec63f226; 0x756aa39c; 0x026d930a;
  0x9c0906a9; 0xeb0e363f; 0x72076785; 0x05005713; 0x95bf4a82; 0xe2b87a14; 0x7bb12bae;
  0x0cb61b38; 0x92d28e9b; 0xe5d5be0d; 0x7cdcefb7; 0x0bdbdf21; 0x86d3d2d4; 0xf1d4e242;
  0x68ddb3f8; 0x1fda836e; 0x81be16cd; 0xf6b9265b; 0x6fb077e1; 0x18b74777; 0x88085ae6;
  0xff0f6a70; 0x66063bca; 0x11010b5c; 0x8f659eff; 0xf862ae69; 0x616bffd3; 0x166ccf45;
  0xa00ae278; 0xd70dd2ee; 0x4e048354; 0x3903b3c2; 0xa7672661; 0xd06016f7; 0x4969474d;
  0x3e6e77db; 0xaed16a4a; 0xd9d65adc; 0x40df0b66; 0x37d83bf0; 0xa9bcae53; 0xdebb9ec5;
  0x47b2cf7f; 0x30b5ffe9; 0xbdbdf21c; 0xcabac28a; 0x53b39330; 0x24b4a3a6; 0xbad03605;
  0xcdd70693; 0x54de5729; 0x23d967bf; 0xb3667a2e; 0xc4614ab8; 0x5d681b02; 0x2a6f2b94;
  0xb40bbe37; 0xc30c8ea1; 0x5a05df1b; 0x2d02ef8d].

Definition crc32c_tab : list Z := [
  0x00000000; 0xf26b8303; 0xe13b70f7; 0x1350f3f4; 0xc79a971f; 0x35f1141c; 0x26a1e7e8;
  0xd4ca64eb; 0x8ad958cf; 0x78b2dbcc; 0x6be22838; 0x9989ab3b; 0x4d43cfd0; 0xbf284cd3;
  0xac78bf27; 0x5e133c24; 0x105ec76f; 0xe235446c; 0xf165b798; 0x030e349b; 0xd7c45070;
  0x25afd373; 0x36ff2087; 0xc494a384; 0x9a879fa0; 0x68ec1ca3; 0x7bbcef57; 0x89d76c54;
  0x5d1d08bf; 0xaf768bbc; 0xbc267848; 0x4e4dfb4b; 0x20bd8ede; 0xd2d60ddd; 0xc186fe29;
  0x33ed7d2a; 0xe72719c1; 0x154c9ac2; 0x061c6936; 0xf477ea35; 0xaa64d611; 0x580f5512;
  0x4b5fa6e6; 0xb93425e5; 0x6dfe410e; 0x9f95c20d; 0x8cc531f9; 0x7eaeb2fa; 0x30e349b1;
  0xc288cab2; 0xd1d83946; 0x23b3ba45; 0xf779deae; 0x05125dad; 0x1642ae59; 0xe4292d5a;
  0xba3a117e; 0x4851927d; 0x5b016189; 0xa96ae28a; 0x7da08661; 0x8fcb0562; 0x9c9bf696;
  0x6ef07595; 0x417b1dbc; 0xb3109ebf; 0xa0406d4b; 0x522bee48; 0x86e18aa3; 0x748a09a0;
  0x67dafa54; 0x95b17957; 0xcba24573; 0x39c9c670; 0x2a993584; 0xd8f2b687; 0x0c38d26c;
  0xfe53516f; 0xed03a29b; 0x1f682198; 0x5125dad3; 0xa34e59d0; 0xb01eaa24; 0x42752927;
  0x96bf4dcc; 0x64d4cecf; 0x77843d3b; 0x85efbe38; 0xdbfc821c; 0x2997011f; 0x3ac7f2eb;
  0xc8ac71e8; 0x1c661503; 0xee0d9600; 0xfd5d65f4; 0x0f36e6f7; 0x61c69362; 0x93ad1061;
  0x80fde395; 0x72966096; 0xa65c047d; 0x5437877e; 0x4767748a; 0xb50cf789; 0xeb1fcbad;
  0x197448ae; 0x0a24bb5a; 0xf84f3859; 0x2c855cb2; 0xdeeedfb1; 0xcdbe2c45; 0x3fd5af46;
  0x7198540d; 0x83f3d70e; 0x90a324fa; 0x62c8a7f9; 0xb602c312; 0x44694011; 0x5739b3e5;
  0xa55230e6; 0xfb410cc2; 0x092a8fc1; 0x1a7a7c35; 0xe811ff36; 0x3cdb9bdd; 0xceb018de;
  0xdde0eb2a; 0x2f8b6829; 0x82f63b78; 0x709db87b; 0x63cd4b8f; 0x91a6c88c; 0x456cac67;
  0xb7072f64; 0xa457dc90; 0x563c5f93; 0x082f63b7; 0xfa44e0b4; 0xe9141340; 0x1b7f9043;
  0xcfb5f4a8; 0x3dde77ab; 0x2e8e845f; 0xdce5075c; 0x92a8fc17; 0x60c37f14; 0x73938ce0;
  0x81f80fe3; 0x55326b08; 0xa759e80b; 0xb4091bff; 0x466298fc; 0x1871a4d8; 0xea1a27db;
  0xf94ad42f; 0x0b21572c; 0xdfeb33c7; 0x2d80b0c4; 0x3ed04330; 0xccbbc033; 0xa24bb5a6;
  0x502036a5; 0x4370c551; 0xb11b4652; 0x65d122b9; 0x97baa1ba; 0x84ea524e; 0x7681d14d;
  0x2892ed69; 0xdaf96e6a; 0xc9a99d9e; 0x3bc21e9d; 0xef087a76; 0x1d63f975; 0x0e330a81;
  0xfc588982; 0xb21572c9; 0x407ef1ca; 0x532e023e; 0xa145813d; 0x758fe5d6; 0x87e466d5;
  0x94b49521; 0x66df1622; 0x38cc2a06; 0xcaa7a905; 0xd9f75af1; 0x2b9cd9f2; 0xff56bd19;
  0x0d3d3e1a; 0x1e6dcdee; 0xec064eed; 0xc38d26c4; 0x31e6a5c7; 0x22b65633; 0xd0ddd530;
  0x0417b1db; 0xf67c32d8; 0xe52cc12c; 0x1747422f; 0x49547e0b; 0xbb3ffd08; 0xa86f0efc;
  0x5a048dff; 0x8ecee914; 0x7ca56a17; 0x6ff599e3; 0x9d9e1ae0; 0xd3d3e1ab; 0x21b862a8;
  0x32e8915c; 0xc083125f; 0x144976b4; 0xe622f5b7; 0xf5720643; 0x07198540; 0x590ab964;
  0xab613a67; 0xb831c993; 0x4a5a4a90; 0x9e902e7b; 0x6cfbad78; 0x7fab5e8c; 0x8dc0dd8f;
  0xe330a81a; 0x115b2b19; 0x020bd8ed; 0xf0605bee; 0x24aa3f05; 0xd6c1bc06; 0xc5914ff2;
  0x37faccf1; 0x69e9f0d5; 0x9b8273d6; 0x88d28022; 0x7ab90321; 0xae7367ca; 0x5c18e4c9;
  0x4f48173d; 0xbd23943e; 0xf36e6f75; 0x0105ec76; 0x12551f82; 0xe03e9c81; 0x34f4f86a;
  0xc69f7b69; 0xd5cf889d; 0x27a40b9e; 0x79b737ba; 0x8bdcb4b9; 0x988c474d; 0x6ae7c44e;
  0xbe2da0a5; 0x4c4623a6; 0x5f16d052; 0xad7d5351].

(** The loop over [size] bytes from the start of [p]; [None] when it leaves [p]. *)
Fixpoint crc32 (crc : Z) (p : list Z) (size : nat) (tab : list Z) {struct size} : option Z :=
  match size with
  | O => Some crc
  | S size =>
      match p with
      | [] => None
      | b :: p =>
          t ← znth tab (Z.land (Z.lxor crc b) 0xFF);
          crc32 (Z.lxor t (Z.shiftr crc 8)) p size tab
      end
  end.

Definition ext4_crc32 (crc : Z) (buf : list Z) (size : nat) : option Z :=
  crc32 crc buf size crc32_tab.
Definition ext4_crc32c (crc : Z) (buf : list Z) (size : nat) : option Z :=
  crc32 crc buf size crc32c_tab.

(** ** The reference: division bit by bit *)

(** The polynomials of the two checksums, lowest degree in the highest bit. *)
Definition POLY_CRC32 : Z := 0xEDB88320.
Definition POLY_CRC32C : Z := 0x82F63B78.

Definition crc_bit (poly c : Z) : Z :=
  Z.lxor (Z.shiftr c 1) (if Z.odd c then poly else 0).
Definition crc_bits (poly : Z) (n : nat) (c : Z) : Z := Nat.iter n (crc_bit poly) c.
Definition crc_byte (poly c b : Z) : Z := crc_bits poly 8 (Z.lxor c b).
Definition crc_ref (poly crc : Z) (l : list Z) : Z := foldl (crc_byte poly) crc l.

(** ** The step is linear and, on 32 bits, loses nothing *)

Section steps.
Variable poly : Z.

Lemma crc_bit_lxor a b : crc_bit poly (Z.lxor a b) = Z.lxor (crc_bit poly a) (crc_bit poly b).
Proof.
  unfold crc_bit. rewrite <- !Z.bit0_odd, Z.lxor_spec, Z.shiftr_lxor.
  apply Z.bits_inj'. intros n Hn. destruct (Z.testbit a 0), (Z.testbit b 0); cbn [xorb];
    rewrite !Z.lxor_spec, ?Z.bits_0; btauto.
Qed.

Lemma crc_bits_S n c : crc_bits poly (S n) c = crc_bit poly (crc_bits poly n c).
Proof. done. Qed.

Lemma crc_bits_lxor n : ∀ a b,
  crc_bits poly n (Z.lxor a b) = Z.lxor (crc_bits poly n a) (crc_bits poly n b).
Proof.
  induction n as [|n IH]; intros a b; [done|]. by rewrite !crc_bits_S, IH, crc_bit_lxor.
Qed.

Lemma crc_bits_add n m c : crc_bits poly (n + m) c = crc_bits poly n (crc_bits poly m c).
Proof. apply Nat.iter_add. Qed.

(** Bits above the lowest only move down. *)
Lemma crc_bits_high n y : crc_bits poly n (Z.shiftl y (Z.of_nat n)) = y.
Proof.
  revert y. induction n as [|n IH]; intros y; [apply Z.shiftl_0_r|].
  replace (S n) with (n + 1)%nat by lia. rewrite crc_bits_add. change (crc_bits poly 1 ?c) with (crc_bit poly c).
  set (z := Z.shiftl y _). replace (crc_bit poly z) with (Z.shiftl y (Z.of_nat n)); [apply IH|].
  subst z.
  unfold crc_bit. rewrite <- Z.bit0_odd, Z.shiftl_spec_low by lia. rewrite Z.lxor_0_r.
  apply Z.bits_inj'. intros i Hi. rewrite Z.shiftr_spec, !Z.shiftl_spec by lia. f_equal. lia.
Qed.

Lemma split_low x n : 0 ≤ n → x = Z.lxor (Z.land x (Z.ones n)) (Z.shiftl (Z.shiftr x n) n).
Proof.
  intros Hn. apply Z.bits_inj'. intros i Hi. rewrite Z.lxor_spec, Z.land_spec.
  destruct (decide (i < n)).
  - rewrite Z.ones_spec_low, Z.shiftl_spec_low by lia. btauto.
  - rewrite Z.ones_spec_high, Z.shiftl_spec, Z.shiftr_spec by lia.
    replace (i - n + n) with i by lia. btauto.
Qed.

(** The bytes of a message enter as one number, the first byte lowest. *)
Lemma octets_lxor b l :
  is_byte b → octets (b :: l) = Z.lxor b (Z.shiftl (octets l) 8).
Proof.
  unfold is_byte. intros Hb. cbn [octets]. rewrite Z.shiftl_mul_pow2 by lia. change (2 ^ 8) with 256.
  rewrite Z.mul_comm. apply Z.add_nocarry_lxor.
  change (octets l * 256) with (octets l * 2 ^ 8). rewrite <- Z.shiftl_mul_pow2 by lia.
  rewrite <- (Z.mod_small b (2 ^ 8)) by lia.
  apply Z.bits_inj'. intros i Hi. rewrite Z.land_spec, Z.bits_0. destruct (decide (i < 8)).
  - rewrite (Z.shiftl_spec_low _ 8) by lia. btauto.
  - by rewrite Z.mod_pow2_bits_high by lia.
Qed.

Lemma crc_ref_value l : Forall is_byte l → ∀ c,
  crc_ref poly c l = crc_bits poly (8 * length l) (Z.lxor c (octets l)).
Proof.
  induction 1 as [|b l Hb _ IH]; intros c; [cbn; by rewrite Z.lxor_0_r|].
  change (crc_ref poly c (b :: l)) with (crc_ref poly (crc_byte poly c b) l).
  rewrite IH, octets_lxor by done. cbn [length].
  replace (8 * S (length l))%nat with (8 * length l + 8)%nat by lia.
  rewrite crc_bits_add. f_equal. rewrite <- Z.lxor_assoc, crc_bits_lxor.
  pose proof (crc_bits_high 8 (octets l)) as Eh. change (Z.of_nat 8) with 8 in Eh. by rewrite Eh.
Qed.

Lemma crc_ref_app c l1 l2 : crc_ref poly c (l1 ++ l2) = crc_ref poly (crc_ref poly c l1) l2.
Proof. apply foldl_app. Qed.

(** How different messages, and different starts, end. *)
Lemma crc_ref_diff d m1 m2 :
  Forall is_byte m1 → Forall is_byte m2 → length m1 = length m2 →
  Z.lxor (crc_ref poly d m1) (crc_ref poly d m2) =
    crc_bits poly (8 * length m1) (Z.lxor (octets m1) (octets m2)).
Proof.
  intros H1 H2 Hl. rewrite !crc_ref_value, <- Hl, <- crc_bits_lxor by done. f_equal.
  apply Z.bits_inj'. intros n Hn. rewrite !Z.lxor_spec. btauto.
Qed.

Lemma crc_ref_start a b l :
  Forall is_byte l →
  Z.lxor (crc_ref poly a l) (crc_ref poly b l) = crc_bits poly (8 * length l) (Z.lxor a b).
Proof.
  intros H. rewrite !crc_ref_value, <- crc_bits_lxor by done. f_equal.
  apply Z.bits_inj'. intros n Hn. rewrite !Z.lxor_spec. btauto.
Qed.

Lemma lxor_range n a b :
  0 ≤ n → 0 ≤ a < 2 ^ n → 0 ≤ b < 2 ^ n → 0 ≤ Z.lxor a b < 2 ^ n.
Proof.
  intros Hn Ha Hb. rewrite <- (Z.mod_small a (2 ^ n)), <- (Z.mod_small b (2 ^ n)) by done.
  rewrite <- !Z.land_ones by done.
  replace (Z.lxor (Z.land a (Z.ones n)) (Z.land b (Z.ones n)))
    with (Z.land (Z.lxor a b) (Z.ones n)).
  - rewrite Z.land_ones by done. apply Z.mod_pos_bound. by apply Z.pow_pos_nonneg.
  - apply Z.bits_inj'. intros i Hi. rewrite ?Z.lxor_spec, ?Z.land_spec, ?Z.lxor_spec. btauto.
Qed.

Hypothesis poly_range : 2 ^ 31 ≤ poly < 2 ^ 32.

Lemma poly_top : Z.testbit poly 31 = true.
Proof.
  apply Z.testbit_true; [lia|].
  replace (poly / 2 ^ 31) with 1 by (Z.div_mod_to_equations; lia). done.
Qed.

Lemma crc_bit_nonzero c : 0 < c < 2 ^ 32 → 0 < crc_bit poly c < 2 ^ 32.
Proof.
  intros Hc. unfold crc_bit. rewrite Z.shiftr_div_pow2 by lia. change (2 ^ 1) with 2.
  destruct (Z.odd c) eqn:Eo.
  - assert (0 ≤ c / 2 < 2 ^ 31) as Hh by (split; [apply Z.div_pos|apply Z.div_lt_upper_bound]; lia).
    assert (Z.testbit (Z.lxor (c / 2) poly) 31 = true) as Ht.
    { rewrite Z.lxor_spec, poly_top, <- (Z.mod_small _ _ Hh). by rewrite Z.mod_pow2_bits_high by lia. }
    destruct (lxor_range 32 (c / 2) poly) as [H0 H1]; [lia..|].
    split; [|done]. destruct (decide (Z.lxor (c / 2) poly = 0)) as [E|]; [|lia].
    by rewrite E, Z.bits_0 in Ht.
  - rewrite Z.lxor_0_r.
    assert (c mod 2 = 0) by (rewrite Zmod_odd, Eo; done).
    Z.div_mod_to_equations. lia.
Qed.

Lemma crc_bits_nonzero n c : 0 < c < 2 ^ 32 → 0 < crc_bits poly n c < 2 ^ 32.
Proof.
  intros Hc. induction n as [|n IH]; [done|]. rewrite crc_bits_S. by apply crc_bit_nonzero.
Qed.

(** No difference of 32 bits is lost. *)
Lemma crc_bits_zero n x : 0 ≤ x < 2 ^ 32 → crc_bits poly n x = 0 → x = 0.
Proof.
  intros Hx E. destruct (decide (x = 0)) as [|Hne]; [done|].
  assert (0 < crc_bits poly n x) by (apply crc_bits_nonzero; lia). lia.
Qed.

Lemma crc_bits_range n x : 0 ≤ x < 2 ^ 32 → 0 ≤ crc_bits poly n x < 2 ^ 32.
Proof.
  intros Hx. destruct (decide (x = 0)) as [->|Hne].
  - replace (crc_bits poly n 0) with 0; [lia|]. symmetry. induction n as [|n IH]; [done|].
    rewrite crc_bits_S, IH. done.
  - assert (0 < crc_bits poly n x < 2 ^ 32) by (apply crc_bits_nonzero; lia). lia.
Qed.

(** Equal ends come from equal messages, if the messages differ in 32 bits only. *)
Lemma crc_ref_burst d m1 m2 post :
  Forall is_byte m1 → Forall is_byte m2 → Forall is_byte post →
  length m1 = length m2 → (length m1 ≤ 4)%nat →
  crc_ref poly (crc_ref poly d m1) post = crc_ref poly (crc_ref poly d m2) post → m1 = m2.
Proof.
  intros H1 H2 Hp Hl H4 E.
  assert (0 ≤ Z.lxor (octets m1) (octets m2) < 2 ^ 32) as Hr.
  { pose proof (octets_range m1 H1) as R1. pose proof (octets_range m2 H2) as R2.
    assert (zlen m1 = zlen m2 ∧ 256 ^ zlen m1 ≤ 256 ^ 4) as [Ez Hle].
    { unfold zlen. split; [lia|]. apply Z.pow_le_mono_r; lia. }
    rewrite <- Ez in R2. apply lxor_range; lia. }
  assert (octets m1 = octets m2) as Eo.
  { apply Z.lxor_eq, (crc_bits_zero (8 * length m1)); [done|].
    rewrite <- (crc_ref_diff d) by done.
    apply (crc_bits_zero (8 * length post)).
    - rewrite crc_ref_diff by done. by apply crc_bits_range.
    - rewrite <- crc_ref_start, E by done. apply Z.lxor_nilpotent. }
  rewrite <- (le_bytes_octets m1), <- (le_bytes_octets m2), Hl, Eo by done. done.
Qed.
End steps.

(** ** The tables hold the division of their index *)

Definition crc_table (poly : Z) (tab : list Z) : Prop :=
  ∀ i, 0 ≤ i < 256 → znth tab i = Some (crc_bits poly 8 i).

Definition table_check (poly : Z) (tab : list Z) : bool :=
  bool_decide (tab = crc_bits poly 8 <$> seqZ 0 256).

Lemma table_check_ok poly tab : table_check poly tab = true → crc_table poly tab.
Proof.
  unfold table_check. intros ->%bool_decide_eq_true i Hi. apply znth_Some. split; [lia|].
  rewrite list_lookup_fmap, lookup_seqZ_lt by lia. cbn [fmap option_fmap option_map].
  do 2 f_equal. lia.
Qed.

Lemma crc32_tab_ok : crc_table POLY_CRC32 crc32_tab.
Proof. apply table_check_ok. vm_compute. reflexivity. Qed.
Lemma crc32c_tab_ok : crc_table POLY_CRC32C crc32c_tab.
Proof. apply table_check_ok. vm_compute. reflexivity. Qed.

(** One turn of the loop is eight steps. *)
Lemma crc_step poly c b :
  is_byte b →
  Z.lxor (crc_bits poly 8 (Z.land (Z.lxor c b) 0xFF)) (Z.shiftr c 8) = crc_byte poly c b.
Proof.
  unfold is_byte. intros Hb. unfold crc_byte. rewrite (split_low (Z.lxor c b) 8) at 2 by lia.
  rewrite crc_bits_lxor. change (Z.ones 8) with 0xFF. f_equal.
  pose proof (crc_bits_high poly 8 (Z.shiftr (Z.lxor c b) 8)) as Eh.
  change (Z.of_nat 8) with 8 in Eh. rewrite Eh, Z.shiftr_lxor.
  rewrite (Z.shiftr_div_pow2 b), (Z.div_small b) by lia. by rewrite Z.lxor_0_r.
Qed.

Lemma crc32_run poly tab l : crc_table poly tab → Forall is_byte l →
  ∀ rest c, crc32 c (l ++ rest) (length l) tab = Some (crc_ref poly c l).
Proof.
  intros Ht. induction 1 as [|b l Hb _ IH]; intros rest c; [done|]. cbn [crc32 length app].
  rewrite Ht.
  - cbn [mbind option_bind]. rewrite IH, crc_step by done. done.
  - change 0xFF with (Z.ones 8). rewrite Z.land_ones by lia. by apply Z.mod_pos_bound.
Qed.

Lemma crc32_ref poly tab l c :
  crc_table poly tab → Forall is_byte l → crc32 c l (length l) tab = Some (crc_ref poly c l).
Proof. intros Ht Hl. rewrite <- (app_nil_r l) at 1. by apply crc32_run. Qed.

(** ** Theorems *)

(** C29: The table-driven checksums are the polynomial divisions they stand for: over any
    bytes and from any start value [ext4_crc32] computes the bitwise division by the
    polynomial of CRC-32 and [ext4_crc32c] that of CRC-32C, reading exactly the bytes asked
    for, and a checksum can be continued from the checksum of a first part. *)
Theorem crc32_tables_divide crc l rest :
  Forall is_byte l →
  ext4_crc32 crc (l ++ rest) (length l) = Some (crc_ref POLY_CRC32 crc l) ∧
  ext4_crc32c crc (l ++ rest) (length l) = Some (crc_ref POLY_CRC32C crc l) ∧
  ∀ l1 l2, l = l1 ++ l2 →
    ext4_crc32c crc l (length l) = (c ← ext4_crc32c crc l1 (length l1); ext4_crc32c c l2 (length l2)).
Proof.
  intros Hl. split_and!; [by apply (crc32_run _ _ l crc32_tab_ok Hl)|by apply (crc32_run _ _ l crc32c_tab_ok Hl)|].
  intros l1 l2 ->. apply Forall_app in Hl as [H1 H2].
  unfold ext4_crc32c. rewrite (crc32_ref _ _ _ _ crc32c_tab_ok (Forall_app_2 _ _ _ H1 H2)).
  rewrite (crc32_ref _ _ l1 _ crc32c_tab_ok H1). cbn [mbind option_bind].
  rewrite (crc32_ref _ _ l2 _ crc32c_tab_ok H2). by rewrite crc_ref_app.
Qed.

(** Damage of up to four neighbouring bytes never goes unnoticed: two buffers that agree
    but for at most four bytes in a row and have the same CRC-32C from the same start value
    are equal. *)
Theorem crc32c_detects_bursts crc pre m1 m2 post :
  Forall is_byte (pre ++ m1 ++ post) → Forall is_byte (pre ++ m2 ++ post) →
  length m1 = length m2 → (length m1 ≤ 4)%nat →
  ext4_crc32c crc (pre ++ m1 ++ post) (length (pre ++ m1 ++ post)) =
  ext4_crc32c crc (pre ++ m2 ++ post) (length (pre ++ m2 ++ post)) →
  m1 = m2.
Proof.
  intros H1 H2 Hlen H4 E. unfold ext4_crc32c in E.
  rewrite (crc32_ref _ _ _ _ crc32c_tab_ok H1), (crc32_ref _ _ _ _ crc32c_tab_ok H2) in E.
  injection E as E. apply Forall_app in H1 as [_ [H1 Hp]%Forall_app].
  apply Forall_app in H2 as [_ [H2 _]%Forall_app]. rewrite !crc_ref_app in E.
  by apply (crc_ref_burst POLY_CRC32C ltac:(by split) _ _ _ _ H1 H2 Hp Hlen H4) in E.
Qed.

(** The checksum of the nine digits that catalogues of CRCs quote. *)
Definition digits : list Z := seqZ 49 9.

Lemma crc32_tables_divide_witness :
  ext4_crc32 0xFFFFFFFF (digits ++ [7]) 9 = Some (crc_ref POLY_CRC32 0xFFFFFFFF digits) ∧
  crc_ref POLY_CRC32 0xFFFFFFFF digits = Z.lxor 0xCBF43926 0xFFFFFFFF.
Proof.
  split; [|by vm_compute]. apply (crc32_tables_divide 0xFFFFFFFF digits [7]).
  apply Forall_forall. intros b Hb%elem_of_seqZ. unfold is_byte. lia.
Defined.

Lemma crc32c_detects_bursts_witness :
  ext4_crc32c 0xFFFFFFFF ([1; 2] ++ [3; 4; 5; 6] ++ [7]) 7 ≠
  ext4_crc32c 0xFFFFFFFF ([1; 2] ++ [3; 9; 5; 8] ++ [7]) 7.
Proof.
  intros E. enough ([3; 4; 5; 6] = [3; 9; 5; 8]) by done.
  apply (crc32c_detects_bursts 0xFFFFFFFF [1; 2] [3; 4; 5; 6] [3; 9; 5; 8] [7]); cbn [app length];
    [repeat constructor; unfold is_byte; lia..|done|lia|exact E].
Defined.

Example crc32c_digits :
  ext4_crc32c 0xFFFFFFFF digits 9 = Some (Z.lxor 0xE3069283 0xFFFFFFFF).
Proof. by vm_compute. Qed.
