(* ===== verification/ExtTypes.v ===== *)
(** * What the parts of lwext4 share

    The error codes of [include/fs/ext4/lwext4/ext4_errno.h], and arrays of bytes described by
    what is written over them. *)

From S2P Require Export Prelude.

Definition EOK : Z := 0.
Definition EIO : Z := 5.
Definition ENXIO : Z := 6.
Definition ENOMEM : Z := 12.
Definition EINVAL : Z := 22.
Definition ENOSPC : Z := 28.

(** Integer division as an operation: dividing by zero is a fault. *)
Definition mdiv {S} (a b : Z) : M S Z := if b =? 0 then mfault else mret (a / b).
Definition mmod {S} (a b : Z) : M S Z := if b =? 0 then mfault else mret (a mod b).

Lemma mdiv_run {S} a b (s : S) : 0 < b → mdiv a b s = Ret (a / b, s).
Proof. intros Hb. unfold mdiv. by rewrite (proj2 (Z.eqb_neq _ _)) by lia. Qed.

(** ** Splices *)

Section splices.
Context {A : Type}.
Implicit Types l m src : list A.

(** Index by index, and in range. *)
Lemma zsplice_char l off src l' :
  zsplice l off src = Some l' ↔
  0 ≤ off ∧ off + zlen src ≤ zlen l ∧ zlen l' = zlen l ∧
  ∀ i : nat, l' !! i = if decide (off ≤ Z.of_nat i < off + zlen src)
                       then src !! Z.to_nat (Z.of_nat i - off) else l !! i.
Proof.
  split.
  - intros H. pose proof (zsplice_length _ _ _ _ H). pose proof H as H'. unfold zsplice in H'.
    case_decide; [|done]. split_and!; [lia..|]. intros i. by apply lookup_zsplice.
  - intros (H0 & H1 & Hl & Hi). destruct (zsplice_is_Some l off src H0 H1) as [k Hk].
    rewrite Hk. f_equal. apply list_eq. intros i. by rewrite Hi, (lookup_zsplice _ _ _ _ _ Hk).
Qed.

Lemma zslice_char l off n l' :
  zslice l off n = Some l' ↔
  0 ≤ off ∧ 0 ≤ n ∧ off + n ≤ zlen l ∧ zlen l' = n ∧
  ∀ i : nat, Z.of_nat i < n → l' !! i = l !! Z.to_nat (off + Z.of_nat i).
Proof.
  assert (∀ k, 0 ≤ off → zslice l off n = Some k → ∀ i : nat, Z.of_nat i < n →
    k !! i = l !! Z.to_nat (off + Z.of_nat i)) as Hlk.
  { intros k H0 H i Hi. unfold zslice in H. case_decide; [|done]. injection H as <-.
    rewrite lookup_take_lt, lookup_drop by lia. f_equal. lia. }
  split.
  - intros H. pose proof (zslice_length _ _ _ _ H). pose proof H as H'. unfold zslice in H'.
    case_decide; [|done]. split_and!; [lia..|]. apply Hlk; [lia|done].
  - intros (H0 & H1 & H2 & Hl & Hi). rewrite zslice_Some by done. f_equal.
    pose proof (zslice_Some l off n H0 H1 H2) as Hk. pose proof (zslice_length _ _ _ _ Hk) as Hkl.
    apply list_eq_Z; [lia|]. intros i Hir. rewrite (Hlk _ H0 Hk), Hi by lia. done.
Qed.

(** Two splices, the second right behind the first. *)
Lemma zsplice_app m a d1 d2 m1 m2 :
  zsplice m a d1 = Some m1 → zsplice m1 (a + zlen d1) d2 = Some m2 →
  zsplice m a (d1 ++ d2) = Some m2.
Proof.
  rewrite !zsplice_char, zlen_app. intros (Ha & Hb & L1 & I1) (Hc & Hd & L2 & I2).
  pose proof (zlen_nonneg d1). pose proof (zlen_nonneg d2).
  split_and!; [lia..|]. intros i. rewrite I2, I1.
  repeat case_decide; try lia; try done.
  - rewrite lookup_app_r by (unfold zlen in *; lia). f_equal. unfold zlen in *. lia.
  - rewrite lookup_app_l by (unfold zlen in *; lia). done.
Qed.

(** A piece changed inside and written back is the piece written. *)
Lemma zsplice_within m a n b k d b' :
  zslice m a n = Some b → zsplice b k d = Some b' →
  zsplice m (a + k) d = zsplice m a b'.
Proof.
  intros Hs Hb. pose proof (zsplice_length _ _ _ _ Hb) as Lb.
  apply zslice_char in Hs as (Ha & Hn & Hr & Ls & Is).
  apply zsplice_char in Hb as (Hk & Hkr & _ & Ib).
  destruct (zsplice_is_Some m a b') as [m' Hm']; [lia..|]. rewrite Hm'.
  apply zsplice_char in Hm' as (_ & _ & Lm & Im).
  apply zsplice_char. split_and!; [lia..|]. intros i. rewrite Im.
  pose proof (zlen_nonneg d).
  case_decide as Hd; case_decide as He; try lia; try done.
  - rewrite Ib, decide_True by lia. f_equal. lia.
  - rewrite Ib, decide_False by lia. rewrite Is by lia. f_equal. lia.
Qed.

Lemma zslice_app m a n1 n2 d1 d2 :
  zslice m a n1 = Some d1 → zslice m (a + n1) n2 = Some d2 →
  zslice m a (n1 + n2) = Some (d1 ++ d2).
Proof.
  rewrite !zslice_char, zlen_app. intros (Ha & Hb & Hc & L1 & I1) (Hd & He & Hf & L2 & I2).
  split_and!; [lia..|]. intros i Hi. destruct (decide (Z.of_nat i < n1)).
  - rewrite lookup_app_l by (unfold zlen in *; lia). by apply I1.
  - rewrite lookup_app_r by (unfold zlen in *; lia). rewrite I2 by (unfold zlen in *; lia). f_equal.
    unfold zlen in *. lia.
Qed.

Lemma zslice_within m a n b k j c :
  zslice m a n = Some b → zslice b k j = Some c → zslice m (a + k) j = Some c.
Proof.
  rewrite !zslice_char. intros (Ha & Hb & Hc & L1 & I1) (Hd & He & Hf & L2 & I2).
  split_and!; [lia..|]. intros i Hi. rewrite I2, I1 by lia. f_equal. lia.
Qed.

Lemma zslice_nil m a : 0 ≤ a ≤ zlen m → zslice m a 0 = Some [].
Proof. intros Ha. rewrite zslice_Some by lia. done. Qed.
Lemma zsplice_nil m a : 0 ≤ a ≤ zlen m → zsplice m a [] = Some m.
Proof.
  intros Ha. apply zsplice_char. change (zlen (A:=A) []) with 0. split_and!; [lia..|].
  intros i. by rewrite decide_False by lia.
Qed.
Lemma zslice_all m : zslice m 0 (zlen m) = Some m.
Proof.
  rewrite zslice_Some by (unfold zlen; lia). unfold zlen. by rewrite Nat2Z.id, drop_0, firstn_all.
Qed.

Lemma zslice_range m a n d : zslice m a n = Some d → 0 ≤ a ∧ 0 ≤ n ∧ a + n ≤ zlen m ∧ zlen d = n.
Proof. rewrite zslice_char. tauto. Qed.
Lemma zsplice_range m a d m' :
  zsplice m a d = Some m' → 0 ≤ a ∧ a + zlen d ≤ zlen m ∧ zlen m' = zlen m.
Proof. rewrite zsplice_char. tauto. Qed.
Lemma zslice_ok m a n : 0 ≤ a → 0 ≤ n → a + n ≤ zlen m → ∃ d, zslice m a n = Some d ∧ zlen d = n.
Proof. intros. rewrite zslice_Some by done. eexists. split; [done|]. unfold zlen in *. rewrite length_take, length_drop. lia. Qed.

(** Writing back what is there. *)
Lemma zsplice_slice m a n d : n = zlen d → zslice m a n = Some d → zsplice m a d = Some m.
Proof.
  intros ->. rewrite zslice_char, zsplice_char. intros (Ha & Hn & Hr & _ & I). split_and!; [lia..|].
  intros i. case_decide; [|done]. rewrite I by lia. f_equal. lia.
Qed.

(** A slice away from a splice. *)
Lemma zslice_zsplice_disjoint m a d m' b n :
  zsplice m a d = Some m' → b + n ≤ a ∨ a + zlen d ≤ b → zslice m' b n = zslice m b n.
Proof.
  intros Hm Hd. apply zsplice_char in Hm as (Ha & Hr & Lm & Im).
  destruct (decide (0 ≤ b ∧ 0 ≤ n ∧ b + n ≤ zlen m)) as [(H1 & H2 & H3)|H].
  2: { unfold zslice. rewrite Lm. by rewrite !decide_False by lia. }
  destruct (zslice_ok m b n H1 H2 H3) as (k & Hk & _). rewrite Hk.
  apply zslice_char in Hk as (_ & _ & _ & Lk & Ik). apply zslice_char.
  split_and!; [lia..|]. intros i Hi. rewrite Ik, Im by done. rewrite decide_False by lia. done.
Qed.

(** Nothing outside [lo, hi) changed. *)
Definition touches (lo hi : Z) (m m' : list A) : Prop :=
  zlen m' = zlen m ∧ ∀ i : nat, ¬ lo ≤ Z.of_nat i < hi → m' !! i = m !! i.

Lemma touches_refl lo hi m : touches lo hi m m.
Proof. done. Qed.
Lemma touches_trans lo hi m1 m2 m3 : touches lo hi m1 m2 → touches lo hi m2 m3 → touches lo hi m1 m3.
Proof. intros [L1 I1] [L2 I2]. split; [lia|]. intros i Hi. by rewrite I2, I1. Qed.
Lemma zsplice_touches m a d m' lo hi :
  zsplice m a d = Some m' → lo ≤ a → a + zlen d ≤ hi → touches lo hi m m'.
Proof.
  rewrite zsplice_char. intros (Ha & Hr & Lm & Im) Hlo Hhi. split; [done|]. intros i Hi.
  by rewrite Im, decide_False by lia.
Qed.
End splices.
