(* ===== verification/Bitmap.v ===== *)
(** * Bitmaps of blocks and inodes

    Models [fs/ext4/lwext4/ext4_bitmap.c] and [include/fs/ext4/lwext4/ext4_bitmap.h] (built
    without CONFIG_UNALIGNED_ACCESS), and the search for a free block in the bitmap of one
    group in [ext4_balloc_alloc_block] of [ext4_balloc.c].  A bitmap is the bytes of its block;
    an access outside them is [None]. *)

From S2P Require Export ExtTypes.

(** ** Single bits *)

(** [1 << (bit & 7)]. *)
Definition bit_mask (bit : Z) : Z := Z.shiftl 1 (Z.land bit 7).

Definition ext4_bmap_bit_set (bmap : list Z) (bit : Z) : option (list Z) :=
  b ← znth bmap (Z.shiftr bit 3); zset bmap (Z.shiftr bit 3) (u8 (Z.lor b (bit_mask bit))).
Definition ext4_bmap_bit_clr (bmap : list Z) (bit : Z) : option (list Z) :=
  b ← znth bmap (Z.shiftr bit 3);
  zset bmap (Z.shiftr bit 3) (u8 (Z.land b (Z.lnot (bit_mask bit)))).
Definition ext4_bmap_is_bit_set (bmap : list Z) (bit : Z) : option bool :=
  b ← znth bmap (Z.shiftr bit 3); Some (ctrue (Z.land b (bit_mask bit))).
Definition ext4_bmap_is_bit_clr (bmap : list Z) (bit : Z) : option bool :=
  r ← ext4_bmap_is_bit_set bmap bit; Some (negb r).

(** ** Freeing a range *)

(** The bits before a byte boundary; [None] inside is the early return. *)
Fixpoint free_head (fuel : nat) (bmap : list Z) (i bcnt : Z) :
    option (list Z * option (Z * Z)) :=
  match fuel with
  | O => None
  | S fuel =>
      if Z.land i 7 =? 0 then Some (bmap, Some (i, bcnt))
      else if bcnt =? 0 then Some (bmap, None)
      else bmap ← ext4_bmap_bit_clr bmap i; free_head fuel bmap (u32 (i + 1)) (u32 (bcnt - 1))
  end.

(** Whole bytes from byte [p] on. *)
Fixpoint free_bytes (fuel : nat) (bmap : list Z) (p bcnt : Z) : option (list Z * Z * Z) :=
  if 8 <=? bcnt then
    match fuel with
    | O => None
    | S fuel => bmap ← zset bmap p 0; free_bytes fuel bmap (p + 1) (u32 (bcnt - 8))
    end
  else Some (bmap, p, bcnt).

(** The last bits, counted from byte [p]. *)
Fixpoint free_tail (fuel : nat) (bmap : list Z) (p i bcnt : Z) : option (list Z) :=
  if i <? bcnt then
    match fuel with
    | O => None
    | S fuel => bmap ← ext4_bmap_bit_clr bmap (8 * p + i); free_tail fuel bmap p (i + 1) bcnt
    end
  else Some bmap.

Definition ext4_bmap_bits_free (bmap : list Z) (sbit bcnt : Z) : option (list Z) :=
  '(bmap, r) ← free_head 8 bmap sbit bcnt;
  match r with
  | None => Some bmap
  | Some (sbit, bcnt) =>
      '(bmap, p, bcnt) ← free_bytes (Z.to_nat bcnt) bmap (Z.shiftr sbit 3) bcnt;
      free_tail 8 bmap p 0 bcnt
  end.

(** ** Searching for a clear bit *)

(** Before a byte boundary; [inl] is the value of a return. *)
Fixpoint find_head (fuel : nat) (bmap : list Z) (sbit i bcnt : Z) :
    option ((Z * option Z) + (Z * Z)) :=
  match fuel with
  | O => None
  | S fuel =>
      if Z.land i 7 =? 0 then Some (inr (i, bcnt))
      else if bcnt =? 0 then Some (inl (ENOSPC, None))
      else
        c ← ext4_bmap_is_bit_clr bmap i;
        if c : bool then Some (inl (EOK, Some sbit))
        else find_head fuel bmap sbit (u32 (i + 1)) (u32 (bcnt - 1))
  end.

(** The first clear bit among [i ... n - 1], counted from byte [p]. *)
Fixpoint scan_bits (fuel : nat) (bmap : list Z) (p i n : Z) : option (option Z) :=
  if i <? n then
    match fuel with
    | O => None
    | S fuel =>
        c ← ext4_bmap_is_bit_clr bmap (8 * p + i);
        if c : bool then Some (Some i) else scan_bits fuel bmap p (i + 1) n
    end
  else Some None.

Fixpoint find_bytes (fuel : nat) (bmap : list Z) (p sbit bcnt : Z) :
    option ((Z * option Z) + (Z * Z * Z)) :=
  if 8 <=? bcnt then
    match fuel with
    | O => None
    | S fuel =>
        b ← znth bmap p;
        r ← (if negb (b =? 0xFF) then scan_bits 8 bmap p 0 8 else Some None);
        match r with
        | Some i => Some (inl (EOK, Some (u32 (sbit + i))))
        | None => find_bytes fuel bmap (p + 1) (u32 (sbit + 8)) (u32 (bcnt - 8))
        end
    end
  else Some (inr (p, sbit, bcnt)).

(** The result and what is stored in [*bit_id], if anything. *)
Definition ext4_bmap_bit_find_clr (bmap : list Z) (sbit ebit : Z) : option (Z * option Z) :=
  let bcnt := u32 (ebit - sbit) in
  h ← find_head 8 bmap sbit sbit bcnt;
  match h with
  | inl r => Some r
  | inr (sbit, bcnt) =>
      f ← find_bytes (Z.to_nat bcnt) bmap (Z.shiftr sbit 3) sbit bcnt;
      match f with
      | inl r => Some r
      | inr (p, sbit, bcnt) =>
          r ← scan_bits 8 bmap p 0 bcnt;
          match r with
          | Some i => Some (EOK, Some (u32 (sbit + i)))
          | None => Some (ENOSPC, None)
          end
      end
  end.

(** ** A free block of a group ([ext4_balloc_alloc_block]) *)

(** The loop near the goal. *)
Fixpoint near_goal (fuel : nat) (bmap : list Z) (tmp_idx end_idx : Z) : option (option Z) :=
  if tmp_idx <? end_idx then
    match fuel with
    | O => None
    | S fuel =>
        c ← ext4_bmap_is_bit_clr bmap tmp_idx;
        if c : bool then Some (Some tmp_idx) else near_goal fuel bmap (u32 (tmp_idx + 1)) end_idx
    end
  else Some None.

(** The goal itself, the next 63 bits up to a boundary of 64, then the rest of the group; the
    bit taken, if any, and the bitmap with it set. *)
Definition take_bit (bmap : list Z) (bit : Z) : option (option Z * list Z) :=
  bmap ← ext4_bmap_bit_set bmap bit; Some (Some bit, bmap).

Definition alloc_in_goal_group (bmap : list Z) (idx_in_bg blk_in_bg : Z) :
    option (option Z * list Z) :=
  c ← ext4_bmap_is_bit_clr bmap idx_in_bg;
  if c : bool then take_bit bmap idx_in_bg
  else
    let end_idx := Z.land (u32 (idx_in_bg + 63)) (Z.lnot 63) in
    let end_idx := if blk_in_bg <? end_idx then blk_in_bg else end_idx in
    r ← near_goal 64 bmap (u32 (idx_in_bg + 1)) end_idx;
    match r with
    | Some tmp_idx => take_bit bmap tmp_idx
    | None =>
        '(r, rel_blk_idx) ← ext4_bmap_bit_find_clr bmap idx_in_bg blk_in_bg;
        if r =? EOK then
          rel_blk_idx ← rel_blk_idx;
          take_bit bmap rel_blk_idx
        else Some (None, bmap)
    end.

(** ** Reading and writing bits *)

(** Bit [j] of a bitmap; bits outside count as taken. *)
Definition bit (bmap : list Z) (j : Z) : bool :=
  match znth bmap (j / 8) with Some b => Z.testbit b (j mod 8) | None => true end.

(** Bytes, few enough for 32-bit indices. *)
Definition bmap_ok (bmap : list Z) : Prop :=
  Forall (λ b, 0 ≤ b < 256) bmap ∧ 8 * zlen bmap < 2 ^ 31.

(** [bmap'] is [bmap] but for the bits that [P] holds of, which are [v]. *)
Definition bits_changed (P : Z → bool) (v : bool) (bmap bmap' : list Z) : Prop :=
  bmap_ok bmap' ∧ zlen bmap' = zlen bmap ∧
  ∀ k, 0 ≤ k < 8 * zlen bmap → bit bmap' k = if P k then v else bit bmap k.

Lemma bits_changed_none v bmap : bmap_ok bmap → bits_changed (λ _, false) v bmap bmap.
Proof. intros H. by split_and!. Qed.

Lemma bits_changed_trans P Q v m1 m2 m3 :
  bits_changed P v m1 m2 → bits_changed Q v m2 m3 → bits_changed (λ k, P k || Q k) v m1 m3.
Proof.
  intros (H1 & L1 & E1) (H2 & L2 & E2). split_and!; [done|lia|]. intros k Hk.
  rewrite E2, E1 by lia. by destruct (P k), (Q k).
Qed.

Lemma bits_changed_ext P Q v m1 m2 :
  (∀ k, 0 ≤ k < 8 * zlen m1 → P k = Q k) → bits_changed P v m1 m2 → bits_changed Q v m1 m2.
Proof. intros HPQ (H & L & E). split_and!; [done..|]. intros k Hk. by rewrite E, HPQ. Qed.

Lemma byte_index j : Z.shiftr j 3 = j / 8.
Proof. by rewrite Z.shiftr_div_pow2. Qed.
Lemma bit_index j : Z.land j 7 = j mod 8.
Proof. change 7 with (Z.ones 3). by rewrite Z.land_ones. Qed.

Lemma byte_of bmap j :
  bmap_ok bmap → 0 ≤ j < 8 * zlen bmap →
  ∃ b, znth bmap (j / 8) = Some b ∧ 0 ≤ b < 256.
Proof.
  intros [Hb _] Hj. destruct (znth_lt bmap (j / 8)) as [b Eb]; [Z.div_mod_to_equations; lia|].
  exists b. split; [done|]. apply znth_Some in Eb as [_ Eb]. by eapply Forall_lookup_1 in Hb.
Qed.

Lemma mask_testbit j i : 0 ≤ i → Z.testbit (bit_mask j) i = bool_decide (i = j mod 8).
Proof.
  intros Hi. unfold bit_mask. rewrite bit_index, Z.shiftl_1_l.
  rewrite Z.pow2_bits_eqb by (apply Z.mod_pos_bound; lia).
  destruct (Z.eqb_spec (j mod 8) i) as [->|]; case_bool_decide; done.
Qed.

Lemma is_bit_set_run bmap j :
  bmap_ok bmap → 0 ≤ j < 8 * zlen bmap → ext4_bmap_is_bit_set bmap j = Some (bit bmap j).
Proof.
  intros Hm Hj. destruct (byte_of bmap j Hm Hj) as (b & Eb & Hb).
  unfold ext4_bmap_is_bit_set, bit. rewrite byte_index, Eb. cbn. f_equal.
  assert (0 ≤ j mod 8 < 8) by (apply Z.mod_pos_bound; lia).
  unfold bit_mask. rewrite bit_index, Z.shiftl_1_l.
  destruct (Z.testbit b (j mod 8)) eqn:Et.
  - apply negb_true_iff, Z.eqb_neq. intros E0.
    assert (Z.testbit (Z.land b (2 ^ (j mod 8))) (j mod 8) = true) as E1
      by (rewrite Z.land_spec, Et, Z.pow2_bits_true by lia; done).
    by rewrite E0, Z.bits_0 in E1.
  - apply negb_false_iff, Z.eqb_eq, Z.bits_inj'. intros i Hi. rewrite Z.land_spec, Z.bits_0.
    rewrite Z.pow2_bits_eqb by lia. destruct (Z.eqb_spec (j mod 8) i) as [<-|]; [by rewrite Et|].
    apply andb_false_r.
Qed.

Lemma is_bit_clr_run bmap j :
  bmap_ok bmap → 0 ≤ j < 8 * zlen bmap → ext4_bmap_is_bit_clr bmap j = Some (negb (bit bmap j)).
Proof. intros Hm Hj. unfold ext4_bmap_is_bit_clr. by rewrite is_bit_set_run. Qed.

Lemma byte_testbit b i : 0 ≤ b < 256 → 8 ≤ i → Z.testbit b i = false.
Proof.
  intros Hb Hi. rewrite <- (Z.mod_small b (2 ^ 8)) by done. apply Z.mod_pow2_bits_high. lia.
Qed.

Lemma u8_testbit x i : 0 ≤ i < 8 → Z.testbit (u8 x) i = Z.testbit x i.
Proof. intros Hi. unfold u8. by rewrite Z.mod_pow2_bits_low by lia. Qed.

(** A write to byte [j / 8] that changes only bit [j mod 8]. *)
Lemma write_bit bmap j c b v :
  bmap_ok bmap → 0 ≤ j < 8 * zlen bmap → znth bmap (j / 8) = Some b → 0 ≤ c < 256 →
  (∀ i, 0 ≤ i < 8 → Z.testbit c i = if decide (i = j mod 8) then v else Z.testbit b i) →
  ∃ bmap', zset bmap (j / 8) c = Some bmap' ∧ bits_changed (λ k, k =? j) v bmap bmap'.
Proof.
  intros Hm Hj Eb Hc Hbits. pose proof Hm as [Hf Hl].
  assert (0 ≤ j / 8 < zlen bmap) as Hp by (Z.div_mod_to_equations; lia).
  unfold zset. rewrite decide_True by done. eexists. split; [reflexivity|].
  assert (zset bmap (j / 8) c = Some (<[Z.to_nat (j / 8) := c]> bmap)) as Es
    by (unfold zset; by rewrite decide_True).
  split_and!.
  - split; [by apply Forall_insert|]. unfold zlen. rewrite length_insert. exact Hl.
  - unfold zlen. by rewrite length_insert.
  - intros k Hk. assert (0 ≤ k mod 8 < 8) by (apply Z.mod_pos_bound; lia). unfold bit.
    destruct (decide (k / 8 = j / 8)) as [Eq|Hne].
    + rewrite Eq, (znth_zset_eq _ _ _ _ Es), Eb, Hbits by done.
      destruct (Z.eqb_spec k j) as [->|Hkj]; [by rewrite decide_True|].
      rewrite decide_False; [done|]. intros Hd. apply Hkj. Z.div_mod_to_equations. lia.
    + assert (j / 8 ≠ k / 8) as Hne' by congruence. rewrite (znth_zset_ne _ _ _ _ _ Hne' Es).
      destruct (Z.eqb_spec k j) as [->|]; done.
Qed.

Lemma bit_set_run bmap j :
  bmap_ok bmap → 0 ≤ j < 8 * zlen bmap →
  ∃ bmap', ext4_bmap_bit_set bmap j = Some bmap' ∧ bits_changed (λ k, k =? j) true bmap bmap'.
Proof.
  intros Hm Hj. destruct (byte_of bmap j Hm Hj) as (b & Eb & Hb).
  unfold ext4_bmap_bit_set. rewrite byte_index, Eb. cbn [mbind option_bind].
  apply (write_bit bmap j _ b true Hm Hj Eb); [apply u8_range|]. intros i Hi.
  rewrite u8_testbit, Z.lor_spec, mask_testbit by lia. case_bool_decide; case_decide; try done.
  - apply orb_true_r.
  - apply orb_false_r.
Qed.

Lemma bit_clr_run bmap j :
  bmap_ok bmap → 0 ≤ j < 8 * zlen bmap →
  ∃ bmap', ext4_bmap_bit_clr bmap j = Some bmap' ∧ bits_changed (λ k, k =? j) false bmap bmap'.
Proof.
  intros Hm Hj. destruct (byte_of bmap j Hm Hj) as (b & Eb & Hb).
  unfold ext4_bmap_bit_clr. rewrite byte_index, Eb. cbn [mbind option_bind].
  apply (write_bit bmap j _ b false Hm Hj Eb); [apply u8_range|]. intros i Hi.
  rewrite u8_testbit, Z.land_spec, Z.lnot_spec, mask_testbit by lia.
  case_bool_decide; case_decide; try done.
  - apply andb_false_r.
  - apply andb_true_r.
Qed.

(** ** Freeing *)

Definition align8 (i : Z) : Z := 8 * ((i + 7) / 8).
Definition range (a b k : Z) : bool := (a <=? k) && (k <? b).

(** Equality of ranges of bits, by arithmetic. *)
Ltac ranges :=
  unfold range; intros;
  repeat match goal with
  | |- context [?a <=? ?b] => destruct (Z.leb_spec a b)
  | |- context [?a <? ?b] => destruct (Z.ltb_spec a b)
  | |- context [?a =? ?b] => destruct (Z.eqb_spec a b)
  end; cbn; try reflexivity; exfalso; lia.

Lemma align8_step i : i mod 8 ≠ 0 → align8 (i + 1) = align8 i ∧ i < align8 i.
Proof. intros Hi. unfold align8. Z.div_mod_to_equations. lia. Qed.
Lemma align8_aligned i : i mod 8 = 0 → align8 i = i.
Proof. intros Hi. unfold align8. Z.div_mod_to_equations. lia. Qed.
Lemma align8_bounds i : i ≤ align8 i < i + 8 ∧ align8 i mod 8 = 0.
Proof. unfold align8. Z.div_mod_to_equations. lia. Qed.

Lemma free_head_run : ∀ fuel bmap i bcnt,
  bmap_ok bmap → 0 ≤ i → 0 ≤ bcnt → i + bcnt ≤ 8 * zlen bmap → align8 i - i < Z.of_nat fuel →
  ∃ bmap', free_head fuel bmap i bcnt =
      Some (bmap', if align8 i - i <=? bcnt then Some (align8 i, bcnt - (align8 i - i)) else None) ∧
    bits_changed (range i (i + Z.min bcnt (align8 i - i))) false bmap bmap'.
Proof.
  induction fuel as [|fuel IH]; intros bmap i bcnt Hm Hi Hb Hr Hf.
  { pose proof (align8_bounds i). lia. }
  pose proof (align8_bounds i) as Hal. cbn [free_head]. rewrite bit_index.
  destruct (Z.eqb_spec (i mod 8) 0) as [E0|E0].
  { exists bmap. rewrite align8_aligned by done. rewrite (proj2 (Z.leb_le _ _)) by lia.
    replace (bcnt - (i - i)) with bcnt by lia. split; [done|].
    eapply bits_changed_ext; [|by apply bits_changed_none]. ranges. }
  destruct (align8_step i E0) as [Ea Hlt]. destruct (Z.eqb_spec bcnt 0) as [->|Hb0].
  { exists bmap. rewrite (proj2 (Z.leb_gt _ _)) by lia. split; [done|].
    eapply bits_changed_ext; [|by apply bits_changed_none]. ranges. }
  destruct (bit_clr_run bmap i Hm ltac:(lia)) as (m1 & E1 & C1). rewrite E1. cbn [mbind option_bind].
  pose proof C1 as (Hm1 & L1 & _). pose proof Hm as [_ Hl].
  rewrite !u32_small by lia.
  destruct (IH m1 (i + 1) (bcnt - 1)) as (m2 & E2 & C2); [done|lia..|].
  rewrite E2, Ea. exists m2. split.
  - do 2 f_equal. destruct (Z.leb_spec (align8 i - (i + 1)) (bcnt - 1)), (Z.leb_spec (align8 i - i) bcnt);
      try lia; [|done]. do 2 f_equal. lia.
  - rewrite Ea in C2. eapply bits_changed_ext; [|exact (bits_changed_trans _ _ _ _ _ _ C1 C2)].
    intros k Hk. destruct (Z.min_spec bcnt (align8 i - i)) as [[? ->]|[? ->]],
      (Z.min_spec (bcnt - 1) (align8 i - (i + 1))) as [[? ->]|[? ->]]; ranges.
Qed.

Lemma clear_byte bmap p :
  bmap_ok bmap → 0 ≤ p < zlen bmap →
  ∃ bmap', zset bmap p 0 = Some bmap' ∧ bits_changed (range (8 * p) (8 * p + 8)) false bmap bmap'.
Proof.
  intros Hm Hp. pose proof Hm as [Hf Hl].
  assert (zset bmap p 0 = Some (<[Z.to_nat p := 0]> bmap)) as Es by (unfold zset; by rewrite decide_True).
  rewrite Es. eexists. split; [reflexivity|]. split_and!.
  - split; [by apply Forall_insert|]. unfold zlen. rewrite length_insert. exact Hl.
  - unfold zlen. by rewrite length_insert.
  - intros k Hk. unfold bit. destruct (decide (k / 8 = p)) as [Eq|Hne].
    + rewrite Eq, (znth_zset_eq _ _ _ _ Es), Z.bits_0. symmetry.
      assert (range (8 * p) (8 * p + 8) k = true) as ->; [|done].
      assert (8 * p ≤ k < 8 * p + 8) by (Z.div_mod_to_equations; lia). ranges.
    + assert (p ≠ k / 8) as Hne' by congruence. rewrite (znth_zset_ne _ _ _ _ _ Hne' Es).
      assert (range (8 * p) (8 * p + 8) k = false) as ->; [|done].
      assert (¬ 8 * p ≤ k < 8 * p + 8) by (Z.div_mod_to_equations; lia). ranges.
Qed.

Lemma free_bytes_run : ∀ fuel bmap p bcnt,
  bmap_ok bmap → 0 ≤ p → 0 ≤ bcnt → 8 * p + bcnt ≤ 8 * zlen bmap → bcnt ≤ Z.of_nat fuel →
  ∃ bmap', free_bytes fuel bmap p bcnt = Some (bmap', p + bcnt / 8, bcnt mod 8) ∧
    bits_changed (range (8 * p) (8 * p + 8 * (bcnt / 8))) false bmap bmap'.
Proof.
  induction fuel as [|fuel IH]; intros bmap p bcnt Hm Hp Hb Hr Hf; cbn [free_bytes];
    destruct (Z.leb_spec 8 bcnt) as [H8|H8]; try lia.
  1,3: exists bmap; rewrite Z.div_small, Z.mod_small, Z.add_0_r by lia; split; [done|];
    eapply bits_changed_ext; [|by apply bits_changed_none]; ranges.
  destruct (clear_byte bmap p Hm ltac:(lia)) as (m1 & E1 & C1). rewrite E1. cbn [mbind option_bind].
  pose proof C1 as (Hm1 & L1 & _). pose proof Hm as [_ Hl]. rewrite u32_small by lia.
  destruct (IH m1 (p + 1) (bcnt - 8)) as (m2 & E2 & C2); [done|lia..|].
  assert (bcnt / 8 = (bcnt - 8) / 8 + 1 ∧ bcnt mod 8 = (bcnt - 8) mod 8) as [Ed Em]
    by (Z.div_mod_to_equations; lia).
  rewrite E2, Ed, Em. exists m2. split; [do 3 f_equal; lia|].
  assert (0 ≤ (bcnt - 8) / 8) by (apply Z.div_pos; lia).
  eapply bits_changed_ext; [|exact (bits_changed_trans _ _ _ _ _ _ C1 C2)]. ranges.
Qed.

Lemma free_tail_run : ∀ fuel bmap p i bcnt,
  bmap_ok bmap → 0 ≤ p → 0 ≤ i → 8 * p + bcnt ≤ 8 * zlen bmap → bcnt - i ≤ Z.of_nat fuel →
  ∃ bmap', free_tail fuel bmap p i bcnt = Some bmap' ∧
    bits_changed (range (8 * p + i) (8 * p + bcnt)) false bmap bmap'.
Proof.
  induction fuel as [|fuel IH]; intros bmap p i bcnt Hm Hp Hi Hr Hf; cbn [free_tail];
    destruct (Z.ltb_spec i bcnt) as [Hlt|Hge]; try lia.
  1,3: exists bmap; split; [done|]; eapply bits_changed_ext; [|by apply bits_changed_none]; ranges.
  destruct (bit_clr_run bmap (8 * p + i) Hm ltac:(lia)) as (m1 & E1 & C1). rewrite E1.
  cbn [mbind option_bind]. pose proof C1 as (Hm1 & L1 & _).
  destruct (IH m1 p (i + 1) bcnt) as (m2 & E2 & C2); [done|lia..|].
  exists m2. split; [done|].
  eapply bits_changed_ext; [|exact (bits_changed_trans _ _ _ _ _ _ C1 C2)]. ranges.
Qed.

(** [ext4_bmap_bits_free] clears the bits of its range and no other, whatever the
    alignment of its ends, without leaving the bitmap. *)
Theorem ext4_bmap_bits_free_spec bmap sbit bcnt :
  bmap_ok bmap → 0 ≤ sbit → 0 ≤ bcnt → sbit + bcnt ≤ 8 * zlen bmap →
  ∃ bmap', ext4_bmap_bits_free bmap sbit bcnt = Some bmap' ∧
    bits_changed (range sbit (sbit + bcnt)) false bmap bmap'.
Proof.
  intros Hm Hs Hb Hr. unfold ext4_bmap_bits_free. pose proof (align8_bounds sbit) as [Hal Ha8].
  destruct (free_head_run 8 bmap sbit bcnt) as (m1 & E1 & C1); [done|lia..|].
  rewrite E1. cbn [mbind option_bind]. pose proof C1 as (Hm1 & L1 & _).
  destruct (Z.leb_spec (align8 sbit - sbit) bcnt) as [Hle|Hgt].
  - rewrite byte_index. set (p := align8 sbit / 8). set (n := bcnt - (align8 sbit - sbit)).
    assert (8 * p = align8 sbit) as Ep by (unfold p; Z.div_mod_to_equations; lia).
    destruct (free_bytes_run (Z.to_nat n) m1 p n) as (m2 & E2 & C2); [done|lia..|].
    rewrite E2. cbn [mbind option_bind]. pose proof C2 as (Hm2 & L2 & _).
    assert (n = 8 * (n / 8) + n mod 8 ∧ 0 ≤ n mod 8 < 8 ∧ 0 ≤ n / 8) as (En & Hmod & Hdiv)
      by (unfold n; Z.div_mod_to_equations; lia).
    destruct (free_tail_run 8 m2 (p + n / 8) 0 (n mod 8)) as (m3 & E3 & C3); [done|lia..|].
    exists m3. split; [done|].
    eapply bits_changed_ext;
      [|exact (bits_changed_trans _ _ _ _ _ _ (bits_changed_trans _ _ _ _ _ _ C1 C2) C3)].
    intros k Hk. rewrite Z.min_r by lia. ranges.
  - exists m1. split; [done|]. by rewrite Z.min_l in C1 by lia.
Qed.

(** ** Searching *)

(** All bits of a range are taken; [j] is the first that is not. *)
Definition all_taken (bmap : list Z) (a b : Z) : Prop := ∀ k, a ≤ k < b → bit bmap k = true.
Definition first_clear (bmap : list Z) (a b j : Z) : Prop :=
  a ≤ j < b ∧ bit bmap j = false ∧ all_taken bmap a j.

Lemma all_taken_snoc bmap a b :
  all_taken bmap a b → bit bmap b = true → all_taken bmap a (b + 1).
Proof. intros H Hb k Hk. destruct (decide (k = b)) as [->|]; [done|]. apply H. lia. Qed.
Lemma all_taken_app bmap a b c : all_taken bmap a b → all_taken bmap b c → all_taken bmap a c.
Proof. intros H1 H2 k Hk. destruct (decide (k < b)); [apply H1|apply H2]; lia. Qed.
Lemma first_clear_app bmap a b c j :
  a ≤ b → all_taken bmap a b → first_clear bmap b c j → first_clear bmap a c j.
Proof.
  intros Hab H (Hj & Hb & Ht). split_and!; [lia..|done|]. by eapply all_taken_app.
Qed.
Lemma first_clear_widen bmap a b c j : b ≤ c → first_clear bmap a b j → first_clear bmap a c j.
Proof. intros Hbc (Hj & Hb & Ht). split_and!; [lia..|done|done]. Qed.

Lemma find_head_run bmap sbit : ∀ fuel i bcnt,
  bmap_ok bmap → 0 ≤ sbit ≤ i → 0 ≤ bcnt → i + bcnt ≤ 8 * zlen bmap →
  align8 i = align8 sbit → align8 i - i < Z.of_nat fuel → all_taken bmap sbit i →
  ∃ r, find_head fuel bmap sbit i bcnt = Some r ∧
    ((r = inl (ENOSPC, None) ∧ i + bcnt < align8 i ∧ all_taken bmap sbit (i + bcnt)) ∨
     (r = inl (EOK, Some sbit) ∧
       ∃ j, j < align8 sbit ∧ first_clear bmap sbit (i + bcnt) j) ∨
     (r = inr (align8 i, i + bcnt - align8 i) ∧ align8 i ≤ i + bcnt ∧
       all_taken bmap sbit (align8 i))).
Proof.
  induction fuel as [|fuel IH]; intros i bcnt Hm Hi Hb Hr Ha Hf Ht.
  { pose proof (align8_bounds i). lia. }
  pose proof (align8_bounds i) as Hal. pose proof Hm as [_ Hl].
  cbn [find_head]. rewrite bit_index. destruct (Z.eqb_spec (i mod 8) 0) as [E0|E0].
  { eexists. split; [reflexivity|]. right. right. rewrite align8_aligned in * by done.
    split_and!; [do 2 f_equal; lia|lia|done]. }
  destruct (align8_step i E0) as [Ea Hlt]. destruct (Z.eqb_spec bcnt 0) as [->|Hb0].
  { eexists. split; [reflexivity|]. left. rewrite Z.add_0_r. done. }
  rewrite is_bit_clr_run by (done || lia). cbn [mbind option_bind].
  destruct (bit bmap i) eqn:Eb; cbn [negb].
  - rewrite !u32_small by lia.
    destruct (IH (i + 1) (bcnt - 1)) as (r & E & Hcase); [done|lia..|by apply all_taken_snoc|].
    exists r. split; [done|]. rewrite Ea in Hcase.
    by replace (i + 1 + (bcnt - 1)) with (i + bcnt) in Hcase by lia.
  - eexists. split; [reflexivity|]. right. left. split; [done|]. exists i. split; [lia|].
    split_and!; [lia..|done|done].
Qed.

Lemma scan_bits_run bmap p n : ∀ fuel i,
  bmap_ok bmap → 0 ≤ p → 0 ≤ i → 8 * p + n ≤ 8 * zlen bmap → n - i ≤ Z.of_nat fuel →
  ∃ r, scan_bits fuel bmap p i n = Some r ∧
    match r with
    | None => all_taken bmap (8 * p + i) (8 * p + n)
    | Some j => i ≤ j < n ∧ first_clear bmap (8 * p + i) (8 * p + n) (8 * p + j)
    end.
Proof.
  induction fuel as [|fuel IH]; intros i Hm Hp Hi Hr Hf; cbn [scan_bits];
    destruct (Z.ltb_spec i n) as [Hlt|Hge]; try lia.
  1,3: exists None; split; [done|]; intros k Hk; lia.
  rewrite is_bit_clr_run by (done || lia). cbn [mbind option_bind].
  destruct (bit bmap (8 * p + i)) eqn:Eb; cbn [negb].
  - destruct (IH (i + 1)) as (r & E & Hcase); [done|lia..|]. exists r. split; [done|].
    assert (all_taken bmap (8 * p + i) (8 * p + (i + 1))) as Ht
      by (intros k Hk; by replace k with (8 * p + i) by lia).
    destruct r as [j|]; [|by eapply all_taken_app]. destruct Hcase as [Hj Hc].
    split; [lia|]. by apply (first_clear_app _ _ (8 * p + (i + 1))); [lia|..].
  - exists (Some i). split; [done|]. split; [lia|]. split_and!; [lia..|done|]. intros k Hk. lia.
Qed.

Lemma full_byte bmap p :
  znth bmap p = Some 0xFF → all_taken bmap (8 * p) (8 * p + 8).
Proof.
  intros E k Hk. unfold bit. replace (k / 8) with p by (Z.div_mod_to_equations; lia). rewrite E.
  assert (0 ≤ k mod 8 < 8) as Hr by (apply Z.mod_pos_bound; lia).
  change 0xFF with (Z.ones 8). apply Z.ones_spec_low. done.
Qed.

Lemma find_bytes_run bmap : ∀ fuel p bcnt,
  bmap_ok bmap → 0 ≤ p → 0 ≤ bcnt → 8 * p + bcnt ≤ 8 * zlen bmap → bcnt ≤ Z.of_nat fuel →
  ∃ r, find_bytes fuel bmap p (8 * p) bcnt = Some r ∧
    ((∃ j, r = inl (EOK, Some j) ∧ first_clear bmap (8 * p) (8 * p + bcnt) j) ∨
     (r = inr (p + bcnt / 8, 8 * (p + bcnt / 8), bcnt mod 8) ∧
       all_taken bmap (8 * p) (8 * (p + bcnt / 8)))).
Proof.
  induction fuel as [|fuel IH]; intros p bcnt Hm Hp Hb Hr Hf; cbn [find_bytes];
    destruct (Z.leb_spec 8 bcnt) as [H8|H8]; try lia.
  1,3: eexists; split; [reflexivity|]; right; rewrite Z.div_small, Z.mod_small, Z.add_0_r by lia;
    split; [done|]; intros k Hk; lia.
  pose proof Hm as [_ Hl].
  destruct (znth_lt bmap p) as [b Eb]; [lia|]. rewrite Eb. cbn [mbind option_bind].
  assert (∃ r, (if negb (b =? 0xFF) then scan_bits 8 bmap p 0 8 else Some None) = Some r ∧
    match r with
    | None => all_taken bmap (8 * p) (8 * p + 8)
    | Some j => 0 ≤ j < 8 ∧ first_clear bmap (8 * p) (8 * p + 8) (8 * p + j)
    end) as (r & Er & Hcase).
  { destruct (Z.eqb_spec b 0xFF) as [->|]; cbn [negb].
    - exists None. split; [done|]. by apply full_byte.
    - destruct (scan_bits_run bmap p 8 8 0) as (r & E & Hcase); [done|lia..|].
      exists r. by rewrite Z.add_0_r in Hcase. }
  rewrite Er. cbn [mbind option_bind]. destruct r as [j|].
  - destruct Hcase as [Hj Hc]. rewrite u32_small by lia. eexists. split; [reflexivity|]. left.
    exists (8 * p + j). split; [done|]. by apply (first_clear_widen _ _ (8 * p + 8)); [lia|].
  - rewrite !u32_small by lia. replace (8 * p + 8) with (8 * (p + 1)) in * by lia.
    destruct (IH (p + 1) (bcnt - 8)) as (r & E & Hr2); [done|lia..|].
    exists r. split; [done|].
    assert (bcnt / 8 = (bcnt - 8) / 8 + 1 ∧ bcnt mod 8 = (bcnt - 8) mod 8) as [Ed Em]
      by (Z.div_mod_to_equations; lia).
    replace (8 * (p + 1) + (bcnt - 8)) with (8 * p + bcnt) in Hr2 by lia. rewrite Ed, Em.
    replace (p + ((bcnt - 8) / 8 + 1)) with (p + 1 + (bcnt - 8) / 8) by lia.
    destruct Hr2 as [(j & -> & Hj)|[-> Ht]]; [left|right].
    + exists j. split; [done|]. by apply (first_clear_app _ _ (8 * (p + 1))); [lia|..].
    + split; [done|]. by eapply all_taken_app.
Qed.

Lemma find_clr_run bmap sbit ebit :
  bmap_ok bmap → 0 ≤ sbit ≤ ebit → ebit ≤ 8 * zlen bmap →
  ∃ r, ext4_bmap_bit_find_clr bmap sbit ebit = Some r ∧
    ((r = (ENOSPC, None) ∧ all_taken bmap sbit ebit) ∨
     (∃ j, first_clear bmap sbit ebit j ∧
        r = (EOK, Some (if j <? align8 sbit then sbit else j)))).
Proof.
  intros Hm Hs He. pose proof Hm as [_ Hl]. unfold ext4_bmap_bit_find_clr.
  pose proof (align8_bounds sbit) as [Hal Ha8]. rewrite (u32_small (ebit - sbit)) by lia.
  destruct (find_head_run bmap sbit 8 sbit (ebit - sbit)) as (r & E & Hcase); [done|lia..| |].
  { intros k Hk. lia. }
  replace (sbit + (ebit - sbit)) with ebit in Hcase by lia. rewrite E. cbn [mbind option_bind].
  destruct Hcase as [(-> & _ & Ht)|[(-> & j & Hj & Hc)|(-> & Hle & Ht)]].
  { eexists. split; [reflexivity|]. by left. }
  { eexists. split; [reflexivity|]. right. exists j. split; [done|].
    by rewrite (proj2 (Z.ltb_lt _ _) Hj). }
  rewrite byte_index. set (p := align8 sbit / 8). set (n := ebit - align8 sbit).
  assert (align8 sbit = 8 * p) as Ep by (unfold p; Z.div_mod_to_equations; lia). rewrite Ep in *.
  assert (8 * p + n = ebit) as En by (unfold n; lia).
  destruct (find_bytes_run bmap (Z.to_nat n) p n) as (r & E2 & Hcase); [done|lia..|].
  rewrite E2, En in *. cbn [mbind option_bind].
  assert (∀ j, first_clear bmap (8 * p) ebit j → first_clear bmap sbit ebit j ∧
    (if j <? 8 * p then sbit else j) = j) as Hfar.
  { intros j Hj. split; [by apply (first_clear_app _ _ (8 * p)); [lia|..]|].
    destruct Hj as [Hj _]. by rewrite (proj2 (Z.ltb_ge _ _)) by lia. }
  destruct Hcase as [(j & -> & Hj)|[-> Ht2]].
  { destruct (Hfar j Hj) as [? Ej]. eexists. split; [reflexivity|]. right. exists j. by rewrite Ej. }
  set (q := p + n / 8). assert (8 * q + n mod 8 = ebit ∧ 0 ≤ n mod 8 < 8 ∧ p ≤ q) as (Eq & Hmod & Hpq)
    by (unfold q, n in *; Z.div_mod_to_equations; lia).
  destruct (scan_bits_run bmap q (n mod 8) 8 0) as (r & E3 & Hcase); [done|lia..|].
  rewrite Z.add_0_r, Eq in Hcase. rewrite E3. cbn [mbind option_bind]. destruct r as [j|].
  - destruct Hcase as [Hj Hc]. rewrite u32_small by lia. eexists. split; [reflexivity|]. right.
    destruct (Hfar (8 * q + j)) as [? Ej]; [by apply (first_clear_app _ _ (8 * q)); [lia|..]|].
    exists (8 * q + j). by rewrite Ej.
  - eexists. split; [reflexivity|]. left. split; [done|].
    eapply all_taken_app; [exact Ht|]. by eapply all_taken_app.
Qed.

(** C31: [ext4_bmap_bit_find_clr] never reads outside the bitmap and tells right whether a bit
    of its range is clear.  From a byte boundary on it reports the first one; a clear bit
    before the first boundary it reports as the start of the search, which may be taken. *)
Theorem ext4_bmap_bit_find_clr_spec bmap sbit ebit :
  bmap_ok bmap → 0 ≤ sbit ≤ ebit → ebit ≤ 8 * zlen bmap →
  (all_taken bmap sbit ebit → ext4_bmap_bit_find_clr bmap sbit ebit = Some (ENOSPC, None)) ∧
  (∀ j, first_clear bmap sbit ebit j →
     ext4_bmap_bit_find_clr bmap sbit ebit =
       Some (EOK, Some (if j <? align8 sbit then sbit else j))).
Proof.
  intros Hm Hs He. destruct (find_clr_run bmap sbit ebit Hm Hs He) as (r & -> & Hcase).
  split.
  - intros Ht. destruct Hcase as [[-> _]|(j & (Hj & Hb & _) & _)]; [done|].
    by rewrite Ht in Hb.
  - intros j (Hj & Hb & Ht). destruct Hcase as [[_ Ht']|(j' & (Hj' & Hb' & Ht') & ->)].
    + by rewrite Ht' in Hb.
    + assert (j' = j) as ->; [|done]. destruct (Z.lt_trichotomy j j') as [?|[?|?]]; [|done|].
      * by rewrite Ht' in Hb by lia.
      * by rewrite Ht in Hb' by lia.
Qed.

Lemma near_goal_run bmap e : ∀ fuel i,
  bmap_ok bmap → 0 ≤ i → e ≤ 8 * zlen bmap → e - i ≤ Z.of_nat fuel →
  ∃ r, near_goal fuel bmap i e = Some r ∧
    match r with None => all_taken bmap i e | Some j => first_clear bmap i e j end.
Proof.
  induction fuel as [|fuel IH]; intros i Hm Hi He Hf; cbn [near_goal];
    destruct (Z.ltb_spec i e) as [Hlt|Hge]; try lia.
  1,3: exists None; split; [done|]; intros k Hk; lia.
  pose proof Hm as [_ Hl]. rewrite is_bit_clr_run by (done || lia). cbn [mbind option_bind].
  destruct (bit bmap i) eqn:Eb; cbn [negb].
  - rewrite u32_small by lia. destruct (IH (i + 1)) as (r & E & Hcase); [done|lia..|].
    exists r. split; [done|].
    assert (all_taken bmap i (i + 1)) as Ht by (intros k Hk; by replace k with i by lia).
    destruct r as [j|]; [|by eapply all_taken_app].
    by apply (first_clear_app _ _ (i + 1)); [lia|..].
  - exists (Some i). split; [done|]. split_and!; [lia..|done|]. intros k Hk. lia.
Qed.

Lemma round64 x : 0 ≤ x → Z.land x (Z.lnot 63) = x - x mod 64.
Proof.
  intros Hx. change 63 with (Z.ones 6). rewrite <- Z.ldiff_land, Z.ldiff_ones_r by lia.
  rewrite Z.shiftl_mul_pow2, Z.shiftr_div_pow2 by lia. change (2 ^ 6) with 64.
  pose proof (Z.div_mod x 64). lia.
Qed.

Lemma take_bit_run bmap j :
  bmap_ok bmap → 0 ≤ j < 8 * zlen bmap →
  ∃ bmap', take_bit bmap j = Some (Some j, bmap') ∧ bits_changed (λ k, k =? j) true bmap bmap'.
Proof.
  intros Hm Hj. destruct (bit_set_run bmap j Hm Hj) as (m & E & C). exists m.
  unfold take_bit. by rewrite E.
Qed.

(** C30: The search of [ext4_balloc_alloc_block] in the group of the goal hands out no block
    twice: it takes the first free block from the goal to the end of the group, which was
    free, marks it and nothing else, and gives up, changing nothing, only when all of them are
    taken; the flaw of [ext4_bmap_bit_find_clr] before a byte boundary is out of its reach. *)
Theorem alloc_in_goal_group_spec bmap idx_in_bg blk_in_bg :
  bmap_ok bmap → 0 ≤ idx_in_bg < blk_in_bg → blk_in_bg ≤ 8 * zlen bmap →
  (∃ j bmap', alloc_in_goal_group bmap idx_in_bg blk_in_bg = Some (Some j, bmap') ∧
     first_clear bmap idx_in_bg blk_in_bg j ∧ bits_changed (λ k, k =? j) true bmap bmap') ∨
  (alloc_in_goal_group bmap idx_in_bg blk_in_bg = Some (None, bmap) ∧
     all_taken bmap idx_in_bg blk_in_bg).
Proof.
  intros Hm Hi Hb. pose proof Hm as [_ Hl]. unfold alloc_in_goal_group.
  rewrite is_bit_clr_run by (done || lia). cbn [mbind option_bind].
  destruct (bit bmap idx_in_bg) eqn:E0; cbn [negb].
  2: { destruct (take_bit_run bmap idx_in_bg Hm ltac:(lia)) as (m & E & C). left.
       exists idx_in_bg, m. split; [done|]. split; [|done]. split_and!; [lia..|done|]. intros k Hk. lia. }
  rewrite !u32_small, round64 by lia.
  set (e64 := idx_in_bg + 63 - (idx_in_bg + 63) mod 64).
  set (e := if blk_in_bg <? e64 then blk_in_bg else e64).
  assert (e ≤ blk_in_bg ∧ e < idx_in_bg + 64 ∧ Z.min blk_in_bg (align8 idx_in_bg) ≤ Z.max e idx_in_bg)
    as (He1 & He2 & He3).
  { unfold e, e64, align8. destruct (Z.ltb_spec blk_in_bg (idx_in_bg + 63 - (idx_in_bg + 63) mod 64));
      Z.div_mod_to_equations; lia. }
  destruct (near_goal_run bmap e 64 (idx_in_bg + 1)) as (r & E1 & Hcase); [done|lia..|].
  rewrite E1. cbn [mbind option_bind].
  assert (all_taken bmap idx_in_bg (idx_in_bg + 1)) as Ht0
    by (intros k Hk; by replace k with idx_in_bg by lia).
  destruct r as [j|].
  { apply (first_clear_app _ idx_in_bg) in Hcase; [|lia|done].
    apply (first_clear_widen _ _ _ blk_in_bg) in Hcase; [|lia]. pose proof Hcase as (Hj & _ & _).
    destruct (take_bit_run bmap j Hm ltac:(lia)) as (m & E & C). left. by exists j, m. }
  destruct (find_clr_run bmap idx_in_bg blk_in_bg Hm) as (r & E2 & Hr); [lia..|].
  rewrite E2. destruct Hr as [[-> Ht]|(j & Hj & ->)]; cbn [mbind option_bind]; [by right|].
  change (EOK =? EOK) with true. cbv iota.
  assert ((j <? align8 idx_in_bg) = false) as Ea.
  { destruct Hj as (Hjr & Hjb & _). apply Z.ltb_ge. apply Z.nlt_ge. intros Hlt.
    destruct (decide (j = idx_in_bg)) as [->|]; [congruence|].
    rewrite Hcase in Hjb by lia. done. }
  rewrite Ea. pose proof Hj as (Hjr & _ & _).
  destruct (take_bit_run bmap j Hm ltac:(lia)) as (m & E & C). left. by exists j, m.
Qed.

(** ** Examples *)

Lemma ext4_bmap_bits_free_spec_witness :
  ∃ bmap', ext4_bmap_bits_free [0xFF; 0xFF; 0xFF; 0xFF] 5 18 = Some bmap' ∧
    bit bmap' 4 = true ∧ bit bmap' 22 = false.
Proof.
  destruct (ext4_bmap_bits_free_spec [0xFF; 0xFF; 0xFF; 0xFF] 5 18) as (m & E & _ & _ & C).
  - split; [repeat constructor; lia|done].
  - lia.
  - lia.
  - vm_compute. congruence.
  - exists m. split; [exact E|]. by rewrite !C.
Defined.

(** Bit 3 is clear, the search starts at bit 1, and bit 1, which is taken, is the answer. *)
Lemma ext4_bmap_bit_find_clr_spec_witness :
  ext4_bmap_bit_find_clr [0xF7; 0xFE] 1 16 = Some (EOK, Some 1) ∧
  ext4_bmap_bit_find_clr [0xF7; 0xFE] 8 16 = Some (EOK, Some 8).
Proof.
  assert (bmap_ok [0xF7; 0xFE]) as Hm by (split; [repeat constructor; lia|done]). split.
  - apply (proj2 (ext4_bmap_bit_find_clr_spec [0xF7; 0xFE] 1 16 Hm ltac:(lia) ltac:(by vm_compute)) 3).
    split_and!; [lia..|done|]. intros k Hk.
    assert ((k = 1) ∨ (k = 2)) as [-> | ->] by lia; done.
  - apply (proj2 (ext4_bmap_bit_find_clr_spec [0xF7; 0xFE] 8 16 Hm ltac:(lia) ltac:(by vm_compute)) 8).
    split_and!; [lia..|done|]. intros k Hk. lia.
Defined.

Lemma alloc_in_goal_group_spec_witness :
  alloc_in_goal_group [0xFF; 0xFF; 0xBF] 3 24 = Some (Some 22, [0xFF; 0xFF; 0xFF]).
Proof.
  destruct (alloc_in_goal_group_spec [0xFF; 0xFF; 0xBF] 3 24) as [(j & m & E & _)|[E _]].
  - split; [repeat constructor; lia|done].
  - lia.
  - by vm_compute.
  - vm_compute in E. injection E as <- <-. by vm_compute.
  - by vm_compute in E.
Defined.
