(* ===== verification/ExtDev.v ===== *)
(** * Block devices under ext4

    Models the functions of [fs/ext4/lwext4/ext4_blockdev.c] that do not use the block cache:
    opening and closing, blocks read and written directly, and byte ranges, over the class
    [BlockIface] of the operations in [struct ext4_blockdev_iface].  [BlockIfaceLaws] is what a
    driver promises; the theorems hold for every driver that keeps it. *)

From S2P Require Export ExtTypes.

(** ** Data ([ext4_blockdev.h]) *)

(** The operations of [struct ext4_blockdev_iface].  [bread] is given what the buffer holds and
    answers what it holds then; [lock] and [unlock] may be NULL. *)
Class BlockIface (D : Type) := {
  bi_open : M D Z;
  bi_close : M D Z;
  bi_bread : list Z → Z → Z → M D (Z * list Z);
  bi_bwrite : list Z → Z → Z → M D Z;
  bi_lock : option (M D Z);
  bi_unlock : option (M D Z)
}.

(** ... its other fields; [ph_bbuf] is the buffer itself. *)
Record ext4_blockdev_iface := ExtIface {
  ph_bsize : Z;
  ph_bcnt : Z;
  ph_bbuf : list Z;
  ph_refctr : Z;
  bread_ctr : Z;
  bwrite_ctr : Z
}.

(** [struct ext4_blockdev]; [bdif] points to the interface, the cache is [bc] of [Bcache]. *)
Record ext4_blockdev := ExtBlockdev {
  bdif : ext4_blockdev_iface;
  part_offset : Z;
  part_size : Z;
  lg_bsize : Z;
  lg_bcnt : Z;
  cache_write_back : Z
}.

Definition set_bdif (i : ext4_blockdev_iface) (b : ext4_blockdev) : ext4_blockdev :=
  ExtBlockdev i (part_offset b) (part_size b) (lg_bsize b) (lg_bcnt b) (cache_write_back b).
Definition set_cache_write_back (v : Z) (b : ext4_blockdev) : ext4_blockdev :=
  ExtBlockdev (bdif b) (part_offset b) (part_size b) (lg_bsize b) (lg_bcnt b) v.
Definition set_bbuf (v : list Z) (i : ext4_blockdev_iface) : ext4_blockdev_iface :=
  ExtIface (ph_bsize i) (ph_bcnt i) v (ph_refctr i) (bread_ctr i) (bwrite_ctr i).
Definition set_refctr (v : Z) (i : ext4_blockdev_iface) : ext4_blockdev_iface :=
  ExtIface (ph_bsize i) (ph_bcnt i) (ph_bbuf i) v (bread_ctr i) (bwrite_ctr i).
Definition count_bread (i : ext4_blockdev_iface) : ext4_blockdev_iface :=
  ExtIface (ph_bsize i) (ph_bcnt i) (ph_bbuf i) (ph_refctr i) (u32 (bread_ctr i + 1)) (bwrite_ctr i).
Definition count_bwrite (i : ext4_blockdev_iface) : ext4_blockdev_iface :=
  ExtIface (ph_bsize i) (ph_bcnt i) (ph_bbuf i) (ph_refctr i) (bread_ctr i) (u32 (bwrite_ctr i + 1)).

(** A device with the driver behind it. *)
Record edev (D : Type) := EDev { ed_bd : ext4_blockdev; ed_drv : D }.
Arguments EDev {D} _ _.
Arguments ed_bd {D} _.
Arguments ed_drv {D} _.

Definition drv_l {D} : lens (edev D) D := Lens ed_drv (λ d s, EDev (ed_bd s) d).
#[export] Instance drv_l_lawful {D} : LawfulLens (@drv_l D).
Proof. split; by intros; destruct s. Qed.

Section blockdev.
Context {D : Type} `{BlockIface D}.

Definition upd_bd (f : ext4_blockdev → ext4_blockdev) : M (edev D) unit :=
  modify (λ s, EDev (f (ed_bd s)) (ed_drv s)).
Definition upd_if (f : ext4_blockdev_iface → ext4_blockdev_iface) : M (edev D) unit :=
  upd_bd (λ b, set_bdif (f (bdif b)) b).
Definition get_if : M (edev D) ext4_blockdev_iface := gets (λ s, bdif (ed_bd s)).

(** ** The interface, called *)

Definition ext4_bdif_lock : M (edev D) unit :=
  match bi_lock with
  | None => mret tt
  | Some lock => r ← zoom drv_l lock; massert (r =? EOK)
  end.
Definition ext4_bdif_unlock : M (edev D) unit :=
  match bi_unlock with
  | None => mret tt
  | Some unlock => r ← zoom drv_l unlock; massert (r =? EOK)
  end.

Definition ext4_bdif_bread (buf : list Z) (blk_id blk_cnt : Z) : M (edev D) (Z * list Z) :=
  ext4_bdif_lock;;
  r ← zoom drv_l (bi_bread buf blk_id blk_cnt);
  upd_if count_bread;;
  ext4_bdif_unlock;;
  mret r.
Definition ext4_bdif_bwrite (buf : list Z) (blk_id blk_cnt : Z) : M (edev D) Z :=
  ext4_bdif_lock;;
  r ← zoom drv_l (bi_bwrite buf blk_id blk_cnt);
  upd_if count_bwrite;;
  ext4_bdif_unlock;;
  mret r.

Definition ext4_block_init : M (edev D) Z :=
  i ← get_if;
  if ctrue (ph_refctr i) then upd_if (set_refctr (u32 (ph_refctr i + 1)));; mret EOK
  else
    rc ← zoom drv_l bi_open;
    if negb (rc =? EOK) then mret rc
    else upd_if (set_refctr 1);; mret EOK.

Definition ext4_block_set_lb_size (lb_bsize : Z) : M (edev D) unit :=
  b ← gets ed_bd;
  rem ← mmod lb_bsize (ph_bsize (bdif b));
  massert (negb (ctrue rem));;
  n ← mdiv (part_size b) lb_bsize;
  upd_bd (λ b, ExtBlockdev (bdif b) (part_offset b) (part_size b) lb_bsize n (cache_write_back b)).

Definition ext4_block_fini : M (edev D) Z :=
  i ← get_if;
  if negb (ctrue (ph_refctr i)) then mret EOK
  else
    upd_if (set_refctr (u32 (ph_refctr i - 1)));;
    if ctrue (u32 (ph_refctr i - 1)) then mret EOK
    else zoom drv_l bi_close.

(** ** Whole blocks *)

(** [(pba, pb_cnt)] of a logical block. *)
Definition physical (lba : Z) : M (edev D) (Z * Z) :=
  b ← gets ed_bd;
  pba ← mdiv (u64 (u64 (lba * lg_bsize b) + part_offset b)) (ph_bsize (bdif b));
  pb_cnt ← mdiv (lg_bsize b) (ph_bsize (bdif b));
  mret (pba, pb_cnt).

Definition ext4_blocks_get_direct (buf : list Z) (lba cnt : Z) : M (edev D) (Z * list Z) :=
  '(pba, pb_cnt) ← physical lba;
  ext4_bdif_bread buf pba (u32 (pb_cnt * cnt)).
Definition ext4_blocks_set_direct (buf : list Z) (lba cnt : Z) : M (edev D) Z :=
  '(pba, pb_cnt) ← physical lba;
  ext4_bdif_bwrite buf pba (u32 (pb_cnt * cnt)).

(** ** Byte ranges *)

(** [bread] and [bwrite] of one block through [ph_bbuf]. *)
Definition bbuf_read (block_idx : Z) : M (edev D) Z :=
  i ← get_if;
  '(r, v) ← ext4_bdif_bread (ph_bbuf i) block_idx 1;
  upd_if (set_bbuf v);;
  mret r.
Definition bbuf_write (block_idx : Z) : M (edev D) Z :=
  i ← get_if;
  ext4_bdif_bwrite (ph_bbuf i) block_idx 1.
(** [memcpy(ph_bbuf + at, p, n)]. *)
Definition bbuf_fill (at_ : Z) (p : list Z) (n : Z) : M (edev D) unit :=
  i ← get_if;
  d ← mlift (zslice p 0 n);
  v ← mlift (zsplice (ph_bbuf i) at_ d);
  upd_if (set_bbuf v).

(** The rest of the data. *)
Definition write_rest (p : list Z) (len block_idx : Z) : M (edev D) Z :=
  if ctrue len then
    r ← bbuf_read block_idx;
    if negb (r =? EOK) then mret r
    else bbuf_fill 0 p len;; bbuf_write block_idx
  else mret EOK.

(** Aligned data. *)
Definition write_aligned (p : list Z) (len block_idx : Z) : M (edev D) Z :=
  bs ← gets (λ s, ph_bsize (bdif (ed_bd s)));
  blen ← mdiv len bs;
  if ctrue blen then
    d ← mlift (zslice p 0 (bs * blen));
    r ← ext4_bdif_bwrite d block_idx blen;
    if negb (r =? EOK) then mret r
    else write_rest (drop (Z.to_nat (bs * blen)) p) (u32 (len - bs * blen)) (u64 (block_idx + blen))
  else write_rest p len block_idx.

Definition ext4_block_writebytes (off : Z) (buf : list Z) (len : Z) : M (edev D) Z :=
  b ← gets ed_bd;
  let bs := ph_bsize (bdif b) in
  if negb (ctrue (ph_refctr (bdif b))) then mret EIO
  else if part_size b <? u64 (off + len) then mret EINVAL
  else
    block_idx ← mdiv (u64 (off + part_offset b)) bs;
    let unalg := Z.land off (u32 (bs - 1)) in
    if ctrue unalg then
      let wlen := if len <? u32 (bs - unalg) then len else u32 (bs - unalg) in
      r ← bbuf_read block_idx;
      if negb (r =? EOK) then mret r
      else
        bbuf_fill unalg buf wlen;;
        r ← bbuf_write block_idx;
        if negb (r =? EOK) then mret r
        else write_aligned (drop (Z.to_nat wlen) buf) (u32 (len - wlen)) (u64 (block_idx + 1))
    else write_aligned buf len block_idx.

(** Reading: [buf] is the whole buffer, [at_] how far [p] is into it. *)
Definition bbuf_copy (buf : list Z) (at_ from n : Z) : M (edev D) (list Z) :=
  i ← get_if;
  d ← mlift (zslice (ph_bbuf i) from n);
  mlift (zsplice buf at_ d).

Definition read_rest (buf : list Z) (at_ len block_idx : Z) : M (edev D) (Z * list Z) :=
  if ctrue len then
    r ← bbuf_read block_idx;
    if negb (r =? EOK) then mret (r, buf)
    else buf ← bbuf_copy buf at_ 0 len; mret (r, buf)
  else mret (EOK, buf).

Definition read_aligned (buf : list Z) (at_ len block_idx : Z) : M (edev D) (Z * list Z) :=
  bs ← gets (λ s, ph_bsize (bdif (ed_bd s)));
  blen ← mdiv len bs;
  if ctrue blen then
    old ← mlift (zslice buf at_ (bs * blen));
    '(r, d) ← ext4_bdif_bread old block_idx blen;
    buf ← mlift (zsplice buf at_ d);
    if negb (r =? EOK) then mret (r, buf)
    else read_rest buf (at_ + bs * blen) (u32 (len - bs * blen)) (u64 (block_idx + blen))
  else read_rest buf at_ len block_idx.

Definition ext4_block_readbytes (off : Z) (buf : list Z) (len : Z) : M (edev D) (Z * list Z) :=
  b ← gets ed_bd;
  let bs := ph_bsize (bdif b) in
  if negb (ctrue (ph_refctr (bdif b))) then mret (EIO, buf)
  else if part_size b <? u64 (off + len) then mret (EINVAL, buf)
  else
    block_idx ← mdiv (u64 (off + part_offset b)) bs;
    let unalg := Z.land off (u32 (bs - 1)) in
    if ctrue unalg then
      let rlen := if len <? u32 (bs - unalg) then len else u32 (bs - unalg) in
      r ← bbuf_read block_idx;
      if negb (r =? EOK) then mret (r, buf)
      else
        buf ← bbuf_copy buf 0 unalg rlen;
        read_aligned buf rlen (u32 (len - rlen)) (u64 (block_idx + 1))
    else read_aligned buf 0 len block_idx.
End blockdev.

(** ** What a driver promises *)

Section promises.
Context {D : Type} (bs : Z) (medium : D → list Z) (ready : D → Prop).

(** A read of whole blocks inside the medium returns, changes nothing, and if it says so the
    buffer holds the blocks. *)
Definition bread_promise (bread : list Z → Z → Z → M D (Z * list Z)) : Prop :=
  ∀ d buf id cnt, ready d → 0 ≤ id → 0 ≤ cnt → (id + cnt) * bs ≤ zlen (medium d) →
    zlen buf = cnt * bs →
    ∃ r v d', bread buf id cnt d = Ret ((r, v), d') ∧ ready d' ∧ medium d' = medium d ∧
      zlen v = zlen buf ∧ (r = EOK → zslice (medium d) (id * bs) (cnt * bs) = Some v).

(** A write changes those blocks only, and if it says so to the data given. *)
Definition bwrite_promise (bwrite : list Z → Z → Z → M D Z) : Prop :=
  ∀ d data id cnt, ready d → 0 ≤ id → 0 ≤ cnt → (id + cnt) * bs ≤ zlen (medium d) →
    zlen data = cnt * bs →
    ∃ r w d', bwrite data id cnt d = Ret (r, d') ∧ ready d' ∧ zlen w = zlen data ∧
      zsplice (medium d) (id * bs) w = Some (medium d') ∧ (r = EOK → w = data).

Definition lock_promise (before after : D → Prop) (m : option (M D Z)) : Prop :=
  match m with
  | None => ∀ d, before d → after d
  | Some m => ∀ d, before d → ∃ d', m d = Ret (EOK, d') ∧ after d' ∧ medium d' = medium d
  end.
End promises.

(** [bi_ready true]: the lock is held. *)
Class BlockIfaceLaws (D : Type) `{BlockIface D} := {
  bi_bsize : Z;
  bi_medium : D → list Z;
  bi_ready : bool → D → Prop;
  bi_bsize_pow2 : ∃ k, 0 ≤ k ≤ 31 ∧ bi_bsize = 2 ^ k;
  bi_medium_whole : ∀ d, bi_ready false d →
    zlen (bi_medium d) mod bi_bsize = 0 ∧ zlen (bi_medium d) < 2 ^ 63;
  bi_lock_law : lock_promise bi_medium (bi_ready false) (bi_ready true) bi_lock;
  bi_unlock_law : lock_promise bi_medium (bi_ready true) (bi_ready false) bi_unlock;
  bi_bread_law : bread_promise bi_bsize bi_medium (bi_ready true) bi_bread;
  bi_bwrite_law : bwrite_promise bi_bsize bi_medium (bi_ready true) bi_bwrite
}.

Section laws.
Context {D : Type} `{BlockIfaceLaws D}.
Implicit Types s : edev D.

Definition med s : list Z := bi_medium (ed_drv s).

(** An open device whose partition lies on the medium, on a block boundary. *)
Record ed_ok s : Prop := EdOk {
  eo_ready : bi_ready false (ed_drv s);
  eo_bsize : ph_bsize (bdif (ed_bd s)) = bi_bsize;
  eo_bbuf : zlen (ph_bbuf (bdif (ed_bd s))) = bi_bsize;
  eo_open : ph_refctr (bdif (ed_bd s)) ≠ 0;
  eo_start : 0 ≤ part_offset (ed_bd s) ∧ part_offset (ed_bd s) mod bi_bsize = 0;
  eo_size : 0 ≤ part_size (ed_bd s) ∧ part_offset (ed_bd s) + part_size (ed_bd s) ≤ zlen (med s)
}.

(** The same device but for its buffer, its counters and its contents. *)
Record ed_like s s' : Prop := EdLike {
  el_ok : ed_ok s';
  el_med : zlen (med s') = zlen (med s);
  el_off : part_offset (ed_bd s') = part_offset (ed_bd s);
  el_size : part_size (ed_bd s') = part_size (ed_bd s);
  el_lg : lg_bsize (ed_bd s') = lg_bsize (ed_bd s) ∧ lg_bcnt (ed_bd s') = lg_bcnt (ed_bd s);
  el_wb : cache_write_back (ed_bd s') = cache_write_back (ed_bd s)
}.

Lemma ed_like_refl s : ed_ok s → ed_like s s.
Proof. by intros. Qed.
Lemma ed_like_trans s1 s2 s3 : ed_like s1 s2 → ed_like s2 s3 → ed_like s1 s3.
Proof. intros [] [? ? ? ? [] ?]. destruct el_lg0. split; [done|..]; try congruence. split; congruence. Qed.

Lemma bsize_pos : 0 < bi_bsize < 2 ^ 32.
Proof.
  destruct bi_bsize_pow2 as (k & Hk & ->). split; [apply Z.pow_pos_nonneg; lia|].
  apply Z.pow_lt_mono_r; lia.
Qed.

Lemma medium_room s : ed_ok s → zlen (med s) mod bi_bsize = 0 ∧ zlen (med s) < 2 ^ 63.
Proof. intros []. by apply bi_medium_whole. Qed.

(** [upd_if] with a function that keeps size and count. *)
Lemma upd_if_like s f :
  ed_ok s → (∀ i, ph_bsize (f i) = ph_bsize i ∧ ph_refctr (f i) = ph_refctr i) →
  zlen (ph_bbuf (f (bdif (ed_bd s)))) = bi_bsize →
  ∃ s', upd_if f s = Ret (tt, s') ∧ ed_like s s' ∧ ed_drv s' = ed_drv s ∧
    bdif (ed_bd s') = f (bdif (ed_bd s)).
Proof.
  intros [] Hf Hb. destruct (Hf (bdif (ed_bd s))) as [H1 H2]. eexists. split; [reflexivity|].
  split; [|done]. split; try done. split; try done; cbn; congruence.
Qed.

Lemma bdif_lock_run s :
  ed_ok s → ∃ d, ext4_bdif_lock s = Ret (tt, EDev (ed_bd s) d) ∧ bi_ready true d ∧
    bi_medium d = med s.
Proof.
  intros [Hr]. unfold ext4_bdif_lock. pose proof bi_lock_law as Hl. unfold lock_promise in Hl.
  destruct bi_lock as [m|].
  - destruct (Hl _ Hr) as (d & E & Hd & Em). exists d. split; [|done]. unfold zoom. munfold.
    cbn. rewrite E. done.
  - exists (ed_drv s). split; [|by auto]. by destruct s.
Qed.

Lemma bdif_unlock_run b d :
  bi_ready true d → ∃ d', ext4_bdif_unlock (EDev b d) = Ret (tt, EDev b d') ∧ bi_ready false d' ∧
    bi_medium d' = bi_medium d.
Proof.
  intros Hr. unfold ext4_bdif_unlock. pose proof bi_unlock_law as Hl. unfold lock_promise in Hl.
  destruct bi_unlock as [m|].
  - destruct (Hl _ Hr) as (d' & E & Hd & Em). exists d'. split; [|done]. unfold zoom. munfold.
    cbn. rewrite E. done.
  - exists d. split; [done|]. by auto.
Qed.

(** A driver that moved on, under the same device. *)
Lemma ed_like_drv s b d :
  ed_ok s → bi_ready false d → zlen (bi_medium d) = zlen (med s) →
  b = ed_bd s ∨ b = set_bdif (count_bread (bdif (ed_bd s))) (ed_bd s) ∨
    b = set_bdif (count_bwrite (bdif (ed_bd s))) (ed_bd s) →
  ed_like s (EDev b d).
Proof.
  intros [] Hd Hl Hb. destruct Hb as [->|[->| ->]]; (split; [split|..]; unfold med; cbn; try done;
    by rewrite Hl).
Qed.

Lemma bdif_bread_run s buf id cnt :
  ed_ok s → 0 ≤ id → 0 ≤ cnt → (id + cnt) * bi_bsize ≤ zlen (med s) → zlen buf = cnt * bi_bsize →
  ∃ r v s', ext4_bdif_bread buf id cnt s = Ret ((r, v), s') ∧ ed_like s s' ∧ med s' = med s ∧
    ph_bbuf (bdif (ed_bd s')) = ph_bbuf (bdif (ed_bd s)) ∧ zlen v = zlen buf ∧
    (r = EOK → zslice (med s) (id * bi_bsize) (cnt * bi_bsize) = Some v).
Proof.
  intros Hok Hid Hcnt Hr Hb. unfold ext4_bdif_bread.
  destruct (bdif_lock_run s Hok) as (d & E & Hd & Em). mstep E.
  destruct (bi_bread_law d buf id cnt Hd Hid Hcnt) as (r & v & d1 & E1 & Hd1 & Em1 & Hv & Hr1);
    [by rewrite Em|done|].
  exists r, v. unfold zoom. munfold. cbn. rewrite E1. cbn.
  destruct (bdif_unlock_run (set_bdif (count_bread (bdif (ed_bd s))) (ed_bd s)) d1 Hd1) as (d2 & E2 & Hd2 & Em2).
  assert (bi_medium d2 = med s) as Emed by (rewrite Em2, Em1; exact Em).
  rewrite E2. eexists. split; [reflexivity|]. rewrite Em in Hr1.
  split_and!; try done. apply ed_like_drv; try done; [by rewrite Emed|by right; left].
Qed.

Lemma bdif_bwrite_run s data id cnt :
  ed_ok s → 0 ≤ id → 0 ≤ cnt → (id + cnt) * bi_bsize ≤ zlen (med s) → zlen data = cnt * bi_bsize →
  ∃ r w s', ext4_bdif_bwrite data id cnt s = Ret (r, s') ∧ ed_like s s' ∧
    ph_bbuf (bdif (ed_bd s')) = ph_bbuf (bdif (ed_bd s)) ∧ zlen w = zlen data ∧
    zsplice (med s) (id * bi_bsize) w = Some (med s') ∧ (r = EOK → w = data).
Proof.
  intros Hok Hid Hcnt Hr Hb. unfold ext4_bdif_bwrite.
  destruct (bdif_lock_run s Hok) as (d & E & Hd & Em). mstep E.
  destruct (bi_bwrite_law d data id cnt Hd Hid Hcnt) as (r & w & d1 & E1 & Hd1 & Hw & Em1 & Hr1);
    [by rewrite Em|done|].
  exists r, w. unfold zoom. munfold. cbn. rewrite E1. cbn.
  destruct (bdif_unlock_run (set_bdif (count_bwrite (bdif (ed_bd s))) (ed_bd s)) d1 Hd1) as (d2 & E2 & Hd2 & Em2).
  rewrite E2. eexists. split; [reflexivity|]. rewrite Em in Em1.
  pose proof (zsplice_length _ _ _ _ Em1) as Hl.
  split_and!; try done; [|unfold med at 2; cbn; by rewrite Em2].
  apply ed_like_drv; try done; [by rewrite Em2|by right; right].
Qed.

(** ** Through the block buffer *)

Definition bbuf s : list Z := ph_bbuf (bdif (ed_bd s)).

Lemma bbuf_read_run s idx :
  ed_ok s → 0 ≤ idx → (idx + 1) * bi_bsize ≤ zlen (med s) →
  ∃ r s', bbuf_read idx s = Ret (r, s') ∧ ed_like s s' ∧ med s' = med s ∧
    (r = EOK → zslice (med s) (idx * bi_bsize) bi_bsize = Some (bbuf s')).
Proof.
  intros Hok Hi Hr. unfold bbuf_read, get_if. rewrite (mbind_Ret _ _ s _ s eq_refl).
  destruct (bdif_bread_run s (bbuf s) idx 1) as (r & v & s1 & E & Hl & Em & _ & Hv & Hr1);
    [done..|by destruct Hok; rewrite Z.mul_1_l|].
  mstep E. destruct (upd_if_like s1 (set_bbuf v)) as (s2 & E2 & Hl2 & Ed & Ei).
  { apply Hl. }
  { done. }
  { cbn. rewrite Hv. apply Hok. }
  mstep E2. assert (med s2 = med s) as Em2 by (unfold med in *; congruence).
  exists r, s2. split_and!; [done|by eapply ed_like_trans|done|].
  intros Hr0. rewrite Z.mul_1_l in Hr1. unfold bbuf. rewrite Ei. by apply Hr1.
Qed.

Lemma bbuf_fill_run s at_ p n :
  ed_ok s → 0 ≤ at_ → 0 ≤ n ≤ zlen p → at_ + n ≤ bi_bsize →
  ∃ s', bbuf_fill at_ p n s = Ret (tt, s') ∧ ed_like s s' ∧ med s' = med s ∧
    zsplice (bbuf s) at_ (take (Z.to_nat n) p) = Some (bbuf s').
Proof.
  intros Hok Ha Hn Hr. unfold bbuf_fill, get_if. rewrite (mbind_Ret _ _ s _ s eq_refl).
  pose proof Hok as [_ _ Hb _ _ _]. fold (bbuf s) in *.
  rewrite (zslice_Some p 0 n) by lia. rewrite drop_0. unfold mlift at 1.
  rewrite (mbind_Ret _ _ s _ s eq_refl).
  assert (zlen (take (Z.to_nat n) p) = n) as Hl by (unfold zlen in *; rewrite length_take; lia).
  destruct (zsplice_is_Some (bbuf s) at_ (take (Z.to_nat n) p)) as (v & Ev); [lia..|].
  rewrite Ev. unfold mlift. rewrite (mbind_Ret _ _ s _ s eq_refl).
  destruct (upd_if_like s (set_bbuf v)) as (s2 & E2 & Hl2 & Ed & Ei); [done|done|
    cbn; by rewrite (zsplice_length _ _ _ _ Ev)|].
  exists s2. split_and!; try done; [unfold med; congruence|]. unfold bbuf at 1. by rewrite Ei.
Qed.

(** Result [r]; if it is good [d] is at [a], and in any case nothing outside [lo, hi) changed. *)
Definition wrote s s' (r lo hi a : Z) (d : list Z) : Prop :=
  ed_like s s' ∧ touches lo hi (med s) (med s') ∧ (r = EOK → zsplice (med s) a d = Some (med s')).

Lemma wrote_none s r lo hi a :
  ed_ok s → 0 ≤ a ≤ zlen (med s) → wrote s s r lo hi a [].
Proof. intros Hok Ha. split_and!; [done|done|]. intros _. by apply zsplice_nil. Qed.

Lemma wrote_app s s1 s2 r r1 lo hi a d1 d2 :
  r1 = EOK → wrote s s1 r1 lo hi a d1 → wrote s1 s2 r lo hi (a + zlen d1) d2 →
  wrote s s2 r lo hi a (d1 ++ d2).
Proof.
  intros Hr (L1 & T1 & W1) (L2 & T2 & W2). split_and!.
  - by eapply ed_like_trans.
  - by eapply touches_trans.
  - intros E. eapply zsplice_app; [by apply W1|by apply W2].
Qed.

Lemma wrote_widen s s' r lo hi lo' hi' a d :
  lo' ≤ lo → hi ≤ hi' → wrote s s' r lo hi a d → wrote s s' r lo' hi' a d.
Proof.
  intros H1 H2 (L & [T1 T2] & W). split_and!; [done| |done]. split; [done|].
  intros i Hi. apply T2. lia.
Qed.

(** What came before changed nothing on the medium. *)
Lemma wrote_after s s1 s2 r lo hi a d :
  ed_like s s1 → med s1 = med s → wrote s1 s2 r lo hi a d → wrote s s2 r lo hi a d.
Proof.
  intros L Em (L1 & T1 & W1). rewrite Em in *. split_and!; [by eapply ed_like_trans|done|done].
Qed.

Lemma fill_write_run s idx at_ p n :
  ed_ok s → 0 ≤ idx → (idx + 1) * bi_bsize ≤ zlen (med s) → 0 ≤ at_ → 0 ≤ n ≤ zlen p →
  at_ + n ≤ bi_bsize → zslice (med s) (idx * bi_bsize) bi_bsize = Some (bbuf s) →
  ∃ r s1 s2, bbuf_fill at_ p n s = Ret (tt, s1) ∧ bbuf_write idx s1 = Ret (r, s2) ∧
    wrote s s2 r (idx * bi_bsize) ((idx + 1) * bi_bsize) (idx * bi_bsize + at_) (take (Z.to_nat n) p).
Proof.
  intros Hok Hi Hr Ha Hn Han Hs.
  destruct (bbuf_fill_run s at_ p n Hok Ha Hn Han) as (s1 & E1 & L1 & Em1 & Hf).
  unfold bbuf_write, get_if.
  assert (zlen (bbuf s1) = bi_bsize) as Hb1 by apply (eo_bbuf _ (el_ok _ _ L1)).
  destruct (bdif_bwrite_run s1 (bbuf s1) idx 1) as (r & w & s2 & E2 & L2 & _ & Hw & Hm & Hr2);
    [apply L1|done..|by rewrite Em1|lia|].
  exists r, s1, s2. split_and!; [done| |].
  { rewrite (mbind_Ret _ _ s1 _ s1 eq_refl). exact E2. }
  apply (wrote_after s s1); [done..|]. split_and!; [done| |].
  - apply (zsplice_touches _ _ _ _ _ _ Hm); [lia|]. rewrite Hw. lia.
  - intros E. rewrite (Hr2 E) in Hm. rewrite Em1 in Hm |- *. rewrite <- Hm. by eapply zsplice_within.
Qed.

(** ** Writing a range *)

Lemma block_below idx hi :
  hi mod bi_bsize = 0 → idx * bi_bsize < hi → (idx + 1) * bi_bsize ≤ hi.
Proof.
  intros Hm Hlt. pose proof bsize_pos. apply Z.div_exact in Hm; [|lia]. rewrite Hm in *.
  assert (idx < hi / bi_bsize) by nia. nia.
Qed.

Lemma wrote_failed s s' r lo hi a d :
  ed_like s s' → med s' = med s → r ≠ EOK → wrote s s' r lo hi a d.
Proof. intros L E Hr. split_and!; [done|by rewrite E|done]. Qed.

Lemma get_bsize s : ed_ok s → ph_bsize (bdif (ed_bd s)) = bi_bsize.
Proof. apply eo_bsize. Qed.

Lemma write_rest_run s p len idx hi :
  ed_ok s → 0 ≤ len < bi_bsize → len ≤ zlen p → 0 ≤ idx → idx * bi_bsize + len ≤ hi →
  hi mod bi_bsize = 0 → hi ≤ zlen (med s) →
  ∃ r s', write_rest p len idx s = Ret (r, s') ∧
    wrote s s' r (idx * bi_bsize) hi (idx * bi_bsize) (take (Z.to_nat len) p).
Proof.
  intros Hok Hl Hp Hi Hr Hm Hh. unfold write_rest, ctrue. pose proof bsize_pos.
  destruct (Z.eqb_spec len 0) as [->|Hne]; cbn [negb].
  { exists EOK, s. split; [done|]. apply wrote_none; [done|]. nia. }
  assert ((idx + 1) * bi_bsize ≤ hi) as Hroom by (apply block_below; [done|lia]).
  destruct (bbuf_read_run s idx) as (r & s1 & E & L & Em & Hs); [done|done|lia|]. mstep E.
  destruct (Z.eqb_spec r EOK) as [->|Hr0]; cbn [negb].
  2: { exists r, s1. split; [done|]. by apply wrote_failed. }
  destruct (fill_write_run s1 idx 0 p len) as (r & s2 & s3 & E2 & E3 & W); [apply L|done|
    rewrite Em; lia|lia|lia|lia|rewrite Em; by apply Hs|].
  mstep E2. exists r, s3. split; [done|]. apply (wrote_after s s1); [done..|].
  rewrite Z.add_0_r in W. eapply wrote_widen; [| |exact W]; lia.
Qed.

Lemma take_split (p : list Z) n m :
  0 ≤ n → 0 ≤ m → take (Z.to_nat (n + m)) p = take (Z.to_nat n) p ++ take (Z.to_nat m) (drop (Z.to_nat n) p).
Proof. intros. rewrite Z2Nat.inj_add by lia. symmetry. apply take_take_drop. Qed.

Lemma zlen_take (p : list Z) n : 0 ≤ n ≤ zlen p → zlen (take (Z.to_nat n) p) = n.
Proof. intros. unfold zlen in *. rewrite length_take. lia. Qed.
Lemma zlen_drop (p : list Z) n : 0 ≤ n ≤ zlen p → zlen (drop (Z.to_nat n) p) = zlen p - n.
Proof. intros. unfold zlen in *. rewrite length_drop. lia. Qed.

Lemma write_aligned_run s p len idx hi :
  ed_ok s → 0 ≤ len < 2 ^ 32 → len ≤ zlen p → 0 ≤ idx → idx * bi_bsize + len ≤ hi →
  hi mod bi_bsize = 0 → hi ≤ zlen (med s) →
  ∃ r s', write_aligned p len idx s = Ret (r, s') ∧
    wrote s s' r (idx * bi_bsize) hi (idx * bi_bsize) (take (Z.to_nat len) p).
Proof.
  intros Hok Hl Hp Hi Hr Hm Hh. unfold write_aligned. pose proof bsize_pos as Hbs.
  rewrite (mbind_Ret _ _ s _ s eq_refl), (get_bsize s Hok).
  rewrite (mbind_Ret _ _ s _ s (mdiv_run len bi_bsize s (proj1 Hbs))).
  pose proof (medium_room s Hok) as [_ Hmed].
  set (q := len / bi_bsize). assert (bi_bsize ≠ 0) as Hb0 by lia.
  pose proof (Z.div_mod len bi_bsize Hb0) as Hdm. fold q in Hdm.
  pose proof (Z.mod_pos_bound len bi_bsize (proj1 Hbs)) as Hmod.
  assert (0 ≤ q) as Hq by (apply Z.div_pos; lia). unfold ctrue.
  destruct (Z.eqb_spec q 0) as [E0|Hq0]; cbn [negb].
  { apply write_rest_run; try done. rewrite E0 in Hdm. lia. }
  assert (bi_bsize * q ≤ len ∧ 0 ≤ bi_bsize * q) as [Hbq Hbq0] by nia.
  rewrite (zslice_Some p 0) by lia. rewrite drop_0. unfold mlift. rewrite (mbind_Ret _ _ s _ s eq_refl).
  set (n := bi_bsize * q) in *.
  assert (zlen (take (Z.to_nat n) p) = n) as Hz by (apply zlen_take; lia).
  destruct (bdif_bwrite_run s (take (Z.to_nat n) p) idx q) as (r & w & s1 & E & L & _ & Hw & Hs & Hr1);
    [done|done|done|nia|lia|].
  mstep E.
  assert (wrote s s1 r (idx * bi_bsize) hi (idx * bi_bsize) (take (Z.to_nat n) p)) as W1.
  { split_and!; [done| |intros Er; by rewrite <- (Hr1 Er)].
    apply (zsplice_touches _ _ _ _ _ _ Hs); [lia|]. rewrite Hw, Hz. lia. }
  destruct (Z.eqb_spec r EOK) as [Er|Er]; cbn [negb].
  2: { exists r, s1. split; [done|]. destruct W1 as (? & ? & _). by split_and!. }
  rewrite u32_small, u64_small by (unfold n in *; nia).
  destruct (write_rest_run s1 (drop (Z.to_nat n) p) (len - n) (idx + q) hi) as (r2 & s2 & E2 & W2);
    [apply L|lia|rewrite zlen_drop by lia; lia|lia|nia|done|by rewrite (el_med _ _ L)|].
  exists r2, s2. split; [done|]. replace len with (n + (len - n)) by lia.
  rewrite take_split by lia.
  apply (wrote_app s s1 s2 r2 r); [done|done|]. rewrite Hz.
  replace (idx * bi_bsize + n) with ((idx + q) * bi_bsize) by (unfold n; lia).
  eapply wrote_widen; [| |exact W2]; nia.
Qed.

(** Where a range starts, in blocks, and where its last block ends. *)
Definition first_block s off : Z := (part_offset (ed_bd s) + off) / bi_bsize.
Definition round_up (a : Z) : Z := (a + bi_bsize - 1) / bi_bsize * bi_bsize.

Lemma round_up_spec a : 0 ≤ a → a ≤ round_up a < a + bi_bsize ∧ round_up a mod bi_bsize = 0.
Proof.
  intros Ha. pose proof bsize_pos as Hbs. unfold round_up. rewrite Z.mod_mul by lia.
  pose proof (Z.mod_pos_bound (a + bi_bsize - 1) bi_bsize (proj1 Hbs)).
  assert (bi_bsize ≠ 0) as Hb0 by lia. pose proof (Z.div_mod (a + bi_bsize - 1) bi_bsize Hb0). lia.
Qed.

Lemma round_up_room s a :
  ed_ok s → 0 ≤ a ≤ zlen (med s) → round_up a ≤ zlen (med s).
Proof.
  intros Hok Ha. destruct (medium_room s Hok) as [Hw _]. pose proof bsize_pos.
  assert (bi_bsize ≠ 0) as Hb0 by lia. apply (Z.div_exact _ _ Hb0) in Hw.
  destruct (round_up_spec a) as [Hr Hm]; [lia|]. apply (Z.div_exact _ _ Hb0) in Hm.
  set (q1 := zlen (med s) / bi_bsize) in *. set (q2 := round_up a / bi_bsize) in *.
  assert (q2 < q1 + 1) by nia. nia.
Qed.

(** The first numbers both functions compute. *)
Lemma byte_range_split s off len :
  ed_ok s → 0 ≤ off → 0 ≤ len < 2 ^ 32 → off + len ≤ part_size (ed_bd s) →
  let a := part_offset (ed_bd s) + off in
  (part_size (ed_bd s) <? u64 (off + len)) = false ∧
  u64 (off + part_offset (ed_bd s)) / bi_bsize = first_block s off ∧
  Z.land off (u32 (bi_bsize - 1)) = off mod bi_bsize ∧ 0 ≤ off mod bi_bsize < bi_bsize ∧
  a = first_block s off * bi_bsize + off mod bi_bsize ∧ 0 ≤ first_block s off ∧
  first_block s off + 1 < 2 ^ 64 ∧
  round_up (a + len) mod bi_bsize = 0 ∧ a + len ≤ round_up (a + len) ≤ zlen (med s) ∧
  (off mod bi_bsize ≠ 0 → (first_block s off + 1) * bi_bsize ≤ round_up (a + len)).
Proof.
  intros Hok Ho Hl Hr a. pose proof (medium_room s Hok) as [_ Hm]. pose proof bsize_pos as Hbs.
  destruct Hok as [Hrd Hb Hbb Hop [Hp0 Hpm] [Hs0 Hs1]] eqn:Heq. clear Heq.
  assert (bi_bsize ≠ 0) as Hb0 by lia.
  assert (a = first_block s off * bi_bsize + off mod bi_bsize) as Ea.
  { unfold first_block, a. pose proof (Z.div_mod (part_offset (ed_bd s) + off) bi_bsize Hb0) as E.
    rewrite Z.add_mod, Hpm, Z.add_0_l, Z.mod_mod in E by done. lia. }
  pose proof (Z.mod_pos_bound off bi_bsize (proj1 Hbs)) as Hmod.
  assert (0 ≤ first_block s off) as Hf0 by (apply Z.div_pos; unfold a in *; lia).
  assert (first_block s off ≤ a) as Hfa
    by (unfold first_block; fold a; apply Z.div_le_upper_bound; [lia|clear - Hbs Ho Hp0; unfold a; nia]).
  assert (0 ≤ a + len ≤ zlen (med s)) as Hal by (unfold a; lia).
  destruct (round_up_spec (a + len)) as [Hu Hum]; [lia|].
  pose proof (round_up_room s (a + len) Hok Hal) as Hur.
  split_and!; try done; try lia.
  - apply Z.ltb_ge. rewrite u64_small; lia.
  - rewrite u64_small by (unfold a in *; lia). unfold first_block. f_equal. lia.
  - destruct bi_bsize_pow2 as (k & Hk & Ek). rewrite Ek. apply land_mask_pow2. lia.
  - intros Hne. apply block_below; [done|lia].
Qed.

(** A write of nothing can be put anywhere. *)
Lemma wrote_nothing s s' r lo hi a b :
  0 ≤ b ≤ zlen (med s) → wrote s s' r lo hi a [] → wrote s s' r lo hi b [].
Proof.
  intros Hb (L & T & W). split_and!; [done..|]. intros Er. specialize (W Er).
  apply zsplice_char in W as (Ha & _ & Lz & Iz). rewrite zsplice_nil by done. f_equal.
  apply list_eq. intros i. rewrite Iz, decide_False; [done|]. change (zlen (A:=Z) []) with 0. lia.
Qed.

(** The first block, when the range does not start on its boundary. *)
Lemma write_head_run s buf len idx u hi :
  ed_ok s → 0 ≤ len < 2 ^ 32 → len ≤ zlen buf → 0 ≤ idx → idx + 1 < 2 ^ 64 → 0 < u < bi_bsize →
  idx * bi_bsize + u + len ≤ hi → (idx + 1) * bi_bsize ≤ hi → hi mod bi_bsize = 0 → hi ≤ zlen (med s) →
  let wlen := if len <? u32 (bi_bsize - u) then len else u32 (bi_bsize - u) in
  ∃ r s', (r ← bbuf_read idx;
     if negb (r =? EOK) then mret r
     else
       bbuf_fill u buf wlen;;
       r ← bbuf_write idx;
       if negb (r =? EOK) then mret r
       else write_aligned (drop (Z.to_nat wlen) buf) (u32 (len - wlen)) (u64 (idx + 1))) s = Ret (r, s') ∧
    wrote s s' r (idx * bi_bsize) hi (idx * bi_bsize + u) (take (Z.to_nat len) buf).
Proof.
  intros Hok Hl Hbuf Hi Hi2 Hu Hr Hun Hum Hhi. pose proof bsize_pos as Hbs. cbv zeta.
  rewrite (u32_small (bi_bsize - u)) by lia.
  set (wlen := if len <? bi_bsize - u then len else bi_bsize - u).
  assert (0 ≤ wlen ≤ len ∧ u + wlen ≤ bi_bsize ∧ (wlen = len ∨ u + wlen = bi_bsize)) as (Hw1 & Hw2 & Hw3)
    by (unfold wlen; destruct (Z.ltb_spec len (bi_bsize - u)); lia).
  destruct (bbuf_read_run s idx) as (r & s1 & E & L & Em & Hs); [done|done|lia|]. mstep E.
  destruct (Z.eqb_spec r EOK) as [->|Hr0]; cbn [negb].
  2: { exists r, s1. split; [done|]. by apply wrote_failed. }
  destruct (fill_write_run s1 idx u buf wlen) as (r & s2 & s3 & F1 & F2 & W); [apply L|done|
    rewrite Em; lia|lia|lia|lia|rewrite Em; by apply Hs|].
  mstep F1. mstep F2. apply (wrote_after s) in W; [|done..].
  apply (wrote_widen _ _ _ _ _ (idx * bi_bsize) hi) in W; [|lia..].
  destruct (Z.eqb_spec r EOK) as [Er|Er]; cbn [negb].
  2: { exists r, s3. split; [done|]. destruct W as (? & ? & _). by split_and!. }
  rewrite u32_small, u64_small by lia.
  destruct (write_aligned_run s3 (drop (Z.to_nat wlen) buf) (len - wlen) (idx + 1) hi)
    as (r2 & s4 & E4 & W4); [apply W|lia|rewrite zlen_drop by lia; lia|lia|lia|done|
    rewrite (el_med _ _ (proj1 W)); lia|].
  exists r2, s4. split; [done|]. replace (take (Z.to_nat len) buf) with (take (Z.to_nat (wlen + (len - wlen))) buf) by (do 2 f_equal; lia).
  rewrite take_split by lia. apply (wrote_app s s3 s4 r2 r); [done|done|]. rewrite zlen_take by lia.
  apply (wrote_widen _ _ _ _ _ (idx * bi_bsize) hi) in W4; [|lia..].
  destruct Hw3 as [Hw3|Hw3].
  - rewrite Hw3, Z.sub_diag in *. apply wrote_nothing with ((idx + 1) * bi_bsize); [|done].
    rewrite (el_med _ _ (proj1 W)). lia.
  - replace (idx * bi_bsize + u + wlen) with ((idx + 1) * bi_bsize) by lia. done.
Qed.

Lemma writebytes_run s off buf len :
  ed_ok s → 0 ≤ off → 0 ≤ len < 2 ^ 32 → len ≤ zlen buf → off + len ≤ part_size (ed_bd s) →
  ∃ r s', ext4_block_writebytes off buf len s = Ret (r, s') ∧
    let a := part_offset (ed_bd s) + off in
    wrote s s' r (first_block s off * bi_bsize) (round_up (a + len)) a (take (Z.to_nat len) buf).
Proof.
  intros Hok Ho Hl Hbuf Hr.
  destruct (byte_range_split s off len Hok Ho Hl Hr) as (E1 & E2 & E3 & Hmod & Ea & Hf & Hf2 & Hum & Hur & Hun).
  unfold ext4_block_writebytes. rewrite (mbind_Ret _ _ s _ s eq_refl), (get_bsize s Hok).
  pose proof bsize_pos as Hbs. unfold ctrue at 1. rewrite (proj2 (Z.eqb_neq _ _) (eo_open s Hok)). cbn [negb].
  rewrite E1, (mbind_Ret _ _ s _ s (mdiv_run _ bi_bsize s (proj1 Hbs))), E2, E3. unfold ctrue.
  cbv zeta. set (idx := first_block s off) in *. set (u := off mod bi_bsize) in *.
  set (a := part_offset (ed_bd s) + off) in *.
  destruct (Z.eqb_spec u 0) as [Eu|Hu]; cbn [negb].
  - replace a with (idx * bi_bsize) in * by lia. apply write_aligned_run; try done; lia.
  - rewrite Ea. apply write_head_run; try done; try lia; rewrite <- ?Ea; try lia.
Qed.

(** C27: Bytes written are there and nothing else is lost, wherever the range starts and ends:
    for a range inside the partition [ext4_block_writebytes] returns, and when it reports
    success the medium is what it was with exactly the bytes given at their place, although it
    writes whole blocks; after an error nothing outside the blocks of the range changed. *)
Theorem ext4_block_writebytes_spec s off buf len :
  ed_ok s → 0 ≤ off → 0 ≤ len < 2 ^ 32 → len ≤ zlen buf → off + len ≤ part_size (ed_bd s) →
  ∃ r s', ext4_block_writebytes off buf len s = Ret (r, s') ∧
    let a := part_offset (ed_bd s) + off in
    wrote s s' r (first_block s off * bi_bsize) (round_up (a + len)) a (take (Z.to_nat len) buf).
Proof.
  intros Hok Ho Hl Hb Hr. destruct (writebytes_run s off buf len Hok Ho Hl Hb Hr) as (r & s' & E & W).
  by exists r, s'.
Qed.

(** ** Reading a range *)

(** Result [r]; if it is good the bytes from [a] on the medium are at [p] in the buffer. *)
Definition got s s' (r a n : Z) (buf : list Z) (p : Z) (buf' : list Z) : Prop :=
  ed_like s s' ∧ med s' = med s ∧ touches p (p + n) buf buf' ∧
  (r = EOK → ∃ d, zslice (med s) a n = Some d ∧ zsplice buf p d = Some buf').

Lemma got_failed s s' r a n buf p : ed_like s s' → med s' = med s → r ≠ EOK → got s s' r a n buf p buf.
Proof. intros. by split_and!. Qed.

Lemma got_none s a buf p :
  ed_ok s → 0 ≤ a ≤ zlen (med s) → 0 ≤ p ≤ zlen buf → got s s EOK a 0 buf p buf.
Proof.
  intros. split_and!; try done. intros _. exists []. by rewrite zslice_nil, zsplice_nil.
Qed.

Lemma got_app s s1 s2 r r1 a n1 n2 buf p buf1 buf2 :
  r1 = EOK → 0 ≤ n1 → 0 ≤ n2 → got s s1 r1 a n1 buf p buf1 → got s1 s2 r (a + n1) n2 buf1 (p + n1) buf2 →
  got s s2 r a (n1 + n2) buf p buf2.
Proof.
  intros Hr H1 H2 (L1 & M1 & T1 & G1) (L2 & M2 & T2 & G2). rewrite M1 in *. split_and!; try done.
  - by eapply ed_like_trans.
  - split; [destruct T1, T2; lia|]. intros i Hi. destruct T1 as [_ T1], T2 as [_ T2].
    rewrite T2, T1; [done|lia..].
  - intros E. destruct (G1 Hr) as (d1 & S1 & B1), (G2 E) as (d2 & S2 & B2).
    exists (d1 ++ d2). split; [by apply zslice_app|]. eapply zsplice_app; [done|].
    apply zslice_range in S1 as (_ & _ & _ & ->). done.
Qed.

Lemma bbuf_copy_run s buf at_ from n :
  ed_ok s → 0 ≤ from → 0 ≤ n → from + n ≤ bi_bsize → 0 ≤ at_ → at_ + n ≤ zlen buf →
  ∃ d buf', zslice (bbuf s) from n = Some d ∧ zsplice buf at_ d = Some buf' ∧
    bbuf_copy buf at_ from n s = Ret (buf', s).
Proof.
  intros Hok Hf Hn Hfn Ha Han. pose proof (eo_bbuf _ Hok) as Hb. fold (bbuf s) in Hb.
  destruct (zslice_ok (bbuf s) from n) as (d & Ed & Hd); [lia..|].
  destruct (zsplice_is_Some buf at_ d) as (buf' & Eb); [lia..|].
  exists d, buf'. split_and!; [done..|]. unfold bbuf_copy, get_if.
  rewrite (mbind_Ret _ _ s _ s eq_refl). fold (bbuf s). rewrite Ed. unfold mlift.
  rewrite (mbind_Ret _ _ s _ s eq_refl), Eb. done.
Qed.

(** A piece of the block just read. *)
Lemma got_piece s s1 idx from n buf p d buf' :
  ed_like s s1 → med s1 = med s → zslice (med s) (idx * bi_bsize) bi_bsize = Some (bbuf s1) →
  zslice (bbuf s1) from n = Some d → zsplice buf p d = Some buf' →
  got s s1 EOK (idx * bi_bsize + from) n buf p buf'.
Proof.
  intros L M Hb Hd Hs. split_and!; try done.
  - apply (zsplice_touches _ _ _ _ _ _ Hs); [lia|]. apply zslice_range in Hd as (_ & _ & _ & ->). lia.
  - intros _. exists d. split; [by eapply zslice_within|done].
Qed.

Lemma read_rest_run s buf p len idx :
  ed_ok s → 0 ≤ len < bi_bsize → 0 ≤ p → p + len ≤ zlen buf → 0 ≤ idx →
  idx * bi_bsize + len ≤ zlen (med s) →
  ∃ r buf' s', read_rest buf p len idx s = Ret ((r, buf'), s') ∧
    got s s' r (idx * bi_bsize) len buf p buf'.
Proof.
  intros Hok Hl Hp Hpl Hi Hr. unfold read_rest, ctrue. pose proof bsize_pos.
  destruct (Z.eqb_spec len 0) as [->|Hne]; cbn [negb].
  { exists EOK, buf, s. split; [done|]. apply got_none; [done|nia|lia]. }
  destruct (medium_room s Hok) as [Hm _].
  assert ((idx + 1) * bi_bsize ≤ zlen (med s)) as Hroom by (apply block_below; [done|lia]).
  destruct (bbuf_read_run s idx) as (r & s1 & E & L & Em & Hs); [done..|]. mstep E.
  destruct (Z.eqb_spec r EOK) as [->|Hr0]; cbn [negb].
  2: { exists r, buf, s1. split; [done|]. by apply got_failed. }
  destruct (bbuf_copy_run s1 buf p 0 len) as (d & buf' & Ed & Eb & E2); [apply L|lia..|]. mstep E2.
  exists EOK, buf', s1. split; [done|]. rewrite <- (Z.add_0_r (idx * bi_bsize)).
  eapply got_piece; try done. by apply Hs.
Qed.

Lemma read_aligned_run s buf p len idx :
  ed_ok s → 0 ≤ len < 2 ^ 32 → 0 ≤ p → p + len ≤ zlen buf → 0 ≤ idx →
  idx * bi_bsize + len ≤ zlen (med s) →
  ∃ r buf' s', read_aligned buf p len idx s = Ret ((r, buf'), s') ∧
    got s s' r (idx * bi_bsize) len buf p buf'.
Proof.
  intros Hok Hl Hp Hpl Hi Hr. unfold read_aligned. pose proof bsize_pos as Hbs.
  rewrite (mbind_Ret _ _ s _ s eq_refl), (get_bsize s Hok).
  rewrite (mbind_Ret _ _ s _ s (mdiv_run len bi_bsize s (proj1 Hbs))).
  pose proof (medium_room s Hok) as [_ Hmed]. assert (bi_bsize ≠ 0) as Hb0 by lia.
  pose proof (Z.div_mod len bi_bsize Hb0) as Hdm. set (q := len / bi_bsize) in *.
  pose proof (Z.mod_pos_bound len bi_bsize (proj1 Hbs)) as Hmod.
  assert (0 ≤ q) as Hq by (apply Z.div_pos; lia). unfold ctrue.
  destruct (Z.eqb_spec q 0) as [E0|Hq0]; cbn [negb].
  { apply read_rest_run; try done. rewrite E0 in Hdm. lia. }
  assert (bi_bsize * q ≤ len ∧ 0 ≤ bi_bsize * q) as [Hbq Hbq0] by nia. set (n := bi_bsize * q) in *.
  destruct (zslice_ok buf p n) as (old & Eo & Ho); [lia..|]. rewrite Eo. unfold mlift at 1.
  rewrite (mbind_Ret _ _ s _ s eq_refl).
  destruct (bdif_bread_run s old idx q) as (r & d & s1 & E & L & Em & _ & Hd & Hr1);
    [done|done|done|nia|lia|].
  mstep E. destruct (zsplice_is_Some buf p d) as (buf1 & Eb); [lia..|]. rewrite Eb. unfold mlift.
  rewrite (mbind_Ret _ _ s1 _ s1 eq_refl).
  assert (got s s1 r (idx * bi_bsize) n buf p buf1) as G1.
  { split_and!; [done|done|apply (zsplice_touches _ _ _ _ _ _ Eb); lia|]. intros Er. exists d.
    split; [|done]. replace n with (q * bi_bsize) by (unfold n; lia). by apply Hr1. }
  destruct (Z.eqb_spec r EOK) as [Er|Er]; cbn [negb].
  2: { exists r, buf1, s1. split; [done|]. destruct G1 as (? & ? & T & _). split_and!; try done.
       split; [apply T|]. intros i Hi0. apply T. lia. }
  rewrite u32_small, u64_small by (unfold n in *; nia).
  destruct (read_rest_run s1 buf1 (p + n) (len - n) (idx + q)) as (r2 & buf2 & s2 & E2 & G2);
    [apply L|lia|lia|rewrite (zsplice_length _ _ _ _ Eb); lia|lia|rewrite Em; nia|].
  exists r2, buf2, s2. split; [done|]. replace len with (n + (len - n)) by lia.
  apply (got_app s s1 s2 r2 r _ n (len - n) buf p buf1); [done|lia..|done|].
  replace (idx * bi_bsize + n) with ((idx + q) * bi_bsize) by (unfold n; lia). done.
Qed.

Lemma read_head_run s buf len idx u :
  ed_ok s → 0 ≤ len < 2 ^ 32 → len ≤ zlen buf → 0 ≤ idx → idx + 1 < 2 ^ 64 → 0 < u < bi_bsize →
  idx * bi_bsize + u + len ≤ zlen (med s) →
  let rlen := if len <? u32 (bi_bsize - u) then len else u32 (bi_bsize - u) in
  ∃ r buf' s', (r ← bbuf_read idx;
     if negb (r =? EOK) then mret (r, buf)
     else
       buf ← bbuf_copy buf 0 u rlen;
       read_aligned buf rlen (u32 (len - rlen)) (u64 (idx + 1))) s = Ret ((r, buf'), s') ∧
    got s s' r (idx * bi_bsize + u) len buf 0 buf'.
Proof.
  intros Hok Hl Hbuf Hi Hi2 Hu Hr. pose proof bsize_pos as Hbs. cbv zeta.
  rewrite (u32_small (bi_bsize - u)) by lia.
  set (rlen := if len <? bi_bsize - u then len else bi_bsize - u).
  assert (0 ≤ rlen ≤ len ∧ u + rlen ≤ bi_bsize ∧ (rlen = len ∨ u + rlen = bi_bsize)) as (Hw1 & Hw2 & Hw3)
    by (unfold rlen; destruct (Z.ltb_spec len (bi_bsize - u)); lia).
  destruct (medium_room s Hok) as [Hm _]. pose proof (zlen_nonneg buf).
  destruct (decide (idx * bi_bsize < zlen (med s))) as [Hlt|]; [|lia].
  pose proof (block_below _ _ Hm Hlt) as Hroom.
  destruct (bbuf_read_run s idx) as (r & s1 & E & L & Em & Hs); [done..|]. mstep E.
  destruct (Z.eqb_spec r EOK) as [->|Hr0]; cbn [negb].
  2: { exists r, buf, s1. split; [done|]. by apply got_failed. }
  destruct (bbuf_copy_run s1 buf 0 u rlen) as (d & buf1 & Ed & Eb & E2); [apply L|lia..|]. mstep E2.
  assert (got s s1 EOK (idx * bi_bsize + u) rlen buf 0 buf1) as G1 by (eapply got_piece; eauto).
  pose proof (zsplice_length _ _ _ _ Eb) as Hb1. rewrite u32_small, u64_small by lia.
  replace len with (rlen + (len - rlen)) by lia. destruct Hw3 as [Hw3|Hw3].
  - destruct (read_aligned_run s1 buf1 rlen 0 (idx + 1)) as (r2 & buf2 & s2 & E3 & G2);
      [apply L|lia|lia|lia|lia|rewrite Em; lia|].
    exists r2, buf2, s2. rewrite <- Hw3, Z.sub_diag, Z.add_0_r, Z.sub_diag. split; [done|].
    rewrite <- (Z.add_0_r rlen). eapply (got_app s s1 s2 r2 EOK); [done|lia..|exact G1|].
    destruct G2 as (L2 & M2 & T2 & G2). split_and!; [done..|]. intros Er2.
    destruct (G2 Er2) as (e & Z1 & Z2). pose proof (zslice_range _ _ _ _ Z1) as (_ & _ & _ & He).
    destruct e; [|unfold zlen in He; cbn in He; lia]. exists []. split; [|done].
    apply zslice_nil. rewrite Em. lia.
  - destruct (read_aligned_run s1 buf1 rlen (len - rlen) (idx + 1)) as (r2 & buf2 & s2 & E3 & G2);
      [apply L|lia|lia|lia|lia|rewrite Em; lia|].
    exists r2, buf2, s2. replace (rlen + (len - rlen) - rlen) with (len - rlen) by lia. split; [done|].
    eapply (got_app s s1 s2 r2 EOK); [done|lia..|exact G1|].
    replace (idx * bi_bsize + u + rlen) with ((idx + 1) * bi_bsize) by lia. done.
Qed.

Lemma readbytes_run s off buf len :
  ed_ok s → 0 ≤ off → 0 ≤ len < 2 ^ 32 → len ≤ zlen buf → off + len ≤ part_size (ed_bd s) →
  ∃ r buf' s', ext4_block_readbytes off buf len s = Ret ((r, buf'), s') ∧
    got s s' r (part_offset (ed_bd s) + off) len buf 0 buf'.
Proof.
  intros Hok Ho Hl Hbuf Hr.
  destruct (byte_range_split s off len Hok Ho Hl Hr) as (E1 & E2 & E3 & Hmod & Ea & Hf & Hf2 & Hum & Hur & Hun).
  unfold ext4_block_readbytes. rewrite (mbind_Ret _ _ s _ s eq_refl), (get_bsize s Hok).
  pose proof bsize_pos as Hbs. unfold ctrue at 1. rewrite (proj2 (Z.eqb_neq _ _) (eo_open s Hok)). cbn [negb].
  rewrite E1, (mbind_Ret _ _ s _ s (mdiv_run _ bi_bsize s (proj1 Hbs))), E2, E3. unfold ctrue.
  cbv zeta. set (idx := first_block s off) in *. set (u := off mod bi_bsize) in *.
  set (a := part_offset (ed_bd s) + off) in *.
  destruct (Z.eqb_spec u 0) as [Eu|Hu]; cbn [negb].
  - replace a with (idx * bi_bsize) in * by lia. apply read_aligned_run; try done; lia.
  - rewrite Ea. apply read_head_run; try done; try lia.
Qed.

(** C28: What was written is read back: after [ext4_block_writebytes] has succeeded,
    [ext4_block_readbytes] of any range inside the one written, at any alignment, leaves the
    medium alone and, if it succeeds, puts exactly those bytes at the start of the buffer and
    leaves the rest of the buffer alone. *)
Theorem blockdev_bytes_roundtrip s off data len s1 off2 buf len2 :
  ed_ok s → 0 ≤ off → 0 ≤ len < 2 ^ 32 → len ≤ zlen data → off + len ≤ part_size (ed_bd s) →
  ext4_block_writebytes off data len s = Ret (EOK, s1) →
  off ≤ off2 → 0 ≤ len2 → off2 + len2 ≤ off + len → len2 ≤ zlen buf →
  ∃ r buf' s2, ext4_block_readbytes off2 buf len2 s1 = Ret ((r, buf'), s2) ∧ med s2 = med s1 ∧
    zlen buf' = zlen buf ∧ drop (Z.to_nat len2) buf' = drop (Z.to_nat len2) buf ∧
    (r = EOK → zslice data (off2 - off) len2 = Some (take (Z.to_nat len2) buf')).
Proof.
  intros Hok Ho Hl Hd Hr E Ho2 Hl2 Hr2 Hb.
  destruct (writebytes_run s off data len Hok Ho Hl Hd Hr) as (r & s' & E' & W).
  rewrite E in E'. injection E' as <- <-. destruct W as (L & _ & W). specialize (W eq_refl).
  destruct (readbytes_run s1 off2 buf len2) as (r & buf' & s2 & E2 & L2 & M2 & [Hbl T2] & G);
    [apply L|lia|lia|lia|rewrite (el_size _ _ L); lia|].
  exists r, buf', s2. split_and!; [done..| |].
  { apply list_eq. intros i. rewrite !lookup_drop. apply T2. lia. }
  intros Er. destruct (G Er) as (d & Z1 & Z2). rewrite (el_off _ _ L) in Z1.
  pose proof (zslice_zsplice _ _ _ _ W) as Z3. rewrite zlen_take in Z3 by lia.
  assert (zslice (take (Z.to_nat len) data) (off2 - off) len2 = Some d) as Z4.
  { destruct (zslice_ok (take (Z.to_nat len) data) (off2 - off) len2) as (d' & Z4 & _);
      [lia|lia|rewrite zlen_take by lia; lia|].
    pose proof (zslice_within _ _ _ _ _ _ _ Z3 Z4) as Z5. rewrite Z4, <- Z5, <- Z1. f_equal. lia. }
  pose proof (zslice_range _ _ _ _ Z4) as (_ & _ & _ & Hdl).
  pose proof (zslice_zsplice _ _ _ _ Z2) as Z6. rewrite Hdl, zslice_Some, drop_0 in Z6 by lia.
  injection Z6 as ->. apply zslice_char in Z4 as (H1 & H2 & H3 & H4 & H5).
  apply zslice_char. rewrite zlen_take in H3 by lia. split_and!; [lia..|].
  intros i Hi. rewrite H5 by done. apply lookup_take_lt. lia.
Qed.
End laws.

(** ** A driver of the simplest kind: a medium in memory *)

Definition RAM_BSIZE : Z := 4.
Record ram := Ram { ram_medium : list Z; ram_broken : bool }.

#[export] Instance ram_iface : BlockIface ram := {|
  bi_open := mret EOK;
  bi_close := mret EOK;
  bi_bread buf id cnt := λ d,
    match zslice (ram_medium d) (id * RAM_BSIZE) (cnt * RAM_BSIZE) with
    | Some v => Ret (if ram_broken d then (EIO, buf) else (EOK, v), d)
    | None => Ret ((EIO, buf), d)
    end;
  bi_bwrite buf id cnt := λ d,
    match zsplice (ram_medium d) (id * RAM_BSIZE) buf with
    | Some m => Ret (if ram_broken d then (EIO, d) else (EOK, Ram m false))
    | None => Ret (EIO, d)
    end;
  bi_lock := None;
  bi_unlock := None
|}.

#[export] Program Instance ram_laws : BlockIfaceLaws ram := {|
  bi_bsize := RAM_BSIZE;
  bi_medium := ram_medium;
  bi_ready _ d := zlen (ram_medium d) mod RAM_BSIZE = 0 ∧ zlen (ram_medium d) < 2 ^ 63
|}.
Next Obligation. by exists 2. Qed.
Next Obligation. done. Qed.
Next Obligation. intros d Hd. exact Hd. Qed.
Next Obligation. intros d Hd. exact Hd. Qed.
Next Obligation.
  intros d buf id cnt Hd Hi Hc Hr Hb. cbn.
  destruct (zslice_ok (ram_medium d) (id * RAM_BSIZE) (cnt * RAM_BSIZE)) as (v & Ev & Hv);
    [unfold RAM_BSIZE in *; lia..|].
  rewrite Ev. destruct (ram_broken d); do 3 eexists; split_and!; try done; lia.
Qed.
Next Obligation.
  intros d data id cnt Hd Hi Hc Hr Hb. cbn.
  destruct (zsplice_is_Some (ram_medium d) (id * RAM_BSIZE) data) as (m & Em);
    [unfold RAM_BSIZE in *; lia..|].
  rewrite Em. pose proof (zsplice_length _ _ _ _ Em) as Hl. destruct (ram_broken d).
  - destruct (zslice_ok (ram_medium d) (id * RAM_BSIZE) (zlen data)) as (w & Ew & Hw);
      [unfold RAM_BSIZE in *; lia..|].
    exists EIO, w, d. do 3 (split; [done|]). split; [|done]. by apply (zsplice_slice _ _ (zlen data)).
  - exists EOK, data, (Ram m false). split; [done|]. split; [cbn; by rewrite Hl|done].
Qed.

(** ** Examples *)

(** An open device of 16 bytes from the second block of 24 bytes of memory. *)
Definition demo_dev : edev ram :=
  EDev (ExtBlockdev (ExtIface RAM_BSIZE 6 [0; 0; 0; 0] 1 0 0) 4 16 8 2 0)
    (Ram (seqZ 0 24) false).

Lemma demo_dev_ok : ed_ok demo_dev.
Proof. split; try done; by vm_compute. Qed.

Lemma ext4_block_writebytes_spec_witness :
  ∃ s', ext4_block_writebytes 3 [100; 101; 102; 103; 104; 105; 106; 107] 7 demo_dev = Ret (EOK, s') ∧
    zsplice (seqZ 0 24) 7 [100; 101; 102; 103; 104; 105; 106] = Some (med s').
Proof.
  destruct (ext4_block_writebytes_spec demo_dev 3 [100; 101; 102; 103; 104; 105; 106; 107] 7)
    as (r & s' & E & _ & _ & W).
  - apply demo_dev_ok.
  - lia.
  - lia.
  - vm_compute. congruence.
  - vm_compute. congruence.
  - assert (r = EOK) as -> by (vm_compute in E; injection E as <- _; reflexivity). exists s'. split; [exact E|].
    exact (W eq_refl).
Defined.

Lemma blockdev_bytes_roundtrip_witness :
  ∃ s1 s2 buf', ext4_block_writebytes 3 [100; 101; 102; 103; 104; 105; 106] 7 demo_dev = Ret (EOK, s1) ∧
    ext4_block_readbytes 4 [0; 0; 0; 0; 0; 0; 9] 5 s1 = Ret ((EOK, buf'), s2) ∧
    take 5 buf' = [101; 102; 103; 104; 105] ∧ drop 5 buf' = [0; 9].
Proof.
  pose (s1 := outcome_state (ext4_block_writebytes 3 [100; 101; 102; 103; 104; 105; 106] 7 demo_dev) demo_dev).
  assert (ext4_block_writebytes 3 [100; 101; 102; 103; 104; 105; 106] 7 demo_dev = Ret (EOK, s1)) as E1
    by (apply outcome_value; by vm_compute).
  destruct (blockdev_bytes_roundtrip demo_dev 3 [100; 101; 102; 103; 104; 105; 106] 7 s1 4
    [0; 0; 0; 0; 0; 0; 9] 5 demo_dev_ok) as (r & buf' & s2 & E2 & _ & _ & Hd & Hr);
    [lia|lia|by vm_compute|by vm_compute|exact E1|lia|lia|lia|by vm_compute|].
  exists s1, s2, buf'. assert (r = EOK) as -> by (vm_compute in E2; injection E2 as <- _ _; reflexivity).
  split; [exact E1|]. split; [exact E2|]. split; [|exact Hd].
  vm_compute in E2. injection E2 as <- _. by vm_compute.
Defined.
