(* ===== verification/Bcache.v ===== *)
(** * The block cache of ext4

    Models [fs/ext4/lwext4/ext4_bcache.c] with [include/fs/ext4/lwext4/ext4_bcache.h], and the
    functions of [ext4_blockdev.c] that use the cache.  A buffer is an object at its address,
    its data part of it; the red-black trees of [misc/tree.h] are the sequences of their nodes
    from left to right, the dirty list is the sequence of its nodes.  The cache runs over any
    driver of [ExtDev]; the callback [end_write] belongs to the journal and is a parameter. *)

From S2P Require Export ExtDev.

(** ** Data ([ext4_bcache.h]) *)

Definition BC_UPTODATE : Z := 0.
Definition BC_DIRTY : Z := 1.
Definition BC_FLUSH : Z := 2.
Definition BC_TMP : Z := 3.

Record ext4_buf := Buf {
  b_flags : Z;
  b_lba : Z;
  b_data : list Z;
  b_lru_id : Z;
  b_refctr : Z;
  b_on_dirty_list : bool;
  b_end_write : Z;
  b_end_write_arg : Z
}.

(** [struct ext4_block]; [data] is known by the buffer it belongs to. *)
Record ext4_block := Block { lb_id : Z; blk_buf : Z; blk_data : Z }.
Definition EXT4_BLOCK_ZERO : ext4_block := Block 0 0 0.

Record ext4_bcache := Bcache {
  bc_cnt : Z;
  itemsize : Z;
  lru_ctr : Z;
  ref_blocks : Z;
  max_ref_blocks : Z;
  dont_shake : bool;
  lba_root : list Z;
  lru_root : list Z;
  dirty_list : list Z
}.

(** The cache of a device, the buffers by address, and what [kalloc] will answer to the two
    requests for a new buffer: the contents of the data block, and the address of the buffer,
    0 when there is no memory. *)
Record cstate (D : Type) := CState {
  c_dev : edev D;
  c_bc : ext4_bcache;
  c_bufs : gmap Z ext4_buf;
  c_fresh : list (option (list Z) * Z)
}.
Arguments CState {D} _ _ _ _.
Arguments c_dev {D} _.
Arguments c_bc {D} _.
Arguments c_bufs {D} _.
Arguments c_fresh {D} _.

Definition set_flags (v : Z) (b : ext4_buf) : ext4_buf :=
  Buf v (b_lba b) (b_data b) (b_lru_id b) (b_refctr b) (b_on_dirty_list b) (b_end_write b) (b_end_write_arg b).
Definition set_data (v : list Z) (b : ext4_buf) : ext4_buf :=
  Buf (b_flags b) (b_lba b) v (b_lru_id b) (b_refctr b) (b_on_dirty_list b) (b_end_write b) (b_end_write_arg b).
Definition set_lru_id (v : Z) (b : ext4_buf) : ext4_buf :=
  Buf (b_flags b) (b_lba b) (b_data b) v (b_refctr b) (b_on_dirty_list b) (b_end_write b) (b_end_write_arg b).
Definition set_buf_refctr (v : Z) (b : ext4_buf) : ext4_buf :=
  Buf (b_flags b) (b_lba b) (b_data b) (b_lru_id b) v (b_on_dirty_list b) (b_end_write b) (b_end_write_arg b).
Definition set_on_dirty (v : bool) (b : ext4_buf) : ext4_buf :=
  Buf (b_flags b) (b_lba b) (b_data b) (b_lru_id b) (b_refctr b) v (b_end_write b) (b_end_write_arg b).
Definition clear_end_write (b : ext4_buf) : ext4_buf :=
  Buf (b_flags b) (b_lba b) (b_data b) (b_lru_id b) (b_refctr b) (b_on_dirty_list b) 0 0.

Definition ext4_bcache_set_flag (f : Z) (b : ext4_buf) : ext4_buf :=
  set_flags (Z.lor (b_flags b) (Z.shiftl 1 f)) b.
Definition ext4_bcache_clear_flag (f : Z) (b : ext4_buf) : ext4_buf :=
  set_flags (Z.land (b_flags b) (Z.lnot (Z.shiftl 1 f))) b.
Definition ext4_bcache_test_flag (b : ext4_buf) (f : Z) : bool :=
  ctrue (Z.shiftr (Z.land (b_flags b) (Z.shiftl 1 f)) f).
Definition ext4_bcache_set_dirty (b : ext4_buf) : ext4_buf :=
  ext4_bcache_set_flag BC_DIRTY (ext4_bcache_set_flag BC_UPTODATE b).
Definition ext4_bcache_clear_dirty (b : ext4_buf) : ext4_buf :=
  ext4_bcache_clear_flag BC_DIRTY (ext4_bcache_clear_flag BC_UPTODATE b).
Definition ext4_bcache_inc_ref (b : ext4_buf) : ext4_buf := set_buf_refctr (u32 (b_refctr b + 1)) b.
Definition ext4_bcache_dec_ref (b : ext4_buf) : ext4_buf := set_buf_refctr (u32 (b_refctr b - 1)) b.

Definition set_lru_ctr (v : Z) (c : ext4_bcache) : ext4_bcache :=
  Bcache (bc_cnt c) (itemsize c) v (ref_blocks c) (max_ref_blocks c) (dont_shake c)
    (lba_root c) (lru_root c) (dirty_list c).
Definition set_ref_blocks (v : Z) (c : ext4_bcache) : ext4_bcache :=
  Bcache (bc_cnt c) (itemsize c) (lru_ctr c) v (max_ref_blocks c) (dont_shake c)
    (lba_root c) (lru_root c) (dirty_list c).
Definition set_max_ref_blocks (v : Z) (c : ext4_bcache) : ext4_bcache :=
  Bcache (bc_cnt c) (itemsize c) (lru_ctr c) (ref_blocks c) v (dont_shake c)
    (lba_root c) (lru_root c) (dirty_list c).
Definition set_dont_shake (v : bool) (c : ext4_bcache) : ext4_bcache :=
  Bcache (bc_cnt c) (itemsize c) (lru_ctr c) (ref_blocks c) (max_ref_blocks c) v
    (lba_root c) (lru_root c) (dirty_list c).
Definition set_lba_root (v : list Z) (c : ext4_bcache) : ext4_bcache :=
  Bcache (bc_cnt c) (itemsize c) (lru_ctr c) (ref_blocks c) (max_ref_blocks c) (dont_shake c)
    v (lru_root c) (dirty_list c).
Definition set_lru_root (v : list Z) (c : ext4_bcache) : ext4_bcache :=
  Bcache (bc_cnt c) (itemsize c) (lru_ctr c) (ref_blocks c) (max_ref_blocks c) (dont_shake c)
    (lba_root c) v (dirty_list c).
Definition set_dirty_list (v : list Z) (c : ext4_bcache) : ext4_bcache :=
  Bcache (bc_cnt c) (itemsize c) (lru_ctr c) (ref_blocks c) (max_ref_blocks c) (dont_shake c)
    (lba_root c) (lru_root c) v.

(** ** Trees and lists of buffers *)

(** [RB_INSERT] puts a node at its place by the key, unless there is one with the same key. *)
Fixpoint rb_insert (key : Z → option Z) (x : Z) (l : list Z) : option (list Z) :=
  match l with
  | [] => Some [x]
  | y :: l' =>
      kx ← key x; ky ← key y;
      if kx <? ky then Some (x :: l)
      else if kx =? ky then Some l
      else l' ← rb_insert key x l'; Some (y :: l')
  end.
(** [RB_FIND]. *)
Fixpoint rb_find (key : Z → option Z) (k : Z) (l : list Z) : option (option Z) :=
  match l with
  | [] => Some None
  | y :: l => ky ← key y; if ky =? k then Some (Some y) else rb_find key k l
  end.
(** [RB_REMOVE] and [SLIST_REMOVE] follow the links of the node or run into it; a node that is
    not in the structure is a wild access. *)
Definition unlink (x : Z) (l : list Z) : option (list Z) :=
  if decide (x ∈ l) then Some (filter (λ y, y ≠ x) l) else None.

(** [end_write] of the journal: the callback, the buffer, the result and the argument. *)
Class EndWrite (D : Type) := call_end_write : Z → Z → Z → Z → M (cstate D) unit.

Section bcache.
Context {D : Type} `{BlockIface D} `{EndWrite D}.

Definition on_dev {A} (m : M (edev D) A) : M (cstate D) A := λ s,
  match m (c_dev s) with
  | Ret (a, d) => Ret (a, CState d (c_bc s) (c_bufs s) (c_fresh s))
  | Panic => Panic
  | Fault => Fault
  | Spin => Spin
  end.
Definition load_buf (a : Z) : M (cstate D) ext4_buf := mtry (λ s, c_bufs s !! a).
Definition upd_buf (a : Z) (f : ext4_buf → ext4_buf) : M (cstate D) unit :=
  b ← load_buf a; modify (λ s, CState (c_dev s) (c_bc s) (<[a := f b]> (c_bufs s)) (c_fresh s)).
Definition get_bc : M (cstate D) ext4_bcache := gets c_bc.
Definition upd_bc (f : ext4_bcache → ext4_bcache) : M (cstate D) unit :=
  modify (λ s, CState (c_dev s) (f (c_bc s)) (c_bufs s) (c_fresh s)).

Definition key_lba (bufs : gmap Z ext4_buf) (a : Z) : option Z := b_lba <$> bufs !! a.
Definition key_lru (bufs : gmap Z ext4_buf) (a : Z) : option Z := b_lru_id <$> bufs !! a.

Definition lba_insert (a : Z) : M (cstate D) unit :=
  l ← mtry (λ s, rb_insert (key_lba (c_bufs s)) a (lba_root (c_bc s))); upd_bc (set_lba_root l).
Definition lba_remove (a : Z) : M (cstate D) unit :=
  l ← mtry (λ s, unlink a (lba_root (c_bc s))); upd_bc (set_lba_root l).
Definition lru_insert (a : Z) : M (cstate D) unit :=
  l ← mtry (λ s, rb_insert (key_lru (c_bufs s)) a (lru_root (c_bc s))); upd_bc (set_lru_root l).
Definition lru_remove (a : Z) : M (cstate D) unit :=
  l ← mtry (λ s, unlink a (lru_root (c_bc s))); upd_bc (set_lru_root l).

Definition ext4_bcache_insert_dirty_node (a : Z) : M (cstate D) unit :=
  b ← load_buf a;
  mwhen (negb (b_on_dirty_list b))
    (upd_bc (λ c, set_dirty_list (a :: dirty_list c) c);; upd_buf a (set_on_dirty true)).
Definition ext4_bcache_remove_dirty_node (a : Z) : M (cstate D) unit :=
  b ← load_buf a;
  mwhen (b_on_dirty_list b)
    (l ← mtry (λ s, unlink a (dirty_list (c_bc s)));
     upd_bc (set_dirty_list l);; upd_buf a (set_on_dirty false)).

(** ** Writing a buffer back ([ext4_blockdev.c]) *)

Definition ended (a r : Z) : M (cstate D) unit :=
  b ← load_buf a;
  mwhen (ctrue (b_end_write b))
    (upd_bc (set_dont_shake true);;
     call_end_write (b_end_write b) a r (b_end_write_arg b);;
     upd_bc (set_dont_shake false)).

Definition ext4_block_flush_buf (a : Z) : M (cstate D) Z :=
  b ← load_buf a;
  if ext4_bcache_test_flag b BC_DIRTY && ext4_bcache_test_flag b BC_UPTODATE then
    r ← on_dev (ext4_blocks_set_direct (b_data b) (b_lba b) 1);
    if ctrue r then ended a r;; mret r
    else
      ext4_bcache_remove_dirty_node a;;
      upd_buf a (ext4_bcache_clear_flag BC_DIRTY);;
      ended a r;;
      mret EOK
  else mret EOK.

(** ** The cache ([ext4_bcache.c]) *)

Definition ext4_bcache_init_dynamic (cnt size : Z) : M (cstate D) Z :=
  massert (ctrue cnt && ctrue size);;
  upd_bc (λ _, Bcache cnt size 0 0 0 false [] [] []);;
  mret EOK.
Definition ext4_bcache_fini_dynamic : M (cstate D) Z :=
  upd_bc (λ _, Bcache 0 0 0 0 0 false [] [] []);; mret EOK.

Definition ext4_buf_alloc (lba : Z) : M (cstate D) Z := λ s,
  match c_fresh s with
  | [] => Ret (0, s)
  | (d, a) :: fr =>
      let s := CState (c_dev s) (c_bc s) (c_bufs s) fr in
      match d with
      | None => Ret (0, s)
      | Some d =>
          if a =? 0 then Ret (0, s)
          else Ret (a, CState (c_dev s) (c_bc s) (<[a := Buf 0 lba d 0 0 false 0 0]> (c_bufs s)) fr)
      end
  end.
Definition ext4_buf_free (a : Z) : M (cstate D) unit :=
  load_buf a;; modify (λ s, CState (c_dev s) (c_bc s) (delete a (c_bufs s)) (c_fresh s)).

Definition ext4_buf_lookup (lba : Z) : M (cstate D) Z :=
  r ← mtry (λ s, rb_find (key_lba (c_bufs s)) lba (lba_root (c_bc s)));
  mret (default 0 r).
Definition ext4_buf_lowest_lru : M (cstate D) Z := c ← get_bc; mret (default 0 (head (lru_root c))).

Definition ext4_bcache_drop_buf (a : Z) : M (cstate D) unit :=
  b ← load_buf a;
  mwhen (negb (ctrue (b_refctr b))) (lru_remove a);;
  lba_remove a;;
  mwhen (ext4_bcache_test_flag b BC_DIRTY) (ext4_bcache_remove_dirty_node a);;
  ext4_buf_free a;;
  upd_bc (λ c, set_ref_blocks (u32 (ref_blocks c - 1)) c).

Definition ext4_bcache_invalidate_buf (a : Z) : M (cstate D) unit :=
  upd_buf a clear_end_write;;
  b ← load_buf a;
  mwhen (ext4_bcache_test_flag b BC_DIRTY) (ext4_bcache_remove_dirty_node a);;
  upd_buf a ext4_bcache_clear_dirty.

(** From a node of the tree on, until a block number passes [end_]. *)
Fixpoint invalidate_loop (l : list Z) (end_ : Z) : M (cstate D) unit :=
  match l with
  | [] => mret tt
  | a :: l =>
      b ← load_buf a;
      if end_ <? b_lba b then mret tt
      else ext4_bcache_invalidate_buf a;; invalidate_loop l end_
  end.
Fixpoint from_node (a : Z) (l : list Z) : list Z :=
  match l with
  | [] => []
  | x :: l' => if x =? a then l else from_node a l'
  end.
Definition ext4_bcache_invalidate_lba (from cnt : Z) : M (cstate D) unit :=
  let end_ := u64 (from + cnt - 1) in
  tmp ← ext4_buf_lookup from;
  c ← get_bc;
  invalidate_loop (if ctrue tmp then from_node tmp (lba_root c) else []) end_.

(** The buffer, or 0, and what [*b] is afterwards. *)
Definition ext4_bcache_find_get (b : ext4_block) (lba : Z) : M (cstate D) (Z * ext4_block) :=
  a ← ext4_buf_lookup lba;
  if ctrue a then
    x ← load_buf a;
    mwhen (negb (ctrue (b_refctr x)))
      (upd_bc (λ c, set_lru_ctr (u32 (lru_ctr c + 1)) c);;
       c ← get_bc;
       upd_buf a (set_lru_id (lru_ctr c));;
       lru_remove a;;
       mwhen (ext4_bcache_test_flag x BC_DIRTY) (ext4_bcache_remove_dirty_node a));;
    upd_buf a ext4_bcache_inc_ref;;
    mret (a, Block lba a a)
  else mret (0, b).

(** The result, [*b] and [*is_new]. *)
Definition ext4_bcache_alloc (b : ext4_block) : M (cstate D) (Z * ext4_block * bool) :=
  '(a, b) ← ext4_bcache_find_get b (lb_id b);
  if ctrue a then mret (EOK, b, false)
  else
    a ← ext4_buf_alloc (lb_id b);
    if negb (ctrue a) then mret (ENOMEM, b, false)
    else
      lba_insert a;;
      upd_bc (λ c, set_ref_blocks (u32 (ref_blocks c + 1)) c);;
      upd_bc (λ c, if max_ref_blocks c <? ref_blocks c then set_max_ref_blocks (ref_blocks c) c else c);;
      upd_buf a ext4_bcache_inc_ref;;
      upd_bc (λ c, set_lru_ctr (u32 (lru_ctr c + 1)) c);;
      c ← get_bc;
      upd_buf a (set_lru_id (lru_ctr c));;
      mret (EOK, Block (lb_id b) a a, true).

Definition ext4_bcache_free (b : ext4_block) : M (cstate D) (Z * ext4_block) :=
  let a := blk_buf b in
  massert (ctrue (lb_id b));;
  massert (ctrue a);;
  x ← load_buf a;
  massert (ctrue (b_refctr x));;
  upd_buf a ext4_bcache_dec_ref;;
  x ← load_buf a;
  mwhen (negb (ctrue (b_refctr x)))
    (lru_insert a;;
     (if ext4_bcache_test_flag x BC_DIRTY && ext4_bcache_test_flag x BC_UPTODATE then
        wb ← gets (λ s, cache_write_back (ed_bd (c_dev s)));
        if ctrue wb && negb (ext4_bcache_test_flag x BC_FLUSH) && negb (ext4_bcache_test_flag x BC_TMP)
        then ext4_bcache_insert_dirty_node a
        else ext4_block_flush_buf a;; upd_buf a (ext4_bcache_clear_flag BC_FLUSH)
      else mret tt);;
     x ← load_buf a;
     mwhen (negb (ext4_bcache_test_flag x BC_UPTODATE) || ext4_bcache_test_flag x BC_TMP)
       (ext4_bcache_drop_buf a));;
  mret (EOK, Block 0 a 0).

Definition ext4_bcache_is_full : M (cstate D) bool := c ← get_bc; mret (bc_cnt c <=? ref_blocks c).

(** [RB_FOREACH_SAFE] over the tree of all buffers: the nodes are those of the start. *)
Fixpoint cleanup_loop (l : list Z) : M (cstate D) unit :=
  match l with
  | [] => mret tt
  | a :: l => ext4_block_flush_buf a;; ext4_bcache_drop_buf a;; cleanup_loop l
  end.
Definition ext4_bcache_cleanup : M (cstate D) unit := c ← get_bc; cleanup_loop (lba_root c).

(** ** Blocks through the cache ([ext4_blockdev.c]) *)

Definition ext4_block_flush_lba (lba : Z) : M (cstate D) Z :=
  '(a, b) ← ext4_bcache_find_get EXT4_BLOCK_ZERO lba;
  if ctrue a then
    r ← ext4_block_flush_buf a;
    ext4_bcache_free b;;
    mret r
  else mret EOK.

Fixpoint shake_loop (fuel : nat) : M (cstate D) Z :=
  c ← get_bc;
  full ← ext4_bcache_is_full;
  if negb (bool_decide (lru_root c = [])) && full then
    match fuel with
    | O => mspin
    | S fuel =>
        a ← ext4_buf_lowest_lru;
        massert (ctrue a);;
        b ← load_buf a;
        r ← (if ext4_bcache_test_flag b BC_DIRTY then ext4_block_flush_buf a else mret EOK);
        if negb (r =? EOK) then mret r
        else ext4_bcache_drop_buf a;; shake_loop fuel
    end
  else mret EOK.
(** A turn drops a buffer, so there are at most as many as buffers. *)
Definition ext4_block_cache_shake : M (cstate D) Z :=
  c ← get_bc;
  if dont_shake c then mret EOK
  else
    upd_bc (set_dont_shake true);;
    r ← shake_loop (length (lru_root c));
    upd_bc (set_dont_shake false);;
    mret r.

(** The result and [*b]. *)
Definition ext4_block_get_noread (b : ext4_block) (lba : Z) : M (cstate D) (Z * ext4_block) :=
  d ← gets (λ s, ed_bd (c_dev s));
  if negb (ctrue (ph_refctr (bdif d))) then mret (EIO, b)
  else if negb (lba <? lg_bcnt d) then mret (ENXIO, b)
  else
    let b := Block lba (blk_buf b) (blk_data b) in
    r ← ext4_block_cache_shake;
    if negb (r =? EOK) then mret (r, b)
    else
      '(r, b, _) ← ext4_bcache_alloc b;
      if negb (r =? EOK) then mret (r, b)
      else if negb (ctrue (blk_data b)) then mret (ENOMEM, b)
      else mret (EOK, b).

Definition ext4_block_get (b : ext4_block) (lba : Z) : M (cstate D) (Z * ext4_block) :=
  '(r, b) ← ext4_block_get_noread b lba;
  if negb (r =? EOK) then mret (r, b)
  else
    x ← load_buf (blk_buf b);
    if ext4_bcache_test_flag x BC_UPTODATE then mret (EOK, b)
    else
      '(r, d) ← on_dev (ext4_blocks_get_direct (b_data x) lba 1);
      upd_buf (blk_buf b) (set_data d);;
      if negb (r =? EOK) then
        '(_, b) ← ext4_bcache_free b;
        mret (r, Block 0 (blk_buf b) (blk_data b))
      else
        upd_buf (blk_buf b) (ext4_bcache_set_flag BC_UPTODATE);;
        mret (EOK, b).

Definition ext4_block_set (b : ext4_block) : M (cstate D) (Z * ext4_block) :=
  massert (ctrue (blk_buf b));;
  d ← gets (λ s, ed_bd (c_dev s));
  if negb (ctrue (ph_refctr (bdif d))) then mret (EIO, b) else ext4_bcache_free b.

Fixpoint flush_loop (fuel : nat) : M (cstate D) Z :=
  c ← get_bc;
  match dirty_list c with
  | [] => mret EOK
  | a :: _ =>
      match fuel with
      | O => mspin
      | S fuel =>
          massert (ctrue a);;
          r ← ext4_block_flush_buf a;
          if negb (r =? EOK) then mret r else flush_loop fuel
      end
  end.
Definition ext4_block_cache_flush : M (cstate D) Z :=
  c ← get_bc; flush_loop (length (dirty_list c)).

Definition ext4_block_cache_write_back (on_off : Z) : M (cstate D) Z :=
  on_dev (mwhen (ctrue on_off) (upd_bd (λ d, set_cache_write_back (u32 (cache_write_back d + 1)) d)));;
  on_dev (d ← gets ed_bd;
    mwhen (negb (ctrue on_off) && ctrue (cache_write_back d))
      (upd_bd (set_cache_write_back (u32 (cache_write_back d - 1)))));;
  d ← gets (λ s, ed_bd (c_dev s));
  if ctrue (cache_write_back d) then mret EOK else ext4_block_cache_flush.
End bcache.

(** ** Flags *)

Lemma test_flag_eq b f : 0 ≤ f → ext4_bcache_test_flag b f = Z.testbit (b_flags b) f.
Proof.
  intros Hf. unfold ext4_bcache_test_flag.
  assert (Z.shiftr (Z.land (b_flags b) (Z.shiftl 1 f)) f = Z.b2z (Z.testbit (b_flags b) f)) as ->.
  { apply Z.bits_inj'. intros i Hi. rewrite Z.shiftr_spec, Z.land_spec, Z.shiftl_1_l by done.
    rewrite Z.pow2_bits_eqb by done.
    destruct (Z.eqb_spec f (i + f)) as [E|E].
    - replace i with 0 by lia. rewrite Z.add_0_l, Z.b2z_bit0. apply andb_true_r.
    - rewrite andb_false_r. symmetry. destruct (Z.testbit _ f); [|apply Z.bits_0].
      change (Z.b2z true) with 1. apply (Z.testbit_false 1 i Hi).
      rewrite (Z.div_small 1); [done|]. split; [lia|]. apply Z.pow_gt_1; lia. }
  by destruct (Z.testbit _ f).
Qed.

Lemma set_flag_bit f b i : 0 ≤ f → 0 ≤ i →
  Z.testbit (b_flags (ext4_bcache_set_flag f b)) i = bool_decide (i = f) || Z.testbit (b_flags b) i.
Proof.
  intros Hf Hi. cbn. rewrite Z.lor_spec, Z.shiftl_1_l, Z.pow2_bits_eqb by done.
  rewrite orb_comm. f_equal. rewrite Z.eqb_sym. by destruct (Z.eqb_spec i f); case_bool_decide.
Qed.
Lemma clear_flag_bit f b i : 0 ≤ f → 0 ≤ i →
  Z.testbit (b_flags (ext4_bcache_clear_flag f b)) i = negb (bool_decide (i = f)) && Z.testbit (b_flags b) i.
Proof.
  intros Hf Hi. cbn. rewrite Z.land_spec, Z.lnot_spec, Z.shiftl_1_l, Z.pow2_bits_eqb by done.
  rewrite andb_comm. do 2 f_equal. rewrite Z.eqb_sym. by destruct (Z.eqb_spec i f); case_bool_decide.
Qed.

Definition uptodate (b : ext4_buf) : bool := Z.testbit (b_flags b) BC_UPTODATE.
Definition dirty (b : ext4_buf) : bool := Z.testbit (b_flags b) BC_DIRTY.
Definition tmp (b : ext4_buf) : bool := Z.testbit (b_flags b) BC_TMP.

(** ** Sorted sequences of nodes *)

Definition key_lt (key : Z → option Z) (x y : Z) : Prop :=
  match key x, key y with Some kx, Some ky => kx < ky | _, _ => False end.
Definition sorted_by (key : Z → option Z) (l : list Z) : Prop :=
  Sorted.StronglySorted (key_lt key) l.

Lemma sorted_by_ext key key' l :
  (∀ x, x ∈ l → key' x = key x) → sorted_by key l → sorted_by key' l.
Proof.
  unfold sorted_by. intros Hk. induction 1 as [|x l Hs IH Hf]; constructor.
  - apply IH. intros y Hy. apply Hk. by right.
  - rewrite Forall_forall in *. intros y Hy. unfold key_lt. rewrite !Hk; [by apply Hf|by right|by left].
Qed.

Lemma sorted_by_filter key l P `{!∀ x, Decision (P x)} : sorted_by key l → sorted_by key (filter P l).
Proof.
  unfold sorted_by. induction 1 as [|x l Hs IH Hf]; [constructor|]. rewrite filter_cons.
  case_decide; [|done]. constructor; [done|]. rewrite Forall_forall in *. intros y Hy.
  apply Hf. by apply list_elem_of_filter in Hy as [_ ?].
Qed.

Lemma sorted_by_NoDup key l : sorted_by key l → NoDup l.
Proof.
  unfold sorted_by. induction 1 as [|x l Hs IH Hf]; constructor; [|done].
  intros Hx. rewrite Forall_forall in Hf. specialize (Hf x Hx). unfold key_lt in Hf.
  destruct (key x); [lia|done].
Qed.

Lemma rb_insert_run key x kx l :
  sorted_by key l → key x = Some kx → (∀ y, y ∈ l → ∃ ky, key y = Some ky ∧ ky ≠ kx) →
  ∃ l', rb_insert key x l = Some l' ∧ sorted_by key l' ∧ l' ≡ₚ x :: l.
Proof.
  intros Hs Hx. induction Hs as [|y l Hs IH Hf]; intros Hk; cbn [rb_insert].
  { exists [x]. split_and!; [done| |done]. repeat constructor. }
  destruct (Hk y) as (ky & Ey & Hne); [by left|]. rewrite Hx, Ey. cbn [mbind option_bind].
  destruct (Z.ltb_spec kx ky) as [Hlt|Hge].
  - exists (x :: y :: l). split_and!; [done| |done]. repeat constructor; [done..| |].
    + unfold key_lt. by rewrite Hx, Ey.
    + rewrite Forall_forall in *. intros z Hz. specialize (Hf z Hz). unfold key_lt in *.
      rewrite Hx. rewrite Ey in Hf. destruct (key z); [lia|done].
  - rewrite (proj2 (Z.eqb_neq _ _)) by lia.
    destruct IH as (l' & El & Hs' & Hp); [intros z Hz; apply Hk; by right|].
    rewrite El. cbn [mbind option_bind]. exists (y :: l'). split_and!; [done| |].
    + constructor; [done|]. rewrite Forall_forall in *. intros z Hz. rewrite Hp in Hz.
      apply elem_of_cons in Hz as [->|Hz]; [|by apply Hf]. unfold key_lt. rewrite Hx, Ey. lia.
    + rewrite Hp. constructor.
Qed.

Lemma rb_find_run key k l :
  (∀ y, y ∈ l → is_Some (key y)) →
  (∃ a, rb_find key k l = Some (Some a) ∧ a ∈ l ∧ key a = Some k) ∨
  (rb_find key k l = Some None ∧ ∀ y, y ∈ l → key y ≠ Some k).
Proof.
  induction l as [|y l IH]; intros Hk; cbn [rb_find].
  { right. split; [done|]. intros y Hy. by apply elem_of_nil in Hy. }
  destruct (Hk y) as [ky Ey]; [by left|]. rewrite Ey. cbn [mbind option_bind].
  destruct (Z.eqb_spec ky k) as [->|Hne].
  { left. exists y. split_and!; [done|by left|done]. }
  destruct IH as [(a & E & Ha & Ea)|[E Hn]]; [intros z Hz; apply Hk; by right| |].
  - left. exists a. split_and!; [done|by right|done].
  - right. split; [done|]. intros z Hz. apply elem_of_cons in Hz as [->|Hz]; [|by apply Hn].
    rewrite Ey. congruence.
Qed.

Lemma unlink_run x l : x ∈ l → unlink x l = Some (filter (λ y, y ≠ x) l).
Proof. intros Hx. unfold unlink. by rewrite decide_True. Qed.

Lemma or_iff_both (P P' Q Q' : Prop) : (P ↔ P') → (Q ↔ Q') → (P ∨ Q) ↔ (P' ∨ Q').
Proof. tauto. Qed.

Lemma filter_out_length (a : Z) (l : list Z) :
  NoDup l → a ∈ l → length (filter (λ y, y ≠ a) l) = (length l - 1)%nat.
Proof.
  induction 1 as [|x l Hx Hn IH]; intros Ha; [by apply elem_of_nil in Ha|]. rewrite filter_cons. cbn [length].
  apply elem_of_cons in Ha as [->|Ha].
  - rewrite decide_False by tauto. rewrite filter_all; [lia|]. intros y Hy ->. done.
  - rewrite decide_True by (intros ->; done). cbn [length]. rewrite IH by done.
    destruct l; [by apply elem_of_nil in Ha|cbn; lia].
Qed.

(** ** The invariant *)

Section invariant.
Context {D : Type} `{HB : BlockIface D} `{HL : !BlockIfaceLaws D} `{HE : EndWrite D}.
Implicit Types (s : cstate D) (b : ext4_buf) (a : Z).

(** Geometry, and a block on the medium. *)
Definition bsz s : Z := lg_bsize (ed_bd (c_dev s)).
Definition blocks s : Z := lg_bcnt (ed_bd (c_dev s)).
Definition blk_pos s (lba : Z) : Z := part_offset (ed_bd (c_dev s)) + lba * bsz s.
Definition on_medium s (lba : Z) : option (list Z) := zslice (med (c_dev s)) (blk_pos s lba) (bsz s).

(** One buffer: what its flags say of its data, and the journal is not in use. *)
Record buf_ok s a b : Prop := BufOk {
  bo_addr : a ≠ 0;
  bo_len : zlen (b_data b) = bsz s;
  bo_lba : 0 ≤ b_lba b < blocks s;
  bo_journal : b_end_write b = 0 ∧ tmp b = false;
  bo_dirty : dirty b = true → uptodate b = true;
  bo_clean : uptodate b = true → dirty b = false → on_medium s (b_lba b) = Some (b_data b);
  bo_ref : 0 ≤ b_refctr b < 2 ^ 32;
  bo_lru : 0 ≤ b_lru_id b ≤ lru_ctr (c_bc s);
  bo_list : b_on_dirty_list b = bool_decide (a ∈ dirty_list (c_bc s));
  bo_listed : b_on_dirty_list b = true → b_refctr b = 0 ∧ dirty b = true
}.

Record geometry s : Prop := Geometry {
  ge_dev : ed_ok (c_dev s);
  ge_bsz : 0 < bsz s < 2 ^ 32 ∧ bsz s mod bi_bsize = 0;
  ge_blocks : (0 ≤ blocks s ∧ blocks s + 1 < 2 ^ 32) ∧ blocks s * bsz s ≤ part_size (ed_bd (c_dev s));
  ge_item : itemsize (c_bc s) = bsz s;
  ge_cnt : 0 < bc_cnt (c_bc s);
  ge_ctr : 0 ≤ lru_ctr (c_bc s) < 2 ^ 32
}.

Record cache_inv s : Prop := CacheInv {
  ci_geom : geometry s;
  ci_bufs : ∀ a b, c_bufs s !! a = Some b → buf_ok s a b;
  ci_lba : (∀ a, a ∈ lba_root (c_bc s) ↔ is_Some (c_bufs s !! a)) ∧
    sorted_by (key_lba (c_bufs s)) (lba_root (c_bc s));
  ci_lru : (∀ a, a ∈ lru_root (c_bc s) ↔ ∃ b, c_bufs s !! a = Some b ∧ b_refctr b = 0) ∧
    sorted_by (key_lru (c_bufs s)) (lru_root (c_bc s));
  ci_inj : ∀ a1 a2 b1 b2, c_bufs s !! a1 = Some b1 → c_bufs s !! a2 = Some b2 →
    b_lru_id b1 = b_lru_id b2 → a1 = a2;
  ci_list : (∀ a, a ∈ dirty_list (c_bc s) → is_Some (c_bufs s !! a)) ∧ NoDup (dirty_list (c_bc s));
  ci_count : ref_blocks (c_bc s) = zlen (lba_root (c_bc s))
}.

(** Different buffers hold different blocks. *)
Lemma one_buffer s a1 a2 b1 b2 :
  cache_inv s → c_bufs s !! a1 = Some b1 → c_bufs s !! a2 = Some b2 → b_lba b1 = b_lba b2 → a1 = a2.
Proof.
  intros Hi H1 H2 El. destruct (ci_lba s Hi) as [Hin Hs].
  assert (a1 ∈ lba_root (c_bc s)) as I1 by (apply Hin; eauto).
  assert (a2 ∈ lba_root (c_bc s)) as I2 by (apply Hin; eauto). clear Hin.
  induction Hs as [|x l Hs IH Hf]; [by apply elem_of_nil in I1|].
  rewrite Forall_forall in Hf. apply elem_of_cons in I1 as [->|I1], I2 as [->|I2]; [done| | |by apply IH].
  - specialize (Hf _ I2). unfold key_lt, key_lba in Hf. rewrite H1, H2 in Hf. cbn in Hf. lia.
  - specialize (Hf _ I1). unfold key_lt, key_lba in Hf. rewrite H1, H2 in Hf. cbn in Hf. lia.
Qed.

Definition lba_at (bufs : gmap Z ext4_buf) a : Z := default 0 (key_lba bufs a).

(** ... so they are fewer than the blocks. *)
Lemma buffers_bounded s : cache_inv s → zlen (lba_root (c_bc s)) ≤ blocks s.
Proof.
  intros Hi. destruct (ci_lba s Hi) as [Hin Hs].
  assert (zlen (lba_root (c_bc s)) = zlen (lba_at (c_bufs s) <$> lba_root (c_bc s))) as ->
    by (unfold zlen; by rewrite length_fmap).
  pose proof (ge_blocks s (ci_geom s Hi)) as [Hb _].
  assert (length (lba_at (c_bufs s) <$> lba_root (c_bc s)) ≤ length (seqZ 0 (blocks s)))%nat as Hle.
  { apply submseteq_length, NoDup_submseteq.
    - apply NoDup_fmap_2_strong; [|by eapply sorted_by_NoDup].
      intros x y Hx Hy E. apply Hin in Hx as [b1 H1], Hy as [b2 H2]. unfold lba_at, key_lba in E.
      rewrite H1, H2 in E. cbn in E. by eapply one_buffer.
    - intros k Hk. apply list_elem_of_fmap in Hk as (x & -> & Hx). apply Hin in Hx as [b Hx].
      unfold lba_at, key_lba. rewrite Hx. cbn. apply elem_of_seqZ.
      pose proof (bo_lba _ _ _ (ci_bufs s Hi x b Hx)). lia. }
  unfold zlen. rewrite length_seqZ in Hle. lia.
Qed.

(** ** What the blocks hold, seen through the cache *)

Definition reads s (lba : Z) (d : list Z) : Prop :=
  (∃ a b, c_bufs s !! a = Some b ∧ b_lba b = lba ∧ uptodate b = true ∧ b_data b = d) ∨
  ((∀ a b, c_bufs s !! a = Some b → b_lba b = lba → uptodate b = false) ∧ on_medium s lba = Some d).

Definition same_reads s s' : Prop :=
  blocks s' = blocks s ∧ ∀ lba d, 0 ≤ lba < blocks s → reads s lba d ↔ reads s' lba d.

Lemma same_reads_refl s : same_reads s s.
Proof. by split. Qed.
Lemma same_reads_trans s1 s2 s3 : same_reads s1 s2 → same_reads s2 s3 → same_reads s1 s3.
Proof.
  intros [B1 H1] [B2 H2]. split; [congruence|]. intros lba d Hl.
  rewrite (H1 lba d Hl). apply H2. by rewrite B1.
Qed.

(** A block holds one thing. *)
Lemma reads_fun s lba d d' : cache_inv s → reads s lba d → reads s lba d' → d = d'.
Proof.
  intros Hi [(a & b & Ha & El & Hu & <-)|[Hn Hm]] [(a' & b' & Ha' & El' & Hu' & <-)|[Hn' Hm']].
  - assert (a = a') as -> by (eapply one_buffer; eauto; congruence). by simplify_eq.
  - by rewrite (Hn' a b Ha El) in Hu.
  - by rewrite (Hn a' b' Ha' El') in Hu'.
  - congruence.
Qed.

Lemma reads_buffer s a b :
  c_bufs s !! a = Some b → uptodate b = true → reads s (b_lba b) (b_data b).
Proof. intros Ha Hu. left. by exists a, b. Qed.

(** Every block holds something. *)
Lemma on_medium_Some s lba :
  geometry s → 0 ≤ lba < blocks s → ∃ d, on_medium s lba = Some d ∧ zlen d = bsz s.
Proof.
  intros [Hd [Hb _] [_ Hs] _ _ _] Hl. apply zslice_ok; unfold blk_pos.
  - pose proof (eo_start _ Hd). nia.
  - lia.
  - pose proof (eo_size _ Hd). nia.
Qed.

(** What a buffer says of its block. *)
Definition cell s b : option (list Z) := if uptodate b then Some (b_data b) else on_medium s (b_lba b).

Lemma reads_cached s a b d :
  cache_inv s → c_bufs s !! a = Some b → reads s (b_lba b) d ↔ cell s b = Some d.
Proof.
  intros Hi Ha. unfold cell. split.
  - intros [(a' & b' & Ha' & El & Hu & <-)|[Hn Hm]].
    + assert (a' = a) as -> by (by eapply one_buffer). simplify_eq. by rewrite Hu.
    + by rewrite (Hn a b Ha eq_refl).
  - destruct (uptodate b) eqn:Hu; intros E.
    + left. exists a, b. by simplify_eq.
    + right. split; [|done]. intros a' b' Ha' El.
      assert (a' = a) as -> by (by eapply one_buffer). by simplify_eq.
Qed.

Lemma reads_uncached s lba d :
  (∀ a b, c_bufs s !! a = Some b → b_lba b ≠ lba) → reads s lba d ↔ on_medium s lba = Some d.
Proof.
  intros Hn. split.
  - intros [(a & b & Ha & El & _)|[_ Hm]]; [by destruct (Hn a b Ha)|done].
  - intros Hm. right. split; [|done]. intros a b Ha El. by destruct (Hn a b Ha).
Qed.

(** ** How a step keeps the invariant *)

Record same_geom s s' : Prop := SameGeom {
  sg_dev : ed_like (c_dev s) (c_dev s');
  sg_cnt : bc_cnt (c_bc s') = bc_cnt (c_bc s) ∧ itemsize (c_bc s') = itemsize (c_bc s);
  sg_ctr : lru_ctr (c_bc s) ≤ lru_ctr (c_bc s') < 2 ^ 32
}.

Lemma same_geom_pos s s' :
  same_geom s s' → bsz s' = bsz s ∧ blocks s' = blocks s ∧ ∀ lba, blk_pos s' lba = blk_pos s lba.
Proof.
  intros [[_ _ Ho _ [H1 H2] _] _ _]. unfold bsz, blocks, blk_pos, bsz. split_and!; [done..|].
  intros lba. by rewrite H1, Ho.
Qed.

Lemma geometry_keep s s' : geometry s → same_geom s s' → geometry s'.
Proof.
  intros [Hd Hb [Hn Hp] Hi Hc Hl] Hg. destruct (same_geom_pos s s' Hg) as (E1 & E2 & _).
  destruct Hg as [L [C1 C2] C3]. split; rewrite ?E1, ?E2, ?C1, ?C2; try done; [apply L| |lia].
  split; [done|]. by rewrite (el_size _ _ L).
Qed.

(** Only the block [x] of the medium may have changed. *)
Definition medium_but (x : Z) s s' : Prop :=
  ∀ lba, 0 ≤ lba < blocks s → lba ≠ x → on_medium s' lba = on_medium s lba.

Lemma buf_ok_keep s s' x a b :
  same_geom s s' → medium_but x s s' → b_lba b ≠ x →
  (a ∈ dirty_list (c_bc s') ↔ a ∈ dirty_list (c_bc s)) → buf_ok s a b → buf_ok s' a b.
Proof.
  intros Hg Hm Hx Hd [A1 A2 A3 A4 A5 A6 A7 A8 A9 A10].
  destruct (same_geom_pos s s' Hg) as (E1 & E2 & _). pose proof (sg_ctr _ _ Hg).
  split; rewrite ?E1, ?E2; try done; [|lia|].
  - intros. rewrite Hm by done. by apply A6.
  - rewrite A9. by apply bool_decide_ext.
Qed.

Lemma inv_change s s' a b b' :
  cache_inv s → c_bufs s !! a = Some b → c_bufs s' = <[a := b']> (c_bufs s) → b_lba b' = b_lba b →
  same_geom s s' → medium_but (b_lba b) s s' →
  lba_root (c_bc s') = lba_root (c_bc s) → ref_blocks (c_bc s') = ref_blocks (c_bc s) →
  (∀ x, x ≠ a → x ∈ lru_root (c_bc s') ↔ x ∈ lru_root (c_bc s)) →
  (a ∈ lru_root (c_bc s') ↔ b_refctr b' = 0) →
  sorted_by (key_lru (c_bufs s')) (lru_root (c_bc s')) →
  (∀ x, x ≠ a → x ∈ dirty_list (c_bc s') ↔ x ∈ dirty_list (c_bc s)) → NoDup (dirty_list (c_bc s')) →
  b_lru_id b' = b_lru_id b ∨ lru_ctr (c_bc s) < b_lru_id b' →
  buf_ok s' a b' → cache_inv s'.
Proof.
  intros Hi Ha Eb El Hg Hm Etr Ec Hlru Hla Hls Hdl Hdn Hid Hok. split.
  - eapply geometry_keep; [apply Hi|done].
  - intros x y Hx. rewrite Eb in Hx. apply lookup_insert_Some in Hx as [[<- <-]|[Hne Hx]]; [done|].
    eapply buf_ok_keep; [done|done| |by apply Hdl|by apply Hi].
    intros E. apply Hne. symmetry. by eapply one_buffer.
  - rewrite Etr, Eb. destruct (ci_lba s Hi) as [Hin Hs]. split.
    + intros x. rewrite Hin, lookup_insert_is_Some. destruct (decide (a = x)) as [->|]; [|naive_solver].
      split; [by left|]. eauto.
    + eapply sorted_by_ext; [|exact Hs]. intros x _. unfold key_lba.
      destruct (decide (x = a)) as [->|]; [rewrite lookup_insert_eq, Ha; cbn; by rewrite El|by rewrite lookup_insert_ne].
  - split; [|done]. intros x. rewrite Eb. destruct (decide (x = a)) as [->|Hne].
    + rewrite Hla, lookup_insert_eq. naive_solver.
    + rewrite Hlru, (proj1 (ci_lru s Hi)), lookup_insert_ne by done. done.
  - intros x y bx by_ Hx Hy E. rewrite Eb in Hx, Hy.
    apply lookup_insert_Some in Hx as [[<- <-]|[Hnx Hx]], Hy as [[<- <-]|[Hny Hy]]; [done| | |by eapply ci_inj].
    + pose proof (bo_lru _ _ _ (ci_bufs s Hi _ _ Hy)). destruct Hid as [Hid|?]; [|lia].
      eapply ci_inj; eauto. congruence.
    + pose proof (bo_lru _ _ _ (ci_bufs s Hi _ _ Hx)). destruct Hid as [Hid|?]; [|lia].
      eapply ci_inj; eauto. congruence.
  - split; [|done]. intros x Hx. rewrite Eb, lookup_insert_is_Some.
    destruct (decide (a = x)) as [->|Hne]; [by left|]. right. split; [done|].
    apply (ci_list s Hi). by apply Hdl.
  - rewrite Ec, Etr. apply Hi.
Qed.

(** The other blocks read the same. *)
Lemma reads_other s s' a b b' lba d :
  c_bufs s !! a = Some b → c_bufs s' = <[a := b']> (c_bufs s) → b_lba b' = b_lba b →
  medium_but (b_lba b) s s' → 0 ≤ lba < blocks s → lba ≠ b_lba b → reads s lba d ↔ reads s' lba d.
Proof.
  intros Ha Eb El Hm Hl Hne.
  unfold reads. rewrite Hm by done. rewrite Eb. apply or_iff_both; [|apply and_iff_compat_r].
  - split; intros (x & y & Hx & Hy); exists x, y.
    + rewrite lookup_insert_ne; [done|]. intros <-. destruct Hy. simplify_eq.
    + apply lookup_insert_Some in Hx as [[<- <-]|[_ Hx]]; [destruct Hy; congruence|done].
  - split; intros Hn x y Hx Hy.
    + apply lookup_insert_Some in Hx as [[<- <-]|[_ Hx]]; [congruence|by eapply Hn].
    + eapply Hn; [|done]. rewrite lookup_insert_ne; [done|]. intros <-. simplify_eq.
Qed.

Lemma reads_change s s' a b b' :
  cache_inv s → cache_inv s' → c_bufs s !! a = Some b → c_bufs s' = <[a := b']> (c_bufs s) →
  b_lba b' = b_lba b → same_geom s s' → medium_but (b_lba b) s s' → cell s' b' = cell s b →
  same_reads s s'.
Proof.
  intros Hi Hi' Ha Eb El Hg Hm Hc. destruct (same_geom_pos s s' Hg) as (_ & E2 & _).
  split; [done|]. intros lba d Hl.
  destruct (decide (lba = b_lba b)) as [->|Hne]; [|by eapply reads_other].
  rewrite (reads_cached s a b) by done. rewrite <- El.
  rewrite (reads_cached s' a b') by (done || by rewrite Eb, lookup_insert_eq). by rewrite Hc.
Qed.

(** A buffer that goes. *)
Lemma inv_delete s s' a b :
  cache_inv s → c_bufs s !! a = Some b → c_bufs s' = delete a (c_bufs s) →
  c_dev s' = c_dev s → bc_cnt (c_bc s') = bc_cnt (c_bc s) → itemsize (c_bc s') = itemsize (c_bc s) →
  lru_ctr (c_bc s') = lru_ctr (c_bc s) →
  lba_root (c_bc s') = filter (λ y, y ≠ a) (lba_root (c_bc s)) →
  lru_root (c_bc s') = filter (λ y, y ≠ a) (lru_root (c_bc s)) →
  dirty_list (c_bc s') = filter (λ y, y ≠ a) (dirty_list (c_bc s)) →
  ref_blocks (c_bc s') = u32 (ref_blocks (c_bc s) - 1) →
  cache_inv s' ∧ (cell s b = on_medium s (b_lba b) → same_reads s s').
Proof.
  intros Hi Ha Eb Ed C1 C2 C3 Etr Elru Edl Ec.
  assert (same_geom s s') as Hg.
  { split; [rewrite Ed; apply ed_like_refl, Hi|done|]. rewrite C3. pose proof (ge_ctr _ (ci_geom s Hi)). lia. }
  destruct (same_geom_pos s s' Hg) as (E1 & E2 & E3).
  assert (∀ lba, on_medium s' lba = on_medium s lba) as Em.
  { intros lba. unfold on_medium. by rewrite Ed, E1, E3. }
  destruct (ci_lba s Hi) as [Hin Hs], (ci_lru s Hi) as [Hin2 Hs2].
  assert (a ∈ lba_root (c_bc s)) as Hal by (apply Hin; eauto). split; [split|].
  - by eapply geometry_keep; [apply Hi|].
  - intros x y Hx. rewrite Eb in Hx. apply lookup_delete_Some in Hx as [Hne Hx].
    apply (buf_ok_keep s s' (b_lba b)); [done|by intros ???| | |by apply Hi].
    + intros E. apply Hne. symmetry. by eapply one_buffer.
    + rewrite Edl, list_elem_of_filter. naive_solver.
  - rewrite Etr, Eb. split.
    + intros x. rewrite list_elem_of_filter, Hin, lookup_delete_is_Some. naive_solver.
    + eapply sorted_by_ext; [|by apply sorted_by_filter]. intros x Hx.
      apply list_elem_of_filter in Hx as [Hx _]. unfold key_lba. by rewrite lookup_delete_ne.
  - rewrite Elru, Eb. split.
    + intros x. rewrite list_elem_of_filter, Hin2. setoid_rewrite lookup_delete_Some. naive_solver.
    + eapply sorted_by_ext; [|by apply sorted_by_filter]. intros x Hx.
      apply list_elem_of_filter in Hx as [Hx _]. unfold key_lru. by rewrite lookup_delete_ne.
  - intros x y bx by_ Hx Hy E. rewrite Eb in Hx, Hy. apply lookup_delete_Some in Hx as [_ Hx], Hy as [_ Hy].
    by eapply ci_inj.
  - rewrite Edl, Eb. destruct (ci_list s Hi) as [Hd Hn]. split; [|by apply NoDup_filter].
    intros x [Hx Hx2]%list_elem_of_filter. apply lookup_delete_is_Some. naive_solver.
  - rewrite Ec, Etr, (ci_count s Hi). pose proof (buffers_bounded s Hi) as Hb.
    pose proof (ge_blocks s (ci_geom s Hi)) as [Hb2 _]. unfold zlen in *.
    assert (NoDup (lba_root (c_bc s))) as Hnd by (by eapply sorted_by_NoDup).
    rewrite (filter_out_length a) by done.
    assert (length (lba_root (c_bc s)) ≠ 0%nat) by (intros E; apply length_zero_iff_nil in E; rewrite E in Hal; by apply elem_of_nil in Hal).
    rewrite u32_small by lia. lia.
  - intros Hc. split; [done|]. intros lba d Hl. destruct (decide (lba = b_lba b)) as [->|Hne].
    + rewrite (reads_cached s a b) by done. rewrite Hc, reads_uncached, Em; [done|].
      intros x y Hx E. rewrite Eb in Hx. apply lookup_delete_Some in Hx as [Hne Hx].
      apply Hne. symmetry. by eapply one_buffer.
    + unfold reads. rewrite Em, Eb. setoid_rewrite lookup_delete_Some.
      apply or_iff_both; [|apply and_iff_compat_r]; naive_solver.
Qed.

(** ** Running the operations *)

Definition put_buf a b s : cstate D := CState (c_dev s) (c_bc s) (<[a := b]> (c_bufs s)) (c_fresh s).
Definition with_bc (f : ext4_bcache → ext4_bcache) s : cstate D :=
  CState (c_dev s) (f (c_bc s)) (c_bufs s) (c_fresh s).
Definition without (x : Z) (l : list Z) : list Z := filter (λ y, y ≠ x) l.

Lemma load_buf_run s a b : c_bufs s !! a = Some b → load_buf a s = Ret (b, s).
Proof. intros E. unfold load_buf, mtry. by rewrite E. Qed.
Lemma upd_buf_run s a b f :
  c_bufs s !! a = Some b → upd_buf a f s = Ret (tt, put_buf a (f b) s).
Proof. intros E. unfold upd_buf. by rewrite (mbind_Ret _ _ _ _ _ (load_buf_run s a b E)). Qed.
Lemma put_buf_eq s a b b' : put_buf a b (put_buf a b' s) = put_buf a b s.
Proof. unfold put_buf. cbn. by rewrite insert_insert_eq. Qed.
Lemma put_buf_id s a b : c_bufs s !! a = Some b → put_buf a b s = s.
Proof. intros E. unfold put_buf. rewrite insert_id by done. by destruct s. Qed.
Lemma lookup_put_buf s a b : c_bufs (put_buf a b s) !! a = Some b.
Proof. apply lookup_insert_eq. Qed.

Lemma without_out x l : x ∉ l → without x l = l.
Proof. intros Hx. apply filter_all. intros y Hy ->. done. Qed.
Lemma elem_of_without x y l : y ∈ without x l ↔ y ≠ x ∧ y ∈ l.
Proof. unfold without. by rewrite list_elem_of_filter. Qed.

(** The node leaves the dirty list if it is on it. *)
Lemma remove_dirty_run s a b :
  c_bufs s !! a = Some b → b_on_dirty_list b = bool_decide (a ∈ dirty_list (c_bc s)) →
  ext4_bcache_remove_dirty_node a s =
    Ret (tt, put_buf a (set_on_dirty false b)
               (with_bc (λ c, set_dirty_list (without a (dirty_list c)) c) s)).
Proof.
  intros Ha Hd. unfold ext4_bcache_remove_dirty_node.
  rewrite (mbind_Ret _ _ _ _ _ (load_buf_run s a b Ha)), Hd. case_bool_decide as Hin; cbn [mwhen].
  - unfold mtry. rewrite (mbind_Ret _ _ s (without a (dirty_list (c_bc s))) s) by (by rewrite unlink_run).
    erewrite mbind_Ret by reflexivity. by rewrite (upd_buf_run _ a b) by done.
  - replace (set_on_dirty false b) with b
      by (destruct b; cbn in Hd; by subst).
    rewrite put_buf_id by done. unfold with_bc. rewrite without_out by done. by destruct s as [? [] ? ?].
Qed.

(** The same, asked only of dirty buffers. *)
Lemma remove_if_dirty_run s a b :
  c_bufs s !! a = Some b → b_on_dirty_list b = bool_decide (a ∈ dirty_list (c_bc s)) →
  (b_on_dirty_list b = true → dirty b = true) →
  mwhen (dirty b) (ext4_bcache_remove_dirty_node a) s =
    Ret (tt, put_buf a (set_on_dirty false b)
               (with_bc (λ c, set_dirty_list (without a (dirty_list c)) c) s)).
Proof.
  intros Ha Hd Hdi. destruct (dirty b) eqn:Ed; cbn [mwhen]; [by apply remove_dirty_run|].
  assert (b_on_dirty_list b = false) as Hf by (by destruct (b_on_dirty_list b); [specialize (Hdi eq_refl)|]).
  rewrite Hf in Hd. symmetry in Hd. apply bool_decide_eq_false in Hd.
  replace (set_on_dirty false b) with b by (destruct b; cbn in Hf; by subst).
  rewrite put_buf_id by done. unfold with_bc. rewrite without_out by done. by destruct s as [? [] ? ?].
Qed.

(** ** Blocks directly on the medium *)

Lemma physical_run s lba :
  geometry s → 0 ≤ lba < blocks s →
  ∃ pba cnt, physical lba (c_dev s) = Ret ((pba, cnt), c_dev s) ∧ u32 (cnt * 1) = cnt ∧
    0 ≤ pba ∧ 0 ≤ cnt ∧ pba * bi_bsize = blk_pos s lba ∧ cnt * bi_bsize = bsz s ∧
    (pba + cnt) * bi_bsize ≤ zlen (med (c_dev s)).
Proof.
  intros [Hd [Hb Hbm] [Hn Hp] _ _ _] Hl. pose proof bsize_pos as Hbs.
  assert (bi_bsize ≠ 0) as Hb0 by lia. destruct (eo_start _ Hd) as [Hs0 Hsm].
  destruct (eo_size _ Hd) as [_ Hsz]. pose proof (medium_room _ Hd) as [_ Hm].
  assert (0 ≤ lba * bsz s ∧ lba * bsz s + bsz s ≤ blocks s * bsz s) as [Hx1 Hx2] by nia.
  assert (blk_pos s lba mod bi_bsize = 0) as Hpm.
  { unfold blk_pos. rewrite Z.add_mod, Hsm, Z.mul_mod, Hbm, Z.mul_0_r by done. done. }
  apply (Z.div_exact _ _ Hb0) in Hpm. apply (Z.div_exact _ _ Hb0) in Hbm.
  exists (blk_pos s lba / bi_bsize), (bsz s / bi_bsize). unfold blk_pos in *.
  set (q := bsz s / bi_bsize) in *. set (p := (part_offset (ed_bd (c_dev s)) + lba * bsz s) / bi_bsize) in *.
  assert (0 ≤ q ≤ bsz s) by (clear - Hbs Hb Hbm; nia).
  assert (0 ≤ p) by (apply Z.div_pos; lia).
  split_and!; [|rewrite Z.mul_1_r; apply u32_small; lia|lia..].
  unfold physical. rewrite (mbind_Ret _ _ (c_dev s) _ _ eq_refl), (get_bsize _ Hd). fold (bsz s).
  rewrite (mbind_Ret _ _ _ _ _ (mdiv_run _ bi_bsize (c_dev s) (proj1 Hbs))).
  rewrite (mbind_Ret _ _ _ _ _ (mdiv_run _ bi_bsize (c_dev s) (proj1 Hbs))).
  rewrite !u64_small by (rewrite ?u64_small; lia). unfold mret, M_ret. do 3 f_equal. f_equal. lia.
Qed.

Definition with_dev (d : edev D) s : cstate D := CState d (c_bc s) (c_bufs s) (c_fresh s).

Lemma set_direct_run s lba data :
  geometry s → 0 ≤ lba < blocks s → zlen data = bsz s →
  ∃ r d, on_dev (ext4_blocks_set_direct data lba 1) s = Ret (r, with_dev d s) ∧
    ed_like (c_dev s) d ∧ medium_but lba s (with_dev d s) ∧
    (r = EOK → on_medium (with_dev d s) lba = Some data).
Proof.
  intros Hg Hl Hz. pose proof Hg as [Hd [Hb _] _ _ _ _].
  destruct (physical_run s lba Hg Hl) as (pba & cnt & Ep & Eu & H0 & H1 & Epos & Ecnt & Hr).
  unfold on_dev, ext4_blocks_set_direct. rewrite (mbind_Ret _ _ _ _ _ Ep), Eu.
  destruct (bdif_bwrite_run (c_dev s) data pba cnt) as (r & w & d & E & L & _ & Hw & Hm & Hr1);
    [done..|lia|].
  rewrite E. exists r, d. rewrite Epos in Hm.
  destruct (same_geom_pos s (with_dev d s)) as (E1 & E2 & E3); 
    [split; [done|done|pose proof (ge_ctr s Hg); cbn; lia]|].
  split_and!; [done|done| |].
  - intros x Hx Hne. unfold on_medium. rewrite E1, E3. unfold with_dev, blk_pos in *. cbn.
    apply (zslice_zsplice_disjoint _ _ _ _ _ _ Hm). rewrite Hw, Hz. nia.
  - intros Er. rewrite (Hr1 Er) in Hm. unfold on_medium. rewrite E1, E3. cbn. rewrite <- Hz.
    by eapply zslice_zsplice.
Qed.

Lemma same_geom_like s s' :
  geometry s → ed_like (c_dev s) (c_dev s') → bc_cnt (c_bc s') = bc_cnt (c_bc s) →
  itemsize (c_bc s') = itemsize (c_bc s) → lru_ctr (c_bc s') = lru_ctr (c_bc s) → same_geom s s'.
Proof. intros Hg L C1 C2 C3. split; [done|done|]. pose proof (ge_ctr s Hg). lia. Qed.

Lemma get_direct_run s lba buf :
  geometry s → 0 ≤ lba < blocks s → zlen buf = bsz s →
  ∃ r v d, on_dev (ext4_blocks_get_direct buf lba 1) s = Ret ((r, v), with_dev d s) ∧
    ed_like (c_dev s) d ∧ zlen v = bsz s ∧ (∀ x, on_medium (with_dev d s) x = on_medium s x) ∧
    (r = EOK → on_medium s lba = Some v).
Proof.
  intros Hg Hl Hz. pose proof Hg as [Hd [Hb _] _ _ _ _].
  destruct (physical_run s lba Hg Hl) as (pba & cnt & Ep & Eu & H0 & H1 & Epos & Ecnt & Hr).
  unfold on_dev, ext4_blocks_get_direct. rewrite (mbind_Ret _ _ _ _ _ Ep), Eu.
  destruct (bdif_bread_run (c_dev s) buf pba cnt) as (r & v & d & E & L & Em & _ & Hv & Hr1);
    [done..|lia|].
  rewrite E. exists r, v, d. rewrite Epos, Ecnt in Hr1.
  destruct (same_geom_pos s (with_dev d s)) as (E1 & E2 & E3);
    [split; [done|done|pose proof (ge_ctr s Hg); cbn; lia]|].
  split_and!; [done|done|lia| |done]. intros x. unfold on_medium. rewrite E1, E3. cbn. by rewrite Em.
Qed.

(** What [ext4_block_flush_buf] does to a buffer: at most its dirty flag and its place on the
    dirty list go. *)
Definition cleaned b : ext4_buf := ext4_bcache_clear_flag BC_DIRTY (set_on_dirty false b).

Lemma cleaned_flags b :
  dirty (cleaned b) = false ∧ uptodate (cleaned b) = uptodate b ∧ tmp (cleaned b) = tmp b.
Proof. unfold dirty, uptodate, tmp, cleaned. rewrite !clear_flag_bit by done. done. Qed.

Lemma ended_run s a b r : c_bufs s !! a = Some b → b_end_write b = 0 → ended a r s = Ret (tt, s).
Proof.
  intros Ha He. unfold ended. rewrite (mbind_Ret _ _ _ _ _ (load_buf_run s a b Ha)), He. done.
Qed.

(** The state it leaves. *)
Definition flushed_to a b (r : Z) (d : edev D) s : cstate D :=
  if ctrue r then with_dev d s
  else put_buf a (cleaned b) (with_bc (λ c, set_dirty_list (without a (dirty_list c)) c) (with_dev d s)).

Lemma flush_buf_eq s a b :
  cache_inv s → c_bufs s !! a = Some b →
  ∃ r d, ext4_block_flush_buf a s =
      Ret (r, if dirty b then flushed_to a b r d s else s) ∧
    ed_like (c_dev s) d ∧ (dirty b = true → medium_but (b_lba b) s (with_dev d s)) ∧
    (r = EOK → dirty b = true → on_medium (with_dev d s) (b_lba b) = Some (b_data b)).
Proof.
  intros Hi Ha. destruct (ci_bufs s Hi a b Ha) as [_ Hlen Hlba [He _] Hdu _ _ _ Hon _].
  unfold ext4_block_flush_buf. rewrite (mbind_Ret _ _ _ _ _ (load_buf_run s a b Ha)).
  rewrite !test_flag_eq by done. fold (dirty b) (uptodate b).
  destruct (dirty b) eqn:Ed; cbn [andb].
  2: { exists EOK, (c_dev s). split_and!; try done. apply ed_like_refl, Hi. }
  rewrite Hdu by done.
  destruct (set_direct_run s (b_lba b) (b_data b) (ci_geom s Hi) Hlba Hlen) as (r & d & E & L & Hm & Hr).
  rewrite (mbind_Ret _ _ _ _ _ E). exists r, d. split_and!; [|done|done|by auto]. unfold flushed_to.
  destruct (ctrue r) eqn:Er.
  - by rewrite (mbind_Ret _ _ _ _ _ (ended_run (with_dev d s) a b r Ha He)).
  - rewrite (mbind_Ret _ _ _ _ _ (remove_dirty_run (with_dev d s) a b Ha Hon)).
    erewrite mbind_Ret by (apply upd_buf_run, lookup_put_buf). rewrite put_buf_eq. fold (cleaned b).
    erewrite mbind_Ret by (eapply ended_run; [apply lookup_put_buf|done]).
    unfold ctrue in Er. zbool. by subst.
Qed.

Lemma cleaned_ok s s' a b :
  cache_inv s → c_bufs s !! a = Some b → same_geom s s' → a ∉ dirty_list (c_bc s') →
  (uptodate b = true → on_medium s' (b_lba b) = Some (b_data b)) → buf_ok s' a (cleaned b).
Proof.
  intros Hi Ha Hg Hd Hm. destruct (ci_bufs s Hi a b Ha) as [A1 A2 A3 [A4 A4'] A5 A6 A7 A8 A9 A10].
  destruct (same_geom_pos s s' Hg) as (E1 & E2 & _). pose proof (sg_ctr _ _ Hg).
  destruct (cleaned_flags b) as (F1 & F2 & F3).
  split; rewrite ?E1, ?E2, ?F1, ?F2, ?F3; try done; [by intros; apply Hm|cbn; lia|].
  cbn. symmetry. by apply bool_decide_eq_false.
Qed.

(** Flushing keeps the invariant and what the blocks hold; a buffer that was dirty is written
    and clean, or still dirty. *)
Definition flush_outcome s s' a b (r : Z) : Prop :=
  (c_bufs s' = c_bufs s ∧ c_bc s' = c_bc s ∧ (r = EOK → dirty b = false)) ∨
  (r = EOK ∧ c_bufs s' = <[a := cleaned b]> (c_bufs s) ∧
   c_bc s' = set_dirty_list (without a (dirty_list (c_bc s))) (c_bc s) ∧
   on_medium s' (b_lba b) = Some (b_data b)).

Lemma flush_buf_run s a b :
  cache_inv s → c_bufs s !! a = Some b →
  ∃ r s', ext4_block_flush_buf a s = Ret (r, s') ∧ cache_inv s' ∧ same_reads s s' ∧ same_geom s s' ∧
    c_fresh s' = c_fresh s ∧ medium_but (b_lba b) s s' ∧ flush_outcome s s' a b r.
Proof.
  intros Hi Ha. destruct (flush_buf_eq s a b Hi Ha) as (r & d & E & L & Hm & Hr). rewrite E.
  pose proof (ci_bufs s Hi a b Ha) as [A1 A2 A3 A4 A5 A6 A7 A8 A9 A10].
  destruct (dirty b) eqn:Ed.
  2: { exists r, s. split_and!; try done; [apply same_geom_like; try done; [apply Hi|apply ed_like_refl, Hi]|].
       left. split_and!; done. }
  specialize (Hm eq_refl). specialize (A5 eq_refl). unfold flushed_to.
  destruct (ctrue r) eqn:Er.
  - assert (same_geom s (with_dev d s)) as Hg by (apply same_geom_like; [apply Hi|done..]).
    exists r, (with_dev d s).
    assert (c_bufs (with_dev d s) = <[a := b]> (c_bufs s)) as Eb by (cbn; by rewrite insert_id).
    assert (cache_inv (with_dev d s)) as Hi'.
    { apply (inv_change s _ a b b); try done; [| |apply (ci_list s Hi)|by left|].
      - rewrite (proj1 (ci_lru s Hi)). split; [intros (y & Hy & ?); by simplify_eq|by exists b].
      - apply (ci_lru s Hi).
      - destruct (same_geom_pos _ _ Hg) as (E1 & E2 & _). split; rewrite ?E1, ?E2; try done. all: by rewrite Ed. }
    split_and!; try done.
    + eapply (reads_change s _ a b b); try done. unfold cell. by rewrite A5.
    + left. split_and!; try done. intros ->. done.
  - unfold ctrue in Er. zbool. subst r. specialize (Hr eq_refl eq_refl).
    set (s' := put_buf a _ _). assert (same_geom s s') as Hg by (apply same_geom_like; [apply Hi|done..]).
    exists 0, s'. destruct (cleaned_flags b) as (F1 & F2 & F3).
    assert (cache_inv s') as Hi'.
    { apply (inv_change s _ a b (cleaned b)); try done.
      - cbn. rewrite (proj1 (ci_lru s Hi)). split; [intros (y & Hy & ?); by simplify_eq|by exists b].
      - cbn. eapply sorted_by_ext; [|apply (ci_lru s Hi)]. intros x _. unfold key_lru.
        destruct (decide (x = a)) as [->|]; [by rewrite lookup_insert_eq, Ha|by rewrite lookup_insert_ne].
      - intros x Hx. cbn. rewrite elem_of_without. tauto.
      - apply NoDup_filter, (ci_list s Hi).
      - by left.
      - apply (cleaned_ok s); try done. cbn. rewrite elem_of_without. tauto. }
    split_and!; try done.
    + eapply (reads_change s _ a b (cleaned b)); try done. unfold cell. by rewrite F2, A5.
    + right. split_and!; done.
Qed.

(** The state [ext4_bcache_drop_buf] leaves. *)
Definition dropped a s : cstate D :=
  CState (c_dev s)
    (Bcache (bc_cnt (c_bc s)) (itemsize (c_bc s)) (lru_ctr (c_bc s)) (u32 (ref_blocks (c_bc s) - 1))
      (max_ref_blocks (c_bc s)) (dont_shake (c_bc s)) (without a (lba_root (c_bc s)))
      (without a (lru_root (c_bc s))) (without a (dirty_list (c_bc s))))
    (delete a (c_bufs s)) (c_fresh s).

Lemma unlink_step s a (get : ext4_bcache → list Z) f :
  a ∈ get (c_bc s) →
  (l ← mtry (λ s, unlink a (get (c_bc s))); upd_bc (f l)) s = Ret (tt, with_bc (f (without a (get (c_bc s)))) s).
Proof.
  intros Ha. rewrite (mbind_Ret _ _ s (without a (get (c_bc s))) s); [done|].
  unfold mtry. by rewrite unlink_run.
Qed.

Lemma drop_buf_eq s a b :
  cache_inv s → c_bufs s !! a = Some b → ext4_bcache_drop_buf a s = Ret (tt, dropped a s).
Proof.
  intros Hi Ha. pose proof (ci_bufs s Hi a b Ha) as Hok. unfold ext4_bcache_drop_buf.
  rewrite (mbind_Ret _ _ _ _ _ (load_buf_run s a b Ha)).
  set (s1 := with_bc (λ c, set_lru_root (without a (lru_root c)) c) s).
  assert (mwhen (negb (ctrue (b_refctr b))) (lru_remove a) s = Ret (tt, s1)) as E1.
  { unfold ctrue. destruct (Z.eqb_spec (b_refctr b) 0) as [E|E]; cbn [negb mwhen].
    - unfold lru_remove. rewrite (unlink_step s a lru_root set_lru_root); [done|].
      apply (ci_lru s Hi). eauto.
    - unfold s1, with_bc. cbn. rewrite without_out; [by destruct s as [? [] ? ?]|].
      rewrite (proj1 (ci_lru s Hi)). intros (y & Hy & ?). simplify_eq. }
  mstep E1. set (s2 := with_bc (λ c, set_lba_root (without a (lba_root c)) c) s1).
  assert (lba_remove a s1 = Ret (tt, s2)) as E2.
  { unfold lba_remove. rewrite (unlink_step s1 a lba_root set_lba_root); [done|]. apply (ci_lba s Hi). eauto. }
  mstep E2. rewrite test_flag_eq by done. fold (dirty b).
  pose proof (remove_if_dirty_run s2 a b Ha (bo_list _ _ _ Hok) (λ H, proj2 (bo_listed _ _ _ Hok H))) as E3.
  mstep E3. unfold ext4_buf_free. erewrite mbind_Ret by (erewrite mbind_Ret by (apply load_buf_run, lookup_put_buf); reflexivity).
  unfold dropped, upd_bc, modify. cbn. by rewrite delete_insert_eq.
Qed.

Lemma drop_buf_run s a b :
  cache_inv s → c_bufs s !! a = Some b →
  ext4_bcache_drop_buf a s = Ret (tt, dropped a s) ∧ cache_inv (dropped a s) ∧ same_geom s (dropped a s) ∧
  (dirty b = false → same_reads s (dropped a s)).
Proof.
  intros Hi Ha. split; [by eapply drop_buf_eq|].
  destruct (inv_delete s (dropped a s) a b) as [Hi' Hs]; try done. split; [done|]. split.
  - apply same_geom_like; [apply Hi|apply ed_like_refl, Hi|done..].
  - intros Hd. apply Hs. unfold cell. destruct (uptodate b) eqn:Eu; [|done].
    symmetry. by apply (ci_bufs s Hi a b Ha).
Qed.

(** ** Making room *)

(** A step no holder of a buffer notices. *)
Record quiet s s' : Prop := Quiet {
  qu_inv : cache_inv s';
  qu_reads : same_reads s s';
  qu_geom : same_geom s s';
  qu_held : ∀ a b, c_bufs s !! a = Some b → b_refctr b ≠ 0 → c_bufs s' !! a = Some b;
  qu_old : ∀ a b, c_bufs s' !! a = Some b →
    ∃ b0, c_bufs s !! a = Some b0 ∧ b_refctr b = b_refctr b0 ∧ b_lba b = b_lba b0;
  qu_rest : c_fresh s' = c_fresh s ∧ lru_ctr (c_bc s') = lru_ctr (c_bc s) ∧
    dont_shake (c_bc s') = dont_shake (c_bc s)
}.

Lemma same_geom_trans s1 s2 s3 : same_geom s1 s2 → same_geom s2 s3 → same_geom s1 s3.
Proof.
  intros [L1 [C1 C1'] N1] [L2 [C2 C2'] N2]. split; [by eapply ed_like_trans|split; congruence|lia].
Qed.

Lemma quiet_refl s : cache_inv s → quiet s s.
Proof.
  intros Hi. split; try done; [apply same_geom_like; try done; [apply Hi|apply ed_like_refl, Hi]|].
  intros a b Ha. by exists b.
Qed.
Lemma quiet_trans s1 s2 s3 : quiet s1 s2 → quiet s2 s3 → quiet s1 s3.
Proof.
  intros [I1 R1 G1 H1 O1 (E1 & E1' & E1'')] [I2 R2 G2 H2 O2 (E2 & E2' & E2'')].
  split; [done|by eapply same_reads_trans|by eapply same_geom_trans|eauto| |split_and!; congruence].
  intros a b Ha. destruct (O2 a b Ha) as (b1 & Hb1 & F1 & F1'), (O1 a b1 Hb1) as (b0 & Hb0 & F0 & F0').
  exists b0. split_and!; [done|congruence..].
Qed.

Lemma flush_quiet s a b :
  cache_inv s → c_bufs s !! a = Some b → b_refctr b = 0 →
  ∃ r s', ext4_block_flush_buf a s = Ret (r, s') ∧ quiet s s' ∧ flush_outcome s s' a b r ∧
    medium_but (b_lba b) s s'.
Proof.
  intros Hi Ha Hr. destruct (flush_buf_run s a b Hi Ha) as (r & s' & E & Hi' & Hs & Hg & Hf & Hm & Ho).
  exists r, s'. split; [done|]. split; [|done]. destruct Ho as [(Eb & Ec & _)|(_ & Eb & Ec & _)].
  - split; try done; rewrite ?Eb, ?Ec; try done. intros x y Hx. by exists y.
  - split; try done; rewrite ?Eb, ?Ec; try done.
    + intros x y Hx Hy. rewrite lookup_insert_ne; [done|]. intros <-. by simplify_eq.
    + intros x y Hx. apply lookup_insert_Some in Hx as [[<- <-]|[_ Hx]]; [by exists b|by exists y].
Qed.

Lemma drop_quiet s a b :
  cache_inv s → c_bufs s !! a = Some b → b_refctr b = 0 → dirty b = false →
  ext4_bcache_drop_buf a s = Ret (tt, dropped a s) ∧ quiet s (dropped a s).
Proof.
  intros Hi Ha Hr Hd. destruct (drop_buf_run s a b Hi Ha) as (E & Hi' & Hg & Hs). split; [done|].
  split; try done; [by apply Hs| |].
  - intros x y Hx Hy. cbn. rewrite lookup_delete_ne; [done|]. intros <-. by simplify_eq.
  - intros x y Hx. cbn in Hx. apply lookup_delete_Some in Hx as [_ Hx]. by exists y.
Qed.

(** One turn: the least recently used buffer is written if it has to be, and dropped. *)
Lemma shake_turn s a l :
  cache_inv s → lru_root (c_bc s) = a :: l →
  ∃ r s', quiet s s' ∧ lru_root (c_bc s') = (if r is Some _ then a :: l else l) ∧ r ≠ Some EOK ∧
    ∀ k : M (cstate D) Z, (b ← load_buf a;
     r ← (if ext4_bcache_test_flag b BC_DIRTY then ext4_block_flush_buf a else mret EOK);
     if negb (r =? EOK) then mret r else ext4_bcache_drop_buf a;; k) s =
     match r with Some r => Ret (r, s') | None => k s' end.
Proof.
  intros Hi El. destruct (ci_lru s Hi) as [Hin Hs]. pose proof (sorted_by_NoDup _ _ Hs) as Hnd.
  destruct (proj1 (Hin a)) as (b & Ha & Hr); [rewrite El; by left|].
  assert (without a (a :: l) = l) as Ew.
  { rewrite El in Hnd. apply NoDup_cons in Hnd as [Hn _]. unfold without. rewrite filter_cons_False by tauto.
    by apply without_out. }
  assert (∀ (k : bool → M (cstate D) Z), (b ← load_buf a; k (ext4_bcache_test_flag b BC_DIRTY)) s =
    k (dirty b) s) as Hstart
    by (intros k; by rewrite (mbind_Ret _ _ _ _ _ (load_buf_run s a b Ha)), test_flag_eq).
  destruct (dirty b) eqn:Ed.
  - destruct (flush_quiet s a b Hi Ha Hr) as (r & s1 & E & Hq & Ho & _).
    assert (lru_root (c_bc s1) = a :: l) as El1 by (destruct Ho as [(_ & -> & _)|(_ & _ & -> & _)]; done).
    destruct (Z.eqb_spec r EOK) as [->|Hne].
    + destruct Ho as [(_ & _ & Hd)|(_ & Eb & _ & _)]; [by rewrite Hd in Ed|].
      assert (c_bufs s1 !! a = Some (cleaned b)) as Ha1 by (rewrite Eb; apply lookup_insert_eq).
      destruct (drop_quiet s1 a (cleaned b)) as [E2 Hq2]; [apply Hq|done|done|apply cleaned_flags|].
      exists None, (dropped a s1). split_and!; [by eapply quiet_trans| |done|].
      { unfold dropped. cbn. by rewrite El1. }
      intros k. rewrite (Hstart (λ d, r ← (if d then ext4_block_flush_buf a else mret EOK); _)).
      mstep E. cbn. by mstep E2.
    + exists (Some r), s1. split_and!; [done..|congruence|]. intros k. rewrite (Hstart (λ d, r ← (if d then ext4_block_flush_buf a else mret EOK); _)).
      mstep E.
      by rewrite (proj2 (Z.eqb_neq _ _)).
  - destruct (drop_quiet s a b) as [E2 Hq2]; [done..|].
    exists None, (dropped a s). split_and!; [done| |done|]; [cbn; by rewrite El|].
    intros k. rewrite (Hstart (λ d, r ← (if d then ext4_block_flush_buf a else mret EOK); _)).
    rewrite (mbind_Ret _ _ s EOK s) by done. cbn. by mstep E2.
Qed.

Lemma shaking_inv s v : cache_inv s → cache_inv (with_bc (set_dont_shake v) s).
Proof. intros [[] Hb ? ? ? ? ?]. split; try done. intros a b Ha. by destruct (Hb a b Ha). Qed.

Lemma quiet_shaking s s' v :
  quiet (with_bc (set_dont_shake v) s) s' → quiet s (with_bc (set_dont_shake (dont_shake (c_bc s))) s').
Proof.
  intros [I R [L C N] H O (E1 & E2 & _)]. split; try done. by apply shaking_inv.
Qed.

Lemma shake_loop_run fuel : ∀ s,
  cache_inv s → (length (lru_root (c_bc s)) ≤ fuel)%nat →
  ∃ r s', shake_loop fuel s = Ret (r, s') ∧ quiet s s' ∧
    (∃ k, lru_root (c_bc s') = drop k (lru_root (c_bc s))) ∧
    (r = EOK → ref_blocks (c_bc s') < bc_cnt (c_bc s') ∨ lru_root (c_bc s') = []).
Proof.
  induction fuel as [|fuel IH]; intros s Hi Hf; cbn [shake_loop];
    unfold get_bc, ext4_bcache_is_full, get_bc; do 2 erewrite mbind_Ret by reflexivity.
  - assert (lru_root (c_bc s) = []) as El by (apply length_zero_iff_nil; lia). rewrite El. cbn.
    exists EOK, s. split_and!; [done|by apply quiet_refl|by exists 0%nat|by right].
  - destruct (lru_root (c_bc s)) as [|a l] eqn:El.
    { cbn. exists EOK, s. split_and!; [done|by apply quiet_refl|by exists 0%nat|by right]. }
    rewrite bool_decide_false by done. cbn [negb andb].
    destruct (Z.leb_spec (bc_cnt (c_bc s)) (ref_blocks (c_bc s))) as [Hfull|Hroom].
    2: { exists EOK, s. split_and!; [done|by apply quiet_refl|exists 0%nat; by rewrite El|by left]. }
    assert (a ≠ 0) as Ha0.
    { destruct (proj1 (proj1 (ci_lru s Hi) a)) as (b & Hb & _); [rewrite El; by left|].
      apply (ci_bufs s Hi a b Hb). }
    unfold ext4_buf_lowest_lru, get_bc. rewrite (mbind_Ret _ _ s a s) by (munfold; by rewrite El).
    unfold massert, ctrue. rewrite (proj2 (Z.eqb_neq _ _) Ha0). cbn [negb].
    rewrite (mbind_Ret _ _ s tt s) by done.
    destruct (shake_turn s a l Hi El) as (r & s1 & Hq & El1 & Hr & ->). destruct r as [r|].
    + exists r, s1. split_and!; [done|done|exists 0%nat; by rewrite El1|congruence].
    + destruct (IH s1) as (r & s2 & E & Hq2 & (k & Hk) & Hend); [apply Hq|rewrite El1; cbn in Hf; lia|].
      exists r, s2. split_and!; [done|by eapply quiet_trans| |done].
      exists (S k). rewrite Hk, El1. done.
Qed.

Lemma shake_run s :
  cache_inv s →
  ∃ r s', ext4_block_cache_shake s = Ret (r, s') ∧ quiet s s' ∧
    (∃ k, lru_root (c_bc s') = drop k (lru_root (c_bc s))) ∧
    (r = EOK → dont_shake (c_bc s) = false →
     ref_blocks (c_bc s') < bc_cnt (c_bc s') ∨ lru_root (c_bc s') = []).
Proof.
  intros Hi. unfold ext4_block_cache_shake, get_bc. rewrite (mbind_Ret _ _ s _ s eq_refl).
  destruct (dont_shake (c_bc s)) eqn:Ed.
  { exists EOK, s. split_and!; [done|by apply quiet_refl|by exists 0%nat|done]. }
  set (s1 := with_bc (set_dont_shake true) s). rewrite (mbind_Ret _ _ s tt s1) by done.
  assert (cache_inv s1) as Hi1 by (by apply shaking_inv).
  destruct (shake_loop_run (length (lru_root (c_bc s))) s1 Hi1) as (r & s2 & E & Hq & Hk & Hend); [done|].
  mstep E. set (s3 := with_bc (set_dont_shake false) s2). subst s1. rewrite (mbind_Ret _ _ s2 tt s3) by done.
  exists r, s3. split_and!; [done| |done|by auto].
  unfold s3. rewrite <- Ed. by eapply quiet_shaking.
Qed.
End invariant.
