(* ===== verification/CacheSpec.v ===== *)
(** * The block cache is a faithful disk

    What the operations of [Bcache] promise to the rest of ext4, over every driver that keeps
    the laws of [ExtDev]: a block holds what was last put into it, whatever is evicted,
    written back or fails in between, and the buffers in use stay where they are. *)

From S2P Require Export Bcache.

Section spec.
Context {D : Type} `{HB : BlockIface D} `{HL : !BlockIfaceLaws D} `{HE : EndWrite D}.
Implicit Types (s : cstate D) (b : ext4_buf) (a : Z).

(** ** Finding a buffer *)

(** Counters that will not wrap. *)
Definition room s : Prop :=
  lru_ctr (c_bc s) + 1 < 2 ^ 32 ∧ ∀ a b, c_bufs s !! a = Some b → b_refctr b + 1 < 2 ^ 32.

Lemma lookup_run s lba :
  cache_inv s →
  (∃ a b, ext4_buf_lookup lba s = Ret (a, s) ∧ a ≠ 0 ∧ c_bufs s !! a = Some b ∧ b_lba b = lba) ∨
  (ext4_buf_lookup lba s = Ret (0, s) ∧ ∀ a b, c_bufs s !! a = Some b → b_lba b ≠ lba).
Proof.
  intros Hi. destruct (ci_lba s Hi) as [Hin _]. unfold ext4_buf_lookup.
  destruct (rb_find_run (key_lba (c_bufs s)) lba (lba_root (c_bc s))) as [(a & E & Ha & Ek)|[E Hn]].
  - intros y Hy. apply Hin in Hy as [b Hb]. unfold key_lba. rewrite Hb. done.
  - left. unfold key_lba in Ek. apply fmap_Some in Ek as (b & Hb & El). exists a, b.
    split_and!; [|by apply (ci_bufs s Hi a b Hb)|done|done].
    rewrite (mbind_Ret _ _ s (Some a) s) by (unfold mtry; by rewrite E). done.
  - right. split.
    + rewrite (mbind_Ret _ _ s None s) by (unfold mtry; by rewrite E). done.
    + intros a b Hb El. apply (Hn a); [apply Hin; eauto|]. unfold key_lba. rewrite Hb. cbn. congruence.
Qed.

(** The same buffer with another reference count, LRU number and place. *)
Definition same_block b b' : Prop :=
  b_lba b' = b_lba b ∧ b_data b' = b_data b ∧ b_end_write b' = b_end_write b ∧
  uptodate b' = uptodate b ∧ dirty b' = dirty b ∧ tmp b' = tmp b.

Lemma same_block_cell s b b' : same_block b b' → cell s b' = cell s b.
Proof. intros (E1 & E2 & _ & E3 & _). unfold cell. by rewrite E1, E2, E3. Qed.

(** [inv_change] and [reads_change] for a step that leaves device and data alone. *)
Lemma inv_same_block s s' a b b' :
  cache_inv s → c_bufs s !! a = Some b → c_bufs s' = <[a := b']> (c_bufs s) → same_block b b' →
  c_dev s' = c_dev s → bc_cnt (c_bc s') = bc_cnt (c_bc s) → itemsize (c_bc s') = itemsize (c_bc s) →
  lru_ctr (c_bc s) ≤ lru_ctr (c_bc s') < 2 ^ 32 →
  lba_root (c_bc s') = lba_root (c_bc s) → ref_blocks (c_bc s') = ref_blocks (c_bc s) →
  (∀ x, x ≠ a → x ∈ lru_root (c_bc s') ↔ x ∈ lru_root (c_bc s)) →
  (a ∈ lru_root (c_bc s') ↔ b_refctr b' = 0) →
  sorted_by (key_lru (c_bufs s')) (lru_root (c_bc s')) →
  (∀ x, x ≠ a → x ∈ dirty_list (c_bc s') ↔ x ∈ dirty_list (c_bc s)) → NoDup (dirty_list (c_bc s')) →
  (b_lru_id b' = b_lru_id b ∨ lru_ctr (c_bc s) < b_lru_id b') →
  0 ≤ b_refctr b' < 2 ^ 32 → 0 ≤ b_lru_id b' ≤ lru_ctr (c_bc s') →
  b_on_dirty_list b' = bool_decide (a ∈ dirty_list (c_bc s')) →
  (b_on_dirty_list b' = true → b_refctr b' = 0 ∧ dirty b' = true) →
  cache_inv s' ∧ same_reads s s' ∧ same_geom s s'.
Proof.
  intros Hi Ha Eb Hsb Ed C1 C2 C3 Etr Ec H1 H2 H3 H4 H5 H6 H7 H8 H9 H10.
  assert (same_geom s s') as Hg by (split; [rewrite Ed; apply ed_like_refl, Hi|done|done]).
  destruct (same_geom_pos s s' Hg) as (E1 & E2 & E3).
  assert (∀ lba, on_medium s' lba = on_medium s lba) as Em.
  { intros lba. unfold on_medium. by rewrite Ed, E1, E3. }
  pose proof Hsb as (B1 & B2 & B3 & B4 & B5 & B6). pose proof (ci_bufs s Hi a b Ha) as [A1 A2 A3 A4 A5 A6 _ _ _ _].
  assert (cache_inv s') as Hi'.
  { apply (inv_change s s' a b b'); try done; [by intros lba _ _; apply Em|].
    split; rewrite ?E1, ?E2, ?Em, ?B1, ?B2, ?B3, ?B4, ?B5, ?B6; try done. by rewrite B5 in H10. }
  split_and!; [done| |done].
  apply (reads_change s s' a b b'); try done; [by intros lba _ _; apply Em|].
  rewrite <- (same_block_cell s b b' Hsb). unfold cell. by rewrite Em.
Qed.

(** A buffer without holders is taken off both lists and used last. *)
Definition taken (ctr : Z) b : ext4_buf := ext4_bcache_inc_ref (set_on_dirty false (set_lru_id ctr b)).

Definition take s a b : cstate D :=
  put_buf a (taken (lru_ctr (c_bc s) + 1) b)
    (with_bc (λ c, set_dirty_list (without a (dirty_list c)) (set_lru_root (without a (lru_root c))
      (set_lru_ctr (lru_ctr c + 1) c))) s).

Lemma take_run s a b bk lba :
  cache_inv s → room s → c_bufs s !! a = Some b → b_refctr b = 0 → ext4_buf_lookup lba s = Ret (a, s) →
  ext4_bcache_find_get bk lba s = Ret ((a, Block lba a a), take s a b).
Proof.
  intros Hi [Hc _] Ha Hr El. pose proof (ci_bufs s Hi a b Ha) as Hok.
  pose proof (ge_ctr _ (ci_geom s Hi)) as Hctr.
  unfold ext4_bcache_find_get. mstep El. unfold ctrue at 1.
  rewrite (proj2 (Z.eqb_neq _ _) (bo_addr _ _ _ Hok)). cbn [negb].
  rewrite (mbind_Ret _ _ _ _ _ (load_buf_run s a b Ha)), Hr. cbn [ctrue Z.eqb negb mwhen].
  set (s1 := with_bc (λ c, set_lru_ctr (lru_ctr c + 1) c) s).
  set (b1 := set_lru_id (lru_ctr (c_bc s) + 1) b). set (s2 := put_buf a b1 s1).
  set (s3 := with_bc (λ c, set_lru_root (without a (lru_root c)) c) s2).
  set (s4 := put_buf a (set_on_dirty false b1) (with_bc (λ c, set_dirty_list (without a (dirty_list c)) c) s3)).
  erewrite (mbind_Ret _ _ s tt s4).
  { erewrite mbind_Ret by (apply upd_buf_run, lookup_put_buf).
    unfold s4, s3, s2, s1, take, put_buf, with_bc. cbn. by rewrite !insert_insert_eq. }
  rewrite (mbind_Ret _ _ s tt s1) by (unfold upd_bc, modify, s1, with_bc; cbv beta; rewrite u32_small by lia; done).
  unfold get_bc. rewrite (mbind_Ret _ _ s1 _ s1 eq_refl). cbn [s1 with_bc c_bc lru_ctr set_lru_ctr].
  rewrite (mbind_Ret _ _ s1 tt s2) by (by apply upd_buf_run).
  rewrite (mbind_Ret _ _ s2 tt s3).
  2: { unfold lru_remove. rewrite (unlink_step s2 a lru_root set_lru_root); [done|].
       apply (ci_lru s Hi). eauto. }
  rewrite test_flag_eq by done. fold (dirty b). change (dirty b) with (dirty b1).
  apply remove_if_dirty_run; [apply lookup_put_buf|apply Hok|apply (bo_listed _ _ _ Hok)].
Qed.

Lemma take_spec s a b :
  cache_inv s → room s → c_bufs s !! a = Some b → b_refctr b = 0 →
  cache_inv (take s a b) ∧ same_reads s (take s a b) ∧ same_geom s (take s a b).
Proof.
  intros Hi [Hc _] Ha Hr. pose proof (ge_ctr _ (ci_geom s Hi)) as Hctr.
  apply (inv_same_block s _ a b (taken (lru_ctr (c_bc s) + 1) b)); try done; cbn; rewrite ?Hr; try done; try lia.
  - intros x Hx. rewrite elem_of_without. tauto.
  - rewrite elem_of_without. naive_solver.
  - eapply sorted_by_ext; [|apply sorted_by_filter, (ci_lru s Hi)]. intros x Hx.
    apply list_elem_of_filter in Hx as [Hx _]. unfold key_lru. by rewrite lookup_insert_ne.
  - intros x Hx. rewrite elem_of_without. tauto.
  - apply NoDup_filter, (ci_list s Hi).
  - symmetry. apply bool_decide_eq_false. rewrite elem_of_without. tauto.
Qed.

(** A buffer with holders gets one more. *)
Lemma share_run s a b bk lba :
  cache_inv s → room s → c_bufs s !! a = Some b → b_refctr b ≠ 0 → ext4_buf_lookup lba s = Ret (a, s) →
  let s' := put_buf a (ext4_bcache_inc_ref b) s in
  ext4_bcache_find_get bk lba s = Ret ((a, Block lba a a), s') ∧
  cache_inv s' ∧ same_reads s s' ∧ same_geom s s'.
Proof.
  intros Hi [_ Hc] Ha Hr El s'. pose proof (ci_bufs s Hi a b Ha) as Hok. specialize (Hc a b Ha).
  pose proof (bo_ref _ _ _ Hok) as Href. pose proof (ge_ctr _ (ci_geom s Hi)) as Hctr. split.
  - unfold ext4_bcache_find_get. mstep El. unfold ctrue at 1.
    rewrite (proj2 (Z.eqb_neq _ _) (bo_addr _ _ _ Hok)). cbn [negb].
    rewrite (mbind_Ret _ _ _ _ _ (load_buf_run s a b Ha)). unfold ctrue.
    rewrite (proj2 (Z.eqb_neq _ _) Hr). cbn [negb mwhen]. rewrite (mbind_Ret _ _ s tt s) by done.
    by rewrite (mbind_Ret _ _ _ _ _ (upd_buf_run s a b _ Ha)).
  - apply (inv_same_block s s' a b (ext4_bcache_inc_ref b)); try done; cbn; rewrite ?u32_small by lia; try lia.
    + rewrite (proj1 (ci_lru s Hi)). split; [intros (y & Hy & ?); by simplify_eq|lia].
    + eapply sorted_by_ext; [|apply (ci_lru s Hi)]. intros x _. unfold key_lru.
      destruct (decide (x = a)) as [->|]; [by rewrite lookup_insert_eq, Ha|by rewrite lookup_insert_ne].
    + apply (ci_list s Hi).
    + apply Hok.
    + apply Hok.
    + intros Hd. by destruct (bo_listed _ _ _ Hok Hd).
Qed.

(** ** A new buffer *)

Lemma inv_add s s' a b :
  cache_inv s → c_bufs s !! a = None → (∀ x y, c_bufs s !! x = Some y → b_lba y ≠ b_lba b) →
  c_bufs s' = <[a := b]> (c_bufs s) → c_dev s' = c_dev s →
  bc_cnt (c_bc s') = bc_cnt (c_bc s) → itemsize (c_bc s') = itemsize (c_bc s) →
  lru_ctr (c_bc s) ≤ lru_ctr (c_bc s') < 2 ^ 32 →
  lba_root (c_bc s') ≡ₚ a :: lba_root (c_bc s) → sorted_by (key_lba (c_bufs s')) (lba_root (c_bc s')) →
  lru_root (c_bc s') = lru_root (c_bc s) → dirty_list (c_bc s') = dirty_list (c_bc s) →
  ref_blocks (c_bc s') = ref_blocks (c_bc s) + 1 →
  b_refctr b ≠ 0 → lru_ctr (c_bc s) < b_lru_id b → buf_ok s' a b → uptodate b = false →
  cache_inv s' ∧ same_reads s s' ∧ same_geom s s'.
Proof.
  intros Hi Ha Hn Eb Ed C1 C2 C3 Hp Hs Hl Hd Hc Hr Hid Hok Hu.
  assert (same_geom s s') as Hg by (split; [rewrite Ed; apply ed_like_refl, Hi|done|done]).
  destruct (same_geom_pos s s' Hg) as (E1 & E2 & E3).
  assert (∀ lba, on_medium s' lba = on_medium s lba) as Em.
  { intros lba. unfold on_medium. by rewrite Ed, E1, E3. }
  split_and!; [|split; [done|]|done].
  - split.
    + eapply geometry_keep; [apply Hi|done].
    + intros x y Hx. rewrite Eb in Hx. apply lookup_insert_Some in Hx as [[<- <-]|[Hne Hx]]; [done|].
      apply (buf_ok_keep s s' (b_lba b)); [done|by intros ???|by eapply Hn|by rewrite Hd|by apply Hi].
    + split; [|done]. intros x. rewrite Hp, elem_of_cons, (proj1 (ci_lba s Hi)), Eb, lookup_insert_is_Some.
      destruct (decide (a = x)); naive_solver.
    + rewrite Hl. split.
      * intros x. rewrite (proj1 (ci_lru s Hi)), Eb. destruct (decide (a = x)) as [<-|].
        -- rewrite lookup_insert_eq, Ha. naive_solver.
        -- by rewrite lookup_insert_ne.
      * eapply sorted_by_ext; [|apply (ci_lru s Hi)]. intros x Hx. unfold key_lru. rewrite Eb, lookup_insert_ne; [done|].
        intros <-. apply (ci_lru s Hi) in Hx as (y & Hy & _). congruence.
    + intros x y bx by_ Hx Hy E. rewrite Eb in Hx, Hy.
      apply lookup_insert_Some in Hx as [[<- <-]|[_ Hx]], Hy as [[<- <-]|[_ Hy]]; [done| | |by eapply ci_inj].
      * pose proof (bo_lru _ _ _ (ci_bufs s Hi _ _ Hy)). lia.
      * pose proof (bo_lru _ _ _ (ci_bufs s Hi _ _ Hx)). lia.
    + rewrite Hd, Eb. split; [|apply (ci_list s Hi)]. intros x Hx. apply lookup_insert_is_Some'. right.
      by apply (ci_list s Hi).
    + rewrite Hc, (ci_count s Hi). unfold zlen. rewrite (Permutation_length Hp). cbn. lia.
  - intros lba d Hlba. unfold reads. rewrite Em, Eb. apply or_iff_both; [|apply and_iff_compat_r].
    + split; intros (x & y & Hx & Hy); exists x, y.
      * rewrite lookup_insert_ne; [done|]. intros <-. congruence.
      * apply lookup_insert_Some in Hx as [[<- <-]|[_ Hx]]; [destruct Hy as (_ & ? & _); congruence|done].
    + split; intros Hall x y Hx Hy.
      * apply lookup_insert_Some in Hx as [[<- <-]|[_ Hx]]; [done|by eapply Hall].
      * eapply Hall; [|done]. rewrite lookup_insert_ne; [done|]. intros <-. congruence.
Qed.

(** The memory [kalloc] answers is as large as asked for and no live buffer. *)
Definition alloc_sound s : Prop :=
  ∀ d a fr, c_fresh s = (Some d, a) :: fr → zlen d = itemsize (c_bc s) ∧ c_bufs s !! a = None.

Definition fresh_buf (lba : Z) (d : list Z) (ctr : Z) : ext4_buf := Buf 0 lba d ctr 1 false 0 0.

(** The new state, when there is memory. *)
Definition added s a lba d l fr : cstate D :=
  CState (c_dev s)
    (Bcache (bc_cnt (c_bc s)) (itemsize (c_bc s)) (lru_ctr (c_bc s) + 1) (ref_blocks (c_bc s) + 1)
      (if max_ref_blocks (c_bc s) <? ref_blocks (c_bc s) + 1 then ref_blocks (c_bc s) + 1
       else max_ref_blocks (c_bc s))
      (dont_shake (c_bc s)) l (lru_root (c_bc s)) (dirty_list (c_bc s)))
    (<[a := fresh_buf lba d (lru_ctr (c_bc s) + 1)]> (c_bufs s)) fr.

Lemma alloc_new_run s bk a d fr :
  cache_inv s → room s → alloc_sound s → c_fresh s = (Some d, a) :: fr → a ≠ 0 →
  0 ≤ lb_id bk < blocks s → ext4_buf_lookup (lb_id bk) s = Ret (0, s) →
  (∀ x y, c_bufs s !! x = Some y → b_lba y ≠ lb_id bk) →
  ∃ l, let s' := added s a (lb_id bk) d l fr in
    (ext4_bcache_alloc bk s = Ret ((EOK, Block (lb_id bk) a a, true), s')) ∧
    cache_inv s' ∧ same_reads s s' ∧ same_geom s s'.
Proof.
  intros Hi [Hc _] Hal Hf Ha0 Hlba El Hn. destruct (Hal _ _ _ Hf) as [Hlen Ha].
  destruct (ci_lba s Hi) as [Hin Hs]. pose proof (ge_ctr _ (ci_geom s Hi)) as Hctr.
  set (lba := lb_id bk) in *. set (m1 := <[a := Buf 0 lba d 0 0 false 0 0]> (c_bufs s)).
  assert (∀ v, (a ∉ lba_root (c_bc s)) ∧
      (∀ x, x ∈ lba_root (c_bc s) → key_lba (<[a:=v]> (c_bufs s)) x = key_lba (c_bufs s) x))
    as Hkey.
  { intros v. assert (a ∉ lba_root (c_bc s)) as Hna by (rewrite Hin, Ha; by intros [? ?]).
    split; [done|]. intros x Hx. unfold key_lba. rewrite lookup_insert_ne; [done|]. by intros <-. }
  destruct (rb_insert_run (key_lba m1) a lba (lba_root (c_bc s))) as (l & Eins & Hsl & Hp).
  { eapply sorted_by_ext; [|exact Hs]. apply Hkey. }
  { unfold key_lba, m1. by rewrite lookup_insert_eq. }
  { intros y Hy. unfold m1. rewrite (proj2 (Hkey _) y Hy). apply Hin in Hy as [b Hb]. exists (b_lba b).
    unfold key_lba. rewrite Hb. split; [done|]. by eapply Hn. }
  exists l. pose proof (buffers_bounded s Hi) as Hb. pose proof (ge_blocks s (ci_geom s Hi)) as [Hb2 _].
  pose proof (zlen_nonneg (lba_root (c_bc s))) as Hz. rewrite <- (ci_count s Hi) in Hb, Hz.
  cbv zeta. split.
  - unfold ext4_bcache_alloc, ext4_bcache_find_get. fold lba. rewrite (mbind_Ret _ _ s (0, bk) s).
    2: { by rewrite (mbind_Ret _ _ _ _ _ El). }
    cbn [ctrue Z.eqb negb]. fold lba.
    rewrite (mbind_Ret _ _ s a (CState (c_dev s) (c_bc s) m1 fr)).
    2: { unfold ext4_buf_alloc. rewrite Hf. cbn. by rewrite (proj2 (Z.eqb_neq _ _) Ha0). }
    unfold ctrue. rewrite (proj2 (Z.eqb_neq _ _) Ha0). cbn [negb].
    unfold lba_insert. erewrite (mbind_Ret _ _ (CState (c_dev s) (c_bc s) m1 fr) tt).
    2: { unfold mtry, upd_bc, modify, mbind, M_bind. cbn [c_bufs c_bc]. by rewrite Eins. }
    unfold upd_bc at 1 2, modify. do 2 erewrite mbind_Ret by reflexivity.
    erewrite mbind_Ret by (apply upd_buf_run; cbn; apply lookup_insert_eq).
    unfold upd_bc, modify, get_bc, gets. do 2 erewrite mbind_Ret by reflexivity.
    erewrite mbind_Ret by (apply upd_buf_run, lookup_put_buf). unfold mret, M_ret. do 2 f_equal.
    unfold added, put_buf, m1. cbn. rewrite !insert_insert_eq. unfold fresh_buf. cbn.
    rewrite (u32_small (ref_blocks (c_bc s) + 1)) by lia.
    destruct (max_ref_blocks (c_bc s) <? ref_blocks (c_bc s) + 1); cbn; by rewrite (u32_small (lru_ctr (c_bc s) + 1)) by lia.
  - apply (inv_add s _ a (fresh_buf lba d (lru_ctr (c_bc s) + 1))); try done; cbn; try lia.
    + eapply sorted_by_ext; [|exact Hsl]. intros x _. unfold key_lba, m1.
      destruct (decide (x = a)) as [->|]; [by rewrite !lookup_insert_eq|by rewrite !lookup_insert_ne].
    + split; try done; cbn; try lia; [by rewrite Hlen, (ge_item _ (ci_geom s Hi))|].
      symmetry. apply bool_decide_eq_false. intros Hd. apply (ci_list s Hi) in Hd. rewrite Ha in Hd.
      by destruct Hd.
Qed.

(** ** Giving a buffer back *)

Lemma key_lru_put s a b v (l : list Z) :
  c_bufs s !! a = Some b → b_lru_id v = b_lru_id b → sorted_by (key_lru (c_bufs s)) l →
  sorted_by (key_lru (<[a := v]> (c_bufs s))) l.
Proof.
  intros Ha E Hs. eapply sorted_by_ext; [|exact Hs]. intros x _. unfold key_lru.
  destruct (decide (x = a)) as [->|]; [rewrite lookup_insert_eq, Ha; cbn; by rewrite E|by rewrite lookup_insert_ne].
Qed.

(** The last holder goes: the buffer joins the unreferenced ones, last in their order. *)
Lemma unhold_run s a x :
  cache_inv s → c_bufs s !! a = Some x → b_refctr x = 1 →
  ∃ l, let s1 := put_buf a (set_buf_refctr 0 x) s in let s' := with_bc (set_lru_root l) s1 in
    lru_insert a s1 = Ret (tt, s') ∧ cache_inv s' ∧ same_reads s s' ∧ same_geom s s'.
Proof.
  intros Hi Ha Hr. pose proof (ci_bufs s Hi a x Ha) as Hok. destruct (ci_lru s Hi) as [Hin Hs].
  set (x1 := set_buf_refctr 0 x). set (s1 := put_buf a x1 s).
  assert (a ∉ lru_root (c_bc s)) as Hna by (rewrite Hin; intros (y & Hy & ?); simplify_eq; lia).
  destruct (rb_insert_run (key_lru (c_bufs s1)) a (b_lru_id x) (lru_root (c_bc s))) as (l & El & Hsl & Hp).
  { by apply (key_lru_put s a x). }
  { unfold key_lru, s1. cbn. by rewrite lookup_insert_eq. }
  { intros y Hy. pose proof Hy as (b & Hb & _)%Hin. exists (b_lru_id b).
    assert (y ≠ a) as Hya by (by intros ->). unfold key_lru, s1. cbn. rewrite lookup_insert_ne by done.
    rewrite Hb. split; [done|]. intros E. apply Hya. by eapply ci_inj. }
  exists l. cbv zeta. split.
  - unfold lru_insert. rewrite (mbind_Ret _ _ s1 l s1); [done|]. unfold mtry. cbn [s1 put_buf c_bc].
    by rewrite El.
  - assert (b_on_dirty_list x = false) as Hd.
    { destruct (b_on_dirty_list x) eqn:E; [|done]. destruct (bo_listed _ _ _ Hok E). lia. }
    pose proof (ge_ctr _ (ci_geom s Hi)) as Hctr.
    apply (inv_same_block s _ a x x1); try done; cbn; try lia.
    + intros y Hy. rewrite Hp, elem_of_cons. naive_solver.
    + rewrite Hp. split; [done|by left].
    + apply (ci_list s Hi).
    + apply Hok.
    + apply Hok.
    + by rewrite Hd.
Qed.

(** A dirty buffer without holders waits on the dirty list when writes may be delayed. *)
Lemma enlist_run s a x :
  cache_inv s → c_bufs s !! a = Some x → b_refctr x = 0 → dirty x = true → b_on_dirty_list x = false →
  let s' := put_buf a (set_on_dirty true x) (with_bc (λ c, set_dirty_list (a :: dirty_list c) c) s) in
  ext4_bcache_insert_dirty_node a s = Ret (tt, s') ∧ cache_inv s' ∧ same_reads s s' ∧ same_geom s s'.
Proof.
  intros Hi Ha Hr Hd Hl s'. pose proof (ci_bufs s Hi a x Ha) as Hok. split.
  - unfold ext4_bcache_insert_dirty_node. rewrite (mbind_Ret _ _ _ _ _ (load_buf_run s a x Ha)), Hl.
    cbn [negb mwhen]. rewrite (mbind_Ret _ _ s tt (with_bc (λ c, set_dirty_list (a :: dirty_list c) c) s)) by done.
    by rewrite (upd_buf_run _ a x) by done.
  - pose proof (ge_ctr _ (ci_geom s Hi)) as Hctr. rewrite (bo_list _ _ _ Hok) in Hl.
    apply bool_decide_eq_false in Hl.
    apply (inv_same_block s s' a x (set_on_dirty true x)); try done; cbn; try lia.
    + rewrite (proj1 (ci_lru s Hi)). split; [intros (y & Hy & ?); by simplify_eq|by exists x].
    + apply (key_lru_put s a x); try done. apply (ci_lru s Hi).
    + intros y Hy. rewrite elem_of_cons. naive_solver.
    + constructor; [done|apply (ci_list s Hi)].
    + apply Hok.
    + symmetry. apply bool_decide_eq_true. by left.
Qed.

(** Clearing BC_FLUSH matters to nobody. *)
Lemma unflush_run s a x :
  cache_inv s → c_bufs s !! a = Some x →
  let s' := put_buf a (ext4_bcache_clear_flag BC_FLUSH x) s in
  upd_buf a (ext4_bcache_clear_flag BC_FLUSH) s = Ret (tt, s') ∧ cache_inv s' ∧ same_reads s s' ∧
  same_geom s s'.
Proof.
  intros Hi Ha s'. pose proof (ci_bufs s Hi a x Ha) as Hok. split; [by apply upd_buf_run|].
  pose proof (ge_ctr _ (ci_geom s Hi)) as Hctr.
  assert (dirty (ext4_bcache_clear_flag BC_FLUSH x) = dirty x) as Ed by (unfold dirty; by rewrite clear_flag_bit).
  subst s'. apply (inv_same_block s _ a x (ext4_bcache_clear_flag BC_FLUSH x)); try done.
  - split_and!; try done; unfold uptodate, tmp; by rewrite clear_flag_bit.
  - cbn. lia.
  - cbn. rewrite (proj1 (ci_lru s Hi)). split; [intros (y & Hy & ?); by simplify_eq|by exists x].
  - cbn. apply (key_lru_put s a x); try done. apply (ci_lru s Hi).
  - apply (ci_list s Hi).
  - by left.
  - apply Hok.
  - apply Hok.
  - apply Hok.
  - rewrite Ed. apply Hok.
Qed.

(** Invariant, contents and geometry survive. *)
Definition keeps s s' : Prop := cache_inv s' ∧ same_reads s s' ∧ same_geom s s'.
Lemma keeps_refl s : cache_inv s → keeps s s.
Proof. intros Hi. destruct (quiet_refl s Hi). by split_and!. Qed.
Lemma keeps_trans s1 s2 s3 : keeps s1 s2 → keeps s2 s3 → keeps s1 s3.
Proof.
  intros (_ & R1 & G1) (I2 & R2 & G2).
  split_and!; [done|by eapply same_reads_trans|by eapply same_geom_trans].
Qed.

(** The same data, with a count. *)
Definition holds_same b b' (n : Z) : Prop :=
  b_lba b' = b_lba b ∧ b_data b' = b_data b ∧ uptodate b' = uptodate b ∧ b_refctr b' = n.

(** Writing back, or lining up for it, when the last holder is gone. *)
Lemma settle_run s a x :
  cache_inv s → c_bufs s !! a = Some x → b_refctr x = 0 → b_on_dirty_list x = false →
  ∃ s' x', (if ext4_bcache_test_flag x BC_DIRTY && ext4_bcache_test_flag x BC_UPTODATE then
        wb ← gets (λ s, cache_write_back (ed_bd (c_dev s)));
        if ctrue wb && negb (ext4_bcache_test_flag x BC_FLUSH) && negb (ext4_bcache_test_flag x BC_TMP)
        then ext4_bcache_insert_dirty_node a
        else ext4_block_flush_buf a;; upd_buf a (ext4_bcache_clear_flag BC_FLUSH)
      else mret tt) s = Ret (tt, s') ∧
    keeps s s' ∧ c_bufs s' = <[a := x']> (c_bufs s) ∧ holds_same x x' 0 ∧ tmp x' = false ∧
    (dirty x = true → uptodate x = true) ∧ c_fresh s' = c_fresh s.
Proof.
  intros Hi Ha Hr Hl. pose proof (ci_bufs s Hi a x Ha) as Hok. destruct (bo_journal _ _ _ Hok) as [_ Ht].
  pose proof (bo_dirty _ _ _ Hok) as Hdu.
  rewrite !test_flag_eq by done. fold (dirty x) (uptodate x) (tmp x).
  destruct (dirty x) eqn:Ed; cbn [andb].
  2: { exists s, x. split_and!; try done; [by apply keeps_refl|by rewrite insert_id]. }
  rewrite Hdu by done. erewrite mbind_Ret by reflexivity.
  destruct (ctrue _ && _ && _) eqn:Ew.
  - destruct (enlist_run s a x Hi Ha Hr Ed Hl) as (E & K). rewrite E. do 2 eexists.
    split; [reflexivity|]. split_and!; try done; apply K.
  - destruct (flush_quiet s a x Hi Ha Hr) as (r & s1 & E & Hq & Ho & _). mstep E.
    assert (∃ x1, c_bufs s1 = <[a := x1]> (c_bufs s) ∧ holds_same x x1 0 ∧ tmp x1 = false) as (x1 & Eb & Hx1 & Ht1).
    { destruct Ho as [(Eb & _)|(_ & Eb & _)].
      - exists x. split_and!; [by rewrite insert_id|by split_and!|done].
      - exists (cleaned x). destruct (cleaned_flags x) as (_ & F1 & F2). split_and!; [done|by split_and!|congruence]. }
    assert (c_bufs s1 !! a = Some x1) as Ha1 by (rewrite Eb; apply lookup_insert_eq).
    destruct (unflush_run s1 a x1 (qu_inv _ _ Hq) Ha1) as (E2 & K2). rewrite E2.
    exists (put_buf a (ext4_bcache_clear_flag BC_FLUSH x1) s1), (ext4_bcache_clear_flag BC_FLUSH x1).
    split; [done|]. split.
    { apply keeps_trans with s1; [|done]. split_and!; apply Hq. }
    split; [cbn; by rewrite Eb, insert_insert_eq|]. destruct Hx1 as (F1 & F2 & F3 & F4).
    split_and!; try done; [|unfold tmp; by rewrite clear_flag_bit|apply Hq].
    split_and!; try done. rewrite <- F3. unfold uptodate. by rewrite clear_flag_bit.
Qed.

Lemma massert_run {S} (z : Z) (s : S) : z ≠ 0 → massert (ctrue z) s = Ret (tt, s).
Proof. intros Hz. unfold massert, ctrue. by rewrite (proj2 (Z.eqb_neq _ _) Hz). Qed.

Definition released s s' a x : Prop :=
  (∀ y, y ≠ a → c_bufs s' !! y = c_bufs s !! y) ∧ c_fresh s' = c_fresh s ∧
  (b_refctr x ≠ 1 → c_bufs s' !! a = Some (set_buf_refctr (b_refctr x - 1) x)) ∧
  (b_refctr x = 1 → uptodate x = false → c_bufs s' !! a = None) ∧
  (b_refctr x = 1 → uptodate x = true → ∃ x', c_bufs s' !! a = Some x' ∧ holds_same x x' 0).

Lemma release_last s a x bk :
  cache_inv s → c_bufs s !! a = Some x → b_refctr x = 1 → lb_id bk ≠ 0 → blk_buf bk = a →
  ∃ s', ext4_bcache_free bk s = Ret ((EOK, Block 0 a 0), s') ∧ keeps s s' ∧ released s s' a x.
Proof.
  intros Hi Ha Hr Hb0 <-. set (a := blk_buf bk) in *. pose proof (ci_bufs s Hi a x Ha) as Hok.
  destruct (unhold_run s a x Hi Ha Hr) as (l & E1 & K1). cbv zeta in E1, K1.
  set (x1 := set_buf_refctr 0 x) in *. set (s1 := put_buf a x1 s) in *.
  set (s2 := with_bc (set_lru_root l) s1) in *.
  assert (b_on_dirty_list x = false) as Hd.
  { destruct (b_on_dirty_list x) eqn:E; [|done]. destruct (bo_listed _ _ _ Hok E). lia. }
  assert (c_bufs s2 !! a = Some x1) as Ha2 by apply lookup_put_buf.
  destruct (settle_run s2 a x1) as (s3 & x3 & E3 & K3 & Eb & (F1 & F2 & F3 & F4) & Ht & Hdu & Hf);
    [apply K1|done..|].
  change (uptodate x1) with (uptodate x) in F3.
  assert (c_bufs s3 !! a = Some x3) as Ha3 by (rewrite Eb; apply lookup_insert_eq).
  assert (∀ y, y ≠ a → c_bufs s3 !! y = c_bufs s !! y) as Hy.
  { intros y Hne. rewrite Eb, lookup_insert_ne by done. cbn. by rewrite lookup_insert_ne. }
  unfold ext4_bcache_free. fold a.
  rewrite (mbind_Ret _ _ s tt s) by (by apply massert_run).
  rewrite (mbind_Ret _ _ s tt s) by (apply massert_run, Hok).
  rewrite (mbind_Ret _ _ _ _ _ (load_buf_run s a x Ha)), (mbind_Ret _ _ s tt s) by (by rewrite Hr).
  rewrite (mbind_Ret _ _ s tt s1).
  2: { rewrite (upd_buf_run s a x) by done. unfold ext4_bcache_dec_ref. by rewrite Hr. }
  rewrite (mbind_Ret _ _ _ _ _ (load_buf_run s1 a x1 (lookup_put_buf _ _ _))).
  cbn [x1 set_buf_refctr b_refctr ctrue Z.eqb negb mwhen]. fold x1.
  destruct (uptodate x) eqn:Eu.
  - erewrite (mbind_Ret _ _ s1 tt s3).
    { exists s3. split; [done|]. split; [by eapply keeps_trans|]. split_and!; try done; [congruence|].
      intros _ _. exists x3. unfold holds_same. split_and!; try done; congruence. }
    mstep E1. mstep E3. rewrite (mbind_Ret _ _ _ _ _ (load_buf_run s3 a x3 Ha3)), !test_flag_eq by done.
    fold (uptodate x3) (tmp x3). by rewrite F3, Ht.
  - assert (dirty x3 = false) as Hd3.
    { destruct (dirty x3) eqn:E; [|done]. apply (bo_dirty _ _ _ (ci_bufs s3 (proj1 K3) a x3 Ha3)) in E.
      by rewrite F3 in E. }
    destruct (drop_buf_run s3 a x3 (proj1 K3) Ha3) as (E4 & I4 & G4 & R4).
    erewrite (mbind_Ret _ _ s1 tt (dropped a s3)).
    { exists (dropped a s3). split; [done|]. split.
      { eapply keeps_trans; [done|]. eapply keeps_trans; [done|]. split_and!; [done|by apply R4|done]. }
      split_and!; try done; [| |congruence].
      - intros y Hne. cbn. by rewrite lookup_delete_ne, Hy.
      - intros _ _. cbn. apply lookup_delete_eq. }
    mstep E1. mstep E3. rewrite (mbind_Ret _ _ _ _ _ (load_buf_run s3 a x3 Ha3)), !test_flag_eq by done.
    fold (uptodate x3) (tmp x3). by rewrite F3.
Qed.

Lemma release_one s a x bk :
  cache_inv s → c_bufs s !! a = Some x → 1 < b_refctr x → lb_id bk ≠ 0 → blk_buf bk = a →
  ∃ s', ext4_bcache_free bk s = Ret ((EOK, Block 0 a 0), s') ∧ keeps s s' ∧ released s s' a x.
Proof.
  intros Hi Ha Hr Hb0 <-. set (a := blk_buf bk) in *. pose proof (ci_bufs s Hi a x Ha) as Hok.
  pose proof (bo_ref _ _ _ Hok) as Href. pose proof (ge_ctr _ (ci_geom s Hi)) as Hctr.
  set (s' := put_buf a (set_buf_refctr (b_refctr x - 1) x) s). exists s'. split_and!.
  - unfold ext4_bcache_free. fold a.
    rewrite (mbind_Ret _ _ s tt s) by (by apply massert_run).
    rewrite (mbind_Ret _ _ s tt s) by (apply massert_run, Hok).
    rewrite (mbind_Ret _ _ _ _ _ (load_buf_run s a x Ha)), (mbind_Ret _ _ s tt s) by (apply massert_run; lia).
    rewrite (mbind_Ret _ _ s tt s').
    2: { rewrite (upd_buf_run s a x) by done. unfold ext4_bcache_dec_ref. by rewrite u32_small by lia. }
    rewrite (mbind_Ret _ _ _ _ _ (load_buf_run s' a _ (lookup_put_buf _ _ _))).
    rewrite (mbind_Ret _ _ s' tt s'); [done|]. cbn [set_buf_refctr b_refctr]. unfold ctrue.
    by rewrite (proj2 (Z.eqb_neq _ _)) by lia.
  - subst s'. apply (inv_same_block s _ a x (set_buf_refctr (b_refctr x - 1) x)); try done; cbn; try lia.
    + rewrite (proj1 (ci_lru s Hi)). split; [intros (y & Hy & ?); simplify_eq; lia|lia].
    + apply (key_lru_put s a x); try done. apply (ci_lru s Hi).
    + apply (ci_list s Hi).
    + apply Hok.
    + apply Hok.
    + intros Hd. destruct (bo_listed _ _ _ Hok Hd). lia.
  - split_and!; try done; [|intros _; apply lookup_put_buf|lia|lia].
    intros y Hy. cbn. by rewrite lookup_insert_ne.
Qed.

Lemma free_run s a x bk :
  cache_inv s → c_bufs s !! a = Some x → b_refctr x ≠ 0 → lb_id bk ≠ 0 → blk_buf bk = a →
  ∃ s', ext4_bcache_free bk s = Ret ((EOK, Block 0 a 0), s') ∧ keeps s s' ∧ released s s' a x.
Proof.
  intros Hi Ha Hr Hb Hba. pose proof (bo_ref _ _ _ (ci_bufs s Hi a x Ha)).
  destruct (decide (b_refctr x = 1)); [by apply release_last|apply release_one; try done; lia].
Qed.

(** ** Getting a block *)

(** What [kalloc] will answer next is nothing of the cache. *)
Lemma keeps_fresh s fr : cache_inv s → keeps s (CState (c_dev s) (c_bc s) (c_bufs s) fr).
Proof.
  intros Hi. destruct (keeps_refl s Hi) as (_ & _ & [L C N]). split_and!; [|done|done].
  destruct Hi as [[] Hb ? ? ? ? ?]. split; try done. intros a b Ha. by destruct (Hb a b Ha).
Qed.

(** Buffers in use stay where they are, with what they hold, and the one at [a] has [more a]
    holders more. *)
Definition pinned (more : Z → Z) s s' : Prop :=
  ∀ a x, c_bufs s !! a = Some x → b_refctr x ≠ 0 →
    ∃ x', c_bufs s' !! a = Some x' ∧ b_lba x' = b_lba x ∧ b_refctr x' = b_refctr x + more a ∧
      (uptodate x = true → uptodate x' = true ∧ b_data x' = b_data x).
Definition none_more (_ : Z) : Z := 0.
Definition one_more (a y : Z) : Z := if decide (y = a) then 1 else 0.
(** One holder more for the buffer of a block that was got, and none for an error. *)
Definition got_more (r : Z) (bk : ext4_block) : Z → Z :=
  if decide (r = EOK) then one_more (blk_buf bk) else none_more.

Lemma pinned_refl s : pinned none_more s s.
Proof. intros a x Ha Hr. exists x. split_and!; try done. unfold none_more. lia. Qed.
Lemma pinned_ext m m' s s' : (∀ a, m a = m' a) → pinned m s s' → pinned m' s s'.
Proof. intros E H a x Ha Hr. rewrite <- E. by apply H. Qed.
Lemma pinned_trans m1 m2 s1 s2 s3 :
  cache_inv s1 → (∀ a, 0 ≤ m1 a) → pinned m1 s1 s2 → pinned m2 s2 s3 →
  pinned (λ a, m1 a + m2 a) s1 s3.
Proof.
  intros Hi Hm H1 H2 a x Ha Hr. pose proof (bo_ref _ _ _ (ci_bufs s1 Hi a x Ha)).
  destruct (H1 a x Ha Hr) as (y & Hy & E1 & R1 & U1). specialize (Hm a).
  destruct (H2 a y Hy) as (z & Hz & E2 & R2 & U2); [lia|].
  exists z. split_and!; [done|congruence|lia|]. intros Hu. destruct (U1 Hu) as [Hu1 D1].
  destruct (U2 Hu1) as [Hu2 D2]. split; [done|congruence].
Qed.
Lemma pinned_before m s1 s2 s3 :
  cache_inv s1 → pinned none_more s1 s2 → pinned m s2 s3 → pinned m s1 s3.
Proof. intros Hi H1 H2. exact (pinned_trans none_more m _ _ _ Hi (λ _, Z.le_refl 0) H1 H2). Qed.
Lemma pinned_after m s1 s2 s3 :
  cache_inv s1 → (∀ a, 0 ≤ m a) → pinned m s1 s2 → pinned none_more s2 s3 → pinned m s1 s3.
Proof.
  intros Hi Hm H1 H2. eapply pinned_ext; [|exact (pinned_trans m none_more _ _ _ Hi Hm H1 H2)].
  intros a. cbn. unfold none_more. lia.
Qed.
Lemma got_more_nonneg r bk a : 0 ≤ got_more r bk a.
Proof. unfold got_more, one_more, none_more. repeat case_decide; lia. Qed.
Lemma quiet_pinned s s' : quiet s s' → pinned none_more s s'.
Proof.
  intros Hq a x Ha Hr. exists x. unfold none_more.
  split_and!; [by apply (qu_held _ _ Hq)|done|lia|done].
Qed.

(** A buffer put in place of one with the same block and data. *)
Lemma put_pinned m s s' a b b' :
  c_bufs s !! a = Some b → c_bufs s' = <[a := b']> (c_bufs s) → b_lba b' = b_lba b →
  b_refctr b' = b_refctr b + m a → (∀ y, y ≠ a → m y = 0) →
  (uptodate b = true → uptodate b' = true ∧ b_data b' = b_data b) →
  pinned m s s'.
Proof.
  intros Ha Eb El Hr Hm Hu x y Hx Hy. rewrite Eb. destruct (decide (x = a)) as [->|Hne].
  - simplify_eq. exists b'. by rewrite lookup_insert_eq.
  - exists y. rewrite lookup_insert_ne by done. split_and!; try done. rewrite Hm by done. lia.
Qed.
Lemma one_more_at a : one_more a a = 1.
Proof. unfold one_more. by rewrite decide_True. Qed.
Lemma one_more_ne a y : y ≠ a → one_more a y = 0.
Proof. intros. unfold one_more. by rewrite decide_False. Qed.

(** What the first half of a get has done, with the buffer it answers. *)
Definition got_buffer s s' (lba : Z) (bk : ext4_block) : Prop :=
  lb_id bk = lba ∧ blk_data bk = blk_buf bk ∧
  ∃ x, c_bufs s' !! blk_buf bk = Some x ∧ b_lba x = lba ∧ 0 < b_refctr x ∧
    (∀ x0, c_bufs s !! blk_buf bk = Some x0 → b_refctr x0 ≠ 0 → b_refctr x = b_refctr x0 + 1) ∧
    ((∀ x0, c_bufs s !! blk_buf bk = Some x0 → b_refctr x0 = 0) → b_refctr x = 1).

Lemma alloc_run s bk :
  cache_inv s → room s → alloc_sound s → 0 ≤ lb_id bk < blocks s →
  ∃ r bk' new s', ext4_bcache_alloc bk s = Ret ((r, bk', new), s') ∧ keeps s s' ∧
    pinned (got_more r bk') s s' ∧
    (r = EOK ∨ r = ENOMEM) ∧ (r = EOK → got_buffer s s' (lb_id bk) bk') ∧
    (r ≠ EOK → c_bufs s' = c_bufs s).
Proof.
  intros Hi Hroom Hal Hlba. set (lba := lb_id bk).
  destruct (lookup_run s lba Hi) as [(a & x & El & Ha0 & Ha & Elba)|[El Hn]].
  - assert (∀ a' bk' s1, ext4_bcache_find_get bk lba s = Ret ((a', bk'), s1) → a' ≠ 0 →
      ext4_bcache_alloc bk s = Ret ((EOK, bk', false), s1)) as Hfound.
    { intros a' bk' s1 E Ha'. unfold ext4_bcache_alloc. fold lba. mstep E. unfold ctrue.
      by rewrite (proj2 (Z.eqb_neq _ _) Ha'). }
    destruct (decide (b_refctr x = 0)) as [Hr|Hr].
    + pose proof (take_run s a x bk lba Hi Hroom Ha Hr El) as E.
      exists EOK, (Block lba a a), false, (take s a x). split_and!; [by eapply Hfound|by apply take_spec| |by left| |done].
      * change (got_more EOK (Block lba a a)) with (one_more a).
        eapply (put_pinned _ s _ a x); try done; [|apply one_more_ne].
        cbn -[one_more]. rewrite Hr, one_more_at. by vm_compute.
      * intros _. split_and!; try done. exists (taken (lru_ctr (c_bc s) + 1) x). cbn. rewrite lookup_insert_eq, Hr.
        split_and!; try done. intros x0 Hx0 Hr0. congruence.
    + destruct (share_run s a x bk lba Hi Hroom Ha Hr El) as (E & K).
      exists EOK, (Block lba a a), false, (put_buf a (ext4_bcache_inc_ref x) s).
      pose proof (bo_ref _ _ _ (ci_bufs s Hi a x Ha)) as Href. destruct Hroom as [_ Hroom]. specialize (Hroom a x Ha).
      split_and!; [by eapply Hfound|done| |by left| |done].
      * change (got_more EOK (Block lba a a)) with (one_more a).
        eapply (put_pinned _ s _ a x); try done; [|apply one_more_ne].
        cbn -[one_more]. rewrite u32_small by lia. by rewrite one_more_at.
      * intros _. split_and!; try done. exists (ext4_bcache_inc_ref x). cbn. rewrite lookup_insert_eq, u32_small by lia.
        split_and!; try done; [lia|intros; by simplify_eq|]. intros H. by specialize (H x Ha).
  - assert (∀ s1, ext4_buf_alloc lba s = Ret (0, s1) → ext4_bcache_alloc bk s = Ret ((ENOMEM, bk, false), s1)) as Hno.
    { intros s1 E. unfold ext4_bcache_alloc, ext4_bcache_find_get. fold lba.
      rewrite (mbind_Ret _ _ s (0, bk) s) by (by rewrite (mbind_Ret _ _ _ _ _ El)).
      cbn [ctrue Z.eqb negb]. fold lba. by mstep E. }
    destruct (c_fresh s) as [|[d a] fr] eqn:Ef.
    { exists ENOMEM, bk, false, s. split_and!; [apply Hno; unfold ext4_buf_alloc; by rewrite Ef|by apply keeps_refl|
        apply pinned_refl|by right|done|done]. }
    set (s1 := CState (c_dev s) (c_bc s) (c_bufs s) fr).
    destruct (decide (d = None ∨ a = 0)) as [Hnone|Hsome].
    { exists ENOMEM, bk, false, s1. split_and!; [|by apply keeps_fresh|exact (pinned_refl s)|by right|done|done].
      apply Hno. unfold ext4_buf_alloc. rewrite Ef. destruct Hnone as [->| ->]; [done|]. by destruct d. }
    destruct d as [d|]; [|naive_solver]. assert (a ≠ 0) as Ha0 by naive_solver.
    destruct (alloc_new_run s bk a d fr Hi Hroom Hal Ef Ha0 Hlba El Hn) as (l & E & K). cbv zeta in E, K.
    exists EOK, (Block lba a a), true, (added s a lba d l fr). split_and!; [done|done| |by left| |done].
    + change (got_more EOK (Block lba a a)) with (one_more a).
      intros y x Hy Hr. assert (y ≠ a) as Hya by (intros ->; destruct (Hal _ _ _ Ef); congruence).
      exists x. cbn. rewrite lookup_insert_ne, one_more_ne by done. split_and!; try done. lia.
    + intros _. split_and!; try done. eexists. cbn. rewrite lookup_insert_eq. split_and!; try done.
      intros x0 Hx0. destruct (Hal _ _ _ Ef). congruence.
Qed.

Lemma quiet_room s s' : quiet s s' → room s → room s'.
Proof.
  intros Hq [H1 H2]. destruct (qu_rest _ _ Hq) as (_ & E & _). split; [lia|].
  intros a b Hb. destruct (qu_old _ _ Hq a b Hb) as (b0 & Hb0 & -> & _). by eapply H2.
Qed.
Lemma quiet_alloc s s' : quiet s s' → alloc_sound s → alloc_sound s'.
Proof.
  intros Hq Ha d a fr E. destruct (qu_rest _ _ Hq) as (Ef & _). rewrite Ef in E.
  destruct (Ha d a fr E) as [H1 H2]. destruct (sg_cnt _ _ (qu_geom _ _ Hq)) as [_ ->]. split; [done|].
  destruct (c_bufs s' !! a) as [b|] eqn:Eb; [|done].
  destruct (qu_old _ _ Hq a b Eb) as (b0 & Hb0 & _). congruence.
Qed.
Lemma quiet_got s s1 s2 lba bk : quiet s s1 → got_buffer s1 s2 lba bk → got_buffer s s2 lba bk.
Proof.
  intros Hq (E1 & E2 & x & Hx & El & Hr & H1 & H2). split_and!; try done. exists x. split_and!; try done.
  - intros x0 H0 Hr0. apply H1; [by apply (qu_held _ _ Hq)|done].
  - intros H0. apply H2. intros y Hy. destruct (qu_old _ _ Hq _ _ Hy) as (b0 & Hb0 & -> & _). by apply H0.
Qed.
Lemma quiet_keeps s s' : quiet s s' → keeps s s'.
Proof. intros Hq. split_and!; apply Hq. Qed.

Lemma get_noread_run s bk lba :
  cache_inv s → room s → alloc_sound s → 0 ≤ lba →
  ∃ r bk' s', ext4_block_get_noread bk lba s = Ret ((r, bk'), s') ∧ keeps s s' ∧
    pinned (got_more r bk') s s' ∧
    (r = EOK → lba < blocks s ∧ got_buffer s s' lba bk').
Proof.
  intros Hi Hroom Hal Hlba. unfold ext4_block_get_noread. rewrite (mbind_Ret _ _ s _ s eq_refl).
  unfold ctrue at 1. rewrite (proj2 (Z.eqb_neq _ _) (eo_open _ (ge_dev _ (ci_geom s Hi)))). cbn [negb].
  fold (blocks s). destruct (Z.ltb_spec lba (blocks s)) as [Hlt|Hge]; cbn [negb].
  2: { exists ENXIO, bk, s. split_and!; [done|by apply keeps_refl|apply pinned_refl|done]. }
  destruct (shake_run s Hi) as (r & s1 & E & Hq & _). mstep E.
  destruct (Z.eqb_spec r EOK) as [_|Hr]; cbn [negb].
  2: { eexists r, _, s1. unfold got_more. rewrite decide_False by done.
       split_and!; [done|by apply quiet_keeps|by apply quiet_pinned|done]. }
  set (b1 := Block lba (blk_buf bk) (blk_data bk)).
  destruct (same_geom_pos _ _ (qu_geom _ _ Hq)) as (_ & Eb & _).
  destruct (alloc_run s1 b1) as (r1 & bk' & new & s2 & E2 & K & P & _ & Hg & _);
    [apply Hq|by eapply quiet_room|by eapply quiet_alloc|rewrite Eb; cbn; lia|]. mstep E2.
  assert (keeps s s2) as K2 by (eapply keeps_trans; [by apply quiet_keeps|done]).
  assert (pinned (got_more r1 bk') s s2) as P2 by (eapply pinned_before; [done|by apply quiet_pinned|done]).
  destruct (Z.eqb_spec r1 EOK) as [Er|Hr]; cbn [negb].
  2: { by exists r1, bk', s2. }
  specialize (Hg Er). pose proof Hg as (_ & Ed & x & Hx & _). rewrite Ed.
  unfold ctrue. rewrite (proj2 (Z.eqb_neq _ _)); [|apply (ci_bufs s2 (proj1 K) _ _ Hx)]. cbn [negb].
  subst r1. exists EOK, bk', s2. split_and!; try done. intros _. split; [done|]. by eapply quiet_got.
Qed.

(** Reading the block into its buffer, when that does not hold it yet. *)
Lemma fill_run s a x lba v d :
  cache_inv s → c_bufs s !! a = Some x → uptodate x = false → b_lba x = lba → zlen v = bsz s →
  ed_like (c_dev s) d → (∀ y, on_medium (with_dev d s) y = on_medium s y) →
  keeps s (put_buf a (set_data v x) (with_dev d s)) ∧
  (on_medium s lba = Some v →
   keeps s (put_buf a (ext4_bcache_set_flag BC_UPTODATE (set_data v x)) (with_dev d s))).
Proof.
  intros Hi Ha Hu El Hz L Hm. pose proof (ci_bufs s Hi a x Ha) as [A1 A2 A3 [A4 A4'] A5 A6 A7 A8 A9 A10].
  assert (dirty x = false) as Hd by (destruct (dirty x) eqn:E; [specialize (A5 eq_refl); congruence|done]).
  assert (∀ b', b_lba b' = lba → b_refctr b' = b_refctr x → b_lru_id b' = b_lru_id x →
    buf_ok (put_buf a b' (with_dev d s)) a b' →
    cell (put_buf a b' (with_dev d s)) b' = cell s x → keeps s (put_buf a b' (with_dev d s))) as Hput.
  { intros b' F1 F2 F3 Hok Hc.
    assert (same_geom s (put_buf a b' (with_dev d s))) as Hg by (apply same_geom_like; [apply Hi|done..]).
    assert (medium_but (b_lba x) s (put_buf a b' (with_dev d s))) as Hmb by (intros y _ _; apply Hm).
    assert (cache_inv (put_buf a b' (with_dev d s))) as Hi'.
    { apply (inv_change s _ a x b'); try done; [congruence| | |apply (ci_list s Hi)|by left].
      - cbn. rewrite (proj1 (ci_lru s Hi)), F2. split; [intros (y & Hy & ?); by simplify_eq|by exists x].
      - cbn. apply (key_lru_put s a x); try done. apply (ci_lru s Hi). }
    split_and!; [done| |done]. eapply (reads_change s _ a x b'); try done. congruence. }
  destruct (same_geom_pos s (with_dev d s)) as (E1 & E2 & _); [by apply same_geom_like; [apply Hi|done..]|].
  split.
  - apply Hput; try done; [|unfold cell; change (uptodate (set_data v x)) with (uptodate x); rewrite Hu; by apply Hm].
    split; try done; [by etrans|by rewrite <- E2 in A3|].
    change (uptodate (set_data v x)) with (uptodate x). congruence.
  - intros Hon. assert (uptodate (ext4_bcache_set_flag BC_UPTODATE (set_data v x)) = true ∧
      dirty (ext4_bcache_set_flag BC_UPTODATE (set_data v x)) = dirty x ∧
      tmp (ext4_bcache_set_flag BC_UPTODATE (set_data v x)) = tmp x) as (U1 & U2 & U3)
      by (unfold uptodate, dirty, tmp; by rewrite !set_flag_bit).
    apply Hput; try done; [|unfold cell; rewrite U1, Hu, El; cbn; by rewrite Hon].
    split; rewrite ?U1, ?U2, ?U3; try done; [by etrans|by rewrite <- E2 in A3|].
    intros _ _. change (on_medium (with_dev d s) (b_lba x) = Some v). rewrite El. etrans; [apply Hm|done].
Qed.

(** A holder more than there was, so the buffer stays when one goes. *)
Lemma released_pinned s s2 s' a x :
  pinned (one_more a) s s2 → c_bufs s2 !! a = Some x → released s2 s' a x → uptodate x = false →
  cache_inv s → pinned none_more s s'.
Proof.
  intros Hp Hx (Ho & _ & Hm & _) Hu Hi y z Hz Hr. destruct (Hp y z Hz Hr) as (z2 & Hz2 & E & R & U).
  pose proof (bo_ref _ _ _ (ci_bufs s Hi y z Hz)) as Hpos. unfold none_more.
  destruct (decide (y = a)) as [->|Hne].
  - assert (z2 = x) as -> by congruence. rewrite one_more_at in R.
    exists (set_buf_refctr (b_refctr x - 1) x). split_and!; [apply Hm; lia|done|cbn; lia|].
    intros Hu0. destruct (U Hu0). congruence.
  - rewrite one_more_ne in R by done. exists z2. split_and!; try done. by rewrite Ho.
Qed.

Lemma get_run s bk lba :
  cache_inv s → room s → alloc_sound s → 0 < lba →
  ∃ r bk' s', ext4_block_get bk lba s = Ret ((r, bk'), s') ∧ keeps s s' ∧
    pinned (got_more r bk') s s' ∧
    (r = EOK → lba < blocks s ∧ got_buffer s s' lba bk' ∧
      ∃ x, c_bufs s' !! blk_buf bk' = Some x ∧ b_lba x = lba ∧ 0 < b_refctr x ∧ uptodate x = true ∧
        reads s lba (b_data x)).
Proof.
  intros Hi Hroom Hal Hlba.
  destruct (get_noread_run s bk lba Hi Hroom Hal) as (r & b1 & s1 & E & K & P & Hg); [lia|].
  unfold ext4_block_get. mstep E. destruct (Z.eqb_spec r EOK) as [->|Hr]; cbn [negb].
  2: { by exists r, b1, s1. }
  destruct (Hg eq_refl) as (Hlt & Hgb). pose proof Hgb as (Eid & Ed & x & Hx & El & Href & Hc).
  set (a := blk_buf b1) in *. change (got_more EOK b1) with (one_more a) in P.
  pose proof K as (I1 & [Eb R1] & G1). pose proof (ci_bufs s1 I1 a x Hx) as Hok.
  rewrite (mbind_Ret _ _ _ _ _ (load_buf_run s1 a x Hx)), test_flag_eq by done. fold (uptodate x).
  destruct (uptodate x) eqn:Eu.
  { exists EOK, b1, s1. split_and!; try done. intros _. split_and!; try done. exists x. split_and!; try done.
    apply R1; [lia|]. rewrite <- El. by apply (reads_buffer s1 a). }
  destruct (get_direct_run s1 lba (b_data x) (ci_geom s1 I1)) as (r2 & v & d & E2 & L & Hv & Hm & Hr2);
    [lia|apply Hok|].
  mstep E2. rewrite (mbind_Ret _ _ _ _ _ (upd_buf_run (with_dev d s1) a x (set_data v) Hx)).
  destruct (fill_run s1 a x lba v d I1 Hx Eu El Hv L Hm) as [K2 K3].
  destruct (Z.eqb_spec r2 EOK) as [->|Hne]; cbn [negb].
  - specialize (K3 (Hr2 eq_refl)).
    rewrite (mbind_Ret _ _ _ _ _ (upd_buf_run _ a _ (ext4_bcache_set_flag BC_UPTODATE) (lookup_put_buf _ _ _))), put_buf_eq.
    set (x' := ext4_bcache_set_flag BC_UPTODATE (set_data v x)) in *.
    assert (uptodate x' = true) as Eu' by (unfold uptodate, x'; by rewrite set_flag_bit).
    eexists EOK, b1, _. split; [reflexivity|]. split; [by eapply keeps_trans|]. split.
    { eapply pinned_after; [done|exact (got_more_nonneg EOK b1)|exact P|].
      apply (put_pinned none_more s1 _ a x x'); try done; [cbn; unfold none_more; lia|by rewrite Eu]. }
    intros _. split_and!; try done.
    + split; [done|]. split; [done|]. exists x'. split; [apply lookup_put_buf|].
      split; [done|]. split; [done|]. exact Hc.
    + exists x'. split_and!; try done; [apply lookup_put_buf|].
      apply R1; [lia|]. rewrite <- El. apply (reads_cached s1 a x); [done..|]. unfold cell. rewrite Eu, El.
      by apply Hr2.
  - destruct (free_run (put_buf a (set_data v x) (with_dev d s1)) a (set_data v x) b1) as (s3 & E3 & K4 & Hrel);
      [apply K2|apply lookup_put_buf|cbn; lia|lia|done|].
    mstep E3. eexists r2, _, s3. split; [reflexivity|]. split.
    { eapply keeps_trans; [done|]. by eapply keeps_trans. }
    unfold got_more. rewrite decide_False by done. split; [|done].
    apply (released_pinned s (put_buf a (set_data v x) (with_dev d s1)) s3 a (set_data v x));
      [|apply lookup_put_buf|done|done|done].
    eapply pinned_after; [done|exact (got_more_nonneg EOK b1)|exact P|].
    apply (put_pinned none_more s1 _ a x (set_data v x)); try done; [cbn; unfold none_more; lia|by rewrite Eu].
Qed.

(** ** Flushing *)

Lemma cache_flush_loop_run fuel : ∀ s,
  cache_inv s → (length (dirty_list (c_bc s)) ≤ fuel)%nat →
  ∃ r s', flush_loop fuel s = Ret (r, s') ∧ quiet s s' ∧
    (∀ lba, 0 ≤ lba < blocks s →
       (∀ a b, a ∈ dirty_list (c_bc s) → c_bufs s !! a = Some b → b_lba b ≠ lba) →
       on_medium s' lba = on_medium s lba) ∧
    (r = EOK → dirty_list (c_bc s') = [] ∧
       ∀ a b, a ∈ dirty_list (c_bc s) → c_bufs s !! a = Some b → on_medium s' (b_lba b) = Some (b_data b)).
Proof.
  induction fuel as [|fuel IH]; intros s Hi Hf; cbn [flush_loop]; unfold get_bc;
    rewrite (mbind_Ret _ _ s _ s eq_refl); destruct (dirty_list (c_bc s)) as [|a l] eqn:El;
    try (cbn in Hf; lia).
  1, 2: exists EOK, s; split_and!; try done; [by apply quiet_refl|]; intros _; split; [done|];
    by intros a b ?%elem_of_nil.
  destruct (proj1 (ci_list s Hi) a) as [b Ha]; [rewrite El; by left|].
  pose proof (ci_bufs s Hi a b Ha) as Hok.
  assert (b_refctr b = 0 ∧ dirty b = true) as [Hr Hd].
  { apply Hok. rewrite (bo_list _ _ _ Hok). apply bool_decide_eq_true. rewrite El. by left. }
  rewrite (mbind_Ret _ _ s tt s) by (apply massert_run, Hok).
  destruct (flush_quiet s a b Hi Ha Hr) as (r & s1 & E & Hq & Ho & Hmb). mstep E.
  destruct (Z.eqb_spec r EOK) as [->|Hne]; cbn [negb].
  2: { exists r, s1. split_and!; try done. intros lba Hl Hn. apply Hmb; [done|].
       intros ->. apply (Hn a b); [by left|done|done]. }
  destruct Ho as [(_ & _ & Hc)|(_ & Eb1 & Ec1 & Hm1)]; [by rewrite Hc in Hd|].
  pose proof (proj2 (ci_list s Hi)) as Hnd. rewrite El in Hnd. apply NoDup_cons in Hnd as [Hna Hnd].
  assert (dirty_list (c_bc s1) = l) as El1.
  { rewrite Ec1. cbn. rewrite El. unfold without. rewrite filter_cons_False by tauto. by apply without_out. }
  assert (∀ y z, y ∈ l → c_bufs s !! y = Some z → c_bufs s1 !! y = Some z ∧ b_lba z ≠ b_lba b) as Hsame.
  { intros y z Hy Hz. split.
    - rewrite Eb1, lookup_insert_ne; [done|]. by intros ->.
    - intros E1. apply Hna. assert (y = a) as <- by (by eapply one_buffer). done. }
  destruct (IH s1) as (r & s2 & E2 & Hq2 & Hout & Hin); [apply Hq|rewrite El1; cbn in Hf; lia|].
  rewrite El1 in Hout, Hin. destruct (same_geom_pos _ _ (qu_geom _ _ Hq)) as (_ & Eblk & _).
  assert (on_medium s2 (b_lba b) = on_medium s1 (b_lba b)) as Hkeep.
  { apply Hout; [rewrite Eblk; apply Hok|]. intros y z Hy Hz.
    destruct (proj1 (ci_list s Hi) y) as [z0 Hz0]; [rewrite El; by right|].
    destruct (Hsame y z0 Hy Hz0). congruence. }
  exists r, s2. split_and!; [done|by eapply quiet_trans| |].
  - intros lba Hl Hn. rewrite Hout; [|by rewrite Eblk|].
    + apply Hmb; [done|]. intros ->. apply (Hn a b); [by left|done|done].
    + intros y z Hy Hz. destruct (proj1 (ci_list s Hi) y) as [z0 Hz0]; [rewrite El; by right|].
      destruct (Hsame y z0 Hy Hz0). assert (z = z0) as -> by congruence. apply (Hn y); [by right|done].
  - intros Er. destruct (Hin Er) as [Hnil Hall]. split; [done|]. intros y z Hy Hz.
    apply elem_of_cons in Hy as [->|Hy].
    + assert (z = b) as -> by congruence. by rewrite Hkeep.
    + apply (Hall y); [done|]. by apply Hsame.
Qed.

(** ** The cache in use *)

(** A holder changes the data of its block and marks it dirty ([ext4_trans_set_block_dirty]
    without a journal). *)
Definition overwrite (a : Z) (d : list Z) : M (cstate D) unit :=
  upd_buf a (λ x, ext4_bcache_set_dirty (set_data d x)).

Lemma set_dirty_flags x :
  dirty (ext4_bcache_set_dirty x) = true ∧ uptodate (ext4_bcache_set_dirty x) = true ∧
  tmp (ext4_bcache_set_dirty x) = tmp x.
Proof.
  unfold dirty, uptodate, tmp, ext4_bcache_set_dirty. rewrite !set_flag_bit by done. done.
Qed.

Lemma overwrite_run s a x d :
  cache_inv s → c_bufs s !! a = Some x → b_refctr x ≠ 0 → zlen d = bsz s →
  ∃ s', overwrite a d s = Ret (tt, s') ∧ cache_inv s' ∧ same_geom s s' ∧ reads s' (b_lba x) d ∧
    ∀ lba e, 0 ≤ lba < blocks s → lba ≠ b_lba x → reads s lba e ↔ reads s' lba e.
Proof.
  intros Hi Ha Hr Hz. pose proof (ci_bufs s Hi a x Ha) as [A1 A2 A3 [A4 A4'] A5 A6 A7 A8 A9 A10].
  set (x' := ext4_bcache_set_dirty (set_data d x)). set (s' := put_buf a x' s).
  destruct (set_dirty_flags (set_data d x)) as (F1 & F2 & F3). fold x' in F1, F2, F3.
  assert (b_on_dirty_list x = false) as Hl.
  { destruct (b_on_dirty_list x) eqn:E; [by destruct (A10 eq_refl)|done]. }
  assert (same_geom s s') as Hg by (apply same_geom_like; [apply Hi|apply ed_like_refl, Hi|done..]).
  assert (cache_inv s') as Hi'.
  { apply (inv_change s _ a x x'); try done; [| |apply (ci_list s Hi)|by left|].
    - cbn. rewrite (proj1 (ci_lru s Hi)). split; [intros (y & Hy & ?); by simplify_eq|by exists x].
    - cbn. apply (key_lru_put s a x); try done. apply (ci_lru s Hi).
    - split; rewrite ?F1, ?F2, ?F3; try done. change (b_on_dirty_list x') with (b_on_dirty_list x). by rewrite Hl. }
  exists s'. split; [unfold overwrite; by rewrite (upd_buf_run s a x _ Ha)|].
  split; [done|]. split; [done|]. split.
  - change (b_lba x) with (b_lba x'). change d with (b_data x'). apply (reads_buffer s' a); [|done].
    apply lookup_put_buf.
  - intros lba e Hlba Hne. by apply (reads_other s s' a x x').
Qed.

(** The blocks of a fresh cache are those of the medium. *)
Definition empty_cache s : Prop :=
  c_bufs s = ∅ ∧ lba_root (c_bc s) = [] ∧ lru_root (c_bc s) = [] ∧ dirty_list (c_bc s) = [] ∧
  ref_blocks (c_bc s) = 0.

(** Every order of the operations of the cache by clients that keep its rules: a block is given
    back by a holder, and changed by one, who marks it.  [m] is what they wrote last. *)
Inductive system : cstate D → (Z → list Z) → Prop :=
  | sys_start s m :
      geometry s → empty_cache s → (∀ lba, 0 ≤ lba < blocks s → on_medium s lba = Some (m lba)) →
      system s m
  | sys_get s m bk lba r s' :
      system s m → room s → alloc_sound s → 0 < lba → ext4_block_get bk lba s = Ret (r, s') → system s' m
  | sys_get_noread s m bk lba r s' :
      system s m → room s → alloc_sound s → 0 < lba → ext4_block_get_noread bk lba s = Ret (r, s') →
      system s' m
  | sys_write s m a x d s' :
      system s m → c_bufs s !! a = Some x → b_refctr x ≠ 0 → zlen d = bsz s →
      overwrite a d s = Ret (tt, s') → system s' (λ lba, if lba =? b_lba x then d else m lba)
  | sys_set s m bk x r s' :
      system s m → c_bufs s !! blk_buf bk = Some x → b_refctr x ≠ 0 → lb_id bk ≠ 0 →
      ext4_block_set bk s = Ret (r, s') → system s' m
  | sys_flush s m r s' :
      system s m → ext4_block_cache_flush s = Ret (r, s') → system s' m
  | sys_kalloc s m fr :
      system s m → system (CState (c_dev s) (c_bc s) (c_bufs s) fr) m.

Definition represents s (m : Z → list Z) : Prop :=
  cache_inv s ∧ ∀ lba, 0 ≤ lba < blocks s → reads s lba (m lba).

Lemma keeps_represents s s' m : represents s m → keeps s s' → represents s' m.
Proof.
  intros [Hi Hr] (Hi' & [Eb Hs] & _). split; [done|]. intros lba Hl. rewrite Eb in Hl. apply Hs, Hr; done.
Qed.

Lemma set_run s x bk :
  cache_inv s → c_bufs s !! blk_buf bk = Some x → b_refctr x ≠ 0 → lb_id bk ≠ 0 →
  ∃ s', ext4_block_set bk s = Ret ((EOK, Block 0 (blk_buf bk) 0), s') ∧ keeps s s' ∧
    released s s' (blk_buf bk) x.
Proof.
  intros Hi Ha Hr Hb. destruct (free_run s _ x bk Hi Ha Hr Hb eq_refl) as (s' & E & K & R).
  exists s'. split; [|done]. unfold ext4_block_set.
  rewrite (mbind_Ret _ _ s tt s) by (apply massert_run, (ci_bufs s Hi _ _ Ha)).
  rewrite (mbind_Ret _ _ s _ s eq_refl). unfold ctrue.
  by rewrite (proj2 (Z.eqb_neq _ _) (eo_open _ (ge_dev _ (ci_geom s Hi)))).
Qed.

Lemma flush_run s :
  cache_inv s →
  ∃ r s', ext4_block_cache_flush s = Ret (r, s') ∧ quiet s s' ∧
    (r = EOK → dirty_list (c_bc s') = [] ∧
       ∀ a b, a ∈ dirty_list (c_bc s) → c_bufs s !! a = Some b → on_medium s' (b_lba b) = Some (b_data b)).
Proof.
  intros Hi. destruct (cache_flush_loop_run (length (dirty_list (c_bc s))) s Hi) as (r & s' & E & Hq & _ & Hf); [done|].
  exists r, s'. split; [|done]. unfold ext4_block_cache_flush, get_bc. by rewrite (mbind_Ret _ _ s _ s eq_refl).
Qed.

Lemma empty_inv s : geometry s → empty_cache s → cache_inv s.
Proof.
  intros Hg (E1 & E2 & E3 & E4 & E5). split; rewrite ?E1, ?E2, ?E3, ?E4, ?E5; try done.
  - split; [|constructor]. intros a. split; [by intros ?%elem_of_nil|]. by intros [? ?].
  - split; [|constructor]. intros a. split; [by intros ?%elem_of_nil|]. by intros (? & ? & _).
  - split; [|constructor]. by intros a ?%elem_of_nil.
Qed.

Lemma system_represents s m : system s m → represents s m.
Proof.
  induction 1 as [s m Hg He Hm|s m bk lba r s' _ IH Hr Ha Hl E|s m bk lba r s' _ IH Hr Ha Hl E|
    s m a x d s' _ IH Hx Hr Hz E|s m bk x r s' _ IH Hx Hr Hb E|s m r s' _ IH E|s m fr _ IH].
  - split; [by apply empty_inv|]. intros lba Hl. right. split; [|by apply Hm].
    intros a b Ha. destruct He as (E & _). by rewrite E in Ha.
  - destruct (get_run s bk lba (proj1 IH) Hr Ha Hl) as (r' & bk' & s2 & E2 & K & _).
    rewrite E in E2. injection E2 as -> ->. by eapply keeps_represents.
  - destruct (get_noread_run s bk lba (proj1 IH) Hr Ha) as (r' & bk' & s2 & E2 & K & _); [lia|].
    rewrite E in E2. injection E2 as -> ->. by eapply keeps_represents.
  - destruct IH as [Hi Hm]. destruct (overwrite_run s a x d Hi Hx Hr Hz) as (s2 & E2 & Hi2 & Hg & Hw & Ho).
    rewrite E in E2. injection E2 as ->. destruct (same_geom_pos _ _ Hg) as (_ & Eb & _).
    split; [done|]. intros lba Hl. destruct (Z.eqb_spec lba (b_lba x)) as [->|Hne]; [done|].
    apply Ho; [by rewrite <- Eb|done|]. apply Hm. by rewrite <- Eb.
  - destruct (set_run s x bk (proj1 IH) Hx Hr Hb) as (s2 & E2 & K & _).
    rewrite E in E2. injection E2 as -> ->. by eapply keeps_represents.
  - destruct (flush_run s (proj1 IH)) as (r2 & s2 & E2 & Hq & _). rewrite E in E2. injection E2 as -> ->.
    by eapply keeps_represents, quiet_keeps.
  - eapply keeps_represents; [done|]. by apply keeps_fresh, IH.
Qed.

(** Nothing is invalidated when the first block of the range is not cached, even if others are. *)
Lemma invalidate_misses s from cnt :
  cache_inv s → (∀ a b, c_bufs s !! a = Some b → b_lba b ≠ from) →
  ext4_bcache_invalidate_lba from cnt s = Ret (tt, s).
Proof.
  intros Hi Hn. unfold ext4_bcache_invalidate_lba.
  destruct (lookup_run s from Hi) as [(a & b & _ & _ & Ha & El)|[E _]]; [by destruct (Hn a b Ha)|].
  by mstep E.
Qed.

(** ** Theorems *)

(** C24: The cache is a disk: whatever clients that keep its rules did, in any order, with any
    evictions and device errors in between, its invariant holds and a block with a number
    above 0 that is got successfully, while the counters of the cache have room, holds what
    was last written to it through the cache, or what the medium held from the start. *)
Theorem cache_refines_disk s m bk lba bk' s' :
  system s m → room s → alloc_sound s → 0 < lba →
  ext4_block_get bk lba s = Ret ((EOK, bk'), s') →
  cache_inv s' ∧ ∃ x, c_bufs s' !! blk_buf bk' = Some x ∧ b_lba x = lba ∧ 0 < b_refctr x ∧ b_data x = m lba.
Proof.
  intros Hs Hr Ha Hl E. destruct (system_represents s m Hs) as [Hi Hm].
  destruct (get_run s bk lba Hi Hr Ha Hl) as (r & bk2 & s2 & E2 & K & _ & Hg).
  rewrite E in E2. injection E2 as <- <- <-. split; [apply K|].
  destruct (Hg eq_refl) as (Hlt & _ & x & Hx & El & Hp & _ & Hd). exists x. split_and!; try done.
  eapply reads_fun; [done|done|]. apply Hm. lia.
Qed.

(** C25: Getting a block with a number above 0, while the two counters of the cache have room,
    always returns: with an error, or with a buffer of that block whose data is up to date.
    On success the buffer has one holder more than the block had: one more than its buffer
    had, which is then the same buffer, or one if no buffer of the block was held.  In either
    case all blocks still hold what they held, and every other buffer in use stays at its
    place with its data and its number of holders. *)
Theorem ext4_block_get_spec s bk lba :
  cache_inv s → room s → alloc_sound s → 0 < lba →
  ∃ r bk' s', ext4_block_get bk lba s = Ret ((r, bk'), s') ∧ cache_inv s' ∧ same_reads s s' ∧
    pinned (got_more r bk') s s' ∧
    (r = EOK → lba < blocks s ∧ lb_id bk' = lba ∧
      ∃ x, c_bufs s' !! blk_buf bk' = Some x ∧ b_lba x = lba ∧ uptodate x = true ∧
        reads s lba (b_data x) ∧
        (∀ a y, c_bufs s !! a = Some y → b_lba y = lba → b_refctr y ≠ 0 →
           a = blk_buf bk' ∧ b_refctr x = b_refctr y + 1) ∧
        ((∀ a y, c_bufs s !! a = Some y → b_lba y = lba → b_refctr y = 0) → b_refctr x = 1)).
Proof.
  intros Hi Hr Ha Hl. destruct (get_run s bk lba Hi Hr Ha Hl) as (r & bk' & s' & E & (K1 & K2 & _) & P & Hg).
  exists r, bk', s'. split_and!; try done. intros Er. destruct (Hg Er) as (Hlt & Hgb & x & Hx & El & Hp & Hu & Hd).
  split_and!; [done|apply Hgb|]. exists x. split_and!; try done.
  - intros a y Hy Ey Hry. destruct (P a y Hy Hry) as (y' & Hy' & Ey' & Rc & _).
    assert (a = blk_buf bk') as -> by (eapply one_buffer; [exact K1|exact Hy'|exact Hx|congruence]).
    split; [done|]. subst r. change (got_more EOK bk') with (one_more (blk_buf bk')) in Rc.
    rewrite one_more_at in Rc. congruence.
  - intros Hno. destruct Hgb as (_ & _ & z & Hz & _ & _ & _ & H1). assert (z = x) as -> by congruence.
    apply H1. intros y Hy. destruct (decide (b_refctr y = 0)) as [?|Hry]; [done|].
    destruct (P _ y Hy Hry) as (y' & Hy' & Ey' & _). apply (Hno _ y Hy). congruence.
Qed.

(** C26: Flushing persists: [ext4_block_cache_flush] returns after at most one write for each
    buffer on the dirty list, changes the contents of no block and no buffer in use, and when
    it reports success every buffer that was waiting to be written is on the medium. *)
Theorem ext4_block_cache_flush_spec s :
  cache_inv s →
  ∃ r s', ext4_block_cache_flush s = Ret (r, s') ∧ cache_inv s' ∧ same_reads s s' ∧ pinned none_more s s' ∧
    (r = EOK → dirty_list (c_bc s') = [] ∧
       ∀ a b, a ∈ dirty_list (c_bc s) → c_bufs s !! a = Some b → on_medium s' (b_lba b) = Some (b_data b)).
Proof.
  intros Hi. destruct (flush_run s Hi) as (r & s' & E & Hq & Hf). exists r, s'.
  split_and!; [done|apply Hq|apply Hq|by apply quiet_pinned|done..].
Qed.
End spec.

(** ** Examples *)

#[export] Instance no_journal : EndWrite ram := λ _ _ _ _, mret tt.

(** Five blocks of eight bytes; room for two buffers; [kalloc] has memory for six. *)
Definition demo_cache : cstate ram :=
  CState (EDev (ExtBlockdev (ExtIface RAM_BSIZE 11 [0; 0; 0; 0] 1 0 0) 4 40 8 5 1) (Ram (seqZ 0 44) false))
    (Bcache 2 8 0 0 0 false [] [] []) ∅
    ((λ a, (Some [9; 9; 9; 9; 9; 9; 9; 9], a)) <$> [0x100; 0x200; 0x300; 0x400; 0x500; 0x600]).

Definition demo_blocks (lba : Z) : list Z := seqZ (4 + 8 * lba) 8.

Lemma demo_system : system demo_cache demo_blocks.
Proof.
  apply sys_start.
  - split; cbn; done.
  - done.
  - intros lba Hl. assert ((lba = 0) ∨ (lba = 1) ∨ (lba = 2) ∨ (lba = 3) ∨ (lba = 4))
      as [->|[->|[->|[-> | ->]]]] by (cbn in Hl; lia); by vm_compute.
Qed.

Definition room_check {D} (s : cstate D) : bool :=
  (lru_ctr (c_bc s) + 1 <? 2 ^ 32) && bool_decide (map_Forall (λ _ b, b_refctr b + 1 < 2 ^ 32) (c_bufs s)).
Lemma room_check_ok {D} (s : cstate D) : room_check s = true → room s.
Proof.
  unfold room_check. intros H. apply andb_prop in H as [H1%Z.ltb_lt H2%bool_decide_eq_true].
  split; [done|]. intros a b Hb. exact (H2 a b Hb).
Qed.
Definition alloc_check {D} (s : cstate D) : bool :=
  match c_fresh s with
  | (Some d, a) :: _ => (zlen d =? itemsize (c_bc s)) && bool_decide (c_bufs s !! a = None)
  | _ => true
  end.
Lemma alloc_check_ok {D} (s : cstate D) : alloc_check s = true → alloc_sound s.
Proof.
  unfold alloc_check. intros H d a fr E. rewrite E in H.
  by apply andb_prop in H as [H1%Z.eqb_eq H2%bool_decide_eq_true].
Qed.

Definition after {S A} (m : M S A) (s : S) : S := outcome_state (m s) s.
Definition demo_data : list Z := [80; 81; 82; 83; 84; 85; 86; 87].

(** Block 1 is got, overwritten and given back; getting 2 and 3 evicts it. *)
Definition demo1 := after (ext4_block_get EXT4_BLOCK_ZERO 1) demo_cache.
Definition demo2 := after (overwrite 0x100 demo_data) demo1.
Definition demo3 := after (ext4_block_set (Block 1 0x100 0x100)) demo2.
Definition demo4 := after (ext4_block_get EXT4_BLOCK_ZERO 2) demo3.
Definition demo5 := after (ext4_block_get EXT4_BLOCK_ZERO 3) demo4.
Definition demo_blocks' (lba : Z) : list Z := if lba =? 1 then demo_data else demo_blocks lba.

Lemma demo3_system : system demo3 demo_blocks'.
Proof.
  apply (sys_set demo2 _ (Block 1 0x100 0x100)
    (Buf 3 1 demo_data 1 1 false 0 0) (EOK, Block 0 0x100 0)); [|by vm_compute|by vm_compute|done|].
  - apply (sys_write demo1 demo_blocks 0x100 (Buf 1 1 (demo_blocks 1) 1 1 false 0 0) demo_data);
      [|by vm_compute|by vm_compute|by vm_compute|by apply outcome_value; vm_compute].
    apply (sys_get demo_cache _ EXT4_BLOCK_ZERO 1 (EOK, Block 1 0x100 0x100)); [apply demo_system|
      by apply room_check_ok; vm_compute|by apply alloc_check_ok; vm_compute|lia|
      by apply outcome_value; vm_compute].
  - by apply outcome_value; vm_compute.
Qed.

Lemma demo5_system : system demo5 demo_blocks'.
Proof.
  apply (sys_get demo4 _ EXT4_BLOCK_ZERO 3 (EOK, Block 3 0x300 0x300)); [|
    by apply room_check_ok; vm_compute|by apply alloc_check_ok; vm_compute|lia|by apply outcome_value; vm_compute].
  apply (sys_get demo3 _ EXT4_BLOCK_ZERO 2 (EOK, Block 2 0x200 0x200)); [apply demo3_system|
    by apply room_check_ok; vm_compute|by apply alloc_check_ok; vm_compute|lia|by apply outcome_value; vm_compute].
Qed.

(** It went to the medium and comes back. *)
Lemma cache_refines_disk_witness :
  c_bufs demo5 !! 0x100 = None ∧ on_medium demo5 1 = Some demo_data ∧
  let s' := after (ext4_block_get EXT4_BLOCK_ZERO 1) demo5 in
  ∃ x, c_bufs s' !! 0x400 = Some x ∧ b_data x = demo_data.
Proof.
  split; [by vm_compute|]. split; [by vm_compute|]. cbv zeta.
  assert (room demo5) as Hr by (by apply room_check_ok; vm_compute).
  assert (alloc_sound demo5) as Ha by (by apply alloc_check_ok; vm_compute).
  assert (ext4_block_get EXT4_BLOCK_ZERO 1 demo5 =
    Ret ((EOK, Block 1 0x400 0x400), after (ext4_block_get EXT4_BLOCK_ZERO 1) demo5)) as E
    by (apply outcome_value; by vm_compute).
  destruct (cache_refines_disk demo5 demo_blocks' EXT4_BLOCK_ZERO 1 _ _ demo5_system Hr Ha ltac:(lia) E)
    as (_ & x & Hx & _ & _ & Hd).
  exists x. exact (conj Hx Hd).
Defined.

Lemma ext4_block_get_spec_witness :
  ∃ bk' s' x, ext4_block_get EXT4_BLOCK_ZERO 1 demo3 = Ret ((EOK, bk'), s') ∧
    c_bufs s' !! blk_buf bk' = Some x ∧ reads demo3 1 (b_data x).
Proof.
  assert (room demo3) as Hr by (by apply room_check_ok; vm_compute).
  assert (alloc_sound demo3) as Ha by (by apply alloc_check_ok; vm_compute).
  destruct (ext4_block_get_spec demo3 EXT4_BLOCK_ZERO 1 (proj1 (system_represents _ _ demo3_system)) Hr Ha ltac:(lia))
    as (r & bk' & s' & E & _ & _ & _ & H).
  assert (r = EOK) as -> by (vm_compute in E; injection E as <- _ _; reflexivity).
  destruct (H eq_refl) as (_ & _ & x & Hx & _ & _ & Hd & _). exists bk', s', x.
  exact (conj E (conj Hx Hd)).
Defined.

(** With delayed writes the block waits on the dirty list until the flush. *)
Lemma ext4_block_cache_flush_spec_witness :
  dirty_list (c_bc demo3) = [0x100] ∧ on_medium demo3 1 = Some (demo_blocks 1) ∧
  ∃ s', ext4_block_cache_flush demo3 = Ret (EOK, s') ∧ on_medium s' 1 = Some demo_data.
Proof.
  split; [by vm_compute|]. split; [by vm_compute|].
  destruct (ext4_block_cache_flush_spec demo3 (proj1 (system_represents _ _ demo3_system)))
    as (r & s' & E & _ & _ & _ & H).
  assert (r = EOK) as -> by (vm_compute in E; injection E as <- _; reflexivity).
  exists s'. split; [exact E|]. destruct (H eq_refl) as [_ Hall].
  apply (Hall 0x100 (Buf 3 1 demo_data 1 0 true 0 0)); [|by vm_compute].
  change (dirty_list (c_bc demo3)) with [0x100]. by left.
Defined.

(** Blocks 0 and 1 are freed; 1 is dirty in the cache, 0 is not cached, so nothing is
    invalidated.  Block 1 is then written directly, as file contents are, and the flush puts
    the old data over it. *)
Example stale_buffer_overwrites :
  let s1 := after (ext4_bcache_invalidate_lba 0 2) demo3 in
  let s2 := after (on_dev (ext4_blocks_set_direct [1; 2; 3; 4; 5; 6; 7; 8] 1 1)) s1 in
  let s3 := after ext4_block_cache_flush s2 in
  on_medium s2 1 = Some [1; 2; 3; 4; 5; 6; 7; 8] ∧ on_medium s3 1 = Some demo_data.
Proof. by vm_compute. Qed.

(** Without delayed writes the last [ext4_block_set] writes the block; it reports success
    although the write failed, and a later flush, on a device that works again, reports success
    and writes nothing. *)
Definition through (broken : bool) (s : cstate ram) : cstate ram :=
  with_dev (EDev (set_cache_write_back 0 (ed_bd (c_dev s))) (Ram (ram_medium (ed_drv (c_dev s))) broken)) s.
Example failed_write_forgotten :
  let s1 := through true demo2 in
  let s2 := after (ext4_block_set (Block 1 0x100 0x100)) s1 in
  let s3 := after ext4_block_cache_flush (through false s2) in
  ext4_block_set (Block 1 0x100 0x100) s1 = Ret ((EOK, Block 0 0x100 0), s2) ∧
  ext4_block_cache_flush (through false s2) = Ret (EOK, s3) ∧
  on_medium s3 1 = Some (demo_blocks 1).
Proof. by vm_compute. Qed.
