(* ===== verification/Net.v ===== *)
(** * The network stack: packets, Ethernet, IP and UDP

    Models [kernel/net/eth.c], [kernel/net/ip.c], [kernel/net/udp.c] and the packet
    allocator of [kernel/net/netutils.c]. A packet is its header pointers, as addresses,
    and the bytes of the allocation after the header structure; every access goes
    through a pointer and faults outside those bytes. *)

From S2P Require Export Inet.

Definition PACKET_SIZE : Z := 2048.
(** [offsetof(struct packet, data)] and [sizeof(struct packet)]. *)
Definition PACKET_DATA : Z := 60.
Definition PACKET_CAPACITY : Z := PACKET_SIZE - 64.
Definition MAX_ETH_PKT_SIZE : Z := 1514.
Definition MAC_SIZE : Z := 6.
Definition ETH_HLEN : Z := 14.
Definition IP_HLEN : Z := 20.
Definition UDP_HLEN : Z := 8.
Definition ETHERTYPE_IP : Z := 0x0800.
Definition IPPROTO_UDP : Z := 17.
Definition MAX_MAPPINGS : Z := 16.
Definition UDP_HLIST_SIZE : Z := 128.
Definition EPH_BEGIN : Z := 20000.
Definition SOCKADDR_SIZE : Z := 12.

Definition EINVAL : Z := 22.
Definition EDESTADDRREQ : Z := 89.
Definition EMSGSIZE : Z := 90.
Definition EADDRINUSE : Z := 98.
Definition EADDRNOTAVAIL : Z := 99.
Definition EBUSY : Z := 16.

(** ** Data *)

Record netif := Netif {
  ip : Z;
  mac : list Z;
  gateway_ip : Z;
  subnet_mask : Z
}.

Record packet := Packet {
  ll : Z;
  nl : Z;
  tl : Z;
  al : Z;
  pend : Z;
  capacity : Z;
  raw : list Z
}.

Record sockaddr_in := SockaddrIn {
  sin_family : Z;
  sin_port : Z;
  s_addr : Z
}.

Record socket := Socket {
  sk_bound : bool;
  sk_connected : bool;
  sk_open : bool;
  src : sockaddr_in;
  dst : sockaddr_in;
  sk_ops : Z;
  recvq : list Z;
  netdev : Z
}.

Record udp_wait_entry := UdpWaitEntry {
  e_sock : Z;
  e_rcv : Z;
  e_port : Z
}.

(** The argument of a [sleep] or [wakeup]: an object, or a local variable of a function
    that has since returned. *)
Inductive chan := At (a : Z) | LocalVar.

(** The buckets of [udp_hlist] are lists of the addresses of their entries, front first;
    a receive queue is the list of its packets; [heap] holds the addresses the allocator
    will hand out (0 when it fails); [woken] the channels woken so far, latest first;
    [usr] the memory outside. *)
Record net (U : Type) := Net {
  udp_hlist : list (list Z);
  entries : gmap Z udp_wait_entry;
  socks : gmap Z socket;
  packets : gmap Z packet;
  netifs : gmap Z netif;
  mappings : list (Z * list Z);
  nmap : Z;
  ipid : Z;
  eph_next : Z;
  sockops_list : list Z;
  heap : list Z;
  woken : list chan;
  usr : U
}.
Arguments Net {U} _ _ _ _ _ _ _ _ _ _ _ _ _.
Arguments udp_hlist {U} _.
Arguments entries {U} _.
Arguments socks {U} _.
Arguments packets {U} _.
Arguments netifs {U} _.
Arguments mappings {U} _.
Arguments nmap {U} _.
Arguments ipid {U} _.
Arguments eph_next {U} _.
Arguments sockops_list {U} _.
Arguments heap {U} _.
Arguments woken {U} _.
Arguments usr {U} _.

Section setters.
Context {U : Type}.
Implicit Types s : net U.

Definition set_udp_hlist x s := Net x (entries s) (socks s) (packets s) (netifs s) (mappings
  s) (nmap s) (ipid s) (eph_next s) (sockops_list s) (heap s) (woken s) (usr s).
Definition set_entries x s := Net (udp_hlist s) x (socks s) (packets s) (netifs s) (mappings
  s) (nmap s) (ipid s) (eph_next s) (sockops_list s) (heap s) (woken s) (usr s).
Definition set_socks x s := Net (udp_hlist s) (entries s) x (packets s) (netifs s) (mappings
  s) (nmap s) (ipid s) (eph_next s) (sockops_list s) (heap s) (woken s) (usr s).
Definition set_packets x s := Net (udp_hlist s) (entries s) (socks s) x (netifs s) (mappings
  s) (nmap s) (ipid s) (eph_next s) (sockops_list s) (heap s) (woken s) (usr s).
Definition set_netifs x s := Net (udp_hlist s) (entries s) (socks s) (packets s) x (mappings
  s) (nmap s) (ipid s) (eph_next s) (sockops_list s) (heap s) (woken s) (usr s).
Definition set_mappings x s := Net (udp_hlist s) (entries s) (socks s) (packets s) (netifs
  s) x (nmap s) (ipid s) (eph_next s) (sockops_list s) (heap s) (woken s) (usr s).
Definition set_nmap x s := Net (udp_hlist s) (entries s) (socks s) (packets s) (netifs s)
  (mappings s) x (ipid s) (eph_next s) (sockops_list s) (heap s) (woken s) (usr s).
Definition set_ipid x s := Net (udp_hlist s) (entries s) (socks s) (packets s) (netifs s)
  (mappings s) (nmap s) x (eph_next s) (sockops_list s) (heap s) (woken s) (usr s).
Definition set_eph_next x s := Net (udp_hlist s) (entries s) (socks s) (packets s) (netifs
  s) (mappings s) (nmap s) (ipid s) x (sockops_list s) (heap s) (woken s) (usr s).
Definition set_sockops_list x s := Net (udp_hlist s) (entries s) (socks s) (packets s)
  (netifs s) (mappings s) (nmap s) (ipid s) (eph_next s) x (heap s) (woken s) (usr s).
Definition set_heap x s := Net (udp_hlist s) (entries s) (socks s) (packets s) (netifs s)
  (mappings s) (nmap s) (ipid s) (eph_next s) (sockops_list s) x (woken s) (usr s).
Definition set_woken x s := Net (udp_hlist s) (entries s) (socks s) (packets s) (netifs s)
  (mappings s) (nmap s) (ipid s) (eph_next s) (sockops_list s) (heap s) x (usr s).
Definition set_usr (x : U) s := Net (udp_hlist s) (entries s) (socks s) (packets s) (netifs s)
  (mappings s) (nmap s) (ipid s) (eph_next s) (sockops_list s) (heap s) (woken s) x.
End setters.

(** What the stack uses besides itself: the driver of a network device, user memory
    ([copy_from_user] gives its result and the bytes copied), plain memory writes and
    [sleep]. *)
Class NetEnv (U : Type) := {
  net_send : Z → Z → M (net U) unit;
  copy_from_user : Z → Z → M (net U) (Z * list Z);
  store : Z → list Z → M (net U) unit;
  sleep : chan → M (net U) unit
}.

Section net.
Context {U : Type} `{NetEnv U}.

(** ** Packets *)

Definition get_pkt (p : Z) : M (net U) packet := mtry (λ s, packets s !! p).
Definition put_pkt (p : Z) (x : packet) : M (net U) unit :=
  modify (λ s, set_packets (<[p := x]> (packets s)) s).
Definition set_ll (p v : Z) : M (net U) unit :=
  x ← get_pkt p; put_pkt p (Packet v (nl x) (tl x) (al x) (pend x) (capacity x) (raw x)).
Definition set_nl (p v : Z) : M (net U) unit :=
  x ← get_pkt p; put_pkt p (Packet (ll x) v (tl x) (al x) (pend x) (capacity x) (raw x)).
Definition set_tl (p v : Z) : M (net U) unit :=
  x ← get_pkt p; put_pkt p (Packet (ll x) (nl x) v (al x) (pend x) (capacity x) (raw x)).
Definition set_al (p v : Z) : M (net U) unit :=
  x ← get_pkt p; put_pkt p (Packet (ll x) (nl x) (tl x) v (pend x) (capacity x) (raw x)).
Definition set_end (p v : Z) : M (net U) unit :=
  x ← get_pkt p; put_pkt p (Packet (ll x) (nl x) (tl x) (al x) v (capacity x) (raw x)).

(** [n] bytes of packet [p] at address [a]. *)
Definition rdb (p a n : Z) : M (net U) (list Z) :=
  x ← get_pkt p; mlift (zslice (raw x) (a - (p + PACKET_DATA)) n).
Definition wrb (p a : Z) (l : list Z) : M (net U) unit :=
  x ← get_pkt p;
  r ← mlift (zsplice (raw x) (a - (p + PACKET_DATA)) l);
  put_pkt p (Packet (ll x) (nl x) (tl x) (al x) (pend x) (capacity x) r).
(** Little-endian loads and stores. *)
Definition rd8 (p a : Z) : M (net U) Z := b ← rdb p a 1; mret (octets b).
Definition rd16 (p a : Z) : M (net U) Z := b ← rdb p a 2; mret (octets b).
Definition rd32 (p a : Z) : M (net U) Z := b ← rdb p a 4; mret (octets b).
Definition wr8 (p a v : Z) : M (net U) unit := wrb p a (le_bytes 1 v).
Definition wr16 (p a v : Z) : M (net U) unit := wrb p a (le_bytes 2 v).
Definition wr32 (p a v : Z) : M (net U) unit := wrb p a (le_bytes 4 v).

(** The 16-bit words a byte sequence of even length holds. *)
Fixpoint words16 (l : list Z) : list Z :=
  match l with a :: b :: l => (a + 256 * b) :: words16 l | _ => [] end.

Definition rd_words (p a n : Z) : M (net U) (list Z) :=
  b ← rdb p a (2 * n); mret (words16 b).

Definition kalloc_addr : M (net U) Z :=
  s ← mget;
  match heap s with
  | [] => mpanic
  | a :: l => modify (set_heap l);; mret a
  end.

(** [memset] of a failed allocation writes to NULL. *)
Definition packet_alloc : M (net U) Z :=
  p ← kalloc_addr;
  if p =? 0 then mfault
  else
    put_pkt p (Packet 0 0 0 0 0 PACKET_CAPACITY
                 (replicate (Z.to_nat (PACKET_SIZE - PACKET_DATA)) 0));;
    mret p.

Definition packet_free (p : Z) : M (net U) unit :=
  get_pkt p;; modify (λ s, set_packets (delete p (packets s)) s).

(** ** Ethernet *)

Definition broadcast_mac : list Z := [0xFF; 0xFF; 0xFF; 0xFF; 0xFF; 0xFF].

Definition get_netif (d : Z) : M (net U) netif := mtry (λ s, netifs s !! d).

Definition eth_send (d p ethertype : Z) (dst_mac : option (list Z)) : M (net U) Z :=
  x ← get_pkt p;
  set_ll p (nl x - ETH_HLEN);;
  x ← get_pkt p;
  if ll x <? p + PACKET_DATA then mret (-1)
  else
    i ← get_netif d;
    wrb p (ll x + 6) (mac i);;
    m ← mlift dst_mac;
    wrb p (ll x) m;;
    wr16 p (ll x + 12) (htons ethertype);;
    net_send d p;;
    mret 0.

(** ** IP *)

(** The scan of [mappings], from entry [i] up to [nmap]: the index found, or [nmap]. *)
Fixpoint mapping_index (fuel : nat) (l : list (Z * list Z)) (n i ip : Z) : option Z :=
  if i <? n then
    match fuel with
    | O => None
    | S fuel =>
        match znth l i with
        | Some m => if m.1 =? ip then Some i else mapping_index fuel l n (i + 1) ip
        | None => None
        end
    end
  else Some i.

Definition find_mapping (ip : Z) : M (net U) Z :=
  s ← mget; mlift (mapping_index (Z.to_nat (nmap s)) (mappings s) (nmap s) 0 ip).

Definition get_mapping (ip : Z) : M (net U) (option (list Z)) :=
  i ← find_mapping ip;
  s ← mget;
  if i <? nmap s then m ← mlift (znth (mappings s) i); mret (Some m.2) else mret None.

(** A full table is logged and overrun all the same. *)
Definition upsert_mapping (ip : Z) (mac : list Z) : M (net U) unit :=
  i ← find_mapping ip;
  s ← mget;
  mwhen (i =? nmap s) (modify (set_nmap (i32 (nmap s + 1))));;
  l ← mlift (zset (mappings s) i (ip, mac));
  modify (set_mappings l).

Definition ip_route (i : netif) (dst_ip : Z) : Z :=
  if Z.land dst_ip (subnet_mask i) =? Z.land (gateway_ip i) (subnet_mask i)
  then dst_ip else gateway_ip i.

Definition ip_get_mac (nexthop : Z) : M (net U) (option (list Z)) := get_mapping nexthop.

Definition ip_send (d p proto src_ip dst_ip : Z) : M (net U) Z :=
  i ← get_netif d;
  m ← ip_get_mac (ip_route i dst_ip);
  x ← get_pkt p;
  set_nl p (tl x - IP_HLEN);;
  let n := tl x - IP_HLEN in
  wr8 p n (Z.lor 5 (Z.shiftl 4 4));;
  wr16 p (n + 2) (htons (u16 (pend x - n)));;
  id ← gets ipid;
  modify (set_ipid (u32 (id + 1)));;
  wr16 p (n + 4) (htons (u16 id));;
  wr8 p (n + 8) 32;;
  wr8 p (n + 9) proto;;
  wr32 p (n + 12) (ip i);;
  wr32 p (n + 16) dst_ip;;
  ws ← rd_words p n 10;
  c ← mlift (csum_finalize (csum_add csum_init ws));
  wr16 p (n + 10) c;;
  eth_send d p ETHERTYPE_IP m;;
  mret 0.

Definition ip_reserve : Z := ETH_HLEN + IP_HLEN.

(** ** UDP *)

Definition udp_hash (port : Z) : Z := port mod UDP_HLIST_SIZE.

Definition bucket (h : Z) : M (net U) (list Z) := mtry (λ s, znth (udp_hlist s) h).
Definition get_entry (e : Z) : M (net U) udp_wait_entry := mtry (λ s, entries s !! e).
Definition put_entry (e : Z) (x : udp_wait_entry) : M (net U) unit :=
  modify (λ s, set_entries (<[e := x]> (entries s)) s).
Definition get_sock (k : Z) : M (net U) socket := mtry (λ s, socks s !! k).
Definition put_sock (k : Z) (x : socket) : M (net U) unit :=
  modify (λ s, set_socks (<[k := x]> (socks s)) s).
Definition set_bucket (h : Z) (l : list Z) : M (net U) unit :=
  s ← mget; u ← mlift (zset (udp_hlist s) h l); modify (set_udp_hlist u).
(** [hlist_insert] on a bucket. *)
Definition bucket_insert (h e : Z) : M (net U) unit := l ← bucket h; set_bucket h (e :: l).
Definition wakeup (c : chan) : M (net U) unit := modify (λ s, set_woken (c :: woken s) s).
Definition set_recvq (k : Z) (q : list Z) : M (net U) unit :=
  x ← get_sock k;
  put_sock k (Socket (sk_bound x) (sk_connected x) (sk_open x) (src x) (dst x) (sk_ops x)
                q (netdev x)).

Fixpoint lookup_loop (l : list Z) (port : Z) : M (net U) Z :=
  match l with
  | [] => mret 0
  | e :: l =>
      x ← get_entry e;
      if e_port x =? port then mret e else lookup_loop l port
  end.
Definition lookup_entry (port : Z) : M (net U) Z :=
  l ← bucket (udp_hash port); lookup_loop l port.

(** Handing a packet to the first taker of a bucket; [false] when nobody takes it. The
    field [sock] is eight bytes into its entry. *)
Fixpoint deliver (l : list Z) (p port : Z) : M (net U) bool :=
  match l with
  | [] => mret false
  | e :: l =>
      x ← get_entry e;
      if ctrue (e_sock x) then
        k ← get_sock (e_sock x);
        set_recvq (e_sock x) (recvq k ++ [p]);;
        wakeup (At (e + 8));;
        mret true
      else if e_port x =? port then
        put_entry e (UdpWaitEntry (e_sock x) p (e_port x));;
        wakeup LocalVar;;
        mret true
      else deliver l p port
  end.

Definition udp_recv (d p : Z) : M (net U) unit :=
  x ← get_pkt p;
  w ← rd16 p (tl x + 2);
  let hash := udp_hash (ntohs w) in
  set_al p (tl x + UDP_HLEN);;
  l ← bucket hash;
  taken ← deliver l p (ntohs w);
  if (taken : bool) then mret tt else packet_free p.

Definition udp_send (d p src_ip dst_ip src_port dst_port : Z) : M (net U) unit :=
  x ← get_pkt p;
  let t := al x - UDP_HLEN in
  set_tl p t;;
  wr16 p t src_port;;
  wr16 p (t + 2) dst_port;;
  wr16 p (t + 4) (htons (u16 (pend x - t)));;
  let len_rounded := u32 (pend x - t) in
  let len_rounded := len_rounded / 2 + len_rounded mod 2 in
  wr16 p (t + 6) 0;;
  len ← rd16 p (t + 4);
  ws ← rd_words p t len_rounded;
  let csum := csum_add csum_init (words16 (le_bytes 4 src_ip)) in
  let csum := csum_add csum (words16 (le_bytes 4 dst_ip)) in
  let csum := csum_add_value csum (ntohs IPPROTO_UDP) in
  let csum := csum_add csum [len] in
  let csum := csum_add csum ws in
  c ← mlift (csum_finalize csum);
  wr16 p (t + 6) c;;
  ip_send d p IPPROTO_UDP src_ip dst_ip;;
  mret tt.

Definition udp_reserve : Z := ip_reserve + UDP_HLEN.

Definition ip_recv (d p : Z) : M (net U) unit :=
  i ← get_netif d;
  x ← get_pkt p;
  dip ← rd32 p (nl x + 16);
  if negb (dip =? ip i) && negb (dip =? 0xFFFFFFFF) then packet_free p
  else
    ver ← rd8 p (nl x);
    set_tl p (nl x + Z.land ver 0x0F * 4);;
    if pend x <? nl x + Z.land ver 0x0F * 4 then packet_free p
    else
      sip ← rd32 p (nl x + 12);
      m ← rdb p (ll x + 6) MAC_SIZE;
      upsert_mapping sip m;;
      proto ← rd8 p (nl x + 9);
      if proto =? IPPROTO_UDP then udp_recv d p else packet_free p.

Definition eth_recv (d p : Z) : M (net U) unit :=
  x ← get_pkt p;
  set_nl p (ll x + ETH_HLEN);;
  i ← get_netif d;
  m ← rdb p (ll x) MAC_SIZE;
  if bool_decide (m = broadcast_mac) || bool_decide (m = mac i) then
    w ← rd16 p (ll x + 12);
    if ntohs w =? ETHERTYPE_IP then ip_recv d p else packet_free p
  else packet_free p.

Definition sockaddr_of (b : list Z) : option sockaddr_in :=
  f ← zslice b 0 4; q ← zslice b 4 2; a ← zslice b 8 4;
  Some (SockaddrIn (octets f) (octets q) (octets a)).

Definition set_flags (k : Z) (b c o : bool) : M (net U) unit :=
  x ← get_sock k;
  put_sock k (Socket b c o (src x) (dst x) (sk_ops x) (recvq x) (netdev x)).

Definition udp_do_bind (k : Z) (addr : sockaddr_in) : M (net U) unit :=
  let hash := udp_hash (ntohs (sin_port addr)) in
  e ← kalloc_addr;
  if e =? 0 then mfault
  else
    put_entry e (UdpWaitEntry k 0 (ntohs (sin_port addr)));;
    bucket_insert hash e;;
    x ← get_sock k;
    put_sock k (Socket true (sk_connected x) (sk_open x) addr (dst x) (sk_ops x)
                  (recvq x) (netdev x)).

(** [family] is the uninitialised [sin_family] of the local address. *)
Fixpoint ephemeral_loop (tries : nat) (k family : Z) : M (net U) bool :=
  match tries with
  | O => mret false
  | S tries =>
      prev ← gets eph_next;
      modify (set_eph_next (if prev =? 65535 then EPH_BEGIN else u16 (prev + 1)));;
      e ← lookup_entry (htons prev);
      if e =? 0 then
        udp_do_bind k (SockaddrIn family (htons prev) 0);; mret true
      else ephemeral_loop tries k family
  end.
Definition udp_bind_to_ephemeral (k family : Z) : M (net U) bool :=
  ephemeral_loop 100 k family.

Definition udp_bind (k address address_len : Z) : M (net U) Z :=
  x ← get_sock k;
  if sk_bound x then mret (- EINVAL)
  else if negb (address_len =? SOCKADDR_SIZE) then mret (- EINVAL)
  else
    '(rv, b) ← copy_from_user address address_len;
    if i32 rv <? 0 then mret (i32 rv)
    else
      addr ← mlift (sockaddr_of b);
      i ← get_netif (netdev x);
      if negb (s_addr addr =? 0) && negb (s_addr addr =? ip i) then mret (- EADDRNOTAVAIL)
      else
        e ← lookup_entry (sin_port addr);
        if ctrue e then mret (- EADDRINUSE)
        else udp_do_bind k addr;; mret 0.

Definition udp_connect (k address address_len : Z) : M (net U) Z :=
  if negb (address_len =? SOCKADDR_SIZE) then mret (- EINVAL)
  else
    '(rv, b) ← copy_from_user address address_len;
    if i32 rv <? 0 then mret (i32 rv)
    else
      addr ← mlift (sockaddr_of b);
      x ← get_sock k;
      put_sock k (Socket (sk_bound x) true (sk_open x) (src x) addr (sk_ops x)
                    (recvq x) (netdev x));;
      mret 0.

Definition udp_sys_send (k data len flags : Z) : M (net U) Z :=
  let space := udp_reserve in
  if MAX_ETH_PKT_SIZE <? u64 (space + len) then mret (- EMSGSIZE)
  else
    x ← get_sock k;
    if negb (sk_connected x) then mret (- EDESTADDRREQ)
    else
      ok ← (if sk_bound x then mret true else udp_bind_to_ephemeral k 0);
      if negb ok then mret (- EADDRINUSE)
      else
        p ← packet_alloc;
        let app := p + PACKET_DATA + space in
        set_al p app;;
        '(rv, b) ← copy_from_user data len;
        if i32 rv <? 0 then packet_free p;; mret (i32 rv)
        else
          wrb p app b;;
          set_end p (app + len);;
          x ← get_sock k;
          i ← get_netif (netdev x);
          let a := if ctrue (s_addr (src x)) then s_addr (src x) else ip i in
          udp_send (netdev x) p a (s_addr (dst x)) (sin_port (src x)) (sin_port (dst x));;
          mret (i32 len).

Definition socket_recvq_get (k : Z) : M (net U) Z :=
  x ← get_sock k; mret (default 0 (head (recvq x))).

(** [sleep] until a packet is there; [fuel] bounds the wake-ups. *)
Fixpoint recv_wait (fuel : nat) (k : Z) : M (net U) Z :=
  p ← socket_recvq_get k;
  if ctrue p then mret p
  else match fuel with O => mspin | S fuel => sleep (At k);; recv_wait fuel k end.

(** The result of [memcpy] is its destination, tested as an [int]. *)
Definition udp_sys_recv (fuel : nat) (k data len flags : Z) : M (net U) Z :=
  x ← get_sock k;
  if negb (sk_bound x) then mret (- EINVAL)
  else
    p ← recv_wait fuel k;
    q ← get_pkt p;
    let pktlen := u32 (pend q - al q) in
    if len <? pktlen then mret (- EMSGSIZE)
    else
      b ← rdb p (al q) pktlen;
      store data b;;
      let rv := i32 data in
      if rv <? 0 then mret rv
      else
        x ← get_sock k;
        set_recvq k (List.tl (recvq x));;
        packet_free p;;
        mret (i32 pktlen).

Definition udp_sys_close (k : Z) : M (net U) Z :=
  x ← get_sock k;
  if negb (sk_bound x) then mret (- EINVAL)
  else
    e ← lookup_entry (ntohs (sin_port (src x)));
    if ctrue e then mret (- EBUSY)
    else set_flags k false false (sk_open x);; mret 0.

(** ** The IP-to-MAC table *)

(** [j] is the first index of [ip] from [i] on, or [n]. *)
Definition first_index (l : list (Z * list Z)) (n i ip j : Z) : Prop :=
  i ≤ j ≤ n ∧ (∀ k, i ≤ k < j → ∃ m, znth l k = Some m ∧ m.1 ≠ ip) ∧
  (j < n → ∃ m, znth l j = Some m ∧ m.1 = ip).

Lemma mapping_index_first fuel l n i ip j :
  n - i ≤ Z.of_nat fuel → first_index l n i ip j → mapping_index fuel l n i ip = Some j.
Proof.
  revert i. induction fuel as [|fuel IH]; intros i Hf (Hj & Hne & Heq); cbn [mapping_index].
  - rewrite (proj2 (Z.ltb_ge i n)) by lia. f_equal. lia.
  - destruct (Z.ltb_spec i n); [|f_equal; lia].
    destruct (decide (i = j)) as [->|].
    + destruct Heq as (m & -> & <-); [lia|]. by rewrite Z.eqb_refl.
    + destruct (Hne i) as (m & -> & Hm); [lia|]. rewrite (proj2 (Z.eqb_neq _ _)) by done.
      apply IH; [lia|]. split_and!; [lia..| |done]. intros k Hk. apply Hne. lia.
Qed.

Lemma first_index_exists l n i ip :
  0 ≤ i ≤ n → n ≤ zlen l → ∃ j, first_index l n i ip j.
Proof.
  intros Hi Hn. remember (Z.to_nat (n - i)) as d eqn:Hd. revert i Hi Hd.
  induction d as [|d IH]; intros i Hi Hd.
  - exists n. split_and!; [lia..| |lia]. intros. lia.
  - destruct (znth_lt l i) as [m Hm]; [lia|]. destruct (decide (m.1 = ip)).
    + exists i. split_and!; [lia..| |eauto]. intros. lia.
    + destruct (IH (i + 1)) as (j & Hj & Hne & Heq); [lia..|].
      exists j. split_and!; [lia..| |done]. intros k Hk.
      destruct (decide (k = i)) as [->|]; [eauto|]. apply Hne. lia.
Qed.

Definition arp_ok (s : net U) : Prop :=
  zlen (mappings s) = MAX_MAPPINGS ∧ 1 ≤ nmap s ≤ MAX_MAPPINGS.

Lemma find_mapping_first s ip j :
  arp_ok s → first_index (mappings s) (nmap s) 0 ip j → find_mapping ip s = Ret (j, s).
Proof.
  intros [_ Hn] Hj. unfold find_mapping. munfold.
  by rewrite (mapping_index_first _ _ _ _ _ j) by (done || lia).
Qed.

Lemma get_mapping_first s ip j :
  arp_ok s → first_index (mappings s) (nmap s) 0 ip j →
  get_mapping ip s = Ret (if j <? nmap s then snd <$> znth (mappings s) j else None, s).
Proof.
  intros Hok Hj. unfold get_mapping. mstep (find_mapping_first s ip j Hok Hj).
  munfold. destruct (Z.ltb_spec j (nmap s)); [|done].
  destruct Hj as (_ & _ & Heq). destruct (Heq H0) as (m & -> & _). done.
Qed.

(** Overwriting the entry found, or adding one at the end. *)
Lemma first_index_update l n ip mac l' j ip' i :
  0 ≤ n → first_index l n 0 ip j → zset l j (ip, mac) = Some l' →
  first_index l n 0 ip' i →
  first_index l' (if j =? n then n + 1 else n) 0 ip'
    (if ip' =? ip then j else if (i =? n) && (j =? n) then n + 1 else i).
Proof.
  intros Hn (Hj & Hne & Heq) Hset (Hi & Hne' & Heq').
  assert (Hjj : znth l' j = Some (ip, mac)) by by eapply znth_zset_eq.
  assert (Hold : ∀ k, k ≠ j → znth l' k = znth l k) by
    (intros; eapply znth_zset_ne; [|done]; done).
  assert (Hn' : n ≤ (if j =? n then n + 1 else n)) by (case_match; lia).
  destruct (Z.eqb_spec ip' ip) as [->|Hip].
  { split_and!; [lia|destruct (Z.eqb_spec j n); lia| |eauto].
    intros k Hk. rewrite Hold by lia. by apply Hne. }
  destruct (Z.eqb_spec i n) as [Hin|Hin]; [destruct (Z.eqb_spec j n) as [Hjn|Hjn]|];
    cbn [andb]; (split_and!; [lia|try lia| |]).
  - intros k Hk. destruct (decide (k = j)) as [->|]; [eauto|].
    rewrite Hold by done. apply Hne'. lia.
  - lia.
  - intros k Hk. destruct (decide (k = j)) as [->|]; [eauto|].
    rewrite Hold by done. apply Hne'. lia.
  - lia.
  - intros k Hk. destruct (decide (k = j)) as [->|]; [eauto|].
    rewrite Hold by done. apply Hne'. lia.
  - intros _. destruct (decide (i = j)) as [->|]; [|rewrite Hold by done; apply Heq'; lia].
    destruct Heq as (m & Hm & Hmi); [lia|]. destruct Heq' as (m' & Hm' & Hmi'); [lia|].
    congruence.
Qed.

(** With an entry found or room for one, the entry is written and nothing else. *)
Lemma upsert_run s ip mac j :
  arp_ok s → first_index (mappings s) (nmap s) 0 ip j → j < MAX_MAPPINGS →
  ∃ l', zset (mappings s) j (ip, mac) = Some l' ∧
    upsert_mapping ip mac s =
      Ret (tt, set_mappings l' (set_nmap (if j =? nmap s then nmap s + 1 else nmap s) s)) ∧
    arp_ok (set_mappings l' (set_nmap (if j =? nmap s then nmap s + 1 else nmap s) s)).
Proof.
  intros Hok Hj H16. pose proof Hok as [Hlen Hn]. pose proof Hj as (Hjb & _ & _).
  unfold MAX_MAPPINGS in *.
  assert (∃ l', zset (mappings s) j (ip, mac) = Some l') as [l' Hl'].
  { unfold zset. rewrite decide_True by lia. eauto. }
  exists l'. split_and!; [done| |].
  - unfold upsert_mapping. mstep (find_mapping_first s ip j Hok Hj).
    munfold. destruct (Z.eqb_spec j (nmap s)); cbn; rewrite ?Hl'.
    + by rewrite i32_small by lia.
    + by destruct s.
  - split; cbn; [by rewrite (zset_length _ _ _ _ Hl')|]. unfold MAX_MAPPINGS.
    destruct (Z.eqb_spec j (nmap s)); lia.
Qed.

(** After [upsert_mapping] of an address the table gives its new MAC and what it
    gave before for every other address; when the sixteen entries are taken and the
    address is new, the write leaves the table. *)
Theorem upsert_mapping_spec s ip mac :
  arp_ok s →
  ((∃ m, get_mapping ip s = Ret (Some m, s)) ∨ nmap s < MAX_MAPPINGS →
   ∃ s', upsert_mapping ip mac s = Ret (tt, s') ∧ arp_ok s' ∧
     ∀ ip', ∃ r, get_mapping ip' s = Ret (r, s) ∧
       get_mapping ip' s' = Ret (if ip' =? ip then Some mac else r, s')) ∧
  (get_mapping ip s = Ret (None, s) → nmap s = MAX_MAPPINGS →
   upsert_mapping ip mac s = Fault).
Proof.
  intros Hok. destruct Hok as [Hlen Hn] eqn:E. clear E. unfold MAX_MAPPINGS in *.
  destruct (first_index_exists (mappings s) (nmap s) 0 ip) as [j Hj]; [lia..|].
  rewrite (get_mapping_first s ip j) by done.
  pose proof Hj as (Hjb & _ & Heq). split.
  - intros Hcond. assert (Hj16 : j < 16).
    { destruct Hcond as [[m Hm]|]; [|lia]. destruct (Z.ltb_spec j (nmap s)); [lia|done]. }
    destruct (upsert_run s ip mac j Hok Hj) as (l' & Hl' & Hrun & Hok'); [done|].
    set (n' := if j =? nmap s then nmap s + 1 else nmap s) in *.
    eexists. split_and!; [exact Hrun|exact Hok'|].
    intros ip'. destruct (first_index_exists (mappings s) (nmap s) 0 ip') as [i Hi]; [lia..|].
      eexists. split; [by apply get_mapping_first|].
      assert (Hn0 : 0 ≤ nmap s) by lia.
      rewrite (get_mapping_first _ ip' _ Hok' (first_index_update _ _ _ _ _ _ _ _
        Hn0 Hj Hl' Hi)). cbn. f_equal. f_equal. fold n'.
      destruct (Z.eqb_spec ip' ip) as [->|Hne].
      * rewrite (znth_zset_eq _ _ _ _ Hl'). subst n'.
        destruct (Z.eqb_spec j (nmap s)); destruct (Z.ltb_spec j (nmap s)); try lia; cbn;
          rewrite ?(proj2 (Z.ltb_lt _ _)) by lia; done.
      * pose proof Hi as (Hib & _ & Hieq). destruct (Z.eqb_spec i (nmap s)) as [Hin|Hin].
        -- rewrite (proj2 (Z.ltb_ge i _)) by lia. subst n'.
           destruct (Z.eqb_spec j (nmap s)); cbn [andb];
             by rewrite (proj2 (Z.ltb_ge _ _)) by lia.
        -- cbn [andb]. rewrite (proj2 (Z.ltb_lt i (nmap s))) by lia.
           rewrite (proj2 (Z.ltb_lt i n')) by (subst n'; case_match; lia).
           destruct Hieq as (m & Hm & <-); [lia|].
           rewrite (znth_zset_ne (mappings s) j i (ip, mac) l'); [done| |done]. intros ->.
           destruct Heq as (m' & Hm' & <-); [lia|]. congruence.
  - intros Hnone Hfull. assert (j = nmap s).
    { destruct (Z.ltb_spec j (nmap s)); [|lia].
      destruct Heq as (m & Hm & _); [done|]. by rewrite Hm in Hnone. }
    subst j. unfold upsert_mapping. mstep (find_mapping_first s ip _ Hok Hj).
    munfold. rewrite Z.eqb_refl. unfold zset. by rewrite decide_False by lia.
Qed.

(** ** Receiving *)

(** The little-endian field of [n] bytes at address [a] of a packet. *)
Definition field (p : Z) (x : packet) (a n : Z) : option Z :=
  octets <$> zslice (raw x) (a - (p + PACKET_DATA)) n.

(** The packet at [p] is a whole allocation, and the frame the driver put in it starts
    at [ll] and leaves room for the fixed headers. *)
Definition frame_ok (p : Z) (x : packet) : Prop :=
  zlen (raw x) = PACKET_SIZE - PACKET_DATA ∧ p + PACKET_DATA ≤ ll x ∧
  ll x + ETH_HLEN + IP_HLEN ≤ pend x ∧ pend x + UDP_HLEN ≤ p + PACKET_SIZE.

(** Every bucket is there and its entries and their sockets are allocated. *)
Definition udp_ok (s : net U) : Prop :=
  zlen (udp_hlist s) = UDP_HLIST_SIZE ∧
  ∀ l e, l ∈ udp_hlist s → e ∈ l →
    ∃ x, entries s !! e = Some x ∧ (e_sock x = 0 ∨ is_Some (socks s !! e_sock x)).

(** Addressed to the interface, at every layer. *)
Definition addressed (i : netif) (p : Z) (x : packet) : Prop :=
  (zslice (raw x) (ll x - (p + PACKET_DATA)) MAC_SIZE = Some broadcast_mac ∨
   zslice (raw x) (ll x - (p + PACKET_DATA)) MAC_SIZE = Some (mac i)) ∧
  ntohs <$> field p x (ll x + 12) 2 = Some ETHERTYPE_IP ∧
  (field p x (ll x + 30) 4 = Some (ip i) ∨ field p x (ll x + 30) 4 = Some 0xFFFFFFFF) ∧
  field p x (ll x + 23) 1 = Some IPPROTO_UDP.

Definition queued (p : Z) (y : socket) : socket :=
  Socket (sk_bound y) (sk_connected y) (sk_open y) (src y) (dst y) (sk_ops y)
    (recvq y ++ [p]) (netdev y).

Definition dropped (p : Z) (s s' : net U) : Prop :=
  packets s' = delete p (packets s) ∧ socks s' = socks s ∧ entries s' = entries s.

(** The packet is kept, bytes unchanged, and one socket's queue or one waiting entry of
    its port has it. *)
Definition taken (p : Z) (x : packet) (s s' : net U) : Prop :=
  (∃ x', packets s' = <[p := x']> (packets s) ∧ raw x' = raw x) ∧
  ((∃ k y, socks s !! k = Some y ∧ socks s' = <[k := queued p y]> (socks s) ∧
     entries s' = entries s) ∨
   (∃ e z, entries s !! e = Some z ∧ e_sock z = 0 ∧ socks s' = socks s ∧
     entries s' = <[e := UdpWaitEntry 0 p (e_port z)]> (entries s))).

Lemma rdb_run s p x a n :
  packets s !! p = Some x → zlen (raw x) = PACKET_SIZE - PACKET_DATA →
  p + PACKET_DATA ≤ a → 0 ≤ n → a + n ≤ p + PACKET_SIZE →
  ∃ b, zslice (raw x) (a - (p + PACKET_DATA)) n = Some b ∧ rdb p a n s = Ret (b, s).
Proof.
  intros Hp Hr Ha Hn He. rewrite zslice_Some by lia. eexists. split; [done|].
  unfold rdb, get_pkt. munfold. rewrite Hp. by rewrite zslice_Some by lia.
Qed.

Lemma rd_run s p x a n :
  packets s !! p = Some x → zlen (raw x) = PACKET_SIZE - PACKET_DATA →
  p + PACKET_DATA ≤ a → 0 ≤ n → a + n ≤ p + PACKET_SIZE →
  ∃ v, field p x a n = Some v ∧ (b ← rdb p a n; mret (octets b)) s = Ret (v, s).
Proof.
  intros Hp Hr Ha Hn He. destruct (rdb_run s p x a n) as (b & Hs & Hb); try done.
  exists (octets b). unfold field. rewrite Hs. split; [done|]. by mstep Hb.
Qed.

Lemma packet_free_run s p x :
  packets s !! p = Some x →
  packet_free p s = Ret (tt, set_packets (delete p (packets s)) s).
Proof. intros Hp. unfold packet_free, get_pkt. munfold. by rewrite Hp. Qed.

Lemma deliver_run l p port s :
  (∀ e, e ∈ l → ∃ x, entries s !! e = Some x ∧
     (e_sock x = 0 ∨ is_Some (socks s !! e_sock x))) →
  deliver l p port s = Ret (false, s) ∨
  ∃ s', deliver l p port s = Ret (true, s') ∧ packets s' = packets s ∧
    ((∃ k y, socks s !! k = Some y ∧ socks s' = <[k := queued p y]> (socks s) ∧
       entries s' = entries s) ∨
     (∃ e z, entries s !! e = Some z ∧ e_sock z = 0 ∧ socks s' = socks s ∧
       entries s' = <[e := UdpWaitEntry 0 p (e_port z)]> (entries s))).
Proof.
  induction l as [|e l IH]; intros Hl; [by left|]. cbn [deliver].
  destruct (Hl e) as (x & Hx & Hk); [set_solver|].
  assert (Hx' : get_entry e s = Ret (x, s)) by (unfold get_entry; munfold; by rewrite Hx).
  mstep Hx'. unfold ctrue.
  destruct (Z.eqb_spec (e_sock x) 0) as [E0|E0]; cbn [negb].
  - destruct (Z.eqb_spec (e_port x) port).
    + right. eexists. split; [reflexivity|]. cbn. split; [done|]. right.
      exists e, x. by rewrite E0.
    + apply IH. set_solver.
  - destruct Hk as [|[y Hy]]; [done|]. right.
    assert (Hy' : get_sock (e_sock x) s = Ret (y, s)) by (unfold get_sock; munfold; by rewrite Hy).
    mstep Hy'. unfold set_recvq. eexists. split.
    { munfold. rewrite Hy'. reflexivity. }
    split; [done|]. left. exists (e_sock x), y. done.
Qed.

(** Updating the pointers of a packet. *)
Definition retouch (p : Z) (x : packet) (s : net U) : net U :=
  set_packets (<[p := x]> (packets s)) s.

Lemma retouch_lookup p x s : packets (retouch p x s) !! p = Some x.
Proof. apply lookup_insert_eq. Qed.

Lemma udp_recv_run s d p x :
  packets s !! p = Some x → zlen (raw x) = PACKET_SIZE - PACKET_DATA →
  p + PACKET_DATA ≤ tl x → tl x + UDP_HLEN ≤ p + PACKET_SIZE → udp_ok s →
  ∃ s', udp_recv d p s = Ret (tt, s') ∧ (dropped p s s' ∨ taken p x s s').
Proof.
  intros Hp Hr Ha He [Hl Hu]. unfold UDP_HLEN in *. unfold udp_recv.
  assert (Hg : get_pkt p s = Ret (x, s)) by (unfold get_pkt; munfold; by rewrite Hp).
  mstep Hg. destruct (rd_run s p x (tl x + 2) 2) as (w & _ & Hw); [done..|lia|lia|lia|].
  unfold rd16. mstep Hw. set (x' := Packet (ll x) (nl x) (tl x) (tl x + 8) (pend x) (capacity x) (raw x)).
  assert (Hs : set_al p (tl x + UDP_HLEN) s = Ret (tt, retouch p x' s))
    by (unfold set_al; mstep Hg; done).
  mstep Hs. set (s1 := retouch p x' s).
  assert (Hh : 0 ≤ udp_hash (ntohs w) < 128) by (apply Z.mod_pos_bound; unfold UDP_HLIST_SIZE; lia).
  destruct (znth_lt (udp_hlist s) (udp_hash (ntohs w))) as [l Hlk];
    [unfold UDP_HLIST_SIZE in *; lia|].
  assert (Hb : bucket (udp_hash (ntohs w)) s1 = Ret (l, s1))
    by (unfold bucket; munfold; cbn; by rewrite Hlk).
  mstep Hb. destruct (deliver_run l p (ntohs w) s1) as [Hd|(s2 & Hd & Hpk & Ht)].
  - intros e He'. apply (Hu l e); [|done]. apply znth_Some in Hlk as [_ Hlk].
    by eapply list_elem_of_lookup_2.
  - mstep Hd. eexists. split; [eapply packet_free_run, retouch_lookup|]. left.
    repeat split. cbn. by rewrite delete_insert_eq.
  - mstep Hd. eexists. split; [reflexivity|]. right. split; [|exact Ht].
    exists x'. by rewrite Hpk.
Qed.

(** The header pointers set on the way up leave the bytes alone. *)
Lemma retouch_outcome p x s s' : ∀ x0,
  packets s !! p = Some x0 → raw x = raw x0 →
  dropped p (retouch p x s) s' ∨ taken p x (retouch p x s) s' →
  dropped p s s' ∨ taken p x0 s s'.
Proof.
  intros x0 Hp Hr [(Hd & Hk & He)|[(x' & Hx' & Hr') Ht]]; cbn in *.
  - left. repeat split; [|done..]. by rewrite Hd, delete_insert_eq.
  - right. split; [|done]. exists x'. rewrite Hx', insert_insert_eq. by rewrite Hr', Hr.
Qed.

Lemma retouch_retouch p x y s : retouch p x (retouch p y s) = retouch p x s.
Proof. unfold retouch. cbn. by rewrite insert_insert_eq. Qed.

Lemma get_pkt_retouch p x s : get_pkt p (retouch p x s) = Ret (x, retouch p x s).
Proof. unfold get_pkt. munfold. by rewrite retouch_lookup. Qed.

Lemma dropped_free p s x :
  ∃ s', packet_free p (retouch p x s) = Ret (tt, s') ∧ dropped p s s'.
Proof.
  eexists. split; [eapply packet_free_run, retouch_lookup|].
  repeat split. cbn. by rewrite delete_insert_eq.
Qed.

Lemma ip_recv_run s d i p x :
  netifs s !! d = Some i → frame_ok p x → nl x = ll x + ETH_HLEN →
  udp_ok s → arp_ok s → nmap s < MAX_MAPPINGS →
  ∃ s', ip_recv d p (retouch p x s) = Ret (tt, s') ∧
    (dropped p s s' ∨
     ((field p x (ll x + 30) 4 = Some (ip i) ∨ field p x (ll x + 30) 4 = Some 0xFFFFFFFF) ∧
      field p x (ll x + 23) 1 = Some IPPROTO_UDP) ∧
     ∃ s1 x1, raw x1 = raw x ∧ packets s1 = packets s ∧ socks s1 = socks s ∧
       entries s1 = entries s ∧
       (dropped p (retouch p x1 s1) s' ∨ taken p x1 (retouch p x1 s1) s')).
Proof.
  intros Hd (Hr & Hll & Hend & Hcap) Hnl Hu Hok Hroom. unfold ETH_HLEN, IP_HLEN, UDP_HLEN in *.
  set (s0 := retouch p x s). pose proof (retouch_lookup p x s) as Hp. fold s0 in Hp.
  unfold ip_recv, get_netif.
  assert (Hi : get_netif d s0 = Ret (i, s0)) by (unfold get_netif; munfold; cbn; by rewrite Hd).
  mstep Hi. mstep (get_pkt_retouch p x s). fold s0.
  destruct (rd_run s0 p x (nl x + 16) 4) as (dip & Hdf & Hdip); [done..|lia|lia|lia|].
  unfold rd32, rd8. mstep Hdip.
  destruct (negb (dip =? ip i) && negb (dip =? 0xFFFFFFFF)) eqn:Edip.
  { destruct (dropped_free p s x) as (s' & Hf & ?). eauto. }
  destruct (rd_run s0 p x (nl x) 1) as (ver & _ & Hver); [done..|lia|lia|lia|].
  mstep Hver. set (t := nl x + Z.land ver 15 * 4).
  set (x1 := Packet (ll x) (nl x) t (al x) (pend x) (capacity x) (raw x)).
  assert (Hs : set_tl p t s0 = Ret (tt, retouch p x1 s)).
  { unfold set_tl. mstep (get_pkt_retouch p x s). subst s0. munfold. cbn.
    f_equal. f_equal. by rewrite <- (retouch_retouch p x1 x s). }
  mstep Hs. destruct (Z.ltb_spec (pend x) t).
  { destruct (dropped_free p s x1) as (s' & Hf & ?). eauto. }
  assert (Ht : nl x ≤ t) by (pose proof (Z.land_nonneg ver 15); subst t; lia).
  pose proof (retouch_lookup p x1 s) as Hp1. set (s1 := retouch p x1 s) in *.
  destruct (rd_run s1 p x1 (nl x + 12) 4) as (sip & _ & Hsip); [done..|lia|lia|lia|].
  mstep Hsip.
  destruct (rdb_run s1 p x1 (ll x + 6) MAC_SIZE) as (m & _ & Hm);
    [done..|lia|unfold MAC_SIZE; lia|unfold MAC_SIZE; lia|].
  mstep Hm.
  destruct (first_index_exists (mappings s1) (nmap s1) 0 sip) as [j Hj];
    [destruct Hok; cbn; lia|destruct Hok; unfold MAX_MAPPINGS in *; cbn; lia|].
  destruct (upsert_run s1 sip m j) as (l' & _ & Hup & _); [exact Hok|exact Hj| |].
  { destruct Hj. cbn in *. lia. }
  mstep Hup. set (s2 := set_mappings l' _).
  assert (Hp2 : packets s2 !! p = Some x1) by exact Hp1.
  destruct (rd_run s2 p x1 (nl x + 9) 1) as (proto & Hpf & Hproto); [done..|lia|lia|lia|].
  mstep Hproto. destruct (Z.eqb_spec proto IPPROTO_UDP) as [->|].
  - destruct (udp_recv_run s2 d p x1) as (s' & Hrun & Hout);
      [done|done|cbn; lia|cbn; unfold UDP_HLEN; lia|exact Hu|].
    exists s'. split; [exact Hrun|]. right. split.
    + rewrite Hnl in *. split.
      * replace (ll x + 30) with (ll x + 14 + 16) by lia. rewrite Hdf.
        apply andb_false_iff in Edip as [E|E]; apply negb_false_iff, Z.eqb_eq in E; subst; auto.
      * rewrite <- Hpf. unfold field. do 2 f_equal. cbn. f_equal. lia.
    + exists (set_mappings l' (set_nmap (if j =? nmap s1 then nmap s1 + 1 else nmap s1) s)), x1.
      repeat split; done.
  - eexists. split; [by eapply packet_free_run|]. left. repeat split.
    cbn. by rewrite delete_insert_eq.
Qed.

(** [eth_recv] of a frame always returns and consumes the packet exactly once: either it
    is freed and no socket or waiter knows it, or it stays allocated with its bytes
    unchanged at the end of one socket's queue or in one waiting entry; it is kept only
    if addressed to this interface as an IP/UDP packet, by the Ethernet and the IP
    destination. *)
Theorem eth_recv_consumes s d i p x :
  packets s !! p = Some x → netifs s !! d = Some i → frame_ok p x →
  udp_ok s → arp_ok s → nmap s < MAX_MAPPINGS →
  ∃ s', eth_recv d p s = Ret (tt, s') ∧
    (dropped p s s' ∨ (addressed i p x ∧ taken p x s s')).
Proof.
  intros Hp Hd Hfr Hu Hok Hroom. pose proof Hfr as (Hr & Hll & Hend & Hcap).
  unfold ETH_HLEN, IP_HLEN, UDP_HLEN in *.
  assert (Hg : get_pkt p s = Ret (x, s)) by (unfold get_pkt; munfold; by rewrite Hp).
  unfold eth_recv. mstep Hg. set (n := ll x + ETH_HLEN).
  set (x1 := Packet (ll x) n (tl x) (al x) (pend x) (capacity x) (raw x)).
  assert (Hs : set_nl p n s = Ret (tt, retouch p x1 s)) by (unfold set_nl; mstep Hg; done).
  mstep Hs. set (s1 := retouch p x1 s).
  assert (Hi : get_netif d s1 = Ret (i, s1)) by (unfold get_netif; munfold; cbn; by rewrite Hd).
  mstep Hi. pose proof (retouch_lookup p x1 s) as Hp1. fold s1 in Hp1.
  destruct (rdb_run s1 p x1 (ll x) MAC_SIZE) as (m & Hms & Hm);
    [done..|lia|unfold MAC_SIZE; lia|unfold MAC_SIZE; lia|].
  mstep Hm. destruct (bool_decide (m = broadcast_mac) || bool_decide (m = mac i)) eqn:Em.
  2: { destruct (dropped_free p s x1) as (s' & Hf & ?). eauto. }
  destruct (rd_run s1 p x1 (ll x + 12) 2) as (w & Hwf & Hw); [done..|lia|lia|lia|].
  unfold rd16. mstep Hw. destruct (Z.eqb_spec (ntohs w) ETHERTYPE_IP) as [Hip|].
  2: { destruct (dropped_free p s x1) as (s' & Hf & ?). eauto. }
  destruct (ip_recv_run s d i p x1) as (s' & Hrun & Hout); try done.
  exists s'. split; [exact Hrun|].
  destruct Hout as [Hdrop|[[Hdst Hproto] (s2 & x2 & Hr2 & Ep & Ek & Ee & Hout)]]; [by left|].
  apply (retouch_outcome p x2 s2 s' x) in Hout; [|congruence|done].
  destruct Hout as [(E1 & E2 & E3)|Ht].
  - left. repeat split; congruence.
  - right. split.
    + split_and!.
      * apply orb_true_iff in Em as [Em|Em]; apply bool_decide_eq_true in Em;
          [left|right]; by rewrite <- Em.
      * unfold field in *. cbn in Hwf. rewrite Hwf. cbn. by rewrite Hip.
      * exact Hdst.
      * exact Hproto.
    + unfold taken in *. by rewrite Ep, Ek, Ee in Ht.
Qed.

(** ** Sending *)

Definition eth_header (dst_mac src_mac : list Z) : list Z :=
  dst_mac ++ src_mac ++ le_bytes 2 (htons ETHERTYPE_IP).

Definition ip_header (id len csum src dst : Z) : list Z :=
  [0x45; 0] ++ le_bytes 2 (htons len) ++ le_bytes 2 (htons id) ++ [0; 0; 32; IPPROTO_UDP] ++
  le_bytes 2 csum ++ le_bytes 4 src ++ le_bytes 4 dst.

Definition udp_header (sport dport len csum : Z) : list Z :=
  le_bytes 2 sport ++ le_bytes 2 dport ++ le_bytes 2 (htons len) ++ le_bytes 2 csum.

(** The words a receiver sums to check a datagram: addresses, protocol, length, header
    and data, padded to a whole number of words. *)
Definition udp_check_words (src dst len : Z) (datagram : list Z) : list Z :=
  words16 (le_bytes 4 src) ++ words16 (le_bytes 4 dst) ++ [ntohs IPPROTO_UDP; htons len] ++
  words16 (datagram ++ replicate (Z.to_nat (len mod 2)) 0).

Definition with_raw (x : packet) (r : list Z) : packet :=
  Packet (ll x) (nl x) (tl x) (al x) (pend x) (capacity x) r.

Lemma put_pkt_retouch p x y s : put_pkt p y (retouch p x s) = Ret (tt, retouch p y s).
Proof. unfold put_pkt. munfold. f_equal. f_equal. apply retouch_retouch. Qed.

Lemma wrb_retouch p x h rest k l s a :
  raw x = h ++ rest → a = p + PACKET_DATA + Z.of_nat k → (k + length l ≤ length h)%nat →
  wrb p a l (retouch p x s) =
    Ret (tt, retouch p (with_raw x ((take k h ++ l ++ drop (k + length l) h) ++ rest)) s).
Proof.
  intros Hx -> Hk. unfold wrb. mstep (get_pkt_retouch p x s). rewrite Hx.
  replace (p + PACKET_DATA + Z.of_nat k - (p + PACKET_DATA)) with (Z.of_nat k) by lia.
  unfold zsplice. rewrite decide_True by (unfold zlen; rewrite length_app; lia).
  rewrite Nat2Z.id, take_app_le, drop_app_le by lia. unfold with_raw.
  rewrite <- !app_assoc. munfold. apply put_pkt_retouch.
Qed.

Lemma rdb_retouch p x h rest k n s a :
  raw x = h ++ rest → a = p + PACKET_DATA + Z.of_nat k → (k ≤ length h)%nat →
  0 ≤ n → Z.of_nat k + n ≤ zlen (raw x) →
  rdb p a n (retouch p x s) =
    Ret (take (Z.to_nat n) (drop k h ++ rest), retouch p x s).
Proof.
  intros Hx -> Hk Hn Hb. unfold rdb. mstep (get_pkt_retouch p x s).
  replace (p + PACKET_DATA + Z.of_nat k - (p + PACKET_DATA)) with (Z.of_nat k) by lia.
  rewrite zslice_Some by lia. rewrite Nat2Z.id, Hx, drop_app_le by done. done.
Qed.

Lemma set_ll_retouch p x v s :
  set_ll p v (retouch p x s) =
    Ret (tt, retouch p (Packet v (nl x) (tl x) (al x) (pend x) (capacity x) (raw x)) s).
Proof. unfold set_ll. mstep (get_pkt_retouch p x s). apply put_pkt_retouch. Qed.
Lemma set_nl_retouch p x v s :
  set_nl p v (retouch p x s) =
    Ret (tt, retouch p (Packet (ll x) v (tl x) (al x) (pend x) (capacity x) (raw x)) s).
Proof. unfold set_nl. mstep (get_pkt_retouch p x s). apply put_pkt_retouch. Qed.
Lemma set_tl_retouch p x v s :
  set_tl p v (retouch p x s) =
    Ret (tt, retouch p (Packet (ll x) (nl x) v (al x) (pend x) (capacity x) (raw x)) s).
Proof. unfold set_tl. mstep (get_pkt_retouch p x s). apply put_pkt_retouch. Qed.
Lemma set_al_retouch p x v s :
  set_al p v (retouch p x s) =
    Ret (tt, retouch p (Packet (ll x) (nl x) (tl x) v (pend x) (capacity x) (raw x)) s).
Proof. unfold set_al. mstep (get_pkt_retouch p x s). apply put_pkt_retouch. Qed.
Lemma set_end_retouch p x v s :
  set_end p v (retouch p x s) =
    Ret (tt, retouch p (Packet (ll x) (nl x) (tl x) (al x) v (capacity x) (raw x)) s).
Proof. unfold set_end. mstep (get_pkt_retouch p x s). apply put_pkt_retouch. Qed.

Lemma words16_app l1 l2 : Nat.Even (length l1) → words16 (l1 ++ l2) = words16 l1 ++ words16 l2.
Proof.
  intros [n Hn]. revert l1 Hn. induction n as [|n IH]; intros l1 Hn.
  - by destruct l1.
  - destruct l1 as [|a [|b l1]]; cbn in Hn; [lia..|]. cbn [app words16]. f_equal.
    apply IH. lia.
Qed.

Lemma words16_words l : Forall is_byte l → Forall word16 (words16 l).
Proof.
  intros Hl. assert (∀ n l, (length l ≤ n)%nat → Forall is_byte l → Forall word16 (words16 l)) as G.
  { clear. induction n as [|n IH]; intros [|a [|b l]] Hn Hl; try constructor; cbn in Hn; try lia.
    - inversion Hl as [|? ? Ha Hl']; subst. inversion Hl' as [|? ? Hb Hl'']; subst.
      unfold is_byte, word16 in *. lia.
    - apply IH; [lia|]. by do 2 apply Forall_inv_tail in Hl. }
  by apply (G (length l)).
Qed.

Lemma length_words16 l : (2 * length (words16 l) ≤ length l)%nat.
Proof.
  assert (∀ n l, (length l ≤ n)%nat → (2 * length (words16 l) ≤ length l)%nat) as G.
  { clear. induction n as [|n IH]; intros [|a [|b l]] Hn; cbn in *; try lia.
    specialize (IH l ltac:(lia)). lia. }
  by apply (G (length l)).
Qed.

Lemma words16_le2 v l : word16 v → words16 (le_bytes 2 v ++ l) = v :: words16 l.
Proof.
  intros Hv. unfold word16 in Hv. cbn [le_bytes app words16]. f_equal.
  rewrite (Z.mod_small (v / 256)) by (Z.div_mod_to_equations; lia).
  pose proof (Z.div_mod v 256). lia.
Qed.

(** One more write at byte [k] of the header part of a packet under construction. *)
Ltac pkt_write k :=
  lazymatch goal with
  | |- context [retouch ?p (Packet _ _ _ _ _ _ (?h ++ ?rest)) ?s] =>
      erewrite mbind_Ret by (apply (wrb_retouch _ _ h rest k);
        [reflexivity
        |unfold ETH_HLEN, IP_HLEN, UDP_HLEN, PACKET_DATA in *; cbn [ll nl tl al pend]; lia
        |cbn; lia]);
      cbv beta iota; unfold with_raw; cbn [ll nl tl al pend capacity raw];
      lazymatch goal with
      | |- context [(take k h ++ ?l ++ drop ?j h) ++ rest] =>
          let h' := eval cbn [take drop app length Nat.add replicate le_bytes] in
            (take k h ++ l ++ drop j h) in
          change (take k h ++ l ++ drop j h) with h'
      end
  end.

Lemma eth_send_run s d p x i m rest :
  raw x = replicate 14 0 ++ rest → nl x = p + PACKET_DATA + 14 →
  netifs s !! d = Some i → length (mac i) = 6%nat → length m = 6%nat →
  eth_send d p ETHERTYPE_IP (Some m) (retouch p x s) =
    (net_send d p;; mret 0) (retouch p
      (Packet (p + PACKET_DATA) (nl x) (tl x) (al x) (pend x) (capacity x)
         (eth_header m (mac i) ++ rest)) s).
Proof.
  intros Hx Hnl Hi Hmac Hm. unfold eth_send. mstep (get_pkt_retouch p x s).
  mstep (set_ll_retouch p x (nl x - ETH_HLEN) s).
  mstep (get_pkt_retouch p (Packet (nl x - ETH_HLEN) (nl x) (tl x) (al x) (pend x)
    (capacity x) (raw x)) s). cbn [ll].
  rewrite Hnl, (proj2 (Z.ltb_ge _ _)) by (unfold ETH_HLEN; lia).
  assert (Hg : ∀ x', get_netif d (retouch p x' s) = Ret (i, retouch p x' s))
    by (intros; unfold get_netif; munfold; cbn; by rewrite Hi).
  mstep (Hg (Packet (p + PACKET_DATA + 14 - ETH_HLEN) (p + PACKET_DATA + 14) (tl x) (al x)
    (pend x) (capacity x) (raw x))).
  rewrite Hx. unfold eth_header.
  destruct (mac i) as [|a0 [|a1 [|a2 [|a3 [|a4 [|a5 [|]]]]]]]; try done.
  destruct m as [|b0 [|b1 [|b2 [|b3 [|b4 [|b5 [|]]]]]]]; try done.
  pkt_write 6%nat.
  erewrite mbind_Ret by reflexivity. cbv beta iota.
  pkt_write 0%nat. unfold wr16. pkt_write 12%nat.
  replace (p + PACKET_DATA + 14 - ETH_HLEN) with (p + PACKET_DATA) by (unfold ETH_HLEN; lia).
  reflexivity.
Qed.

Lemma get_mapping_frame s s' a r :
  get_mapping a s = Ret (r, s) → mappings s' = mappings s → nmap s' = nmap s →
  get_mapping a s' = Ret (r, s').
Proof.
  unfold get_mapping, find_mapping. munfold. intros E Em En. rewrite Em, En.
  destruct (mapping_index _ _ _ _ _) as [j|]; [|done]. rewrite ?Em, ?En.
  destruct (j <? nmap s); [|congruence]. destruct (znth _ _); [|done].
  injection E as <-. done.
Qed.

Lemma seq_mret_0 (m : M (net U) unit) s :
  ((m;; mret 0);; mret 0) s = (m;; mret 0 : M (net U) Z) s.
Proof. munfold. by destruct (m s) as [[[] ?]| | |]. Qed.

Lemma le2_words v : word16 v → v mod 256 + 256 * ((v / 256) mod 256) = v.
Proof.
  unfold word16. intros Hv. rewrite (Z.mod_small (v / 256)) by (Z.div_mod_to_equations; lia).
  pose proof (Z.div_mod v 256). lia.
Qed.

Lemma byte_0 : is_byte 0. Proof. unfold is_byte. lia. Qed.

Lemma words16_le_bytes n v : Forall word16 (words16 (le_bytes n v)).
Proof. apply words16_words, le_bytes_are_bytes. Qed.

(** The header's checksum word among its words. *)
Lemma ip_header_words ident len a b :
  ∃ ws1 ws2, Forall word16 ws1 ∧ Forall word16 ws2 ∧ zlen ws1 + zlen ws2 = 9 ∧
    ∀ c, word16 c → words16 (ip_header ident len c a b) = ws1 ++ c :: ws2.
Proof.
  exists (words16 ([0x45; 0] ++ le_bytes 2 (htons len) ++ le_bytes 2 (htons ident) ++
    [0; 0; 32; IPPROTO_UDP])), (words16 (le_bytes 4 a ++ le_bytes 4 b)).
  split_and!.
  - apply words16_words. repeat (apply Forall_app; split); try apply le_bytes_are_bytes;
      repeat constructor; unfold IPPROTO_UDP; lia.
  - apply words16_words. apply Forall_app; split; apply le_bytes_are_bytes.
  - reflexivity.
  - intros c Hc. cbn -[Z.modulo Z.div Z.mul Z.add htons]. by rewrite (le2_words c Hc).
Qed.

Lemma ip_send_run s d p x i m rest a0 b :
  raw x = replicate 34 0 ++ rest → tl x = p + PACKET_DATA + 34 →
  netifs s !! d = Some i → length (mac i) = 6%nat → length m = 6%nat →
  get_mapping (ip_route i b) s = Ret (Some m, s) →
  ∃ c, csum_finalize (csum_add csum_init
         (words16 (ip_header (u16 (ipid s)) (u16 (pend x - (p + PACKET_DATA + 14))) c (ip i) b)))
         = Some 0 ∧
    ip_send d p IPPROTO_UDP a0 b (retouch p x s) =
    (net_send d p;; mret 0) (retouch p
      (Packet (p + PACKET_DATA) (p + PACKET_DATA + 14) (tl x) (al x) (pend x) (capacity x)
         (eth_header m (mac i) ++
          ip_header (u16 (ipid s)) (u16 (pend x - (p + PACKET_DATA + 14))) c (ip i) b ++ rest))
      (set_ipid (u32 (ipid s + 1)) s)).
Proof.
  intros Hx Htl Hi Hmac Hm Hmap.
  set (ident := u16 (ipid s)). set (len := u16 (pend x - (p + PACKET_DATA + 14))).
  destruct (ip_header_words ident len (ip i) b) as (ws1 & ws2 & H1 & H2 & Hn & Hw).
  destruct (csum_store ws1 ws2 H1 H2) as (c & Hc & Hcw & Hcok); [lia|].
  exists c. split; [by rewrite Hw|].
  unfold ip_send.
  assert (Hg : get_netif d (retouch p x s) = Ret (i, retouch p x s))
    by (unfold get_netif; munfold; cbn; by rewrite Hi).
  mstep Hg. unfold ip_get_mac.
  mstep (get_mapping_frame s (retouch p x s) _ _ Hmap eq_refl eq_refl).
  mstep (get_pkt_retouch p x s). mstep (set_nl_retouch p x (tl x - IP_HLEN) s).
  rewrite Htl, Hx. replace (p + PACKET_DATA + 34 - IP_HLEN) with (p + PACKET_DATA + 14)
    by (unfold IP_HLEN; lia).
  unfold wr8, wr16, wr32. fold len.
  pkt_write 14%nat. pkt_write 16%nat.
  erewrite mbind_Ret by reflexivity. cbv beta iota.
  erewrite mbind_Ret by reflexivity. cbv beta iota.
  lazymatch goal with |- context [set_ipid ?v (retouch p ?y s)] =>
    change (set_ipid v (retouch p y s)) with (retouch p y (set_ipid v s)) end.
  change (ipid (retouch _ _ s)) with (ipid s). fold ident. set (s1 := set_ipid _ s).
  pkt_write 18%nat. pkt_write 22%nat. pkt_write 23%nat. pkt_write 26%nat. pkt_write 30%nat.
  unfold rd_words.
  lazymatch goal with |- context [retouch p (Packet _ _ _ _ _ _ (?h ++ rest)) s1] =>
    erewrite (mbind_Ret (rdb p _ _ ≫= _)) by (erewrite mbind_Ret by
      (apply (rdb_retouch p _ h rest 14); [reflexivity|lia|cbn; lia|lia|
         cbn [raw]; rewrite zlen_app; change (zlen h) with 34; pose proof (zlen_nonneg rest); lia]);
      cbv beta iota;
      change (take (Z.to_nat (2 * 10)) (drop 14 h ++ rest)) with (ip_header ident len 0 (ip i) b);
      rewrite Hw by (unfold word16; lia); reflexivity)
  end.
  cbv beta iota. rewrite Hc. erewrite mbind_Ret by reflexivity. cbv beta iota.
  pkt_write 24%nat.
  lazymatch goal with |- context [retouch p (Packet ?l1 ?l2 ?l3 ?l4 ?l5 ?l6 (?h ++ rest)) s1] =>
    change (h ++ rest) with (replicate 14 0 ++ (ip_header ident len c (ip i) b ++ rest));
    pose proof (eth_send_run s1 d p
      (Packet l1 l2 l3 l4 l5 l6 (replicate 14 0 ++ (ip_header ident len c (ip i) b ++ rest)))
      i m _ eq_refl eq_refl Hi Hmac Hm) as He
  end.
  rewrite <- seq_mret_0. unfold mbind, M_bind in He |- *. by rewrite He.
Qed.

Lemma ntohs_word v : word16 (ntohs v).
Proof.
  rewrite ntohs_bytes. pose proof (Z.mod_pos_bound v 256).
  pose proof (Z.mod_pos_bound (v / 256) 256). unfold word16. lia.
Qed.

(** The checksum word of a datagram among the words its receiver sums. *)
Lemma udp_datagram_words a b sport dport len data :
  word16 sport → word16 dport → Forall is_byte data →
  0 ≤ len < 2000 → zlen data ≤ len →
  ∃ ws1 ws2, Forall word16 ws1 ∧ Forall word16 ws2 ∧ zlen ws1 + zlen ws2 < 65536 ∧
    ∀ c, word16 c → udp_check_words a b len (udp_header sport dport len c ++ data) =
      ws1 ++ c :: ws2.
Proof.
  intros Hsp Hdp Hd Hlen Hle. set (pad := replicate (Z.to_nat (len mod 2)) 0).
  exists (words16 (le_bytes 4 a) ++ words16 (le_bytes 4 b) ++
    [ntohs IPPROTO_UDP; htons len; sport; dport; htons len]), (words16 (data ++ pad)).
  assert (Hpad : Forall is_byte (data ++ pad)).
  { apply Forall_app. split; [done|]. apply Forall_replicate. unfold is_byte. lia. }
  split_and!.
  - repeat (apply Forall_app; split); try apply words16_le_bytes.
    repeat first [apply Forall_nil_2|apply Forall_cons; split]; try done; apply ntohs_word.
  - by apply words16_words.
  - pose proof (length_words16 (data ++ pad)) as Hl. rewrite length_app in Hl.
    subst pad. rewrite length_replicate in Hl. pose proof (Z.mod_pos_bound len 2).
    unfold zlen in *. rewrite !length_app. cbn [length].
    change (length (words16 (le_bytes 4 a))) with 2%nat.
    change (length (words16 (le_bytes 4 b))) with 2%nat. lia.
  - intros c Hc. unfold udp_check_words, udp_header. fold pad. rewrite <- !app_assoc.
    do 2 f_equal. cbn [app]. do 2 f_equal.
    rewrite !words16_le2; [done|done|apply ntohs_word|done|done].
Qed.

(** Rounding a length up to whole words takes at most one byte of the zeros behind. *)
Lemma take_padded (h data zs : list Z) n :
  zlen h = 8 → n = 8 + zlen data →
  take (Z.to_nat (2 * (n / 2 + n mod 2))) (h ++ data ++ 0 :: zs) =
    (h ++ data) ++ replicate (Z.to_nat (n mod 2)) 0.
Proof.
  intros Hh ->. set (n := 8 + zlen data).
  assert (Hr : n mod 2 = 0 ∨ n mod 2 = 1) by (pose proof (Z.mod_pos_bound n 2); lia).
  assert (E : Z.to_nat (2 * (n / 2 + n mod 2)) = (length (h ++ data) + Z.to_nat (n mod 2))%nat).
  { rewrite length_app. unfold zlen in *. pose proof (Z.div_mod n 2). lia. }
  rewrite E, app_assoc, take_app_add. f_equal. by destruct Hr as [-> | ->].
Qed.

Lemma udp_send_run s d p x i m data zs b sport dport :
  raw x = replicate 42 0 ++ (data ++ 0 :: zs) → al x = p + PACKET_DATA + 42 →
  pend x = al x + zlen data → zlen data ≤ 1472 → Forall is_byte data →
  word16 sport → word16 dport →
  netifs s !! d = Some i → length (mac i) = 6%nat → length m = 6%nat →
  get_mapping (ip_route i b) s = Ret (Some m, s) →
  let len := zlen data in
  ∃ c1 c2,
    csum_finalize (csum_add csum_init
      (words16 (ip_header (u16 (ipid s)) (28 + len) c1 (ip i) b))) = Some 0 ∧
    csum_finalize (csum_add csum_init
      (udp_check_words (ip i) b (8 + len) (udp_header sport dport (8 + len) c2 ++ data))) = Some 0 ∧
    udp_send d p (ip i) b sport dport (retouch p x s) =
    (net_send d p;; mret tt) (retouch p
      (Packet (p + PACKET_DATA) (p + PACKET_DATA + 14) (p + PACKET_DATA + 34) (al x) (pend x)
         (capacity x)
         (eth_header m (mac i) ++ ip_header (u16 (ipid s)) (28 + len) c1 (ip i) b ++
          udp_header sport dport (8 + len) c2 ++ data ++ 0 :: zs))
      (set_ipid (u32 (ipid s + 1)) s)).
Proof.
  intros Hx Hal Hend Hlen Hby Hsp Hdp Hi Hmac Hm Hmap len. pose proof (zlen_nonneg data) as Hnn.
  fold len in Hend, Hlen, Hnn.
  destruct (udp_datagram_words (ip i) b sport dport (8 + len) data)
    as (ws1 & ws2 & H1 & H2 & Hn & Hw); [done..|lia|unfold len; lia|].
  destruct (csum_store ws1 ws2 H1 H2 Hn) as (c2 & Hc & Hcw & Hcok).
  set (rest := data ++ 0 :: zs) in *.
  set (x1 := Packet (ll x) (nl x) (p + PACKET_DATA + 34) (al x) (pend x) (capacity x)
    (replicate 34 0 ++ (udp_header sport dport (8 + len) c2 ++ rest))).
  destruct (ip_send_run s d p x1 i m _ (ip i) b eq_refl eq_refl Hi Hmac Hm Hmap)
    as (c1 & Hc1 & Hsend).
  cbn [x1 pend tl al capacity] in Hc1, Hsend.
  replace (u16 (pend x - (p + PACKET_DATA + 14))) with (28 + len) in * by
    (rewrite Hend, Hal; rewrite u16_small; lia).
  exists c1, c2. split_and!; [done|by rewrite Hw|].
  unfold udp_send. mstep (get_pkt_retouch p x s).
  replace (al x - UDP_HLEN) with (p + PACKET_DATA + 34) by (unfold UDP_HLEN; lia).
  mstep (set_tl_retouch p x (p + PACKET_DATA + 34) s). rewrite Hx.
  replace (pend x - (p + PACKET_DATA + 34)) with (8 + len) by lia.
  rewrite u16_small, u32_small by lia.
  unfold wr16. pkt_write 34%nat. pkt_write 36%nat. pkt_write 38%nat. pkt_write 40%nat.
  lazymatch goal with |- context [retouch p (Packet ?l1 ?l2 ?l3 ?l4 ?l5 ?l6 (?h ++ rest)) s] =>
    change h with (replicate 34 0 ++ udp_header sport dport (8 + len) 0)
  end.
  set (h := replicate 34 0 ++ udp_header sport dport (8 + len) 0).
  assert (Hh : zlen h = 42) by reflexivity.
  assert (Hrest : zlen rest = len + 1 + zlen zs).
  { subst rest. rewrite zlen_app, zlen_cons. fold len. lia. }
  unfold rd16, rd_words. pose proof (zlen_nonneg zs).
  erewrite (mbind_Ret (rdb p _ 2 ≫= _)) by (erewrite mbind_Ret by
    (apply (rdb_retouch p _ h rest 38); [reflexivity|lia|cbn; lia|lia|
       cbn [raw]; rewrite zlen_app; lia]); reflexivity).
  cbv beta iota.
  change (octets (take (Z.to_nat 2) (drop 38 h ++ rest))) with
    (octets (le_bytes 2 (htons (8 + len)))).
  rewrite octets_le_bytes by apply ntohs_word.
  assert (Hm2 : 0 ≤ (8 + len) mod 2 ≤ 1) by (pose proof (Z.mod_pos_bound (8 + len) 2); lia).
  pose proof (Z.div_mod (8 + len) 2) as Hdm.
  erewrite (mbind_Ret (rdb p _ _ ≫= _)) by (erewrite mbind_Ret by
    (apply (rdb_retouch p _ h rest 34); [reflexivity|lia|cbn; lia|lia|
       cbn [raw]; rewrite zlen_app; lia]); reflexivity).
  cbv beta iota. change (drop 34 h) with (udp_header sport dport (8 + len) 0).
  subst rest. rewrite take_padded by reflexivity.
  unfold csum_add_value. rewrite <- !csum_add_app.
  assert (Hcw0 : csum_finalize (csum_add csum_init
    (udp_check_words (ip i) b (8 + len) (udp_header sport dport (8 + len) 0 ++ data))) = Some c2)
    by (rewrite Hw by (unfold word16; lia); done).
  unfold udp_check_words in Hcw0. rewrite <- !app_assoc in Hcw0 |- *. cbn [app] in Hcw0 |- *.
  rewrite Hcw0. erewrite mbind_Ret by reflexivity. cbv beta iota.
  pkt_write 40%nat.
  lazymatch goal with |- context [retouch p ?y s] =>
    change (retouch p y s) with (retouch p x1 s) end.
  unfold mbind, M_bind in Hsend |- *. rewrite Hsend.
  by destruct (net_send d p _) as [[[] ?]| | |].
Qed.

(** Sending [len] bytes on a bound and connected socket hands the driver one frame: the
    Ethernet, IP and UDP headers for the peer through the next hop of the routing rule,
    followed by exactly the bytes given; both checksums verify; the call returns
    [len] once the driver does. *)
Theorem udp_sys_send_frame s k data len flags y i p hp b m :
  socks s !! k = Some y → sk_bound y = true → sk_connected y = true →
  netifs s !! netdev y = Some i → length (mac i) = 6%nat →
  (s_addr (src y) = 0 ∨ s_addr (src y) = ip i) →
  word16 (sin_port (src y)) → word16 (sin_port (dst y)) →
  heap s = p :: hp → p ≠ 0 →
  0 ≤ len ≤ MAX_ETH_PKT_SIZE - udp_reserve →
  (∀ s, copy_from_user data len s = Ret ((len, b), s)) → zlen b = len → Forall is_byte b →
  get_mapping (ip_route i (s_addr (dst y))) s = Ret (Some m, s) → length m = 6%nat →
  ∃ c1 c2 zs,
    let iph := ip_header (u16 (ipid s)) (IP_HLEN + UDP_HLEN + len) c1 (ip i) (s_addr (dst y)) in
    let dgram := udp_header (sin_port (src y)) (sin_port (dst y)) (UDP_HLEN + len) c2 ++ b in
    csum_finalize (csum_add csum_init (words16 iph)) = Some 0 ∧
    csum_finalize (csum_add csum_init
      (udp_check_words (ip i) (s_addr (dst y)) (UDP_HLEN + len) dgram)) = Some 0 ∧
    udp_sys_send k data len flags s =
      (net_send (netdev y) p;; mret len)
        (retouch p
           (Packet (p + PACKET_DATA) (p + PACKET_DATA + 14) (p + PACKET_DATA + 34)
              (p + PACKET_DATA + 42) (p + PACKET_DATA + 42 + len) PACKET_CAPACITY
              (eth_header m (mac i) ++ iph ++ dgram ++ zs))
           (set_ipid (u32 (ipid s + 1)) (set_heap hp s))).
Proof.
  intros Hy Hb Hc Hi Hmac Hsrc Hsp Hdp Hheap Hp0 Hlen Hcopy Hbl Hby Hmap Hm.
  change (MAX_ETH_PKT_SIZE - udp_reserve) with 1472 in Hlen.
  set (zs := replicate (Z.to_nat (1988 - 42 - len) - 1) 0).
  set (x := Packet 0 0 0 (p + PACKET_DATA + 42) (p + PACKET_DATA + 42 + len) PACKET_CAPACITY
    (replicate 42 0 ++ (b ++ 0 :: zs))).
  set (s1 := set_heap hp s).
  destruct (udp_send_run s1 (netdev y) p x i m b zs (s_addr (dst y)) (sin_port (src y))
    (sin_port (dst y))) as (c1 & c2 & H1 & H2 & Hrun); try done.
  { cbn. by rewrite Hbl. }
  { rewrite Hbl. lia. }
  { by eapply get_mapping_frame. }
  rewrite Hbl in H1, H2, Hrun.
  exists c1, c2, (0 :: zs). cbv zeta. unfold IP_HLEN, UDP_HLEN. split_and!; [exact H1|exact H2|].
  unfold udp_sys_send. change udp_reserve with 42.
  rewrite (proj2 (Z.ltb_ge _ _)) by (unfold MAX_ETH_PKT_SIZE; rewrite u64_small; lia).
  assert (Hg : ∀ x s0, socks s0 = socks s → get_sock k (retouch p x s0) = Ret (y, retouch p x s0))
    by (intros ? ? E; unfold get_sock; munfold; cbn; by rewrite E, Hy).
  assert (Hg0 : get_sock k s = Ret (y, s)) by (unfold get_sock; munfold; by rewrite Hy).
  mstep Hg0. rewrite Hc, Hb. cbn [negb]. erewrite mbind_Ret by reflexivity. cbn [negb].
  set (x0 := Packet 0 0 0 0 0 PACKET_CAPACITY (replicate (Z.to_nat (PACKET_SIZE - PACKET_DATA)) 0)).
  assert (Ha : packet_alloc s = Ret (p, retouch p x0 s1)).
  { unfold packet_alloc, kalloc_addr. munfold. rewrite Hheap. cbn.
    by rewrite (proj2 (Z.eqb_neq _ _)) by done. }
  mstep Ha. mstep (set_al_retouch p x0 (p + PACKET_DATA + 42) s1).
  erewrite mbind_Ret by apply Hcopy. cbv beta iota.
  rewrite (i32_small len), (proj2 (Z.ltb_ge _ _)) by lia.
  set (n := Z.to_nat (PACKET_SIZE - PACKET_DATA)) in *.
  assert (Hn : n = 1988%nat) by reflexivity. unfold zlen in Hbl.
  erewrite mbind_Ret by (apply (wrb_retouch p _ (replicate n 0) [] 42);
    [cbn [raw]; by rewrite app_nil_r|lia|rewrite length_replicate; lia]).
  cbv beta iota. unfold with_raw. cbn [ll nl tl al pend capacity raw].
  erewrite mbind_Ret by apply set_end_retouch. cbv beta iota. cbn [ll nl tl al pend capacity raw].
  assert (Hraw : (take 42 (replicate n 0) ++ b ++ drop (42 + length b) (replicate n 0)) ++ [] =
    raw x).
  { rewrite app_nil_r, take_replicate, drop_replicate. subst x zs. cbn [raw].
    replace (42 `min` n)%nat with 42%nat by lia. do 2 f_equal.
    replace (n - (42 + length b))%nat with (S (Z.to_nat (1988 - 42 - len) - 1)) by lia. done. }
  rewrite Hraw. change (retouch p _ s1) with (retouch p x s1) at 1.
  mstep (Hg x s1 eq_refl).
  assert (Hgi : get_netif (netdev y) (retouch p x s1) = Ret (i, retouch p x s1))
    by (unfold get_netif; munfold; cbn; by rewrite Hi).
  mstep Hgi.
  replace (if ctrue (s_addr (src y)) then s_addr (src y) else ip i) with (ip i) by
    (unfold ctrue; destruct (Z.eqb_spec (s_addr (src y)) 0), Hsrc; cbn; congruence).
  unfold mbind, M_bind in Hrun |- *. rewrite Hrun. rewrite <- app_assoc.
  change (ipid s1) with (ipid s). change (20 + 8 + len) with (28 + len).
  by destruct (net_send (netdev y) p _) as [[[] ?]| | |].
Qed.

(** ** Binding *)

(** A lookup in a bucket, in a state that agrees on its entries. *)
Lemma lookup_loop_total l q (s : net U) :
  (∀ e, e ∈ l → is_Some (entries s !! e)) →
  ∃ r, ∀ s' : net U, (∀ e, e ∈ l → entries s' !! e = entries s !! e) →
    lookup_loop l q s' = Ret (r, s').
Proof.
  induction l as [|e l IH]; intros Hl; [by exists 0|].
  destruct (Hl e) as [x Hx]; [set_solver|]. destruct IH as [r Hr]; [set_solver|].
  exists (if e_port x =? q then e else r). intros s' Hs'. cbn [lookup_loop].
  assert (Hg : get_entry e s' = Ret (x, s'))
    by (unfold get_entry; munfold; rewrite Hs' by set_solver; by rewrite Hx).
  mstep Hg. destruct (e_port x =? q); [done|]. apply Hr. set_solver.
Qed.

Lemma udp_ok_bucket (s : net U) q :
  udp_ok s → 0 ≤ q →
  ∃ l, znth (udp_hlist s) (udp_hash q) = Some l ∧ l ∈ udp_hlist s ∧
    bucket (udp_hash q) s = Ret (l, s) ∧ ∀ e, e ∈ l → is_Some (entries s !! e).
Proof.
  intros [Hn Hu] Hq. destruct (znth_lt (udp_hlist s) (udp_hash q)) as [l Hl].
  { unfold udp_hash, UDP_HLIST_SIZE in *. pose proof (Z.mod_pos_bound q 128). lia. }
  assert (l ∈ udp_hlist s) by (apply znth_Some in Hl as [_ Hl]; by eapply list_elem_of_lookup_2).
  exists l. split_and!; [done..|unfold bucket; munfold; by rewrite Hl|].
  intros e He. destruct (Hu l e) as (x & -> & _); eauto.
Qed.

(** [udp_do_bind] keeps the table of bound ports well formed, enters the socket under the
    host order of the port so that a lookup of that port finds the new entry, changes no
    lookup of another port, and marks the socket bound to the address. *)
Theorem udp_do_bind_lookup s k y addr e hp :
  udp_ok s → socks s !! k = Some y → k ≠ 0 → heap s = e :: hp → e ≠ 0 →
  entries s !! e = None →
  ∃ s', udp_do_bind k addr s = Ret (tt, s') ∧ udp_ok s' ∧
    (∃ y', socks s' = <[k := y']> (socks s) ∧ sk_bound y' = true ∧ src y' = addr ∧
       recvq y' = recvq y) ∧
    lookup_entry (ntohs (sin_port addr)) s' = Ret (e, s') ∧
    ∀ q, 0 ≤ q → q ≠ ntohs (sin_port addr) →
      ∃ r, lookup_entry q s = Ret (r, s) ∧ lookup_entry q s' = Ret (r, s').
Proof.
  intros Hok Hy Hk Hheap He Hfresh. set (port := ntohs (sin_port addr)).
  assert (Hport : 0 ≤ port) by (destruct (ntohs_word (sin_port addr)); subst port; lia).
  destruct (udp_ok_bucket s port Hok Hport) as (l & Hl & Hlin & _ & Hle).
  assert (∃ u, zset (udp_hlist s) (udp_hash port) (e :: l) = Some u) as [u Hu].
  { unfold zset. rewrite decide_True; [eauto|]. destruct Hok as [-> _].
    apply Z.mod_pos_bound. unfold UDP_HLIST_SIZE. lia. }
  set (y' := Socket true (sk_connected y) (sk_open y) addr (dst y) (sk_ops y) (recvq y) (netdev y)).
  set (s' := set_socks (<[k := y']> (socks s)) (set_udp_hlist u
    (set_entries (<[e := UdpWaitEntry k 0 port]> (entries s)) (set_heap hp s)))).
  assert (Hold : ∀ e', is_Some (entries s !! e') → entries s' !! e' = entries s !! e').
  { intros e' [x Hx]. cbn. apply lookup_insert_ne. congruence. }
  assert (Hu_in : ∀ l', l' ∈ u → l' = e :: l ∨ l' ∈ udp_hlist s).
  { intros l' (j & Hj)%list_elem_of_lookup. unfold zset in Hu. case_decide; [|done].
    simplify_eq. destruct (lookup_list_insert_cases _ _ _ _ _ Hj) as [[_ ->]|[_ ?]]; [by left|].
    right. by eapply list_elem_of_lookup_2. }
  exists s'. split_and!.
  - unfold udp_do_bind, kalloc_addr. munfold. rewrite Hheap. cbn -[Z.eqb].
    rewrite (proj2 (Z.eqb_neq _ _)) by done. unfold put_entry, bucket_insert, set_bucket,
      bucket, get_sock, put_sock. munfold. cbn. fold port. rewrite Hl. cbn. rewrite Hu. cbn.
    rewrite Hy. done.
  - split; [cbn; rewrite (zset_length _ _ _ _ Hu); apply Hok|].
    intros l' e' Hl' He'. cbn [udp_hlist s'] in Hl'.
    assert (Hcase : e' = e ∨ ∃ x, entries s !! e' = Some x ∧
      (e_sock x = 0 ∨ is_Some (socks s !! e_sock x))).
    { destruct (Hu_in l' Hl') as [->|Hin]; [|right; by apply (proj2 Hok l' e')].
      apply elem_of_cons in He' as [->|He']; [by left|right; by apply (proj2 Hok l e')]. }
    destruct Hcase as [->|(x & Hx & Hs)].
    + exists (UdpWaitEntry k 0 port). cbn. rewrite !lookup_insert_eq. eauto.
    + exists x. rewrite Hold by eauto. split; [done|]. destruct Hs as [|Hs]; [by left|right].
      cbn. apply lookup_insert_is_Some'. by right.
  - exists y'. done.
  - unfold lookup_entry.
    assert (Hb : bucket (udp_hash port) s' = Ret (e :: l, s'))
      by (unfold bucket; munfold; cbn; by rewrite (znth_zset_eq _ _ _ _ Hu)).
    mstep Hb. cbn [lookup_loop].
    assert (Hg : get_entry e s' = Ret (UdpWaitEntry k 0 port, s'))
      by (unfold get_entry; munfold; cbn; by rewrite lookup_insert_eq).
    mstep Hg. cbn. by rewrite Z.eqb_refl.
  - intros q Hq Hne. destruct (udp_ok_bucket s q Hok Hq) as (lq & Hlq & _ & Hbq & Hleq).
    destruct (lookup_loop_total lq q s Hleq) as [r Hr]. exists r. unfold lookup_entry.
    mstep Hbq. split; [by apply Hr|].
    destruct (decide (udp_hash q = udp_hash port)) as [E|E].
    + assert (lq = l) as -> by congruence.
      assert (Hb : bucket (udp_hash q) s' = Ret (e :: l, s'))
        by (unfold bucket; munfold; cbn; rewrite E; by rewrite (znth_zset_eq _ _ _ _ Hu)).
      mstep Hb. cbn [lookup_loop].
      assert (Hg : get_entry e s' = Ret (UdpWaitEntry k 0 port, s'))
        by (unfold get_entry; munfold; cbn; by rewrite lookup_insert_eq).
      mstep Hg. cbn [e_port]. rewrite (proj2 (Z.eqb_neq _ _)) by done. apply Hr. auto.
    + assert (Hb : bucket (udp_hash q) s' = Ret (lq, s')).
      { unfold bucket. munfold. cbn. rewrite (znth_zset_ne _ (udp_hash port) _ _ _ ltac:(done) Hu).
        by rewrite Hlq. }
      mstep Hb. apply Hr. auto.
Qed.

(** On a bound socket with a packet waiting, [udp_sys_recv] copies out exactly the bytes
    between the packet's application pointer and its end, takes the packet off the
    queue, frees it and returns its length, when the packet fits and the low half of the
    destination is not negative as an [int]; otherwise the packet stays queued and a
    negative value is returned, in the second case after the copy. *)
Lemma udp_sys_recv_run fuel s k y p q x data len flags b u :
  socks s !! k = Some y → sk_bound y = true → recvq y = p :: q → p ≠ 0 →
  packets s !! p = Some x → 0 ≤ pend x - al x < 2 ^ 31 →
  zslice (raw x) (al x - (p + PACKET_DATA)) (pend x - al x) = Some b →
  store data b s = Ret (tt, set_usr u s) →
  (pend x - al x ≤ len → 0 ≤ i32 data →
   udp_sys_recv fuel k data len flags s =
     Ret (zlen b, set_packets (delete p (packets s)) (set_socks (<[k :=
       Socket true (sk_connected y) (sk_open y) (src y) (dst y) (sk_ops y) q (netdev y)]>
       (socks s)) (set_usr u s)))) ∧
  (len < pend x - al x →
   udp_sys_recv fuel k data len flags s = Ret (- EMSGSIZE, s)) ∧
  (pend x - al x ≤ len → i32 data < 0 →
   udp_sys_recv fuel k data len flags s = Ret (i32 data, set_usr u s)).
Proof.
  intros Hy Hb Hq Hp Hx Hr Hsl Hu.
  assert (Hg : ∀ u, get_sock k (set_usr u s) = Ret (y, set_usr u s))
    by (intros; unfold get_sock; munfold; cbn; by rewrite Hy).
  assert (Hg0 : get_sock k s = Ret (y, s)) by (unfold get_sock; munfold; by rewrite Hy).
  assert (Hw : recv_wait fuel k s = Ret (p, s)).
  { destruct fuel; cbn [recv_wait]; unfold socket_recvq_get; munfold; rewrite Hg0, Hq; cbn;
      unfold ctrue; by rewrite (proj2 (Z.eqb_neq _ _)) by done. }
  assert (Hpk : get_pkt p s = Ret (x, s)) by (unfold get_pkt; munfold; by rewrite Hx).
  assert (Hbl : zlen b = pend x - al x) by by apply zslice_length in Hsl.
  assert (Hrd : rdb p (al x) (pend x - al x) s = Ret (b, s))
    by (unfold rdb; mstep Hpk; by rewrite Hsl).
  assert (Hrun : udp_sys_recv fuel k data len flags s =
    if len <? pend x - al x then Ret (- EMSGSIZE, s)
    else if i32 data <? 0 then Ret (i32 data, set_usr u s)
    else (x ← get_sock k; set_recvq k (List.tl (recvq x));; packet_free p;; mret (zlen b))
           (set_usr u s)).
  { unfold udp_sys_recv. mstep Hg0. rewrite Hb. cbn [negb]. mstep Hw. mstep Hpk.
    rewrite u32_small by lia. destruct (len <? pend x - al x); [done|]. mstep Hrd. mstep Hu.
    destruct (i32 data <? 0); [done|]. by rewrite i32_small, Hbl by lia. }
  rewrite Hrun. split_and!; intros.
  - rewrite (proj2 (Z.ltb_ge _ _)), (proj2 (Z.ltb_ge _ _)) by lia.
    mstep (Hg u). unfold set_recvq. rewrite Hq. cbn [List.tl].
    munfold. rewrite Hg. cbn. unfold packet_free, get_pkt. munfold. cbn. by rewrite Hx, Hb.
  - by rewrite (proj2 (Z.ltb_lt _ _)) by lia.
  - by rewrite (proj2 (Z.ltb_ge _ _)), (proj2 (Z.ltb_lt _ _)) by lia.
Qed.
(** One more read at byte [k] of the 42 header bytes of a received packet. *)
Ltac pkt_side h :=
  first [reflexivity
        |unfold MAC_SIZE, ETH_HLEN, PACKET_DATA in *; cbn [ll nl tl al pend]; lia
        |cbn; lia
        |cbn [raw]; rewrite zlen_app; change (zlen h) with 42; unfold MAC_SIZE; lia].
Ltac pkt_read k :=
  lazymatch goal with
  | |- context [retouch ?p (Packet _ _ _ _ _ _ (?h ++ ?rest)) ?s] =>
      first
        [erewrite mbind_Ret by (apply (rdb_retouch _ _ h rest k); pkt_side h)
        |erewrite mbind_Ret by (erewrite mbind_Ret by
           (apply (rdb_retouch _ _ h rest k); pkt_side h); reflexivity)];
      cbv beta iota
  end.

Lemma octets_le2 v : word16 v → octets (le_bytes 2 v) = v.
Proof. apply (octets_le_bytes 2). Qed.

Lemma upsert_quiet s a0 m :
  arp_ok s → nmap s < MAX_MAPPINGS →
  ∃ maps' nmap', upsert_mapping a0 m s = Ret (tt, set_mappings maps' (set_nmap nmap' s)).
Proof.
  intros Hok Hroom. destruct (first_index_exists (mappings s) (nmap s) 0 a0) as [j Hj];
    [destruct Hok; lia|destruct Hok; unfold MAX_MAPPINGS in *; lia|].
  destruct (upsert_run s a0 m j Hok Hj) as (l' & _ & Hup & _); [|eauto].
  destruct Hj. lia.
Qed.

Section received.
Context (s : net U) (d p k e : Z) (i : netif) (z : udp_wait_entry) (y : socket) (l : list Z)
  (sm b zs : list Z) (ident tot c1 c2 a sport dport : Z).

Definition headers : list Z :=
  eth_header (mac i) sm ++ ip_header ident tot c1 a (ip i) ++
  udp_header sport dport (UDP_HLEN + zlen b) c2.

Hypothesis Hi : netifs s !! d = Some i.
Hypothesis Hmac : length (mac i) = 6%nat.
Hypothesis Hsm : length sm = 6%nat.
Hypothesis Hip : 0 ≤ ip i < 2 ^ 32.
Hypothesis Hdp : word16 dport.
Hypothesis Hok : arp_ok s.
Hypothesis Hroom : nmap s < MAX_MAPPINGS.
Hypothesis Hb : znth (udp_hlist s) (udp_hash (ntohs dport)) = Some (e :: l).
Hypothesis He : entries s !! e = Some z.
Hypothesis Hk : e_sock z = k.
Hypothesis Hk0 : k ≠ 0.
Hypothesis Hy : socks s !! k = Some y.

(** The UDP layer queues the packet on the first entry's socket. *)
Lemma udp_recv_headers nmap' maps' x :
  let s0 := set_mappings maps' (set_nmap nmap' s) in
  raw x = headers ++ b ++ zs → tl x = p + PACKET_DATA + 34 →
  ∃ s1, udp_recv d p (retouch p x s0) = Ret (tt, s1) ∧
    packets s1 = <[p := Packet (ll x) (nl x) (tl x) (p + PACKET_DATA + 42) (pend x)
                     (capacity x) (raw x)]> (packets s) ∧
    socks s1 = <[k := queued p y]> (socks s) ∧ usr s1 = usr s.
Proof.
  intros s0 Hraw Htl. pose proof (zlen_nonneg b). pose proof (zlen_nonneg zs).
  assert (Hh : zlen headers = 42)
    by (unfold headers, eth_header, zlen; rewrite !length_app, Hmac, Hsm; reflexivity).
  unfold udp_recv. mstep (get_pkt_retouch p x s0). unfold rd16.
  erewrite (mbind_Ret (rdb p _ 2 ≫= _)) by (erewrite mbind_Ret by
    (apply (rdb_retouch p x headers (b ++ zs) 36);
      [done|lia|unfold zlen in Hh; lia|lia|rewrite Hraw, !zlen_app; lia]); reflexivity).
  cbv beta iota.
  assert (Hd2 : take (Z.to_nat 2) (drop 36 headers ++ b ++ zs) = le_bytes 2 dport).
  { unfold headers, eth_header.
    destruct (mac i) as [|m0 [|m1 [|m2 [|m3 [|m4 [|m5 [|]]]]]]]; try done.
    destruct sm as [|n0 [|n1 [|n2 [|n3 [|n4 [|n5 [|]]]]]]]; done. }
  rewrite Hd2, octets_le2 by done.
  mstep (set_al_retouch p x (tl x + UDP_HLEN) s0).
  set (s1 := retouch p _ s0).
  assert (Hbk : bucket (udp_hash (ntohs dport)) s1 = Ret (e :: l, s1))
    by (unfold bucket; munfold; cbn; by rewrite Hb).
  mstep Hbk. cbn [deliver].
  assert (Hge : get_entry e s1 = Ret (z, s1)) by (unfold get_entry; munfold; cbn; by rewrite He).
  assert (Hgs : get_sock k s1 = Ret (y, s1)) by (unfold get_sock; munfold; cbn; by rewrite Hy).
  unfold set_recvq, ctrue. munfold. rewrite Hge, Hk, (proj2 (Z.eqb_neq _ _)) by done.
  cbn [negb]. rewrite !Hgs. eexists. split; [reflexivity|]. cbn.
  unfold UDP_HLEN. rewrite Htl. by replace (p + PACKET_DATA + 34 + 8) with (p + PACKET_DATA + 42) by lia.
Qed.

(** So does the whole stack. *)
Lemma eth_recv_headers x :
  packets s !! p = Some x → raw x = headers ++ b ++ zs → ll x = p + PACKET_DATA →
  pend x = ll x + udp_reserve + zlen b →
  ∃ s1 nl', eth_recv d p s = Ret (tt, s1) ∧
    packets s1 = <[p := Packet (ll x) nl' (p + PACKET_DATA + 34) (p + PACKET_DATA + 42) (pend x)
                     (capacity x) (raw x)]> (packets s) ∧
    socks s1 = <[k := queued p y]> (socks s) ∧ usr s1 = usr s.
Proof.
  intros Hp Hraw Hll Hend. pose proof (zlen_nonneg b) as Hbn. pose proof (zlen_nonneg zs) as Hzn.
  change udp_reserve with 42 in Hend.
  assert (Hbz : zlen (b ++ zs) = zlen b + zlen zs) by apply zlen_app.
  assert (Hg : get_pkt p s = Ret (x, s)) by (unfold get_pkt; munfold; by rewrite Hp).
  set (x0 := Packet (p + PACKET_DATA) (p + PACKET_DATA + 14) (tl x) (al x) (pend x)
    (capacity x) (headers ++ b ++ zs)).
  assert (Hs : set_nl p (ll x + ETH_HLEN) s = Ret (tt, retouch p x0 s))
    by (unfold set_nl; mstep Hg; by rewrite Hraw, Hll).
  assert (Hgi : ∀ q, get_netif d (retouch p q s) = Ret (i, retouch p q s))
    by (intros; unfold get_netif; munfold; cbn; by rewrite Hi).
  unfold eth_recv. mstep Hg. mstep Hs. mstep (Hgi x0). rewrite Hll. subst x0.
  pose proof udp_recv_headers as Hudp. unfold headers, eth_header in Hudp |- *.
  destruct (mac i) as [|m0 [|m1 [|m2 [|m3 [|m4 [|m5 [|]]]]]]] eqn:Emac; try done.
  destruct sm as [|n0 [|n1 [|n2 [|n3 [|n4 [|n5 [|]]]]]]] eqn:Esm; try done.
  pkt_read 0%nat.
  rewrite (bool_decide_eq_true_2 (_ = [m0; m1; m2; m3; m4; m5])) by reflexivity.
  rewrite orb_true_r. unfold rd16. pkt_read 12%nat.
  change (ntohs (octets (take _ (drop 12 _ ++ b ++ zs)))) with ETHERTYPE_IP.
  rewrite Z.eqb_refl. unfold ip_recv. erewrite mbind_Ret by apply Hgi. cbv beta iota.
  erewrite mbind_Ret by apply get_pkt_retouch. cbv beta iota. cbn [nl].
  unfold rd32. pkt_read 30%nat.
  change (take (Z.to_nat 4) (drop 30 _ ++ b ++ zs)) with (le_bytes 4 (ip i)).
  rewrite (octets_le_bytes 4) by exact Hip. rewrite Z.eqb_refl. cbn [negb andb].
  unfold rd8. pkt_read 14%nat.
  change (Z.land (octets (take _ (drop 14 _ ++ b ++ zs))) 15) with 5.
  erewrite mbind_Ret by apply set_tl_retouch. cbv beta iota. cbn [ll nl tl al pend capacity raw].
  rewrite (proj2 (Z.ltb_ge _ _)) by lia.
  pkt_read 26%nat. pkt_read 6%nat.

  lazymatch goal with |- context [(upsert_mapping ?sip ?m ≫= _) (retouch p ?x1 s)] =>
    destruct (upsert_quiet (retouch p x1 s) sip m Hok Hroom) as (maps' & nmap' & Hup);
    mstep Hup;
    change (set_mappings maps' (set_nmap nmap' (retouch p x1 s))) with
      (retouch p x1 (set_mappings maps' (set_nmap nmap' s)))
  end.
  replace (p + PACKET_DATA + 14 + 5 * 4) with (p + PACKET_DATA + 34) by lia.
  pkt_read 23%nat. change (octets (take _ (drop 23 _ ++ b ++ zs))) with IPPROTO_UDP.
  rewrite Z.eqb_refl.
  lazymatch goal with |- context [udp_recv d p (retouch p ?x1 _)] =>
    destruct (Hudp nmap' maps' x1 eq_refl eq_refl) as (s1 & Hrun & H1 & H2 & H3) end.
  exists s1. eexists. split; [exact Hrun|]. rewrite H1. cbn [ll nl tl al pend capacity raw].
  rewrite Hraw. unfold headers, eth_header. rewrite Emac, Esm.
  split_and!; [reflexivity|done..].
Qed.
End received.

(** C10: a frame in the format the sender builds, arriving at the interface it is addressed
    to, is queued on the socket of the first entry in the hash bucket of its destination port,
    and the next receive on that socket stores exactly the sender's bytes, returns their
    number, and frees the packet.  [udp_recv] does not compare the port of an entry that has a
    socket, so that entry may be another port's ([net.md] says the socket that listens on the
    port).  Conditions: the entry has a bound socket whose queue was empty, fewer than 16
    address mappings are known, the receiver asks for at least the bytes sent, and the buffer
    lies below the address at which its 32-bit truncation turns negative. *)
Theorem udp_delivery_roundtrip s d i p x sm ident tot c1 c2 a sport dport b zs k y e z l
    fuel data len flags u :
  packets s !! p = Some x → p ≠ 0 →
  raw x = (eth_header (mac i) sm ++ ip_header ident tot c1 a (ip i) ++
           udp_header sport dport (UDP_HLEN + zlen b) c2) ++ b ++ zs →
  zlen (raw x) = PACKET_SIZE - PACKET_DATA →
  ll x = p + PACKET_DATA → pend x = ll x + udp_reserve + zlen b →
  netifs s !! d = Some i → length (mac i) = 6%nat → length sm = 6%nat →
  0 ≤ ip i < 2 ^ 32 → word16 dport → arp_ok s → nmap s < MAX_MAPPINGS →
  znth (udp_hlist s) (udp_hash (ntohs dport)) = Some (e :: l) →
  entries s !! e = Some z → e_sock z = k → k ≠ 0 →
  socks s !! k = Some y → sk_bound y = true → recvq y = [] →
  zlen b ≤ len → 0 ≤ i32 data → (∀ s, store data b s = Ret (tt, set_usr (u (usr s)) s)) →
  ∃ s1 s2, eth_recv d p s = Ret (tt, s1) ∧
    udp_sys_recv fuel k data len flags s1 = Ret (zlen b, s2) ∧
    usr s2 = u (usr s) ∧ packets s2 = delete p (packets s) ∧ socks s2 = socks s.
Proof.
  intros Hp Hp0 Hraw Hrl Hll Hend Hi Hmac Hsm Hip Hdp Hok Hroom Hb He Hk Hk0 Hy Hbd Hq Hlen
    Hdata Hst. pose proof (zlen_nonneg b). pose proof (zlen_nonneg zs).
  destruct (eth_recv_headers s d p k e i z y l sm b zs ident tot c1 c2 a sport dport Hi Hmac Hsm
    Hip Hdp Hok Hroom Hb He Hk Hk0 Hy x Hp Hraw Hll Hend) as (s1 & nl' & Hrun & Hpk & Hsk & Hu).
  exists s1. change udp_reserve with 42 in Hend. set (x1 := Packet _ _ _ _ _ _ _) in Hpk.
  set (h := eth_header (mac i) sm ++ _) in Hraw.
  assert (Hh : zlen h = 42)
    by (subst h; unfold eth_header, zlen; rewrite !length_app, Hmac, Hsm; reflexivity).
  rewrite Hraw, !zlen_app, Hh in Hrl. unfold PACKET_SIZE, PACKET_DATA in Hrl.
  assert (Hsl : zslice (raw x1) (al x1 - (p + PACKET_DATA)) (pend x1 - al x1) = Some b).
  { cbn [x1 raw al pend]. replace (pend x - _) with (zlen b) by lia.
    rewrite zslice_Some by (rewrite ?Hraw, ?zlen_app; lia).
    replace (Z.to_nat (p + PACKET_DATA + 42 - (p + PACKET_DATA))) with (length h)
      by (unfold zlen in Hh; lia).
    rewrite Hraw, drop_app_length. unfold zlen. by rewrite Nat2Z.id, take_app_length. }
  destruct (udp_sys_recv_run fuel s1 k (queued p y) p [] x1 data len flags b (u (usr s1)))
    as (Hgood & _ & _).
  - by rewrite Hsk, lookup_insert_eq.
  - exact Hbd.
  - cbn. by rewrite Hq.
  - done.
  - by rewrite Hpk, lookup_insert_eq.
  - cbn. lia.
  - exact Hsl.
  - apply Hst.
  - eexists. split; [exact Hrun|]. split; [apply Hgood; [cbn; lia|done]|].
    cbn. rewrite Hu, Hpk, Hsk, delete_insert_eq, insert_insert_eq. split_and!; [done..|].
    apply insert_id. rewrite Hy. f_equal. destruct y. cbn in *. by subst.
Qed.
End net.

(** ** A host to try the stack on *)

(** Its driver accepts every frame; user memory is a log of writes and reads as sevens. *)
Definition demo_net_env : NetEnv (list (Z * list Z)) := {|
  net_send _ _ := mret tt;
  copy_from_user _ n := mret (n, replicate (Z.to_nat n) 7);
  store a l := modify (λ s, set_usr ((a, l) :: usr s) s);
  sleep _ := mret tt
|}.

Definition demo_netif : netif := Netif 0x0F02000A [1; 2; 3; 4; 5; 6] 0x0202000A 0x00FFFFFF.
Definition demo_peer : list Z := [9; 9; 9; 9; 9; 9].
Definition demo_port : Z := 0x5000.
Definition demo_sock : socket :=
  Socket true true true (SockaddrIn 1 demo_port 0) (SockaddrIn 1 0x3500 0x0302000A) 1 [] 1.
Definition demo_data : list Z := [104; 105; 33].
Definition demo_frame : list Z :=
  (eth_header (mac demo_netif) demo_peer ++ ip_header 0 31 0 0x0302000A (ip demo_netif) ++
   udp_header 0x3500 demo_port (UDP_HLEN + zlen demo_data) 0) ++ demo_data ++ replicate 1943 0.
Definition demo_packet : packet := Packet 4156 0 0 0 4201 PACKET_CAPACITY demo_frame.
Definition demo_net : net (list (Z * list Z)) :=
  Net (replicate 80 [] ++ [[200]] ++ replicate 47 [])
    {[200 := UdpWaitEntry 100 0 80]} {[100 := demo_sock]} {[4096 := demo_packet]}
    {[1 := demo_netif]}
    ([(0xFFFFFFFF, broadcast_mac); (0x0302000A, demo_peer)] ++ replicate 14 (0, [0;0;0;0;0;0]))
    2 0 EPH_BEGIN [1] [8192; 12288] [] [].

Lemma demo_udp_ok : udp_ok demo_net.
Proof.
  split; [done|]. intros l e Hl He.
  change (l ∈ replicate 80 [] ++ [[200]] ++ replicate 47 []) in Hl.
  apply elem_of_app in Hl as [Hl|Hl]; [apply elem_of_replicate_inv in Hl; set_solver|].
  apply elem_of_app in Hl as [Hl|Hl]; [|apply elem_of_replicate_inv in Hl; set_solver].
  apply list_elem_of_singleton in Hl as ->. apply list_elem_of_singleton in He as ->.
  exists (UdpWaitEntry 100 0 80). split; [done|]. right. by eexists.
Qed.

Lemma demo_arp_ok : arp_ok demo_net.
Proof. split; [done|unfold MAX_MAPPINGS; cbn; lia]. Qed.

Lemma upsert_mapping_spec_witness :
  ∃ s', upsert_mapping 7 demo_peer demo_net = Ret (tt, s') ∧
    get_mapping 7 s' = Ret (Some demo_peer, s').
Proof.
  destruct (upsert_mapping_spec demo_net 7 demo_peer demo_arp_ok) as [H _].
  destruct H as (s' & Hrun & _ & Hget); [right; reflexivity|].
  exists s'. split; [exact Hrun|]. destruct (Hget 7) as (r & _ & H7). exact H7.
Defined.

Lemma eth_recv_consumes_witness :
  ∃ s', eth_recv 1 4096 demo_net = Ret (tt, s') ∧
    (dropped 4096 demo_net s' ∨
     (addressed demo_netif 4096 demo_packet ∧ taken 4096 demo_packet demo_net s')).
Proof.
  apply (eth_recv_consumes (U := list (Z * list Z))).
  - reflexivity.
  - reflexivity.
  - vm_compute. repeat split; discriminate.
  - exact demo_udp_ok.
  - exact demo_arp_ok.
  - reflexivity.
Defined.

Lemma udp_sys_send_frame_witness :
  ∃ c1 c2 s',
    csum_finalize (csum_add csum_init
      (words16 (ip_header 0 (IP_HLEN + UDP_HLEN + 3) c1 (ip demo_netif) 0x0302000A))) = Some 0 ∧
    csum_finalize (csum_add csum_init (udp_check_words (ip demo_netif) 0x0302000A (UDP_HLEN + 3)
      (udp_header demo_port 0x3500 (UDP_HLEN + 3) c2 ++ [7; 7; 7]))) = Some 0 ∧
    @udp_sys_send _ demo_net_env 100 0 3 0 demo_net = Ret (3, s').
Proof.
  destruct (@udp_sys_send_frame _ demo_net_env demo_net 100 0 3 0 demo_sock demo_netif 8192
    [12288] [7; 7; 7] demo_peer) as (c1 & c2 & zs & H1 & H2 & H3).
  - reflexivity.
  - reflexivity.
  - reflexivity.
  - reflexivity.
  - reflexivity.
  - left. reflexivity.
  - unfold word16. cbn. unfold demo_port. lia.
  - unfold word16. cbn. lia.
  - reflexivity.
  - discriminate.
  - vm_compute. split; discriminate.
  - intros. reflexivity.
  - reflexivity.
  - repeat constructor; unfold is_byte; lia.
  - vm_compute. reflexivity.
  - reflexivity.
  - exists c1, c2. eexists. split; [exact H1|]. split; [exact H2|rewrite H3; reflexivity].
Defined.

Lemma udp_do_bind_lookup_witness :
  ∃ s', udp_do_bind 100 (SockaddrIn 1 0x3500 0) demo_net = Ret (tt, s') ∧ udp_ok s' ∧
    lookup_entry (ntohs 0x3500) s' = Ret (8192, s').
Proof.
  destruct (udp_do_bind_lookup demo_net 100 demo_sock (SockaddrIn 1 0x3500 0) 8192 [12288])
    as (s' & H1 & H2 & _ & H3 & _).
  - exact demo_udp_ok.
  - reflexivity.
  - discriminate.
  - reflexivity.
  - discriminate.
  - reflexivity.
  - exists s'. split; [exact H1|]. split; [exact H2|exact H3].
Defined.

Lemma udp_delivery_roundtrip_witness :
  ∃ s1 s2, eth_recv 1 4096 demo_net = Ret (tt, s1) ∧
    @udp_sys_recv _ demo_net_env 0 100 5000 64 0 s1 = Ret (3, s2) ∧
    usr s2 = [(5000, demo_data)].
Proof.
  destruct (@udp_delivery_roundtrip _ demo_net_env demo_net 1 demo_netif 4096 demo_packet demo_peer
    0 31 0 0 0x0302000A 0x3500 demo_port demo_data (replicate 1943 0) 100 demo_sock 200
    (UdpWaitEntry 100 0 80) [] 0 5000 64 0 (cons (5000, demo_data)))
    as (s1 & s2 & H1 & H2 & H3 & _ & _).
  - reflexivity.
  - discriminate.
  - reflexivity.
  - reflexivity.
  - reflexivity.
  - reflexivity.
  - reflexivity.
  - reflexivity.
  - reflexivity.
  - split; [discriminate|reflexivity].
  - split; [discriminate|reflexivity].
  - exact demo_arp_ok.
  - reflexivity.
  - reflexivity.
  - reflexivity.
  - reflexivity.
  - discriminate.
  - reflexivity.
  - reflexivity.
  - reflexivity.
  - vm_compute. discriminate.
  - vm_compute. discriminate.
  - intros. reflexivity.
  - exists s1, s2. split; [exact H1|]. split; [exact H2|exact H3].
Defined.

(** ** Behaviours worth knowing *)

(** A port already bound is not found when bound again: the lookup uses network order. *)
Example udp_bind_twice :
  match udp_do_bind 100 (SockaddrIn 1 0x3500 0) demo_net with
  | Ret (_, s') => lookup_entry 0x3500 s' = Ret (0, s')
  | _ => False
  end.
Proof. vm_compute. reflexivity. Qed.

(** A socket is woken on the address of a field of its table entry, and sleeps on its own. *)
Example udp_recv_wakes_entry :
  match eth_recv 1 4096 demo_net with
  | Ret (_, s') => woken s' = [At 208]
  | _ => False
  end.
Proof. vm_compute. reflexivity. Qed.

(** Receiving into a buffer whose address has bit 31 set fails after copying. *)
Example udp_recv_high_buffer :
  match eth_recv 1 4096 demo_net with
  | Ret (_, s') =>
      match @udp_sys_recv _ demo_net_env 0 100 0x80400000 64 0 s' with
      | Ret (r, s'') => r = -0x7FC00000 ∧ usr s'' = [(0x80400000, demo_data)]
      | _ => False
      end
  | _ => False
  end.
Proof. vm_compute. split; reflexivity. Qed.

(** Sending to an address with no known MAC copies from NULL. *)
Example udp_send_unknown_mac :
  @udp_sys_send _ demo_net_env 100 0 3 0
    (set_socks {[100 := Socket true true true (SockaddrIn 1 demo_port 0)
       (SockaddrIn 1 0x3500 0x0402000A) 1 [] 1]} demo_net) = Fault.
Proof. vm_compute. reflexivity. Qed.
