(* ===== verification/Sockets.v ===== *)
(** * Sockets: the protocol table, socket files and the socket calls

    Models [kernel/net/socket.c] and the entry points of [kernel/net/udp.c] that the
    protocol table holds.  The calls run on the file-system state, whose file-system part
    is the network state of [Net]. *)

From S2P Require Export Net Vfs.

Definition AF_INET : Z := 1.
Definition SOCK_DGRAM : Z := 2.
Definition EBADF : Z := 9.
Definition ENOMEM : Z := 12.
Definition ENOSYS : Z := 38.
Definition EPROTOTYPE : Z := 91.
Definition EPROTONOSUPPORT : Z := 93.
Definition EAFNOSUPPORT : Z := 97.
Definition ENOTCONN : Z := 107.

(** [ERR_PTR(errno)] as an address. *)
Definition ERR_PTR (errno : Z) : Z := u64 errno.

(** [struct sockops]: a NULL entry is [None]. *)
Record sockops (S : Type) := SockOps {
  op_connect : option (Z → Z → Z → M S Z);
  op_bind : option (Z → Z → Z → M S Z);
  op_send : option (Z → Z → Z → Z → M S Z);
  op_recv : option (Z → Z → Z → Z → M S Z);
  op_sclose : option (Z → M S Z);
  proto : Z
}.
Arguments op_connect {S} _.
Arguments op_bind {S} _.
Arguments op_send {S} _.
Arguments op_recv {S} _.
Arguments op_sclose {S} _.
Arguments proto {S} _.

(** What the socket layer is linked with: the protocol tables by address, the addresses of
    [udp_ops] and [socket_fops], the default network device (0 when there is none) and
    how many wake-ups a receive may see. *)
Class SockEnv (U : Type) := {
  sockops_at : Z → option (sockops (net U));
  udp_ops_addr : Z;
  socket_fops_addr : Z;
  netdev_get_default_dev : Z;
  patience : nat
}.

Section sockets.
Context {U : Type} `{NetEnv U, SockEnv U, VfsEnv (net U)}.

Definition set_fsd (x : net U) (s : vfs (net U)) : vfs (net U) :=
  Vfs (venv s) (files s) (inodes s) (tables s) (bufs s) (mp_list s) (mps s) (avail s) (cwd s)
    (myfdt s) x.

(** A network operation inside a call. *)
Definition net_op {A} (m : M (net U) A) : M (vfs (net U)) A := zoom (Lens fsd set_fsd) m.

Definition udp_ops : sockops (net U) := {|
  proto := IPPROTO_UDP;
  op_bind := Some udp_bind;
  op_connect := Some udp_connect;
  op_send := Some udp_sys_send;
  op_recv := Some (udp_sys_recv patience);
  op_sclose := Some udp_sys_close
|}.

(** ** The protocol table *)

Definition get_ops (a : Z) : M (net U) (sockops (net U)) := mlift (sockops_at a).

Fixpoint lookup_proto_loop (l : list Z) (protocol : Z) : M (net U) Z :=
  match l with
  | [] => mret 0
  | a :: l =>
      ops ← get_ops a;
      if proto ops =? u32 protocol then mret a else lookup_proto_loop l protocol
  end.
Definition lookup_proto (protocol : Z) : M (net U) Z :=
  l ← gets sockops_list; lookup_proto_loop l protocol.

Definition socket_register_proto (a : Z) : M (net U) unit :=
  modify (λ s, set_sockops_list (sockops_list s ++ [a]) s).

Definition udp_init : M (net U) unit :=
  socket_register_proto udp_ops_addr;;
  modify (set_udp_hlist (replicate (Z.to_nat UDP_HLIST_SIZE) [])).

(** ** Creating and destroying sockets *)

Definition zero_addr : sockaddr_in := SockaddrIn 0 0 0.

Definition socket_socket (domain type protocol : Z) : M (net U) Z :=
  if negb (domain =? AF_INET) then mret (ERR_PTR (- EAFNOSUPPORT))
  else if negb (type =? SOCK_DGRAM) then mret (ERR_PTR (- EPROTOTYPE))
  else
    let protocol := if ctrue protocol then protocol else IPPROTO_UDP in
    ops ← lookup_proto protocol;
    if ops =? 0 then mret (ERR_PTR (- EPROTONOSUPPORT))
    else
      k ← kalloc_addr;
      if k =? 0 then mfault
      else
        put_sock k (Socket false false false zero_addr zero_addr ops []
                      netdev_get_default_dev);;
        massert (ctrue netdev_get_default_dev);;
        mret k.

Fixpoint free_all (l : list Z) : M (net U) unit :=
  match l with [] => mret tt | p :: l => packet_free p;; free_all l end.

Definition socket_destroy (k : Z) : M (net U) unit :=
  x ← get_sock k;
  free_all (recvq x);;
  modify (λ s, set_socks (delete k (socks s)) s).

(** ** Socket files *)

Definition socket_read (f buffer size : Z) : M (vfs (net U)) Z :=
  x ← get_file f;
  massert (ctrue (f_private x));;
  k ← net_op (get_sock (f_private x));
  if negb (sk_open k) then mret (- ENOTCONN)
  else
    ops ← net_op (get_ops (sk_ops k));
    recv ← mlift (op_recv ops);
    recvlen ← net_op (recv (f_private x) buffer size 0);
    if recvlen <? 0 then mret recvlen
    else x ← get_file f; set_fpos f (fpos x + recvlen);; mret recvlen.

Definition socket_write (f buffer size : Z) : M (vfs (net U)) Z :=
  x ← get_file f;
  massert (ctrue (f_private x));;
  k ← net_op (get_sock (f_private x));
  if negb (sk_open k) then mret (- ENOTCONN)
  else
    ops ← net_op (get_ops (sk_ops k));
    send ← mlift (op_send ops);
    sendlen ← net_op (send (f_private x) buffer size 0);
    if sendlen <? 0 then mret sendlen
    else x ← get_file f; set_fpos f (fpos x + sendlen);; mret sendlen.

Definition socket_fops : file_operations (vfs (net U)) :=
  FileOps _ None (Some socket_read) (Some socket_write) None None None None.

Definition socket_init (f : Z) : M (vfs (net U)) Z :=
  if negb (ctrue f) then mret (- EINVAL)
  else
    k ← net_op (socket_socket AF_INET SOCK_DGRAM 0);
    if negb (ctrue k) then mret (- ENOMEM)
    else file_init f socket_fops_addr None 0 k;; mret 0.

Definition socket_final (f : Z) : M (vfs (net U)) Z :=
  if negb (ctrue f) then mret (- EINVAL)
  else
    x ← get_file f;
    if negb (ctrue (f_private x)) then mret (- EINVAL)
    else
      k ← net_op (get_sock (f_private x));
      if negb (sk_open k) then mret (- ENOTCONN)
      else
        ops ← net_op (get_ops (sk_ops k));
        close ← mlift (op_sclose ops);
        net_op (close (f_private x));;
        net_op (socket_destroy (f_private x));;
        put_file f (File (f_flags x) (f_op x) (f_inode x) (f_path x) (fpos x) 0 (f_ref x));;
        mret 0.

(** ** The calls *)

(** The arguments of the call are not looked at. *)
Definition sys_socket (domain type protocol : Z) : M (vfs (net U)) Z :=
  f ← kcalloc_file;
  if negb (ctrue f) then mret (- ENOMEM)
  else
    ret ← socket_init f;
    if ret <? 0 then kfree f;; mret ret
    else t ← gets myfdt; fd_alloc t f.

(** The socket behind a descriptor, or 0. *)
Definition socket_of_fd (fd : Z) : M (vfs (net U)) Z :=
  if (fd <? 0) || (NR_OPEN <=? fd) then mret 0
  else
    t ← gets myfdt;
    f ← fd_get t fd;
    if negb (ctrue f) then mret 0
    else x ← get_file f; mret (f_private x).

(** The common shape of the calls: descriptor, socket, operation, error. *)
Definition with_socket {A} (fd : Z) (sel : sockops (net U) → option A)
  (body : Z → A → M (vfs (net U)) Z) : M (vfs (net U)) Z :=
  k ← socket_of_fd fd;
  if negb (ctrue k) then mret (- EBADF)
  else
    x ← net_op (get_sock k);
    ops ← net_op (get_ops (sk_ops x));
    match sel ops with
    | None => mret (- ENOSYS)
    | Some op => body k op
    end.

Definition sys_connect (fd address address_len : Z) : M (vfs (net U)) Z :=
  with_socket fd op_connect (λ k connect,
    ret ← net_op (connect k address address_len);
    if ret <? 0 then mret ret
    else
      x ← net_op (get_sock k);
      net_op (set_flags k (sk_bound x) (sk_connected x) true);; mret 0).

Definition sys_bind (fd address address_len : Z) : M (vfs (net U)) Z :=
  with_socket fd op_bind (λ k bind,
    ret ← net_op (bind k address address_len);
    if ret <? 0 then mret ret
    else
      x ← net_op (get_sock k);
      net_op (set_flags k true (sk_connected x) (sk_open x));; mret 0).

Definition sys_send (fd buffer length flags : Z) : M (vfs (net U)) Z :=
  with_socket fd op_send (λ k send, net_op (send k buffer length flags)).

Definition sys_recv (fd buffer length flags : Z) : M (vfs (net U)) Z :=
  with_socket fd op_recv (λ k recv, net_op (recv k buffer length flags)).

(** ** Waiting on a port *)

(** [entry] is the address of the entry on the caller's stack. *)
Definition udp_wait (entry port : Z) : M (vfs (net U)) Z :=
  zoom lock_lens (irq_pushoff 0);;
  let hash := udp_hash port in
  net_op (put_entry entry (UdpWaitEntry 0 0 port));;
  net_op (bucket_insert hash entry);;
  zoom lock_lens (irq_popoff 0);;
  net_op (sleep (At entry));;
  l ← net_op (bucket hash);
  (if bool_decide (entry ∈ l)
   then net_op (set_bucket hash (filter (λ e, e ≠ entry) l)) else mspin);;
  x ← net_op (get_entry entry);
  net_op (modify (λ s, set_entries (delete entry (entries s)) s));;
  mret (e_rcv x).

(** ** Guards *)

Lemma socket_of_bad_fd fd s :
  fd < 0 ∨ NR_OPEN ≤ fd → socket_of_fd fd s = Ret (0, s).
Proof.
  intros Hfd. unfold socket_of_fd. destruct Hfd.
  - by rewrite (proj2 (Z.ltb_lt _ _)) by lia.
  - by rewrite (proj2 (Z.leb_le _ _)), orb_true_r by lia.
Qed.

Lemma with_socket_bad_fd {A} fd (sel : sockops (net U) → option A) body s :
  fd < 0 ∨ NR_OPEN ≤ fd → with_socket fd sel body s = Ret (- EBADF, s).
Proof. intros Hfd. unfold with_socket. by mstep (socket_of_bad_fd fd s Hfd). Qed.

(** The socket calls refuse a descriptor outside the table, and reading or writing a
    socket that was never connected is refused, all without any effect on the state. *)
Theorem socket_calls_guarded s f x y :
  files s !! f = Some x → f_private x ≠ 0 → socks (fsd s) !! f_private x = Some y →
  (∀ fd a n flags, fd < 0 ∨ NR_OPEN ≤ fd →
     sys_connect fd a n s = Ret (- EBADF, s) ∧ sys_bind fd a n s = Ret (- EBADF, s) ∧
     sys_send fd a n flags s = Ret (- EBADF, s) ∧ sys_recv fd a n flags s = Ret (- EBADF, s)) ∧
  (sk_open y = false → ∀ a n,
     socket_read f a n s = Ret (- ENOTCONN, s) ∧ socket_write f a n s = Ret (- ENOTCONN, s)).
Proof.
  intros Hf Hp Hy. split.
  - intros. split_and!; by apply with_socket_bad_fd.
  - intros Ho a n.
    assert (Hg : get_file f s = Ret (x, s)) by (unfold get_file; munfold; by rewrite Hf).
    assert (Hs : net_op (get_sock (f_private x)) s = Ret (y, s)).
    { unfold net_op, zoom, get_sock. munfold. cbn. rewrite Hy. by destruct s. }
    assert (Ha : massert (ctrue (f_private x)) s = Ret (tt, s)).
    { unfold massert, ctrue. by rewrite (proj2 (Z.eqb_neq _ _)) by done. }
    unfold socket_read, socket_write. split; mstep Hg; mstep Ha; mstep Hs; by rewrite Ho.
Qed.
End sockets.

(** ** A host with one socket file *)

Definition demo_sock_env : SockEnv (list (Z * list Z)) := {|
  sockops_at a := if a =? 1 then Some (SockOps _ None None None None
    (Some (udp_sys_close (U := list (Z * list Z)))) IPPROTO_UDP) else None;
  udp_ops_addr := 1;
  socket_fops_addr := 2;
  netdev_get_default_dev := 1;
  patience := 0
|}.
Definition demo_sock_vfs (k : socket) : vfs (net (list (Z * list Z))) :=
  Vfs (LockEnv [Cpu 0 true true] ∅) {[500 := File 0 2 0 [] 0 100 1]} ∅ ∅ ∅ [] ∅ [] []
    0 (set_socks {[100 := k]} demo_net).
Definition demo_closed : socket :=
  Socket true true false (SockaddrIn 1 demo_port 0) (SockaddrIn 1 0x3500 0x0302000A) 1 [] 1.

Lemma socket_calls_guarded_witness :
  @socket_read _ demo_sock_env 500 0 8 (demo_sock_vfs demo_closed) =
    Ret (- ENOTCONN, demo_sock_vfs demo_closed).
Proof.
  destruct (@socket_calls_guarded _ demo_sock_env
    (demo_sock_vfs demo_closed) 500 (File 0 2 0 [] 0 100 1) demo_closed) as [_ H].
  - reflexivity.
  - discriminate.
  - reflexivity.
  - destruct (H eq_refl 0 8) as [Hr _]. exact Hr.
Defined.

(** Closing a bound socket fails with -EBUSY, is ignored, and the table keeps the entry of
    the socket that is freed. *)
Example socket_final_dangles :
  match @socket_final _ demo_sock_env 500 (demo_sock_vfs demo_sock) with
  | Ret (r, s') => r = 0 ∧ socks (fsd s') !! 100 = None ∧
      e_sock <$> entries (fsd s') !! 200 = Some 100
  | _ => False
  end.
Proof. vm_compute. repeat split; reflexivity. Qed.
