(* ===== verification/Blk.v ===== *)
(** * Block devices and their requests

    Models [kernel/io/blk.c] and the inline functions of [kernel/include/io/blk.h].  The driver
    behind a device is the class [BlkDriver]: its table of operations ([struct blkdev_ops]),
    where it keeps the requests, and how a process waits.  [Virtio] is the instance. *)

From S2P Require Export Locking CString Irq.

(** ** Data ([blk.h]) *)

Definition KERNEL_SECTOR_SIZE : Z := 512.
Definition BLKREQ_TYPE_READ : Z := 0.
Definition BLKREQ_TYPE_WRITE : Z := 1.
Definition BLKREQ_STATUS_INIT : Z := 0.
Definition BLKREQ_STATUS_OK : Z := 1.
Definition BLKREQ_STATUS_ERR : Z := 2.

(** [struct blkreq]; its link [rq_head] is its place in the list of the device. *)
Record blkreq := Blkreq {
  rq_type : Z;
  sector_sta : Z;
  rq_size : Z;
  rq_buffer : Z;
  rq_status : Z;
  rq_dev : Z;
  endio : Z
}.
#[export] Instance blkreq_eq_dec : EqDecision blkreq.
Proof. solve_decision. Defined.

Definition set_status (v : Z) (x : blkreq) : blkreq :=
  Blkreq (rq_type x) (sector_sta x) (rq_size x) (rq_buffer x) v (rq_dev x) (endio x).

(** [struct blkdev_ops]; a request is known by its address. *)
Record blkdev_ops (S : Type) := BlkOps {
  op_alloc : M S Z;
  op_free : Z → M S unit;
  op_submit : Z → M S unit;
  op_irq_handle : option (M S Z)
}.
Arguments BlkOps {S} _ _ _ _.
Arguments op_alloc {S} _.
Arguments op_free {S} _ _.
Arguments op_submit {S} _ _.
Arguments op_irq_handle {S} _.

(** What the block layer needs of the system around a device: locks, memory, the list
    [rq_list] with its lock, the requests by address, [wakeup] on a request and the call of a
    callback. *)
Class BlkState (S : Type) := {
  #[global] blk_locks :: HasLocks S;
  #[global] blk_mem :: HasMem S;
  rq_list : lens S (list Z);
  rq_list_lock : Z;
  get_req : S → Z → option blkreq;
  put_req : Z → blkreq → S → S;
  req_wakeup : Z → M S unit;
  call_endio : Z → Z → M S unit
}.

(** ... and of the driver: its operations, the geometry, and [sleep] on a request, during which
    the interrupts of the device arrive. *)
Class BlkDriver (S : Type) := {
  #[global] blk_state :: BlkState S;
  dev_ops : blkdev_ops S;
  req_sleep : Z → M S unit;
  sector_size : Z;
  dev_size : Z
}.

(** Without its driver: the functions a driver calls back. *)
Section requests.
Context {S : Type} `{BlkState S}.

Definition load_req (r : Z) : M S blkreq := mtry (λ s, get_req s r).
Definition upd_req (r : Z) (f : blkreq → blkreq) : M S unit :=
  x ← load_req r; modify (put_req r (f x)).

Definition blkreq_init (request dev : Z) : M S unit :=
  massert (ctrue request);;
  upd_req request (λ _, Blkreq BLKREQ_TYPE_READ 0 0 0 BLKREQ_STATUS_INIT dev 0).

Definition blkreq_wakeup (req : Z) : M S unit := massert (ctrue req);; req_wakeup req.

Definition blkdev_general_endio (request : Z) : M S unit :=
  massert (ctrue request);;
  x ← load_req request;
  mwhen (ctrue (endio x)) (call_endio (endio x) request);;
  blkreq_wakeup request.
End requests.

Section blk.
Context {S : Type} `{BlkDriver S}.

Definition blkreq_sleep (req : Z) : M S unit := massert (ctrue req);; req_sleep req.

Definition blkreq_alloc (sector buffer size : Z) (write : bool) : M S Z :=
  req ← op_alloc dev_ops;
  if negb (ctrue req) then mret 0
  else
    upd_req req (λ x, Blkreq (if write then BLKREQ_TYPE_WRITE else BLKREQ_TYPE_READ)
      (sector_sta x) (rq_size x) (rq_buffer x) (rq_status x) (rq_dev x) (endio x));;
    upd_req req (λ x, Blkreq (rq_type x) sector size buffer (rq_status x) (rq_dev x) (endio x));;
    mret req.

Definition blkreq_free (req : Z) : M S unit :=
  massert (ctrue req);; op_free dev_ops req.

Definition blkdev_submit_req (request : Z) : M S unit :=
  massert (ctrue request);;
  acquire rq_list_lock;;
  modify (λ s, lset rq_list (request :: lget rq_list s) s);;
  release rq_list_lock;;
  op_submit dev_ops request.

Definition blkdev_submit_req_wait (request : Z) : M S unit :=
  blkdev_submit_req request;;
  blkreq_sleep request.

(** The body of the walk of [blkdev_wait_all]; the list does not change while the lock is
    held, so the walk follows the addresses it had at the start. *)
Fixpoint wait_loop (l : list Z) (ret : Z) : M S Z :=
  match l with
  | [] => mret ret
  | request :: l =>
      massert (ctrue request);;
      x ← load_req request;
      mwhen (rq_status x =? BLKREQ_STATUS_INIT) (blkreq_sleep request);;
      x ← load_req request;
      wait_loop l (if rq_status x =? BLKREQ_STATUS_OK then ret else i32 (ret + 1))
  end.

Definition blkdev_wait_all : M S Z :=
  acquire rq_list_lock;;
  l ← gets (lget rq_list);
  ret ← wait_loop l 0;
  release rq_list_lock;;
  mret ret.

(** [list_remove(&request->rq_head)] takes the request out of the list of the device. *)
Definition rq_remove (r : Z) : M S unit :=
  modify (λ s, lset rq_list (filter (λ x, x ≠ r) (lget rq_list s)) s).

Fixpoint free_loop (l : list Z) : M S unit :=
  match l with
  | [] => mret tt
  | request :: l =>
      x ← load_req request;
      (if negb (rq_status x =? BLKREQ_STATUS_OK) then mret tt
       else op_free dev_ops request;; rq_remove request);;
      free_loop l
  end.

Definition blkdev_free_all : M S unit :=
  acquire rq_list_lock;;
  l ← gets (lget rq_list);
  free_loop l;;
  release rq_list_lock.

Definition blkdev_general_isr : M S Z :=
  match op_irq_handle dev_ops with
  | Some h => h
  | None => mret IRQ_SKIP
  end.
End blk.
