(* ===== verification/Virtio.v ===== *)
(** * Virtqueues and the virtio block driver

    Models [kernel/drivers/virtio.c], the sizes and data of [kernel/include/drivers/virtio.h]
    and the RISC-V driver [kernel/arch/riscv/drivers/virtio/virtio-blk.c] with
    [virtq_add_to_device].  The driver and the device share the rings; the device's moves are
    steps of their own ([dev_step]), so that completions come in any order and at any time the
    code leaves open. *)

From S2P Require Export Blk.

(** ** Data ([virtio.h]) *)

Definition VIRTQ_DESC_F_NEXT : Z := 1.
Definition VIRTQ_DESC_F_WRITE : Z := 2.
Definition VIRTIO_DEFAULT_QUEUE_SIZE : Z := 256.
Definition VIRTIO_DEFAULT_ALIGN : Z := 4096.
Definition VIRTIO_BLK_REQ_HEADER_SIZE : Z := 16.
Definition VIRTIO_BLK_REQ_FOOTER_SIZE : Z := 1.
Definition VIRTIO_BLK_T_IN : Z := 0.
Definition VIRTIO_BLK_T_OUT : Z := 1.
Definition VIRTIO_BLK_SECTOR_SIZE : Z := 512.
Definition VIRTIO_BLK_S_OK : Z := 0.
Definition VIRTIO_BLK_S_IOERR : Z := 1.

Definition wrap (x len : Z) : Z := Z.land x (Z.lnot len).
Definition ALIGN (x a : Z) : Z := Z.land (u32 (x + (a - 1))) (Z.lnot (a - 1)).

Record virtqueue_desc := Desc { d_addr : Z; d_len : Z; d_flags : Z; d_next : Z }.

(** [struct virtq_info] with the rings it points to; [v_desc], [v_avail] and [v_used] are the
    addresses of the three parts. *)
Record virtq_info := Virtq {
  pfn : Z;
  seen_used : Z;
  free_desc : Z;
  v_desc : Z;
  v_avail : Z;
  v_used : Z;
  desc : list virtqueue_desc;
  avail_idx : Z;
  avail_ring : list Z;
  used_idx : Z;
  used_ring : list (Z * Z);
  desc_virt : list Z;
  queue_num : Z;
  queue_size : Z
}.

(** Sizes are [unsigned int]s. *)
Definition virtq_desc_size (qsz : Z) : Z := u32 (16 * qsz).
Definition virtq_avail_size (qsz : Z) : Z := u32 (4 + 2 * qsz).
Definition virtq_used_size (qsz : Z) : Z := u32 (4 + 8 * qsz).
Definition virtq_pad (qsz : Z) : Z :=
  let szbefore := u32 (virtq_desc_size qsz + virtq_avail_size qsz) in
  u32 (ALIGN szbefore VIRTIO_DEFAULT_ALIGN - szbefore).
Definition virtq_size (qsz : Z) : Z :=
  u32 (ALIGN (u32 (virtq_desc_size qsz + virtq_avail_size qsz)) VIRTIO_DEFAULT_ALIGN
       + ALIGN (virtq_used_size qsz) VIRTIO_DEFAULT_ALIGN).

(** ** The queue ([virtio.c]) *)

Definition set_seen v q := Virtq (pfn q) v (free_desc q) (v_desc q) (v_avail q) (v_used q)
  (desc q) (avail_idx q) (avail_ring q) (used_idx q) (used_ring q) (desc_virt q) (queue_num q)
  (queue_size q).
Definition set_free v q := Virtq (pfn q) (seen_used q) v (v_desc q) (v_avail q) (v_used q)
  (desc q) (avail_idx q) (avail_ring q) (used_idx q) (used_ring q) (desc_virt q) (queue_num q)
  (queue_size q).
Definition set_desc v q := Virtq (pfn q) (seen_used q) (free_desc q) (v_desc q) (v_avail q)
  (v_used q) v (avail_idx q) (avail_ring q) (used_idx q) (used_ring q) (desc_virt q)
  (queue_num q) (queue_size q).
Definition set_avail i r q := Virtq (pfn q) (seen_used q) (free_desc q) (v_desc q) (v_avail q)
  (v_used q) (desc q) i r (used_idx q) (used_ring q) (desc_virt q) (queue_num q) (queue_size q).
Definition set_used i r q := Virtq (pfn q) (seen_used q) (free_desc q) (v_desc q) (v_avail q)
  (v_used q) (desc q) (avail_idx q) (avail_ring q) i r (desc_virt q) (queue_num q)
  (queue_size q).
Definition set_virt v q := Virtq (pfn q) (seen_used q) (free_desc q) (v_desc q) (v_avail q)
  (v_used q) (desc q) (avail_idx q) (avail_ring q) (used_idx q) (used_ring q) v (queue_num q)
  (queue_size q).
Definition set_pfn v q := Virtq v (seen_used q) (free_desc q) (v_desc q) (v_avail q) (v_used q)
  (desc q) (avail_idx q) (avail_ring q) (used_idx q) (used_ring q) (desc_virt q) (queue_num q)
  (queue_size q).

Definition set_d_addr v d := Desc v (d_len d) (d_flags d) (d_next d).
Definition set_d_len v d := Desc (d_addr d) v (d_flags d) (d_next d).
Definition set_d_flags v d := Desc (d_addr d) (d_len d) v (d_next d).
Definition set_d_next v d := Desc (d_addr d) (d_len d) (d_flags d) v.

(** A descriptor behind the end of the table is not memory of the queue. *)
Definition get_desc (d : Z) : M virtq_info virtqueue_desc := mtry (λ q, znth (desc q) d).
Definition upd_desc (d : Z) (f : virtqueue_desc → virtqueue_desc) : M virtq_info unit :=
  x ← get_desc d;
  l ← mtry (λ q, zset (desc q) d (f x));
  modify (set_desc l).
Definition store_virt (d a : Z) : M virtq_info unit :=
  l ← mtry (λ q, zset (desc_virt q) d a); modify (set_virt l).

(** The descriptors after the loop of [virtq_create]. *)
Definition chained (n : Z) : list virtqueue_desc :=
  (λ i, Desc 0 0 0 (u16 (i + 1))) <$> seqZ 0 n.

(** [base] is the block [kalloc] found, and [kcalloc] answers [virt] for [desc_virt]. *)
Definition virtq_create (base : Z) : M virtq_info unit :=
  qsz ← gets queue_size;
  massert (negb (qsz =? 0));;
  massert (Z.land base (VIRTIO_DEFAULT_ALIGN - 1) =? 0);;
  massert (ctrue base);;
  let avail := u64 (base + virtq_desc_size qsz) in
  let used := Z.land (u64 (avail + virtq_avail_size qsz + (VIRTIO_DEFAULT_ALIGN - 1)))
                     (Z.lnot (VIRTIO_DEFAULT_ALIGN - 1)) in
  massert (u64 (avail + virtq_avail_size qsz + virtq_pad qsz) =? used);;
  modify (λ q, Virtq (pfn q) (seen_used q) (free_desc q) base avail used (chained qsz)
    0 (replicate (Z.to_nat qsz) 0) 0 (replicate (Z.to_nat qsz) (0, 0))
    (replicate (Z.to_nat qsz) 0) (queue_num q) qsz).

(** Running out of descriptors is only logged.  [virt_to_phys] is the identity on RISC-V. *)
Definition virtq_alloc_desc (addr : Z) : M virtq_info Z :=
  d ← gets free_desc;
  x ← get_desc d;
  modify (set_free (d_next x));;
  upd_desc d (set_d_addr addr);;
  store_virt d addr;;
  mret d.

Definition virtq_free_desc (d : Z) : M virtq_info unit :=
  mtry (λ q, znth (desc_virt q) d);;
  f ← gets free_desc;
  upd_desc d (set_d_next (u16 f));;
  modify (set_free d);;
  store_virt d 0.

(** [virtq_add_to_device]: the registers [QueuePFN] and [QueueNumMax] of the device, a fresh
    block and the answer: [None] is NULL. *)
Definition virtq_add_to_device (queue_pfn max_queue_size queue_sel qsz base : Z) :
  outcome (option virtq_info) :=
  if ctrue queue_pfn then Ret None
  else if max_queue_size =? 0 then Ret None
  else if max_queue_size <? qsz then Panic
  else
    match virtq_create base (Virtq 0 0 0 0 0 0 [] 0 [] 0 [] [] queue_sel qsz) with
    | Ret (_, q) => Ret (Some (set_pfn (Z.shiftr (v_desc q) PGSHIFT) q))
    | Panic => Panic
    | Fault => Fault
    | Spin => Spin
    end.

(** ** The disk *)

(** [struct virtio_blk_req]: the header the device reads, the status it writes (at offset 16)
    and the request of the block layer (at offset 24). *)
Record virtio_blk_req := Vreq {
  vtype : Z;
  vsector : Z;
  vstatus : Z;
  descriptor : Z;
  vblkreq : blkreq
}.
Definition BLKREQ_OFFSET : Z := 24.
Definition get_vblkreq (req : Z) : Z := req - BLKREQ_OFFSET.

Definition set_vstatus v x := Vreq (vtype x) (vsector x) v (descriptor x) (vblkreq x).
Definition set_descriptor v x := Vreq (vtype x) (vsector x) (vstatus x) v (vblkreq x).
Definition set_header t sec x := Vreq t sec (vstatus x) (descriptor x) (vblkreq x).
Definition set_vblkreq v x := Vreq (vtype x) (vsector x) (vstatus x) (descriptor x) v.

(** What the device may do between two steps of the CPU: look at the next entry of the
    available ring; finish the request at a head it has taken, with success or not; raise its
    interrupt. *)
Inductive dev_event :=
  | DTake
  | DComplete (h : Z) (good : bool)
  | DIrq.
#[export] Instance dev_event_eq_dec : EqDecision dev_event.
Proof. solve_decision. Defined.

(** The device: its medium, the next available entry it will look at and the heads it has
    taken and not finished. *)
Record device := Device {
  medium : list Z;
  dev_idx : Z;
  dev_taken : list Z
}.

(** The driver ([virtio_blk], with the [blkdev] in it) and its surroundings: [vfresh] is what
    [kalloc] answers, an address and the former contents of the block; [vwoken] the channels
    woken, latest first; [notified] the writes to [QueueNotify].  [events] is what happens
    while a process sleeps, and [bus] what the device does before the reads of [used->idx]. *)
Record vdisk := Vdisk {
  vlocks : lockenv;
  vmem : bytes;
  vfresh : list (Z * virtio_blk_req);
  vrqs : list Z;
  vreqs : gmap Z virtio_blk_req;
  vq : virtq_info;
  vwoken : list Z;
  notified : list Z;
  dev : device;
  events : list dev_event;
  bus : list (list dev_event)
}.

Definition set_vlocks x s := Vdisk x (vmem s) (vfresh s) (vrqs s) (vreqs s) (vq s) (vwoken s)
  (notified s) (dev s) (events s) (bus s).
Definition set_vmem x s := Vdisk (vlocks s) x (vfresh s) (vrqs s) (vreqs s) (vq s) (vwoken s)
  (notified s) (dev s) (events s) (bus s).
Definition set_vfresh x s := Vdisk (vlocks s) (vmem s) x (vrqs s) (vreqs s) (vq s) (vwoken s)
  (notified s) (dev s) (events s) (bus s).
Definition set_vrqs x s := Vdisk (vlocks s) (vmem s) (vfresh s) x (vreqs s) (vq s) (vwoken s)
  (notified s) (dev s) (events s) (bus s).
Definition set_vreqs x s := Vdisk (vlocks s) (vmem s) (vfresh s) (vrqs s) x (vq s) (vwoken s)
  (notified s) (dev s) (events s) (bus s).
Definition set_vq x s := Vdisk (vlocks s) (vmem s) (vfresh s) (vrqs s) (vreqs s) x (vwoken s)
  (notified s) (dev s) (events s) (bus s).
Definition set_vwoken x s := Vdisk (vlocks s) (vmem s) (vfresh s) (vrqs s) (vreqs s) (vq s) x
  (notified s) (dev s) (events s) (bus s).
Definition set_notified x s := Vdisk (vlocks s) (vmem s) (vfresh s) (vrqs s) (vreqs s) (vq s)
  (vwoken s) x (dev s) (events s) (bus s).
Definition set_dev x s := Vdisk (vlocks s) (vmem s) (vfresh s) (vrqs s) (vreqs s) (vq s)
  (vwoken s) (notified s) x (events s) (bus s).
Definition set_events x s := Vdisk (vlocks s) (vmem s) (vfresh s) (vrqs s) (vreqs s) (vq s)
  (vwoken s) (notified s) (dev s) x (bus s).
Definition set_bus x s := Vdisk (vlocks s) (vmem s) (vfresh s) (vrqs s) (vreqs s) (vq s)
  (vwoken s) (notified s) (dev s) (events s) x.

Definition on_q {A} (m : M virtq_info A) : M vdisk A := zoom (Lens vq set_vq) m.

(** *** The device *)

Definition dev_take (s : vdisk) : vdisk :=
  let q := vq s in let d := dev s in
  if dev_idx d =? avail_idx q then s
  else
    match znth (avail_ring q) (dev_idx d mod queue_size q) with
    | Some h => set_dev (Device (medium d) (u16 (dev_idx d + 1)) (dev_taken d ++ [h])) s
    | None => s
    end.

(** The bytes of memory from [a]. *)
Fixpoint load_bytes (n : nat) (a : Z) (m : bytes) : option (list Z) :=
  match n with
  | O => Some []
  | S n => x ← m !! a; l ← load_bytes n (a + 1) m; Some (x :: l)
  end.
Fixpoint store_bytes (a : Z) (l : list Z) (m : bytes) : bytes :=
  match l with [] => m | x :: l => store_bytes (a + 1) l (<[a := x]> m) end.

(** Moving the data of a request; [None] is an error of the device. *)
Definition transfer (ty sector buf len : Z) (med : list Z) (m : bytes) :
  option (list Z * bytes) :=
  if ty =? VIRTIO_BLK_T_IN then
    l ← zslice med (sector * VIRTIO_BLK_SECTOR_SIZE) len; Some (med, store_bytes buf l m)
  else
    l ← load_bytes (Z.to_nat len) buf m;
    med' ← zsplice med (sector * VIRTIO_BLK_SECTOR_SIZE) l; Some (med', m).

(** The chain of three descriptors at [h]: header, data, status. *)
Definition chain_of (q : virtq_info) (h : Z) :
  option (virtqueue_desc * virtqueue_desc * virtqueue_desc) :=
  d1 ← znth (desc q) h; d2 ← znth (desc q) (d_next d1); d3 ← znth (desc q) (d_next d2);
  Some (d1, d2, d3).

(** The device finishes the request at [h]: it reads the header where the first descriptor
    says, moves the data, writes the status where the third says and pushes [h] on the used
    ring. *)
Definition dev_complete (h : Z) (good : bool) (s : vdisk) : vdisk :=
  let q := vq s in let d := dev s in
  if negb (bool_decide (h ∈ dev_taken d)) then s
  else
    match
      '(d1, d2, d3) ← chain_of q h;
      hdr ← vreqs s !! d_addr d1;
      st ← vreqs s !! (d_addr d3 - VIRTIO_BLK_REQ_HEADER_SIZE);
      ring ← zset (used_ring q) (used_idx q mod queue_size q) (h, d_len d2);
      let moved := if good
                   then transfer (vtype hdr) (vsector hdr) (d_addr d2) (d_len d2) (medium d) (vmem s)
                   else None in
      let '(med, m) := default (medium d, vmem s) moved in
      let result := match moved with Some _ => VIRTIO_BLK_S_OK | None => VIRTIO_BLK_S_IOERR end in
      Some (set_dev (Device med (dev_idx d) (filter (λ x, x ≠ h) (dev_taken d)))
             (set_vq (set_used (u16 (used_idx q + 1)) ring q)
             (set_vreqs (<[d_addr d3 - VIRTIO_BLK_REQ_HEADER_SIZE := set_vstatus result st]> (vreqs s))
             (set_vmem m s))))
    with Some s' => s' | None => s end.

Definition dev_step (e : dev_event) (s : vdisk) : vdisk :=
  match e with DTake => dev_take s | DComplete h good => dev_complete h good s | DIrq => s end.

(** A read of [used->idx], before which the device may move. *)
Definition read_used_idx : M vdisk Z := λ s,
  match bus s with
  | [] => Ret (used_idx (vq s), s)
  | l :: b => let s := foldl (λ s e, dev_step e s) (set_bus b s) l in Ret (used_idx (vq s), s)
  end.

(** *** The driver ([virtio-blk.c]) *)

Definition upd_vreq (a : Z) (f : virtio_blk_req → virtio_blk_req) : M vdisk unit :=
  x ← mtry (λ s, vreqs s !! a);
  modify (λ s, set_vreqs (<[a := f x]> (vreqs s)) s).

Definition virtio_blk_send (hdr : Z) : M vdisk unit :=
  x ← mtry (λ s, vreqs s !! hdr);
  q ← gets vq;
  ring ← mtry (λ _, zset (avail_ring q) (avail_idx q mod queue_size q) (u16 (descriptor x)));
  on_q (modify (set_avail (avail_idx q) ring));;
  on_q (modify (set_avail (u16 (avail_idx q + 1)) ring));;
  modify (λ s, set_notified (queue_num q :: notified s) s).

Definition virtio_blk_submit (req : Z) : M vdisk unit :=
  let hdr := get_vblkreq req in
  x ← mtry (λ s, vreqs s !! hdr);
  let r := vblkreq x in
  if ctrue (Z.land (rq_size r) (VIRTIO_BLK_SECTOR_SIZE - 1)) then mret tt
  else
    let read := rq_type r =? BLKREQ_TYPE_READ in
    let datamode := if read then VIRTQ_DESC_F_WRITE else 0 in
    upd_vreq hdr (set_header (if read then VIRTIO_BLK_T_IN else VIRTIO_BLK_T_OUT) (sector_sta r));;
    d1 ← on_q (virtq_alloc_desc hdr);
    upd_vreq hdr (set_descriptor d1);;
    on_q (upd_desc d1 (set_d_len VIRTIO_BLK_REQ_HEADER_SIZE));;
    on_q (upd_desc d1 (set_d_flags VIRTQ_DESC_F_NEXT));;
    d2 ← on_q (virtq_alloc_desc (rq_buffer r));
    on_q (upd_desc d2 (set_d_len (u32 (rq_size r))));;
    on_q (upd_desc d2 (set_d_flags (Z.lor datamode VIRTQ_DESC_F_NEXT)));;
    d3 ← on_q (virtq_alloc_desc (hdr + VIRTIO_BLK_REQ_HEADER_SIZE));
    on_q (upd_desc d3 (set_d_len VIRTIO_BLK_REQ_FOOTER_SIZE));;
    on_q (upd_desc d3 (set_d_flags VIRTQ_DESC_F_WRITE));;
    on_q (upd_desc d1 (set_d_next (u16 d2)));;
    on_q (upd_desc d2 (set_d_next (u16 d3)));;
    on_q (upd_desc d3 (set_d_next 0));;
    virtio_blk_send hdr.

(** [wakeup] notes the channel. *)
#[global] Program Instance vdisk_locks : HasLocks vdisk := {|
  lock_lens := Lens vlocks set_vlocks
|}.
Next Obligation. split; intros; by destruct s. Qed.

#[global] Program Instance vdisk_mem : HasMem vdisk := {|
  mem_lens := Lens vmem set_vmem
|}.
Next Obligation. split; intros; by destruct s. Qed.

#[global] Instance vdisk_state : BlkState vdisk := {|
  rq_list := Lens vrqs set_vrqs;
  rq_list_lock := 0;
  get_req s r := vblkreq <$> vreqs s !! get_vblkreq r;
  put_req r b s := set_vreqs (alter (set_vblkreq b) (get_vblkreq r) (vreqs s)) s;
  req_wakeup r := modify (λ s, set_vwoken (r :: vwoken s) s);
  call_endio _ _ := mret tt
|}.

(** [struct virtio_blk_req] from [kalloc]; without memory the request is NULL plus an offset,
    which [blkreq_init] does not take for NULL. *)
Definition virtio_blk_alloc (bdev : Z) : M vdisk Z :=
  f ← gets vfresh;
  match f with
  | [] => mfault
  | (a, junk) :: f =>
      modify (set_vfresh f);;
      mwhen (ctrue a) (modify (λ s, set_vreqs (<[a := junk]> (vreqs s)) s));;
      blkreq_init (a + BLKREQ_OFFSET) bdev;;
      mret (a + BLKREQ_OFFSET)
  end.

Definition virtio_blk_free (req : Z) : M vdisk unit :=
  mtry (λ s, vreqs s !! get_vblkreq req);;
  modify (λ s, set_vreqs (delete (get_vblkreq req) (vreqs s)) s).

Definition virtio_blk_handle_used (usedidx : Z) : M vdisk unit :=
  e ← mtry (λ s, znth (used_ring (vq s)) usedidx);
  let desc1 := e.1 in
  x1 ← on_q (get_desc desc1);
  if negb (ctrue (Z.land (d_flags x1) VIRTQ_DESC_F_NEXT)) then mret tt
  else
    let desc2 := d_next x1 in
    x2 ← on_q (get_desc desc2);
    if negb (ctrue (Z.land (d_flags x2) VIRTQ_DESC_F_NEXT)) then mret tt
    else
      let desc3 := d_next x2 in
      x3 ← on_q (get_desc desc3);
      if negb (d_len x1 =? VIRTIO_BLK_REQ_HEADER_SIZE) || negb (d_len x3 =? VIRTIO_BLK_REQ_FOOTER_SIZE)
      then mret tt
      else
        req ← mtry (λ s, znth (desc_virt (vq s)) desc1);
        on_q (virtq_free_desc desc1);;
        on_q (virtq_free_desc desc2);;
        on_q (virtq_free_desc desc3);;
        x ← mtry (λ s, vreqs s !! req);
        (if vstatus x =? VIRTIO_BLK_S_OK then upd_req (req + BLKREQ_OFFSET) (set_status BLKREQ_STATUS_OK)
         else if vstatus x =? VIRTIO_BLK_S_IOERR
              then upd_req (req + BLKREQ_OFFSET) (set_status BLKREQ_STATUS_ERR)
              else mpanic);;
        blkdev_general_endio (req + BLKREQ_OFFSET).

(** The loop of the service routine, whose test reads [used->idx] anew each time. *)
Fixpoint isr_loop (fuel : nat) (i : Z) : M vdisk unit :=
  match fuel with
  | O => mspin
  | S fuel =>
      idx ← read_used_idx;
      n ← gets (λ s, queue_size (vq s));
      if i =? idx mod n then mret tt
      else virtio_blk_handle_used i;; isr_loop fuel (wrap (i + 1) n)
  end.

Definition virtio_blk_isr : M vdisk Z :=
  q ← gets vq;
  isr_loop (S (Z.to_nat (queue_size q))) (seen_used q);;
  idx ← read_used_idx;
  on_q (modify (set_seen (idx mod queue_size q)));;
  mret IRQ_HANDLED.

(** Sleeping on [r]: the device moves and interrupts until [r] is woken. *)
Fixpoint sleep_loop (l : list dev_event) (r : Z) : M vdisk unit :=
  match l with
  | [] => mspin
  | e :: l =>
      modify (set_events l);;
      (match e with DIrq => virtio_blk_isr;; mret tt | _ => modify (dev_step e) end);;
      w ← gets vwoken;
      if bool_decide (r ∈ w) then mret tt else sleep_loop l r
  end.
Definition virtio_sleep (r : Z) : M vdisk unit :=
  modify (set_vwoken []);;
  l ← gets events; sleep_loop l r.

Definition virtio_blk_ops (bdev : Z) : blkdev_ops vdisk :=
  BlkOps (virtio_blk_alloc bdev) virtio_blk_free virtio_blk_submit (Some virtio_blk_isr).

(** The disk of [size] bytes behind the [blkdev] at [bdev]. *)
Definition virtio_blkdev (bdev size : Z) : BlkDriver vdisk := {|
  dev_ops := virtio_blk_ops bdev;
  req_sleep := virtio_sleep;
  sector_size := VIRTIO_BLK_SECTOR_SIZE;
  dev_size := size
|}.

(** ** The invariant of the queue

    Every descriptor is on the free list or in exactly one chain of three, and a chain belongs
    to one request: offered on the available ring and not taken yet ([wait]), taken by the
    device ([tak]), or on the used ring and not reaped yet ([fin]). *)

Record chain := Chain { c_hdr : Z; c_1 : Z; c_2 : Z; c_3 : Z }.
#[export] Instance chain_eq_dec : EqDecision chain.
Proof. solve_decision. Defined.
Definition ids (c : chain) : list Z := [c_1 c; c_2 c; c_3 c].
Definition all_ids (l : list chain) : list Z := l ≫= ids.

(** The free list: linked through [next], and ended by the size of the queue. *)
Fixpoint free_path (q : virtq_info) (d : Z) (free : list Z) : Prop :=
  match free with
  | [] => d = VIRTIO_DEFAULT_QUEUE_SIZE
  | e :: free => d = e ∧ ∃ x, znth (desc q) e = Some x ∧ free_path q (d_next x) free
  end.

(** The descriptors of [c] describe the request [x] at [c_hdr c]. *)
Definition describes (q : virtq_info) (c : chain) (x : virtio_blk_req) : Prop :=
  let r := vblkreq x in
  let read := rq_type r =? BLKREQ_TYPE_READ in
  znth (desc q) (c_1 c) =
    Some (Desc (c_hdr c) VIRTIO_BLK_REQ_HEADER_SIZE VIRTQ_DESC_F_NEXT (c_2 c)) ∧
  znth (desc q) (c_2 c) =
    Some (Desc (rq_buffer r) (u32 (rq_size r))
               (Z.lor (if read then VIRTQ_DESC_F_WRITE else 0) VIRTQ_DESC_F_NEXT) (c_3 c)) ∧
  znth (desc q) (c_3 c) =
    Some (Desc (c_hdr c + VIRTIO_BLK_REQ_HEADER_SIZE) VIRTIO_BLK_REQ_FOOTER_SIZE
               VIRTQ_DESC_F_WRITE 0) ∧
  znth (desc_virt q) (c_1 c) = Some (c_hdr c) ∧
  vtype x = (if read then VIRTIO_BLK_T_IN else VIRTIO_BLK_T_OUT) ∧
  vsector x = sector_sta r.

Definition in_flight (s : vdisk) (c : chain) : Prop :=
  0 < c_hdr c ∧
  ∃ x, vreqs s !! c_hdr c = Some x ∧ describes (vq s) c x ∧
       rq_status (vblkreq x) = BLKREQ_STATUS_INIT.
(** The device has left its verdict. *)
Definition answered (s : vdisk) (c : chain) : Prop :=
  ∃ x, vreqs s !! c_hdr c = Some x ∧
       (vstatus x = VIRTIO_BLK_S_OK ∨ vstatus x = VIRTIO_BLK_S_IOERR).

Record sizes_ok (q : virtq_info) : Prop := {
  so_size : queue_size q = VIRTIO_DEFAULT_QUEUE_SIZE;
  so_desc : zlen (desc q) = VIRTIO_DEFAULT_QUEUE_SIZE;
  so_virt : zlen (desc_virt q) = VIRTIO_DEFAULT_QUEUE_SIZE;
  so_avail : zlen (avail_ring q) = VIRTIO_DEFAULT_QUEUE_SIZE;
  so_used : zlen (used_ring q) = VIRTIO_DEFAULT_QUEUE_SIZE;
  so_aidx : 0 ≤ avail_idx q < 2 ^ 16;
  so_uidx : 0 ≤ used_idx q < 2 ^ 16
}.

(** The entries of a ring from [i] on, wrapping round. *)
Definition ring_holds {A} (ring : list A) (i : Z) (P : A → chain → Prop) (l : list chain) : Prop :=
  ∀ k c, l !! k = Some c →
    ∃ e, znth ring ((i + Z.of_nat k) mod VIRTIO_DEFAULT_QUEUE_SIZE) = Some e ∧ P e c.

(** [i] is the used entry that will be reaped next. *)
Record qinv (i : Z) (s : vdisk) (free : list Z) (wait tak fin : list chain) : Prop := {
  qi_sizes : sizes_ok (vq s);
  qi_free : free_path (vq s) (free_desc (vq s)) free;
  qi_split : free ++ all_ids (wait ++ tak ++ fin) ≡ₚ seqZ 0 VIRTIO_DEFAULT_QUEUE_SIZE;
  qi_hdrs : NoDup (c_hdr <$> wait ++ tak ++ fin);
  qi_chains : Forall (in_flight s) (wait ++ tak ++ fin);
  qi_idx : 0 ≤ dev_idx (dev s) < 2 ^ 16;
  qi_wait : avail_idx (vq s) = u16 (dev_idx (dev s) + zlen wait);
  qi_avail : ring_holds (avail_ring (vq s)) (dev_idx (dev s)) (λ e c, e = c_1 c) wait;
  qi_tak : dev_taken (dev s) = c_1 <$> tak;
  qi_i : 0 ≤ i < VIRTIO_DEFAULT_QUEUE_SIZE;
  qi_fin : used_idx (vq s) mod VIRTIO_DEFAULT_QUEUE_SIZE =
           (i + zlen fin) mod VIRTIO_DEFAULT_QUEUE_SIZE;
  qi_used : ring_holds (used_ring (vq s)) i (λ e c, e.1 = c_1 c) fin;
  qi_done : Forall (answered s) fin
}.

Definition disk_inv (s : vdisk) : list Z → list chain → list chain → list chain → Prop :=
  qinv (seen_used (vq s)) s.

(** ** Lemmas on the queue *)

Lemma znth_alter {A} (f : A → A) (l : list A) (i j : Z) :
  0 ≤ i → znth (alter f (Z.to_nat i) l) j = if j =? i then f <$> znth l j else znth l j.
Proof.
  intros Hi. unfold znth. destruct (Z.eqb_spec j i) as [->|].
  - rewrite !decide_True by done. apply list_lookup_alter_eq.
  - case_decide; [|done]. apply list_lookup_alter_ne. lia.
Qed.

Lemma znth_insert {A} (l : list A) (i j : Z) x :
  0 ≤ i < zlen l → znth (<[Z.to_nat i := x]> l) j = if j =? i then Some x else znth l j.
Proof.
  intros Hi. unfold znth, zlen in *. destruct (Z.eqb_spec j i) as [->|].
  - rewrite decide_True by lia. apply list_lookup_insert_eq. lia.
  - case_decide; [|done]. apply list_lookup_insert_ne. lia.
Qed.

Lemma zlen_alter {A} (f : A → A) i (l : list A) : zlen (alter f i l) = zlen l.
Proof. unfold zlen. by rewrite length_alter. Qed.
Lemma zlen_insert {A} i (x : A) l : zlen (<[i := x]> l) = zlen l.
Proof. unfold zlen. by rewrite length_insert. Qed.

Lemma alter_to_insert {A} (f : A → A) (l : list A) i x :
  l !! i = Some x → <[i := f x]> l = alter f i l.
Proof.
  intros H. apply list_eq. intros j. destruct (decide (j = i)) as [->|].
  - rewrite list_lookup_alter_eq, list_lookup_insert_eq by (by eapply lookup_lt_Some). by rewrite H.
  - by rewrite list_lookup_alter_ne, list_lookup_insert_ne by done.
Qed.

Lemma get_desc_run d q x : znth (desc q) d = Some x → get_desc d q = Ret (x, q).
Proof. intros H. unfold get_desc. munfold. by rewrite H. Qed.

Lemma upd_desc_run d f q :
  0 ≤ d < zlen (desc q) →
  upd_desc d f q = Ret (tt, set_desc (alter f (Z.to_nat d) (desc q)) q).
Proof.
  intros Hd. destruct (znth_lt (desc q) d Hd) as [x Hx]. unfold upd_desc.
  mstep (get_desc_run d q x Hx). munfold. unfold zset. rewrite decide_True by done.
  apply znth_Some in Hx as [_ Hx]. by rewrite (alter_to_insert f _ _ x).
Qed.

Lemma store_virt_run d a q :
  0 ≤ d < zlen (desc_virt q) →
  store_virt d a q = Ret (tt, set_virt (<[Z.to_nat d := a]> (desc_virt q)) q).
Proof. intros Hd. unfold store_virt. munfold. unfold zset. by rewrite decide_True. Qed.

(** The queue after [virtq_alloc_desc] and [virtq_free_desc]. *)
Definition alloced (addr d next : Z) (q : virtq_info) : virtq_info :=
  set_virt (<[Z.to_nat d := addr]> (desc_virt q))
    (set_desc (alter (set_d_addr addr) (Z.to_nat d) (desc q)) (set_free next q)).
Definition freed (d : Z) (q : virtq_info) : virtq_info :=
  set_virt (<[Z.to_nat d := 0]> (desc_virt q))
    (set_free d (set_desc (alter (set_d_next (u16 (free_desc q))) (Z.to_nat d) (desc q)) q)).

Lemma virtq_alloc_desc_run addr q x :
  zlen (desc_virt q) = zlen (desc q) → znth (desc q) (free_desc q) = Some x →
  virtq_alloc_desc addr q = Ret (free_desc q, alloced addr (free_desc q) (d_next x) q).
Proof.
  intros Hl Hx. assert (Hd : 0 ≤ free_desc q < zlen (desc q)).
  { apply znth_Some in Hx as [? Hx]. apply lookup_lt_Some in Hx. unfold zlen. lia. }
  unfold virtq_alloc_desc, gets. munfold. rewrite (get_desc_run _ q x Hx).
  rewrite upd_desc_run by done. rewrite store_virt_run by (cbn; lia). done.
Qed.

Lemma virtq_free_desc_run d q :
  0 ≤ d < zlen (desc q) → zlen (desc_virt q) = zlen (desc q) →
  virtq_free_desc d q = Ret (tt, freed d q).
Proof.
  intros Hd Hl. destruct (znth_lt (desc_virt q) d) as [y Hy]; [lia|].
  unfold virtq_free_desc. munfold. rewrite Hy. rewrite upd_desc_run by done.
  rewrite store_virt_run by (cbn; lia). done.
Qed.

Lemma on_q_run {A} (m : M virtq_info A) s a q' :
  m (vq s) = Ret (a, q') → on_q m s = Ret (a, set_vq q' s).
Proof. intros H. unfold on_q, zoom. cbn. by rewrite H. Qed.

Lemma free_path_ext q q' free : ∀ d,
  (∀ e x, e ∈ free → znth (desc q) e = Some x →
          ∃ x', znth (desc q') e = Some x' ∧ d_next x' = d_next x) →
  free_path q d free → free_path q' d free.
Proof.
  induction free as [|e free IH]; intros d He; cbn; [done|].
  intros (-> & x & Hx & Hp). split; [done|].
  destruct (He e x) as (x' & Hx' & En); [left|done|]. exists x'. split; [done|].
  rewrite En. apply IH; [|done]. intros e' y ??. apply He; [by right|done].
Qed.

Lemma free_path_range q free : ∀ d, free_path q d free → zlen (desc q) = 256 → 0 ≤ d ≤ 256.
Proof.
  destruct free as [|e free]; intros d; cbn; [intros ->; unfold VIRTIO_DEFAULT_QUEUE_SIZE; lia|].
  intros (-> & x & Hx & _) Hl. apply znth_Some in Hx as [? Hx]. apply lookup_lt_Some in Hx.
  unfold zlen in Hl. lia.
Qed.

Lemma elem_of_all_ids l d : d ∈ all_ids l ↔ ∃ c, c ∈ l ∧ d ∈ ids c.
Proof. unfold all_ids. rewrite list_elem_of_bind. naive_solver. Qed.

Lemma all_ids_app l k : all_ids (l ++ k) = all_ids l ++ all_ids k.
Proof. unfold all_ids. by rewrite bind_app. Qed.

#[global] Instance all_ids_Permutation : Proper ((≡ₚ) ==> (≡ₚ)) all_ids.
Proof. intros l k H. unfold all_ids. by rewrite H. Qed.

(** The descriptors of the queue are all different and in range. *)
Lemma split_NoDup free l : free ++ all_ids l ≡ₚ seqZ 0 VIRTIO_DEFAULT_QUEUE_SIZE →
  NoDup (free ++ all_ids l).
Proof. intros ->. apply NoDup_seqZ. Qed.
Lemma split_range free l d : free ++ all_ids l ≡ₚ seqZ 0 VIRTIO_DEFAULT_QUEUE_SIZE →
  d ∈ free ++ all_ids l → 0 ≤ d < 256.
Proof. intros -> H. apply elem_of_seqZ in H. unfold VIRTIO_DEFAULT_QUEUE_SIZE in H. lia. Qed.

Lemma chains_bound free l :
  free ++ all_ids l ≡ₚ seqZ 0 VIRTIO_DEFAULT_QUEUE_SIZE → zlen free + 3 * zlen l = 256.
Proof.
  intros H. apply Permutation_length in H. rewrite length_app, length_seqZ in H.
  assert (E : length (all_ids l) = (3 * length l)%nat).
  { clear. unfold all_ids. induction l as [|c l IH]; [done|]. cbn in *. lia. }
  rewrite E in H. unfold zlen, VIRTIO_DEFAULT_QUEUE_SIZE in *. lia.
Qed.

(** Two chains of the queue share no descriptor. *)
Lemma ids_disjoint free l c c' d :
  free ++ all_ids l ≡ₚ seqZ 0 VIRTIO_DEFAULT_QUEUE_SIZE → NoDup (c_hdr <$> l) →
  c ∈ l → c' ∈ l → d ∈ ids c → d ∈ ids c' → c = c'.
Proof.
  intros Hs Hh Hc Hc' Hd Hd'. apply split_NoDup, NoDup_app in Hs as (_ & _ & Hn).
  apply list_elem_of_lookup in Hc as [i Hi]. apply list_elem_of_split_length in Hi as (l1 & l2 & -> & _).
  rewrite !all_ids_app in Hn. cbn [all_ids mbind list_bind] in Hn. apply NoDup_app in Hn as (_ & H1 & Hn).
  change (all_ids (c :: l2)) with (ids c ++ all_ids l2) in *. apply NoDup_app in Hn as (_ & H2 & _).
  apply elem_of_app in Hc' as [Hc'|Hc'].
  - exfalso. apply (H1 d); [apply elem_of_all_ids; eauto|]. apply elem_of_app. by left.
  - apply elem_of_cons in Hc' as [->|Hc']; [done|].
    exfalso. apply (H2 d); [done|]. apply elem_of_all_ids. eauto.
Qed.

Lemma describes_ext q q' c x :
  describes q c x →
  (∀ d, d ∈ ids c → znth (desc q') d = znth (desc q) d) →
  znth (desc_virt q') (c_1 c) = znth (desc_virt q) (c_1 c) → describes q' c x.
Proof.
  intros (H1 & H2 & H3 & H4 & H5) Hd Hv. unfold describes.
  rewrite !Hd, Hv by (unfold ids; set_solver). done.
Qed.

(** Reaping a chain puts its descriptors back in the order first to third. *)
Definition reaped (c : chain) (q : virtq_info) : virtq_info :=
  freed (c_3 c) (freed (c_2 c) (freed (c_1 c) q)).

Lemma freed_other d q j : 0 ≤ d → j ≠ d →
  znth (desc (freed d q)) j = znth (desc q) j.
Proof. intros Hd Hj. cbn. rewrite znth_alter by done. by rewrite (proj2 (Z.eqb_neq j d)). Qed.
Lemma freed_virt_other d q j : 0 ≤ d < zlen (desc_virt q) → j ≠ d →
  znth (desc_virt (freed d q)) j = znth (desc_virt q) j.
Proof. intros Hd Hj. cbn. rewrite znth_insert by done. by rewrite (proj2 (Z.eqb_neq j d)). Qed.

Lemma freed_path d q free :
  zlen (desc q) = 256 → 0 ≤ d < 256 → d ∉ free → free_path q (free_desc q) free →
  free_path (freed d q) (free_desc (freed d q)) (d :: free).
Proof.
  intros Hl Hd Hn Hp. pose proof (free_path_range _ _ _ Hp Hl) as Hr.
  destruct (znth_lt (desc q) d) as [x Hx]; [lia|]. split; [done|].
  exists (set_d_next (u16 (free_desc q)) x). split.
  - cbn. rewrite znth_alter by lia. rewrite Z.eqb_refl, Hx. done.
  - cbn [set_d_next d_next]. rewrite u16_small by lia. eapply free_path_ext; [|exact Hp].
    intros e y He Hy. exists y. split; [|done]. rewrite freed_other; [done|lia|]. intros ->. done.
Qed.

Lemma freed_sizes d q : sizes_ok q → sizes_ok (freed d q).
Proof.
  intros []. split; cbn; rewrite ?zlen_alter, ?zlen_insert; done.
Qed.

(** ** Reaping *)

(** What the service routine makes of a request the device has answered. *)
Definition verdict (x : virtio_blk_req) : virtio_blk_req :=
  set_vblkreq (set_status (if vstatus x =? VIRTIO_BLK_S_OK then BLKREQ_STATUS_OK
                           else BLKREQ_STATUS_ERR) (vblkreq x)) x.
Definition handled (c : chain) (s : vdisk) : vdisk :=
  set_vwoken (c_hdr c + BLKREQ_OFFSET :: vwoken s)
    (set_vreqs (alter verdict (c_hdr c) (vreqs s)) (set_vq (reaped c (vq s)) s)).

Lemma get_vblkreq_add a : get_vblkreq (a + BLKREQ_OFFSET) = a.
Proof. unfold get_vblkreq. lia. Qed.

Lemma upd_req_run a x f s :
  vreqs s !! a = Some x →
  upd_req (a + BLKREQ_OFFSET) f s =
    Ret (tt, set_vreqs (<[a := set_vblkreq (f (vblkreq x)) x]> (vreqs s)) s).
Proof.
  intros Hx. unfold upd_req, load_req. munfold. cbn. rewrite get_vblkreq_add, Hx. cbn.
  do 2 f_equal. f_equal. apply map_eq. intros k. destruct (decide (k = a)) as [->|].
  - by rewrite lookup_alter_eq, lookup_insert_eq, Hx.
  - by rewrite lookup_alter_ne, lookup_insert_ne by done.
Qed.

Lemma alter_insert_vreqs (f : virtio_blk_req → virtio_blk_req) (m : gmap Z virtio_blk_req) a x :
  m !! a = Some x → alter f a m = <[a := f x]> m.
Proof.
  intros Hx. apply map_eq. intros k. destruct (decide (k = a)) as [->|].
  - by rewrite lookup_alter_eq, lookup_insert_eq, Hx.
  - by rewrite lookup_alter_ne, lookup_insert_ne by done.
Qed.

Lemma endio_run a x s :
  0 < a → vreqs s !! a = Some x →
  blkdev_general_endio (a + BLKREQ_OFFSET) s =
    Ret (tt, set_vwoken (a + BLKREQ_OFFSET :: vwoken s) s).
Proof.
  intros Ha Hx. assert (Hz : ctrue (a + BLKREQ_OFFSET) = true).
  { unfold ctrue, BLKREQ_OFFSET. destruct (Z.eqb_spec (a + 24) 0); [lia|done]. }
  unfold blkdev_general_endio, blkreq_wakeup, load_req. rewrite Hz. munfold. cbn.
  rewrite get_vblkreq_add, Hx. cbn. by destruct (ctrue (endio (vblkreq x))).
Qed.

(** The chain at the reaping end is finished and wakes its request. *)
Lemma handle_used_run i s free wait tak c fin :
  qinv i s free wait tak (c :: fin) → virtio_blk_handle_used i s = Ret (tt, handled c s).
Proof.
  intros [Hs Hf Hsp Hh Hc _ _ _ _ Hi _ Hu Hd].
  destruct (Hu 0%nat c eq_refl) as (e & He & Ee). rewrite Z.add_0_r, Z.mod_small in He by done.
  rewrite Forall_forall in Hc. destruct (Hc c) as (Hpos & x & Hx & Hdes & _);
    [rewrite !elem_of_app; right; right; left|].
  apply Forall_cons_1 in Hd as [(x' & Hx' & Hst) _]. 
  assert (x' = x) as -> by congruence.
  destruct Hdes as (D1 & D2 & D3 & D4 & _).
  assert (Hr : ∀ d, d ∈ ids c → 0 ≤ d < 256).
  { intros d Hdd. eapply split_range; [exact Hsp|]. apply elem_of_app. right.
    apply elem_of_all_ids. exists c. split; [|done]. rewrite !elem_of_app. right; right; left. }
  assert (R1 : 0 ≤ c_1 c < 256) by (apply Hr; unfold ids; set_solver).
  assert (R2 : 0 ≤ c_2 c < 256) by (apply Hr; unfold ids; set_solver).
  assert (R3 : 0 ≤ c_3 c < 256) by (apply Hr; unfold ids; set_solver).
  unfold virtio_blk_handle_used.
  erewrite mbind_Ret by (unfold mtry; rewrite He; done). rewrite Ee.
  erewrite mbind_Ret by (apply on_q_run, get_desc_run, D1). cbn [d_flags d_next].
  change (negb (ctrue (Z.land VIRTQ_DESC_F_NEXT VIRTQ_DESC_F_NEXT))) with false. cbv iota.
  erewrite mbind_Ret by (apply on_q_run, get_desc_run, D2). cbn [d_flags d_next].
  assert (negb (ctrue (Z.land (Z.lor (if rq_type (vblkreq x) =? BLKREQ_TYPE_READ
    then VIRTQ_DESC_F_WRITE else 0) VIRTQ_DESC_F_NEXT) VIRTQ_DESC_F_NEXT)) = false) as ->
    by (by destruct (rq_type (vblkreq x) =? BLKREQ_TYPE_READ)). cbv iota.
  erewrite mbind_Ret by (apply on_q_run, get_desc_run, D3). cbn [d_flags d_next d_len].
  rewrite !Z.eqb_refl. cbn [negb orb].
  erewrite mbind_Ret by (unfold mtry; cbn; rewrite D4; done).
  destruct Hs. unfold VIRTIO_DEFAULT_QUEUE_SIZE in *.
  erewrite mbind_Ret by (apply on_q_run, virtq_free_desc_run; cbn in *; lia).
  erewrite mbind_Ret by (apply on_q_run, virtq_free_desc_run; cbn in *; rewrite ?zlen_alter, ?zlen_insert; lia).
  erewrite mbind_Ret by (apply on_q_run, virtq_free_desc_run; cbn in *; rewrite ?zlen_alter, ?zlen_insert; lia).
  erewrite mbind_Ret by (unfold mtry; cbn; rewrite Hx; done).
  assert (Hv : ∀ s1, vreqs s1 = vreqs s →
    (if vstatus x =? VIRTIO_BLK_S_OK then upd_req (c_hdr c + BLKREQ_OFFSET) (set_status BLKREQ_STATUS_OK)
     else if vstatus x =? VIRTIO_BLK_S_IOERR
          then upd_req (c_hdr c + BLKREQ_OFFSET) (set_status BLKREQ_STATUS_ERR)
          else mpanic) s1 = Ret (tt, set_vreqs (alter verdict (c_hdr c) (vreqs s)) s1)).
  { intros s1 E1. rewrite (alter_insert_vreqs verdict _ _ x Hx). unfold verdict.
    destruct Hst as [->| ->]; cbn [Z.eqb VIRTIO_BLK_S_OK VIRTIO_BLK_S_IOERR Pos.eqb];
      rewrite (upd_req_run _ x) by (by rewrite E1); by rewrite E1. }
  erewrite mbind_Ret by (by apply Hv).
  rewrite (endio_run _ (verdict x)); [done|done|]. cbn. by rewrite lookup_alter_eq, Hx.
Qed.

Lemma in_flight_frame s s' c :
  in_flight s c → vreqs s' !! c_hdr c = vreqs s !! c_hdr c →
  (∀ d, d ∈ ids c → znth (desc (vq s')) d = znth (desc (vq s)) d) →
  znth (desc_virt (vq s')) (c_1 c) = znth (desc_virt (vq s)) (c_1 c) → in_flight s' c.
Proof.
  intros (Hp & x & Hx & Hd & Hst) Hr Hl Hv. split; [done|]. exists x.
  rewrite Hr. split_and!; [done| |done]. by eapply describes_ext.
Qed.

Lemma answered_frame s s' c :
  answered s c → vreqs s' !! c_hdr c = vreqs s !! c_hdr c → answered s' c.
Proof. intros (x & Hx & H) E. exists x. by rewrite E. Qed.

Lemma mod_shift i k : ((i + 1) mod 256 + k) mod 256 = (i + (1 + k)) mod 256.
Proof. rewrite Zplus_mod_idemp_l. f_equal. lia. Qed.

Lemma wrap_256 i : 0 ≤ i < 256 → wrap (i + 1) VIRTIO_DEFAULT_QUEUE_SIZE = (i + 1) mod 256.
Proof.
  intros Hi. destruct (decide (i = 255)) as [->|]; [done|].
  rewrite Z.mod_small by lia. unfold wrap. apply Z.bits_inj'. intros k Hk.
  rewrite Z.land_spec, Z.lnot_spec by done.
  destruct (decide (k = 8)) as [->|Hk8].
  - rewrite Z.bits_above_log2; [done|lia|]. apply Z.log2_lt_pow2; lia.
  - change VIRTIO_DEFAULT_QUEUE_SIZE with (2 ^ 8). rewrite Z.pow2_bits_false by done. by rewrite andb_true_r.
Qed.

Lemma reaped_other c q j :
  (∀ d, d ∈ ids c → 0 ≤ d) → j ∉ ids c → znth (desc (reaped c q)) j = znth (desc q) j.
Proof.
  intros Hd Hj. unfold ids in *. unfold reaped.
  rewrite !freed_other; [done|first [apply Hd; set_solver|set_solver]..].
Qed.

Lemma reaped_virt c q j :
  (∀ d, d ∈ ids c → 0 ≤ d < zlen (desc_virt q)) → j ∉ ids c →
  znth (desc_virt (reaped c q)) j = znth (desc_virt q) j.
Proof.
  intros Hd Hj. unfold ids in *. unfold reaped.
  rewrite !freed_virt_other;
    [done|first [set_solver|cbn; rewrite ?zlen_insert; apply Hd; set_solver]..].
Qed.

Lemma reaped_path c q free :
  zlen (desc q) = 256 → (∀ d, d ∈ ids c → 0 ≤ d < 256) → NoDup (ids c ++ free) →
  free_path q (free_desc q) free →
  free_path (reaped c q) (free_desc (reaped c q)) (c_3 c :: c_2 c :: c_1 c :: free).
Proof.
  intros Hl Hr Hn Hp. unfold ids in *. cbn [app] in Hn. rewrite !NoDup_cons in Hn.
  destruct Hn as (N1 & N2 & N3 & _).
  unfold reaped. do 3 (apply freed_path; [cbn; rewrite ?zlen_alter; done|apply Hr; set_solver|set_solver|]).
  done.
Qed.

Lemma handled_inv i s free wait tak c fin :
  qinv i s free wait tak (c :: fin) →
  qinv ((i + 1) mod 256) (handled c s) (c_3 c :: c_2 c :: c_1 c :: free) wait tak fin.
Proof.
  intros [Hs Hf Hsp Hh Hc Hdi Hw Ha Ht Hi Hfi Hu Hd].
  assert (Esp : wait ++ tak ++ c :: fin ≡ₚ c :: (wait ++ tak ++ fin)) by solve_Permutation.
  rewrite Esp in Hsp, Hh, Hc. change (all_ids (c :: ?l)) with (ids c ++ all_ids l) in Hsp.
  apply Forall_cons in Hc as [_ Hc]. apply NoDup_cons in Hh as [Hnh Hh].
  pose proof (split_NoDup free (c :: wait ++ tak ++ fin) Hsp) as Hnd.
  change (all_ids (c :: ?l)) with (ids c ++ all_ids l) in Hnd.
  assert (Hr : ∀ d, d ∈ ids c → 0 ≤ d < 256).
  { intros d Hdd. eapply (split_range free (c :: wait ++ tak ++ fin)); [exact Hsp|].
    apply elem_of_app. right. apply elem_of_app. by left. }
  assert (Hother : ∀ c' d, c' ∈ wait ++ tak ++ fin → d ∈ ids c' → d ∉ ids c).
  { intros c' d Hc' Hd' Hdc. apply NoDup_app in Hnd as (_ & _ & Hnd).
    apply NoDup_app in Hnd as (_ & Hnd & _). apply (Hnd d Hdc). apply elem_of_all_ids. eauto. }
  assert (Hreq : ∀ c', c' ∈ wait ++ tak ++ fin → vreqs (handled c s) !! c_hdr c' = vreqs s !! c_hdr c').
  { intros c' Hc'. cbn. apply lookup_alter_ne. intros E. apply Hnh. rewrite E.
    by apply list_elem_of_fmap_2. }
  assert (Hvl : zlen (desc_virt (vq s)) = 256) by apply Hs.
  split; try done.
  - by do 3 apply freed_sizes.
  - apply reaped_path; [apply Hs|done| |done].
    apply NoDup_app in Hnd as (N1 & N2 & N3). apply NoDup_app in N3 as (N3 & _ & _).
    apply NoDup_app. split_and!; [done| |done]. intros d H1 H2. apply (N2 d H2). apply elem_of_app. by left.
  - etrans; [|exact Hsp]. unfold ids. cbn [app]. solve_Permutation.
  - rewrite Forall_forall in *. intros c' Hc'. eapply in_flight_frame; [by apply Hc|by apply Hreq| |].
    + intros d Hd'. apply reaped_other; [intros; by apply Hr|by eapply Hother].
    + apply reaped_virt; [intros; rewrite Hvl; by apply Hr|].
      eapply Hother; [done|]. unfold ids. set_solver.
  - apply Z.mod_pos_bound. done.
  - cbn [vq set_vwoken set_vreqs set_vq handled reaped freed used_idx set_virt set_free set_desc].
    rewrite Hfi. change VIRTIO_DEFAULT_QUEUE_SIZE with 256. rewrite mod_shift, zlen_cons. done.
  - intros k c' Hk. destruct (Hu (S k) c' Hk) as (e & He & Ee). exists e. split; [|done].
    change VIRTIO_DEFAULT_QUEUE_SIZE with 256 in *. rewrite mod_shift.
    replace (1 + Z.of_nat k) with (Z.of_nat (S k)) by lia. exact He.
  - apply Forall_cons in Hd as [_ Hd]. rewrite Forall_forall in *. intros c' Hc'.
    eapply answered_frame; [by apply Hd|]. apply Hreq. rewrite !elem_of_app. by right; right.
Qed.

(** ** The service routine *)

Definition reap_all (fin : list chain) (s : vdisk) : vdisk := foldl (λ s c, handled c s) s fin.
Definition give_back (fin : list chain) (free : list Z) : list Z :=
  foldl (λ f c, c_3 c :: c_2 c :: c_1 c :: f) free fin.

Lemma fin_bound i s free wait tak fin : qinv i s free wait tak fin → zlen fin < 86.
Proof.
  intros [_ _ Hs _ _ _ _ _ _ _ _ _ _]. apply chains_bound in Hs. rewrite !zlen_app in Hs.
  pose proof (zlen_nonneg free). pose proof (zlen_nonneg wait). pose proof (zlen_nonneg tak). lia.
Qed.

Lemma isr_loop_run wait tak fin : ∀ fuel i s free,
  bus s = [] → qinv i s free wait tak fin → (length fin < fuel)%nat →
  isr_loop fuel i s = Ret (tt, reap_all fin s) ∧
  qinv (used_idx (vq s) mod 256) (reap_all fin s) (give_back fin free) wait tak [].
Proof.
  induction fin as [|c fin IH]; intros [|fuel] i s free Hb Hq Hfuel; cbn in Hfuel; [lia| |lia|].
  - pose proof (qi_sizes _ _ _ _ _ _ Hq) as []. pose proof (qi_fin _ _ _ _ _ _ Hq) as Hf.
    pose proof (qi_i _ _ _ _ _ _ Hq) as Hi. change VIRTIO_DEFAULT_QUEUE_SIZE with 256 in *.
    rewrite Z.add_0_r, (Z.mod_small i) in Hf by done. cbn [isr_loop]. unfold read_used_idx. munfold.
    rewrite Hb. cbv beta iota. rewrite so_size0, Hf, Z.eqb_refl. by split.
  - pose proof (fin_bound _ _ _ _ _ _ Hq) as Hbd. pose proof (handled_inv _ _ _ _ _ _ _ Hq) as Hq'.
    pose proof (qi_sizes _ _ _ _ _ _ Hq) as []. pose proof (qi_fin _ _ _ _ _ _ Hq) as Hf.
    pose proof (qi_i _ _ _ _ _ _ Hq) as Hi. change VIRTIO_DEFAULT_QUEUE_SIZE with 256 in *.
    destruct (IH fuel _ (handled c s) _ Hb Hq') as [E Hfin]; [lia|]. split; [|exact Hfin].
    cbn [isr_loop]. unfold read_used_idx.
    erewrite (mbind_Ret _ _ s); [|rewrite Hb; reflexivity].
    erewrite (mbind_Ret _ _ s); [|reflexivity]. cbv beta. rewrite so_size0, Hf.
    replace (i =? (i + zlen (c :: fin)) mod 256) with false.
    2:{ symmetry. apply Z.eqb_neq. rewrite zlen_cons in *. pose proof (zlen_nonneg fin) as Hn. intros Ei.
        clear - Hi Hbd Ei Hn. Z.div_mod_to_equations. lia. }
    erewrite mbind_Ret by (by eapply handle_used_run).
    change (wrap (i + 1) 256) with (wrap (i + 1) VIRTIO_DEFAULT_QUEUE_SIZE).
    rewrite (wrap_256 i) by done. exact E.
Qed.

Lemma reap_all_vq fin s :
  used_idx (vq (reap_all fin s)) = used_idx (vq s) ∧ bus (reap_all fin s) = bus s ∧
  queue_size (vq (reap_all fin s)) = queue_size (vq s) ∧ events (reap_all fin s) = events s ∧
  dev (reap_all fin s) = dev s ∧ vlocks (reap_all fin s) = vlocks s ∧
  vmem (reap_all fin s) = vmem s ∧ vrqs (reap_all fin s) = vrqs s ∧
  vfresh (reap_all fin s) = vfresh s.
Proof.
  revert s. induction fin as [|c fin IH]; intros s; [done|].
  change (reap_all (c :: fin) s) with (reap_all fin (handled c s)).
  destruct (IH (handled c s)) as (-> & -> & -> & -> & -> & -> & -> & -> & ->). done.
Qed.

(** The state after the service routine has reaped [fin]. *)
Definition serviced (fin : list chain) (s : vdisk) : vdisk :=
  set_vq (set_seen (used_idx (vq s) mod VIRTIO_DEFAULT_QUEUE_SIZE) (vq (reap_all fin s))) (reap_all fin s).

Lemma free_path_desc q q' d free : desc q' = desc q → free_path q d free → free_path q' d free.
Proof. intros E. apply free_path_ext. intros e x _ Hx. exists x. by rewrite E. Qed.

Lemma qinv_seen i v s free wait tak fin :
  qinv i s free wait tak fin → qinv i (set_vq (set_seen v (vq s)) s) free wait tak fin.
Proof.
  intros []. split; try done; [by destruct qi_sizes0|].
  by apply (free_path_desc (vq s)).
Qed.

Lemma isr_run s free wait tak fin :
  bus s = [] → disk_inv s free wait tak fin →
  virtio_blk_isr s = Ret (IRQ_HANDLED, serviced fin s) ∧
  disk_inv (serviced fin s) (give_back fin free) wait tak [].
Proof.
  intros Hb Hq. pose proof (qi_sizes _ _ _ _ _ _ Hq) as []. pose proof (fin_bound _ _ _ _ _ _ Hq) as Hbd.
  destruct (isr_loop_run wait tak fin (S (Z.to_nat (queue_size (vq s)))) _ s free Hb Hq) as [E Hf].
  { rewrite so_size0. unfold zlen, VIRTIO_DEFAULT_QUEUE_SIZE in *. lia. }
  destruct (reap_all_vq fin s) as (E1 & E2 & E3 & _). split.
  - unfold virtio_blk_isr. erewrite (mbind_Ret _ _ s) by done. mstep E.
    unfold read_used_idx. erewrite mbind_Ret by (rewrite E2, Hb; done). rewrite E1, so_size0. done.
  - by apply qinv_seen.
Qed.

(** ** The moves of the device *)

Lemma u16_step i k : (u16 (i + 1) + k) mod 256 = (i + (1 + k)) mod 256.
Proof. unfold u16. Z.div_mod_to_equations. lia. Qed.

Lemma dev_take_inv i s free c wait tak fin :
  qinv i s free (c :: wait) tak fin → qinv i (dev_take s) free wait (tak ++ [c]) fin.
Proof.
  intros Hq. pose proof Hq as [Hs Hf Hsp Hh Hc Hdi Hw Ha Ht Hi Hfi Hu Hd].
  pose proof Hs as [Hqs _ _ _ _ _ _].
  assert (Hbd : zlen wait < 85).
  { apply chains_bound in Hsp. rewrite !zlen_app, zlen_cons in Hsp.
    pose proof (zlen_nonneg free). pose proof (zlen_nonneg fin). pose proof (zlen_nonneg tak). lia. }
  destruct (Ha 0%nat c eq_refl) as (e & He & ->). rewrite Z.add_0_r in He.
  rewrite zlen_cons in Hw. pose proof (zlen_nonneg wait) as Hn. unfold dev_take.
  replace (dev_idx (dev s) =? avail_idx (vq s)) with false.
  2:{ symmetry. apply Z.eqb_neq. rewrite Hw. clear - Hdi Hbd Hn. unfold u16. Z.div_mod_to_equations. lia. }
  rewrite Hqs, He.
  assert (Ep : wait ++ (tak ++ [c]) ++ fin ≡ₚ (c :: wait) ++ tak ++ fin) by solve_Permutation.
  split; cbn [vq set_dev dev dev_idx dev_taken]; try done.
  - by rewrite Ep.
  - by rewrite Ep.
  - rewrite Ep. exact Hc.
  - apply u16_range.
  - rewrite Hw. unfold u16. rewrite Zplus_mod_idemp_l. f_equal. lia.
  - intros k c' Hk. destruct (Ha (S k) c' Hk) as (e & Hek & Ee). exists e. split; [|done].
    change VIRTIO_DEFAULT_QUEUE_SIZE with 256 in *. rewrite u16_step.
    replace (1 + Z.of_nat k) with (Z.of_nat (S k)) by lia. exact Hek.
  - by rewrite Ht, fmap_app.
Qed.

Lemma dev_take_idle i s free tak fin : qinv i s free [] tak fin → dev_take s = s.
Proof.
  intros [_ _ _ _ _ Hdi Hw _ _ _ _ _ _]. unfold dev_take. rewrite Hw, Z.add_0_r, u16_small by done.
  by rewrite Z.eqb_refl.
Qed.

(** The device finishes the request [x] of [c]. *)
Definition moved (good : bool) (x : virtio_blk_req) (s : vdisk) : option (list Z * bytes) :=
  if good then transfer (vtype x) (vsector x) (rq_buffer (vblkreq x)) (u32 (rq_size (vblkreq x)))
                        (medium (dev s)) (vmem s)
  else None.
Definition completed (c : chain) (good : bool) (x : virtio_blk_req) (s : vdisk) : vdisk :=
  let q := vq s in
  let '(med, m) := default (medium (dev s), vmem s) (moved good x s) in
  let result := match moved good x s with Some _ => VIRTIO_BLK_S_OK | None => VIRTIO_BLK_S_IOERR end in
  set_dev (Device med (dev_idx (dev s)) (filter (λ y, y ≠ c_1 c) (dev_taken (dev s))))
    (set_vq (set_used (u16 (used_idx q + 1))
               (<[Z.to_nat (used_idx q mod 256) := (c_1 c, u32 (rq_size (vblkreq x)))]> (used_ring q)) q)
    (set_vreqs (<[c_hdr c := set_vstatus result x]> (vreqs s)) (set_vmem m s))).

Lemma chain_of_run q c x : describes q c x →
  ∃ d1 d2 d3, chain_of q (c_1 c) = Some (d1, d2, d3) ∧ d_addr d1 = c_hdr c ∧
    d_addr d2 = rq_buffer (vblkreq x) ∧ d_len d2 = u32 (rq_size (vblkreq x)) ∧
    d_addr d3 = c_hdr c + VIRTIO_BLK_REQ_HEADER_SIZE.
Proof.
  intros (D1 & D2 & D3 & _). unfold chain_of. rewrite D1. cbn [mbind option_bind d_next].
  rewrite D2. cbn [mbind option_bind d_next]. rewrite D3. cbn [mbind option_bind].
  eexists _, _, _. split; [done|]. done.
Qed.

Lemma dev_complete_run s c good x :
  sizes_ok (vq s) → c_1 c ∈ dev_taken (dev s) → vreqs s !! c_hdr c = Some x →
  describes (vq s) c x → dev_complete (c_1 c) good s = completed c good x s.
Proof.
  intros [] Hin Hx Hd. destruct (chain_of_run _ _ _ Hd) as (d1 & d2 & d3 & Hc & E1 & E2 & E3 & E4).
  unfold dev_complete. rewrite bool_decide_true by done. cbn [negb]. rewrite Hc.
  cbn [mbind option_bind]. rewrite E1, Hx. cbn [mbind option_bind].
  rewrite E4. replace (c_hdr c + VIRTIO_BLK_REQ_HEADER_SIZE - VIRTIO_BLK_REQ_HEADER_SIZE)
    with (c_hdr c) by lia. rewrite Hx. cbn [mbind option_bind].
  unfold zset at 1. rewrite so_size0. change VIRTIO_DEFAULT_QUEUE_SIZE with 256 in *.
  rewrite decide_True by (rewrite so_used0; apply Z.mod_pos_bound; lia). cbn [mbind option_bind].
  rewrite E2, E3. unfold completed, moved.
  destruct (default _ _) as [med m] eqn:Edef. done.
Qed.

Lemma filter_ne_not_in (l : list Z) h : h ∉ l → filter (λ y, y ≠ h) l = l.
Proof.
  induction l as [|a l IH]; intros Hn; [done|]. apply not_elem_of_cons in Hn as [? ?].
  rewrite filter_cons_True by congruence. by rewrite IH.
Qed.

(** No two chains start at the same descriptor. *)
Lemma heads_NoDup free l :
  free ++ all_ids l ≡ₚ seqZ 0 VIRTIO_DEFAULT_QUEUE_SIZE → NoDup (c_1 <$> l).
Proof.
  intros Hs. apply split_NoDup, NoDup_app in Hs as (_ & _ & Hn).
  induction l as [|c l IH]; [by apply NoDup_nil_2|].
  change (all_ids (c :: l)) with (ids c ++ all_ids l) in Hn. apply NoDup_app in Hn as (_ & H2 & Hn).
  cbn. apply NoDup_cons. split; [|by apply IH]. intros (c' & E & Hc')%list_elem_of_fmap.
  apply (H2 (c_1 c)); [unfold ids; set_solver|]. apply elem_of_all_ids. exists c'. split; [done|].
  rewrite E. unfold ids. set_solver.
Qed.

Lemma completed_inv i s free wait t1 c t2 fin good x :
  qinv i s free wait (t1 ++ c :: t2) fin → vreqs s !! c_hdr c = Some x →
  qinv i (completed c good x s) free wait (t1 ++ t2) (fin ++ [c]).
Proof.
  intros Hq Hx. pose proof (fin_bound _ _ _ _ _ _ Hq) as Hbd.
  destruct Hq as [Hs Hf Hsp Hh Hc Hdi Hw Ha Ht Hi Hfi Hu Hd]. pose proof Hs as [].
  assert (Ep : wait ++ (t1 ++ t2) ++ fin ++ [c] ≡ₚ wait ++ (t1 ++ c :: t2) ++ fin)
    by solve_Permutation.
  assert (Ec : wait ++ (t1 ++ c :: t2) ++ fin ≡ₚ c :: wait ++ (t1 ++ t2) ++ fin) by solve_Permutation.
  assert (Hcc : in_flight s c).
  { rewrite Forall_forall in Hc. apply Hc. rewrite Ec. left. }
  destruct Hcc as (Hpos & x' & Hx' & Hdes & Hst). assert (x' = x) as -> by congruence.
  assert (Hne : ∀ c', c' ∈ wait ++ (t1 ++ t2) ++ fin → c_hdr c' ≠ c_hdr c).
  { intros c' Hc' E. rewrite Ec in Hh. apply NoDup_cons in Hh as [Hh _]. apply Hh. rewrite <- E.
    by apply list_elem_of_fmap_2. }
  pose proof (heads_NoDup free _ Hsp) as Hn1.
  unfold completed. destruct (default _ _) as [med m] eqn:Edef. set (st := match moved good x s with Some _ => _ | None => _ end).
  split; cbn [vq set_dev set_vq set_used set_vreqs dev dev_idx dev_taken avail_idx avail_ring used_idx used_ring]; try done.
  - split; try done; cbn; [by rewrite zlen_insert|apply u16_range].
  - by apply (free_path_desc (vq s)).
  - by rewrite Ep.
  - by rewrite Ep.
  - rewrite Ep, Ec in *. apply Forall_cons in Hc as [_ Hc]. apply Forall_cons. split.
    + split; [done|]. exists (set_vstatus st x). cbn. rewrite lookup_insert_eq.
      split_and!; [done| |done]. by apply (describes_ext (vq s) _ c x).
    + rewrite Forall_forall in *. intros c' Hc'. eapply in_flight_frame; [by apply Hc| |done..].
      cbn. apply lookup_insert_ne. intros E. by apply (Hne c').
  - rewrite Ht, !fmap_app, filter_app, fmap_cons, filter_cons_False by (intros E; by apply E).
    rewrite (Permutation_app_comm wait), <- !app_assoc, !fmap_app in Hn1.
    apply NoDup_app in Hn1 as (_ & N1 & Hn1). cbn in Hn1. apply NoDup_cons in Hn1 as [N2 _].
    rewrite !filter_ne_not_in; [done| |].
    + intros H. apply N2. apply elem_of_app. by left.
    + intros H. apply (N1 _ H). cbn. left.
  - change VIRTIO_DEFAULT_QUEUE_SIZE with 256 in *. rewrite zlen_app. cbn [zlen length].
    clear - Hfi so_uidx0 Hi. unfold u16. change (zlen [c]) with 1. Z.div_mod_to_equations. lia.
  - change VIRTIO_DEFAULT_QUEUE_SIZE with 256 in *. rewrite Hfi.
    intros k c' Hk. rewrite znth_insert by (rewrite so_used0; apply Z.mod_pos_bound; lia).
    apply lookup_snoc_Some in Hk as [[Hlt Hk]|[Ek Ek']].
    + replace (_ =? _) with false; [by apply Hu|]. symmetry. apply Z.eqb_neq. intros E.
      change VIRTIO_DEFAULT_QUEUE_SIZE with 256 in E.
      clear - E Hlt Hi Hbd. unfold zlen in *. Z.div_mod_to_equations. lia.
    + subst c' k. unfold zlen. rewrite Z.eqb_refl. by eexists.
  - apply Forall_app. split; [|apply Forall_singleton].
    + rewrite Forall_forall in *. intros c' Hc'. eapply answered_frame; [by apply Hd|]. cbn.
      apply lookup_insert_ne. intros E. apply (Hne c'); [|done]. rewrite !elem_of_app. by right; right.
    + exists (set_vstatus st x). cbn. rewrite lookup_insert_eq. split; [done|].
      unfold st. destruct (moved good x s); [by left|by right].
Qed.

(** A move of the device keeps the invariant: it takes the first waiting chain, finishes one it
    has taken, or does nothing. *)
Inductive moves (e : dev_event) (s : vdisk) :
  list chain → list chain → list chain → vdisk → list chain → list chain → list chain → Prop :=
  | moves_take c w t f : e = DTake → moves e s (c :: w) t f (dev_take s) w (t ++ [c]) f
  | moves_finish c good x w t1 t2 f :
      e = DComplete (c_1 c) good → vreqs s !! c_hdr c = Some x → describes (vq s) c x →
      moves e s w (t1 ++ c :: t2) f (completed c good x s) w (t1 ++ t2) (f ++ [c])
  | moves_idle w t f :
      (e = DTake → w = []) → (∀ c good, e = DComplete (c_1 c) good → c ∉ t) →
      moves e s w t f s w t f.

Lemma dev_step_moves i e s free wait tak fin :
  qinv i s free wait tak fin →
  ∃ wait' tak' fin', moves e s wait tak fin (dev_step e s) wait' tak' fin' ∧
    qinv i (dev_step e s) free wait' tak' fin'.
Proof.
  intros Hq. destruct e as [|h good|]; cbn [dev_step].
  - destruct wait as [|c wait].
    + exists [], tak, fin. rewrite (dev_take_idle _ _ _ _ _ Hq). split; [by apply moves_idle|done].
    + exists wait, (tak ++ [c]), fin. split; [by apply moves_take|by apply dev_take_inv].
  - destruct (decide (h ∈ dev_taken (dev s))) as [Hh|Hh].
    + pose proof Hh as Hh'. rewrite (qi_tak _ _ _ _ _ _ Hq) in Hh'.
      apply list_elem_of_fmap in Hh' as (c & -> & Hc). apply list_elem_of_split in Hc as (t1 & t2 & ->).
      pose proof (qi_chains _ _ _ _ _ _ Hq) as Hfl. rewrite Forall_forall in Hfl.
      destruct (Hfl c) as (_ & x & Hx & Hdes & _).
      { rewrite !elem_of_app. right. left. right. left. }
      exists wait, (t1 ++ t2), (fin ++ [c]).
      rewrite (dev_complete_run s c good x) by (done || apply Hq).
      split; [by apply moves_finish|by apply completed_inv].
    + exists wait, tak, fin. unfold dev_complete. rewrite bool_decide_false by done.
      split; [apply moves_idle; [done|]|done]. intros c g [= -> ->] Hc. apply Hh.
      rewrite (qi_tak _ _ _ _ _ _ Hq). by apply list_elem_of_fmap_2.
  - exists wait, tak, fin. split; [by apply moves_idle|done].
Qed.

Lemma moves_perm e s w t f s' w' t' f' :
  moves e s w t f s' w' t' f' → w' ++ t' ++ f' ≡ₚ w ++ t ++ f.
Proof. intros []; [solve_Permutation..|done]. Qed.

(** What no move touches. *)
Lemma moves_frame e s w t f s' w' t' f' :
  moves e s w t f s' w' t' f' →
  vlocks s' = vlocks s ∧ vrqs s' = vrqs s ∧ vfresh s' = vfresh s ∧ vwoken s' = vwoken s ∧
  events s' = events s ∧ bus s' = bus s ∧ seen_used (vq s') = seen_used (vq s) ∧
  dom (vreqs s') = dom (vreqs s) ∧
  ∀ a x, vreqs s !! a = Some x → ∃ x', vreqs s' !! a = Some x' ∧ vblkreq x' = vblkreq x.
Proof.
  intros [c w0 t0 f0 _|c good x w0 t1 t2 f0 _ Hx _|w0 t0 f0 _ _].
  - unfold dev_take. destruct (_ =? _); [by split_and!; eauto|].
    destruct (znth _ _); split_and!; eauto.
  - unfold completed. destruct (default _ _) as [med m]. split_and!; try done.
    + cbn. rewrite dom_insert_L. apply elem_of_dom_2 in Hx. set_solver.
    + intros a y Hy. cbn. destruct (decide (a = c_hdr c)) as [->|].
      * rewrite lookup_insert_eq. assert (y = x) as -> by congruence. by eexists.
      * rewrite lookup_insert_ne by done. eauto.
  - split_and!; eauto.
Qed.

(** ** Submitting *)

(** [virtio_blk_submit] with the three free descriptors at hand: the queue it leaves. *)
Definition linked (hdr : Z) (x : virtio_blk_req) (d1 d2 d3 next : Z) (q : virtq_info) : virtq_info :=
  let r := vblkreq x in
  let mode := if rq_type r =? BLKREQ_TYPE_READ then VIRTQ_DESC_F_WRITE else 0 in
  set_avail (u16 (avail_idx q + 1))
    (<[Z.to_nat (avail_idx q mod 256) := d1]> (avail_ring q))
  (set_virt (<[Z.to_nat d3 := hdr + VIRTIO_BLK_REQ_HEADER_SIZE]>
              (<[Z.to_nat d2 := rq_buffer r]> (<[Z.to_nat d1 := hdr]> (desc_virt q))))
  (set_free next
  (set_desc
    (<[Z.to_nat d3 := Desc (hdr + VIRTIO_BLK_REQ_HEADER_SIZE) VIRTIO_BLK_REQ_FOOTER_SIZE
                           VIRTQ_DESC_F_WRITE 0]>
    (<[Z.to_nat d2 := Desc (rq_buffer r) (u32 (rq_size r)) (Z.lor mode VIRTQ_DESC_F_NEXT) d3]>
    (<[Z.to_nat d1 := Desc hdr VIRTIO_BLK_REQ_HEADER_SIZE VIRTQ_DESC_F_NEXT d2]> (desc q)))) q))).

(** The header [virtio_blk_submit] leaves in the request. *)
Definition headed (d1 : Z) (x : virtio_blk_req) : virtio_blk_req :=
  set_descriptor d1 (set_header
    (if rq_type (vblkreq x) =? BLKREQ_TYPE_READ then VIRTIO_BLK_T_IN else VIRTIO_BLK_T_OUT)
    (sector_sta (vblkreq x)) x).

Definition submitted (hdr : Z) (x : virtio_blk_req) (d1 d2 d3 next : Z) (s : vdisk) : vdisk :=
  set_notified (queue_num (vq s) :: notified s)
    (set_vq (linked hdr x d1 d2 d3 next (vq s)) (set_vreqs (<[hdr := headed d1 x]> (vreqs s)) s)).

Lemma upd_vreq_run a f x s :
  vreqs s !! a = Some x → upd_vreq a f s = Ret (tt, set_vreqs (<[a := f x]> (vreqs s)) s).
Proof. intros H. unfold upd_vreq. munfold. by rewrite H. Qed.

(** Three descriptors filled in field by field, in the order of the code. *)
Lemma three_filled (l : list virtqueue_desc) i1 i2 i3 y1 y2 y3 a1 a2 a3 l1 l2 l3 f1 f2 f3 n1 n2 n3 :
  l !! i1 = Some y1 → l !! i2 = Some y2 → l !! i3 = Some y3 → i1 ≠ i2 → i1 ≠ i3 → i2 ≠ i3 →
  alter (set_d_next n3) i3 (alter (set_d_next n2) i2 (alter (set_d_next n1) i1
    (alter (set_d_flags f3) i3 (alter (set_d_len l3) i3 (alter (set_d_addr a3) i3
    (alter (set_d_flags f2) i2 (alter (set_d_len l2) i2 (alter (set_d_addr a2) i2
    (alter (set_d_flags f1) i1 (alter (set_d_len l1) i1 (alter (set_d_addr a1) i1 l))))))))))) =
  <[i3 := Desc a3 l3 f3 n3]> (<[i2 := Desc a2 l2 f2 n2]> (<[i1 := Desc a1 l1 f1 n1]> l)).
Proof.
  intros H1 H2 H3 N12 N13 N23.
  pose proof (lookup_lt_Some _ _ _ H1). pose proof (lookup_lt_Some _ _ _ H2).
  pose proof (lookup_lt_Some _ _ _ H3). apply list_eq. intros k.
  destruct (decide (k = i1)) as [->|K1];
    [|destruct (decide (k = i2)) as [->|K2]; [|destruct (decide (k = i3)) as [->|K3]]];
    repeat first [rewrite list_lookup_alter_eq | rewrite list_lookup_alter_ne by done
                 |rewrite list_lookup_insert_eq by (rewrite ?length_insert; lia)
                 |rewrite list_lookup_insert_ne by done];
    rewrite ?H1, ?H2, ?H3; done.
Qed.

(** The fields of the updated state, as values. *)
Ltac qsimpl :=
  cbn [vq set_vq set_vreqs set_notified set_desc set_virt set_free set_avail alloced vlocks vmem vfresh
       vrqs vreqs vwoken notified dev events bus pfn seen_used free_desc v_desc v_avail v_used desc
       avail_idx avail_ring used_idx used_ring desc_virt queue_num queue_size].
Ltac qstep := erewrite mbind_Ret by (apply on_q_run, upd_desc_run; qsimpl; rewrite ?zlen_alter; lia); qsimpl.

Lemma submit_run s hdr x d1 d2 d3 y1 y2 y3 :
  let q := vq s in
  sizes_ok q → vreqs s !! hdr = Some x →
  ctrue (Z.land (rq_size (vblkreq x)) (VIRTIO_BLK_SECTOR_SIZE - 1)) = false →
  free_desc q = d1 → znth (desc q) d1 = Some y1 → d_next y1 = d2 → znth (desc q) d2 = Some y2 →
  d_next y2 = d3 → znth (desc q) d3 = Some y3 → NoDup [d1; d2; d3] →
  virtio_blk_submit (hdr + BLKREQ_OFFSET) s =
    Ret (tt, submitted hdr x d1 d2 d3 (d_next y3) s).
Proof.
  cbv zeta. intros Hs Hx Hal Hf Y1 E2 Y2 E3 Y3 Hnd. destruct Hs.
  change VIRTIO_DEFAULT_QUEUE_SIZE with 256 in *.
  rewrite !NoDup_cons in Hnd. destruct Hnd as (N1 & N2 & _ & _).
  assert (d1 ≠ d2 ∧ d1 ≠ d3 ∧ d2 ≠ d3) as (N12 & N13 & N23) by set_solver. clear N1 N2.
  assert (Hd : ∀ d y, znth (desc (vq s)) d = Some y → 0 ≤ d < 256).
  { intros d y H. apply znth_Some in H as [? H]. apply lookup_lt_Some in H. unfold zlen in *. lia. }
  pose proof (Hd _ _ Y1) as R1. pose proof (Hd _ _ Y2) as R2. pose proof (Hd _ _ Y3) as R3. clear Hd.
  unfold submitted, linked.
  destruct s as [lks mem fr rqs reqs [pf su fd vd va vu ds ai ar ui ur dv qn qs] wk nt dv0 ev bs].
  cbn in so_size0, so_desc0, so_virt0, so_avail0, so_used0, so_aidx0, so_uidx0, Hx, Hf, Y1, Y2, Y3.
  unfold virtio_blk_submit. rewrite get_vblkreq_add. cbv zeta.
  erewrite mbind_Ret by (unfold mtry; cbn [vreqs]; rewrite Hx; done). rewrite Hal.
  erewrite mbind_Ret by (by apply upd_vreq_run). qsimpl.
  erewrite mbind_Ret by (apply on_q_run; qsimpl; apply virtq_alloc_desc_run; qsimpl; [lia|rewrite Hf; exact Y1]).
  qsimpl. rewrite Hf, E2. cbv beta.
  erewrite mbind_Ret by (apply upd_vreq_run; qsimpl; apply lookup_insert_eq). cbv beta. qsimpl.
  do 2 qstep.
  erewrite mbind_Ret.
  2:{ apply on_q_run, virtq_alloc_desc_run; qsimpl; [rewrite ?zlen_insert, ?zlen_alter; lia|].
      rewrite !znth_alter by lia. rewrite (proj2 (Z.eqb_neq d2 d1)) by lia. exact Y2. }
  qsimpl. rewrite E3. cbv beta.
  do 2 qstep.
  erewrite mbind_Ret.
  2:{ apply on_q_run, virtq_alloc_desc_run; qsimpl; [rewrite ?zlen_insert, ?zlen_alter; lia|].
      rewrite !znth_alter by lia. rewrite (proj2 (Z.eqb_neq d3 d1)), (proj2 (Z.eqb_neq d3 d2)) by lia.
      exact Y3. }
  qsimpl. cbv beta.
  do 5 qstep.
  unfold virtio_blk_send.
  erewrite mbind_Ret by (unfold mtry; qsimpl; rewrite lookup_insert_eq; done).
  erewrite mbind_Ret by done. qsimpl.
  erewrite mbind_Ret.
  2:{ unfold mtry, zset. qsimpl. rewrite so_size0, so_avail0.
      rewrite decide_True by (apply Z.mod_pos_bound; lia). done. }
  rewrite !(u16_small d2), !(u16_small d3) by lia.
  cbn [descriptor set_descriptor]. rewrite (u16_small d1) by lia.
  do 2 (erewrite mbind_Ret by done; qsimpl). unfold modify. qsimpl.
  apply znth_Some in Y1 as [_ Y1]. apply znth_Some in Y2 as [_ Y2]. apply znth_Some in Y3 as [_ Y3].
  rewrite (three_filled ds _ _ _ _ _ _ _ _ _ _ _ _ _ _ _ _ _ _ Y1 Y2 Y3) by lia.
  rewrite so_size0, insert_insert_eq. done.
Qed.

Lemma linked_sizes hdr x d1 d2 d3 next q : sizes_ok q → sizes_ok (linked hdr x d1 d2 d3 next q).
Proof. intros []. split; cbn; rewrite ?zlen_insert; try done. apply u16_range. Qed.

Lemma linked_desc hdr x d1 d2 d3 next q j :
  zlen (desc q) = 256 → 0 ≤ d1 < 256 → 0 ≤ d2 < 256 → 0 ≤ d3 < 256 → j ∉ [d1; d2; d3] →
  znth (desc (linked hdr x d1 d2 d3 next q)) j = znth (desc q) j.
Proof.
  intros Hl R1 R2 R3 Hj. cbn. rewrite !znth_insert by (rewrite ?zlen_insert; lia).
  rewrite !(proj2 (Z.eqb_neq j _)) by set_solver. done.
Qed.

Lemma linked_virt hdr x d1 d2 d3 next q j :
  zlen (desc_virt q) = 256 → 0 ≤ d1 < 256 → 0 ≤ d2 < 256 → 0 ≤ d3 < 256 → j ∉ [d1; d2; d3] →
  znth (desc_virt (linked hdr x d1 d2 d3 next q)) j = znth (desc_virt q) j.
Proof.
  intros Hl R1 R2 R3 Hj. cbn. rewrite !znth_insert by (rewrite ?zlen_insert; lia).
  rewrite !(proj2 (Z.eqb_neq j _)) by set_solver. done.
Qed.

(** The new chain describes its request. *)
Lemma linked_describes hdr x d1 d2 d3 next q :
  sizes_ok q → 0 ≤ d1 < 256 → 0 ≤ d2 < 256 → 0 ≤ d3 < 256 → NoDup [d1; d2; d3] →
  describes (linked hdr x d1 d2 d3 next q) (Chain hdr d1 d2 d3) (headed d1 x).
Proof.
  intros [] R1 R2 R3 Hnd. change VIRTIO_DEFAULT_QUEUE_SIZE with 256 in *.
  rewrite !NoDup_cons in Hnd. destruct Hnd as (N1 & N2 & _ & _).
  assert (d1 ≠ d2 ∧ d1 ≠ d3 ∧ d2 ≠ d3) as (N12 & N13 & N23) by set_solver.
  unfold describes. cbn. rewrite !znth_insert by (rewrite ?zlen_insert; lia).
  rewrite !Z.eqb_refl, (proj2 (Z.eqb_neq d1 d2)), (proj2 (Z.eqb_neq d1 d3)), (proj2 (Z.eqb_neq d2 d3))
    by done. done.
Qed.

Lemma submit_inv i s d1 d2 d3 free wait tak fin hdr x :
  qinv i s (d1 :: d2 :: d3 :: free) wait tak fin →
  vreqs s !! hdr = Some x → 0 < hdr → hdr ∉ (c_hdr <$> wait ++ tak ++ fin) →
  rq_status (vblkreq x) = BLKREQ_STATUS_INIT →
  ctrue (Z.land (rq_size (vblkreq x)) (VIRTIO_BLK_SECTOR_SIZE - 1)) = false →
  ∃ next, virtio_blk_submit (hdr + BLKREQ_OFFSET) s = Ret (tt, submitted hdr x d1 d2 d3 next s) ∧
    qinv i (submitted hdr x d1 d2 d3 next s) free (wait ++ [Chain hdr d1 d2 d3]) tak fin.
Proof.
  intros [Hs Hf Hsp Hh Hc Hdi Hw Ha Ht Hi Hfi Hu Hd] Hx Hp Hnew Hst Hal. pose proof Hs as [].
  cbn in Hf. destruct Hf as (F1 & y1 & Y1 & F2 & y2 & Y2 & F3 & y3 & Y3 & Hf).
  pose proof (split_NoDup _ _ Hsp) as Hnd.
  assert (Hr : ∀ d, d ∈ [d1; d2; d3] → 0 ≤ d < 256).
  { intros d Hdd. eapply split_range; [exact Hsp|]. set_solver. }
  pose proof (Hr d1 ltac:(set_solver)) as R1. pose proof (Hr d2 ltac:(set_solver)) as R2.
  pose proof (Hr d3 ltac:(set_solver)) as R3.
  change (d1 :: d2 :: d3 :: free) with ([d1; d2; d3] ++ free) in *. rewrite <- app_assoc in Hnd.
  apply NoDup_app in Hnd as (Hn3 & Hdis & Hnd).
  exists (d_next y3). split; [by eapply submit_run|].
  set (c := Chain hdr d1 d2 d3).
  assert (Ep : (wait ++ [c]) ++ tak ++ fin ≡ₚ c :: (wait ++ tak ++ fin)) by solve_Permutation.
  assert (Hbd : zlen wait < 85).
  { apply chains_bound in Hsp. rewrite !zlen_app in Hsp. cbn in Hsp. unfold zlen in *. cbn in *. lia. }
  assert (Hreq : ∀ c', c' ∈ wait ++ tak ++ fin →
    vreqs (submitted hdr x d1 d2 d3 (d_next y3) s) !! c_hdr c' = vreqs s !! c_hdr c').
  { intros c' Hc'. cbn. apply lookup_insert_ne. intros ->. apply Hnew. by apply list_elem_of_fmap_2. }
  assert (Hoth : ∀ c' d, c' ∈ wait ++ tak ++ fin → d ∈ ids c' → d ∉ [d1; d2; d3]).
  { intros c' d Hc' Hd' Hin. apply (Hdis d Hin). apply elem_of_app. right. apply elem_of_all_ids. eauto. }
  change VIRTIO_DEFAULT_QUEUE_SIZE with 256 in *.
  split; cbn [vq set_vq set_notified set_vreqs submitted dev]; try done.
  - by apply linked_sizes.
  - cbn [free_desc linked set_avail set_virt set_free]. eapply free_path_ext; [|exact Hf].
    intros e z He Hz. exists z. split; [|done]. rewrite linked_desc by (done || (intros Hin; apply (Hdis e Hin); set_solver)).
    exact Hz.
  - rewrite Ep. change (all_ids (c :: ?l)) with ([d1; d2; d3] ++ all_ids l). etrans; [|exact Hsp]. solve_Permutation.
  - rewrite Ep. cbn. by apply NoDup_cons.
  - rewrite Ep. apply Forall_cons. split.
    + split; [done|]. exists (headed d1 x). cbn [vreqs submitted set_notified set_vq set_vreqs c_hdr c].
      rewrite lookup_insert_eq. split_and!; [done| |done]. by apply linked_describes.
    + rewrite Forall_forall in *. intros c' Hc'. eapply in_flight_frame; [by apply Hc|by apply Hreq| |].
      * intros d Hd'. apply linked_desc; try done. by eapply Hoth.
      * apply linked_virt; try done. eapply Hoth; [done|]. unfold ids. set_solver.
  - cbn [avail_idx linked set_avail]. rewrite Hw, zlen_app. unfold u16. rewrite Zplus_mod_idemp_l. f_equal.
    change (zlen [c]) with 1. lia.
  - change (avail_ring (linked hdr x d1 d2 d3 (d_next y3) (vq s)))
      with (<[Z.to_nat (avail_idx (vq s) mod 256) := d1]> (avail_ring (vq s))).
    intros k c' Hk. rewrite znth_insert by (rewrite so_avail0; apply Z.mod_pos_bound; lia).
    change VIRTIO_DEFAULT_QUEUE_SIZE with 256. apply lookup_snoc_Some in Hk as [[Hlt Hk]|[-> <-]].
    + rewrite (proj2 (Z.eqb_neq _ _)); [by apply Ha|]. rewrite Hw. intros E. clear - E Hlt Hbd Hdi.
      unfold u16, zlen in *. Z.div_mod_to_equations. lia.
    + rewrite (proj2 (Z.eqb_eq _ _)); [by eexists|]. rewrite Hw. unfold u16, zlen.
      clear. Z.div_mod_to_equations. lia.
  - rewrite Forall_forall in *. intros c' Hc'. eapply answered_frame; [by apply Hd|]. apply Hreq. set_solver.
Qed.
