(* ===== verification/VirtioIrq.v ===== *)
(** * The interrupt of the virtio disk while the device moves

    [virtio_blk_isr] ([Virtio]) reads [used->idx] before each turn of its loop and once more
    after it, and the device may move before every read: [bus] lists these moves, one batch
    for each read.  Here the service routine is followed through any such moves. *)

From S2P Require Export Virtio.

Definition chan_of (c : chain) : Z := c_hdr c + BLKREQ_OFFSET.

(** No completion. *)
Definition quiet (e : dev_event) : Prop := match e with DComplete _ _ => False | _ => True end.

Lemma qinv_frame i s s' free w t f :
  vq s' = vq s → vreqs s' = vreqs s → dev s' = dev s →
  qinv i s free w t f → qinv i s' free w t f.
Proof.
  intros E1 E2 E3 []. split; rewrite ?E1, ?E3; try done.
  - eapply Forall_impl; [done|]. intros c H. eapply in_flight_frame; [done|by rewrite E2|by rewrite E1..].
  - eapply Forall_impl; [done|]. intros c H. eapply answered_frame; [done|by rewrite E2].
Qed.

(** ** Moves of the device *)

(** From [s], with [w] waiting and [t] taken, to [s'], where [ext] of them are finished. *)
Record advanced (s : vdisk) (w t : list chain) (s' : vdisk) (w' t' ext : list chain) : Prop := {
  ad_perm : w' ++ t' ++ ext ≡ₚ w ++ t;
  ad_woken : vwoken s' = vwoken s;
  ad_bus : bus s' = bus s;
  ad_seen : seen_used (vq s') = seen_used (vq s);
  ad_reqs : ∀ a, vblkreq <$> vreqs s' !! a = vblkreq <$> vreqs s !! a;
  ad_other : ∀ a, a ∉ c_hdr <$> w ++ t → vreqs s' !! a = vreqs s !! a
}.

Lemma advanced_refl s w t : advanced s w t s w t [].
Proof. split; try done. by rewrite app_nil_r. Qed.

Lemma advanced_trans s w t s1 w1 t1 e1 s2 w2 t2 e2 :
  advanced s w t s1 w1 t1 e1 → advanced s1 w1 t1 s2 w2 t2 e2 →
  advanced s w t s2 w2 t2 (e1 ++ e2).
Proof.
  intros [P1 W1 B1 S1 R1 O1] [P2 W2 B2 S2 R2 O2]. split; try congruence.
  - rewrite <- P1, (app_assoc w1), <- P2. solve_Permutation.
  - intros a Ha. rewrite O2; [by apply O1|]. rewrite <- P1, app_assoc, fmap_app in Ha. set_solver.
Qed.

Lemma moves_reqs e s w t f s' w' t' f' a :
  moves e s w t f s' w' t' f' → vblkreq <$> vreqs s' !! a = vblkreq <$> vreqs s !! a.
Proof.
  intros Hm. apply moves_frame in Hm as (_ & _ & _ & _ & _ & _ & _ & Hd & Hv).
  destruct (vreqs s !! a) as [x|] eqn:E.
  - destruct (Hv a x E) as (x' & -> & Ex). cbn. by rewrite Ex.
  - assert (vreqs s' !! a = None) as ->; [|done]. apply not_elem_of_dom. rewrite Hd.
    by apply not_elem_of_dom.
Qed.

Lemma moves_advanced e s w t f s' w' t' f' :
  moves e s w t f s' w' t' f' →
  ∃ ext, f' = f ++ ext ∧ advanced s w t s' w' t' ext ∧ (quiet e → ext = []).
Proof.
  intros Hm. pose proof (λ a, moves_reqs _ _ _ _ _ _ _ _ _ a Hm) as Hr.
  pose proof (moves_frame _ _ _ _ _ _ _ _ _ Hm) as (_ & _ & _ & Hw & _ & Hb & Hs & _).
  destruct Hm as [c w t f ->|c good x w t1 t2 f -> Hx _|w t f _ _].
  - exists []. rewrite app_nil_r. split_and!; [done| |done]. split; try done.
    + solve_Permutation.
    + intros a _. unfold dev_take. by repeat case_match.
  - exists [c]. split_and!; [done| |done]. split; try done.
    + solve_Permutation.
    + intros a Ha. unfold completed. destruct (default _ _) as [med m]. cbn.
      apply lookup_insert_ne. rewrite !fmap_app, !fmap_cons in Ha. set_solver.
  - exists []. rewrite app_nil_r. split_and!; [done|apply advanced_refl|done].
Qed.

Definition dev_run (l : list dev_event) (s : vdisk) : vdisk := foldl (λ s e, dev_step e s) s l.

Lemma dev_run_moves i l : ∀ s free w t f, qinv i s free w t f →
  ∃ w' t' ext, advanced s w t (dev_run l s) w' t' ext ∧
    qinv i (dev_run l s) free w' t' (f ++ ext) ∧ (Forall quiet l → ext = []).
Proof.
  induction l as [|e l IH]; intros s free w t f Hq.
  { exists w, t, []. rewrite app_nil_r. split_and!; [apply advanced_refl|done..]. }
  destruct (dev_step_moves i e _ _ _ _ _ Hq) as (w1 & t1 & f1 & Hm & Hq1).
  destruct (moves_advanced _ _ _ _ _ _ _ _ _ Hm) as (e1 & -> & A1 & Q1).
  destruct (IH _ _ _ _ _ Hq1) as (w2 & t2 & e2 & A2 & Hq2 & Q2).
  exists w2, t2, (e1 ++ e2). rewrite app_assoc. split_and!; [by eapply advanced_trans|done|].
  intros [He Hl]%Forall_cons. by rewrite Q1, Q2.
Qed.

(** The next read of [used->idx], after the next batch of moves. *)
Lemma read_moves i s free w t f :
  qinv i s free w t f →
  ∃ s' w' t' ext, read_used_idx s = Ret (used_idx (vq s'), s') ∧
    advanced (set_bus (tail (bus s)) s) w t s' w' t' ext ∧ qinv i s' free w' t' (f ++ ext) ∧
    (Forall quiet (default [] (head (bus s))) → ext = []).
Proof.
  intros Hq. unfold read_used_idx. destruct (bus s) as [|l b] eqn:Eb.
  - exists s, w, t, []. rewrite app_nil_r. split_and!; [done| |done..].
    replace (set_bus (tail []) s) with s by (destruct s; cbn in *; by subst). apply advanced_refl.
  - assert (Hq1 : qinv i (set_bus b s) free w t f) by (by apply (qinv_frame _ s)).
    destruct (dev_run_moves i l _ _ _ _ _ Hq1) as (w' & t' & ext & A & Hq' & Q).
    exists (dev_run l (set_bus b s)), w', t', ext. by split_and!.
Qed.

(** ** The loop of the service routine *)

(** From [s], with [f] finished and [w], [t] in flight, to [s'], where the requests of [d] have
    been reaped: each is woken once, in order, and has the result the device wrote; the other
    requests are what they were. *)
Record reaping (s : vdisk) (w t f : list chain) (s' : vdisk) (d : list chain) : Prop := {
  re_woken : vwoken s' = reverse (chan_of <$> d) ++ vwoken s;
  re_seen : seen_used (vq s') = seen_used (vq s);
  re_done : ∀ c, c ∈ d → ∃ x, vreqs s' !! c_hdr c = Some (verdict x) ∧
    vblkreq <$> vreqs s !! c_hdr c = Some (vblkreq x) ∧
    (c ∈ f → vreqs s !! c_hdr c = Some x);
  re_rest : ∀ a, a ∉ c_hdr <$> d → vblkreq <$> vreqs s' !! a = vblkreq <$> vreqs s !! a;
  re_other : ∀ a, a ∉ c_hdr <$> w ++ t ++ f → vreqs s' !! a = vreqs s !! a
}.

Lemma reaping_none s b w t f s' w' t' ext :
  advanced (set_bus b s) w t s' w' t' ext → reaping s w t f s' [].
Proof.
  intros [_ W _ S R O]. split; try done.
  - by intros c ?%elem_of_nil.
  - intros a Ha. apply O. rewrite !fmap_app in *. set_solver.
Qed.

Lemma handled_reqs c s a :
  vreqs (handled c s) !! a = if decide (a = c_hdr c) then verdict <$> vreqs s !! a else vreqs s !! a.
Proof.
  cbn. case_decide; subst; [by rewrite lookup_alter_eq|by rewrite lookup_alter_ne].
Qed.

(** One turn: the moves before the test, the chain [c] reaped, and the rest of the loop. *)
Lemma reaping_step s b w t f s1 w1 t1 ext c f1 s' d :
  NoDup (c_hdr <$> w ++ t ++ f) → f ++ ext = c :: f1 →
  advanced (set_bus b s) w t s1 w1 t1 ext → is_Some (vreqs s1 !! c_hdr c) →
  reaping (handled c s1) w1 t1 f1 s' d → (∀ c', c' ∈ d → c' ∈ w1 ++ t1 ++ f1) →
  reaping s w t f s' (c :: d).
Proof.
  intros Hn Ef [P W _ S R O] [x Hx] [W' S' D' R' O'] Hd. cbn [vreqs vwoken set_bus vq] in *.
  assert (Ep : w1 ++ t1 ++ c :: f1 ≡ₚ w ++ t ++ f).
  { rewrite <- Ef, (app_assoc w), <- P. solve_Permutation. }
  assert (Hc : c_hdr c ∉ c_hdr <$> w1 ++ t1 ++ f1).
  { rewrite <- Ep in Hn. rewrite (app_assoc w1), <- Permutation_middle, <- app_assoc in Hn.
    by apply NoDup_cons in Hn as [? _]. }
  assert (Hf : ∀ c', c' ∈ f → vreqs s1 !! c_hdr c' = vreqs s !! c_hdr c').
  { intros c' Hc'. apply O. rewrite app_assoc, fmap_app in Hn.
    apply NoDup_app in Hn as (_ & Hn & _). intros H. apply (Hn _ H). by apply list_elem_of_fmap_2. }
  split.
  - rewrite W'. cbn [vwoken handled set_vwoken]. rewrite W, fmap_cons, reverse_cons, <- app_assoc. done.
  - by rewrite S', <- S.
  - intros c' [->|Hc']%elem_of_cons.
    + exists x. rewrite O' by done. rewrite handled_reqs, decide_True by done. rewrite Hx.
      split; [done|]. split; [by rewrite <- R, Hx|]. intros H. by rewrite <- Hf.
    + destruct (D' c' Hc') as (y & Hy & Hb & Hfy). exists y.
      assert (Hne : c_hdr c' ≠ c_hdr c).
      { intros E. apply Hc. rewrite <- E. apply list_elem_of_fmap_2. by apply Hd. }
      rewrite handled_reqs, decide_False in Hb, Hfy by done. split; [done|].
      split; [by rewrite <- R|]. intros H. rewrite <- Hf by done. apply Hfy.
      assert (Hin : c' ∈ c :: f1) by (rewrite <- Ef, elem_of_app; by left).
      apply elem_of_cons in Hin as [->|?]; [done|done].
  - intros a Ha. rewrite fmap_cons, not_elem_of_cons in Ha. destruct Ha as [Ha1 Ha2].
    rewrite R' by done. rewrite handled_reqs, decide_False by done. apply R.
  - intros a Ha. assert (Ha' : a ∉ c_hdr <$> w1 ++ t1 ++ c :: f1) by (by rewrite Ep).
    rewrite O'; [|rewrite !fmap_app, fmap_cons in *; set_solver].
    rewrite handled_reqs, decide_False by (rewrite !fmap_app, fmap_cons in Ha'; set_solver).
    apply O. rewrite !fmap_app in *. set_solver.
Qed.

Lemma isr_loop_moving fuel : ∀ i s free w t f,
  qinv i s free w t f → (length (w ++ t ++ f) < fuel)%nat →
  ∃ s' w' t' ext, isr_loop fuel i s = Ret (tt, s') ∧ w' ++ t' ++ ext ≡ₚ w ++ t ∧
    qinv ((i + zlen (f ++ ext)) mod 256) s' (give_back (f ++ ext) free) w' t' [] ∧
    reaping s w t f s' (f ++ ext) ∧ bus s' = drop (S (length (f ++ ext))) (bus s) ∧
    (Forall (Forall quiet) (bus s) → ext = []).
Proof.
  induction fuel as [|fuel IH]; intros i s free w t f Hq Hfuel; [lia|].
  destruct (read_moves i s free w t f Hq) as (s1 & w1 & t1 & e1 & Er & A & Hq1 & Q1).
  cbn [isr_loop]. mstep Er. erewrite (mbind_Ret _ _ s1) by reflexivity. cbv beta.
  pose proof (so_size _ (qi_sizes _ _ _ _ _ _ Hq1)) as Hsz. pose proof (qi_fin _ _ _ _ _ _ Hq1) as Hf.
  pose proof (qi_i _ _ _ _ _ _ Hq1) as Hi. pose proof (fin_bound _ _ _ _ _ _ Hq1) as Hbd.
  change VIRTIO_DEFAULT_QUEUE_SIZE with 256 in *. rewrite Hsz, Hf.
  pose proof (ad_perm _ _ _ _ _ _ _ A) as P. pose proof (ad_bus _ _ _ _ _ _ _ A) as B. cbn in B.
  assert (Hquiet : Forall (Forall quiet) (bus s) → e1 = []).
  { intros Hb. apply Q1. destruct Hb; [by apply Forall_nil|done]. }
  destruct (f ++ e1) as [|c f1] eqn:Ef.
  - rewrite Z.add_0_r, Z.mod_small, Z.eqb_refl by done.
    apply app_eq_nil in Ef as [-> ->]. exists s1, w1, t1, []. cbn [app length].
    rewrite Z.add_0_r, Z.mod_small by done. split_and!; try done.
    by eapply reaping_none.
  - replace (i =? (i + zlen (c :: f1)) mod 256) with false.
    2:{ symmetry. apply Z.eqb_neq. rewrite zlen_cons in *. pose proof (zlen_nonneg f1) as Hn. intros Ei.
        clear - Hi Hbd Ei Hn. Z.div_mod_to_equations. lia. }
    erewrite mbind_Ret by (by eapply handle_used_run).
    change (wrap (i + 1) 256) with (wrap (i + 1) VIRTIO_DEFAULT_QUEUE_SIZE). rewrite (wrap_256 i) by done.
    pose proof (handled_inv _ _ _ _ _ _ _ Hq1) as Hq2.
    assert (Hlen : (length (w1 ++ t1 ++ f1) < fuel)%nat).
    { apply (f_equal length) in Ef. apply Permutation_length in P.
      rewrite !length_app in *. cbn in Ef. lia. }
    destruct (IH _ _ _ _ _ _ Hq2 Hlen) as (s' & w' & t' & e2 & E & P2 & Hq' & Re & B2 & Q2).
    exists s', w', t', (e1 ++ e2). rewrite (app_assoc f), Ef. cbn [app].
    split_and!; [exact E| | | | |].
    + rewrite <- P, (app_assoc w1), <- P2. solve_Permutation.
    + rewrite mod_shift in Hq'. by rewrite zlen_cons.
    + pose proof (qi_done _ _ _ _ _ _ Hq1) as Ha. apply Forall_cons in Ha as [(x & Hx & _) _].
      eapply (reaping_step s _ w t f s1 w1 t1 e1 c f1); try done; [apply Hq|].
      intros c' Hc'. assert (Hin : c' ∈ w' ++ t' ++ e2 ∨ c' ∈ f1) by (rewrite !elem_of_app in *; tauto).
      destruct Hin as [Hin|?]; [rewrite P2 in Hin|]; rewrite !elem_of_app in *; tauto.
    + rewrite B2. change (bus (handled c s1)) with (bus s1). rewrite B. by destruct (bus s) as [|? [|??]].
    + intros Hb. rewrite Hquiet by done. apply Q2. change (bus (handled c s1)) with (bus s1). rewrite B.
      by destruct Hb; [apply Forall_nil|].
Qed.

(** ** The service routine *)

(** What the service routine does from [s] whatever the device does meanwhile: it reaps the
    requests [d] of those finished before ([f]) and during its loop ([ext]), and the requests
    [lost], finished between the last test of the loop and the read behind it, are passed
    over: they stay on the used ring in front of [seen_used]. *)
Record serves_interrupt (s : vdisk) (free : list Z) (w t f : list chain)
    (s' : vdisk) (w' t' ext lost : list chain) : Prop := {
  si_run : virtio_blk_isr s = Ret (IRQ_HANDLED, s');
  si_perm : w' ++ t' ++ ext ++ lost ≡ₚ w ++ t;
  si_reaps : vwoken s' = reverse (chan_of <$> f ++ ext) ++ vwoken s;
  si_result : ∀ c, c ∈ f ++ ext → ∃ x, vreqs s' !! c_hdr c = Some (verdict x) ∧
    vblkreq <$> vreqs s !! c_hdr c = Some (vblkreq x) ∧ (c ∈ f → vreqs s !! c_hdr c = Some x);
  si_rest : ∀ a, a ∉ c_hdr <$> f ++ ext → vblkreq <$> vreqs s' !! a = vblkreq <$> vreqs s !! a;
  si_queue : qinv ((seen_used (vq s) + zlen (f ++ ext)) mod 256) s'
    (give_back (f ++ ext) free) w' t' lost;
  si_seen : seen_used (vq s') = (seen_used (vq s) + zlen (f ++ ext ++ lost)) mod 256;
  si_bus : bus s' = drop (S (S (length (f ++ ext)))) (bus s);
  si_lost : Forall quiet (default [] (bus s !! S (length (f ++ ext)))) → lost = [];
  si_idle : Forall (Forall quiet) (bus s) → ext = []
}.

(** When nothing is passed over the invariant holds again. *)
Lemma serves_inv s free w t f s' w' t' ext :
  serves_interrupt s free w t f s' w' t' ext [] → disk_inv s' (give_back (f ++ ext) free) w' t' [].
Proof. intros H. unfold disk_inv. rewrite (si_seen _ _ _ _ _ _ _ _ _ _ H), app_nil_r. apply H. Qed.

Lemma head_drop {A} n (l : list A) : head (drop n l) = l !! n.
Proof. revert n. induction l as [|a l IH]; intros [|n]; [done..|]. cbn. apply IH. Qed.
Lemma tail_drop {A} n (l : list A) : tail (drop n l) = drop (S n) l.
Proof. revert n. induction l as [|a l IH]; intros [|n]; [done..|]. cbn [drop]. by rewrite IH. Qed.

Lemma isr_moving s free w t f :
  disk_inv s free w t f → ∃ s' w' t' ext lost, serves_interrupt s free w t f s' w' t' ext lost.
Proof.
  intros Hq. pose proof (so_size _ (qi_sizes _ _ _ _ _ _ Hq)) as Hsz.
  pose proof (chains_bound _ _ (qi_split _ _ _ _ _ _ Hq)) as Hbd.
  change VIRTIO_DEFAULT_QUEUE_SIZE with 256 in Hsz.
  destruct (isr_loop_moving (S (Z.to_nat (queue_size (vq s)))) _ s free w t f Hq)
    as (s1 & w1 & t1 & ext & E & P1 & Hq1 & [W1 S1 D1 R1 O1] & B1 & Q1).
  { rewrite Hsz. pose proof (zlen_nonneg free). unfold zlen in *. lia. }
  destruct (read_moves _ s1 _ _ _ _ Hq1) as (s2 & w2 & t2 & lost & Er & A & Hq2 & Q2).
  cbn [app] in Hq2. pose proof (qi_fin _ _ _ _ _ _ Hq2) as Hf2. destruct A as [P2 W2 B2 S2 R2 O2].
  cbn [vwoken vreqs vq set_bus bus] in *. change VIRTIO_DEFAULT_QUEUE_SIZE with 256 in *.
  set (s3 := set_vq (set_seen (used_idx (vq s2) mod 256) (vq s2)) s2).
  exists s3, w2, t2, ext, lost. split; cbn [vwoken vreqs vq set_vq bus s3 seen_used set_seen]; try done.
  - unfold virtio_blk_isr. erewrite (mbind_Ret _ _ s) by done. mstep E. mstep Er. by rewrite Hsz.
  - rewrite <- P1, (app_assoc w1), <- P2. solve_Permutation.
  - by rewrite W2, W1.
  - intros c Hc. destruct (D1 c Hc) as (x & Hx & ?). exists x. split; [|done].
    rewrite O2; [done|]. pose proof (qi_hdrs _ _ _ _ _ _ Hq) as Hn.
    assert (Ep : (w1 ++ t1) ++ f ++ ext ≡ₚ w ++ t ++ f).
    { rewrite (app_assoc w), <- P1. solve_Permutation. }
    rewrite <- Ep, fmap_app in Hn. apply NoDup_app in Hn as (_ & Hn & _).
    intros Hin. apply (Hn _ Hin). by apply list_elem_of_fmap_2.
  - intros a Ha. by rewrite R2, R1.
  - by apply qinv_seen.
  - rewrite Hf2, Zplus_mod_idemp_l, app_assoc, !zlen_app. f_equal. lia.
  - by rewrite B2, B1, tail_drop.
  - intros H. apply Q2. by rewrite B1, head_drop.
Qed.
