(* ===== verification/VirtioDisk.v ===== *)
(** * The virtio disk at work

    What the driver of [Virtio] guarantees: interrupts that reap the requests finished before
    the last test of their loop ([VirtioIrq] has the loop), submissions, the reachable states
    of driver and device together, and the termination of [blkdev_wait_all] ([Blk]) over any
    order of completions. *)

From S2P Require Export VirtioIrq.

(** ** Waiting *)

(** [l] takes [n] more chains, then finishes the one at [h] and then interrupts. *)
Fixpoint serves (n : nat) (h : Z) (l : list dev_event) : Prop :=
  match l with
  | [] => False
  | DTake :: l => serves (n - 1) h l
  | DComplete h' _ :: l => (n = 0%nat ∧ h' = h ∧ DIrq ∈ l) ∨ serves n h l
  | DIrq :: l => serves n h l
  end.

(** The moves [l] bring the request of [c] to its end, wherever it stands. *)
Definition staged (wait tak fin : list chain) (l : list dev_event) (c : chain) : Prop :=
  (∃ k, wait !! k = Some c ∧ serves (S k) (c_1 c) l) ∨
  (c ∈ tak ∧ serves 0 (c_1 c) l) ∨
  (c ∈ fin ∧ DIrq ∈ l).

Lemma serves_irq l : ∀ n h, serves n h l → DIrq ∈ l.
Proof.
  induction l as [|[|h' g|] l IH]; intros n h; cbn; [done| | |left].
  - intros H. right. by eapply IH.
  - intros [(_ & _ & H)|H]; right; [done|by eapply IH].
Qed.

Lemma elem_of_cons_irq e l : e ≠ DIrq → DIrq ∈ e :: l → DIrq ∈ l.
Proof. intros He [E|H]%elem_of_cons; [by subst|done]. Qed.

(** After a move of the device the rest of [l] still brings every request to its end. *)
Lemma staged_move e l s w t f s' w' t' f' c :
  e ≠ DIrq → moves e s w t f s' w' t' f' → NoDup (c_1 <$> w ++ t ++ f) →
  staged w t f (e :: l) c → staged w' t' f' l c.
Proof.
  intros He Hm Hn Hst.
  destruct Hm as [c0 w t f ->|c0 good x w t1 t2 f -> _ _|w t f Hi1 Hi2].
  - destruct Hst as [([|k] & Hk & Hsv)|[[Hc Hsv]|[Hc Hir]]].
    + injection Hk as ->. right. left. split; [apply elem_of_app; right; left|done].
    + left. exists k. split; [done|]. cbn [serves] in Hsv. by rewrite Nat.sub_succ, Nat.sub_0_r in Hsv.
    + right. left. split; [apply elem_of_app; by left|done].
    + right. right. split; [done|]. by eapply elem_of_cons_irq.
  - destruct Hst as [(k & Hk & Hsv)|[[Hc Hsv]|[Hc Hir]]].
    + left. exists k. split; [done|]. by destruct Hsv as [[? _]|Hsv].
    + destruct (decide (c = c0)) as [->|Hne].
      * right. right. split; [apply elem_of_app; right; left|].
        destruct Hsv as [(_ & _ & H)|H]; [done|by eapply serves_irq].
      * right. left. rewrite elem_of_app, elem_of_cons in Hc.
        split; [rewrite elem_of_app; naive_solver|]. destruct Hsv as [(_ & E & _)|H]; [|done].
        exfalso. clear - Hn E Hne Hc. rewrite (Permutation_app_comm w), <- !app_assoc, fmap_app in Hn.
        apply NoDup_app in Hn as (_ & N1 & Hn). cbn in Hn. apply NoDup_cons in Hn as [N2 _].
        destruct Hc as [Hc|[Hc|Hc]]; [|done|].
        -- apply (N1 (c_1 c)); [by apply list_elem_of_fmap_2|]. rewrite <- E. cbn. left.
        -- apply N2. rewrite E. apply list_elem_of_fmap_2. rewrite !elem_of_app. by left.
    + right. right. split; [apply elem_of_app; by left|]. by eapply elem_of_cons_irq.
  - destruct Hst as [(k & Hk & Hsv)|[[Hc Hsv]|[Hc Hir]]].
    + destruct e as [|h g|]; [by rewrite (Hi1 eq_refl) in Hk| |done].
      left. exists k. split; [done|]. by destruct Hsv as [[? _]|Hsv].
    + right. left. split; [done|]. destruct e as [|h g|]; [done| |done].
      destruct Hsv as [(_ & -> & _)|H]; [|done]. by destruct (Hi2 c g eq_refl).
    + right. right. split; [done|]. by eapply elem_of_cons_irq.
Qed.

Lemma reap_all_woken fin : ∀ s, vwoken (reap_all fin s) = reverse (chan_of <$> fin) ++ vwoken s.
Proof.
  induction fin as [|c fin IH]; intros s; [done|].
  change (reap_all (c :: fin) s) with (reap_all fin (handled c s)). rewrite IH.
  rewrite fmap_cons, reverse_cons, <- app_assoc. done.
Qed.

Lemma reap_all_reqs fin : ∀ s a, NoDup (c_hdr <$> fin) →
  vreqs (reap_all fin s) !! a =
    if decide (a ∈ c_hdr <$> fin) then verdict <$> vreqs s !! a else vreqs s !! a.
Proof.
  induction fin as [|c fin IH]; intros s a Hn.
  { rewrite decide_False; [done|]. by intros ?%elem_of_nil. }
  change (reap_all (c :: fin) s) with (reap_all fin (handled c s)).
  cbn in Hn. apply NoDup_cons in Hn as [Hc Hn]. rewrite IH by done. cbn [vreqs handled set_vwoken set_vreqs].
  destruct (decide (a = c_hdr c)) as [->|Hne].
  - rewrite decide_False by done. rewrite decide_True by (cbn; left). by rewrite lookup_alter_eq.
  - rewrite lookup_alter_ne by done. apply decide_ext. cbn. rewrite elem_of_cons. naive_solver.
Qed.

(** What the service routine leaves alone. *)
Lemma serviced_frame fin s :
  vlocks (serviced fin s) = vlocks s ∧ vrqs (serviced fin s) = vrqs s ∧
  vfresh (serviced fin s) = vfresh s ∧ events (serviced fin s) = events s ∧
  bus (serviced fin s) = bus s ∧ dev (serviced fin s) = dev s ∧ vmem (serviced fin s) = vmem s.
Proof.
  destruct (reap_all_vq fin s) as (_ & E1 & _ & E2 & E3 & E4 & E5 & E6 & E7).
  unfold serviced. cbn. by rewrite E1, E2, E3, E4, E5, E6, E7.
Qed.

Lemma qinv_events i v s free w t f : qinv i s free w t f → qinv i (set_events v s) free w t f.
Proof. by intros []. Qed.
Lemma disk_inv_fresh v s free w t f : disk_inv s free w t f → disk_inv (set_vfresh v s) free w t f.
Proof. by intros []. Qed.
Lemma disk_inv_events v s free w t f : disk_inv s free w t f → disk_inv (set_events v s) free w t f.
Proof. by intros []. Qed.
Lemma lock_free_events k v s : lock_free k s → lock_free k (set_events v s).
Proof. done. Qed.
Lemma qinv_woken i v s free w t f : qinv i s free w t f → qinv i (set_vwoken v s) free w t f.
Proof. by intros []. Qed.

Lemma hdrs_of_fin w t f : NoDup (c_hdr <$> w ++ t ++ f) → NoDup (c_hdr <$> f).
Proof. rewrite !fmap_app. intros H. apply NoDup_app in H as (_ & _ & H). by apply NoDup_app in H as (_ & _ & H). Qed.

(** The result a request has, if any. *)
Definition status_of (s : vdisk) (r : Z) : option Z :=
  (λ x, rq_status (vblkreq x)) <$> vreqs s !! get_vblkreq r.

Lemma verdict_status x : rq_status (vblkreq (verdict x)) ≠ BLKREQ_STATUS_INIT.
Proof. unfold verdict. cbn. by destruct (_ =? _). Qed.

Lemma get_vblkreq_chan c : get_vblkreq (chan_of c) = c_hdr c.
Proof. unfold chan_of. apply get_vblkreq_add. Qed.

(** A reaped request has a result. *)
Lemma serviced_result c s free w t f :
  disk_inv s free w t f → c ∈ f →
  ¬ (c_hdr c ∈ c_hdr <$> (w ++ t ++ [])) ∧
  ∃ v, status_of (serviced f s) (chan_of c) = Some v ∧ v ≠ BLKREQ_STATUS_INIT.
Proof.
  intros Hq Hc. pose proof (qi_hdrs _ _ _ _ _ _ Hq) as Hn. split.
  - rewrite app_nil_r. rewrite app_assoc, fmap_app in Hn. apply NoDup_app in Hn as (_ & Hn & _).
    intros H. apply (Hn _ H). by apply list_elem_of_fmap_2.
  - unfold status_of. change (vreqs (serviced f s)) with (vreqs (reap_all f s)).
    rewrite get_vblkreq_chan, reap_all_reqs by (by eapply hdrs_of_fin).
    rewrite decide_True by (by apply list_elem_of_fmap_2).
    pose proof (qi_chains _ _ _ _ _ _ Hq) as Hfl. rewrite Forall_forall in Hfl.
    destruct (Hfl c) as (_ & x & -> & _); [rewrite !elem_of_app; by right; right|].
    eexists. split; [done|apply verdict_status].
Qed.

(** A property of the disk and its chains that the moves of the device and the service routine
    keep, and that looks at none of the rest. *)
Record kept (J : vdisk → list chain → list chain → list chain → Prop) : Prop := {
  J_move e s w t f s' w' t' f' : moves e s w t f s' w' t' f' → J s w t f → J s' w' t' f';
  J_serve s free w t f : disk_inv s free w t f → J s w t f → J (serviced f s) w t [];
  J_events l s w t f : J s w t f → J (set_events l s) w t f;
  J_woken l s w t f : J s w t f → J (set_vwoken l s) w t f;
  J_locks e s w t f : J s w t f → J (set_vlocks e s) w t f
}.
Definition both (J G : vdisk → list chain → list chain → list chain → Prop) s w t f : Prop :=
  J s w t f ∧ G s w t f.

Lemma kept_both J G : kept J → kept G → kept (both J G).
Proof.
  intros HJ HG. split.
  - intros e s w t f s' w' t' f' Hm [H1 H2]. split; [by eapply (J_move J)|by eapply (J_move G)].
  - intros s free w t f Hq [H1 H2]. split; [by eapply (J_serve J)|by eapply (J_serve G)].
  - intros l s w t f [H1 H2]. split; [by apply (J_events J)|by apply (J_events G)].
  - intros l s w t f [H1 H2]. split; [by apply (J_woken J)|by apply (J_woken G)].
  - intros l s w t f [H1 H2]. split; [by apply (J_locks J)|by apply (J_locks G)].
Qed.

Section sleeping.
Context (J : vdisk → list chain → list chain → list chain → Prop) (HJ : kept J).

(** The moves in [l] bring every outstanding request to its end, and nothing else is going on. *)
Definition served (s : vdisk) (l : list dev_event) (w t f : list chain) : Prop :=
  bus s = [] ∧ (∃ free, disk_inv s free w t f) ∧ J s w t f ∧
  ∀ c, c ∈ w ++ t ++ f → staged w t f l c.

Lemma served_move e l s w t f : e ≠ DIrq → served s (e :: l) w t f →
  ∃ w' t' f', served (dev_step e s) l w' t' f' ∧ moves e s w t f (dev_step e s) w' t' f'.
Proof.
  intros He (Hb & (free & Hq) & HJs & Hst).
  destruct (dev_step_moves _ e _ _ _ _ _ Hq) as (w' & t' & f' & Hm & Hq').
  pose proof (moves_frame _ _ _ _ _ _ _ _ _ Hm) as (_ & _ & _ & _ & _ & Hb' & Hsu & _).
  exists w', t', f'. split; [|done]. split_and!.
  - by rewrite Hb'.
  - exists free. unfold disk_inv. by rewrite Hsu.
  - by eapply (J_move J).
  - intros c Hc. rewrite (moves_perm _ _ _ _ _ _ _ _ _ Hm) in Hc.
    eapply staged_move; [done|done| |by apply Hst]. eapply heads_NoDup, (qi_split _ _ _ _ _ _ Hq).
Qed.

Lemma served_isr l s w t f : served s (DIrq :: l) w t f →
  virtio_blk_isr s = Ret (IRQ_HANDLED, serviced f s) ∧ served (serviced f s) l w t [].
Proof.
  intros (Hb & (free & Hq) & HJs & Hst). destruct (isr_run s free w t f Hb Hq) as [E Hq'].
  split; [done|]. destruct (serviced_frame f s) as (_ & _ & _ & _ & Hb' & _).
  split_and!; [by rewrite Hb'|by eexists|by eapply (J_serve J)|].
  intros c Hc. rewrite app_nil_r in Hc.
  destruct (Hst c) as [(k & Hk & Hsv)|[[Hc' Hsv]|[Hc' _]]]; [|by left; exists k|by right; left|].
  - rewrite !elem_of_app in *. naive_solver.
  - (* a finished chain is no longer there *)
    exfalso. pose proof (split_NoDup _ _ (qi_split _ _ _ _ _ _ Hq)) as Hn.
    apply NoDup_app in Hn as (_ & _ & Hn). rewrite app_assoc, all_ids_app in Hn.
    apply NoDup_app in Hn as (_ & Hn & _). apply (Hn (c_1 c)); apply elem_of_all_ids; exists c;
      (split; [done|unfold ids; set_solver]).
Qed.

Lemma sleep_loop_run c l : ∀ s w t f,
  served s l w t f → c ∈ w ++ t ++ f → chan_of c ∉ vwoken s →
  ∃ s' w' t', sleep_loop l (chan_of c) s = Ret (tt, s') ∧ served s' (events s') w' t' [] ∧
    ¬ (c_hdr c ∈ c_hdr <$> (w' ++ t' ++ [])) ∧
    (∃ v, status_of s' (chan_of c) = Some v ∧ v ≠ BLKREQ_STATUS_INIT) ∧
    vlocks s' = vlocks s ∧ vrqs s' = vrqs s.
Proof.
  induction l as [|e l IH]; intros s w t f Hs Hc Hr.
  { destruct Hs as (_ & _ & _ & Hst). by destruct (Hst c Hc) as [(k & _ & [])|[[_ []]|[_ H%elem_of_nil]]]. }
  assert (Hs1 : served (set_events l s) (e :: l) w t f).
  { destruct Hs as (Hb & (free & Hq) & HJs & Hst). split_and!; [done| |by apply (J_events J)|done].
    exists free. by apply qinv_events. }
  cbn [sleep_loop]. erewrite mbind_Ret by done.
  destruct (decide (e = DIrq)) as [->|He].
  - destruct (served_isr l _ w t f Hs1) as [E Hs2].
    destruct (serviced_frame f (set_events l s)) as (F1 & F2 & _ & F4 & _).
    erewrite mbind_Ret by (mstep E; done). erewrite mbind_Ret by done.
    change (vwoken (serviced f (set_events l s))) with (vwoken (reap_all f (set_events l s))).
    rewrite reap_all_woken. destruct (decide (c ∈ f)) as [Hcf|Hcf].
    + rewrite bool_decide_true.
      2:{ apply elem_of_app. left. rewrite elem_of_reverse. by apply list_elem_of_fmap_2. }
      exists (serviced f (set_events l s)), w, t. split; [done|]. rewrite F1, F2, F4.
      destruct Hs1 as (_ & (free & Hq) & _).
      destruct (serviced_result c _ free w t f Hq Hcf) as [R1 R2]. done.
    + assert (Hnw : chan_of c ∉ reverse (chan_of <$> f) ++ vwoken (set_events l s)).
      { rewrite elem_of_app, elem_of_reverse. intros [(c' & E' & Hc')%list_elem_of_fmap|H]; [|done].
        destruct Hs as (_ & (free & Hq) & _). pose proof (qi_hdrs _ _ _ _ _ _ Hq) as Hn.
        apply Hcf. assert (c = c') as ->; [|done].
        assert (c_hdr c = c_hdr c') by (unfold chan_of, BLKREQ_OFFSET in E'; lia).
        apply list_elem_of_lookup in Hc as [k Hk].
        assert (Hc2 : c' ∈ w ++ t ++ f) by (rewrite !elem_of_app; by right; right).
        apply list_elem_of_lookup in Hc2 as [k' Hk'].
        assert (k = k'); [|by simplify_eq].
        eapply (NoDup_lookup _ _ _ (c_hdr c) Hn); rewrite list_lookup_fmap; [by rewrite Hk|rewrite Hk'; cbn; congruence]. }
      rewrite bool_decide_false by done.
      destruct (IH (serviced f (set_events l s)) w t []) as (s' & w' & t' & E' & Hs' & R1 & R2 & G1 & G2).
      * done.
      * rewrite !elem_of_app in *. naive_solver.
      * change (vwoken (serviced f (set_events l s))) with (vwoken (reap_all f (set_events l s))).
        by rewrite reap_all_woken.
      * exists s', w', t'. rewrite E', G1, G2, F1, F2. done.
  - destruct (served_move e l _ w t f He Hs1) as (w' & t' & f' & Hs2 & Hm).
    pose proof (moves_frame _ _ _ _ _ _ _ _ _ Hm) as (F1 & F2 & _ & F4 & _).
    assert (Em : (match e with DIrq => virtio_blk_isr;; mret tt | _ => modify (dev_step e) end)
      (set_events l s) = Ret (tt, dev_step e (set_events l s))) by (by destruct e).
    mstep Em. erewrite mbind_Ret by done. rewrite F4, bool_decide_false by done.
    destruct (IH (dev_step e (set_events l s)) w' t' f') as (s' & w2 & t2 & E' & Hs' & R1 & R2 & G1 & G2).
    + done.
    + by rewrite (moves_perm _ _ _ _ _ _ _ _ _ Hm).
    + by rewrite F4.
    + exists s', w2, t2. rewrite E', G1, G2, F1, F2. done.
Qed.
End sleeping.

(** ** The block layer on the disk *)

(** Every request of [L] is known, and in flight if it has no result; the results noted in [K]
    are final. *)
Definition tracked (L : list Z) (K : list (Z * Z)) (s : vdisk) (w t f : list chain) : Prop :=
  (∀ r, r ∈ L → ∃ v, status_of s r = Some v ∧ ctrue r = true ∧
    (v = BLKREQ_STATUS_INIT → get_vblkreq r ∈ c_hdr <$> w ++ t ++ f)) ∧
  (∀ r v, (r, v) ∈ K → status_of s r = Some v ∧ get_vblkreq r ∉ c_hdr <$> w ++ t ++ f).

Lemma tracked_move L K e s w t f s' w' t' f' :
  moves e s w t f s' w' t' f' → tracked L K s w t f → tracked L K s' w' t' f'.
Proof.
  intros Hm [HL HK]. pose proof (moves_perm _ _ _ _ _ _ _ _ _ Hm) as Ep.
  pose proof (moves_frame _ _ _ _ _ _ _ _ _ Hm) as (_ & _ & _ & _ & _ & _ & _ & _ & Hv).
  assert (Hst : ∀ r v, status_of s r = Some v → status_of s' r = Some v).
  { unfold status_of. intros r v (x & Hx & ->)%fmap_Some. apply Hv in Hx as (x' & -> & E). cbn. by rewrite E. }
  split.
  - intros r Hr. destruct (HL r Hr) as (v & Hs & Hz & Hin). exists v. split_and!; [by apply Hst|done|].
    intros E. rewrite Ep. by apply Hin.
  - intros r v Hr. destruct (HK r v Hr) as [Hs Hn]. split; [by apply Hst|]. by rewrite Ep.
Qed.

Lemma hdrs_app a w t f :
  a ∈ c_hdr <$> (w ++ t ++ f) ↔ a ∈ c_hdr <$> w ∨ a ∈ c_hdr <$> t ∨ a ∈ c_hdr <$> f.
Proof. by rewrite !fmap_app, !elem_of_app. Qed.
Lemma hdrs_nil a : a ∈ c_hdr <$> ([] : list chain) ↔ False.
Proof. apply elem_of_nil. Qed.

Lemma tracked_serve L K s free w t f :
  disk_inv s free w t f → tracked L K s w t f → tracked L K (serviced f s) w t [].
Proof.
  intros Hq [HL HK]. pose proof (hdrs_of_fin _ _ _ (qi_hdrs _ _ _ _ _ _ Hq)) as Hn.
  assert (Hst : ∀ r, status_of (serviced f s) r =
    if decide (get_vblkreq r ∈ c_hdr <$> f)
    then (λ x, rq_status (vblkreq (verdict x))) <$> vreqs s !! get_vblkreq r else status_of s r).
  { intros r. unfold status_of. change (vreqs (serviced f s)) with (vreqs (reap_all f s)).
    rewrite reap_all_reqs by done. case_decide; [|done]. by destruct (vreqs s !! get_vblkreq r). }
  split.
  - intros r Hr. destruct (HL r Hr) as (v & Hs & Hz & Hin). rewrite Hst. case_decide as Hd.
    + unfold status_of in Hs. apply fmap_Some in Hs as (x & -> & _). cbn. eexists. split_and!; [done..|].
      intros E. by apply verdict_status in E.
    + exists v. split_and!; [done..|]. intros E. specialize (Hin E). rewrite hdrs_app in *.
      rewrite hdrs_nil. tauto.
  - intros r v Hr. destruct (HK r v Hr) as [Hs Hnn]. rewrite Hst, decide_False.
    + split; [done|]. rewrite hdrs_app in *. rewrite hdrs_nil. tauto.
    + rewrite hdrs_app in Hnn. tauto.
Qed.

Lemma tracked_kept L K : kept (tracked L K).
Proof. split; [apply tracked_move|apply tracked_serve|done..]. Qed.

Lemma tracked_add L K s w t f r v :
  tracked L K s w t f → status_of s r = Some v → get_vblkreq r ∉ c_hdr <$> w ++ t ++ f →
  tracked L (K ++ [(r, v)]) s w t f.
Proof.
  intros [HL HK] Hs Hn. split; [done|]. intros r' v'. rewrite elem_of_app, list_elem_of_singleton.
  intros [H|[= -> ->]]; [by apply HK|done].
Qed.

Definition failed (K : list (Z * Z)) : Z := zlen (filter (λ p, p.2 ≠ BLKREQ_STATUS_OK) K).

Lemma failed_snoc K r v : failed (K ++ [(r, v)]) = failed K + (if v =? BLKREQ_STATUS_OK then 0 else 1).
Proof.
  unfold failed. rewrite filter_app, zlen_app. f_equal. rewrite filter_cons. cbn.
  destruct (Z.eqb_spec v BLKREQ_STATUS_OK) as [->|]; [by rewrite decide_False by (intros H; by apply H)|].
  by rewrite decide_True.
Qed.

Section block_layer.
Context (bdev size : Z).
Context (G : vdisk → list chain → list chain → list chain → Prop) (HG : kept G).
#[local] Instance drv : BlkDriver vdisk := virtio_blkdev bdev size.

Lemma wait_loop_run L l : ∀ K s w t f,
  served (both (tracked L K) G) s (events s) w t f → l ⊆ L → zlen K + zlen l < 2 ^ 31 →
  ∃ K' s' w' t' f', wait_loop l (failed K) s = Ret (failed K', s') ∧
    served (both (tracked L K') G) s' (events s') w' t' f' ∧ K'.*1 = K.*1 ++ l ∧
    vlocks s' = vlocks s ∧ vrqs s' = vrqs s.
Proof.
  induction l as [|r l IH]; intros K s w t f Hs Hl Hlen.
  { exists K, s, w, t, f. rewrite app_nil_r. done. }
  rewrite zlen_cons in Hlen. pose proof (zlen_nonneg l) as Hzl. cbn [wait_loop].
  assert (Hr : r ∈ L) by (apply Hl; left). assert (Hl' : l ⊆ L) by (intros y Hy; apply Hl; by right).
  assert (Hf : 0 ≤ failed K ≤ zlen K).
  { unfold failed, zlen. pose proof (length_filter (λ p : Z * Z, p.2 ≠ BLKREQ_STATUS_OK) K). lia. }
  destruct Hs as (Hb & (free & Hq) & HT & Hst). pose proof HT as [[HL _] _].
  destruct (HL r Hr) as (v & Hv & Hz & Hin). pose proof Hv as (x & Hx & Ev)%fmap_Some.
  rewrite Hz. erewrite (mbind_Ret (massert true) _ s) by done.
  assert (Hload : ∀ s1 x1, vreqs s1 !! get_vblkreq r = Some x1 → load_req r s1 = Ret (vblkreq x1, s1)).
  { intros s1 x1 H1. unfold load_req, mtry. cbn. by rewrite H1. }
  mstep (Hload s x Hx). rewrite <- Ev.
  (* go on in a state where the request has its result *)
  assert (Hgo : ∀ s1 w1 t1 f1, served (both (tracked L K) G) s1 (events s1) w1 t1 f1 →
    (∃ v1, status_of s1 r = Some v1 ∧ v1 ≠ BLKREQ_STATUS_INIT ∧ get_vblkreq r ∉ c_hdr <$> w1 ++ t1 ++ f1) →
    vlocks s1 = vlocks s → vrqs s1 = vrqs s →
    ∃ K' s' w' t' f',
      (x ← load_req r; wait_loop l (if rq_status x =? BLKREQ_STATUS_OK then failed K
                                    else i32 (failed K + 1))) s1 = Ret (failed K', s') ∧
      served (both (tracked L K') G) s' (events s') w' t' f' ∧ K'.*1 = K.*1 ++ r :: l ∧
      vlocks s' = vlocks s ∧ vrqs s' = vrqs s).
  { intros s1 w1 t1 f1 (Hb1 & Hq1 & HT1 & Hst1) (v1 & Hv1 & Hne & Hn1) G1 G2.
    pose proof Hv1 as (x1 & Hx1 & ->)%fmap_Some. mstep (Hload s1 x1 Hx1).
    destruct (IH (K ++ [(r, rq_status (vblkreq x1))]) s1 w1 t1 f1) as (K' & s' & w' & t' & f' & E & Hs' & EK & F1 & F2).
    - split_and!; try done. destruct HT1 as [HT1 HG1]. split; [by apply tracked_add|done].
    - done.
    - rewrite zlen_app. change (zlen [(r, rq_status (vblkreq x1))]) with 1. lia.
    - exists K', s', w', t', f'. rewrite failed_snoc in E. rewrite fmap_app, <- app_assoc in EK.
      split_and!; [|done|exact EK|congruence|congruence].
      rewrite <- E. destruct (_ =? _); [by rewrite Z.add_0_r|]. by rewrite i32_small by lia. }
  destruct (Z.eqb_spec v BLKREQ_STATUS_INIT) as [E0|E0]; cbn [mwhen].
  - specialize (Hin E0). apply list_elem_of_fmap in Hin as (c & Hc & Hin).
    assert (Er : r = chan_of c) by (unfold chan_of, get_vblkreq in *; lia).
    destruct (sleep_loop_run (both (tracked L K) G) (kept_both _ _ (tracked_kept L K) HG)
      c (events s) (set_vwoken [] s) w t f) as (s1 & w1 & t1 & E & Hs1 & R1 & (v1 & R2 & R3) & G1 & G2).
    + split_and!; [done| |by apply (J_woken _ (kept_both _ _ (tracked_kept L K) HG))|done].
      exists free. by apply qinv_woken.
    + done.
    + by intros ?%elem_of_nil.
    + assert (Esl : blkreq_sleep r s = Ret (tt, s1)).
      { unfold blkreq_sleep. rewrite Hz. erewrite (mbind_Ret (massert true) _ s) by done.
        cbn [req_sleep drv virtio_blkdev]. unfold virtio_sleep. rewrite <- E, Er. reflexivity. }
      mstep Esl. apply (Hgo s1 w1 t1 [] Hs1); [|done|done]. exists v1. rewrite Er, get_vblkreq_chan. done.
  - apply (Hgo s w t f); [by split_and!; eauto| |done|done].
    exists v. split_and!; [done..|]. intros Hin'. apply E0. apply list_elem_of_fmap in Hin' as (c & Hc & Hin').
    pose proof (qi_chains _ _ _ _ _ _ Hq) as Hfl. rewrite Forall_forall in Hfl.
    destruct (Hfl c Hin') as (_ & y & Hy & _ & Hyi). rewrite Hc in Hx. congruence.
Qed.

End block_layer.

Section requests_on_disk.
Context (bdev size : Z).
#[local] Instance drv_rq : BlkDriver vdisk := virtio_blkdev bdev size.

(** Taking a request from the driver and submitting it. *)
Definition io_request (sec buf n : Z) (write : bool) : blkreq :=
  Blkreq (if write then BLKREQ_TYPE_WRITE else BLKREQ_TYPE_READ) sec n buf BLKREQ_STATUS_INIT bdev 0.

Lemma blkreq_alloc_run s a junk fr sec buf n write :
  vfresh s = (a, junk) :: fr → 0 < a →
  blkreq_alloc sec buf n write s =
    Ret (a + BLKREQ_OFFSET,
         set_vreqs (<[a := set_vblkreq (io_request sec buf n write) junk]> (vreqs s)) (set_vfresh fr s)).
Proof.
  intros Hf Ha. assert (H1 : ctrue a = true) by (unfold ctrue; by destruct (Z.eqb_spec a 0); [lia|]).
  assert (H2 : ctrue (a + BLKREQ_OFFSET) = true).
  { unfold ctrue, BLKREQ_OFFSET. by destruct (Z.eqb_spec (a + 24) 0); [lia|]. }
  unfold blkreq_alloc. cbn [op_alloc dev_ops drv virtio_blkdev virtio_blk_ops].
  assert (E : virtio_blk_alloc bdev s = Ret (a + BLKREQ_OFFSET,
    set_vreqs (<[a := set_vblkreq (Blkreq BLKREQ_TYPE_READ 0 0 0 BLKREQ_STATUS_INIT bdev 0) junk]> (vreqs s))
      (set_vfresh fr s))).
  { unfold virtio_blk_alloc. erewrite (mbind_Ret _ _ s) by done. rewrite Hf.
    erewrite mbind_Ret by reflexivity. rewrite H1. cbn [mwhen]. erewrite mbind_Ret by reflexivity.
    assert (Ei : ∀ s1, vreqs s1 !! a = Some junk →
      blkreq_init (a + BLKREQ_OFFSET) bdev s1 = Ret (tt, set_vreqs (<[a := set_vblkreq
        (Blkreq BLKREQ_TYPE_READ 0 0 0 BLKREQ_STATUS_INIT bdev 0) junk]> (vreqs s1)) s1)).
    { intros s1 Hj. unfold blkreq_init. rewrite H2. erewrite (mbind_Ret (massert true) _ s1) by done.
      by rewrite (upd_req_run a junk). }
    erewrite mbind_Ret by (apply Ei; cbn; apply lookup_insert_eq). cbn. by rewrite insert_insert_eq. }
  mstep E. rewrite H2. cbn [negb].
  erewrite mbind_Ret by (apply upd_req_run; cbn; apply lookup_insert_eq).
  erewrite mbind_Ret by (apply upd_req_run; cbn; apply lookup_insert_eq).
  cbn. rewrite !insert_insert_eq. by destruct write.
Qed.

(** A fresh request does not disturb the queue. *)
Lemma qinv_fresh i s a x free w t f :
  a ∉ c_hdr <$> w ++ t ++ f → qinv i s free w t f →
  qinv i (set_vreqs (<[a := x]> (vreqs s)) s) free w t f.
Proof.
  intros Hn []. split; try done.
  - rewrite Forall_forall in *. intros c Hc. eapply in_flight_frame; [by apply qi_chains| |done..].
    cbn. apply lookup_insert_ne. intros ->. apply Hn. by apply list_elem_of_fmap_2.
  - rewrite Forall_forall in *. intros c Hc. eapply answered_frame; [by apply qi_done|].
    cbn. apply lookup_insert_ne. intros ->. apply Hn. apply list_elem_of_fmap_2.
    rewrite !elem_of_app. by right; right.
Qed.

(** The state in which the driver is asked to submit a fresh request. *)
Definition prepared (a : Z) (junk : virtio_blk_req) fr sec buf n write (s : vdisk) : vdisk :=
  set_vrqs (a + BLKREQ_OFFSET :: vrqs s) (set_vlocks (touched (vlocks s))
    (set_vreqs (<[a := set_vblkreq (io_request sec buf n write) junk]> (vreqs s)) (set_vfresh fr s))).

Lemma request_submits s a junk fr sec buf n write :
  vfresh s = (a, junk) :: fr → 0 < a → lock_free 0 s →
  (r ← blkreq_alloc sec buf n write; blkdev_submit_req r) s =
    virtio_blk_submit (a + BLKREQ_OFFSET) (prepared a junk fr sec buf n write s).
Proof.
  intros Hfr Ha Hlk. mstep (blkreq_alloc_run s a junk fr sec buf n write Hfr Ha).
  set (s1 := set_vreqs _ _). unfold blkdev_submit_req.
  assert (H2 : ctrue (a + BLKREQ_OFFSET) = true).
  { unfold ctrue, BLKREQ_OFFSET. by destruct (Z.eqb_spec (a + 24) 0); [lia|]. }
  rewrite H2. erewrite (mbind_Ret (massert true) _ s1) by done.
  mstep (acquire_ok 0 s1 Hlk). erewrite mbind_Ret by reflexivity.
  erewrite mbind_Ret by (apply (release_ok 0 s1); [exact Hlk|reflexivity]). done.
Qed.

Lemma in_flight_known s a i free w t f :
  qinv i s free w t f → vreqs s !! a = None → a ∉ c_hdr <$> w ++ t ++ f.
Proof.
  intros Hq Hn (c & -> & Hc)%list_elem_of_fmap. pose proof (qi_chains _ _ _ _ _ _ Hq) as Hfl.
  rewrite Forall_forall in Hfl. destruct (Hfl c Hc) as (_ & x & Hx & _). congruence.
Qed.

Lemma prepared_inv s a junk fr sec buf n write free w t f :
  vreqs s !! a = None → disk_inv s free w t f →
  disk_inv (prepared a junk fr sec buf n write s) free w t f.
Proof.
  intros Hn Hq. pose proof (in_flight_known _ _ _ _ _ _ _ Hq Hn) as Hnf.
  apply (qinv_frame _ (set_vreqs (<[a := set_vblkreq (io_request sec buf n write) junk]> (vreqs s)) s));
    [done..|]. by apply qinv_fresh.
Qed.

(** Asking for [n] bytes at sector [sec] offers a chain to the device. *)
Lemma request_run s a junk fr sec buf n write d1 d2 d3 free w t f :
  vfresh s = (a, junk) :: fr → 0 < a → vreqs s !! a = None → lock_free 0 s →
  ctrue (Z.land n (VIRTIO_BLK_SECTOR_SIZE - 1)) = false →
  disk_inv s (d1 :: d2 :: d3 :: free) w t f →
  ∃ next, let s0 := prepared a junk fr sec buf n write s in
    let s' := submitted a (set_vblkreq (io_request sec buf n write) junk) d1 d2 d3 next s0 in
    (r ← blkreq_alloc sec buf n write; blkdev_submit_req r) s = Ret (tt, s') ∧
    disk_inv s' free (w ++ [Chain a d1 d2 d3]) t f ∧ lock_free 0 s'.
Proof.
  intros Hfr Ha Hn Hlk Hal Hq. pose proof (in_flight_known _ _ _ _ _ _ _ Hq Hn) as Hnf.
  set (x := set_vblkreq (io_request sec buf n write) junk).
  apply (prepared_inv s a junk fr sec buf n write) in Hq; [|done].
  destruct (submit_inv _ _ d1 d2 d3 free w t f a x Hq) as (next & E & Hq');
    [apply lookup_insert_eq|done..|].
  exists next. cbv zeta. rewrite (request_submits s a junk fr) by done.
  split_and!; [exact E|exact Hq'|exact (lock_free_lset 0 s s Hlk)].
Qed.
End requests_on_disk.

(** ** Running out of descriptors *)


(** An operation on a part changes only that part. *)
Lemma zoom_inv {S T A} (l : lens S T) (m : M T A) s a s' :
  zoom l m s = Ret (a, s') → ∃ t, s' = lset l t s.
Proof. unfold zoom. destruct (m _) as [[b t]| | |]; intros; simplify_eq. by exists t. Qed.

Lemma on_q_fault {A} (m : M virtq_info A) s : m (vq s) = Fault → on_q m s = Fault.
Proof. intros H. unfold on_q, zoom. cbn. by rewrite H. Qed.

Lemma virtq_alloc_desc_fault addr q :
  znth (desc q) (free_desc q) = None → virtq_alloc_desc addr q = Fault.
Proof. intros H. unfold virtq_alloc_desc, get_desc. munfold. by rewrite H. Qed.

Lemma znth_end {A} (l : list A) i : zlen l ≤ i → znth l i = None.
Proof.
  intros H. unfold znth. case_decide; [|done]. apply lookup_ge_None_2. unfold zlen in H. lia.
Qed.

Lemma submit_fault s hdr x free :
  sizes_ok (vq s) → free_path (vq s) (free_desc (vq s)) free → NoDup free → zlen free < 3 →
  vreqs s !! hdr = Some x →
  ctrue (Z.land (rq_size (vblkreq x)) (VIRTIO_BLK_SECTOR_SIZE - 1)) = false →
  virtio_blk_submit (hdr + BLKREQ_OFFSET) s = Fault.
Proof.
  intros Hs Hf Hnd Hlen Hx Hal. destruct Hs. change VIRTIO_DEFAULT_QUEUE_SIZE with 256 in *.
  destruct s as [lks mem fr rqs reqs [pf su fd vd va vu ds ai ar ui ur dv qn qs] wk nt dv0 ev bs].
  assert (Hd : ∀ d y, znth ds d = Some y → 0 ≤ d < 256).
  { intros d y H. apply znth_Some in H as [? H]. apply lookup_lt_Some in H. unfold zlen in *. cbn in *. lia. }
  cbn in so_size, so_desc, so_virt, Hx, Hf.
  assert (Hend : znth ds 256 = None) by (apply znth_end; lia).
  unfold virtio_blk_submit. rewrite get_vblkreq_add. cbv zeta.
  erewrite mbind_Ret by (unfold mtry; cbn [vreqs]; rewrite Hx; done). rewrite Hal.
  erewrite mbind_Ret by (by apply upd_vreq_run). qsimpl.
  destruct free as [|d1 free]; cbn in Hf.
  { apply mbind_Fault, on_q_fault, virtq_alloc_desc_fault. qsimpl. by rewrite Hf. }
  destruct Hf as (F1 & y1 & Y1 & Hf). cbn in Y1. pose proof (Hd _ _ Y1) as R1.
  erewrite mbind_Ret by (apply on_q_run; qsimpl; apply virtq_alloc_desc_run; qsimpl; [lia|rewrite F1; exact Y1]).
  qsimpl. rewrite F1. cbv beta.
  erewrite mbind_Ret by (apply upd_vreq_run; qsimpl; apply lookup_insert_eq). cbv beta. qsimpl.
  do 2 qstep.
  destruct free as [|d2 free]; cbn in Hf.
  { apply mbind_Fault, on_q_fault, virtq_alloc_desc_fault. qsimpl. rewrite !znth_alter by lia.
    rewrite Hf, (proj2 (Z.eqb_neq _ d1)) by (unfold VIRTIO_DEFAULT_QUEUE_SIZE; lia). exact Hend. }
  destruct Hf as (F2 & y2 & Y2 & Hf). cbn in Y2. pose proof (Hd _ _ Y2) as R2.
  rewrite !NoDup_cons in Hnd. destruct Hnd as (N1 & N2 & _).
  assert (N12 : d1 ≠ d2) by set_solver.
  erewrite mbind_Ret.
  2:{ apply on_q_run, virtq_alloc_desc_run; qsimpl; [rewrite ?zlen_insert, ?zlen_alter; lia|].
      rewrite !znth_alter by lia. rewrite F2, (proj2 (Z.eqb_neq d2 d1)) by lia. exact Y2. }
  qsimpl. rewrite F2. cbv beta.
  do 2 qstep.
  destruct free as [|d3 free]; [|unfold zlen in Hlen; cbn in Hlen; lia]. cbn in Hf.
  apply mbind_Fault, on_q_fault, virtq_alloc_desc_fault. qsimpl. rewrite !znth_alter by lia.
  rewrite Hf, (proj2 (Z.eqb_neq _ d1)), (proj2 (Z.eqb_neq _ d2)) by (unfold VIRTIO_DEFAULT_QUEUE_SIZE; lia).
  exact Hend.
Qed.

(** ** Freeing finished requests *)

Section freeing.
Context (bdev size : Z).
#[local] Instance drv' : BlkDriver vdisk := virtio_blkdev bdev size.

Lemma free_loop_inv i l : ∀ s s' free w t f,
  qinv i s free w t f → free_loop l s = Ret (tt, s') →
  qinv i s' free w t f ∧ vq s' = vq s ∧ bus s' = bus s ∧ vlocks s' = vlocks s.
Proof.
  induction l as [|r l IH]; intros s s' free w t f Hq; cbn [free_loop].
  { intros [= <-]. done. }
  intros (x & s1 & Hx & E)%mbind_inv. unfold load_req, mtry in Hx. cbn in Hx.
  destruct (vreqs s !! get_vblkreq r) as [y|] eqn:Hy; [|done]. injection Hx as <- <-.
  destruct (Z.eqb_spec (rq_status (vblkreq y)) BLKREQ_STATUS_OK) as [Est|]; cbn [negb] in E.
  - apply mbind_inv in E as ([] & s2 & E2 & E).
    change (op_free dev_ops r) with (virtio_blk_free r) in E2.
    unfold virtio_blk_free, rq_remove in E2. munfold. rewrite Hy in E2. injection E2 as <-.
    assert (Hn : get_vblkreq r ∉ c_hdr <$> w ++ t ++ f).
    { intros (c & Hc & Hin)%list_elem_of_fmap. pose proof (qi_chains _ _ _ _ _ _ Hq) as Hfl.
      rewrite Forall_forall in Hfl. destruct (Hfl c Hin) as (_ & z & Hz & _ & Hi).
      rewrite <- Hc, Hy in Hz. injection Hz as <-. rewrite Est in Hi. done. }
    set (s2 := set_vrqs _ _) in E. cut (qinv i s2 free w t f).
    { intros Hq2. by destruct (IH _ _ _ _ _ _ Hq2 E) as (H1 & -> & -> & ->). }
    destruct Hq. split; try done.
    + rewrite Forall_forall in *. intros c Hc. eapply in_flight_frame; [by apply qi_chains| |done..].
      cbn. apply lookup_delete_ne. intros E1. apply Hn. rewrite E1. by apply list_elem_of_fmap_2.
    + rewrite Forall_forall in *. intros c Hc. eapply answered_frame; [by apply qi_done|].
      cbn. apply lookup_delete_ne. intros E1. apply Hn. rewrite E1. apply list_elem_of_fmap_2.
      rewrite !elem_of_app. by right; right.
  - apply mbind_inv in E as ([] & s2 & [= <-] & E). by apply (IH s s').
Qed.
End freeing.

(** ** Layout *)

Lemma ALIGN_eq x : 0 ≤ x < 2 ^ 32 - 4096 → ALIGN x VIRTIO_DEFAULT_ALIGN = (x + 4095) - (x + 4095) mod 4096.
Proof.
  intros Hx. unfold ALIGN, VIRTIO_DEFAULT_ALIGN. rewrite u32_small by lia.
  change (Z.lnot (4096 - 1)) with (Z.lnot (Z.ones 12)). rewrite <- Z.ldiff_land, Z.ldiff_ones_r by lia.
  rewrite Z.shiftr_div_pow2, Z.shiftl_mul_pow2 by lia. change (2 ^ 12) with 4096.
  change (4096 - 1) with 4095. clear. Z.div_mod_to_equations. lia.
Qed.

(** For every queue of up to 32768 entries, [virtq_create] on an aligned block of
    [virtq_size] bytes passes its assertions and lays the descriptor table, the available ring
    and the used ring one after the other inside the block, the used ring on a page
    boundary. *)
Theorem virtq_create_layout (base qsz : Z) (q : virtq_info) :
  0 < qsz ≤ 2 ^ 15 → queue_size q = qsz → 0 < base → base mod 4096 = 0 →
  base + virtq_size qsz < 2 ^ 64 →
  ∃ q', virtq_create base q = Ret (tt, q') ∧ v_desc q' = base ∧
    v_desc q' + 16 * qsz = v_avail q' ∧ v_avail q' + (4 + 2 * qsz) ≤ v_used q' ∧
    v_used q' mod 4096 = 0 ∧ v_used q' + (4 + 8 * qsz) ≤ base + virtq_size qsz ∧
    zlen (desc q') = qsz ∧ zlen (avail_ring q') = qsz ∧ zlen (used_ring q') = qsz.
Proof.
  intros Hq Hs Hb Hm Hend.
  assert (E1 : virtq_desc_size qsz = 16 * qsz) by (apply u32_small; lia).
  assert (E2 : virtq_avail_size qsz = 4 + 2 * qsz) by (apply u32_small; lia).
  assert (E3 : virtq_used_size qsz = 4 + 8 * qsz) by (apply u32_small; lia).
  set (b := 16 * qsz + (4 + 2 * qsz)). assert (Eb : b = 16 * qsz + (4 + 2 * qsz)) by done.
  assert (E4 : ALIGN (u32 (virtq_desc_size qsz + virtq_avail_size qsz)) VIRTIO_DEFAULT_ALIGN =
    b + 4095 - (b + 4095) mod 4096).
  { rewrite E1, E2, u32_small by lia. apply ALIGN_eq. lia. }
  assert (E5 : virtq_size qsz = (b + 4095 - (b + 4095) mod 4096) +
    (4 + 8 * qsz + 4095 - (4 + 8 * qsz + 4095) mod 4096)).
  { unfold virtq_size. rewrite E4, E3, ALIGN_eq by lia. apply u32_small.
    pose proof (Z.mod_pos_bound (b + 4095) 4096). pose proof (Z.mod_pos_bound (4 + 8 * qsz + 4095) 4096). lia. }
  pose proof (Z.mod_pos_bound (b + 4095) 4096 ltac:(lia)) as M1.
  pose proof (Z.mod_pos_bound (4 + 8 * qsz + 4095) 4096 ltac:(lia)) as M2.
  assert (M3 : 4096 ≤ 4 + 8 * qsz + 4095 - (4 + 8 * qsz + 4095) mod 4096).
  { clear - Hq. Z.div_mod_to_equations. lia. }
  assert (E6 : virtq_pad qsz = b + 4095 - (b + 4095) mod 4096 - b).
  { unfold virtq_pad. rewrite E4, E1, E2, (u32_small (16 * qsz + _)) by lia. apply u32_small. lia. }
  set (used := base + (b + 4095 - (b + 4095) mod 4096)).
  assert (Eu : used = base + (b + 4095 - (b + 4095) mod 4096)) by done. rewrite E5 in Hend.
  assert (E7 : u64 (base + 16 * qsz) = base + 16 * qsz) by (apply u64_small; lia).
  assert (E8 : Z.land (u64 (base + 16 * qsz + (4 + 2 * qsz) + (VIRTIO_DEFAULT_ALIGN - 1)))
    (Z.lnot (VIRTIO_DEFAULT_ALIGN - 1)) = used).
  { unfold VIRTIO_DEFAULT_ALIGN. rewrite u64_small by lia.
    change (Z.lnot (4096 - 1)) with (Z.lnot (Z.ones 12)). rewrite <- Z.ldiff_land, Z.ldiff_ones_r by lia.
    rewrite Z.shiftr_div_pow2, Z.shiftl_mul_pow2 by lia. change (2 ^ 12) with 4096. unfold used.
    clear - Hm. subst b. Z.div_mod_to_equations. lia. }
  assert (Hal : Z.land base (VIRTIO_DEFAULT_ALIGN - 1) = 0).
  { unfold VIRTIO_DEFAULT_ALIGN. change (4096 - 1) with (Z.ones 12). by rewrite Z.land_ones by lia. }
  assert (Hz : ctrue base = true) by (unfold ctrue; by destruct (Z.eqb_spec base 0); [lia|]).
  unfold virtq_create. erewrite (mbind_Ret _ _ q) by reflexivity. rewrite Hs.
  rewrite (proj2 (Z.eqb_neq qsz 0)) by lia. cbn [negb]. erewrite (mbind_Ret (massert true) _ q) by reflexivity.
  rewrite Hal. cbn [Z.eqb]. erewrite (mbind_Ret (massert true) _ q) by reflexivity.
  rewrite Hz. erewrite (mbind_Ret (massert true) _ q) by reflexivity.
  cbv zeta. rewrite E1, E2, E6, E7, E8.
  rewrite (u64_small (base + 16 * qsz + _ + _)) by lia.
  replace (base + 16 * qsz + (4 + 2 * qsz) + (b + 4095 - (b + 4095) mod 4096 - b)) with used by lia.
  rewrite Z.eqb_refl. erewrite (mbind_Ret (massert true) _ q) by reflexivity.
  eexists. split; [reflexivity|]. cbn [v_desc v_avail v_used desc avail_ring used_ring].
  split_and!; try done.
  - lia.
  - unfold used. clear - Hm. Z.div_mod_to_equations. lia.
  - lia.
  - unfold chained, zlen. rewrite length_fmap, length_seqZ. lia.
  - unfold zlen. rewrite length_replicate. lia.
  - unfold zlen. rewrite length_replicate. lia.
Qed.

(** ** The theorems on the driver *)

(** C19: The service routine, whatever moves the device makes between its reads of
    [used->idx].  It returns and reaps, in the order of the used ring, the requests finished
    before it started ([fin]) and those finished up to the last test of its loop ([ext]):
    each is woken once and gets the result the device wrote, its descriptors are free again,
    and no other request changes.  The requests finished between that test and the read of
    [used->idx] behind the loop ([lost], which the batch of moves in front of that read
    completes) are passed over: [seen_used] moves behind them.  If there are none, the
    invariant of the disk holds again. *)
Theorem virtio_blk_isr_spec (s : vdisk) (free : list Z) (wait tak fin : list chain) :
  disk_inv s free wait tak fin →
  ∃ s' wait' tak' ext lost, virtio_blk_isr s = Ret (IRQ_HANDLED, s') ∧
    wait' ++ tak' ++ ext ++ lost ≡ₚ wait ++ tak ∧
    vwoken s' = reverse (chan_of <$> fin ++ ext) ++ vwoken s ∧
    (∀ c, c ∈ fin ++ ext → ∃ x, vreqs s' !! c_hdr c = Some (verdict x) ∧
       vblkreq <$> vreqs s !! c_hdr c = Some (vblkreq x) ∧
       (c ∈ fin → vreqs s !! c_hdr c = Some x)) ∧
    (∀ a, a ∉ c_hdr <$> fin ++ ext → vblkreq <$> vreqs s' !! a = vblkreq <$> vreqs s !! a) ∧
    qinv ((seen_used (vq s) + zlen (fin ++ ext)) mod 256) s'
      (give_back (fin ++ ext) free) wait' tak' lost ∧
    seen_used (vq s') = (seen_used (vq s) + zlen (fin ++ ext ++ lost)) mod 256 ∧
    (Forall quiet (default [] (bus s !! S (length (fin ++ ext)))) → lost = []) ∧
    (Forall (Forall quiet) (bus s) → ext = []) ∧
    (lost = [] → disk_inv s' (give_back (fin ++ ext) free) wait' tak' []).
Proof.
  intros Hq. destruct (isr_moving s free wait tak fin Hq) as (s' & w' & t' & ext & lost & H).
  exists s', w', t', ext, lost. pose proof H as []. split_and!; try done.
  intros ->. by eapply serves_inv.
Qed.

Lemma virtio_blk_submit_aux s free wait tak fin hdr x :
  disk_inv s free wait tak fin → vreqs s !! hdr = Some x → 0 < hdr → hdr ∉ c_hdr <$> wait ++ tak ++ fin →
  rq_status (vblkreq x) = BLKREQ_STATUS_INIT →
  ctrue (Z.land (rq_size (vblkreq x)) (VIRTIO_BLK_SECTOR_SIZE - 1)) = false →
  match free with
  | d1 :: d2 :: d3 :: free' =>
      ∃ s', virtio_blk_submit (hdr + BLKREQ_OFFSET) s = Ret (tt, s') ∧ bus s' = bus s ∧
        disk_inv s' free' (wait ++ [Chain hdr d1 d2 d3]) tak fin ∧
        vreqs s' = <[hdr := headed d1 x]> (vreqs s)
  | _ => virtio_blk_submit (hdr + BLKREQ_OFFSET) s = Fault
  end.
Proof.
  intros Hq Hx Hp Hn Hst Hal.
  assert (Hf : zlen free < 3 → virtio_blk_submit (hdr + BLKREQ_OFFSET) s = Fault).
  { intros Hl. eapply submit_fault; [apply Hq|apply Hq| |done|done|done].
    pose proof (split_NoDup _ _ (qi_split _ _ _ _ _ _ Hq)) as H. by apply NoDup_app in H as (? & _ & _). }
  destruct free as [|d1 [|d2 [|d3 free]]]; try (apply Hf; unfold zlen; cbn; lia).
  destruct (submit_inv _ s d1 d2 d3 free wait tak fin hdr x Hq Hx Hp Hn Hst Hal) as (next & E & Hq').
  by exists (submitted hdr x d1 d2 d3 next s).
Qed.

(** Submitting takes three descriptors: with three free ones the chain of the request is
    offered to the device; with fewer the driver, which only logs, goes on with a descriptor
    behind the end of the table. *)
Theorem virtio_blk_submit_spec (s : vdisk) (free : list Z) (wait tak fin : list chain) (hdr : Z) (x : virtio_blk_req) :
  disk_inv s free wait tak fin → vreqs s !! hdr = Some x → 0 < hdr → hdr ∉ c_hdr <$> wait ++ tak ++ fin →
  rq_status (vblkreq x) = BLKREQ_STATUS_INIT →
  ctrue (Z.land (rq_size (vblkreq x)) (VIRTIO_BLK_SECTOR_SIZE - 1)) = false →
  match free with
  | d1 :: d2 :: d3 :: free' =>
      ∃ s', virtio_blk_submit (hdr + BLKREQ_OFFSET) s = Ret (tt, s') ∧
        disk_inv s' free' (wait ++ [Chain hdr d1 d2 d3]) tak fin ∧
        vreqs s' = <[hdr := headed d1 x]> (vreqs s)
  | _ => virtio_blk_submit (hdr + BLKREQ_OFFSET) s = Fault
  end.
Proof.
  intros Hq Hx Hp Hn Hst Hal. pose proof (virtio_blk_submit_aux s free wait tak fin hdr x Hq Hx Hp Hn Hst Hal) as H.
  destruct free as [|d1 [|d2 [|d3 free]]]; try done. destruct H as (s' & ? & _ & H). by exists s'.
Qed.

(** ** The disk as a system *)

Section system.
Context (bdev size : Z).
#[local] Instance drv_sys : BlkDriver vdisk := virtio_blkdev bdev size.

(** The handler with the moves [b] of the device between its reads, none of which finishes a
    request after the last test of the loop. *)
Definition serves_all (b : list (list dev_event)) (s s' : vdisk) : Prop :=
  virtio_blk_isr (set_bus b s) = Ret (IRQ_HANDLED, s') ∧ bus s' = [] ∧
  Forall quiet (default [] (last b)).

(** One step: a move of the device, its interrupt, a process that takes a fresh request and
    submits it, a process that frees the finished ones, and new memory for [kalloc].  A
    submission runs without an interrupt in the middle. *)
Inductive disk_step : vdisk → vdisk → Prop :=
  | ds_device e s : disk_step s (dev_step e s)
  | ds_irq b s s' : serves_all b s s' → disk_step s s'
  | ds_request s a junk fr sec buf n write s' :
      vfresh s = (a, junk) :: fr → 0 < a → vreqs s !! a = None → lock_free 0 s →
      (r ← blkreq_alloc sec buf n write; blkdev_submit_req r) s = Ret (tt, s') → disk_step s s'
  | ds_free s s' : blkdev_free_all s = Ret (tt, s') → disk_step s s'
  | ds_memory l s : disk_step s (set_vfresh l s).

(** The driver after [virtio_blk_init]. *)
Definition disk_boot (s : vdisk) : Prop :=
  bus s = [] ∧ dev_idx (dev s) = 0 ∧ dev_taken (dev s) = [] ∧
  ∃ max base, virtq_add_to_device 0 max 0 VIRTIO_DEFAULT_QUEUE_SIZE base = Ret (Some (vq s)).

Definition disk_ok (s : vdisk) : Prop :=
  bus s = [] ∧ ∃ free wait tak fin, disk_inv s free wait tak fin.

Lemma chained_nth i : 0 ≤ i < 256 → znth (chained 256) i = Some (Desc 0 0 0 (i + 1)).
Proof.
  intros Hi. unfold chained, znth. rewrite decide_True by lia. rewrite list_lookup_fmap, lookup_seqZ_lt by lia.
  cbn. do 2 f_equal. rewrite u16_small by lia. lia.
Qed.

Lemma chained_path q n : ∀ d, desc q = chained 256 → 0 ≤ d → d + Z.of_nat n = 256 →
  free_path q d (seqZ d (Z.of_nat n)).
Proof.
  induction n as [|n IH]; intros d Hq Hd Hn.
  - rewrite seqZ_nil by lia. cbn. unfold VIRTIO_DEFAULT_QUEUE_SIZE. lia.
  - rewrite seqZ_cons by lia. split; [done|]. eexists. split; [rewrite Hq; apply chained_nth; lia|].
    cbn [d_next]. replace (Z.pred (Z.of_nat (S n))) with (Z.of_nat n) by lia. apply IH; [done|lia..].
Qed.

Lemma virtq_add_fields max base q :
  virtq_add_to_device 0 max 0 VIRTIO_DEFAULT_QUEUE_SIZE base = Ret (Some q) →
  sizes_ok q ∧ desc q = chained 256 ∧ free_desc q = 0 ∧ seen_used q = 0 ∧ avail_idx q = 0 ∧ used_idx q = 0.
Proof.
  unfold virtq_add_to_device. change (ctrue 0) with false. cbv iota.
  destruct (max =? 0); [done|]. destruct (max <? _); [done|].
  destruct (virtq_create _ _) as [[[] q']| | |] eqn:E; intros [= <-].
  unfold virtq_create in E. munfold. repeat (case_match_eq; try done). simplify_eq. cbn [pfn set_pfn].
  split; [|done]. split; try done; cbn -[VIRTIO_DEFAULT_QUEUE_SIZE]; unfold zlen, chained;
    rewrite ?length_fmap, ?length_seqZ, ?length_replicate; done.
Qed.

Lemma disk_boot_inv s : disk_boot s → disk_inv s (seqZ 0 256) [] [] [].
Proof.
  intros (_ & Hi & Ht & max & base & E). apply virtq_add_fields in E as (Hs & Hd & Hf & Hsu & Ha & Hu).
  unfold disk_inv. split; rewrite ?Hi, ?Ht, ?Ha, ?Hu, ?Hsu; try done.
  { rewrite Hf. by apply (chained_path _ 256). }
  apply NoDup_nil_2.
Qed.

Lemma serves_all_ok b s s' free w t f : disk_inv s free w t f → serves_all b s s' → disk_ok s'.
Proof.
  intros Hq (E & Hb & Hlast). assert (Hq1 : disk_inv (set_bus b s) free w t f) by (by apply (qinv_frame _ s)).
  destruct (isr_moving _ _ _ _ _ Hq1) as (s2 & w' & t' & ext & lost & H).
  assert (s2 = s') as -> by (pose proof (si_run _ _ _ _ _ _ _ _ _ _ H); congruence).
  assert (lost = []) as ->.
  { apply (si_lost _ _ _ _ _ _ _ _ _ _ H). pose proof (si_bus _ _ _ _ _ _ _ _ _ _ H) as B.
    rewrite Hb in B. change (bus (set_bus b s)) with b in *. apply (f_equal length) in B. rewrite length_drop in B. cbn [length] in B.
    destruct (b !! S (length (f ++ ext))) as [l|] eqn:El; [|done].
    apply lookup_lt_Some in El as Hlt. rewrite last_lookup in Hlast.
    replace (pred (length b)) with (S (length (f ++ ext))) in Hlast by lia. by rewrite El in Hlast. }
  split; [done|]. eexists _, _, _, _. by eapply serves_inv.
Qed.

Lemma disk_step_ok s s' : disk_step s s' → disk_ok s → disk_ok s'.
Proof.
  intros Hst (Hb & free & w & t & f & Hq).
  destruct Hst as [e s|b s s' E|s a junk fr sec buf n write s' Hfr Ha Hnew Hlk E|s s' E|l s].
  - destruct (dev_step_moves _ e _ _ _ _ _ Hq) as (w' & t' & f' & Hm & Hq').
    pose proof (moves_frame _ _ _ _ _ _ _ _ _ Hm) as (_ & _ & _ & _ & _ & Hb' & Hsu & _).
    split; [by rewrite Hb'|]. exists free, w', t', f'. unfold disk_inv. by rewrite Hsu.
  - by eapply serves_all_ok.
  - rewrite (request_submits bdev size s a junk fr) in E by done.
    pose proof (in_flight_known _ _ _ _ _ _ _ Hq Hnew) as Hn.
    apply (prepared_inv bdev s a junk fr sec buf n write) in Hq; [|done].
    set (s0 := prepared _ _ _ _ _ _ _ _ _) in *. set (x := set_vblkreq (io_request bdev sec buf n write) junk).
    assert (Hx : vreqs s0 !! a = Some x) by apply lookup_insert_eq.
    destruct (ctrue (Z.land n (VIRTIO_BLK_SECTOR_SIZE - 1))) eqn:Hal.
    + unfold virtio_blk_submit in E. rewrite get_vblkreq_add in E. munfold.
      rewrite Hx in E. cbn [rq_size vblkreq x set_vblkreq io_request] in E.
      rewrite Hal in E. injection E as <-. split; [done|]. by exists free, w, t, f.
    + pose proof (virtio_blk_submit_aux s0 free w t f a x Hq Hx Ha Hn eq_refl Hal) as H.
      destruct free as [|d1 [|d2 [|d3 free]]]; [congruence..|].
      destruct H as (s2 & E2 & Hb2 & Hq2). rewrite E in E2. injection E2 as <-.
      split; [by rewrite Hb2|]. eexists _, _, _, _. exact (proj1 Hq2).
  - unfold blkdev_free_all in E. apply mbind_inv in E as ([] & s1 & E1 & E).
    apply zoom_inv in E1 as [e1 ->]. apply mbind_inv in E as (l & s2 & [= <- <-] & E).
    apply mbind_inv in E as ([] & s3 & E3 & E). apply zoom_inv in E as [e2 ->].
    assert (Hq1 : disk_inv (set_vlocks e1 s) free w t f) by (unfold disk_inv; by apply (qinv_frame _ s)).
    destruct (free_loop_inv bdev size _ _ _ _ _ _ _ _ Hq1 E3) as (_ & E4 & E5 & _).
    split; [exact (eq_trans E5 Hb)|]. exists free, w, t, f. unfold disk_inv.
    apply (qinv_frame _ s3); [done..|].
    change (vq (lset lock_lens e2 s3)) with (vq s3). rewrite E4. exact (proj1 (free_loop_inv bdev size _ _ _ _ _ _ _ _ Hq1 E3)).
  - split; [done|]. exists free, w, t, f. unfold disk_inv. by apply (qinv_frame _ s).
Qed.

(** C3: In every state the disk reaches from its initialisation, by moves of the device,
    requests and interrupts in any order, each of the 256 descriptors is on the free list or
    in exactly one request in flight; and the interrupt handler, with any moves [b] of the
    device between its reads, returns and wakes every finished request and those finished
    before the last test of its loop, once each.  Those finished after that test ([lost]) it
    passes over; without any the invariant holds again.  Conditions: no interrupt on the way
    passed over a request ([isr_loses_completion] is one that does), a submission runs
    without an interrupt in the middle, and it is made only when three descriptors are free,
    with a request at a fresh address. *)
Theorem disk_system_safe (s s' : vdisk) :
  disk_boot s → rtc disk_step s s' →
  ∃ free wait tak fin, disk_inv s' free wait tak fin ∧
    free ++ all_ids (wait ++ tak ++ fin) ≡ₚ seqZ 0 256 ∧
    ∀ b, ∃ s2 wait2 tak2 ext lost, virtio_blk_isr (set_bus b s') = Ret (IRQ_HANDLED, s2) ∧
      wait2 ++ tak2 ++ ext ++ lost ≡ₚ wait ++ tak ∧
      vwoken s2 = reverse (chan_of <$> fin ++ ext) ++ vwoken s' ∧
      (Forall quiet (default [] (b !! S (length (fin ++ ext)))) → lost = []) ∧
      (lost = [] → disk_inv s2 (give_back (fin ++ ext) free) wait2 tak2 []).
Proof.
  intros Hboot Hr. assert (Hok : disk_ok s').
  { assert (H0 : disk_ok s) by (split; [apply Hboot|]; eexists _, _, _, _; by apply disk_boot_inv).
    clear Hboot. induction Hr as [s|s s1 s' Hs Hr IH]; [done|]. apply IH. by eapply disk_step_ok. }
  destruct Hok as (_ & free & w & t & f & Hq). exists free, w, t, f. split_and!; [done|apply Hq|].
  intros b. assert (Hq1 : disk_inv (set_bus b s') free w t f) by (by apply (qinv_frame _ s')).
  destruct (isr_moving _ _ _ _ _ Hq1) as (s2 & w2 & t2 & ext & lost & H).
  exists s2, w2, t2, ext, lost. pose proof H as []. split_and!; try done.
  intros ->. by eapply serves_inv.
Qed.
End system.

(** ** Waiting for all requests *)

Lemma served_locks J e s l w t f :
  kept J → served J s l w t f → served J (set_vlocks e s) l w t f.
Proof.
  intros HJ (Hb & (free & Hq) & H & Hst). split_and!; [done| |by apply (J_locks J)|done].
  exists free. unfold disk_inv. by apply (qinv_frame _ s).
Qed.

(** The number of requests of the list without a good result. *)
Definition failures (s : vdisk) : Z :=
  zlen (filter (λ r, status_of s r ≠ Some BLKREQ_STATUS_OK) (vrqs s)).

Lemma failed_failures K s w t f L :
  tracked L K s w t f → failed K = zlen (filter (λ r, status_of s r ≠ Some BLKREQ_STATUS_OK) K.*1).
Proof.
  intros [_ HK]. unfold failed. induction K as [|[r v] K IH]; [done|].
  assert (IH' : zlen (filter (λ p : Z * Z, p.2 ≠ BLKREQ_STATUS_OK) K) =
    zlen (filter (λ r, status_of s r ≠ Some BLKREQ_STATUS_OK) K.*1)).
  { apply IH. intros r' v' H. apply HK. by right. }
  destruct (HK r v) as [Hs _]; [left|]. rewrite fmap_cons, !filter_cons. cbn [fst snd]. rewrite Hs.
  destruct (decide (v = BLKREQ_STATUS_OK)) as [->|Hne].
  - rewrite !decide_False by (intros H; by apply H). done.
  - rewrite !decide_True by congruence. by rewrite !zlen_cons, IH'.
Qed.

(** Nothing but the requests of [L] is in flight. *)
Definition only (L : list Z) (s : vdisk) (w t f : list chain) : Prop :=
  ∀ c, c ∈ w ++ t ++ f → chan_of c ∈ L.
Definition anything (s : vdisk) (w t f : list chain) : Prop := True.

Lemma only_kept L : kept (only L).
Proof.
  split; [| |done..].
  - intros e s w t f s' w' t' f' Hm H c Hc. apply H. by rewrite <- (moves_perm _ _ _ _ _ _ _ _ _ Hm).
  - intros s free w t f _ H c Hc. apply H. rewrite app_nil_r in Hc. rewrite !elem_of_app in *. tauto.
Qed.
Lemma anything_kept : kept anything.
Proof. done. Qed.

Lemma wait_all_run bdev size G s w t f :
  kept G → lock_free 0 s → served (both (tracked (vrqs s) []) G) s (events s) w t f →
  zlen (vrqs s) < 2 ^ 31 →
  ∃ s' w' t' f', blkdev_wait_all (H := virtio_blkdev bdev size) s = Ret (failures s', s') ∧
    lock_free 0 s' ∧ vrqs s' = vrqs s ∧
    (∀ r, r ∈ vrqs s → ∃ v, status_of s' r = Some v ∧ v ≠ BLKREQ_STATUS_INIT) ∧
    served (both (tracked (vrqs s) []) G) s' (events s') w' t' f'.
Proof.
  intros HG Hlk Hs Hlen. set (s1 := set_vlocks (entered 0 (vlocks s)) s).
  assert (HT : ∀ K, kept (both (tracked (vrqs s) K) G)) by (intros K; apply kept_both; [apply tracked_kept|done]).
  assert (Hs1 : served (both (tracked (vrqs s) []) G) s1 (events s1) w t f) by (by apply served_locks).
  destruct (wait_loop_run bdev size G HG (vrqs s) (vrqs s) [] s1 w t f Hs1 ltac:(done))
    as (K & s2 & w' & t' & f' & E & Hs2 & EK & F1 & F2);
    [unfold zlen in *; cbn [length]; lia|].
  set (s3 := set_vlocks (touched (vlocks s)) s2).
  assert (Hs3 : served (both (tracked (vrqs s) K) G) s3 (events s3) w' t' f') by (by apply served_locks).
  cbn [app fmap list_fmap] in EK. pose proof Hs3 as (Hb3 & Hq3 & [HT3 HG3] & Hst3).
  assert (EF : failed K = failures s3).
  { rewrite (failed_failures _ _ _ _ _ _ HT3), EK. unfold failures. cbn [vrqs s3 set_vlocks].
    by rewrite F2. }
  exists s3, w', t', f'. split_and!.
  - unfold blkdev_wait_all. mstep (acquire_ok 0 s Hlk).
    erewrite mbind_Ret by reflexivity. change (failed []) with 0 in E.
    erewrite mbind_Ret by exact E.
    erewrite mbind_Ret by (apply (release_ok 0 s); [exact Hlk|exact F1]). by rewrite EF.
  - exact (lock_free_lset 0 s s2 Hlk).
  - exact F2.
  - intros r Hr. destruct HT3 as [HL HK]. destruct (HL r Hr) as (v & Hv & _ & Hin). exists v.
    split; [done|]. intros E0. specialize (Hin E0). rewrite <- EK in Hr.
    apply list_elem_of_fmap in Hr as ([r' v'] & -> & Hrv). by destruct (HK r' v' Hrv) as [_ Hn].
  - split_and!; [done..| |done]. destruct HT3 as [HL _].
    split; [|done]. split; [done|]. by intros r v ?%elem_of_nil.
Qed.

(** C4: When the lock of the request list is free, every request of the list either has its
    result or is in flight, and the coming moves of the device and its interrupts bring every
    request in flight to its end, [blkdev_wait_all] returns, with the lock free again, after
    every request has a result; it counts those that failed and leaves them all on the list.
    Conditions: the device moves between interrupts but finishes nothing while the interrupt
    handler runs ([bus s = []] in [served]) - a completion after the last test of its loop is
    lost ([isr_loses_completion]), and then [blkdev_wait_all] need not return - it interrupts
    only while [blkdev_wait_all] sleeps, and nobody else submits. *)
Theorem blkdev_wait_all_spec (bdev size : Z) (s : vdisk) (w t f : list chain) :
  lock_free 0 s → served (tracked (vrqs s) []) s (events s) w t f → zlen (vrqs s) < 2 ^ 31 →
  ∃ s' w' t' f', blkdev_wait_all (H := virtio_blkdev bdev size) s = Ret (failures s', s') ∧
    lock_free 0 s' ∧ vrqs s' = vrqs s ∧
    (∀ r, r ∈ vrqs s → ∃ v, status_of s' r = Some v ∧ v ≠ BLKREQ_STATUS_INIT) ∧
    served (tracked (vrqs s) []) s' (events s') w' t' f'.
Proof.
  intros Hlk (Hb & Hq & HT & Hst) Hlen.
  destruct (wait_all_run bdev size anything s w t f anything_kept Hlk) as
    (s' & w' & t' & f' & E & Hlk' & Er & Hst' & (Hb' & Hq' & [HT' _] & Hs')); [by split_and!|done|].
  exists s', w', t', f'. by split_and!.
Qed.

(** ** A disk of four sectors *)

Definition demo_virtq : virtq_info :=
  match virtq_add_to_device 0 1024 0 VIRTIO_DEFAULT_QUEUE_SIZE 0x80400000 with
  | Ret (Some q) => q
  | _ => Virtq 0 0 0 0 0 0 [] 0 [] 0 [] [] 0 0
  end.
Definition demo_junk : virtio_blk_req := Vreq 7 7 7 7 (Blkreq 7 7 7 7 7 7 7).
Definition demo_vdisk : vdisk :=
  Vdisk (LockEnv [Cpu 0 false true] {[0 := Spinlock UNLOCKED "virtio-blk100-blkrqlock" None]}) ∅
    [(4096, demo_junk); (8192, demo_junk)] [] ∅ demo_virtq [] []
    (Device ((λ i, i / 512) <$> seqZ 0 2048) 0 []) [] [].

Definition demo_request (sec buf : Z) : M vdisk unit :=
  r ← blkreq_alloc (H := virtio_blkdev 16 2048) sec buf 512 false;
  blkdev_submit_req (H := virtio_blkdev 16 2048) r.
Definition demo_asked : vdisk :=
  outcome_state ((demo_request 2 100000;; demo_request 3 200000) demo_vdisk) demo_vdisk.

Lemma demo_disk_lock_free : lock_free 0 demo_vdisk.
Proof. split; [exists (Cpu 0 false true); split_and!; [reflexivity|cbn; lia..]|by eexists]. Qed.

Lemma demo_disk_boot : disk_boot demo_vdisk.
Proof. split_and!; try reflexivity. exists 1024, 0x80400000. by vm_compute. Qed.

(** The device has taken both requests and finished the first; its interrupt is due. *)
Definition demo_done : vdisk := dev_step (DComplete 0 true) (dev_step DTake (dev_step DTake demo_asked)).

Lemma demo_reach : rtc (disk_step 16 2048) demo_vdisk demo_done.
Proof.
  set (s1 := outcome_state (demo_request 2 100000 demo_vdisk) demo_vdisk).
  apply rtc_l with s1.
  { apply (ds_request _ _ demo_vdisk 4096 demo_junk [(8192, demo_junk)] 2 100000 512 false);
      [reflexivity|lia|reflexivity|exact demo_disk_lock_free|by vm_compute]. }
  apply rtc_l with demo_asked.
  { apply (ds_request _ _ s1 8192 demo_junk [] 3 200000 512 false);
      [by vm_compute|lia|by vm_compute| |by vm_compute].
    split; [exists (Cpu 0 true true); split_and!; [by vm_compute|cbn; lia..]|].
    exists "virtio-blk100-blkrqlock"%string. by vm_compute. }
  apply rtc_l with (dev_step DTake demo_asked); [apply (ds_device _ _ DTake)|].
  apply rtc_l with (dev_step DTake (dev_step DTake demo_asked)); [apply (ds_device _ _ DTake)|].
  apply rtc_once. apply (ds_device _ _ (DComplete 0 true)).
Qed.

Definition demo_c1 : chain := Chain 4096 0 1 2.
Definition demo_c2 : chain := Chain 8192 3 4 5.

Lemma demo_asked_inv : disk_inv demo_asked (seqZ 6 250) [demo_c1; demo_c2] [] [] ∧ lock_free 0 demo_asked.
Proof.
  pose proof (disk_boot_inv _ demo_disk_boot) as H0. change (seqZ 0 256) with (0 :: 1 :: 2 :: seqZ 3 253) in H0.
  destruct (request_run 16 2048 demo_vdisk 4096 demo_junk [(8192, demo_junk)] 2 100000 512 false _ _ _ _ _ _ _
    eq_refl ltac:(lia) eq_refl demo_disk_lock_free eq_refl H0) as (n1 & E1 & H1 & L1).
  set (s1 := submitted _ _ _ _ _ _ _) in *. change (seqZ 3 253) with (3 :: 4 :: 5 :: seqZ 6 250) in H1.
  destruct (request_run 16 2048 s1 8192 demo_junk [] 3 200000 512 false _ _ _ _ _ _ _
    eq_refl ltac:(lia) eq_refl L1 eq_refl H1) as (n2 & E2 & H2 & L2).
  set (s2 := submitted 8192 _ _ _ _ _ _) in *.
  assert (E : demo_asked = s2).
  { unfold demo_asked. change (demo_request 2 100000 demo_vdisk = Ret (tt, s1)) in E1.
    change (demo_request 3 200000 s1 = Ret (tt, s2)) in E2. by rewrite (mbind_Ret _ _ _ _ _ E1), E2. }
  rewrite E. split; [exact H2|exact L2].
Qed.

Lemma demo_done_inv : disk_inv demo_done (seqZ 6 250) [] [demo_c2] [demo_c1].
Proof.
  destruct demo_asked_inv as [H _]. apply dev_take_inv in H. cbn [app] in H. apply dev_take_inv in H. cbn [app] in H.
  set (s2 := dev_take (dev_take demo_asked)) in *.
  destruct (vreqs s2 !! 4096) as [x|] eqn:Hx; [|by vm_compute in Hx].
  apply (completed_inv _ s2 _ [] [] demo_c1 [demo_c2] [] true x) in H; [|exact Hx].
  pose proof H as H'. clear H.
  assert (Es : seen_used (vq demo_done) = seen_used (vq demo_asked)) by (by vm_compute).
  assert (E : demo_done = completed demo_c1 true x s2);
    [|unfold disk_inv; rewrite Es, E; exact H'].
  assert (Ex : Some x = vreqs s2 !! 4096) by done. clear - Ex.
  vm_compute in Ex. injection Ex as ->. by vm_compute.
Qed.

(** The handler runs while the device finishes the second request, in the middle of its loop. *)
Lemma disk_system_safe_witness :
  ∃ free wait tak fin, disk_inv demo_done free wait tak fin ∧
    free ++ all_ids (wait ++ tak ++ fin) ≡ₚ seqZ 0 256 ∧
    ∃ s2 wait2 tak2 ext lost,
      virtio_blk_isr (set_bus [[]; [DComplete 3 true]] demo_done) = Ret (IRQ_HANDLED, s2) ∧
      wait2 ++ tak2 ++ ext ++ lost ≡ₚ wait ++ tak.
Proof.
  destruct (disk_system_safe 16 2048 demo_vdisk demo_done demo_disk_boot demo_reach)
    as (free & w & t & f & I & P & H).
  exists free, w, t, f. split; [exact I|]. split; [exact P|].
  destruct (H [[]; [DComplete 3 true]]) as (s2 & w2 & t2 & e & l & E & P2 & _).
  exists s2, w2, t2, e, l. split; [exact E|exact P2].
Defined.

Lemma virtio_blk_isr_spec_witness :
  ∃ s', virtio_blk_isr (set_bus [[]; [DComplete 3 true]] demo_done) = Ret (IRQ_HANDLED, s') ∧
    ∃ ext, vwoken s' = reverse (chan_of <$> demo_c1 :: ext).
Proof.
  destruct (virtio_blk_isr_spec (set_bus [[]; [DComplete 3 true]] demo_done)
    (seqZ 6 250) [] [demo_c2] [demo_c1]) as (s' & w' & t' & ext & lost & E & _ & W & _).
  - apply (qinv_frame _ demo_done); [reflexivity..|exact demo_done_inv].
  - exists s'. split; [exact E|]. exists ext. rewrite W. cbn [app].
    replace (vwoken (set_bus _ demo_done)) with (@nil Z) by (by vm_compute). by rewrite app_nil_r.
Defined.

(** With the request at 12288 prepared, its three descriptors are the next free ones. *)
Definition demo_third : vdisk :=
  prepared 16 12288 demo_junk [] 0 300000 512 true (set_vfresh [(12288, demo_junk)] demo_done).

Lemma virtio_blk_submit_spec_witness :
  ∃ s', virtio_blk_submit 12312 demo_third = Ret (tt, s') ∧
    disk_inv s' (seqZ 9 247) [Chain 12288 6 7 8] [demo_c2] [demo_c1].
Proof.
  destruct (virtio_blk_submit_spec demo_third (seqZ 6 250) [] [demo_c2] [demo_c1] 12288
    (set_vblkreq (io_request 16 0 300000 512 true) demo_junk)) as (s' & E & I & _).
  - apply prepared_inv; [by vm_compute|]. apply disk_inv_fresh. exact demo_done_inv.
  - apply lookup_insert_eq.
  - lia.
  - apply (bool_decide_eq_true_1 (12288 ∉ c_hdr <$> [] ++ [demo_c2] ++ [demo_c1])). by vm_compute.
  - reflexivity.
  - reflexivity.
  - exists s'. split; [exact E|exact I].
Defined.

Lemma virtq_create_layout_witness :
  ∃ q', virtq_create 0x80400000 (Virtq 0 0 0 0 0 0 [] 0 [] 0 [] [] 0 256) = Ret (tt, q') ∧
    v_avail q' = 0x80401000 ∧ v_used q' + (4 + 8 * 256) ≤ 0x80400000 + virtq_size 256.
Proof.
  destruct (virtq_create_layout 0x80400000 256 (Virtq 0 0 0 0 0 0 [] 0 [] 0 [] [] 0 256))
    as (q' & E & H1 & H2 & _ & _ & H3 & _).
  - lia.
  - reflexivity.
  - lia.
  - reflexivity.
  - by vm_compute.
  - exists q'. split; [exact E|]. split; [lia|exact H3].
Defined.

(** Both requests outstanding; the device takes them, finishes them in the other order, the
    second badly, and interrupts once. *)
Definition demo_waiting : vdisk :=
  set_events [DTake; DTake; DComplete 3 false; DComplete 0 true; DIrq] demo_asked.

Lemma demo_waiting_served :
  served (tracked (vrqs demo_waiting) []) demo_waiting (events demo_waiting) [demo_c1; demo_c2] [] [].
Proof.
  split_and!.
  - by vm_compute.
  - exists (seqZ 6 250). apply disk_inv_events. exact (proj1 demo_asked_inv).
  - split; [|by intros r v ?%elem_of_nil]. change (vrqs demo_waiting) with [8216; 4120].
    intros r Hr. apply elem_of_cons in Hr as [->|Hr]; [|apply list_elem_of_singleton in Hr as ->].
    + exists 0. split_and!; [by vm_compute|done|]. intros _. cbn. right. left.
    + exists 0. split_and!; [by vm_compute|done|]. intros _. cbn. left.
  - intros c Hc. cbn [app] in Hc.
    apply elem_of_cons in Hc as [->|Hc]; [|apply list_elem_of_singleton in Hc as ->]; left.
    + exists 0%nat. split; [done|]. cbn. right. left. split_and!; [done|done|]. left.
    + exists 1%nat. split; [done|]. cbn. left. split_and!; [done|done|]. right. left.
Qed.

(** One of the two failed, and [blkdev_wait_all] says so. *)
Lemma blkdev_wait_all_spec_witness :
  ∃ s', blkdev_wait_all (H := virtio_blkdev 16 2048) demo_waiting = Ret (failures s', s') ∧
    failures s' = 1.
Proof.
  destruct (blkdev_wait_all_spec 16 2048 demo_waiting [demo_c1; demo_c2] [] []) as (s' & _ & _ & _ & E & _).
  - apply lock_free_events. exact (proj2 demo_asked_inv).
  - exact demo_waiting_served.
  - by vm_compute.
  - exists s'. split; [exact E|].
    assert (E2 : match blkdev_wait_all (H := virtio_blkdev 16 2048) demo_waiting with
                 | Ret (n, _) => n = 1 | _ => False end) by (by vm_compute).
    rewrite E in E2. exact E2.
Defined.

(** A completion between the last test of the loop and the read after it is passed over:
    request 8216 is finished on the used ring, and neither this interrupt nor the next one
    reaps it. *)
Example isr_loses_completion :
  match (virtio_blk_isr;; virtio_blk_isr) (set_bus [[]; []; [DComplete 3 true]] demo_done) with
  | Ret (_, s) => status_of s 8216 = Some BLKREQ_STATUS_INIT ∧ used_idx (vq s) = 2 ∧ seen_used (vq s) = 2
  | _ => False
  end.
Proof. by vm_compute. Qed.
