(* ===== verification/Device.v ===== *)
(** * Devices: initialisation, the registry, and the interrupt entries of device classes

    Models [kernel/io/device.c], [kernel/io/chr.c], [kernel/io/net.c], the initialisation part
    of [kernel/io/blk.c] and the inline functions of [include/io/chr.h] and [include/io/net.h].
    Names live in the byte memory of [CString]; the other fields of a device are a record. *)

From S2P Require Export Locking CString Irq.
From S2P Require Import Printf.

(** ** Data ([device.h]) *)

Inductive devtype :=
  | DEVICE_TYPE_BLOCK
  | DEVICE_TYPE_CHAR
  | DEVICE_TYPE_NET
  | DEVICE_TYPE_OTHER
  | DEVICE_TYPE_ANY.
#[export] Instance devtype_eq_dec : EqDecision devtype.
Proof. solve_decision. Defined.

Definition DEV_NAME_MAX_LEN : nat := 64.
Definition DEVID_VIRTIO_BLK_BASE : Z := 0x100.
Definition DEVID_VIRTIO_NET_BASE : Z := 0x140.
Definition DEVID_UART : Z := 0x1.

(** [struct device] with what the structures around it add: the table of operations, and for
    a block device its size, its sector size and its requests. *)
Record device := Device {
  devid : Z;
  dv_intr : Z;
  dv_type : devtype;
  dv_ops : Z;
  dv_size : Z;
  dv_sector_size : Z;
  dv_rq_list : list Z
}.
#[export] Instance device_eq_dec : EqDecision device.
Proof. solve_decision. Defined.

(** Offsets of [name] and [dev_lock] in [struct device], of [rq_list_lock] in [struct blkdev]. *)
Definition dev_name (d : Z) : Z := d + 8.
Definition dev_lock (d : Z) : Z := d + 88.
Definition dev_rq_lock (d : Z) : Z := d + 184.
Definition SIZEOF_CHRDEV : Z := 152.
Definition SIZEOF_BLKDEV : Z := 232.
Definition SIZEOF_NETDEV : Z := 176.

(** [device_list_head] and the device objects by address. *)
Record devs := Devs {
  device_list : list Z;
  devices : gmap Z device
}.
#[export] Instance devs_eq_dec : EqDecision devs.
Proof. solve_decision. Defined.

(** A system with devices: locks, memory, the devices, [kalloc] of a structure, and where the
    lock of the list, the static buffers and the string literals are. *)
Class DevState (S : Type) := {
  #[global] dev_locks :: HasLocks S;
  #[global] dev_mem :: HasMem S;
  dev_lens : lens S devs;
  #[global] dev_lens_lawful :: LawfulLens dev_lens;
  #[global] dev_lock_mem :: Indep lock_lens mem_lens;
  #[global] dev_lock_lens :: Indep lock_lens dev_lens;
  #[global] dev_mem_lens :: Indep mem_lens dev_lens;
  dev_kalloc : Z → M S Z;
  devlst_lock : Z;
  dev_buffer : Z;
  class_buffer : Z;
  str_devlock : Z;
  str_blkrqlock : Z
}.

(** Reading a string into a list of characters, writing one out. *)
Fixpoint load_str (fuel : nat) (a : Z) : M bytes (list Z) :=
  match fuel with
  | O => mspin
  | S fuel => c ← ld a; if c =? 0 then mret [] else l ← load_str fuel (a + 1); mret (c :: l)
  end.
Fixpoint store_str (a : Z) (l : list Z) : M bytes unit :=
  match l with [] => mret tt | c :: l => st a c;; store_str (a + 1) l end.

(** A name of a lock, which [Locking] keeps as a [string]. *)
Definition lock_name (l : list Z) : string :=
  String.string_of_list_ascii ((λ c, Ascii.ascii_of_N (Z.to_N c)) <$> l).

Section device.
Context {S : Type} `{DevState S}.

Definition get_dev (d : Z) : M S device := s ← gets (lget dev_lens); mlift (devices s !! d).
Definition put_dev (d : Z) (x : device) : M S unit :=
  modify (λ s, lset dev_lens (Devs (device_list (lget dev_lens s))
                                   (<[d := x]> (devices (lget dev_lens s)))) s).
Definition upd_dev (d : Z) (f : device → device) : M S unit := x ← get_dev d; put_dev d (f x).

(** ** [device.c] *)

(** Names shorter than this are read whole. *)
Definition name_fuel : nat := 256.

Definition spinlock_init_at (lk name : Z) : M S unit :=
  l ← on_mem (load_str name_fuel name); lockinit lk (lock_name l).

Definition device_init (device devid intr name : Z) : M S unit :=
  upd_dev device (λ x, Device devid intr (dv_type x) (dv_ops x) (dv_size x) (dv_sector_size x)
                              (dv_rq_list x));;
  on_mem (strncpy (dev_name device) name DEV_NAME_MAX_LEN);;
  on_mem (strncpy dev_buffer name SPINLOCK_NAME_MAX_LEN);;
  on_mem (name_append_suffix name_fuel dev_buffer (Z.of_nat DEV_NAME_MAX_LEN) str_devlock);;
  spinlock_init_at (dev_lock device) dev_buffer.

(** The loop of the three searches; the lock is released by the caller. *)
Fixpoint find_dev (l : list Z) (test : Z → device → M S bool) : M S Z :=
  match l with
  | [] => mret 0
  | d :: l => x ← get_dev d; b ← test d x; if (b : bool) then mret d else find_dev l test
  end.

Definition search_dev (test : Z → device → M S bool) : M S Z :=
  acquire devlst_lock;;
  s ← gets (lget dev_lens);
  d ← find_dev (device_list s) test;
  release devlst_lock;;
  mret d.

Definition type_matches (type : devtype) (x : device) : bool :=
  bool_decide (dv_type x = type) || bool_decide (dv_type x = DEVICE_TYPE_ANY).

(** The value of a [char] on RISC-V is the byte. *)
Definition device_get_by_name (name : Z) (type : devtype) : M S Z :=
  search_dev (λ d x,
    if type_matches type x
    then r ← on_mem (strncmp id DEV_NAME_MAX_LEN (dev_name d) name); mret (r =? 0)
    else mret false).

Definition device_get_by_id (id : Z) (type : devtype) : M S Z :=
  search_dev (λ d x, mret (type_matches type x && (devid x =? id))).

Definition device_get_default (type : devtype) : M S Z :=
  search_dev (λ d x, mret (type_matches type x)).

(** The result of [irq_register] is not looked at. *)
Definition device_register `{IrqState S} (device handler : Z) : M S unit :=
  massert (ctrue device);;
  acquire devlst_lock;;
  modify (λ s, lset dev_lens (Devs (device_list (lget dev_lens s) ++ [device])
                                   (devices (lget dev_lens s))) s);;
  release devlst_lock;;
  x ← get_dev device;
  irq_register (dv_intr x) handler device;;
  mret tt.

(** ** Device classes ([chr.c], [net.c], [blk.c]) *)

(** [snprintf(buffer, DEV_NAME_MAX_LEN, "%s%x", name, devid)]. *)
Definition class_name (name devid : Z) : M S unit :=
  l ← on_mem (load_str name_fuel name);
  match snprintf (Z.of_nat DEV_NAME_MAX_LEN) (Z.of_nat DEV_NAME_MAX_LEN) (txt "%s%x")
          [AStr (Some l); ANum devid] with
  | Ret (_, t, _) => on_mem (store_str class_buffer t)
  | Panic => mpanic
  | Fault => mfault
  | Spin => mspin
  end.

Definition set_class (type : devtype) (ops size sector_size : Z) (x : device) : device :=
  Device (devid x) (dv_intr x) type ops size sector_size (dv_rq_list x).

Definition set_rq_list (l : list Z) (x : device) : device :=
  Device (devid x) (dv_intr x) (dv_type x) (dv_ops x) (dv_size x) (dv_sector_size x) l.

Definition chrdev_init (dev devid intr name ops : Z) : M S unit :=
  massert (ctrue dev);;
  massert (ctrue name);;
  massert (ctrue ops);;
  class_name name devid;;
  device_init dev devid (u32 intr) class_buffer;;
  upd_dev dev (λ x, set_class DEVICE_TYPE_CHAR ops (dv_size x) (dv_sector_size x) x).

Definition netdev_init (dev devid intr name ops : Z) : M S unit :=
  massert (ctrue dev);;
  massert (ctrue name);;
  massert (ctrue ops);;
  class_name name devid;;
  device_init dev devid (u32 intr) class_buffer;;
  upd_dev dev (λ x, set_class DEVICE_TYPE_NET ops (dv_size x) (dv_sector_size x) x).

Definition blkdev_init (dev devid size sector_size intr name ops : Z) : M S unit :=
  massert (ctrue dev);;
  massert (ctrue name);;
  massert (ctrue ops);;
  class_name name devid;;
  device_init dev devid (u32 intr) class_buffer;;
  upd_dev dev (set_class DEVICE_TYPE_BLOCK ops size sector_size);;
  on_mem (name_append_suffix name_fuel class_buffer (Z.of_nat SPINLOCK_NAME_MAX_LEN)
            str_blkrqlock);;
  spinlock_init_at (dev_rq_lock dev) class_buffer;;
  upd_dev dev (set_rq_list []).

(** [KALLOC] leaves the structure as it finds it. *)
Definition alloc_dev (size : Z) (junk : device) : M S Z :=
  dev ← dev_kalloc size;
  massert (ctrue dev);;
  put_dev dev junk;;
  mret dev.

Definition chrdev_alloc (junk : device) (devid intr name ops : Z) : M S Z :=
  dev ← alloc_dev SIZEOF_CHRDEV junk; chrdev_init dev devid intr name ops;; mret dev.
Definition netdev_alloc (junk : device) (devid intr name ops : Z) : M S Z :=
  dev ← alloc_dev SIZEOF_NETDEV junk; netdev_init dev devid intr name ops;; mret dev.
Definition blkdev_alloc (junk : device) (devid size sector_size intr name ops : Z) : M S Z :=
  dev ← alloc_dev SIZEOF_BLKDEV junk;
  blkdev_init dev devid size sector_size intr name ops;; mret dev.
End device.

(** [struct chrdev_ops] and [struct netdev_ops], found by their addresses. *)
Record chrdev_ops (S : Type) := ChrOps {
  op_putchar : Z → Z → M S unit;
  op_getchar : Z → M S Z;
  op_chr_irq : option (Z → M S Z)
}.
Arguments ChrOps {S} _ _ _.
Arguments op_putchar {S} _ _ _.
Arguments op_getchar {S} _ _.
Arguments op_chr_irq {S} _.

Record netdev_ops (S : Type) := NetOps {
  op_send : Z → Z → M S unit;
  op_status : Z → M S unit;
  op_net_irq : option (Z → M S Z)
}.
Arguments NetOps {S} _ _ _.
Arguments op_send {S} _ _ _.
Arguments op_status {S} _ _.
Arguments op_net_irq {S} _.

(** The operation tables of the drivers. *)
Class DevOps (S : Type) := {
  chr_ops : Z → option (chrdev_ops S);
  net_ops : Z → option (netdev_ops S)
}.

Section classes.
Context {S : Type} `{DevState S} `{DevOps S}.

Definition chrdev_ops_of (dev : Z) : M S (chrdev_ops S) :=
  x ← get_dev dev; mlift (chr_ops (dv_ops x)).
Definition netdev_ops_of (dev : Z) : M S (netdev_ops S) :=
  x ← get_dev dev; mlift (net_ops (dv_ops x)).

Definition chrdev_general_isr (intid private : Z) : M S Z :=
  massert (ctrue private);;
  ops ← chrdev_ops_of private;
  match op_chr_irq ops with Some h => h private | None => mret IRQ_SKIP end.

Definition netdev_general_isr (intid private : Z) : M S Z :=
  massert (ctrue private);;
  ops ← netdev_ops_of private;
  match op_net_irq ops with Some h => h private | None => mret IRQ_SKIP end.

(** [chr_isr], [net_isr] and [blk_isr] are the addresses of the interrupt entries. *)
Definition chrdev_register `{IrqState S} (chr_isr chrdev : Z) : M S unit :=
  massert (ctrue chrdev);; device_register chrdev chr_isr.
Definition netdev_register `{IrqState S} (net_isr netdev : Z) : M S unit :=
  massert (ctrue netdev);; device_register netdev net_isr.

Definition blkdev_register `{IrqState S} (blk_isr blkdev : Z) : M S unit :=
  massert (ctrue blkdev);; device_register blkdev blk_isr.

Definition chrdev_get_by_name (name : Z) : M S Z := device_get_by_name name DEVICE_TYPE_CHAR.
Definition chrdev_get_by_id (id : Z) : M S Z := device_get_by_id id DEVICE_TYPE_CHAR.
Definition chrdev_get_default_dev : M S Z := device_get_default DEVICE_TYPE_CHAR.
Definition netdev_get_by_name (name : Z) : M S Z := device_get_by_name name DEVICE_TYPE_NET.
Definition netdev_get_by_id (id : Z) : M S Z := device_get_by_id id DEVICE_TYPE_NET.
Definition netdev_get_default_dev : M S Z := device_get_default DEVICE_TYPE_NET.
Definition blkdev_get_by_name (name : Z) : M S Z := device_get_by_name name DEVICE_TYPE_BLOCK.
Definition blkdev_get_by_id (id : Z) : M S Z := device_get_by_id id DEVICE_TYPE_BLOCK.
Definition blkdev_get_default_dev : M S Z := device_get_default DEVICE_TYPE_BLOCK.
End classes.

(** ** Searching the registry *)

(** The first device of the list that passes the test, NULL without one. *)
Definition first (p : Z → device → bool) (D : devs) : Z :=
  default 0 (List.find (λ d, match devices D !! d with Some x => p d x | None => false end)
               (device_list D)).

Definition by_name (names : Z → list Z) (l : list Z) (type : devtype) (d : Z) (x : device) : bool :=
  type_matches type x &&
  bool_decide (take DEV_NAME_MAX_LEN (names d) = take DEV_NAME_MAX_LEN l).
Definition by_id (id : Z) (type : devtype) (d : Z) (x : device) : bool :=
  type_matches type x && (devid x =? id).
Definition by_type (type : devtype) (d : Z) (x : device) : bool := type_matches type x.

Section registry.
Context {S : Type} `{DevState S}.

(** The state after a critical section that changed nothing. *)
Definition unlocked (s : S) : S := lset lock_lens (touched (lget lock_lens s)) s.

(** Every listed device exists and has its name in memory. *)
Definition registry_ok (names : Z → list Z) (s : S) : Prop :=
  ∀ d, d ∈ device_list (lget dev_lens s) →
    is_Some (devices (lget dev_lens s) !! d) ∧ cstr (lget mem_lens s) (dev_name d) (names d).

Lemma get_dev_ok d x s : devices (lget dev_lens s) !! d = Some x → get_dev d s = Ret (x, s).
Proof. intros E. unfold get_dev. munfold. by rewrite E. Qed.

Lemma find_dev_run test p s l :
  (∀ d, d ∈ l → ∃ x, devices (lget dev_lens s) !! d = Some x ∧ test d x s = Ret (p d x, s)) →
  find_dev l test s =
    Ret (default 0 (List.find (λ d, match devices (lget dev_lens s) !! d with
                                    | Some x => p d x | None => false end) l), s).
Proof.
  induction l as [|d l IH]; intros Ht; [done|]. cbn [find_dev List.find].
  destruct (Ht d ltac:(set_solver)) as (x & Ex & Et). rewrite Ex.
  erewrite mbind_Ret by (by apply get_dev_ok). erewrite mbind_Ret by exact Et.
  destruct (p d x); [done|]. apply IH. intros d' Hd'. apply Ht. set_solver.
Qed.

(** A search returns the first match and gives the lock back. *)
Lemma search_dev_run test p s :
  lock_free devlst_lock s →
  (∀ d s', d ∈ device_list (lget dev_lens s) → lget dev_lens s' = lget dev_lens s →
     lget mem_lens s' = lget mem_lens s →
     ∃ x, devices (lget dev_lens s) !! d = Some x ∧ test d x s' = Ret (p d x, s')) →
  search_dev test s = Ret (first p (lget dev_lens s), unlocked s).
Proof.
  intros Hf Ht. unfold search_dev, unlocked.
  erewrite mbind_Ret by (by apply acquire_ok).
  set (s1 := lset lock_lens (entered _ _) s).
  assert (lget dev_lens s1 = lget dev_lens s) as Ed by apply (indep_r lock_lens dev_lens).
  assert (lget mem_lens s1 = lget mem_lens s) as Em by apply (indep_r lock_lens mem_lens).
  unfold gets at 1. erewrite mbind_Ret by reflexivity.
  erewrite mbind_Ret.
  2: { apply (find_dev_run test p). intros d Hd. rewrite Ed in Hd |- *. by apply Ht. }
  erewrite mbind_Ret by (apply release_ok; [done|by apply lens_get_set]).
  unfold first. rewrite Ed. unfold s1. by rewrite lens_set_set.
Qed.

Lemma on_mem_run {A} (m : M bytes A) s a :
  m (lget mem_lens s) = Ret (a, lget mem_lens s) → on_mem m s = Ret (a, s).
Proof. intros E. unfold on_mem, zoom. rewrite E. by rewrite lens_set_get. Qed.

(** The three searches of the device list return, with the list lock taken and given
    back, the address of the first registered device of the type (or of type
    [DEVICE_TYPE_ANY]) whose name agrees on 64 characters, whose id is equal, or of any name
    and id; NULL when there is none. *)
Theorem device_search_spec names s name l id type :
  lock_free devlst_lock s → registry_ok names s → cstr (lget mem_lens s) name l →
  device_get_by_name name type s =
    Ret (first (by_name names l type) (lget dev_lens s), unlocked s) ∧
  device_get_by_id id type s = Ret (first (by_id id type) (lget dev_lens s), unlocked s) ∧
  device_get_default type s = Ret (first (by_type type) (lget dev_lens s), unlocked s).
Proof.
  intros Hf Hok Hl. split_and!; apply search_dev_run; try done;
    intros d s' Hd Ed Em; destruct (Hok d Hd) as [[x Ex] Hx]; exists x; (split; [done|]).
  2, 3: done.
  unfold by_name. destruct (type_matches type x); [|done].
  destruct (strncmp_ok Datatypes.id (λ c d _ _ E, E) (lget mem_lens s) DEV_NAME_MAX_LEN
    (names d) l (dev_name d) name Hx Hl) as (r & Er & Hr).
  erewrite mbind_Ret by (apply on_mem_run; rewrite Em; exact Er).
  cbn [andb]. unfold mret, M_ret. do 2 f_equal.
  destruct (Z.eqb_spec r 0); symmetry; [apply bool_decide_eq_true|apply bool_decide_eq_false];
    tauto.
Qed.

(** A new device at the end of the list is found by the searches nothing else answers. *)
Lemma first_snoc p D d x :
  devices D !! d = Some x →
  (∀ d', d' ∈ device_list D → d' ≠ 0) →
  first p (Devs (device_list D ++ [d]) (devices D)) =
    if first p D =? 0 then (if p d x then d else 0) else first p D.
Proof.
  unfold first. cbn. intros Ex. induction (device_list D) as [|d' l IH]; intros H0; cbn.
  - rewrite Ex. by destruct (p d x).
  - destruct (match devices D !! d' with Some _ => _ | None => _ end) eqn:E; cbn.
    + by rewrite (proj2 (Z.eqb_neq d' 0)) by (apply H0; set_solver).
    + apply IH. intros ? ?. apply H0. set_solver.
Qed.

(** The documentation of the searches offers [DEVICE_TYPE_ANY] to match any type; among
    devices set up by [chrdev_init], [blkdev_init] and [netdev_init] it matches none. *)
Lemma any_matches_nothing p D :
  (∀ d x, d ∈ device_list D → devices D !! d = Some x → dv_type x ≠ DEVICE_TYPE_ANY) →
  first (λ d x, type_matches DEVICE_TYPE_ANY x && p d x) D = 0.
Proof.
  unfold first. induction (device_list D) as [|d l IH]; intros Ht; cbn; [done|].
  destruct (devices D !! d) as [x|] eqn:E.
  - unfold type_matches. rewrite bool_decide_eq_false_2 by (eapply Ht; [left|exact E]).
    cbn. apply IH. intros d' x' Hd'. apply Ht. by right.
  - apply IH. intros d' x' Hd'. apply Ht. by right.
Qed.

(** ** Registering *)

Context `{IrqState S} `{!Indep lock_lens irq_tab} `{!Indep lock_lens irq_plic}
  `{!Indep dev_lens irq_tab} `{!Indep dev_lens irq_plic}.

(** [irq_register] touches the table and the controller only, and succeeds or not. *)
Lemma irq_register_frame irq h d s :
  tab_ok (lget irq_tab s) → 0 ≤ irq < 32 →
  ∃ r s', irq_register irq h d s = Ret (r, s') ∧
    lget dev_lens s' = lget dev_lens s ∧ lget lock_lens s' = lget lock_lens s ∧
    tab_ok (lget irq_tab s') ∧
    (∀ j, handler_of (lget irq_tab s') j =
       if decide (j = irq ∧ handler_of (lget irq_tab s) irq = None ∧ h ≠ 0)
       then Some (h, d) else handler_of (lget irq_tab s) j).
Proof.
  intros Hok Hi. assert (0 ≤ irq < MAX_NR_IRQ) as Hir by (unfold MAX_NR_IRQ; lia).
  destruct (tab_lookup _ irq Hok Hir) as (h0 & d0 & E1 & _ & Eh).
  unfold irq_register. rewrite (proj2 (Z.leb_gt _ _)) by lia.
  assert (irq_handler irq s = Ret (h0, s)) as El by (unfold irq_handler; munfold; by rewrite E1).
  erewrite mbind_Ret by (erewrite mbind_Ret by exact El; reflexivity).
  unfold ctrue. destruct (Z.eqb_spec h0 0) as [->|Hne]; cbn [negb].
  - erewrite mbind_Ret by (by eapply set_irq_ok).
    erewrite mbind_Ret by (unfold zoom; rewrite (indep_r irq_tab irq_plic), plic_enable_run
      by done; reflexivity).
    eexists _, _. split; [reflexivity|].
    rewrite (indep_l dev_lens irq_plic), (indep_l dev_lens irq_tab), (indep_l lock_lens irq_plic),
      (indep_l lock_lens irq_tab), (indep_l irq_tab irq_plic), lens_get_set.
    split_and!; [done..|by apply tab_set_ok|]. intros j. rewrite handler_of_tab_set by done.
    destruct (decide (j = irq)) as [->|Hj].
    + destruct (Z.eqb_spec h 0); [by rewrite decide_False by tauto|by rewrite decide_True].
    + by rewrite decide_False by tauto.
  - eexists _, _. split; [reflexivity|]. split_and!; [done..|].
    intros j. rewrite decide_False; [done|]. intros (_ & E & _).
    rewrite Eh in E. by destruct (Z.eqb_spec h0 0).
Qed.

(** Registering a device appends it to the list under the list lock, so each later search
    answers what it answered before, or the new device when nothing did and it matches; and
    its handler is installed for its interrupt source with the device as data, unless the
    source is taken: then the older handler stays, the device is registered all the same,
    and the caller is not told. *)
Theorem device_register_spec d x handler s :
  lock_free devlst_lock s → tab_ok (lget irq_tab s) →
  devices (lget dev_lens s) !! d = Some x → d ≠ 0 → handler ≠ 0 → 0 ≤ dv_intr x < 32 →
  (∀ d', d' ∈ device_list (lget dev_lens s) → d' ≠ 0) →
  ∃ s', device_register d handler s = Ret (tt, s') ∧ lock_free devlst_lock s' ∧
    (∀ p, first p (lget dev_lens s') =
       if first p (lget dev_lens s) =? 0 then (if p d x then d else 0)
       else first p (lget dev_lens s)) ∧
    tab_ok (lget irq_tab s') ∧
    (∀ j, handler_of (lget irq_tab s') j =
       if decide (j = dv_intr x ∧ handler_of (lget irq_tab s) j = None)
       then Some (handler, d) else handler_of (lget irq_tab s) j).
Proof.
  intros Hf Hok Hx Hd Hh Hi Hl. unfold device_register.
  unfold ctrue. rewrite (proj2 (Z.eqb_neq d 0)) by done. erewrite mbind_Ret by reflexivity.
  erewrite mbind_Ret by (by apply acquire_ok). set (s1 := lset lock_lens _ s).
  assert (lget dev_lens s1 = lget dev_lens s) as Ed by apply (indep_r lock_lens dev_lens).
  unfold modify at 1. erewrite mbind_Ret by reflexivity. rewrite Ed.
  set (D := Devs _ _). erewrite mbind_Ret.
  2: { apply release_ok; [done|]. rewrite (indep_l lock_lens dev_lens). apply lens_get_set. }
  set (s2 := lset lock_lens _ _).
  assert (lget dev_lens s2 = D) as Ed2.
  { unfold s2. by rewrite (indep_r lock_lens dev_lens), lens_get_set. }
  assert (lget irq_tab s2 = lget irq_tab s) as Et2.
  { unfold s2, s1. by rewrite (indep_r lock_lens irq_tab), (indep_r dev_lens irq_tab),
      (indep_r lock_lens irq_tab). }
  erewrite mbind_Ret by (apply get_dev_ok; rewrite Ed2; exact Hx).
  destruct (irq_register_frame (dv_intr x) handler d s2) as (r & s' & E & Hd' & Hk & Ht & Hm);
    [by rewrite Et2|done|].
  erewrite mbind_Ret by exact E. exists s'. split_and!; [done| | |done|].
  - unfold lock_free. rewrite Hk. by apply (lock_free_lset devlst_lock s).
  - intros p. rewrite Hd', Ed2. by apply first_snoc.
  - intros j. rewrite Hm, Et2. repeat case_decide; naive_solver.
Qed.
End registry.

(** ** Initialising *)

(** Two ranges of memory that do not meet. *)
Definition apart (a n b k : Z) : Prop := a + n ≤ b ∨ b + k ≤ a.

Lemma load_str_run l : ∀ m a fuel,
  cstr m a l → (length l < fuel)%nat → load_str fuel a m = Ret (l, m).
Proof.
  induction l as [|c l IH]; intros m a [|fuel] Hl Hf; cbn in Hf; try lia; cbn [load_str].
  - apply cstr_nil in Hl. by ld_step.
  - apply cstr_cons in Hl as (Hc & Hr & Hl). ld_step. rewrite (proj2 (Z.eqb_neq c 0)) by lia.
    by rewrite (mbind_Ret _ _ _ _ _ (IH _ _ fuel Hl ltac:(lia))).
Qed.

Section init.
Context {S : Type} `{DevState S}.

(** The memory [device_init] works in: the name, the literal, the name field of the device and
    the static buffer, 64 and 32 bytes, apart from each other. *)
Record init_room (m : bytes) (d name : Z) (l : list Z) : Prop := InitRoom {
  ir_name : cstr m name l;
  ir_suffix : cstr m str_devlock (txt "-devlock");
  ir_dev : accessible m (dev_name d) 65;
  ir_buf : accessible m dev_buffer 32;
  ir_apart1 : apart (dev_name d) 65 name (zlen l + 1);
  ir_apart2 : apart (dev_name d) 65 str_devlock 9;
  ir_apart3 : apart (dev_name d) 65 dev_buffer 33;
  ir_apart4 : apart dev_buffer 33 name (zlen l + 1);
  ir_apart5 : apart dev_buffer 33 str_devlock 9
}.

Lemma on_mem_step {A} (m : M bytes A) s a m' :
  m (lget mem_lens s) = Ret (a, m') → on_mem m s = Ret (a, lset mem_lens m' s).
Proof. intros E. unfold on_mem, zoom. by rewrite E. Qed.

Lemma on_mem_fault {A} (m : M bytes A) s : m (lget mem_lens s) = Fault → on_mem m s = Fault.
Proof. intros E. unfold on_mem, zoom. by rewrite E. Qed.

(** The name goes into the device; the other strings stay. *)
Lemma name_copied m d name l :
  init_room m d name l → (length l ≤ 63)%nat →
  ∃ m', strncpy (dev_name d) name DEV_NAME_MAX_LEN m = Ret (dev_name d, m') ∧
    cstr m' (dev_name d) l ∧ cstr m' name l ∧ cstr m' str_devlock (txt "-devlock") ∧
    (∀ a, (a < dev_name d ∨ dev_name d + 65 ≤ a) → m' !! a = m !! a).
Proof.
  intros [Hn Hsf Hd Hb A1 A2 A3 A4 A5] Hlen. unfold apart in *. pose proof (zlen_nonneg l) as Hz.
  assert (zlen (txt "-devlock") = 8) as Hsl by reflexivity.
  destruct (strncpy_whole m (dev_name d) name l DEV_NAME_MAX_LEN) as (m' & E & Hc & Hf).
  { done. }
  { apply (accessible_le _ _ 65); [done|unfold zlen; lia]. }
  { unfold zlen in *. lia. }
  { unfold DEV_NAME_MAX_LEN. lia. }
  assert (∀ a, (a < dev_name d ∨ dev_name d + 65 ≤ a) → m' !! a = m !! a) as Hf'.
  { intros a Ha. apply Hf. unfold zlen. lia. }
  exists m'. split_and!; [done..| | |done].
  - apply (cstr_frame m); [done|]. intros b Hb'. apply Hf'. lia.
  - apply (cstr_frame m); [done|]. intros b Hb'. apply Hf'. lia.
Qed.

(** The name of the lock is built in the static buffer. *)
Lemma lock_name_built m name l :
  cstr m name l → cstr m str_devlock (txt "-devlock") → accessible m dev_buffer 32 →
  apart dev_buffer 33 name (zlen l + 1) → apart dev_buffer 33 str_devlock 9 →
  (length l ≤ 23)%nat →
  ∃ m1 m2, strncpy dev_buffer name SPINLOCK_NAME_MAX_LEN m = Ret (dev_buffer, m1) ∧
    name_append_suffix name_fuel dev_buffer (Z.of_nat DEV_NAME_MAX_LEN) str_devlock m1 = Ret (tt, m2) ∧
    cstr m2 dev_buffer (l ++ txt "-devlock") ∧
    (∀ a, (a < dev_buffer ∨ dev_buffer + 32 ≤ a) → m2 !! a = m !! a).
Proof.
  intros Hn Hsf Hb A4 A5 Hlen. unfold apart in *. pose proof (zlen_nonneg l) as Hz.
  assert (zlen (txt "-devlock") = 8) as Hsl by reflexivity.
  assert (zlen l ≤ 23) as Hzl by (unfold zlen; lia).
  destruct (strncpy_whole m dev_buffer name l SPINLOCK_NAME_MAX_LEN) as (m1 & E1 & Hc1 & Hf1).
  { done. }
  { apply (accessible_le _ _ 32); [done|lia]. }
  { lia. }
  { unfold SPINLOCK_NAME_MAX_LEN. lia. }
  destruct (name_append_suffix_run m1 dev_buffer (Z.of_nat DEV_NAME_MAX_LEN) str_devlock l
    (txt "-devlock") name_fuel) as (m2 & E2 & Hc2 & Hf2).
  { done. }
  { apply (cstr_frame m); [done|]. intros b Hb'. apply Hf1. lia. }
  { apply (accessible_dom m); [by apply (strncpy_dom _ _ _ _ _ _ E1)|].
    apply (accessible_le _ _ 32); [done|lia]. }
  { unfold DEV_NAME_MAX_LEN. lia. }
  { lia. }
  { unfold name_fuel. lia. }
  { unfold name_fuel. cbn. lia. }
  exists m1, m2. split_and!; [done..|]. intros a Ha. rewrite Hf2, Hf1 by lia. done.
Qed.

(** [device_init] of a name of at most 23 characters returns: the device has its id, its
    interrupt and its name, its lock is free and called after it, and memory changes in
    the name field and the static buffer only.  A longer name, although the field has 64
    bytes, writes behind the static buffer of 32 bytes. *)
Theorem device_init_spec d x devid intr name l s :
  init_room (lget mem_lens s) d name l → devices (lget dev_lens s) !! d = Some x →
  ((length l ≤ 23)%nat →
   ∃ s', device_init d devid intr name s = Ret (tt, s') ∧
     lget dev_lens s' = Devs (device_list (lget dev_lens s))
       (<[d := Device devid intr (dv_type x) (dv_ops x) (dv_size x) (dv_sector_size x)
                 (dv_rq_list x)]> (devices (lget dev_lens s))) ∧
     cstr (lget mem_lens s') (dev_name d) l ∧
     locks (lget lock_lens s') =
       <[dev_lock d := Spinlock UNLOCKED
           (String.substring 0 SPINLOCK_NAME_MAX_LEN (lock_name (l ++ txt "-devlock"))) None]>
         (locks (lget lock_lens s)) ∧
     (∀ a, apart a 1 (dev_name d) 65 → apart a 1 dev_buffer 32 →
        lget mem_lens s' !! a = lget mem_lens s !! a)) ∧
  ((24 ≤ length l ≤ 63)%nat → lget mem_lens s !! (dev_buffer + 32) = None →
   device_init d devid intr name s = Fault).
Proof.
  intros Hroom Hx. pose proof Hroom as [Hn Hsf Hd Hb A1 A2 A3 A4 A5].
  assert (∀ A (k : unit → M S A), (upd_dev d (λ x, Device devid intr (dv_type x) (dv_ops x)
    (dv_size x) (dv_sector_size x) (dv_rq_list x)) ≫= k) s = k tt (lset dev_lens (Devs
      (device_list (lget dev_lens s)) (<[d := Device devid intr (dv_type x) (dv_ops x) (dv_size x)
        (dv_sector_size x) (dv_rq_list x)]> (devices (lget dev_lens s)))) s)) as Hupd.
  { intros A k. unfold upd_dev, put_dev. erewrite (mbind_Ret (S := S)); [reflexivity|].
    by erewrite mbind_Ret by (by apply get_dev_ok). }
  unfold device_init. rewrite Hupd. set (D := Devs _ _). set (s1 := lset dev_lens D s).
  assert (lget mem_lens s1 = lget mem_lens s) as Em1 by apply (indep_l mem_lens dev_lens).
  split.
  - intros Hlen.
    destruct (name_copied _ d name l Hroom ltac:(lia)) as (m1 & E1 & Hc1 & Hn1 & Hs1 & Hf1).
    unfold apart in A3.
    destruct (lock_name_built m1 name l) as (m2 & m3 & E2 & E3 & Hc3 & Hf3); try done.
    { apply (accessible_frame (lget mem_lens s)); [done|]. intros b Hb'. apply Hf1. lia. }
    erewrite mbind_Ret by (apply on_mem_step; rewrite Em1; exact E1).
    erewrite mbind_Ret by (apply on_mem_step; rewrite lens_get_set; exact E2).
    erewrite mbind_Ret by (apply on_mem_step; rewrite lens_get_set; exact E3).
    unfold spinlock_init_at. erewrite mbind_Ret.
    2: { apply on_mem_step. rewrite lens_get_set. apply (load_str_run _ _ _ name_fuel Hc3).
         rewrite length_app. unfold name_fuel. cbn. lia. }
    rewrite !lens_set_set. unfold lockinit, zoom, spinlock_init, modify.
    eexists. split; [reflexivity|].
    rewrite (indep_r lock_lens dev_lens), (indep_r mem_lens dev_lens).
    rewrite !(indep_r lock_lens mem_lens), (indep_l lock_lens mem_lens), !lens_get_set.
    unfold s1. rewrite (indep_l lock_lens dev_lens), lens_get_set. split_and!; [done| |done|].
    + apply (cstr_frame m1); [done|]. intros b Hb'. apply Hf3. unfold zlen in *. lia.
    + unfold apart. intros a Ha1 Ha2. rewrite Hf3, Hf1 by lia. done.
  - intros Hlen Hout.
    destruct (name_copied _ d name l Hroom ltac:(lia)) as (m1 & E1 & Hc1 & Hn1 & Hs1 & Hf1).
    erewrite mbind_Ret by (apply on_mem_step; rewrite Em1; exact E1).
    assert (zlen l = Z.of_nat (length l)) as Hzl by done. unfold apart in *.
    assert (accessible m1 dev_buffer 32) as Hb1.
    { apply (accessible_frame (lget mem_lens s)); [done|]. intros b Hb'. apply Hf1. lia. }
    assert (m1 !! (dev_buffer + 32) = None) as Hout1 by (rewrite Hf1 by lia; done).
    destruct (decide (length l ≤ 30)%nat).
    + destruct (strncpy_whole m1 dev_buffer name l SPINLOCK_NAME_MAX_LEN) as (m2 & E2 & Hc2 & Hf2);
        [done|by apply (accessible_le _ _ 32); [|lia]|lia|unfold SPINLOCK_NAME_MAX_LEN; lia|].
      erewrite mbind_Ret by (apply on_mem_step; rewrite lens_get_set; exact E2).
      munfold. rewrite on_mem_fault; [done|]. rewrite lens_get_set. unfold name_append_suffix.
      assert (cstr m2 str_devlock (txt "-devlock")) as Hs2.
      { apply (cstr_frame m1); [done|]. intros b Hb'. apply Hf2.
        change (zlen (txt "-devlock")) with 8 in Hb'. lia. }
      mstep (strlen_ok m2 dev_buffer l name_fuel Hc2 ltac:(unfold name_fuel; lia)).
      mstep (strlen_ok m2 str_devlock _ name_fuel Hs2 ltac:(unfold name_fuel; cbn; lia)).
      change (zlen (txt "-devlock")) with 8. cbv zeta.
      rewrite (proj2 (Z.ltb_lt _ _)) by (unfold DEV_NAME_MAX_LEN; lia).
      rewrite (proj2 (Z.leb_le 0 (zlen l))) by lia.
      cbn [andb massert]. erewrite mbind_Ret by reflexivity. munfold.
      rewrite (strncpy_fault _ _ _ (txt "-devlock") _ (32 - length l)); [done|done| | | |].
      * intros i Hi. replace (dev_buffer + zlen l + i) with (dev_buffer + (zlen l + i)) by lia.
        apply (accessible_dom m1 m2 dev_buffer 32); [|done|lia].
        by apply (strncpy_dom _ _ _ _ _ _ E2).
      * rewrite Hf2 by lia. rewrite <- Hout1. f_equal. lia.
      * change (zlen (txt "-devlock")) with 8. lia.
      * change (length (take _ _)) with 8%nat. lia.
    + munfold. rewrite on_mem_fault; [done|]. rewrite lens_get_set.
      apply (strncpy_fault _ _ _ l _ 32); [done|done|done|lia|].
      rewrite length_take, length_app. change SPINLOCK_NAME_MAX_LEN with 32%nat. cbn [length]. lia.
Qed.
End init.

(** ** A concrete system *)

Record dsys := DSys {
  ds_env : lockenv; ds_mem : bytes; ds_devs : devs; ds_tab : irqtab; ds_plic : plic; ds_next : Z
}.
Definition ds_env_lens : lens dsys lockenv :=
  Lens ds_env (λ x s, DSys x (ds_mem s) (ds_devs s) (ds_tab s) (ds_plic s) (ds_next s)).
Definition ds_mem_lens : lens dsys bytes :=
  Lens ds_mem (λ x s, DSys (ds_env s) x (ds_devs s) (ds_tab s) (ds_plic s) (ds_next s)).
Definition ds_devs_lens : lens dsys devs :=
  Lens ds_devs (λ x s, DSys (ds_env s) (ds_mem s) x (ds_tab s) (ds_plic s) (ds_next s)).
Definition ds_tab_lens : lens dsys irqtab :=
  Lens ds_tab (λ x s, DSys (ds_env s) (ds_mem s) (ds_devs s) x (ds_plic s) (ds_next s)).
Definition ds_plic_lens : lens dsys plic :=
  Lens ds_plic (λ x s, DSys (ds_env s) (ds_mem s) (ds_devs s) (ds_tab s) x (ds_next s)).

#[export] Program Instance dsys_locks : HasLocks dsys := {| lock_lens := ds_env_lens |}.
Next Obligation. by split; intros; destruct s || done. Qed.
#[export] Program Instance dsys_memory : HasMem dsys := {| mem_lens := ds_mem_lens |}.
Next Obligation. by split; intros; destruct s || done. Qed.

(** Memory of zeros, taken in order. *)
Definition ds_kalloc (n : Z) : M dsys Z := λ s,
  Ret (ds_next s, DSys (ds_env s)
    (list_to_map (zip (seqZ (ds_next s) n) (replicate (Z.to_nat n) 0)) ∪ ds_mem s)
    (ds_devs s) (ds_tab s) (ds_plic s) (ds_next s + n)).

#[export] Program Instance dsys_dev : DevState dsys := {|
  dev_locks := dsys_locks;
  dev_mem := dsys_memory;
  dev_lens := ds_devs_lens;
  dev_kalloc := ds_kalloc;
  devlst_lock := 1;
  dev_buffer := 0x200;
  class_buffer := 0x300;
  str_devlock := 0x100;
  str_blkrqlock := 0x120
|}.
Solve Obligations with (split; intros; try destruct s; reflexivity).

#[export] Program Instance dsys_irq : IrqState dsys := {|
  irq_tab := ds_tab_lens;
  irq_plic := ds_plic_lens;
  call_isr := λ _ _ _ s, Ret (IRQ_HANDLED, s)
|}.
Solve Obligations with (split; intros; try destruct s; reflexivity).

(** The literals, the buffers, and a name of [len] characters at [0x140]. *)
Definition demo_mem (name : list Z) : bytes :=
  list_to_map (zip (seqZ 0x100 9) (txt "-devlock" ++ [0])) ∪
  list_to_map (zip (seqZ 0x120 11) (txt "-blkrqlock" ++ [0])) ∪
  list_to_map (zip (seqZ 0x140 (zlen name + 1)) (name ++ [0])) ∪
  list_to_map (zip (seqZ 0x200 32) (replicate 32 0)) ∪
  list_to_map (zip (seqZ 0x300 64) (replicate 64 0)) ∪
  list_to_map (zip (seqZ 0x1000 144) (replicate 144 0)).
Definition junk_dev : device := Device 0 0 DEVICE_TYPE_OTHER 0 0 0 [].
Definition demo_env : lockenv :=
  LockEnv [Cpu 0 true true] {[1 := Spinlock UNLOCKED "devlst_lock" None]}.
Definition demo_dsys (name : list Z) : dsys :=
  DSys demo_env (demo_mem name) (Devs [] {[0x1000 := junk_dev]}) empty_tab (Plic ∅ [] [] 0) 0x2000.

(** A character device, from its allocation to its lookup by name. *)
Definition uart_up : M dsys Z :=
  dev ← chrdev_alloc junk_dev DEVID_UART 10 0x140 0x80000100;
  device_register dev 0x80000200;;
  on_mem (store_str 0x300 (txt "uart1" ++ [0]));;
  found ← device_get_by_name 0x300 DEVICE_TYPE_CHAR;
  any ← device_get_by_name 0x300 DEVICE_TYPE_ANY;
  massert (found =? dev);;
  mret any.

Example uart_found :
  match uart_up (demo_dsys (txt "uart")) with Ret (r, _) => r = 0 | _ => False end.
Proof. by vm_compute. Qed.

(** A name of 24 characters fits the field but not the lock's buffer. *)
Example long_name_faults :
  device_init 0x1000 1 10 0x140 (demo_dsys (replicate 24 97)) = Fault.
Proof. by vm_compute. Qed.

#[export] Instance dsys_indep1 : Indep (lock_lens (S := dsys)) (irq_tab (S := dsys)).
Proof. by split. Qed.
#[export] Instance dsys_indep2 : Indep (lock_lens (S := dsys)) (irq_plic (S := dsys)).
Proof. by split. Qed.
#[export] Instance dsys_indep3 : Indep (dev_lens (S := dsys)) (irq_tab (S := dsys)).
Proof. by split. Qed.
#[export] Instance dsys_indep4 : Indep (dev_lens (S := dsys)) (irq_plic (S := dsys)).
Proof. by split. Qed.

Lemma sys_lock_free s : ds_env s = demo_env → lock_free devlst_lock s.
Proof.
  intros E. unfold lock_free. change (lget lock_lens s) with (ds_env s). rewrite E.
  split; [|by exists "devlst_lock"%string]. exists (Cpu 0 true true).
  split; [done|]. split; [cbn; lia|]. cbn. lia.
Qed.

Lemma demo_accessible m a n :
  forallb (λ i, bool_decide (is_Some (m !! (a + i)))) (seqZ 0 n) = true → accessible m a n.
Proof.
  intros E i Hi. apply forallb_forall with (x := i) in E; [by apply bool_decide_eq_true in E|].
  apply list_elem_of_In, elem_of_seqZ. lia.
Qed.

Lemma device_init_spec_witness :
  (∃ s', device_init 0x1000 1 10 0x140 (demo_dsys (txt "uart1")) = Ret (tt, s') ∧
    cstr (ds_mem s') (dev_name 0x1000) (txt "uart1")) ∧
  device_init 0x1000 1 10 0x140 (demo_dsys (replicate 24 97)) = Fault.
Proof.
  split.
  - destruct (device_init_spec 0x1000 junk_dev 1 10 0x140 (txt "uart1") (demo_dsys (txt "uart1")))
      as [Hok _].
    + split; try (by apply cstr_intro; vm_compute); try (by apply demo_accessible; vm_compute);
        vm_compute; by (left; discriminate) || (right; discriminate).
    + reflexivity.
    + destruct Hok as (s' & E & _ & Hc & _); [cbn; lia|]. exists s'. split; [exact E|exact Hc].
  - apply (device_init_spec 0x1000 junk_dev 1 10 0x140 (replicate 24 97)
      (demo_dsys (replicate 24 97))).
    + split; try (by apply cstr_intro; vm_compute); try (by apply demo_accessible; vm_compute);
        vm_compute; by (left; discriminate) || (right; discriminate).
    + reflexivity.
    + cbn. lia.
    + by vm_compute.
Defined.

(** The device above, named and listed. *)
Definition named_dsys : dsys :=
  DSys demo_env
    (list_to_map (zip (seqZ (dev_name 0x1000) 6) (txt "uart1" ++ [0])) ∪ demo_mem (txt "uart1"))
    (Devs [0x1000] {[0x1000 := Device 1 10 DEVICE_TYPE_CHAR 0x80000100 0 0 [];
                     0x5000 := Device 2 10 DEVICE_TYPE_NET 0x80000300 0 0 []]})
    empty_tab (Plic ∅ [] [] 0) 0x2000.

Lemma device_search_spec_witness :
  device_get_by_name 0x140 DEVICE_TYPE_CHAR named_dsys = Ret (0x1000, unlocked named_dsys) ∧
  device_get_by_id 2 DEVICE_TYPE_CHAR named_dsys = Ret (0, unlocked named_dsys) ∧
  device_get_default DEVICE_TYPE_CHAR named_dsys = Ret (0x1000, unlocked named_dsys).
Proof.
  destruct (device_search_spec (λ _, txt "uart1") named_dsys 0x140 (txt "uart1") 2
    DEVICE_TYPE_CHAR) as (E1 & E2 & E3).
  - by apply sys_lock_free.
  - intros d Hd. change (d ∈ [0x1000]) in Hd. apply list_elem_of_singleton in Hd as ->.
    split; [by eexists|by apply cstr_intro; vm_compute].
  - by apply cstr_intro; vm_compute.
  - split_and!; (etrans; [eassumption|do 2 f_equal; by vm_compute]).
Defined.

Lemma device_register_spec_witness :
  ∃ s', device_register 0x5000 0x80000200 named_dsys = Ret (tt, s') ∧
    first (by_id 2 DEVICE_TYPE_NET) (ds_devs s') = 0x5000 ∧
    handler_of (ds_tab s') 10 = Some (0x80000200, 0x5000).
Proof.
  destruct (device_register_spec 0x5000 (Device 2 10 DEVICE_TYPE_NET 0x80000300 0 0 [])
    0x80000200 named_dsys) as (s' & E & _ & Hp & _ & Hh).
  - by apply sys_lock_free.
  - done.
  - reflexivity.
  - done.
  - done.
  - cbn. lia.
  - intros d Hd. change (d ∈ [0x1000]) in Hd. by apply list_elem_of_singleton in Hd as ->.
  - exists s'. split_and!; [exact E| |].
    + etrans; [apply (Hp (by_id 2 DEVICE_TYPE_NET))|reflexivity].
    + etrans; [apply (Hh 10)|reflexivity].
Defined.
