(* ===== verification/Uart.v ===== *)
(** * The serial port and its character device

    Models [kernel/arch/riscv/drivers/uart.c] in both builds (with [BIOS_SBI], which the
    Makefile sets, and without), the console calls of [sbi/sbi.h], and [kernel/drivers/uart.c],
    which makes the port a character device.  The port is a device of its own: what its
    status registers will answer is an input, what it was given to send an output. *)

From S2P Require Export Device.
From S2P Require Import Printf.

(** ** The port *)

Definition RHR : Z := 0.
Definition THR : Z := 0.
Definition DLL : Z := 0.
Definition DLM : Z := 1.
Definition IER : Z := 1.
Definition FCR : Z := 2.
Definition IIR : Z := 2.
Definition LCR : Z := 3.
Definition LSR : Z := 5.
Definition LSR_TX_IDLE : Z := Z.shiftl 1 5.
Definition FCR_FIFO_EN : Z := Z.shiftl 1 0.
Definition FCR_FIFO_CLR : Z := Z.shiftl 3 1.
Definition IER_TX_EN : Z := Z.shiftl 1 1.
Definition IER_RX_EN : Z := Z.shiftl 1 0.
Definition IIR_NO_INT : Z := Z.shiftl 1 1.
Definition IIR_ID_MASK : Z := 0x0f.
Definition IIR_TX_EMPTY : Z := Z.shiftl 1 1.
Definition IIR_RX_READY : Z := Z.shiftl 1 3.
Definition IIR_RX_TIMEOUT : Z := Z.shiftl 1 6.
Definition UART_TX_BUF_SIZE : Z := 32.

(** What [put_char] and [get_char] point to. *)
Inductive confn := Unset | Port | Sbi.
#[export] Instance confn_eq_dec : EqDecision confn.
Proof. solve_decision. Defined.

(** The registers written, the answers to come of the line status, the interrupt
    identification and the receive register, the bytes sent; then the variables of the driver. *)
Record uart := Uart {
  u_ier : Z;
  u_fcr : Z;
  u_lcr : Z;
  u_divisor : Z * Z;
  u_lsr : list Z;
  u_iir : list Z;
  u_input : list Z;
  u_sent : list Z;
  uart_tx_buf : list Z;
  uart_tx_r : Z;
  uart_tx_w : Z;
  con : confn
}.

Definition set_sent l u := Uart (u_ier u) (u_fcr u) (u_lcr u) (u_divisor u) (u_lsr u) (u_iir u)
  (u_input u) l (uart_tx_buf u) (uart_tx_r u) (uart_tx_w u) (con u).
Definition set_lsr l u := Uart (u_ier u) (u_fcr u) (u_lcr u) (u_divisor u) l (u_iir u)
  (u_input u) (u_sent u) (uart_tx_buf u) (uart_tx_r u) (uart_tx_w u) (con u).
Definition set_iir l u := Uart (u_ier u) (u_fcr u) (u_lcr u) (u_divisor u) (u_lsr u) l
  (u_input u) (u_sent u) (uart_tx_buf u) (uart_tx_r u) (uart_tx_w u) (con u).
Definition set_input l u := Uart (u_ier u) (u_fcr u) (u_lcr u) (u_divisor u) (u_lsr u) (u_iir u)
  l (u_sent u) (uart_tx_buf u) (uart_tx_r u) (uart_tx_w u) (con u).
Definition set_ctl i f l d u := Uart i f l d (u_lsr u) (u_iir u)
  (u_input u) (u_sent u) (uart_tx_buf u) (uart_tx_r u) (uart_tx_w u) (con u).
Definition set_tx b r w u := Uart (u_ier u) (u_fcr u) (u_lcr u) (u_divisor u) (u_lsr u) (u_iir u)
  (u_input u) (u_sent u) b r w (con u).
Definition set_con c u := Uart (u_ier u) (u_fcr u) (u_lcr u) (u_divisor u) (u_lsr u) (u_iir u)
  (u_input u) (u_sent u) (uart_tx_buf u) (uart_tx_r u) (uart_tx_w u) c.

(** A status register answers 0 when no answer is left; registers 0 and 1 are the divisor while
    bit 7 of the line control is set. *)
Definition dlab (u : uart) : bool := Z.testbit (u_lcr u) 7.
Definition uart_read_reg (reg : Z) : M uart Z := λ u,
  if reg =? LSR then Ret (u8 (default 0 (head (u_lsr u))), set_lsr (tail (u_lsr u)) u)
  else if reg =? IIR then Ret (u8 (default 0 (head (u_iir u))), set_iir (tail (u_iir u)) u)
  else if reg =? RHR then Ret (u8 (default 0 (head (u_input u))), set_input (tail (u_input u)) u)
  else if reg =? LCR then Ret (u_lcr u, u)
  else Ret (0, u).
Definition uart_write_reg (reg v : Z) : M uart unit :=
  modify (λ u,
    let v := u8 v in
    if reg =? THR then
      if dlab u then set_ctl (u_ier u) (u_fcr u) (u_lcr u) (v, (u_divisor u).2) u
      else set_sent (u_sent u ++ [v]) u
    else if reg =? IER then
      if dlab u then set_ctl (u_ier u) (u_fcr u) (u_lcr u) ((u_divisor u).1, v) u
      else set_ctl v (u_fcr u) (u_lcr u) (u_divisor u) u
    else if reg =? FCR then set_ctl (u_ier u) v (u_lcr u) (u_divisor u) u
    else if reg =? LCR then set_ctl (u_ier u) (u_fcr u) v (u_divisor u) u
    else u).

(** A system with a serial port: where it is, [sleep] and [wakeup] on a channel, and the
    firmware call of an extension with its function and first argument, which gives [error]
    and [value]. *)
Class UartState (S : Type) := {
  uart_lens : lens S uart;
  #[global] uart_lens_lawful :: LawfulLens uart_lens;
  u_sleep : M S unit;
  u_wakeup : M S unit;
  sbi_ecall : Z → Z → Z → M S (Z * Z)
}.

Definition SBI_EXT_LEGACY_CONSOLE : Z := 0x1.
Definition SBI_FUNC_CONSOLE_PUTCHAR : Z := 0.
Definition SBI_FUNC_CONSOLE_GETCHAR : Z := 1.
Definition SBI_SUCCESS : Z := 0.

Section uart.
Context {S : Type} `{UartState S}.
Variable bios_sbi : bool.

Definition on_uart {A} (m : M uart A) : M S A := zoom uart_lens m.

(** ** [uart.c] *)

Definition uart_buf_empty : M S bool :=
  u ← gets (lget uart_lens); mret (uart_tx_r u =? uart_tx_w u).
Definition uart_buf_full : M S bool :=
  u ← gets (lget uart_lens); mret (uart_tx_w u =? u64 (uart_tx_r u + UART_TX_BUF_SIZE)).
Definition uart_buf_write (c : Z) : M S unit :=
  on_uart (u ← mget;
    b ← mlift (zset (uart_tx_buf u) (uart_tx_w u mod UART_TX_BUF_SIZE) (u8 c));
    modify (set_tx b (uart_tx_r u) (u64 (uart_tx_w u + 1)))).
Definition uart_buf_read : M S Z :=
  on_uart (u ← mget;
    c ← mlift (znth (uart_tx_buf u) (uart_tx_r u mod UART_TX_BUF_SIZE));
    modify (set_tx (uart_tx_buf u) (u64 (uart_tx_r u + 1)) (uart_tx_w u));;
    mret c).

Definition sbi_console_putc (c : Z) : M S Z :=
  '(error, value) ← sbi_ecall SBI_EXT_LEGACY_CONSOLE SBI_FUNC_CONSOLE_PUTCHAR c;
  mret (if error =? SBI_SUCCESS then i32 value else -1).
Definition sbi_console_getc : M S Z :=
  '(error, value) ← sbi_ecall SBI_EXT_LEGACY_CONSOLE SBI_FUNC_CONSOLE_GETCHAR 0;
  mret (if error =? SBI_SUCCESS then i32 value else -1).

Definition uart_init : M S unit :=
  if bios_sbi then on_uart (modify (set_con Sbi))
  else
    on_uart (
      modify (set_con Port);;
      uart_write_reg IER 0x00;;
      lcr ← uart_read_reg LCR;
      uart_write_reg LCR (Z.lor (Z.shiftl 1 7) lcr);;
      uart_write_reg DLL 0x03;;
      uart_write_reg DLM 0x00;;
      uart_write_reg LCR 0x03;;
      uart_write_reg FCR (Z.lor FCR_FIFO_EN FCR_FIFO_CLR)).

(** The polling loop; it can look at each answer of the status register to come. *)
Fixpoint wait_idle (fuel : nat) : M uart unit :=
  match fuel with
  | O => mspin
  | Datatypes.S fuel =>
      lsr ← uart_read_reg LSR;
      if Z.land lsr LSR_TX_IDLE =? 0 then wait_idle fuel else mret tt
  end.
Definition uart_putc_sync (c : Z) : M S Z :=
  on_uart (
    u ← mget;
    wait_idle (length (u_lsr u));;
    uart_write_reg THR c;;
    mret (u8 c)).

(** At most the bytes of the buffer are sent. *)
Fixpoint start_loop (fuel : nat) : M S unit :=
  match fuel with
  | O => mspin
  | Datatypes.S fuel =>
      empty ← uart_buf_empty;
      if (empty : bool) then on_uart (uart_write_reg IER IER_RX_EN)
      else
        lsr ← on_uart (uart_read_reg LSR);
        if Z.land lsr LSR_TX_IDLE =? 0 then mret tt
        else
          c ← uart_buf_read;
          u_wakeup;;
          on_uart (uart_write_reg THR c);;
          start_loop fuel
  end.
Definition uart_start : M S unit := start_loop (Z.to_nat UART_TX_BUF_SIZE + 1).

(** [fuel] bounds the sleeps. *)
Fixpoint putc_loop (fuel : nat) (c : Z) : M S unit :=
  match fuel with
  | O => mspin
  | Datatypes.S fuel =>
      full ← uart_buf_full;
      if (full : bool) then u_sleep;; putc_loop fuel c
      else uart_buf_write c;; uart_start
  end.
Definition uart_putc (fuel : nat) (c : Z) : M S unit :=
  on_uart (uart_write_reg IER (Z.lor IER_RX_EN IER_TX_EN));;
  putc_loop fuel c.

Definition uart_getc : M S Z :=
  on_uart (
    lsr ← uart_read_reg LSR;
    if ctrue (Z.land lsr 0x01) then uart_read_reg RHR else mret (-1)).

Definition uart_isr : M S Z :=
  if bios_sbi then mret 0
  else
    iir ← on_uart (uart_read_reg IIR);
    if ctrue (Z.land iir IIR_NO_INT) then mret (-1)
    else
      let id := Z.land iir IIR_ID_MASK in
      if (id =? IIR_RX_TIMEOUT) || (id =? IIR_RX_READY) then mret 0
      else if id =? IIR_TX_EMPTY then uart_start;; mret 0
      else mret (-1).

(** ** The console ([include/drivers/uart.h]) *)

Definition putchar (c : Z) : M S Z :=
  u ← gets (lget uart_lens);
  match con u with
  | Unset => mfault
  | Port => uart_putc_sync c
  | Sbi => sbi_console_putc c
  end.
Definition getchar : M S Z :=
  u ← gets (lget uart_lens);
  match con u with
  | Unset => mfault
  | Port => uart_getc
  | Sbi => sbi_console_getc
  end.

(** ** The character device ([kernel/drivers/uart.c]); a [char] is unsigned on RISC-V *)

Definition uart_putchar (chrdev c : Z) : M S unit := putchar c;; mret tt.
Definition uart_getchar (chrdev : Z) : M S Z := c ← getchar; mret (u8 c).
Definition uart_irq_handle (chrdev : Z) : M S Z :=
  ret ← uart_isr;
  mret (if ret <? 0 then IRQ_ERR else IRQ_HANDLED).
Definition uart_chrops : chrdev_ops S := ChrOps uart_putchar uart_getchar (Some uart_irq_handle).

Definition UART0_IRQ : Z := 10.
Definition uart_device_init `{DevState S} `{DevOps S} `{IrqState S}
    (junk : device) (name ops chr_isr : Z) : M S unit :=
  dev ← chrdev_alloc junk DEVID_UART UART0_IRQ name ops;
  if dev =? 0 then mret tt else chrdev_register chr_isr dev.
End uart.

(** ** The transmit buffer is a queue *)

(** The bytes between the counters, which are 64-bit words that wrap. *)
Definition pending_len (u : uart) : Z := u64 (uart_tx_w u - uart_tx_r u).
Definition ring_at (u : uart) (i : Z) : Z :=
  default 0 (znth (uart_tx_buf u) ((uart_tx_r u + i) mod UART_TX_BUF_SIZE)).
Definition pending (u : uart) : list Z := ring_at u <$> seqZ 0 (pending_len u).

Record tx_ok (u : uart) : Prop := TxOk {
  tx_buf : zlen (uart_tx_buf u) = UART_TX_BUF_SIZE;
  tx_bytes : Forall (λ c, 0 ≤ c < 256) (uart_tx_buf u);
  tx_r : 0 ≤ uart_tx_r u < 2 ^ 64;
  tx_w : 0 ≤ uart_tx_w u < 2 ^ 64;
  tx_len : pending_len u ≤ UART_TX_BUF_SIZE;
  tx_dlab : dlab u = false
}.

Lemma u64_mod32 z : u64 z mod UART_TX_BUF_SIZE = z mod UART_TX_BUF_SIZE.
Proof. unfold u64. apply Z.mod_mod_divide. by exists (2 ^ 59). Qed.

Lemma pending_len_range u : 0 ≤ pending_len u.
Proof. apply u64_range. Qed.

Lemma zlen_pending u : zlen (pending u) = pending_len u.
Proof. unfold zlen, pending. rewrite length_fmap, length_seqZ. pose proof (pending_len_range u). lia. Qed.

(** The counters are equal exactly when nothing is buffered. *)
Lemma tx_empty u : tx_ok u → (uart_tx_r u =? uart_tx_w u) = (pending_len u =? 0).
Proof.
  intros [_ _ Hr Hw _ _]. unfold pending_len, u64. apply eq_true_iff_eq. rewrite !Z.eqb_eq.
  split; [intros ->; by rewrite Z.sub_diag|]. intros E. apply Z.mod_divide in E as [k E]; lia.
Qed.
Lemma tx_full u :
  tx_ok u → (uart_tx_w u =? u64 (uart_tx_r u + UART_TX_BUF_SIZE)) =
            (pending_len u =? UART_TX_BUF_SIZE).
Proof.
  intros [_ _ Hr Hw _ _]. unfold pending_len, u64, UART_TX_BUF_SIZE. apply eq_true_iff_eq.
  rewrite !Z.eqb_eq. split; intros E; Z.div_mod_to_equations; lia.
Qed.

Lemma ring_lookup u i :
  tx_ok u → znth (uart_tx_buf u) ((uart_tx_r u + i) mod UART_TX_BUF_SIZE) = Some (ring_at u i).
Proof.
  intros [Hb _ _ _ _ _]. unfold ring_at. destruct (znth_lt (uart_tx_buf u)
    ((uart_tx_r u + i) mod UART_TX_BUF_SIZE)) as [x ->]; [|done].
  rewrite Hb. apply Z.mod_pos_bound. done.
Qed.

(** Taking the oldest byte. *)
Definition taken (u : uart) : uart :=
  set_tx (uart_tx_buf u) (u64 (uart_tx_r u + 1)) (uart_tx_w u) u.

Lemma taken_len u : tx_ok u → pending_len u ≠ 0 → pending_len (taken u) = pending_len u - 1.
Proof.
  intros [_ _ Hr Hw _ _]. pose proof (pending_len_range u) as Hp. revert Hp.
  unfold pending_len, taken, u64. cbn. intros. Z.div_mod_to_equations. lia.
Qed.

Lemma taken_spec u :
  tx_ok u → pending_len u ≠ 0 → tx_ok (taken u) ∧ pending u = ring_at u 0 :: pending (taken u).
Proof.
  intros Hok Hne. pose proof (taken_len u Hok Hne) as Hlen.
  pose proof (pending_len_range u) as Hp. destruct Hok as [Hb Hby Hr Hw Hl Hd]. split.
  { split; [done|done|apply u64_range|done|lia|done]. }
  unfold pending at 1. rewrite seqZ_cons by lia. cbn [fmap list_fmap]. f_equal.
  unfold pending. rewrite Hlen. change (Z.succ 0) with (1 + 0).
  rewrite <- fmap_add_seqZ, <- list_fmap_compose.
  replace (Z.pred (pending_len u)) with (pending_len u - 1) by lia.
  apply list_fmap_ext. intros k i _. unfold ring_at, taken, compose. cbn.
  do 2 f_equal. rewrite <- (Zplus_mod_idemp_l (u64 _)), u64_mod32, Zplus_mod_idemp_l.
  f_equal. lia.
Qed.

(** Adding a byte. *)
Definition added (c : Z) (u : uart) : uart :=
  set_tx (<[Z.to_nat (uart_tx_w u mod UART_TX_BUF_SIZE) := u8 c]> (uart_tx_buf u))
    (uart_tx_r u) (u64 (uart_tx_w u + 1)) u.

Lemma added_spec c u :
  tx_ok u → pending_len u ≠ UART_TX_BUF_SIZE →
  tx_ok (added c u) ∧ pending (added c u) = pending u ++ [u8 c].
Proof.
  intros [Hb Hby Hr Hw Hl Hd] Hne. pose proof (pending_len_range u) as Hp.
  assert (pending_len (added c u) = pending_len u + 1) as Hlen.
  { revert Hp Hne Hl. unfold pending_len, added, u64, UART_TX_BUF_SIZE. cbn. intros.
    Z.div_mod_to_equations. lia. }
  assert ((uart_tx_r u + pending_len u) mod UART_TX_BUF_SIZE = uart_tx_w u mod UART_TX_BUF_SIZE)
    as Hend.
  { unfold pending_len. rewrite <- (Zplus_mod_idemp_r (u64 _)), u64_mod32, Zplus_mod_idemp_r.
    f_equal. lia. }
  pose proof (Z.mod_pos_bound (uart_tx_w u) UART_TX_BUF_SIZE ltac:(done)) as Hi.
  split.
  { split; [|apply Forall_insert; [done|apply u8_range]|done|apply u64_range|lia|done].
    unfold added, zlen. cbn. by rewrite length_insert. }
  unfold pending. rewrite Hlen, seqZ_app, fmap_app by lia. cbn [seqZ]. f_equal.
  - apply list_fmap_ext. intros k i Hk. apply lookup_seqZ in Hk as [-> Hk].
    unfold ring_at, added. cbn. f_equal.
    unfold znth. case_decide; [|done]. apply list_lookup_insert_ne.
    enough (uart_tx_w u mod UART_TX_BUF_SIZE ≠ (uart_tx_r u + (0 + Z.of_nat k)) mod UART_TX_BUF_SIZE)
      by lia.
    rewrite <- Hend. unfold UART_TX_BUF_SIZE in *. Z.div_mod_to_equations. lia.
  - change (seqZ (0 + pending_len u) 1) with [0 + pending_len u]. cbn. f_equal.
    unfold ring_at, added. cbn. rewrite Z.add_0_l, Hend. unfold znth.
    rewrite decide_True by lia. rewrite list_lookup_insert_eq; [done|].
    unfold zlen in Hb. lia.
Qed.

Lemma ring_byte u i : tx_ok u → u8 (ring_at u i) = ring_at u i.
Proof.
  intros Hok. pose proof (ring_lookup u i Hok) as E. apply u8_small.
  apply znth_Some in E as [_ E]. destruct Hok as [_ Hby _ _ _ _].
  rewrite Forall_lookup in Hby. by apply Hby in E.
Qed.

Section tx.
Context {S : Type} `{UartState S}.
Context (Hwake : ∀ s, ∃ s', u_wakeup s = Ret (tt, s') ∧ lget uart_lens s' = lget uart_lens s).

Lemma on_uart_run {A} (m : M uart A) s a u :
  m (lget uart_lens s) = Ret (a, u) → on_uart m s = Ret (a, lset uart_lens u s).
Proof. intros E. unfold on_uart, zoom. by rewrite E. Qed.

Lemma uart_write_ier v u :
  dlab u = false → uart_write_reg IER v u =
    Ret (tt, set_ctl (u8 v) (u_fcr u) (u_lcr u) (u_divisor u) u).
Proof. intros E. unfold uart_write_reg, modify. change (IER =? THR) with false. by rewrite E. Qed.
Lemma uart_write_thr v u :
  dlab u = false → uart_write_reg THR v u = Ret (tt, set_sent (u_sent u ++ [u8 v]) u).
Proof. intros E. unfold uart_write_reg, modify. by rewrite E. Qed.

Lemma uart_buf_empty_run s :
  tx_ok (lget uart_lens s) →
  uart_buf_empty s = Ret (pending_len (lget uart_lens s) =? 0, s).
Proof. intros Hok. unfold uart_buf_empty. munfold. by rewrite tx_empty. Qed.

Lemma uart_buf_full_run s :
  tx_ok (lget uart_lens s) →
  uart_buf_full s = Ret (pending_len (lget uart_lens s) =? UART_TX_BUF_SIZE, s).
Proof. intros Hok. unfold uart_buf_full. munfold. by rewrite tx_full. Qed.

(** [uart_start] sends the oldest bytes while the port takes them. *)
Lemma start_loop_run fuel : ∀ s,
  tx_ok (lget uart_lens s) → pending_len (lget uart_lens s) < Z.of_nat fuel →
  ∃ s', start_loop fuel s = Ret (tt, s') ∧ tx_ok (lget uart_lens s') ∧
    u_sent (lget uart_lens s') ++ pending (lget uart_lens s') =
      u_sent (lget uart_lens s) ++ pending (lget uart_lens s) ∧
    u_ier (lget uart_lens s') =
      (if pending_len (lget uart_lens s') =? 0 then IER_RX_EN else u_ier (lget uart_lens s)).
Proof.
  induction fuel as [|fuel IH]; intros s Hok Hlen.
  { pose proof (pending_len_range (lget uart_lens s)). lia. }
  set (u := lget uart_lens s) in *. cbn [start_loop].
  erewrite mbind_Ret by (by apply uart_buf_empty_run). fold u. destruct (Z.eqb_spec (pending_len u) 0) as [E0|Hne].
  - rewrite (on_uart_run _ _ _ _ (uart_write_ier IER_RX_EN u (tx_dlab _ Hok))). eexists. split; [reflexivity|]. rewrite lens_get_set.
    split_and!; [by destruct Hok; split|done|].
    change (pending_len (set_ctl _ _ _ _ u)) with (pending_len u). by rewrite E0.
  - erewrite mbind_Ret by (by apply on_uart_run). fold u.
    set (u1 := set_lsr (tail (u_lsr u)) u).
    assert (tx_ok u1) as Hok1 by (by destruct Hok; split).
    destruct (Z.land _ _ =? 0).
    + eexists. split; [reflexivity|]. rewrite lens_get_set. split_and!; [done..|].
      change (pending_len u1) with (pending_len u). by rewrite (proj2 (Z.eqb_neq _ _)).
    + destruct (taken_spec u1 Hok1 Hne) as [Hok2 Hp].
      unfold uart_buf_read. erewrite mbind_Ret.
      2: { apply on_uart_run. rewrite lens_get_set. unfold mget. erewrite mbind_Ret by reflexivity.
           rewrite <- (Z.add_0_r (uart_tx_r u1)) at 1.
           erewrite mbind_Ret by (unfold mlift; rewrite (ring_lookup u1 0 Hok1); reflexivity).
           reflexivity. }
      fold (taken u1). rewrite lens_set_set.
      destruct (Hwake (lset uart_lens (taken u1) s)) as (s2 & E2 & Hu2).
      rewrite lens_get_set in Hu2. erewrite mbind_Ret by exact E2.
      erewrite mbind_Ret.
      2: { apply on_uart_run. rewrite Hu2. by apply uart_write_thr, tx_dlab. }
      destruct (IH (lset uart_lens (set_sent (u_sent (taken u1) ++ [u8 (ring_at u1 0)]) (taken u1)) s2))
        as (s' & E & Hok' & Hs & Hi).
      { rewrite lens_get_set. by destruct Hok2; split. }
      { rewrite lens_get_set. change (pending_len (set_sent _ _)) with (pending_len (taken u1)).
        rewrite taken_len by done. change (pending_len u1) with (pending_len u). lia. }
      rewrite lens_get_set in Hs, Hi.
      exists s'. split_and!; [exact E|done| |exact Hi]. rewrite Hs.
      change (pending u) with (pending u1). rewrite Hp, ring_byte by done.
      change (pending (set_sent _ _)) with (pending (taken u1)).
      change (u_sent (set_sent ?l _)) with l. by rewrite <- app_assoc.
Qed.

(** The transmit buffer is a queue: with room in it [uart_putc] returns, and the bytes sent
    followed by the bytes still buffered are those of before followed by the new one, across
    the wrap of the counters; the transmit interrupt is off exactly when nothing is left. *)
Theorem uart_putc_fifo fuel c s :
  tx_ok (lget uart_lens s) → pending_len (lget uart_lens s) < UART_TX_BUF_SIZE →
  ∃ s', uart_putc (Datatypes.S fuel) c s = Ret (tt, s') ∧ tx_ok (lget uart_lens s') ∧
    u_sent (lget uart_lens s') ++ pending (lget uart_lens s') =
      u_sent (lget uart_lens s) ++ pending (lget uart_lens s) ++ [u8 c] ∧
    Z.testbit (u_ier (lget uart_lens s')) 1 = negb (bool_decide (pending (lget uart_lens s') = [])).
Proof.
  intros Hok Hlen. set (u := lget uart_lens s) in *. unfold uart_putc.
  set (ier := Z.lor IER_RX_EN IER_TX_EN).
  erewrite mbind_Ret by (by apply on_uart_run, uart_write_ier, tx_dlab).
  fold u.
  set (u1 := set_ctl _ _ _ _ u). assert (tx_ok u1) as Hok1 by (by destruct Hok; split).
  cbn [putc_loop]. erewrite mbind_Ret by (apply uart_buf_full_run; by rewrite lens_get_set).
  rewrite lens_get_set, (proj2 (Z.eqb_neq _ _)) by
    (change (pending_len u1) with (pending_len u); lia).
  destruct (added_spec c u1 Hok1) as [Hok2 Hp2]; [change (pending_len u1) with (pending_len u); lia|].
  unfold uart_buf_write. erewrite mbind_Ret.
  2: { apply on_uart_run. rewrite lens_get_set. unfold mget. erewrite mbind_Ret by reflexivity.
       unfold zset. pose proof (Z.mod_pos_bound (uart_tx_w u1) UART_TX_BUF_SIZE ltac:(done)).
       rewrite decide_True by (rewrite (tx_buf _ Hok1); done). reflexivity. }
  fold (added c u1). rewrite lens_set_set. unfold uart_start.
  destruct (start_loop_run (Z.to_nat UART_TX_BUF_SIZE + 1) (lset uart_lens (added c u1) s))
    as (s' & E & Hok' & Hs & Hi).
  { by rewrite lens_get_set. }
  { rewrite lens_get_set.
    apply Z.le_lt_trans with UART_TX_BUF_SIZE; [apply (tx_len _ Hok2)|done]. }
  rewrite lens_get_set in Hs, Hi. exists s'. split_and!; [exact E|done| |].
  - rewrite Hs, Hp2. done.
  - rewrite Hi, <- zlen_pending. destruct (pending (lget uart_lens s')) as [|x l]; [done|].
    rewrite zlen_cons. pose proof (zlen_nonneg l). rewrite (proj2 (Z.eqb_neq _ _)) by lia. done.
Qed.

(** Without the firmware build the interrupt handler of the port never sends: a buffered
    byte stays in the buffer whatever the interrupt identification register says, since the
    test for no interrupt is the bit that says the transmitter is empty. *)
Theorem uart_isr_never_sends s :
  ∃ r s', uart_isr false s = Ret (r, s') ∧
    u_sent (lget uart_lens s') = u_sent (lget uart_lens s) ∧
    pending (lget uart_lens s') = pending (lget uart_lens s) ∧
    (Z.testbit (default 0 (head (u_iir (lget uart_lens s)))) 1 = true → r = -1).
Proof.
  unfold uart_isr. erewrite mbind_Ret by (by apply on_uart_run).
  set (iir := u8 _). set (s1 := lset uart_lens _ s).
  assert (ctrue (Z.land iir IIR_NO_INT) = Z.testbit iir 1) as Hbit.
  { change IIR_NO_INT with (2 ^ 1). exact (flag_bit iir 1 ltac:(done)). }
  assert (Z.testbit iir 1 = Z.testbit (default 0 (head (u_iir (lget uart_lens s)))) 1) as Hb.
  { unfold iir, u8. by rewrite Z.mod_pow2_bits_low by lia. }
  assert (u_sent (lget uart_lens s1) = u_sent (lget uart_lens s) ∧
    pending (lget uart_lens s1) = pending (lget uart_lens s)) as [Hs Hp].
  { unfold s1. by rewrite lens_get_set. }
  rewrite Hbit. destruct (Z.testbit iir 1) eqn:E1; [by eexists _, _|]. rewrite <- Hb.
  destruct (_ || _); [by eexists _, _|].
  destruct (Z.eqb_spec (Z.land iir IIR_ID_MASK) IIR_TX_EMPTY) as [E|]; [|by eexists _, _].
  exfalso. assert (Z.testbit (Z.land iir IIR_ID_MASK) 1 = Z.testbit IIR_TX_EMPTY 1) as Ht
    by (by rewrite E).
  rewrite Z.land_spec, E1 in Ht. done.
Qed.
End tx.

(** ** Polling and the firmware *)

Section console.
Context {S : Type} `{UartState S}.

Lemma uart_read_lsr u v l :
  u_lsr u = v :: l → uart_read_reg LSR u = Ret (u8 v, set_lsr l u).
Proof. intros E. unfold uart_read_reg. change (LSR =? LSR) with true. by rewrite E. Qed.

(** The polling loop reads answers up to the first idle one. *)
Lemma wait_idle_run u : ∀ busy l,
  u_lsr u = busy ++ l → Forall (λ v, Z.land (u8 v) LSR_TX_IDLE = 0) busy →
  (∃ v l', l = v :: l' ∧ Z.land (u8 v) LSR_TX_IDLE ≠ 0 ∧
    wait_idle (length (u_lsr u)) u = Ret (tt, set_lsr l' u)) ∨
  (l = [] ∧ wait_idle (length (u_lsr u)) u = Spin) ∨
  (∃ v l', l = v :: l' ∧ Z.land (u8 v) LSR_TX_IDLE = 0).
Proof.
  intros busy l. destruct l as [|v l'].
  - intros El Hb. right. left. split; [done|]. rewrite app_nil_r in El. rewrite El.
    revert u El. induction Hb as [|v busy Hv Hb IH]; intros u El; [done|].
    cbn [length wait_idle]. erewrite mbind_Ret by (by apply uart_read_lsr).
    rewrite Hv. cbn [Z.eqb]. by apply IH.
  - intros El Hb. destruct (decide (Z.land (u8 v) LSR_TX_IDLE = 0)); [right; right; eauto|].
    left. exists v, l'. split_and!; [done..|]. rewrite El, length_app.
    revert u El. induction Hb as [|w busy Hw Hb IH]; intros u El.
    + cbn [app length Nat.add wait_idle]. erewrite mbind_Ret by (by apply uart_read_lsr).
      by rewrite (proj2 (Z.eqb_neq _ _)).
    + cbn [length Nat.add wait_idle]. erewrite mbind_Ret by (by apply uart_read_lsr).
      rewrite Hw. cbn [Z.eqb]. by rewrite IH.
Qed.

(** [uart_putc_sync] sends exactly its byte once the port says it is idle, and spins when it
    never does. *)
Lemma uart_putc_sync_run c s busy l :
  dlab (lget uart_lens s) = false →
  u_lsr (lget uart_lens s) = busy ++ l → Forall (λ v, Z.land (u8 v) LSR_TX_IDLE = 0) busy →
  match l with
  | v :: l' => Z.land (u8 v) LSR_TX_IDLE ≠ 0 →
      uart_putc_sync c s = Ret (u8 c, lset uart_lens
        (set_sent (u_sent (lget uart_lens s) ++ [u8 c]) (set_lsr l' (lget uart_lens s))) s)
  | [] => uart_putc_sync c s = Spin
  end.
Proof.
  intros Hd El Hb. set (u := lget uart_lens s) in *.
  assert (∀ (r : outcome (unit * uart)), wait_idle (length (u_lsr u)) u = r →
    uart_putc_sync c s = match r with
      | Ret (_, u') => zoom uart_lens (uart_write_reg THR c;; mret (u8 c)) (lset uart_lens u' s)
      | Panic => Panic | Fault => Fault | Spin => Spin end) as Hrun.
  { intros r Hr. unfold uart_putc_sync, on_uart, zoom. munfold. fold u. rewrite Hr.
    destruct r as [[[] u']| | |]; try done. rewrite lens_get_set.
    destruct (uart_write_reg THR c u') as [[[] u2]| | |]; try done. by rewrite lens_set_set. }
  destruct (wait_idle_run u busy l El Hb) as [(v & l' & -> & Hv & E)|[[-> E]|(v & l' & -> & Hv)]].
  - intros _. rewrite (Hrun _ E). unfold zoom. rewrite lens_get_set.
    erewrite mbind_Ret by (by apply uart_write_thr). cbn. by rewrite lens_set_set.
  - by rewrite (Hrun _ E).
  - done.
Qed.

(** With firmware that follows the SBI document, extension 1 prints a byte whatever the
    function number is: so does [getchar], which prints NUL and reads what the call leaves. *)
Lemma sbi_console_calls (print : Z → S → S) c s :
  (∀ f a s, sbi_ecall SBI_EXT_LEGACY_CONSOLE f a s = Ret ((0, 0), print (u8 a) s)) →
  con (lget uart_lens s) = Sbi →
  putchar c s = Ret (0, print (u8 c) s) ∧ getchar s = Ret (0, print 0 s).
Proof.
  intros Hfw Hc. unfold putchar, getchar. split;
    (erewrite mbind_Ret by reflexivity; rewrite Hc; unfold sbi_console_putc, sbi_console_getc;
     erewrite mbind_Ret by apply Hfw; done).
Qed.
End console.

(** ** From the interrupt to the port *)

Section chain.
Context {S : Type} `{DevState S} `{DevOps S} `{IrqState S} `{UartState S}.
Context `{!Indep irq_plic dev_lens} `{!Indep irq_plic uart_lens}.

(** When the port, driven without firmware, interrupts because its transmitter is empty,
    the handler takes that for no interrupt at all and reports an error, and
    [irq_response] panics: through the handler table, the entry of character devices and
    the operation table of the driver. *)
Theorem uart_interrupt_panics s irq chr d x :
  tab_ok (lget irq_tab s) → next_claim s = irq → 0 < irq < 2 ^ 31 →
  handler_of (lget irq_tab s) irq = Some (chr, d) → d ≠ 0 →
  (∀ s, call_isr chr irq d s = chrdev_general_isr irq d s) →
  devices (lget dev_lens s) !! d = Some x → chr_ops (dv_ops x) = Some (uart_chrops false) →
  Z.testbit (default 0 (head (u_iir (lget uart_lens s)))) 1 = true →
  irq_response s = Panic.
Proof.
  intros Hok Hn Hi Hh Hd Hcall Hx Ho Hb.
  rewrite (irq_response_run s irq Hn ltac:(lia) Hok), Hh, Hcall.
  rewrite (proj2 (Z.eqb_neq irq 0)) by lia. unfold chrdev_general_isr, chrdev_ops_of, ctrue.
  rewrite (proj2 (Z.eqb_neq d 0)) by done. cbn [negb massert].
  erewrite mbind_Ret by reflexivity.
  erewrite mbind_Ret.
  2: { erewrite mbind_Ret.
       2: { apply get_dev_ok. unfold claimed. by rewrite (indep_r irq_plic dev_lens). }
       rewrite Ho. reflexivity. }
  cbn [op_chr_irq uart_chrops]. unfold uart_irq_handle, uart_isr.
  erewrite mbind_Ret.
  2: { erewrite mbind_Ret by (by apply on_uart_run). unfold claimed at 1.
       rewrite (indep_r irq_plic uart_lens). set (iir := u8 _).
       assert (ctrue (Z.land iir IIR_NO_INT) = true) as ->; [|reflexivity].
       change IIR_NO_INT with (2 ^ 1). etrans; [exact (flag_bit iir 1 ltac:(done))|].
       unfold iir, u8. by rewrite Z.mod_pow2_bits_low by lia. }
  reflexivity.
Qed.
End chain.

(** ** A concrete system: the one of [Device] with a port and firmware that prints *)

Record usys := USys { us_dev : dsys; us_uart : uart; us_printed : list Z }.
Definition us_dev_lens : lens usys dsys :=
  Lens us_dev (λ x s, USys x (us_uart s) (us_printed s)).
Definition us_uart_lens : lens usys uart :=
  Lens us_uart (λ x s, USys (us_dev s) x (us_printed s)).
#[export] Instance us_dev_lawful : LawfulLens us_dev_lens.
Proof. split; intros; by destruct s || done. Qed.
#[export] Instance us_uart_lawful : LawfulLens us_uart_lens.
Proof. split; intros; by destruct s || done. Qed.
#[export] Instance us_indep : Indep us_dev_lens us_uart_lens.
Proof. by split. Qed.

#[export] Program Instance usys_locks : HasLocks usys := {| lock_lens := lcomp us_dev_lens lock_lens |}.
#[export] Program Instance usys_memory : HasMem usys := {| mem_lens := lcomp us_dev_lens mem_lens |}.
#[export] Program Instance usys_dev : DevState usys := {|
  dev_locks := usys_locks;
  dev_mem := usys_memory;
  dev_lens := lcomp us_dev_lens dev_lens;
  dev_kalloc n := zoom us_dev_lens (dev_kalloc n);
  devlst_lock := 1;
  dev_buffer := 0x200;
  class_buffer := 0x300;
  str_devlock := 0x100;
  str_blkrqlock := 0x120
|}.
Solve Obligations with by split.
#[export] Instance usys_uart : UartState usys := {|
  uart_lens := us_uart_lens;
  u_sleep := mret tt;
  u_wakeup := mret tt;
  sbi_ecall ext f a := λ s, Ret ((0, 0), USys (us_dev s) (us_uart s)
    (us_printed s ++ (if ext =? SBI_EXT_LEGACY_CONSOLE then [u8 a] else [])))
|}.

(** The operation table of the driver and the entry of character devices. *)
Definition UART_OPS : Z := 0x80000100.
Definition CHR_ISR : Z := 0x80000200.
#[export] Instance usys_ops : DevOps usys := {|
  chr_ops a := if a =? UART_OPS then Some (uart_chrops false) else None;
  net_ops _ := None
|}.
#[export] Program Instance usys_irq : IrqState usys := {|
  irq_tab := lcomp us_dev_lens irq_tab;
  irq_plic := lcomp us_dev_lens irq_plic;
  call_isr h irq d := if h =? CHR_ISR then chrdev_general_isr irq d else mfault
|}.

Definition demo_port : uart :=
  Uart 0 0 3 (3, 0) [0; 32; 0] [2] [] [] (replicate 32 0) 0 0 Port.
Definition demo_usys (claims : list Z) : usys :=
  USys (DSys demo_env (demo_mem (txt "uart")) (Devs [] {[0x1000 := junk_dev]}) empty_tab
          (Plic ∅ claims [] 0) 0x2000) demo_port [].

(** The port is set up as a device and its interrupt source registered. *)
Definition booted_usys : usys :=
  outcome_state (uart_device_init junk_dev 0x140 UART_OPS CHR_ISR (demo_usys [10])) (demo_usys []).
Definition uart_dev : device := Device DEVID_UART UART0_IRQ DEVICE_TYPE_CHAR UART_OPS 0 0 [].

#[export] Instance usys_plic_dev : Indep (irq_plic (S := usys)) (dev_lens (S := usys)).
Proof. apply lcomp_indep; [exact _|by split]. Qed.
#[export] Instance usys_plic_uart : Indep (irq_plic (S := usys)) (uart_lens (S := usys)).
Proof. apply lcomp_indep_l. exact _. Qed.

Lemma uart_interrupt_panics_witness : irq_response booted_usys = Panic.
Proof.
  apply (uart_interrupt_panics booted_usys 10 CHR_ISR 0x2000 uart_dev).
  - by vm_compute.
  - by vm_compute.
  - lia.
  - by vm_compute.
  - done.
  - done.
  - by vm_compute.
  - done.
  - by vm_compute.
Defined.

Lemma uart_putc_fifo_witness :
  ∃ s', uart_putc 1 65 (demo_usys []) = Ret (tt, s') ∧
    u_sent (us_uart s') ++ pending (us_uart s') = [65].
Proof.
  destruct (uart_putc_fifo (S := usys)) with (fuel := 0%nat) (c := 65) (s := demo_usys [])
    as (s' & E & _ & Hs & _).
  - intros s. by exists s.
  - split; try done; [by repeat constructor|cbn; lia..].
  - done.
  - exists s'. split; [exact E|exact Hs].
Defined.

(** The byte that did not go out at once stays: the transmitter interrupt does not send it. *)
Example byte_stays_buffered :
  match (uart_putc 1 65;; uart_isr false;; uart_isr false) (demo_usys []) with
  | Ret (_, s) => u_sent (us_uart s) = [] ∧ pending (us_uart s) = [65]
  | _ => False
  end.
Proof. by vm_compute. Qed.

Example polled_putc :
  match putchar 65 (demo_usys []) with
  | Ret (r, s) => r = 65 ∧ u_sent (us_uart s) = [65]
  | _ => False
  end.
Proof. by vm_compute. Qed.
