(* ===== verification/Tty.v ===== *)
(** * Terminals

    Models [kernel/fs/devfs/devs/tty.c] over the operation table of a character device
    ([chrdev_ops] of [Device]); the output buffer and the buffers of the callers are bytes of
    memory. *)

From S2P Require Export Uart.

Definition MAX_FILENAME_LEN : nat := 256.
Definition TTY_BUF_SIZE_DEFAULT : Z := 4096.
Definition NEWLINE : Z := 10.

(** [struct tty]; the name is a string. *)
Record tty := Tty {
  tty_chrdev : Z;
  tty_name : list Z;
  tty_buffer : Z;
  tty_bofs : Z;
  tty_bufsize : Z
}.
#[export] Instance tty_eq_dec : EqDecision tty.
Proof. solve_decision. Defined.

Definition set_bofs (v : Z) (t : tty) : tty :=
  Tty (tty_chrdev t) (tty_name t) (tty_buffer t) v (tty_bufsize t).

Section tty.
Context {S : Type} `{DevState S} `{DevOps S}.

Definition chr_put (chrdev c : Z) : M S unit :=
  ops ← chrdev_ops_of chrdev; op_putchar ops chrdev c.
Definition chr_get (chrdev : Z) : M S Z := ops ← chrdev_ops_of chrdev; op_getchar ops chrdev.

(** The loop of [tty_flush] from [pos], [n] characters before [bofs]. *)
Fixpoint flush_loop (n : nat) (t : tty) (pos : Z) : M S unit :=
  match n with
  | O => mret tt
  | Datatypes.S n =>
      c ← on_mem (ld (tty_buffer t + pos)); chr_put (tty_chrdev t) c;; flush_loop n t (pos + 1)
  end.
Definition tty_flush (t : tty) : M S tty :=
  massert (ctrue (tty_buffer t));;
  flush_loop (Z.to_nat (tty_bofs t)) t 0;;
  mret (set_bofs 0 t).

(** The loop of [tty_read] stores at [buffer + nr_read]; [char_val] is the value of a [char]
    and [c == -1] compares it as an [int]. *)
Fixpoint read_loop (char_val : Z → Z) (n : nat) (t : tty) (buffer nr_read : Z) : M S Z :=
  match n with
  | O => mret nr_read
  | Datatypes.S n =>
      c ← chr_get (tty_chrdev t);
      if char_val c =? -1 then mret nr_read
      else on_mem (st (buffer + nr_read) c);; read_loop char_val n t buffer (nr_read + 1)
  end.

(** The result and the new offset. *)
Definition tty_read (char_val : Z → Z) (t : tty) (buffer size offset : Z) : M S (Z * Z) :=
  nr_read ← read_loop char_val (Z.to_nat size) t buffer 0;
  mret (i64 nr_read, i64 (offset + nr_read)).

(** One character of [tty_write]. *)
Definition write_char (t : tty) (c : Z) : M S tty :=
  if ctrue (tty_buffer t) then
    on_mem (st (tty_buffer t + tty_bofs t) c);;
    let t := set_bofs (u64 (tty_bofs t + 1)) t in
    if (c =? NEWLINE) || (tty_bofs t =? tty_bufsize t) then tty_flush t else mret t
  else chr_put (tty_chrdev t) c;; mret t.

Fixpoint write_loop (n : nat) (t : tty) (buffer nr_write : Z) : M S tty :=
  match n with
  | O => mret t
  | Datatypes.S n =>
      c ← on_mem (ld (buffer + nr_write));
      t ← write_char t c;
      write_loop n t buffer (nr_write + 1)
  end.

Definition tty_write (t : tty) (buffer size offset : Z) : M S (Z * Z * tty) :=
  t ← write_loop (Z.to_nat size) t buffer 0;
  mret (i64 size, i64 (offset + size), t).

Definition tty_llseek (t : tty) (offset whence : Z) : M S Z := mret (-1).

(** [name] is a literal. *)
Definition tty_init (chrdev : Z) (name : list Z) (bufsize : Z) : M S tty :=
  buffer ← (if ctrue bufsize then dev_kalloc bufsize else mret 0);
  mret (Tty chrdev (take MAX_FILENAME_LEN name) buffer 0 bufsize).
End tty.

(** ** What a terminal promises *)

(** A driver that works in the states [good]: its [putchar] adds a character to the output
    [out] of the system, its [getchar] one to the input [inp] read so far, and they touch
    neither memory nor the devices. *)
Class ChrDriver {S} `{DevState S} (ops : chrdev_ops S) (good : S → Prop) (out inp : S → list Z) :
    Prop := {
  put_ok d c s : good s → 0 ≤ c < 256 → ∃ s', op_putchar ops d c s = Ret (tt, s') ∧ good s' ∧
    out s' = out s ++ [c] ∧
    lget mem_lens s' = lget mem_lens s ∧ lget dev_lens s' = lget dev_lens s;
  get_ok d s : good s → ∃ c s', op_getchar ops d s = Ret (c, s') ∧ good s' ∧ 0 ≤ c < 256 ∧
    inp s' = inp s ++ [c] ∧
    lget mem_lens s' = lget mem_lens s ∧ lget dev_lens s' = lget dev_lens s;
  drv_mem m s : good s →
    good (lset mem_lens m s) ∧ out (lset mem_lens m s) = out s ∧ inp (lset mem_lens m s) = inp s
}.

(** A terminal on the driver: its device is there; [p] are the characters in its buffer, which
    holds no newline and is not full; an unbuffered terminal has none. *)
Record tty_ok {S} `{DevState S} `{DevOps S} (ops : chrdev_ops S) (good : S → Prop) (t : tty)
    (p : list Z) (s : S) : Prop := TtyOk {
  tk_good : good s;
  tk_dev : ∃ x, devices (lget dev_lens s) !! tty_chrdev t = Some x ∧ chr_ops (dv_ops x) = Some ops;
  tk_size : 0 ≤ tty_bufsize t < 2 ^ 64;
  tk_pending : holds (lget mem_lens s) (tty_buffer t) p;
  tk_bofs : tty_bofs t = zlen p;
  tk_bytes : Forall (λ c, 0 ≤ c < 256) p;
  tk_nonl : NEWLINE ∉ p;
  tk_room : tty_buffer t = 0 ∧ p = [] ∨
    tty_buffer t ≠ 0 ∧ zlen p < tty_bufsize t ∧
    accessible (lget mem_lens s) (tty_buffer t) (tty_bufsize t)
}.

Section stream.
Context {S : Type} `{DevState S} `{DevOps S} (ops : chrdev_ops S) (good : S → Prop)
  (out inp : S → list Z).
Context `{!ChrDriver ops good out inp}.

(** What an operation on the terminal keeps: the devices, and memory outside the buffer. *)
Definition tty_frame (t : tty) (s s' : S) : Prop :=
  lget dev_lens s' = lget dev_lens s ∧
  dom (lget mem_lens s') = dom (lget mem_lens s) ∧
  (∀ a, (a < tty_buffer t ∨ tty_buffer t + tty_bufsize t ≤ a) →
     lget mem_lens s' !! a = lget mem_lens s !! a).

Lemma chr_put_run d c s x :
  good s → 0 ≤ c < 256 → devices (lget dev_lens s) !! d = Some x → chr_ops (dv_ops x) = Some ops →
  ∃ s', chr_put d c s = Ret (tt, s') ∧ good s' ∧ out s' = out s ++ [c] ∧
    lget mem_lens s' = lget mem_lens s ∧ lget dev_lens s' = lget dev_lens s.
Proof.
  intros Hg Hc Hx Ho. unfold chr_put, chrdev_ops_of.
  destruct (put_ok (ops := ops) d c s Hg Hc) as (s' & E & Hs'). exists s'. split; [|done].
  erewrite mbind_Ret.
  2: { erewrite mbind_Ret by (by apply get_dev_ok). rewrite Ho. reflexivity. }
  exact E.
Qed.

Lemma flush_loop_run t x p : ∀ q pos s,
  good s → Forall (λ c, 0 ≤ c < 256) q → devices (lget dev_lens s) !! tty_chrdev t = Some x → chr_ops (dv_ops x) = Some ops →
  holds (lget mem_lens s) (tty_buffer t) (p ++ q) → pos = zlen p →
  ∃ s', flush_loop (length q) t pos s = Ret (tt, s') ∧ good s' ∧ out s' = out s ++ q ∧
    lget mem_lens s' = lget mem_lens s ∧ lget dev_lens s' = lget dev_lens s.
Proof.
  intros q. revert p. induction q as [|c q IH]; intros p pos s Hg Hq Hx Ho Hh ->;
    cbn [flush_loop length].
  { exists s. by rewrite app_nil_r. }
  apply Forall_cons in Hq as [Hcb Hq].
  assert (lget mem_lens s !! (tty_buffer t + zlen p) = Some c) as Hc.
  { apply Hh. by rewrite list_lookup_middle. }
  erewrite mbind_Ret by (apply on_mem_run; by apply ld_ok).
  destruct (chr_put_run (tty_chrdev t) c s x Hg Hcb Hx Ho) as (s1 & E1 & G1 & O1 & M1 & D1).
  erewrite mbind_Ret by exact E1.
  destruct (IH (p ++ [c]) (zlen p + 1) s1) as (s' & E & G' & O' & M' & D').
  { done. }
  { done. }
  { by rewrite D1. }
  { done. }
  { rewrite M1. by rewrite <- app_assoc. }
  { rewrite zlen_app. done. }
  exists s'. split_and!; [exact E|done|by rewrite O', O1, <- app_assoc|congruence..].
Qed.

(** Flushing prints the buffer. *)
Lemma tty_flush_run t p s :
  good s → Forall (λ c, 0 ≤ c < 256) p → tty_buffer t ≠ 0 → 0 ≤ tty_bofs t → tty_bofs t = zlen p →
  (∃ x, devices (lget dev_lens s) !! tty_chrdev t = Some x ∧ chr_ops (dv_ops x) = Some ops) →
  holds (lget mem_lens s) (tty_buffer t) p →
  ∃ s', tty_flush t s = Ret (set_bofs 0 t, s') ∧ good s' ∧ out s' = out s ++ p ∧
    lget mem_lens s' = lget mem_lens s ∧ lget dev_lens s' = lget dev_lens s.
Proof.
  intros Hg Hp Hb Hz0 Hl (x & Hx & Ho) Hh. unfold tty_flush, ctrue.
  rewrite (proj2 (Z.eqb_neq _ 0)) by done. cbn [negb massert]. erewrite mbind_Ret by reflexivity.
  destruct (flush_loop_run t x [] p 0 s Hg Hp Hx Ho Hh eq_refl) as (s' & E & R).
  exists s'. split; [|done]. rewrite Hl. unfold zlen. rewrite Nat2Z.id.
  by erewrite mbind_Ret by exact E.
Qed.

(** One character: printed or buffered, in order. *)
Lemma write_char_run t p c s :
  tty_ok ops good t p s → 0 ≤ c < 256 →
  ∃ t' p' s', write_char t c s = Ret (t', s') ∧ tty_ok ops good t' p' s' ∧
    out s' ++ p' = out s ++ p ++ [c] ∧ tty_frame t s s' ∧
    tty_buffer t' = tty_buffer t ∧ tty_bufsize t' = tty_bufsize t.
Proof.
  intros [Hg (x & Hx & Ho) Hsz Hh Hl Hpb Hn Hr] Hc. pose proof (zlen_nonneg p) as Hp0.
  unfold write_char, ctrue. destruct Hr as [[Hb ->]|(Hb & Hroom & Hacc)].
  - rewrite Hb. cbn [negb Z.eqb].
    destruct (chr_put_run (tty_chrdev t) c s x Hg Hc Hx Ho) as (s1 & E1 & G1 & O1 & M1 & D1).
    erewrite mbind_Ret by exact E1. exists t, [], s1. split_and!; try done.
    + split; rewrite ?D1, ?M1; eauto.
    + by rewrite O1, app_nil_r.
    + split_and!; congruence.
  - rewrite (proj2 (Z.eqb_neq _ 0)) by done. cbn [negb]. rewrite Hl.
    destruct (Hacc (zlen p) ltac:(lia)) as [o Hold].
    set (m1 := <[tty_buffer t + zlen p := u8 c]> (lget mem_lens s)).
    set (s1 := lset mem_lens m1 s).
    erewrite mbind_Ret by (apply on_mem_step, (st_ok _ _ _ _ Hold)). fold m1 s1.
    assert (lget dev_lens s1 = lget dev_lens s) as D1 by apply (indep_r mem_lens dev_lens).
    assert (lget mem_lens s1 = m1) as M1 by apply lens_get_set.
    destruct (drv_mem (ops := ops) m1 s Hg) as (G1 & O1 & _). fold s1 in G1, O1.
    assert (holds m1 (tty_buffer t) (p ++ [c])) as Hh1.
    { intros i y Hy. unfold m1. apply lookup_app_Some in Hy as [Hy|[Hi Hy]].
      - pose proof (lookup_lt_Some _ _ _ Hy). rewrite lookup_insert_ne by (unfold zlen; lia).
        by apply Hh.
      - destruct (i - length p)%nat eqn:Ei; [|done]. injection Hy as <-.
        replace (tty_buffer t + Z.of_nat i) with (tty_buffer t + zlen p) by (unfold zlen; lia).
        by rewrite lookup_insert_eq, u8_small. }
    assert (accessible m1 (tty_buffer t) (tty_bufsize t)) as Hacc1 by (by apply accessible_insert).
    assert (tty_frame t s s1) as Hf1.
    { split_and!; [done| |].
      - rewrite M1. apply dom_insert_lookup_L. by eexists.
      - intros a Ha. rewrite M1. unfold m1. by rewrite lookup_insert_ne by lia. }
    rewrite u64_small by lia. cbv zeta.
    set (t1 := set_bofs (zlen p + 1) t).
    destruct ((c =? NEWLINE) || (tty_bofs t1 =? tty_bufsize t1)) eqn:Efl.
    + destruct (tty_flush_run t1 (p ++ [c]) s1) as (s2 & E2 & G2 & O2 & M2 & D2).
      { done. }
      { by apply Forall_app_2; [|constructor]. }
      { done. }
      { cbn. lia. }
      { cbn. rewrite zlen_app. done. }
      { exists x. by rewrite D1. }
      { by rewrite M1. }
      exists (set_bofs 0 t1), [], s2. split_and!; [exact E2| | | |done|done].
      * split; cbn; rewrite ?D2, ?M2, ?D1, ?M1; try done; [by exists x|apply not_elem_of_nil|].
        right. split_and!; [done| |done]. change (zlen []) with 0. lia.
      * by rewrite O2, O1, app_nil_r.
      * destruct Hf1 as (F1 & F2 & F3). split_and!; [congruence|congruence|].
        intros a Ha. rewrite M2. by apply F3.
    + exists t1, (p ++ [c]), s1. apply orb_false_iff in Efl as [Enl Efull].
      apply Z.eqb_neq in Enl, Efull. cbn in Efull. split_and!; try done.
      * split; cbn; rewrite ?D1, ?M1; try done; [by exists x|by rewrite zlen_app|by apply Forall_app_2; [|constructor]| |].
        -- rewrite not_elem_of_app, list_elem_of_singleton. naive_solver.
        -- right. rewrite zlen_app. change (zlen [c]) with 1. split_and!; [done|lia|done].
      * by rewrite O1.
Qed.

(** Everything written to a terminal comes out in order and nothing is lost: [tty_write]
    returns the number of characters asked for, the device has been given the characters
    that were buffered and those written except for the last ones, which are in the buffer;
    those contain no newline (a line leaves at once) and the buffer is never full. *)
Theorem tty_write_stream t p data buffer offset s :
  tty_ok ops good t p s → holds (lget mem_lens s) buffer data → Forall (λ c, 0 ≤ c < 256) data →
  (tty_buffer t + tty_bufsize t ≤ buffer ∨ buffer + zlen data ≤ tty_buffer t) →
  zlen data < 2 ^ 63 →
  ∃ t' p' s', tty_write t buffer (zlen data) offset s =
      Ret (zlen data, i64 (offset + zlen data), t', s') ∧
    tty_ok ops good t' p' s' ∧ out s' ++ p' = out s ++ p ++ data ∧ tty_frame t s s'.
Proof.
  intros Hok Hd Hby Hdj Hlen.
  assert (∀ data nr t p s, tty_ok ops good t p s → holds (lget mem_lens s) (buffer + nr) data →
    Forall (λ c, 0 ≤ c < 256) data → 0 ≤ nr →
    (tty_buffer t + tty_bufsize t ≤ buffer + nr ∨ buffer + nr + zlen data ≤ tty_buffer t) →
    ∃ t' p' s', write_loop (length data) t buffer nr s = Ret (t', s') ∧ tty_ok ops good t' p' s' ∧
      out s' ++ p' = out s ++ p ++ data ∧ tty_frame t s s') as Hloop.
  { clear -ChrDriver0. induction data as [|c data IH]; intros nr t p s Hok Hd Hby Hnr Hdj;
      cbn [length write_loop].
    - exists t, p, s. by rewrite app_nil_r.
    - apply holds_cons in Hd as [Hc Hd]. apply Forall_cons in Hby as [Hcb Hby].
      rewrite zlen_cons in Hdj. pose proof (zlen_nonneg data).
      erewrite mbind_Ret by (apply on_mem_run; by apply ld_ok).
      destruct (write_char_run t p c s Hok Hcb) as (t1 & p1 & s1 & E1 & Hok1 & O1 & F1 & Hb1 & Hz1).
      erewrite mbind_Ret by exact E1.
      destruct F1 as (D1 & Dom1 & M1).
      destruct (IH (nr + 1) t1 p1 s1) as (t' & p' & s' & E & Hok' & O' & (D' & Dom' & M')); try done.
      + intros i y Hy. rewrite M1.
        * rewrite Z.add_assoc. by apply Hd.
        * apply lookup_lt_Some in Hy. unfold zlen in *. lia.
      + lia.
      + rewrite Hb1, Hz1. lia.
      + exists t', p', s'. split_and!; [exact E|done| |].
        * rewrite O', app_assoc, O1, <- !app_assoc. done.
        * rewrite Hb1, Hz1 in M'. split_and!; [congruence..|].
          intros a Ha. rewrite M', M1 by done. done. }
  destruct (Hloop data 0 t p s) as (t' & p' & s' & E & Hok' & O' & F'); try done.
  { by rewrite Z.add_0_r. }
  { lia. }
  exists t', p', s'. split; [|done]. unfold tty_write.
  replace (Z.to_nat (zlen data)) with (length data) by (unfold zlen; lia).
  erewrite mbind_Ret by exact E. unfold i64 at 1.
  rewrite Z.mod_small by (pose proof (zlen_nonneg data); lia). unfold mret, M_ret.
  do 4 f_equal. lia.
Qed.

(** Where a [char] is unsigned, as on RISC-V, [tty_read] never stops early: it returns the
    size asked for, and the buffer holds exactly the characters read from the device, in
    order; the end-of-input value of [getchar] is one of them, a byte of ones. *)
Theorem tty_read_fills t buffer size offset x s :
  good s → devices (lget dev_lens s) !! tty_chrdev t = Some x → chr_ops (dv_ops x) = Some ops →
  0 ≤ size < 2 ^ 63 → accessible (lget mem_lens s) buffer size →
  ∃ l s', tty_read id t buffer size offset s = Ret ((size, i64 (offset + size)), s') ∧
    good s' ∧ zlen l = size ∧ inp s' = inp s ++ l ∧ holds (lget mem_lens s') buffer l ∧
    (∀ a, (a < buffer ∨ buffer + size ≤ a) → lget mem_lens s' !! a = lget mem_lens s !! a).
Proof.
  intros Hg Hx Ho Hsz Hacc.
  assert (∀ n nr s, good s → devices (lget dev_lens s) !! tty_chrdev t = Some x →
    accessible (lget mem_lens s) (buffer + nr) (Z.of_nat n) →
    ∃ l s', read_loop id n t buffer nr s = Ret (nr + Z.of_nat n, s') ∧ good s' ∧
      length l = n ∧ inp s' = inp s ++ l ∧ holds (lget mem_lens s') (buffer + nr) l ∧
      (∀ a, (a < buffer + nr ∨ buffer + nr + Z.of_nat n ≤ a) →
         lget mem_lens s' !! a = lget mem_lens s !! a)) as Hloop.
  { clear -ChrDriver0 Ho. induction n as [|n IH]; intros nr s Hg Hx Hacc; cbn [read_loop].
    - exists [], s. rewrite Z.add_0_r, app_nil_r. by split_and!.
    - destruct (get_ok (ops := ops) (tty_chrdev t) s Hg) as (c & s1 & E1 & G1 & Hc & I1 & M1 & D1).
      erewrite mbind_Ret.
      2: { unfold chr_get, chrdev_ops_of. erewrite mbind_Ret.
           2: { erewrite mbind_Ret by (by apply get_dev_ok). rewrite Ho. reflexivity. }
           exact E1. }
      unfold id at 1. rewrite (proj2 (Z.eqb_neq c (-1))) by lia.
      destruct (Hacc 0 ltac:(lia)) as [o Hold]. rewrite Z.add_0_r, <- M1 in Hold.
      erewrite mbind_Ret by (apply on_mem_step, (st_ok _ _ _ _ Hold)).
      set (m2 := <[buffer + nr := u8 c]> (lget mem_lens s1)).
      destruct (drv_mem (ops := ops) m2 s1 G1) as (G2 & _ & I2).
      destruct (IH (nr + 1) (lset mem_lens m2 s1)) as (l & s' & E & G' & Hl & I' & Hh & Hf).
      { done. }
      { rewrite (indep_r mem_lens dev_lens), D1. done. }
      { rewrite lens_get_set. apply accessible_insert. rewrite M1, Z.add_assoc.
        apply (accessible_mono _ _ (Z.of_nat (Datatypes.S n))); [done|lia..]. }
      rewrite lens_get_set in Hf.
      exists (c :: l), s'. split_and!; [rewrite E; do 2 f_equal; lia|done|cbn; lia| | |].
      + rewrite I', I2, I1, <- app_assoc. done.
      + apply holds_cons. split; [|by rewrite <- Z.add_assoc].
        rewrite Hf by lia. unfold m2. by rewrite lookup_insert_eq, u8_small.
      + intros a Ha. rewrite Hf by lia. unfold m2. rewrite lookup_insert_ne by lia. by rewrite M1. }
  destruct (Hloop (Z.to_nat size) 0 s Hg Hx) as (l & s' & E & G' & Hl & I' & Hh & Hf).
  { rewrite Z.add_0_r, Z2Nat.id by lia. done. }
  exists l, s'. unfold tty_read. rewrite Z2Nat.id in E, Hf by lia. rewrite Z.add_0_l in E.
  erewrite mbind_Ret by exact E. rewrite Z.add_0_r in Hh, Hf. split_and!; try done.
  - unfold mret, M_ret, i64. rewrite (Z.mod_small (size + _)) by lia. do 4 f_equal. lia.
  - unfold zlen. lia.
Qed.
End stream.

(** ** A terminal on the console of the firmware *)

Definition sbi_ops : chrdev_ops usys := uart_chrops true.
Definition sbi_good (s : usys) : Prop := con (us_uart s) = Sbi.

(** [getchar] prints the NUL it returns, so the printed characters log both. *)
#[export] Instance sbi_driver : ChrDriver sbi_ops sbi_good us_printed us_printed.
Proof.
  assert (∀ s, sbi_good s → ∀ c, putchar c s =
      Ret (0, USys (us_dev s) (us_uart s) (us_printed s ++ [u8 c])) ∧
    getchar s = Ret (0, USys (us_dev s) (us_uart s) (us_printed s ++ [0]))) as Hcon.
  { intros s Hs c.
    by apply (sbi_console_calls (λ b s, USys (us_dev s) (us_uart s) (us_printed s ++ [b]))). }
  split.
  - intros d c s Hs Hc. destruct (Hcon s Hs c) as [E _]. eexists. cbn. unfold uart_putchar.
    split; [by erewrite mbind_Ret by exact E|]. split_and!; try done. cbn. by rewrite u8_small.
  - intros d s Hs. destruct (Hcon s Hs 0) as [_ E]. eexists _, _. cbn. unfold uart_getchar.
    split; [by erewrite mbind_Ret by exact E|]. by split_and!.
  - intros m s Hs. done.
Qed.

#[export] Instance sbi_table : DevOps usys := {|
  chr_ops a := if a =? UART_OPS then Some sbi_ops else None;
  net_ops _ := None
|}.

(** A terminal with a buffer of three characters on the device at [0x1000]. *)
Definition demo_tty : tty := Tty 0x1000 (Printf.txt "stdout") 0x300 0 3.
Definition tty_usys : usys :=
  USys (DSys demo_env (demo_mem (Printf.txt "uart"))
          (Devs [0x1000] {[0x1000 := uart_dev]}) empty_tab (Plic ∅ [] [] 0) 0x2000)
       (set_con Sbi demo_port) [].

Lemma tty_usys_ok : tty_ok sbi_ops sbi_good demo_tty [] tty_usys.
Proof.
  split; try done; [by exists uart_dev|by apply not_elem_of_nil|].
  right. split_and!; [done|done|]. apply demo_accessible. by vm_compute.
Qed.

Lemma tty_write_stream_witness :
  ∃ t' p' s', tty_write demo_tty 0x140 4 0 tty_usys = Ret (4, 4, t', s') ∧
    us_printed s' ++ p' = Printf.txt "uart".
Proof.
  destruct (tty_write_stream sbi_ops sbi_good us_printed us_printed demo_tty [] (Printf.txt "uart")
    0x140 0 tty_usys) as (t' & p' & s' & E & _ & O & _).
  - exact tty_usys_ok.
  - apply cstr_holds. apply cstr_intro. by vm_compute.
  - by apply (bool_decide_unpack _); vm_compute.
  - right. vm_compute. discriminate.
  - done.
  - exists t', p', s'. split; [exact E|exact O].
Defined.

Lemma tty_read_fills_witness :
  ∃ s', tty_read id demo_tty 0x300 2 5 tty_usys = Ret ((2, 7), s') ∧
    holds (lget mem_lens s') 0x300 [0; 0].
Proof.
  destruct (tty_read_fills sbi_ops sbi_good us_printed us_printed demo_tty 0x300 2 5 uart_dev
    tty_usys) as (l & s' & E & _ & Hl & Hi & Hh & _).
  - done.
  - by vm_compute.
  - done.
  - lia.
  - apply demo_accessible. by vm_compute.
  - assert (us_printed s' = [0; 0]) as Ep.
    { assert (s' = outcome_state (tty_read id demo_tty 0x300 2 5 tty_usys) tty_usys) as ->
        by (by rewrite E). by vm_compute. }
    exists s'. split; [exact E|]. cbn in Hi. rewrite Ep in Hi. rewrite Hi. exact Hh.
Defined.
