(* ===== verification/Disk.v ===== *)
(** * Disks

    Models [kernel/fs/devfs/devs/block.c]: reads and writes of byte ranges as requests of
    whole sectors, over the interface of the block layer ([BlkDriver] of [Blk]), and what
    they do on the virtio disk of [Virtio], whatever the order in which its device moves. *)

From S2P Require Export VirtioDisk.

Definition SEEK_SET : Z := 0.
Definition SEEK_CUR : Z := 1.
Definition SEEK_END : Z := 2.
Definition MAX_FILENAME_LEN : nat := 256.

(** [struct disk]; the name is a string. *)
Record disk := Disk {
  dk_blkdev : Z;
  dk_name : list Z;
  dk_buffer : Z;
  dk_ofs : Z
}.
#[export] Instance disk_eq_dec : EqDecision disk.
Proof. solve_decision. Defined.

Section disk.
Context {S : Type} `{BlkDriver S}.

(** How many sectors, which is the first, how much of the last, and where the next sector
    goes after the one with index [i]. *)
Definition sectors (size : Z) : Z := u32 ((size - 1) / sector_size + 1).
Definition first_sector (offset : Z) : Z := u32 (u64 offset / sector_size).
Definition incomplete (size : Z) : bool := ctrue (size mod sector_size).
Definition next_ptr (size i buf_ptr : Z) : Z :=
  if incomplete size && (i <? u32 (sectors size - 2)) then buf_ptr + sector_size else buf_ptr.
Definition is_tail (size i : Z) : bool := incomplete size && (i =? u32 (sectors size - 1)).

(** The loop of [block_read] from index [i] on, [n] sectors before its end: the value of
    [ret] and of [buf_ptr] behind it. *)
Fixpoint read_loop (n : nat) (d : disk) (size blk_id i buf_ptr : Z) : M S (Z * Z) :=
  match n with
  | O => mret (0, buf_ptr)
  | Datatypes.S n =>
      req ← (if is_tail size i then
               on_mem (memset (dk_buffer d) 0 (Z.to_nat sector_size));;
               blkreq_alloc (u32 (blk_id + i)) (dk_buffer d) sector_size false
             else blkreq_alloc (u32 (blk_id + i)) buf_ptr sector_size false);
      if req =? 0 then mret (-1, buf_ptr)
      else
        blkdev_submit_req req;;
        read_loop n d size blk_id (i + 1) (next_ptr size i buf_ptr)
  end.

(** The result and the new offset. *)
Definition block_read (d : disk) (buffer size offset : Z) : M S (Z * Z) :=
  if size =? 0 then mret (0, offset)
  else
    '(ret, buf_ptr) ← read_loop (Z.to_nat (sectors size)) d size (first_sector offset) 0 buffer;
    nr ← blkdev_wait_all;
    let ret := if (ret =? 0) && ctrue nr then -1 else ret in
    (if incomplete size
     then on_mem (memcpy buf_ptr (dk_buffer d) (Z.to_nat (size mod sector_size)));; mret tt
     else mret tt);;
    blkdev_free_all;;
    mret (ret, i64 (offset + size)).

(** The loop of [block_write]. *)
Fixpoint write_loop (n : nat) (d : disk) (size blk_id i buf_ptr : Z) : M S Z :=
  match n with
  | O => mret 0
  | Datatypes.S n =>
      req ← (if is_tail size i then
               on_mem (memcpy (dk_buffer d) buf_ptr (Z.to_nat (size mod sector_size)));;
               blkreq_alloc (u32 (blk_id + i)) (dk_buffer d) sector_size true
             else blkreq_alloc (u32 (blk_id + i)) buf_ptr sector_size true);
      if req =? 0 then mret (-1)
      else
        blkdev_submit_req req;;
        write_loop n d size blk_id (i + 1) (next_ptr size i buf_ptr)
  end.

Definition block_write (d : disk) (buffer size offset : Z) : M S (Z * Z) :=
  if size =? 0 then mret (0, offset)
  else
    (if incomplete size then on_mem (memset (dk_buffer d) 0 (Z.to_nat sector_size));; mret tt
     else mret tt);;
    ret ← write_loop (Z.to_nat (sectors size)) d size (first_sector offset) 0 buffer;
    nr ← blkdev_wait_all;
    let ret := if (ret =? 0) && ctrue nr then -1 else ret in
    blkdev_free_all;;
    mret (ret, i64 (offset + size)).

(** The result and the disk; the sum is taken in [unsigned long]. *)
Definition block_llseek (d : disk) (offset whence : Z) : Z * disk :=
  let set v := Disk (dk_blkdev d) (dk_name d) (dk_buffer d) v in
  if whence =? SEEK_CUR then
    let res_off := i64 (u64 (dk_ofs d + offset + dev_size) mod dev_size) in (res_off, set res_off)
  else if (whence =? SEEK_END) || (whence =? SEEK_SET) then (offset, set offset)
  else (-1, d).

(** [kalloc] answers [buffer]; [name] is a literal or a short array. *)
Definition block_init (blkdev : Z) (name : list Z) (buffer : Z) : disk :=
  Disk blkdev (take MAX_FILENAME_LEN name) buffer 0.
End disk.

(** ** Sectors on the virtio disk *)

Section on_virtio.
Context (bdev size : Z).
#[local] Instance drv_disk : BlkDriver vdisk := virtio_blkdev bdev size.

(** Nothing is asked of the disk and nothing is left over. *)
Record idle (s : vdisk) : Prop := Idle {
  id_bus : bus s = [];
  id_rqs : vrqs s = [];
  id_lock : lock_free 0 s;
  id_queue : ∃ free, disk_inv s free [] [] []
}.

(** Requests for the sectors from [sec] on, all into or out of the same [buf], one chain for
    each; memory, medium and the coming events are those of [s0]. *)
Record asked (s0 s : vdisk) (free : list Z) (w : list chain) (sec buf : Z) (write : bool) : Prop := Asked {
  ak_inv : disk_inv s free w [] [];
  ak_lock : lock_free 0 s;
  ak_rqs : vrqs s = reverse (chan_of <$> w);
  ak_frame : vmem s = vmem s0 ∧ dev s = dev s0 ∧ events s = events s0 ∧ bus s = bus s0;
  ak_other : ∀ a, a ∉ c_hdr <$> w → vreqs s !! a = vreqs s0 !! a;
  ak_req : ∀ k c, w !! k = Some c →
    ∃ x, vreqs s !! c_hdr c = Some x ∧
         vblkreq x = io_request bdev (u32 (sec + Z.of_nat k)) buf 512 write
}.

(** The requests [kalloc] will answer: distinct blocks that are not in use. *)
Definition fresh_blocks (s : vdisk) (l : list (Z * virtio_blk_req)) : Prop :=
  NoDup l.*1 ∧ Forall (λ a, 0 < a ∧ vreqs s !! a = None) l.*1.

Lemma submit_one s a junk fr sec buf write d1 d2 d3 free w t f :
  vfresh s = (a, junk) :: fr → 0 < a → vreqs s !! a = None → lock_free 0 s →
  disk_inv s (d1 :: d2 :: d3 :: free) w t f →
  ∃ s' x, vreqs s' !! a = Some x ∧ vblkreq x = io_request bdev sec buf 512 write ∧
    blkreq_alloc sec buf 512 write s =
      Ret (a + BLKREQ_OFFSET,
           set_vreqs (<[a := set_vblkreq (io_request bdev sec buf 512 write) junk]> (vreqs s)) (set_vfresh fr s)) ∧
    blkdev_submit_req (a + BLKREQ_OFFSET)
      (set_vreqs (<[a := set_vblkreq (io_request bdev sec buf 512 write) junk]> (vreqs s)) (set_vfresh fr s)) =
      Ret (tt, s') ∧
    disk_inv s' free (w ++ [Chain a d1 d2 d3]) t f ∧ lock_free 0 s' ∧
    vrqs s' = a + BLKREQ_OFFSET :: vrqs s ∧ vfresh s' = fr ∧
    (vmem s' = vmem s ∧ dev s' = dev s ∧ events s' = events s ∧ bus s' = bus s) ∧
    (∀ b, b ≠ a → vreqs s' !! b = vreqs s !! b).
Proof.
  intros Hfr Ha Hn Hlk Hq.
  destruct (request_run bdev size s a junk fr sec buf 512 write d1 d2 d3 free w t f) as (next & E & Hq' & Hlk');
    try done.
  pose proof (blkreq_alloc_run bdev size s a junk fr sec buf 512 write Hfr Ha) as Ea.
  erewrite mbind_Ret in E by exact Ea.
  set (x := set_vblkreq _ junk) in *.
  exists (submitted a x d1 d2 d3 next (prepared bdev a junk fr sec buf 512 write s)), (headed d1 x).
  split; [apply lookup_insert_eq|]. split; [done|].
  split; [exact Ea|]. split; [exact E|]. split_and!; try done.
  intros b Hb. cbn. by rewrite !lookup_insert_ne.
Qed.

Lemma asked_snoc s0 s a junk fr sec buf write d1 d2 d3 free w n :
  asked s0 s (d1 :: d2 :: d3 :: free) w sec buf write → length w = n →
  vfresh s = (a, junk) :: fr → 0 < a → vreqs s !! a = None →
  ∃ s1 s', let sn := u32 (sec + Z.of_nat n) in
    blkreq_alloc sn buf 512 write s = Ret (a + BLKREQ_OFFSET, s1) ∧
    blkdev_submit_req (a + BLKREQ_OFFSET) s1 = Ret (tt, s') ∧
    asked s0 s' free (w ++ [Chain a d1 d2 d3]) sec buf write ∧ vfresh s' = fr ∧
    (∀ b, b ≠ a → vreqs s' !! b = vreqs s !! b).
Proof.
  intros [Hq Hlk Hr (F1 & F2 & F3 & F4) Ho Hk] Hn Hfr Ha Hnew.
  pose proof (in_flight_known _ _ _ _ _ _ _ Hq Hnew) as Hnf. rewrite app_nil_r in Hnf.
  destruct (submit_one s a junk fr (u32 (sec + Z.of_nat n)) buf write d1 d2 d3 free w [] [])
    as (s' & x & Hx & Ex & Ea & Es & Hq' & Hlk' & Er & Ef & (G1 & G2 & G3 & G4) & Hb); try done.
  eexists _, s'. cbv zeta. split_and!; [exact Ea|exact Es| |done|done]. split; try done.
  - rewrite Er, Hr, fmap_app, reverse_app. done.
  - split_and!; congruence.
  - intros b Hnb. rewrite fmap_app in Hnb.
    apply not_elem_of_app in Hnb as [Hb1 Hb2]. apply not_elem_of_cons in Hb2 as [Hb2 _].
    rewrite Hb by done. by apply Ho.
  - intros k c Hc. apply lookup_snoc_Some in Hc as [[_ Hc]|[-> <-]].
    + destruct (Hk k c Hc) as (y & Hy & Ey). exists y. split; [|done]. rewrite Hb; [done|].
      intros E. apply Hnf. rewrite <- E. apply list_elem_of_fmap_2. by eapply list_elem_of_lookup_2.
    + exists x. by rewrite Hn.
Qed.
(** The two loops on whole sectors: the same buffer for every sector. *)
Fixpoint ask (n : nat) (sec i buf : Z) (write : bool) : M vdisk Z :=
  match n with
  | O => mret 0
  | S n =>
      req ← blkreq_alloc (u32 (sec + i)) buf 512 write;
      if req =? 0 then mret (-1)
      else blkdev_submit_req req;; ask n sec (i + 1) buf write
  end.

Lemma read_loop_full d n sz sec buf : ∀ i s,
  incomplete sz = false →
  read_loop n d sz sec i buf s = (r ← ask n sec i buf false; mret (r, buf)) s.
Proof.
  induction n as [|n IH]; intros i s Hi; cbn [read_loop ask]; [done|].
  unfold is_tail, next_ptr. rewrite Hi. cbn [andb]. change sector_size with 512. munfold.
  destruct (blkreq_alloc _ _ _ _ s) as [[req s1]| | |]; try done.
  destruct (req =? 0); [done|]. destruct (blkdev_submit_req req s1) as [[[] s2]| | |]; try done.
  by apply IH.
Qed.

Lemma write_loop_full d n sz sec buf : ∀ i s,
  incomplete sz = false → write_loop n d sz sec i buf s = ask n sec i buf true s.
Proof.
  induction n as [|n IH]; intros i s Hi; cbn [write_loop ask]; [done|].
  unfold is_tail, next_ptr. rewrite Hi. cbn [andb]. change sector_size with 512. munfold.
  destruct (blkreq_alloc _ _ _ _ s) as [[req s1]| | |]; try done.
  destruct (req =? 0); [done|]. destruct (blkdev_submit_req req s1) as [[[] s2]| | |]; try done.
  by apply IH.
Qed.

Lemma ask_run s0 sec buf write fr blocks : ∀ s free w,
  asked s0 s free w sec buf write → vfresh s = blocks ++ fr → fresh_blocks s blocks →
  (3 * length blocks ≤ length free)%nat →
  ∃ s' w', ask (length blocks) sec (Z.of_nat (length w)) buf write s = Ret (0, s') ∧
    asked s0 s' (drop (3 * length blocks) free) (w ++ w') sec buf write ∧ vfresh s' = fr ∧
    c_hdr <$> w' = blocks.*1 ∧
    (∀ k c, w' !! k = Some c → free !! (3 * k)%nat = Some (c_1 c)).
Proof.
  induction blocks as [|[a junk] blocks IH]; intros s free w Hak Hfr [Hnd Hnew] Hlen;
    cbn [ask length] in *.
  { exists s, []. rewrite app_nil_r. by split_and!. }
  destruct free as [|d1 [|d2 [|d3 free]]]; [cbn in Hlen; lia..|].
  apply NoDup_cons in Hnd as [Hnin Hnd]. apply Forall_cons in Hnew as [[Ha Hna] Hnew].
  destruct (asked_snoc s0 s a junk (blocks ++ fr) sec buf write d1 d2 d3 free w (length w))
    as (s1 & s2 & Ea & Es & Hak2 & Hfr2 & Hb); try done.
  mstep Ea. unfold BLKREQ_OFFSET at 1. rewrite (proj2 (Z.eqb_neq _ 0)) by (cbn in Ha; lia). mstep Es.
  destruct (IH s2 free (w ++ [Chain a d1 d2 d3])) as (s' & w' & E & Hak' & Hfr' & Hh & Hd); try done.
  { split; [done|]. rewrite Forall_forall in *. intros b Hbin. destruct (Hnew b Hbin) as [Hp Hn].
    split; [done|]. rewrite Hb; [done|]. intros ->. done. }
  { cbn in Hlen. lia. }
  exists s', (Chain a d1 d2 d3 :: w'). split_and!.
  - rewrite <- E, length_app. cbn [length]. f_equal. lia.
  - replace (3 * S (length blocks))%nat with (3 + 3 * length blocks)%nat by lia. rewrite <- drop_drop.
    rewrite <- app_assoc in Hak'. exact Hak'.
  - done.
  - cbn. by rewrite Hh.
  - intros [|k] c Hc; [by injection Hc as <-|]. replace (3 * S k)%nat with (3 + 3 * k)%nat by lia.
    by apply Hd.
Qed.
(** ** Waiting and freeing *)

Definition freeable (s : vdisk) (l : list Z) (r : Z) : Prop :=
  r ∈ l ∧ status_of s r = Some BLKREQ_STATUS_OK.
#[local] Instance freeable_dec s l r : Decision (freeable s l r) := _.

Lemma free_loop_run l : ∀ s,
  NoDup l → (∀ r, r ∈ l → is_Some (status_of s r)) →
  ∃ s', free_loop l s = Ret (tt, s') ∧ vmem s' = vmem s ∧ dev s' = dev s ∧ vlocks s' = vlocks s ∧
    vrqs s' = filter (λ r, ¬ freeable s l r) (vrqs s).
Proof.
  induction l as [|r l IH]; intros s Hnd Hall; cbn [free_loop].
  { exists s. split_and!; try done. symmetry. apply filter_all. intros r _ [Hr _].
    by apply elem_of_nil in Hr. }
  apply NoDup_cons in Hnd as [Hnin Hnd].
  destruct (Hall r ltac:(left)) as [v Hv]. unfold status_of in Hv.
  destruct (vreqs s !! get_vblkreq r) as [x|] eqn:Hx; [|done]. cbn in Hv. injection Hv as <-.
  erewrite mbind_Ret by (unfold load_req, mtry; cbn; rewrite Hx; reflexivity).
  destruct (Z.eqb_spec (rq_status (vblkreq x)) BLKREQ_STATUS_OK) as [Eok|Eok]; cbn [negb].
  - set (s2 := set_vrqs (filter (λ y, y ≠ r) (vrqs s)) (set_vreqs (delete (get_vblkreq r) (vreqs s)) s)).
    assert (Hst : ∀ r', r' ≠ r → status_of s2 r' = status_of s r').
    { intros r' Hr'. unfold status_of. cbn. rewrite lookup_delete_ne; [done|].
      unfold get_vblkreq. lia. }
    assert (E2 : (op_free dev_ops r;; rq_remove r) s = Ret (tt, s2)).
    { change (op_free dev_ops r) with (virtio_blk_free r). unfold virtio_blk_free, rq_remove.
      munfold. by rewrite Hx. }
    mstep E2. destruct (IH s2 Hnd) as (s' & E & F1 & F2 & F3 & F4).
    { intros r' Hr'. rewrite Hst by (intros ->; done). apply Hall. by right. }
    exists s'. split_and!; try done. rewrite F4. cbn [vrqs s2 set_vrqs]. rewrite list_filter_filter.
    apply list_filter_iff. intros r'. unfold freeable. rewrite elem_of_cons.
    destruct (decide (r' = r)) as [->|Hr']; [|rewrite Hst by done; tauto].
    split; [tauto|]. intros H. exfalso. apply H. split; [by left|]. unfold status_of.
    by rewrite Hx, <- Eok.
  - erewrite mbind_Ret by reflexivity. destruct (IH s Hnd) as (s' & E & F1 & F2 & F3 & F4).
    { intros r' Hr'. apply Hall. by right. }
    exists s'. split_and!; try done. rewrite F4. apply list_filter_iff. intros r'. unfold freeable.
    rewrite elem_of_cons. split; [|tauto]. intros Hn [[->|Hin] Hs]; [|tauto].
    unfold status_of in Hs. rewrite Hx in Hs. cbn in Hs. by injection Hs.
Qed.

Lemma free_all_run s free :
  lock_free 0 s → disk_inv s free [] [] [] → NoDup (vrqs s) →
  (∀ r, r ∈ vrqs s → is_Some (status_of s r)) →
  ∃ s', blkdev_free_all s = Ret (tt, s') ∧ lock_free 0 s' ∧ disk_inv s' free [] [] [] ∧
    bus s' = bus s ∧ vmem s' = vmem s ∧ dev s' = dev s ∧
    vrqs s' = filter (λ r, status_of s r ≠ Some BLKREQ_STATUS_OK) (vrqs s).
Proof.
  intros Hlk Hq Hnd Hall. unfold blkdev_free_all. mstep (acquire_ok 0 s Hlk).
  erewrite mbind_Ret by reflexivity. set (s1 := lset lock_lens _ s).
  assert (Hq1 : disk_inv s1 free [] [] []) by (by apply (qinv_frame _ s)).
  destruct (free_loop_run (vrqs s) s1 Hnd Hall) as (s2 & E & F1 & F2 & F3 & F4).
  destruct (free_loop_inv bdev size _ _ _ _ _ _ _ _ Hq1 E) as (Hq2 & Evq & Eb & _).
  change (lget rq_list s1) with (vrqs s). mstep E.
  exists (lset lock_lens (touched (lget lock_lens s)) s2). split_and!; try done.
  - apply (release_ok 0 s); [exact Hlk|exact F3].
  - exact (lock_free_lset 0 s s2 Hlk).
  - unfold disk_inv in *. apply (qinv_frame _ s2); [done..|].
    change (vq (lset lock_lens (touched (lget lock_lens s)) s2)) with (vq s2). by rewrite Evq.
  - change (vrqs s2 = filter (λ r, status_of s r ≠ Some BLKREQ_STATUS_OK) (vrqs s)).
    rewrite F4. apply filter_ext. intros r Hr. unfold freeable.
    change (status_of s1 r) with (status_of s r). change (vrqs s1) with (vrqs s) in Hr. tauto.
Qed.
(** The device finishes the chains of [w], in any order, and interrupts afterwards. *)
Definition will_serve (s : vdisk) (w : list chain) : Prop :=
  ∀ k c, w !! k = Some c → serves (S k) (c_1 c) (events s).

Lemma asked_status s0 s free w sec buf write r :
  asked s0 s free w sec buf write → r ∈ vrqs s →
  status_of s r = Some BLKREQ_STATUS_INIT ∧ get_vblkreq r ∈ c_hdr <$> w ∧ ctrue r = true.
Proof.
  intros [Hq _ -> _ _ Hk] Hr. rewrite elem_of_reverse in Hr.
  apply list_elem_of_fmap in Hr as (c & -> & Hc). rewrite get_vblkreq_chan.
  split_and!; [|by apply list_elem_of_fmap_2|].
  - pose proof Hc as Hc'. apply list_elem_of_lookup in Hc' as [k Hk'].
    destruct (Hk k c Hk') as (x & Hx & Ex). unfold status_of. rewrite get_vblkreq_chan, Hx. cbn.
    by rewrite Ex.
  - pose proof (qi_chains _ _ _ _ _ _ Hq) as Hf. rewrite Forall_forall in Hf.
    destruct (Hf c) as [Hp _]; [apply elem_of_app; by left|].
    unfold ctrue, chan_of, BLKREQ_OFFSET. by rewrite (proj2 (Z.eqb_neq _ 0)) by lia.
Qed.

Lemma asked_NoDup s0 s free w sec buf write : asked s0 s free w sec buf write → NoDup (vrqs s).
Proof.
  intros [Hq _ -> _ _ _]. rewrite reverse_Permutation. pose proof (qi_hdrs _ _ _ _ _ _ Hq) as Hn.
  rewrite app_nil_r in Hn. apply NoDup_fmap_1 with (f := get_vblkreq).
  rewrite <- list_fmap_compose. erewrite list_fmap_ext; [exact Hn|]. intros k c _. apply get_vblkreq_chan.
Qed.

(** When every request has its result no chain is left. *)
Lemma all_done s free w t f :
  disk_inv s free w t f → only (vrqs s) s w t f →
  (∀ r, r ∈ vrqs s → ∃ v, status_of s r = Some v ∧ v ≠ BLKREQ_STATUS_INIT) →
  w = [] ∧ t = [] ∧ f = [].
Proof.
  intros Hq Ho Hd. assert (E : w ++ t ++ f = []).
  { destruct (w ++ t ++ f) as [|c l] eqn:E; [done|]. exfalso.
    pose proof (qi_chains _ _ _ _ _ _ Hq) as Hf. rewrite E in Hf.
    apply Forall_cons in Hf as [(_ & x & Hx & _ & Hi) _].
    destruct (Hd (chan_of c)) as (v & Hv & Hne); [apply Ho; rewrite E; left|].
    unfold status_of in Hv. rewrite get_vblkreq_chan, Hx in Hv. cbn in Hv. congruence. }
  by apply app_eq_nil in E as [-> [-> ->]%app_eq_nil].
Qed.

Lemma finish_run G s0 s free w sec buf write :
  kept G → asked s0 s free w sec buf write → bus s = [] → will_serve s w → G s w [] [] →
  ∃ s1 s2, blkdev_wait_all s = Ret (failures s1, s1) ∧ blkdev_free_all s1 = Ret (tt, s2) ∧
    (∃ free', disk_inv s1 free' [] [] []) ∧ G s1 [] [] [] ∧ vrqs s1 = vrqs s ∧
    (∀ r, r ∈ vrqs s → ∃ v, status_of s1 r = Some v ∧ v ≠ BLKREQ_STATUS_INIT) ∧
    vmem s2 = vmem s1 ∧ dev s2 = dev s1 ∧ (failures s1 = 0 → idle s2).
Proof.
  intros HG Hak Hb Hsv HGs. pose proof (ak_inv _ _ _ _ _ _ _ Hak) as Hq.
  assert (Hlen : zlen (vrqs s) < 2 ^ 31).
  { rewrite (ak_rqs _ _ _ _ _ _ _ Hak). unfold zlen. rewrite length_reverse, length_fmap.
    pose proof (chains_bound _ _ (qi_split _ _ _ _ _ _ Hq)) as Hc. rewrite !zlen_app in Hc.
    pose proof (zlen_nonneg free). unfold zlen in *. cbn in *. lia. }
  destruct (wait_all_run bdev size (both (only (vrqs s)) G) s w [] []) as
    (s1 & w1 & t1 & f1 & E1 & Hlk1 & Er & Hdone & (Hb1 & (free1 & Hq1) & [_ [Ho HG1]] & _)).
  - apply kept_both; [apply only_kept|done].
  - exact (ak_lock _ _ _ _ _ _ _ Hak).
  - split_and!; [done|by exists free| |].
    + split; [split|split; [|done]].
      * intros r Hr. destruct (asked_status _ _ _ _ _ _ _ _ Hak Hr) as (E & Hin & Hc).
        exists BLKREQ_STATUS_INIT. by rewrite app_nil_r.
      * by intros r v ?%elem_of_nil.
      * intros c Hc. rewrite app_nil_r in Hc. rewrite (ak_rqs _ _ _ _ _ _ _ Hak), elem_of_reverse.
        by apply list_elem_of_fmap_2.
    + intros c Hc. rewrite app_nil_r in Hc. apply list_elem_of_lookup in Hc as [k Hk].
      left. exists k. split; [done|by apply Hsv].
  - done.
  - rewrite <- Er in Ho, Hdone. destruct (all_done s1 free1 w1 t1 f1 Hq1 Ho Hdone) as (-> & -> & ->).
    destruct (free_all_run s1 free1 Hlk1 Hq1) as (s2 & E2 & Hlk2 & Hq2 & Hb2 & F1 & F2 & F3).
    { rewrite Er. by eapply asked_NoDup. }
    { intros r Hr. destruct (Hdone r Hr) as (v & -> & _). by eexists. }
    rewrite Er in Hdone. exists s1, s2. split_and!; try done; [by exists free1|].
    intros E0. split; [by rewrite Hb2| |done|by exists free1]. rewrite F3.
    unfold failures in E0. by apply length_zero_iff_nil; unfold zlen in E0; lia.
Qed.
(** ** One sector *)

(** What the transfer of the sector makes of medium and memory; [None] outside the medium or
    when the buffer is no memory. *)
Definition sector_moved (sec buf : Z) (write : bool) (med : list Z) (m : bytes) : option (list Z * bytes) :=
  transfer (if write then VIRTIO_BLK_T_OUT else VIRTIO_BLK_T_IN) sec buf 512 med m.

Definition decided (sec buf : Z) write (med0 : list Z) (m0 : bytes) (y : virtio_blk_req) (s : vdisk) : Prop :=
  (vstatus y = VIRTIO_BLK_S_OK ∧ sector_moved sec buf write med0 m0 = Some (medium (dev s), vmem s)) ∨
  (vstatus y = VIRTIO_BLK_S_IOERR ∧ medium (dev s) = med0 ∧ vmem s = m0).

(** The life of the one request: outstanding with nothing moved, answered, given its result. *)
Definition transferring (a sec buf : Z) write (med0 : list Z) (m0 : bytes) (s : vdisk) (w t f : list chain) : Prop :=
  NoDup (c_hdr <$> w ++ t ++ f) ∧ (∀ c, c ∈ w ++ t ++ f → c_hdr c = a) ∧
  ∃ y, vreqs s !! a = Some y ∧
    set_status BLKREQ_STATUS_INIT (vblkreq y) = io_request bdev sec buf 512 write ∧
    ((a ∈ c_hdr <$> w ++ t ∧ medium (dev s) = med0 ∧ vmem s = m0) ∨
     (a ∈ c_hdr <$> f ∧ decided sec buf write med0 m0 y s) ∨
     (¬ (a ∈ c_hdr <$> w ++ t ++ f) ∧ decided sec buf write med0 m0 y s ∧
      rq_status (vblkreq y) =
        (if vstatus y =? VIRTIO_BLK_S_OK then BLKREQ_STATUS_OK else BLKREQ_STATUS_ERR))).

Lemma transferring_move a sec buf write med0 m0 e s w t f s' w' t' f' :
  moves e s w t f s' w' t' f' →
  transferring a sec buf write med0 m0 s w t f → transferring a sec buf write med0 m0 s' w' t' f'.
Proof.
  intros Hm (Hnd & Hall & y & Hy & Ey & Hcase). pose proof (moves_perm _ _ _ _ _ _ _ _ _ Hm) as Ep.
  split; [by rewrite Ep|]. split; [intros c Hc; apply Hall; by rewrite <- Ep|].
  destruct Hm as [c w t f ->|c good x w t1 t2 f -> Hx Hd|w t f _ _].
  - assert (Hf : vreqs (dev_take s) = vreqs s ∧ medium (dev (dev_take s)) = medium (dev s) ∧
      vmem (dev_take s) = vmem s).
    { unfold dev_take. repeat case_match; by split_and!. }
    destruct Hf as (F1 & F2 & F3). exists y. rewrite F1. split; [done|]. split; [done|].
    unfold decided. rewrite F2, F3. rewrite Ep.
    assert (Ep' : w ++ t ++ [c] ≡ₚ (c :: w) ++ t) by solve_Permutation. by rewrite Ep'.
  - assert (Hca : c_hdr c = a) by (apply Hall; rewrite !elem_of_app, elem_of_cons; tauto).
    assert (x = y) as -> by congruence. rewrite Hca in Hx.
    assert (Hin : a ∈ c_hdr <$> w ++ (t1 ++ c :: t2)).
    { rewrite <- Hca. apply list_elem_of_fmap_2. rewrite !elem_of_app, elem_of_cons. tauto. }
    destruct Hcase as [(_ & <- & <-)|[[Hf _]|[Hn _]]].
    2:{ exfalso. rewrite app_assoc, fmap_app in Hnd. apply NoDup_app in Hnd as (_ & Hdis & _). by apply (Hdis a). }
    2:{ exfalso. apply Hn. rewrite app_assoc, fmap_app, elem_of_app. by left. }
    set (st := match moved good y s with Some _ => VIRTIO_BLK_S_OK | None => VIRTIO_BLK_S_IOERR end).
    exists (set_vstatus st y). split; [|split; [done|right; left; split]].
    + unfold completed. destruct (default _ _). cbn. by rewrite Hca, lookup_insert_eq.
    + rewrite <- Hca. apply list_elem_of_fmap_2. rewrite elem_of_app. right. left.
    + unfold decided, st, completed. destruct Hd as (_ & _ & _ & _ & Ht & Hsec).
      assert (Em : moved good y s = (if good
        then sector_moved sec buf write (medium (dev s)) (vmem s) else None)).
      { unfold moved, sector_moved. destruct (vblkreq y) as [ty sc sz bf stt dv en]. cbn in *.
        unfold io_request in Ey. injection Ey as E1 E2 E3 E4 E5 E6. rewrite Ht, Hsec, E1, E2, E3, E4. by destruct write. }
      destruct (moved good y s) as [[med m]|] eqn:Emv; cbn.
      * left. split; [done|]. by destruct good; [rewrite <- Em|].
      * right. done.
  - exists y. done.
Qed.

Lemma transferring_kept a sec buf write med0 m0 : kept (transferring a sec buf write med0 m0).
Proof.
  split; [by intros; eapply transferring_move| |done..].
  intros s free w t f Hq (Hnd & Hall & y & Hy & Ey & Hcase).
  pose proof (hdrs_of_fin _ _ _ (qi_hdrs _ _ _ _ _ _ Hq)) as Hnf.
  destruct (serviced_frame f s) as (_ & _ & _ & _ & _ & Fd & Fm).
  assert (Hsub : ∀ c, c ∈ w ++ t ++ [] → c ∈ w ++ t ++ f).
  { intros c. rewrite app_nil_r, !elem_of_app. tauto. }
  split.
  { rewrite app_nil_r. rewrite app_assoc, fmap_app in Hnd. by apply NoDup_app in Hnd as (? & _ & _). }
  split; [by intros c Hc; apply Hall, Hsub|].
  assert (Hv : vreqs (serviced f s) !! a = if decide (a ∈ c_hdr <$> f) then Some (verdict y) else Some y).
  { unfold serviced. cbn [vreqs set_vq]. rewrite (reap_all_reqs f s a Hnf), Hy. done. }
  assert (Hd : ∀ z, vstatus z = vstatus y → decided sec buf write med0 m0 y s →
    decided sec buf write med0 m0 z (serviced f s)).
  { unfold decided. rewrite Fd, Fm. by intros z ->. }
  rewrite app_nil_r. rewrite Hv. destruct Hcase as [(Hin & E1 & E2)|[[Hin Hdec]|(Hn & Hdec & Hst)]].
  - assert (a ∉ c_hdr <$> f).
    { rewrite app_assoc, fmap_app in Hnd. apply NoDup_app in Hnd as (_ & Hdis & _). by apply Hdis. }
    rewrite decide_False by done. exists y. split_and!; try done. left. by rewrite Fd, Fm.
  - rewrite decide_True by done. exists (verdict y). split; [done|]. split; [done|].
    right. right. split; [|split; [by apply Hd|done]].
    rewrite app_assoc, fmap_app in Hnd. apply NoDup_app in Hnd as (_ & Hdis & _). intros Hi. by apply (Hdis a Hi).
  - rewrite app_assoc, fmap_app, not_elem_of_app in Hn. destruct Hn as [Hn1 Hn2].
    rewrite decide_False by done. exists y. split_and!; try done. right. right. split; [done|]. split; [by apply Hd|done].
Qed.
(** Asking for one sector, waiting and freeing: the value of [ret], or of [nr] for 0. *)
Lemma sector_run s a junk fr sec buf write :
  idle s → vfresh s = (a, junk) :: fr → 0 < a → vreqs s !! a = None →
  serves 1 (free_desc (vq s)) (events s) → 0 ≤ sec < 2 ^ 32 →
  ∃ s0 s1 s2 nr, ask 1 sec 0 buf write s = Ret (0, s0) ∧ blkdev_wait_all s0 = Ret (nr, s1) ∧
    blkdev_free_all s1 = Ret (tt, s2) ∧
    ((nr = 0 ∧ idle s2 ∧
      sector_moved sec buf write (medium (dev s)) (vmem s) = Some (medium (dev s2), vmem s2)) ∨
     (nr = 1 ∧ medium (dev s2) = medium (dev s) ∧ vmem s2 = vmem s)).
Proof.
  intros [Hb Hr Hlk (free & Hq)] Hfr Ha Hnew Hsv Hsec.
  assert (Hbd : zlen free = 256).
  { pose proof (chains_bound _ _ (qi_split _ _ _ _ _ _ Hq)) as Hc.
    change (zlen ([] ++ [] ++ [] : list chain)) with 0 in Hc. lia. }
  assert (Hak : asked s s free [] sec buf write).
  { by split. }
  destruct (ask_run s sec buf write fr [(a, junk)] s free [] Hak Hfr) as
    (s0 & w & E0 & Hak0 & _ & Hh & Hd).
  { split; [apply NoDup_singleton|]. by repeat constructor. }
  { unfold zlen in Hbd. cbn. lia. }
  cbn [app] in Hak0. destruct w as [|c [|c' w]]; try done. injection Hh as Hca.
  pose proof (ak_frame _ _ _ _ _ _ _ Hak0) as (F1 & F2 & F3 & F4).
  destruct (ak_req _ _ _ _ _ _ _ Hak0 0%nat c eq_refl) as (x & Hx & Ex). rewrite Hca in Hx.
  rewrite Z.add_0_r, u32_small in Ex by done.
  destruct (finish_run (transferring a sec buf write (medium (dev s)) (vmem s)) s s0 (drop 3 free) [c] sec buf write)
    as (s1 & s2 & E1 & E2 & _ & (_ & _ & y & Hy & _ & Hcase) & Er & Hdone & G1 & G2 & Hid).
  - apply transferring_kept.
  - exact Hak0.
  - by rewrite F4.
  - intros [|k] c' Hc'; [|done]. injection Hc' as <-. rewrite F3.
    pose proof (Hd 0%nat c eq_refl) as Hfree. destruct free as [|d free]; [done|].
    injection Hfree as <-. by destruct (qi_free _ _ _ _ _ _ Hq) as [<- _].
  - split; [apply NoDup_singleton|]. split; [by intros c' ->%list_elem_of_singleton|].
    exists x. split; [done|]. split; [by rewrite Ex|]. left. rewrite F1, F2. split; [|done].
    cbn. rewrite Hca. left.
  - assert (Er0 : vrqs s1 = [a + BLKREQ_OFFSET]).
    { rewrite Er, (ak_rqs _ _ _ _ _ _ _ Hak0). cbn. unfold chan_of. by rewrite Hca. }
    assert (Est : status_of s1 (a + BLKREQ_OFFSET) = Some (rq_status (vblkreq y))).
    { unfold status_of. by rewrite get_vblkreq_add, Hy. }
    destruct Hcase as [[Hin _]|[[Hin _]|(_ & Hdec & Hst)]]; [by apply elem_of_nil in Hin..|].
    exists s0, s1, s2, (failures s1). split; [exact E0|]. split; [exact E1|]. split; [exact E2|].
    revert Hid. unfold failures. rewrite Er0, filter_cons, Est, Hst, G1, G2.
    destruct Hdec as [[-> Hmv]|(-> & Hmed & Hmem)]; cbn [Z.eqb].
    + rewrite decide_False by (intros Hne; by apply Hne). left. split_and!; [done|by auto|done].
    + right. done.
Qed.

Lemma sector_index offset :
  0 ≤ offset < 2 ^ 41 → first_sector offset = offset / 512 ∧ 0 ≤ offset / 512 < 2 ^ 32.
Proof.
  intros Ho. unfold first_sector. change sector_size with 512. rewrite u64_small by lia.
  rewrite u32_small by (Z.div_mod_to_equations; lia). split; [done|]. Z.div_mod_to_equations. lia.
Qed.

Lemma block_read_run d buffer offset s a junk fr :
  idle s → vfresh s = (a, junk) :: fr → 0 < a → vreqs s !! a = None →
  serves 1 (free_desc (vq s)) (events s) → 0 ≤ offset < 2 ^ 41 →
  ∃ ret s', block_read d buffer 512 offset s = Ret ((ret, offset + 512), s') ∧
    medium (dev s') = medium (dev s) ∧
    ((ret = 0 ∧ idle s' ∧ ∃ l, zslice (medium (dev s)) (offset / 512 * 512) 512 = Some l ∧
        vmem s' = store_bytes buffer l (vmem s)) ∨
     (ret = -1 ∧ vmem s' = vmem s)).
Proof.
  intros Hid Hfr Ha Hnew Hsv Ho. destruct (sector_index offset Ho) as [Esec Hsec].
  destruct (sector_run s a junk fr (offset / 512) buffer false) as (s0 & s1 & s2 & nr & E0 & E1 & E2 & Hc); try done.
  assert (Eo : i64 (offset + 512) = offset + 512) by (unfold i64; rewrite Z.mod_small; lia).
  assert (Erun : ∀ ret, ret = (if ctrue nr then -1 else 0) →
    block_read d buffer 512 offset s = Ret ((ret, offset + 512), s2)).
  { intros ret ->. unfold block_read. cbn [Z.eqb]. change (Z.to_nat (sectors 512)) with 1%nat.
    rewrite Esec. erewrite mbind_Ret.
    2: { rewrite read_loop_full by done. by erewrite mbind_Ret by exact E0. }
    cbv beta iota. mstep E1. change (incomplete 512) with false. cbv iota.
    erewrite mbind_Ret by reflexivity. mstep E2. rewrite Eo. done. }
  destruct Hc as [(-> & Hi & Hmv)|(-> & Hm & Hv)].
  - exists 0, s2. split; [by apply Erun|].
    unfold sector_moved, transfer in Hmv. change (VIRTIO_BLK_T_IN =? VIRTIO_BLK_T_IN) with true in Hmv.
    cbv iota in Hmv.
    destruct (zslice _ _ _) as [l|] eqn:El; [|done]. cbn in Hmv. injection Hmv as <- <-.
    split; [done|]. left. split_and!; [done..|]. by exists l.
  - exists (-1), s2. split; [by apply Erun|]. split; [done|]. by right.
Qed.

Lemma block_write_run d buffer offset s a junk fr :
  idle s → vfresh s = (a, junk) :: fr → 0 < a → vreqs s !! a = None →
  serves 1 (free_desc (vq s)) (events s) → 0 ≤ offset < 2 ^ 41 →
  ∃ ret s', block_write d buffer 512 offset s = Ret ((ret, offset + 512), s') ∧
    vmem s' = vmem s ∧
    ((ret = 0 ∧ idle s' ∧ ∃ l, load_bytes 512 buffer (vmem s) = Some l ∧
        zsplice (medium (dev s)) (offset / 512 * 512) l = Some (medium (dev s'))) ∨
     (ret = -1 ∧ medium (dev s') = medium (dev s))).
Proof.
  intros Hid Hfr Ha Hnew Hsv Ho. destruct (sector_index offset Ho) as [Esec Hsec].
  destruct (sector_run s a junk fr (offset / 512) buffer true) as (s0 & s1 & s2 & nr & E0 & E1 & E2 & Hc); try done.
  assert (Eo : i64 (offset + 512) = offset + 512) by (unfold i64; rewrite Z.mod_small; lia).
  assert (Erun : ∀ ret, ret = (if ctrue nr then -1 else 0) →
    block_write d buffer 512 offset s = Ret ((ret, offset + 512), s2)).
  { intros ret ->. unfold block_write. cbn [Z.eqb]. change (Z.to_nat (sectors 512)) with 1%nat.
    change (incomplete 512) with false. cbv iota. erewrite mbind_Ret by reflexivity.
    rewrite Esec. erewrite mbind_Ret by (rewrite write_loop_full by done; exact E0).
    cbv beta iota. mstep E1. mstep E2. rewrite Eo. done. }
  destruct Hc as [(-> & Hi & Hmv)|(-> & Hm & Hv)].
  - exists 0, s2. split; [by apply Erun|].
    unfold sector_moved, transfer in Hmv. change (VIRTIO_BLK_T_OUT =? VIRTIO_BLK_T_IN) with false in Hmv.
    cbv iota in Hmv. change (Z.to_nat 512) with 512%nat in Hmv.
    destruct (load_bytes _ _ _) as [l|] eqn:El; [|done]. cbn [mbind option_bind] in Hmv.
    change VIRTIO_BLK_SECTOR_SIZE with 512 in Hmv.
    destruct (zsplice _ _ _) as [med|] eqn:Em; [|done]. cbn in Hmv. injection Hmv as <- <-.
    split; [done|]. left. split_and!; [done..|]. by exists l.
  - exists (-1), s2. split; [by apply Erun|]. split; [done|]. by right.
Qed.
(** *** Several whole sectors *)

Lemma lookup_store_bytes l : ∀ a m x,
  store_bytes a l m !! x =
    if decide (a ≤ x < a + zlen l) then l !! Z.to_nat (x - a) else m !! x.
Proof.
  induction l as [|y l IH]; intros a m x; cbn [store_bytes].
  { change (zlen []) with 0. by rewrite decide_False by lia. }
  rewrite IH, zlen_cons. pose proof (zlen_nonneg l). destruct (decide (x = a)) as [->|Hx].
  - rewrite decide_False, decide_True by lia. rewrite lookup_insert_eq, Z.sub_diag. done.
  - rewrite lookup_insert_ne by done. case_decide.
    + rewrite decide_True by lia. replace (Z.to_nat (x - a)) with (S (Z.to_nat (x - (a + 1)))) by lia. done.
    + by rewrite decide_False by lia.
Qed.

Lemma load_bytes_Some n : ∀ a m l,
  load_bytes n a m = Some l → length l = n ∧ ∀ i, (i < n)%nat → m !! (a + Z.of_nat i) = l !! i.
Proof.
  induction n as [|n IH]; intros a m l; cbn [load_bytes].
  { intros [= <-]. split; [done|lia]. }
  destruct (m !! a) as [x|] eqn:Hx; cbn; [|done].
  destruct (load_bytes n (a + 1) m) as [k|] eqn:Hk; cbn; [|done]. intros [= <-].
  destruct (IH _ _ _ Hk) as [Hl Hi]. split; [cbn; lia|]. intros [|i] Hlt; [by rewrite Z.add_0_r|].
  cbn. rewrite <- Hi by lia. f_equal. lia.
Qed.

(** Every outstanding request reads one sector into [buf]. *)
Definition reading_into (buf : Z) (m0 : bytes) (s : vdisk) (w t f : list chain) : Prop :=
  (∀ c, c ∈ w ++ t ++ f → ∃ x, vreqs s !! c_hdr c = Some x ∧
     rq_type (vblkreq x) = BLKREQ_TYPE_READ ∧ rq_buffer (vblkreq x) = buf ∧ rq_size (vblkreq x) = 512) ∧
  ∀ a, (a < buf ∨ buf + 512 ≤ a) → vmem s !! a = m0 !! a.

Lemma reading_into_kept buf m0 : kept (reading_into buf m0).
Proof.
  split; [| |done..].
  - intros e s w t f s' w' t' f' Hm [Hall Hmem]. pose proof (moves_perm _ _ _ _ _ _ _ _ _ Hm) as Ep.
    pose proof (moves_frame _ _ _ _ _ _ _ _ _ Hm) as (_ & _ & _ & _ & _ & _ & _ & _ & Hkeep).
    split.
    { intros c Hc. rewrite Ep in Hc. destruct (Hall c Hc) as (x & Hx & Hr).
      destruct (Hkeep _ _ Hx) as (x' & Hx' & E). exists x'. by rewrite E. }
    destruct Hm as [c w t f ->|c good x w t1 t2 f -> Hx Hd|w t f _ _]; [| |done].
    + unfold dev_take. repeat case_match; done.
    + destruct (Hall c) as (x' & Hx' & Hty & Hbuf & Hsz); [rewrite !elem_of_app, elem_of_cons; tauto|].
      assert (x' = x) as -> by congruence. destruct Hd as (_ & _ & _ & _ & Ht & _). rewrite Hty in Ht.
      intros a Ha. rewrite <- Hmem by done. unfold completed.
      assert (Hv : ∀ med m, default (medium (dev s), vmem s) (moved good x s) = (med, m) →
        m !! a = vmem s !! a).
      { intros med m. unfold moved. destruct good; [|by intros [= _ <-]].
        rewrite Ht, Hbuf, Hsz. unfold transfer. cbn.
        destruct (zslice _ _ _) as [l|] eqn:El; [|by intros [= _ <-]]. cbn. intros [= _ <-].
        apply zslice_length in El. rewrite lookup_store_bytes, El. change (u32 512) with 512.
        by rewrite decide_False by lia. }
      destruct (default _ _) as [med m] eqn:Edef. by eapply Hv.
  - intros s free w t f Hq [Hall Hmem].
    destruct (serviced_frame f s) as (_ & _ & _ & _ & _ & _ & Fm).
    split; [|by rewrite Fm]. intros c Hc. rewrite app_nil_r in Hc.
    destruct (Hall c) as (x & Hx & Hr); [rewrite !elem_of_app in *; tauto|].
    assert (Hnf : c_hdr c ∉ c_hdr <$> f).
    { pose proof (qi_hdrs _ _ _ _ _ _ Hq) as Hn. rewrite app_assoc, fmap_app in Hn.
      apply NoDup_app in Hn as (_ & Hdis & _). apply Hdis. by apply list_elem_of_fmap_2. }
    exists x. split; [|done]. unfold serviced. cbn [vreqs set_vq].
    rewrite reap_all_reqs by (by eapply hdrs_of_fin, qi_hdrs). by rewrite decide_False.
Qed.

(** A read of several whole sectors, up to the 85 the queue has room for, asks for all of
    them into the same sector of the buffer: whatever the order in which the device serves
    them, the call returns and no byte of memory outside the first sector of the buffer
    changes, so the other sectors never arrive although the offset moves over them. *)
Theorem block_read_one_place d buffer n offset s blocks fr free :
  idle s → disk_inv s free [] [] [] →
  vfresh s = blocks ++ fr → length blocks = n → fresh_blocks s blocks → (1 ≤ n ≤ 85)%nat →
  (∀ k h, (k < n)%nat → free !! (3 * k)%nat = Some h → serves (S k) h (events s)) →
  ∃ ret s', block_read d buffer (512 * Z.of_nat n) offset s =
      Ret ((ret, i64 (offset + 512 * Z.of_nat n)), s') ∧ (ret = 0 ∨ ret = -1) ∧
    ∀ x, (x < buffer ∨ buffer + 512 ≤ x) → vmem s' !! x = vmem s !! x.
Proof.
  intros [Hb Hr Hlk _] Hq Hfr Hlen Hnew Hn Hsv.
  assert (Hbd : zlen free = 256).
  { pose proof (chains_bound _ _ (qi_split _ _ _ _ _ _ Hq)) as Hc.
    change (zlen ([] ++ [] ++ [] : list chain)) with 0 in Hc. lia. }
  assert (Hak : asked s s free [] (first_sector offset) buffer false) by (by split).
  destruct (ask_run s _ buffer false fr blocks s free [] Hak Hfr Hnew) as
    (s0 & w & E0 & Hak0 & _ & Hh & Hd); [unfold zlen in Hbd; lia|]. cbn [app] in Hak0.
  pose proof (ak_frame _ _ _ _ _ _ _ Hak0) as (F1 & F2 & F3 & F4).
  assert (Hlw : length w = n).
  { rewrite <- Hlen. rewrite <- (length_fmap c_hdr w), Hh. by rewrite length_fmap. }
  destruct (finish_run (reading_into buffer (vmem s)) s s0 (drop (3 * length blocks) free) w (first_sector offset) buffer false)
    as (s1 & s2 & E1 & E2 & _ & [_ Hmem] & _ & _ & G1 & _ & _).
  - apply reading_into_kept.
  - exact Hak0.
  - by rewrite F4.
  - intros k c Hc. rewrite F3. apply Hsv; [|by apply Hd]. apply lookup_lt_Some in Hc. lia.
  - split; [|by rewrite F1]. intros c Hc. rewrite app_nil_r in Hc.
    apply list_elem_of_lookup in Hc as [k Hk].
    destruct (ak_req _ _ _ _ _ _ _ Hak0 k c Hk) as (x & Hx & Ex). exists x. by rewrite Ex.
  - assert (Hi : incomplete (512 * Z.of_nat n) = false).
    { unfold incomplete. change sector_size with 512. by rewrite Z.mul_comm, Z.mod_mul. }
    assert (Hs : Z.to_nat (sectors (512 * Z.of_nat n)) = n).
    { unfold sectors. change sector_size with 512. rewrite u32_small by (Z.div_mod_to_equations; lia).
      Z.div_mod_to_equations. lia. }
    exists (if ctrue (failures s1) then -1 else 0), s2. split; [|split].
    + unfold block_read. rewrite (proj2 (Z.eqb_neq _ 0)) by lia. rewrite Hs, <- Hlen.
      erewrite mbind_Ret.
      2: { rewrite read_loop_full by (by rewrite Hlen). by erewrite mbind_Ret by exact E0. }
      cbv beta iota. mstep E1. rewrite Hlen, Hi. erewrite mbind_Ret by reflexivity. mstep E2. done.
    + destruct (ctrue _); [by right|by left].
    + intros x Hx. rewrite G1. by apply Hmem.
Qed.

(** C33: A sector written with [block_write] and read back with [block_read], both successful,
    gives the bytes that were written; every call returns, with an error or not.  Conditions:
    the disk is idle before (no request in flight, nothing on the list, its lock free), fresh
    memory for the requests, an offset below 2 ^ 41, and a device that takes and finishes the
    request, well or badly and in any order with other moves, after [blkdev_wait_all] has gone
    to sleep, and interrupts afterwards ([serves]); while the interrupt handler runs it
    finishes nothing ([VirtioDisk.isr_loses_completion] shows what happens otherwise). *)
Theorem block_sector_roundtrip d b1 b2 offset s a junk fr a2 junk2 fr2 ev :
  idle s → vfresh s = (a, junk) :: fr → 0 < a → vreqs s !! a = None →
  serves 1 (free_desc (vq s)) (events s) → 0 ≤ offset < 2 ^ 41 →
  ∃ r1 s1, block_write d b1 512 offset s = Ret ((r1, offset + 512), s1) ∧
    (r1 = 0 → 0 < a2 → vreqs s1 !! a2 = None → serves 1 (free_desc (vq s1)) ev →
     ∃ r2 s2, block_read d b2 512 offset (set_events ev (set_vfresh ((a2, junk2) :: fr2) s1)) =
        Ret ((r2, offset + 512), s2) ∧
       (r2 = 0 → ∀ i, 0 ≤ i < 512 → vmem s2 !! (b2 + i) = vmem s !! (b1 + i))).
Proof.
  intros Hid Hfr Ha Hnew Hsv Ho.
  destruct (block_write_run d b1 offset s a junk fr Hid Hfr Ha Hnew Hsv Ho) as
    (r1 & s1 & E1 & Hm1 & Hc1). exists r1, s1. split; [exact E1|].
  intros -> Ha2 Hnew2 Hsv2. destruct Hc1 as [(_ & [I1 I2 I3 (free1 & I4)] & l & Hl & Hspl)|[? _]]; [|done].
  destruct (block_read_run d b2 offset (set_events ev (set_vfresh ((a2, junk2) :: fr2) s1)) a2 junk2 fr2)
    as (r2 & s2 & E2 & _ & Hc2); try done.
  { split; [done|done|exact I3|]. exists free1. by apply disk_inv_events, disk_inv_fresh. }
  exists r2, s2. split; [exact E2|]. intros -> i Hi.
  destruct Hc2 as [(_ & _ & l2 & Hl2 & Hv2)|[? _]]; [|done].
  destruct (load_bytes_Some _ _ _ _ Hl) as [Hlen Hlk].
  apply zslice_zsplice in Hspl. change (medium (dev (set_events _ _))) with (medium (dev s1)) in Hl2.
  unfold zlen in Hspl. rewrite Hlen in Hspl. change (Z.of_nat 512) with 512 in Hspl.
  assert (l2 = l) as -> by congruence.
  rewrite Hv2, lookup_store_bytes. unfold zlen. rewrite Hlen. rewrite decide_True by lia.
  replace (b2 + i - b2) with i by lia. rewrite <- Hlk by lia. f_equal. lia.
Qed.
End on_virtio.

(** ** A disk of four sectors *)

(** Memory of three sectors for the caller at 0x10000, with its numbers as contents, and one
    for the last sector of a transfer at 0x20000. *)
Definition demo_bytes : bytes :=
  store_bytes 0x20000 (replicate 512 255) (store_bytes 0x10000 ((λ i, i mod 251) <$> seqZ 0 1536) ∅).
Definition demo_disk : disk := Disk 16 [115; 100; 97] 0x20000 0.
Definition idle_disk (ev : list dev_event) : vdisk := set_vmem demo_bytes (set_events ev demo_vdisk).
Definition one_request : list dev_event := [DTake; DComplete 0 true; DIrq].
Definition two_requests : list dev_event := [DTake; DTake; DComplete 3 true; DComplete 0 true; DIrq].

Lemma idle_disk_idle ev : idle (idle_disk ev).
Proof.
  split; [done|done|exact demo_disk_lock_free|]. exists (seqZ 0 256).
  apply (qinv_frame _ demo_vdisk); [done..|]. exact (disk_boot_inv _ demo_disk_boot).
Qed.

Lemma block_sector_roundtrip_witness :
  ∃ s1 s2, block_write (H := virtio_blkdev 16 2048) demo_disk 0x10000 512 1024 (idle_disk one_request) =
      Ret ((0, 1536), s1) ∧
    block_read (H := virtio_blkdev 16 2048) demo_disk 0x10200 512 1024
      (set_events [DTake; DComplete 2 true; DIrq] (set_vfresh [(8192, demo_junk)] s1)) = Ret ((0, 1536), s2) ∧
    (∀ i, 0 ≤ i < 512 → vmem s2 !! (0x10200 + i) = demo_bytes !! (0x10000 + i)).
Proof.
  destruct (block_sector_roundtrip 16 2048 demo_disk 0x10000 0x10200 1024 (idle_disk one_request) 4096
    demo_junk [(8192, demo_junk)] 8192 demo_junk [] [DTake; DComplete 2 true; DIrq])
    as (r1 & s1 & E1 & H2).
  - apply idle_disk_idle.
  - done.
  - lia.
  - by vm_compute.
  - cbn. left. split_and!; [done|done|left].
  - lia.
  - pose (o := block_write (H := virtio_blkdev 16 2048) demo_disk 0x10000 512 1024 (idle_disk one_request)).
    assert (o = Ret ((r1, 1536), s1)) as Eo by exact E1.
    assert (r1 = match o with Ret (r, _, _) => r | _ => -1 end) as Er1 by (by rewrite Eo).
    assert (s1 = outcome_state o (idle_disk [])) as Es1 by (by rewrite Eo).
    assert (r1 = 0) as -> by (rewrite Er1; by vm_compute).
    destruct H2 as (r2 & s2 & E2 & H2).
    + done.
    + lia.
    + rewrite Es1. by vm_compute.
    + assert (free_desc (vq s1) = 2) as -> by (rewrite Es1; by vm_compute).
      cbn. left. split_and!; [done|done|left].
    + assert (r2 = 0) as ->.
      { assert (r2 = match block_read (H := virtio_blkdev 16 2048) demo_disk 0x10200 512 1024
          (set_events [DTake; DComplete 2 true; DIrq] (set_vfresh [(8192, demo_junk)]
            (outcome_state o (idle_disk [])))) with Ret (r, _, _) => r | _ => -1 end) as ->.
        { rewrite <- Es1. change (1024 + 512) with 1536 in E2. unfold drv_disk in E2. by rewrite E2. } by vm_compute. }
      exists s1, s2. split_and!; [exact E1|exact E2|by apply H2].
Defined.

(** Two sectors: the caller gets the first of them last, and the second half of his buffer
    keeps what it had. *)
Lemma block_read_one_place_witness :
  ∃ ret s', block_read (H := virtio_blkdev 16 2048) demo_disk 0x10000 1024 0 (idle_disk two_requests) =
      Ret ((ret, 1024), s') ∧
    (∀ i, 512 ≤ i < 1024 → vmem s' !! (0x10000 + i) = demo_bytes !! (0x10000 + i)).
Proof.
  destruct (block_read_one_place 16 2048 demo_disk 0x10000 2 0 (idle_disk two_requests)
    [(4096, demo_junk); (8192, demo_junk)] [] (seqZ 0 256)) as (ret & s' & E & _ & H2).
  - apply idle_disk_idle.
  - apply (qinv_frame _ demo_vdisk); [done..|]. exact (disk_boot_inv _ demo_disk_boot).
  - done.
  - done.
  - split; [by apply (bool_decide_unpack _); vm_compute|]. by repeat constructor.
  - lia.
  - intros [|[|k]] h Hk; [| |lia]; intros [= <-]; cbn.
    + right. left. split_and!; [done|done|left].
    + left. split_and!; [done|done|right; left].
  - exists ret, s'. split; [exact E|]. intros i Hi. apply H2. lia.
Defined.

(** Part of a sector is stored a sector behind the buffer. *)
Example short_read :
  match block_read (H := virtio_blkdev 16 2048) demo_disk 0x10000 100 512 (idle_disk one_request) with
  | Ret (r, s') => r = (0, 612) ∧ vmem s' !! 0x10000 = Some 0 ∧ vmem s' !! 0x10063 = Some 99 ∧
                   vmem s' !! 0x10200 = Some 1 ∧ vmem s' !! 0x10263 = Some 1
  | _ => False
  end.
Proof. by vm_compute. Qed.

(** Writing part of a sector clears the rest of it. *)
Example short_write :
  match block_write (H := virtio_blkdev 16 2048) demo_disk 0x10001 1 512 (idle_disk one_request) with
  | Ret (r, s') => r = (0, 513) ∧ medium (dev s') !! 512%nat = Some 1 ∧ medium (dev s') !! 513%nat = Some 0
  | _ => False
  end.
Proof. by vm_compute. Qed.
