(* ===== verification/DevFs.v ===== *)
(** * The device file system

    Models [kernel/fs/devfs/devfs.c]: the list of device nodes, their lookup by path, and the
    operations on open device files, which hand over to [Disk] for block devices and to [Tty]
    for character devices.  A node carries its type tag and the member of the union that was
    stored; reading the union at another type is a fault. *)

From S2P Require Export Disk FsSys Tty.

Definition O_CREAT : Z := 0x40.
Definition S_IFDIR : Z := 0x4000.
Definition S_IFBLK : Z := 0x6000.
Definition S_IFCHR : Z := 0x2000.
Definition SIZEOF_DEVFS_DEVICE : Z := 328.
Definition SIZEOF_DIRENT : Z := 24.

(** The union of [struct devfs_device]; [Blank] is what [kcalloc] gives. *)
Inductive body := IsDisk (d : disk) | IsTty (t : tty) | Blank.
Record devfs_device := DevfsDevice {
  df_type : Z;
  df_body : body;
  df_name : str;
  df_ino : Z
}.
Definition set_body (b : body) (x : devfs_device) : devfs_device :=
  DevfsDevice (df_type x) b (df_name x) (df_ino x).

(** [devfs_list], the nodes by address and [cur_ino]. *)
Record devfs := Devfs {
  dfs_list : list Z;
  dfs_nodes : gmap Z devfs_device;
  cur_ino : Z
}.

(** The fields of [struct stat], without padding. *)
Record kstat := Kstat {
  ks_dev : Z; ks_ino : Z; ks_mode : Z; ks_nlink : Z; ks_uid : Z; ks_gid : Z; ks_rdev : Z;
  ks_size : Z; ks_blksize : Z; ks_blocks : Z;
  ks_atime : Z * Z; ks_mtime : Z * Z; ks_ctime : Z * Z
}.

(** A system with device nodes: the registered devices, open files and inodes by address, and
    the driver of a block device. *)
Class DevfsState (S : Type) := {
  #[global] df_devstate :: DevState S;
  #[global] df_devops :: DevOps S;
  df_lens : lens S devfs;
  #[global] df_lens_lawful :: LawfulLens df_lens;
  #[global] df_lock_lens :: Indep lock_lens df_lens;
  #[global] df_dev_lens :: Indep dev_lens df_lens;
  #[global] df_mem_lens :: Indep mem_lens df_lens;
  df_files : lens S (gmap Z file);
  df_inodes : lens S (gmap Z inode);
  #[global] df_files_lawful :: LawfulLens df_files;
  #[global] df_inodes_lawful :: LawfulLens df_inodes;
  #[global] df_files_indep :: Indep df_files df_lens;
  #[global] df_inodes_indep :: Indep df_inodes df_lens;
  #[global] df_lock_files :: Indep lock_lens df_files;
  #[global] df_mem_files :: Indep mem_lens df_files;
  #[global] df_inodes_files :: Indep df_inodes df_files;
  blk_at : Z → option (BlkDriver S);
  devfs_list_lk : Z;
  stdin_node : Z;
  stdout_node : Z;
  stderr_node : Z;
  devfs_file_fops_addr : Z;
  devfs_fs_addr : Z
}.

(** ** Paths *)

Definition DEV : str := [47; 100; 101; 118].

(** The first loop of [get_name_pos_from_path], and whether the second meets a slash. *)
Fixpoint name_pos_loop (fuel : nat) (path : str) (len pos : Z) : Z :=
  match fuel with
  | O => pos
  | S fuel =>
      if (pos <? len) && (chr path pos =? SLASH) then name_pos_loop fuel path len (pos + 1) else pos
  end.
Definition slash_from (path : str) (pos : Z) : bool :=
  existsb (λ c, c =? SLASH) (drop (Z.to_nat pos) path).

(** [strncmp] with a bound on strings. *)
Definition same_prefix (n : nat) (a b : str) : bool := bool_decide (take n a = take n b).

Definition get_name_pos_from_path (path : str) : Z :=
  if negb (same_prefix 4 path DEV) then -1
  else
    let len := zlen path in
    if len =? 4 then 0
    else if negb (chr path 4 =? SLASH) then -1
    else
      let ret := name_pos_loop (length path) path len 4 in
      if slash_from path ret then -1
      else if ret =? len then 0 else ret.

Section devfs.
Context {S : Type} `{DevfsState S}.

Definition get_dfs : M S devfs := gets (lget df_lens).
Definition upd_dfs (f : devfs → devfs) : M S unit := modify (λ s, lset df_lens (f (lget df_lens s)) s).
Definition get_node (a : Z) : M S devfs_device := D ← get_dfs; mlift (dfs_nodes D !! a).
Definition put_node (a : Z) (x : devfs_device) : M S unit :=
  upd_dfs (λ D, Devfs (dfs_list D) (<[a := x]> (dfs_nodes D)) (cur_ino D)).

(** [device->disk] and [device->tty]. *)
Definition as_disk (x : devfs_device) : M S disk :=
  match df_body x with IsDisk d => mret d | _ => mfault end.
Definition as_tty (x : devfs_device) : M S tty :=
  match df_body x with IsTty t => mret t | _ => mfault end.

Definition get_file (f : Z) : M S file := m ← gets (lget df_files); mlift (m !! f).
Definition put_file (f : Z) (x : file) : M S unit :=
  modify (λ s, lset df_files (<[f := x]> (lget df_files s)) s).
Definition set_fpos (f v : Z) : M S unit :=
  x ← get_file f;
  put_file f (File (f_flags x) (f_op x) (f_inode x) (f_path x) v (f_private x) (f_ref x)).
Definition set_private (f v : Z) : M S unit :=
  x ← get_file f;
  put_file f (File (f_flags x) (f_op x) (f_inode x) (f_path x) (fpos x) v (f_ref x)).
Definition upd_inode (i : Z) (g : inode → inode) : M S unit :=
  m ← gets (lget df_inodes);
  x ← mlift (m !! i);
  modify (λ s, lset df_inodes (<[i := g x]> (lget df_inodes s)) s).

(** ** The list of nodes *)

Fixpoint find_node (l : list Z) (name : str) : M S Z :=
  match l with
  | [] => mret 0
  | a :: l =>
      x ← get_node a;
      if same_prefix DEV_NAME_MAX_LEN name (df_name x) then mret a else find_node l name
  end.
Definition devfs_get_by_name (name : str) : M S Z :=
  acquire devfs_list_lk;;
  D ← get_dfs;
  a ← find_node (dfs_list D) name;
  release devfs_list_lk;;
  mret a.

Definition devfs_get_by_path (path : str) : M S Z :=
  let pos := get_name_pos_from_path path in
  if pos <=? 0 then mret 0 else devfs_get_by_name (drop (Z.to_nat pos) path).

Definition devfs_add_device (a : Z) : M S unit :=
  x ← get_node a;
  D ← get_dfs;
  put_node a (DevfsDevice (df_type x) (df_body x) (df_name x) (cur_ino D));;
  upd_dfs (λ D, Devfs (dfs_list D) (dfs_nodes D) (u32 (cur_ino D + 1)));;
  acquire devfs_list_lk;;
  upd_dfs (λ D, Devfs (a :: dfs_list D) (dfs_nodes D) (cur_ino D));;
  release devfs_list_lk.

(** One of the standard terminals. *)
Definition add_terminal (node chrdev : Z) (t : tty) : M S unit :=
  put_node node (DevfsDevice FT_CHRDEV (IsTty t) (tty_name t) 0);;
  devfs_add_device node.

(** The loop over the devices; [letter] is [blkname[2]]. *)
Fixpoint init_loop (l : list Z) (letter : Z) : M S unit :=
  match l with
  | [] => mret tt
  | d :: l =>
      x ← get_dev d;
      letter ←
        (if bool_decide (dv_type x = DEVICE_TYPE_BLOCK) then
           a ← dev_kalloc SIZEOF_DEVFS_DEVICE;
           massert (ctrue a);;
           massert (negb (letter =? 122));;
           buffer ← dev_kalloc (dv_sector_size x);
           let dk := block_init d [115; 100; letter] buffer in
           put_node a (DevfsDevice FT_BLKDEV (IsDisk dk) (dk_name dk) 0);;
           devfs_add_device a;;
           mret (letter + 1)
         else mret letter);
      acquire devlst_lock;; release devlst_lock;;
      init_loop l letter
  end.

(** The result and the mount point. *)
Definition devfs_init : M S (Z * mountpoint) :=
  lockinit devfs_list_lk "devfs list lock";;
  upd_dfs (λ D, Devfs [] (dfs_nodes D) (cur_ino D));;
  chrdev ← chrdev_get_default_dev;
  massert (ctrue chrdev);;
  t0 ← tty_init chrdev [115; 116; 100; 105; 110] 0;
  t1 ← tty_init chrdev [115; 116; 100; 111; 117; 116] TTY_BUF_SIZE_DEFAULT;
  t2 ← tty_init chrdev [115; 116; 100; 101; 114; 114] 0;
  add_terminal stdin_node chrdev t0;;
  add_terminal stdout_node chrdev t1;;
  add_terminal stderr_node chrdev t2;;
  acquire devlst_lock;;
  L ← gets (lget dev_lens);
  release devlst_lock;;
  init_loop (device_list L) 97;;
  mret (0, Mountpoint DEV devfs_fs_addr 0 0).

(** ** Open files *)

Definition devfs_fs_ifget (mp inode file : Z) : M S Z :=
  x ← get_file file;
  put_file file (File (f_flags x) devfs_file_fops_addr inode (f_path x) (fpos x) (f_private x) (f_ref x));;
  upd_inode inode (λ n, Inode (i_mode n) (i_size n) (i_ino n) (i_atime n) (i_mtime n) (i_ctime n) mp);;
  mret 0.

Definition node_of (file : Z) : M S (Z * devfs_device) :=
  x ← get_file file;
  massert (ctrue (f_private x));;
  n ← get_node (f_private x);
  mret (f_private x, n).

Definition devfs_llseek (file offset whence : Z) : M S Z :=
  '(a, x) ← node_of file;
  if df_type x =? FT_DIR then mret (-1)
  else if df_type x =? FT_BLKDEV then
    d ← as_disk x;
    drv ← mlift (blk_at (dk_blkdev d));
    let '(ret, d) := block_llseek (H := drv) d offset whence in
    put_node a (set_body (IsDisk d) x);;
    mret ret
  else if df_type x =? FT_CHRDEV then t ← as_tty x; tty_llseek t offset whence
  else mret (-1).

(** The offset is the one of the file. *)
Definition devfs_read (file buffer size : Z) : M S Z :=
  '(a, x) ← node_of file;
  f ← get_file file;
  if df_type x =? FT_DIR then mret (-1)
  else if df_type x =? FT_BLKDEV then
    d ← as_disk x;
    drv ← mlift (blk_at (dk_blkdev d));
    '(ret, pos) ← block_read (H := drv) d buffer size (fpos f);
    set_fpos file pos;;
    mret ret
  else if df_type x =? FT_CHRDEV then
    t ← as_tty x;
    '(ret, pos) ← tty_read id t buffer size (fpos f);
    set_fpos file pos;;
    mret ret
  else mret (-1).

Definition devfs_write (file buffer size : Z) : M S Z :=
  '(a, x) ← node_of file;
  f ← get_file file;
  if df_type x =? FT_DIR then mret (-1)
  else if df_type x =? FT_BLKDEV then
    d ← as_disk x;
    drv ← mlift (blk_at (dk_blkdev d));
    '(ret, pos) ← block_write (H := drv) d buffer size (fpos f);
    set_fpos file pos;;
    mret ret
  else if df_type x =? FT_CHRDEV then
    t ← as_tty x;
    '(ret, pos, t) ← tty_write t buffer size (fpos f);
    put_node a (set_body (IsTty t) x);;
    set_fpos file pos;;
    mret ret
  else mret (-1).

Definition set_mode (file mode : Z) : M S unit :=
  x ← get_file file;
  upd_inode (f_inode x) (λ n, Inode (u16 mode) (i_size n) (i_ino n) (i_atime n) (i_mtime n) (i_ctime n) (i_mp n)).

Definition devfs_openat (file : Z) (path : str) (flags mode : Z) : M S Z :=
  if ctrue (Z.land flags O_CREAT) || ctrue (Z.land flags O_APPEND) then mret (-1)
  else
    let pos := get_name_pos_from_path path in
    if pos <? 0 then mret (-1)
    else if pos =? 0 then
      device ← dev_kalloc SIZEOF_DEVFS_DEVICE;
      if device =? 0 then mfault
      else
        put_node device (DevfsDevice FT_DIR Blank [] 0);;
        set_mode file (Z.land mode S_IFDIR);;
        set_private file device;;
        mret 0
    else
      device ← devfs_get_by_name (drop (Z.to_nat pos) path);
      if device =? 0 then mret (-1)
      else
        x ← get_node device;
        if df_type x =? FT_BLKDEV then
          set_mode file (Z.land mode S_IFBLK);; set_private file device;; mret 0
        else if df_type x =? FT_CHRDEV then
          set_mode file (Z.land mode S_IFCHR);; set_private file device;; mret 0
        else mret (-1).

(** [kfree] of a node. *)
Definition free_node (a : Z) : M S unit :=
  get_node a;; upd_dfs (λ D, Devfs (dfs_list D) (delete a (dfs_nodes D)) (cur_ino D)).
Definition devfs_close (file : Z) : M S Z :=
  '(a, x) ← node_of file;
  (if df_type x =? FT_DIR then free_node a else mret tt);;
  set_private file 0;;
  mret 0.

(** The result and, on success, the structure filled in. *)
Definition devfs_getattr (path : str) : M S (Z * option kstat) :=
  let pos := get_name_pos_from_path path in
  if pos <? 0 then mret (-1, None)
  else if pos =? 0 then
    mret (0, Some (Kstat 0 1 S_IFDIR 1 0 0 0 4096 512 8 (0, 0) (0, 0) (0, 0)))
  else
    device ← devfs_get_by_name (drop (Z.to_nat pos) path);
    if device =? 0 then mret (-1, None)
    else
      x ← get_node device;
      if df_type x =? FT_BLKDEV then
        d ← as_disk x;
        b ← get_dev (dk_blkdev d);
        mret (0, Some (Kstat (u64 (devid b)) (df_ino x) S_IFBLK 1 0 0 0
          (i64 (dv_size b)) (i32 (dv_sector_size b)) (i64 (dv_size b / dv_sector_size b))
          (0, 0) (0, 0) (0, 0)))
      else if df_type x =? FT_CHRDEV then
        t ← as_tty x;
        c ← get_dev (tty_chrdev t);
        mret (0, Some (Kstat (u64 (devid c)) (df_ino x) S_IFCHR 1 0 0 0 0 0 0 (0, 0) (0, 0) (0, 0)))
      else mret (-1, None).

(** The walk of [devfs_getdents64]: the bytes of an entry but for the name's end. *)
Fixpoint dents_loop (l : list Z) (buf len ret : Z) : M S Z :=
  match l with
  | [] => mret ret
  | a :: l =>
      x ← get_node a;
      let size := SIZEOF_DIRENT + zlen (df_name x) + 1 in
      if len <? size then mret ret
      else
        type ← mlift (fs_ftype_to_dtype (df_type x));
        on_mem (store_str buf (le_bytes 8 (df_ino x) ++ le_bytes 8 0));;
        on_mem (st (buf + 18) type);;
        on_mem (store_str (buf + 19) (df_name x));;
        on_mem (store_str (buf + 16) (le_bytes 2 (u16 size)));;
        dents_loop l (buf + size) (len - size) (i32 (ret + size))
  end.
Definition devfs_getdents64 (file buf len : Z) : M S Z :=
  '(a, x) ← node_of file;
  if negb (df_type x =? FT_DIR) then mret (-1)
  else
    acquire devfs_list_lk;;
    D ← get_dfs;
    ret ← dents_loop (dfs_list D) buf len 0;
    release devfs_list_lk;;
    mret ret.

(** What [struct stat] the callers see. *)
Definition short_stat (k : kstat) : stat :=
  Stat (ks_ino k) (ks_mode k) (ks_size k) (ks_atime k).1 (ks_mtime k).1 (ks_ctime k).1.

Definition devfs_file_fops : file_operations S :=
  FileOps S (Some devfs_llseek) (Some devfs_read) (Some devfs_write) (Some devfs_openat)
    (Some devfs_close) (Some devfs_getdents64) None.
Definition devfs_filesystem_ops : fs_operations S :=
  FsOps S None None (Some devfs_fs_ifget) None None None None None
    (Some (λ path, '(ret, k) ← devfs_getattr path; mret (ret, short_stat (default (Kstat 0 0 0 0 0 0 0 0 0 0 (0, 0) (0, 0) (0, 0)) k)))).
End devfs.

(** ** Paths of device nodes *)

Lemma path_chr_app (p q : str) i : chr (p ++ q) (zlen p + Z.of_nat i) = default 0 (q !! i).
Proof.
  unfold chr, znth, zlen. rewrite decide_True by lia.
  rewrite lookup_app_r by lia. do 2 f_equal. lia.
Qed.

Lemma path_chr_end (p q : str) : chr (p ++ q) (zlen p) = default 0 (q !! 0%nat).
Proof. rewrite <- (path_chr_app p q 0). f_equal. lia. Qed.

(** The first loop stops behind the slashes. *)
Lemma name_pos_loop_run (p rest : str) k : ∀ fuel,
  (k ≤ fuel)%nat → (∀ c r, rest = c :: r → c ≠ SLASH) →
  name_pos_loop fuel (p ++ replicate k SLASH ++ rest) (zlen (p ++ replicate k SLASH ++ rest)) (zlen p) =
    zlen p + Z.of_nat k.
Proof.
  revert p. induction k as [|k IH]; intros p fuel Hf Hr.
  - cbn [replicate app]. destruct fuel as [|fuel]; cbn [name_pos_loop]; [lia|].
    rewrite path_chr_end.
    destruct rest as [|c r].
    + rewrite app_nil_r, Z.ltb_irrefl. cbn. lia.
    + cbn. rewrite (proj2 (Z.eqb_neq c SLASH)) by (by eapply Hr). rewrite andb_false_r. lia.
  - destruct fuel as [|fuel]; [lia|]. cbn [name_pos_loop].
    rewrite path_chr_end.
    cbn [replicate app lookup list_lookup default]. rewrite Z.eqb_refl, andb_true_r.
    rewrite (proj2 (Z.ltb_lt _ _)).
    2: { rewrite zlen_app, zlen_cons. pose proof (zlen_nonneg (replicate k SLASH ++ rest)). lia. }
    change (SLASH :: replicate k SLASH ++ rest) with ([SLASH] ++ replicate k SLASH ++ rest).
    rewrite app_assoc. replace (zlen p + 1) with (zlen (p ++ [SLASH])) by (by rewrite zlen_app).
    rewrite IH by (lia || done). rewrite zlen_app. change (zlen [SLASH]) with 1. lia.
Qed.

Lemma slash_from_spec path pos :
  slash_from path pos = bool_decide (SLASH ∈ drop (Z.to_nat pos) path).
Proof.
  unfold slash_from. apply eq_true_iff_eq. rewrite bool_decide_eq_true, existsb_exists.
  split.
  - intros (c & Hc & Ec%Z.eqb_eq). subst c. by apply list_elem_of_In.
  - intros Hin. exists SLASH. split; [by apply list_elem_of_In|done].
Qed.

(** Any path that is [/dev] and more: slashes, then what does not start with one. *)
Lemma split_slashes (q : str) : ∃ k rest, q = replicate k SLASH ++ rest ∧ (∀ c r, rest = c :: r → c ≠ SLASH).
Proof.
  induction q as [|c q (k & rest & -> & Hr)]; [by exists 0%nat, []|].
  destruct (decide (c = SLASH)) as [->|Hc].
  - by exists (S k), rest.
  - exists 0%nat, (c :: replicate k SLASH ++ rest). split; [done|]. by intros ? ? [= <- <-].
Qed.

Lemma get_name_pos_run k rest :
  (∀ c r, rest = c :: r → c ≠ SLASH) →
  get_name_pos_from_path (DEV ++ replicate k SLASH ++ rest) =
    match k, rest with
    | O, _ :: _ => -1
    | _, [] => 0
    | _, _ => if decide (SLASH ∈ rest) then -1 else 4 + Z.of_nat k
    end.
Proof.
  intros Hr. unfold get_name_pos_from_path.
  assert (E4 : same_prefix 4 (DEV ++ replicate k SLASH ++ rest) DEV = true) by done.
  rewrite E4. cbn [negb]. set (path := DEV ++ _).
  assert (Hlen : zlen path = 4 + Z.of_nat k + zlen rest).
  { unfold path. rewrite !zlen_app. unfold zlen at 2. rewrite length_replicate.
    change (zlen DEV) with 4. lia. }
  pose proof (zlen_nonneg rest) as H0. rewrite Hlen.
  assert (Ec : chr path 4 = default 0 ((replicate k SLASH ++ rest) !! 0%nat)).
  { apply (path_chr_end DEV). }
  assert (Ep : name_pos_loop (length path) path (zlen path) 4 = 4 + Z.of_nat k).
  { change 4 with (zlen DEV). apply name_pos_loop_run; [|done].
    unfold path. rewrite !length_app, length_replicate. lia. }
  rewrite <- Hlen, Ep, Hlen.
  assert (Ed : drop (Z.to_nat (4 + Z.of_nat k)) path = rest).
  { unfold path. rewrite app_assoc. apply drop_app_length'. rewrite length_app, length_replicate. cbn. lia. }
  rewrite slash_from_spec, Ed. destruct k as [|k].
  - destruct rest as [|c r]; [done|]. rewrite zlen_cons in *. pose proof (zlen_nonneg r).
    rewrite (proj2 (Z.eqb_neq _ 4)) by lia. rewrite Ec. cbn.
    by rewrite (proj2 (Z.eqb_neq c SLASH)) by (by eapply Hr).
  - rewrite (proj2 (Z.eqb_neq _ 4)) by lia. rewrite Ec. cbn [replicate app lookup list_lookup default].
    rewrite Z.eqb_refl. cbn [negb]. destruct rest as [|c r].
    + rewrite bool_decide_false by (intros ?%elem_of_nil; done).
      change (zlen []) with 0. by rewrite Z.add_0_r, Z.eqb_refl.
    + rewrite zlen_cons. pose proof (zlen_nonneg r). case_bool_decide as Hin.
      * by rewrite decide_True.
      * rewrite decide_False by done. by rewrite (proj2 (Z.eqb_neq _ _)) by lia.
Qed.

(** [get_name_pos_from_path] accepts exactly [/dev] with any number of slashes after it, for
    the directory, and [/dev], at least one slash and a name without slashes, for which it
    gives where the name begins; everything else is refused. *)
Lemma get_name_pos_all :
  (∀ k, get_name_pos_from_path (DEV ++ replicate k SLASH) = 0) ∧
  (∀ k name, name ≠ [] → SLASH ∉ name →
    get_name_pos_from_path (DEV ++ replicate (S k) SLASH ++ name) = 5 + Z.of_nat k) ∧
  (∀ path, get_name_pos_from_path path = -1 ∨
    (∃ k, path = DEV ++ replicate k SLASH) ∨
    (∃ k name, name ≠ [] ∧ ¬ (SLASH ∈ name) ∧ path = DEV ++ replicate (S k) SLASH ++ name)).
Proof.
  split_and!.
  - intros k. rewrite <- (app_nil_r (replicate k SLASH)), get_name_pos_run by done. by destruct k.
  - intros k name Hne Hs. rewrite get_name_pos_run.
    + destruct name; [done|]. rewrite decide_False by done. lia.
    + intros c r -> ->. apply Hs. left.
  - intros path. destruct (decide (take 4 path = DEV)) as [E|Hne].
    + rewrite <- (take_drop 4 path), E. destruct (split_slashes (drop 4 path)) as (k & rest & Eq & Hr).
      rewrite Eq, get_name_pos_run by done. destruct rest as [|c r].
      * right. left. exists k. by rewrite app_nil_r.
      * destruct k as [|k]; [by left|]. case_decide as Hin; [by left|]. right. right.
        by exists k, (c :: r).
    + left. unfold get_name_pos_from_path, same_prefix. change (take 4 DEV) with DEV.
      by rewrite bool_decide_false.
Qed.

(** ** Finding nodes *)

Section lookup.
Context {S : Type} `{DevfsState S}.

(** The first node of the list whose name agrees with [name] on 64 characters; NULL is 0. *)
Fixpoint first_named (nodes : gmap Z devfs_device) (l : list Z) (name : str) : Z :=
  match l with
  | [] => 0
  | a :: l =>
      match nodes !! a with
      | Some x => if same_prefix DEV_NAME_MAX_LEN name (df_name x) then a else first_named nodes l name
      | None => 0
      end
  end.
Definition listed (s : S) : Prop :=
  ∀ a, a ∈ dfs_list (lget df_lens s) → is_Some (dfs_nodes (lget df_lens s) !! a).
Definition unlocked_at (s : S) : S := lset lock_lens (touched (lget lock_lens s)) s.

Lemma get_node_run a x s : dfs_nodes (lget df_lens s) !! a = Some x → get_node a s = Ret (x, s).
Proof. intros Hx. unfold get_node, get_dfs. erewrite mbind_Ret by reflexivity. by rewrite Hx. Qed.

Lemma find_node_run l name s :
  (∀ a, a ∈ l → is_Some (dfs_nodes (lget df_lens s) !! a)) →
  find_node l name s = Ret (first_named (dfs_nodes (lget df_lens s)) l name, s).
Proof.
  induction l as [|a l IH]; intros Hl; [done|]. cbn [find_node first_named].
  destruct (Hl a ltac:(left)) as [x Hx]. mstep (get_node_run a x s Hx). rewrite Hx.
  destruct (same_prefix _ _ _); [done|]. apply IH. intros b Hb. apply Hl. by right.
Qed.

Lemma devfs_get_by_name_run name s :
  lock_free devfs_list_lk s → listed s →
  devfs_get_by_name name s =
    Ret (first_named (dfs_nodes (lget df_lens s)) (dfs_list (lget df_lens s)) name, unlocked_at s).
Proof.
  intros Hlk Hl. unfold devfs_get_by_name. mstep (acquire_ok _ _ Hlk).
  set (s1 := lset lock_lens _ s).
  assert (E1 : lget df_lens s1 = lget df_lens s) by apply (indep_r lock_lens df_lens).
  erewrite mbind_Ret by reflexivity.
  erewrite mbind_Ret by (apply find_node_run; by rewrite E1).
  erewrite mbind_Ret by (apply (release_ok _ s); [exact Hlk|apply lens_get_set]).
  rewrite E1. unfold unlocked_at, s1. by rewrite lens_set_set.
Qed.

(** [devfs_get_by_path] of [/dev], slashes and a name gives the first node of the list with
    that name, of which 64 characters count, and NULL without one; of every other path, the
    directory's included, it gives NULL.  Nothing changes and the lock is given back. *)
Theorem devfs_get_by_path_spec s :
  lock_free devfs_list_lk s → listed s →
  (∀ k name, name ≠ [] → SLASH ∉ name →
    devfs_get_by_path (DEV ++ replicate (Datatypes.S k) SLASH ++ name) s =
      Ret (first_named (dfs_nodes (lget df_lens s)) (dfs_list (lget df_lens s)) name, unlocked_at s)) ∧
  (∀ path, devfs_get_by_path path s = Ret (0, s) ∨
    ∃ k name, name ≠ [] ∧ ¬ (SLASH ∈ name) ∧ path = DEV ++ replicate (Datatypes.S k) SLASH ++ name).
Proof.
  intros Hlk Hl. destruct get_name_pos_all as (H0 & H1 & H2). split.
  - intros k name Hne Hs. unfold devfs_get_by_path. rewrite H1 by done.
    rewrite (proj2 (Z.leb_gt _ _)) by lia. rewrite devfs_get_by_name_run by done. do 3 f_equal.
    rewrite app_assoc. apply drop_app_length'. rewrite length_app, length_replicate. cbn. lia.
  - intros path. destruct (H2 path) as [E|[[k ->]|Hex]]; [| |by right]; left; unfold devfs_get_by_path.
    + by rewrite E.
    + by rewrite H0.
Qed.
End lookup.
