(* ===== verification/DevFsSafe.v ===== *)
(** * Device nodes in use

    Theorems on [DevFs]: in every state that [devfs_init] and the operations on open device
    files reach, the union of a node is read at the type it was written, and nodes and files
    fit together; then a concrete system, a virtio disk and a serial port behind [/dev]. *)

From S2P Require Export DevFs.

(** ** Nodes are read at the type they were written *)

(** The tag of a node says what its union holds. *)
Definition tag_ok (x : devfs_device) : Prop :=
  match df_body x with
  | IsDisk _ => df_type x = FT_BLKDEV
  | IsTty _ => df_type x = FT_CHRDEV
  | Blank => df_type x = FT_DIR
  end.

Section typed.
Context {S : Type} `{DevfsState S}.

(** Every node is tagged; the listed ones are devices; an open file has a node, and a
    directory's node belongs to one file. *)
Record devfs_ok (D : devfs) (fs : gmap Z file) : Prop := DevfsOk {
  ok_null : dfs_nodes D !! 0 = None;
  ok_tags : ∀ a x, dfs_nodes D !! a = Some x → tag_ok x;
  ok_list : ∀ a, a ∈ dfs_list D → ∃ x, dfs_nodes D !! a = Some x ∧ df_type x ≠ FT_DIR;
  ok_files : ∀ f x, fs !! f = Some x → f_private x ≠ 0 → is_Some (dfs_nodes D !! f_private x);
  ok_dirs : ∀ f g x y n, fs !! f = Some x → fs !! g = Some y → f_private x = f_private y →
    dfs_nodes D !! f_private x = Some n → df_type n = FT_DIR → f = g
}.
Definition ok (s : S) : Prop := devfs_ok (lget df_lens s) (lget df_files s).

Definition untouched (s s' : S) : Prop :=
  lget df_lens s' = lget df_lens s ∧ lget df_files s' = lget df_files s.
Definition keeps {A} (m : M S A) : Prop := ∀ s a s', m s = Ret (a, s') → untouched s s'.
Definition preserves {A} (m : M S A) : Prop := ∀ s a s', ok s → m s = Ret (a, s') → ok s'.

Lemma keep_preserves {A} (m : M S A) : keeps m → preserves m.
Proof. intros Hm s a s' Hok E. destruct (Hm _ _ _ E) as [E1 E2]. unfold ok. by rewrite E1, E2. Qed.

Lemma keep_ret {A} (a : A) : keeps (mret a).
Proof. intros s ? s' [= <- <-]. done. Qed.
Lemma keep_bind {A B} (m : M S A) (k : A → M S B) : keeps m → (∀ a, keeps (k a)) → keeps (m ≫= k).
Proof.
  intros Hm Hk s b s' (a & s1 & E1 & E2)%mbind_inv.
  destruct (Hm _ _ _ E1) as [F1 F2], (Hk _ _ _ _ E2) as [G1 G2]. split; congruence.
Qed.
Lemma keep_if {A} (b : bool) (m1 m2 : M S A) : keeps m1 → keeps m2 → keeps (if b then m1 else m2).
Proof. by destruct b. Qed.
Lemma keep_gets {A} (f : S → A) : keeps (gets f).
Proof. intros s a s' [= <- <-]. done. Qed.
Lemma keep_lift {A} (o : option A) : keeps (mlift o).
Proof. intros s a s'. destruct o; [|done]. by intros [= <- <-]. Qed.
Lemma keep_assert b : keeps (massert b).
Proof. destruct b; [apply keep_ret|done]. Qed.
Lemma keep_zoom_lock {A} (m : M lockenv A) : keeps (zoom lock_lens m).
Proof.
  intros s a s' E. unfold zoom in E. destruct (m _) as [[b t]| | |]; simplify_eq.
  split; [apply (indep_r lock_lens df_lens)|apply (indep_r lock_lens df_files)].
Qed.
Lemma keep_on_mem {A} (m : M bytes A) : keeps (on_mem m).
Proof.
  intros s a s' E. unfold on_mem, zoom in E. destruct (m _) as [[b t]| | |]; simplify_eq.
  split; [apply (indep_r mem_lens df_lens)|apply (indep_r mem_lens df_files)].
Qed.
Lemma keep_upd_inode i g : keeps (upd_inode i g).
Proof.
  unfold upd_inode. apply keep_bind; [apply keep_gets|]. intros m.
  apply keep_bind; [apply keep_lift|]. intros x s a s' [= <- <-].
  split; [apply (indep_r df_inodes df_lens)|apply (indep_r df_inodes df_files)].
Qed.
Lemma keep_get_node a : keeps (get_node a).
Proof. apply keep_bind; [apply keep_gets|intros; apply keep_lift]. Qed.
Lemma keep_get_file f : keeps (get_file f).
Proof. apply keep_bind; [apply keep_gets|intros; apply keep_lift]. Qed.
Lemma keep_get_dev d : keeps (get_dev d).
Proof. apply keep_bind; [apply keep_gets|intros; apply keep_lift]. Qed.

Lemma keep_find_node l name : keeps (find_node l name).
Proof.
  induction l as [|a l IH]; cbn; [apply keep_ret|].
  apply keep_bind; [apply keep_get_node|]. intros x. apply keep_if; [apply keep_ret|done].
Qed.
Lemma keep_get_by_name name : keeps (devfs_get_by_name name).
Proof.
  apply keep_bind; [apply keep_zoom_lock|]. intros _. apply keep_bind; [apply keep_gets|]. intros D.
  apply keep_bind; [apply keep_find_node|]. intros a.
  apply keep_bind; [apply keep_zoom_lock|]. intros _. apply keep_ret.
Qed.

(** *** Drivers that know nothing of device nodes and open files *)

Record quiet (drv : BlkDriver S) : Prop := {
  q_locks : ∀ e s, untouched s (lset (lock_lens (HasLocks := blk_locks)) e s);
  q_mem : ∀ m s, untouched s (lset (mem_lens (HasMem := blk_mem)) m s);
  q_list : ∀ l s, untouched s (lset rq_list l s);
  q_put : ∀ r x s, untouched s (put_req r x s);
  q_alloc : keeps (op_alloc dev_ops);
  q_free : ∀ r, keeps (op_free dev_ops r);
  q_submit : ∀ r, keeps (op_submit dev_ops r);
  q_sleep : ∀ r, keeps (req_sleep r)
}.

Lemma keep_zoom {T A} (l : lens S T) (m : M T A) :
  (∀ t s, untouched s (lset l t s)) → keeps (zoom l m).
Proof. intros Hl s a s' E. unfold zoom in E. destruct (m _) as [[b t]| | |]; simplify_eq. apply Hl. Qed.
Lemma keep_modify (f : S → S) : (∀ s, untouched s (f s)) → keeps (modify f).
Proof. intros Hf s a s' [= <- <-]. apply Hf. Qed.
Lemma keep_try {A} (f : S → option A) : keeps (mtry f).
Proof. intros s a s'. unfold mtry. destruct (f s); [|done]. by intros [= <- <-]. Qed.

Create HintDb keeps.
#[local] Hint Resolve keep_ret keep_bind keep_if keep_gets keep_lift keep_assert keep_try
  keep_modify keep_zoom : keeps.

Section quiet.
Context (drv : BlkDriver S) (Q : quiet drv).

Lemma keep_upd_req r f : keeps (upd_req r f).
Proof. unfold upd_req, load_req. destruct Q. eauto 10 with keeps. Qed.
Lemma keep_blkreq_alloc sec buf n w : keeps (blkreq_alloc (H := drv) sec buf n w).
Proof. unfold blkreq_alloc. pose proof keep_upd_req. destruct Q. eauto 12 with keeps. Qed.
Lemma keep_submit_req r : keeps (blkdev_submit_req (H := drv) r).
Proof. unfold blkdev_submit_req, acquire, release. destruct Q. eauto 12 with keeps. Qed.
Lemma keep_wait_loop l : ∀ r, keeps (wait_loop (H := drv) l r).
Proof.
  destruct Q. induction l as [|a l IH]; intros r; cbn [wait_loop]; unfold load_req, blkreq_sleep, mwhen;
    eauto 15 with keeps.
Qed.
Lemma keep_wait_all : keeps (blkdev_wait_all (H := drv)).
Proof. unfold blkdev_wait_all, acquire, release. pose proof keep_wait_loop. destruct Q. eauto 12 with keeps. Qed.
Lemma keep_free_loop l : keeps (free_loop (H := drv) l).
Proof.
  destruct Q. induction l as [|a l IH]; cbn [free_loop]; unfold load_req, rq_remove; eauto 15 with keeps.
Qed.
Lemma keep_free_all : keeps (blkdev_free_all (H := drv)).
Proof. unfold blkdev_free_all, acquire, release. pose proof keep_free_loop. destruct Q. eauto 12 with keeps. Qed.
Lemma keep_disk_mem {A} (m : M bytes A) : keeps (on_mem (H := blk_mem) m).
Proof. unfold on_mem. destruct Q. eauto with keeps. Qed.

#[local] Hint Resolve keep_blkreq_alloc keep_submit_req keep_wait_all keep_free_all keep_disk_mem : keeps.

Lemma keep_disk_read_loop n : ∀ d sz id i p, keeps (Disk.read_loop (H := drv) n d sz id i p).
Proof. induction n as [|n IH]; intros; cbn [Disk.read_loop]; eauto 12 with keeps. Qed.
Lemma keep_block_read d buf n o : keeps (block_read (H := drv) d buf n o).
Proof.
  unfold block_read. apply keep_if; [apply keep_ret|].
  apply keep_bind; [apply keep_disk_read_loop|]. intros [ret p]. cbv zeta. eauto 12 with keeps.
Qed.
Lemma keep_disk_write_loop n : ∀ d sz id i p, keeps (Disk.write_loop (H := drv) n d sz id i p).
Proof. induction n as [|n IH]; intros; cbn [Disk.write_loop]; eauto 12 with keeps. Qed.
Lemma keep_block_write d buf n o : keeps (block_write (H := drv) d buf n o).
Proof. unfold block_write. cbv zeta. pose proof keep_disk_write_loop. eauto 14 with keeps. Qed.
End quiet.

(** *** Changing the nodes and the files *)

(** A node of a file or of the list may change its contents within its type. *)
Lemma ok_put_node D fs a x y :
  devfs_ok D fs → dfs_nodes D !! a = Some x → df_type y = df_type x → tag_ok y →
  devfs_ok (Devfs (dfs_list D) (<[a := y]> (dfs_nodes D)) (cur_ino D)) fs.
Proof.
  intros [H0 Ht Hl Hf Hd] Hx Hy Hty. split; cbn.
  - rewrite lookup_insert_ne; congruence.
  - intros b z [[-> <-]|[_ Hz]]%lookup_insert_Some; [done|by eapply Ht].
  - intros b Hb. destruct (Hl b Hb) as (z & Hz & Hnd). destruct (decide (b = a)) as [->|Hne].
    + exists y. rewrite lookup_insert_eq. split; [done|]. congruence.
    + exists z. by rewrite lookup_insert_ne.
  - intros f z Hz Hp. destruct (decide (a = f_private z)) as [->|Hne].
    + rewrite lookup_insert_eq. by eexists.
    + rewrite lookup_insert_ne by done. by eapply Hf.
  - intros f g z w n Hz Hw E Hn Hdir. apply lookup_insert_Some in Hn as [[Ea <-]|[_ Hn]].
    + eapply (Hd f g z w x); try done; [by rewrite <- Ea|congruence].
    + by eapply Hd.
Qed.

(** A new node: its address is not in use. *)
Lemma ok_new_node D fs a y :
  devfs_ok D fs → a ≠ 0 → dfs_nodes D !! a = None → tag_ok y →
  devfs_ok (Devfs (dfs_list D) (<[a := y]> (dfs_nodes D)) (cur_ino D)) fs.
Proof.
  intros [H0 Ht Hl Hf Hd] Ha0 Ha Hty. split; cbn.
  - by rewrite lookup_insert_ne.
  - intros b z [[-> <-]|[_ Hz]]%lookup_insert_Some; [done|by eapply Ht].
  - intros b Hb. destruct (Hl b Hb) as (z & Hz & Hnd). exists z.
    rewrite lookup_insert_ne by congruence. done.
  - intros f z Hz Hp. destruct (Hf f z Hz Hp) as [n Hn]. exists n. rewrite lookup_insert_ne; congruence.
  - intros f g z w n Hz Hw E Hn Hdir. apply lookup_insert_Some in Hn as [[Ea <-]|[_ Hn]]; [|by eapply Hd].
    exfalso. destruct (Hf f z Hz) as [n' Hn']; congruence.
Qed.

(** A device joins the list. *)
Lemma ok_add_list D fs a x i :
  devfs_ok D fs → dfs_nodes D !! a = Some x → df_type x ≠ FT_DIR →
  devfs_ok (Devfs (a :: dfs_list D) (dfs_nodes D) i) fs.
Proof.
  intros [H0 Ht Hl Hf Hd] Hx Hn. split; cbn; try done.
  intros b [->|Hb]%elem_of_cons; [by exists x|by apply Hl].
Qed.

(** A file changes nothing but its position, or gets a node of its own. *)
Lemma ok_put_file D fs f x y :
  devfs_ok D fs → fs !! f = Some x → f_private y = f_private x → devfs_ok D (<[f := y]> fs).
Proof.
  intros [H0 Ht Hl Hf Hd] Hx E. split; try done.
  - intros g z [[<- <-]|[_ Hz]]%lookup_insert_Some Hp; [|by eapply Hf].
    rewrite E in *. by apply (Hf f x).
  - assert (Hold : ∀ g z, <[f := y]> fs !! g = Some z → ∃ z', fs !! g = Some z' ∧ f_private z' = f_private z).
    { intros g z [[<- <-]|[_ Hz]]%lookup_insert_Some; eauto. }
    intros g h z w n Hz Hw Ep Hn Hdir.
    destruct (Hold g z Hz) as (z' & Hz' & Ez), (Hold h w Hw) as (w' & Hw' & Ew).
    eapply (Hd g h z' w' n); try done; congruence.
Qed.

Lemma ok_set_private D fs f x y :
  devfs_ok D fs → fs !! f = Some x →
  (f_private y = 0 ∨ ∃ n, dfs_nodes D !! f_private y = Some n ∧
     (df_type n = FT_DIR → ∀ g z, fs !! g = Some z → f_private z ≠ f_private y)) →
  devfs_ok D (<[f := y]> fs).
Proof.
  intros [H0 Ht Hl Hf Hd] Hx Hy. split; try done.
  - intros g z [[<- <-]|[_ Hz]]%lookup_insert_Some Hp; [|by eapply Hf].
    destruct Hy as [?|(n & Hn & _)]; [done|by eexists].
  - intros g h z w n Hz Hw Ep Hn Hdir.
    apply lookup_insert_Some in Hz as [[<- <-]|[Hg Hz]], Hw as [[<- <-]|[Hh Hw]]; [done| | |by eapply Hd].
    + exfalso. destruct Hy as [E0|(n' & Hn' & Hno)]; [rewrite E0, H0 in Hn; done|].
      assert (n' = n) as -> by congruence. by eapply (Hno Hdir h w).
    + exfalso. destruct Hy as [E0|(n' & Hn' & Hno)]; [rewrite Ep, E0, H0 in Hn; done|].
      assert (n' = n) as -> by congruence. by eapply (Hno Hdir g z).
Qed.

(** A directory's node goes with its file. *)
Lemma ok_close D fs f x y n :
  devfs_ok D fs → fs !! f = Some x → f_private x ≠ 0 → dfs_nodes D !! f_private x = Some n →
  df_type n = FT_DIR → f_private y = 0 →
  devfs_ok (Devfs (dfs_list D) (delete (f_private x) (dfs_nodes D)) (cur_ino D)) (<[f := y]> fs).
Proof.
  intros [H0 Ht Hl Hf Hd] Hx Hp Hn Hdir Hy. split; cbn.
  - by rewrite lookup_delete_ne.
  - intros a z [_ Hz]%lookup_delete_Some. by eapply Ht.
  - intros a Ha. destruct (Hl a Ha) as (z & Hz & Hnd). exists z. rewrite lookup_delete_ne; [done|].
    intros <-. congruence.
  - intros g z [[<- <-]|[Hg Hz]]%lookup_insert_Some Hq; [done|]. destruct (Hf g z Hz Hq) as [m Hm].
    exists m. rewrite lookup_delete_ne; [done|]. intros E. apply Hg. eapply (Hd f g x z n); done.
  - intros g h z w m Hz Hw E Hm Hmd. apply lookup_delete_Some in Hm as [Hne Hm].
    apply lookup_insert_Some in Hz as [[<- <-]|[Hg Hz]], Hw as [[<- <-]|[Hh Hw]]; [done| | |by eapply Hd].
    + rewrite Hy, H0 in Hm. done.
    + rewrite E, Hy, H0 in Hm. done.
Qed.

(** *** What the steps of the operations give *)

Lemma get_node_inv a s x s' :
  get_node a s = Ret (x, s') → s' = s ∧ dfs_nodes (lget df_lens s) !! a = Some x.
Proof.
  unfold get_node, get_dfs, mlift. munfold. destruct (dfs_nodes _ !! a); [|done]. by intros [= <- <-].
Qed.
Lemma get_file_inv f s x s' : get_file f s = Ret (x, s') → s' = s ∧ lget df_files s !! f = Some x.
Proof.
  unfold get_file, mlift. munfold. destruct (lget df_files s !! f); [|done]. by intros [= <- <-].
Qed.
Lemma node_of_inv f s a x s' :
  node_of f s = Ret ((a, x), s') →
  s' = s ∧ a ≠ 0 ∧ dfs_nodes (lget df_lens s) !! a = Some x ∧
  ∃ y, lget df_files s !! f = Some y ∧ f_private y = a.
Proof.
  intros (y & s1 & [-> Hy]%get_file_inv & E)%mbind_inv.
  apply mbind_inv in E as ([] & s2 & E1 & E).
  destruct (ctrue (f_private y)) eqn:Ec; [|done]. injection E1 as <-.
  apply mbind_inv in E as (n & s3 & [-> Hn]%get_node_inv & [= <- <- <-]).
  split_and!; [done| |done|by exists y]. unfold ctrue in Ec. by destruct (Z.eqb_spec (f_private y) 0).
Qed.

Lemma put_node_parts a x s :
  ∃ s', put_node a x s = Ret (tt, s') ∧
    lget df_lens s' = Devfs (dfs_list (lget df_lens s)) (<[a := x]> (dfs_nodes (lget df_lens s))) (cur_ino (lget df_lens s)) ∧
    lget df_files s' = lget df_files s.
Proof.
  eexists. split; [reflexivity|]. rewrite lens_get_set. split; [done|apply (indep_l df_files df_lens)].
Qed.
Lemma put_file_parts f x s :
  ∃ s', put_file f x s = Ret (tt, s') ∧ lget df_lens s' = lget df_lens s ∧
    lget df_files s' = <[f := x]> (lget df_files s).
Proof.
  eexists. split; [reflexivity|]. rewrite lens_get_set. split; [apply (indep_r df_files df_lens)|done].
Qed.

Lemma set_fpos_preserves f v : preserves (set_fpos f v).
Proof.
  intros s [] s' Hok (x & s1 & [-> Hx]%get_file_inv & E)%mbind_inv.
  destruct (put_file_parts f (File (f_flags x) (f_op x) (f_inode x) (f_path x) v (f_private x) (f_ref x)) s)
    as (s2 & E2 & D2 & F2). rewrite E2 in E. injection E as <-. unfold ok. rewrite D2, F2.
  by apply (ok_put_file _ _ _ x).
Qed.
Lemma set_private_inv f v s s' :
  set_private f v s = Ret (tt, s') →
  ∃ x y, lget df_files s !! f = Some x ∧ f_private y = v ∧ lget df_lens s' = lget df_lens s ∧
    lget df_files s' = <[f := y]> (lget df_files s).
Proof.
  intros (x & s1 & [-> Hx]%get_file_inv & E)%mbind_inv.
  destruct (put_file_parts f (File (f_flags x) (f_op x) (f_inode x) (f_path x) (fpos x) v (f_ref x)) s)
    as (s2 & E2 & D2 & F2). rewrite E2 in E. injection E as <-.
  exists x. eexists. split; [exact Hx|]. split; [|split; [exact D2|exact F2]]. done.
Qed.

(** *** Every operation *)

(** Drivers and the allocator know nothing of device nodes and open files. *)
Context (Hputc : ∀ a ops d c, chr_ops a = Some ops → keeps (op_putchar ops d c)).
Context (Hgetc : ∀ a ops d, chr_ops a = Some ops → keeps (op_getchar ops d)).
Context (Hblk : ∀ b drv, blk_at b = Some drv → quiet drv).
Context (Hkalloc : ∀ n s a s', dev_kalloc n s = Ret (a, s') →
  untouched s s' ∧ dfs_nodes (lget df_lens s) !! a = None).
Context (Hnull : stdin_node ≠ 0 ∧ stdout_node ≠ 0 ∧ stderr_node ≠ 0).

Lemma keep_kalloc n : keeps (dev_kalloc n).
Proof. intros s a s' E. by destruct (Hkalloc _ _ _ _ E). Qed.

Lemma keep_chr_put d c : keeps (chr_put d c).
Proof.
  intros s [] s' (ops & s1 & E1 & E2)%mbind_inv. apply mbind_inv in E1 as (x & s2 & E1 & E3).
  destruct (chr_ops (dv_ops x)) as [o|] eqn:Eo; [|done]. injection E3 as -> ->.
  destruct (keep_get_dev _ _ _ _ E1) as [F1 F2], (Hputc _ _ _ _ Eo _ _ _ E2) as [G1 G2].
  split; congruence.
Qed.
Lemma keep_chr_get d : keeps (chr_get d).
Proof.
  intros s c s' (ops & s1 & E1 & E2)%mbind_inv. apply mbind_inv in E1 as (x & s2 & E1 & E3).
  destruct (chr_ops (dv_ops x)) as [o|] eqn:Eo; [|done]. injection E3 as -> ->.
  destruct (keep_get_dev _ _ _ _ E1) as [F1 F2], (Hgetc _ _ _ Eo _ _ _ E2) as [G1 G2].
  split; congruence.
Qed.

#[local] Hint Resolve keep_on_mem keep_zoom_lock keep_get_node keep_get_file keep_get_dev keep_upd_inode keep_get_by_name
  keep_kalloc keep_chr_put keep_chr_get : keeps.

Lemma keep_flush n : ∀ t pos, keeps (flush_loop n t pos).
Proof. induction n as [|n IH]; intros; cbn; eauto 10 with keeps. Qed.
Lemma keep_tty_flush t : keeps (tty_flush t).
Proof. unfold tty_flush. pose proof keep_flush. eauto 10 with keeps. Qed.
Lemma keep_tty_read cv t b n o : keeps (tty_read cv t b n o).
Proof.
  unfold tty_read. apply keep_bind; [|eauto with keeps]. generalize 0. generalize (Z.to_nat n).
  intros k. induction k as [|k IH]; intros r; cbn; eauto 10 with keeps.
Qed.
Lemma keep_write_char t c : keeps (write_char t c).
Proof. unfold write_char. pose proof keep_tty_flush. cbv zeta. eauto 10 with keeps. Qed.
Lemma keep_tty_write t b n o : keeps (tty_write t b n o).
Proof.
  unfold tty_write. apply keep_bind; [|eauto with keeps]. generalize 0. generalize (Z.to_nat n).
  intros k. revert t. pose proof keep_write_char.
  induction k as [|k IH]; intros t r; cbn; eauto 10 with keeps.
Qed.

Lemma put_node_preserves a x y s s' :
  ok s → dfs_nodes (lget df_lens s) !! a = Some x → df_type y = df_type x → tag_ok y →
  put_node a y s = Ret (tt, s') → ok s'.
Proof.
  intros Hok Hx Hy Ht E. destruct (put_node_parts a y s) as (s2 & E2 & D2 & F2).
  rewrite E2 in E. injection E as <-. unfold ok. rewrite D2, F2. by eapply ok_put_node.
Qed.

Lemma tag_disk x d d' : tag_ok x → df_body x = IsDisk d → tag_ok (set_body (IsDisk d') x).
Proof. unfold tag_ok. cbn. intros Ht E. by rewrite E in Ht. Qed.
Lemma tag_tty x t t' : tag_ok x → df_body x = IsTty t → tag_ok (set_body (IsTty t') x).
Proof. unfold tag_ok. cbn. intros Ht E. by rewrite E in Ht. Qed.

Lemma as_disk_inv x (s : S) d s' : as_disk x s = Ret (d, s') → s' = s ∧ df_body x = IsDisk d.
Proof. unfold as_disk. destruct (df_body x); try done. by intros [= <- <-]. Qed.
Lemma as_tty_inv x (s : S) t s' : as_tty x s = Ret (t, s') → s' = s ∧ df_body x = IsTty t.
Proof. unfold as_tty. destruct (df_body x); try done. by intros [= <- <-]. Qed.
Lemma mlift_inv {A} (o : option A) (s : S) a s' : mlift o s = Ret (a, s') → s' = s ∧ o = Some a.
Proof. unfold mlift. destruct o; [|done]. by intros [= <- <-]. Qed.

Lemma preserves_then {A B} (m : M S A) (k : A → M S B) s b s' :
  ok s → (m ≫= k) s = Ret (b, s') → preserves m → (∀ a, preserves (k a)) → ok s'.
Proof. intros Hok (a & s1 & E1 & E2)%mbind_inv Hm Hk. eapply Hk; [|exact E2]. by eapply Hm. Qed.
Lemma preserves_ret {A} (a : A) : preserves (mret a).
Proof. apply keep_preserves, keep_ret. Qed.
Lemma preserves_bind {A B} (m : M S A) (k : A → M S B) :
  preserves m → (∀ a, preserves (k a)) → preserves (m ≫= k).
Proof. intros Hm Hk s b s' Hok E. by eapply preserves_then. Qed.
Lemma preserves_if {A} (b : bool) (m1 m2 : M S A) :
  preserves m1 → preserves m2 → preserves (if b then m1 else m2).
Proof. by destruct b. Qed.

Lemma node_tag s a x : ok s → dfs_nodes (lget df_lens s) !! a = Some x → tag_ok x.
Proof. intros [_ Ht _ _ _] Hx. by eapply Ht. Qed.

Lemma devfs_llseek_preserves f o w : preserves (devfs_llseek f o w).
Proof.
  intros s r s' Hok ([a x] & s1 & (-> & _ & Hx & _)%node_of_inv & E)%mbind_inv.
  pose proof (node_tag _ _ _ Hok Hx) as Ht.
  destruct (df_type x =? FT_DIR); [by injection E as <- <-|]. destruct (df_type x =? FT_BLKDEV).
  - apply mbind_inv in E as (d & s1 & [-> Hb]%as_disk_inv & E).
    apply mbind_inv in E as (drv & s1 & [-> _]%mlift_inv & E).
    destruct (block_llseek d o w) as [r1 d'].
    apply mbind_inv in E as ([] & s1 & E1 & [= <- <-]).
    eapply (put_node_preserves a x (set_body (IsDisk d') x)); [exact Hok|exact Hx|done|exact (tag_disk x d d' Ht Hb)|exact E1].
  - destruct (df_type x =? FT_CHRDEV); [|by injection E as <- <-].
    apply mbind_inv in E as (t & s1 & [-> _]%as_tty_inv & [= <- <-]). done.
Qed.

Lemma devfs_read_preserves f b n : preserves (devfs_read f b n).
Proof.
  intros s r s' Hok ([a x] & s1 & (-> & _ & Hx & _)%node_of_inv & E)%mbind_inv.
  apply mbind_inv in E as (y & s1 & [-> _]%get_file_inv & E).
  destruct (df_type x =? FT_DIR); [by injection E as <- <-|]. destruct (df_type x =? FT_BLKDEV).
  - apply mbind_inv in E as (d & s1 & [-> Hb]%as_disk_inv & E).
    apply mbind_inv in E as (drv & s1 & [-> Hd]%mlift_inv & E).
    eapply preserves_then; [exact Hok|exact E|by eapply keep_preserves, keep_block_read, Hblk|].
    intros [ret pos]. apply preserves_bind; [apply set_fpos_preserves|intros; apply preserves_ret].
  - destruct (df_type x =? FT_CHRDEV); [|by injection E as <- <-].
    apply mbind_inv in E as (t & s1 & [-> _]%as_tty_inv & E).
    eapply preserves_then; [exact Hok|exact E|apply keep_preserves, keep_tty_read|].
    intros [ret pos]. apply preserves_bind; [apply set_fpos_preserves|intros; apply preserves_ret].
Qed.

Lemma devfs_write_preserves f b n : preserves (devfs_write f b n).
Proof.
  intros s r s' Hok ([a x] & s1 & (-> & _ & Hx & _)%node_of_inv & E)%mbind_inv.
  pose proof (node_tag _ _ _ Hok Hx) as Ht.
  apply mbind_inv in E as (y & s1 & [-> _]%get_file_inv & E).
  destruct (df_type x =? FT_DIR); [by injection E as <- <-|]. destruct (df_type x =? FT_BLKDEV).
  - apply mbind_inv in E as (d & s1 & [-> Hb]%as_disk_inv & E).
    apply mbind_inv in E as (drv & s1 & [-> Hd]%mlift_inv & E).
    eapply preserves_then; [exact Hok|exact E|by eapply keep_preserves, keep_block_write, Hblk|].
    intros [ret pos]. apply preserves_bind; [apply set_fpos_preserves|intros; apply preserves_ret].
  - destruct (df_type x =? FT_CHRDEV); [|by injection E as <- <-].
    apply mbind_inv in E as (t & s1 & [-> Hb]%as_tty_inv & E).
    apply mbind_inv in E as ([[ret pos] t'] & s1 & E1 & E).
    destruct (keep_tty_write _ _ _ _ _ _ _ E1) as [D1 F1].
    assert (Hok1 : ok s1) by (unfold ok; by rewrite D1, F1).
    apply mbind_inv in E as ([] & s2 & E2 & E).
    assert (Hok2 : ok s2).
    { eapply (put_node_preserves a x (set_body (IsTty t') x)); [exact Hok1|rewrite D1; exact Hx|done|exact (tag_tty x t t' Ht Hb)|exact E2]. }
    eapply preserves_then; [exact Hok2|exact E|apply set_fpos_preserves|intros; apply preserves_ret].
Qed.

Lemma set_mode_keeps f m : keeps (set_mode f m).
Proof. unfold set_mode. eauto with keeps. Qed.

(** The node of a file just set: fresh, or a device. *)
Lemma set_private_ok f v s s' :
  ok s → (v = 0 ∨ ∃ n, dfs_nodes (lget df_lens s) !! v = Some n ∧
    (df_type n = FT_DIR → ∀ g z, lget df_files s !! g = Some z → f_private z ≠ v)) →
  set_private f v s = Ret (tt, s') → ok s'.
Proof.
  intros Hok Hv (x & y & Hx & <- & D & F)%set_private_inv. unfold ok. rewrite D, F.
  by eapply ok_set_private.
Qed.

Lemma open_device_preserves f v m n s r s' :
  ok s → dfs_nodes (lget df_lens s) !! v = Some n → df_type n ≠ FT_DIR →
  (set_mode f m;; set_private f v;; mret 0) s = Ret (r, s') → ok s'.
Proof.
  intros Hok Hn Hd ([] & s1 & E1 & E)%mbind_inv. destruct (set_mode_keeps _ _ _ _ _ E1) as [D1 F1].
  apply mbind_inv in E as ([] & s2 & E2 & [= <- <-]). eapply set_private_ok; [|  |exact E2].
  - unfold ok. by rewrite D1, F1.
  - right. exists n. by rewrite D1.
Qed.

Lemma devfs_openat_preserves f path flags mode : preserves (devfs_openat f path flags mode).
Proof.
  intros s r s' Hok E. unfold devfs_openat in E.
  destruct (_ || _); [by injection E as <- <-|].
  destruct (_ <? 0); [by injection E as <- <-|]. destruct (_ =? 0).
  - apply mbind_inv in E as (a & s1 & E1 & E). destruct (Hkalloc _ _ _ _ E1) as [[D1 F1] Hfresh].
    destruct (Z.eqb_spec a 0) as [|Ha]; [done|].
    apply mbind_inv in E as ([] & s2 & E2 & E).
    destruct (put_node_parts a (DevfsDevice FT_DIR Blank [] 0) s1) as (s2' & E2' & D2 & F2).
    rewrite E2' in E2. injection E2 as ->. rewrite D1 in D2. rewrite F1 in F2.
    apply mbind_inv in E as ([] & s3 & E3 & E). destruct (set_mode_keeps _ _ _ _ _ E3) as [D3 F3].
    apply mbind_inv in E as ([] & s4 & E4 & [= <- <-]). eapply set_private_ok; [| |exact E4].
    + unfold ok. rewrite D3, F3, D2, F2. by apply ok_new_node.
    + right. exists (DevfsDevice FT_DIR Blank [] 0). rewrite D3, D2. cbn. rewrite lookup_insert_eq.
      split; [done|]. intros _ g z Hz Ez. rewrite F3, F2 in Hz.
      destruct (ok_files _ _ Hok g z Hz) as [n Hn]; congruence.
  - apply mbind_inv in E as (a & s1 & E1 & E). destruct (keep_get_by_name _ _ _ _ E1) as [D1 F1].
    assert (Hok1 : ok s1) by (unfold ok; by rewrite D1, F1).
    destruct (a =? 0); [by injection E as <- <-|].
    apply mbind_inv in E as (x & s2 & [-> Hx]%get_node_inv & E).
    destruct (Z.eqb_spec (df_type x) FT_BLKDEV) as [Et|]; [|destruct (Z.eqb_spec (df_type x) FT_CHRDEV) as [Et|]].
    + by eapply open_device_preserves; [exact Hok1|exact Hx|rewrite Et|exact E].
    + by eapply open_device_preserves; [exact Hok1|exact Hx|rewrite Et|exact E].
    + by injection E as <- <-.
Qed.

Lemma devfs_close_preserves f : preserves (devfs_close f).
Proof.
  intros s r s' Hok ([a x] & s1 & (-> & Ha & Hx & y & Hy & Ey)%node_of_inv & E)%mbind_inv.
  apply mbind_inv in E as ([] & s1 & E1 & E). apply mbind_inv in E as ([] & s2 & E2 & [= <- <-]).
  destruct (Z.eqb_spec (df_type x) FT_DIR) as [Ed|].
  - apply mbind_inv in E1 as (x' & s1' & [-> _]%get_node_inv & E1).
    injection E1 as <-. apply set_private_inv in E2 as (z & w & Hz & Hw & D & F).
    rewrite (indep_l df_files df_lens) in Hz, F. rewrite lens_get_set in D.
    unfold ok. rewrite D, F. rewrite <- Ey in *. by eapply ok_close.
  - injection E1 as <-. eapply set_private_ok; [exact Hok|by left|exact E2].
Qed.

Lemma devfs_ifget_preserves m i f : preserves (devfs_fs_ifget m i f).
Proof.
  intros s r s' Hok (x & s1 & [-> Hx]%get_file_inv & E)%mbind_inv.
  apply mbind_inv in E as ([] & s1 & E1 & E).
  destruct (put_file_parts f (File (f_flags x) devfs_file_fops_addr i (f_path x) (fpos x) (f_private x) (f_ref x)) s)
    as (s2 & E2 & D2 & F2). rewrite E2 in E1. injection E1 as <-.
  assert (Hok2 : ok s2) by (unfold ok; rewrite D2, F2; by apply (ok_put_file _ _ _ x)).
  eapply preserves_then; [exact Hok2|exact E|apply keep_preserves, keep_upd_inode|].
  intros []. apply preserves_ret.
Qed.

Lemma devfs_getattr_keeps path : keeps (devfs_getattr path).
Proof.
  unfold devfs_getattr. cbv zeta. repeat apply keep_if; try apply keep_ret.
  apply keep_bind; [apply keep_get_by_name|]. intros a. apply keep_if; [apply keep_ret|].
  apply keep_bind; [apply keep_get_node|]. intros x.
  assert (keeps (as_disk x) ∧ keeps (as_tty x)) as [Hd Ht].
  { unfold as_disk, as_tty. destruct (df_body x); split; try done; apply keep_ret. }
  eauto 10 with keeps.
Qed.

Lemma keep_dents l : ∀ b n r, keeps (dents_loop l b n r).
Proof. induction l as [|a l IH]; intros; cbn [dents_loop]; cbv zeta; eauto 12 with keeps. Qed.
Lemma devfs_getdents_keeps f b n : keeps (devfs_getdents64 f b n).
Proof.
  unfold devfs_getdents64, node_of. pose proof keep_dents. apply keep_bind.
  - eauto 12 with keeps.
  - intros [a x]. unfold get_dfs. eauto 12 with keeps.
Qed.

(** *** Boot *)

Lemma devfs_add_preserves a x s r s' :
  ok s → dfs_nodes (lget df_lens s) !! a = Some x → df_type x ≠ FT_DIR →
  devfs_add_device a s = Ret (r, s') → ok s'.
Proof.
  intros Hok Hx Hnd E. apply mbind_inv in E as (x' & s1 & [-> Hx']%get_node_inv & E).
  assert (x' = x) as -> by congruence.
  apply mbind_inv in E as (D & s1 & [= <- <-] & E). apply mbind_inv in E as ([] & s1 & E1 & E).
  set (y := DevfsDevice _ _ _ _) in E1.
  destruct (put_node_parts a y s) as (s1' & E1' & D1 & F1). rewrite E1' in E1. injection E1 as ->.
  assert (Hok1 : ok s1).
  { unfold ok. rewrite D1, F1. apply (ok_put_node _ _ _ x); try done. exact (ok_tags _ _ Hok a x Hx'). }
  apply mbind_inv in E as ([] & s2 & [= <-] & E). set (s2 := lset df_lens _ s1) in E.
  apply mbind_inv in E as ([] & s3 & E3 & E). destruct (keep_zoom_lock _ _ _ _ E3) as [D3 F3].
  apply mbind_inv in E as ([] & s4 & [= <-] & E). destruct (keep_zoom_lock _ _ _ _ E) as [D4 F4].
  unfold ok. rewrite D4, F4, lens_get_set, (indep_l df_files df_lens), D3, F3.
  unfold s2. rewrite lens_get_set, (indep_l df_files df_lens). cbn.
  apply (ok_add_list _ _ a y).
  - exact Hok1.
  - rewrite D1. cbn. by rewrite lookup_insert_eq.
  - done.
Qed.

Lemma put_new_preserves a y s s' :
  ok s → a ≠ 0 → tag_ok y → df_type y ≠ FT_DIR →
  (∀ x, dfs_nodes (lget df_lens s) !! a = Some x → df_type x = df_type y) →
  put_node a y s = Ret (tt, s') → ok s' ∧ dfs_nodes (lget df_lens s') !! a = Some y.
Proof.
  intros Hok Ha Ht Hnd Hx E. destruct (put_node_parts a y s) as (s2 & E2 & D2 & F2).
  rewrite E2 in E. injection E as <-. unfold ok. rewrite D2, F2. cbn. rewrite lookup_insert_eq.
  split; [|done]. destruct (dfs_nodes (lget df_lens s) !! a) as [x|] eqn:Hxa.
  - eapply ok_put_node; [exact Hok|exact Hxa| |done]. by rewrite (Hx x).
  - by apply ok_new_node.
Qed.

Lemma keep_find_dev l test : (∀ d x, keeps (test d x)) → keeps (find_dev l test).
Proof. intros Ht. induction l as [|d l IH]; cbn [find_dev]; eauto 10 with keeps. Qed.
Lemma keep_default_dev : keeps chrdev_get_default_dev.
Proof.
  unfold chrdev_get_default_dev, device_get_default, search_dev.
  pose proof (keep_find_dev) as Hf. eauto 12 with keeps.
Qed.
Lemma keep_tty_init c n z : keeps (tty_init c n z).
Proof. unfold tty_init. eauto 10 with keeps. Qed.

Lemma add_terminal_preserves node c t s r s' :
  ok s → node ≠ 0 → dfs_nodes (lget df_lens s) !! node = None →
  add_terminal node c t s = Ret (r, s') →
  ok s' ∧ dom (dfs_nodes (lget df_lens s')) = {[node]} ∪ dom (dfs_nodes (lget df_lens s)).
Proof.
  intros Hok Hn Hfree ([] & s1 & E1 & E)%mbind_inv.
  set (y := DevfsDevice _ _ _ _) in E1.
  destruct (put_new_preserves node y s s1) as [Hok1 Hy]; try done.
  { by rewrite Hfree. }
  destruct (put_node_parts node y s) as (s1' & E1' & D1 & _). rewrite E1' in E1. injection E1 as ->.
  split; [by eapply devfs_add_preserves|].
  assert (Hdom : dom (dfs_nodes (lget df_lens s')) = dom (dfs_nodes (lget df_lens s1))).
  { clear Hok Hok1 E1'. unfold devfs_add_device in E.
    apply mbind_inv in E as (x' & s2 & [-> Hx']%get_node_inv & E).
    apply mbind_inv in E as (D & s2 & [= <- <-] & E). apply mbind_inv in E as ([] & s2 & [= <-] & E).
    apply mbind_inv in E as ([] & s3 & [= <-] & E).
    apply mbind_inv in E as ([] & s4 & E4 & E). destruct (keep_zoom_lock _ _ _ _ E4) as [D4 _].
    apply mbind_inv in E as ([] & s5 & [= <-] & E). destruct (keep_zoom_lock _ _ _ _ E) as [D5 _].
    rewrite D5, lens_get_set. cbn. rewrite D4, !lens_get_set. cbn. apply dom_insert_lookup_L. by eexists. }
  rewrite Hdom, D1. cbn. apply dom_insert_L.
Qed.

Lemma init_loop_preserves l : ∀ letter, preserves (init_loop l letter).
Proof.
  induction l as [|d l IH]; intros letter s r s' Hok E; cbn [init_loop] in E; [by injection E as <- <-|].
  apply mbind_inv in E as (x & s1 & E1 & E). destruct (keep_get_dev _ _ _ _ E1) as [D1 F1].
  assert (Hok1 : ok s1) by (unfold ok; by rewrite D1, F1). clear E1 D1 F1 Hok.
  apply mbind_inv in E as (letter' & s2 & E2 & E).
  assert (Hok2 : ok s2).
  { case_bool_decide; [|by injection E2 as <- <-].
    apply mbind_inv in E2 as (a & s3 & E3 & E2). destruct (Hkalloc _ _ _ _ E3) as [[D3 F3] Hfresh].
    apply mbind_inv in E2 as ([] & s4 & E4 & E2). destruct (ctrue a) eqn:Ea; [|done]. injection E4 as <-.
    apply mbind_inv in E2 as ([] & s4 & E4 & E2). destruct (negb (letter =? 122)); [|done]. injection E4 as <-.
    apply mbind_inv in E2 as (b & s4 & E4 & E2). destruct (keep_kalloc _ _ _ _ E4) as [D4 F4].
    apply mbind_inv in E2 as ([] & s5 & E5 & E2). apply mbind_inv in E2 as ([] & s6 & E6 & [= _ <-]).
    edestruct (put_new_preserves a) as [Hok5 Hy]; [| | | | |exact E5|].
    - unfold ok. rewrite D4, F4, D3, F3. exact Hok1.
    - unfold ctrue in Ea. by destruct (Z.eqb_spec a 0).
    - done.
    - done.
    - rewrite D4, D3, Hfresh. done.
    - by eapply devfs_add_preserves; [exact Hok5|exact Hy| |exact E6]. }
  clear E2. revert E. generalize s2 Hok2. clear s2 Hok2. intros s2 Hok2 E.
  eapply preserves_then; [exact Hok2|exact E|apply keep_preserves, keep_zoom_lock|].
  intros []. apply preserves_bind; [apply keep_preserves, keep_zoom_lock|]. intros []. apply IH.
Qed.

(** Before [devfs_init] there are no nodes, and no file has one. *)
Definition devfs_boot (s : S) : Prop :=
  dfs_nodes (lget df_lens s) = ∅ ∧ ∀ f x, lget df_files s !! f = Some x → f_private x = 0.

Lemma devfs_init_ok s r s' :
  NoDup [stdin_node; stdout_node; stderr_node] → devfs_boot s → devfs_init s = Ret (r, s') → ok s'.
Proof.
  intros Hnd [Hno Hpr] E. rewrite !NoDup_cons in Hnd. destruct Hnd as (N1 & N2 & _).
  destruct Hnull as (Z1 & Z2 & Z3).
  apply mbind_inv in E as ([] & s1 & E1 & E). destruct (keep_zoom_lock _ _ _ _ E1) as [D1 F1].
  apply mbind_inv in E as ([] & s2 & [= <-] & E). set (s2 := lset df_lens _ s1) in E.
  assert (D2 : dfs_nodes (lget df_lens s2) = ∅).
  { unfold s2. rewrite lens_get_set. cbn. by rewrite D1. }
  assert (Hok2 : ok s2).
  { unfold ok, s2. rewrite lens_get_set, (indep_l df_files df_lens), F1. cbn. rewrite D1, Hno. split; cbn; try done.
    - by intros a Ha%elem_of_nil.
    - intros f x Hx Hp. exfalso. by apply Hp, (Hpr f). }
  clearbody s2. clear s1 E1 D1 F1 Hno Hpr.
  apply mbind_inv in E as (c & s3 & E3 & E). destruct (keep_default_dev _ _ _ E3) as [D3 F3].
  apply mbind_inv in E as ([] & s4 & E4 & E). destruct (ctrue c); [|done]. injection E4 as <-.
  apply mbind_inv in E as (t0 & s5 & E5 & E). destruct (keep_tty_init _ _ _ _ _ _ E5) as [D5 F5].
  apply mbind_inv in E as (t1 & s6 & E6 & E). destruct (keep_tty_init _ _ _ _ _ _ E6) as [D6 F6].
  apply mbind_inv in E as (t2 & s7 & E7 & E). destruct (keep_tty_init _ _ _ _ _ _ E7) as [D7 F7].
  assert (Hok7 : ok s7) by (unfold ok; by rewrite D7, F7, D6, F6, D5, F5, D3, F3).
  assert (Dn : dfs_nodes (lget df_lens s7) = ∅) by (by rewrite D7, D6, D5, D3).
  apply mbind_inv in E as ([] & s8 & E8 & E).
  destruct (add_terminal_preserves _ _ _ _ _ _ Hok7 Z1 ltac:(by rewrite Dn) E8) as [Hok8 Dom8].
  rewrite Dn, dom_empty_L in Dom8.
  apply mbind_inv in E as ([] & s9 & E9 & E).
  assert (H9 : dfs_nodes (lget df_lens s8) !! stdout_node = None).
  { apply not_elem_of_dom. rewrite Dom8. set_solver. }
  destruct (add_terminal_preserves _ _ _ _ _ _ Hok8 Z2 H9 E9) as [Hok9 Dom9].
  apply mbind_inv in E as ([] & s10 & E10 & E).
  assert (H10 : dfs_nodes (lget df_lens s9) !! stderr_node = None).
  { apply not_elem_of_dom. rewrite Dom9, Dom8. set_solver. }
  destruct (add_terminal_preserves _ _ _ _ _ _ Hok9 Z3 H10 E10) as [Hok10 _].
  eapply preserves_then; [exact Hok10|exact E|apply keep_preserves, keep_zoom_lock|]. intros [].
  apply preserves_bind; [apply keep_preserves, keep_gets|]. intros L.
  apply preserves_bind; [apply keep_preserves, keep_zoom_lock|]. intros [].
  apply preserves_bind; [apply init_loop_preserves|]. intros []. apply preserves_ret.
Qed.

(** *** Any sequence of operations *)

(** An operation on an open file, or the VFS making a file or freeing one. *)
Inductive devfs_step (s s' : S) : Prop :=
  | ds_open f path flags mode r : devfs_openat f path flags mode s = Ret (r, s') → devfs_step s s'
  | ds_ifget mp i f r : devfs_fs_ifget mp i f s = Ret (r, s') → devfs_step s s'
  | ds_read f b n r : devfs_read f b n s = Ret (r, s') → devfs_step s s'
  | ds_write f b n r : devfs_write f b n s = Ret (r, s') → devfs_step s s'
  | ds_llseek f o w r : devfs_llseek f o w s = Ret (r, s') → devfs_step s s'
  | ds_close f r : devfs_close f s = Ret (r, s') → devfs_step s s'
  | ds_getattr p r : devfs_getattr p s = Ret (r, s') → devfs_step s s'
  | ds_getdents f b n r : devfs_getdents64 f b n s = Ret (r, s') → devfs_step s s'
  | ds_new f x : lget df_files s !! f = None → f_private x = 0 →
      s' = lset df_files (<[f := x]> (lget df_files s)) s → devfs_step s s'
  | ds_free f : s' = lset df_files (delete f (lget df_files s)) s → devfs_step s s'.

Lemma devfs_step_ok s s' : devfs_step s s' → ok s → ok s'.
Proof.
  intros Hst Hok. destruct Hst as [f path flags mode r E|mp i f r E|f b n r E|f b n r E|f o w r E|f r E|p r E|f b n r E|f x Hf Hp ->|f ->].
  - by eapply devfs_openat_preserves.
  - by eapply devfs_ifget_preserves.
  - by eapply devfs_read_preserves.
  - by eapply devfs_write_preserves.
  - by eapply devfs_llseek_preserves.
  - by eapply devfs_close_preserves.
  - by eapply (keep_preserves _ (devfs_getattr_keeps p)).
  - by eapply (keep_preserves _ (devfs_getdents_keeps f b n)).
  - unfold ok. rewrite lens_get_set, (indep_r df_files df_lens). destruct Hok as [H0 Ht Hl Hfs Hd]. split; try done.
    + intros g z [[<- <-]|[_ Hz]]%lookup_insert_Some Hq; [done|by eapply Hfs].
    + intros g h z w n Hz Hw E Hn Hdir.
      apply lookup_insert_Some in Hz as [[<- <-]|[_ Hz]], Hw as [[<- <-]|[_ Hw]]; [done| | |by eapply Hd].
      * rewrite Hp, H0 in Hn. done.
      * rewrite E, Hp, H0 in Hn. done.
  - unfold ok. rewrite lens_get_set, (indep_r df_files df_lens). destruct Hok as [H0 Ht Hl Hfs Hd]. split; try done.
    + intros g z [_ Hz]%lookup_delete_Some. by eapply Hfs.
    + intros g h z w n [_ Hz]%lookup_delete_Some [_ Hw]%lookup_delete_Some. by eapply Hd.
Qed.

(** C32: After [devfs_init] and any sequence of operations on device files, by any files and in
    any order, every node's tag says what its union holds, no two files share a directory's
    node (so that closing frees it once), and every open file has a node [x] at which it is
    read and written: a node that holds a disk is tagged a block device, and reads and writes
    of the file are those of that disk at the file's offset; a node that holds a terminal is
    tagged a character device, and they are those of that terminal; otherwise the node is
    tagged a directory, and they are refused.  The union is never read at another type than
    it was written. *)
Theorem devfs_nodes_typed s0 r s1 s :
  NoDup [stdin_node; stdout_node; stderr_node] → devfs_boot s0 →
  devfs_init s0 = Ret (r, s1) → rtc devfs_step s1 s →
  (∀ a x, dfs_nodes (lget df_lens s) !! a = Some x → tag_ok x) ∧
  (∀ f g x y n, lget df_files s !! f = Some x → lget df_files s !! g = Some y →
     f_private x = f_private y → dfs_nodes (lget df_lens s) !! f_private x = Some n →
     df_type n = FT_DIR → f = g) ∧
  (∀ f y b n, lget df_files s !! f = Some y → f_private y ≠ 0 →
     ∃ x, dfs_nodes (lget df_lens s) !! f_private y = Some x ∧
     match df_body x with
     | IsDisk d => df_type x = FT_BLKDEV ∧
         devfs_read f b n s = (drv ← mlift (blk_at (dk_blkdev d));
           '(ret, pos) ← block_read (H := drv) d b n (fpos y); set_fpos f pos;; mret ret) s ∧
         devfs_write f b n s = (drv ← mlift (blk_at (dk_blkdev d));
           '(ret, pos) ← block_write (H := drv) d b n (fpos y); set_fpos f pos;; mret ret) s
     | IsTty t => df_type x = FT_CHRDEV ∧
         devfs_read f b n s = ('(ret, pos) ← tty_read id t b n (fpos y); set_fpos f pos;; mret ret) s ∧
         devfs_write f b n s = ('(ret, pos, t') ← tty_write t b n (fpos y);
           put_node (f_private y) (set_body (IsTty t') x);; set_fpos f pos;; mret ret) s
     | Blank => df_type x = FT_DIR ∧
         devfs_read f b n s = Ret (-1, s) ∧ devfs_write f b n s = Ret (-1, s)
     end).
Proof.
  intros Hnd Hboot Hinit Hrtc. pose proof (devfs_init_ok _ _ _ Hnd Hboot Hinit) as Hok. clear Hinit.
  induction Hrtc as [s|s1 s2 s Hst _ IH]; [|apply IH; by eapply devfs_step_ok].
  split; [apply Hok|]. split; [apply Hok|]. intros f y b n Hy Hp.
  destruct (ok_files _ _ Hok f y Hy Hp) as [x Hx]. pose proof (node_tag _ _ _ Hok Hx) as Ht.
  assert (En : node_of f s = Ret ((f_private y, x), s)).
  { unfold node_of, get_file. erewrite mbind_Ret by (erewrite mbind_Ret by reflexivity; rewrite Hy; reflexivity).
    unfold ctrue. rewrite (proj2 (Z.eqb_neq _ 0)) by done. erewrite mbind_Ret by reflexivity.
    by mstep (get_node_run _ x s Hx). }
  assert (Ef : get_file f s = Ret (y, s)).
  { unfold get_file. erewrite mbind_Ret by reflexivity. by rewrite Hy. }
  exists x. split; [done|]. unfold tag_ok in Ht. destruct (df_body x) as [d|t|] eqn:Eb;
    (split; [done|]); (split; [unfold devfs_read|unfold devfs_write]); mstep En; mstep Ef;
    unfold as_disk, as_tty; by rewrite Ht, ?Eb.
Qed.
End typed.

(** ** A system with a disk and a serial port *)

Record ksys := KSys {
  k_disk : vdisk; k_devs : devs; k_uart : uart; k_printed : list Z;
  k_dfs : devfs; k_files : gmap Z file; k_inodes : gmap Z inode; k_next : Z
}.
Definition k_disk_lens : lens ksys vdisk :=
  Lens k_disk (λ x s, KSys x (k_devs s) (k_uart s) (k_printed s) (k_dfs s) (k_files s) (k_inodes s) (k_next s)).
Definition k_devs_lens : lens ksys devs :=
  Lens k_devs (λ x s, KSys (k_disk s) x (k_uart s) (k_printed s) (k_dfs s) (k_files s) (k_inodes s) (k_next s)).
Definition k_uart_lens : lens ksys uart :=
  Lens k_uart (λ x s, KSys (k_disk s) (k_devs s) x (k_printed s) (k_dfs s) (k_files s) (k_inodes s) (k_next s)).
Definition k_dfs_lens : lens ksys devfs :=
  Lens k_dfs (λ x s, KSys (k_disk s) (k_devs s) (k_uart s) (k_printed s) x (k_files s) (k_inodes s) (k_next s)).
Definition k_files_lens : lens ksys (gmap Z file) :=
  Lens k_files (λ x s, KSys (k_disk s) (k_devs s) (k_uart s) (k_printed s) (k_dfs s) x (k_inodes s) (k_next s)).
Definition k_inodes_lens : lens ksys (gmap Z inode) :=
  Lens k_inodes (λ x s, KSys (k_disk s) (k_devs s) (k_uart s) (k_printed s) (k_dfs s) (k_files s) x (k_next s)).

#[export] Instance k_disk_lawful : LawfulLens k_disk_lens.
Proof. split; intros; by destruct s || done. Qed.
#[export] Program Instance ksys_locks : HasLocks ksys := {| lock_lens := lcomp k_disk_lens lock_lens |}.
#[export] Program Instance ksys_mem : HasMem ksys := {| mem_lens := lcomp k_disk_lens mem_lens |}.

(** Memory of zeros in order; an address in use as a node is not given out again. *)
Definition k_kalloc (n : Z) : M ksys Z := λ s,
  if bool_decide (k_next s ∈ dom (dfs_nodes (k_dfs s))) then Panic
  else
    let d := k_disk s in
    Ret (k_next s, KSys (set_vmem (store_bytes (k_next s) (replicate (Z.to_nat n) 0) (vmem d)) d)
      (k_devs s) (k_uart s) (k_printed s) (k_dfs s) (k_files s) (k_inodes s) (k_next s + n)).

#[export] Program Instance ksys_dev : DevState ksys := {|
  dev_locks := ksys_locks;
  dev_mem := ksys_mem;
  dev_lens := k_devs_lens;
  dev_kalloc := k_kalloc;
  devlst_lock := 1;
  dev_buffer := 0x200;
  class_buffer := 0x300;
  str_devlock := 0x100;
  str_blkrqlock := 0x120
|}.
Solve Obligations with (split; intros; try destruct s; reflexivity).

#[export] Program Instance ksys_uart : UartState ksys := {|
  uart_lens := k_uart_lens;
  u_sleep := mret tt;
  u_wakeup := mret tt;
  sbi_ecall ext f a := λ s, Ret ((0, 0), KSys (k_disk s) (k_devs s) (k_uart s)
    (k_printed s ++ (if ext =? SBI_EXT_LEGACY_CONSOLE then [u8 a] else [])) (k_dfs s) (k_files s) (k_inodes s) (k_next s))
|}.
Solve Obligations with (split; intros; try destruct s; reflexivity).

#[export] Instance ksys_ops : DevOps ksys := {|
  chr_ops a := if a =? UART_OPS then Some (uart_chrops true) else None;
  net_ops _ := None
|}.

(** The virtio disk as a part of the system. *)
Definition k_blk : BlkDriver ksys := {|
  blk_state := {|
    blk_locks := ksys_locks;
    blk_mem := ksys_mem;
    rq_list := lcomp k_disk_lens rq_list;
    rq_list_lock := 0;
    get_req s r := get_req (k_disk s) r;
    put_req r x s := lset k_disk_lens (put_req r x (k_disk s)) s;
    req_wakeup r := zoom k_disk_lens (req_wakeup r);
    call_endio f r := zoom k_disk_lens (call_endio f r)
  |};
  dev_ops := BlkOps (zoom k_disk_lens (virtio_blk_alloc 16)) (λ r, zoom k_disk_lens (virtio_blk_free r))
    (λ r, zoom k_disk_lens (virtio_blk_submit r)) (Some (zoom k_disk_lens virtio_blk_isr));
  req_sleep r := zoom k_disk_lens (virtio_sleep r);
  sector_size := VIRTIO_BLK_SECTOR_SIZE;
  dev_size := 2048
|}.

Definition DISK_DEV : Z := 0x5000.
#[export] Program Instance ksys_devfs : DevfsState ksys := {|
  df_devstate := ksys_dev;
  df_devops := ksys_ops;
  df_lens := k_dfs_lens;
  df_files := k_files_lens;
  df_inodes := k_inodes_lens;
  blk_at b := if b =? DISK_DEV then Some k_blk else None;
  devfs_list_lk := 2;
  stdin_node := 0x6000;
  stdout_node := 0x6200;
  stderr_node := 0x6400;
  devfs_file_fops_addr := 0x7000;
  devfs_fs_addr := 0x7100
|}.
Solve Obligations with (split; intros; try destruct s; reflexivity).

Definition k_file : file := File 0 0 0x8100 [] 0 0 0.
Definition k_inode : inode := Inode 0 0 0 0 0 0 0.
Definition k_env : lockenv :=
  LockEnv [Cpu 0 true true]
    {[0 := Spinlock UNLOCKED "rq" None; 1 := Spinlock UNLOCKED "devlst" None; 2 := Spinlock UNLOCKED "devfs" None]}.
(** A disk at [DISK_DEV], a serial port at 0x1000; three files not opened yet. *)
Definition k_start : ksys :=
  KSys (set_vlocks k_env (idle_disk one_request))
    (Devs [0x1000; DISK_DEV] {[0x1000 := uart_dev; DISK_DEV := Device 0x100 1 DEVICE_TYPE_BLOCK 0 2048 512 []]})
    (set_con Sbi demo_port) []
    (Devfs [] ∅ 0) {[1 := k_file; 2 := k_file; 3 := k_file]} {[0x8100 := k_inode]} 0x40000.

Lemma k_disk_untouched x (s : ksys) : untouched s (lset k_disk_lens x s).
Proof. done. Qed.
Lemma k_quiet : quiet k_blk.
Proof.
  split; try done; intros; apply keep_zoom; intros; apply k_disk_untouched.
Qed.
Lemma k_putc a ops d c : chr_ops a = Some ops → keeps (op_putchar ops d c).
Proof.
  cbn. destruct (a =? UART_OPS); [|done]. intros [= <-] s r s' E. cbn in E.
  apply mbind_inv in E as (v & s1 & E & [= _ <-]). unfold putchar in E.
  apply mbind_inv in E as (u & s2 & [= <- <-] & E). destruct (con _); [done| |].
  - revert E. by apply keep_zoom.
  - by injection E as <- <-.
Qed.
Lemma k_getc a ops d : chr_ops a = Some ops → keeps (op_getchar ops d).
Proof.
  cbn. destruct (a =? UART_OPS); [|done]. intros [= <-] s r s' E. cbn in E.
  apply mbind_inv in E as (v & s1 & E & [= _ <-]). unfold getchar in E.
  apply mbind_inv in E as (u & s2 & [= <- <-] & E). destruct (con _); [done| |].
  - revert E. by apply keep_zoom.
  - by injection E as <- <-.
Qed.
Lemma k_alloc n (s : ksys) a s' : dev_kalloc n s = Ret (a, s') →
  untouched s s' ∧ dfs_nodes (lget df_lens s) !! a = None.
Proof.
  cbn. unfold k_kalloc. case_bool_decide as Hd; [done|]. intros [= <- <-]. split; [done|].
  by apply not_elem_of_dom.
Qed.

(** Boot, then a shell's worth of calls: [/dev//stdout] gets a line, a sector of [/dev/sda] is
    read, the directory is listed and closed, and a missing node is refused. *)
Definition k_session : M ksys (list Z) :=
  '(r0, _) ← devfs_init;
  r1 ← devfs_openat 1 (DEV ++ Printf.txt "//stdout") 1 0x1b6;
  on_mem (store_str 0x10000 (Printf.txt "hi" ++ [NEWLINE]));;
  r2 ← devfs_write 1 0x10000 3;
  r3 ← devfs_openat 2 (DEV ++ Printf.txt "/sda") 0 0;
  r4 ← devfs_llseek 2 1024 SEEK_SET;
  DevFs.set_fpos 2 r4;;
  r5 ← devfs_read 2 0x10200 512;
  c ← on_mem (ld 0x10200);
  r6 ← devfs_openat 3 DEV 0 0;
  buf ← dev_kalloc 512;
  r7 ← devfs_getdents64 3 buf 512;
  n ← on_mem (load_str 8 (buf + 19));
  r8 ← devfs_close 3;
  r9 ← devfs_openat 3 (DEV ++ Printf.txt "/sdb") 0 0;
  mret ([r0; r1; r2; r3; r4; r5; c; r6; r7; r8; r9] ++ n).

Example session_works :
  match k_session k_start with
  | Ret (l, s) => l = [0; 0; 3; 0; 1024; 0; 2; 0; 120; 0; -1] ++ Printf.txt "sda" ∧
      k_printed s = Printf.txt "hi" ++ [NEWLINE] ∧ cur_ino (k_dfs s) = 4
  | _ => False
  end.
Proof. by vm_compute. Qed.

Definition k_booted : ksys := outcome_state (devfs_init k_start) k_start.
Definition k_opened : ksys := outcome_state (devfs_openat 1 (DEV ++ Printf.txt "/stdout") 1 0 k_booted) k_booted.

Lemma k_boots : devfs_init k_start = Ret ((0, Mountpoint DEV devfs_fs_addr 0 0), k_booted).
Proof. apply outcome_value. by vm_compute. Qed.
Lemma k_opens : devfs_step k_booted k_opened.
Proof. eapply (ds_open _ _ 1 (DEV ++ Printf.txt "/stdout") 1 0 0). apply outcome_value. by vm_compute. Qed.
Lemma k_boot : devfs_boot k_start.
Proof.
  split; [done|]. cbn. intros f y Hy. repeat (apply lookup_insert_Some in Hy as [[_ <-]|[_ Hy]]; [done|]).
  by apply lookup_empty_Some in Hy || (apply lookup_singleton_Some in Hy as [_ <-]).
Qed.
Lemma k_disks b drv : blk_at b = Some drv → quiet drv.
Proof. cbn. destruct (b =? DISK_DEV); [|done]. intros [= <-]. exact k_quiet. Qed.

Lemma devfs_nodes_typed_witness :
  (∀ a x, dfs_nodes (lget df_lens k_opened) !! a = Some x → tag_ok x) ∧
  f_private <$> lget df_files k_opened !! 1 = Some stdout_node.
Proof.
  split; [|by vm_compute]. intros a x.
  destruct (devfs_nodes_typed (S := ksys)) with (s0 := k_start) (r := (0, Mountpoint DEV devfs_fs_addr 0 0))
    (s1 := k_booted) (s := k_opened) as (Ht & _).
  - exact k_putc.
  - exact k_getc.
  - exact k_disks.
  - exact k_alloc.
  - done.
  - by apply (bool_decide_unpack _); vm_compute.
  - exact k_boot.
  - exact k_boots.
  - apply rtc_once. exact k_opens.
  - exact (Ht a x).
Defined.

Lemma k_booted_lock : lock_free 2 k_booted.
Proof.
  split; [exists (Cpu 0 true true); split_and!; [by vm_compute|cbn; lia..]|].
  exists "devfs list lock"%string. by vm_compute.
Qed.
Lemma k_booted_listed : listed k_booted.
Proof. unfold listed. apply Forall_forall. by apply (bool_decide_unpack _); vm_compute. Qed.

Lemma devfs_get_by_path_spec_witness :
  devfs_get_by_path (DEV ++ Printf.txt "/sda") k_booted =
    Ret (first_named (dfs_nodes (lget df_lens k_booted)) (dfs_list (lget df_lens k_booted)) (Printf.txt "sda"),
         unlocked_at k_booted) ∧
  first_named (dfs_nodes (lget df_lens k_booted)) (dfs_list (lget df_lens k_booted)) (Printf.txt "sda") = 0x41000.
Proof.
  split; [|by vm_compute]. destruct (devfs_get_by_path_spec k_booted) as [E _].
  - exact k_booted_lock.
  - exact k_booted_listed.
  - apply (E 0%nat (Printf.txt "sda")); [done|]. by apply (bool_decide_unpack _); vm_compute.
Defined.
