(* ===== verification/PageTable.v ===== *)
(** * Page tables and user memory

    Models [kernel/arch/riscv/mm/mm.c], [kernel/mm/vm.c] and [kernel/mm/page.c]: the three-level
    Sv39 tables, the mapping and copying operations and the page reference counts.  A page
    table is a page of 512 entries in [pt_pages]; the other bytes of memory are in [pmem];
    [frames] holds the addresses [kalloc] will hand out (0 when it fails), [freed] what was given
    back, latest first; [upgtbls] the counted handles of user page tables. *)

From S2P Require Export CString.

Definition PTE_V : Z := 0x001.
Definition PTE_R : Z := 0x002.
Definition PTE_W : Z := 0x004.
Definition PTE_X : Z := 0x008.
Definition PTE_U : Z := 0x010.
Definition PTE_G : Z := 0x020.
Definition PTE_COW : Z := 0x200.

Definition PA2PTE (pa : Z) : Z := u64 (Z.shiftl (Z.shiftr (u64 pa) 12) 10).
Definition PTE2PA (pte : Z) : Z := u64 (Z.shiftl (Z.shiftr (u64 pte) 10) 12).
Definition PTE_FLAGS (pte : Z) : Z := Z.land (u64 pte) 0x3ff.

Definition MAXVA : Z := 0x4000000000.
Definition PHYSTOP : Z := 0x88000000.
Definition TRAMPOLINE : Z := MAXVA - 2 * PGSIZE.
Definition TRAPFRAME : Z := TRAMPOLINE - PGSIZE.

Record vm := Vm {
  pt_pages : gmap Z (list Z);
  pmem : bytes;
  pcnt : gmap Z Z;
  frames : list Z;
  freed : list Z;
  upgtbls : gmap Z (Z * Z)
}.

Definition set_pt_pages x s := Vm x (pmem s) (pcnt s) (frames s) (freed s) (upgtbls s).
Definition set_pmem x s := Vm (pt_pages s) x (pcnt s) (frames s) (freed s) (upgtbls s).
Definition set_pcnt x s := Vm (pt_pages s) (pmem s) x (frames s) (freed s) (upgtbls s).
Definition set_frames x s := Vm (pt_pages s) (pmem s) (pcnt s) x (freed s) (upgtbls s).
Definition set_freed x s := Vm (pt_pages s) (pmem s) (pcnt s) (frames s) x (upgtbls s).
Definition set_upgtbls x s := Vm (pt_pages s) (pmem s) (pcnt s) (frames s) (freed s) x.

(** Where the boot code put things: the array [pages], the kernel's own page table, the
    trampoline page and the end of the kernel's code. *)
Class VmEnv := {
  pages : Z;
  kernel_pagetable : Z;
  trampoline : Z;
  etext : Z
}.

Section vm.
Context `{VmEnv}.

(** ** Memory *)

(** The page-table entry at address [a]. *)
Definition rd_pte (a : Z) : M vm Z :=
  mtry (λ s, l ← pt_pages s !! (a - a mod PGSIZE); znth l (a mod PGSIZE / 8)).
Definition wr_pte (a v : Z) : M vm unit :=
  s ← mget;
  l ← mlift (pt_pages s !! (a - a mod PGSIZE));
  l' ← mlift (zset l (a mod PGSIZE / 8) (u64 v));
  modify (set_pt_pages (<[a - a mod PGSIZE := l']> (pt_pages s))).

Definition kalloc : M vm Z :=
  s ← mget;
  match frames s with
  | [] => mpanic
  | a :: l => modify (set_frames l);; mret a
  end.
(** [kalloc(sz)] where [sz] is not a constant: [kalloc] asserts that it is positive, and above
    the largest block the allocator indexes past its free areas. *)
Definition MAX_BLOCK : Z := 1024 * PGSIZE.
Definition kalloc_bytes (sz : Z) : M vm Z :=
  massert (0 <? sz);;
  if MAX_BLOCK <? sz then mfault else kalloc.
Definition kfree (a : Z) : M vm unit := modify (λ s, set_freed (a :: freed s) s).
(** An operation on bytes. *)
Definition on_pmem {A} (m : M bytes A) : M vm A := zoom (Lens pmem set_pmem) m.

(** A little-endian store of [n] bytes. *)
Fixpoint st_le (n : nat) (a v : Z) : M bytes unit :=
  match n with
  | O => mret tt
  | S n => st a v;; st_le n (a + 1) (Z.shiftr v 8)
  end.

(** ** Page reference counts ([page.c]) *)

Definition GET_PAGE (a : Z) : Z := Z.shiftr (u64 (a - pages)) PGSHIFT.

Definition page_ref_inc (pa : Z) : M vm Z :=
  if (pa <? pages) || (PHYSTOP <? pa) then mret (-1)
  else
    c ← mtry (λ s, pcnt s !! GET_PAGE pa);
    modify (λ s, set_pcnt (<[GET_PAGE pa := u8 (c + 1)]> (pcnt s)) s);;
    mret c.

Definition page_ref_dec (pa : Z) : M vm Z :=
  if (pa <? pages) || (PHYSTOP <? pa) then mret (-1)
  else
    c ← mtry (λ s, pcnt s !! GET_PAGE pa);
    modify (λ s, set_pcnt (<[GET_PAGE pa := u8 (c - 1)]> (pcnt s)) s);;
    mret c.

(** [memset] of a failed allocation writes to NULL. *)
Definition alloc_pagetable : M vm Z :=
  p ← kalloc;
  if p =? 0 then mfault
  else modify (λ s, set_pt_pages (<[p := replicate 512 0]> (pt_pages s)) s);; mret p.

(** ** Walking the tables *)

(** One turn of the loop of [walk] at a table: the next table, or [None] for the return
    of NULL. *)
Definition walk_level (pgtbl va shift : Z) (alloc : bool) : M vm (option Z) :=
  let pte := pgtbl + 8 * Z.land (Z.shiftr va shift) 0x1ff in
  e ← rd_pte pte;
  if Z.land e PTE_V =? 0 then
    if alloc then
      t ← alloc_pagetable;
      let e := PA2PTE t in
      wr_pte pte e;;
      if negb (e =? 0) then
        wr_pte pte (Z.lor e PTE_V);; mret (Some (PTE2PA (Z.lor e PTE_V)))
      else mret None
    else mret None
  else mret (Some (PTE2PA e)).

Definition walk (pgtbl va : Z) (alloc : bool) : M vm Z :=
  let va := Z.shiftr (u64 va) 12 in
  t1 ← walk_level pgtbl va 18 alloc;
  match t1 with
  | None => mret 0
  | Some t1 =>
      t0 ← walk_level t1 va 9 alloc;
      match t0 with
      | None => mret 0
      | Some t0 => mret (t0 + 8 * Z.land va 0x1ff)
      end
  end.

(** [CHECK_PTE] asks for one of the flags. *)
Definition CHECK_PTE (pte flags : Z) : M vm bool :=
  if pte =? 0 then mret false
  else e ← rd_pte pte; mret (negb (Z.land e flags =? 0)).

Definition walkaddr (pgtbl va : Z) : M vm Z :=
  if MAXVA <=? va then mret 0
  else if pgtbl =? kernel_pagetable then mret va
  else
    pte ← walk pgtbl va false;
    ok ← CHECK_PTE pte (Z.lor PTE_V PTE_U);
    if negb ok then mret 0
    else
      e ← rd_pte pte;
      mret (Z.lor (PTE2PA e) (Z.land va (PGSIZE - 1))).

(** ** Mapping *)

(** [nr_mapped * PGSIZE] is a product of [int]s, which wraps from 2 GiB on. *)
Fixpoint map_loop (n : nat) (pgtbl va pa flags pte nr_mapped : Z) : M vm unit :=
  match n with
  | O => mret tt
  | S n =>
      let nr_mapped := nr_mapped + 1 in
      wr_pte pte (Z.lor (Z.lor (PA2PTE pa) flags) PTE_V);;
      let pte := pte + 8 in
      page_ref_inc pa;;
      let pa := u64 (pa + PGSIZE) in
      if IS_PGALIGNED pte then
        pte ← walk pgtbl (u64 (va + i32 (nr_mapped * PGSIZE))) true;
        massert (ctrue pte);;
        map_loop n pgtbl va pa flags pte nr_mapped
      else map_loop n pgtbl va pa flags pte nr_mapped
  end.

(** The number of pages [mappages] maps. *)
Definition map_npages (va sz : Z) : Z :=
  i32 (Z.shiftr (u64 (PGROUNDUP (u64 (va + sz - 1)) - PGROUNDDOWN va)) PGSHIFT).

Definition mappages (pgtbl va pa sz flags : Z) : M vm unit :=
  pte ← walk pgtbl va true;
  massert (ctrue pte);;
  map_loop (Z.to_nat (map_npages va sz)) pgtbl va pa flags pte 0.

(** A kernel stack at [stack_va]. *)
Definition KSTACK_SIZE : Z := 4 * PGSIZE.

Definition map_stack (pgtbl stack_va : Z) : M vm unit :=
  stack ← kalloc;
  massert (ctrue stack);;
  mappages pgtbl stack_va stack KSTACK_SIZE (Z.lor PTE_R PTE_W).

Definition KERNELBASE : Z := 0x80200000.
Definition TEST_SPACE : Z := MAXVA - PGSIZE.

(** The kernel's own page table: devices, code, data and all of memory at their physical
    addresses, the trampoline and a read-only page for testing copy-on-write. *)
Definition kvmmake : M vm Z :=
  kpgtbl ← alloc_pagetable;
  mappages kpgtbl 0x10000000 0x10000000 0x100 (Z.lor PTE_R PTE_W);;
  mappages kpgtbl 0x10001000 0x10001000 (8 * 0x1000) (Z.lor PTE_R PTE_W);;
  mappages kpgtbl 0x2000000 0x2000000 0x10000 (Z.lor PTE_R PTE_W);;
  mappages kpgtbl 0xc000000 0xc000000 0x4000000 (Z.lor PTE_R PTE_W);;
  mappages kpgtbl KERNELBASE KERNELBASE (etext - KERNELBASE) (Z.lor PTE_R PTE_X);;
  mappages kpgtbl etext etext (PHYSTOP - etext) (Z.lor PTE_R PTE_W);;
  mappages kpgtbl TRAMPOLINE trampoline PGSIZE (Z.lor PTE_R PTE_X);;
  test_space ← kalloc;
  on_pmem (st_le 8 test_space 0x11451419198100);;
  mappages kpgtbl TEST_SPACE test_space PGSIZE (Z.lor PTE_R PTE_COW);;
  mret kpgtbl.

Definition uvmmake (trapframe : Z) : M vm Z :=
  upgtbl ← alloc_pagetable;
  mappages upgtbl TRAMPOLINE trampoline PGSIZE (Z.lor PTE_R PTE_X);;
  mappages upgtbl TRAPFRAME trapframe PGSIZE (Z.lor PTE_R PTE_W);;
  mret upgtbl.

Definition uvminit (trapframe init_code sz : Z) : M vm Z :=
  massert (ctrue init_code);;
  massert (sz <=? 16 * PGSIZE);;
  userspace ← kalloc_bytes (u64 sz);
  on_pmem (memmove userspace init_code (Z.to_nat sz));;
  upgtbl ← uvmmake trapframe;
  mappages upgtbl 0 userspace sz (Z.lor (Z.lor (Z.lor PTE_U PTE_R) PTE_X) PTE_W);;
  mappages upgtbl (16 * PGSIZE) 0 PGSIZE 0;;
  ustack ← kalloc;
  mappages upgtbl (17 * PGSIZE) ustack PGSIZE (Z.lor (Z.lor PTE_U PTE_R) PTE_W);;
  mret upgtbl.

(** ** Copying an address space *)

(** The flags of the child's entry: a writable page becomes copy-on-write. *)
Definition cow_flags (e : Z) : Z :=
  let flags := PTE_FLAGS e in
  if ctrue (Z.land e PTE_W) then Z.lor (Z.land flags (Z.lnot PTE_W)) PTE_COW else flags.

Fixpoint uvmcopy_loop (n : nat) (cpgtbl ppgtbl va : Z) : M vm unit :=
  match n with
  | O => mret tt
  | S n =>
      ppte ← walk ppgtbl va false;
      e ← rd_pte ppte;
      let pa := PTE2PA e in
      mwhen (ctrue pa) (mappages cpgtbl va pa PGSIZE (cow_flags e));;
      uvmcopy_loop n cpgtbl ppgtbl (u64 (va + PGSIZE))
  end.

Definition uvmcopy (cpgtbl ppgtbl sz : Z) : M vm unit :=
  uvmcopy_loop (Z.to_nat ((sz + PGOFFMASK) / PGSIZE)) cpgtbl ppgtbl 0.

(** The fields of [struct vm_area] used here; a list of areas is its chain of [next]
    pointers. *)
Record vm_area := VmArea {
  v_start : Z;
  v_end : Z;
  v_prot : Z;
  v_flags : Z;
  v_file : Z;
  v_offset : Z
}.

Fixpoint alloc_range (n : nat) (pgtbl va perms : Z) : M vm unit :=
  match n with
  | O => mret tt
  | S n =>
      mem ← kalloc;
      mappages pgtbl va mem PGSIZE perms;;
      alloc_range n pgtbl (u64 (va + PGSIZE)) perms
  end.

(** The pages of the parent are not copied. *)
Fixpoint uvmcopy_alloc (cpgtbl ppgtbl : Z) (vma_list : list vm_area) : M vm unit :=
  match vma_list with
  | [] => mret tt
  | vma :: l =>
      alloc_range (Z.to_nat ((v_end vma - v_start vma + PGOFFMASK) / PGSIZE))
        cpgtbl (v_start vma) (u64 (v_prot vma));;
      uvmcopy_alloc cpgtbl ppgtbl l
  end.

(** ** Copies between kernel and user memory *)

(** [None] stands for [do_exit]: the process ends there. *)
Fixpoint copyout_loop (fuel : nat) (pgtbl dstva src len : Z) : M vm (option Z) :=
  if 0 <? len then
    match fuel with
    | O => mspin
    | S fuel =>
        let va0 := PGROUNDDOWN dstva in
        pte ← walk pgtbl va0 false;
        e ← rd_pte pte;
        if (Z.land e PTE_V =? 0) || (Z.land e PTE_U =? 0) then mret None
        else
          let pa0 := PTE2PA e in
          if pa0 =? 0 then mret (Some (-1))
          else
            page ← (if ctrue (Z.land e PTE_COW) then
              mem ← kalloc;
              if mem =? 0 then mret None
              else
                on_pmem (memmove mem pa0 (Z.to_nat PGSIZE));;
                wr_pte pte (Z.lor (PA2PTE mem)
                  (Z.lor (Z.land (PTE_FLAGS e) (Z.lnot PTE_COW)) PTE_W));;
                r ← page_ref_dec pa0;
                mwhen (r =? 1) (kfree pa0);;
                mret (Some mem)
              else mret (Some pa0));
            match page with
            | None => mret None
            | Some pa0 =>
                let n := PGSIZE - (dstva - va0) in
                let n := if len <? n then len else n in
                on_pmem (memmove (pa0 + dstva - va0) src (Z.to_nat n));;
                copyout_loop fuel pgtbl (u64 (va0 + PGSIZE)) (src + n) (len - n)
            end
    end
  else mret (Some 0).

Definition copyout (pgtbl dstva src len : Z) : M vm (option Z) :=
  copyout_loop (Z.to_nat (len / PGSIZE + 2)) pgtbl dstva src len.

Fixpoint copyin_loop (fuel : nat) (pgtbl dst srcva len cnt : Z) : M vm Z :=
  if 0 <? len then
    match fuel with
    | O => mspin
    | S fuel =>
        let va0 := PGROUNDDOWN srcva in
        pa0 ← walkaddr pgtbl va0;
        if pa0 =? 0 then mret cnt
        else
          let offset := srcva - va0 in
          let n := PGSIZE - offset in
          let n := if len <? n then len else n in
          on_pmem (memmove dst (pa0 + offset) (Z.to_nat n));;
          copyin_loop fuel pgtbl (dst + n) (u64 (va0 + PGSIZE)) (len - n) (i32 (cnt + n))
    end
  else mret 0.

Definition copyin (pgtbl dst srcva len : Z) : M vm Z :=
  dst ← (if dst =? 0 then kalloc_bytes len else mret dst);
  if dst =? 0 then mret (-1)
  else copyin_loop (Z.to_nat (len / PGSIZE + 2)) pgtbl dst srcva len 0.

(** The bytes of one page up to a NUL: whether one was met, and the two counters after. *)
Fixpoint copystr_page (n : nat) (dst p max cnt : Z) : M vm (bool * Z * Z * Z) :=
  match n with
  | O => mret (false, dst, max, cnt)
  | S n =>
      c ← on_pmem (ld p);
      if c =? 0 then on_pmem (st dst 0);; mret (true, dst, max, cnt + 1)
      else
        on_pmem (st dst c);;
        copystr_page n (dst + 1) (p + 1) (max - 1) (cnt + 1)
  end.

(** [srcva] stays where it is from one page to the next. *)
Fixpoint copyinstr_loop (fuel : nat) (pgtbl dst srcva max cnt : Z) : M vm Z :=
  if 0 <? max then
    match fuel with
    | O => mspin
    | S fuel =>
        let va0 := PGROUNDDOWN srcva in
        pa0 ← walkaddr pgtbl va0;
        if pa0 =? 0 then mret (u64 (-1))
        else
          let n := PGSIZE - (srcva - va0) in
          let n := if max <? n then max else n in
          '(got_null, dst, max, cnt) ←
            copystr_page (Z.to_nat n) dst (pa0 + (srcva - va0)) max cnt;
          if (got_null : bool) then mret cnt
          else copyinstr_loop fuel pgtbl dst srcva max cnt
    end
  else mret (u64 (-1)).

Definition copyinstr (pgtbl dst srcva max : Z) : M vm Z :=
  copyinstr_loop (Z.to_nat max) pgtbl dst srcva max 0.

Definition copy_from_user (pgtbl to from n : Z) : M vm Z :=
  r ← copyin pgtbl to from n;
  mret (if r <? 0 then -1 else n).

Definition copy_to_user (pgtbl to from n : Z) : M vm (option Z) :=
  r ← copyout pgtbl to from n;
  mret ((λ r, if r <? 0 then -1 else n) <$> r).

Definition copy_from_user_str (pgtbl to from max : Z) : M vm Z := copyinstr pgtbl to from max.

Definition copy_to_user_str (fuel : nat) (pgtbl to from max : Z) : M vm (option Z) :=
  l ← on_pmem (strlen fuel from);
  let len := MIN (l + 1) max in
  r ← copy_to_user pgtbl to from len;
  mret ((λ r, if r <? 0 then -1 else len) <$> r).

(** ** Faults on copy-on-write pages *)

Definition store_page_fault_handler (badv : Z) : M vm (option unit) :=
  let va := PGROUNDDOWN badv in
  pte ← walk kernel_pagetable va false;
  if pte =? 0 then mret None
  else
    e ← rd_pte pte;
    massert (negb ((e =? 0) || (Z.land e PTE_V =? 0) || (Z.land e PTE_COW =? 0)));;
    mem ← kalloc;
    let pa := PTE2PA e in
    on_pmem (memmove mem pa (Z.to_nat PGSIZE));;
    wr_pte pte (Z.lor (PA2PTE mem) (Z.lor (Z.land (PTE_FLAGS e) (Z.lnot PTE_COW)) PTE_W));;
    page_ref_inc mem;;
    r ← page_ref_dec pa;
    mwhen (r =? 1) (kfree pa);;
    mret (Some tt).

(** ** Unmapping *)

Fixpoint for_entries (l : list Z) (body : Z → M vm unit) : M vm unit :=
  match l with [] => mret tt | i :: l => body i;; for_entries l body end.

(** The test of the outer loop shifts a truth value; the inner ones are never reached. *)
Definition uvmunmap (pgtbl va npages : Z) (do_free : bool) : M vm unit :=
  massert (IS_PGALIGNED va);;
  for_entries (seqZ 0 511) (λ i,
    e ← rd_pte (pgtbl + 8 * i);
    mwhen (ctrue (PTE2PA (if e =? 0 then 0 else 1)))
      (let pgtbl1 := PA2PTE e in
       for_entries (seqZ 0 512) (λ j,
         e1 ← rd_pte (pgtbl1 + 8 * j);
         mwhen (ctrue (PTE2PA e1))
           (let pgtbl2 := PA2PTE e1 in
            for_entries (seqZ 0 512) (λ k,
              pte ← rd_pte (pgtbl2 + 8 * k);
              let pa := PTE2PA pte in
              mwhen (ctrue pa)
                (mwhen do_free (r ← page_ref_dec pa; mwhen (r =? 1) (kfree pa));;
                 wr_pte (pgtbl2 + 8 * k) 0)))))).

(** [depth] is how many levels are left below level 2. *)
Fixpoint freewalk (depth : nat) (pgtbl : Z) : M vm unit :=
  match depth with
  | O => mret tt
  | S depth =>
      for_entries (seqZ 0 512) (λ i,
        pte ← rd_pte (pgtbl + 8 * i);
        let child := PTE2PA pte in
        mwhen (ctrue child) (freewalk depth child);;
        wr_pte (pgtbl + 8 * i) 0);;
      kfree pgtbl
  end.

Definition uvmfree (pgtbl sz : Z) : M vm unit :=
  mwhen (0 <? sz) (uvmunmap pgtbl 0 (Z.shiftr (PGROUNDUP sz) PGSHIFT) true);;
  freewalk 3 pgtbl.

Fixpoint unmap_areas (pgtbl : Z) (vma_list : list vm_area) : M vm unit :=
  match vma_list with
  | [] => mret tt
  | vma :: l =>
      uvmunmap pgtbl (v_start vma) (Z.shiftr (v_end vma - v_start vma) PGSHIFT) true;;
      unmap_areas pgtbl l
  end.

Definition uvmfree_vma (pgtbl : Z) (vma_list : list vm_area) : M vm unit :=
  unmap_areas pgtbl vma_list;;
  freewalk 3 pgtbl.

Definition free_pgtbl (pgtbl : Z) (vma : list vm_area) : M vm unit :=
  uvmunmap pgtbl TRAPFRAME 1 true;;
  uvmunmap pgtbl TRAMPOLINE 1 false;;
  uvmfree_vma pgtbl vma.

(** ** Counted page tables ([page.c]) *)

Definition upgtbl_init (pagetable : Z) : M vm Z :=
  u ← kalloc;
  if u =? 0 then mfault
  else modify (λ s, set_upgtbls (<[u := (pagetable, 1)]> (upgtbls s)) s);; mret u.

Definition upgtbl_incr (u : Z) : M vm Z :=
  x ← mtry (λ s, upgtbls s !! u);
  modify (λ s, set_upgtbls (<[u := (x.1, i32 (x.2 + 1))]> (upgtbls s)) s);; mret x.2.

Definition upgtbl_decr (u : Z) : M vm Z :=
  x ← mtry (λ s, upgtbls s !! u);
  modify (λ s, set_upgtbls (<[u := (x.1, i32 (x.2 - 1))]> (upgtbls s)) s);; mret x.2.

Definition upgtbl_clone (u : Z) : M vm Z := upgtbl_incr u;; mret u.

(** ** Entries and addresses *)

Lemma PA2PTE_eq pa : 0 ≤ pa < 2 ^ 64 → PA2PTE pa = pa / PGSIZE * 2 ^ 10.
Proof.
  intros Hpa. unfold PA2PTE, PGSIZE. rewrite (u64_small pa) by done.
  rewrite Z.shiftl_mul_pow2, Z.shiftr_div_pow2 by lia. change (2 ^ 12) with 4096.
  apply u64_small. change (2 ^ 64) with (2 ^ 52 * 4096) in Hpa. Z.div_mod_to_equations. lia.
Qed.

Lemma entry_value pa flags :
  0 ≤ pa < 2 ^ 64 → 0 ≤ flags < 2 ^ 10 →
  Z.lor (PA2PTE pa) flags = pa / PGSIZE * 2 ^ 10 + flags ∧
  0 ≤ pa / PGSIZE * 2 ^ 10 + flags < 2 ^ 63.
Proof.
  intros Hpa Hf. rewrite PA2PTE_eq, Z.lor_comm, lor_high by lia. split; [lia|].
  unfold PGSIZE. change (2 ^ 64) with (2 ^ 52 * 4096) in Hpa. Z.div_mod_to_equations. lia.
Qed.

Lemma PTE2PA_eq k flags :
  0 ≤ k < 2 ^ 52 → 0 ≤ flags < 2 ^ 10 → PTE2PA (k * 2 ^ 10 + flags) = k * PGSIZE.
Proof.
  intros Hk Hf. unfold PTE2PA, PGSIZE. rewrite (u64_small (_ + _)) by lia.
  rewrite Z.shiftl_mul_pow2, Z.shiftr_div_pow2 by lia.
  replace ((k * 2 ^ 10 + flags) / 2 ^ 10) with k by (Z.div_mod_to_equations; lia).
  change (2 ^ 12) with 4096. apply u64_small. lia.
Qed.

(** A page: aligned, and an address a page-table entry can hold. *)
Definition page_addr (a : Z) : Prop := a mod PGSIZE = 0 ∧ 0 < a < 2 ^ 56.

Lemma lor_flag_V flags : 0 ≤ flags < 2 ^ 10 → 0 ≤ Z.lor flags PTE_V < 2 ^ 10 ∧ Z.testbit (Z.lor flags PTE_V) 0 = true.
Proof.
  intros Hf. unfold PTE_V. split.
  - split; [apply Z.lor_nonneg; lia|]. destruct (decide (Z.lor flags 1 = 0)) as [->|]; [lia|].
    apply Z.log2_lt_pow2; [pose proof (proj2 (Z.lor_nonneg flags 1)); lia|].
    rewrite Z.log2_lor by lia. change (Z.log2 1) with 0. apply Z.max_lub_lt; [|lia].
    destruct (decide (flags = 0)) as [->|]; [cbn; lia|]. apply Z.log2_lt_pow2; lia.
  - by rewrite Z.lor_spec, orb_true_r.
Qed.

(** The entry [mappages] and [walk] write, read back. *)
Lemma entry_round pa flags :
  page_addr pa → 0 ≤ flags < 2 ^ 10 →
  let e := Z.lor (Z.lor (PA2PTE pa) flags) PTE_V in
  0 ≤ e < 2 ^ 64 ∧ Z.testbit e 0 = true ∧ PTE2PA e = pa.
Proof.
  intros [Ha Hb] Hf e. destruct (lor_flag_V flags Hf) as [Hf' Ht].
  destruct (entry_value pa (Z.lor flags PTE_V)) as [E Hr]; [lia|done|].
  subst e. rewrite <- Z.lor_assoc. split_and!.
  - rewrite E. lia.
  - rewrite E. lia.
  - by rewrite Z.lor_spec, Ht, orb_true_r.
  - rewrite E. rewrite PTE2PA_eq by (done || (unfold PGSIZE; Z.div_mod_to_equations; lia)).
    unfold PGSIZE in *. Z.div_mod_to_equations. lia.
Qed.

Lemma land_V e : (Z.land e PTE_V =? 0) = negb (Z.testbit e 0).
Proof.
  unfold PTE_V. change 1 with (Z.ones 1). rewrite Z.land_ones by lia. change (2 ^ 1) with 2.
  rewrite <- Z.bit0_mod. by destruct (Z.testbit e 0).
Qed.

(** ** Trees of tables *)

(** [c p i] is the table entry [i] of table [p] points to, [D p] that [p] is a table.  The
    three levels under a root share no table. *)
Record tree (c : Z → Z → option Z) (D : Z → Prop) (root : Z) : Prop := {
  tree_root : D root;
  tree_dom : ∀ p i q, c p i = Some q → D p;
  tree_1 : ∀ i p, c root i = Some p → D p ∧ p ≠ root;
  tree_1_inj : ∀ i j p, c root i = Some p → c root j = Some p → i = j;
  tree_2 : ∀ i p j q, c root i = Some p → c p j = Some q →
    D q ∧ q ≠ root ∧ ∀ k, c root k ≠ Some q;
  tree_2_inj : ∀ i p j q i' p' j', c root i = Some p → c p j = Some q →
    c root i' = Some p' → c p' j' = Some q → p = p' ∧ j = j'
}.

(** Hanging a new table at entry [J] of [P], at the first or the second level. *)
Definition hang (c : Z → Z → option Z) (P J q : Z) : Z → Z → option Z := λ p j,
  if decide (p = P ∧ j = J) then Some q else if decide (p = q) then None else c p j.

Lemma hang_inv c P J q p j r :
  hang c P J q p j = Some r → (p = P ∧ j = J ∧ r = q) ∨ (p ≠ q ∧ ¬ (p = P ∧ j = J) ∧ c p j = Some r).
Proof. unfold hang. repeat case_decide; naive_solver. Qed.

Lemma tree_hang c D root P J q :
  tree c D root → c P J = None → ¬ D q → (P = root ∨ ∃ i, c root i = Some P) →
  tree (hang c P J q) (λ p, D p ∨ p = q) root.
Proof.
  intros T HP Hq HPr.
  assert (HDP : D P) by (destruct HPr as [->|[i Hi]]; [apply T|by eapply tree_1]).
  assert (H0 : ∀ i, c root i ≠ Some q) by (intros i E; by apply (tree_1 _ _ _ T) in E as [? _]).
  assert (H1 : ∀ i p j, c root i = Some p → c p j ≠ Some q)
    by (intros i p j E E'; by destruct (tree_2 _ _ _ T _ _ _ _ E E') as [? _]).
  assert (HPq : P ≠ q) by congruence.
  assert (Hqr : q ≠ root) by (intros ->; apply Hq, T).
  assert (Hself : ∀ i, c root i ≠ Some root) by (intros i E; by apply (tree_1 _ _ _ T) in E as [_ ?]).
  split.
  - left. apply T.
  - intros p i r [(-> & _)|(_ & _ & E)]%hang_inv; left; [done|by eapply tree_dom].
  - intros i p [(-> & _ & ->)|(_ & _ & E)]%hang_inv; [by split; [right|]|].
    apply (tree_1 _ _ _ T) in E. naive_solver.
  - intros i j p [(? & ? & ?)|(_ & _ & E)]%hang_inv [(? & ? & ?)|(_ & _ & E')]%hang_inv;
      subst; [done|by destruct (H0 j)|by destruct (H0 i)|by eapply tree_1_inj].
  - intros i p j r Hi%hang_inv Hj%hang_inv.
    destruct Hi as [(? & ? & ->)|(_ & _ & E)];
      [by destruct Hj as [(? & _)|(? & _)]|].
    destruct Hj as [(-> & -> & ->)|(_ & _ & E')].
    + split_and!; [by right|done|]. intros k [(? & _)|(_ & _ & Ek)]%hang_inv;
        [subst; by destruct (Hself i)|by destruct (H0 k)].
    + destruct (tree_2 _ _ _ T _ _ _ _ E E') as (? & ? & Hk). split_and!; [by left|done|].
      intros k [(_ & _ & ->)|(_ & _ & Ek)]%hang_inv; [done|by destruct (Hk k)].
  - intros i p j r i' p' j' Hi%hang_inv Hj%hang_inv Hi'%hang_inv Hj'%hang_inv.
    destruct Hi as [(? & ? & ->)|(_ & _ & E)];
      [by destruct Hj as [(? & _)|(? & _)]|].
    destruct Hi' as [(? & ? & ->)|(_ & _ & E')];
      [by destruct Hj' as [(? & _)|(? & _)]|].
    destruct Hj as [(? & ? & ?)|(_ & _ & F)], Hj' as [(? & ? & ?)|(_ & _ & F')]; subst;
      [done|by destruct (H1 _ _ _ E' F')|by destruct (H1 _ _ _ E F)|by eapply tree_2_inj].
Qed.

Lemma tree_ext c c' (D D' : Z → Prop) root :
  (∀ p i, c' p i = c p i) → (∀ p, D p → D' p) → tree c D root → tree c' D' root.
Proof.
  intros Hc HD [T0 Td T1 T1i T2 T2i]. split.
  - auto.
  - intros p i q. rewrite Hc. eauto.
  - intros i p. rewrite Hc. intros E. destruct (T1 i p E). auto.
  - intros i j p. rewrite !Hc. eauto.
  - intros i p j q. rewrite !Hc. intros E E'. destruct (T2 _ _ _ _ E E') as (? & ? & Hk).
    split_and!; auto. intros k. rewrite Hc. auto.
  - intros i p j q i' p' j'. rewrite !Hc. eauto.
Qed.

(** ** The tables in memory *)

Definition entry (m : gmap Z (list Z)) (p i : Z) : option Z := l ← m !! p; znth l i.

Definition child (m : gmap Z (list Z)) (p i : Z) : option Z :=
  e ← entry m p i; if Z.testbit e 0 then Some (PTE2PA e) else None.

(** The index of level [l] of an address. *)
Definition px (l va : Z) : Z := (va / 2 ^ (12 + 9 * l)) mod 512.

Definition leaf_table (m : gmap Z (list Z)) (root va : Z) : option Z :=
  t1 ← child m root (px 2 va); child m t1 (px 1 va).

(** The last-level entry of an address, 0 when there is no table for it. *)
Definition pte_of (m : gmap Z (list Z)) (root va : Z) : Z :=
  match leaf_table m root va with
  | Some t => default 0 (entry m t (px 0 va))
  | None => 0
  end.

Definition table_page (m : gmap Z (list Z)) (p : Z) : Prop :=
  page_addr p ∧ ∃ l, m !! p = Some l ∧ length l = 512%nat.

Definition pt_ok (m : gmap Z (list Z)) (root : Z) : Prop :=
  tree (child m) (table_page m) root.

Lemma px_range l va : 0 ≤ px l va < 512.
Proof. apply Z.mod_pos_bound. lia. Qed.

Lemma shiftr_px va l :
  0 ≤ va < 2 ^ 64 → 0 ≤ l →
  Z.land (Z.shiftr (Z.shiftr (u64 va) 12) (9 * l)) 0x1ff = px l va.
Proof.
  intros Hva Hl. rewrite u64_small by done. change 0x1ff with (Z.ones 9).
  rewrite Z.land_ones, Z.shiftr_shiftr, Z.shiftr_div_pow2 by lia. done.
Qed.

(** Addressing entry [i] of a table. *)
Lemma slot_addr p i :
  page_addr p → 0 ≤ i < 512 →
  (p + 8 * i) - (p + 8 * i) mod PGSIZE = p ∧ (p + 8 * i) mod PGSIZE / 8 = i.
Proof.
  intros [Ha _] Hi. unfold PGSIZE in *.
  assert (E : (p + 8 * i) mod 4096 = 8 * i).
  { rewrite <- Z.add_mod_idemp_l, Ha by lia. apply Z.mod_small. lia. }
  rewrite E. split; [lia|]. rewrite Z.mul_comm, Z.div_mul; lia.
Qed.

Lemma rd_slot s p i l :
  page_addr p → 0 ≤ i < 512 → pt_pages s !! p = Some l → length l = 512%nat →
  ∃ e, entry (pt_pages s) p i = Some e ∧ rd_pte (p + 8 * i) s = Ret (e, s).
Proof.
  intros Hp Hi Hl Hn. destruct (znth_lt l i) as [e He]; [unfold zlen; lia|].
  exists e. unfold entry. rewrite Hl. split; [done|].
  unfold rd_pte. destruct (slot_addr p i Hp Hi) as [E1 E2].
  munfold. rewrite E1, E2, Hl. cbn. by rewrite He.
Qed.

Lemma wr_slot s p i l v :
  page_addr p → 0 ≤ i < 512 → pt_pages s !! p = Some l → length l = 512%nat →
  ∃ l', zset l i (u64 v) = Some l' ∧ length l' = 512%nat ∧
    wr_pte (p + 8 * i) v s = Ret (tt, set_pt_pages (<[p := l']> (pt_pages s)) s).
Proof.
  intros Hp Hi Hl Hn. assert (∃ l', zset l i (u64 v) = Some l') as [l' Hl'].
  { unfold zset. rewrite decide_True by (unfold zlen; lia). eauto. }
  exists l'. split_and!; [done| |].
  - apply zset_length in Hl'. unfold zlen in Hl'. lia.
  - unfold wr_pte. destruct (slot_addr p i Hp Hi) as [E1 E2].
    munfold. rewrite E1, E2, Hl. cbn. by rewrite Hl'.
Qed.

Lemma entry_insert m p l q i :
  entry (<[p := l]> m) q i = if decide (q = p) then znth l i else entry m q i.
Proof.
  unfold entry. case_decide; [subst; by rewrite lookup_insert_eq|].
  by rewrite lookup_insert_ne.
Qed.

Lemma entry_zset m p l i v l' q j :
  m !! p = Some l → zset l i v = Some l' →
  entry (<[p := l']> m) q j = if decide (q = p ∧ j = i) then Some v else entry m q j.
Proof.
  intros Hl Hset. rewrite entry_insert. case_decide as Hq.
  - subst q. case_decide as Hj.
    + destruct Hj as [_ ->]. by eapply znth_zset_eq.
    + unfold entry. rewrite Hl. cbn. eapply znth_zset_ne; [|done]. naive_solver.
  - rewrite decide_False by naive_solver. done.
Qed.

Lemma child_entry m p i e :
  entry m p i = Some e → child m p i = if Z.testbit e 0 then Some (PTE2PA e) else None.
Proof. intros E. unfold child. by rewrite E. Qed.

Lemma walk_level_keep s p va shift alloc i :
  table_page (pt_pages s) p → Z.land (Z.shiftr va shift) 0x1ff = i → 0 ≤ i < 512 →
  (is_Some (child (pt_pages s) p i) ∨ alloc = false) →
  walk_level p va shift alloc s = Ret (child (pt_pages s) p i, s).
Proof.
  intros (Hp & l & Hl & Hn) Hi Hr Hcase. unfold walk_level. rewrite Hi.
  destruct (rd_slot s p i l Hp Hr Hl Hn) as (e & He & Hrd). mstep Hrd.
  rewrite land_V. rewrite (child_entry _ _ _ _ He) in *. destruct (Z.testbit e 0); cbn [negb]; [done|].
  destruct Hcase as [[? ?]| ->]; done.
Qed.

(** What a level of the walk that allocates does to the tables. *)
Record hung (m m' : gmap Z (list Z)) (P J q : Z) : Prop := {
  hung_child : ∀ p i, child m' p i = hang (child m) P J q p i;
  hung_page : ∀ p, table_page m p ∨ p = q → table_page m' p;
  hung_entry : ∀ p i, p ≠ P → p ≠ q → entry m' p i = entry m p i;
  hung_zero : ∀ i e, entry m' q i = Some e → e = 0;
  hung_other : ∀ p, p ≠ P → p ≠ q → m' !! p = m !! p
}.

Lemma zeros_lookup n i e : znth (replicate n (0 : Z)) i = Some e → e = 0.
Proof. intros [_ E]%znth_Some. by apply lookup_replicate in E as [-> _]. Qed.

Lemma kalloc_bytes_run s sz a fs :
  0 < sz ≤ MAX_BLOCK → frames s = a :: fs → kalloc_bytes sz s = Ret (a, set_frames fs s).
Proof.
  intros [H1 H2] Hfs. unfold kalloc_bytes, kalloc.
  rewrite (proj2 (Z.ltb_lt _ _) H1), (proj2 (Z.ltb_ge _ _) H2). munfold. cbn. by rewrite Hfs.
Qed.

Lemma walk_level_new s p va shift i q fs :
  table_page (pt_pages s) p → Z.land (Z.shiftr va shift) 0x1ff = i → 0 ≤ i < 512 →
  child (pt_pages s) p i = None → frames s = q :: fs → page_addr q → pt_pages s !! q = None →
  ∃ m', walk_level p va shift true s = Ret (Some q, set_pt_pages m' (set_frames fs s)) ∧
    hung (pt_pages s) m' p i q.
Proof.
  intros (Hp & l & Hl & Hn) Hi Hr Hnone Hfs Hq Hfresh.
  assert (Hpq : p ≠ q) by congruence.
  destruct (rd_slot s p i l Hp Hr Hl Hn) as (e & He & Hrd).
  rewrite (child_entry _ _ _ _ He) in Hnone.
  assert (Ht : Z.testbit e 0 = false) by (by destruct (Z.testbit e 0)). clear Hnone.
  destruct (entry_round q 0 Hq) as (Hb & Hv & Hback); [lia|].
  rewrite Z.lor_0_r in Hb, Hv, Hback.
  set (m1 := <[q := replicate 512 0]> (pt_pages s)).
  set (s1 := set_pt_pages m1 (set_frames fs s)).
  assert (Hl1 : pt_pages s1 !! p = Some l) by (change (m1 !! p = Some l); unfold m1; by rewrite lookup_insert_ne).
  destruct (wr_slot s1 p i l (PA2PTE q) Hp Hr Hl1 Hn) as (l1 & Hz1 & Hn1 & Hw1).
  set (s2 := set_pt_pages _ s1) in Hw1.
  assert (Hl2 : pt_pages s2 !! p = Some l1) by apply lookup_insert_eq.
  destruct (wr_slot s2 p i l1 (Z.lor (PA2PTE q) PTE_V) Hp Hr Hl2 Hn1) as (l2 & Hz2 & Hn2 & Hw2).
  exists (<[p := l2]> m1). split.
  - unfold walk_level. rewrite Hi. mstep Hrd. rewrite land_V, Ht. cbn [negb].
    assert (Ha : alloc_pagetable s = Ret (q, s1)).
    { unfold alloc_pagetable, kalloc. munfold. rewrite Hfs. cbn.
      rewrite (proj2 (Z.eqb_neq q 0)) by (destruct Hq; lia). done. }
    mstep Ha. mstep Hw1.
    rewrite (proj2 (Z.eqb_neq (PA2PTE q) 0)).
    2: { destruct Hq as [Hal Hrg]. rewrite PA2PTE_eq by lia. unfold PGSIZE in *.
         Z.div_mod_to_equations. lia. }
    cbn [negb]. mstep Hw2. rewrite Hback. cbn. unfold set_pt_pages. cbn.
    by rewrite insert_insert_eq.
  - rewrite u64_small in Hz2 by done.
    assert (Hent : ∀ r j, entry (<[p := l2]> m1) r j =
      if decide (r = p ∧ j = i) then Some (Z.lor (PA2PTE q) PTE_V) else entry m1 r j).
    { intros r j. rewrite entry_insert. case_decide as Hrp.
      - subst r. case_decide as Hj; [destruct Hj as [_ ->]; by eapply znth_zset_eq|].
        assert (Hij : i ≠ j) by naive_solver.
        rewrite (znth_zset_ne _ i j _ _ Hij Hz2), (znth_zset_ne _ i j _ _ Hij Hz1).
        unfold entry. change (pt_pages s1) with m1 in Hl1. by rewrite Hl1.
      - by rewrite decide_False by naive_solver. }
    assert (Hz : ∀ j e', entry (<[p := l2]> m1) q j = Some e' → e' = 0).
    { intros j e'. rewrite Hent, decide_False by naive_solver. unfold m1.
      rewrite entry_insert, decide_True by done. apply zeros_lookup. }
    split.
    + intros r j. unfold child, hang. rewrite Hent. case_decide.
      { cbn [mbind option_bind]. by rewrite Hv, Hback. }
      case_decide as Hrq.
      * subst r. destruct (entry m1 q j) as [e'|] eqn:Ee; [|done].
        unfold m1 in Ee. rewrite entry_insert, decide_True in Ee by done.
        apply zeros_lookup in Ee. by subst.
      * unfold m1. by rewrite entry_insert, decide_False.
    + intros r [(Hr' & lr & Hlr & Hnr)| ->].
      * split; [done|]. destruct (decide (r = p)) as [->|]; [exists l2; by rewrite lookup_insert_eq|].
        exists lr. rewrite lookup_insert_ne by done. unfold m1. rewrite lookup_insert_ne; [done|].
        congruence.
      * split; [done|]. exists (replicate 512 0). rewrite lookup_insert_ne by done.
        unfold m1. by rewrite lookup_insert_eq.
    + intros r j Hrp Hrq. rewrite Hent, decide_False by naive_solver.
      unfold m1. by rewrite entry_insert, decide_False.
    + exact Hz.
    + intros r Hrp Hrq. rewrite lookup_insert_ne by done. unfold m1. by rewrite lookup_insert_ne.
Qed.

Definition in_tree (m : gmap Z (list Z)) (root p : Z) : Prop :=
  p = root ∨ (∃ i, child m root i = Some p) ∨
  (∃ i t j, child m root i = Some t ∧ child m t j = Some p).

(** A leaf table is neither the root nor a table of the middle level. *)
Lemma leaf_table_inv m root va t :
  pt_ok m root → leaf_table m root va = Some t →
  ∃ t1, child m root (px 2 va) = Some t1 ∧ child m t1 (px 1 va) = Some t ∧
    table_page m t ∧ t ≠ root ∧ ∀ k, child m root k ≠ Some t.
Proof.
  intros T. unfold leaf_table. destruct (child m root (px 2 va)) as [t1|] eqn:E1; [|done].
  cbn. intros E2. exists t1. destruct (tree_2 _ _ _ T _ _ _ _ E1 E2) as (? & ? & ?). auto.
Qed.

Lemma hung_leaf m m' root P J q va :
  pt_ok m root → hung m m' P J q → child m P J = None → m !! q = None →
  (P = root ∨ ∃ i, child m root i = Some P) → pte_of m' root va = pte_of m root va.
Proof.
  intros T Hh HPJ Hq HP.
  assert (HDq : ¬ table_page m q) by (intros (_ & l & Hl & _); congruence).
  assert (Hc : ∀ p i r, child m p i = Some r → p ≠ q → child m' p i = Some r).
  { intros p i r E Hne. rewrite (hung_child _ _ _ _ _ Hh). unfold hang.
    rewrite decide_False by naive_solver congruence. by rewrite decide_False. }
  destruct (leaf_table m root va) as [t|] eqn:Et.
  - destruct (leaf_table_inv m root va t T Et) as (t1 & E1 & E2 & Ht & Htr & Htk).
    assert (Ht1 : t1 ≠ q) by (intros ->; by apply HDq, (tree_1 _ _ _ T _ _ E1)).
    assert (Hroot : root ≠ q) by (intros ->; apply HDq, T).
    unfold pte_of. rewrite Et. unfold leaf_table.
    rewrite (Hc _ _ _ E1 Hroot). cbn. rewrite (Hc _ _ _ E2 Ht1).
    rewrite (hung_entry _ _ _ _ _ Hh); [done| |by intros ->].
    intros ->. destruct HP as [->|[i Hi]]; [done|by apply (Htk i)].
  - unfold pte_of. rewrite Et. destruct (leaf_table m' root va) as [t|] eqn:Et'; [|done].
    assert (t = q) as ->.
    { unfold leaf_table in Et, Et'. rewrite (hung_child _ _ _ _ _ Hh) in Et'.
      destruct (hang (child m) P J q root (px 2 va)) as [t1|] eqn:E1; [|done]. cbn in Et'.
      rewrite (hung_child _ _ _ _ _ Hh) in Et'.
      apply hang_inv in E1 as [(-> & _ & ->)|(_ & _ & E1)];
        apply hang_inv in Et' as [(_ & _ & ->)|(? & _ & E2)]; [done..|].
      rewrite E1 in Et. cbn in Et. congruence. }
    destruct (entry m' q (px 0 va)) as [e|] eqn:Ee; [|done].
    by apply (hung_zero _ _ _ _ _ Hh) in Ee.
Qed.

Lemma hung_ok m m' root P J q :
  pt_ok m root → hung m m' P J q → child m P J = None → m !! q = None →
  (P = root ∨ ∃ i, child m root i = Some P) →
  pt_ok m' root ∧ ∀ p, in_tree m' root p → in_tree m root p ∨ p = q.
Proof.
  intros T Hh HPJ Hq HP.
  assert (HDq : ¬ table_page m q) by (intros (_ & l & Hl & _); congruence).
  pose proof (tree_hang _ _ _ _ _ _ T HPJ HDq HP) as T'. split.
  - eapply tree_ext; [|apply (hung_page _ _ _ _ _ Hh)|exact T']. intros. apply Hh.
  - intros p [->|[[i E]|(i & t & j & E & E')]]; [by left; left|..];
      rewrite (hung_child _ _ _ _ _ Hh) in *.
    + apply hang_inv in E as [(_ & _ & ->)|(_ & _ & E)]; [by right|left; right; left; eauto].
    + apply hang_inv in E' as [(_ & _ & ->)|(Ht & _ & E')]; [by right|].
      apply hang_inv in E as [(_ & _ & ->)|(_ & _ & E)]; [done|].
      left. right. right. eauto.
Qed.

(** The frames still to come are pages that are not tables yet. *)
Definition fresh_frames (s : vm) : Prop :=
  NoDup (frames s) ∧ ∀ f, f ∈ frames s → page_addr f ∧ pt_pages s !! f = None.

(** Growing the tree of a root by at most [n] tables, everything else alone. *)
Record grow (root : Z) (n : nat) (s s' : vm) : Prop := {
  grow_ok : pt_ok (pt_pages s') root;
  grow_frames : ∃ k, (k ≤ n)%nat ∧ frames s' = drop k (frames s);
  grow_fresh : fresh_frames s';
  grow_pmem : pmem s' = pmem s;
  grow_freed : freed s' = freed s;
  grow_other : ∀ p l, pt_pages s !! p = Some l → ¬ in_tree (pt_pages s) root p →
    pt_pages s' !! p = Some l;
  grow_tree : ∀ p, in_tree (pt_pages s') root p → in_tree (pt_pages s) root p ∨ p ∈ frames s
}.

Lemma grow_refl root s : pt_ok (pt_pages s) root → fresh_frames s → grow root 0 s s.
Proof. intros. split; try done; [by exists 0%nat|by left]. Qed.

Lemma grow_trans root n1 n2 s s1 s2 :
  fresh_frames s → grow root n1 s s1 → grow root n2 s1 s2 → grow root (n1 + n2) s s2.
Proof.
  intros [_ Hf] [ok1 (k1 & Hk1 & F1) fr1 pm1 fd1 ot1 tr1] [ok2 (k2 & Hk2 & F2) fr2 pm2 fd2 ot2 tr2].
  split; try congruence.
  - exists (k1 + k2)%nat. split; [lia|]. by rewrite F2, F1, drop_drop.
  - intros p l Hl Hn. apply ot2; [by apply ot1|]. intros Hin. apply tr1 in Hin as [?|Hin]; [done|].
    destruct (Hf p Hin). congruence.
  - intros p Hin. apply tr2 in Hin as [Hin|Hin]; [by apply tr1|]. right. rewrite F1 in Hin.
    rewrite <- (take_drop k1 (frames s)). apply elem_of_app. by right.
Qed.

Lemma grow_weaken root n n' s s' : (n ≤ n')%nat → grow root n s s' → grow root n' s s'.
Proof.
  intros Hn [ok (k & Hk & F) fr pm fd ot tr]. split; try done. exists k. split; [lia|done].
Qed.

(** One level: it finds or makes the next table. *)
Lemma walk_level_run s root P va shift i :
  pt_ok (pt_pages s) root → fresh_frames s → (1 ≤ length (frames s))%nat →
  (P = root ∨ ∃ i, child (pt_pages s) root i = Some P) →
  Z.land (Z.shiftr va shift) 0x1ff = i → 0 ≤ i < 512 →
  ∃ t s', walk_level P va shift true s = Ret (Some t, s') ∧
    child (pt_pages s') P i = Some t ∧ grow root 1 s s' ∧ pcnt s' = pcnt s ∧
    (∀ va', pte_of (pt_pages s') root va' = pte_of (pt_pages s) root va') ∧
    (∀ j r, child (pt_pages s) root j = Some r → child (pt_pages s') root j = Some r).
Proof.
  intros T Hf Hlen HP Hi Hr.
  assert (HD : table_page (pt_pages s) P)
    by (destruct HP as [->|[j Hj]]; [apply T|by eapply tree_1]).
  destruct (child (pt_pages s) P i) as [t|] eqn:Et.
  - exists t, s. split_and!; [|done| |done..].
    + rewrite <- Et. apply walk_level_keep; try done. left. by rewrite Et.
    + apply (grow_weaken _ 0); [lia|]. by apply grow_refl.
  - destruct (frames s) as [|q fs] eqn:Efs; [cbn in Hlen; lia|].
    destruct Hf as [Hnd Hfr]. rewrite Efs in Hnd, Hfr. apply NoDup_cons in Hnd as [Hqn Hnd].
    destruct (Hfr q) as [Hq Hqf]; [set_solver|].
    destruct (walk_level_new s P va shift i q fs) as (m' & Hrun & Hh); try done.
    exists q. eexists. split_and!; [exact Hrun|..].
    + cbn. rewrite (hung_child _ _ _ _ _ Hh). unfold hang. by rewrite decide_True.
    + destruct (hung_ok _ _ root _ _ _ T Hh Et Hqf HP) as [T' Htr]. split; cbn; try done.
      * exists 1%nat. by rewrite Efs.
      * split; [done|]. intros f Hin. destruct (Hfr f) as [? Hff]; [set_solver|].
        split; [done|]. rewrite (hung_other _ _ _ _ _ Hh); [done|..].
        -- intros ->. destruct HD as (_ & l & Hl & _). congruence.
        -- set_solver.
      * intros p l Hl Hn. rewrite (hung_other _ _ _ _ _ Hh); [done|..].
        -- intros ->. apply Hn. destruct HP as [->|?]; [by left|right; by left].
        -- intros ->. congruence.
      * intros p Hin. rewrite Efs. destruct (Htr p Hin) as [| ->]; [by left|right; set_solver].
    + done.
    + intros va'. by eapply hung_leaf.
    + intros j r Hj. cbn. rewrite (hung_child _ _ _ _ _ Hh). unfold hang.
      rewrite decide_False by naive_solver congruence. rewrite decide_False; [done|].
      intros ->. destruct (tree_root _ _ _ T) as (_ & l & Hl & _). congruence.
Qed.

Lemma walk_run s root va :
  pt_ok (pt_pages s) root → fresh_frames s → (2 ≤ length (frames s))%nat → 0 ≤ va < 2 ^ 64 →
  ∃ t s', walk root va true s = Ret (t + 8 * px 0 va, s') ∧
    leaf_table (pt_pages s') root va = Some t ∧ grow root 2 s s' ∧ pcnt s' = pcnt s ∧
    (∀ va', pte_of (pt_pages s') root va' = pte_of (pt_pages s) root va').
Proof.
  intros T Hf Hlen Hva.
  destruct (walk_level_run s root root (Z.shiftr (u64 va) 12) 18 (px 2 va))
    as (t1 & s1 & Hw1 & Hc1 & Hg1 & Hp1 & He1 & _);
    [done|done|lia|by left|by apply (shiftr_px va 2)|apply px_range|].
  pose proof (grow_frames _ _ _ _ Hg1) as (k & Hk & Hfr).
  destruct (walk_level_run s1 root t1 (Z.shiftr (u64 va) 12) 9 (px 1 va))
    as (t0 & s2 & Hw2 & Hc2 & Hg2 & Hp2 & He2 & Hkeep);
    [apply Hg1|apply Hg1|rewrite Hfr, length_drop; lia|right; by eexists
    |by apply (shiftr_px va 1)|apply px_range|].
  exists t0, s2. split_and!.
  - unfold walk. mstep Hw1. mstep Hw2.
    pose proof (shiftr_px va 0 Hva) as E0. rewrite Z.shiftr_0_r in E0. by rewrite E0.
  - unfold leaf_table. rewrite (Hkeep _ _ Hc1). done.
  - by apply (grow_trans root 1 1 s s1 s2).
  - congruence.
  - intros va'. by rewrite He2, He1.
Qed.

(** Without allocation the walk finds the entry's address or NULL. *)
Lemma walk_noalloc s root va :
  pt_ok (pt_pages s) root → 0 ≤ va < 2 ^ 64 →
  walk root va false s =
    Ret (match leaf_table (pt_pages s) root va with
         | Some t => t + 8 * px 0 va | None => 0 end, s).
Proof.
  intros T Hva. unfold walk, leaf_table.
  assert (Hw1 := walk_level_keep s root (Z.shiftr (u64 va) 12) 18 false (px 2 va)
    (tree_root _ _ _ T) (shiftr_px va 2 Hva ltac:(lia)) (px_range _ _) (or_intror eq_refl)).
  mstep Hw1. destruct (child (pt_pages s) root (px 2 va)) as [t1|] eqn:E1; [|done].
  assert (Hw2 := walk_level_keep s t1 (Z.shiftr (u64 va) 12) 9 false (px 1 va)
    (proj1 (tree_1 _ _ _ T _ _ E1)) (shiftr_px va 1 Hva ltac:(lia)) (px_range _ _)
    (or_intror eq_refl)).
  mstep Hw2. cbn. destruct (child (pt_pages s) t1 (px 1 va)); [|done].
  pose proof (shiftr_px va 0 Hva) as E0. rewrite Z.shiftr_0_r in E0. by rewrite E0.
Qed.

(** ** Writing an entry *)

Lemma tree_leaf c c' (D D' : Z → Prop) root t :
  tree c D root → t ≠ root → (∀ k, c root k ≠ Some t) → D t →
  (∀ p i, p ≠ t → c' p i = c p i) → (∀ p, D p → D' p) → tree c' D' root.
Proof.
  intros [T0 Td T1 T1i T2 T2i] Htr Htk Ht Hc HD.
  assert (Hr : ∀ i, c' root i = c root i) by (intros; apply Hc; congruence).
  assert (Hm : ∀ i p j, c root i = Some p → c' p j = c p j)
    by (intros i p j E; apply Hc; intros ->; by destruct (Htk i)).
  split.
  - auto.
  - intros p i q E. destruct (decide (p = t)) as [->|]; [auto|]. rewrite Hc in E by done. eauto.
  - intros i p. rewrite Hr. intros E. destruct (T1 i p E). auto.
  - intros i j p. rewrite !Hr. eauto.
  - intros i p j q. rewrite Hr. intros E. rewrite (Hm _ _ _ E). intros E'.
    destruct (T2 _ _ _ _ E E') as (? & ? & Hk). split_and!; auto. intros k. rewrite Hr. auto.
  - intros i p j q i' p' j'. rewrite !Hr. intros E. rewrite (Hm _ _ _ E). intros E' F.
    rewrite (Hm _ _ _ F). eauto.
Qed.

(** Two addresses with the same entry. *)
Definition same_slot (va va' : Z) : Prop :=
  px 2 va' = px 2 va ∧ px 1 va' = px 1 va ∧ px 0 va' = px 0 va.
#[local] Instance same_slot_dec va va' : Decision (same_slot va va').
Proof. unfold same_slot. apply _. Defined.

Lemma leaf_write s root va t v :
  pt_ok (pt_pages s) root → fresh_frames s → leaf_table (pt_pages s) root va = Some t →
  ∃ s', wr_pte (t + 8 * px 0 va) v s = Ret (tt, s') ∧ grow root 0 s s' ∧ pcnt s' = pcnt s ∧
    (∀ va', leaf_table (pt_pages s') root va' = leaf_table (pt_pages s) root va') ∧
    (∀ va', pte_of (pt_pages s') root va' =
       if decide (same_slot va va') then u64 v else pte_of (pt_pages s) root va').
Proof.
  intros T Hf Et. destruct (leaf_table_inv _ _ _ _ T Et) as (t1 & E1 & E2 & Ht & Htr & Htk).
  destruct Ht as (Hpa & l & Hl & Hn).
  destruct (wr_slot s t (px 0 va) l v Hpa (px_range _ _) Hl Hn) as (l' & Hz & Hn' & Hw).
  set (m' := <[t := l']> (pt_pages s)) in *.
  assert (Hent : ∀ p i, entry m' p i =
    if decide (p = t ∧ i = px 0 va) then Some (u64 v) else entry (pt_pages s) p i)
    by (intros; by eapply entry_zset).
  assert (Hc : ∀ p i, p ≠ t → child m' p i = child (pt_pages s) p i).
  { intros p i Hne. unfold child. by rewrite Hent, decide_False by naive_solver. }
  assert (Hpage : ∀ p, table_page (pt_pages s) p → table_page m' p).
  { intros p (? & lp & Hlp & ?). split; [done|]. unfold m'.
    destruct (decide (p = t)) as [->|]; [exists l'; by rewrite lookup_insert_eq|].
    exists lp. by rewrite lookup_insert_ne. }
  assert (Hr : ∀ i, child m' root i = child (pt_pages s) root i) by (intros; apply Hc; congruence).
  assert (Hm : ∀ i p j, child (pt_pages s) root i = Some p → child m' p j = child (pt_pages s) p j)
    by (intros i p j E; apply Hc; intros ->; by destruct (Htk i)).
  assert (Hleaf : ∀ va', leaf_table m' root va' = leaf_table (pt_pages s) root va').
  { intros va'. unfold leaf_table. rewrite Hr.
    destruct (child (pt_pages s) root (px 2 va')) as [p|] eqn:Ep; [|done]. cbn. by eapply Hm. }
  eexists. split_and!; [exact Hw| |done|exact Hleaf|].
  - split; cbn; try done.
    + eapply tree_leaf; try done. by split; [|exists l].
    + by exists 0%nat.
    + destruct Hf as [Hnd Hfr]. split; [done|]. intros f Hin. destruct (Hfr f Hin). split; [done|].
      cbn. unfold m'. rewrite lookup_insert_ne; [done|]. congruence.
    + intros p lp Hlp Hnot. unfold m'. rewrite lookup_insert_ne; [done|]. intros <-. apply Hnot.
      right. right. eauto.
    + intros p Hin. left. destruct Hin as [->|[[i E]|(i & q & j & E & E')]]; [by left|..].
      * right. left. exists i. by rewrite <- Hr.
      * rewrite Hr in E. rewrite (Hm _ _ _ E) in E'. right. right. eauto.
  - intros va'. unfold pte_of. cbn. rewrite Hleaf.
    destruct (leaf_table (pt_pages s) root va') as [t'|] eqn:Et'.
    + rewrite Hent. destruct (decide (t' = t)) as [->|Hne].
      * destruct (leaf_table_inv _ _ _ _ T Et') as (t1' & E1' & E2' & _).
        destruct (tree_2_inj _ _ _ T _ _ _ _ _ _ _ E1 E2 E1' E2') as [<- H1].
        pose proof (tree_1_inj _ _ _ T _ _ _ E1 E1') as H2.
        unfold same_slot. repeat case_decide; naive_solver.
      * rewrite decide_False by naive_solver. rewrite decide_False; [done|].
        intros (H2 & H1 & _). unfold leaf_table in Et, Et'. rewrite H2, E1 in Et'.
        cbn in Et'. rewrite H1, E2 in Et'. congruence.
    + rewrite decide_False; [done|]. intros (H2 & H1 & _).
      unfold leaf_table in Et'. rewrite H2, E1 in Et'. cbn in Et'. rewrite H1, E2 in Et'. done.
Qed.

(** ** Page numbers *)

Lemma px_vpn l va : 0 ≤ l → px l va = (va / PGSIZE / 2 ^ (9 * l)) mod 512.
Proof.
  intros. unfold px, PGSIZE. rewrite Z.pow_add_r, <- Z.div_div by lia. done.
Qed.

Lemma same_slot_iff va va' :
  0 ≤ va < 2 ^ 39 → 0 ≤ va' < 2 ^ 39 → same_slot va va' ↔ va' / PGSIZE = va / PGSIZE.
Proof.
  intros Hva Hva'. unfold same_slot. rewrite !px_vpn by lia. split.
  - set (a := va / PGSIZE). set (b := va' / PGSIZE).
    assert (0 ≤ a < 2 ^ 27) by (subst a; unfold PGSIZE; Z.div_mod_to_equations; lia).
    assert (0 ≤ b < 2 ^ 27) by (subst b; unfold PGSIZE; Z.div_mod_to_equations; lia).
    change (2 ^ (9 * 2)) with (512 * 512). change (2 ^ (9 * 1)) with 512.
    change (2 ^ (9 * 0)) with 1. rewrite !Z.div_1_r, <- !Z.div_div by lia.
    intros (E2 & E1 & E0).
    pose proof (Z.div_mod a 512). pose proof (Z.div_mod b 512).
    pose proof (Z.div_mod (a / 512) 512). pose proof (Z.div_mod (b / 512) 512).
    rewrite (Z.mod_small (a / 512 / 512)), (Z.mod_small (b / 512 / 512)) in E2
      by (Z.div_mod_to_equations; lia). lia.
  - intros ->. done.
Qed.

(** The next page in the same leaf table. *)
Lemma px_next va :
  0 ≤ va → px 0 va ≠ 511 →
  px 0 (va + PGSIZE) = px 0 va + 1 ∧ px 1 (va + PGSIZE) = px 1 va ∧
  px 2 (va + PGSIZE) = px 2 va.
Proof.
  intros Hva Hne. rewrite !px_vpn in * by lia.
  replace ((va + PGSIZE) / PGSIZE) with (va / PGSIZE + 1)
    by (unfold PGSIZE; Z.div_mod_to_equations; lia).
  set (a := va / PGSIZE) in *. change (2 ^ (9 * 0)) with 1 in *. rewrite !Z.div_1_r in *.
  change (2 ^ (9 * 2)) with (512 * 512). change (2 ^ (9 * 1)) with 512.
  rewrite <- !Z.div_div by lia.
  replace ((a + 1) / 512) with (a / 512) by (Z.div_mod_to_equations; lia).
  split_and!; [Z.div_mod_to_equations; lia|done..].
Qed.

Lemma slot_end_aligned t va :
  page_addr t → IS_PGALIGNED (t + 8 * px 0 va + 8) = (px 0 va =? 511).
Proof.
  intros [Ha Hb]. pose proof (px_range 0 va). set (i := px 0 va) in *. clearbody i.
  apply eq_true_iff_eq. rewrite IS_PGALIGNED_iff by lia. rewrite Z.eqb_eq.
  unfold PGSIZE in *. replace (t + 8 * i + 8) with (t + (8 * i + 8)) by lia.
  rewrite <- Z.add_mod_idemp_l, Ha by lia. cbn [Z.add]. split.
  - intros E. Z.div_mod_to_equations. lia.
  - intros ->. done.
Qed.

(** ** [mappages] *)

Definition counted (pa : Z) : bool := negb ((pa <? pages) || (PHYSTOP <? pa)).

(** The reference counts after one and after [n] consecutive pages were mapped. *)
Definition ref_inc (pa : Z) (c : gmap Z Z) : gmap Z Z :=
  if counted pa then alter (λ x, u8 (x + 1)) (GET_PAGE pa) c else c.
Fixpoint ref_incs (n : nat) (pa : Z) (c : gmap Z Z) : gmap Z Z :=
  match n with O => c | S n => ref_incs n (pa + PGSIZE) (ref_inc pa c) end.

(** The array [pages] has an entry for every page counted. *)
Definition covers (c : gmap Z Z) (n : nat) (pa : Z) : Prop :=
  ∀ j, 0 ≤ j < Z.of_nat n → counted (pa + j * PGSIZE) = true →
    is_Some (c !! GET_PAGE (pa + j * PGSIZE)).

Lemma page_ref_inc_run s pa :
  (counted pa = true → is_Some (pcnt s !! GET_PAGE pa)) →
  ∃ r, page_ref_inc pa s = Ret (r, set_pcnt (ref_inc pa (pcnt s)) s).
Proof.
  intros Hc. unfold page_ref_inc, ref_inc, counted in *.
  destruct ((pa <? pages) || (PHYSTOP <? pa)); cbn [negb].
  - exists (-1). by destruct s.
  - destruct Hc as [x Hx]; [done|]. exists x. munfold. rewrite Hx. f_equal. f_equal.
    unfold set_pcnt. f_equal. apply map_eq. intros k.
    destruct (decide (k = GET_PAGE pa)) as [->|].
    + by rewrite lookup_insert_eq, lookup_alter_eq, Hx.
    + by rewrite lookup_insert_ne, lookup_alter_ne.
Qed.

Lemma covers_next c n pa : covers c (S n) pa → covers (ref_inc pa c) n (pa + PGSIZE).
Proof.
  intros Hc j Hj Hin. replace (pa + PGSIZE + j * PGSIZE) with (pa + (j + 1) * PGSIZE) in * by lia.
  destruct (Hc (j + 1)) as [x Hx]; [lia|done|]. unfold ref_inc. destruct (counted pa); [|by exists x].
  destruct (decide (GET_PAGE (pa + (j + 1) * PGSIZE) = GET_PAGE pa)) as [E|].
  - rewrite E in *. rewrite lookup_alter_eq, Hx. by eexists.
  - rewrite lookup_alter_ne by done. by exists x.
Qed.

Definition mapped_entry (pa flags : Z) : Z := Z.lor (Z.lor (PA2PTE pa) flags) PTE_V.

Lemma grow_set_pcnt root s c :
  pt_ok (pt_pages s) root → fresh_frames s → grow root 0 s (set_pcnt c s).
Proof. intros. split; try done; [by exists 0%nat|by left]. Qed.

(** What the first [n] pages from [va] hold after mapping, and the rest. *)
Definition remapped (root : Z) (n : nat) (va pa flags : Z) (m m' : gmap Z (list Z)) : Prop :=
  ∀ va', 0 ≤ va' < 2 ^ 39 → pte_of m' root va' =
    if decide (0 ≤ va' / PGSIZE - va / PGSIZE < Z.of_nat n)
    then mapped_entry (pa + (va' / PGSIZE - va / PGSIZE) * PGSIZE) flags
    else pte_of m root va'.

Lemma mapped_entry_small pa flags :
  0 ≤ pa < 2 ^ 64 → 0 ≤ flags < 2 ^ 10 → u64 (mapped_entry pa flags) = mapped_entry pa flags.
Proof.
  intros Hpa Hf. unfold mapped_entry. rewrite <- Z.lor_assoc.
  destruct (entry_value pa (Z.lor flags PTE_V)) as [E Hr]; [done|by apply lor_flag_V|].
  rewrite E. apply u64_small. lia.
Qed.

Section map_range.
Context (root va pa flags : Z).
Hypothesis Hva : 0 ≤ va.
Hypothesis Hpa : 0 ≤ pa.
Hypothesis Hflags : 0 ≤ flags < 2 ^ 10.

(** One turn of the loop: the entry of page [k] is written and its page counted, and the
    pointer moves to the entry of the next page, in a new leaf table where one ends. *)
Lemma map_step n k s t :
  0 ≤ k → (k + 1) * PGSIZE < 2 ^ 31 →
  va + (k + 1) * PGSIZE < 2 ^ 39 → pa + (k + 1) * PGSIZE < 2 ^ 56 →
  pt_ok (pt_pages s) root → fresh_frames s → (2 ≤ length (frames s))%nat →
  (counted (pa + k * PGSIZE) = true → is_Some (pcnt s !! GET_PAGE (pa + k * PGSIZE))) →
  leaf_table (pt_pages s) root (va + k * PGSIZE) = Some t →
  ∃ t' s', grow root 2 s s' ∧ pcnt s' = ref_inc (pa + k * PGSIZE) (pcnt s) ∧
    leaf_table (pt_pages s') root (va + (k + 1) * PGSIZE) = Some t' ∧
    (∀ va', pte_of (pt_pages s') root va' = if decide (same_slot (va + k * PGSIZE) va')
       then mapped_entry (pa + k * PGSIZE) flags else pte_of (pt_pages s) root va') ∧
    map_loop (S n) root va (pa + k * PGSIZE) flags (t + 8 * px 0 (va + k * PGSIZE)) k s =
      map_loop n root va (pa + (k + 1) * PGSIZE) flags
        (t' + 8 * px 0 (va + (k + 1) * PGSIZE)) (k + 1) s'.
Proof.
  intros Hk Hib Hvb Hpb T Hfr Hlen Hcov Ht. unfold PGSIZE in *.
  set (va0 := va + k * 4096) in *. set (pa0 := pa + k * 4096) in *.
  destruct (leaf_write s root va0 t (mapped_entry pa0 flags) T Hfr Ht)
    as (s1 & Hw & Hg1 & Hc1 & Hl1 & He1).
  rewrite mapped_entry_small in He1 by (subst pa0; lia).
  destruct (page_ref_inc_run s1 pa0) as (r & Hinc); [by rewrite Hc1|].
  set (s2 := set_pcnt (ref_inc pa0 (pcnt s1)) s1) in *.
  assert (Hg2 : grow root 0 s s2).
  { apply (grow_trans root 0 0 s s1 s2 Hfr Hg1). apply grow_set_pcnt; apply Hg1. }
  assert (Hc2 : pcnt s2 = ref_inc pa0 (pcnt s)) by (cbn; by rewrite Hc1).
  destruct (leaf_table_inv _ _ _ _ T Ht) as (_ & _ & _ & [Htp _] & _).
  assert (Hstep : map_loop (S n) root va pa0 flags (t + 8 * px 0 va0) k s =
    (if px 0 va0 =? 511 then
       (pte ← walk root (va0 + 4096) true;
        massert (ctrue pte);; map_loop n root va (pa + (k + 1) * 4096) flags pte (k + 1))
     else map_loop n root va (pa + (k + 1) * 4096) flags (t + 8 * px 0 va0 + 8) (k + 1)) s2).
  { cbn [map_loop]. fold (mapped_entry pa0 flags). mstep Hw. mstep Hinc.
    rewrite slot_end_aligned by done. unfold PGSIZE.
    replace (u64 (pa0 + 4096)) with (pa + (k + 1) * 4096)
      by (rewrite u64_small; subst pa0; lia).
    rewrite (i32_small ((k + 1) * 4096)) by lia.
    by replace (u64 (va + (k + 1) * 4096)) with (va0 + 4096)
      by (rewrite u64_small; subst va0; lia). }
  replace (va + (k + 1) * 4096) with (va0 + PGSIZE) by (subst va0; unfold PGSIZE; lia).
  destruct (Z.eqb_spec (px 0 va0) 511) as [E511|E511].
  - destruct (walk_run s2 root (va0 + PGSIZE)) as (t' & s3 & Hwalk & Hlf & Hg3 & Hp3 & He3);
      [apply Hg2|apply Hg2| |unfold PGSIZE; lia|].
    { by destruct (grow_frames _ _ _ _ Hg2) as (j & ? & ->); replace j with 0%nat by lia. }
    exists t', s3. split_and!; [|congruence|done| |].
    + by apply (grow_trans root 0 2 s s2 s3).
    + intros va'. by rewrite He3, <- He1.
    + rewrite Hstep. mstep Hwalk. pose proof (px_range 0 (va0 + PGSIZE)).
      destruct (leaf_table_inv _ _ _ _ (grow_ok _ _ _ _ Hg3) Hlf) as (_ & _ & _ & [[_ ?] _] & _).
      unfold ctrue. by rewrite (proj2 (Z.eqb_neq _ 0)) by lia.
  - destruct (px_next va0) as (P0 & P1 & P2); [lia|done|].
    exists t, s2. split_and!; [by apply (grow_weaken _ 0); [lia|]|done| |done|].
    + change (pt_pages s2) with (pt_pages s1). rewrite Hl1. unfold leaf_table. by rewrite P2, P1.
    + rewrite Hstep, P0. f_equal. lia.
Qed.

Lemma map_loop_run n : ∀ k s t,
  0 ≤ k → (k + Z.of_nat n) * PGSIZE < 2 ^ 31 →
  va + (k + Z.of_nat n) * PGSIZE < 2 ^ 39 → pa + (k + Z.of_nat n) * PGSIZE < 2 ^ 56 →
  pt_ok (pt_pages s) root → fresh_frames s → (2 * n ≤ length (frames s))%nat →
  covers (pcnt s) n (pa + k * PGSIZE) →
  leaf_table (pt_pages s) root (va + k * PGSIZE) = Some t →
  ∃ s', map_loop n root va (pa + k * PGSIZE) flags (t + 8 * px 0 (va + k * PGSIZE)) k s = Ret (tt, s') ∧
    grow root (2 * n) s s' ∧ pcnt s' = ref_incs n (pa + k * PGSIZE) (pcnt s) ∧
    remapped root n (va + k * PGSIZE) (pa + k * PGSIZE) flags (pt_pages s) (pt_pages s').
Proof.
  induction n as [|n IH]; intros k s t Hk Hib Hvb Hpb T Hfr Hlen Hcov Ht.
  { exists s. split_and!; [done|by apply grow_refl|done|].
    intros va' _. by rewrite decide_False by lia. }
  destruct (map_step n k s t) as (t' & s1 & Hg1 & Hc1 & Ht1 & He1 & Hrun);
    try (done || (unfold PGSIZE in *; lia)); [|].
  { specialize (Hcov 0). rewrite Z.mul_0_l, Z.add_0_r in Hcov. apply Hcov. lia. }
  destruct (grow_frames _ _ _ _ Hg1) as (j & Hj & Hfj).
  replace (pa + (k + 1) * PGSIZE) with (pa + k * PGSIZE + PGSIZE) in * by lia.
  destruct (IH (k + 1) s1 t') as (s' & Hloop & Hg' & Hp' & Hre); try lia; try apply Hg1.
  { rewrite Hfj, length_drop. lia. }
  { replace (pa + (k + 1) * PGSIZE) with (pa + k * PGSIZE + PGSIZE) by lia.
    rewrite Hc1. by apply covers_next. }
  { done. }
  replace (pa + (k + 1) * PGSIZE) with (pa + k * PGSIZE + PGSIZE) in * by lia.
  exists s'. split_and!.
  - by rewrite Hrun.
  - replace (2 * S n)%nat with (2 + 2 * n)%nat by lia. by apply (grow_trans root 2 (2 * n) s s1 s').
  - by rewrite Hp', Hc1.
  - intros va' Hva'. rewrite Hre, He1 by done. unfold PGSIZE in *.
    set (va0 := va + k * 4096) in *. set (pa0 := pa + k * 4096) in *.
    replace ((va + (k + 1) * 4096) / 4096) with (va0 / 4096 + 1)
      by (replace (va + (k + 1) * 4096) with (va0 + 1 * 4096) by (subst va0; lia);
          by rewrite Z.div_add by lia).
    pose proof (same_slot_iff va0 va') as Hs. unfold PGSIZE in Hs.
    set (d := va' / 4096 - va0 / 4096).
    replace (va' / 4096 - (va0 / 4096 + 1)) with (d - 1) by lia.
    destruct (decide (0 ≤ d - 1 < Z.of_nat n)), (decide (0 ≤ d < Z.of_nat (S n))),
      (decide (same_slot va0 va')) as [Hin|Hin]; try lia; try done;
      try (f_equal; lia); try (apply Hs in Hin; lia).
    destruct Hin. apply Hs; lia.
Qed.
End map_range.

(** [mappages] on page-aligned addresses maps [(sz - 1)] rounded up to pages. *)
Lemma map_npages_eq va sz :
  0 ≤ va → va mod PGSIZE = 0 → 0 < sz → va + sz < 2 ^ 39 →
  map_npages va sz = (sz - 1 + PGOFFMASK) / PGSIZE.
Proof.
  intros Hva Hal Hsz Hb. unfold map_npages, PGSHIFT.
  rewrite PGROUNDDOWN_eq by lia. rewrite (u64_small (va + sz - 1)) by lia.
  rewrite PGROUNDUP_eq by (unfold PGOFFMASK; lia). unfold PGOFFMASK, PGSIZE in *.
  rewrite Hal, Z.shiftr_div_pow2 by lia. change (2 ^ 12) with 4096.
  rewrite u64_small by (Z.div_mod_to_equations; lia).
  rewrite i32_small by (Z.div_mod_to_equations; lia). Z.div_mod_to_equations. lia.
Qed.

(** The whole of [mappages], in terms of entries. *)
Lemma mappages_run s root va pa sz flags :
  pt_ok (pt_pages s) root → fresh_frames s →
  0 ≤ va → va mod PGSIZE = 0 → 0 < sz → sz + PGSIZE ≤ 2 ^ 31 → va + sz < MAXVA →
  0 ≤ pa → pa + sz + PGSIZE < 2 ^ 56 → 0 ≤ flags < 2 ^ 10 →
  let n := Z.to_nat ((sz - 1 + PGOFFMASK) / PGSIZE) in
  (2 * n + 2 ≤ length (frames s))%nat → covers (pcnt s) n pa →
  ∃ s', mappages root va pa sz flags s = Ret (tt, s') ∧ grow root (2 * n + 2) s s' ∧
    pcnt s' = ref_incs n pa (pcnt s) ∧
    remapped root n va pa flags (pt_pages s) (pt_pages s').
Proof.
  intros T Hfr Hva Hal Hsz Hib Hvb Hpa Hpb Hf n Hlen Hcov. unfold MAXVA in *.
  assert (Hn : map_npages va sz = Z.of_nat n).
  { subst n. rewrite map_npages_eq by lia. unfold PGSIZE, PGOFFMASK.
    rewrite Z2Nat.id; [done|]. Z.div_mod_to_equations. lia. }
  assert (Hnb : Z.of_nat n * PGSIZE < sz + PGSIZE).
  { rewrite <- Hn, map_npages_eq by lia. unfold PGSIZE, PGOFFMASK. Z.div_mod_to_equations. lia. }
  destruct (walk_run s root va) as (t & s1 & Hw & Ht & Hg1 & Hp1 & He1);
    [done|done|lia|lia|].
  destruct (grow_frames _ _ _ _ Hg1) as (j & Hj & Hfj).
  destruct (map_loop_run root va pa flags Hva Hpa Hf n 0 s1 t)
    as (s' & Hrun & Hg2 & Hp2 & Hre);
    rewrite ?Z.mul_0_l, ?Z.add_0_r, ?Hp1 in *; try done;
    try (unfold PGSIZE in *; lia); try (rewrite Hfj, length_drop; lia); try apply Hg1.
  exists s'. split_and!; [| |done|].
  - unfold mappages. mstep Hw.
    destruct (leaf_table_inv _ _ _ _ (grow_ok _ _ _ _ Hg1) Ht) as (_ & _ & _ & [[_ ?] _] & _).
    pose proof (px_range 0 va). unfold ctrue. rewrite (proj2 (Z.eqb_neq _ 0)) by lia.
    rewrite Hn, Nat2Z.id. exact Hrun.
  - rewrite Nat.add_comm. by apply (grow_trans root 2 (2 * n) s s1 s').
  - intros va' Hva'. rewrite Hre by done. by rewrite He1.
Qed.

(** ** Translation *)

(** The physical address of a user address, 0 when its entry has neither flag. *)
Definition translate (m : gmap Z (list Z)) (root va : Z) : Z :=
  let e := pte_of m root va in
  if Z.land e (Z.lor PTE_V PTE_U) =? 0 then 0
  else Z.lor (PTE2PA e) (Z.land va (PGSIZE - 1)).

Lemma walkaddr_run s root va :
  pt_ok (pt_pages s) root → root ≠ kernel_pagetable → 0 ≤ va < MAXVA →
  walkaddr root va s = Ret (translate (pt_pages s) root va, s).
Proof.
  intros T Hk Hva. unfold walkaddr, MAXVA in *.
  rewrite (proj2 (Z.leb_gt _ _)), (proj2 (Z.eqb_neq root _)) by (done || lia).
  assert (Hw := walk_noalloc s root va T ltac:(lia)). mstep Hw.
  unfold translate, pte_of, CHECK_PTE.
  destruct (leaf_table (pt_pages s) root va) as [t|] eqn:Et; [|done].
  destruct (leaf_table_inv _ _ _ _ T Et) as (_ & _ & _ & (Hpa & l & Hl & Hn) & _).
  pose proof (px_range 0 va) as Hpx.
  destruct (rd_slot s t (px 0 va) l Hpa Hpx Hl Hn) as (e & He & Hrd). rewrite He. cbn [default].
  rewrite (proj2 (Z.eqb_neq (_ + _) 0)) by (destruct Hpa; lia).
  munfold. rewrite Hrd. cbn.
  destruct (Z.land e (Z.lor PTE_V PTE_U) =? 0); cbn [negb]; [done|]. by rewrite Hrd.
Qed.

Lemma translate_mapped va off pa flags :
  page_addr pa → 0 ≤ flags < 2 ^ 10 → off = va mod PGSIZE →
  let e := mapped_entry pa flags in
  (if Z.land e (Z.lor PTE_V PTE_U) =? 0 then 0
   else Z.lor (PTE2PA e) (Z.land va (PGSIZE - 1))) = pa + off.
Proof.
  intros Hpa Hf -> e. destruct (entry_round pa flags Hpa Hf) as (_ & Ht & Hback).
  fold (mapped_entry pa flags) in Ht, Hback. fold e in Ht, Hback. rewrite Hback.
  destruct (Z.eqb_spec (Z.land e (Z.lor PTE_V PTE_U)) 0) as [E|_].
  { apply (f_equal (λ x, Z.testbit x 0)) in E. rewrite Z.land_spec, Ht in E. done. }
  unfold PGSIZE in *. change (4096 - 1) with (Z.ones 12). rewrite Z.land_ones by lia.
  destruct Hpa as [Hal Hr]. unfold PGSIZE in Hal. change (2 ^ 12) with 4096.
  rewrite Z.lor_comm. replace pa with (pa / 4096 * 2 ^ 12) at 1 by (Z.div_mod_to_equations; lia).
  rewrite lor_high by (apply Z.mod_pos_bound || idtac; lia). Z.div_mod_to_equations. lia.
Qed.

(** The same in terms of translation. *)
Lemma mappages_translate s root va pa sz flags :
  pt_ok (pt_pages s) root → fresh_frames s →
  0 ≤ va → va mod PGSIZE = 0 → 0 < sz → sz + PGSIZE ≤ 2 ^ 31 → va + sz < MAXVA →
  page_addr pa → pa + sz + PGSIZE < 2 ^ 56 → 0 ≤ flags < 2 ^ 10 →
  let n := Z.to_nat ((sz - 1 + PGOFFMASK) / PGSIZE) in
  (2 * n + 2 ≤ length (frames s))%nat → covers (pcnt s) n pa →
  ∃ s', mappages root va pa sz flags s = Ret (tt, s') ∧ grow root (2 * n + 2) s s' ∧
    pcnt s' = ref_incs n pa (pcnt s) ∧
    ∀ va', 0 ≤ va' < MAXVA → translate (pt_pages s') root va' =
      if decide (va ≤ va' < va + Z.of_nat n * PGSIZE)
      then pa + (va' - va) else translate (pt_pages s) root va'.
Proof.
  intros T Hfr Hva Hal Hsz Hib Hvb Hpa Hpb Hf n Hlen Hcov.
  destruct (mappages_run s root va pa sz flags) as (s' & Hrun & Hg & Hp & Hre);
    try done; [destruct Hpa; lia|].
  exists s'. split_and!; [done..|]. unfold MAXVA in *.
  intros va' Hva'.
  unfold translate at 1. rewrite Hre by lia. fold n.
  assert (Hiff : 0 ≤ va' / PGSIZE - va / PGSIZE < Z.of_nat n ↔
    va ≤ va' < va + Z.of_nat n * PGSIZE) by (unfold PGSIZE in *; Z.div_mod_to_equations; lia).
  destruct (decide (0 ≤ va' / PGSIZE - va / PGSIZE < Z.of_nat n)) as [Hin|Hin].
  - rewrite (decide_True (P := va ≤ va' < _)) by tauto.
    assert (Hnb : Z.of_nat n * PGSIZE < sz + PGSIZE).
    { subst n. unfold PGSIZE, PGOFFMASK. rewrite Z2Nat.id; Z.div_mod_to_equations; lia. }
    rewrite (translate_mapped va' (va' mod PGSIZE)); [|split|done|done].
    + unfold PGSIZE in *. Z.div_mod_to_equations. lia.
    + destruct Hpa as [Ha _]. rewrite Z.mod_add by (unfold PGSIZE; lia). done.
    + destruct Hpa. unfold PGSIZE in *. lia.
  - rewrite (decide_False (P := va ≤ va' < _)) by tauto. done.
Qed.

(** C7: [mappages] on a page-aligned address of user space (not the kernel's table), of at
    most 2 GiB less a page (from 2 GiB on the [int] product [nr_mapped * PGSIZE] overflows),
    with flags in the ten flag bits and two free frames for each page and two more, returns
    and maps the pages of [sz - 1] bytes rounded up (so nothing for one byte): each of their
    addresses translates to the corresponding physical address afterwards, every other user
    address translates as before, the tree of tables stays well formed, each mapped page is
    counted once (the counters of the pages exist), and no other page table and no data
    changes. *)
Theorem mappages_spec s root va pa sz flags :
  pt_ok (pt_pages s) root → fresh_frames s → root ≠ kernel_pagetable →
  0 ≤ va → va mod PGSIZE = 0 → 0 < sz → sz + PGSIZE ≤ 2 ^ 31 → va + sz < MAXVA →
  page_addr pa → pa + sz + PGSIZE < 2 ^ 56 → 0 ≤ flags < 2 ^ 10 →
  let n := Z.to_nat ((sz - 1 + PGOFFMASK) / PGSIZE) in
  (2 * n + 2 ≤ length (frames s))%nat → covers (pcnt s) n pa →
  ∃ s', mappages root va pa sz flags s = Ret (tt, s') ∧ grow root (2 * n + 2) s s' ∧
    pcnt s' = ref_incs n pa (pcnt s) ∧
    ∀ va', 0 ≤ va' < MAXVA →
      walkaddr root va' s' = Ret (if decide (va ≤ va' < va + Z.of_nat n * PGSIZE)
        then pa + (va' - va) else translate (pt_pages s) root va', s').
Proof.
  intros T Hfr Hk Hva Hal Hsz Hib Hvb Hpa Hpb Hf n Hlen Hcov.
  destruct (mappages_translate s root va pa sz flags) as (s' & Hrun & Hg & Hp & Hre); try done.
  exists s'. split_and!; [done..|]. intros va' Hva'.
  rewrite walkaddr_run by (apply Hg || done). by rewrite Hre.
Qed.

(** ** Unmapping *)

Lemma for_entries_id l (body : Z → M vm unit) s :
  (∀ i, i ∈ l → body i s = Ret (tt, s)) → for_entries l body s = Ret (tt, s).
Proof.
  induction l as [|i l IH]; intros Hb; [done|]. cbn [for_entries].
  assert (E : body i s = Ret (tt, s)) by (apply Hb; set_solver). mstep E.
  apply IH. intros j Hj. apply Hb. set_solver.
Qed.

Lemma uvmunmap_run s root va npages do_free :
  table_page (pt_pages s) root → IS_PGALIGNED va = true →
  uvmunmap root va npages do_free s = Ret (tt, s).
Proof.
  intros (Hp & l & Hl & Hn) Hal. unfold uvmunmap, massert. rewrite Hal.
  erewrite mbind_Ret by reflexivity. cbv beta iota.
  apply for_entries_id. intros i [Hi1 Hi2]%elem_of_seqZ.
  destruct (rd_slot s root i l Hp) as (e & _ & Hrd); [lia|done|done|].
  mstep Hrd. by destruct (e =? 0).
Qed.

(** Because its outermost test shifts a truth value instead of the entry's address,
    [uvmunmap] of any page table returns without unmapping or freeing anything. *)
Theorem uvmunmap_keeps_everything s root va npages do_free :
  table_page (pt_pages s) root → IS_PGALIGNED va = true →
  uvmunmap root va npages do_free s = Ret (tt, s).
Proof. apply uvmunmap_run. Qed.

(** ** Copying from user memory *)

Lemma PTE2PA_page e : ∃ k, 0 ≤ k ∧ PTE2PA e = k * 2 ^ 12.
Proof.
  unfold PTE2PA. rewrite Z.shiftl_mul_pow2 by lia.
  exists (Z.shiftr (u64 e) 10 mod 2 ^ 52). split; [apply Z.mod_pos_bound; lia|].
  unfold u64 at 1. change (2 ^ 64) with (2 ^ 52 * 2 ^ 12).
  rewrite Z.mul_mod_distr_r; lia.
Qed.

Lemma pte_of_page m root va o :
  va mod PGSIZE = 0 → 0 ≤ o < PGSIZE → pte_of m root (va + o) = pte_of m root va.
Proof.
  intros Hva Ho. unfold pte_of, leaf_table. rewrite !px_vpn by lia.
  by replace ((va + o) / PGSIZE) with (va / PGSIZE) by (unfold PGSIZE in *; Z.div_mod_to_equations; lia).
Qed.

(** Within a page, addresses translate with their offset. *)
Lemma translate_offset m root va o :
  va mod PGSIZE = 0 → 0 ≤ o < PGSIZE → translate m root va ≠ 0 →
  translate m root (va + o) = translate m root va + o.
Proof.
  intros Hva Ho. unfold translate. rewrite pte_of_page by done.
  destruct (Z.land _ _ =? 0); [done|]. intros _.
  destruct (PTE2PA_page (pte_of m root va)) as (k & Hk & ->).
  unfold PGSIZE in *. change (4096 - 1) with (Z.ones 12). rewrite !Z.land_ones by lia.
  change (2 ^ 12) with 4096 in *. rewrite Hva, Z.lor_0_r.
  replace ((va + o) mod 4096) with o by (Z.div_mod_to_equations; lia).
  rewrite Z.lor_comm. change 4096 with (2 ^ 12). rewrite lor_high by lia. lia.
Qed.

Lemma on_pmem_run {A} (f : M bytes A) s a m' :
  f (pmem s) = Ret (a, m') → on_pmem f s = Ret (a, set_pmem m' s).
Proof. intros E. unfold on_pmem, zoom. cbn. by rewrite E. Qed.

(** The user bytes [srcva .. srcva + len) are there, page by page. *)
Definition user_bytes (s : vm) (root srcva len : Z) : Prop :=
  ∀ j, 0 ≤ j < len → translate (pt_pages s) root (PGROUNDDOWN (srcva + j)) ≠ 0 ∧
    is_Some (pmem s !! translate (pt_pages s) root (srcva + j)).

Lemma copied_bytes_ok m d s n m' : bytes_ok m → copied m d s n m' → bytes_ok m'.
Proof. intros Hb Hc a x. rewrite Hc. case_decide; apply Hb. Qed.

(** Of [len] bytes the first [k] are there, and the rest starts with a missing page. *)
Definition there (s : vm) (root srcva len k : Z) : Prop :=
  0 ≤ k ≤ len ∧ user_bytes s root srcva k ∧
  (k < len → translate (pt_pages s) root (PGROUNDDOWN (srcva + k)) = 0).

Lemma copyin_loop_run root fuel : ∀ s dst srcva len k cnt,
  pt_ok (pt_pages s) root → root ≠ kernel_pagetable → bytes_ok (pmem s) →
  0 ≤ srcva → srcva + len < MAXVA →
  srcva mod PGSIZE + len ≤ Z.of_nat fuel * PGSIZE →
  there s root srcva len k → (k < len → 0 ≤ cnt ∧ cnt + k < 2 ^ 31) →
  accessible (pmem s) dst k →
  (∀ i j, 0 ≤ i < k → 0 ≤ j < k → dst + i ≠ translate (pt_pages s) root (srcva + j)) →
  ∃ m', copyin_loop fuel root dst srcva len cnt s =
      Ret (if k <? len then cnt + k else 0, set_pmem m' s) ∧
    ∀ a, m' !! a = if decide (dst ≤ a < dst + k)
      then pmem s !! translate (pt_pages s) root (srcva + (a - dst)) else pmem s !! a.
Proof.
  induction fuel as [|fuel IH]; intros s dst srcva len k cnt T Hk Hb Hs Hm Hf (Hkl & Hu & Hz) Hc Ha Hd;
    pose proof (Z.mod_pos_bound srcva PGSIZE ltac:(unfold PGSIZE; lia)) as Hmod;
    cbn [copyin_loop]; destruct (Z.ltb_spec 0 len) as [Hl|Hl];
    try (unfold PGSIZE in *; lia).
  - rewrite (proj2 (Z.ltb_ge k len)) by lia.
    exists (pmem s). split; [by destruct s|]. intros a. by rewrite decide_False by lia.
  - unfold MAXVA in *. destruct (PGROUNDDOWN_bounds srcva) as [Hr1 Hr2]; [lia|].
    pose proof (PGROUNDDOWN_eq srcva ltac:(lia)) as Hr3.
    set (va0 := PGROUNDDOWN srcva) in *. set (o := srcva - va0).
    assert (Hva0 : 0 ≤ va0).
    { rewrite Hr3. unfold PGSIZE. Z.div_mod_to_equations. lia. }
    assert (Hvm : 0 ≤ va0 < MAXVA) by (unfold MAXVA; lia).
    assert (Hw := walkaddr_run s root va0 T Hk Hvm).
    destruct (decide (k = 0)) as [->|Hk0].
    { rewrite Z.add_0_r in Hz. fold va0 in Hz. mstep Hw. rewrite Hz by done. cbn [Z.eqb].
      exists (pmem s). rewrite (proj2 (Z.ltb_lt 0 len)), Z.add_0_r by done.
      split; [by destruct s|]. intros a. by rewrite decide_False by lia. }
    destruct (Hu 0) as [Hnz _]; [lia|]. rewrite Z.add_0_r in Hnz. fold va0 in Hnz.
    mstep Hw. rewrite (proj2 (Z.eqb_neq _ 0)) by done.
    set (pa0 := translate (pt_pages s) root va0) in *.
    set (n := if len <? PGSIZE - o then len else PGSIZE - o).
    assert (Hn : 0 < n ≤ len ∧ o + n ≤ PGSIZE ∧ (n = len ∨ o + n = PGSIZE))
      by (subst n o; destruct (Z.ltb_spec len (PGSIZE - (srcva - va0))); lia).
    assert (Hnk : n ≤ k).
    { destruct (Z.le_gt_cases n k); [done|]. exfalso. apply Hnz. rewrite <- Hz by lia. f_equal.
      assert (Ep : srcva + k = va0 + (o + k)) by lia. rewrite PGROUNDDOWN_eq by lia.
      rewrite Ep, <- Z.add_mod_idemp_l, Hr2, Z.add_0_l, Z.mod_small by (unfold PGSIZE in *; lia). lia. }
    assert (Htr : ∀ j, 0 ≤ j < n → translate (pt_pages s) root (srcva + j) = pa0 + o + j).
    { intros j Hj. replace (srcva + j) with (va0 + (o + j)) by lia.
      rewrite translate_offset by (done || lia). subst pa0. lia. }
    destruct (memmove_run (pmem s) dst (pa0 + o) (Z.to_nat n)) as (m1 & Hmv & Hc1); [done|..].
    { rewrite Z2Nat.id by lia. intros i Hi. apply Ha. lia. }
    { rewrite Z2Nat.id by lia. intros i Hi. rewrite <- Htr by done. apply Hu. lia. }
    rewrite Z2Nat.id in Hc1 by lia. mstep (on_pmem_run _ _ _ _ Hmv).
    assert (Hsame : ∀ j, 0 ≤ j < k - n → m1 !! translate (pt_pages s) root (srcva + n + j) =
      pmem s !! translate (pt_pages s) root (srcva + n + j)).
    { intros j Hj. rewrite Hc1, decide_False; [done|]. intros Hin.
      apply (Hd (translate (pt_pages s) root (srcva + n + j) - dst) (n + j)); [lia..|].
      rewrite Z.add_assoc. lia. }
    replace (u64 (va0 + PGSIZE)) with (if decide (n = len) then u64 (va0 + PGSIZE) else srcva + n)
      by (case_decide; [done|]; rewrite u64_small; unfold PGSIZE in *; lia).
    destruct (decide (n = len)) as [E|E].
    + exists m1. replace k with len in * by lia. replace (len - n) with 0 by lia.
      rewrite Z.ltb_irrefl. split; [by destruct fuel|].
      intros a. rewrite Hc1, E. case_decide; [|done]. f_equal. rewrite Htr by lia. lia.
    + destruct (IH (set_pmem m1 s) (dst + n) (srcva + n) (len - n) (k - n) (i32 (cnt + n)))
        as (m2 & Hrun & Hm2); try done; try lia.
      * by eapply copied_bytes_ok.
      * replace ((srcva + n) mod PGSIZE) with 0; [unfold PGSIZE in *; lia|].
        replace (srcva + n) with (va0 + PGSIZE) by lia. symmetry.
        rewrite <- Z.add_mod_idemp_l, Hr2 by (unfold PGSIZE; lia). done.
      * split_and!; [lia..| |].
        -- intros j Hj. rewrite <- Z.add_assoc. split; [apply (Hu (n + j)); lia|].
           cbn. rewrite Z.add_assoc, Hsame by done. rewrite <- Z.add_assoc. apply (Hu (n + j)). lia.
        -- intros Hlt. replace (srcva + n + (k - n)) with (srcva + k) by lia. apply Hz. lia.
      * intros Hlt. rewrite i32_small by lia. lia.
      * intros j Hj. cbn. rewrite Hc1, decide_False by lia. rewrite <- Z.add_assoc. apply Ha. lia.
      * intros a j Ha' Hj. cbn. rewrite <- !Z.add_assoc. apply Hd; lia.
      * exists m2. split.
        { rewrite Hrun. destruct (Z.ltb_spec (k - n) (len - n)), (Z.ltb_spec k len); try lia; [|done].
          rewrite i32_small by lia. do 2 f_equal. lia. }
        intros a. rewrite Hm2. cbn.
        destruct (decide (dst + n ≤ a < dst + n + (k - n))) as [Hin|Hin].
        -- rewrite decide_True by lia. replace (srcva + n + (a - (dst + n)))
             with (srcva + n + (a - dst - n)) by lia.
           rewrite Hsame by lia. do 2 f_equal. lia.
        -- rewrite Hc1. destruct (decide (dst ≤ a < dst + n)).
           ++ rewrite decide_True by lia. f_equal. rewrite Htr by lia. lia.
           ++ by rewrite decide_False by lia.
  - rewrite (proj2 (Z.ltb_ge k len)) by lia.
    exists (pmem s). split; [by destruct s|]. intros a. by rewrite decide_False by lia.
Qed.

(** C16: [copyin] from a user range of which the first [k] bytes are there and, unless that
    is all, the page after them is not mapped: the kernel buffer holds the [k] bytes
    afterwards, translated page by page, and all other memory is unchanged.  The result is
    [k] when the copy stops early and 0 when all [len] bytes were copied ([mm.h] and [mm.md]
    say the number of bytes copied), and [copy_from_user] reports all [len] bytes in either
    case.  Conditions: a destination (a NULL one is allocated), memory of bytes, a buffer
    apart from the user's bytes, a range inside user space and, when the copy stops early,
    [k < 2 ^ 31]. *)
Theorem copyin_spec s root dst srcva len k :
  pt_ok (pt_pages s) root → root ≠ kernel_pagetable → bytes_ok (pmem s) → dst ≠ 0 →
  0 ≤ srcva → 0 < len → srcva + len < MAXVA →
  there s root srcva len k → (k < len → k < 2 ^ 31) → accessible (pmem s) dst k →
  (∀ i j, 0 ≤ i < k → 0 ≤ j < k → dst + i ≠ translate (pt_pages s) root (srcva + j)) →
  ∃ m', copyin root dst srcva len s = Ret (if k <? len then k else 0, set_pmem m' s) ∧
    copy_from_user root dst srcva len s = Ret (len, set_pmem m' s) ∧
    ∀ a, m' !! a = if decide (dst ≤ a < dst + k)
      then pmem s !! translate (pt_pages s) root (srcva + (a - dst)) else pmem s !! a.
Proof.
  intros T Hk Hb Hd0 Hs Hl Hm Hth Hkb Ha Hdis. pose proof Hth as [Hkl _].
  destruct (copyin_loop_run root (Z.to_nat (len / PGSIZE + 2)) s dst srcva len k 0)
    as (m' & Hrun & Hm'); try done.
  { unfold PGSIZE in *. rewrite Z2Nat.id; Z.div_mod_to_equations; lia. }
  { lia. }
  assert (Hcopy : copyin root dst srcva len s = Ret (if k <? len then k else 0, set_pmem m' s)).
  { unfold copyin. rewrite (proj2 (Z.eqb_neq dst 0)) by done.
    erewrite mbind_Ret by reflexivity. cbv beta. by rewrite (proj2 (Z.eqb_neq dst 0)). }
  exists m'. split_and!; [done| |done].
  unfold copy_from_user. mstep Hcopy.
  destruct (Z.ltb_spec k len); [by rewrite (proj2 (Z.ltb_ge k 0)) by lia|done].
Qed.

(** ** Fork *)

(** A tree none of whose tables changed. *)
Lemma tree_frame m m' root root' :
  pt_ok m root → pt_ok m' root' → (∀ p, in_tree m root p → m' !! p = m !! p) →
  pt_ok m' root ∧ (∀ p, in_tree m' root p → in_tree m root p) ∧
  (∀ va, leaf_table m' root va = leaf_table m root va) ∧
  ∀ va, pte_of m' root va = pte_of m root va.
Proof.
  intros T T' Hsame.
  assert (Hc : ∀ p i, in_tree m root p → child m' p i = child m p i).
  { intros p i Hin. unfold child, entry. by rewrite (Hsame p Hin). }
  assert (Hr : ∀ i, child m' root i = child m root i) by (intros; apply Hc; by left).
  assert (Hm : ∀ i p j, child m root i = Some p → child m' p j = child m p j)
    by (intros i p j E; apply Hc; right; left; eauto).
  assert (Hpage : ∀ p, in_tree m root p → table_page m p → table_page m' p).
  { intros p Hin (? & l & ? & ?). split; [done|]. exists l. by rewrite Hsame. }
  assert (Hleaf : ∀ va, leaf_table m' root va = leaf_table m root va).
  { intros va. unfold leaf_table. rewrite Hr.
    destruct (child m root (px 2 va)) as [p|] eqn:E; [|done]. cbn. by eapply Hm. }
  split_and!; [|..|done|].
  - destruct T as [T0 _ T1 T1i T2 T2i]. split.
    + apply Hpage; [by left|done].
    + apply T'.
    + intros i p. rewrite Hr. intros E. destruct (T1 i p E). split; [|done].
      apply Hpage; [right; left; eauto|done].
    + intros i j p. rewrite !Hr. eauto.
    + intros i p j q. rewrite Hr. intros E. rewrite (Hm _ _ _ E). intros E'.
      destruct (T2 _ _ _ _ E E') as (? & ? & Hk). split_and!; [|done|intros k; by rewrite Hr].
      apply Hpage; [right; right; eauto|done].
    + intros i p j q i' p' j'. rewrite !Hr. intros E. rewrite (Hm _ _ _ E). intros E' F.
      rewrite (Hm _ _ _ F). eauto.
  - intros p [->|[[i E]|(i & q & j & E & E')]]; [by left|..]; rewrite Hr in E.
    + right. left. eauto.
    + rewrite (Hm _ _ _ E) in E'. right. right. eauto.
  - intros va. unfold pte_of. rewrite Hleaf.
    destruct (leaf_table m root va) as [t|] eqn:E; [|done].
    destruct (leaf_table_inv _ _ _ _ T E) as (t1 & E1 & E2 & _).
    unfold entry. rewrite Hsame; [done|]. right. right. eauto.
Qed.

Lemma in_tree_page m root p : pt_ok m root → in_tree m root p → table_page m p.
Proof.
  intros T [->|[[i E]|(i & q & j & E & E')]]; [apply T|by eapply tree_1|by eapply tree_2].
Qed.

(** Two trees with no table in common, and frames to extend them. *)
Record two_trees (s : vm) (c p : Z) : Prop := {
  tt_child : pt_ok (pt_pages s) c;
  tt_parent : pt_ok (pt_pages s) p;
  tt_fresh : fresh_frames s;
  tt_disjoint : ∀ q, in_tree (pt_pages s) c q → ¬ in_tree (pt_pages s) p q
}.

(** Growing one tree leaves the other as it is. *)
Lemma two_trees_grow s s' c p n :
  two_trees s c p → grow c n s s' →
  two_trees s' c p ∧ (∀ va, leaf_table (pt_pages s') p va = leaf_table (pt_pages s) p va) ∧
  ∀ va, pte_of (pt_pages s') p va = pte_of (pt_pages s) p va.
Proof.
  intros [Tc Tp [_ Hf] Hd] Hg.
  destruct (tree_frame (pt_pages s) (pt_pages s') p c Tp (grow_ok _ _ _ _ Hg))
    as (Tp' & Hin & Hl & He).
  { intros q Hq. destruct (in_tree_page _ _ _ Tp Hq) as (_ & l & Hlk & _).
    rewrite Hlk. apply (grow_other _ _ _ _ Hg); [done|]. intros Hc. by apply (Hd q). }
  split_and!; [|done..]. split; [apply Hg|done|apply Hg|].
  intros q Hc Hp. apply Hin in Hp. destruct (grow_tree _ _ _ _ Hg q Hc) as [Hc'|Hc'].
  - by apply (Hd q).
  - destruct (in_tree_page _ _ _ Tp Hp) as (_ & l & Hlk & _). destruct (Hf q Hc'). congruence.
Qed.

(** Every page that is counted has its entry in [pages]. *)
Definition refs_full (c : gmap Z Z) : Prop := ∀ pa, counted pa = true → is_Some (c !! GET_PAGE pa).

Lemma refs_full_inc c pa : refs_full c → refs_full (ref_inc pa c).
Proof.
  intros Hc a Ha. destruct (Hc a Ha) as [x Hx]. unfold ref_inc.
  destruct (counted pa); [|eauto]. destruct (decide (GET_PAGE a = GET_PAGE pa)) as [E|].
  - rewrite E in *. rewrite lookup_alter_eq, Hx. eauto.
  - rewrite lookup_alter_ne by done. eauto.
Qed.

(** A natural number with no bit from [n] on. *)
Lemma below_pow2 n x : 0 ≤ n → 0 ≤ x → (∀ i, n ≤ i → Z.testbit x i = false) → x < 2 ^ n.
Proof.
  intros Hn Hx Hb. replace x with (x mod 2 ^ n); [apply Z.mod_pos_bound; lia|].
  apply Z.bits_inj'. intros i Hi. destruct (Z.lt_ge_cases i n).
  - by apply Z.mod_pow2_bits_low.
  - rewrite Z.mod_pow2_bits_high by lia. symmetry. by apply Hb.
Qed.

Lemma cow_flags_range e : 0 ≤ cow_flags e < 2 ^ 10.
Proof.
  assert (Hr : ∀ i, 10 ≤ i → Z.testbit (PTE_FLAGS e) i = false).
  { intros i Hi. unfold PTE_FLAGS. change 0x3ff with (Z.ones 10).
    by rewrite Z.land_spec, Z.ones_spec_high, andb_false_r by lia. }
  assert (Hp : 0 ≤ PTE_FLAGS e) by (unfold PTE_FLAGS; apply Z.land_nonneg; lia).
  unfold cow_flags. destruct (ctrue _).
  - assert (0 ≤ Z.lor (Z.land (PTE_FLAGS e) (Z.lnot PTE_W)) PTE_COW)
      by (apply Z.lor_nonneg; split; [apply Z.land_nonneg; lia|by unfold PTE_COW]).
    split; [done|]. apply below_pow2; [lia|done|]. intros i Hi.
    rewrite Z.lor_spec, Z.land_spec, Hr by lia. cbn [andb orb].
    unfold PTE_COW. change 0x200 with (2 ^ 9). by rewrite Z.pow2_bits_false by lia.
  - split; [done|]. by apply below_pow2.
Qed.

(** What the page at [va] of the child holds after the fork. *)
Definition forked_entry (e old : Z) : Z :=
  if PTE2PA e =? 0 then old else mapped_entry (PTE2PA e) (cow_flags e).

(** The counts after the pages [va ..] of the parent were shared. *)
Fixpoint fork_counts (n : nat) (m : gmap Z (list Z)) (p va : Z) (c : gmap Z Z) : gmap Z Z :=
  match n with
  | O => c
  | S n => fork_counts n m p (va + PGSIZE)
      (let pa := PTE2PA (pte_of m p va) in if pa =? 0 then c else ref_inc pa c)
  end.

Lemma fork_counts_ext n m m' p : ∀ va c,
  (∀ a, pte_of m' p a = pte_of m p a) → fork_counts n m' p va c = fork_counts n m p va c.
Proof. induction n as [|n IH]; intros va c E; cbn; [done|]. rewrite E. by apply IH. Qed.

(** A page of the parent that [uvmcopy] can share. *)
Definition shareable (m : gmap Z (list Z)) (p va : Z) : Prop :=
  is_Some (leaf_table m p va) ∧ PTE2PA (pte_of m p va) + 2 * PGSIZE < 2 ^ 56.

(** One page. *)
Lemma uvmcopy_step s c p va n :
  two_trees s c p → refs_full (pcnt s) → 0 ≤ va → va mod PGSIZE = 0 → va + PGSIZE < MAXVA →
  shareable (pt_pages s) p va → (4 ≤ length (frames s))%nat →
  let e := pte_of (pt_pages s) p va in
  ∃ s', uvmcopy_loop (S n) c p va s = uvmcopy_loop n c p (va + PGSIZE) s' ∧
    grow c 4 s s' ∧
    pcnt s' = (if PTE2PA e =? 0 then pcnt s else ref_inc (PTE2PA e) (pcnt s)) ∧
    ∀ va', 0 ≤ va' < MAXVA → pte_of (pt_pages s') c va' =
      if decide (va' / PGSIZE = va / PGSIZE) then forked_entry e (pte_of (pt_pages s) c va')
      else pte_of (pt_pages s) c va'.
Proof.
  intros [Tc Tp Hf Hd] Hrf Hva Hal Hb [[t Ht] Hpa] Hlen e. unfold MAXVA in *. fold e in Hpa.
  assert (Hw := walk_noalloc s p va Tp ltac:(unfold PGSIZE in *; lia)). rewrite Ht in Hw.
  destruct (leaf_table_inv _ _ _ _ Tp Ht) as (_ & _ & _ & (Hpt & l & Hl & Hn) & _).
  destruct (rd_slot s t (px 0 va) l Hpt (px_range 0 va) Hl Hn) as (e' & He & Hrd).
  assert (e' = e) as -> by (subst e; unfold pte_of; by rewrite Ht, He).
  assert (Hstep : uvmcopy_loop (S n) c p va s =
    (mwhen (ctrue (PTE2PA e)) (mappages c va (PTE2PA e) PGSIZE (cow_flags e));;
     uvmcopy_loop n c p (va + PGSIZE)) s).
  { cbn [uvmcopy_loop]. mstep Hw. mstep Hrd.
    by rewrite u64_small by (unfold PGSIZE in *; lia). }
  rewrite Hstep. unfold ctrue, forked_entry. destruct (Z.eqb_spec (PTE2PA e) 0) as [E|E].
  - exists s. split_and!; [done| |done|].
    + apply (grow_weaken c 0); [lia|by apply grow_refl].
    + intros va' _. by case_decide.
  - cbn [negb mwhen]. destruct (PTE2PA_page e) as (k & Hk & Hek).
    destruct (mappages_run s c va (PTE2PA e) PGSIZE (cow_flags e)) as (s' & Hrun & Hg & Hc & Hre);
      try done; try apply cow_flags_range; try (unfold PGSIZE, MAXVA in *; lia).
    { intros i Hi. change (Z.of_nat (Z.to_nat ((PGSIZE - 1 + PGOFFMASK) / PGSIZE))) with 1 in Hi.
      replace i with 0 by lia. rewrite Z.mul_0_l, Z.add_0_r. apply Hrf. }
    change (Z.to_nat ((PGSIZE - 1 + PGOFFMASK) / PGSIZE)) with 1%nat in *.
    exists s'. split_and!; [mstep Hrun; reflexivity|exact Hg|exact Hc|].
    intros va' Hva'. rewrite Hre by lia.
    destruct (decide (va' / PGSIZE = va / PGSIZE)) as [Ev|Ev].
    + rewrite decide_True by lia. f_equal. lia.
    + by rewrite decide_False by lia.
Qed.

Lemma two_trees_step s c p va e s' :
  two_trees s c p → refs_full (pcnt s) → grow c 4 s s' →
  pcnt s' = (if PTE2PA e =? 0 then pcnt s else ref_inc (PTE2PA e) (pcnt s)) →
  shareable (pt_pages s) p va →
  refs_full (pcnt s') ∧ shareable (pt_pages s') p va.
Proof.
  intros TT Hrf Hg Hc [Hl Hpa]. destruct (two_trees_grow s s' c p 4 TT Hg) as (_ & El & Ee). split.
  - rewrite Hc. case_match; [done|by apply refs_full_inc].
  - unfold shareable. by rewrite El, Ee.
Qed.

Lemma uvmcopy_loop_run n : ∀ s c p va,
  two_trees s c p → refs_full (pcnt s) → 0 ≤ va → va mod PGSIZE = 0 →
  va + Z.of_nat n * PGSIZE < MAXVA →
  (∀ k, 0 ≤ k < Z.of_nat n → shareable (pt_pages s) p (va + k * PGSIZE)) →
  (4 * n ≤ length (frames s))%nat →
  ∃ s', uvmcopy_loop n c p va s = Ret (tt, s') ∧ two_trees s' c p ∧ grow c (4 * n) s s' ∧
    pcnt s' = fork_counts n (pt_pages s) p va (pcnt s) ∧
    (∀ va', pte_of (pt_pages s') p va' = pte_of (pt_pages s) p va') ∧
    ∀ va', 0 ≤ va' < MAXVA → pte_of (pt_pages s') c va' =
      if decide (va ≤ va' < va + Z.of_nat n * PGSIZE)
      then forked_entry (pte_of (pt_pages s) p va') (pte_of (pt_pages s) c va')
      else pte_of (pt_pages s) c va'.
Proof.
  induction n as [|n IH]; intros s c p va TT Hrf Hva Hal Hb Hsh Hlen.
  { exists s. split_and!; try done.
    - apply grow_refl; apply TT.
    - intros va' _. by rewrite decide_False by lia. }
  unfold PGSIZE in Hb. assert (Hsh0 := Hsh 0 ltac:(lia)). rewrite Z.mul_0_l, Z.add_0_r in Hsh0.
  destruct (uvmcopy_step s c p va n) as (s1 & Hstep & Hg1 & Hc1 & He1);
    try done; try (unfold PGSIZE; lia).
  destruct (two_trees_grow s s1 c p 4 TT Hg1) as (TT1 & El & Ee).
  destruct (grow_frames _ _ _ _ Hg1) as (j & Hj & Hfj).
  destruct (IH s1 c p (va + PGSIZE)) as (s' & Hrun & TT' & Hg' & Hc' & Hp' & He'); try done;
    try (unfold PGSIZE; lia).
  - by apply (two_trees_step s c p va (pte_of (pt_pages s) p va) s1).
  - rewrite <- Z.add_mod_idemp_l, Hal by (unfold PGSIZE; lia). done.
  - intros k Hk. apply (two_trees_step s c p _ (pte_of (pt_pages s) p va) s1); try done.
    replace (va + PGSIZE + k * PGSIZE) with (va + (k + 1) * PGSIZE) by lia. apply Hsh. lia.
  - rewrite Hfj, length_drop. lia.
  - exists s'. split_and!; try done.
    + by rewrite Hstep.
    + replace (4 * S n)%nat with (4 + 4 * n)%nat by lia.
      apply (grow_trans c 4 (4 * n) s s1 s'); [apply TT|done..].
    + rewrite Hc', Hc1. cbn [fork_counts]. rewrite (fork_counts_ext n (pt_pages s)) by done. done.
    + intros va'. by rewrite Hp'.
    + intros va' Hva'. rewrite He', He1, Ee by done.
      assert (Hin : va' / PGSIZE = va / PGSIZE ↔ va ≤ va' < va + PGSIZE)
        by (unfold PGSIZE in *; Z.div_mod_to_equations; lia).
      destruct (decide (va' / PGSIZE = va / PGSIZE)) as [Ei|Ei].
      * rewrite decide_False, decide_True by (unfold PGSIZE in *; lia).
        replace (pte_of (pt_pages s) p va) with (pte_of (pt_pages s) p va'); [done|].
        unfold pte_of, leaf_table. by rewrite !px_vpn, Ei by lia.
      * unfold PGSIZE in *. destruct (decide (va ≤ va' < _)).
        -- by rewrite decide_True by lia.
        -- by rewrite decide_False by lia.
Qed.

(** C12: [uvmcopy] of the first [sz] bytes of a parent into a child, the two page tables
    having no table in common and every page of the range having its leaf table: it returns,
    each present page is mapped in the child at the parent's physical page, copy-on-write
    where the parent can write it, and counted once more; every other entry of the child
    and all entries of the parent are as they were, so that the parent keeps the right to
    write the shared page. *)
Theorem uvmcopy_spec s c p sz :
  two_trees s c p → refs_full (pcnt s) → 0 ≤ sz → sz + 2 * PGSIZE < MAXVA →
  let n := Z.to_nat ((sz + PGOFFMASK) / PGSIZE) in
  (∀ k, 0 ≤ k < Z.of_nat n → shareable (pt_pages s) p (k * PGSIZE)) →
  (4 * n ≤ length (frames s))%nat →
  ∃ s', uvmcopy c p sz s = Ret (tt, s') ∧ two_trees s' c p ∧ pmem s' = pmem s ∧
    pcnt s' = fork_counts n (pt_pages s) p 0 (pcnt s) ∧
    (∀ va, pte_of (pt_pages s') p va = pte_of (pt_pages s) p va) ∧
    ∀ va, 0 ≤ va < MAXVA → pte_of (pt_pages s') c va =
      if decide (va < Z.of_nat n * PGSIZE)
      then forked_entry (pte_of (pt_pages s) p va) (pte_of (pt_pages s) c va)
      else pte_of (pt_pages s) c va.
Proof.
  intros TT Hrf Hsz Hb n Hsh Hlen.
  destruct (uvmcopy_loop_run n s c p 0) as (s' & Hrun & TT' & Hg & Hc & Hp & He); try done.
  { subst n. unfold PGSIZE, PGOFFMASK in *. rewrite Z2Nat.id; Z.div_mod_to_equations; lia. }
  exists s'. split_and!; try done; [apply Hg|].
  intros va Hva. rewrite He by done. destruct (decide (va < Z.of_nat n * PGSIZE)).
  - by rewrite decide_True by lia.
  - by rewrite decide_False by lia.
Qed.

(** A table of zeros is a tree by itself. *)
Lemma zeros_child m root i : m !! root = Some (replicate 512 0) → child m root i = None.
Proof.
  intros Hm. unfold child, entry. rewrite Hm. cbn [mbind option_bind].
  destruct (znth _ _) as [e|] eqn:E; [|done]. by rewrite (zeros_lookup _ _ _ E).
Qed.

Lemma zeros_tree m root :
  map_Forall (λ p _, table_page m p) m → m !! root = Some (replicate 512 0) → pt_ok m root.
Proof.
  intros Hall Hm. assert (Hc := λ i, zeros_child m root i Hm).
  split; [|intros p i q| intros i p|intros i j p|intros i p j q|intros i p j q i' p' j'];
    rewrite ?Hc; try done.
  - by eapply Hall.
  - unfold child, entry. intros E. destruct (m !! p) as [l|] eqn:El; [|done]. by eapply Hall.
Qed.
End vm.

(** ** A small machine: a parent and a child table, two pages of user memory and a buffer *)

#[local] Instance demo_vm_env : VmEnv := {|
  pages := 0x87ffe000; kernel_pagetable := 0x80200000; trampoline := 0x80202000; etext := 0x80210000
|}.

Definition demo_parent : Z := 0x80400000.
Definition demo_child : Z := 0x80401000.
Definition demo_frames : list Z := (λ k, 0x80410000 + k * PGSIZE) <$> seqZ 0 12.

Definition demo_vm0 : vm := {|
  pt_pages := {[ demo_parent := replicate 512 0; demo_child := replicate 512 0 ]};
  pmem := list_to_map ((λ k, (0x87ffeffe + k, 64 + k)) <$> seqZ 0 4) ∪
          list_to_map ((λ k, (0x80300000 + k, 0)) <$> seqZ 0 4);
  pcnt := {[ 0 := 1; 1 := 1; 2 := 1 ]};
  frames := demo_frames;
  freed := [];
  upgtbls := ∅
|}.

Definition demo_vm1 : vm :=
  outcome_state (mappages demo_parent 0 0x87ffe000 8192 (Z.lor (Z.lor PTE_U PTE_R) PTE_W) demo_vm0)
    demo_vm0.

Lemma demo_tables0 : map_Forall (λ p _, table_page (pt_pages demo_vm0) p) (pt_pages demo_vm0).
Proof.
  assert (Hp : ∀ p, page_addr p → pt_pages demo_vm0 !! p = Some (replicate 512 0) →
    table_page (pt_pages demo_vm0) p).
  { intros p Ha E. split; [done|]. exists (replicate 512 0). by rewrite length_replicate. }
  intros p l E. cbn [pt_pages demo_vm0] in E.
  apply lookup_insert_Some in E as [[<- _]|[_ E]].
  - by apply Hp.
  - apply lookup_singleton_Some in E as [<- _]. by apply Hp.
Qed.

Lemma demo_parent0 : pt_ok (pt_pages demo_vm0) demo_parent.
Proof. by apply zeros_tree; [apply demo_tables0|]. Qed.
Lemma demo_child0 : pt_ok (pt_pages demo_vm0) demo_child.
Proof. by apply zeros_tree; [apply demo_tables0|]. Qed.

Lemma demo_fresh : fresh_frames demo_vm0.
Proof.
  split.
  - apply NoDup_fmap; [|apply NoDup_seqZ]. intros x y. unfold PGSIZE. lia.
  - intros f (k & -> & Hk%elem_of_seqZ)%list_elem_of_fmap. unfold page_addr, PGSIZE. split.
    + split; [by rewrite Z.mod_add by lia|lia].
    + cbn [pt_pages demo_vm0]. rewrite lookup_insert_ne by (unfold demo_parent; lia).
      apply lookup_singleton_ne. unfold demo_child. lia.
Qed.

Lemma demo_refs : refs_full (pcnt demo_vm0).
Proof.
  intros pa Hc. unfold counted, pages, demo_vm_env, PHYSTOP in Hc.
  apply negb_true_iff, orb_false_iff in Hc as [H1%Z.ltb_ge H2%Z.ltb_ge].
  unfold GET_PAGE, pages, demo_vm_env, PGSHIFT. rewrite u64_small, Z.shiftr_div_pow2 by lia.
  assert (0 ≤ (pa - 0x87ffe000) / 2 ^ 12 < 3) by (Z.div_mod_to_equations; lia).
  assert (Hk : (pa - 0x87ffe000) / 2 ^ 12 ∈ [0; 1; 2]) by (rewrite !elem_of_cons; lia).
  revert Hk. generalize ((pa - 0x87ffe000) / 2 ^ 12). cbn [pcnt demo_vm0].
  intros k Hk. rewrite !elem_of_cons in Hk. destruct Hk as [->|[->|[->|[]%elem_of_nil]]]; eexists; vm_compute; reflexivity.
Qed.

Lemma demo_covers : covers (pcnt demo_vm0) 2 0x87ffe000.
Proof. intros j _. apply demo_refs. Qed.

(** The parent after two pages were mapped. *)
Lemma demo_vm1_grow :
  grow demo_parent 6 demo_vm0 demo_vm1 ∧ refs_full (pcnt demo_vm1).
Proof.
  destruct (mappages_run demo_vm0 demo_parent 0 0x87ffe000 8192 (Z.lor (Z.lor PTE_U PTE_R) PTE_W))
    as (s' & Hrun & Hg & Hc & _).
  - apply demo_parent0.
  - apply demo_fresh.
  - lia.
  - reflexivity.
  - lia.
  - by vm_compute.
  - vm_compute. reflexivity.
  - lia.
  - vm_compute. reflexivity.
  - by vm_compute.
  - vm_compute. lia.
  - apply demo_covers.
  - unfold demo_vm1. rewrite Hrun. cbn [outcome_state]. split; [exact Hg|].
    rewrite Hc. by repeat apply refs_full_inc; apply demo_refs.
Qed.

Lemma demo_two_trees : two_trees demo_vm1 demo_child demo_parent.
Proof.
  destruct demo_vm1_grow as [Hg _].
  assert (Hsingle : ∀ q, in_tree (pt_pages demo_vm0) demo_child q → q = demo_child).
  { intros q [->|[[i E]|(i & t & j & E & _)]]; [done|..];
      rewrite zeros_child in E by done; done. }
  assert (Hpar : ∀ q, in_tree (pt_pages demo_vm0) demo_parent q → q = demo_parent).
  { intros q [->|[[i E]|(i & t & j & E & _)]]; [done|..];
      rewrite zeros_child in E by done; done. }
  assert (Hdis : ∀ q, in_tree (pt_pages demo_vm0) demo_parent q →
    ¬ in_tree (pt_pages demo_vm0) demo_child q) by (intros q ->%Hpar ?%Hsingle; done).
  assert (TT0 : two_trees demo_vm0 demo_parent demo_child)
    by (split; [apply demo_parent0|apply demo_child0|apply demo_fresh|apply Hdis]).
  destruct (two_trees_grow _ _ _ _ _ TT0 Hg) as ([Tp Tc Hf Hd] & _ & _).
  split; [done..|]. intros q Hc Hp. by apply (Hd q).
Qed.

Lemma uvmcopy_spec_witness :
  ∃ s', uvmcopy demo_child demo_parent 4097 demo_vm1 = Ret (tt, s') ∧
    pte_of (pt_pages s') demo_child 0 = Z.lor (PA2PTE 0x87ffe000) 0x213 ∧
    pte_of (pt_pages s') demo_parent 0 = Z.lor (PA2PTE 0x87ffe000) 0x17.
Proof.
  destruct (uvmcopy_spec demo_vm1 demo_child demo_parent 4097) as (s' & Hrun & _ & _ & _ & Hp & Hc).
  - apply demo_two_trees.
  - apply demo_vm1_grow.
  - done.
  - done.
  - intros k Hk. change (Z.of_nat (Z.to_nat ((4097 + PGOFFMASK) / PGSIZE))) with 2 in Hk.
    assert (k = 0 ∨ k = 1) as [->| ->] by lia;
      (split; [vm_compute; eexists; reflexivity|vm_compute; reflexivity]).
  - vm_compute. lia.
  - exists s'. split_and!; [exact Hrun| |].
    + assert (H0 : 0 ≤ 0 < MAXVA) by (unfold MAXVA; lia).
      refine (eq_trans (Hc 0 H0) _). vm_compute. reflexivity.
    + refine (eq_trans (Hp 0) _). vm_compute. reflexivity.
Defined.

Lemma demo_bytes_ok : bytes_ok (pmem demo_vm1).
Proof.
  assert (Hall : map_Forall (λ _ x, 0 ≤ x < 256) (pmem demo_vm1)).
  { apply map_Forall_to_list. apply (bool_decide_unpack _). by vm_compute. }
  exact Hall.
Qed.

Lemma mappages_spec_witness :
  ∃ s', mappages demo_parent 0 0x87ffe000 4098 PTE_U demo_vm0 = Ret (tt, s') ∧
    walkaddr demo_parent 4100 s' = Ret (0x87fff004, s').
Proof.
  destruct (mappages_spec demo_vm0 demo_parent 0 0x87ffe000 4098 PTE_U) as (s' & Hrun & _ & _ & Hw).
  - apply demo_parent0.
  - apply demo_fresh.
  - discriminate.
  - lia.
  - reflexivity.
  - lia.
  - by vm_compute.
  - vm_compute. reflexivity.
  - by vm_compute.
  - vm_compute. reflexivity.
  - by vm_compute.
  - vm_compute. lia.
  - apply demo_covers.
  - assert (H0 : 0 ≤ 4100 < MAXVA) by (unfold MAXVA; lia).
    exists s'. split; [exact Hrun|exact (Hw 4100 H0)].
Defined.

Lemma uvmunmap_keeps_everything_witness :
  uvmunmap demo_parent 0 2 true demo_vm1 = Ret (tt, demo_vm1).
Proof.
  apply (uvmunmap_keeps_everything demo_vm1 demo_parent 0 2 true).
  - split; [done|]. eexists. split; [vm_compute; reflexivity|reflexivity].
  - reflexivity.
Defined.

Lemma copyin_spec_witness :
  ∃ m', copyin demo_parent 0x80300000 4094 4 demo_vm1 = Ret (0, set_pmem m' demo_vm1) ∧
    m' !! 0x80300002 = Some 66.
Proof.
  destruct (copyin_spec demo_vm1 demo_parent 0x80300000 4094 4 4) as (m' & Hrun & _ & Hm').
  - apply demo_vm1_grow.
  - discriminate.
  - apply demo_bytes_ok.
  - discriminate.
  - lia.
  - lia.
  - vm_compute. reflexivity.
  - split_and!; [lia..| |lia]. intros j Hj. assert (j ∈ seqZ 0 4) as Hin by (by apply elem_of_seqZ).
    clear Hj; revert j Hin. apply Forall_forall. apply (bool_decide_unpack _). by vm_compute.
  - lia.
  - intros i Hi. assert (i ∈ seqZ 0 4) as Hin by (by apply elem_of_seqZ).
    clear Hi; revert i Hin. apply Forall_forall. apply (bool_decide_unpack _). by vm_compute.
  - intros i j Hi Hj. assert (Hin : (i, j) ∈ list_prod (seqZ 0 4) (seqZ 0 4)).
    { rewrite list_elem_of_In, in_prod_iff, <- !list_elem_of_In, !elem_of_seqZ. done. }
    pose (P := λ ij : Z * Z, 0x80300000 + ij.1 ≠
      translate (pt_pages demo_vm1) demo_parent (4094 + ij.2)).
    change (P (i, j)). revert Hin. generalize (i, j). apply Forall_forall. unfold P.
    apply (bool_decide_unpack _). by vm_compute.
  - exists m'. split; [exact Hrun|]. refine (eq_trans (Hm' _) _). vm_compute. reflexivity.
Defined.
