(* ===== verification/Task.v ===== *)
(** * The kernel's state: processes, memory areas and the parts they use

    Models [struct proc], [struct cpu]'s running process and [struct vm_area] of
    [kernel/include/proc/proc.h] and [kernel/include/mm/vma.h] over the page tables of
    [PageTable] and the files of [Vfs]; the operations on them are in [Vma] and [Proc]. *)

From S2P Require Export FsSys.
From S2P Require Export PageTable.

(** [enum proc_state]. *)
Inductive proc_state := INIT | SLEEPING | RUNNABLE | RUNNING | ZOMBIE.

#[export] Instance proc_state_eq_dec : EqDecision proc_state.
Proof. solve_decision. Defined.

(** [struct context] as far as the kernel looks into it: what runs when the process is
    switched to.  [InitFunc f sp] calls [f] on the stack [sp]; [InSched intena from] returns
    from the [swtch] of [sched], which held [intena] in a local variable, to its caller [from]
    with the local variable that is alive there. *)
Inductive caller :=
  | FromSleep (int_status : bool)
  | FromYield
  | FromExit
  | FromNanosleep.

Inductive context :=
  | InitFunc (f sp : Z)
  | InSched (intena : bool) (from : caller).

(** [struct trapframe]: the registers the kernel reads or writes; [others] is the rest. *)
Record trapframe := Trapframe {
  kernel_satp : Z;
  kernel_sp : Z;
  kernel_trap_fn : Z;
  epc : Z;
  kernel_hartid : Z;
  sp : Z;
  tp : Z;
  a0 : Z;
  a1 : Z;
  a2 : Z;
  a3 : Z;
  a4 : Z;
  a5 : Z;
  a7 : Z;
  others : list Z
}.

Definition set_ksatp (x : Z) (t : trapframe) : trapframe :=
  Trapframe x (kernel_sp t) (kernel_trap_fn t) (epc t) (kernel_hartid t) (sp t) (tp t) (a0
    t) (a1 t) (a2 t) (a3 t) (a4 t) (a5 t) (a7 t) (others t).
Definition set_ksp (x : Z) (t : trapframe) : trapframe :=
  Trapframe (kernel_satp t) x (kernel_trap_fn t) (epc t) (kernel_hartid t) (sp t) (tp t)
    (a0 t) (a1 t) (a2 t) (a3 t) (a4 t) (a5 t) (a7 t) (others t).
Definition set_ktrap_fn (x : Z) (t : trapframe) : trapframe :=
  Trapframe (kernel_satp t) (kernel_sp t) x (epc t) (kernel_hartid t) (sp t) (tp t) (a0 t)
    (a1 t) (a2 t) (a3 t) (a4 t) (a5 t) (a7 t) (others t).
Definition set_epc (x : Z) (t : trapframe) : trapframe :=
  Trapframe (kernel_satp t) (kernel_sp t) (kernel_trap_fn t) x (kernel_hartid t) (sp t)
    (tp t) (a0 t) (a1 t) (a2 t) (a3 t) (a4 t) (a5 t) (a7 t) (others t).
Definition set_khartid (x : Z) (t : trapframe) : trapframe :=
  Trapframe (kernel_satp t) (kernel_sp t) (kernel_trap_fn t) (epc t) x (sp t) (tp t) (a0
    t) (a1 t) (a2 t) (a3 t) (a4 t) (a5 t) (a7 t) (others t).
Definition set_sp (x : Z) (t : trapframe) : trapframe :=
  Trapframe (kernel_satp t) (kernel_sp t) (kernel_trap_fn t) (epc t) (kernel_hartid t) x
    (tp t) (a0 t) (a1 t) (a2 t) (a3 t) (a4 t) (a5 t) (a7 t) (others t).
Definition set_tp (x : Z) (t : trapframe) : trapframe :=
  Trapframe (kernel_satp t) (kernel_sp t) (kernel_trap_fn t) (epc t) (kernel_hartid t) (sp
    t) x (a0 t) (a1 t) (a2 t) (a3 t) (a4 t) (a5 t) (a7 t) (others t).
Definition set_a0 (x : Z) (t : trapframe) : trapframe :=
  Trapframe (kernel_satp t) (kernel_sp t) (kernel_trap_fn t) (epc t) (kernel_hartid t) (sp
    t) (tp t) x (a1 t) (a2 t) (a3 t) (a4 t) (a5 t) (a7 t) (others t).

(** [struct proc]; [stopped], [continued] and [exit_signal] are never used. *)
Record proc := Proc {
  p_pid : Z;
  p_tgid : Z;
  p_state : proc_state;
  p_tls : Z;
  p_heap_start : Z;
  p_sz : Z;
  p_pagetable : Z;
  p_stack : Z;
  p_trapframe : Z;
  p_context : context;
  p_fdt : Z;
  p_cwd : Z;
  p_killed : bool;
  p_chan : Z;
  p_sleeping_due : Z;
  p_status : Z;
  p_waited : bool;
  p_parent : Z;
  p_next : Z;
  p_prev : Z;
  p_vma_list : Z;
  p_mmap_base : Z;
  p_mmap_brk : Z;
  p_cleartid : Z;
  p_sigchld : Z;
  p_name : string;
  p_utime : Z;
  p_stime : Z
}.

(** [struct vm_area] with its place in the list of its process. *)
Record area := Area {
  a_vma : vm_area;
  a_next : Z;
  a_prev : Z
}.

(** What [kcalloc] makes. *)
Definition zero_proc : proc :=
  Proc 0 0 INIT 0 0 0 0 0 0 (InitFunc 0 0) 0 0 false 0 0 0 false 0 0 0 0 0 0 0 0 EmptyString 0 0.

(** Setters of [struct proc]. *)
Definition set_p_pid (x : Z) (p : proc) : proc :=
  Proc x (p_tgid p) (p_state p) (p_tls p) (p_heap_start p) (p_sz p) (p_pagetable p) (p_stack
    p) (p_trapframe p) (p_context p) (p_fdt p) (p_cwd p) (p_killed p) (p_chan p)
    (p_sleeping_due p) (p_status p) (p_waited p) (p_parent p) (p_next p) (p_prev p)
    (p_vma_list p) (p_mmap_base p) (p_mmap_brk p) (p_cleartid p) (p_sigchld p) (p_name p)
    (p_utime p) (p_stime p).
Definition set_p_tgid (x : Z) (p : proc) : proc :=
  Proc (p_pid p) x (p_state p) (p_tls p) (p_heap_start p) (p_sz p) (p_pagetable p) (p_stack p)
    (p_trapframe p) (p_context p) (p_fdt p) (p_cwd p) (p_killed p) (p_chan p) (p_sleeping_due
    p) (p_status p) (p_waited p) (p_parent p) (p_next p) (p_prev p) (p_vma_list p)
    (p_mmap_base p) (p_mmap_brk p) (p_cleartid p) (p_sigchld p) (p_name p) (p_utime p)
    (p_stime p).
Definition set_p_state (x : proc_state) (p : proc) : proc :=
  Proc (p_pid p) (p_tgid p) x (p_tls p) (p_heap_start p) (p_sz p) (p_pagetable p) (p_stack p)
    (p_trapframe p) (p_context p) (p_fdt p) (p_cwd p) (p_killed p) (p_chan p) (p_sleeping_due
    p) (p_status p) (p_waited p) (p_parent p) (p_next p) (p_prev p) (p_vma_list p)
    (p_mmap_base p) (p_mmap_brk p) (p_cleartid p) (p_sigchld p) (p_name p) (p_utime p)
    (p_stime p).
Definition set_p_tls (x : Z) (p : proc) : proc :=
  Proc (p_pid p) (p_tgid p) (p_state p) x (p_heap_start p) (p_sz p) (p_pagetable p) (p_stack
    p) (p_trapframe p) (p_context p) (p_fdt p) (p_cwd p) (p_killed p) (p_chan p)
    (p_sleeping_due p) (p_status p) (p_waited p) (p_parent p) (p_next p) (p_prev p)
    (p_vma_list p) (p_mmap_base p) (p_mmap_brk p) (p_cleartid p) (p_sigchld p) (p_name p)
    (p_utime p) (p_stime p).
Definition set_p_heap_start (x : Z) (p : proc) : proc :=
  Proc (p_pid p) (p_tgid p) (p_state p) (p_tls p) x (p_sz p) (p_pagetable p) (p_stack p)
    (p_trapframe p) (p_context p) (p_fdt p) (p_cwd p) (p_killed p) (p_chan p) (p_sleeping_due
    p) (p_status p) (p_waited p) (p_parent p) (p_next p) (p_prev p) (p_vma_list p)
    (p_mmap_base p) (p_mmap_brk p) (p_cleartid p) (p_sigchld p) (p_name p) (p_utime p)
    (p_stime p).
Definition set_p_sz (x : Z) (p : proc) : proc :=
  Proc (p_pid p) (p_tgid p) (p_state p) (p_tls p) (p_heap_start p) x (p_pagetable p) (p_stack
    p) (p_trapframe p) (p_context p) (p_fdt p) (p_cwd p) (p_killed p) (p_chan p)
    (p_sleeping_due p) (p_status p) (p_waited p) (p_parent p) (p_next p) (p_prev p)
    (p_vma_list p) (p_mmap_base p) (p_mmap_brk p) (p_cleartid p) (p_sigchld p) (p_name p)
    (p_utime p) (p_stime p).
Definition set_p_pagetable (x : Z) (p : proc) : proc :=
  Proc (p_pid p) (p_tgid p) (p_state p) (p_tls p) (p_heap_start p) (p_sz p) x (p_stack p)
    (p_trapframe p) (p_context p) (p_fdt p) (p_cwd p) (p_killed p) (p_chan p) (p_sleeping_due
    p) (p_status p) (p_waited p) (p_parent p) (p_next p) (p_prev p) (p_vma_list p)
    (p_mmap_base p) (p_mmap_brk p) (p_cleartid p) (p_sigchld p) (p_name p) (p_utime p)
    (p_stime p).
Definition set_p_stack (x : Z) (p : proc) : proc :=
  Proc (p_pid p) (p_tgid p) (p_state p) (p_tls p) (p_heap_start p) (p_sz p) (p_pagetable p) x
    (p_trapframe p) (p_context p) (p_fdt p) (p_cwd p) (p_killed p) (p_chan p) (p_sleeping_due
    p) (p_status p) (p_waited p) (p_parent p) (p_next p) (p_prev p) (p_vma_list p)
    (p_mmap_base p) (p_mmap_brk p) (p_cleartid p) (p_sigchld p) (p_name p) (p_utime p)
    (p_stime p).
Definition set_p_trapframe (x : Z) (p : proc) : proc :=
  Proc (p_pid p) (p_tgid p) (p_state p) (p_tls p) (p_heap_start p) (p_sz p) (p_pagetable p)
    (p_stack p) x (p_context p) (p_fdt p) (p_cwd p) (p_killed p) (p_chan p) (p_sleeping_due p)
    (p_status p) (p_waited p) (p_parent p) (p_next p) (p_prev p) (p_vma_list p) (p_mmap_base
    p) (p_mmap_brk p) (p_cleartid p) (p_sigchld p) (p_name p) (p_utime p) (p_stime p).
Definition set_p_context (x : context) (p : proc) : proc :=
  Proc (p_pid p) (p_tgid p) (p_state p) (p_tls p) (p_heap_start p) (p_sz p) (p_pagetable p)
    (p_stack p) (p_trapframe p) x (p_fdt p) (p_cwd p) (p_killed p) (p_chan p) (p_sleeping_due
    p) (p_status p) (p_waited p) (p_parent p) (p_next p) (p_prev p) (p_vma_list p)
    (p_mmap_base p) (p_mmap_brk p) (p_cleartid p) (p_sigchld p) (p_name p) (p_utime p)
    (p_stime p).
Definition set_p_fdt (x : Z) (p : proc) : proc :=
  Proc (p_pid p) (p_tgid p) (p_state p) (p_tls p) (p_heap_start p) (p_sz p) (p_pagetable p)
    (p_stack p) (p_trapframe p) (p_context p) x (p_cwd p) (p_killed p) (p_chan p)
    (p_sleeping_due p) (p_status p) (p_waited p) (p_parent p) (p_next p) (p_prev p)
    (p_vma_list p) (p_mmap_base p) (p_mmap_brk p) (p_cleartid p) (p_sigchld p) (p_name p)
    (p_utime p) (p_stime p).
Definition set_p_cwd (x : Z) (p : proc) : proc :=
  Proc (p_pid p) (p_tgid p) (p_state p) (p_tls p) (p_heap_start p) (p_sz p) (p_pagetable p)
    (p_stack p) (p_trapframe p) (p_context p) (p_fdt p) x (p_killed p) (p_chan p)
    (p_sleeping_due p) (p_status p) (p_waited p) (p_parent p) (p_next p) (p_prev p)
    (p_vma_list p) (p_mmap_base p) (p_mmap_brk p) (p_cleartid p) (p_sigchld p) (p_name p)
    (p_utime p) (p_stime p).
Definition set_p_killed (x : bool) (p : proc) : proc :=
  Proc (p_pid p) (p_tgid p) (p_state p) (p_tls p) (p_heap_start p) (p_sz p) (p_pagetable p)
    (p_stack p) (p_trapframe p) (p_context p) (p_fdt p) (p_cwd p) x (p_chan p) (p_sleeping_due
    p) (p_status p) (p_waited p) (p_parent p) (p_next p) (p_prev p) (p_vma_list p)
    (p_mmap_base p) (p_mmap_brk p) (p_cleartid p) (p_sigchld p) (p_name p) (p_utime p)
    (p_stime p).
Definition set_p_chan (x : Z) (p : proc) : proc :=
  Proc (p_pid p) (p_tgid p) (p_state p) (p_tls p) (p_heap_start p) (p_sz p) (p_pagetable p)
    (p_stack p) (p_trapframe p) (p_context p) (p_fdt p) (p_cwd p) (p_killed p) x
    (p_sleeping_due p) (p_status p) (p_waited p) (p_parent p) (p_next p) (p_prev p)
    (p_vma_list p) (p_mmap_base p) (p_mmap_brk p) (p_cleartid p) (p_sigchld p) (p_name p)
    (p_utime p) (p_stime p).
Definition set_p_sleeping_due (x : Z) (p : proc) : proc :=
  Proc (p_pid p) (p_tgid p) (p_state p) (p_tls p) (p_heap_start p) (p_sz p) (p_pagetable p)
    (p_stack p) (p_trapframe p) (p_context p) (p_fdt p) (p_cwd p) (p_killed p) (p_chan p) x
    (p_status p) (p_waited p) (p_parent p) (p_next p) (p_prev p) (p_vma_list p) (p_mmap_base
    p) (p_mmap_brk p) (p_cleartid p) (p_sigchld p) (p_name p) (p_utime p) (p_stime p).
Definition set_p_status (x : Z) (p : proc) : proc :=
  Proc (p_pid p) (p_tgid p) (p_state p) (p_tls p) (p_heap_start p) (p_sz p) (p_pagetable p)
    (p_stack p) (p_trapframe p) (p_context p) (p_fdt p) (p_cwd p) (p_killed p) (p_chan p)
    (p_sleeping_due p) x (p_waited p) (p_parent p) (p_next p) (p_prev p) (p_vma_list p)
    (p_mmap_base p) (p_mmap_brk p) (p_cleartid p) (p_sigchld p) (p_name p) (p_utime p)
    (p_stime p).
Definition set_p_waited (x : bool) (p : proc) : proc :=
  Proc (p_pid p) (p_tgid p) (p_state p) (p_tls p) (p_heap_start p) (p_sz p) (p_pagetable p)
    (p_stack p) (p_trapframe p) (p_context p) (p_fdt p) (p_cwd p) (p_killed p) (p_chan p)
    (p_sleeping_due p) (p_status p) x (p_parent p) (p_next p) (p_prev p) (p_vma_list p)
    (p_mmap_base p) (p_mmap_brk p) (p_cleartid p) (p_sigchld p) (p_name p) (p_utime p)
    (p_stime p).
Definition set_p_parent (x : Z) (p : proc) : proc :=
  Proc (p_pid p) (p_tgid p) (p_state p) (p_tls p) (p_heap_start p) (p_sz p) (p_pagetable p)
    (p_stack p) (p_trapframe p) (p_context p) (p_fdt p) (p_cwd p) (p_killed p) (p_chan p)
    (p_sleeping_due p) (p_status p) (p_waited p) x (p_next p) (p_prev p) (p_vma_list p)
    (p_mmap_base p) (p_mmap_brk p) (p_cleartid p) (p_sigchld p) (p_name p) (p_utime p)
    (p_stime p).
Definition set_p_next (x : Z) (p : proc) : proc :=
  Proc (p_pid p) (p_tgid p) (p_state p) (p_tls p) (p_heap_start p) (p_sz p) (p_pagetable p)
    (p_stack p) (p_trapframe p) (p_context p) (p_fdt p) (p_cwd p) (p_killed p) (p_chan p)
    (p_sleeping_due p) (p_status p) (p_waited p) (p_parent p) x (p_prev p) (p_vma_list p)
    (p_mmap_base p) (p_mmap_brk p) (p_cleartid p) (p_sigchld p) (p_name p) (p_utime p)
    (p_stime p).
Definition set_p_prev (x : Z) (p : proc) : proc :=
  Proc (p_pid p) (p_tgid p) (p_state p) (p_tls p) (p_heap_start p) (p_sz p) (p_pagetable p)
    (p_stack p) (p_trapframe p) (p_context p) (p_fdt p) (p_cwd p) (p_killed p) (p_chan p)
    (p_sleeping_due p) (p_status p) (p_waited p) (p_parent p) (p_next p) x (p_vma_list p)
    (p_mmap_base p) (p_mmap_brk p) (p_cleartid p) (p_sigchld p) (p_name p) (p_utime p)
    (p_stime p).
Definition set_p_vma_list (x : Z) (p : proc) : proc :=
  Proc (p_pid p) (p_tgid p) (p_state p) (p_tls p) (p_heap_start p) (p_sz p) (p_pagetable p)
    (p_stack p) (p_trapframe p) (p_context p) (p_fdt p) (p_cwd p) (p_killed p) (p_chan p)
    (p_sleeping_due p) (p_status p) (p_waited p) (p_parent p) (p_next p) (p_prev p) x
    (p_mmap_base p) (p_mmap_brk p) (p_cleartid p) (p_sigchld p) (p_name p) (p_utime p)
    (p_stime p).
Definition set_p_mmap_base (x : Z) (p : proc) : proc :=
  Proc (p_pid p) (p_tgid p) (p_state p) (p_tls p) (p_heap_start p) (p_sz p) (p_pagetable p)
    (p_stack p) (p_trapframe p) (p_context p) (p_fdt p) (p_cwd p) (p_killed p) (p_chan p)
    (p_sleeping_due p) (p_status p) (p_waited p) (p_parent p) (p_next p) (p_prev p)
    (p_vma_list p) x (p_mmap_brk p) (p_cleartid p) (p_sigchld p) (p_name p) (p_utime p)
    (p_stime p).
Definition set_p_mmap_brk (x : Z) (p : proc) : proc :=
  Proc (p_pid p) (p_tgid p) (p_state p) (p_tls p) (p_heap_start p) (p_sz p) (p_pagetable p)
    (p_stack p) (p_trapframe p) (p_context p) (p_fdt p) (p_cwd p) (p_killed p) (p_chan p)
    (p_sleeping_due p) (p_status p) (p_waited p) (p_parent p) (p_next p) (p_prev p)
    (p_vma_list p) (p_mmap_base p) x (p_cleartid p) (p_sigchld p) (p_name p) (p_utime p)
    (p_stime p).
Definition set_p_cleartid (x : Z) (p : proc) : proc :=
  Proc (p_pid p) (p_tgid p) (p_state p) (p_tls p) (p_heap_start p) (p_sz p) (p_pagetable p)
    (p_stack p) (p_trapframe p) (p_context p) (p_fdt p) (p_cwd p) (p_killed p) (p_chan p)
    (p_sleeping_due p) (p_status p) (p_waited p) (p_parent p) (p_next p) (p_prev p)
    (p_vma_list p) (p_mmap_base p) (p_mmap_brk p) x (p_sigchld p) (p_name p) (p_utime p)
    (p_stime p).
Definition set_p_sigchld (x : Z) (p : proc) : proc :=
  Proc (p_pid p) (p_tgid p) (p_state p) (p_tls p) (p_heap_start p) (p_sz p) (p_pagetable p)
    (p_stack p) (p_trapframe p) (p_context p) (p_fdt p) (p_cwd p) (p_killed p) (p_chan p)
    (p_sleeping_due p) (p_status p) (p_waited p) (p_parent p) (p_next p) (p_prev p)
    (p_vma_list p) (p_mmap_base p) (p_mmap_brk p) (p_cleartid p) x (p_name p) (p_utime p)
    (p_stime p).
Definition set_p_name (x : string) (p : proc) : proc :=
  Proc (p_pid p) (p_tgid p) (p_state p) (p_tls p) (p_heap_start p) (p_sz p) (p_pagetable p)
    (p_stack p) (p_trapframe p) (p_context p) (p_fdt p) (p_cwd p) (p_killed p) (p_chan p)
    (p_sleeping_due p) (p_status p) (p_waited p) (p_parent p) (p_next p) (p_prev p)
    (p_vma_list p) (p_mmap_base p) (p_mmap_brk p) (p_cleartid p) (p_sigchld p) x (p_utime p)
    (p_stime p).
Definition set_p_utime (x : Z) (p : proc) : proc :=
  Proc (p_pid p) (p_tgid p) (p_state p) (p_tls p) (p_heap_start p) (p_sz p) (p_pagetable p)
    (p_stack p) (p_trapframe p) (p_context p) (p_fdt p) (p_cwd p) (p_killed p) (p_chan p)
    (p_sleeping_due p) (p_status p) (p_waited p) (p_parent p) (p_next p) (p_prev p)
    (p_vma_list p) (p_mmap_base p) (p_mmap_brk p) (p_cleartid p) (p_sigchld p) (p_name p) x
    (p_stime p).
Definition set_p_stime (x : Z) (p : proc) : proc :=
  Proc (p_pid p) (p_tgid p) (p_state p) (p_tls p) (p_heap_start p) (p_sz p) (p_pagetable p)
    (p_stack p) (p_trapframe p) (p_context p) (p_fdt p) (p_cwd p) (p_killed p) (p_chan p)
    (p_sleeping_due p) (p_status p) (p_waited p) (p_parent p) (p_next p) (p_prev p)
    (p_vma_list p) (p_mmap_base p) (p_mmap_brk p) (p_cleartid p) (p_sigchld p) (p_name p)
    (p_utime p) x.

(** The kernel: the memory and files below, processes, areas, directory strings and
    trapframes by address, the list of processes, and the one CPU's running process. *)
Record kernel (F : Type) := Kernel {
  kvm : vm;
  kfs : vfs F;
  procs : gmap Z proc;
  areas : gmap Z area;
  cwds : gmap Z str;
  tframes : gmap Z trapframe;
  proc_list : Z;
  init_proc : Z;
  next_pid : Z;
  cur : Z;
  tick_counter : Z
}.
Arguments Kernel {F} _ _ _ _ _ _ _ _ _ _ _.
Arguments kvm {F} _.
Arguments kfs {F} _.
Arguments procs {F} _.
Arguments areas {F} _.
Arguments cwds {F} _.
Arguments tframes {F} _.
Arguments proc_list {F} _.
Arguments init_proc {F} _.
Arguments next_pid {F} _.
Arguments cur {F} _.
Arguments tick_counter {F} _.

Section setters.
Context {F : Type}.

Definition set_kvm (x : vm) (s : kernel F) : kernel F :=
  Kernel x (kfs s) (procs s) (areas s) (cwds s) (tframes s) (proc_list s) (init_proc s)
    (next_pid s) (cur s) (tick_counter s).
Definition set_kfs (x : vfs F) (s : kernel F) : kernel F :=
  Kernel (kvm s) x (procs s) (areas s) (cwds s) (tframes s) (proc_list s) (init_proc s)
    (next_pid s) (cur s) (tick_counter s).
Definition set_procs (x : gmap Z proc) (s : kernel F) : kernel F :=
  Kernel (kvm s) (kfs s) x (areas s) (cwds s) (tframes s) (proc_list s) (init_proc s)
    (next_pid s) (cur s) (tick_counter s).
Definition set_areas (x : gmap Z area) (s : kernel F) : kernel F :=
  Kernel (kvm s) (kfs s) (procs s) x (cwds s) (tframes s) (proc_list s) (init_proc s)
    (next_pid s) (cur s) (tick_counter s).
Definition set_cwds (x : gmap Z str) (s : kernel F) : kernel F :=
  Kernel (kvm s) (kfs s) (procs s) (areas s) x (tframes s) (proc_list s) (init_proc s)
    (next_pid s) (cur s) (tick_counter s).
Definition set_tframes (x : gmap Z trapframe) (s : kernel F) : kernel F :=
  Kernel (kvm s) (kfs s) (procs s) (areas s) (cwds s) x (proc_list s) (init_proc s) (next_pid
    s) (cur s) (tick_counter s).
Definition set_proc_list (x : Z) (s : kernel F) : kernel F :=
  Kernel (kvm s) (kfs s) (procs s) (areas s) (cwds s) (tframes s) x (init_proc s) (next_pid s)
    (cur s) (tick_counter s).
Definition set_init_proc (x : Z) (s : kernel F) : kernel F :=
  Kernel (kvm s) (kfs s) (procs s) (areas s) (cwds s) (tframes s) (proc_list s) x (next_pid s)
    (cur s) (tick_counter s).
Definition set_next_pid (x : Z) (s : kernel F) : kernel F :=
  Kernel (kvm s) (kfs s) (procs s) (areas s) (cwds s) (tframes s) (proc_list s) (init_proc s)
    x (cur s) (tick_counter s).
Definition set_cur (x : Z) (s : kernel F) : kernel F :=
  Kernel (kvm s) (kfs s) (procs s) (areas s) (cwds s) (tframes s) (proc_list s) (init_proc s)
    (next_pid s) x (tick_counter s).
Definition set_tick_counter (x : Z) (s : kernel F) : kernel F :=
  Kernel (kvm s) (kfs s) (procs s) (areas s) (cwds s) (tframes s) (proc_list s) (init_proc s)
    (next_pid s) (cur s) x.
End setters.

#[export] Instance kernel_vm_lens F : LawfulLens (Lens (S := kernel F) kvm set_kvm).
Proof. split; by intros; destruct s || done. Qed.
#[export] Instance kernel_fs_lens F : LawfulLens (Lens (S := kernel F) kfs set_kfs).
Proof. split; by intros; destruct s || done. Qed.

Section task.
Context {F : Type} `{SysEnv F} `{VmEnv}.

(** An operation of the page tables, and one of the files. *)
Definition on_vm {A} (m : M vm A) : M (kernel F) A := zoom (Lens kvm set_kvm) m.
Definition on_fs {A} (m : M (vfs F) A) : M (kernel F) A := zoom (Lens kfs set_kfs) m.

Definition get_proc (p : Z) : M (kernel F) proc := mtry (λ s, procs s !! p).
(** An assignment to fields of a process. *)
Definition upd_proc (p : Z) (f : proc → proc) : M (kernel F) unit :=
  x ← get_proc p; modify (λ s, set_procs (<[p := f x]> (procs s)) s).
Definition get_area (v : Z) : M (kernel F) area := mtry (λ s, areas s !! v).
Definition upd_area (v : Z) (f : area → area) : M (kernel F) unit :=
  x ← get_area v; modify (λ s, set_areas (<[v := f x]> (areas s)) s).

Definition set_a_vma x a := Area x (a_next a) (a_prev a).
Definition set_a_next x a := Area (a_vma a) x (a_prev a).
Definition set_a_prev x a := Area (a_vma a) (a_next a) x.
Definition set_v_start x a :=
  set_a_vma (VmArea x (v_end (a_vma a)) (v_prot (a_vma a)) (v_flags (a_vma a))
    (v_file (a_vma a)) (v_offset (a_vma a))) a.
Definition set_v_end x a :=
  set_a_vma (VmArea (v_start (a_vma a)) x (v_prot (a_vma a)) (v_flags (a_vma a))
    (v_file (a_vma a)) (v_offset (a_vma a))) a.

(** [KALLOC(struct vm_area, vma)]: what the fresh memory holds is unknown, [junk] here. *)
Definition kalloc_area (junk : area) : M (kernel F) Z :=
  v ← on_vm kalloc;
  mwhen (ctrue v) (modify (λ s, set_areas (<[v := junk]> (areas s)) s));;
  mret v.
Definition kfree_area (v : Z) : M (kernel F) unit :=
  get_area v;;
  modify (λ s, set_areas (delete v (areas s)) s);;
  on_vm (PageTable.kfree v).

(** [myproc()]. *)
Definition myproc : M (kernel F) Z :=
  on_fs (zoom lock_lens (irq_pushoff 0));;
  p ← gets cur;
  on_fs (zoom lock_lens (irq_popoff 0));;
  mret p.

(** [UPGTBL(p->pagetable)]. *)
Definition UPGTBL (u : Z) : M vm Z := x ← mtry (λ s, upgtbls s !! u); mret x.1.
Definition pgtbl_of (p : Z) : M (kernel F) Z :=
  x ← get_proc p; on_vm (UPGTBL (p_pagetable x)).

(** [intr_get], [intr_on] and [intr_off] on the one CPU. *)
Definition intr_get : M (vfs F) bool := c ← mtry (λ s, cpus (venv s) !! 0%nat); mret (intr c).
Definition intr_set (b : bool) : M (vfs F) unit :=
  c ← mtry (λ s, cpus (venv s) !! 0%nat);
  modify (λ s, set_venv (set_cpu 0 (Cpu (noff c) (intena c) b) (venv s)) s).
End task.

(** ** Reading the running process *)

Section task_lemmas.
Context {F : Type} `{SysEnv F} `{VmEnv}.

(** The state after a look at the running process: interrupt nesting was entered once. *)
Definition peeked (s : kernel F) : kernel F :=
  set_kfs (set_venv (touched (venv (kfs s))) (kfs s)) s.
Definition cpu_ok (s : kernel F) : Prop := env_ok (venv (kfs s)).

Lemma myproc_run (s : kernel F) : cpu_ok s → myproc s = Ret (cur s, peeked s).
Proof.
  intros (c & Hc & Hn & Hi). unfold myproc, on_fs, zoom. munfold. cbn.
  rewrite (irq_pushoff_ok 0 _ c) by (done || lia). cbn.
  assert (Hlt : (0 < length (cpus (venv (kfs s))))%nat) by eauto using lookup_lt_Some.
  erewrite (irq_popoff_ok 0 _ (enter_cpu c)); [|by apply list_lookup_insert_eq|done|cbn; lia].
  cbn. unfold peeked, touched, on_cpu0, set_cpu. destruct s as [v [[[|c0 cs] ls] ???? ????? ?]].
  { done. }
  cbn in *. simplify_eq/=. unfold touch_cpu, enter_cpu. cbn.
  replace (noff c + 1 - 1) with (noff c) by lia.
  destruct (Z.eqb_spec (noff c) 0); cbn; [done|]. by rewrite Hi by lia.
Qed.

Lemma peeked_ok (s : kernel F) : cpu_ok s → cpu_ok (peeked s).
Proof. apply touched_env_ok. Qed.

Lemma get_proc_run (s : kernel F) p x : procs s !! p = Some x → get_proc p s = Ret (x, s).
Proof. intros E. unfold get_proc, mtry. by rewrite E. Qed.
Lemma upd_proc_run (s : kernel F) p x f :
  procs s !! p = Some x → upd_proc p f s = Ret (tt, set_procs (<[p := f x]> (procs s)) s).
Proof. intros E. unfold upd_proc. by mstep (get_proc_run s p x E). Qed.
Lemma get_area_run (s : kernel F) v a : areas s !! v = Some a → get_area v s = Ret (a, s).
Proof. intros E. unfold get_area, mtry. by rewrite E. Qed.
Lemma upd_area_run (s : kernel F) v a f :
  areas s !! v = Some a → upd_area v f s = Ret (tt, set_areas (<[v := f a]> (areas s)) s).
Proof. intros E. unfold upd_area. by mstep (get_area_run s v a E). Qed.
Lemma on_vm_run {A} (m : M vm A) (s : kernel F) a v :
  m (kvm s) = Ret (a, v) → on_vm m s = Ret (a, set_kvm v s).
Proof. intros E. unfold on_vm, zoom. cbn. by rewrite E. Qed.
Lemma on_fs_run {A} (m : M (vfs F) A) (s : kernel F) a v :
  m (kfs s) = Ret (a, v) → on_fs m s = Ret (a, set_kfs v s).
Proof. intros E. unfold on_fs, zoom. cbn. by rewrite E. Qed.
End task_lemmas.
