(* ===== verification/Vma.v ===== *)
(** * Memory areas: mmap, munmap, brk and faults on unmapped pages

    Models [kernel/mm/sys_mm.c] and [page_unmap_handler] of [kernel/arch/riscv/mm/mm.c].  The
    areas of a process are nodes linked through [next] and [prev]; a walk along [next] has
    one unit of fuel per area that exists, so running out means the list is circular and
    the C loop does not end. *)

From S2P Require Export Task.

Definition PROT_READ : Z := 1.
Definition PROT_WRITE : Z := 2.
Definition PROT_EXEC : Z := 4.
Definition MAP_SHARED : Z := 1.
Definition MAP_PRIVATE : Z := 2.
Definition MAP_FIXED : Z := 16.
Definition MAP_ANONYMOUS : Z := 32.
Definition MAP_FAILED : Z := 2 ^ 64 - 1.
Definition MMAP_BASE : Z := 0x800000000.
Definition MMAP_INIT_SIZE : Z := 0x40000000.
Definition MMAP_EXPAND : Z := 0x40000000.
Definition SEEK_SET : Z := 0.
Definition PTE_D : Z := 0x080.
Definition PTE_RW : Z := Z.lor (Z.lor PTE_V PTE_W) PTE_R.
Definition LOAD_ACCESS_FAULT : Z := 5.
Definition STORE_AMO_ACCESS_FAULT : Z := 7.

Section vma.
Context {F : Type} `{SysEnv F} `{VmEnv}.

(** Fuel for a walk along [next]. *)
Definition area_fuel (s : kernel F) : nat := S (base.size (areas s)).

(** [inl r] is the [return r] inside the loop, [inr hint] its end. *)
Fixpoint range_loop (fuel : nat) (v hint length : Z) : M (kernel F) (Z + Z) :=
  if v =? 0 then mret (inr hint)
  else
    match fuel with
    | O => mspin
    | S fuel =>
        a ← get_area v;
        if u64 (hint + length) <=? v_start (a_vma a) then mret (inl hint)
        else range_loop fuel (a_next a) (u64 (v_end (a_vma a) - length)) length
    end.

Definition find_free_vma_range (p length : Z) : M (kernel F) Z :=
  x ← get_proc p;
  fuel ← gets area_fuel;
  r ← range_loop fuel (p_vma_list x) (u64 (p_mmap_brk x - length)) length;
  match r with
  | inl hint => mret hint
  | inr hint =>
      if hint <? p_mmap_base x then
        let expand_size := MAX length MMAP_EXPAND in
        upd_proc p (set_p_mmap_brk (u64 (p_mmap_brk x + expand_size)));;
        mret 0
      else mret hint
  end.

Fixpoint find_vma_loop (fuel : nat) (v va : Z) : M (kernel F) Z :=
  if v =? 0 then mret 0
  else
    match fuel with
    | O => mspin
    | S fuel =>
        a ← get_area v;
        if (v_start (a_vma a) <=? va) && (va <? v_end (a_vma a)) then mret v
        else find_vma_loop fuel (a_next a) va
    end.

Definition find_vma (p va : Z) : M (kernel F) Z :=
  x ← get_proc p;
  fuel ← gets area_fuel;
  find_vma_loop fuel (p_vma_list x) va.

(** [prev] of the new area, like every field not assigned, is what the memory held. *)
Definition sys_mmap (junk : area) (addr length prot flags fd offset : Z) : M (kernel F) Z :=
  p ← myproc;
  return_if (length =? 0) || negb (IS_PGALIGNED offset) with MAP_FAILED;;
  return_if negb (Z.land offset (PGSIZE - 1) =? 0) with MAP_FAILED;;
  let length := PGROUNDUP length in
  va ← (if ctrue (Z.land flags MAP_FIXED) then
          mret (if IS_PGALIGNED addr then Some addr else None)
        else
          va ← find_free_vma_range p length;
          mret (if ctrue va then Some va else None));
  match va with
  | None => mret MAP_FAILED
  | Some va =>
      v ← kalloc_area junk;
      upd_area v (λ a, set_a_vma (VmArea va (u64 (va + length)) prot flags
                         (v_file (a_vma a)) offset) a);;
      x ← get_proc p;
      ok ← (if ctrue (Z.land flags MAP_ANONYMOUS) then
              upd_area v (λ a, set_a_vma (VmArea va (u64 (va + length)) prot flags 0 offset) a);;
              mret true
            else if (0 <=? fd) && (fd <? NR_OPEN) then
              f ← on_fs (fd_get (p_fdt x) fd);
              upd_area v (λ a, set_a_vma (VmArea va (u64 (va + length)) prot flags f offset) a);;
              if ctrue f then on_fs (file_get f);; mret true else mret false
            else mret false);
      if (ok : bool) then
        upd_area v (set_a_next (p_vma_list x));;
        mwhen (ctrue (p_vma_list x)) (upd_area (p_vma_list x) (set_a_prev v));;
        upd_proc p (set_p_vma_list v);;
        mret 0
      else mret MAP_FAILED
  end.

(** The pages from [a] on whose entries are dirty go back to the file. *)
Fixpoint write_back_loop (n : nat) (pgtbl file offset start a : Z) : M (kernel F) unit :=
  match n with
  | O => mret tt
  | S n =>
      pte ← on_vm (walk pgtbl a false);
      e ← on_vm (rd_pte pte);
      mwhen (ctrue (Z.land e PTE_D))
        (on_fs (kernel_lseek file (offset + (a - start)) SEEK_SET);;
         on_fs (kernel_write file a PGSIZE);; mret tt);;
      write_back_loop n pgtbl file offset start (u64 (a + PGSIZE))
  end.

(** The end of [do_munmap]: the area [v] keeps what is left of it. *)
Definition shrink_vma (junk : area) (p v unmap_start unmap_end : Z) : M (kernel F) unit :=
  a ← get_area v;
  let vma := a_vma a in
  if (unmap_start =? v_start vma) && (unmap_end =? v_end vma) then
    (if ctrue (a_prev a) then
       upd_area (a_prev a) (set_a_next (a_next a));;
       a ← get_area v;
       mwhen (ctrue (a_next a)) (upd_area (a_next a) (set_a_prev (a_prev a)))
     else
       upd_proc p (set_p_vma_list (a_next a));;
       upd_area (a_next a) (set_a_prev 0));;
    mwhen (ctrue (v_file vma)) (on_fs (file_put (v_file vma));; mret tt);;
    kfree_area v
  else if unmap_start =? v_start vma then upd_area v (set_v_start unmap_end)
  else if unmap_end =? v_end vma then upd_area v (set_v_end unmap_start)
  else
    n ← kalloc_area junk;
    upd_area n (λ _, a);;
    upd_area n (set_v_start unmap_end);;
    upd_area v (set_v_end unmap_start);;
    upd_area n (set_a_next (a_next a));;
    upd_area v (set_a_next n);;
    mwhen (ctrue (a_next a)) (upd_area (a_next a) (set_a_prev n));;
    upd_area n (set_a_prev v).

Definition do_munmap (junk : area) (addr length : Z) : M (kernel F) Z :=
  let va := PGROUNDDOWN addr in
  let length := PGROUNDUP length in
  return_if length =? 0 with (-1);;
  p ← myproc;
  v ← find_vma p va;
  return_if v =? 0 with (-1);;
  a ← get_area v;
  let vma := a_vma a in
  let unmap_start := MAX va (v_start vma) in
  let unmap_end := MIN (u64 (va + length)) (v_end vma) in
  let unmap_len := u64 (unmap_end - unmap_start) in
  pgtbl ← pgtbl_of p;
  mwhen (ctrue (Z.land (v_flags vma) MAP_SHARED) && negb (ctrue (Z.land (v_flags vma) MAP_PRIVATE)))
    (write_back_loop (Z.to_nat ((unmap_end - unmap_start + PGOFFMASK) / PGSIZE)) pgtbl
       (v_file vma) (v_offset vma) (v_start vma) unmap_start);;
  on_vm (uvmunmap pgtbl unmap_start (Z.shiftr unmap_len PGSHIFT) true);;
  shrink_vma junk p v unmap_start unmap_end;;
  mret 0.

Definition sys_munmap (junk : area) (addr length : Z) : M (kernel F) Z := do_munmap junk addr length.

Definition sys_brk (brk : Z) : M (kernel F) Z :=
  p ← myproc;
  x ← get_proc p;
  let old_brk := p_sz x in
  return_if brk =? 0 with old_brk;;
  return_if (brk <? p_heap_start x) || (MAXVA <? brk) with u64 (-1);;
  let new_brk := PGROUNDUP brk in
  pgtbl ← pgtbl_of p;
  ok ← (if old_brk <? new_brk then
          let size := new_brk - old_brk in
          pa ← on_vm (kalloc_bytes size);
          if pa =? 0 then mret false
          else on_vm (mappages pgtbl old_brk pa size (Z.lor PTE_RW PTE_U));; mret true
        else if new_brk <? old_brk then
          let npages := i32 (Z.shiftr (old_brk - new_brk) PGSHIFT) in
          on_vm (uvmunmap pgtbl new_brk (u64 npages) true);; mret true
        else mret true);
  if (ok : bool) then upd_proc p (set_p_sz new_brk);; mret 0
  else mret (u64 (-1)).

(** The entry flags for a page of an area; [true] stands for the failed [CHECK], whose
    effect is [p->killed = 1]. *)
Definition fault_perm (prot flags : Z) : Z :=
  let perm := PTE_U in
  let perm := Z.lor perm (if ctrue (Z.land prot PROT_READ) then PTE_R else 0) in
  let perm := Z.lor perm (if ctrue (Z.land prot PROT_EXEC) then PTE_X else 0) in
  let perm := Z.lor perm (if ctrue (Z.land prot PROT_WRITE) then PTE_W else 0) in
  if ctrue (Z.land flags MAP_PRIVATE) then Z.lor (Z.land perm (Z.lnot PTE_W)) PTE_COW
  else if ctrue (Z.land flags MAP_SHARED) then Z.lor perm PTE_G
  else perm.

Definition page_unmap_handler (badv scause : Z) : M (kernel F) unit :=
  p ← myproc;
  let va := PGROUNDDOWN badv in
  v ← find_vma p va;
  if v =? 0 then upd_proc p (set_p_killed true)
  else
    a ← get_area v;
    let vma := a_vma a in
    if negb (((scause =? STORE_AMO_ACCESS_FAULT) && ctrue (Z.land (v_prot vma) PROT_WRITE)) &&
             ((scause =? LOAD_ACCESS_FAULT) && ctrue (Z.land (v_prot vma) PROT_READ)))
    then upd_proc p (set_p_killed true)
    else
      mem ← on_vm kalloc;
      if mem =? 0 then upd_proc p (set_p_killed true)
      else
        on_vm (on_pmem (memset mem 0 (Z.to_nat PGSIZE)));;
        mwhen (ctrue (v_file vma)) (on_fs (file_put (v_file vma));; mret tt);;
        pgtbl ← pgtbl_of p;
        on_vm (mappages pgtbl va mem PGSIZE (fault_perm (v_prot vma) (v_flags vma))).

(** ** The list of areas of a process *)

(** From [v] on, [next] leads through the areas [l] to [w], and each [prev] is the node
    before, [pv] for the first. *)
Fixpoint aseg (m : gmap Z area) (pv v : Z) (l : list (Z * vm_area)) (w : Z) : Prop :=
  match l with
  | [] => v = w
  | (a, x) :: l => v = a ∧ a ≠ 0 ∧ ∃ nx, m !! a = Some (Area x nx pv) ∧ aseg m a nx l w
  end.
Definition alist m pv v l : Prop := aseg m pv v l 0.

(** The last node of a segment. *)
Definition last_of (pv : Z) (l : list (Z * vm_area)) : Z := default pv (last l.*1).

Lemma aseg_app m w l1 : ∀ pv v l2,
  aseg m pv v (l1 ++ l2) w ↔ ∃ u, aseg m pv v l1 u ∧ aseg m (last_of pv l1) u l2 w.
Proof.
  induction l1 as [|[a x] l1 IH]; intros pv v l2; cbn [app aseg].
  { split; [eauto|]. by intros (u & -> & ?). }
  assert (El : last_of pv ((a, x) :: l1) = last_of a l1).
  { unfold last_of. cbn [fmap list_fmap fst]. by rewrite last_cons; destruct (last (l1.*1)). }
  rewrite El. split.
  - intros (-> & Ha & nx & Hm & (u & Hu1 & Hu2)%IH). exists u. split; [|done]. eauto.
  - intros (u & (-> & Ha & nx & Hm & Hl) & Hu2). split_and!; [done..|]. exists nx.
    split; [done|]. apply IH. eauto.
Qed.

Lemma aseg_dom m w l : ∀ pv v, aseg m pv v l w → l.*1 ⊆ elements (dom m).
Proof.
  induction l as [|[a x] l IH]; intros pv v; cbn; [intros _; set_solver|].
  intros (-> & _ & nx & Hm & Hl). specialize (IH _ _ Hl).
  assert (a ∈ elements (dom m)) by (apply elem_of_elements, elem_of_dom; eauto).
  set_solver.
Qed.

Lemma alist_fuel m pv v l : alist m pv v l → NoDup l.*1 → (length l < S (base.size m))%nat.
Proof.
  intros Hl Hn.
  pose proof (submseteq_length _ _ (NoDup_submseteq _ _ Hn (aseg_dom _ _ _ _ _ Hl))) as Hle.
  rewrite length_fmap in Hle. change (length (elements (dom m))) with (base.size (dom m)) in Hle.
  rewrite size_dom in Hle. lia.
Qed.

(** Nodes outside a segment may change. *)
Lemma aseg_ext m m' w l : ∀ pv v,
  (∀ a, a ∈ l.*1 → m' !! a = m !! a) → aseg m pv v l w → aseg m' pv v l w.
Proof.
  induction l as [|[b y] l IH]; intros pv v Hm; cbn; [done|].
  intros (-> & Hb & nx & Hb' & Hl). split_and!; [done..|]. exists nx.
  split; [rewrite Hm by (cbn; left); done|]. apply IH; [|done]. intros a Ha. apply Hm. by right.
Qed.

(** ** Looking an area up *)

Lemma find_vma_loop_run (s : kernel F) va l : ∀ fuel pv v,
  alist (areas s) pv v l → (length l < fuel)%nat →
  find_vma_loop fuel v va s =
    Ret (match list_find (λ ax, v_start ax.2 ≤ va ∧ va < v_end ax.2) l with
         | Some (_, (a, _)) => a | None => 0 end, s).
Proof.
  induction l as [|[a x] l IH]; intros fuel pv v Hl Hf; destruct fuel as [|fuel]; cbn in Hf; try lia;
    cbn [find_vma_loop].
  { cbn in Hl. by rewrite Hl. }
  destruct Hl as (-> & Ha & nx & Hm & Hl).
  rewrite (proj2 (Z.eqb_neq _ _)) by done. mstep (get_area_run s a _ Hm). cbn [a_vma a_next].
  cbn [list_find snd]. destruct (decide (v_start x ≤ va ∧ va < v_end x)) as [[Hv1 Hv2]|Hnv].
  - by rewrite (proj2 (Z.leb_le _ _) Hv1), (proj2 (Z.ltb_lt _ _) Hv2).
  - destruct (Z.leb_spec (v_start x) va), (Z.ltb_spec va (v_end x)); try tauto; cbn [andb];
      (rewrite (IH fuel a nx) by (done || lia); do 2 f_equal;
       by destruct (list_find _ l) as [[? []]|]).
Qed.

Lemma find_vma_run (s : kernel F) p x l va :
  procs s !! p = Some x → alist (areas s) 0 (p_vma_list x) l → NoDup l.*1 →
  find_vma p va s =
    Ret (match list_find (λ ax, v_start ax.2 ≤ va ∧ va < v_end ax.2) l with
         | Some (_, (a, _)) => a | None => 0 end, s).
Proof.
  intros Hp Hl Hn. unfold find_vma. mstep (get_proc_run s p x Hp). unfold gets.
  erewrite mbind_Ret by done. eapply find_vma_loop_run; [done|]. by eapply alist_fuel.
Qed.

(** ** Where mmap puts an area *)

Definition range_of (length : Z) : list (Z * vm_area) → Z → Z + Z :=
  fix go l hint := match l with
  | [] => inr hint
  | (_, x) :: l =>
      if u64 (hint + length) <=? v_start x then inl hint else go l (u64 (v_end x - length))
  end.

Lemma range_loop_run (s : kernel F) length l : ∀ fuel pv v hint,
  alist (areas s) pv v l → (List.length l < fuel)%nat →
  range_loop fuel v hint length s = Ret (range_of length l hint, s).
Proof.
  induction l as [|[a x] l IH]; intros fuel pv v hint Hl Hf; destruct fuel as [|fuel];
    cbn in Hf; try lia; cbn [range_loop].
  { cbn in Hl. by rewrite Hl. }
  destruct Hl as (-> & Ha & nx & Hm & Hl).
  rewrite (proj2 (Z.eqb_neq _ _)) by done. mstep (get_area_run s a _ Hm). cbn [a_vma a_next].
  cbn [range_of]. destruct (u64 (hint + length) <=? v_start x); [done|].
  apply (IH fuel a nx); [done|lia].
Qed.

(** The end of the proposed range: the end of an area already there, or the end of the
    mmap region when it lies below every start seen. *)
Lemma range_of_end length l : ∀ hint,
  0 ≤ hint → hint + length < 2 ^ 64 → 0 < length →
  (∀ a x, (a, x) ∈ l → length ≤ v_end x < 2 ^ 64) →
  let r := match range_of length l hint with inl r => r | inr r => r end in
  (r = hint ∧ (l = [] ∨ ∃ a x l', l = (a, x) :: l' ∧ hint + length ≤ v_start x)) ∨
  ∃ a x, (a, x) ∈ l ∧ r = v_end x - length.
Proof.
  induction l as [|[a x] l IH]; intros hint Hh Hb Hl Hx; cbn [range_of]; [naive_solver|].
  rewrite (u64_small (hint + length)) by lia.
  destruct (Z.leb_spec (hint + length) (v_start x)) as [Hle|Hgt].
  { left. split; [done|]. right. by eauto 10. }
  destruct (Hx a x) as [Hx1 Hx2]; [by left|]. right.
  rewrite (u64_small (v_end x - length)) by lia.
  destruct (IH (v_end x - length)) as [[-> _]|(b & y & Hin & ->)]; try lia.
  - intros b y Hin. apply (Hx b). by right.
  - exists a, x. split; [by left|done].
  - exists b, y. split; [by right|done].
Qed.

(** ** Relinking *)

Lemma aseg_last_next m pv v l b y w w' A :
  aseg m pv v (l ++ [(b, y)]) w → NoDup (l ++ [(b, y)]).*1 → m !! b = Some A →
  aseg (<[b := set_a_next w' A]> m) pv v (l ++ [(b, y)]) w'.
Proof.
  rewrite fmap_app, !aseg_app. intros (u & Hl & -> & Hb & nx & Hm & _) Hn HA. exists b.
  apply NoDup_app in Hn as (_ & Hn & _). split.
  - apply (aseg_ext m); [|done]. intros a Ha. apply lookup_insert_ne. intros ->.
    apply (Hn a Ha). by left.
  - split_and!; [done..|]. exists w'. rewrite lookup_insert_eq. by simplify_eq.
Qed.

Lemma aseg_head_prev m pv pv' v l b y w A :
  aseg m pv v ((b, y) :: l) w → b ∉ l.*1 → m !! b = Some A →
  aseg (<[b := set_a_prev pv' A]> m) pv' v ((b, y) :: l) w.
Proof.
  intros (-> & Hb & nx & Hm & Hl) Hn HA. split_and!; [done..|]. exists nx.
  rewrite lookup_insert_eq. simplify_eq. split; [done|].
  apply (aseg_ext m); [|done]. intros a Ha. apply lookup_insert_ne. congruence.
Qed.

(** A segment whose nodes all differ from [a]. *)
Lemma aseg_insert_other m pv v l w a A :
  a ∉ l.*1 → aseg m pv v l w → aseg (<[a := A]> m) pv v l w.
Proof. intros Hn. apply aseg_ext. intros b Hb. apply lookup_insert_ne. congruence. Qed.
Lemma aseg_delete_other m pv v l w a :
  a ∉ l.*1 → aseg m pv v l w → aseg (delete a m) pv v l w.
Proof. intros Hn. apply aseg_ext. intros b Hb. apply lookup_delete_ne. congruence. Qed.

Definition with_start z x := VmArea z (v_end x) (v_prot x) (v_flags x) (v_file x) (v_offset x).
Definition with_end z x := VmArea (v_start x) z (v_prot x) (v_flags x) (v_file x) (v_offset x).

(** What is left of an area [x] at [v] after [us .. ue) is cut out, with [n] a fresh node. *)
Definition cut (n v : Z) (x : vm_area) (us ue : Z) : list (Z * vm_area) :=
  if us =? v_start x then if ue =? v_end x then [] else [(v, with_start ue x)]
  else if ue =? v_end x then [(v, with_end us x)] else [(v, with_end us x); (n, with_start ue x)].

(** A node of the list in the middle of it. *)
Lemma alist_mid m v l1 a x l2 :
  alist m 0 v (l1 ++ (a, x) :: l2) →
  ∃ nx, m !! a = Some (Area x nx (last_of 0 l1)) ∧ a ≠ 0 ∧
    aseg m 0 v l1 a ∧ aseg m a nx l2 0.
Proof. intros (u & Hl1 & -> & Ha & nx & Hm & Hl2)%aseg_app. eauto 10. Qed.

Lemma alist_replace m v l1 a x x' l2 nx :
  alist m 0 v (l1 ++ (a, x) :: l2) → NoDup (l1 ++ (a, x) :: l2).*1 →
  m !! a = Some (Area x nx (last_of 0 l1)) →
  alist (<[a := Area x' nx (last_of 0 l1)]> m) 0 v (l1 ++ (a, x') :: l2).
Proof.
  intros (nx' & Hm & Ha & Hl1 & Hl2)%alist_mid Hn Hm'. simplify_eq.
  rewrite fmap_app in Hn. cbn in Hn. apply NoDup_app in Hn as (_ & Hn1 & [Hn2 _]%NoDup_cons).
  apply aseg_app. exists a. split.
  - apply aseg_insert_other; [|done]. intros Hin. apply (Hn1 a Hin). by left.
  - split_and!; [done..|]. exists nx'. rewrite lookup_insert_eq. split; [done|].
    by apply aseg_insert_other.
Qed.

(** The state after the area list of [p] became [l]: files and page tables as before. *)
Definition relisted (p : Z) (l : list (Z * vm_area)) (s s' : kernel F) : Prop :=
  (∃ x v, procs s !! p = Some x ∧ procs s' = <[p := set_p_vma_list v x]> (procs s) ∧
     alist (areas s') 0 v l) ∧
  kfs s' = kfs s ∧ cur s' = cur s ∧ pt_pages (kvm s') = pt_pages (kvm s) ∧
  pmem (kvm s') = pmem (kvm s) ∧ upgtbls (kvm s') = upgtbls (kvm s).

Lemma set_vma_list_id (s : kernel F) p x :
  procs s !! p = Some x → procs s = <[p := set_p_vma_list (p_vma_list x) x]> (procs s).
Proof. intros E. symmetry. apply insert_id. rewrite E. by destruct x. Qed.

(** Replacing one area by another at the same node. *)
Lemma relisted_replace (s : kernel F) p x l1 v y y' l2 :
  procs s !! p = Some x → alist (areas s) 0 (p_vma_list x) (l1 ++ (v, y) :: l2) →
  NoDup (l1 ++ (v, y) :: l2).*1 →
  ∃ s', upd_area v (set_a_vma y') s = Ret (tt, s') ∧ relisted p (l1 ++ (v, y') :: l2) s s'.
Proof.
  intros Hp Hl Hn. destruct (alist_mid _ _ _ _ _ _ Hl) as (nx & Hm & _).
  eexists. split; [apply upd_area_run; exact Hm|]. split; [|done].
  exists x, (p_vma_list x). split_and!; [done|exact (set_vma_list_id s p x Hp)|].
  cbn. by apply (alist_replace _ _ _ _ y).
Qed.

Lemma last_of_in pv l : last_of pv l = pv ∧ l = [] ∨ last_of pv l ∈ l.*1.
Proof.
  destruct l as [|b l _] using rev_ind; [by left|right].
  unfold last_of. rewrite fmap_app, last_app. cbn. set_solver.
Qed.

(** Taking the node [v] out: first its predecessor, then its successor, then itself. *)
Lemma alist_unlink m v0 l1 v y l2 nx A :
  alist m 0 v0 (l1 ++ (v, y) :: l2) → NoDup (l1 ++ (v, y) :: l2).*1 →
  l1 ≠ [] → m !! v = Some (Area y nx (last_of 0 l1)) →
  m !! last_of 0 l1 = Some A →
  let m1 := <[last_of 0 l1 := set_a_next nx A]> m in
  let m2 := match l2 with
            | [] => m1
            | (c, _) :: _ => match m1 !! c with
                             | Some C => <[c := set_a_prev (last_of 0 l1) C]> m1 | None => m1 end
            end in
  alist (delete v m2) 0 v0 (l1 ++ l2).
Proof.
  intros Hl Hn Hne Hm HA. cbv zeta. destruct (alist_mid _ _ _ _ _ _ Hl) as (nx' & Hm' & Hv & Hl1 & Hl2).
  simplify_eq. rewrite fmap_app in Hn. cbn in Hn.
  apply NoDup_app in Hn as (Hn1 & Hn12 & [Hv2 Hn2]%NoDup_cons).
  assert (Hv1 : v ∉ l1.*1) by (intros Hin; apply (Hn12 v Hin); by left).
  destruct l1 as [|[b z] l1 _] using rev_ind; [done|].
  assert (Eb : last_of 0 (l1 ++ [(b, z)]) = b) by (unfold last_of; by rewrite fmap_app, last_app).
  rewrite Eb in *. set (m1 := <[b := set_a_next nx A]> m).
  assert (Hb2 : b ∉ l2.*1).
  { intros Hin. apply (Hn12 b); [rewrite fmap_app; apply elem_of_app; right; by left|by right]. }
  assert (Hseg : aseg m1 0 v0 (l1 ++ [(b, z)]) nx) by (by eapply aseg_last_next).
  assert (Hseg2 : aseg m1 v nx l2 0) by (by apply aseg_insert_other).
  destruct l2 as [|[c z'] l2].
  - cbn in Hseg2. subst nx. rewrite app_nil_r. apply aseg_delete_other; [done|exact Hseg].
  - destruct (Hseg2) as (-> & Hc & nc & Hmc & _). cbn [fmap list_fmap fst] in Hv2, Hn2, Hb2, Hn12.
    rewrite Hmc. apply NoDup_cons in Hn2 as [Hc2 _].
    apply aseg_delete_other; [rewrite fmap_app; apply not_elem_of_app; done|].
    apply aseg_app. exists c. rewrite Eb. split.
    + apply aseg_insert_other; [|exact Hseg]. intros Hin. apply (Hn12 c Hin). right. by left.
    + by eapply aseg_head_prev.
Qed.

Lemma kfree_area_run (s : kernel F) v a :
  areas s !! v = Some a →
  kfree_area v s = Ret (tt, set_kvm (set_freed (v :: freed (kvm s)) (kvm s))
                              (set_areas (delete v (areas s)) s)).
Proof. intros E. unfold kfree_area. by mstep (get_area_run s v a E). Qed.

Lemma aseg_node m w l a : ∀ pv v,
  aseg m pv v l w → a ∈ l.*1 → a ≠ 0 ∧ is_Some (m !! a).
Proof.
  induction l as [|[b y] l IH]; intros pv v; cbn; [by intros _ []%elem_of_nil|].
  intros (-> & Hb & nx & Hm & Hl) [->|Hin]%elem_of_cons; [eauto|by eapply IH].
Qed.

Lemma shrink_whole_head junk (s : kernel F) p x v y c z l2 :
  procs s !! p = Some x → alist (areas s) 0 (p_vma_list x) ((v, y) :: (c, z) :: l2) →
  NoDup (v :: c :: l2.*1) → v_file y = 0 →
  ∃ s', shrink_vma junk p v (v_start y) (v_end y) s = Ret (tt, s') ∧
    relisted p ((c, z) :: l2) s s'.
Proof.
  intros Hp (E & Hv & nx & Hm & Enx & Hc & nc & Hmc & Hl2) Hn Hfile. subst nx.
  apply NoDup_cons in Hn as [[Hvc Hv2]%not_elem_of_cons [Hc2 _]%NoDup_cons].
  set (s1 := set_procs (<[p := set_p_vma_list c x]> (procs s)) s).
  assert (Hu := upd_proc_run s p x (set_p_vma_list c) Hp). fold s1 in Hu.
  assert (Hu2 := upd_area_run s1 c _ (set_a_prev 0) Hmc).
  set (s2 := set_areas _ s1) in Hu2.
  assert (Hk : areas s2 !! v = Some (Area y c 0)) by (cbn; by rewrite lookup_insert_ne).
  eexists. split.
  { unfold shrink_vma. mstep (get_area_run s v _ Hm). cbn [a_vma a_prev a_next].
    rewrite !Z.eqb_refl, Hfile. cbn [andb ctrue Z.eqb negb mwhen].
    assert (Hb : (upd_proc p (set_p_vma_list c);; upd_area c (set_a_prev 0)) s = Ret (tt, s2))
      by (mstep Hu; exact Hu2).
    mstep Hb. exact (kfree_area_run s2 v _ Hk). }
  split; [|done]. exists x, c. split_and!; [done|done|]. cbn [areas set_kvm set_areas].
  apply aseg_delete_other; [by apply not_elem_of_cons|].
  apply (aseg_head_prev _ v _ _ _ _ _ _ (Area z nc v)); [|done|done]. split_and!; eauto.
Qed.

Lemma shrink_whole_mid junk (s : kernel F) p x l1 v y l2 :
  procs s !! p = Some x → alist (areas s) 0 (p_vma_list x) (l1 ++ (v, y) :: l2) →
  NoDup (l1 ++ (v, y) :: l2).*1 → v_file y = 0 → l1 ≠ [] →
  ∃ s', shrink_vma junk p v (v_start y) (v_end y) s = Ret (tt, s') ∧ relisted p (l1 ++ l2) s s'.
Proof.
  intros Hp Hl Hn Hfile Hne. destruct (alist_mid _ _ _ _ _ _ Hl) as (nx & Hm & Hv & Hl1 & Hl2).
  pose proof Hn as Hn'. rewrite fmap_app in Hn'. cbn in Hn'.
  apply NoDup_app in Hn' as (_ & Hn12 & [Hv2 _]%NoDup_cons).
  destruct (last_of_in 0 l1) as [[_ ->]|Hin]; [done|].
  destruct (aseg_node _ _ _ _ _ _ Hl1 Hin) as [Hb [A HA]].
  assert (Hbv : last_of 0 l1 ≠ v) by (intros Eb; apply (Hn12 _ Hin); rewrite Eb; by left).
  pose proof (alist_unlink _ _ _ _ _ _ _ A Hl Hn Hne Hm HA) as Hun. cbv zeta in Hun.
  set (b := last_of 0 l1) in *.
  assert (Hu := upd_area_run s b A (set_a_next nx) HA). set (s1 := set_areas _ s) in Hu.
  assert (Hm1 : areas s1 !! v = Some (Area y nx b)) by (cbn; by rewrite lookup_insert_ne).
  assert (∃ s2, mwhen (ctrue nx) (upd_area nx (set_a_prev b)) s1 = Ret (tt, s2) ∧
    areas s2 !! v = Some (Area y nx b) ∧ alist (delete v (areas s2)) 0 (p_vma_list x) (l1 ++ l2) ∧
    procs s2 = procs s ∧ kfs s2 = kfs s ∧ cur s2 = cur s ∧ kvm s2 = kvm s)
    as (s2 & Hu2 & Hm2 & Hal & E1 & E2 & E3 & E4).
  { destruct l2 as [|[c z] l2].
    - cbn in Hl2. subst nx. by exists s1.
    - destruct Hl2 as (-> & Hc & nc & Hmc & _). cbn in Hv2. apply not_elem_of_cons in Hv2 as [Hvc _].
      assert (Hbc : c ≠ b) by (intros ->; apply (Hn12 _ Hin); right; by left).
      unfold ctrue. rewrite (proj2 (Z.eqb_neq _ _)) by done. cbn [negb mwhen].
      assert (Hmc1 : areas s1 !! c = Some (Area z nc v)) by (cbn; by rewrite lookup_insert_ne).
      cbn in Hmc1, Hun. rewrite Hmc1 in Hun. eexists. split; [by apply upd_area_run|].
      split_and!; try done. cbn. by rewrite lookup_insert_ne. }
  eexists. split.
  { unfold shrink_vma. mstep (get_area_run s v _ Hm). cbn [a_vma a_prev a_next].
    rewrite !Z.eqb_refl, Hfile. cbn [andb].
    assert (Hct : ctrue b = true) by (unfold ctrue; by rewrite (proj2 (Z.eqb_neq b 0))).
    rewrite Hct. change (ctrue 0) with false.
    assert (Hboth : (upd_area b (set_a_next nx);; a ← get_area v;
      mwhen (ctrue (a_next a)) (upd_area (a_next a) (set_a_prev (a_prev a)))) s = Ret (tt, s2)).
    { mstep Hu. mstep (get_area_run s1 v _ Hm1). exact Hu2. }
    mstep Hboth. cbn [mwhen]. exact (kfree_area_run s2 v _ Hm2). }
  split; [|by rewrite <- ?E2, <- ?E3, <- ?E4]. exists x, (p_vma_list x). split_and!; [done| |done].
  cbn. rewrite E1. by apply set_vma_list_id.
Qed.

(** A list without repeats, after its node [v] was split in two. *)
Lemma cut_NoDup l1 v y l2 n us ue :
  NoDup (l1 ++ (v, y) :: l2).*1 → n ∉ (l1 ++ (v, y) :: l2).*1 →
  NoDup (l1 ++ cut n v y us ue ++ l2).*1.
Proof.
  rewrite !fmap_app. cbn. intros Hn Hi. unfold cut.
  repeat case_match; cbn; rewrite ?fmap_app in *; cbn; [|done|done|].
  - apply NoDup_app in Hn as (? & Hd & [? ?]%NoDup_cons). apply NoDup_app.
    split_and!; [done| |done]. set_solver.
  - apply not_elem_of_app in Hi as [Hi1 [Hi2 Hi3]%not_elem_of_cons].
    apply NoDup_app in Hn as (? & Hd & [? ?]%NoDup_cons). apply NoDup_app.
    split_and!; [done| |]; [set_solver|].
    apply NoDup_cons. split; [set_solver|]. by apply NoDup_cons.
Qed.

Ltac lookups := repeat (first [rewrite lookup_insert_ne by congruence | rewrite lookup_insert_eq]); eauto.

Lemma shrink_split junk (s : kernel F) p x l1 v y l2 us ue n fs :
  procs s !! p = Some x → alist (areas s) 0 (p_vma_list x) (l1 ++ (v, y) :: l2) →
  NoDup (l1 ++ (v, y) :: l2).*1 → us ≠ v_start y → ue ≠ v_end y →
  frames (kvm s) = n :: fs → n ≠ 0 → areas s !! n = None →
  ∃ s', shrink_vma junk p v us ue s = Ret (tt, s') ∧
    relisted p (l1 ++ [(v, with_end us y); (n, with_start ue y)] ++ l2) s s'.
Proof.
  intros Hp Hl Hn Hus Hue Hfs Hn0 Hnew.
  destruct (alist_mid _ _ _ _ _ _ Hl) as (nx & Hm & Hv & Hl1 & Hl2).
  assert (Hnl : n ∉ (l1 ++ (v, y) :: l2).*1).
  { intros Hin. destruct (aseg_node _ _ _ _ _ _ Hl Hin) as [_ [? ?]]. congruence. }
  rewrite fmap_app in Hn, Hnl. cbn in Hn, Hnl.
  apply not_elem_of_app in Hnl as [Hnl1 [Hnv Hnl2]%not_elem_of_cons].
  apply NoDup_app in Hn as (_ & Hn12 & [Hv2 Hn2]%NoDup_cons).
  assert (Hv1 : v ∉ l1.*1) by (intros Hin; apply (Hn12 _ Hin); by left).
  set (b := last_of 0 l1) in *.
  set (s1 := set_areas (<[n := junk]> (areas s)) (set_kvm (set_frames fs (kvm s)) s)).
  assert (Hk : kalloc_area junk s = Ret (n, s1)).
  { unfold kalloc_area, on_vm, zoom, kalloc, ctrue. munfold. cbn. rewrite Hfs. cbn.
    by rewrite (proj2 (Z.eqb_neq n 0)). }
  unfold shrink_vma. mstep (get_area_run s v _ Hm). cbn [a_vma a_prev a_next].
  rewrite (proj2 (Z.eqb_neq _ _) Hus), (proj2 (Z.eqb_neq _ _) Hue). cbn [andb]. mstep Hk.
  do 5 (erewrite mbind_Ret; [|apply upd_area_run; cbn; lookups]; cbv beta).
  cbn [areas set_areas procs kvm set_kvm].
  assert (Hnx : mwhen (ctrue nx) (upd_area nx (set_a_prev n)) =
    match l2 return M (kernel F) unit with
    | [] => mret tt | cz :: _ => upd_area cz.1 (set_a_prev n) end).
  { destruct l2 as [|[c z] l2]; [by rewrite Hl2|]. destruct Hl2 as (-> & Hc & _).
    unfold ctrue. by rewrite (proj2 (Z.eqb_neq _ _)). }
  rewrite Hnx. destruct l2 as [|[c z] l2].
  - cbn in Hl2. subst nx. erewrite mbind_Ret by done. eexists. split.
    { apply upd_area_run. cbn. lookups. }
    split; [|done]. exists x, (p_vma_list x). split_and!; [done|exact (set_vma_list_id s p x Hp)|].
    cbn. apply aseg_app. exists v. split.
    { apply (aseg_ext (areas s)); [|done]. intros a Ha.
      rewrite !lookup_insert_ne by congruence. done. }
    cbn. split_and!; [done..|]. exists n. split; [lookups|]. split_and!; [done..|].
    exists 0. split; [lookups|done].
  - destruct Hl2 as (-> & Hc & nc & Hmc & Hl2). cbn in Hv2, Hnl2, Hn2.
    apply not_elem_of_cons in Hv2 as [Hvc Hv2]. apply not_elem_of_cons in Hnl2 as [Hnc Hnl2].
    apply NoDup_cons in Hn2 as [Hc2 _].
    assert (Hc1 : c ∉ l1.*1) by (intros Hin; apply (Hn12 _ Hin); right; by left).
    erewrite mbind_Ret; [|apply upd_area_run; cbn; lookups]. eexists. split.
    { apply upd_area_run. cbn. lookups. }
    split; [|done]. exists x, (p_vma_list x). split_and!; [done|exact (set_vma_list_id s p x Hp)|].
    cbn. apply aseg_app. exists v. split.
    { apply (aseg_ext (areas s)); [|done]. intros a Ha.
      rewrite !lookup_insert_ne by congruence. done. }
    cbn. split_and!; [done..|]. exists n. split; [lookups|]. split_and!; [done..|].
    exists c. split; [lookups|]. split_and!; [done..|]. exists nc. split; [lookups|].
    apply (aseg_ext (areas s)); [|done]. intros a Ha.
    rewrite !lookup_insert_ne by congruence. done.
Qed.

(** What the cut needs: an allocated node when an area splits, and when a whole area goes,
    that it has a neighbour and no file. *)
Definition can_cut (s : kernel F) (n : Z) (l1 : list (Z * vm_area)) (y : vm_area)
    (l2 : list (Z * vm_area)) (us ue : Z) : Prop :=
  (us = v_start y → ue = v_end y → v_file y = 0 ∧ (l1 ≠ [] ∨ l2 ≠ [])) ∧
  (us ≠ v_start y → ue ≠ v_end y →
   (∃ fs, frames (kvm s) = n :: fs) ∧ n ≠ 0 ∧ areas s !! n = None).

Lemma shrink_vma_run junk (s : kernel F) p x l1 v y l2 us ue n :
  procs s !! p = Some x → alist (areas s) 0 (p_vma_list x) (l1 ++ (v, y) :: l2) →
  NoDup (l1 ++ (v, y) :: l2).*1 → can_cut s n l1 y l2 us ue →
  ∃ s', shrink_vma junk p v us ue s = Ret (tt, s') ∧ relisted p (l1 ++ cut n v y us ue ++ l2) s s'.
Proof.
  intros Hp Hl Hn [Hwhole Hsplit]. destruct (alist_mid _ _ _ _ _ _ Hl) as (nx & Hm & _).
  assert (Hrun := get_area_run s v _ Hm). unfold cut.
  destruct (Z.eqb_spec us (v_start y)) as [Eu|Eu], (Z.eqb_spec ue (v_end y)) as [Ee|Ee].
  - destruct (Hwhole Eu Ee) as [Hf Hne]. subst us ue. cbn [app]. destruct l1 as [|b l1].
    + destruct l2 as [|[c z] l2]; [by destruct Hne|]. by apply (shrink_whole_head _ _ _ x).
    + by apply (shrink_whole_mid _ _ _ x).
  - destruct (relisted_replace s p x l1 v y (with_start ue y) l2) as (s' & Hu & Hr); [done..|].
    exists s'. split; [|done]. unfold shrink_vma. mstep Hrun. cbn [a_vma].
    rewrite (proj2 (Z.eqb_eq _ _) Eu), (proj2 (Z.eqb_neq _ _) Ee). cbn [andb]. rewrite <- Hu.
    unfold upd_area. mstep Hrun. by mstep Hrun.
  - destruct (relisted_replace s p x l1 v y (with_end us y) l2) as (s' & Hu & Hr); [done..|].
    exists s'. split; [|done]. unfold shrink_vma. mstep Hrun. cbn [a_vma].
    rewrite (proj2 (Z.eqb_neq _ _) Eu), (proj2 (Z.eqb_eq _ _) Ee). cbn [andb]. rewrite <- Hu.
    unfold upd_area. mstep Hrun. by mstep Hrun.
  - destruct (Hsplit Eu Ee) as ([fs Hfs] & Hn0 & Hnew). by apply (shrink_split _ _ _ x _ _ _ _ _ _ _ fs).
Qed.

(** The addresses in some area of a list. *)
Definition covered (l : list (Z * vm_area)) (a : Z) : Prop :=
  ∃ b z, (b, z) ∈ l ∧ v_start z ≤ a < v_end z.

Lemma covered_app l1 l2 a : covered (l1 ++ l2) a ↔ covered l1 a ∨ covered l2 a.
Proof. unfold covered. setoid_rewrite elem_of_app. naive_solver. Qed.
Lemma covered_cons b z l a : covered ((b, z) :: l) a ↔ v_start z ≤ a < v_end z ∨ covered l a.
Proof. unfold covered. setoid_rewrite elem_of_cons. naive_solver. Qed.
Lemma covered_nil a : ¬ covered [] a.
Proof. by intros (? & ? & []%elem_of_nil & _). Qed.

Lemma covered_cut n v y us ue a :
  v_start y ≤ us → us ≤ ue ≤ v_end y →
  covered (cut n v y us ue) a ↔ (v_start y ≤ a < v_end y) ∧ ¬ us ≤ a < ue.
Proof.
  intros Hs He. unfold cut. pose proof (covered_nil a).
  destruct (Z.eqb_spec us (v_start y)), (Z.eqb_spec ue (v_end y)); rewrite ?covered_cons; cbn;
    intuition lia.
Qed.

Lemma find_first l1 v y l2 va :
  Forall (λ ax : Z * vm_area, ¬ v_start ax.2 ≤ va < v_end ax.2) l1 → v_start y ≤ va < v_end y →
  list_find (λ ax : Z * vm_area, v_start ax.2 ≤ va ∧ va < v_end ax.2) (l1 ++ (v, y) :: l2) =
    Some (length l1, (v, y)).
Proof.
  intros H1' Hy. apply list_find_Some. split; [|split; [done|]].
  - by rewrite list_lookup_middle.
  - intros j z Hj Hlt. rewrite lookup_app_l in Hj by done.
    by apply (Forall_lookup_1 _ _ _ _ H1' Hj).
Qed.

(** The page table of a process exists. *)
Definition has_pgtbl (s : kernel F) (x : proc) (root : Z) : Prop :=
  (∃ c, upgtbls (kvm s) !! p_pagetable x = Some (root, c)) ∧ table_page (pt_pages (kvm s)) root.

Lemma pgtbl_of_run (s : kernel F) p x root :
  procs s !! p = Some x → has_pgtbl s x root → pgtbl_of p s = Ret (root, s).
Proof.
  intros Hp [[c Hc] _]. unfold pgtbl_of. mstep (get_proc_run s p x Hp).
  unfold on_vm, zoom, UPGTBL. munfold. cbn. rewrite Hc. by destruct s.
Qed.

(** The running process [x] of the state, its areas and its page table. *)
Record running (s : kernel F) (x : proc) (l : list (Z * vm_area)) (root : Z) : Prop := {
  run_cpu : cpu_ok s;
  run_proc : procs s !! cur s = Some x;
  run_list : alist (areas s) 0 (p_vma_list x) l;
  run_nodup : NoDup l.*1;
  run_pgtbl : has_pgtbl s x root
}.

Lemma aligned_down a : 0 ≤ a < 2 ^ 64 → IS_PGALIGNED (PGROUNDDOWN a) = true.
Proof.
  intros Ha. rewrite PGROUNDDOWN_eq by done. apply IS_PGALIGNED_iff.
  - unfold PGSIZE. Z.div_mod_to_equations. lia.
  - unfold PGSIZE. Z.div_mod_to_equations. lia.
Qed.

(** Removing the only area, and splitting one without memory. *)
Lemma shrink_only junk s p x v y :
  procs s !! p = Some x → alist (areas s) 0 (p_vma_list x) [(v, y)] → areas s !! 0 = None →
  shrink_vma junk p v (v_start y) (v_end y) s = Fault.
Proof.
  intros Hp (_ & Hv & nx & Hm & Hnx) Hz. cbn in Hnx. subst nx.
  unfold shrink_vma. mstep (get_area_run s v _ Hm). cbn [a_vma a_prev a_next].
  rewrite !Z.eqb_refl. cbn [andb ctrue Z.eqb negb].
  rewrite (mbind_Fault _ _ s); [done|]. mstep (upd_proc_run s p x (set_p_vma_list 0) Hp).
  unfold upd_area, get_area, mtry. munfold. cbn. by rewrite Hz.
Qed.

Lemma shrink_no_memory junk s p v us ue a :
  areas s !! v = Some a → us ≠ v_start (a_vma a) → ue ≠ v_end (a_vma a) → frames (kvm s) = [] →
  shrink_vma junk p v us ue s = Panic.
Proof.
  intros Hm Eu Ee Hfs. unfold shrink_vma. mstep (get_area_run s v a Hm).
  rewrite (proj2 (Z.eqb_neq _ _) Eu), (proj2 (Z.eqb_neq _ _) Ee). cbn [andb].
  unfold kalloc_area, on_vm, kalloc, zoom. munfold. cbn. by rewrite Hfs.
Qed.

(** C17: [munmap] of a range of at least one byte, away from the end of the address space, in
    a process whose list of areas is well formed (the [prev] of the first area is NULL).  A
    range whose first page lies in no area gives -1 and changes nothing.  If the page lies in
    an area without write-back, the call returns 0 and the range is cut out of the first area
    that contains it, shrunk, split in two (a node can be allocated) or removed (it is not
    the only area and has no file), and the addresses covered are those covered before less
    the range within that area.  Removing the only area writes through NULL, and a split
    without memory panics.  The page tables stay as they are (see [uvmunmap]). *)
Theorem do_munmap_spec junk s x l root addr length :
  running s x l root → 0 ≤ addr < 2 ^ 64 → 0 < length → addr + length + PGSIZE < 2 ^ 64 →
  let va := PGROUNDDOWN addr in
  (Forall (λ ax : Z * vm_area, ¬ v_start ax.2 ≤ va < v_end ax.2) l →
     do_munmap junk addr length s = Ret (-1, peeked s)) ∧
  ∀ l1 v y l2 n, l = l1 ++ (v, y) :: l2 →
    Forall (λ ax : Z * vm_area, ¬ v_start ax.2 ≤ va < v_end ax.2) l1 →
    v_start y ≤ va < v_end y →
    ctrue (Z.land (v_flags y) MAP_SHARED) && negb (ctrue (Z.land (v_flags y) MAP_PRIVATE)) = false →
    let ue := MIN (va + PGROUNDUP length) (v_end y) in
    (can_cut s n l1 y l2 va ue →
     ∃ s', do_munmap junk addr length s = Ret (0, s') ∧
       relisted (cur s) (l1 ++ cut n v y va ue ++ l2) (peeked s) s' ∧
       ∀ a, covered (l1 ++ cut n v y va ue ++ l2) a ↔
         covered (l1 ++ l2) a ∨ (v_start y ≤ a < v_end y ∧ ¬ va ≤ a < ue)) ∧
    (l1 ++ l2 = [] → va = v_start y → ue = v_end y → areas s !! 0 = None →
     do_munmap junk addr length s = Fault) ∧
    (va ≠ v_start y → ue ≠ v_end y → frames (kvm s) = [] →
     do_munmap junk addr length s = Panic).
Proof.
  intros [Hcpu Hp Hl Hn Hpg] Ha Hlen Hb va.
  assert (Hva : 0 ≤ va ≤ addr).
  { subst va. rewrite PGROUNDDOWN_eq by done. unfold PGSIZE. Z.div_mod_to_equations. lia. }
  assert (Hru : length ≤ PGROUNDUP length < length + PGSIZE).
  { rewrite PGROUNDUP_eq by (unfold PGOFFMASK; unfold PGSIZE in *; lia).
    unfold PGOFFMASK, PGSIZE. Z.div_mod_to_equations. lia. }
  set (len := PGROUNDUP length) in *.
  assert (Hpre : ∀ k : Z → M (kernel F) Z, (return_if len =? 0 with (-1);; p ← myproc; k p) s =
    k (cur s) (peeked s)).
  { intros k. rewrite (proj2 (Z.eqb_neq _ _)) by lia. by mstep (myproc_run s Hcpu). }
  unfold do_munmap. fold va len. rewrite Hpre. clear Hpre.
  assert (Hfind := find_vma_run (peeked s) (cur s) x l va Hp Hl Hn). split.
  - intros Hnone. rewrite (proj2 (list_find_None _ _)) in Hfind by done.
    by mstep Hfind.
  - intros l1 v y l2 n -> Hl1 Hy Hwb. set (ue := MIN (va + len) (v_end y)) in *. rewrite find_first in Hfind by done. mstep Hfind.
    destruct (alist_mid _ _ _ _ _ _ Hl) as (nx & Hm & Hv & _).
    rewrite (proj2 (Z.eqb_neq _ _)) by done.
    mstep (get_area_run (peeked s) v _ Hm). cbn [a_vma].
    assert (E1 : MAX va (v_start y) = va)
      by (unfold MAX; destruct (Z.ltb_spec (v_start y) va); lia).
    rewrite E1, u64_small by (unfold PGSIZE in *; lia). fold ue.
    assert (Hue : va ≤ ue ≤ v_end y) by (subst ue; unfold MIN; case_match; lia).
    mstep (pgtbl_of_run (peeked s) _ x root Hp Hpg). rewrite Hwb. cbn [mwhen].
    erewrite mbind_Ret by done.
    destruct Hpg as [_ Htp].
    assert (Hal : IS_PGALIGNED va = true) by (by apply aligned_down).
    assert (Hum := λ n, on_vm_run _ (peeked s) _ _
      (uvmunmap_run (kvm (peeked s)) root va n true Htp Hal)).
    assert (Eid : set_kvm (kvm (peeked s)) (peeked s) = peeked s) by (by destruct s).
    rewrite Eid in Hum. erewrite mbind_Ret by (exact (Hum _)). cbv beta.
    split_and!.
    + intros Hcut. destruct (shrink_vma_run junk (peeked s) (cur s) x l1 v y l2 va ue n)
        as (s' & Hrun & Hrel); try done.
      exists s'. split_and!; [|done|].
      * by mstep Hrun.
      * intros a. rewrite !covered_app, covered_cut by lia. tauto.
    + intros [-> ->]%app_eq_nil Eu Ee Hz. rewrite Eu, Ee.
      by rewrite (mbind_Fault _ _ _ (shrink_only junk (peeked s) (cur s) x v y Hp Hl Hz)).
    + intros Eu Ee Hfs.
      by rewrite (mbind_Panic _ _ _ (shrink_no_memory junk (peeked s) (cur s) v va ue _ Hm Eu Ee Hfs)).
Qed.

(** With at least one area in the list, the first starting below the top of the mmap
    region, whatever range [find_free_vma_range] offers ends exactly where an existing
    area ends, so it overlaps it; only the first area of a process gets the top of the
    region. *)
Theorem find_free_vma_range_overlaps (s : kernel F) p x l length :
  procs s !! p = Some x → alist (areas s) 0 (p_vma_list x) l → NoDup l.*1 →
  0 < length ≤ p_mmap_brk x → p_mmap_brk x < 2 ^ 64 →
  (∀ a y, (a, y) ∈ l → length ≤ v_end y < 2 ^ 64) →
  (∀ a y l', l = (a, y) :: l' → v_start y < p_mmap_brk x) →
  ∃ r s', find_free_vma_range p length s = Ret (r, s') ∧
    (r ≠ 0 → s' = s) ∧
    (l = [] → p_mmap_base x ≤ p_mmap_brk x - length → r = p_mmap_brk x - length) ∧
    (l ≠ [] → r ≠ 0 → ∃ a y, (a, y) ∈ l ∧ r + length = v_end y).
Proof.
  intros Hp Hl Hn [Hlen Hlb] Hb Hends Hfirst. set (hint := p_mmap_brk x - length).
  assert (Hr := range_of_end length l hint ltac:(lia) ltac:(lia) Hlen Hends). cbv zeta in Hr.
  assert (Hrun : range_loop (area_fuel s) (p_vma_list x) hint length s =
    Ret (range_of length l hint, s)) by (eapply range_loop_run; [done|by eapply alist_fuel]).
  unfold find_free_vma_range. mstep (get_proc_run s p x Hp). unfold gets.
  erewrite mbind_Ret by done. cbv beta. rewrite (u64_small (p_mmap_brk x - length)) by lia. fold hint. mstep Hrun.
  assert (Hov : l ≠ [] → ∃ a y, (a, y) ∈ l ∧
    (match range_of length l hint with inl r => r | inr r => r end) + length = v_end y).
  { intros Hne. destruct Hr as [[_ [?|(a & y & l' & E & Hle)]]|(a & y & Hin & ->)]; [done| |].
    - specialize (Hfirst a y l' E). lia.
    - exists a, y. split; [done|lia]. }
  destruct (range_of length l hint) as [r|r] eqn:Er.
  - exists r, s. split_and!; [done|done| |by intros Hne _; apply Hov].
    intros ->. done.
  - destruct (Z.ltb_spec r (p_mmap_base x)) as [Hlt|Hge].
    + eexists 0, _. split_and!; [by mstep (upd_proc_run s p x (set_p_mmap_brk
        (u64 (p_mmap_brk x + MAX length MMAP_EXPAND))) Hp)|done| |done].
      intros -> Hbase. cbn in Er. injection Er as <-. subst hint. lia.
    + exists r, s. split_and!; [done|done| |by intros Hne _; apply Hov].
      intros -> _. cbn in Er. by injection Er as <-.
Qed.

(** Whatever the fault, [page_unmap_handler] only marks the process killed: the check of
    the cause asks for two different causes at once, so no page is ever mapped. *)
Theorem page_unmap_handler_kills (s : kernel F) x l root badv scause :
  running s x l root →
  page_unmap_handler badv scause s =
    Ret (tt, set_procs (<[cur s := set_p_killed true x]> (procs s)) (peeked s)).
Proof.
  intros [Hcpu Hp Hl Hn _]. unfold page_unmap_handler. mstep (myproc_run s Hcpu).
  mstep (find_vma_run (peeked s) (cur s) x l (PGROUNDDOWN badv) Hp Hl Hn).
  assert (Hk := upd_proc_run (peeked s) (cur s) x (set_p_killed true) Hp).
  destruct (list_find _ l) as [[i [a y]]|] eqn:Ef; [|exact Hk].
  apply list_find_Some in Ef as (Hi & _ & _).
  destruct (list_elem_of_split l (a, y)) as (l1 & l2 & ->); [by eapply list_elem_of_lookup_2|].
  destruct (alist_mid _ _ _ _ _ _ Hl) as (nx & Hm & Ha & _).
  rewrite (proj2 (Z.eqb_neq a 0)) by done. mstep (get_area_run (peeked s) a _ Hm).
  unfold STORE_AMO_ACCESS_FAULT, LOAD_ACCESS_FAULT.
  destruct (Z.eqb_spec scause 7) as [->|_]; cbn [andb negb Z.eqb Pos.eqb];
    rewrite ?andb_false_r; exact Hk.
Qed.

(** A fixed anonymous [mmap] puts an area of the rounded length at the address asked for
    in front of the list, where [find_vma] finds it at each of its addresses, and reports
    NULL; an unaligned address or offset, or no length, fails and adds nothing. *)
Theorem sys_mmap_fixed_spec (s : kernel F) junk x l root v fs addr length prot flags fd offset :
  running s x l root →
  ctrue (Z.land flags MAP_FIXED) = true → ctrue (Z.land flags MAP_ANONYMOUS) = true →
  0 ≤ addr → 0 < length → addr + length + PGSIZE < 2 ^ 64 →
  frames (kvm s) = v :: fs → v ≠ 0 → areas s !! v = None → 0 ≤ offset < 2 ^ 64 →
  (IS_PGALIGNED addr = false ∨ IS_PGALIGNED offset = false →
   sys_mmap junk addr length prot flags fd offset s = Ret (MAP_FAILED, peeked s)) ∧
  (IS_PGALIGNED addr = true → IS_PGALIGNED offset = true →
   ∃ s' x', sys_mmap junk addr length prot flags fd offset s = Ret (0, s') ∧
     procs s' !! cur s = Some x' ∧ kfs s' = kfs (peeked s) ∧
     alist (areas s') (a_prev junk) (p_vma_list x')
       ((v, VmArea addr (addr + PGROUNDUP length) prot flags 0 offset) :: l) ∧
     ∀ va, addr ≤ va < addr + PGROUNDUP length → find_vma (cur s) va s' = Ret (v, s')).
Proof.
  intros [Hcpu Hp Hl Hn _] Hfix Hanon Ha Hlen Hb Hfs Hv Hnew Hoff.
  assert (Hru : 0 ≤ PGROUNDUP length < length + PGSIZE).
  { rewrite PGROUNDUP_eq by (unfold PGOFFMASK; unfold PGSIZE in *; lia).
    unfold PGOFFMASK, PGSIZE. Z.div_mod_to_equations. lia. }
  unfold sys_mmap. mstep (myproc_run s Hcpu). rewrite (proj2 (Z.eqb_neq length 0)) by lia.
  cbn [orb]. rewrite Hfix.
  assert (Hof : (Z.land offset (PGSIZE - 1) =? 0) = IS_PGALIGNED offset).
  { unfold IS_PGALIGNED. by rewrite u64_small. }
  rewrite Hof. split.
  - intros Hbad. destruct (IS_PGALIGNED offset); cbn [negb]; [|done].
    destruct Hbad as [->|?]; [|done]. by erewrite mbind_Ret by done.
  - intros -> ->. cbn [negb]. erewrite mbind_Ret by done. cbv beta iota.
    set (sa := set_areas (<[v := junk]> (areas s)) (set_kvm (set_frames fs (kvm s)) (peeked s))).
    assert (Hk : kalloc_area junk (peeked s) = Ret (v, sa)).
    { unfold kalloc_area, on_vm, zoom, kalloc, ctrue. munfold. cbn. rewrite Hfs. cbn.
      by rewrite (proj2 (Z.eqb_neq v 0)). }
    mstep Hk. rewrite Hanon.
    set (vm := VmArea addr (addr + PGROUNDUP length) prot flags 0 offset).
    erewrite mbind_Ret; [|apply upd_area_run; cbn; lookups]. cbv beta.
    erewrite mbind_Ret; [|apply get_proc_run; exact Hp]. cbv beta.
    erewrite mbind_Ret; [|erewrite mbind_Ret; [reflexivity|apply upd_area_run; cbn; lookups]].
    cbv beta iota. rewrite u64_small by (unfold PGSIZE in *; lia). fold vm.
    erewrite mbind_Ret; [|apply upd_area_run; cbn; lookups]. cbv beta.
    cbn [areas set_areas procs kvm set_kvm set_a_next set_a_vma a_prev a_vma a_next].
    assert (Hvl : v ∉ l.*1).
    { intros Hin. destruct (aseg_node _ _ _ _ _ _ Hl Hin) as [_ [? ?]]. congruence. }
    set (m := <[v := _]> (<[v := _]> (<[v := _]> (areas sa)))). set (s3 := set_areas m _).
    assert (Hother : ∀ a, a ≠ v → m !! a = areas s !! a).
    { intros a Hav. subst m. cbn. by rewrite !lookup_insert_ne by done. }
    assert (Hmv : m !! v = Some (Area vm (p_vma_list x) (a_prev junk)))
      by (subst m; by rewrite lookup_insert_eq).
    assert (Hs3 : ∃ s4, mwhen (ctrue (p_vma_list x)) (upd_area (p_vma_list x) (set_a_prev v)) s3 =
      Ret (tt, s4) ∧ procs s4 = procs s ∧ kfs s4 = kfs (peeked s) ∧ cur s4 = cur s ∧
      alist (areas s4) (a_prev junk) v ((v, vm) :: l)).
    { destruct l as [|[c z] l].
      - cbn in Hl. exists s3. rewrite Hl in *. split_and!; try done. cbn. split_and!; [done..|]. by eexists.
      - destruct Hl as (E & Hc & nc & Hmc & Hl). rewrite E in *. unfold ctrue.
        cbn in Hvl. apply not_elem_of_cons in Hvl as [Hvc Hvl].
        cbn in Hn. apply NoDup_cons in Hn as [Hcl _].
        rewrite (proj2 (Z.eqb_neq c 0)) by done. cbn [negb mwhen]. eexists. split_and!.
        { apply upd_area_run. cbn. rewrite Hother by done. exact Hmc. }
        all: try done. cbn. split_and!; [done..|]. exists c. split; [lookups|].
        split_and!; [done..|]. exists nc. split; [lookups|].
        apply (aseg_ext (areas s)); [|done]. intros a Ha'.
        rewrite lookup_insert_ne, Hother by congruence. done. }
    destruct Hs3 as (s4 & Hrun & E1 & E2 & E3 & Hal). mstep Hrun.
    assert (Hp4 : procs s4 !! cur s = Some x) by (by rewrite E1).
    eexists _, (set_p_vma_list v x). split_and!.
    + by mstep (upd_proc_run s4 (cur s) x (set_p_vma_list v) Hp4).
    + cbn. by rewrite lookup_insert_eq.
    + done.
    + exact Hal.
    + intros va Hva. unfold find_vma.
      erewrite mbind_Ret; [|apply get_proc_run; cbn; by rewrite lookup_insert_eq].
      cbv beta. unfold gets. erewrite mbind_Ret by done. cbv beta.
      erewrite find_vma_loop_run; [|exact Hal|].
      * cbn [list_find snd v_start v_end vm]. by rewrite decide_True.
      * unfold area_fuel. cbn [areas set_procs]. eapply alist_fuel; [exact Hal|].
        cbn. by apply NoDup_cons.
Qed.

(** [brk(0)] gives the current break and a break below the heap or above the top of user
    space is refused, both without effect; growing a page-aligned break by at most 4 MiB, the
    largest block, maps the new pages one after the other at a block of fresh memory, sets the break to the next page boundary
    and leaves every other translation alone; shrinking moves the break but leaves the pages
    mapped. *)
Theorem sys_brk_spec (s : kernel F) x l root brk pa fs :
  running s x l root → 0 ≤ p_sz x → p_sz x mod PGSIZE = 0 →
  pt_ok (pt_pages (kvm s)) root → fresh_frames (kvm s) → refs_full (pcnt (kvm s)) →
  frames (kvm s) = pa :: fs → page_addr pa →
  sys_brk 0 s = Ret (p_sz x, peeked s) ∧
  (0 < brk → brk < p_heap_start x ∨ MAXVA < brk → sys_brk brk s = Ret (u64 (-1), peeked s)) ∧
  (0 < brk → p_heap_start x ≤ brk < MAXVA - PGSIZE → PGROUNDUP brk ≤ p_sz x →
   p_sz x < 2 ^ 40 →
   sys_brk brk s = Ret (0, set_procs (<[cur s := set_p_sz (PGROUNDUP brk) x]> (procs s)) (peeked s))) ∧
  (let sz := PGROUNDUP brk - p_sz x in
   0 < brk → p_heap_start x ≤ brk < MAXVA - PGSIZE → 0 < sz ≤ MAX_BLOCK → pa + sz + PGSIZE < 2 ^ 56 →
   2 * (sz / PGSIZE) + 2 ≤ zlen fs →
   ∃ v', sys_brk brk s = Ret (0, set_procs (<[cur s := set_p_sz (PGROUNDUP brk) x]> (procs s))
            (set_kvm v' (peeked s))) ∧
     pmem v' = pmem (kvm s) ∧
     ∀ va, 0 ≤ va < MAXVA → translate (pt_pages v') root va =
       if decide (p_sz x ≤ va < PGROUNDUP brk) then pa + (va - p_sz x)
       else translate (pt_pages (kvm s)) root va).
Proof.
  intros [Hcpu Hp Hl Hn Hpg] Hsz Hal T Hfr Hrf Hfs Hpa.
  assert (Hstart : ∀ k : proc → M (kernel F) Z, (p ← myproc; x ← get_proc p; k x) s = k x (peeked s)).
  { intros k. mstep (myproc_run s Hcpu). by mstep (get_proc_run (peeked s) _ x Hp). }
  assert (Hpt := pgtbl_of_run (peeked s) (cur s) x root Hp Hpg).
  assert (Hup := λ v : vm, upd_proc_run (set_kvm v (peeked s)) (cur s) x
    (set_p_sz (PGROUNDUP brk)) Hp).
  assert (Eid : set_kvm (kvm (peeked s)) (peeked s) = peeked s) by (by destruct s).
  assert (Hru : 0 < brk → brk < MAXVA - PGSIZE → PGROUNDUP brk mod PGSIZE = 0 ∧
    brk ≤ PGROUNDUP brk < brk + PGSIZE).
  { unfold MAXVA, PGSIZE. intros. rewrite PGROUNDUP_eq by (unfold PGOFFMASK; lia).
    unfold PGOFFMASK, PGSIZE. Z.div_mod_to_equations. lia. }
  split_and!.
  - unfold sys_brk. mstep (myproc_run s Hcpu). by mstep (get_proc_run (peeked s) _ x Hp).
  - intros Hb Hbad. unfold sys_brk. mstep (myproc_run s Hcpu).
    mstep (get_proc_run (peeked s) _ x Hp). rewrite (proj2 (Z.eqb_neq brk 0)) by lia.
    destruct (Z.ltb_spec brk (p_heap_start x)), (Z.ltb_spec MAXVA brk); try done; lia.
  - intros Hb [Hh Hm] Hle Hbig. destruct (Hru Hb Hm) as [Hra Hrb]. unfold sys_brk.
    mstep (myproc_run s Hcpu). mstep (get_proc_run (peeked s) _ x Hp).
    unfold MAXVA, PGSIZE in Hm.
    rewrite (proj2 (Z.eqb_neq brk 0)), (proj2 (Z.ltb_ge brk _)), (proj2 (Z.ltb_ge MAXVA _))
      by (unfold MAXVA; lia). cbn [orb]. mstep Hpt.
    rewrite (proj2 (Z.ltb_ge (p_sz x) _)) by lia.
    assert (Hua : IS_PGALIGNED (PGROUNDUP brk) = true)
      by (apply IS_PGALIGNED_iff; [unfold PGSIZE in *; lia|done]).
    assert (Hum := λ n, on_vm_run _ (peeked s) _ _
      (uvmunmap_run (kvm (peeked s)) root (PGROUNDUP brk) n true (proj2 Hpg) Hua)).
    rewrite Eid in Hum.
    assert (Hsh : ∀ n, (if PGROUNDUP brk <? p_sz x
      then on_vm (uvmunmap root (PGROUNDUP brk) n true);; mret true else mret true) (peeked s) =
      Ret (true, peeked s)).
    { intros n. case_match; [|done]. by mstep (Hum n). }
    erewrite mbind_Ret by apply Hsh. cbv beta iota. specialize (Hup (kvm (peeked s))).
    rewrite Eid in Hup. by mstep Hup.
  - intros sz Hb [Hh Hm] [Hpos Hblk] Hpb Hlen.
    assert (Hib : sz + PGSIZE ≤ 2 ^ 31) by (unfold MAX_BLOCK, PGSIZE in *; lia). destruct (Hru Hb Hm) as [Hra Hrb].
    set (v1 := set_frames fs (kvm s)).
    assert (Hszm : sz mod PGSIZE = 0).
    { subst sz. rewrite Zminus_mod, Hra, Hal. done. }
    assert (En : (sz - 1 + PGOFFMASK) / PGSIZE = sz / PGSIZE).
    { unfold PGOFFMASK, PGSIZE in *. Z.div_mod_to_equations. lia. }
    destruct (mappages_translate v1 root (p_sz x) pa sz (Z.lor PTE_RW PTE_U))
      as (v' & Hmap & Hg & Hc & Htr); try done.
    { destruct Hfr as [Hnd Hall]. rewrite Hfs in Hnd, Hall. apply NoDup_cons in Hnd as [_ Hnd].
      split; [done|]. intros f Hf. apply Hall. by right. }
    { unfold MAXVA, PGSIZE in *. lia. }
    { rewrite En. unfold zlen in Hlen. cbn. unfold PGSIZE in *. Z.div_mod_to_equations. lia. }
    { intros j _. apply Hrf. }
    exists v'. split_and!.
    + unfold sys_brk. mstep (myproc_run s Hcpu). mstep (get_proc_run (peeked s) _ x Hp).
      unfold MAXVA, PGSIZE in Hm.
      rewrite (proj2 (Z.eqb_neq brk 0)), (proj2 (Z.ltb_ge brk _)), (proj2 (Z.ltb_ge MAXVA _))
        by (unfold MAXVA; lia). cbn [orb]. mstep Hpt.
      rewrite (proj2 (Z.ltb_lt (p_sz x) _)) by lia.
      assert (Hka : on_vm (kalloc_bytes sz) (peeked s) = Ret (pa, set_kvm v1 (peeked s))).
      { apply on_vm_run, kalloc_bytes_run; [done|]. by rewrite <- Hfs. }
      assert (Hgrow : (pa ← on_vm (kalloc_bytes sz);
        if pa =? 0 then mret false
        else on_vm (mappages root (p_sz x) pa (PGROUNDUP brk - p_sz x) (Z.lor PTE_RW PTE_U));;
             mret true) (peeked s) = Ret (true, set_kvm v' (peeked s))).
      { mstep Hka. rewrite (proj2 (Z.eqb_neq pa 0)) by (destruct Hpa; lia). fold sz.
        mstep (on_vm_run _ (set_kvm v1 (peeked s)) _ _ Hmap). done. }
      mstep Hgrow. by mstep (Hup v').
    + by rewrite (grow_pmem _ _ _ _ Hg).
    + intros va Hva. rewrite Htr by done. rewrite En.
      replace (p_sz x + Z.of_nat (Z.to_nat (sz / PGSIZE)) * PGSIZE) with (PGROUNDUP brk); [done|].
      subst sz. unfold PGSIZE in *. Z.div_mod_to_equations. lia.
Qed.
End vma.

(** ** A process with one area and two mapped pages *)

Section demo.
#[local] Existing Instance demo_env.
#[local] Existing Instance demo_vm_env.
#[local] Instance demo_sys_env : SysEnv unit := demo_sys demo_env.

Definition demo_area : vm_area := VmArea 0x10000 0x14000 3 MAP_PRIVATE 0 0.
Definition demo_proc : proc :=
  set_p_mmap_base MMAP_BASE (set_p_mmap_brk (MMAP_BASE + MMAP_INIT_SIZE)
    (set_p_pagetable 0x700 (set_p_vma_list 0x800 (set_p_sz 8192 (set_p_heap_start 8192
      (set_p_pid 1 (set_p_state RUNNING zero_proc))))))).

Definition demo_kernel : kernel unit := {|
  kvm := set_upgtbls {[ 0x700 := (demo_parent, 1) ]} demo_vm1;
  kfs := demo_vfs;
  procs := {[ 0x900 := demo_proc ]};
  areas := {[ 0x800 := Area demo_area 0 0 ]};
  cwds := ∅; tframes := ∅;
  proc_list := 0x900; init_proc := 0x900; next_pid := 2; cur := 0x900; tick_counter := 0
|}.

Lemma demo_running : running demo_kernel demo_proc [(0x800, demo_area)] demo_parent.
Proof.
  split.
  - exists (Cpu 0 false true). split; [done|]. split; [by vm_compute|done].
  - done.
  - cbn. split_and!; [done..|]. by exists 0.
  - apply NoDup_singleton.
  - split; [by exists 1|]. split; [done|]. eexists. split; [vm_compute; reflexivity|reflexivity].
Qed.

(** The next frame [kalloc] hands out. *)
Definition demo_frame : Z := default 0 (head (frames demo_vm1)).
Definition demo_junk : area := Area (VmArea 1 2 3 4 5 6) 7 0.

Lemma demo_frames_eq : frames (kvm demo_kernel) = demo_frame :: tail (frames demo_vm1).
Proof. vm_compute. reflexivity. Qed.

Lemma do_munmap_spec_witness :
  ∃ s', do_munmap demo_junk 0x11000 4096 demo_kernel = Ret (0, s') ∧
    alist (areas s') 0 0x800 [(0x800, with_end 0x11000 demo_area);
      (demo_frame, with_start 0x12000 demo_area)].
Proof.
  destruct (do_munmap_spec demo_junk demo_kernel demo_proc [(0x800, demo_area)] demo_parent
    0x11000 4096) as [_ Hcut].
  - apply demo_running.
  - lia.
  - lia.
  - vm_compute. reflexivity.
  - destruct (Hcut [] 0x800 demo_area [] demo_frame) as [Hcan _].
    + reflexivity.
    + apply Forall_nil_2.
    + by vm_compute.
    + reflexivity.
    + destruct Hcan as (s' & Hrun & Hrel & _).
      { split; [intros E; discriminate (E : 0x11000 = 0x10000)|]. intros _ _. split_and!.
      * eexists. apply demo_frames_eq.
      * vm_compute. discriminate.
      * vm_compute. reflexivity. }
      exists s'. split; [exact Hrun|]. destruct Hrel as [(x & v & Hx & Hp & Hl) _].
      assert (E : v = 0x800) by (destruct Hl as [E _]; exact E). subst v. exact Hl.
Defined.

Lemma find_free_vma_range_overlaps_witness :
  ∃ r s', find_free_vma_range 0x900 4096 demo_kernel = Ret (r, s') ∧
    (r ≠ 0 → ∃ a y, (a, y) ∈ [(0x800, demo_area)] ∧ r + 4096 = v_end y).
Proof.
  destruct (find_free_vma_range_overlaps demo_kernel 0x900 demo_proc [(0x800, demo_area)] 4096)
    as (r & s' & Hrun & _ & _ & Hov).
  - done.
  - apply demo_running.
  - apply NoDup_singleton.
  - by vm_compute.
  - by vm_compute.
  - intros a y [= -> ->]%list_elem_of_singleton. by vm_compute.
  - intros a y l' [= <- <- <-]. by vm_compute.
  - exists r, s'. split; [exact Hrun|]. apply Hov. discriminate.
Defined.

Lemma page_unmap_handler_kills_witness :
  page_unmap_handler 0x10008 LOAD_ACCESS_FAULT demo_kernel =
    Ret (tt, set_procs (<[0x900 := set_p_killed true demo_proc]> (procs demo_kernel))
               (peeked demo_kernel)).
Proof.
  apply (page_unmap_handler_kills demo_kernel demo_proc [(0x800, demo_area)] demo_parent).
  apply demo_running.
Defined.

Lemma sys_mmap_fixed_spec_witness :
  ∃ s', sys_mmap demo_junk 0x20000 5000 3 (Z.lor MAP_FIXED MAP_ANONYMOUS) (-1) 0 demo_kernel =
      Ret (0, s') ∧ find_vma 0x900 0x21fff s' = Ret (demo_frame, s').
Proof.
  destruct (sys_mmap_fixed_spec demo_kernel demo_junk demo_proc [(0x800, demo_area)] demo_parent
    demo_frame (tail (frames demo_vm1)) 0x20000 5000 3 (Z.lor MAP_FIXED MAP_ANONYMOUS) (-1) 0)
    as [_ Hok].
  - apply demo_running.
  - reflexivity.
  - reflexivity.
  - lia.
  - lia.
  - vm_compute. reflexivity.
  - apply demo_frames_eq.
  - vm_compute. discriminate.
  - vm_compute. reflexivity.
  - lia.
  - destruct Hok as (s' & x' & Hrun & _ & _ & _ & Hfind); [reflexivity..|].
    exists s'. split; [exact Hrun|]. apply Hfind. by vm_compute.
Defined.

Lemma demo_fresh1 : fresh_frames (kvm demo_kernel).
Proof. apply demo_vm1_grow. Qed.

Lemma sys_brk_spec_witness :
  ∃ v', sys_brk 12289 demo_kernel =
      Ret (0, set_procs (<[0x900 := set_p_sz 16384 demo_proc]> (procs demo_kernel))
        (set_kvm v' (peeked demo_kernel))) ∧
    translate (pt_pages v') demo_parent 12290 = demo_frame + 4098.
Proof.
  destruct (sys_brk_spec demo_kernel demo_proc [(0x800, demo_area)] demo_parent 12289
    demo_frame (tail (frames demo_vm1))) as (_ & _ & _ & Hgrow).
  - apply demo_running.
  - by vm_compute.
  - reflexivity.
  - apply demo_vm1_grow.
  - apply demo_fresh1.
  - apply demo_vm1_grow.
  - apply demo_frames_eq.
  - by vm_compute.
  - destruct Hgrow as (v' & Hrun & _ & Htr).
    + lia.
    + by vm_compute.
    + by vm_compute.
    + vm_compute. reflexivity.
    + vm_compute. discriminate.
    + exists v'. split; [exact Hrun|]. assert (H0 : 0 ≤ 12290 < MAXVA) by (unfold MAXVA; lia).
      refine (eq_trans (Htr 12290 H0) _). vm_compute. reflexivity.
Defined.
End demo.
