(* ===== verification/Proc.v ===== *)
(** * Processes: creation, sleeping, waking, exit and wait

    Models [kernel/proc/proc.c], [kernel/proc/sched.c] and the process calls of
    [kernel/proc/sys_proc.c] and [kernel/sys/time.c].  [swtch] cuts a function in two: an
    operation that blocks is modelled up to the [swtch] of [sched], which saves in the
    process's context which caller to return to and the local variables alive there;
    [resume] is what runs after that [swtch] returns. *)

From S2P Require Export Vma.

Definition CLONE_SIGCHLD : Z := 0x11.
Definition CLONE_VM : Z := 0x100.
Definition CLONE_FS : Z := 0x200.
Definition CLONE_FILES : Z := 0x400.
Definition CLONE_THREAD : Z := 0x10000.
Definition CLONE_PARENT_SETTID : Z := 0x100000.
Definition CLONE_CHILD_CLEARTID : Z := 0x200000.
Definition CLONE_CHILD_SETTID : Z := 0x1000000.
Definition WNOHANG : Z := 1.
Definition PTE_RX : Z := Z.lor (Z.lor PTE_V PTE_R) PTE_X.
Definition PTE_RWX : Z := Z.lor PTE_RW PTE_X.

(** [KSTACK(n)]. *)
Definition KSTACK (n : Z) : Z := u64 (TRAPFRAME - (KSTACK_SIZE + PGSIZE) * n).

(** Addresses fixed at link time, the address of a local variable whose bytes are copied
    out, the built-in first program, and what fresh memory holds. *)
Class ProcEnv := {
  dive_to_user_fn : Z;
  ptmp : Z;
  INIT_CODE : Z;
  INIT_CODE_SIZE : Z;
  junk_trapframe : trapframe;
  junk_area : area
}.

Section proc.
Context {F : Type} `{SysEnv F} `{VmEnv} `{ProcEnv}.

(** ** Allocation *)

Definition alloc_pid : M (kernel F) Z :=
  n ← gets next_pid; modify (set_next_pid (i32 (n + 1)));; mret n.

Definition kalloc_nonnull : M (kernel F) Z :=
  a ← on_vm kalloc; massert (ctrue a);; mret a.
Definition kstrdup (d : str) : M (kernel F) Z :=
  a ← on_vm kalloc;
  if a =? 0 then mfault else modify (λ s, set_cwds (<[a := d]> (cwds s)) s);; mret a.
Definition kfree_cwd (a : Z) : M (kernel F) unit :=
  mtry (λ s, cwds s !! a);;
  modify (λ s, set_cwds (delete a (cwds s)) s);;
  on_vm (PageTable.kfree a).
Definition kfree_fdt (a : Z) : M (kernel F) unit :=
  on_fs (get_table a);;
  on_fs (modify (λ s, set_tables (delete a (tables s)) s));;
  on_vm (PageTable.kfree a).
Definition kfree_proc (p : Z) : M (kernel F) unit :=
  get_proc p;;
  modify (λ s, set_procs (delete p (procs s)) s);;
  on_vm (PageTable.kfree p).

Definition upd_tf (t : Z) (f : trapframe → trapframe) : M (kernel F) unit :=
  x ← mtry (λ s, tframes s !! t);
  modify (λ s, set_tframes (<[t := f x]> (tframes s)) s).

(** The memory of a new process, its number and its kernel stack. *)
Definition new_proc : M (kernel F) Z :=
  p ← on_vm kalloc;
  (if p =? 0 then mfault else modify (λ s, set_procs (<[p := zero_proc]> (procs s)) s));;
  pid ← alloc_pid;
  upd_proc p (set_p_pid pid);;
  mret p.

Definition alloc_proc : M (kernel F) Z :=
  p ← new_proc;
  x ← get_proc p;
  let stack := KSTACK (p_pid x) in
  upd_proc p (set_p_stack stack);;
  on_vm (map_stack kernel_pagetable stack);;
  upd_proc p (λ x, set_p_sleeping_due (-1) (set_p_killed false (set_p_state INIT x)));;
  t ← kalloc_nonnull;
  modify (λ s, set_tframes (<[t := junk_trapframe]> (tframes s)) s);;
  upd_proc p (set_p_trapframe t);;
  upd_proc p (set_p_context (InitFunc dive_to_user_fn (u64 (stack + KSTACK_SIZE))));;
  upd_proc p (λ x, set_p_parent 0 (set_p_prev 0 (set_p_next 0 x)));;
  upd_proc p (λ x, set_p_mmap_brk (MMAP_BASE + MMAP_INIT_SIZE)
    (set_p_mmap_base MMAP_BASE (set_p_vma_list 0 x)));;
  c ← kstrdup [SLASH];
  upd_proc p (set_p_cwd c);;
  t ← kalloc_nonnull;
  upd_proc p (set_p_fdt t);;
  on_fs (fdt_init t "fdt_lock");;
  upd_proc p (λ x, set_p_stime 0 (set_p_utime 0 x));;
  mret p.

(** The area list of the first process is circular. *)
Definition proc_init : M (kernel F) unit :=
  p ← alloc_proc;
  x ← get_proc p;
  pt ← on_vm (uvminit (p_trapframe x) INIT_CODE INIT_CODE_SIZE);
  u ← on_vm (upgtbl_init pt);
  upd_proc p (set_p_pagetable u);;
  upd_proc p (λ x, set_p_sz (18 * PGSIZE) (set_p_heap_start (18 * PGSIZE) x));;
  v ← kalloc_area (Area (VmArea 0 0 0 0 0 0) 0 0);
  upd_proc p (set_p_vma_list v);;
  upd_area v (λ a, set_a_prev v (set_a_next v
    (set_a_vma (VmArea 0 (18 * PGSIZE) (Z.lor PTE_RWX PTE_U) 0 0 0) a)));;
  upd_tf (p_trapframe x) (λ t, set_sp (18 * PGSIZE) (set_epc 0 t));;
  upd_proc p (λ x, set_p_state RUNNABLE (set_p_name "init" x));;
  modify (set_proc_list p);;
  modify (set_init_proc p).

Definition test_proc_init (test_func : Z) : M (kernel F) unit :=
  p ← alloc_proc;
  x ← get_proc p;
  upd_proc p (set_p_context (InitFunc test_func
    (match p_context x with InitFunc _ sp => sp | _ => 0 end)));;
  upd_proc p (λ x, set_p_state RUNNABLE (set_p_name "test" x));;
  h ← gets proc_list;
  upd_proc h (set_p_next p);;
  upd_proc p (set_p_prev h).

(** ** Giving up the CPU *)

(** [sched] up to its [swtch]. *)
Definition sched (from : caller) : M (kernel F) unit :=
  p ← myproc;
  x ← get_proc p;
  massert (negb (bool_decide (p_state x = RUNNING)));;
  i ← on_fs intr_get;
  massert (negb i);;
  c ← mtry (λ s, cpus (venv (kfs s)) !! 0%nat);
  upd_proc p (set_p_context (InSched (intena c) from)).

Definition set_intena (b : bool) : M (vfs F) unit :=
  c ← mtry (λ s, cpus (venv s) !! 0%nat);
  modify (λ s, set_venv (set_cpu 0 (Cpu (noff c) b (intr c)) (venv s)) s).

(** What runs when [swtch] switches to [p], up to where the caller of [sched] goes on. *)
Definition resume (p : Z) : M (kernel F) unit :=
  x ← get_proc p;
  match p_context x with
  | InitFunc _ _ => mret tt
  | InSched i from =>
      on_fs (set_intena i);;
      match from with
      | FromSleep int_status => on_fs (intr_set int_status);; upd_proc p (set_p_chan 0)
      | FromYield | FromNanosleep => mret tt
      | FromExit => mpanic
      end
  end.

Definition yield : M (kernel F) unit :=
  p ← myproc;
  upd_proc p (set_p_state RUNNABLE);;
  sched FromYield.

Definition sleep (chan : Z) : M (kernel F) unit :=
  p ← myproc;
  upd_proc p (set_p_chan chan);;
  upd_proc p (set_p_state SLEEPING);;
  int_status ← on_fs intr_get;
  sched (FromSleep int_status).

(** ** Walks over the list of processes *)

Definition proc_fuel (s : kernel F) : nat := S (base.size (procs s)).

Fixpoint for_procs (fuel : nat) (p : Z) (body : Z → M (kernel F) unit) : M (kernel F) unit :=
  if p =? 0 then mret tt
  else
    match fuel with
    | O => mspin
    | S fuel =>
        body p;;
        x ← get_proc p;
        for_procs fuel (p_next x) body
    end.

Definition each_proc (body : Z → M (kernel F) unit) : M (kernel F) unit :=
  fuel ← gets proc_fuel; p ← gets proc_list; for_procs fuel p body.

Definition wakeup (chan : Z) : M (kernel F) unit :=
  cur ← myproc;
  each_proc (λ p,
    mwhen (negb (p =? cur))
      (x ← get_proc p;
       mwhen (bool_decide (p_state x = SLEEPING) && (p_chan x =? chan))
         (upd_proc p (set_p_state RUNNABLE)))).

Fixpoint kill_loop (fuel : nat) (p pid : Z) : M (kernel F) Z :=
  if p =? 0 then mret (-1)
  else
    match fuel with
    | O => mspin
    | S fuel =>
        x ← get_proc p;
        if p_pid x =? pid then
          upd_proc p (set_p_killed true);;
          upd_proc p (λ x, set_p_state
            (if bool_decide (p_state x = SLEEPING) then RUNNABLE else p_state x) x);;
          mret 0
        else kill_loop fuel (p_next x) pid
    end.

Definition kill (pid : Z) : M (kernel F) Z :=
  fuel ← gets proc_fuel; p ← gets proc_list; kill_loop fuel p pid.

Definition reparent (p : Z) : M (kernel F) unit :=
  each_proc (λ np,
    x ← get_proc np;
    mwhen (p_parent x =? p)
      (i ← gets init_proc; upd_proc np (set_p_parent i);; wakeup i)).

(** ** Exit *)

(** [vma->next] is read after [do_munmap] may have freed [vma]. *)
Fixpoint exit_unmap (fuel : nat) (v : Z) : M (kernel F) unit :=
  if v =? 0 then mret tt
  else
    match fuel with
    | O => mspin
    | S fuel =>
        a ← get_area v;
        do_munmap junk_area (v_start (a_vma a)) (u64 (v_end (a_vma a) - v_start (a_vma a)));;
        a ← get_area v;
        exit_unmap fuel (a_next a)
    end.

Definition do_exit (status : Z) : M (kernel F) unit :=
  p ← myproc;
  x ← get_proc p;
  fuel ← gets area_fuel;
  exit_unmap fuel (p_vma_list x);;
  x ← get_proc p;
  on_fs (fdt_freeall (p_fdt x));;
  kfree_fdt (p_fdt x);;
  kfree_cwd (p_cwd x);;
  reparent p;;
  x ← get_proc p;
  wakeup (p_parent x);;
  upd_proc p (set_p_status status);;
  upd_proc p (set_p_state ZOMBIE);;
  on_fs (intr_set false);;
  sched FromExit.

(** The chain of areas from [v]. *)
Fixpoint vma_chain (fuel : nat) (v : Z) : M (kernel F) (list vm_area) :=
  if v =? 0 then mret []
  else
    match fuel with
    | O => mspin
    | S fuel => a ← get_area v; l ← vma_chain fuel (a_next a); mret (a_vma a :: l)
    end.

Definition proc_free_pagetable (p : Z) : M (kernel F) unit :=
  x ← get_proc p;
  c ← on_vm (upgtbl_decr (p_pagetable x));
  if 1 <? c then mret tt
  else
    pgtbl ← on_vm (UPGTBL (p_pagetable x));
    fuel ← gets area_fuel;
    l ← vma_chain fuel (p_vma_list x);
    on_vm (free_pgtbl pgtbl l).

Definition freeproc (p : Z) : M (kernel F) unit :=
  i ← gets init_proc;
  massert (negb (p =? i));;
  x ← get_proc p;
  mwhen (ctrue (p_pagetable x)) (proc_free_pagetable p);;
  h ← gets proc_list;
  mwhen (p =? h)
    (x ← get_proc p; massert (ctrue (p_next x));; modify (set_proc_list (p_next x)));;
  x ← get_proc p;
  let prev := p_prev x in
  let next := p_next x in
  mwhen (ctrue prev) (upd_proc prev (set_p_next next));;
  mwhen (ctrue next) (upd_proc next (set_p_prev prev));;
  kfree_proc p.

(** ** System calls *)

(** How a call ends: with a result, by going to sleep in [wait4]'s loop, or in [do_exit]
    inside [copyout]. *)
Inductive call_result := Done (r : Z) | Wait | Exit.

(** The bytes of an [int] where [copyout] will read them. *)
Definition put_tmp (n : nat) (z : Z) : M (kernel F) unit := on_vm (on_pmem (st_le n ptmp z)).

(** The child at the head of the list. *)
Definition link_child (child : Z) : M (kernel F) unit :=
  h ← gets proc_list;
  upd_proc child (set_p_next h);;
  upd_proc h (set_p_prev child);;
  modify (set_proc_list child).

(** The end of [fork] and [clone]: the child joins the list, ready to run. *)
Definition start_child (parent child : Z) : M (kernel F) Z :=
  upd_proc child (λ c, set_p_state RUNNABLE (set_p_parent parent c));;
  link_child child;;
  c ← get_proc child;
  mret (p_pid c).

(** What [fork] gives the child: memory, registers, directory and files. *)
Definition fork_copy (parent child : Z) : M (kernel F) unit :=
  cpgtbl ← on_vm alloc_pagetable;
  x ← get_proc parent;
  ppt ← on_vm (UPGTBL (p_pagetable x));
  fuel ← gets area_fuel;
  l ← vma_chain fuel (p_vma_list x);
  on_vm (uvmcopy_alloc cpgtbl ppt l);;
  on_vm (mappages cpgtbl TRAPFRAME (p_trapframe x) PGSIZE (Z.lor PTE_U PTE_RW));;
  on_vm (mappages cpgtbl TRAMPOLINE trampoline PGSIZE PTE_RX);;
  u ← on_vm (upgtbl_init cpgtbl);
  upd_proc child (set_p_pagetable u);;
  upd_proc child (λ c, set_p_heap_start (p_heap_start x) (set_p_sz (p_sz x) c));;
  c ← get_proc child;
  t ← mtry (λ s, tframes s !! p_trapframe x);
  upd_tf (p_trapframe c) (λ _, t);;
  upd_tf (p_trapframe c) (set_a0 0);;
  d ← mtry (λ s, cwds s !! p_cwd x);
  w ← kstrdup d;
  upd_proc child (set_p_cwd w);;
  f ← on_fs (fdt_dup (p_fdt x) "fdt_lock_dup");
  upd_proc child (set_p_fdt f);;
  upd_proc child (λ c, set_p_tgid (p_pid c) c).

Definition sys_fork : M (kernel F) Z :=
  parent ← myproc;
  child ← alloc_proc;
  massert (ctrue child);;
  fork_copy parent child;;
  start_child parent child.

(** [CLONE_VM]: the areas are copied in reverse, each with the [prev] of the original. *)
Fixpoint clone_areas (fuel : nat) (child v : Z) : M (kernel F) unit :=
  if v =? 0 then mret tt
  else
    match fuel with
    | O => mspin
    | S fuel =>
        n ← kalloc_area junk_area;
        a ← get_area v;
        upd_area n (λ _, a);;
        c ← get_proc child;
        upd_area n (set_a_next (p_vma_list c));;
        mwhen (ctrue (p_vma_list c)) (upd_area (p_vma_list c) (set_a_prev n));;
        upd_proc child (set_p_vma_list n);;
        a ← get_area v;
        clone_areas fuel child (a_next a)
    end.

Definition flag (flags f : Z) : bool := ctrue (Z.land flags f).

(** Without [CLONE_VM] the child's [pagetable] stays NULL. *)
Definition clone_vm (flags proc child : Z) : M (kernel F) unit :=
  x ← get_proc proc;
  if flag flags CLONE_VM then
    u ← on_vm (upgtbl_clone (p_pagetable x));
    upd_proc child (set_p_pagetable u);;
    fuel ← gets area_fuel;
    clone_areas fuel child (p_vma_list x);;
    upd_proc child (λ c, set_p_mmap_brk (p_mmap_brk x) (set_p_mmap_base (p_mmap_base x) c))
  else
    cpgtbl ← on_vm alloc_pagetable;
    ppt ← on_vm (UPGTBL (p_pagetable x));
    on_vm (uvmcopy cpgtbl ppt (p_sz x)).

(** [None] when [copyout] ended the process. *)
Definition settid (on : bool) (pgtbl addr pid : Z) : M (kernel F) bool :=
  if on then
    put_tmp 4 pid;;
    r ← on_vm (copyout pgtbl addr ptmp 4);
    mret (match r with Some _ => true | None => false end)
  else mret true.

(** What [clone] gives the child; [false] when [copyout] ended the process. *)
Definition clone_copy (flags ptid tls ctid proc child : Z) : M (kernel F) bool :=
  clone_vm flags proc child;;
  x ← get_proc proc;
  upd_proc child (λ c, set_p_heap_start (p_heap_start x) (set_p_sz (p_sz x) c));;
  c ← get_proc child;
  t ← mtry (λ s, tframes s !! p_trapframe x);
  upd_tf (p_trapframe c) (λ _, t);;
  upd_proc child (set_p_tls tls);;
  upd_tf (p_trapframe c) (λ t, set_a0 0 (set_tp tls t));;
  (if flag flags CLONE_FS then upd_proc child (set_p_cwd (p_cwd x))
   else d ← mtry (λ s, cwds s !! p_cwd x); w ← kstrdup d; upd_proc child (set_p_cwd w));;
  (if flag flags CLONE_FILES then upd_proc child (set_p_fdt (p_fdt x))
   else f ← on_fs (fdt_dup (p_fdt x) "fdt_lock_dup"); upd_proc child (set_p_fdt f));;
  mwhen (flag flags CLONE_THREAD) (upd_proc child (set_p_tgid (p_tgid x)));;
  pgtbl ← on_vm (UPGTBL (p_pagetable x));
  ok ← settid (flag flags CLONE_PARENT_SETTID) pgtbl ptid (p_pid c);
  if negb ok then mret false
  else
    ok ← settid (flag flags CLONE_CHILD_SETTID) pgtbl ctid (p_pid c);
    if negb ok then mret false
    else
      mwhen (flag flags CLONE_CHILD_CLEARTID) (upd_proc child (set_p_cleartid 1));;
      mwhen (flag flags CLONE_SIGCHLD) (upd_proc child (set_p_sigchld 1));;
      mret true.

Definition sys_clone (flags stack ptid tls ctid : Z) : M (kernel F) call_result :=
  proc ← myproc;
  child ← alloc_proc;
  massert (ctrue child);;
  ok ← clone_copy flags ptid tls ctid proc child;
  if negb ok then mret Exit
  else pid ← start_child proc child; mret (Done pid).

(** The status of a zombie child [p] goes to the address [status] of the child's own page
    table, and the child is freed. *)
Definition reap (p status : Z) : M (kernel F) call_result :=
  x ← get_proc p;
  out ← (if ctrue status then
           pgtbl ← on_vm (UPGTBL (p_pagetable x));
           put_tmp 4 (p_status x);;
           on_vm (copyout pgtbl status ptmp 4)
         else mret (Some 0));
  match out with
  | None => mret Exit
  | Some r =>
      if r <? 0 then mret (Done (-1))
      else
        upd_proc p (set_p_waited true);;
        freeproc p;;
        mret (Done (p_pid x))
  end.

(** The loop of [wait4] over the processes: the child reaped, or whether there is one. *)
Fixpoint wait_loop (fuel : nat) (p curproc status : Z) (has_child : bool) :
    M (kernel F) (call_result + bool) :=
  if p =? 0 then mret (inr has_child)
  else
    match fuel with
    | O => mspin
    | S fuel =>
        x ← get_proc p;
        if (p_parent x =? curproc) && negb (p_waited x) then
          if bool_decide (p_state x = ZOMBIE) then r ← reap p status; mret (inl r)
          else wait_loop fuel (p_next x) curproc status true
        else wait_loop fuel (p_next x) curproc status has_child
    end.

(** One turn of [for (;;)]; [Wait] stands for [sleep(curproc)]. *)
Definition sys_wait4 (pid status options : Z) : M (kernel F) call_result :=
  curproc ← myproc;
  fuel ← gets proc_fuel; h ← gets proc_list;
  r ← wait_loop fuel h curproc status false;
  match r with
  | inl r => mret r
  | inr has_child =>
      x ← get_proc curproc;
      if negb has_child || p_killed x then mret (Done (-1))
      else if flag options WNOHANG then mret (Done 0)
      else mret Wait
  end.

Definition sys_exit (ec : Z) : M (kernel F) unit := do_exit ec.
Definition sys_getpid : M (kernel F) Z := p ← myproc; x ← get_proc p; mret (p_pid x).
Definition sys_getppid : M (kernel F) Z :=
  p ← myproc; x ← get_proc p; y ← get_proc (p_parent x); mret (p_pid y).
Definition sys_getgid : M (kernel F) Z := p ← myproc; x ← get_proc p; mret (p_tgid x).
Definition sys_geteuid : M (kernel F) Z := mret 0.
Definition sys_getuid : M (kernel F) Z := mret 0.
Definition sys_getegid : M (kernel F) Z := mret 0.
Definition sys_sched_yield : M (kernel F) unit := yield.

(** ** Time *)

Definition TICK_HZ : Z := 100.
Definition MS_PER_TICK : Z := 1000 / TICK_HZ.

Definition sys_times (user_buf : Z) : M (kernel F) call_result :=
  proc ← myproc;
  if user_buf =? 0 then mret (Done (-1))
  else
    buf ← on_vm kalloc;
    x ← get_proc proc;
    on_vm (on_pmem (st_le 8 buf (p_utime x);; st_le 8 (buf + 8) (p_stime x);;
                    st_le 8 (buf + 16) (p_utime x);; st_le 8 (buf + 24) (p_stime x)));;
    pgtbl ← on_vm (UPGTBL (p_pagetable x));
    r ← on_vm (copyout pgtbl user_buf buf 32);
    match r with
    | None => mret Exit
    | Some r => if ctrue r then mret (Done (-1)) else t ← gets tick_counter; mret (Done t)
    end.

Definition sys_gettimeofday (ts : Z) : M (kernel F) call_result :=
  proc ← myproc;
  if ts =? 0 then mret (Done (-1))
  else
    buf ← on_vm kalloc;
    ticks ← gets tick_counter;
    let t := u64 (ticks * MS_PER_TICK) in
    on_vm (on_pmem (st_le 8 buf (t / 1000);; st_le 8 (buf + 8) (t mod 1000 * 1000000)));;
    pgtbl ← pgtbl_of proc;
    r ← on_vm (copyout pgtbl ts buf 16);
    match r with
    | None => mret Exit
    | Some r => mret (Done (if ctrue r then -1 else 0))
    end.

(** How long to sleep, in ticks; [None] for the error and [Some 0] for no wait. *)
Definition sleep_ticks (tv_sec tv_nsec : Z) : option Z :=
  if (tv_sec <? 0) || (tv_nsec <? 0) || (999999999 <? tv_nsec) then None
  else
    let t_ms := i64 (tv_sec * 1000 + tv_nsec / 1000000) in
    let t_ms := if negb (tv_nsec mod 1000000 =? 0) then i64 (t_ms + 1) else t_ms in
    if t_ms <? 0 then None
    else if t_ms =? 0 then Some 0
    else Some ((t_ms - 1) / MS_PER_TICK + 1).

(** [None] when the process went to sleep. *)
Definition sys_nanosleep (tv_sec tv_nsec : Z) : M (kernel F) (option Z) :=
  match sleep_ticks tv_sec tv_nsec with
  | None => mret (Some (-1))
  | Some n =>
      proc ← myproc;
      if proc =? 0 then mret (Some (-1))
      else if n =? 0 then mret (Some 0)
      else
        t ← gets tick_counter;
        upd_proc proc (set_p_state SLEEPING);;
        upd_proc proc (set_p_sleeping_due (i64 (t + n)));;
        sched FromNanosleep;;
        mret None
  end.

(** [user] tells whether the interrupt came from user mode. *)
Definition account_time (p : Z) (user : bool) : M (kernel F) unit :=
  upd_proc p (λ x, if user then set_p_utime (u64 (p_utime x + 1)) x
                   else set_p_stime (u64 (p_stime x + 1)) x).

(** Whether it yields. *)
Definition timer_interrupt_handler (user : bool) : M (kernel F) bool :=
  modify (λ s, set_tick_counter (u64 (tick_counter s + 1)) s);;
  p ← myproc;
  if p =? 0 then mret false
  else
    x ← get_proc p;
    if bool_decide (p_state x = RUNNING) then account_time p user;; yield;; mret true
    else mret false.
End proc.
