(* ===== verification/ProcTable.v ===== *)
(** * What each operation does to the process table

    The scheduler and the calls of [Proc] only agree on a part of [struct proc]: number,
    state, parent, list pointers and whether the process is past its exit.  [table] is that
    part of the state.  For each operation one lemma says how it changes the table; everything
    else an operation does leaves it alone ([keeps]). *)

From S2P Require Export Proc.

Record core := Core {
  c_pid : Z;
  c_state : proc_state;
  c_parent : Z;
  c_next : Z;
  c_prev : Z;
  c_exited : bool
}.

Definition exited (c : context) : bool :=
  match c with InSched _ FromExit => true | _ => false end.
Definition core_of (x : proc) : core :=
  Core (p_pid x) (p_state x) (p_parent x) (p_next x) (p_prev x) (exited (p_context x)).

Definition set_c_state x c := Core (c_pid c) x (c_parent c) (c_next c) (c_prev c) (c_exited c).
Definition set_c_parent x c := Core (c_pid c) (c_state c) x (c_next c) (c_prev c) (c_exited c).
Definition set_c_next x c := Core (c_pid c) (c_state c) (c_parent c) x (c_prev c) (c_exited c).
Definition set_c_prev x c := Core (c_pid c) (c_state c) (c_parent c) (c_next c) x (c_exited c).
Definition set_c_exited x c := Core (c_pid c) (c_state c) (c_parent c) (c_next c) (c_prev c) x.

(** The process table: the cores, the head of the list, the first process, the next number
    and the running process. *)
Record table := Table {
  t_procs : gmap Z core;
  t_list : Z;
  t_init : Z;
  t_next_pid : Z;
  t_cur : Z
}.

Definition table_of {F} (s : kernel F) : table :=
  Table (core_of <$> procs s) (proc_list s) (init_proc s) (next_pid s) (cur s).
Definition with_procs (m : gmap Z core) (t : table) : table :=
  Table m (t_list t) (t_init t) (t_next_pid t) (t_cur t).

Section keeps.
Context {F : Type} `{SysEnv F} `{VmEnv} `{ProcEnv}.

(** An operation relates the states before and after whenever it returns. *)
Definition keeps {A} (R : kernel F → kernel F → Prop) (m : M (kernel F) A) : Prop :=
  ∀ s a s', m s = Ret (a, s') → R s s'.

Definition same_table (s s' : kernel F) : Prop := table_of s' = table_of s.

#[export] Instance same_table_preorder : PreOrder same_table.
Proof. split; unfold same_table; congruence. Qed.

Section rules.
Context (R : kernel F → kernel F → Prop) `{!PreOrder R}.

Lemma keeps_ret {A} (a : A) : keeps R (mret a).
Proof. intros s b s' [= <- <-]. reflexivity. Qed.
Lemma keeps_fail {A} (m : M (kernel F) A) : (∀ s, ∀ r, m s ≠ Ret r) → keeps R m.
Proof. intros Hm s a s' E. by apply Hm in E. Qed.
Lemma keeps_bind {A B} (m : M (kernel F) A) (k : A → M (kernel F) B) :
  keeps R m → (∀ a, keeps R (k a)) → keeps R (m ≫= k).
Proof.
  intros Hm Hk s b s'' (a & s' & E1 & E2)%mbind_inv. transitivity s'; [by eapply Hm|by eapply Hk].
Qed.
Lemma keeps_gets {A} (f : kernel F → A) : keeps R (gets f).
Proof. intros s a s' [= <- <-]. reflexivity. Qed.
Lemma keeps_mtry {A} (f : kernel F → option A) : keeps R (mtry f).
Proof. intros s a s'. unfold mtry. case_match; [|done]. intros [= <- <-]. reflexivity. Qed.
Lemma keeps_massert b : keeps R (massert b).
Proof. destruct b; [apply keeps_ret|]. by apply keeps_fail. Qed.
Lemma keeps_mwhen b (m : M (kernel F) unit) : keeps R m → keeps R (mwhen b m).
Proof. destruct b; [done|intros _; apply keeps_ret]. Qed.
End rules.

Lemma keeps_on_vm {A} (m : M vm A) : keeps same_table (on_vm m).
Proof. intros s a s'. unfold on_vm, zoom. case_match; try done. case_match. by intros [= <- <-]. Qed.
Lemma keeps_on_fs {A} (m : M (vfs F) A) : keeps same_table (on_fs m).
Proof. intros s a s'. unfold on_fs, zoom. case_match; try done. case_match. by intros [= <- <-]. Qed.
Lemma keeps_upd_proc p f : (∀ x, core_of (f x) = core_of x) → keeps same_table (upd_proc p f).
Proof.
  intros Hf s a s' (x & s1 & Hx & E)%mbind_inv. unfold get_proc, mtry in Hx.
  destruct (procs s !! p) as [y|] eqn:Ep; [|done]. injection Hx as <- <-.
  injection E as <- <-. unfold same_table, table_of. cbn. f_equal.
  rewrite fmap_insert, Hf. apply insert_id. by rewrite lookup_fmap, Ep.
Qed.
End keeps.

Create HintDb keeps.
#[export] Hint Resolve keeps_ret keeps_gets keeps_mtry keeps_massert keeps_on_vm keeps_on_fs : keeps.
#[export] Hint Extern 1 (PreOrder _) => apply same_table_preorder : keeps.
#[export] Hint Extern 2 (keeps _ (upd_proc _ _)) =>
  apply keeps_upd_proc; intros; reflexivity : keeps.

(** Go through an operation that never touches the process table. *)
Ltac keep_step :=
  match goal with
  | |- keeps _ (_ ≫= _) => apply keeps_bind; [apply _| |intros]
  | |- keeps _ (mwhen _ _) => apply keeps_mwhen; [apply _|]
  | |- keeps _ (modify _) => intros ? ? ? [= <- <-]; reflexivity
  | |- keeps _ mfault => by apply keeps_fail
  | |- keeps _ mspin => by apply keeps_fail
  | |- keeps _ mpanic => by apply keeps_fail
  | |- keeps _ (match ?x with _ => _ end) => destruct x
  | |- keeps _ _ => solve [eauto with keeps typeclass_instances]
  end.
Ltac keep := repeat keep_step.

Section keeping.
Context {F : Type} `{SysEnv F} `{VmEnv} `{ProcEnv}.
#[local] Abbreviation kept := (keeps (same_table (F := F))).

Lemma keeps_get_proc p : kept (get_proc p).
Proof. apply keeps_mtry, _. Qed.
Lemma keeps_get_area v : kept (get_area v).
Proof. apply keeps_mtry, _. Qed.
Hint Resolve keeps_get_proc keeps_get_area : keeps.
Lemma keeps_upd_area v f : kept (upd_area v f).
Proof. unfold upd_area. keep. Qed.
Lemma keeps_myproc : kept myproc.
Proof. unfold myproc. keep. Qed.
Hint Resolve keeps_upd_area keeps_myproc : keeps.
Lemma keeps_kalloc_area j : kept (kalloc_area j).
Proof. unfold kalloc_area. keep. Qed.
Lemma keeps_kfree_area v : kept (kfree_area v).
Proof. unfold kfree_area. keep. Qed.
Lemma keeps_pgtbl_of p : kept (pgtbl_of p).
Proof. unfold pgtbl_of. keep. Qed.
Hint Resolve keeps_kalloc_area keeps_kfree_area keeps_pgtbl_of : keeps.
Lemma keeps_find_vma_loop fuel va : ∀ v, kept (find_vma_loop fuel v va).
Proof. induction fuel; intros v; cbn; keep. Qed.
Hint Resolve keeps_find_vma_loop : keeps.
Lemma keeps_find_vma p va : kept (find_vma p va).
Proof. unfold find_vma. keep. Qed.
Lemma keeps_write_back n pgtbl f o st : ∀ a, kept (write_back_loop n pgtbl f o st a).
Proof. induction n; intros a; cbn; keep. Qed.
Lemma keeps_shrink_vma j p v us ue : kept (shrink_vma j p v us ue).
Proof. unfold shrink_vma. keep. Qed.
Hint Resolve keeps_find_vma keeps_write_back keeps_shrink_vma : keeps.
Lemma keeps_do_munmap j a n : kept (do_munmap j a n).
Proof. unfold do_munmap. keep. Qed.
Hint Resolve keeps_do_munmap : keeps.
Lemma keeps_exit_unmap fuel : ∀ v, kept (exit_unmap fuel v).
Proof. induction fuel; intros v; cbn; keep. Qed.
Lemma keeps_vma_chain fuel : ∀ v, kept (vma_chain fuel v).
Proof. induction fuel; intros v; cbn; keep. Qed.
Hint Resolve keeps_exit_unmap keeps_vma_chain : keeps.
Lemma keeps_kalloc_nonnull : kept kalloc_nonnull.
Proof. unfold kalloc_nonnull. keep. Qed.
Lemma keeps_kstrdup d : kept (kstrdup d).
Proof. unfold kstrdup. keep. Qed.
Lemma keeps_kfree_cwd a : kept (kfree_cwd a).
Proof. unfold kfree_cwd. keep. Qed.
Lemma keeps_kfree_fdt a : kept (kfree_fdt a).
Proof. unfold kfree_fdt. keep. Qed.
Lemma keeps_upd_tf t f : kept (upd_tf t f).
Proof. unfold upd_tf. keep. Qed.
Lemma keeps_proc_free_pagetable p : kept (proc_free_pagetable p).
Proof. unfold proc_free_pagetable. keep. Qed.
Hint Resolve keeps_kalloc_nonnull keeps_kstrdup keeps_kfree_cwd keeps_kfree_fdt keeps_upd_tf
  keeps_proc_free_pagetable : keeps.
Lemma keeps_clone_areas fuel child : ∀ v, kept (clone_areas fuel child v).
Proof. induction fuel; intros v; cbn; keep. Qed.
Hint Resolve keeps_clone_areas : keeps.
Lemma keeps_clone_vm flags p c : kept (clone_vm flags p c).
Proof. unfold clone_vm. keep. Qed.
Lemma keeps_put_tmp n z : kept (put_tmp n z).
Proof. unfold put_tmp. keep. Qed.
Hint Resolve keeps_put_tmp : keeps.
Lemma keeps_settid on pt a pid : kept (settid on pt a pid).
Proof. unfold settid. keep. Qed.
Hint Resolve keeps_clone_vm keeps_settid : keeps.
Lemma keeps_clone_copy flags pt tls ct p c : kept (clone_copy flags pt tls ct p c).
Proof. unfold clone_copy. keep. Qed.
Lemma keeps_fork_copy p c : kept (fork_copy p c).
Proof. unfold fork_copy. keep. Qed.
End keeping.
#[export] Hint Resolve keeps_get_proc keeps_get_area keeps_upd_area keeps_myproc keeps_kalloc_area
  keeps_kfree_area keeps_pgtbl_of keeps_do_munmap keeps_exit_unmap keeps_vma_chain
  keeps_kalloc_nonnull keeps_kstrdup keeps_kfree_cwd keeps_kfree_fdt keeps_upd_tf
  keeps_proc_free_pagetable keeps_put_tmp keeps_clone_copy keeps_fork_copy : keeps.

Section changes.
Context {F : Type} `{SysEnv F} `{VmEnv} `{ProcEnv}.

Lemma kept_eq {A} (m : M (kernel F) A) s a s' :
  keeps same_table m → m s = Ret (a, s') → table_of s' = table_of s.
Proof. intros Hk E. by apply (Hk _ _ _ E). Qed.

Lemma get_proc_inv (s : kernel F) p x s' :
  get_proc p s = Ret (x, s') → s' = s ∧ procs s !! p = Some x.
Proof. unfold get_proc, mtry. destruct (procs s !! p); [|done]. by intros [= -> ->]. Qed.

Lemma upd_table (s : kernel F) p f s' :
  upd_proc p f s = Ret (tt, s') →
  ∃ x, procs s !! p = Some x ∧
    table_of s' = with_procs (<[p := core_of (f x)]> (t_procs (table_of s))) (table_of s).
Proof.
  intros (x & s1 & [-> Hx]%get_proc_inv & [= <-])%mbind_inv. exists x. split; [done|].
  unfold table_of, with_procs. cbn. by rewrite fmap_insert.
Qed.

Lemma table_lookup (s : kernel F) p x :
  procs s !! p = Some x → t_procs (table_of s) !! p = Some (core_of x).
Proof. intros E. cbn. by rewrite lookup_fmap, E. Qed.

(** ** Waking *)

(** Some sleeping processes become runnable. *)
Definition wake_core (c c' : core) : Prop :=
  c' = c ∨ c_state c = SLEEPING ∧ c' = set_c_state RUNNABLE c.
Definition woken (t t' : table) : Prop :=
  (∀ p, option_Forall2 wake_core (t_procs t !! p) (t_procs t' !! p)) ∧
  t_list t' = t_list t ∧ t_init t' = t_init t ∧ t_next_pid t' = t_next_pid t ∧
  t_cur t' = t_cur t.
Definition wakes (s s' : kernel F) : Prop := woken (table_of s) (table_of s').

#[export] Instance wake_core_preorder : PreOrder wake_core.
Proof.
  split; [by left|]. intros c1 c2 c3 [->|[E1 ->]] [->|[E2 ->]]; unfold wake_core; try naive_solver.
Qed.
#[export] Instance wakes_preorder : PreOrder wakes.
Proof.
  split.
  - intros s. split; [|done]. intros p. reflexivity.
  - intros s1 s2 s3 (E1 & ? & ? & ? & ?) (E2 & ? & ? & ? & ?). split; [|split_and!; congruence].
    intros p. specialize (E1 p). specialize (E2 p). by etransitivity.
Qed.

Lemma same_wakes (s s' : kernel F) : same_table s s' → wakes s s'.
Proof. unfold same_table, wakes. intros ->. split; [|done]. intros p. reflexivity. Qed.
Lemma kept_wakes {A} (m : M (kernel F) A) : keeps same_table m → keeps wakes m.
Proof. intros Hk s a s' E. by apply same_wakes, (Hk _ a). Qed.

Lemma wake_upd (s : kernel F) p x f s' :
  procs s !! p = Some x → upd_proc p f s = Ret (tt, s') →
  wake_core (core_of x) (core_of (f x)) → wakes s s'.
Proof.
  intros Hx (y & Hy & E)%upd_table Hw. simplify_eq. unfold wakes. rewrite E.
  split; [|done]. intros q. cbn. destruct (decide (q = p)) as [->|].
  - rewrite lookup_insert_eq, lookup_fmap, Hx. by constructor.
  - rewrite lookup_insert_ne by done. reflexivity.
Qed.

Lemma keeps_for_procs R `{!PreOrder R} body fuel : ∀ p,
  (∀ s s', same_table s s' → R s s') →
  (∀ q, keeps R (body q)) → keeps (F := F) R (for_procs fuel p body).
Proof.
  induction fuel as [|fuel IH]; intros p HR Hb; cbn; destruct (p =? 0); try apply keeps_ret, _.
  { by apply keeps_fail. }
  apply keeps_bind; [done|apply Hb|]. intros _. apply keeps_bind; [done| |].
  - intros s a s' E. apply HR. by apply (keeps_get_proc p _ _ _ E).
  - intros x. by apply IH.
Qed.

Lemma wakeup_wakes chan : keeps wakes (wakeup chan).
Proof.
  unfold wakeup. apply keeps_bind; [apply _|apply kept_wakes, keeps_myproc|]. intros c.
  unfold each_proc. do 2 (apply keeps_bind; [apply _|apply kept_wakes, keeps_gets, _|]; intros).
  apply keeps_for_procs; [apply _|apply same_wakes|]. intros q. apply keeps_mwhen; [apply _|].
  intros s u s' (x & s1 & [-> Hx]%get_proc_inv & E)%mbind_inv.
  destruct (bool_decide _) eqn:Es; cbn [andb] in E; [|by injection E as <- <-].
  destruct (_ =? _); [|by injection E as <- <-]. destruct u.
  eapply wake_upd; [done..|]. right. by apply bool_decide_eq_true in Es.
Qed.

Lemma kill_wakes pid : keeps wakes (kill pid).
Proof.
  unfold kill. do 2 (apply keeps_bind; [apply _|apply kept_wakes, keeps_gets, _|]; intros).
  generalize a, a0. clear a a0. induction a as [|fuel IH]; intros p; cbn;
    destruct (p =? 0); try apply keeps_ret, _; [by apply keeps_fail|].
  apply keeps_bind; [apply _|apply kept_wakes, keeps_get_proc|]. intros x. destruct (_ =? pid); [|done].
  apply keeps_bind; [apply _|apply kept_wakes; keep|]. intros _.
  apply keeps_bind; [apply _| |intros; apply keeps_ret, _].
  intros s [] s' E. pose proof E as (y & Hy & _)%upd_table. eapply wake_upd; [done..|].
  destruct (decide (p_state y = SLEEPING)) as [Es|Es].
  - right. split; [done|]. unfold core_of, set_p_state. cbn. by rewrite bool_decide_eq_true_2.
  - left. unfold core_of, set_p_state. cbn. by rewrite bool_decide_eq_false_2.
Qed.

(** ** Giving up the CPU *)

Lemma myproc_inv (s : kernel F) p s' :
  myproc s = Ret (p, s') → p = t_cur (table_of s) ∧ table_of s' = table_of s.
Proof.
  intros E. split; [|by apply (keeps_myproc _ _ _ E)].
  unfold myproc in E. apply mbind_inv in E as (? & s1 & E1 & E).
  apply mbind_inv in E as (? & s2 & [= <- <-] & E). apply mbind_inv in E as (? & s3 & _ & [= <- _]).
  by injection (keeps_on_fs _ _ _ _ E1).
Qed.

(** The running process gets the state [st] and the mark [ex]. *)
Definition parked (st : proc_state) (ex : bool) (t t' : table) : Prop :=
  ∃ c, t_procs t !! t_cur t = Some c ∧
    t' = with_procs (<[t_cur t := set_c_exited ex (set_c_state st c)]> (t_procs t)) t.

Lemma sched_parks from (s s0 : kernel F) c st s' :
  sched from s = Ret (tt, s') → t_procs (table_of s0) !! t_cur (table_of s0) = Some c →
  table_of s = with_procs (<[t_cur (table_of s0) := set_c_state st c]> (t_procs (table_of s0)))
    (table_of s0) →
  parked st (exited (InSched true from)) (table_of s0) (table_of s').
Proof.
  unfold sched. intros E Hc Ht. exists c. split; [done|].
  apply mbind_inv in E as (p & s1 & [-> T1]%myproc_inv & E).
  apply mbind_inv in E as (x & s2 & [-> Hx]%get_proc_inv & E).
  apply mbind_inv in E as (? & s2 & T2 & E);
    apply kept_eq in T2; [|keep].
  apply mbind_inv in E as (i & s3 & T3%keeps_on_fs & E).
  apply mbind_inv in E as (? & s4 & T4 & E);
    apply kept_eq in T4; [|keep].
  apply mbind_inv in E as (d & s5 & T5 & E);
    apply kept_eq in T5; [|keep].
  apply upd_table in E as (y & Hy & E). unfold same_table in *.
  assert (T : table_of s5 = table_of s) by congruence. rewrite T in E.
  pose proof (table_lookup _ _ _ Hy) as Hcy. rewrite T, Ht in Hcy.
  rewrite Ht in E. cbn [with_procs t_procs t_cur t_list t_init t_next_pid] in *.
  rewrite lookup_insert_eq in Hcy. apply (inj Some) in Hcy.
  rewrite E, insert_insert_eq, Hcy. reflexivity.
Qed.

(** The shape of the operations that change the state and call [sched]. *)
Lemma set_state_inv (s : kernel F) p st s' c :
  upd_proc p (set_p_state st) s = Ret (tt, s') → t_procs (table_of s) !! p = Some c →
  table_of s' = with_procs (<[p := set_c_state st c]> (t_procs (table_of s))) (table_of s).
Proof.
  intros (x & Hx & E)%upd_table Hc. apply table_lookup in Hx. rewrite Hx in Hc.
  injection Hc as <-. exact E.
Qed.

Lemma upd_is_some (s : kernel F) p f s' :
  upd_proc p f s = Ret (tt, s') → ∃ c, t_procs (table_of s) !! p = Some c.
Proof. intros (x & Hx & _)%upd_table. eauto using table_lookup. Qed.

Lemma sleep_parks chan (s : kernel F) s' :
  sleep chan s = Ret (tt, s') → parked SLEEPING false (table_of s) (table_of s').
Proof.
  unfold sleep. intros E.
  apply mbind_inv in E as (p & s1 & [-> T1]%myproc_inv & E).
  apply mbind_inv in E as ([] & s2 & T2 & E).
  apply kept_eq in T2; [|keep].
  apply mbind_inv in E as ([] & s3 & E3 & E).
  destruct (upd_is_some _ _ _ _ E3) as [c Hc]. apply (set_state_inv _ _ _ _ c) in E3; [|done].
  apply mbind_inv in E as (i & s4 & T4%keeps_on_fs & E).
  rewrite T2, T1 in *. eapply (sched_parks (FromSleep i)); [done|done|]. by rewrite T4.
Qed.

Lemma yield_parks (s : kernel F) s' :
  yield s = Ret (tt, s') → parked RUNNABLE false (table_of s) (table_of s').
Proof.
  unfold yield. intros E.
  apply mbind_inv in E as (p & s1 & [-> T1]%myproc_inv & E).
  apply mbind_inv in E as ([] & s3 & E3 & E).
  destruct (upd_is_some _ _ _ _ E3) as [c Hc]. apply (set_state_inv _ _ _ _ c) in E3; [|done].
  rewrite T1 in *. by eapply (sched_parks FromYield).
Qed.

Lemma timer_parks user (s : kernel F) s' :
  timer_interrupt_handler user s = Ret (true, s') →
  parked RUNNABLE false (table_of s) (table_of s').
Proof.
  unfold timer_interrupt_handler. intros E.
  apply mbind_inv in E as ([] & s1 & [= <-] & E).
  apply mbind_inv in E as (p & s2 & [-> T2]%myproc_inv & E).
  change (table_of (set_tick_counter _ s)) with (table_of s) in T2.
  destruct (_ =? 0); [done|].
  apply mbind_inv in E as (x & s3 & [-> Hx]%get_proc_inv & E).
  destruct (bool_decide _); [|done].
  apply mbind_inv in E as ([] & s4 & T4 & E).
  apply kept_eq in T4; [|unfold account_time; apply keeps_upd_proc; by destruct user].
  apply mbind_inv in E as ([] & s5 & E5%yield_parks & [= <-]). by rewrite T4, T2 in E5.
Qed.

Lemma nanosleep_parks sec nsec (s : kernel F) s' :
  sys_nanosleep sec nsec s = Ret (None, s') → parked SLEEPING false (table_of s) (table_of s').
Proof.
  unfold sys_nanosleep. destruct (sleep_ticks sec nsec) as [n|]; [|done]. intros E.
  apply mbind_inv in E as (p & s1 & [-> T1]%myproc_inv & E).
  destruct (_ =? 0); [done|]. destruct (_ =? 0); [done|].
  apply mbind_inv in E as (t & s2 & [= <- <-] & E).
  apply mbind_inv in E as ([] & s3 & E3 & E).
  destruct (upd_is_some _ _ _ _ E3) as [c Hc]. apply (set_state_inv _ _ _ _ c) in E3; [|done].
  apply mbind_inv in E as ([] & s4 & T4 & E). apply kept_eq in T4; [|keep].
  apply mbind_inv in E as ([] & s5 & E5 & [= <-]).
  rewrite T1 in *. eapply (sched_parks FromNanosleep); [done|done|]. by rewrite T4.
Qed.

(** ** The list of processes *)

(** From [v] on, [next] leads through the processes [l] to [w] and [prev] leads back, to
    [pv] from the first. *)
Fixpoint pseg (m : gmap Z core) (pv v : Z) (l : list Z) (w : Z) : Prop :=
  match l with
  | [] => v = w
  | a :: l => v = a ∧ a ≠ 0 ∧ ∃ c, m !! a = Some c ∧ c_prev c = pv ∧ pseg m a (c_next c) l w
  end.

Lemma pseg_node m l w a : ∀ pv v, pseg m pv v l w → a ∈ l → a ≠ 0 ∧ is_Some (m !! a).
Proof.
  induction l as [|b l IH]; intros pv v; cbn; [by intros _ []%elem_of_nil|].
  intros (-> & Hb & c & Hm & _ & Hl) [->|Hin]%elem_of_cons; [eauto|by eapply IH].
Qed.

(** Processes whose list pointers agree. *)
Definition same_links (c c' : core) : Prop := c_next c' = c_next c ∧ c_prev c' = c_prev c.

Lemma pseg_ext m m' l w : ∀ pv v,
  (∀ a c, a ∈ l → m !! a = Some c → ∃ c', m' !! a = Some c' ∧ same_links c c') →
  pseg m pv v l w → pseg m' pv v l w.
Proof.
  induction l as [|b l IH]; intros pv v Hm; cbn; [done|].
  intros (-> & Hb & c & Hc & <- & Hl). destruct (Hm b c) as (c' & Hc' & En & Ep); [by left|done|].
  split_and!; [done..|]. exists c'. split_and!; [done|done|]. rewrite En.
  apply IH; [|done]. intros a d Ha. apply Hm. by right.
Qed.

Lemma pseg_eq m m' l w pv v :
  (∀ a, a ∈ l → m' !! a = m !! a) → pseg m pv v l w → pseg m' pv v l w.
Proof. intros Hm. apply pseg_ext. intros a c Ha Hc. exists c. by rewrite Hm. Qed.

Lemma pseg_app m w l1 : ∀ pv v l2,
  pseg m pv v (l1 ++ l2) w ↔ ∃ u, pseg m pv v l1 u ∧ pseg m (default pv (last l1)) u l2 w.
Proof.
  induction l1 as [|a l1 IH]; intros pv v l2; cbn [app pseg].
  { split; [eauto|]. by intros (u & -> & ?). }
  assert (El : default pv (last (a :: l1)) = default a (last l1))
    by (rewrite last_cons; by destruct (last l1)).
  rewrite El. split.
  - intros (-> & Ha & c & Hm & Hp & (u & Hu1 & Hu2)%IH). exists u. split; [|done]. eauto 10.
  - intros (u & (-> & Ha & c & Hm & Hp & Hl) & Hu2). split_and!; [done..|]. exists c.
    split_and!; [done|done|]. apply IH. eauto.
Qed.

Lemma pseg_last_next m pv v l b w w' :
  pseg m pv v (l ++ [b]) w → NoDup (l ++ [b]) →
  pseg (alter (set_c_next w') b m) pv v (l ++ [b]) w'.
Proof.
  rewrite !pseg_app. intros (u & Hl & -> & Hb & c & Hm & Hp & _) Hn. exists b.
  apply NoDup_app in Hn as (_ & Hn & _). split.
  - apply (pseg_eq m); [|done]. intros a Ha. apply lookup_alter_ne. intros ->.
    apply (Hn a Ha). by left.
  - split_and!; [done..|]. exists (set_c_next w' c). by rewrite lookup_alter_eq, Hm.
Qed.

Lemma pseg_head_prev m pv pv' v l b w :
  pseg m pv v (b :: l) w → b ∉ l → pseg (alter (set_c_prev pv') b m) pv' v (b :: l) w.
Proof.
  intros (-> & Hb & c & Hm & _ & Hl) Hn. split_and!; [done..|]. exists (set_c_prev pv' c).
  rewrite lookup_alter_eq, Hm. split_and!; [done|done|].
  apply (pseg_eq m); [|done]. intros a Ha. apply lookup_alter_ne. congruence.
Qed.

(** ** Handing children over *)

(** The processes of [D] whose parent was [p] have the parent [i]; others may be woken. *)
Definition adopted (p i : Z) (D : gset Z) (t t' : table) : Prop :=
  (∀ q, option_Forall2 (λ c c', wake_core
     (if decide (q ∈ D ∧ c_parent c = p) then set_c_parent i c else c) c')
     (t_procs t !! q) (t_procs t' !! q)) ∧
  t_list t' = t_list t ∧ t_init t' = t_init t ∧ t_next_pid t' = t_next_pid t ∧
  t_cur t' = t_cur t.

Lemma wake_core_links c c' : wake_core c c' → same_links c c'.
Proof. by intros [->|[_ ->]]. Qed.
Lemma wake_core_parent c c' : wake_core c c' → c_parent c' = c_parent c.
Proof. by intros [->|[_ ->]]. Qed.
Lemma wake_core_set_parent i c c' :
  wake_core c c' → wake_core (set_c_parent i c) (set_c_parent i c').
Proof. intros [->|[E ->]]; [by left|right]. done. Qed.

Lemma adopted_woken p i D t t1 t2 : adopted p i D t t1 → woken t1 t2 → adopted p i D t t2.
Proof.
  intros (E1 & ? & ? & ? & ?) (E2 & ? & ? & ? & ?). split; [|split_and!; congruence].
  intros q. specialize (E1 q). specialize (E2 q).
  revert E1 E2. generalize (t_procs t !! q), (t_procs t1 !! q), (t_procs t2 !! q).
  intros o o1 o2 [c c1 Hw|] E2; inversion E2; constructor. by etransitivity.
Qed.

Lemma option_Forall2_mono {A B} (R R' : A → B → Prop) o o' :
  (∀ a b, R a b → R' a b) → option_Forall2 R o o' → option_Forall2 R' o o'.
Proof. intros Hi []; constructor; auto. Qed.

(** The body of the loop at a process not yet visited. *)
Lemma adopt_step p D t (s s' : kernel F) np :
  np ∉ D → adopted p (t_init t) D t (table_of s) →
  (x ← get_proc np;
   mwhen (p_parent x =? p) (i ← gets init_proc; upd_proc np (set_p_parent i);; wakeup i)) s =
    Ret (tt, s') →
  adopted p (t_init t) ({[np]} ∪ D) t (table_of s').
Proof.
  intros Hn Ha (x & s1 & [-> Hx]%get_proc_inv & E)%mbind_inv.
  destruct Ha as (Hall & El & Ei & En & Ec).
  assert (Hnp := Hall np). rewrite (table_lookup _ _ _ Hx) in Hnp.
  inversion Hnp as [c c1 Hw Hc|]; subst c1. rewrite decide_False in Hw by tauto.
  assert (Hpar := wake_core_parent _ _ Hw). cbn in Hpar.
  assert (Hgrow : ∀ t', woken (table_of s) t' → c_parent c ≠ p →
    adopted p (t_init t) ({[np]} ∪ D) t t').
  { intros t' Hw' Hne. eapply adopted_woken; [|exact Hw']. split; [|done]. intros q.
    destruct (decide (q = np)) as [->|].
    - rewrite <- Hc, (table_lookup _ _ _ Hx). constructor. rewrite decide_False; [done|tauto].
    - eapply option_Forall2_mono; [|exact (Hall q)]. intros d d'.
      repeat case_decide; set_solver. }
  destruct (Z.eqb_spec (p_parent x) p) as [E1|E1]; cbn [mwhen] in E.
  - apply mbind_inv in E as (i & s2 & [= <- <-] & E). apply mbind_inv in E as ([] & s2 & E2 & E).
    apply wakeup_wakes in E. eapply adopted_woken; [|exact E].
    apply upd_table in E2 as (y & Hy & E2). simplify_eq. rewrite E2. split; [|done].
    intros q. cbn [t_procs with_procs]. change (init_proc s) with (t_init (table_of s)).
    rewrite Ei. destruct (decide (q = np)) as [->|].
    + rewrite <- Hc, lookup_insert_eq. constructor.
      rewrite decide_True by (split; [set_solver|congruence]).
      change (core_of (set_p_parent (t_init t) x)) with (set_c_parent (t_init t) (core_of x)).
      by apply wake_core_set_parent.
    + rewrite lookup_insert_ne by done. eapply option_Forall2_mono; [|exact (Hall q)]. intros d d'.
      repeat case_decide; set_solver.
  - injection E as <-. apply Hgrow; [|congruence]. split; [|done]. intros q. reflexivity.
Qed.

Lemma adopt_loop p t l : ∀ fuel pv v D (s s' : kernel F),
  pseg (t_procs t) pv v l 0 → NoDup l → (∀ a, a ∈ l → a ∉ D) →
  adopted p (t_init t) D t (table_of s) →
  for_procs fuel v (λ np, x ← get_proc np;
    mwhen (p_parent x =? p) (i ← gets init_proc; upd_proc np (set_p_parent i);; wakeup i)) s =
    Ret (tt, s') →
  adopted p (t_init t) (list_to_set l ∪ D) t (table_of s').
Proof.
  induction l as [|a l IH]; intros fuel pv v D s s' Hl Hn Hd Ha E.
  - cbn in Hl. subst v. destruct fuel; cbn in E; injection E as <-;
      (replace (list_to_set [] ∪ D) with D by set_solver; done).
  - destruct Hl as (-> & Ha0 & c & Hc & _ & Hl). apply NoDup_cons in Hn as [Hal Hn].
    destruct fuel as [|fuel]; cbn [for_procs] in E; rewrite (proj2 (Z.eqb_neq a 0)) in E by done;
      [done|].
    apply mbind_inv in E as ([] & s1 & E1 & E). apply adopt_step with (D := D) (t := t) in E1;
      [|apply Hd; by left|done].
    apply mbind_inv in E as (x & s2 & [-> Hx]%get_proc_inv & E).
    assert (Hnx : p_next x = c_next c).
    { destruct E1 as [E1 _]. specialize (E1 a). rewrite Hc, (table_lookup _ _ _ Hx) in E1.
      inversion E1 as [? ? Hw|]; subst. apply wake_core_links in Hw as [Hnx _]. cbn in Hnx.
      rewrite Hnx. by case_decide. }
    rewrite Hnx in E. eapply IH in E; [|done|done| |done].
    + replace (list_to_set (a :: l) ∪ D) with (list_to_set l ∪ ({[a]} ∪ D)) by set_solver. done.
    + intros b Hb. assert (a ≠ b) by (intros ->; done). specialize (Hd b). set_solver.
Qed.

Lemma reparent_adopts p l (s s' : kernel F) :
  pseg (t_procs (table_of s)) 0 (t_list (table_of s)) l 0 → NoDup l →
  reparent p s = Ret (tt, s') →
  adopted p (t_init (table_of s)) (list_to_set l) (table_of s) (table_of s').
Proof.
  intros Hl Hn E. unfold reparent, each_proc in E.
  apply mbind_inv in E as (fuel & s1 & [= <- <-] & E).
  apply mbind_inv in E as (v & s1 & [= <- <-] & E).
  replace (list_to_set l) with (list_to_set l ∪ ∅ : gset Z) by set_solver.
  eapply adopt_loop; [exact Hl|done|set_solver| |exact E].
  split; [|done]. intros q. destruct (t_procs _ !! q); constructor. rewrite decide_False; [by left|].
  set_solver.
Qed.

(** ** Exit *)

Lemma exit_changes status l (s s' : kernel F) :
  pseg (t_procs (table_of s)) 0 (t_list (table_of s)) l 0 → NoDup l →
  do_exit status s = Ret (tt, s') →
  ∃ t1 t2, adopted (t_cur (table_of s)) (t_init (table_of s)) (list_to_set l) (table_of s) t1 ∧
    woken t1 t2 ∧ parked ZOMBIE true t2 (table_of s').
Proof.
  intros Hl Hn E. unfold do_exit in E.
  apply mbind_inv in E as (p & s1 & [-> T1]%myproc_inv & E).
  apply mbind_inv in E as (x & s2 & [-> Hx]%get_proc_inv & E).
  apply mbind_inv in E as (fuel & s2 & [= <- <-] & E).
  apply mbind_inv in E as ([] & s2 & T2 & E). apply kept_eq in T2; [|keep].
  apply mbind_inv in E as (y & s3 & [-> Hy]%get_proc_inv & E).
  apply mbind_inv in E as ([] & s3 & T3 & E). apply kept_eq in T3; [|keep].
  apply mbind_inv in E as ([] & s4 & T4 & E). apply kept_eq in T4; [|keep].
  apply mbind_inv in E as ([] & s5 & T5 & E). apply kept_eq in T5; [|keep].
  assert (T : table_of s5 = table_of s) by congruence. clear T1 T2 T3 T4 T5.
  apply mbind_inv in E as ([] & s6 & E6 & E).
  apply (reparent_adopts _ l) in E6; [|by rewrite T|done]. rewrite T in E6.
  apply mbind_inv in E as (z & s7 & [-> Hz]%get_proc_inv & E).
  apply mbind_inv in E as ([] & s7 & E7%wakeup_wakes & E).
  apply mbind_inv in E as ([] & s8 & T8 & E). apply kept_eq in T8; [|keep].
  apply mbind_inv in E as ([] & s9 & E9 & E).
  destruct (upd_is_some _ _ _ _ E9) as [c Hc]. apply (set_state_inv _ _ _ _ c) in E9; [|done].
  apply mbind_inv in E as ([] & s10 & T10 & E). apply kept_eq in T10; [|keep].
  exists (table_of s6), (table_of s7). split_and!; [done|exact E7|].
  assert (Ec : t_cur (table_of s) = t_cur (table_of s7)).
  { destruct E6 as (_ & _ & _ & _ & E6), E7 as (_ & _ & _ & _ & E7'). congruence. }
  rewrite T8, Ec in *. eapply (sched_parks FromExit); [exact E|done|]. by rewrite T10.
Qed.

(** ** Freeing *)

(** The process [c] at [p] out of the list and gone. *)
Definition unlink (p : Z) (c : core) (m : gmap Z core) : gmap Z core :=
  let m := if ctrue (c_prev c) then alter (set_c_next (c_next c)) (c_prev c) m else m in
  let m := if ctrue (c_next c) then alter (set_c_prev (c_prev c)) (c_next c) m else m in
  delete p m.
Definition freed_proc (p : Z) (c : core) (t t' : table) : Prop :=
  p ≠ t_init t ∧ t_procs t !! p = Some c ∧
  t' = Table (unlink p c (t_procs t)) (if p =? t_list t then c_next c else t_list t)
         (t_init t) (t_next_pid t) (t_cur t).

Lemma unlink_pseg m v l1 p l2 c :
  pseg m 0 v (l1 ++ p :: l2) 0 → NoDup (l1 ++ p :: l2) → m !! p = Some c →
  pseg (unlink p c m) 0 (if p =? v then c_next c else v) (l1 ++ l2) 0.
Proof.
  intros (u & Hl1 & -> & Hp & c' & Hc & Hprev & Hl2)%pseg_app Hn Hc'.
  assert (c' = c) as -> by congruence.
  apply NoDup_app in Hn as (Hn1 & Hn12 & [Hp2 Hn2]%NoDup_cons).
  assert (Hp1 : p ∉ l1) by (intros Hin; apply (Hn12 p Hin); by left).
  assert (Hdel : ∀ m' v l, p ∉ l → pseg m' 0 v l 0 → pseg (delete p m') 0 v l 0).
  { intros m' v' l Hpl. apply pseg_eq. intros a Ha. apply lookup_delete_ne. congruence. }
  unfold unlink. apply Hdel; [by apply not_elem_of_app|].
  destruct l1 as [|b l1 _] using rev_ind.
  - cbn in Hl1, Hprev. subst v. rewrite Z.eqb_refl, Hprev. cbn [ctrue Z.eqb negb app].
    destruct l2 as [|n l2].
    + cbn in Hl2. by rewrite Hl2.
    + pose proof Hl2 as (E & Hn0 & _). rewrite E in *. unfold ctrue.
      rewrite (proj2 (Z.eqb_neq n 0)) by done. cbn [negb].
      apply NoDup_cons in Hn2 as [Hnl _]. by eapply pseg_head_prev.
  - assert (Eb : default 0 (last (l1 ++ [b])) = b) by (by rewrite last_snoc). rewrite Eb in Hprev.
    destruct (pseg_node _ _ _ b _ _ Hl1) as [Hb _]; [apply elem_of_app; right; by left|].
    assert (Hbp : b ≠ p) by (intros ->; apply Hp1, elem_of_app; right; by left).
    assert (Hvp : (p =? v) = false).
    { apply Z.eqb_neq. intros Epv. destruct l1 as [|d l1]; cbn in Hl1; destruct Hl1 as [Ev _].
      - congruence.
      - apply Hp1. rewrite Epv, Ev. by left. }
    rewrite Hvp, Hprev. unfold ctrue. rewrite (proj2 (Z.eqb_neq b 0)) by done. cbn [negb].
    assert (Hseg1 := pseg_last_next _ _ _ _ _ _ (c_next c) Hl1 Hn1).
    assert (Hb2 : b ∉ l2).
    { intros Hin. apply (Hn12 b); [apply elem_of_app; right; by left|by right]. }
    assert (Hseg2 : pseg (alter (set_c_next (c_next c)) b m) p (c_next c) l2 0).
    { apply (pseg_eq m); [|done]. intros a Ha. apply lookup_alter_ne. congruence. }
    destruct l2 as [|n l2].
    + cbn in Hl2. rewrite Hl2 in *. cbn [Z.eqb negb]. by rewrite app_nil_r.
    + pose proof Hl2 as (E & Hn0 & _). rewrite E in *. rewrite (proj2 (Z.eqb_neq n 0)) by done.
      cbn [negb]. apply NoDup_cons in Hn2 as [Hnl _]. apply pseg_app. exists n. split.
      * apply (pseg_eq (alter (set_c_next n) b m)); [|done]. intros a Ha.
        apply lookup_alter_ne. intros ->. apply (Hn12 a Ha). right. by left.
      * rewrite Eb. by eapply pseg_head_prev.
Qed.

Lemma new_child_pseg m v l child c :
  pseg m 0 v l 0 → NoDup l → l ≠ [] → child ∉ l → child ≠ 0 → c_next c = v → c_prev c = 0 →
  pseg (alter (set_c_prev child) v (<[child := c]> m)) 0 child (child :: l) 0.
Proof.
  intros Hl Hn Hne Hc Hc0 Enx Epv. destruct l as [|h l]; [done|].
  pose proof Hl as (-> & _). apply not_elem_of_cons in Hc as [Hch Hcl].
  apply NoDup_cons in Hn as [Hhl _]. split_and!; [done..|]. exists c.
  rewrite lookup_alter_ne, lookup_insert_eq by done. split_and!; [done..|]. rewrite Enx.
  apply (pseg_head_prev _ 0); [|done]. apply (pseg_eq m); [|done].
  intros a Ha. apply lookup_insert_ne. intros ->. by apply elem_of_cons in Ha as [?|?].
Qed.

Lemma upd_alter (s : kernel F) p f g s' :
  upd_proc p f s = Ret (tt, s') → (∀ x, core_of (f x) = g (core_of x)) →
  table_of s' = with_procs (alter g p (t_procs (table_of s))) (table_of s).
Proof.
  intros (x & Hx & E)%upd_table Hg. rewrite E. f_equal. apply map_eq. intros q.
  destruct (decide (q = p)) as [->|].
  - rewrite lookup_insert_eq, lookup_alter_eq, (table_lookup _ _ _ Hx), Hg. done.
  - by rewrite lookup_insert_ne, lookup_alter_ne.
Qed.

Lemma with_procs_id t : with_procs (t_procs t) t = t.
Proof. by destruct t. Qed.

Lemma freeproc_changes p (s s' : kernel F) :
  freeproc p s = Ret (tt, s') → ∃ c, freed_proc p c (table_of s) (table_of s').
Proof.
  unfold freeproc. intros E.
  apply mbind_inv in E as (i & s1 & [= <- <-] & E).
  apply mbind_inv in E as ([] & s1 & Ea & E).
  destruct (Z.eqb_spec p (init_proc s)) as [|Hpi]; [done|]. injection Ea as <-.
  apply mbind_inv in E as (x0 & s2 & [-> _]%get_proc_inv & E).
  apply mbind_inv in E as ([] & s2 & T2 & E). apply kept_eq in T2; [|keep].
  apply mbind_inv in E as (h & s3 & [= <- <-] & E).
  apply mbind_inv in E as ([] & s3 & E3 & E).
  apply mbind_inv in E as (x & s4 & [-> Hx]%get_proc_inv & E).
  assert (T3 : procs s3 = procs s2 ∧
    table_of s3 = Table (t_procs (table_of s2)) (if p =? t_list (table_of s2) then p_next x
      else t_list (table_of s2)) (t_init (table_of s2)) (t_next_pid (table_of s2)) (t_cur (table_of s2))).
  { cbn [t_list table_of]. destruct (p =? proc_list s2); cbn [mwhen] in E3; [|by injection E3 as <-].
    apply mbind_inv in E3 as (y & s4 & [-> Hy]%get_proc_inv & E3).
    apply mbind_inv in E3 as ([] & s4 & Eb & E3). destruct (ctrue (p_next y)); [|done].
    injection Eb as <-. injection E3 as <-. cbn in Hx. simplify_eq. done. }
  destruct T3 as [P3 T3].
  apply mbind_inv in E as ([] & s5 & E5 & E). apply mbind_inv in E as ([] & s6 & E6 & E).
  exists (core_of x). split; [exact Hpi|].
  assert (Hc : t_procs (table_of s) !! p = Some (core_of x)).
  { rewrite <- T2. apply table_lookup. by rewrite <- P3. }
  split; [done|].
  assert (T5 : table_of s5 = with_procs (if ctrue (p_prev x)
    then alter (set_c_next (p_next x)) (p_prev x) (t_procs (table_of s3))
    else t_procs (table_of s3)) (table_of s3)).
  { destruct (ctrue (p_prev x)); cbn [mwhen] in E5.
    - by eapply upd_alter in E5.
    - injection E5 as <-. by rewrite with_procs_id. }
  assert (T6 : table_of s6 = with_procs (if ctrue (p_next x)
    then alter (set_c_prev (p_prev x)) (p_next x) (t_procs (table_of s5))
    else t_procs (table_of s5)) (table_of s5)).
  { destruct (ctrue (p_next x)); cbn [mwhen] in E6.
    - by eapply upd_alter in E6.
    - injection E6 as <-. by rewrite with_procs_id. }
  unfold kfree_proc in E. apply mbind_inv in E as (? & s7 & [-> _]%get_proc_inv & E).
  apply mbind_inv in E as ([] & s8 & [= <-] & E). apply keeps_on_vm in E. unfold same_table in E.
  rewrite E. unfold table_of at 1. cbn [procs set_procs proc_list init_proc next_pid cur].
  rewrite fmap_delete. change (core_of <$> procs s6) with (t_procs (table_of s6)).
  change (proc_list s6) with (t_list (table_of s6)). change (init_proc s6) with (t_init (table_of s6)).
  change (next_pid s6) with (t_next_pid (table_of s6)). change (cur s6) with (t_cur (table_of s6)).
  rewrite T6, T5, T3, T2. reflexivity.
Qed.

(** ** Creation *)

Lemma kalloc_inv (v : vm) a v' : kalloc v = Ret (a, v') → frames v = a :: frames v'.
Proof. unfold kalloc. munfold. destruct (frames v) eqn:E; [done|]. by intros [= <- <-]. Qed.

(** The core of a process just made. *)
Definition new_core (pid : Z) : core := Core pid INIT 0 0 0 false.

Lemma insert_same (m : gmap Z core) p c : m !! p = Some c → <[p := c]> m = m.
Proof. apply insert_id. Qed.

Lemma upd_blank (s : kernel F) p f s' c m t :
  upd_proc p f s = Ret (tt, s') → table_of s = with_procs (<[p := c]> m) t →
  (∀ x, core_of x = c → core_of (f x) = c) → table_of s' = with_procs (<[p := c]> m) t.
Proof.
  intros (x & Hx & E)%upd_table Ht Hf. apply table_lookup in Hx. rewrite Ht in Hx, E. cbn in Hx, E.
  rewrite lookup_insert_eq in Hx. apply (inj Some) in Hx. rewrite E, insert_insert_eq, (Hf x) by done.
  reflexivity.
Qed.

Lemma alloc_changes (s : kernel F) p s' :
  alloc_proc s = Ret (p, s') →
  p ≠ 0 ∧ p ∈ frames (kvm s) ∧
  table_of s' = Table (<[p := new_core (next_pid s)]> (t_procs (table_of s))) (proc_list s)
    (init_proc s) (i32 (next_pid s + 1)) (cur s).
Proof.
  unfold alloc_proc. intros E. apply mbind_inv in E as (q & s1 & En & E).
  unfold new_proc in En.
  apply mbind_inv in En as (q' & s2 & Ek & En).
  unfold on_vm, zoom in Ek. cbn [lget] in Ek. destruct (kalloc (kvm s)) as [[a v]| | |] eqn:Hk; [|done..].
  injection Ek as <- <-. apply kalloc_inv in Hk. cbn [lset] in En.
  destruct (Z.eqb_spec a 0) as [|Ha0]; [by apply mbind_inv in En as (? & ? & ? & _)|].
  apply mbind_inv in En as ([] & s3 & [= <-] & En).
  apply mbind_inv in En as (pid & s4 & Ep & En). unfold alloc_pid in Ep.
  apply mbind_inv in Ep as (n & s5 & [= <- <-] & Ep). apply mbind_inv in Ep as ([] & s6 & [= <-] & [= <- <-]).
  apply mbind_inv in En as ([] & s7 & Eu & [= <- <-]).
  set (t0 := Table (t_procs (table_of s)) (proc_list s) (init_proc s) (i32 (next_pid s + 1)) (cur s)).
  assert (T : table_of s7 = with_procs (<[a := new_core (next_pid s)]> (t_procs (table_of s))) t0).
  { apply upd_table in Eu as (x & Hx & ->). cbn in Hx. rewrite lookup_insert_eq in Hx.
    injection Hx as <-. unfold table_of, with_procs. cbn. rewrite fmap_insert, insert_insert_eq. done. }
  assert (Hgoal : ∀ s'' : kernel F, table_of s'' = with_procs (<[a := new_core (next_pid s)]> (t_procs (table_of s))) t0 →
    a ≠ 0 ∧ a ∈ frames (kvm s) ∧ table_of s'' = Table (<[a := new_core (next_pid s)]>
      (t_procs (table_of s))) (proc_list s) (init_proc s) (i32 (next_pid s + 1)) (cur s)).
  { intros s'' ->. split_and!; [done| |done]. rewrite Hk. by left. }
  clear Eu Hk Ha0. apply mbind_inv in E as (x & s8 & [-> Hx]%get_proc_inv & E).
  do 2 (apply mbind_inv in E as ([] & ? & T8 & E); apply kept_eq in T8; [|keep];
        rewrite T in T8; clear T; rename T8 into T).
  apply mbind_inv in E as ([] & s9 & E9 & E).
  eapply upd_blank in E9; [|exact T|intros y Hy; unfold core_of, new_core in *; cbn; by inversion Hy].
  clear T; rename E9 into T.
  apply mbind_inv in E as (tf & s10 & T8 & E); apply kept_eq in T8; [|keep];
    rewrite T in T8; clear T; rename T8 into T.
  do 2 (apply mbind_inv in E as ([] & ? & T8 & E); apply kept_eq in T8; [|keep];
    rewrite T in T8; clear T; rename T8 into T).
  do 2 (apply mbind_inv in E as ([] & ? & E9 & E);
    eapply upd_blank in E9; [|exact T|intros y Hy; unfold core_of, new_core in *; cbn; by inversion Hy];
    clear T; rename E9 into T).
  apply mbind_inv in E as ([] & s12 & T8 & E); apply kept_eq in T8; [|keep];
    rewrite T in T8; clear T; rename T8 into T.
  apply mbind_inv in E as (cw & s13 & T8 & E); apply kept_eq in T8; [|keep];
    rewrite T in T8; clear T; rename T8 into T.
  apply mbind_inv in E as ([] & s14 & T8 & E); apply kept_eq in T8; [|keep];
    rewrite T in T8; clear T; rename T8 into T.
  apply mbind_inv in E as (fd & s15 & T8 & E); apply kept_eq in T8; [|keep];
    rewrite T in T8; clear T; rename T8 into T.
  do 3 (apply mbind_inv in E as ([] & ? & T8 & E); apply kept_eq in T8; [|keep];
    rewrite T in T8; clear T; rename T8 into T).
  injection E as <- <-. by apply Hgoal.
Qed.

Lemma myproc_kvm (s : kernel F) p s' : myproc s = Ret (p, s') → kvm s' = kvm s.
Proof.
  unfold myproc. intros E. apply mbind_inv in E as (? & s1 & E1 & E).
  apply mbind_inv in E as (? & s2 & [= <- <-] & E). apply mbind_inv in E as (? & s3 & E2 & [= _ <-]).
  unfold on_fs, zoom in E1, E2.
  repeat (case_match; try done). injection E1 as <- <-. by injection E2 as <- <-.
Qed.

(** A process number [t_next_pid t] at [child], runnable, at the head of the list. *)
Definition child_core (t : table) : core :=
  Core (t_next_pid t) RUNNABLE (t_cur t) (t_list t) 0 false.
Definition new_child (child : Z) (t t' : table) : Prop :=
  child ≠ 0 ∧ is_Some (<[child := child_core t]> (t_procs t) !! t_list t) ∧
  t' = Table (alter (set_c_prev child) (t_list t) (<[child := child_core t]> (t_procs t)))
         child (t_init t) (i32 (t_next_pid t + 1)) (t_cur t).

Lemma start_changes (s : kernel F) parent child pid m t r s' :
  start_child parent child s = Ret (r, s') →
  table_of s = with_procs (<[child := new_core pid]> m) t →
  let c := Core pid RUNNABLE parent (t_list t) 0 false in
  is_Some (<[child := c]> m !! t_list t) ∧
  table_of s' = Table (alter (set_c_prev child) (t_list t) (<[child := c]> m)) child
    (t_init t) (t_next_pid t) (t_cur t).
Proof.
  intros E T c. unfold start_child, link_child in E.
  apply mbind_inv in E as ([] & s1 & E1 & E).
  apply (upd_alter _ _ _ (λ c, set_c_state RUNNABLE (set_c_parent parent c))) in E1; [|done].
  rewrite T in E1. cbn [t_procs with_procs] in E1. rewrite alter_insert_eq in E1.
  apply mbind_inv in E as ([] & s2 & E2 & E).
  apply mbind_inv in E2 as (h & s3 & [= <- <-] & E2).
  apply mbind_inv in E2 as ([] & s4 & E4 & E2). apply mbind_inv in E2 as ([] & s5 & E5 & [= <-]).
  apply mbind_inv in E as (x & s6 & [-> Hx]%get_proc_inv & [= <- <-]).
  apply (upd_alter _ _ _ (set_c_next (proc_list s1))) in E4; [|done].
  assert (Hh : proc_list s1 = t_list t) by (by injection E1).
  rewrite E1, Hh in E4. cbn [t_procs with_procs] in E4. rewrite alter_insert_eq in E4.
  destruct (upd_is_some _ _ _ _ E5) as [hc Hhc].
  apply (upd_alter _ _ _ (set_c_prev child)) in E5; [|done].
  rewrite Hh in Hhc, E5. rewrite E4 in Hhc, E5. cbn [t_procs with_procs] in Hhc, E5. split; [by exists hc|].
  change (Table (t_procs (table_of s5)) child (t_init (table_of s5)) (t_next_pid (table_of s5))
    (t_cur (table_of s5)) = Table (alter (set_c_prev child) (t_list t) (<[child := c]> m)) child
    (t_init t) (t_next_pid t) (t_cur t)).
  by rewrite E5.
Qed.

Lemma fork_changes (s : kernel F) r s' :
  sys_fork s = Ret (r, s') →
  ∃ child, child ∈ frames (kvm s) ∧ new_child child (table_of s) (table_of s').
Proof.
  unfold sys_fork. intros E. apply mbind_inv in E as (p & s1 & Em & E).
  pose proof (myproc_kvm _ _ _ Em) as Hk. apply myproc_inv in Em as [-> T1].
  apply mbind_inv in E as (c & s2 & E2 & E). apply alloc_changes in E2 as (Hc0 & Hcf & T2).
  apply mbind_inv in E as ([] & s3 & T3 & E). apply kept_eq in T3; [|keep].
  apply mbind_inv in E as ([] & s4 & T4 & E). apply kept_eq in T4; [|keep].
  exists c. split; [by rewrite <- Hk|].
  eapply (start_changes _ _ _ (next_pid s1) (t_procs (table_of s1))
    (Table (t_procs (table_of s1)) (proc_list s1) (init_proc s1) (i32 (next_pid s1 + 1)) (cur s1)))
    in E as [Hh E]; [|by rewrite T4, T3, T2].
  cbn [t_list t_init t_next_pid t_cur] in Hh, E.
  change (proc_list s1) with (t_list (table_of s1)) in *.
  change (init_proc s1) with (t_init (table_of s1)) in *.
  change (next_pid s1) with (t_next_pid (table_of s1)) in *.
  change (cur s1) with (t_cur (table_of s1)) in *. rewrite T1 in *. by split_and!.
Qed.

Lemma clone_changes flags stack ptid tls ctid (s : kernel F) r s' :
  sys_clone flags stack ptid tls ctid s = Ret (Done r, s') →
  ∃ child, child ∈ frames (kvm s) ∧ new_child child (table_of s) (table_of s').
Proof.
  unfold sys_clone. intros E. apply mbind_inv in E as (p & s1 & Em & E).
  pose proof (myproc_kvm _ _ _ Em) as Hk. apply myproc_inv in Em as [-> T1].
  apply mbind_inv in E as (c & s2 & E2 & E). apply alloc_changes in E2 as (Hc0 & Hcf & T2).
  apply mbind_inv in E as ([] & s3 & T3 & E). apply kept_eq in T3; [|keep].
  apply mbind_inv in E as (ok & s4 & T4 & E). apply kept_eq in T4; [|keep].
  destruct ok; cbn [negb] in E; [|done]. apply mbind_inv in E as (pid & s5 & E & [= _ <-]).
  exists c. split; [by rewrite <- Hk|].
  eapply (start_changes _ _ _ (next_pid s1) (t_procs (table_of s1))
    (Table (t_procs (table_of s1)) (proc_list s1) (init_proc s1) (i32 (next_pid s1 + 1)) (cur s1)))
    in E as [Hh E]; [|by rewrite T4, T3, T2].
  cbn [t_list t_init t_next_pid t_cur] in Hh, E.
  change (proc_list s1) with (t_list (table_of s1)) in *.
  change (init_proc s1) with (t_init (table_of s1)) in *.
  change (next_pid s1) with (t_next_pid (table_of s1)) in *.
  change (cur s1) with (t_cur (table_of s1)) in *. rewrite T1 in *. by split_and!.
Qed.

(** ** Waiting *)

(** A zombie child of the running process is freed, or nothing happens to the table. *)
Definition reaped (t t' : table) : Prop :=
  t' = t ∨ ∃ p c, c_state c = ZOMBIE ∧ c_parent c = t_cur t ∧ freed_proc p c t t'.

Lemma reap_changes p status (s : kernel F) x r s' :
  reap p status s = Ret (Done r, s') → procs s !! p = Some x →
  p_state x = ZOMBIE → p_parent x = t_cur (table_of s) → reaped (table_of s) (table_of s').
Proof.
  unfold reap. intros E Hx Hz Hpar. apply mbind_inv in E as (y & s1 & [-> Hy]%get_proc_inv & E).
  apply mbind_inv in E as (out & s2 & T2 & E). apply kept_eq in T2; [|keep].
  destruct out as [o|]; [|done]. destruct (o <? 0); [injection E as _ <-; by left|].
  apply mbind_inv in E as ([] & s3 & T3 & E). apply kept_eq in T3; [|keep].
  apply mbind_inv in E as ([] & s4 & [c Hf]%freeproc_changes & [= _ <-]).
  rewrite T3, T2 in Hf. right. exists p, c. pose proof Hf as (_ & Hc & _).
  rewrite (table_lookup _ _ _ Hx) in Hc. injection Hc as <-. done.
Qed.

Lemma wait_loop_changes status fuel : ∀ p has (s : kernel F) r s',
  wait_loop fuel p (t_cur (table_of s)) status has s = Ret (r, s') →
  match r with
  | inl (Done _) => reaped (table_of s) (table_of s')
  | inl _ => True
  | inr _ => table_of s' = table_of s
  end.
Proof.
  induction fuel as [|fuel IH]; intros p has s r s'; cbn [wait_loop]; destruct (p =? 0); intros E;
    try (by injection E as <- <-); [done|].
  apply mbind_inv in E as (x & s1 & [-> Hx]%get_proc_inv & E).
  destruct (Z.eqb_spec (p_parent x) (t_cur (table_of s))) as [Hp|Hp]; cbn [andb] in E;
    [|by eapply IH].
  destruct (p_waited x); cbn [negb] in E; [by eapply IH|].
  destruct (bool_decide (p_state x = ZOMBIE)) eqn:Hz; [|by eapply IH].
  apply bool_decide_eq_true in Hz. apply mbind_inv in E as (q & s2 & E & [= <- <-]).
  destruct q; [|done..]. by eapply reap_changes.
Qed.

Lemma wait4_changes pid status options (s : kernel F) r s' :
  sys_wait4 pid status options s = Ret (Done r, s') → reaped (table_of s) (table_of s').
Proof.
  unfold sys_wait4. intros E. apply mbind_inv in E as (p & s1 & [-> T1]%myproc_inv & E).
  apply mbind_inv in E as (fuel & s2 & [= <- <-] & E).
  apply mbind_inv in E as (h & s2 & [= <- <-] & E).
  apply mbind_inv in E as (q & s3 & E3 & E). rewrite <- T1 in E3. apply wait_loop_changes in E3.
  rewrite T1 in E3. destruct q as [q|has]; [by injection E as -> <-|].
  apply mbind_inv in E as (x & s4 & [-> Hx]%get_proc_inv & E).
  destruct (_ || _); [injection E as _ <-; by left|]. destruct (flag _ _); [|done].
  injection E as _ <-. by left.
Qed.
End changes.
