(* ===== verification/Sched.v ===== *)
(** * The scheduler and the system of processes

    [scheduler_turn] is one turn of the loop of [scheduler] ([kernel/proc/sched.c]) up to the
    [swtch] to a process, [sched_return] what follows when a process has called [sched].
    The relation [step] interleaves the scheduler, the wakeups of interrupt handlers that
    find the scheduler running, and everything the running process can do to the process
    table; anything else a process or a handler does (files, memory, devices, the tick
    counter) is the step that leaves the process table alone.

    The places where one process can take the CPU from another are those between two steps.
    A call that changes the table, and a turn of the scheduler, is one step: the theorems
    hold as long as no interrupt yields or wakes in the middle of one.  The code does not
    prevent that ([syscall_handler] enables interrupts, and the timer yields in the kernel),
    and [preempted_forks_lose_a_process] runs the code through such an interruption. *)

From S2P Require Export ProcTable.

Section sched.
Context {F : Type} `{SysEnv F} `{VmEnv} `{ProcEnv}.

(** ** The loop of [scheduler] *)

(** Before the loop: nobody runs, interrupts go on, and the list is walked from its head. *)
Definition scheduler_start : M (kernel F) Z :=
  modify (set_cur 0);; on_fs (intr_set true);; gets proc_list.

(** At the process [p] of the list: the process it switched to, or the next of the list. *)
Definition scheduler_turn (p : Z) : M (kernel F) (Z + Z) :=
  x ← get_proc p;
  tick ← gets tick_counter;
  mwhen (bool_decide (p_state x = SLEEPING) && negb (p_sleeping_due x =? -1) &&
         (u64 (p_sleeping_due x) <=? tick))
    (upd_proc p (set_p_sleeping_due (-1));; upd_proc p (set_p_state RUNNABLE));;
  x ← get_proc p;
  if bool_decide (p_state x = RUNNABLE) then
    upd_proc p (set_p_state RUNNING);;
    modify (set_cur p);;
    resume p;;
    mret (inl p)
  else mret (inr (p_next x)).

(** Back from the process [p]: the next of the list. *)
Definition sched_return (p : Z) : M (kernel F) Z :=
  modify (set_cur 0);;
  x ← get_proc p;
  mret (p_next x).

(** At the end of the list: whether all processes sleep. *)
Fixpoint all_sleeping (fuel : nat) (p : Z) : M (kernel F) bool :=
  if p =? 0 then mret true
  else
    match fuel with
    | O => mspin
    | S fuel =>
        x ← get_proc p;
        if bool_decide (p_state x = SLEEPING) then all_sleeping fuel (p_next x) else mret false
    end.

(** The end of a round: interrupts go on when all sleep; then the list from its head. *)
Definition scheduler_round : M (kernel F) Z :=
  fuel ← gets proc_fuel;
  h ← gets proc_list;
  all ← all_sleeping fuel h;
  mwhen all (on_fs (intr_set true));;
  gets proc_list.

(** The [for (;;)] loop from the process [p] on ([0] at the end of the list), up to the next
    [swtch]: the process that runs then. *)
Fixpoint scheduler (fuel : nat) (p : Z) : M (kernel F) Z :=
  match fuel with
  | O => mspin
  | S fuel =>
      if p =? 0 then h ← scheduler_round; scheduler fuel h
      else
        r ← scheduler_turn p;
        match r with
        | inl q => mret q
        | inr q => scheduler fuel q
        end
  end.

(** ** The system *)

(** The scheduler is about to look at a process ([AtSched 0] at the end of the list), or the
    process it switched to runs. *)
Inductive loc := AtSched (p : Z) | Running (p : Z).

(** The allocator's next addresses are not those of live processes, and the counter of
    process numbers has not wrapped. *)
Definition fresh_procs (s : kernel F) : Prop :=
  (∀ a, a ∈ frames (kvm s) → procs s !! a = None) ∧ NoDup (frames (kvm s)) ∧
  next_pid s < 2 ^ 31 - 1.

(** A call of the running process that ends without giving up the CPU. *)
Inductive call (s : kernel F) : kernel F → Prop :=
  | call_wakeup chan s' : wakeup chan s = Ret (tt, s') → call s s'
  | call_kill pid r s' : kill pid s = Ret (r, s') → call s s'
  | call_fork r s' : fresh_procs s → sys_fork s = Ret (r, s') → call s s'
  | call_clone flags stack ptid tls ctid r s' :
      fresh_procs s → sys_clone flags stack ptid tls ctid s = Ret (Done r, s') → call s s'
  | call_wait4 pid status options r s' :
      sys_wait4 pid status options s = Ret (Done r, s') → call s s'.

(** A call that ends in [sched]. *)
Inductive block (s : kernel F) : kernel F → Prop :=
  | block_sleep chan s' : sleep chan s = Ret (tt, s') → block s s'
  | block_yield s' : yield s = Ret (tt, s') → block s s'
  | block_timer user s' : timer_interrupt_handler user s = Ret (true, s') → block s s'
  | block_nanosleep sec nsec s' : sys_nanosleep sec nsec s = Ret (None, s') → block s s'
  | block_exit status s' : do_exit status s = Ret (tt, s') → block s s'.

Inductive step : kernel F * loc → kernel F * loc → Prop :=
  | step_other s l s' : same_table s s' → step (s, l) (s', l)
  | step_pick p s q s' :
      p ≠ 0 → scheduler_turn p s = Ret (inl q, s') → step (s, AtSched p) (s', Running q)
  | step_skip p s q s' :
      p ≠ 0 → scheduler_turn p s = Ret (inr q, s') → step (s, AtSched p) (s', AtSched q)
  | step_round s q s' :
      scheduler_round s = Ret (q, s') → step (s, AtSched 0) (s', AtSched q)
  | step_irq p chan s s' :
      wakeup chan s = Ret (tt, s') → step (s, AtSched p) (s', AtSched p)
  | step_call p s s' : call s s' → step (s, Running p) (s', Running p)
  | step_block p s s1 q s2 :
      block s s1 → sched_return p s1 = Ret (q, s2) → step (s, Running p) (s2, AtSched q).

(** ** Preemption inside a call

    [call] is a whole call: between two of its accesses to the process table no other process
    runs.  The code does not see to that: [syscall_handler] enables interrupts and the timer
    yields in the kernel too.  [fork_first] is [fork] up to and with the assignment
    [child->next = proc_list]; [link_rest] is what is left of [link_child]. *)

Definition link_next (child : Z) : M (kernel F) unit :=
  h ← gets proc_list; upd_proc child (set_p_next h).
Definition link_rest (child : Z) : M (kernel F) unit :=
  h ← gets proc_list; upd_proc h (set_p_prev child);; modify (set_proc_list child).
Definition fork_first : M (kernel F) Z :=
  parent ← myproc;
  child ← alloc_proc;
  massert (ctrue child);;
  fork_copy parent child;;
  upd_proc child (λ c, set_p_state RUNNABLE (set_p_parent parent c));;
  link_next child;;
  mret child.

(** The timer interrupt: the running process yields, and the scheduler finds another one. *)
Definition preempt : M (kernel F) Z :=
  p ← myproc;
  on_fs (intr_set false);;
  timer_interrupt_handler false;;
  q ← sched_return p;
  fuel ← gets (λ s, 2 * base.size (procs s) + 1)%nat;
  scheduler fuel q.

(** The processes a walk over the list finds. *)
Fixpoint listed (fuel : nat) (s : kernel F) (p : Z) : list Z :=
  match fuel, procs s !! p with
  | S fuel, Some x => p :: listed fuel s (p_next x)
  | _, _ => []
  end.

(** ** The invariant *)

(** Nobody, or a process that is no zombie unless it is the first one. *)
Definition parent_ok (t : table) (q : Z) : Prop :=
  q = 0 ∨ ∃ d, t_procs t !! q = Some d ∧ (c_state d = ZOMBIE → q = t_init t).

Record wf (t : table) : Prop := {
  wf_list : ∃ l, pseg (t_procs t) 0 (t_list t) l 0 ∧ NoDup l ∧
    ∀ p, p ∈ l ↔ is_Some (t_procs t !! p);
  wf_init : is_Some (t_procs t !! t_init t);
  wf_parent : ∀ p c, t_procs t !! p = Some c → parent_ok t (c_parent c);
  wf_pid : ∀ p c, t_procs t !! p = Some c → 0 < c_pid c < t_next_pid t;
  wf_pid_inj : ∀ p q c d, t_procs t !! p = Some c → t_procs t !! q = Some d →
    c_pid c = c_pid d → p = q;
  wf_exited : ∀ p c, t_procs t !! p = Some c → c_exited c = true → c_state c = ZOMBIE
}.

(** Nobody runs but, if it is given, the process [o]. *)
Definition runs (t : table) (o : option Z) : Prop :=
  (∀ p c, t_procs t !! p = Some c → c_state c = RUNNING ↔ o = Some p) ∧
  match o with Some p => is_Some (t_procs t !! p) | None => True end.

Definition loc_ok (t : table) (l : loc) : Prop :=
  match l with
  | AtSched p => runs t None ∧ t_cur t = 0 ∧ (p = 0 ∨ is_Some (t_procs t !! p))
  | Running p => runs t (Some p) ∧ t_cur t = p
  end.

Definition inv (x : kernel F * loc) : Prop := wf (table_of x.1) ∧ loc_ok (table_of x.1) x.2.

(** A change of the processes one by one that keeps numbers and list pointers. *)
Definition pointwise (R : Z → core → core → Prop) (t t' : table) : Prop :=
  (∀ p, option_Forall2 (R p) (t_procs t !! p) (t_procs t' !! p)) ∧
  t_list t' = t_list t ∧ t_init t' = t_init t ∧ t_next_pid t' = t_next_pid t.

Section pointwise.
Context (R : Z → core → core → Prop) (t t' : table).
Hypothesis Hpt : pointwise R t t'.
Hypothesis Hlinks : ∀ p c c', R p c c' → same_links c c' ∧ c_pid c' = c_pid c.

Lemma pw_back p c' : t_procs t' !! p = Some c' → ∃ c, t_procs t !! p = Some c ∧ R p c c'.
Proof. intros E. destruct Hpt as [Hp _]. specialize (Hp p). rewrite E in Hp. inversion Hp. eauto. Qed.
Lemma pw_forth p c : t_procs t !! p = Some c → ∃ c', t_procs t' !! p = Some c' ∧ R p c c'.
Proof. intros E. destruct Hpt as [Hp _]. specialize (Hp p). rewrite E in Hp. inversion Hp. eauto. Qed.

Lemma pw_wf :
  wf t →
  (∀ p c c', t_procs t !! p = Some c → R p c c' → parent_ok t' (c_parent c')) →
  (∀ p c c', R p c c' → (c_exited c = true → c_state c = ZOMBIE) →
     c_exited c' = true → c_state c' = ZOMBIE) →
  wf t'.
Proof.
  intros [(l & Hl & Hn & Hd) [ci Hi] _ Hpid Hinj Hex] Hpar Hexit.
  pose proof Hpt as (_ & E1 & E2 & E3). split.
  - exists l. rewrite E1. split_and!; [|done|].
    + eapply pseg_ext; [|exact Hl]. intros a c _ Hc. destruct (pw_forth _ _ Hc) as (c' & Hc' & HR).
      exists c'. split; [done|]. by apply Hlinks in HR as [? _].
    + intros p. rewrite Hd. split; intros [c Hc].
      * destruct (pw_forth _ _ Hc) as (? & ? & _). eauto.
      * destruct (pw_back _ _ Hc) as (? & ? & _). eauto.
  - rewrite E2. destruct (pw_forth _ _ Hi) as (c' & Hc' & HR). eauto.
  - intros p c' (c & Hc & HR)%pw_back. eauto.
  - intros p c' (c & Hc & HR)%pw_back. apply Hlinks in HR as [_ ->]. rewrite E3. eauto.
  - intros p q c' d' (c & Hc & HRc)%pw_back (d & Hd' & HRd)%pw_back.
    apply Hlinks in HRc as [_ ->]. apply Hlinks in HRd as [_ ->]. eauto.
  - intros p c' (c & Hc & HR)%pw_back. eauto.
Qed.
End pointwise.

(** A parent that is there stays one when no process becomes a zombie but perhaps the first. *)
Lemma parent_ok_mono t t' q :
  t_init t' = t_init t →
  (∀ d, t_procs t !! q = Some d → ∃ d', t_procs t' !! q = Some d' ∧
     (c_state d' = ZOMBIE → c_state d = ZOMBIE ∨ q = t_init t)) →
  parent_ok t q → parent_ok t' q.
Proof.
  intros E Hd [?|(d & Hq & Hz)]; [by left|right]. destruct (Hd d Hq) as (d' & Hq' & Hz').
  exists d'. split; [done|]. rewrite E. intros [?|?]%Hz'; auto.
Qed.

Lemma wake_links c c' : wake_core c c' → same_links c c' ∧ c_pid c' = c_pid c.
Proof. by intros [->|[_ ->]]. Qed.
Lemma wake_zombie c c' : wake_core c c' → c_state c' = ZOMBIE ↔ c_state c = ZOMBIE.
Proof. intros [->|[E ->]]; [done|]. rewrite E. done. Qed.
Lemma wake_running c c' : wake_core c c' → c_state c' = RUNNING ↔ c_state c = RUNNING.
Proof. intros [->|[E ->]]; [done|]. rewrite E. done. Qed.

Lemma woken_wf t t' : wf t → woken t t' → wf t'.
Proof.
  intros Hwf (Hw & E1 & E2 & E3 & E4).
  assert (Hpt : pointwise (λ _, wake_core) t t') by done.
  apply (pw_wf _ _ _ Hpt); [intros ???; apply wake_links|done|..].
  - intros p c c' Hp Hc. rewrite (wake_core_parent _ _ Hc).
    apply (parent_ok_mono t); [done| |by eapply wf_parent]. intros d Hd.
    destruct (pw_forth _ _ _ Hpt _ _ Hd) as (d' & Hd' & Hdd). exists d'. split; [done|].
    rewrite (wake_zombie _ _ Hdd). by left.
  - intros p c c' [->|[E ->]] Hex; [done|]. cbn. intros Hx. specialize (Hex Hx). congruence.
Qed.

Lemma woken_runs t t' o : runs t o → woken t t' → runs t' o.
Proof.
  intros [Hr Ho] (Hw & _). split.
  - intros p c' Hc'. specialize (Hw p). rewrite Hc' in Hw. inversion Hw as [c ? Hc E|]; subst.
    rewrite (wake_running _ _ Hc). by apply Hr.
  - destruct o as [p|]; [|done]. destruct Ho as [c Hc]. specialize (Hw p). rewrite Hc in Hw.
    inversion Hw. eauto.
Qed.

(** Giving up the CPU; a process that exits has no children, or it is the first one. *)
Lemma parked_inv st ex t t' p :
  wf t → runs t (Some p) → t_cur t = p → st ≠ RUNNING → (ex = true → st = ZOMBIE) →
  (st = ZOMBIE → p ≠ t_init t → ∀ q c, t_procs t !! q = Some c → c_parent c ≠ p) →
  parked st ex t t' →
  wf t' ∧ runs t' None ∧ t_cur t' = p ∧ is_Some (t_procs t' !! p).
Proof.
  intros Hwf [Hr Hp] Hcur Hst Hex Hz (c & Hc & ->). rewrite Hcur in *.
  set (c1 := set_c_exited ex (set_c_state st c)).
  assert (Hlk : ∀ q, t_procs (with_procs (<[p := c1]> (t_procs t)) t) !! q =
    if decide (q = p) then Some c1 else t_procs t !! q).
  { intros q. cbn. case_decide; subst; [by rewrite lookup_insert_eq|by rewrite lookup_insert_ne]. }
  assert (Hpt : pointwise (λ q a b, (q = p → a = c) ∧ b = if decide (q = p) then c1 else a) t
    (with_procs (<[p := c1]> (t_procs t)) t)).
  { split; [|done]. intros q. rewrite Hlk. case_decide; subst.
    - rewrite Hc. constructor. done.
    - destruct (t_procs t !! q); constructor. done. }
  split_and!.
  - apply (pw_wf _ _ _ Hpt); [|done|..].
    + intros q a b [Ha ->]. case_decide; subst; [|done]. by rewrite (Ha eq_refl).
    + intros q a b Hq [Ha ->].
      assert (E : c_parent (if decide (q = p) then c1 else a) = c_parent a)
        by (case_decide; [by rewrite Ha by done|done]).
      rewrite E. apply (parent_ok_mono t); [done| |by eapply wf_parent]. intros d Hd.
      rewrite Hlk. destruct (decide (c_parent a = p)) as [Ep|]; [|by eauto].
      exists c1. split; [done|]. intros Hs. right. destruct (decide (p = t_init t)) as [?|Hne]; [congruence|].
      by destruct (Hz Hs Hne q a Hq).
    + intros q a b [Ha ->]. by case_decide.
  - split; [|done]. intros q d. rewrite Hlk. case_decide; subst.
    + intros [= <-]. cbn. split; [done|]. intros ?. done.
    + intros Hq. rewrite (Hr q d Hq). split; congruence.
  - done.
  - rewrite Hlk. rewrite decide_True; eauto.
Qed.

(** Children handed to the first process. *)
Lemma adopted_inv p l t t' :
  wf t → (∀ q, is_Some (t_procs t !! q) → q ∈ l) →
  adopted p (t_init t) (list_to_set l) t t' →
  wf t' ∧ (∀ o, runs t o → runs t' o) ∧
  (p ≠ t_init t → ∀ q c, t_procs t' !! q = Some c → c_parent c ≠ p).
Proof.
  intros Hwf Hall (Hp & E1 & E2 & E3 & E4).
  set (R := λ q c c', wake_core
     (if decide (q ∈ (list_to_set l : gset Z) ∧ c_parent c = p) then set_c_parent (t_init t) c else c) c').
  assert (Hpt : pointwise R t t') by done.
  assert (HRs : ∀ q c c', R q c c' → (same_links c c' ∧ c_pid c' = c_pid c) ∧
    (c_state c' = ZOMBIE ↔ c_state c = ZOMBIE) ∧ (c_state c' = RUNNING ↔ c_state c = RUNNING) ∧
    c_exited c' = c_exited c).
  { intros q c c' HR. subst R. cbn in HR.
    pose proof (wake_links _ _ HR). pose proof (wake_zombie _ _ HR). pose proof (wake_running _ _ HR).
    assert (c_exited c' = c_exited c) by (destruct HR as [->|[_ ->]]; by case_decide).
    by case_decide. }
  assert (Hpar : ∀ q c c', t_procs t !! q = Some c → R q c c' →
    c_parent c' = if decide (c_parent c = p) then t_init t else c_parent c).
  { intros q c c' Hc HR. rewrite (wake_core_parent _ _ HR).
    assert (Hin : q ∈ (list_to_set l : gset Z)) by (apply elem_of_list_to_set, Hall; eauto).
    destruct (decide (c_parent c = p)).
    - by rewrite decide_True.
    - rewrite decide_False; [done|tauto]. }
  split_and!.
  - apply (pw_wf _ _ _ Hpt); [| done |..].
    + intros q c c' HR. apply (HRs _ _ _ HR).
    + intros q c c' Hc HR. rewrite (Hpar _ _ _ Hc HR).
      apply (parent_ok_mono t).
      * done.
      * intros d Hd. destruct (pw_forth _ _ _ Hpt _ _ Hd) as (d' & Hd' & HRd). exists d'.
        split; [done|]. rewrite (proj1 (proj2 (HRs _ _ _ HRd))). by left.
      * case_decide; [|by eapply wf_parent]. right. destruct (wf_init _ Hwf) as [d Hd]. eauto.
    + intros q c c' HR Hex. destruct (HRs _ _ _ HR) as (_ & Hz & _ & ->). by rewrite Hz.
  - intros o [Hr Ho]. split.
    + intros q c' Hc'. destruct (pw_back _ _ _ Hpt _ _ Hc') as (c & Hc & HR).
      destruct (HRs _ _ _ HR) as (_ & _ & -> & _). by apply Hr.
    + destruct o as [q|]; [|done]. destruct Ho as [c Hc].
      destruct (pw_forth _ _ _ Hpt _ _ Hc) as (c' & ? & _). eauto.
  - intros Hpi q c' Hc'. destruct (pw_back _ _ _ Hpt _ _ Hc') as (c & Hc & HR).
    rewrite (Hpar _ _ _ Hc HR). case_decide; congruence.
Qed.

(** A new process, from an address that is not in use. *)
Lemma new_child_inv child t t' p :
  wf t → runs t (Some p) → t_cur t = p → t_procs t !! child = None →
  t_next_pid t < 2 ^ 31 - 1 → 0 < t_next_pid t → new_child child t t' →
  wf t' ∧ runs t' (Some p) ∧ t_cur t' = p.
Proof.
  intros [(l & Hl & Hn & Hd) [ci Hi] Hpar Hpid Hinj Hex] [Hr [cp Hcp]] Hcur Hnew Hmax Hpos
    (Hc0 & [hc Hh] & ->).
  assert (Hlne : l ≠ []) by (intros ->; apply (not_elem_of_nil (t_init t)), Hd; eauto).
  assert (Hcl : child ∉ l) by (rewrite Hd, Hnew; intros []; done).
  set (cc := child_core t) in *. set (h := t_list t) in *.
  assert (Hhl : h ∈ l) by (destruct l as [|a l]; [done|]; destruct Hl as [-> _]; by left).
  assert (Hhc : h ≠ child) by (intros ->; done).
  set (m := alter _ _ _).
  assert (Hm : ∀ q, m !! q = if decide (q = child) then Some cc
    else if decide (q = h) then set_c_prev child <$> t_procs t !! q else t_procs t !! q).
  { intros q. subst m. destruct (decide (q = h)) as [->|].
    - rewrite decide_False by done. by rewrite lookup_alter_eq, lookup_insert_ne.
    - rewrite lookup_alter_ne by done. case_decide; subst;
        [by rewrite lookup_insert_eq|by rewrite lookup_insert_ne]. }
  assert (Hback : ∀ q c, m !! q = Some c → q = child ∧ c = cc ∨
    q ≠ child ∧ ∃ d, t_procs t !! q = Some d ∧ c_pid c = c_pid d ∧ c_state c = c_state d ∧
      c_parent c = c_parent d ∧ c_exited c = c_exited d).
  { intros q c. rewrite Hm. destruct (decide (q = child)); [intros [= <-]; by left|]. intros Hq. right.
    split; [done|]. case_decide; [|by exists c].
    destruct (t_procs t !! q) as [d|]; [|done]. injection Hq as <-. by exists d. }
  assert (Hforth : ∀ q d, t_procs t !! q = Some d → q ≠ child ∧ ∃ c, m !! q = Some c ∧
    c_state c = c_state d).
  { intros q d Hq. assert (q ≠ child) by congruence. split; [done|]. rewrite Hm, decide_False by done.
    rewrite Hq. case_decide; eauto. }
  set (t' := Table m _ _ _ _).
  assert (Hal : ∀ a, parent_ok t a → parent_ok t' a).
  { intros a. apply (parent_ok_mono t); [done|]. intros d (_ & c & Hc & E)%Hforth. exists c.
    rewrite E. auto. }
  subst t'. rewrite i32_small by lia. split_and!; [split|split|done]; cbn [t_procs t_list t_init t_next_pid].
  - exists (child :: l). split_and!.
    + by apply new_child_pseg.
    + by apply NoDup_cons.
    + intros q. rewrite elem_of_cons, Hd, Hm. case_decide; [naive_solver|].
      destruct (decide (q = h)); [|naive_solver]. rewrite fmap_is_Some. naive_solver.
  - destruct (Hforth _ _ Hi) as (_ & c & Hc & _). by exists c.
  - rewrite i32_small in Hal by lia. intros q c [[-> ->]|(_ & d & Hq & _ & _ & -> & _)]%Hback; apply Hal; [|eauto].
    cbn. rewrite Hcur. right. exists cp. split; [done|]. by rewrite (proj2 (Hr _ _ Hcp)).
  - intros q c [[-> ->]|(_ & d & Hq & -> & _)]%Hback; [cbn; lia|]. specialize (Hpid _ _ Hq). lia.
  - intros q r c d [[-> ->]|(_ & c' & Hq & Ec & _)]%Hback [[-> ->]|(_ & d' & Hr' & Ed & _)]%Hback;
      [done|..].
    + rewrite Ed. specialize (Hpid _ _ Hr'). cbn. lia.
    + rewrite Ec. specialize (Hpid _ _ Hq). cbn. lia.
    + rewrite Ec, Ed. by apply Hinj.
  - intros q c [[-> ->]|(_ & d & Hq & _ & -> & _ & ->)]%Hback; [done|by apply (Hex q)].
  - intros q c [[-> ->]|(Hqc & d & Hq & _ & -> & _)]%Hback; [|by apply Hr].
    cbn. split; [done|]. intros [= ->]. congruence.
  - destruct (Hforth _ _ Hcp) as (_ & c & Hc & _). eauto.
Qed.

(** A zombie freed by its parent. *)
Lemma reaped_inv t t' p :
  wf t → runs t (Some p) → t_cur t = p → reaped t t' →
  wf t' ∧ runs t' (Some p) ∧ t_cur t' = p.
Proof.
  intros Hwf Hrun Hcur [->|(z & c & Hz & Hzp & Hzi & Hc & ->)]; [done|].
  destruct Hwf as [(l & Hl & Hn & Hd) [ci Hi] Hpar Hpid Hinj Hex]. destruct Hrun as [Hr [cp Hcp]].
  assert (Hzl : z ∈ l) by (apply Hd; eauto).
  destruct (list_elem_of_split _ _ Hzl) as (l1 & l2 & ->).
  assert (Hzp' : z ≠ p).
  { intros ->. assert (c_state c = RUNNING) by (by apply (Hr p)). congruence. }
  set (m := unlink z c (t_procs t)).
  assert (Hm : ∀ q, q ≠ z → match t_procs t !! q with
    | Some d => ∃ d', m !! q = Some d' ∧ c_pid d' = c_pid d ∧ c_state d' = c_state d ∧
        c_parent d' = c_parent d ∧ c_exited d' = c_exited d
    | None => m !! q = None end).
  { intros q Hq. subst m. unfold unlink. rewrite lookup_delete_ne by done.
    set (A := set_c_next (c_next c)). set (B := set_c_prev (c_prev c)).
    assert (Hone : ∀ (b : bool) f a (m0 : gmap Z core), (∀ d, c_pid (f d) = c_pid d ∧
      c_state (f d) = c_state d ∧ c_parent (f d) = c_parent d ∧ c_exited (f d) = c_exited d) →
      (if b then alter f a m0 else m0) !! q = m0 !! q ∨
      (if b then alter f a m0 else m0) !! q = f <$> m0 !! q).
    { intros b f a m0 _. destruct b; [|by left]. destruct (decide (q = a)) as [->|].
      - right. by rewrite lookup_alter_eq.
      - left. by rewrite lookup_alter_ne. }
    destruct (Hone (ctrue (c_next c)) B (c_next c)
      (if ctrue (c_prev c) then alter A (c_prev c) (t_procs t) else t_procs t)) as [->| ->]; [done|..];
    destruct (Hone (ctrue (c_prev c)) A (c_prev c) (t_procs t)) as [->| ->]; try done;
      destruct (t_procs t !! q) as [d|]; cbn; try done; eexists; split; try reflexivity; done. }
  assert (Hmz : m !! z = None) by apply lookup_delete_eq.
  assert (Hback : ∀ q d', m !! q = Some d' → q ≠ z ∧ ∃ d, t_procs t !! q = Some d ∧
    c_pid d' = c_pid d ∧ c_state d' = c_state d ∧ c_parent d' = c_parent d ∧
    c_exited d' = c_exited d).
  { intros q d' Hq. assert (Hqz : q ≠ z) by congruence. split; [done|]. specialize (Hm q Hqz).
    destruct (t_procs t !! q) as [d|]; [|congruence]. destruct Hm as (d2 & ? & ?). exists d.
    by simplify_eq. }
  assert (Hforth : ∀ a d, a ≠ z → t_procs t !! a = Some d →
    ∃ d', m !! a = Some d' ∧ c_state d' = c_state d).
  { intros a d Haz Hda. specialize (Hm a Haz). rewrite Hda in Hm.
    destruct Hm as (d' & Hd' & _ & E & _). by exists d'. }
  split_and!; [split|split|done]; cbn [t_procs t_list t_init t_next_pid].
  - exists (l1 ++ l2). split_and!.
    + by apply unlink_pseg.
    + rewrite NoDup_app in *. rewrite NoDup_cons in Hn. set_solver.
    + intros q. specialize (Hd q). rewrite elem_of_app, elem_of_cons in Hd.
      rewrite NoDup_app, NoDup_cons in Hn. rewrite elem_of_app. destruct (decide (q = z)) as [->|Hq].
      * rewrite Hmz. split; [set_solver|]. by intros [].
      * specialize (Hm q Hq). split.
        -- intros Hin. destruct (proj1 Hd) as [d Hd']; [tauto|]. rewrite Hd' in Hm.
           destruct Hm as (? & ? & _). eauto.
        -- intros [d' Hd']. destruct (t_procs t !! q); [|congruence].
           destruct (proj2 Hd) as [?|[?|?]]; [by eexists|tauto|done|tauto].
  - destruct (Hforth _ _ (not_eq_sym Hzi) Hi) as (c' & Hc' & _). by exists c'.
  - intros q d' (_ & d & Hq & _ & _ & -> & _)%Hback.
    destruct (Hpar _ _ Hq) as [?|(e & He & Hez)]; [by left|right].
    assert (Haz : c_parent d ≠ z) by (intros E; rewrite E in He, Hez; naive_solver).
    destruct (Hforth _ _ Haz He) as (e' & He' & Es). exists e'. by rewrite Es.
  - intros q d' (_ & d & Hq & -> & _)%Hback. by apply (Hpid q).
  - intros q r d e (_ & d' & Hq & -> & _)%Hback (_ & e' & Hr' & -> & _)%Hback. by apply Hinj.
  - intros q d' (_ & d & Hq & _ & -> & _ & ->)%Hback. by apply (Hex q).
  - intros q d' (_ & d & Hq & _ & -> & _)%Hback. by apply Hr.
  - specialize (Hm p ltac:(congruence)). rewrite Hcp in Hm. destruct Hm as (? & ? & _). eauto.
Qed.

(** ** The steps *)

Lemma pseg_next m w a c l : ∀ pv v,
  pseg m pv v l w → a ∈ l → m !! a = Some c → c_next c = w ∨ c_next c ∈ l.
Proof.
  induction l as [|b l IH]; intros pv v; [by intros _ []%elem_of_nil|].
  intros (-> & Hb & d & Hd & _ & Hl) [->|Hin]%elem_of_cons Hc.
  - assert (d = c) as -> by congruence. destruct l as [|e l]; cbn in Hl; [by left|].
    destruct Hl as [-> _]. right. right. by left.
  - destruct (IH _ _ Hl Hin Hc) as [?|?]; [by left|right; by right].
Qed.

Lemma wf_next t p c :
  wf t → t_procs t !! p = Some c → c_next c = 0 ∨ is_Some (t_procs t !! c_next c).
Proof.
  intros [(l & Hl & _ & Hd) _ _ _ _ _] Hp.
  destruct (pseg_next _ _ _ _ _ _ _ Hl (proj2 (Hd p) (ex_intro _ _ Hp)) Hp) as [?|?]; [by left|].
  right. by apply Hd.
Qed.

Lemma wf_head t : wf t → is_Some (t_procs t !! t_list t).
Proof.
  intros [(l & Hl & _ & Hd) [c Hc] _ _ _ _]. apply Hd. destruct l as [|a l].
  - exfalso. apply (not_elem_of_nil (t_init t)), Hd. eauto.
  - destruct Hl as [-> _]. by left.
Qed.

Lemma keeps_resume p : keeps (same_table (F := F)) (resume p).
Proof. unfold resume, set_intena. keep. Qed.

(** One turn: the process that is switched to, made runnable before if it was due, or the
    next process and no change to the table. *)
Lemma turn_changes p (s : kernel F) r s' :
  scheduler_turn p s = Ret (r, s') →
  ∃ c, t_procs (table_of s) !! p = Some c ∧
    match r with
    | inl q => q = p ∧ (c_state c = RUNNABLE ∨ c_state c = SLEEPING) ∧
        table_of s' = Table (<[p := set_c_state RUNNING c]> (t_procs (table_of s)))
          (t_list (table_of s)) (t_init (table_of s)) (t_next_pid (table_of s)) p
    | inr q => q = c_next c ∧ c_state c ≠ RUNNABLE ∧ table_of s' = table_of s
    end.
Proof.
  unfold scheduler_turn. intros E.
  apply mbind_inv in E as (x & s1 & [-> Hx]%get_proc_inv & E). exists (core_of x).
  split; [by apply table_lookup|].
  apply mbind_inv in E as (tick & s1 & [= <- <-] & E).
  apply mbind_inv in E as ([] & s1 & Ew & E).
  apply mbind_inv in E as (y & s2 & [-> Hy]%get_proc_inv & E).
  assert (T1 : table_of s1 = with_procs (<[p := set_c_state (p_state y) (core_of x)]>
    (t_procs (table_of s))) (table_of s) ∧
    (y = x ∨ p_state x = SLEEPING ∧ p_state y = RUNNABLE ∧ p_next y = p_next x)).
  { destruct (bool_decide (p_state x = SLEEPING)) eqn:Es; cbn [andb] in Ew.
    1: destruct (_ && _) in Ew.
    2-3: injection Ew as <-; simplify_eq; split; [|by left]; rewrite insert_id;
         [by rewrite with_procs_id|]; rewrite (table_lookup _ _ _ Hx); by destruct x.
    apply bool_decide_eq_true in Es. cbn [mwhen] in Ew.
    apply mbind_inv in Ew as ([] & s2 & E1 & Ew).
    rewrite (upd_proc_run _ _ _ _ Hx) in E1. injection E1 as <-.
    erewrite upd_proc_run in Ew by apply lookup_insert_eq. injection Ew as <-. cbn in Hy.
    rewrite !lookup_insert_eq in Hy. injection Hy as <-. split; [|by right].
    unfold table_of, with_procs. cbn. rewrite !fmap_insert, insert_insert_eq. done. }
  destruct T1 as [T1 Hor]. destruct (bool_decide (p_state y = RUNNABLE)) eqn:Er.
  - apply bool_decide_eq_true in Er.
    apply mbind_inv in E as ([] & s2 & E2 & E).
    eapply (set_state_inv _ _ _ _ (core_of y)) in E2; [|by apply table_lookup].
    apply mbind_inv in E as ([] & s3 & [= <-] & E).
    apply mbind_inv in E as ([] & s4 & E4%keeps_resume & [= <- <-]). split; [done|].
    split; [destruct Hor as [->|(? & _)]; [by left|by right]|].
    rewrite E4. pose proof (table_lookup _ _ _ Hy) as Hc. rewrite T1 in Hc, E2.
    cbn in Hc. rewrite lookup_insert_eq in Hc. injection Hc as Hc.
    change (table_of (set_cur p s2)) with (Table (t_procs (table_of s2)) (t_list (table_of s2))
      (t_init (table_of s2)) (t_next_pid (table_of s2)) p).
    rewrite E2. cbn. rewrite insert_insert_eq. do 2 f_equal. unfold core_of, set_c_state.
    cbn. congruence.
  - apply bool_decide_eq_false in Er. injection E as <- <-.
    destruct Hor as [->|(_ & ? & _)]; [|done]. split_and!; [done..|].
    rewrite T1, insert_id; [apply with_procs_id|]. rewrite (table_lookup _ _ _ Hx). by destruct x.
Qed.

Lemma keeps_all_sleeping fuel : ∀ p, keeps (same_table (F := F)) (all_sleeping fuel p).
Proof. induction fuel; intros p; cbn; keep. Qed.

Lemma round_changes (s : kernel F) q s' :
  scheduler_round s = Ret (q, s') → table_of s' = table_of s ∧ q = t_list (table_of s).
Proof.
  unfold scheduler_round. intros E.
  apply mbind_inv in E as (fuel & s1 & [= <- <-] & E). apply mbind_inv in E as (h & s1 & [= <- <-] & E).
  apply mbind_inv in E as (b & s1 & E1%keeps_all_sleeping & E).
  apply mbind_inv in E as ([] & s2 & T2 & [= <- <-]). apply kept_eq in T2; [|keep].
  unfold same_table in E1. split; [congruence|].
  change (t_list (table_of s2) = t_list (table_of s)). congruence.
Qed.

Lemma return_changes p (s : kernel F) q s' :
  sched_return p s = Ret (q, s') →
  table_of s' = Table (t_procs (table_of s)) (t_list (table_of s)) (t_init (table_of s))
    (t_next_pid (table_of s)) 0 ∧
  ∃ c, t_procs (table_of s) !! p = Some c ∧ q = c_next c.
Proof.
  unfold sched_return. intros E. apply mbind_inv in E as ([] & s1 & [= <-] & E).
  apply mbind_inv in E as (x & s2 & [-> Hx]%get_proc_inv & [= <- <-]). split; [done|].
  exists (core_of x). split; [by apply (table_lookup (set_cur 0 s))|done].
Qed.

(** Who is the running process is no part of [wf] and [runs]. *)
Definition with_cur (q : Z) (t : table) : table :=
  Table (t_procs t) (t_list t) (t_init t) (t_next_pid t) q.
Lemma wf_cur q t : wf t → wf (with_cur q t).
Proof. by intros [? ? ? ? ? ?]. Qed.

Lemma pick_inv p c t :
  wf t → runs t None → t_procs t !! p = Some c → c_state c = RUNNABLE ∨ c_state c = SLEEPING →
  wf (with_procs (<[p := set_c_state RUNNING c]> (t_procs t)) t) ∧
  runs (with_procs (<[p := set_c_state RUNNING c]> (t_procs t)) t) (Some p).
Proof.
  intros Hwf [Hr _] Hp Hst. set (t' := with_procs _ t).
  assert (Hnz : c_state c ≠ ZOMBIE) by (destruct Hst as [-> | ->]; done).
  assert (Hlk : ∀ q, t_procs t' !! q = if decide (q = p) then Some (set_c_state RUNNING c)
    else t_procs t !! q).
  { intros q. cbn. case_decide; subst; [by rewrite lookup_insert_eq|by rewrite lookup_insert_ne]. }
  assert (Hpt : pointwise (λ q a b, (q = p → a = c) ∧
    b = if decide (q = p) then set_c_state RUNNING c else a) t t').
  { split; [|done]. intros q. rewrite Hlk. case_decide; subst.
    - rewrite Hp. by constructor.
    - destruct (t_procs t !! q); by constructor. }
  split.
  - apply (pw_wf _ _ _ Hpt); [|done|..].
    + intros q a b [Ha ->]. case_decide; subst; [|done]. by rewrite (Ha eq_refl).
    + intros q a b Hq [Ha ->].
      assert (E : c_parent (if decide (q = p) then set_c_state RUNNING c else a) = c_parent a)
        by (case_decide; [by rewrite Ha by done|done]).
      rewrite E. apply (parent_ok_mono t); [done| |by eapply wf_parent]. intros d Hd.
      rewrite Hlk. destruct (decide (c_parent a = p)); [by exists (set_c_state RUNNING c)|by eauto].
    + intros q a b [Ha ->] Hex. case_decide; [|done]. rewrite Ha in Hex by done. cbn.
      intros Hx. by specialize (Hex Hx).
  - split.
    + intros q d. rewrite Hlk. case_decide; subst.
      * by intros [= <-].
      * intros Hq. rewrite (Hr q d Hq). split; congruence.
    + rewrite Hlk, decide_True; eauto.
Qed.

Lemma block_inv (s s' : kernel F) p :
  inv (s, Running p) → block s s' →
  wf (table_of s') ∧ runs (table_of s') None ∧ is_Some (t_procs (table_of s') !! p).
Proof.
  intros [Hwf [Hr Hc]] Hb. cbn [fst snd loc_ok] in Hwf, Hr, Hc.
  assert (Hpark : ∀ st ex t', st ≠ RUNNING → st ≠ ZOMBIE → ex = false →
    parked st ex (table_of s) t' → wf t' ∧ runs t' None ∧ is_Some (t_procs t' !! p)).
  { intros st ex t' ? ? -> Hpk.
    apply (parked_inv st false _ t' p) in Hpk as (? & ? & _ & ?); done. }
  destruct Hb as [chan s' E%sleep_parks|s' E%yield_parks|user s' E%timer_parks
    |sec nsec s' E%nanosleep_parks|status s' E].
  1-4: eapply (Hpark _ false); [..|exact E]; done.
  destruct (wf_list _ Hwf) as (l & Hl & Hn & Hd).
  eapply exit_changes in E as (t1 & t2 & Ha & Hw & Hpk); [|done..].
  pose proof Ha as (_ & _ & Ei & _ & Ec). rewrite Hc in Ha.
  apply adopted_inv in Ha as (Hwf1 & Hr1 & Hno); [|done..|intros q Hq; by apply Hd].
  specialize (Hr1 _ Hr). pose proof (woken_wf _ _ Hwf1 Hw) as Hwf2.
  pose proof (woken_runs _ _ _ Hr1 Hw) as Hr2. destruct Hw as (Hw & _ & Ei2 & _ & Ec2).
  eapply (parked_inv ZOMBIE true t2 _ p) in Hpk as (? & ? & _ & ?); try done; [congruence|].
  intros _ Hpi q c Hq. rewrite Ei2, Ei in Hpi. specialize (Hno Hpi). specialize (Hw q). rewrite Hq in Hw.
  inversion Hw as [d ? Hdc Hd1|]; subst. rewrite (wake_core_parent _ _ Hdc). by eapply Hno.
Qed.

Lemma call_inv (s s' : kernel F) p :
  inv (s, Running p) → call s s' → inv (s', Running p).
Proof.
  intros [Hwf [Hr Hc]] Hcall. cbn in Hwf, Hr, Hc.
  assert (Hpos : 0 < t_next_pid (table_of s)).
  { destruct (wf_init _ Hwf) as [c Hi]. pose proof (wf_pid _ Hwf _ _ Hi). lia. }
  assert (Hwoken : woken (table_of s) (table_of s') → inv (s', Running p)).
  { intros Hw. split; [by eapply woken_wf|]. split; [by eapply woken_runs|].
    destruct Hw as (_ & _ & _ & _ & Hw). cbn in Hw |- *. congruence. }
  assert (Hchild : ∀ child, fresh_procs s → child ∈ frames (kvm s) →
    new_child child (table_of s) (table_of s') → inv (s', Running p)).
  { intros child (Hfr & _ & Hmax) Hin Hn. apply Hfr in Hin.
    eapply (new_child_inv _ _ _ p) in Hn as (? & ? & ?); try done. cbn. by rewrite lookup_fmap, Hin. }
  destruct Hcall as [chan s' E|pid r s' E|r s' Hf E|fl sk pt tl ct r s' Hf E|pid st opt r s' E].
  - by apply Hwoken, (wakeup_wakes chan s tt).
  - by apply Hwoken, (kill_wakes pid s r).
  - apply fork_changes in E as (child & ? & ?). eauto.
  - apply clone_changes in E as (child & ? & ?). eauto.
  - apply wait4_changes in E. exact (reaped_inv _ _ _ Hwf Hr Hc E).
Qed.

Lemma woken_inv t t' l : wf t → loc_ok t l → woken t t' → wf t' ∧ loc_ok t' l.
Proof.
  intros Hwf Hl Hw. split; [by eapply woken_wf|]. pose proof Hw as (Hp & _ & _ & _ & Ec).
  destruct l as [p|p]; [destruct Hl as (Hr & Hc & Hlive)|destruct Hl as (Hr & Hc)].
  - split_and!; [by eapply woken_runs|congruence|]. destruct Hlive as [?|[c Hlive]]; [by left|right].
    specialize (Hp p). rewrite Hlive in Hp. inversion Hp. eauto.
  - split; [by eapply woken_runs|congruence].
Qed.

Lemma system_step_inv x y : inv x → step x y → inv y.
Proof.
  intros Hi Hs. destruct Hs as [s l s' E|p s q s' Hp E|p s q s' Hp E
    |s q s' E|p chan s s' E|p s s' Hc|p s s1 q s2 Hb E].
  - unfold inv, same_table in *. cbn [fst snd] in *. by rewrite E.
  - destruct Hi as [Hwf (Hr & Hc & _)]. cbn in Hwf, Hr, Hc.
    apply turn_changes in E as (c & Hp' & -> & Hst & T).
    destruct (pick_inv _ _ _ Hwf Hr Hp' Hst) as [Hwf' Hr'].
    unfold inv. cbn [fst snd]. rewrite T. split; [by apply (wf_cur p) in Hwf'|done].
  - destruct Hi as [Hwf (Hr & Hc & _)]. cbn in Hwf, Hr, Hc.
    apply turn_changes in E as (c & Hp' & -> & Hst & T).
    unfold inv. cbn [fst snd]. rewrite T. split; [done|]. split_and!; [done..|].
    by eapply wf_next.
  - destruct Hi as [Hwf (Hr & Hc & _)]. cbn in Hwf, Hr, Hc.
    apply round_changes in E as [T ->]. unfold inv. cbn [fst snd]. rewrite T.
    split; [done|]. split_and!; [done..|]. right. by apply wf_head.
  - destruct Hi as [Hwf Hl]. apply wakeup_wakes in E. by eapply woken_inv.
  - by eapply call_inv.
  - destruct (block_inv _ _ _ Hi Hb) as (Hwf & Hr & Hp).
    apply return_changes in E as (T & c & Hc & ->). unfold inv. cbn [fst snd]. rewrite T.
    split; [by apply wf_cur|]. split_and!; [done..|]. exact (wf_next _ _ _ Hwf Hc).
Qed.

(** [fork] is [fork_first] followed by [link_rest] and the reading of the number. *)
Lemma fork_halves (s : kernel F) :
  sys_fork s = (child ← fork_first; link_rest child;; c ← get_proc child; mret (p_pid c)) s.
Proof.
  unfold sys_fork, fork_first, start_child, link_child, link_next, link_rest, gets, modify, upd_proc.
  munfold. destruct (myproc s) as [[p s1]| | |]; [|done..].
  destruct (alloc_proc s1) as [[c s2]| | |]; [|done..].
  unfold massert. destruct (ctrue c); [|done]. munfold.
  destruct (fork_copy p c s2) as [[[] s4]| | |]; [|done..].
  destruct (get_proc c s4) as [[x s5]| | |]; [|done..].
  set (s6 := set_procs _ s5). destruct (get_proc c s6) as [[y s7]| | |] eqn:E; [|done..].
  by apply get_proc_inv in E as [-> _].
Qed.

(** ** Reachable states *)

(** The first process is made, and the scheduler starts. *)
Inductive booted : kernel F * loc → Prop :=
  | booted_intro s s1 h s2 :
      procs s = ∅ → next_pid s = 1 → proc_init s = Ret (tt, s1) →
      scheduler_start s1 = Ret (h, s2) → booted (s2, AtSched h).

Definition reachable (x : kernel F * loc) : Prop := ∃ b, booted b ∧ rtc step b x.

Lemma init_changes (s s' : kernel F) :
  proc_init s = Ret (tt, s') →
  ∃ p, p ≠ 0 ∧ table_of s' =
    Table (<[p := set_c_state RUNNABLE (new_core (next_pid s))]> (t_procs (table_of s))) p p
      (i32 (next_pid s + 1)) (cur s).
Proof.
  unfold proc_init. intros E. apply mbind_inv in E as (p & s1 & (Hp & _ & T)%alloc_changes & E).
  exists p. split; [done|].
  apply mbind_inv in E as (x & s2 & [-> Hx]%get_proc_inv & E).
  apply mbind_inv in E as (pt & s2 & T2 & E). apply kept_eq in T2; [|keep]. rewrite T in T2. clear T.
  apply mbind_inv in E as (u & s3 & T3 & E). apply kept_eq in T3; [|keep]. rewrite T2 in T3. clear T2.
  apply mbind_inv in E as ([] & s4 & T4 & E). apply kept_eq in T4; [|keep]. rewrite T3 in T4. clear T3.
  apply mbind_inv in E as ([] & s5 & T5 & E). apply kept_eq in T5; [|keep]. rewrite T4 in T5. clear T4.
  apply mbind_inv in E as (v & s6 & T6 & E). apply kept_eq in T6; [|keep]. rewrite T5 in T6. clear T5.
  apply mbind_inv in E as ([] & s7 & T7 & E). apply kept_eq in T7; [|keep]. rewrite T6 in T7. clear T6.
  apply mbind_inv in E as ([] & s8 & T8 & E). apply kept_eq in T8; [|keep]. rewrite T7 in T8. clear T7.
  apply mbind_inv in E as ([] & s9 & T9 & E). apply kept_eq in T9; [|keep]. rewrite T8 in T9. clear T8.
  apply mbind_inv in E as ([] & s10 & E10 & E). apply (upd_alter _ _ _ (set_c_state RUNNABLE)) in E10; [|done].
  apply mbind_inv in E as ([] & s11 & [= <-] & [= <-]).
  change (Table (t_procs (table_of s10)) p p (t_next_pid (table_of s10)) (t_cur (table_of s10)) =
    Table (<[p := set_c_state RUNNABLE (new_core (next_pid s))]> (t_procs (table_of s))) p p
      (i32 (next_pid s + 1)) (cur s)).
  rewrite E10, T9. cbn [t_procs t_next_pid t_cur with_procs]. by rewrite alter_insert_eq.
Qed.

Lemma boot_changes (s : kernel F) h s' :
  scheduler_start s = Ret (h, s') → table_of s' = with_cur 0 (table_of s) ∧ h = t_list (table_of s).
Proof.
  unfold scheduler_start. intros E. apply mbind_inv in E as ([] & s1 & [= <-] & E).
  apply mbind_inv in E as ([] & s2 & T & [= <- <-]). apply kept_eq in T; [|keep].
  change (table_of (set_cur 0 s)) with (with_cur 0 (table_of s)) in T. split; [done|].
  change (t_list (table_of s2) = t_list (with_cur 0 (table_of s))). by rewrite T.
Qed.

Lemma booted_inv x : booted x → inv x.
Proof.
  intros [s s1 h s2 Hps Hn (p & Hp & T)%init_changes E]. rewrite Hn in T.
  apply boot_changes in E as [T2 ->]. unfold inv. cbn [fst snd]. rewrite T2, T.
  set (c := set_c_state RUNNABLE (new_core 1)).
  assert (Hlk : ∀ q d, (<[p := c]> (t_procs (table_of s))) !! q = Some d ↔ q = p ∧ d = c).
  { intros q d. cbn [t_procs table_of]. rewrite Hps, fmap_empty, lookup_insert_Some, lookup_empty.
    naive_solver. }
  unfold with_cur. cbn [t_procs t_list t_cur loc_ok]. split_and!; [split|split|done|]; cbn [t_procs t_list t_init t_next_pid].
  - exists [p]. split_and!.
    + cbn. split_and!; [done..|]. exists c. by rewrite lookup_insert_eq.
    + apply NoDup_singleton.
    + intros q. rewrite list_elem_of_singleton. split; [intros ->; rewrite lookup_insert_eq; eauto|].
      by intros [d [-> _]%Hlk].
  - rewrite lookup_insert_eq. eauto.
  - intros q d [-> ->]%Hlk. by left.
  - intros q d [-> ->]%Hlk. cbn. change (i32 (1 + 1)) with 2. lia.
  - by intros q r d e [-> _]%Hlk [-> _]%Hlk.
  - by intros q d [-> ->]%Hlk.
  - by intros q d [-> ->]%Hlk.
  - done.
  - right. rewrite lookup_insert_eq. eauto.
Qed.

Lemma steps_inv x y : rtc step x y → inv x → inv y.
Proof. induction 1; eauto using system_step_inv. Qed.

Lemma sched_reachable_inv x : reachable x → inv x.
Proof. intros (b & Hb%booted_inv & Hs). by eapply steps_inv. Qed.

(** ** What the loop of the scheduler finds *)

(** A process the scheduler switches to when it comes to it. *)
Definition ready (s : kernel F) (x : proc) : bool :=
  bool_decide (p_state x = RUNNABLE) ||
  bool_decide (p_state x = SLEEPING) && negb (p_sleeping_due x =? -1) &&
    (u64 (p_sleeping_due x) <=? tick_counter s).

Definition has_cpu (s : kernel F) : Prop := is_Some (cpus (venv (kfs s)) !! 0%nat).

Lemma intr_set_run b (s : kernel F) :
  has_cpu s → ∃ k, on_fs (intr_set b) s = Ret (tt, set_kfs k s) ∧ has_cpu (set_kfs k s).
Proof.
  intros [c Hc]. unfold on_fs, intr_set, zoom, mtry. munfold. cbn. rewrite Hc. cbn.
  eexists. split; [done|]. unfold has_cpu. cbn.
  destruct (cpus (venv (kfs s))); [done|]. eexists. reflexivity.
Qed.
Lemma set_intena_run b (s : kernel F) :
  has_cpu s → ∃ k, on_fs (set_intena b) s = Ret (tt, set_kfs k s) ∧ has_cpu (set_kfs k s).
Proof.
  intros [c Hc]. unfold on_fs, set_intena, zoom, mtry. munfold. cbn. rewrite Hc. cbn.
  eexists. split; [done|]. unfold has_cpu. cbn.
  destruct (cpus (venv (kfs s))); [done|]. eexists. reflexivity.
Qed.

Lemma resume_run p x (s : kernel F) :
  procs s !! p = Some x → exited (p_context x) = false → has_cpu s →
  ∃ s', resume p s = Ret (tt, s').
Proof.
  intros Hp Hx Hc. unfold resume. mstep (get_proc_run s p x Hp).
  destruct (p_context x) as [f q|i from]; [by eexists|].
  destruct (set_intena_run i s Hc) as (k & E & Hk). mstep E.
  destruct from as [b| | |]; [|by eexists|done|by eexists].
  destruct (intr_set_run b _ Hk) as (k2 & E2 & _). mstep E2.
  eexists. by apply (upd_proc_run _ p x).
Qed.

Lemma turn_run p x (s : kernel F) :
  procs s !! p = Some x → (ready s x → exited (p_context x) = false) → has_cpu s →
  if ready s x then ∃ s', scheduler_turn p s = Ret (inl p, s')
  else scheduler_turn p s = Ret (inr (p_next x), s).
Proof.
  intros Hp Hx Hc. unfold scheduler_turn. mstep (get_proc_run s p x Hp).
  mstep (eq_refl : gets tick_counter s = Ret (tick_counter s, s)). unfold ready in *.
  assert (Hgo : ∀ y (s1 : kernel F), procs s1 !! p = Some y → has_cpu s1 →
    exited (p_context y) = false → p_state y = RUNNABLE →
    ∃ s', (x ← get_proc p;
     if bool_decide (p_state x = RUNNABLE) then
       upd_proc p (set_p_state RUNNING);; modify (set_cur p);; resume p;; mret (inl p)
     else mret (inr (p_next x))) s1 = Ret (inl p, s')).
  { intros y s1 Hy Hc1 Hex Hst. mstep (get_proc_run s1 p y Hy). rewrite bool_decide_eq_true_2 by done.
    mstep (upd_proc_run s1 p y (set_p_state RUNNING) Hy). set (s2 := set_procs _ s1).
    mstep (eq_refl : modify (set_cur p) s2 = Ret (tt, set_cur p s2)).
    destruct (resume_run p (set_p_state RUNNING y) (set_cur p s2)) as [s3 E];
      [apply lookup_insert_eq|done|done|]. mstep E. by eexists. }
  destruct (bool_decide (p_state x = SLEEPING) && _ && _) eqn:Es.
  - rewrite orb_true_r in Hx |- *. cbn [mwhen].
    set (y := set_p_state RUNNABLE (set_p_sleeping_due (-1) x)).
    assert (E : (upd_proc p (set_p_sleeping_due (-1));; upd_proc p (set_p_state RUNNABLE)) s =
      Ret (tt, set_procs (<[p := y]> (procs s)) s)).
    { mstep (upd_proc_run s p x (set_p_sleeping_due (-1)) Hp).
      erewrite upd_proc_run by apply lookup_insert_eq. cbn. by rewrite insert_insert_eq. }
    mstep E. apply (Hgo y); [apply lookup_insert_eq|done|by apply Hx|done].
  - rewrite orb_false_r in Hx |- *. cbn [mwhen]. mstep (eq_refl : (mret tt : M (kernel F) unit) s = Ret (tt, s)).
    destruct (bool_decide (p_state x = RUNNABLE)) eqn:Er.
    + apply (Hgo x); [done|done|by apply Hx|by apply bool_decide_eq_true in Er].
    + mstep (get_proc_run s p x Hp). by rewrite Er.
Qed.

(** A walk from [v] on: it ends at a ready process, or there is none up to the end of the list. *)
Lemma list_walk_run (s : kernel F) l :
  has_cpu s → (∀ q x, procs s !! q = Some x → ready s x → exited (p_context x) = false) →
  ∀ pv v, pseg (t_procs (table_of s)) pv v l 0 →
  (∃ q x s', procs s !! q = Some x ∧ ready s x ∧
     ∀ fuel, scheduler (length l + fuel) v s = Ret (q, s')) ∨
  (∀ q x, q ∈ l → procs s !! q = Some x → ready s x = false) ∧
    ∀ fuel, scheduler (length l + fuel) v s = scheduler fuel 0 s.
Proof.
  intros Hc Hex. induction l as [|a l IH]; intros pv v Hl.
  { right. cbn in Hl. subst v. split; [by intros q x []%elem_of_nil|done]. }
  destruct Hl as (-> & Ha & c & Hc' & _ & Hl). cbn in Hc'. rewrite lookup_fmap in Hc'.
  destruct (procs s !! a) as [x|] eqn:Hx; [|done]. injection Hc' as <-.
  pose proof (turn_run a x s Hx (Hex a x Hx) Hc) as Ht. destruct (ready s x) eqn:Er.
  - left. destruct Ht as [s' Ht]. exists a, x, s'. split_and!; [done|by rewrite Er|].
    intros fuel. cbn [length Nat.add scheduler]. rewrite (proj2 (Z.eqb_neq a 0)) by done.
    by mstep Ht.
  - assert (Hstep : ∀ fuel, scheduler (length (a :: l) + fuel) a s =
      scheduler (length l + fuel) (p_next x) s).
    { intros fuel. cbn [length Nat.add scheduler]. rewrite (proj2 (Z.eqb_neq a 0)) by done.
      by mstep Ht. }
    destruct (IH _ _ Hl) as [(q & y & s' & Hq & Hy & E)|[Hno E]].
    + left. exists q, y, s'. split_and!; [done..|]. intros fuel. by rewrite Hstep.
    + right. split; [|intros fuel; by rewrite Hstep].
      intros q y [->|Hq]%elem_of_cons Hy; [congruence|by eapply Hno].
Qed.

Lemma all_sleeping_run (s : kernel F) l : ∀ fuel pv v,
  pseg (t_procs (table_of s)) pv v l 0 → (length l ≤ fuel)%nat →
  ∃ b, all_sleeping fuel v s = Ret (b, s).
Proof.
  induction l as [|a l IH]; intros fuel pv v Hl Hf; [cbn in Hl; subst v; destruct fuel; by eexists|].
  destruct fuel as [|fuel]; [cbn in Hf; lia|]. destruct Hl as (-> & Ha & c & Hc & _ & Hl).
  cbn in Hc. rewrite lookup_fmap in Hc. destruct (procs s !! a) as [x|] eqn:Hx; [|done].
  injection Hc as <-. cbn [all_sleeping]. rewrite (proj2 (Z.eqb_neq a 0)) by done.
  mstep (get_proc_run s a x Hx). case_bool_decide; [|by eexists].
  apply (IH fuel _ _ Hl). cbn in Hf. lia.
Qed.

(** The list has as many nodes as there are processes. *)
Lemma wf_length (s : kernel F) (l : list Z) :
  NoDup l → (∀ p, p ∈ l ↔ is_Some (t_procs (table_of s) !! p)) → length l = base.size (procs s).
Proof.
  intros Hn Hd. rewrite <- size_dom. replace (dom (procs s)) with (list_to_set l : gset Z).
  - symmetry. by apply size_list_to_set.
  - apply set_eq. intros p. rewrite elem_of_list_to_set, Hd, elem_of_dom. cbn.
    by rewrite lookup_fmap, fmap_is_Some.
Qed.

Lemma round_run (s : kernel F) l :
  has_cpu s → pseg (t_procs (table_of s)) 0 (proc_list s) l 0 → length l = base.size (procs s) →
  ∃ k, scheduler_round s = Ret (proc_list s, set_kfs k s) ∧ has_cpu (set_kfs k s).
Proof.
  intros Hc Hl Hlen. unfold scheduler_round.
  mstep (eq_refl : gets proc_fuel s = Ret (proc_fuel s, s)).
  mstep (eq_refl : gets proc_list s = Ret (proc_list s, s)).
  destruct (all_sleeping_run s l (proc_fuel s) _ _ Hl) as [b E]; [unfold proc_fuel; lia|]. mstep E.
  destruct b; cbn [mwhen].
  - destruct (intr_set_run true s Hc) as (k & E2 & Hk). mstep E2. exists k. by split.
  - exists (kfs s). replace (set_kfs (kfs s) s) with s by (by destruct s). by split.
Qed.

Lemma scheduler_steps fuel : ∀ p q (s s' : kernel F),
  scheduler fuel p s = Ret (q, s') → rtc step (s, AtSched p) (s', Running q).
Proof.
  induction fuel as [|fuel IH]; intros p q s s'; cbn; [done|]. destruct (Z.eqb_spec p 0) as [->|Hp].
  - intros (h & s1 & E1 & E)%mbind_inv. eapply rtc_l; [by apply step_round|by apply IH].
  - intros ([r|r] & s1 & E1 & E)%mbind_inv.
    + injection E as <- <-. apply rtc_once. by apply step_pick.
    + eapply rtc_l; [by apply step_skip|by apply IH].
Qed.

(** ** The theorems *)

(** C1: In every state reachable from boot by the scheduler's turns, the wakeups of
    interrupt handlers, and whole calls that create, wake, stop, end (the first process
    included) and reap processes, the list of processes is a well-formed doubly linked list
    of exactly the live processes; at most one process is [RUNNING], and it is the one the
    CPU runs; process numbers are distinct; and the parent of a process is alive, and no
    zombie unless it is the first process.  Conditions: no interrupt yields or wakes between
    two accesses of one call, or of one turn of the scheduler, to the process table
    ([preempted_forks_lose_a_process] shows what the code does otherwise), the allocator
    hands out no address twice, and the counter of numbers has not wrapped. *)
Theorem process_system_safe (s : kernel F) l :
  reachable (s, l) →
  (∃ L, NoDup L ∧ pseg (t_procs (table_of s)) 0 (proc_list s) L 0 ∧
     ∀ p, p ∈ L ↔ is_Some (procs s !! p)) ∧
  (∀ p x, procs s !! p = Some x → p_state x = RUNNING ↔ l = Running p) ∧
  (∀ p, l = Running p → cur s = p ∧ is_Some (procs s !! p)) ∧
  (∀ p q x y, procs s !! p = Some x → procs s !! q = Some y → p_pid x = p_pid y → p = q) ∧
  (∀ p x, procs s !! p = Some x → p_parent x = 0 ∨
     ∃ y, procs s !! p_parent x = Some y ∧ (p_state y = ZOMBIE → p_parent x = init_proc s)).
Proof.
  intros [Hwf Hl]%sched_reachable_inv. cbn [fst snd] in *.
  assert (Hlk : ∀ p x, procs s !! p = Some x → t_procs (table_of s) !! p = Some (core_of x))
    by (intros; by apply table_lookup).
  assert (Hback : ∀ p c, t_procs (table_of s) !! p = Some c → ∃ x, procs s !! p = Some x ∧ c = core_of x).
  { intros p c. cbn. rewrite lookup_fmap. intros (x & -> & ?)%fmap_Some. eauto. }
  assert (Hlive : ∀ p, is_Some (t_procs (table_of s) !! p) ↔ is_Some (procs s !! p)).
  { intros p. cbn. by rewrite lookup_fmap, fmap_is_Some. }
  split_and!.
  - destruct (wf_list _ Hwf) as (L & HL & Hn & Hd). exists L. split_and!; [done..|].
    intros p. by rewrite Hd, Hlive.
  - intros p x Hx%Hlk. change (p_state x) with (c_state (core_of x)).
    destruct l as [q|q]; cbn in Hl; destruct Hl as ((Hr & _) & _); rewrite (Hr _ _ Hx);
      split; congruence.
  - intros p ->. destruct Hl as ((_ & Hp) & Hc). split; [done|by apply Hlive].
  - intros p q x y Hx%Hlk Hy%Hlk Hpid. by eapply (wf_pid_inj _ Hwf).
  - intros p x Hx%Hlk. destruct (wf_parent _ Hwf _ _ Hx) as [?|(d & Hd & Hz)]; [by left|right].
    apply Hback in Hd as (y & ? & ->). eauto.
Qed.

(** C9: From every state that satisfies the invariant of the process table, with a process
    that is ready (runnable, or asleep past its wake-up time), and as long as no interrupt
    handler changes the table meanwhile, the loop of the scheduler ends within two rounds:
    it neither fails nor runs past the list, it switches to a ready process, and the
    invariant holds with that process running. *)
Theorem scheduler_picks_ready (s : kernel F) p :
  inv (s, AtSched p) → has_cpu s →
  (∃ q x, procs s !! q = Some x ∧ ready s x) →
  ∃ q x s', procs s !! q = Some x ∧ ready s x ∧
    scheduler (2 * base.size (procs s) + 1) p s = Ret (q, s') ∧
    inv (s', Running q).
Proof.
  intros Hinv Hc (q0 & x0 & Hq0 & Hx0). pose proof Hinv as [Hwf [_ [_ Hp]]].
  cbn [fst snd] in *. destruct (wf_list _ Hwf) as (L & HL & Hn & Hd).
  assert (Hlen := wf_length s L Hn Hd).
  assert (Hex : ∀ q x, procs s !! q = Some x → ready s x → exited (p_context x) = false).
  { intros q x Hx Hr. apply not_true_is_false. intros E.
    pose proof (wf_exited _ Hwf q (core_of x) (table_lookup _ _ _ Hx) E) as Ez. cbn in Ez.
    unfold ready in Hr. rewrite Ez in Hr. by rewrite !bool_decide_eq_false_2 in Hr by done. }
  assert (Hgoal : ∀ q x s', procs s !! q = Some x → ready s x →
    scheduler (2 * base.size (procs s) + 1) p s = Ret (q, s') →
    ∃ q x s', procs s !! q = Some x ∧ ready s x ∧
      scheduler (2 * base.size (procs s) + 1) p s = Ret (q, s') ∧ inv (s', Running q)).
  { intros q x s' ? ? E. exists q, x, s'. split_and!; [done..|].
    exact (steps_inv _ _ (scheduler_steps _ _ _ _ _ E) Hinv). }
  assert (Hsuf : ∃ l pv, pseg (t_procs (table_of s)) pv p l 0 ∧ (length l ≤ length L)%nat).
  { destruct Hp as [->|Hp]; [exists [], 0; cbn; split; [done|lia]|].
    destruct (list_elem_of_split _ _ (proj2 (Hd p) Hp)) as (l1 & l2 & EL). rewrite EL in HL |- *.
    apply pseg_app in HL as (u & _ & Hu). exists (p :: l2), (default 0 (last l1)).
    assert (u = p) as -> by apply Hu. split; [done|]. rewrite length_app. lia. }
  destruct Hsuf as (l & pv & Hl & Hle).
  destruct (list_walk_run s l Hc Hex pv p Hl) as [(q & x & s' & Hq & Hx & E)|[_ E]].
  { apply (Hgoal q x s' Hq Hx). specialize (E (2 * length L + 1 - length l)%nat).
    rewrite <- Hlen. rewrite <- E. f_equal. lia. }
  destruct (round_run s L Hc HL Hlen) as (k & Er & Hk).
  destruct (list_walk_run (set_kfs k s) L Hk Hex 0 (proc_list s) HL) as [(q & x & s' & Hq & Hx & E')|[Hno _]].
  - apply (Hgoal q x s' Hq Hx).
    specialize (E (S (length L + (length L - length l)))%nat). rewrite <- Hlen.
    replace (2 * length L + 1)%nat with (length l + S (length L + (length L - length l)))%nat by lia.
    rewrite E. cbn [scheduler]. change (0 =? 0) with true. cbv iota. mstep Er. apply E'.
  - exfalso. change (ready (set_kfs k s)) with (ready s) in Hno. rewrite (Hno q0 x0) in Hx0; [done| |done].
    apply Hd. cbn. rewrite lookup_fmap, Hq0. eauto.
Qed.
End sched.

(** ** A boot, a switch to the first process, a [fork] and a [yield] *)

Section demo.
#[local] Existing Instance demo_env.
#[local] Existing Instance demo_vm_env.
#[local] Instance demo_sys_env : SysEnv unit := demo_sys demo_env.
#[local] Instance demo_proc_env : ProcEnv := {|
  dive_to_user_fn := 0x80201000; ptmp := 0x80300000; INIT_CODE := 0x80202000; INIT_CODE_SIZE := 4;
  junk_trapframe := Trapframe 0 0 0 0 0 0 0 0 0 0 0 0 0 0 []; junk_area := Area (VmArea 1 2 3 4 5 6) 7 0
|}.

Definition boot_kernel : kernel unit := {|
  kvm := Vm {[ kernel_pagetable := replicate 512 0 ]}
    (list_to_map ((λ k, (INIT_CODE + k, k)) <$> seqZ 0 4) ∪
     list_to_map ((λ k, (0x80417000 + k, 0)) <$> seqZ 0 4)) (pcnt demo_vm0)
    ((λ k, 0x80410000 + k * PGSIZE) <$> seqZ 0 60) [] ∅;
  kfs := demo_vfs;
  procs := ∅; areas := ∅; cwds := ∅; tframes := ∅;
  proc_list := 0; init_proc := 0; next_pid := 1; cur := 0; tick_counter := 0
|}.

Definition initialised : kernel unit := outcome_state (proc_init boot_kernel) boot_kernel.
Definition booted_kernel : kernel unit := outcome_state (scheduler_start initialised) initialised.
Definition first : Z := 0x80410000.
Definition picked : kernel unit := outcome_state (scheduler 5 first booted_kernel) boot_kernel.

(** The first process has loaded a program without areas, closed its files and disabled
    interrupts. *)
Definition prepared : kernel unit :=
  let s := outcome_state (on_fs (intr_set false) picked) picked in
  let s := set_procs (alter (set_p_vma_list 0) first (procs s)) s in
  set_kfs (set_tables ((λ _, FilesStruct (replicate 1024 0) 0 1024) <$> tables (kfs s)) (kfs s)) s.
Definition forked : kernel unit := outcome_state (sys_fork prepared) prepared.
Definition yielded : kernel unit := outcome_state (yield forked) forked.
Definition returned : kernel unit := outcome_state (sched_return first yielded) yielded.

Lemma ret_eq {A S} `{EqDecision A} (o : outcome (A * S)) (r : A) (d : S) :
  match o with Ret (a, _) => bool_decide (a = r) | _ => false end = true →
  o = Ret (r, outcome_state o d).
Proof. destruct o as [[a s]| | |]; try done. by intros ->%bool_decide_eq_true. Qed.

Lemma picked_reachable : reachable (picked, Running first).
Proof.
  exists (booted_kernel, AtSched first). split.
  - apply (booted_intro boot_kernel initialised); [reflexivity..| |].
    + apply ret_eq. vm_compute. reflexivity.
    + apply ret_eq. vm_compute. reflexivity.
  - apply (scheduler_steps 5). apply ret_eq. vm_compute. reflexivity.
Qed.

Lemma returned_reachable : reachable (returned, AtSched 0).
Proof.
  destruct picked_reachable as (b & Hb & Hs). exists b. split; [done|]. etrans; [done|].
  eapply rtc_l; [apply (step_other picked (Running first) prepared); vm_compute; reflexivity|].
  eapply rtc_l; [apply (step_call first prepared forked), (call_fork _ 2)|].
  - assert (E : forallb (λ a, bool_decide (procs prepared !! a = None)) (frames (kvm prepared)) = true)
      by (vm_compute; reflexivity).
    rewrite forallb_forall in E. split_and!.
    + intros a Ha. apply (bool_decide_eq_true_1 _ (E a (proj1 (list_elem_of_In _ _) Ha))).
    + eapply bool_decide_eq_true_1. vm_compute. reflexivity.
    + vm_compute. reflexivity.
  - apply ret_eq. vm_compute. reflexivity.
  - apply rtc_once, (step_block first forked yielded 0).
    + apply block_yield. apply ret_eq. vm_compute. reflexivity.
    + apply ret_eq. vm_compute. reflexivity.
Qed.

(** Two processes; the first one forks and the timer interrupts it in the middle of linking
    the child.  The other process forks, is interrupted in turn, and the first one goes on:
    the child of the other process is on the list no more. *)
Definition preempted_forks : M (kernel unit) Z :=
  a ← fork_first;
  preempt;;
  sys_fork;;
  b ← gets proc_list;
  preempt;;
  link_rest a;;
  mret b.
Definition after_forks : kernel unit := outcome_state (preempted_forks forked) forked.

Definition lost_child : Z := 0x80434000.

Lemma preempted_forks_lose_a_process :
  preempted_forks forked = Ret (lost_child, after_forks) ∧
  is_Some (procs after_forks !! lost_child) ∧
  lost_child ∉ listed (base.size (procs after_forks)) after_forks (proc_list after_forks).
Proof.
  split; [apply ret_eq; vm_compute; reflexivity|]. split.
  - vm_compute. eauto.
  - eapply bool_decide_eq_true_1. vm_compute. reflexivity.
Qed.

Lemma process_system_safe_witness :
  ∃ L, NoDup L ∧ pseg (t_procs (table_of returned)) 0 (proc_list returned) L 0 ∧
    ∀ p, p ∈ L ↔ is_Some (procs returned !! p).
Proof. exact (proj1 (process_system_safe returned (AtSched 0) returned_reachable)). Defined.

Lemma scheduler_picks_ready_witness :
  ∃ q x s', procs returned !! q = Some x ∧ ready returned x ∧
    scheduler (2 * base.size (procs returned) + 1) 0 returned = Ret (q, s') ∧
    inv (s', Running q).
Proof.
  apply (scheduler_picks_ready returned 0 (sched_reachable_inv _ returned_reachable)).
  - eexists. vm_compute. reflexivity.
  - exists first. eexists. split; [vm_compute; reflexivity|]. vm_compute. reflexivity.
Defined.
End demo.
