(* ===== verification/ProcCalls.v ===== *)
(** * Waking, killing and sleeping, and the numbers they rest on

    What [wakeup] and [kill] of [kernel/proc/proc.c] do to every process of a reachable
    state; that [sched] refuses to run with interrupts enabled, as system calls do; the
    ticks [nanosleep] of [kernel/sys/time.c] asks for; and the kernel stacks of
    [kernel/include/mm/memlayout.h]. *)

From S2P Require Export Sched.

Section calls.
Context {F : Type} `{SysEnv F} `{VmEnv} `{ProcEnv}.

(** ** Walks that change the processes one by one *)

(** The processes [l] changed by [f]. *)
Definition visit (f : Z → proc → proc) (l : list Z) (m : gmap Z proc) : gmap Z proc :=
  foldl (λ m p, alter (f p) p m) m l.

Lemma visit_lookup f l : ∀ m p, NoDup l →
  visit f l m !! p = if decide (p ∈ l) then f p <$> m !! p else m !! p.
Proof.
  induction l as [|a l IH]; intros m p Hn; cbn [visit foldl]; [done|].
  apply NoDup_cons in Hn as [Ha Hn]. fold (visit f l (alter (f a) a m)).
  rewrite IH by done. destruct (decide (p = a)) as [->|Hp].
  - rewrite decide_False by done. rewrite decide_True by (by left). by rewrite lookup_alter_eq.
  - rewrite lookup_alter_ne by done. destruct (decide (p ∈ l)).
    + by rewrite decide_True by (by right).
    + rewrite decide_False; [done|]. by intros [?|?]%elem_of_cons.
Qed.

Lemma for_procs_run body f l : ∀ fuel pv v (s : kernel F),
  (∀ p x s, procs s !! p = Some x → body p s = Ret (tt, set_procs (<[p := f p x]> (procs s)) s)) →
  (∀ p x, p_next (f p x) = p_next x) →
  pseg (t_procs (table_of s)) pv v l 0 → NoDup l → (length l ≤ fuel)%nat →
  for_procs fuel v body s = Ret (tt, set_procs (visit f l (procs s)) s).
Proof.
  induction l as [|a l IH]; intros fuel pv v s Hb Hf Hl Hn Hfu.
  { cbn in Hl. subst v. destruct fuel; by destruct s. }
  destruct fuel as [|fuel]; [cbn in Hfu; lia|]. destruct Hl as (-> & Ha & c & Hc & _ & Hl).
  cbn in Hc. rewrite lookup_fmap in Hc. destruct (procs s !! a) as [x|] eqn:Hx; [|done].
  injection Hc as <-. apply NoDup_cons in Hn as [Hal Hn]. cbn [for_procs].
  rewrite (proj2 (Z.eqb_neq a 0)) by done. mstep (Hb a x s Hx). set (s1 := set_procs _ s).
  mstep (get_proc_run s1 a (f a x) (lookup_insert_eq _ _ _)). rewrite Hf.
  rewrite (IH fuel a (p_next x) s1); [| done | done | | done | cbn in Hfu; lia].
  - replace (visit f l (procs s1)) with (visit f (a :: l) (procs s)); [reflexivity|].
    change (visit f l (alter (f a) a (procs s)) = visit f l (<[a := f a x]> (procs s))).
    f_equal. apply map_eq. intros q.
    destruct (decide (q = a)) as [->|]; [by rewrite lookup_insert_eq, lookup_alter_eq, Hx|].
    by rewrite lookup_insert_ne, lookup_alter_ne.
  - eapply pseg_eq; [|exact Hl]. intros q Hq. unfold s1. cbn. rewrite fmap_insert.
    apply lookup_insert_ne. by intros ->.
Qed.

Lemma upd_proc_same p x (s : kernel F) :
  procs s !! p = Some x → Ret (tt, s) = Ret (tt, set_procs (<[p := x]> (procs s)) s).
Proof. intros Hp. rewrite insert_id by done. by destruct s. Qed.

(** ** [wakeup] and [kill] *)

(** What [wakeup(chan)] makes of a process. *)
Definition woken_by (chan cur p : Z) (x : proc) : proc :=
  if decide (p ≠ cur ∧ p_state x = SLEEPING ∧ p_chan x = chan) then set_p_state RUNNABLE x else x.

(** C13: In a reachable state [wakeup(chan)] returns, having made runnable exactly the
    processes asleep on the channel other than the caller; nothing else of any process, of
    the list, of memory or of the file system changes. *)
Theorem wakeup_spec (s : kernel F) l chan :
  reachable (s, l) → cpu_ok s →
  ∃ m, wakeup chan s = Ret (tt, set_procs m (peeked s)) ∧
    ∀ p, m !! p = woken_by chan (cur s) p <$> procs s !! p.
Proof.
  intros Hre Hc. pose proof (sched_reachable_inv _ Hre) as [Hwf _]. cbn [fst] in Hwf.
  destruct (wf_list _ Hwf) as (L & HL & Hn & Hd).
  exists (visit (woken_by chan (cur s)) L (procs s)). split.
  - unfold wakeup. mstep (myproc_run s Hc). unfold each_proc.
    mstep (eq_refl : gets proc_fuel (peeked s) = Ret (proc_fuel s, peeked s)).
    mstep (eq_refl : gets proc_list (peeked s) = Ret (proc_list s, peeked s)).
    refine (for_procs_run _ (woken_by chan (cur s)) L _ _ _ (peeked s) _ _ HL Hn _).
    + intros p x s1 Hx. unfold woken_by. destruct (Z.eqb_spec p (cur s)) as [->|Hp]; cbn [negb mwhen].
      { rewrite decide_False by tauto. by apply upd_proc_same. }
      mstep (get_proc_run s1 p x Hx). case_decide as Hw.
      * destruct Hw as (_ & Hs & <-). rewrite bool_decide_eq_true_2, Z.eqb_refl by done.
        by apply upd_proc_run.
      * destruct (bool_decide (p_state x = SLEEPING) && (p_chan x =? chan)) eqn:E.
        -- apply andb_true_iff in E as [E1%bool_decide_eq_true E2%Z.eqb_eq]. tauto.
        -- by apply upd_proc_same.
    + intros p x. unfold woken_by. by case_decide.
    + unfold proc_fuel. rewrite (wf_length s L) by done. lia.
  - intros p. rewrite visit_lookup by done. case_decide as Hp; [done|].
    destruct (procs s !! p) as [x|] eqn:Hx; [|done]. exfalso. apply Hp, Hd.
    rewrite (table_lookup _ _ _ Hx). eauto.
Qed.

Definition killed_proc (x : proc) : proc :=
  set_p_state (if bool_decide (p_state x = SLEEPING) then RUNNABLE else p_state x)
    (set_p_killed true x).

Lemma kill_loop_run pid (s : kernel F) l : ∀ fuel pv v,
  pseg (t_procs (table_of s)) pv v l 0 → (length l ≤ fuel)%nat →
  (∃ p x, procs s !! p = Some x ∧ p_pid x = pid ∧
     kill_loop fuel v pid s = Ret (0, set_procs (<[p := killed_proc x]> (procs s)) s)) ∨
  (∀ p x, p ∈ l → procs s !! p = Some x → p_pid x ≠ pid) ∧ kill_loop fuel v pid s = Ret (-1, s).
Proof.
  induction l as [|a l IH]; intros fuel pv v Hl Hf.
  { right. cbn in Hl. subst v. split; [by intros p x []%elem_of_nil|by destruct fuel]. }
  destruct fuel as [|fuel]; [cbn in Hf; lia|]. destruct Hl as (-> & Ha & c & Hc & _ & Hl).
  cbn in Hc. rewrite lookup_fmap in Hc. destruct (procs s !! a) as [x|] eqn:Hx; [|done].
  injection Hc as <-. cbn [kill_loop]. rewrite (proj2 (Z.eqb_neq a 0)) by done.
  rewrite (mbind_Ret _ _ _ _ _ (get_proc_run s a x Hx)). cbv beta.
  destruct (Z.eqb_spec (p_pid x) pid) as [Hp|Hp].
  - left. exists a, x. split_and!; [done..|]. mstep (upd_proc_run s a x (set_p_killed true) Hx).
    erewrite mbind_Ret by (apply upd_proc_run, lookup_insert_eq).
    unfold killed_proc. cbn. rewrite insert_insert_eq. reflexivity.
  - destruct (IH fuel _ _ Hl) as [?|[Hno E]]; [cbn in Hf; lia|by left|right]. split; [|done].
    intros q y [->|Hq]%elem_of_cons Hy; [congruence|by eapply Hno].
Qed.

(** In a reachable state [kill(pid)] marks the one process with that number and wakes it
    if it sleeps, changes nothing else and returns 0; without such a process it returns -1
    and changes nothing. *)
Theorem kill_spec (s : kernel F) l pid :
  reachable (s, l) →
  (∀ p x, procs s !! p = Some x → p_pid x = pid →
     kill pid s = Ret (0, set_procs (<[p := killed_proc x]> (procs s)) s)) ∧
  ((∀ p x, procs s !! p = Some x → p_pid x ≠ pid) → kill pid s = Ret (-1, s)).
Proof.
  intros Hre. pose proof (sched_reachable_inv _ Hre) as [Hwf _]. cbn [fst] in Hwf.
  destruct (wf_list _ Hwf) as (L & HL & Hn & Hd).
  assert (Hk : ∀ r, kill_loop (proc_fuel s) (proc_list s) pid s = r → kill pid s = r).
  { intros r E. unfold kill. mstep (eq_refl : gets proc_fuel s = Ret (proc_fuel s, s)).
    by mstep (eq_refl : gets proc_list s = Ret (proc_list s, s)). }
  destruct (kill_loop_run pid s L (proc_fuel s) _ _ HL) as [(p & x & Hp & Hpid & E)|[Hno E]].
  { unfold proc_fuel. rewrite (wf_length s L) by done. lia. }
  - split; [|intros Hno; by destruct (Hno p x)]. intros q y Hq Hy. apply Hk.
    assert (q = p) as ->; [|by simplify_eq].
    eapply (wf_pid_inj _ Hwf); [by apply table_lookup..|]. cbn. congruence.
  - split; [|by intros _; apply Hk]. intros p x Hp Hx. exfalso. apply (Hno p x); [|done..].
    apply Hd. rewrite (table_lookup _ _ _ Hp). eauto.
Qed.

(** ** Blocking and interrupts *)

Lemma peeked_cpu (s : kernel F) c :
  cpus (venv (kfs s)) !! 0%nat = Some c →
  cpus (venv (kfs (peeked s))) !! 0%nat = Some (touch_cpu c).
Proof.
  intros Hc. unfold peeked, touched, on_cpu0. cbn. by destruct (cpus (venv (kfs s))); simplify_eq/=.
Qed.

Lemma intr_get_run (s : kernel F) c :
  cpus (venv (kfs s)) !! 0%nat = Some c → on_fs intr_get s = Ret (intr c, s).
Proof.
  intros Hc. unfold on_fs, intr_get, zoom, mtry. munfold. cbn. rewrite Hc. cbn. by destruct s.
Qed.

(** [sched], called by a process that is no longer running. *)
Lemma sched_run from (s : kernel F) c x :
  cpu_ok s → cpus (venv (kfs s)) !! 0%nat = Some c → procs s !! cur s = Some x →
  p_state x ≠ RUNNING →
  sched from s =
    if intr c then Panic
    else Ret (tt, set_procs (<[cur s := set_p_context (InSched (intena (touch_cpu c)) from) x]>
           (procs s)) (peeked s)).
Proof.
  intros Hok Hc Hx Hst. unfold sched. mstep (myproc_run s Hok).
  mstep (get_proc_run (peeked s) (cur s) x Hx). rewrite bool_decide_eq_false_2 by done.
  mstep (eq_refl : (massert true : M (kernel F) unit) (peeked s) = Ret (tt, peeked s)).
  mstep (intr_get_run (peeked s) _ (peeked_cpu s c Hc)).
  change (intr (touch_cpu c)) with (intr c). destruct (intr c) eqn:Ei; [reflexivity|].
  mstep (eq_refl : (massert (negb false) : M (kernel F) unit) (peeked s) = Ret (tt, peeked s)).
  assert (E : mtry (λ s : kernel F, cpus (venv (kfs s)) !! 0%nat) (peeked s) =
    Ret (touch_cpu c, peeked s)) by (unfold mtry; by rewrite (peeked_cpu s c Hc)).
  mstep E. by rewrite (upd_proc_run _ _ x).
Qed.

(** A process that stopped running in [st] to wait on [chan], as [sched] leaves it. *)
Definition stopped (st : proc_state) (chan : Z) (due : Z) (i : bool) (from : caller) (x : proc) : proc :=
  set_p_context (InSched i from) (set_p_sleeping_due due (set_p_state st (set_p_chan chan x))).

Section blocking.
Context (s : kernel F) (c : cpu) (x : proc).
Hypothesis Hok : cpu_ok s.
Hypothesis Hc : cpus (venv (kfs s)) !! 0%nat = Some c.
Hypothesis Hx : procs s !! cur s = Some x.

Lemma sleep_run chan : ∃ i, sleep chan s = if intr c then Panic else Ret (tt, set_procs (<[cur s :=
  stopped SLEEPING chan (p_sleeping_due x) i (FromSleep false) x]> (procs s)) (peeked (peeked s))).
Proof.
  pose proof (peeked_ok s Hok) as Hok1. pose proof (peeked_cpu s c Hc) as Hc1.
  eexists. unfold sleep. mstep (myproc_run s Hok).
  mstep (upd_proc_run (peeked s) (cur s) x (set_p_chan chan) Hx).
  erewrite mbind_Ret by (apply upd_proc_run, lookup_insert_eq). cbv beta.
  set (s2 := set_procs _ _). mstep (intr_get_run s2 (touch_cpu c) Hc1).
  change (intr (touch_cpu c)) with (intr c).
  rewrite (sched_run _ s2 (touch_cpu c) (set_p_state SLEEPING (set_p_chan chan x)));
    [|exact Hok1|exact Hc1|apply lookup_insert_eq|done].
  change (intr (touch_cpu c)) with (intr c). destruct (intr c); [done|].
  cbn. rewrite !insert_insert_eq. reflexivity.
Qed.

Lemma yield_run : ∃ i, yield s = if intr c then Panic else Ret (tt, set_procs (<[cur s :=
  stopped RUNNABLE (p_chan x) (p_sleeping_due x) i FromYield x]> (procs s)) (peeked (peeked s))).
Proof.
  pose proof (peeked_ok s Hok) as Hok1. pose proof (peeked_cpu s c Hc) as Hc1.
  eexists. unfold yield. mstep (myproc_run s Hok).
  mstep (upd_proc_run (peeked s) (cur s) x (set_p_state RUNNABLE) Hx).
  rewrite (sched_run _ _ (touch_cpu c) (set_p_state RUNNABLE x));
    [|exact Hok1|exact Hc1|apply lookup_insert_eq|done].
  change (intr (touch_cpu c)) with (intr c). destruct (intr c); [done|].
  cbn. rewrite !insert_insert_eq. destruct x. reflexivity.
Qed.

Lemma nanosleep_run sec nsec n :
  cur s ≠ 0 → sleep_ticks sec nsec = Some n → 0 < n → ∃ i, sys_nanosleep sec nsec s =
    if intr c then Panic else Ret (None, set_procs (<[cur s :=
      stopped SLEEPING (p_chan x) (i64 (tick_counter s + n)) i FromNanosleep x]> (procs s))
      (peeked (peeked s))).
Proof.
  pose proof (peeked_ok s Hok) as Hok1. pose proof (peeked_cpu s c Hc) as Hc1. intros Hcur En Hn.
  eexists. unfold sys_nanosleep. rewrite En. mstep (myproc_run s Hok).
  rewrite (proj2 (Z.eqb_neq (cur s) 0)) by done. rewrite (proj2 (Z.eqb_neq n 0)) by lia.
  mstep (eq_refl : gets tick_counter (peeked s) = Ret (tick_counter s, peeked s)).
  mstep (upd_proc_run (peeked s) (cur s) x (set_p_state SLEEPING) Hx).
  erewrite mbind_Ret by (apply upd_proc_run, lookup_insert_eq). cbv beta.
  set (s2 := set_procs _ _). set (y := set_p_sleeping_due _ _) in s2.
  unfold mbind at 1, M_bind.
  rewrite (sched_run _ s2 (touch_cpu c) y); [|exact Hok1|exact Hc1|apply lookup_insert_eq|done].
  change (intr (touch_cpu c)) with (intr c). destruct (intr c); [done|].
  cbn. rewrite !insert_insert_eq. destruct x. reflexivity.
Qed.
End blocking.

(** [sleep], [yield] and a [nanosleep] of at least one tick fail the assertion of [sched]
    when they are called with interrupts enabled, as system calls are; with interrupts
    disabled they return to the scheduler, having changed the state, the channel or the
    wake-up time and the saved context of the calling process and nothing else of it. *)
Theorem blocking_needs_interrupts_off (s : kernel F) c x :
  cpu_ok s → cpus (venv (kfs s)) !! 0%nat = Some c → cur s ≠ 0 → procs s !! cur s = Some x →
  (intr c = true →
     (∀ chan, sleep chan s = Panic) ∧ yield s = Panic ∧
     ∀ sec nsec n, sleep_ticks sec nsec = Some n → 0 < n → sys_nanosleep sec nsec s = Panic) ∧
  (intr c = false →
     (∀ chan, ∃ k i, sleep chan s = Ret (tt, set_kfs k (set_procs (<[cur s :=
        stopped SLEEPING chan (p_sleeping_due x) i (FromSleep false) x]> (procs s)) s))) ∧
     (∃ k i, yield s = Ret (tt, set_kfs k (set_procs (<[cur s :=
        stopped RUNNABLE (p_chan x) (p_sleeping_due x) i FromYield x]> (procs s)) s))) ∧
     ∀ sec nsec n, sleep_ticks sec nsec = Some n → 0 < n →
       ∃ k i, sys_nanosleep sec nsec s = Ret (None, set_kfs k (set_procs (<[cur s :=
         stopped SLEEPING (p_chan x) (i64 (tick_counter s + n)) i FromNanosleep x]> (procs s)) s))).
Proof.
  intros Hok Hc Hcur Hx. split; intros Ei.
  all: assert (Hs := λ chan, sleep_run s c x Hok Hc Hx chan); rewrite Ei in Hs.
  all: assert (Hy := yield_run s c x Hok Hc Hx); rewrite Ei in Hy.
  all: assert (Hn := λ sec nsec n, nanosleep_run s c x Hok Hc Hx sec nsec n Hcur); rewrite Ei in Hn.
  all: split_and!.
  - intros chan. by destruct (Hs chan).
  - by destruct Hy.
  - intros sec nsec n E1 E2. by destruct (Hn _ _ _ E1 E2).
  - intros chan. destruct (Hs chan) as [i E]. eexists _, i. exact E.
  - destruct Hy as [i E]. eexists _, i. exact E.
  - intros sec nsec n E1 E2. destruct (Hn _ _ _ E1 E2) as [i E]. eexists _, i. exact E.
Qed.

(** ** Bounds *)

(** Below 2^53 seconds, where the milliseconds fit a long, a time is refused, as [None],
    only when a part is negative or there are a billion nanoseconds or more; otherwise
    [nanosleep] asks for the least number of ticks of ten milliseconds that lasts as long. *)
Theorem sleep_ticks_spec (sec nsec : Z) :
  -2 ^ 63 ≤ sec < 2 ^ 53 → -2 ^ 63 ≤ nsec < 2 ^ 63 →
  match sleep_ticks sec nsec with
  | None => sec < 0 ∨ nsec < 0 ∨ 10 ^ 9 ≤ nsec
  | Some n => 0 ≤ sec ∧ 0 ≤ nsec < 10 ^ 9 ∧
      (n - 1) * (MS_PER_TICK * 10 ^ 6) < sec * 10 ^ 9 + nsec ≤ n * (MS_PER_TICK * 10 ^ 6)
  end.
Proof.
  intros Hs Hn. unfold sleep_ticks, MS_PER_TICK, TICK_HZ. change (1000 / 100) with 10.
  destruct (Z.ltb_spec sec 0); [by left|]. destruct (Z.ltb_spec nsec 0); [by right; left|].
  destruct (Z.ltb_spec 999999999 nsec); cbn [orb]; [lia|].
  assert (E : ∀ z, 0 ≤ z < 2 ^ 63 → i64 z = z) by (intros; unfold i64; rewrite Z.mod_small; lia).
  pose proof (Z.div_mod nsec 1000000 ltac:(lia)) as Hq.
  pose proof (Z.mod_pos_bound nsec 1000000 ltac:(lia)) as Hr.
  set (q := nsec / 1000000) in *. set (r := nsec mod 1000000) in *.
  assert (Hqb : 0 ≤ q < 1000) by lia. rewrite !(E (sec * 1000 + q)) by lia.
  destruct (Z.eqb_spec r 0) as [Er|Er]; cbn [negb]; [|rewrite (E (sec * 1000 + q + 1)) by lia].
  - destruct (Z.ltb_spec (sec * 1000 + q) 0); [lia|].
    destruct (Z.eqb_spec (sec * 1000 + q) 0); [lia|].
    pose proof (Z.div_mod (sec * 1000 + q - 1) 10 ltac:(lia)).
    pose proof (Z.mod_pos_bound (sec * 1000 + q - 1) 10 ltac:(lia)). lia.
  - destruct (Z.ltb_spec (sec * 1000 + q + 1) 0); [lia|].
    destruct (Z.eqb_spec (sec * 1000 + q + 1) 0); [lia|].
    pose proof (Z.div_mod (sec * 1000 + q + 1 - 1) 10 ltac:(lia)).
    pose proof (Z.mod_pos_bound (sec * 1000 + q + 1 - 1) 10 ltac:(lia)). lia.
Qed.

(** Different process numbers have disjoint kernel stacks with a page between them, below
    the trapframe and above physical memory, up to thirteen million processes. *)
Lemma kernel_stacks_disjoint m n :
  0 < m < n → n ≤ 13000000 →
  KSTACK n + KSTACK_SIZE + PGSIZE ≤ KSTACK m ∧ KSTACK m + KSTACK_SIZE + PGSIZE ≤ TRAPFRAME ∧
  PHYSTOP ≤ KSTACK n.
Proof.
  intros Hm Hn. unfold KSTACK, TRAPFRAME, TRAMPOLINE, MAXVA, KSTACK_SIZE, PGSIZE, PHYSTOP.
  rewrite !u64_small by lia. lia.
Qed.
End calls.

(** ** The theorems on the booted kernel *)

Section demo.
#[local] Existing Instance demo_env.
#[local] Existing Instance demo_vm_env.
#[local] Existing Instance demo_sys_env.
#[local] Existing Instance demo_proc_env.

Lemma demo_cpu (s : kernel unit) :
  match cpus (venv (kfs s)) !! 0%nat with
  | Some c => (noff c =? 0) | None => false end = true → cpu_ok s.
Proof.
  intros E. destruct (cpus (venv (kfs s)) !! 0%nat) as [c|] eqn:Hc; [|discriminate E].
  apply Z.eqb_eq in E. exists c. rewrite E. split; [exact Hc|]. split; [lia|]. intros Hn. lia.
Qed.

Lemma wakeup_spec_witness :
  ∃ m, wakeup 0x700 returned = Ret (tt, set_procs m (peeked returned)) ∧
    ∀ p, m !! p = woken_by 0x700 (cur returned) p <$> procs returned !! p.
Proof.
  apply (wakeup_spec returned (AtSched 0) 0x700 returned_reachable).
  apply demo_cpu. vm_compute. reflexivity.
Defined.

Definition demo_first : proc := default zero_proc (procs returned !! first).

Lemma kill_spec_witness :
  kill 1 returned = Ret (0, set_procs (<[first := killed_proc demo_first]> (procs returned)) returned) ∧
  kill 7 returned = Ret (-1, returned).
Proof.
  split.
  - refine (proj1 (kill_spec returned (AtSched 0) 1 returned_reachable) first demo_first _ _).
    + vm_compute. reflexivity.
    + vm_compute. reflexivity.
  - refine (proj2 (kill_spec returned (AtSched 0) 7 returned_reachable) _).
    assert (Hf : bool_decide (map_Forall (λ (_ : Z) x, p_pid x ≠ 7) (procs returned)) = true)
      by (vm_compute; reflexivity).
    exact (bool_decide_eq_true_1 _ Hf).
Defined.

Definition cpu0 (s : kernel unit) : cpu := default (Cpu 0 false false) (cpus (venv (kfs s)) !! 0%nat).
Definition demo_picked : proc := default zero_proc (procs picked !! first).
Definition demo_forked : proc := default zero_proc (procs forked !! first).

Lemma blocking_needs_interrupts_off_witness :
  sleep first picked = Panic ∧
  ∃ k i, sleep first forked = Ret (tt, set_kfs k (set_procs (<[first :=
    stopped SLEEPING first (p_sleeping_due demo_forked) i (FromSleep false) demo_forked]>
      (procs forked)) forked)).
Proof.
  split.
  - refine (proj1 (proj1 (blocking_needs_interrupts_off picked (cpu0 picked) demo_picked _ _ _ _) _) first).
    + apply demo_cpu. vm_compute. reflexivity.
    + vm_compute. reflexivity.
    + vm_compute. discriminate.
    + vm_compute. reflexivity.
    + vm_compute. reflexivity.
  - refine (proj1 (proj2 (blocking_needs_interrupts_off forked (cpu0 forked) demo_forked _ _ _ _) _) first).
    + apply demo_cpu. vm_compute. reflexivity.
    + vm_compute. reflexivity.
    + vm_compute. discriminate.
    + vm_compute. reflexivity.
    + vm_compute. reflexivity.
Defined.

Lemma sleep_ticks_spec_witness : (16 - 1) * (MS_PER_TICK * 10 ^ 6) < 150000001 ≤ 16 * (MS_PER_TICK * 10 ^ 6).
Proof.
  refine (proj2 (proj2 (sleep_ticks_spec 0 150000001 _ _))); lia.
Defined.
End demo.
