(* ===== verification/Exec.v ===== *)
(** * Program loading: [execve]

    Models [sys_execve] of [kernel/proc/sys_proc.c] with the file layouts of
    [kernel/include/elf.h]: the loader of the program's segments, the loader of the dynamic
    linker, and the construction of the new user stack.  The local variables of the call are
    memory like any other, at the addresses of [ExecFrame], so what a read past one of them
    overwrites, and what an array holds that nothing wrote, is what memory says. *)

From S2P Require Export Proc.

Definition ELF_MAGIC : Z := 0x464C457F.
Definition PT_LOAD : Z := 1.
Definition PT_INTERP : Z := 3.
Definition AT_NULL : Z := 0.
Definition AT_PHDR : Z := 3.
Definition AT_PHENT : Z := 4.
Definition AT_PHNUM : Z := 5.
Definition AT_BASE : Z := 7.
Definition AT_ENTRY : Z := 9.
Definition sizeof_Ehdr : Z := 64.
Definition sizeof_Phdr : Z := 56.
Definition sizeof_vm_area : Z := 64.
Definition MAX_ARGS : Z := 32.
Definition MAX_ARG_STRLEN : Z := 128.
Definition PATH_MAX : Z := 128.

(** [ALIGN(size, 8)] on an [int]. *)
Definition ALIGN8 (x : Z) : Z := Z.land (x + 7) (Z.lnot 7).

(** ** Bytes of memory *)

(** A little-endian load of [n] bytes. *)
Fixpoint ld_le (n : nat) (a : Z) : M bytes Z :=
  match n with
  | O => mret 0
  | S n => x ← ld a; y ← ld_le n (a + 1); mret (x + 256 * y)
  end.

(** A string that begins at [a]; memory is finite, so the fuel is its size. *)
Fixpoint ld_str (fuel : nat) (a : Z) : M bytes str :=
  match fuel with
  | O => mspin
  | S fuel => x ← ld a; if x =? 0 then mret [] else l ← ld_str fuel (a + 1); mret (x :: l)
  end.
Definition mem_fuel (m : bytes) : nat := S (base.size m).

(** The at most [n] bytes of memory that there are from [a], and their store. *)
Fixpoint bytes_at (n : nat) (a : Z) (m : bytes) : list Z :=
  match n with
  | O => []
  | S n => match m !! a with Some x => x :: bytes_at n (a + 1) m | None => [] end
  end.
Fixpoint st_bytes (a : Z) (l : list Z) : M bytes unit :=
  match l with
  | [] => mret tt
  | x :: l => st a x;; st_bytes (a + 1) l
  end.

(** ** The fields of [Elf64_Ehdr] and [Elf64_Phdr] *)

Definition e_ident_word (elf : Z) : M bytes Z := ld_le 4 elf.
Definition e_entry (elf : Z) : M bytes Z := ld_le 8 (elf + 24).
Definition e_phoff (elf : Z) : M bytes Z := ld_le 8 (elf + 32).
Definition e_phnum (elf : Z) : M bytes Z := ld_le 2 (elf + 56).
Definition p_type (ph : Z) : M bytes Z := ld_le 4 ph.
Definition p_offset (ph : Z) : M bytes Z := ld_le 8 (ph + 8).
Definition p_vaddr (ph : Z) : M bytes Z := ld_le 8 (ph + 16).
Definition p_filesz (ph : Z) : M bytes Z := ld_le 8 (ph + 32).
Definition p_memsz (ph : Z) : M bytes Z := ld_le 8 (ph + 40).

(** Where the compiler put the local variables. *)
Class ExecFrame := {
  loc_argv : Z;
  loc_envp : Z;
  loc_interp_path : Z;
  loc_path : Z;
  loc_elf : Z;
  loc_phdr : Z;
  loc_ld_elf : Z
}.

(** ** Arguments and environment

    All of this works on user memory and on the page of the new stack, [ustack_p] in the
    kernel's address space, whose end is the user address [stack_top]. *)

Section stack.
Context `{VmEnv} `{ExecFrame}.

(** [&ustack_p[PGSIZE - (stack_top - sp)]] *)
Definition stack_slot (ustack_p stack_top sp : Z) : Z := u64 (ustack_p + (PGSIZE - (stack_top - sp))).

(** [for (argc = 0; argv[argc]; argc++);] *)
Fixpoint count_args (fuel : nat) (arr argc : Z) : M bytes Z :=
  match fuel with
  | O => mspin
  | S fuel =>
      x ← ld_le 8 (arr + 8 * argc);
      if x =? 0 then mret argc else count_args fuel arr (argc + 1)
  end.

(** The loop that copies the strings to [mem] and leaves the offset of each in the array its
    pointer was in; [None] is the failed copy, after [kfree]. *)
Fixpoint copy_strings (n : nat) (old_pgtbl arr mem i nbytes : Z) : M vm (option Z) :=
  match n with
  | O => mret (Some nbytes)
  | S n =>
      u ← on_pmem (ld_le 8 (arr + 8 * i));
      r ← copyinstr old_pgtbl (mem + nbytes) u MAX_ARG_STRLEN;
      let size := i32 r in
      if size <? 0 then kfree mem;; mret None
      else
        let size := ALIGN8 size in
        on_pmem (st_le 8 (arr + 8 * i) nbytes);;
        copy_strings n old_pgtbl arr mem (i + 1) (u64 (nbytes + size))
  end.

(** The environment: its count, the stack pointer below its strings and their start. *)
Definition push_env (old_pgtbl uenvp ustack_p stack_top sp : Z) : M vm (option (Z * Z)) :=
  copyin old_pgtbl loc_envp uenvp (MAX_ARGS * 8);;
  fuel ← gets (λ s, mem_fuel (pmem s));
  envc ← on_pmem (count_args fuel loc_envp 0);
  envp_mem ← kalloc_bytes (envc * MAX_ARG_STRLEN);
  r ← copy_strings (Z.to_nat envc) old_pgtbl loc_envp envp_mem 0 0;
  match r with
  | None => mret None
  | Some nbytes =>
      on_pmem (memmove (u64 (ustack_p + (PGSIZE - (stack_top - sp) - nbytes))) envp_mem
                       (Z.to_nat nbytes));;
      kfree envp_mem;;
      mret (Some (envc, u64 (sp - nbytes)))
  end.

(** The arguments, the same way. *)
Definition push_args (old_pgtbl uargv ustack_p stack_top sp : Z) : M vm (option (Z * Z)) :=
  copyin old_pgtbl loc_argv uargv (MAX_ARGS * 8);;
  fuel ← gets (λ s, mem_fuel (pmem s));
  argc ← on_pmem (count_args fuel loc_argv 0);
  argv_mem ← kalloc_bytes (argc * MAX_ARG_STRLEN);
  r ← copy_strings (Z.to_nat argc) old_pgtbl loc_argv argv_mem 0 0;
  match r with
  | None => mret None
  | Some nbytes =>
      let sp := u64 (sp - nbytes) in
      on_pmem (memmove (stack_slot ustack_p stack_top sp) argv_mem (Z.to_nat nbytes));;
      kfree argv_mem;;
      mret (Some (argc, sp))
  end.

(** [for (int i = n - 1; i >= 0; i--)]: a pointer to each string. *)
Fixpoint push_pointers (n : nat) (arr p_str ustack_p stack_top sp : Z) : M bytes Z :=
  match n with
  | O => mret sp
  | S i =>
      let sp := u64 (sp - 8) in
      off ← ld_le 8 (arr + 8 * Z.of_nat i);
      st_le 8 (stack_slot ustack_p stack_top sp) (p_str + off);;
      push_pointers i arr p_str ustack_p stack_top sp
  end.

(** The auxiliary vector, in the order of its initialiser. *)
Definition auxv (phoff phnum entry ld_base : Z) : list (Z * Z) :=
  [(AT_PHDR, phoff); (AT_PHENT, sizeof_Phdr); (AT_PHNUM, phnum); (AT_ENTRY, entry);
   (AT_BASE, ld_base); (AT_NULL, 0)].
Fixpoint push_auxv (l : list (Z * Z)) (a : Z) : M bytes unit :=
  match l with
  | [] => mret tt
  | (t, v) :: l => st_le 8 a t;; st_le 8 (a + 8) v;; push_auxv l (a + 16)
  end.

(** From the strings to [argc]: the result is [argc], [p_argv], [p_envp] and the stack
    pointer; [None] is the jump to [execve_bad]. *)
Definition build_stack (old_pgtbl uargv uenvp ustack_p stack_top : Z) (aux : list (Z * Z)) :
    M vm (option (Z * Z * Z * Z)) :=
  let slot := stack_slot ustack_p stack_top in
  let leave_space := 128 in
  let sp := u64 (stack_top - leave_space) in
  on_pmem (memset (ustack_p + (PGSIZE - leave_space)) 0 (Z.to_nat leave_space));;
  env ← (if ctrue uenvp then push_env old_pgtbl uenvp ustack_p stack_top sp
         else mret (Some (0, sp)));
  match env with
  | None => mret None
  | Some (envc, sp) =>
      let p_envp_str := sp in
      arg ← (if ctrue uargv then push_args old_pgtbl uargv ustack_p stack_top sp
             else mret (Some (0, sp)));
      match arg with
      | None => mret None
      | Some (argc, sp) =>
          let p_argv_str := sp in
          let sp := u64 (sp - 16 * zlen aux) in
          on_pmem (push_auxv aux (slot sp));;
          let sp := u64 (sp - 8) in
          sp ← (if ctrue uenvp then
                  on_pmem (push_pointers (Z.to_nat envc) loc_envp p_envp_str ustack_p stack_top
                    (u64 (sp - 8)))
                else mret sp);
          let p_envp := if ctrue uenvp then sp else 0 in
          sp ← (if ctrue uargv then
                  on_pmem (push_pointers (Z.to_nat argc) loc_argv p_argv_str ustack_p stack_top
                    (u64 (sp - 8)))
                else mret sp);
          let p_argv := if ctrue uargv then sp else 0 in
          let sp := u64 (sp - 8) in
          on_pmem (st_le 8 (slot sp) argc);;
          mret (Some (argc, p_argv, p_envp, sp))
      end
  end.
End stack.

(** ** The loader *)

Section execve.
Context {F : Type} `{SysEnv F} `{VmEnv} `{ProcEnv} `{ExecFrame}.

Definition on_bytes {A} (m : M bytes A) : M (kernel F) A := on_vm (on_pmem m).

(** [kernel_read] into memory: the file is lent the bytes from [dst] on as its buffer. *)
Definition kernel_read_mem (file dst size : Z) : M (kernel F) Z :=
  old ← on_bytes (gets (bytes_at (Z.to_nat size) dst));
  on_fs (modify (λ s, set_bufs (<[dst := old]> (bufs s)) s));;
  r ← on_fs (kernel_read file dst size);
  new ← on_fs (get_bufd dst);
  on_fs (modify (λ s, set_bufs (delete dst (bufs s)) s));;
  on_bytes (st_bytes dst new);;
  mret r.

(** [myproc()->fdt], as the files see it. *)
Definition set_myfdt (x : Z) (s : vfs F) : vfs F :=
  Vfs (venv s) (files s) (inodes s) (tables s) (bufs s) (mp_list s) (mps s) (avail s) (cwd s)
    x (fsd s).

(** [kernel_open] in the directory of the caller. *)
Definition kernel_open_here (path : str) : M (kernel F) Z :=
  p ← myproc; x ← get_proc p;
  d ← mtry (λ s, cwds s !! p_cwd x);
  on_fs (modify (λ s, set_myfdt (p_fdt x) (set_cwd d s)));;
  on_fs (kernel_open path).

Definition set_v_prot x a :=
  set_a_vma (VmArea (v_start (a_vma a)) (v_end (a_vma a)) x (v_flags (a_vma a))
    (v_file (a_vma a)) (v_offset (a_vma a))) a.

(** A [PT_LOAD] segment whose header is in [phdr]: the new [sz], or [None] for a failed
    [LOADER_CHECK].  [vma[vma_pt]] is an area only if one lies there. *)
Definition load_segment (file pgtbl p vma sz vma_pt : Z) : M (kernel F) (option Z) :=
  memsz ← on_bytes (p_memsz loc_phdr);
  filesz ← on_bytes (p_filesz loc_phdr);
  vaddr ← on_bytes (p_vaddr loc_phdr);
  if memsz <? filesz then mret None
  else if u64 (vaddr + memsz) <? vaddr then mret None
  else
    let perms := Z.lor PTE_U PTE_RWX in
    let load_start := PGROUNDDOWN vaddr in
    let load_end := PGROUNDUP (vaddr + memsz - 1) in
    let load_off := u64 (vaddr - load_start) in
    mem ← on_vm (kalloc_bytes (u64 (load_end - load_start)));
    on_vm (mappages pgtbl vaddr mem memsz perms);;
    let sz := MAX sz load_end in
    let v := vma + sizeof_vm_area * vma_pt in
    upd_area v (set_v_start load_start);;
    upd_area v (set_v_end load_end);;
    upd_area v (set_v_prot perms);;
    x ← get_proc p;
    upd_area v (set_a_next (p_vma_list x));;
    upd_proc p (set_p_vma_list v);;
    offset ← on_bytes (p_offset loc_phdr);
    on_fs (kernel_lseek file (i64 offset) SEEK_SET);;
    kernel_read_mem file (mem + load_off) filesz;;
    mret (Some sz).

(** The name of the dynamic linker, from a [PT_INTERP] header. *)
Definition load_interp (file : Z) : M (kernel F) unit :=
  offset ← on_bytes (p_offset loc_phdr);
  on_fs (kernel_lseek file (i64 offset) SEEK_SET);;
  filesz ← on_bytes (p_filesz loc_phdr);
  kernel_read_mem file loc_interp_path (u64 (filesz + 1));;
  filesz ← on_bytes (p_filesz loc_phdr);
  on_bytes (st (u64 (loc_interp_path + filesz)) 0).

(** The loop over the program headers: [inl sz] jumps to [execve_bad]; at its end,
    [sz], [vma_pt] and [has_interp].  The count is read again at every turn and has 16
    bits, which bounds the turns. *)
Fixpoint load_segments (fuel : nat) (file pgtbl p vma i off sz vma_pt : Z) (has_interp : bool) :
    M (kernel F) (Z + Z * Z * bool) :=
  phnum ← on_bytes (e_phnum loc_elf);
  if phnum <=? i then mret (inr (sz, vma_pt, has_interp))
  else
    match fuel with
    | O => mspin
    | S fuel =>
        on_fs (kernel_lseek file off SEEK_SET);;
        kernel_read_mem file loc_phdr sizeof_Ehdr;;
        ty ← on_bytes (p_type loc_phdr);
        let next := load_segments fuel file pgtbl p vma (i + 1) (i32 (off + sizeof_Phdr)) in
        if ty =? PT_INTERP then load_interp file;; next sz vma_pt true
        else if negb (ty =? PT_LOAD) then next sz vma_pt has_interp
        else
          r ← load_segment file pgtbl p vma sz vma_pt;
          match r with
          | None => mret (inl sz)
          | Some sz => next sz (vma_pt + 1) has_interp
          end
    end.
Definition MAX_PHNUM : nat := Z.to_nat (2 ^ 16).

Definition LD_BASE : Z := 0x700000000000.

(** The same loop for the dynamic linker. *)
Fixpoint load_ld_segments (fuel : nat) (ld_file pgtbl i off : Z) : M (kernel F) unit :=
  phnum ← on_bytes (e_phnum loc_ld_elf);
  if phnum <=? i then mret tt
  else
    match fuel with
    | O => mspin
    | S fuel =>
        on_fs (kernel_lseek ld_file off SEEK_SET);;
        kernel_read_mem ld_file loc_phdr sizeof_Phdr;;
        ty ← on_bytes (p_type loc_phdr);
        mwhen (ty =? PT_LOAD) (
          memsz ← on_bytes (p_memsz loc_phdr);
          vaddr ← on_bytes (p_vaddr loc_phdr);
          mem ← on_vm (kalloc_bytes memsz);
          on_vm (mappages pgtbl (u64 (LD_BASE + vaddr)) mem memsz (Z.lor PTE_U PTE_RWX));;
          offset ← on_bytes (p_offset loc_phdr);
          on_fs (kernel_lseek ld_file (i64 offset) SEEK_SET);;
          filesz ← on_bytes (p_filesz loc_phdr);
          kernel_read_mem ld_file mem filesz;;
          mret tt);;
        load_ld_segments fuel ld_file pgtbl (i + 1) (i32 (off + sizeof_Phdr))
    end.

(** The dynamic linker: its entry point, or [None] for the jump to [execve_bad]. *)
Definition load_ld (pgtbl : Z) : M (kernel F) (option Z) :=
  on_bytes (memset loc_ld_elf 0 (Z.to_nat sizeof_Ehdr));;
  fuel ← gets (λ s, mem_fuel (pmem (kvm s)));
  interp_path ← on_bytes (ld_str fuel loc_interp_path);
  ld_file ← kernel_open_here interp_path;
  if ld_file =? 0 then mret None
  else
    kernel_read_mem ld_file loc_ld_elf sizeof_Ehdr;;
    magic ← on_bytes (e_ident_word loc_ld_elf);
    if negb (magic =? ELF_MAGIC) then mret None
    else
      phoff ← on_bytes (e_phoff loc_ld_elf);
      load_ld_segments MAX_PHNUM ld_file pgtbl 0 (i32 phoff);;
      entry ← on_bytes (e_entry loc_ld_elf);
      on_fs (kernel_close ld_file);;
      mret (Some (u64 (LD_BASE + entry))).

(** The label [execve_bad]. *)
Definition execve_bad (pgtbl sz : Z) : M (kernel F) call_result :=
  mwhen (ctrue pgtbl) (on_vm (uvmfree pgtbl sz);; on_vm (freewalk 1 pgtbl));;
  mret (Done (-1)).

Definition set_a1 (x : Z) (t : trapframe) : trapframe :=
  Trapframe (kernel_satp t) (kernel_sp t) (kernel_trap_fn t) (epc t) (kernel_hartid t) (sp t)
    (tp t) (a0 t) x (a2 t) (a3 t) (a4 t) (a5 t) (a7 t) (others t).
Definition set_a2 (x : Z) (t : trapframe) : trapframe :=
  Trapframe (kernel_satp t) (kernel_sp t) (kernel_trap_fn t) (epc t) (kernel_hartid t) (sp t)
    (tp t) (a0 t) (a1 t) x (a3 t) (a4 t) (a5 t) (a7 t) (others t).
Definition upd_trapframe (p : Z) (f : trapframe → trapframe) : M (kernel F) unit :=
  x ← get_proc p; upd_tf (p_trapframe x) f.

(** After the stack is built: the process gets the new address space. *)
Definition execve_commit (p pgtbl sz argc p_argv p_envp entrypoint sp : Z) :
    M (kernel F) call_result :=
  upd_trapframe p (set_a1 p_argv);;
  upd_trapframe p (set_a2 p_envp);;
  proc_free_pagetable p;;
  u ← on_vm (upgtbl_init pgtbl);
  upd_proc p (set_p_pagetable u);;
  upd_proc p (set_p_sz sz);;
  upd_proc p (set_p_heap_start sz);;
  upd_trapframe p (set_epc (u64 (entrypoint - 4)));;
  upd_trapframe p (set_sp sp);;
  mret (Done argc).

(** From the loaded segments on. *)
Definition execve_stack (p old_pgtbl pgtbl sz uargv uenvp : Z) (has_interp : bool) (ld_entry : Z) :
    M (kernel F) call_result :=
  let sz := u64 (PGROUNDUP sz + PGSIZE) in
  ustack ← on_vm kalloc;
  on_vm (mappages pgtbl sz ustack PGSIZE (Z.lor PTE_U PTE_RW));;
  pte ← on_vm (walk pgtbl sz false);
  e ← on_vm (rd_pte pte);
  let sz := u64 (sz + PGSIZE) in
  phoff ← on_bytes (e_phoff loc_elf);
  phnum ← on_bytes (e_phnum loc_elf);
  entry ← on_bytes (e_entry loc_elf);
  let aux := if has_interp then auxv phoff phnum entry LD_BASE else [] in
  r ← on_vm (build_stack old_pgtbl uargv uenvp (PTE2PA e) sz aux);
  match r with
  | None => execve_bad pgtbl sz
  | Some (argc, p_argv, p_envp, sp) =>
      entry ← on_bytes (e_entry loc_elf);
      execve_commit p pgtbl sz argc p_argv p_envp (if has_interp then ld_entry else entry) sp
  end.

(** The program in an open file. *)
Definition execve_file (p old_pgtbl file uargv uenvp : Z) : M (kernel F) call_result :=
  kernel_read_mem file loc_elf sizeof_Ehdr;;
  magic ← on_bytes (e_ident_word loc_elf);
  if negb (magic =? ELF_MAGIC) then execve_bad 0 0
  else
    on_bytes (memset loc_phdr 0 (Z.to_nat sizeof_Phdr));;
    x ← get_proc p;
    pgtbl ← on_vm (uvmmake (p_trapframe x));
    vma ← kalloc_area junk_area;
    upd_proc p (set_p_vma_list vma);;
    upd_area vma (set_a_next 0);;
    phoff ← on_bytes (e_phoff loc_elf);
    r ← load_segments MAX_PHNUM file pgtbl p vma 0 (i32 phoff) 0 0 false;
    match r with
    | inl sz => execve_bad pgtbl sz
    | inr (sz, _, has_interp) =>
        on_fs (kernel_close file);;
        ld ← (if (has_interp : bool) then load_ld pgtbl else mret (Some 0));
        match ld with
        | None => execve_bad pgtbl sz
        | Some ld_entry => execve_stack p old_pgtbl pgtbl sz uargv uenvp has_interp ld_entry
        end
    end.

(** [copyinstr] has an unsigned result, so the test of the path's copy never succeeds. *)
Definition sys_execve (upath uargv uenvp : Z) : M (kernel F) call_result :=
  if upath =? 0 then mret (Done (-1))
  else
    p ← myproc;
    old_pgtbl ← pgtbl_of p;
    on_bytes (memset loc_interp_path 0 (Z.to_nat PATH_MAX));;
    r ← on_vm (copyinstr old_pgtbl loc_path upath PATH_MAX);
    if r <? 0 then mret (Done (-1))
    else
      on_bytes (memset loc_elf 0 (Z.to_nat sizeof_Ehdr));;
      fuel ← gets (λ s, mem_fuel (pmem (kvm s)));
      path ← on_bytes (ld_str fuel loc_path);
      file ← kernel_open_here path;
      if file =? 0 then mret (Done (-1))
      else execve_file p old_pgtbl file uargv uenvp.
End execve.
