(* ===== verification/ExecStack.v ===== *)
(** * The stack of a new program

    What [build_stack] of [Exec] leaves on the stack page for the arguments, the environment
    and the auxiliary vector, and what it leaves unwritten. *)

From S2P Require Export Exec.

(** ** Bytes, words and strings in memory *)

(** The bytes [l] were written at [a]. *)
Definition wrote (m : bytes) (a : Z) (l : list Z) (m' : bytes) : Prop :=
  ∀ b, m' !! b = if decide (a ≤ b < a + zlen l) then l !! Z.to_nat (b - a) else m !! b.

Lemma wrote_nil m a : wrote m a [] m.
Proof. intros b. by rewrite decide_False by (unfold zlen; cbn; lia). Qed.

Lemma wrote_cons m a x l m' : wrote (<[a := x]> m) (a + 1) l m' → wrote m a (x :: l) m'.
Proof.
  intros W b. rewrite W, zlen_cons. pose proof (zlen_nonneg l).
  destruct (decide (a + 1 ≤ b < a + 1 + zlen l)); [rewrite decide_True by lia|].
  - replace (Z.to_nat (b - a)) with (S (Z.to_nat (b - (a + 1)))) by lia. done.
  - destruct (decide (b = a)) as [->|].
    + rewrite decide_True, lookup_insert_eq by lia. by replace (a - a) with 0 by lia.
    + rewrite decide_False by lia. by rewrite lookup_insert_ne.
Qed.

Lemma wrote_holds m a l m' : wrote m a l m' → holds m' a l.
Proof.
  intros W i x Hx. apply lookup_lt_Some in Hx as Hi. rewrite W, decide_True by (unfold zlen; lia).
  rewrite <- Hx. f_equal. lia.
Qed.

Lemma wrote_other m a l m' b : wrote m a l m' → ¬ (a ≤ b < a + zlen l) → m' !! b = m !! b.
Proof. intros W Hb. by rewrite W, decide_False. Qed.

(** No byte was lost. *)
Definition keeps (m m' : bytes) : Prop := ∀ a, is_Some (m !! a) → is_Some (m' !! a).

#[export] Instance keeps_preorder : PreOrder keeps.
Proof. split; [by intros m a|]. intros m1 m2 m3 H1 H2 a Ha. by apply H2, H1. Qed.

Lemma wrote_keeps m a l m' : wrote m a l m' → keeps m m'.
Proof.
  intros W b Hb. rewrite W. case_decide; [|done]. apply lookup_lt_is_Some_2. unfold zlen in *. lia.
Qed.

Lemma copied_keeps m d s n m' : copied m d s n m' → accessible m s n → keeps m m'.
Proof. intros C Ha b Hb. rewrite C. case_decide; [|done]. apply Ha. lia. Qed.

Lemma holds_app m a l1 l2 : holds m a (l1 ++ l2) ↔ holds m a l1 ∧ holds m (a + zlen l1) l2.
Proof.
  split.
  - intros H. split; intros i x Hx; [by apply H, lookup_app_l_Some|].
    rewrite <- (H (length l1 + i)%nat x); [f_equal; unfold zlen; lia|].
    rewrite lookup_app_r by lia. rewrite <- Hx. f_equal. lia.
  - intros [H1 H2] i x [Hx|[Hi Hx]]%lookup_app_Some; [by apply H1|].
    rewrite <- (H2 _ _ Hx). f_equal. unfold zlen. lia.
Qed.

Lemma holds_frame m m' a l :
  holds m a l → (∀ b, a ≤ b < a + zlen l → m' !! b = m !! b) → holds m' a l.
Proof.
  intros H Hf i x Hx. rewrite Hf; [by apply H|]. apply lookup_lt_Some in Hx. unfold zlen. lia.
Qed.

Lemma length_word_bytes n z : length (FsSys.le_bytes n z) = n.
Proof. revert z. induction n as [|n IH]; intros z; cbn [FsSys.le_bytes length]; congruence. Qed.
Lemma zlen_le8 z : zlen (FsSys.le_bytes 8 z) = 8.
Proof. unfold zlen. by rewrite length_word_bytes. Qed.

Lemma le_bytes_bytes n z : Forall (λ x, 0 ≤ x < 256) (FsSys.le_bytes n z).
Proof.
  revert z. induction n as [|n IH]; intros z; cbn [FsSys.le_bytes]; constructor; [|done].
  apply Z.mod_pos_bound. lia.
Qed.

Lemma wrote_bytes_ok m a l m' :
  bytes_ok m → Forall (λ x, 0 ≤ x < 256) l → wrote m a l m' → bytes_ok m'.
Proof.
  intros Hb Hl W b x. rewrite W. case_decide; [|apply Hb].
  intros Hx. exact (Forall_lookup_1 _ _ _ _ Hl Hx).
Qed.

Lemma st_le_run n : ∀ m a v,
  accessible m a (Z.of_nat n) →
  ∃ m', st_le n a v m = Ret (tt, m') ∧ wrote m a (FsSys.le_bytes n v) m'.
Proof.
  induction n as [|n IH]; intros m a v Ha; cbn [st_le FsSys.le_bytes].
  - exists m. split; [done|apply wrote_nil].
  - destruct (Ha 0) as [x Hx]; [lia|]. rewrite Z.add_0_r in Hx.
    mstep (st_ok m a v x Hx). rewrite Z.shiftr_div_pow2 by lia.
    destruct (IH (<[a := u8 v]> m) (a + 1) (v / 2 ^ 8)) as (m' & Hr & W).
    { apply accessible_insert. apply (accessible_mono m a (Z.of_nat (S n))); [done|lia..]. }
    exists m'. split; [exact Hr|]. by apply wrote_cons.
Qed.

Lemma ld_le_run n : ∀ m a v,
  holds m a (FsSys.le_bytes n v) → 0 ≤ v < 256 ^ Z.of_nat n → ld_le n a m = Ret (v, m).
Proof.
  induction n as [|n IH]; intros m a v H Hv; cbn [ld_le FsSys.le_bytes] in *.
  - by replace v with 0 by (cbn in Hv; lia).
  - apply holds_cons in H as [Hx Hl]. mstep (ld_ok _ _ _ Hx).
    rewrite Nat2Z.inj_succ, Z.pow_succ_r in Hv by lia.
    mstep (IH _ _ _ Hl ltac:(Z.div_mod_to_equations; lia)). unfold mret, M_ret. do 2 f_equal.
    Z.div_mod_to_equations; lia.
Qed.

(** An array of 64-bit words. *)
Definition words (l : list Z) : list Z := mjoin (FsSys.le_bytes 8 <$> l).

Lemma zlen_words l : zlen (words l) = 8 * zlen l.
Proof.
  induction l as [|x l IH]; [done|]. change (words (x :: l)) with (FsSys.le_bytes 8 x ++ words l).
  rewrite zlen_app, zlen_le8, zlen_cons. lia.
Qed.

Lemma holds_words_cons m a x l :
  holds m a (words (x :: l)) ↔ holds m a (FsSys.le_bytes 8 x) ∧ holds m (a + 8) (words l).
Proof. change (words (x :: l)) with (FsSys.le_bytes 8 x ++ words l). by rewrite holds_app, zlen_le8. Qed.

Lemma words_app l1 l2 : words (l1 ++ l2) = words l1 ++ words l2.
Proof. unfold words. by rewrite fmap_app, join_app. Qed.

Lemma ld_word m a v : holds m a (FsSys.le_bytes 8 v) → 0 ≤ v < 2 ^ 64 → ld_le 8 a m = Ret (v, m).
Proof. intros H Hv. apply ld_le_run; [done|]. change (256 ^ Z.of_nat 8) with (2 ^ 64). lia. Qed.

Lemma cstr_move m m' a b l :
  cstr m a l → (∀ j, 0 ≤ j ≤ zlen l → m' !! (b + j) = m !! (a + j)) → cstr m' b l.
Proof.
  intros [H Hf] Hm. split; [|done]. intros i x Hx. rewrite Hm; [by apply H|].
  apply lookup_lt_Some in Hx. rewrite length_app in Hx. cbn in Hx. unfold zlen. lia.
Qed.

(** ** The block of strings *)

(** The room a string takes with its NUL. *)
Definition asize (l : str) : Z := ALIGN8 (zlen l + 1).
Definition total (strs : list str) : Z := foldr (λ l n, asize l + n) 0 strs.
Fixpoint offsets (o : Z) (strs : list str) : list Z :=
  match strs with [] => [] | l :: strs => o :: offsets (o + asize l) strs end.

Lemma ALIGN8_eq x : ALIGN8 x = (x + 7) / 8 * 8.
Proof.
  unfold ALIGN8. change 7 with (Z.ones 3) at 2. rewrite <- Z.ldiff_land, Z.ldiff_ones_r by lia.
  by rewrite Z.shiftl_mul_pow2, Z.shiftr_div_pow2 by lia.
Qed.

Lemma asize_bounds l : zlen l < asize l ≤ zlen l + 8.
Proof. unfold asize. rewrite ALIGN8_eq. Z.div_mod_to_equations. lia. Qed.

Lemma total_nonneg strs : 0 ≤ total strs.
Proof.
  induction strs as [|l strs IH]; cbn [total foldr]; [done|].
  pose proof (asize_bounds l). pose proof (zlen_nonneg l). unfold total in IH. lia.
Qed.

Lemma total_le strs : Forall (λ l, zlen l < MAX_ARG_STRLEN) strs → total strs ≤ 128 * zlen strs.
Proof.
  unfold MAX_ARG_STRLEN. induction 1 as [|l strs Hl _ IH]; [done|].
  rewrite zlen_cons. cbn [total foldr]. unfold total in IH.
  assert (asize l ≤ 128) by (unfold asize; rewrite ALIGN8_eq; Z.div_mod_to_equations; lia). lia.
Qed.

Lemma length_offsets strs : ∀ o, length (offsets o strs) = length strs.
Proof. induction strs as [|l strs IH]; intros o; cbn [offsets length]; congruence. Qed.

Lemma offsets_range strs : ∀ o off, off ∈ offsets o strs → o ≤ off < o + total strs.
Proof.
  induction strs as [|l strs IH]; intros o off; cbn [offsets]; [by intros ?%elem_of_nil|].
  pose proof (asize_bounds l). pose proof (zlen_nonneg l). pose proof (total_nonneg strs).
  change (total (l :: strs)) with (asize l + total strs).
  intros [->|?%IH]%elem_of_cons; lia.
Qed.

Lemma offset_end strs : ∀ o k off l,
  offsets o strs !! k = Some off → strs !! k = Some l → o ≤ off ∧ off + zlen l < o + total strs.
Proof.
  induction strs as [|l' strs IH]; intros o [|k] off l; cbn [offsets]; [done..| |];
    change (total (l' :: strs)) with (asize l' + total strs);
    pose proof (asize_bounds l'); pose proof (zlen_nonneg l'); pose proof (total_nonneg strs).
  - intros [= ->] [= ->]. lia.
  - intros Ho Hl. destruct (IH (o + asize l') k off l); [done..|]. lia.
Qed.

(** The strings lie one after the other from [a]. *)
Fixpoint strings_at (m : bytes) (a : Z) (strs : list str) : Prop :=
  match strs with [] => True | l :: strs => cstr m a l ∧ strings_at m (a + asize l) strs end.

Lemma strings_move m m' strs : ∀ a b,
  strings_at m a strs → (∀ j, 0 ≤ j < total strs → m' !! (b + j) = m !! (a + j)) →
  strings_at m' b strs.
Proof.
  induction strs as [|l strs IH]; intros a b; cbn [strings_at]; [done|].
  intros [Hl Hs] Hm. change (total (l :: strs)) with (asize l + total strs) in Hm.
  pose proof (asize_bounds l). pose proof (zlen_nonneg l). pose proof (total_nonneg strs). split.
  - apply (cstr_move m m' a b); [done|]. intros j Hj. apply Hm. lia.
  - apply (IH (a + asize l)); [done|]. intros j Hj. rewrite <- !Z.add_assoc. apply Hm. lia.
Qed.

Lemma strings_lookup m strs : ∀ a o k l,
  strings_at m (a + o) strs → strs !! k = Some l →
  ∃ off, offsets o strs !! k = Some off ∧ cstr m (a + off) l.
Proof.
  induction strs as [|l' strs IH]; intros a o [|k] l; cbn [strings_at offsets]; [done..| |].
  - intros [Hl _] [= ->]. by exists o.
  - intros [_ Hs] Hk. rewrite <- Z.add_assoc in Hs. by apply (IH a (o + asize l')).
Qed.

(** ** Strings from user memory *)

Section user.
Context `{VmEnv}.

(** The user string [l] at [w], in one page and none of it at an address in [T]. *)
Record ustring (s : vm) (root : Z) (T : Z → Prop) (w : Z) (l : str) : Prop := {
  us_va : 0 < w < MAXVA;
  us_page : w mod PGSIZE + zlen l < PGSIZE;
  us_len : zlen l < MAX_ARG_STRLEN;
  us_mapped : translate (pt_pages s) root (PGROUNDDOWN w) ≠ 0;
  us_bytes : cstr (pmem s) (translate (pt_pages s) root w) l;
  us_apart : ∀ j, 0 ≤ j ≤ zlen l → ¬ T (translate (pt_pages s) root w + j)
}.

Lemma ustring_frame s s' root T w l :
  ustring s root T w l → pt_pages s' = pt_pages s →
  (∀ a, ¬ T a → pmem s' !! a = pmem s !! a) → ustring s' root T w l.
Proof.
  intros [] E Hf. split; rewrite ?E; try done.
  eapply cstr_frame; [done|]. intros b Hb. apply Hf.
  replace b with (translate (pt_pages s) root w + (b - translate (pt_pages s) root w)) by lia.
  apply us_apart0. lia.
Qed.

Lemma copystr_page_run l : ∀ n s dst p max cnt,
  cstr (pmem s) p l → (length l < n)%nat → bytes_ok (pmem s) →
  accessible (pmem s) dst (zlen l + 1) →
  (∀ i j, 0 ≤ i ≤ zlen l → 0 ≤ j ≤ zlen l → dst + i ≠ p + j) →
  ∃ m', copystr_page n dst p max cnt s =
      Ret ((true, dst + zlen l, max - zlen l, cnt + zlen l + 1), set_pmem m' s) ∧
    wrote (pmem s) dst (l ++ [0]) m'.
Proof.
  induction l as [|c l IH]; intros [|n] s dst p max cnt Hl Hn Hb Ha Hd; cbn in Hn; try lia;
    cbn [copystr_page].
  - apply cstr_nil in Hl. mstep (on_pmem_run _ _ _ _ (ld_ok _ _ _ Hl)). change (0 =? 0) with true. cbv iota.
    destruct (Ha 0) as [x Hx]; [done|]. rewrite Z.add_0_r in Hx.
    mstep (on_pmem_run _ (set_pmem (pmem s) s) _ _ (st_ok _ _ 0 _ Hx)).
    exists (<[dst := u8 0]> (pmem s)). cbn. split.
    + unfold mret, M_ret, zlen. cbn. by rewrite !Z.add_0_r, Z.sub_0_r.
    + apply wrote_cons, wrote_nil.
  - apply cstr_cons in Hl as (Hc & Hr & Hl). rewrite zlen_cons in *.
    pose proof (zlen_nonneg l).
    mstep (on_pmem_run _ _ _ _ (ld_ok _ _ _ Hc)). rewrite (proj2 (Z.eqb_neq c 0)) by lia.
    destruct (Ha 0) as [x Hx]; [lia|]. rewrite Z.add_0_r in Hx.
    mstep (on_pmem_run _ (set_pmem (pmem s) s) _ _ (st_ok _ _ c _ Hx)). cbn.
    destruct (IH n (set_pmem (<[dst := u8 c]> (pmem s)) s) (dst + 1) (p + 1) (max - 1) (cnt + 1))
      as (m' & Hrun & W); cbn; try lia.
    + eapply cstr_frame; [done|]. intros b Hb'. apply lookup_insert_ne. intros <-.
      apply (Hd 0 (dst - p)); lia.
    + by apply bytes_ok_insert.
    + apply accessible_insert. apply (accessible_mono _ dst (zlen l + 1 + 1)); [|lia..].
      eapply accessible_le; [done|lia].
    + intros i j Hi Hj E. apply (Hd (i + 1) (j + 1)); lia.
    + exists m'. split.
      * etrans; [exact Hrun|]. f_equal. f_equal. f_equal; [f_equal; [f_equal|]|]; lia.
      * rewrite u8_small in W by lia. by apply wrote_cons.
Qed.

Lemma translate_in_page m root w :
  0 ≤ w < MAXVA → translate m root (PGROUNDDOWN w) ≠ 0 →
  translate m root w = translate m root (PGROUNDDOWN w) + w mod PGSIZE.
Proof.
  intros Hw Hm. unfold MAXVA in Hw. pose proof (PGROUNDDOWN_eq w ltac:(lia)) as E.
  rewrite <- translate_offset; [|rewrite E|apply Z.mod_pos_bound; done|done].
  - f_equal. rewrite E. unfold PGSIZE. Z.div_mod_to_equations. lia.
  - unfold PGSIZE. Z.div_mod_to_equations. lia.
Qed.

Lemma copyinstr_run s root T dst w l :
  pt_ok (pt_pages s) root → root ≠ kernel_pagetable → bytes_ok (pmem s) →
  ustring s root T w l → accessible (pmem s) dst (zlen l + 1) →
  (∀ j, 0 ≤ j ≤ zlen l → T (dst + j)) →
  ∃ m', copyinstr root dst w MAX_ARG_STRLEN s = Ret (zlen l + 1, set_pmem m' s) ∧
    wrote (pmem s) dst (l ++ [0]) m'.
Proof.
  intros Tr Hk Hb U Ha HT. destruct U as [Hva Hpg Hlen Hmap Hcs Hap].
  pose proof (translate_in_page (pt_pages s) root w ltac:(lia) Hmap) as Ew.
  pose proof (zlen_nonneg l). unfold MAX_ARG_STRLEN in *.
  assert (Hr : PGROUNDDOWN w = w - w mod PGSIZE ∧ 0 ≤ PGROUNDDOWN w < MAXVA).
  { unfold MAXVA in *. rewrite PGROUNDDOWN_eq by lia. unfold PGSIZE. Z.div_mod_to_equations. lia. }
  destruct Hr as [Er Hrb]. unfold copyinstr.
  change (Z.to_nat 128) with (S 127). cbn [copyinstr_loop].
  change (0 <? 128) with true. cbv iota zeta.
  mstep (walkaddr_run s root _ Tr Hk Hrb). rewrite (proj2 (Z.eqb_neq _ 0)) by done.
  replace (translate (pt_pages s) root (PGROUNDDOWN w) + (w - PGROUNDDOWN w))
    with (translate (pt_pages s) root w) by lia.
  set (n := if 128 <? _ then 128 else _).
  assert (Hn : (length l < Z.to_nat n)%nat).
  { unfold zlen in *. subst n. destruct (Z.ltb_spec 128 (PGSIZE - (w - PGROUNDDOWN w))); lia. }
  destruct (copystr_page_run l (Z.to_nat n) s dst (translate (pt_pages s) root w) 128 0)
    as (m' & Hrun & W); [done..| |].
  { intros i j Hi Hj E. apply (Hap j Hj). rewrite <- E. by apply HT. }
  exists m'. split; [|exact W]. by mstep Hrun.
Qed.

Definition apart (a n b k : Z) : Prop := a + n ≤ b ∨ b + k ≤ a.
#[export] Instance apart_dec a n b k : Decision (apart a n b k) := _.

Lemma holds_accessible m a l : holds m a l → accessible m a (zlen l).
Proof.
  intros H' i Hi. destruct (lookup_lt_is_Some_2 l (Z.to_nat i)) as [x Hx]; [unfold zlen in *; lia|].
  exists x. rewrite <- (H' _ _ Hx). f_equal. lia.
Qed.

Lemma nul_bytes l m a : cstr m a l → Forall (λ x, 0 ≤ x < 256) (l ++ [0]).
Proof.
  intros [_ Hl]. apply Forall_app. split; [|by repeat constructor].
  eapply Forall_impl; [done|]. intros x Hx. cbn in Hx. lia.
Qed.

(** One string: its bytes go to the block and its offset to the array. *)
Lemma copy_string_run root T arr mem i o s w l :
  pt_ok (pt_pages s) root → root ≠ kernel_pagetable → bytes_ok (pmem s) →
  ustring s root T w l → holds (pmem s) (arr + 8 * i) (FsSys.le_bytes 8 w) →
  accessible (pmem s) (mem + o) (asize l) →
  (∀ j, 0 ≤ j < asize l → T (mem + o + j)) → apart (arr + 8 * i) 8 (mem + o) (asize l) →
  ∃ m1 m2, ld_le 8 (arr + 8 * i) (pmem s) = Ret (w, pmem s) ∧
    copyinstr root (mem + o) w MAX_ARG_STRLEN s = Ret (zlen l + 1, set_pmem m1 s) ∧
    st_le 8 (arr + 8 * i) o m1 = Ret (tt, m2) ∧ bytes_ok m2 ∧
    holds m2 (arr + 8 * i) (FsSys.le_bytes 8 o) ∧ cstr m2 (mem + o) l ∧ keeps (pmem s) m2 ∧
    (∀ a, ¬ (arr + 8 * i ≤ a < arr + 8 * i + 8) → ¬ (mem + o ≤ a < mem + o + asize l) →
       m2 !! a = pmem s !! a).
Proof.
  intros Tr Hk Hb U Hw Ha HT Hap. pose proof (asize_bounds l) as Hsz. pose proof (zlen_nonneg l).
  pose proof (us_bytes _ _ _ _ _ U) as Hcs.
  destruct (copyinstr_run s root T (mem + o) w l) as (m1 & Hrun & W1); try done.
  { eapply accessible_le; [done|lia]. }
  { intros j Hj. apply HT. lia. }
  assert (Hl1 : zlen (l ++ [0]) = zlen l + 1) by (by rewrite zlen_app).
  assert (Hacc : accessible m1 (arr + 8 * i) (Z.of_nat 8)).
  { eapply accessible_frame.
    - pose proof (holds_accessible _ _ _ Hw) as Hacc. by rewrite zlen_le8 in Hacc.
    - intros b Hb'. apply (wrote_other _ _ _ _ _ W1). unfold apart in Hap. lia. }
  destruct (st_le_run 8 m1 (arr + 8 * i) o Hacc) as (m2 & Hst & W2).
  exists m1, m2. pose proof (us_va _ _ _ _ _ U) as Hva. unfold MAXVA in Hva. split_and!; try done.
  - apply ld_word; [done|lia].
  - eapply wrote_bytes_ok; [|apply le_bytes_bytes|exact W2].
    eapply wrote_bytes_ok; [done|by eapply nul_bytes|exact W1].
  - by eapply wrote_holds.
  - apply cstr_frame with m1.
    + split; [by eapply wrote_holds|apply Hcs].
    + intros b Hb'. apply (wrote_other _ _ _ _ _ W2). rewrite zlen_le8. unfold apart in Hap. lia.
  - etrans; by eapply wrote_keeps.
  - intros a H1 H2. rewrite (wrote_other _ _ _ _ _ W2) by (rewrite zlen_le8; lia).
    apply (wrote_other _ _ _ _ _ W1). lia.
Qed.

Lemma copy_strings_run root T arr mem strs : ∀ s i o ptrs,
  pt_ok (pt_pages s) root → root ≠ kernel_pagetable → bytes_ok (pmem s) →
  Forall2 (ustring s root T) ptrs strs → holds (pmem s) (arr + 8 * i) (words ptrs) →
  accessible (pmem s) (mem + o) (total strs) → 0 ≤ o → o + total strs < 2 ^ 31 →
  (∀ j, 0 ≤ j < 8 * zlen strs → T (arr + 8 * i + j)) →
  (∀ j, 0 ≤ j < total strs → T (mem + o + j)) →
  apart (arr + 8 * i) (8 * zlen strs) (mem + o) (total strs) →
  ∃ m', copy_strings (length strs) root arr mem i o s =
      Ret (Some (o + total strs), set_pmem m' s) ∧
    bytes_ok m' ∧ holds m' (arr + 8 * i) (words (offsets o strs)) ∧
    strings_at m' (mem + o) strs ∧ keeps (pmem s) m' ∧
    (∀ a, ¬ (arr + 8 * i ≤ a < arr + 8 * i + 8 * zlen strs) →
       ¬ (mem + o ≤ a < mem + o + total strs) → m' !! a = pmem s !! a).
Proof.
  induction strs as [|l strs IH]; intros s i o ptrs Tr Hk Hb HU Hw Ha Ho Hmax HTa HTm Hap;
    inversion HU as [|w ? ptrs' ? U HU']; simplify_eq; cbn [copy_strings length offsets strings_at].
  - exists (pmem s). split; [by rewrite Z.add_0_r; destruct s|]. split; [done|].
    split; [apply holds_nil|done].
  - change (total (l :: strs)) with (asize l + total strs) in *. rewrite zlen_cons in *.
    pose proof (asize_bounds l). pose proof (zlen_nonneg l). pose proof (zlen_nonneg strs).
    pose proof (total_nonneg strs). unfold apart in *.
    apply holds_words_cons in Hw as [Hw Hws].
    destruct (copy_string_run root T arr mem i o s w l)
      as (m1 & m2 & Hld & Hrun & Hst & Hb2 & Hw2 & Hc2 & Hk2 & Hf2); try done.
    { eapply accessible_le; [done|lia]. }
    { intros j Hj. apply HTm. lia. }
    { unfold apart. lia. }
    mstep (on_pmem_run _ _ _ _ Hld).
    replace (set_pmem (pmem s) s) with s by (by destruct s).
    mstep Hrun. pose proof (us_len _ _ _ _ _ U). unfold MAX_ARG_STRLEN in *.
    rewrite i32_small, (proj2 (Z.ltb_ge _ 0)) by lia. cbv zeta.
    mstep (on_pmem_run _ (set_pmem m1 s) _ _ Hst). fold (asize l). rewrite u64_small by lia.
    assert (Hf : ∀ a, ¬ T a → m2 !! a = pmem s !! a).
    { intros a HTn. apply Hf2; intros Hin; apply HTn.
      - replace a with (arr + 8 * i + (a - (arr + 8 * i))) by lia. apply HTa. lia.
      - replace a with (mem + o + (a - (mem + o))) by lia. apply HTm. lia. }
    destruct (IH (set_pmem m2 s) (i + 1) (o + asize l) ptrs') as (m3 & Hr3 & Hb3 & Hw3 & Hs3 & Hk3 & Hf3);
      cbn [pt_pages pmem set_pmem] in *; try done; try lia.
    + eapply Forall2_impl; [done|]. intros w' l' Hu. by eapply ustring_frame.
    + replace (arr + 8 * (i + 1)) with (arr + 8 * i + 8) by lia.
      eapply holds_frame; [done|].
      intros b Hb'. assert (zlen ptrs' = zlen strs) by (unfold zlen; by rewrite (Forall2_length _ _ _ HU')).
      rewrite zlen_words in Hb'. apply Hf2; lia.
    + rewrite Z.add_assoc. eapply accessible_frame.
      * apply (accessible_mono _ _ (asize l + total strs)); [done|lia..].
      * intros b Hb'. apply Hf2; lia.
    + intros j Hj. replace (arr + 8 * (i + 1) + j) with (arr + 8 * i + (8 + j)) by lia. apply HTa. lia.
    + intros j Hj. replace (mem + (o + asize l) + j) with (mem + o + (asize l + j)) by lia.
      apply HTm. lia.
    + exists m3. split; [by rewrite <- Z.add_assoc in Hr3|]. split; [done|].
      replace (arr + 8 * (i + 1)) with (arr + 8 * i + 8) in * by lia. rewrite <- Z.add_assoc.
      split; [apply holds_words_cons; split; [|done]|].
      * eapply holds_frame; [done|]. rewrite zlen_le8. intros b Hb'. apply Hf3; lia.
      * split; [split; [|done]|split; [by etrans|]].
        -- eapply cstr_frame; [done|]. intros b Hb'. apply Hf3; lia.
        -- intros a Hn1 Hn2. rewrite Hf3 by lia. apply Hf2; lia.
Qed.

(** ** The vector of pointers *)

(** The user's array at [u]: pointers to the strings and a NULL. *)
Record uvec (s : vm) (root : Z) (T : Z → Prop) (u : Z) (ptrs : list Z) (strs : list str) : Prop := {
  uv_va : 0 < u ∧ u + 256 < MAXVA;
  uv_count : 0 < zlen strs < MAX_ARGS;
  uv_user : user_bytes s root u 256;
  uv_words : ∀ j x, words (ptrs ++ [0]) !! j = Some x →
    pmem s !! translate (pt_pages s) root (u + Z.of_nat j) = Some x;
  uv_apart : ∀ j, 0 ≤ j < 256 → ¬ T (translate (pt_pages s) root (u + j));
  uv_strs : Forall2 (ustring s root T) ptrs strs
}.

Lemma user_apart_frame s s' root T u n :
  user_bytes s root u n → (∀ j, 0 ≤ j < n → ¬ T (translate (pt_pages s) root (u + j))) →
  pt_pages s' = pt_pages s → (∀ a, ¬ T a → pmem s' !! a = pmem s !! a) →
  user_bytes s' root u n.
Proof.
  intros Hu Hap E Hf j Hj. rewrite E. split; [by apply Hu|]. rewrite Hf by (by apply Hap). by apply Hu.
Qed.

Lemma uvec_frame s s' root T u ptrs strs :
  uvec s root T u ptrs strs → pt_pages s' = pt_pages s →
  (∀ a, ¬ T a → pmem s' !! a = pmem s !! a) → uvec s' root T u ptrs strs.
Proof.
  intros [Hva Hn Hu Hw Hap Hs] E Hf. split; rewrite ?E; try done.
  - by eapply user_apart_frame.
  - intros j x Hx. rewrite Hf; [by apply Hw|]. apply Hap.
    apply lookup_lt_Some in Hx. rewrite words_app in Hx.
    assert (Hz : zlen (words ptrs ++ words [0]) ≤ 256).
    { rewrite zlen_app, !zlen_words. change (zlen [0]) with 1. unfold zlen, MAX_ARGS in *.
      rewrite (Forall2_length _ _ _ Hs). lia. }
    unfold zlen in Hz. lia.
  - eapply Forall2_impl; [done|]. intros w l U. by eapply ustring_frame.
Qed.

Lemma accessible_size m a n : accessible m a n → n ≤ Z.of_nat (base.size m).
Proof.
  intros Hacc. destruct (decide (0 ≤ n)); [|lia].
  assert (Hsub : list_to_set (seqZ a n) ⊆@{gset Z} dom m).
  { intros b Hb. apply elem_of_list_to_set, elem_of_seqZ in Hb. apply elem_of_dom.
    replace b with (a + (b - a)) by lia. apply Hacc. lia. }
  apply subseteq_size in Hsub. rewrite size_list_to_set, size_dom, length_seqZ in Hsub by apply NoDup_seqZ.
  lia.
Qed.

Lemma count_args_run m arr ptrs : ∀ fuel c,
  holds m (arr + 8 * c) (words (ptrs ++ [0])) → Forall (λ w, 0 < w < 2 ^ 64) ptrs →
  (length ptrs < fuel)%nat → count_args fuel arr c m = Ret (c + zlen ptrs, m).
Proof.
  induction ptrs as [|w ptrs IH]; intros [|fuel] c Hw HF Hn; cbn in Hn; try lia;
    cbn [count_args app] in *; apply holds_words_cons in Hw as [Hw Hws].
  - mstep (ld_word _ _ _ Hw ltac:(lia)). by rewrite Z.add_0_r.
  - inversion_clear HF. mstep (ld_word _ _ _ Hw ltac:(lia)).
    rewrite (proj2 (Z.eqb_neq w 0)), zlen_cons by lia.
    rewrite IH; [f_equal; f_equal; lia| |done|lia].
    by replace (arr + 8 * (c + 1)) with (arr + 8 * c + 8) by lia.
Qed.

Definition covers_range (T : Z → Prop) (a n : Z) : Prop := ∀ j, 0 ≤ j < n → T (a + j).

Lemma covers_in T a n b : covers_range T a n → ¬ T b → ¬ (a ≤ b < a + n).
Proof. intros HT Hb Hin. apply Hb. replace b with (a + (b - a)) by lia. apply HT. lia. Qed.

(** The array copied in. *)
Lemma copyin_vector s root T u ptrs strs arr :
  pt_ok (pt_pages s) root → root ≠ kernel_pagetable → bytes_ok (pmem s) →
  uvec s root T u ptrs strs → arr ≠ 0 → accessible (pmem s) arr 256 → covers_range T arr 256 →
  ∃ m', copyin root arr u (MAX_ARGS * 8) s = Ret (0, set_pmem m' s) ∧ bytes_ok m' ∧
    holds m' arr (words (ptrs ++ [0])) ∧
    count_args (mem_fuel m') arr 0 m' = Ret (zlen strs, m') ∧ keeps (pmem s) m' ∧
    (∀ a, ¬ (arr ≤ a < arr + 256) → m' !! a = pmem s !! a).
Proof.
  intros Tr Hk Hb [Hva Hn Hu Hw Hap Hs] Harr Ha HT. change (MAX_ARGS * 8) with 256.
  pose proof (Forall2_length _ _ _ Hs) as Hlen. unfold MAX_ARGS in *.
  destruct (copyin_loop_run root (Z.to_nat (256 / PGSIZE + 2)) s arr u 256 256 0)
    as (m' & Hrun & Hm'); try done; try lia.
  { change (Z.of_nat (Z.to_nat (256 / PGSIZE + 2))) with 2.
    unfold PGSIZE. Z.div_mod_to_equations. lia. }
  { intros i j Hi Hj E. apply (Hap j Hj). rewrite <- E. by apply HT. }
  change (256 <? 256) with false in Hrun. cbv iota in Hrun.
  assert (Hz : zlen (words (ptrs ++ [0])) ≤ 256).
  { rewrite zlen_words, zlen_app. change (zlen [0]) with 1. unfold zlen in *. lia. }
  assert (Hh : holds m' arr (words (ptrs ++ [0]))).
  { intros i x Hx. rewrite Hm'. apply lookup_lt_Some in Hx as Hi. unfold zlen in Hz.
    rewrite decide_True by lia. rewrite <- (Hw i x Hx). f_equal. f_equal. lia. }
  assert (Hptrs : Forall (λ w, 0 < w < 2 ^ 64) ptrs).
  { eapply Forall2_Forall_l; [exact Hs|]. apply Forall_true. intros l w U.
    pose proof (us_va _ _ _ _ _ U). unfold MAXVA in *. lia. }
  exists m'. split_and!; try done.
  - unfold copyin. rewrite (proj2 (Z.eqb_neq arr 0)) by done.
    erewrite mbind_Ret by reflexivity. cbv beta. by rewrite (proj2 (Z.eqb_neq arr 0)).
  - intros a x. rewrite Hm'. case_decide; apply Hb.
  - rewrite (count_args_run _ _ ptrs); [f_equal; f_equal; unfold zlen; lia| |done|].
    + by rewrite Z.mul_0_r, Z.add_0_r.
    + unfold mem_fuel. pose proof (accessible_size _ _ _ (holds_accessible _ _ _ Hh)) as Hsz.
      rewrite zlen_words, zlen_app in Hsz. unfold zlen in Hsz. cbn [length] in Hsz. lia.
  - intros a Hsa. rewrite Hm'. case_decide; [|done]. apply Hu. lia.
  - intros a Hna. by rewrite Hm', decide_False.
Qed.

(** ** The strings on the stack page *)

(** The scratch memory of one vector: its array and the block its strings are gathered in. *)
Record scratch (m : bytes) (T : Z → Prop) (arr mem : Z) (strs : list str) : Prop := {
  sc_arr : arr ≠ 0;
  sc_arr_mem : accessible m arr 256;
  sc_arr_in : covers_range T arr 256;
  sc_block : accessible m mem (128 * zlen strs);
  sc_block_in : covers_range T mem (128 * zlen strs);
  sc_apart : apart arr 256 mem (128 * zlen strs)
}.

Lemma ustrings_short s root T ptrs strs :
  Forall2 (ustring s root T) ptrs strs → Forall (λ l, zlen l < MAX_ARG_STRLEN) strs.
Proof.
  intros HF. eapply Forall2_Forall_r; [exact HF|]. apply Forall_true. intros w l U.
  apply (us_len _ _ _ _ _ U).
Qed.

(** Everything [push_env] and [push_args] do before they move the strings. *)
Lemma gather_run s root T u ptrs strs arr mem fs :
  pt_ok (pt_pages s) root → root ≠ kernel_pagetable → bytes_ok (pmem s) →
  uvec s root T u ptrs strs → scratch (pmem s) T arr mem strs → frames s = mem :: fs →
  ∃ m1 m2, copyin root arr u (MAX_ARGS * 8) s = Ret (0, set_pmem m1 s) ∧
    count_args (mem_fuel m1) arr 0 m1 = Ret (zlen strs, m1) ∧
    copy_strings (length strs) root arr mem 0 0 (set_frames fs (set_pmem m1 s)) =
      Ret (Some (total strs), set_frames fs (set_pmem m2 s)) ∧
    bytes_ok m2 ∧ holds m2 arr (words (offsets 0 strs)) ∧ strings_at m2 mem strs ∧ keeps (pmem s) m2 ∧
    accessible m2 mem (total strs) ∧
    (∀ a, ¬ (arr ≤ a < arr + 256) → ¬ (mem ≤ a < mem + 128 * zlen strs) → m2 !! a = pmem s !! a).
Proof.
  intros Tr Hk Hb U [Harr Ha HTa Hm HTm Hap] Hfr. pose proof (uv_count _ _ _ _ _ _ U) as Hn.
  pose proof (uv_strs _ _ _ _ _ _ U) as HF. pose proof (ustrings_short _ _ _ _ _ HF) as Hsh.
  pose proof (total_le strs Hsh) as Htot. pose proof (total_nonneg strs). pose proof (zlen_nonneg strs).
  unfold MAX_ARGS in Hn.
  destruct (copyin_vector s root T u ptrs strs arr) as (m1 & Hrun & Hb1 & Hw1 & Hcnt & Hk1 & Hf1); try done.
  rewrite words_app in Hw1. apply holds_app in Hw1 as [Hw1 _].
  destruct (copy_strings_run root T arr mem strs (set_frames fs (set_pmem m1 s)) 0 0 ptrs)
    as (m2 & Hr2 & Hb2 & Hw2 & Hs2 & Hk2 & Hf2); cbn [pt_pages pmem set_pmem set_frames];
    rewrite ?Z.mul_0_r, ?Z.add_0_r in *; try done; try lia.
  - eapply Forall2_impl; [exact HF|]. intros w l Hu. eapply ustring_frame; [done..|]. cbn.
    intros a HnT. apply Hf1. by eapply covers_in.
  - eapply accessible_frame; [eapply accessible_le; [exact Hm|lia]|].
    intros b Hb'. apply Hf1. unfold apart in Hap. lia.
  - intros j Hj. apply HTa. lia.
  - intros j Hj. apply HTm. lia.
  - unfold apart in *. lia.
  - exists m1, m2. assert (Hk02 : keeps (pmem s) m2) by by etrans. split_and!; try done.
    { intros j Hj. apply Hk02, Hm. lia. }
    intros a Hn1 Hn2. cbn in Hf2. rewrite Hf2 by lia.
    by apply Hf1.
Qed.

(** The page at [page] is the user's [top - PGSIZE .. top). *)
Record stack_page (m : bytes) (page top : Z) : Prop := {
  sp_low : 0 < page;
  sp_high : page + PGSIZE < 2 ^ 64;
  sp_top : PGSIZE ≤ top < 2 ^ 64;
  sp_mem : accessible m page PGSIZE
}.
(** Where the kernel sees the user address [a]. *)
Definition at_stack (page top a : Z) : Z := page + PGSIZE - top + a.

Lemma stack_slot_eq m page top a :
  stack_page m page top → top - PGSIZE ≤ a ≤ top → stack_slot page top a = at_stack page top a.
Proof.
  intros [Hl Hh Ht _] Ha. unfold stack_slot, at_stack. rewrite u64_small; lia.
Qed.

Lemma stack_page_frame m m' page top :
  stack_page m page top → keeps m m' → stack_page m' page top.
Proof. intros [] Hd. split; try done. intros i Hi. by apply Hd, sp_mem0. Qed.

(** The strings are moved from the block to the page. *)
Lemma move_strings_run m mem page top sp strs :
  bytes_ok m → stack_page m page top → top - PGSIZE ≤ sp - total strs → sp ≤ top →
  strings_at m mem strs → accessible m mem (total strs) →
  ∃ m', memmove (at_stack page top (sp - total strs)) mem (Z.to_nat (total strs)) m =
      Ret (at_stack page top (sp - total strs), m') ∧ bytes_ok m' ∧
    strings_at m' (at_stack page top (sp - total strs)) strs ∧ keeps m m' ∧
    (∀ a, ¬ (at_stack page top (sp - total strs) ≤ a < at_stack page top sp) → m' !! a = m !! a).
Proof.
  intros Hb Hpg Hlo Hhi Hs Ha. pose proof (total_nonneg strs). destruct Hpg as [Hl Hh Ht Hacc].
  destruct (memmove_run m (at_stack page top (sp - total strs)) mem (Z.to_nat (total strs)))
    as (m' & Hrun & Hc); [done|rewrite Z2Nat.id by lia..|].
  - unfold at_stack. replace (page + PGSIZE - top + (sp - total strs))
      with (page + (PGSIZE - top + sp - total strs)) by lia.
    apply (accessible_mono m page PGSIZE); [done|lia..].
  - done.
  - rewrite Z2Nat.id in Hc by lia. exists m'. split_and!; [done|by eapply copied_bytes_ok| |by eapply copied_keeps|].
    + eapply strings_move; [exact Hs|]. intros j Hj. rewrite Hc, decide_True by lia. f_equal. lia.
    + intros a Hn. rewrite Hc, decide_False; [done|]. unfold at_stack in *. lia.
Qed.

(** What pushing a vector's strings below [sp] leaves. *)
Record pushed (page top : Z) (s s' : vm) (sp arr mem : Z) (strs : list str) : Prop := {
  pu_tables : pt_pages s' = pt_pages s;
  pu_frames : frames s = mem :: frames s';
  pu_ok : bytes_ok (pmem s');
  pu_keeps : keeps (pmem s) (pmem s');
  pu_offsets : holds (pmem s') arr (words (offsets 0 strs));
  pu_strings : strings_at (pmem s') (at_stack page top (sp - total strs)) strs;
  pu_frame : ∀ a, ¬ (arr ≤ a < arr + 256) → ¬ (mem ≤ a < mem + 128 * zlen strs) →
    ¬ (at_stack page top (sp - total strs) ≤ a < at_stack page top sp) → pmem s' !! a = pmem s !! a
}.

(** After the strings are gathered, the move and the end of the two functions. *)
Lemma pushed_intro page top s sp arr mem strs fs m2 m3 :
  frames s = mem :: fs → bytes_ok m3 → holds m2 arr (words (offsets 0 strs)) →
  keeps (pmem s) m2 → keeps m2 m3 →
  strings_at m3 (at_stack page top (sp - total strs)) strs →
  (∀ a, ¬ (arr ≤ a < arr + 256) → ¬ (mem ≤ a < mem + 128 * zlen strs) → m2 !! a = pmem s !! a) →
  (∀ a, ¬ (at_stack page top (sp - total strs) ≤ a < at_stack page top sp) → m3 !! a = m2 !! a) →
  zlen strs < MAX_ARGS → apart arr 256 page PGSIZE → top - PGSIZE ≤ sp - total strs → sp ≤ top →
  pushed page top s (set_freed (mem :: freed s) (set_frames fs (set_pmem m3 s))) sp arr mem strs.
Proof.
  intros Hfr Hb Hw Hk1 Hk2 Hs Hf2 Hf3 Hn Hap Hlo Hhi. unfold MAX_ARGS, apart, at_stack in *.
  split; cbn; try done.
  - by etrans.
  - eapply holds_frame; [done|]. rewrite zlen_words. intros b Hb'. apply Hf3.
    assert (zlen (offsets 0 strs) = zlen strs) by (unfold zlen; by rewrite length_offsets). lia.
  - intros a H1 H2 H3. rewrite Hf3 by done. by apply Hf2.
Qed.

Lemma to_nat_zlen {A} (l : list A) : Z.to_nat (zlen l) = length l.
Proof. apply Nat2Z.id. Qed.

Lemma zlen_fmap {A B} (f : A → B) (l : list A) : zlen (f <$> l) = zlen l.
Proof. unfold zlen. by rewrite length_fmap. Qed.

(** The strings fit a block. *)
Lemma one_block n : 0 < n < MAX_ARGS → 0 < n * MAX_ARG_STRLEN ≤ MAX_BLOCK.
Proof. unfold MAX_ARGS, MAX_ARG_STRLEN, MAX_BLOCK, PGSIZE. lia. Qed.

(** Run both functions up to the move. *)
Ltac run_gather s Hin Hcnt Hfr Hcp :=
  mstep Hin; erewrite mbind_Ret by reflexivity; cbv beta;
  match type of Hcnt with _ ?m1 = _ =>
    mstep (on_pmem_run _ (set_pmem m1 s) _ _ Hcnt)
  end;
  erewrite mbind_Ret by (apply kalloc_bytes_run; [by apply one_block|exact Hfr]); cbv beta;
  rewrite to_nat_zlen; mstep Hcp.

Lemma push_args_run s root T u ptrs strs mem page top sp fs `{ExecFrame} :
  pt_ok (pt_pages s) root → root ≠ kernel_pagetable → bytes_ok (pmem s) →
  uvec s root T u ptrs strs → scratch (pmem s) T loc_argv mem strs → frames s = mem :: fs →
  stack_page (pmem s) page top → top - PGSIZE ≤ sp - total strs → sp ≤ top →
  apart loc_argv 256 page PGSIZE →
  ∃ s', push_args root u page top sp s = Ret (Some (zlen strs, sp - total strs), s') ∧
    pushed page top s s' sp loc_argv mem strs.
Proof.
  intros Tr Hk Hb U Sc Hfr Hpg Hlo Hhi Hap. pose proof (total_nonneg strs). pose proof (sp_top _ _ _ Hpg).
  destruct (gather_run s root T u ptrs strs loc_argv mem fs)
    as (m1 & m2 & Hin & Hcnt & Hcp & Hb2 & Hw2 & Hs2 & Hk2 & Ha2 & Hf2); try done.
  assert (Hpg2 : stack_page m2 page top) by by eapply stack_page_frame.
  destruct (move_strings_run m2 mem page top sp strs) as (m3 & Hmv & Hb3 & Hs3 & Hk3 & Hf3); try done.
  eexists. split; [|eapply pushed_intro; try done; apply (uv_count _ _ _ _ _ _ U)].
  unfold push_args. pose proof (uv_count _ _ _ _ _ _ U). run_gather s Hin Hcnt Hfr Hcp. cbv zeta. rewrite u64_small by (unfold PGSIZE in *; lia).
  rewrite (stack_slot_eq m2) by (done || lia).
  mstep (on_pmem_run _ (set_frames fs (set_pmem m2 s)) _ _ Hmv).
  erewrite mbind_Ret by reflexivity. reflexivity.
Qed.

Lemma push_env_run s root T u ptrs strs mem page top sp fs `{ExecFrame} :
  pt_ok (pt_pages s) root → root ≠ kernel_pagetable → bytes_ok (pmem s) →
  uvec s root T u ptrs strs → scratch (pmem s) T loc_envp mem strs → frames s = mem :: fs →
  stack_page (pmem s) page top → top - PGSIZE ≤ sp - total strs → sp ≤ top →
  apart loc_envp 256 page PGSIZE →
  ∃ s', push_env root u page top sp s = Ret (Some (zlen strs, sp - total strs), s') ∧
    pushed page top s s' sp loc_envp mem strs.
Proof.
  intros Tr Hk Hb U Sc Hfr Hpg Hlo Hhi Hap. pose proof (total_nonneg strs). pose proof (sp_top _ _ _ Hpg).
  destruct (gather_run s root T u ptrs strs loc_envp mem fs)
    as (m1 & m2 & Hin & Hcnt & Hcp & Hb2 & Hw2 & Hs2 & Hk2 & Ha2 & Hf2); try done.
  assert (Hpg2 : stack_page m2 page top) by by eapply stack_page_frame.
  destruct (move_strings_run m2 mem page top sp strs) as (m3 & Hmv & Hb3 & Hs3 & Hk3 & Hf3); try done.
  eexists. split; [|eapply pushed_intro; try done; apply (uv_count _ _ _ _ _ _ U)].
  unfold push_env. pose proof (uv_count _ _ _ _ _ _ U). run_gather s Hin Hcnt Hfr Hcp.
  replace (PGSIZE - (top - sp) - total strs) with (PGSIZE - (top - (sp - total strs))) by lia.
  fold (stack_slot page top (sp - total strs)). rewrite (stack_slot_eq m2) by (done || lia).
  mstep (on_pmem_run _ (set_frames fs (set_pmem m2 s)) _ _ Hmv).
  erewrite mbind_Ret by reflexivity. cbv beta. rewrite u64_small by (unfold PGSIZE in *; lia). reflexivity.
Qed.

End user.

(** ** Pointers and the auxiliary vector *)

Lemma memset_run n : ∀ m a i,
  accessible m (a + i) (Z.of_nat n) →
  ∃ m', memset_loop n a 0 i m = Ret (tt, m') ∧ wrote m (a + i) (replicate n 0) m'.
Proof.
  induction n as [|n IH]; intros m a i Ha; cbn [memset_loop replicate].
  - exists m. split; [done|apply wrote_nil].
  - destruct (Ha 0) as [x Hx]; [lia|]. rewrite Z.add_0_r in Hx. mstep (st_ok m (a + i) 0 x Hx).
    destruct (IH (<[a + i := u8 0]> m) a (i + 1)) as (m' & Hr & W).
    { apply accessible_insert. rewrite Z.add_assoc.
      apply (accessible_mono m (a + i) (Z.of_nat (S n))); [done|lia..]. }
    exists m'. split; [exact Hr|]. apply wrote_cons. by rewrite <- Z.add_assoc.
Qed.

(** A word stored on the stack page. *)
Lemma st_word_run m page top sp v :
  bytes_ok m → stack_page m page top → top - PGSIZE ≤ sp → sp + 8 ≤ top →
  ∃ m', st_le 8 (at_stack page top sp) v m = Ret (tt, m') ∧ bytes_ok m' ∧ keeps m m' ∧
    holds m' (at_stack page top sp) (FsSys.le_bytes 8 v) ∧
    (∀ a, ¬ (at_stack page top sp ≤ a < at_stack page top sp + 8) → m' !! a = m !! a).
Proof.
  intros Hb [Hl Hh Ht Hacc] Hlo Hhi.
  destruct (st_le_run 8 m (at_stack page top sp) v) as (m' & Hr & W).
  { unfold at_stack. replace (page + PGSIZE - top + sp) with (page + (PGSIZE - top + sp)) by lia.
    apply (accessible_mono m page PGSIZE); [done|lia..]. }
  exists m'. split_and!; [done| |by eapply wrote_keeps|by eapply wrote_holds|].
  - eapply wrote_bytes_ok; [done|apply le_bytes_bytes|done].
  - intros a Hn. apply (wrote_other _ _ _ _ _ W). by rewrite zlen_le8.
Qed.

Lemma push_pointers_run `{ExecFrame} page top arr p_str offs : ∀ m sp,
  bytes_ok m → stack_page m page top → holds m arr (words offs) →
  Forall (λ o, 0 ≤ o < 2 ^ 64) offs → top - PGSIZE ≤ sp - 8 * zlen offs → sp ≤ top →
  apart arr (8 * zlen offs) page PGSIZE →
  ∃ m', push_pointers (length offs) arr p_str page top sp m = Ret (sp - 8 * zlen offs, m') ∧
    bytes_ok m' ∧ keeps m m' ∧
    holds m' (at_stack page top (sp - 8 * zlen offs)) (words ((λ o, p_str + o) <$> offs)) ∧
    (∀ a, ¬ (at_stack page top (sp - 8 * zlen offs) ≤ a < at_stack page top sp) → m' !! a = m !! a).
Proof.
  induction offs as [|o offs IH] using rev_ind; intros m sp Hb Hpg Hw HF Hlo Hhi Hap.
  - exists m. cbn [length push_pointers]. change (zlen []) with 0.
    rewrite Z.mul_0_r, Z.sub_0_r. split_and!; [done..|apply holds_nil|done].
  - rewrite length_app, Nat.add_comm. cbn [Nat.add length push_pointers].
    rewrite words_app in Hw. apply holds_app in Hw as [Hw Ho]. rewrite zlen_words in Ho.
    apply Forall_app in HF as [HF HFo]. inversion_clear HFo.
    rewrite zlen_app in *. change (zlen [o]) with 1 in *. pose proof (zlen_nonneg offs).
    pose proof (sp_top _ _ _ Hpg) as Ht. rewrite u64_small by (unfold PGSIZE in *; lia).
    apply holds_words_cons in Ho as [Ho _]. unfold apart in Hap.
    mstep (ld_word m _ o Ho ltac:(done)). rewrite (stack_slot_eq m) by (done || lia).
    destruct (st_word_run m page top (sp - 8) (p_str + o)) as (m1 & Hst & Hb1 & Hk1 & Hw1 & Hf1);
      [done|done|lia..|]. mstep Hst. unfold at_stack in *.
    destruct (IH m1 (sp - 8)) as (m2 & Hr2 & Hb2 & Hk2 & Hw2 & Hf2); [done| | |done|lia|lia|unfold apart; lia|].
    { by eapply stack_page_frame. }
    { eapply holds_frame; [done|]. rewrite zlen_words. intros b Hb'. apply Hf1. lia. }
    exists m2. replace (sp - 8 * (zlen offs + 1)) with (sp - 8 - 8 * zlen offs) by lia.
    split_and!; [done|done|by etrans| |].
    + rewrite fmap_app, words_app. apply holds_app. split; [done|].
      rewrite zlen_words, zlen_fmap.
      apply holds_words_cons. split; [|apply holds_nil].
      replace (_ + 8 * zlen offs) with (page + PGSIZE - top + (sp - 8)) by lia.
      eapply holds_frame; [done|]. rewrite zlen_le8. intros b Hb'. apply Hf2. lia.
    + intros a Hn. rewrite Hf2 by lia. apply Hf1. lia.
Qed.

Definition aux_words (aux : list (Z * Z)) : list Z := aux ≫= λ p, [p.1; p.2].

Lemma push_auxv_run aux : ∀ m page top sp,
  bytes_ok m → stack_page m page top → top - PGSIZE ≤ sp → sp + 16 * zlen aux ≤ top →
  ∃ m', push_auxv aux (at_stack page top sp) m = Ret (tt, m') ∧ bytes_ok m' ∧ keeps m m' ∧
    holds m' (at_stack page top sp) (words (aux_words aux)) ∧
    (∀ a, ¬ (at_stack page top sp ≤ a < at_stack page top sp + 16 * zlen aux) → m' !! a = m !! a).
Proof.
  induction aux as [|[t v] aux IH]; intros m page top sp Hb Hpg Hlo Hhi; cbn [push_auxv].
  - exists m. split_and!; [done..|apply holds_nil|done].
  - rewrite zlen_cons in *. pose proof (zlen_nonneg aux).
    destruct (st_word_run m page top sp t) as (m1 & E1 & Hb1 & Hk1 & Hw1 & Hf1); [done|done|lia..|].
    destruct (st_word_run m1 page top (sp + 8) v) as (m2 & E2 & Hb2 & Hk2 & Hw2 & Hf2);
      [done|by eapply stack_page_frame|lia..|].
    destruct (IH m2 page top (sp + 16)) as (m3 & E3 & Hb3 & Hk3 & Hw3 & Hf3);
      [done|by eapply stack_page_frame; [|etrans]|lia..|].
    unfold at_stack in *. rewrite !Z.add_assoc in *.
    mstep E1. mstep E2. exists m3. split_and!; [done|done|by etrans; [|etrans]| |].
    + change (aux_words ((t, v) :: aux)) with (t :: v :: aux_words aux).
      apply holds_words_cons. split; [|apply holds_words_cons; split].
      * eapply holds_frame; [exact Hw1|]. rewrite zlen_le8. intros b Hb'. rewrite Hf3, Hf2 by lia. done.
      * eapply holds_frame; [exact Hw2|]. rewrite zlen_le8. intros b Hb'. apply Hf3. lia.
      * replace (page + PGSIZE - top + sp + 8 + 8) with (page + PGSIZE - top + sp + 16) by lia. done.
    + intros a Hn. rewrite Hf3, Hf2 by lia. apply Hf1. lia.
Qed.

(** ** The whole stack *)

Section build.
Context `{VmEnv} `{ExecFrame}.

(** The words of [argc], the two vectors and the auxiliary vector, below [sp]: the addresses
    [sp1] of the auxiliary vector, [pe] and [pa] of the two arrays of pointers. *)
Lemma vectors_run m page top sp args envs aux pas pes :
  let sp1 := sp - 16 * zlen aux in
  let pe := sp1 - 16 - 8 * zlen envs in
  let pa := pe - 8 - 8 * zlen args in
  bytes_ok m → stack_page m page top → sp ≤ top → top - PGSIZE ≤ pa - 8 →
  holds m loc_argv (words args) → holds m loc_envp (words envs) →
  Forall (λ o, 0 ≤ o < 2 ^ 64) args → Forall (λ o, 0 ≤ o < 2 ^ 64) envs →
  apart loc_argv (8 * zlen args) page PGSIZE → apart loc_envp (8 * zlen envs) page PGSIZE →
  ∃ m4 m5 m6 m7,
    push_auxv aux (at_stack page top sp1) m = Ret (tt, m4) ∧
    push_pointers (length envs) loc_envp pes page top (sp1 - 16) m4 = Ret (pe, m5) ∧
    push_pointers (length args) loc_argv pas page top (pe - 8) m5 = Ret (pa, m6) ∧
    st_le 8 (at_stack page top (pa - 8)) (zlen args) m6 = Ret (tt, m7) ∧
    holds m7 (at_stack page top sp1) (words (aux_words aux)) ∧
    holds m7 (at_stack page top pe) (words ((λ o, pes + o) <$> envs)) ∧
    holds m7 (at_stack page top pa) (words ((λ o, pas + o) <$> args)) ∧
    holds m7 (at_stack page top (pa - 8)) (words [zlen args]) ∧
    (∀ a, ¬ (at_stack page top (pa - 8) ≤ a < at_stack page top sp) → m7 !! a = m !! a) ∧
    (∀ a, at_stack page top (pe - 8) ≤ a < at_stack page top pe ∨
          at_stack page top (sp1 - 16) ≤ a < at_stack page top sp1 → m7 !! a = m !! a).
Proof.
  intros sp1 pe pa Hb Hpg Hhi Hlo Ha He HFa HFe Hapa Hape.
  pose proof (zlen_nonneg args). pose proof (zlen_nonneg envs). pose proof (zlen_nonneg aux).
  assert (Hlen : zlen (aux_words aux) = 2 * zlen aux).
  { clear. induction aux as [|[t v] aux IH]; [done|].
    change (aux_words ((t, v) :: aux)) with (t :: v :: aux_words aux). rewrite !zlen_cons. lia. }
  destruct (push_auxv_run aux m page top sp1) as (m4 & E4 & Hb4 & Hk4 & Hw4 & Hf4); [done|done|lia..|].
  destruct (push_pointers_run page top loc_envp pes envs m4 (sp1 - 16))
    as (m5 & E5 & Hb5 & Hk5 & Hw5 & Hf5); [done|by eapply stack_page_frame| |done|lia|lia|done|].
  { eapply holds_frame; [done|]. rewrite zlen_words. intros b Hb'. apply Hf4.
    unfold apart, at_stack in *. lia. }
  fold pe in E5, Hw5, Hf5.
  destruct (push_pointers_run page top loc_argv pas args m5 (pe - 8))
    as (m6 & E6 & Hb6 & Hk6 & Hw6 & Hf6);
    [done|by eapply stack_page_frame; [|etrans]| |done|lia|lia|done|].
  { eapply holds_frame; [done|]. rewrite zlen_words. intros b Hb'. rewrite Hf5, Hf4; [done|..];
    unfold apart, at_stack in *; lia. }
  fold pa in E6, Hw6, Hf6.
  destruct (st_word_run m6 page top (pa - 8) (zlen args)) as (m7 & E7 & Hb7 & Hk7 & Hw7 & Hf7);
    [done|by eapply stack_page_frame; [|etrans; [|etrans]]|lia..|].
  assert (Hfr : ∀ a, ¬ (at_stack page top sp1 ≤ a < at_stack page top sp) →
    ¬ (at_stack page top pe ≤ a < at_stack page top (sp1 - 16)) →
    ¬ (at_stack page top pa ≤ a < at_stack page top (pe - 8)) →
    ¬ (at_stack page top (pa - 8) ≤ a < at_stack page top pa) → m7 !! a = m !! a).
  { intros a ????. unfold at_stack in *. rewrite Hf7, Hf6, Hf5, Hf4; [done|lia..]. }
  exists m4, m5, m6, m7. unfold at_stack in *. split_and!; try done.
  - eapply holds_frame; [done|]. rewrite zlen_words. intros b Hb'. rewrite Hf7, Hf6, Hf5; [done|lia..].
  - eapply holds_frame; [done|]. rewrite zlen_words, zlen_fmap. intros b Hb'.
    rewrite Hf7, Hf6; [done|lia..].
  - eapply holds_frame; [done|]. rewrite zlen_words, zlen_fmap. intros b Hb'. apply Hf7. lia.
  - intros a Hn. apply Hfr; lia.
  - intros a Hn. apply Hfr; lia.
Qed.
(** What the call needs of memory: its scratch arrays and blocks and the page, none of
    them user memory that it reads (all are in [T]), and apart from each other where the
    contents must survive. *)
Record exec_layout (m : bytes) (T : Z → Prop) (page top : Z) (args envs : list str) (mema meme : Z) :
    Prop := {
  el_page : stack_page m page top;
  el_page_in : covers_range T page PGSIZE;
  el_args : scratch m T loc_argv mema args;
  el_envs : scratch m T loc_envp meme envs;
  el_argv_page : apart loc_argv 256 page PGSIZE;
  el_envp_page : apart loc_envp 256 page PGSIZE;
  el_mema_page : apart mema (128 * zlen args) page PGSIZE;
  el_meme_page : apart meme (128 * zlen envs) page PGSIZE;
  el_argv_envp : apart loc_argv 256 loc_envp 256;
  el_mema_envp : apart mema (128 * zlen args) loc_envp 256
}.

(** An array of pointers at the user address [p], to the strings, all on the stack page. *)
Definition pointers (m : bytes) (page top p : Z) (strs : list str) : Prop :=
  ∃ vas, holds m (at_stack page top p) (words vas) ∧
    Forall2 (λ va l, top - PGSIZE ≤ va ∧ va + zlen l < top ∧ cstr m (at_stack page top va) l) vas strs.

(** The new stack: [argc], the arguments, the environment and the auxiliary vector from [sp]
    upwards; the last words of the two arrays of pointers, and the word between the second
    and the auxiliary vector, are what the page held before. *)
Record stack_built (page top : Z) (m m' : bytes) (args envs : list str) (aux : list (Z * Z))
    (p_argv p_envp sp : Z) : Prop := {
  sb_sp : top - PGSIZE ≤ sp;
  sb_argv : p_argv = sp + 8;
  sb_envp : p_envp = p_argv + 8 * (zlen args + 1);
  sb_argc : holds m' (at_stack page top sp) (words [zlen args]);
  sb_args : pointers m' page top p_argv args;
  sb_envs : pointers m' page top p_envp envs;
  sb_aux : holds m' (at_stack page top (p_envp + 8 * (zlen envs + 2))) (words (aux_words aux));
  sb_no_null : ∀ a,
    at_stack page top (p_argv + 8 * zlen args) ≤ a < at_stack page top (p_argv + 8 * zlen args) + 8 ∨
    at_stack page top (p_envp + 8 * zlen envs) ≤ a < at_stack page top (p_envp + 8 * zlen envs) + 16 →
    m' !! a = m !! a
}.

Lemma pointers_intro m m' page top p base strs :
  strings_at m (at_stack page top base) strs → top - PGSIZE ≤ base → base + total strs ≤ top →
  (∀ a, at_stack page top base ≤ a < at_stack page top (base + total strs) → m' !! a = m !! a) →
  holds m' (at_stack page top p) (words ((λ o, base + o) <$> offsets 0 strs)) →
  pointers m' page top p strs.
Proof.
  intros Hs Hlo Hhi Hf Hw. eexists. split; [exact Hw|]. apply Forall2_fmap_l, Forall2_same_length_lookup.
  split; [by rewrite length_offsets|]. intros k off l Hoff Hl.
  destruct (strings_lookup m strs (at_stack page top base) 0 k l) as (off' & Hoff' & Hc); [by rewrite Z.add_0_r|done|].
  assert (off' = off) as -> by congruence.
  assert (Hend : 0 ≤ off ∧ off + zlen l < total strs).
  { by apply (offset_end strs 0 k). }
  split_and!; [lia..|].
  replace (at_stack page top (base + off)) with (at_stack page top base + off) by (unfold at_stack; lia).
  eapply cstr_frame; [exact Hc|]. intros b Hb. apply Hf. pose proof (zlen_nonneg l).
  unfold at_stack in *. lia.
Qed.
Lemma offsets_words strs :
  zlen strs < MAX_ARGS → Forall (λ l, zlen l < MAX_ARG_STRLEN) strs →
  Forall (λ o, 0 ≤ o < 2 ^ 64) (offsets 0 strs) ∧ zlen (offsets 0 strs) = zlen strs.
Proof.
  intros Hn Hs. unfold MAX_ARGS in *. split; [|unfold zlen; by rewrite length_offsets].
  apply Forall_forall. intros o Ho%offsets_range. pose proof (total_le strs Hs). lia.
Qed.

Lemma scratch_frame m m' T arr mem strs :
  scratch m T arr mem strs → keeps m m' → scratch m' T arr mem strs.
Proof. intros [] Hk. split; try done; intros i Hi; apply Hk; auto. Qed.

Lemma pushed_outside page top s s' sp arr mem strs T m :
  pushed page top s s' sp arr mem strs → scratch m T arr mem strs → covers_range T page PGSIZE →
  top - PGSIZE ≤ sp - total strs → sp ≤ top → ∀ a, ¬ T a → pmem s' !! a = pmem s !! a.
Proof.
  intros P [] Hpg Hlo Hhi a Hn. apply (pu_frame _ _ _ _ _ _ _ _ P).
  - by eapply covers_in.
  - by eapply covers_in.
  - intros Hin. apply (covers_in _ _ _ _ Hpg Hn). unfold at_stack in Hin. lia.
Qed.

(** The zeroed top of the page. *)
Lemma leave_space_run m page top :
  bytes_ok m → stack_page m page top →
  ∃ m', memset (page + (PGSIZE - 128)) 0 (Z.to_nat 128) m = Ret (page + (PGSIZE - 128), m') ∧
    bytes_ok m' ∧ keeps m m' ∧
    (∀ a, ¬ (at_stack page top (top - 128) ≤ a < at_stack page top top) → m' !! a = m !! a).
Proof.
  intros Hb Hpg. destruct (memset_run (Z.to_nat 128) m (page + (PGSIZE - 128)) 0) as (m' & E & W).
  { rewrite Z.add_0_r. apply (accessible_mono m page PGSIZE); [apply Hpg|done..]. }
  rewrite Z.add_0_r in W. exists m'. split_and!.
  - unfold memset. by mstep E.
  - eapply wrote_bytes_ok; [done|by apply Forall_replicate|done].
  - by eapply wrote_keeps.
  - intros a Hn. apply (wrote_other _ _ _ _ _ W). unfold zlen. rewrite length_replicate.
    unfold at_stack in Hn. lia.
Qed.

(** The strings of both vectors are on the page, and the offsets in the two arrays. *)
Lemma strings_stage s root T uargv uenvp aptrs eptrs args envs page top mema meme fs :
  let sp1 := top - 128 - total envs in
  let sp2 := sp1 - total args in
  pt_ok (pt_pages s) root → root ≠ kernel_pagetable → bytes_ok (pmem s) →
  uvec s root T uargv aptrs args → uvec s root T uenvp eptrs envs →
  exec_layout (pmem s) T page top args envs mema meme → frames s = meme :: mema :: fs →
  top - PGSIZE ≤ sp2 →
  ∃ m0 s1 s2,
    memset (page + (PGSIZE - 128)) 0 (Z.to_nat 128) (pmem s) = Ret (page + (PGSIZE - 128), m0) ∧
    push_env root uenvp page top (top - 128) (set_pmem m0 s) = Ret (Some (zlen envs, sp1), s1) ∧
    push_args root uargv page top sp1 s1 = Ret (Some (zlen args, sp2), s2) ∧
    pt_pages s2 = pt_pages s ∧ frames s2 = fs ∧ bytes_ok (pmem s2) ∧ stack_page (pmem s2) page top ∧
    holds (pmem s2) loc_argv (words (offsets 0 args)) ∧
    holds (pmem s2) loc_envp (words (offsets 0 envs)) ∧
    strings_at (pmem s2) (at_stack page top sp2) args ∧
    strings_at (pmem s2) (at_stack page top sp1) envs ∧
    (∀ a, ¬ T a → pmem s2 !! a = pmem s !! a) ∧
    (∀ a, page ≤ a < at_stack page top sp2 → pmem s2 !! a = pmem s !! a).
Proof.
  intros sp1 sp2 Tr Hk Hb Ua Ue [Hpg HpgT Sa Se Hap Hep Hmp Hmep Hae Hme] Hfr Hlo.
  pose proof (total_nonneg args). pose proof (total_nonneg envs). pose proof (sp_top _ _ _ Hpg) as Ht.
  pose proof (uv_count _ _ _ _ _ _ Ua) as Hna. pose proof (uv_count _ _ _ _ _ _ Ue) as Hne.
  destruct (leave_space_run (pmem s) page top Hb Hpg) as (m0 & E0 & Hb0 & Hk0 & Hf0).
  assert (HT0 : ∀ a, ¬ T a → m0 !! a = pmem s !! a).
  { intros a Hn. apply Hf0. intros Hin. apply (covers_in _ _ _ _ HpgT Hn).
    unfold at_stack, PGSIZE in *. lia. }
  destruct (push_env_run (set_pmem m0 s) root T uenvp eptrs envs meme page top (top - 128) (mema :: fs))
    as (s1 & E1 & P1); [done|done|done|by eapply uvec_frame|by eapply scratch_frame|done|
      by eapply stack_page_frame|lia|lia|done|].
  assert (HT1 : ∀ a, ¬ T a → pmem s1 !! a = m0 !! a)
    by (eapply (pushed_outside page top (set_pmem m0 s) s1); [done..|lia|lia]).
  pose proof P1 as [Ht1 Hf1 Hb1 Hk1 Ho1 Hs1 Hm1]. cbn in Ht1, Hf1, Hk1. rewrite Hfr in Hf1. simplify_eq/=.
  assert (Hk01 : keeps (pmem s) (pmem s1)) by by etrans.
  destruct (push_args_run s1 root T uargv aptrs args mema page top sp1 fs)
    as (s2 & E2 & P2); [by rewrite Ht1|done|done| |by eapply scratch_frame|done|
      by eapply stack_page_frame|lia|lia|done|].
  { eapply uvec_frame; [exact Ua|done|]. intros a Hn. by rewrite HT1, HT0. }
  assert (HT2 : ∀ a, ¬ T a → pmem s2 !! a = pmem s1 !! a)
    by (eapply (pushed_outside page top s1 s2); [done..|lia|lia]).
  pose proof P2 as [Ht2 Hf2 Hb2 Hk2 Ho2 Hs2 Hm2].
  exists m0, s1, s2. unfold apart, at_stack in *. split_and!; try done.
  - by rewrite Ht2.
  - congruence.
  - by eapply stack_page_frame; [|etrans].
  - eapply holds_frame; [exact Ho1|]. rewrite zlen_words. destruct (offsets_words envs) as [_ ->];
      [lia|by eapply ustrings_short, uv_strs|]. unfold MAX_ARGS in *. intros b Hb'. apply Hm2; lia.
  - eapply strings_move; [exact Hs1|]. intros j Hj. apply Hm2; lia.
  - intros a Hn. by rewrite HT2, HT1, HT0.
  - intros a Hin. rewrite Hm2, Hm1 by lia. apply Hf0. lia.
Qed.

(** [build_stack] step by step. *)
Lemma build_stack_steps s root uargv uenvp page top aux m m0 s1 s2 m4 m5 m6 m7 sp1 sp2 pe pa na ne :
  stack_page m page top → 0 < uargv → 0 < uenvp → 0 ≤ zlen aux → 0 ≤ na → 0 ≤ ne →
  sp2 ≤ top → pe = sp2 - 16 * zlen aux - 16 - 8 * ne → pa = pe - 8 - 8 * na → top - PGSIZE ≤ pa - 8 →
  memset (page + (PGSIZE - 128)) 0 (Z.to_nat 128) (pmem s) = Ret (page + (PGSIZE - 128), m0) →
  push_env root uenvp page top (top - 128) (set_pmem m0 s) = Ret (Some (ne, sp1), s1) →
  push_args root uargv page top sp1 s1 = Ret (Some (na, sp2), s2) →
  push_auxv aux (at_stack page top (sp2 - 16 * zlen aux)) (pmem s2) = Ret (tt, m4) →
  push_pointers (Z.to_nat ne) loc_envp sp1 page top (sp2 - 16 * zlen aux - 16) m4 = Ret (pe, m5) →
  push_pointers (Z.to_nat na) loc_argv sp2 page top (pe - 8) m5 = Ret (pa, m6) →
  st_le 8 (at_stack page top (pa - 8)) na m6 = Ret (tt, m7) →
  build_stack root uargv uenvp page top aux s = Ret (Some (na, pa, pe, pa - 8), set_pmem m7 s2).
Proof.
  intros Hpg Hva Hve Hx Hna Hne Hhi Hpe Hpa Hlo E0 E1 E2 E4 E5 E6 E7.
  pose proof (sp_top _ _ _ Hpg) as Ht. unfold build_stack, PGSIZE in *. cbv zeta.
  rewrite (u64_small (top - 128)) by lia. mstep (on_pmem_run _ s _ _ E0). unfold ctrue.
  rewrite (proj2 (Z.eqb_neq uenvp 0)), (proj2 (Z.eqb_neq uargv 0)) by lia. cbn [negb].
  mstep E1. mstep E2.
  rewrite (u64_small (sp2 - _)), (stack_slot_eq m) by (done || unfold PGSIZE; lia).
  mstep (on_pmem_run _ s2 _ _ E4). rewrite (u64_small (sp2 - 16 * zlen aux - 8)), (u64_small (_ - 8 - 8)) by lia.
  replace (sp2 - 16 * zlen aux - 8 - 8) with (sp2 - 16 * zlen aux - 16) by lia.
  mstep (on_pmem_run _ (set_pmem m4 s2) _ _ E5). rewrite (u64_small (pe - 8)) by lia.
  mstep (on_pmem_run _ (set_pmem m5 (set_pmem m4 s2)) _ _ E6). rewrite (u64_small (pa - 8)) by lia.
  rewrite (stack_slot_eq m) by (done || unfold PGSIZE; lia).
  by mstep (on_pmem_run _ (set_pmem m6 (set_pmem m5 (set_pmem m4 s2))) _ _ E7).
Qed.

(** C38: The stack that [execve] builds: [build_stack] returns, and the stack page has [argc] at
    the stack pointer, behind it the pointers to the arguments, those to the environment and the
    auxiliary vector, and every string where its pointer says; the NULLs that should end the two
    vectors are never written, and the auxiliary vector is one word further than a C program
    expects.  No memory but the local arrays, the scratch blocks and the page changes.
    Conditions: both vectors are there, with 1 to 31 strings of less than 128 bytes, each within
    a page, and 256 readable bytes from the start of each vector; the kernel's arrays, its
    scratch blocks and the stack page are memory apart from each other and from the user's
    bytes; the caller's page table is well formed and not the kernel's; and everything fits the
    one stack page, which the code does not check.  An empty vector stops the kernel
    ([empty_vector_panics]). *)
Theorem build_stack_spec s root T uargv uenvp aptrs eptrs args envs aux page top mema meme fs :
  pt_ok (pt_pages s) root → root ≠ kernel_pagetable → bytes_ok (pmem s) →
  uvec s root T uargv aptrs args → uvec s root T uenvp eptrs envs →
  exec_layout (pmem s) T page top args envs mema meme → frames s = meme :: mema :: fs →
  128 + total envs + total args + 16 * zlen aux + 8 * (zlen envs + zlen args + 4) ≤ PGSIZE →
  ∃ s' p_argv p_envp sp,
    build_stack root uargv uenvp page top aux s = Ret (Some (zlen args, p_argv, p_envp, sp), s') ∧
    stack_built page top (pmem s) (pmem s') args envs aux p_argv p_envp sp ∧
    pt_pages s' = pt_pages s ∧ frames s' = fs ∧ (∀ a, ¬ T a → pmem s' !! a = pmem s !! a).
Proof.
  intros Tr Hk Hb Ua Ue Lay Hfr Hroom.
  pose proof (total_nonneg args). pose proof (total_nonneg envs). pose proof (zlen_nonneg aux).
  pose proof (zlen_nonneg args). pose proof (zlen_nonneg envs).
  pose proof (uv_va _ _ _ _ _ _ Ua) as Hva. pose proof (uv_va _ _ _ _ _ _ Ue) as Hve.
  pose proof (uv_count _ _ _ _ _ _ Ua) as Hna. pose proof (uv_count _ _ _ _ _ _ Ue) as Hne.
  destruct (offsets_words args) as [HFa Hla]; [lia|by eapply ustrings_short, uv_strs|].
  destruct (offsets_words envs) as [HFe Hle]; [lia|by eapply ustrings_short, uv_strs|].
  pose proof (sp_top _ _ _ (el_page _ _ _ _ _ _ _ _ Lay)) as Ht.
  set (sp1 := top - 128 - total envs). set (sp2 := sp1 - total args).
  destruct (strings_stage s root T uargv uenvp aptrs eptrs args envs page top mema meme fs)
    as (m0 & s1 & s2 & E0 & E1 & E2 & Ht2 & Hfr2 & Hb2 & Hpg2 & Hoa & Hoe & Hsa & Hse & HT & Hlow);
    [done..|lia|]. fold sp1 in E1, E2, Hse. fold sp2 in E2, Hsa, Hlow.
  destruct (vectors_run (pmem s2) page top sp2 (offsets 0 args) (offsets 0 envs) aux sp2 sp1)
    as (m4 & m5 & m6 & m7 & E4 & E5 & E6 & E7 & Hx & He & Ha & Hc & Hf & Hn); rewrite ?Hla, ?Hle;
    [done|done|lia|lia|done|done|done|done|..].
  { destruct (el_argv_page _ _ _ _ _ _ _ _ Lay); [left|right]; unfold MAX_ARGS in *; lia. }
  { destruct (el_envp_page _ _ _ _ _ _ _ _ Lay); [left|right]; unfold MAX_ARGS in *; lia. }
  rewrite ?Hla, ?Hle in *. set (pe := sp2 - 16 * zlen aux - 16 - 8 * zlen envs) in *.
  set (pa := pe - 8 - 8 * zlen args) in *.
  exists (set_pmem m7 s2), pa, pe, (pa - 8). split; [|split_and!; [split|..]]; cbn; try done.
  - rewrite length_offsets in E5, E6. rewrite <- to_nat_zlen in E5, E6.
    eapply (build_stack_steps s root uargv uenvp page top aux (pmem s2) m0 s1 s2 m4 m5 m6 m7 sp1 sp2);
      first [eassumption|lia].
  - lia.
  - lia.
  - lia.
  - eapply (pointers_intro (pmem s2) m7 page top pa sp2); [done|lia|lia| |done].
    intros a Hin. apply Hf. unfold at_stack in *. lia.
  - eapply (pointers_intro (pmem s2) m7 page top pe sp1); [done|lia|lia| |done].
    intros a Hin. apply Hf. unfold at_stack in *. lia.
  - by replace (pe + 8 * (zlen envs + 2)) with (sp2 - 16 * zlen aux) by lia.
  - intros a Hin. unfold at_stack in *. rewrite Hn by lia. apply Hlow. lia.
  - intros a HnT. rewrite <- HT by done. apply Hf. intros Hin.
    apply (covers_in _ _ _ _ (el_page_in _ _ _ _ _ _ _ _ Lay) HnT). unfold at_stack in *. lia.
Qed.
End build.

(** Hypotheses about a concrete state, as tests. *)
Section check.
Context (s : vm) (root : Z) (T : Z → Prop) `{∀ a, Decision (T a)}.
#[local] Abbreviation tr := (translate (pt_pages s) root).

Lemma below (P : Z → Prop) n : Forall P (seqZ 0 n) → ∀ j, 0 ≤ j < n → P j.
Proof. rewrite Forall_forall. intros Hb j Hj. by apply Hb, elem_of_seqZ. Qed.
Lemma indexed (P : nat → Z → Prop) (l : list Z) :
  Forall (λ p : nat * Z, P p.1 p.2) (imap pair l) → ∀ i x, l !! i = Some x → P i x.
Proof.
  rewrite Forall_lookup. intros Hb i x Hx. apply (Hb i (i, x)). by rewrite list_lookup_imap, Hx.
Qed.

Lemma check_accessible m a n :
  bool_decide (Forall (λ j, is_Some (m !! (a + j))) (seqZ 0 n)) = true → accessible m a n.
Proof. intros Hb%bool_decide_eq_true_1. exact (below _ n Hb). Qed.
Lemma check_covers a n :
  bool_decide (Forall (λ j, T (a + j)) (seqZ 0 n)) = true → covers_range T a n.
Proof. intros Hb%bool_decide_eq_true_1. exact (below _ n Hb). Qed.

Lemma check_ustring w l :
  bool_decide (0 < w < MAXVA ∧ w mod PGSIZE + zlen l < PGSIZE ∧ zlen l < MAX_ARG_STRLEN ∧
    tr (PGROUNDDOWN w) ≠ 0) = true →
  bool_decide (Forall (λ p : nat * Z, pmem s !! (tr w + Z.of_nat p.1) = Some p.2)
    (imap pair (l ++ [0]))) = true →
  bool_decide (Forall (λ c, 0 < c < 256) l) = true →
  bool_decide (Forall (λ j, ¬ T (tr w + j)) (seqZ 0 (zlen l + 1))) = true →
  ustring s root T w l.
Proof.
  intros (Hw & Hp & Hl & Hm)%bool_decide_eq_true_1 Hb%bool_decide_eq_true_1
    Hc%bool_decide_eq_true_1 Ht%bool_decide_eq_true_1. split; [done..| |].
  - split; [|done].
    exact (indexed (λ i x, pmem s !! (tr w + Z.of_nat i) = Some x) _ Hb).
  - intros j Hj. apply (below (λ j, ¬ T (tr w + j)) _ Ht). lia.
Qed.

Lemma check_uvec u ptrs strs :
  bool_decide ((0 < u ∧ u + 256 < MAXVA) ∧ (0 < zlen strs ∧ zlen strs < MAX_ARGS)) = true →
  bool_decide (Forall (λ j, tr (PGROUNDDOWN (u + j)) ≠ 0 ∧ is_Some (pmem s !! tr (u + j)) ∧
    ¬ T (tr (u + j))) (seqZ 0 256)) = true →
  bool_decide (Forall (λ p : nat * Z, pmem s !! tr (u + Z.of_nat p.1) = Some p.2)
    (imap pair (words (ptrs ++ [0])))) = true →
  Forall2 (ustring s root T) ptrs strs → uvec s root T u ptrs strs.
Proof.
  intros (Hu & Hn)%bool_decide_eq_true_1 Hb%bool_decide_eq_true_1
    Hw%bool_decide_eq_true_1 Hs.
  pose proof (below (λ j, tr (PGROUNDDOWN (u + j)) ≠ 0 ∧ is_Some (pmem s !! tr (u + j)) ∧
    ¬ T (tr (u + j))) _ Hb) as Hj.
  split; [done|done| | | |done].
  - intros j H'. by destruct (Hj j H') as (? & ? & _).
  - exact (indexed (λ i x, pmem s !! tr (u + Z.of_nat i) = Some x) _ Hw).
  - intros j H'. by destruct (Hj j H') as (_ & _ & ?).
Qed.
Lemma check_scratch m arr mem strs :
  bool_decide (arr ≠ 0 ∧ Forall (λ j, is_Some (m !! (arr + j))) (seqZ 0 256) ∧
    Forall (λ j, T (arr + j)) (seqZ 0 256) ∧
    Forall (λ j, is_Some (m !! (mem + j))) (seqZ 0 (128 * zlen strs)) ∧
    Forall (λ j, T (mem + j)) (seqZ 0 (128 * zlen strs)) ∧
    (arr + 256 ≤ mem ∨ mem + 128 * zlen strs ≤ arr)) = true →
  scratch m T arr mem strs.
Proof.
  intros (H0 & H1 & H2 & H3 & H4 & H5)%bool_decide_eq_true_1.
  split; [exact H0|exact (below _ _ H1)|exact (below _ _ H2)|exact (below _ _ H3)|
    exact (below _ _ H4)|exact H5].
Qed.
End check.

(** ** [ls -l] with one variable *)

Section demo.
#[local] Existing Instance demo_vm_env.
#[local] Instance demo_frame : ExecFrame := {|
  loc_argv := 0x87f00000; loc_envp := 0x87f00100; loc_interp_path := 0x87f00200;
  loc_path := 0x87f00280; loc_elf := 0x87f00300; loc_phdr := 0x87f00340;
  loc_ld_elf := 0x87f00380
|}.

(** The bytes [l] at [a]. *)
Definition put (a : Z) (l : list Z) (m : bytes) : bytes :=
  list_to_map (zip (seqZ a (zlen l)) l) ∪ m.

Definition demo_args : list str := [[108; 115]; [45; 108]].
Definition demo_envs : list str := [[65; 61; 98]].
(** User page 0 is at 0x87ffe000; the stack page holds sevens. *)
Definition demo_mem : bytes :=
  put 0x87ffe400 [108; 115; 0] (put 0x87ffe408 [45; 108; 0] (put 0x87ffe410 [65; 61; 98; 0]
  (put 0x87ffe100 (words [0x400; 0x408; 0]) (put 0x87ffe200 (words [0x410; 0])
  (put 0x87ffe100 (replicate 800 0) (put 0x87f00000 (replicate 512 9)
  (put 0x80420000 (replicate 128 9) (put 0x80421000 (replicate 256 9)
  (put 0x80430000 (replicate 4096 7) ∅))))))))).
Definition demo_stack_vm : vm :=
  Vm (pt_pages demo_vm1) demo_mem (pcnt demo_vm1) [0x80420000; 0x80421000] [] ∅.

Definition demo_ranges : list (Z * Z) :=
  [(0x87f00000, 512); (0x80420000, 128); (0x80421000, 256); (0x80430000, 4096)].
Definition demo_T (a : Z) : Prop := Exists (λ r : Z * Z, r.1 ≤ a < r.1 + r.2) demo_ranges.
#[local] Instance demo_T_dec a : Decision (demo_T a) := _.

Lemma demo_stack_page : stack_page demo_mem 0x80430000 0x10000.
Proof. split; [lia|reflexivity|split; [discriminate|reflexivity]|]. apply check_accessible. by vm_compute. Qed.

Lemma demo_layout : exec_layout demo_mem demo_T 0x80430000 0x10000 demo_args demo_envs 0x80421000 0x80420000.
Proof.
  split.
  - exact demo_stack_page.
  - apply (check_covers demo_T). by vm_compute.
  - apply (check_scratch demo_T). by vm_compute.
  - apply (check_scratch demo_T). by vm_compute.
  - apply (bool_decide_unpack _). by vm_compute.
  - apply (bool_decide_unpack _). by vm_compute.
  - apply (bool_decide_unpack _). by vm_compute.
  - apply (bool_decide_unpack _). by vm_compute.
  - apply (bool_decide_unpack _). by vm_compute.
  - apply (bool_decide_unpack _). by vm_compute.
Qed.

Lemma demo_argv : uvec demo_stack_vm demo_parent demo_T 0x100 [0x400; 0x408] demo_args.
Proof.
  apply (check_uvec demo_stack_vm demo_parent demo_T); [by vm_compute..|].
  apply Forall2_cons_2; [|apply Forall2_cons_2; [|apply Forall2_nil_2]].
  - apply (check_ustring demo_stack_vm demo_parent demo_T); by vm_compute.
  - apply (check_ustring demo_stack_vm demo_parent demo_T); by vm_compute.
Qed.

Lemma demo_envp : uvec demo_stack_vm demo_parent demo_T 0x200 [0x410] demo_envs.
Proof.
  apply (check_uvec demo_stack_vm demo_parent demo_T); [by vm_compute..|].
  apply Forall2_cons_2; [|apply Forall2_nil_2].
  apply (check_ustring demo_stack_vm demo_parent demo_T); by vm_compute.
Qed.

(** A vector that is there but empty stops the kernel: [kalloc] of no bytes does. *)
Example empty_vector_panics :
  build_stack demo_parent 0x100 0x208 0x80430000 0x10000 [] demo_stack_vm = Panic.
Proof. by vm_compute. Qed.

Lemma build_stack_spec_witness :
  ∃ s' p_argv p_envp sp,
    build_stack demo_parent 0x100 0x200 0x80430000 0x10000 [] demo_stack_vm =
      Ret (Some (2, p_argv, p_envp, sp), s') ∧
    pointers (pmem s') 0x80430000 0x10000 p_argv demo_args ∧
    pmem s' !! at_stack 0x80430000 0x10000 (p_argv + 16) = demo_mem !! at_stack 0x80430000 0x10000 (p_argv + 16).
Proof.
  destruct (build_stack_spec demo_stack_vm demo_parent demo_T 0x100 0x200 [0x400; 0x408] [0x410]
    demo_args demo_envs [] 0x80430000 0x10000 0x80421000 0x80420000 [])
    as (s' & pa & pe & sp & E & B & _).
  - apply demo_vm1_grow.
  - discriminate.
  - apply map_Forall_to_list. apply (bool_decide_unpack _). by vm_compute.
  - exact demo_argv.
  - exact demo_envp.
  - exact demo_layout.
  - reflexivity.
  - by vm_compute.
  - exists s', pa, pe, sp. split; [exact E|]. destruct B as [Hsp Ea Ee _ Hargs _ _ Hn].
    split; [exact Hargs|]. apply Hn. left. change (zlen demo_args) with 2. unfold at_stack. lia.
Defined.
End demo.
