(* ===== verification/Trap.v ===== *)
(** * Traps and the dispatch of system calls

    Models [kernel/arch/riscv/trap/trap.c] and [kernel/arch/riscv/boot/syscall.c] with the
    table of [kernel/include/syscall.h] over the processes of [Proc], the areas of [Vma], the
    page tables, the files of [FsSys] and the interrupt table of [Irq].  A function that the
    kernel enters from the trap vectors ends in one of three ways ([flow]): it returns, the
    process leaves the CPU in [sched] and goes on later where the definitions with the suffix
    [_end] start, or the process is gone in [do_exit].  Registers saved by assembly are in the
    trapframe; [userret] and [sret] are assembly, [ToUser] is the call of [userret]. *)

From S2P Require Export Irq.
From S2P Require Export ProcCalls.
From S2P Require Export Exec.

(** ** Codes ([trap/trap.h], [arch.h]) *)

Definition INTERRUPT : Z := 1.
Definition EXCEPTION : Z := 0.
Definition SUPERVISOR_SOFTWARE_INTERRUPT : Z := 1.
Definition SUPERVISOR_TIMER_INTERRUPT : Z := 5.
Definition SUPERVISOR_EXTERNEL_INTERRUPT : Z := 9.
Definition NR_INTERRUPT : Z := 13.
Definition ENVIRONMENT_CALL_FROM_U_MODE : Z := 8.
Definition ENVIRONMENT_CALL_FROM_S_MODE : Z := 9.
Definition INSTRUCTION_PAGE_FAULT : Z := 12.
Definition LOAD_PAGE_FAULT : Z := 13.
Definition STORE_AMO_PAGE_FAULT : Z := 15.
Definition NR_EXCEPTION : Z := 17.

Definition SSTATUS_SPP : Z := Z.shiftl 1 8.
Definition SSTATUS_SPIE : Z := Z.shiftl 1 5.
Definition SSTATUS_SIE : Z := Z.shiftl 1 1.
Definition SATP_SV39 : Z := Z.shiftl 8 60.
Definition MAKE_SATP (pagetable : Z) : Z := Z.lor SATP_SV39 (Z.shiftr (u64 pagetable) 12).

(** ** System calls ([syscall.h]) *)

Inductive sysno :=
  | SYS_getcwd | SYS_pipe2 | SYS_dup | SYS_dup3 | SYS_chdir | SYS_openat | SYS_close
  | SYS_getdents64 | SYS_truncate64 | SYS_faccessat | SYS_read | SYS_write | SYS_linkat
  | SYS_unlinkat | SYS_mkdirat | SYS_umount2 | SYS_mount | SYS_fstat
  | SYS_clone | SYS_execve | SYS_wait4 | SYS_exit | SYS_getppid | SYS_getpid | SYS_fork
  | SYS_getuid | SYS_geteuid | SYS_getgid | SYS_getegid
  | SYS_brk | SYS_munmap | SYS_mmap
  | SYS_times | SYS_uname | SYS_sched_yield | SYS_gettimeofday | SYS_nanosleep.

#[export] Instance sysno_eq_dec : EqDecision sysno.
Proof. solve_decision. Defined.

(** [SYSCALLS] with the numbers of the macros. *)
Definition SYSCALLS : list (Z * sysno) := [
  (17, SYS_getcwd); (59, SYS_pipe2); (23, SYS_dup); (24, SYS_dup3); (49, SYS_chdir);
  (56, SYS_openat); (57, SYS_close); (61, SYS_getdents64); (45, SYS_truncate64);
  (48, SYS_faccessat); (63, SYS_read); (64, SYS_write); (37, SYS_linkat);
  (35, SYS_unlinkat); (34, SYS_mkdirat); (39, SYS_umount2); (40, SYS_mount); (80, SYS_fstat);
  (220, SYS_clone); (221, SYS_execve); (260, SYS_wait4); (93, SYS_exit); (173, SYS_getppid);
  (172, SYS_getpid); (219, SYS_fork); (174, SYS_getuid); (175, SYS_geteuid);
  (176, SYS_getgid); (177, SYS_getegid); (214, SYS_brk); (215, SYS_munmap); (222, SYS_mmap);
  (153, SYS_times); (160, SYS_uname); (124, SYS_sched_yield); (169, SYS_gettimeofday);
  (101, SYS_nanosleep)].

(** An array with designated initialisers: as long as the largest index asks for, NULL where
    nothing is said, the last word on an index wins. *)
Definition designated {A} (l : list (Z * A)) : list (option A) :=
  foldl (λ v p, <[Z.to_nat p.1 := Some p.2]> v)
    (replicate (Z.to_nat (1 + foldr (λ p m, Z.max p.1 m) (-1) l)) None) l.

Definition syscalls : list (option sysno) := designated SYSCALLS.

(** ** The machine *)

(** The control registers of the hart.  The bit [SIE] of [sstatus] is kept with the CPU of
    the lock environment; [sstatus_rest] is the register without it. *)
Record csrs := Csrs {
  sstatus_rest : Z;
  sepc : Z;
  scause : Z;
  stval : Z;
  stvec : Z;
  satp : Z;
  sip : Z
}.

(** The functions that [trap_init] puts into the tables. *)
Inductive handler :=
  | timer_interrupt | s_mode_ecall | syscall_from_user | external_interrupt
  | store_page_fault | page_unmap.

#[export] Instance handler_eq_dec : EqDecision handler.
Proof. solve_decision. Defined.

Record machine (F : Type) := Machine {
  kern : kernel F;
  csr : csrs;
  interrupt_handler_vector : list (option handler);
  exception_handler_vector : list (option handler);
  m_tab : irqtab;
  m_plic : plic
}.
Arguments Machine {F} _ _ _ _ _ _.
Arguments kern {F} _.
Arguments csr {F} _.
Arguments interrupt_handler_vector {F} _.
Arguments exception_handler_vector {F} _.
Arguments m_tab {F} _.
Arguments m_plic {F} _.

Section machine_setters.
Context {F : Type}.

Definition set_kern (x : kernel F) (s : machine F) : machine F :=
  Machine x (csr s) (interrupt_handler_vector s)
    (exception_handler_vector s) (m_tab s) (m_plic s).
Definition set_csr (x : csrs) (s : machine F) : machine F :=
  Machine (kern s) x (interrupt_handler_vector s)
    (exception_handler_vector s) (m_tab s) (m_plic s).
Definition set_ivec (x : list (option handler)) (s : machine F) : machine F :=
  Machine (kern s) (csr s) x (exception_handler_vector s)
    (m_tab s) (m_plic s).
Definition set_evec (x : list (option handler)) (s : machine F) : machine F :=
  Machine (kern s) (csr s) (interrupt_handler_vector s) x
    (m_tab s) (m_plic s).
Definition set_m_tab (x : irqtab) (s : machine F) : machine F :=
  Machine (kern s) (csr s) (interrupt_handler_vector s)
    (exception_handler_vector s) x (m_plic s).
Definition set_m_plic (x : plic) (s : machine F) : machine F :=
  Machine (kern s) (csr s) (interrupt_handler_vector s)
    (exception_handler_vector s) (m_tab s) x.

Definition set_sstatus_rest (x : Z) (c : csrs) : csrs :=
  Csrs x (sepc c) (scause c) (stval c) (stvec c) (satp c) (sip c).
Definition set_sepc (x : Z) (c : csrs) : csrs :=
  Csrs (sstatus_rest c) x (scause c) (stval c) (stvec c) (satp c) (sip c).
Definition set_stvec (x : Z) (c : csrs) : csrs :=
  Csrs (sstatus_rest c) (sepc c) (scause c) (stval c) x (satp c) (sip c).
Definition set_sip (x : Z) (c : csrs) : csrs :=
  Csrs (sstatus_rest c) (sepc c) (scause c) (stval c) (stvec c) (satp c) x.
End machine_setters.

(** What the traps use besides: addresses the linker chooses, the handlers of devices, the
    program loader, and which firmware the kernel is built for. *)
Class TrapEnv (F : Type) := {
  BIOS_SBI : bool;
  kernelvec : Z;
  uservec_trampoline : Z;
  userret_trampoline : Z;
  user_trap_fn : Z;
  device_isr : Z → Z → Z → M (kernel F) Z
}.

#[export] Instance machine_irq {F} `{TrapEnv F} : IrqState (machine F).
Proof.
  unshelve refine {|
    irq_tab := Lens m_tab set_m_tab;
    irq_plic := Lens m_plic set_m_plic;
    call_isr := λ h irq data, zoom (Lens kern set_kern) (device_isr h irq data)
  |}; split; by intros; try (destruct s).
Defined.

(** How a function entered from a trap vector ends. *)
Inductive flow :=
  | Returned
  | Away
  | Gone.

(** How a system call ends: with a result; in [sched], to be continued with the result given
    or ([None]) with another turn of [wait4]'s loop; or in [do_exit]. *)
Inductive sysend :=
  | Result (r : Z)
  | Blocked (r : option Z)
  | Ended.

(** How [kernel_trap] ends: back in the code it interrupted; suspended in a handler that gave
    up the CPU, with its local variables [sepc] and [sstatus] on the stack of the process; or
    never. *)
Inductive kernel_exit :=
  | KReturned
  | KSuspended (sepc sstatus : Z)
  | KGone.

Inductive user_exit :=
  | ToUser (trapframe satp : Z)
  | Left (f : flow).

#[export] Instance flow_eq_dec : EqDecision flow.
Proof. solve_decision. Defined.
#[export] Instance kernel_exit_eq_dec : EqDecision kernel_exit.
Proof. solve_decision. Defined.
#[export] Instance user_exit_eq_dec : EqDecision user_exit.
Proof. solve_decision. Defined.

Section trap.
Context {F : Type} `{SysEnv F} `{VmEnv} `{ProcEnv} `{ExecFrame} `{!TrapEnv F}.

Definition on_kern {A} (m : M (kernel F) A) : M (machine F) A := zoom (Lens kern set_kern) m.

(** ** Control registers *)

Definition r_sstatus : M (machine F) Z :=
  c ← gets csr;
  i ← on_kern (on_fs intr_get);
  mret (Z.lor (sstatus_rest c) (if i : bool then SSTATUS_SIE else 0)).
Definition w_sstatus (v : Z) : M (machine F) unit :=
  c ← gets csr;
  modify (set_csr (set_sstatus_rest (Z.land v (Z.lnot SSTATUS_SIE)) c));;
  on_kern (on_fs (intr_set (ctrue (Z.land v SSTATUS_SIE)))).
Definition r_sepc : M (machine F) Z := c ← gets csr; mret (sepc c).
Definition w_sepc (v : Z) : M (machine F) unit :=
  c ← gets csr; modify (set_csr (set_sepc (u64 v) c)).
Definition r_scause : M (machine F) Z := c ← gets csr; mret (scause c).
Definition r_stval : M (machine F) Z := c ← gets csr; mret (stval c).
Definition r_satp : M (machine F) Z := c ← gets csr; mret (satp c).
Definition w_stvec (v : Z) : M (machine F) unit :=
  c ← gets csr; modify (set_csr (set_stvec (u64 v) c)).
Definition intr_on : M (machine F) unit := v ← r_sstatus; w_sstatus (Z.lor v SSTATUS_SIE).
Definition intr_off : M (machine F) unit :=
  v ← r_sstatus; w_sstatus (Z.land v (Z.lnot SSTATUS_SIE)).

(** ** The arguments of a system call *)

Definition trapframe_of (p : Z) : M (kernel F) trapframe :=
  x ← get_proc p; mtry (λ s, tframes s !! p_trapframe x).

(** [__sys_get_register(n)]. *)
Definition sys_get_register (r : trapframe → Z) : M (kernel F) Z :=
  p ← myproc; t ← trapframe_of p; mret (r t).

(** A call of [FsSys] works on the directory and the descriptors of the running process. *)
Definition fs_call (m : M (vfs F) Z) : M (kernel F) call_result :=
  p ← myproc; x ← get_proc p;
  d ← mtry (λ s, cwds s !! p_cwd x);
  on_fs (modify (λ s, set_myfdt (p_fdt x) (set_cwd d s)));;
  r ← on_fs m;
  mret (Done r).

(** [chdir] of [fs.c] on the string the process points to, which other processes may share. *)
Definition chdir_call (path : Z) : M (kernel F) call_result :=
  p ← myproc; x ← get_proc p;
  d ← on_fs (FsSys.copy_from_user_str path MAX_PATH_LEN);
  match d with
  | None => mret (Done (-1))
  | Some d =>
      kfree_cwd (p_cwd x);;
      w ← kstrdup d;
      upd_proc p (set_p_cwd w);;
      mret (Done 0)
  end.


(** [nanosleep] reads the fields of the caller's [struct timespec] itself. *)
Definition sys_nanosleep_at (dura : Z) : M (kernel F) sysend :=
  tv_sec ← on_vm (on_pmem (ld_le 8 dura));
  tv_nsec ← on_vm (on_pmem (ld_le 8 (dura + 8)));
  r ← sys_nanosleep (i64 tv_sec) (i64 tv_nsec);
  mret (match r with Some r => Result r | None => Blocked (Some 0) end).

(** A call of [Proc] that may sleep or be killed in [copyout]. *)
Definition finish_call (m : M (kernel F) call_result) : M (kernel F) sysend :=
  r ← m;
  match r with
  | Done r => mret (Result r)
  | Wait => p ← myproc; sleep p;; mret (Blocked None)
  | Exit => do_exit (-1);; mret Ended
  end.
Definition finish (m : M (kernel F) Z) : M (kernel F) sysend := r ← m; mret (Result r).

(** [syscalls[code]()]: the arguments from the registers, cast to their types, and the call. *)
Definition call_sys (n : sysno) : M (kernel F) sysend :=
  r0 ← sys_get_register a0; r1 ← sys_get_register a1; r2 ← sys_get_register a2;
  r3 ← sys_get_register a3; r4 ← sys_get_register a4; r5 ← sys_get_register a5;
  match n with
  | SYS_getcwd => finish_call (fs_call (sys_getcwd r0 r1))
  | SYS_pipe2 => finish_call (fs_call (sys_pipe2 r0 (i32 r1)))
  | SYS_dup => finish_call (fs_call (sys_dup (i32 r0)))
  | SYS_dup3 => finish_call (fs_call (sys_dup3 (i32 r0) (i32 r1) (i32 r2)))
  | SYS_chdir => finish_call (chdir_call r0)
  | SYS_openat => finish_call (fs_call (sys_openat (i32 r0) r1 (i32 r2) (u16 r3)))
  | SYS_close => finish_call (fs_call (sys_close (i32 r0)))
  | SYS_getdents64 => finish_call (fs_call (sys_getdents64 (i32 r0) r1 r2))
  | SYS_truncate64 => finish_call (fs_call (sys_truncate64 r0 (i64 r1)))
  | SYS_faccessat => finish_call (fs_call (sys_faccessat (i32 r0) r1 (i32 r2)))
  | SYS_read => finish_call (fs_call (sys_read (i32 r0) r1 r2))
  | SYS_write => finish_call (fs_call (sys_write (i32 r0) r1 r2))
  | SYS_linkat => finish_call (fs_call (sys_linkat (i32 r0) r1 (i32 r2) r3 (u32 r4)))
  | SYS_unlinkat => finish_call (fs_call (sys_unlinkat (i32 r0) r1 (u32 r2)))
  | SYS_mkdirat => finish_call (fs_call (sys_mkdirat (i32 r0) r1 (u16 r2)))
  | SYS_umount2 => finish_call (fs_call (sys_umount2 r0 (i32 r1)))
  | SYS_mount => finish_call (fs_call (sys_mount r0 r1 r2 r3 r4))
  | SYS_fstat => finish_call (fs_call (sys_fstat (i32 r0) r1))
  | SYS_clone => finish_call (sys_clone r0 r1 r2 r3 r4)
  | SYS_execve => finish_call (sys_execve r0 r1 r2)
  | SYS_wait4 => finish_call (sys_wait4 (i32 r0) r1 (i32 r2))
  | SYS_exit => sys_exit (i32 r0);; mret Ended
  | SYS_getppid => finish sys_getppid
  | SYS_getpid => finish sys_getpid
  | SYS_fork => finish sys_fork
  | SYS_getuid => finish sys_getuid
  | SYS_geteuid => finish sys_geteuid
  | SYS_getgid => finish sys_getgid
  | SYS_getegid => finish sys_getegid
  | SYS_brk => finish (sys_brk r0)
  | SYS_munmap => finish (sys_munmap junk_area r0 r1)
  | SYS_mmap => finish (sys_mmap junk_area r0 r1 (i32 r2) (i32 r3) (i32 r4) (i64 r5))
  | SYS_times => finish_call (sys_times r0)
  | SYS_uname => mret (Result 0)
  | SYS_sched_yield => sys_sched_yield;; mret (Blocked (Some 0))
  | SYS_gettimeofday => finish_call (sys_gettimeofday r0)
  | SYS_nanosleep => sys_nanosleep_at r0
  end.

(** ** [syscall] *)

Definition syscall_end (p r : Z) : M (machine F) unit :=
  on_kern (upd_trapframe p (set_a0 (u64 r)));;
  on_kern (upd_trapframe p (λ t, set_epc (u64 (epc t + 4)) t)).

(** An index past the table reads what the linker put there. *)
Definition syscall : M (machine F) flow :=
  p ← on_kern myproc;
  t ← on_kern (trapframe_of p);
  let code := i32 (a7 t) in
  fn ← (if 0 <? code then mlift (znth syscalls code) else mret None);
  match fn with
  | None => mpanic
  | Some n =>
      r ← on_kern (call_sys n);
      match r with
      | Result r => syscall_end p r;; mret Returned
      | Blocked _ => mret Away
      | Ended => mret Gone
      end
  end.

Definition syscall_handler : M (machine F) flow :=
  p ← on_kern myproc;
  x ← on_kern (get_proc p);
  if p_killed x then on_kern (do_exit (-1));; mret Gone
  else intr_on;; syscall.

(** ** The handlers and their tables *)

Definition s_mode_ecall_handler : M (machine F) unit := e ← r_sepc; w_sepc (e + 4).

(** The handler of the build without firmware, where the timer comes as a software
    interrupt and no time is counted: whether it yields. *)
Definition software_timer_handler : M (machine F) bool :=
  c ← gets csr;
  modify (set_csr (set_sip (Z.land (sip c) (Z.lnot 2)) c));;
  p ← on_kern myproc;
  if p =? 0 then mret false
  else
    x ← on_kern (get_proc p);
    if bool_decide (p_state x = RUNNING) then on_kern yield;; mret true else mret false.

Definition call_handler (h : handler) : M (machine F) flow :=
  match h with
  | timer_interrupt =>
      v ← r_sstatus;
      y ← (if BIOS_SBI then
             on_kern (timer_interrupt_handler (negb (ctrue (Z.land v SSTATUS_SPP))))
           else software_timer_handler);
      mret (if y : bool then Away else Returned)
  | s_mode_ecall => s_mode_ecall_handler;; mret Returned
  | syscall_from_user => syscall_handler
  | external_interrupt => irq_response;; mret Returned
  | store_page_fault =>
      v ← r_stval;
      r ← on_kern (on_vm (store_page_fault_handler v));
      match r with
      | Some _ => mret Returned
      | None => on_kern (do_exit (-1));; mret Gone
      end
  | page_unmap =>
      v ← r_stval; c ← r_scause;
      on_kern (page_unmap_handler v c);;
      mret Returned
  end.

(** No bound on [code] is checked. *)
Definition register_trap_handler (interrupt code : Z) (function : handler) : M (machine F) unit :=
  if ctrue interrupt then
    v ← gets interrupt_handler_vector;
    v ← mlift (zset v code (Some function));
    modify (set_ivec v)
  else
    v ← gets exception_handler_vector;
    v ← mlift (zset v code (Some function));
    modify (set_evec v).

Definition trap_init : M (machine F) unit :=
  modify (set_ivec (replicate (Z.to_nat NR_INTERRUPT) None));;
  modify (set_evec (replicate (Z.to_nat NR_EXCEPTION) None));;
  (if BIOS_SBI then
     register_trap_handler INTERRUPT SUPERVISOR_TIMER_INTERRUPT timer_interrupt
   else
     register_trap_handler INTERRUPT SUPERVISOR_SOFTWARE_INTERRUPT timer_interrupt;;
     register_trap_handler EXCEPTION ENVIRONMENT_CALL_FROM_S_MODE s_mode_ecall);;
  register_trap_handler EXCEPTION ENVIRONMENT_CALL_FROM_U_MODE syscall_from_user;;
  register_trap_handler INTERRUPT SUPERVISOR_EXTERNEL_INTERRUPT external_interrupt;;
  register_trap_handler EXCEPTION STORE_AMO_PAGE_FAULT store_page_fault;;
  register_trap_handler EXCEPTION LOAD_ACCESS_FAULT page_unmap;;
  register_trap_handler EXCEPTION STORE_AMO_ACCESS_FAULT page_unmap.

Definition trap_init_hart : M (machine F) unit := w_stvec kernelvec.

(** ** Entering from a trap *)

(** The handler of a cause: -1 for a code past the table, 1 for none, 0 when it ran. *)
Definition trap (scause : Z) : M (machine F) (Z * flow) :=
  let is_interrupt := ctrue (Z.land scause (Z.shiftl 1 63)) in
  v ← gets (if is_interrupt then interrupt_handler_vector else exception_handler_vector);
  let code := Z.land scause 0xff in
  if (if is_interrupt then NR_INTERRUPT else NR_EXCEPTION) <=? code then mret (-1, Returned)
  else
    fn ← mlift (znth v code);
    match fn with
    | None => mret (1, Returned)
    | Some h => f ← call_handler h; mret (0, f)
    end.

Definition kernel_trap_end (res sepc sstatus : Z) : M (machine F) unit :=
  mwhen (negb (res =? 0)) mpanic;;
  w_sepc sepc;;
  w_sstatus sstatus.

Definition kernel_trap : M (machine F) kernel_exit :=
  sstatus ← r_sstatus;
  sepc ← r_sepc;
  scause ← r_scause;
  '(res, f) ← trap scause;
  match f with
  | Returned => kernel_trap_end res sepc sstatus;; mret KReturned
  | Away => mret (KSuspended sepc sstatus)
  | Gone => mret KGone
  end.

(** A suspended [kernel_trap] goes on: the process has the CPU again, [yield] returns to the
    handler, which has nothing left to do, and [trap] returns 0. *)
Definition kernel_trap_resume (sepc sstatus : Z) : M (machine F) unit :=
  kernel_trap_end 0 sepc sstatus.

(** ** To and from user mode *)

Definition dive_to_user : M (machine F) user_exit :=
  p ← on_kern myproc;
  intr_off;;
  w_stvec (TRAMPOLINE + uservec_trampoline);;
  sstatus ← r_sstatus;
  w_sstatus (Z.lor (Z.land sstatus (Z.lnot SSTATUS_SPP)) SSTATUS_SPIE);;
  t ← on_kern (trapframe_of p);
  w_sepc (epc t);;
  x ← on_kern (get_proc p);
  satp ← r_satp;
  on_kern (upd_trapframe p (λ t, set_ktrap_fn user_trap_fn (set_khartid 0 (set_ksatp satp
    (set_ksp (u64 (p_stack x + KSTACK_SIZE)) t)))));;
  let trapframe := u64 (TRAPFRAME + p_trapframe x - PGROUNDDOWN (p_trapframe x)) in
  pgtbl ← on_kern (pgtbl_of p);
  mret (ToUser trapframe (MAKE_SATP pgtbl)).

Definition user_trap_end (p res : Z) : M (machine F) user_exit :=
  mwhen (negb (res =? 0)) (on_kern (upd_proc p (set_p_killed true)));;
  x ← on_kern (get_proc p);
  if p_killed x then on_kern (do_exit (-1));; mret (Left Gone)
  else dive_to_user.

Definition user_trap : M (machine F) user_exit :=
  scause ← r_scause;
  w_stvec kernelvec;;
  p ← on_kern myproc;
  e ← r_sepc;
  on_kern (upd_trapframe p (set_epc e));;
  '(res, f) ← trap scause;
  match f with
  | Returned => user_trap_end p res
  | _ => mret (Left f)
  end.
End trap.

(** ** Control registers, read and written *)

Section csr_lemmas.
Context {F : Type} `{SysEnv F} `{VmEnv} `{ProcEnv} `{ExecFrame} `{!TrapEnv F}.
Implicit Types (s : machine F) (k : kernel F).

Definition cpu_here k : Prop := is_Some (cpus (venv (kfs k)) !! 0%nat).
Definition with_intr (b : bool) k : kernel F :=
  set_kfs (set_venv (on_cpu0 (λ c, Cpu (noff c) (intena c) b) (venv (kfs k))) (kfs k)) k.
Definition sie_bit k : Z :=
  match cpus (venv (kfs k)) with c :: _ => if intr c then SSTATUS_SIE else 0 | [] => 0 end.
Definition sstatus s : Z := Z.lor (sstatus_rest (csr s)) (sie_bit (kern s)).
Definition put_sstatus (v : Z) s : machine F :=
  set_kern (with_intr (ctrue (Z.land v SSTATUS_SIE)) (kern s))
    (set_csr (set_sstatus_rest (Z.land v (Z.lnot SSTATUS_SIE)) (csr s)) s).

Lemma on_kern_run {A} (m : M (kernel F) A) s a k :
  m (kern s) = Ret (a, k) → on_kern m s = Ret (a, set_kern k s).
Proof. intros E. unfold on_kern, zoom. cbn. by rewrite E. Qed.

Lemma cpu_ok_has k : cpu_ok k → cpu_here k.
Proof. intros (c & Hc & _). by exists c. Qed.
Lemma with_intr_has b k : cpu_here k → cpu_here (with_intr b k).
Proof.
  intros [c Hc]. destruct k as [? [[[|c0 cs] ls] ???? ????? ?] ?????????]; [done|]. by eexists.
Qed.

Lemma r_sstatus_run s : cpu_here (kern s) → r_sstatus s = Ret (sstatus s, s).
Proof.
  intros [c Hc]. unfold r_sstatus, on_kern, on_fs, zoom, intr_get, sstatus, sie_bit. munfold. cbn.
  destruct s as [[? [[[|c0 cs] ls] ???? ????? ?] ?????????] ?????]; [done|]. cbn in *. by simplify_eq.
Qed.

Lemma w_sstatus_run v s : cpu_here (kern s) → w_sstatus v s = Ret (tt, put_sstatus v s).
Proof.
  intros [c Hc]. unfold w_sstatus, on_kern, on_fs, zoom, intr_set. munfold. cbn.
  destruct s as [[? [[[|c0 cs] ls] ???? ????? ?] ?????????] ?????]; [done|]. cbn in *. by simplify_eq.
Qed.

Lemma intr_on_run s :
  cpu_here (kern s) → intr_on s = Ret (tt, put_sstatus (Z.lor (sstatus s) SSTATUS_SIE) s).
Proof. intros Hc. unfold intr_on. mstep (r_sstatus_run s Hc). by apply w_sstatus_run. Qed.
Lemma intr_off_run s :
  cpu_here (kern s) →
  intr_off s = Ret (tt, put_sstatus (Z.land (sstatus s) (Z.lnot SSTATUS_SIE)) s).
Proof. intros Hc. unfold intr_off. mstep (r_sstatus_run s Hc). by apply w_sstatus_run. Qed.

Lemma sie_split v :
  Z.lor (Z.land v (Z.lnot SSTATUS_SIE)) (if ctrue (Z.land v SSTATUS_SIE) then SSTATUS_SIE else 0) = v.
Proof.
  assert (Z.land v SSTATUS_SIE = if ctrue (Z.land v SSTATUS_SIE) then SSTATUS_SIE else 0) as E.
  { change SSTATUS_SIE with (Z.ones 1 * 2 ^ 1). rewrite land_field by lia.
    change (2 ^ 1) with 2. change (Z.ones 1) with 1.
    pose proof (Z.mod_pos_bound (v / 2) 2 eq_refl). unfold ctrue.
    destruct (Z.eqb_spec ((v / 2) mod 2 * 2) 0); cbn [negb]; lia. }
  rewrite <- E, <- Z.land_lor_distr_r, Z.lor_comm, Z.lor_lnot_diag. apply Z.land_m1_r.
Qed.

Lemma sstatus_put v s : cpu_here (kern s) → sstatus (put_sstatus v s) = v.
Proof.
  intros [c Hc]. etrans; [|apply sie_split]. unfold sstatus. f_equal.
  by destruct s as [[? [[[|c0 cs] ls] ???? ????? ?] ?????????] ?????].
Qed.

Lemma put_sstatus_has v s : cpu_here (kern s) → cpu_here (kern (put_sstatus v s)).
Proof. apply with_intr_has. Qed.

Lemma trapframe_of_run k p x t :
  procs k !! p = Some x → tframes k !! p_trapframe x = Some t → trapframe_of p k = Ret (t, k).
Proof. intros Hp Ht. unfold trapframe_of. mstep (get_proc_run k p x Hp). unfold mtry. by rewrite Ht. Qed.

Lemma upd_trapframe_run k p x t f :
  procs k !! p = Some x → tframes k !! p_trapframe x = Some t →
  upd_trapframe p f k = Ret (tt, set_tframes (<[p_trapframe x := f t]> (tframes k)) k).
Proof.
  intros Hp Ht. unfold upd_trapframe. mstep (get_proc_run k p x Hp). unfold upd_tf, mtry. munfold.
  by rewrite Ht.
Qed.
End csr_lemmas.

(** ** Dispatch *)

Section dispatch.
Context {F : Type} `{SysEnv F} `{VmEnv} `{ProcEnv} `{ExecFrame} `{!TrapEnv F}.
Implicit Types (s : machine F) (k : kernel F).

(** The causes the kernel serves: the codes of the privileged architecture. *)
Definition cause_handler (interrupt : bool) (code : Z) : option handler :=
  if interrupt then
    if code =? (if BIOS_SBI then 5 else 1) then Some timer_interrupt
    else if code =? 9 then Some external_interrupt else None
  else if code =? 8 then Some syscall_from_user
  else if code =? 9 then if BIOS_SBI then None else Some s_mode_ecall
  else if code =? 15 then Some store_page_fault
  else if (code =? 5) || (code =? 7) then Some page_unmap else None.

Definition armed s : Prop :=
  interrupt_handler_vector s = cause_handler true <$> seqZ 0 NR_INTERRUPT ∧
  exception_handler_vector s = cause_handler false <$> seqZ 0 NR_EXCEPTION.

Definition is_interrupt (cause : Z) : bool := Z.testbit cause 63.
Definition code_of (cause : Z) : Z := cause mod 256.

Lemma top_bit cause : ctrue (Z.land cause (Z.shiftl 1 63)) = Z.testbit cause 63.
Proof.
  change (Z.shiftl 1 63) with (Z.ones 1 * 2 ^ 63). rewrite land_field by lia.
  rewrite Z.testbit_odd, Z.shiftr_div_pow2 by lia. rewrite <- Z.bit0_odd, Z.bit0_eqb.
  change (2 ^ 1) with 2. pose proof (Z.mod_pos_bound (cause / 2 ^ 63) 2 eq_refl). unfold ctrue.
  destruct (Z.eqb_spec ((cause / 2 ^ 63) mod 2) 1) as [->|]; [done|].
  replace ((cause / 2 ^ 63) mod 2) with 0 by lia. done.
Qed.

Lemma served_nth i n code :
  0 ≤ code < n → znth (cause_handler i <$> seqZ 0 n) code = Some (cause_handler i code).
Proof.
  intros Hc. unfold znth. rewrite decide_True by lia. rewrite list_lookup_fmap.
  rewrite lookup_seqZ_lt by lia. cbn. do 2 f_equal. lia.
Qed.

Definition refused (cause : Z) : Z :=
  if (if is_interrupt cause then 13 else 17) <=? code_of cause then -1 else 1.

Lemma trap_run cause s :
  armed s →
  trap cause s =
    if (if is_interrupt cause then 13 else 17) <=? code_of cause then Ret ((-1, Returned), s)
    else match cause_handler (is_interrupt cause) (code_of cause) with
         | None => Ret ((1, Returned), s)
         | Some h => (f ← call_handler h; mret (0, f)) s
         end.
Proof.
  intros [Hi He]. unfold trap. rewrite top_bit. fold (is_interrupt cause).
  change 0xff with (Z.ones 8). rewrite Z.land_ones by lia. change (cause mod 2 ^ 8) with (code_of cause).
  mstep (eq_refl : gets (if is_interrupt cause then interrupt_handler_vector
    else exception_handler_vector) s = Ret ((if is_interrupt cause then interrupt_handler_vector
    else exception_handler_vector) s, s)).
  assert (0 ≤ code_of cause) by (apply Z.mod_pos_bound; lia).
  destruct (is_interrupt cause); unfold NR_INTERRUPT, NR_EXCEPTION in *.
  - destruct (Z.leb_spec 13 (code_of cause)); [done|]. rewrite Hi, served_nth by lia.
    by destruct (cause_handler true (code_of cause)).
  - destruct (Z.leb_spec 17 (code_of cause)); [done|]. rewrite He, served_nth by lia.
    by destruct (cause_handler false (code_of cause)).
Qed.

(** [trap_init] changes only the tables of handlers, and with the tables it makes a trap
    runs the handler of its cause: the timer, external interrupts, system calls, stores to
    present pages and the two access faults; any other code of the tables is refused with 1
    and any code past them with -1, without a change of the state. *)
Theorem trap_init_dispatch s0 :
  ∃ s1, trap_init s0 = Ret (tt, s1) ∧ kern s1 = kern s0 ∧ csr s1 = csr s0 ∧
    m_tab s1 = m_tab s0 ∧ m_plic s1 = m_plic s0 ∧ armed s1 ∧
    ∀ cause s, interrupt_handler_vector s = interrupt_handler_vector s1 →
      exception_handler_vector s = exception_handler_vector s1 →
      trap cause s =
        if (if is_interrupt cause then 13 else 17) <=? code_of cause then Ret ((-1, Returned), s)
        else match cause_handler (is_interrupt cause) (code_of cause) with
             | None => Ret ((1, Returned), s)
             | Some h => (f ← call_handler h; mret (0, f)) s
             end.
Proof.
  exists (set_evec (cause_handler false <$> seqZ 0 NR_EXCEPTION)
    (set_ivec (cause_handler true <$> seqZ 0 NR_INTERRUPT) s0)).
  split; [|split_and!; try done].
  { unfold trap_init, cause_handler. by destruct BIOS_SBI. }
  intros cause s Hi He. by apply trap_run.
Qed.
End dispatch.

(** ** Traps from the kernel *)

Section kernel_traps.
Context {F : Type} `{SysEnv F} `{VmEnv} `{ProcEnv} `{ExecFrame} `{!TrapEnv F}.
Implicit Types (s : machine F) (k : kernel F).

(** What is left when the handler is back, maybe on another day and after other traps. *)
Lemma kernel_trap_end_run pc v s :
  cpu_here (kern s) →
  kernel_trap_end 0 pc v s = Ret (tt, put_sstatus v (set_csr (set_sepc (u64 pc) (csr s)) s)).
Proof.
  intros Hc. unfold kernel_trap_end. cbn [negb mwhen Z.eqb].
  mstep (eq_refl : (mret tt : M (machine F) unit) s = Ret (tt, s)).
  mstep (eq_refl : w_sepc pc s = Ret (tt, set_csr (set_sepc (u64 pc) (csr s)) s)).
  by apply w_sstatus_run.
Qed.

Lemma kernel_trap_run s :
  cpu_here (kern s) →
  kernel_trap s =
    ('(res, f) ← trap (scause (csr s));
     match f with
     | Returned => kernel_trap_end res (sepc (csr s)) (sstatus s);; mret KReturned
     | Away => mret (KSuspended (sepc (csr s)) (sstatus s))
     | Gone => mret KGone
     end) s.
Proof.
  intros Hc. unfold kernel_trap. mstep (r_sstatus_run s Hc).
  mstep (eq_refl : r_sepc s = Ret (sepc (csr s), s)).
  by mstep (eq_refl : r_scause s = Ret (scause (csr s), s)).
Qed.

Lemma kernel_trap_back s s1 :
  cpu_here (kern s) → 0 ≤ sepc (csr s) < 2 ^ 64 →
  trap (scause (csr s)) s = Ret ((0, Returned), s1) → cpu_here (kern s1) →
  kernel_trap s =
    Ret (KReturned, put_sstatus (sstatus s) (set_csr (set_sepc (sepc (csr s)) (csr s1)) s1)).
Proof.
  intros Hc Hpc Et Hc1. rewrite kernel_trap_run by done. rewrite (mbind_Ret _ _ _ _ _ Et).
  cbv beta iota. mstep (kernel_trap_end_run (sepc (csr s)) (sstatus s) s1 Hc1).
  by rewrite u64_small.
Qed.

(** [s2] is [s1] with the program counter and the status register of [s] and nothing else
    changed. *)
Record back_in s s1 s2 : Prop := {
  bi_pc : sepc (csr s2) = sepc (csr s);
  bi_status : sstatus s2 = sstatus s;
  bi_kern : kern s2 = with_intr (ctrue (Z.land (sstatus s) SSTATUS_SIE)) (kern s1);
  bi_csr : scause (csr s2) = scause (csr s1) ∧ stval (csr s2) = stval (csr s1) ∧
    stvec (csr s2) = stvec (csr s1) ∧ satp (csr s2) = satp (csr s1) ∧ sip (csr s2) = sip (csr s1);
  bi_handlers : interrupt_handler_vector s2 = interrupt_handler_vector s1 ∧
    exception_handler_vector s2 = exception_handler_vector s1;
  bi_devices : m_tab s2 = m_tab s1 ∧ m_plic s2 = m_plic s1
}.

Lemma put_back s s1 :
  cpu_here (kern s1) →
  back_in s s1 (put_sstatus (sstatus s) (set_csr (set_sepc (sepc (csr s)) (csr s1)) s1)).
Proof. intros Hc. split; try done. by apply sstatus_put. Qed.

(** C14: A trap taken in the kernel is invisible to the code it interrupts.  If the handler
    of its cause returns ([s1] is what it left), [kernel_trap] returns with the program
    counter and the status register (the interrupt enable with it) of its start and changes
    nothing else of [s1].  If the handler gives up the CPU, [kernel_trap] is suspended, and
    whenever it goes on, in whatever state [s2] other processes, handlers and traps have left
    the machine, the interrupted code gets its program counter and status register back too,
    and nothing else of [s2] changes.  A cause without a handler panics, and a handler that
    ends the process does not come back.  Condition: the CPU has its structure. *)
Theorem kernel_trap_transparent s res f s1 :
  cpu_here (kern s) → 0 ≤ sepc (csr s) < 2 ^ 64 →
  trap (scause (csr s)) s = Ret ((res, f), s1) → (f = Returned → cpu_here (kern s1)) →
  match f with
  | Returned =>
      if res =? 0 then ∃ s2, kernel_trap s = Ret (KReturned, s2) ∧ back_in s s1 s2
      else kernel_trap s = Panic
  | Away =>
      ∃ pc v, kernel_trap s = Ret (KSuspended pc v, s1) ∧
        ∀ s2, cpu_here (kern s2) →
          ∃ s3, kernel_trap_resume pc v s2 = Ret (tt, s3) ∧ back_in s s2 s3
  | Gone => kernel_trap s = Ret (KGone, s1)
  end.
Proof.
  intros Hc Hpc Et Hc1. destruct f.
  - destruct (Z.eqb_spec res 0) as [->|Hr].
    + specialize (Hc1 eq_refl). eexists. split; [by apply kernel_trap_back|by apply put_back].
    + rewrite kernel_trap_run by done. rewrite (mbind_Ret _ _ _ _ _ Et). cbv beta iota.
      unfold kernel_trap_end. apply Z.eqb_neq in Hr. by rewrite Hr.
  - eexists _, _. split; [rewrite kernel_trap_run by done; by rewrite (mbind_Ret _ _ _ _ _ Et)|].
    intros s2 Hc2. eexists. split; [by apply kernel_trap_end_run|]. rewrite u64_small by done.
    by apply put_back.
  - rewrite kernel_trap_run by done. by rewrite (mbind_Ret _ _ _ _ _ Et).
Qed.

(** The handler of calls from supervisor mode steps over the call, and the end of
    [kernel_trap] steps back onto it: the call repeats for ever. *)
Theorem s_mode_ecall_repeats s :
  BIOS_SBI = false → armed s → cpu_here (kern s) → 0 ≤ sepc (csr s) < 2 ^ 64 →
  scause (csr s) = ENVIRONMENT_CALL_FROM_S_MODE →
  ∃ s2, kernel_trap s = Ret (KReturned, s2) ∧ sepc (csr s2) = sepc (csr s).
Proof.
  intros Hb Ha Hc Hpc Hs. set (s1 := set_csr (set_sepc (u64 (sepc (csr s) + 4)) (csr s)) s).
  assert (trap (scause (csr s)) s = Ret ((0, Returned), s1)) as Et.
  { rewrite Hs, trap_run by done. cbn. by rewrite Hb. }
  eexists. split; [by apply kernel_trap_back|done].
Qed.
End kernel_traps.

(** ** Traps from user mode *)

Section user_traps.
Context {F : Type} `{SysEnv F} `{VmEnv} `{ProcEnv} `{ExecFrame} `{!TrapEnv F}.
Implicit Types (s : machine F) (k : kernel F).

(** The process [x] runs with the trapframe [t]. *)
Record user_runs k (x : proc) (t : trapframe) : Prop := {
  ur_cpu : cpu_ok k;
  ur_proc : procs k !! cur k = Some x;
  ur_frame : tframes k !! p_trapframe x = Some t
}.

Definition peek s : machine F := set_kern (peeked (kern s)) s.

Lemma on_kern_myproc s : cpu_ok (kern s) → on_kern myproc s = Ret (cur (kern s), peek s).
Proof. intros Hc. by apply on_kern_run, myproc_run. Qed.
Lemma on_kern_get_proc s p x :
  procs (kern s) !! p = Some x → on_kern (get_proc p) s = Ret (x, s).
Proof. intros Hp. rewrite (on_kern_run _ s x (kern s)) by (by apply get_proc_run). by destruct s. Qed.
Lemma on_kern_trapframe_of s p x t :
  procs (kern s) !! p = Some x → tframes (kern s) !! p_trapframe x = Some t →
  on_kern (trapframe_of p) s = Ret (t, s).
Proof.
  intros Hp Ht. rewrite (on_kern_run _ s t (kern s)) by (by eapply trapframe_of_run). by destruct s.
Qed.

Definition put_frame (a : Z) (t : trapframe) k : kernel F := set_tframes (<[a := t]> (tframes k)) k.

Lemma on_kern_upd_trapframe s p x t f :
  procs (kern s) !! p = Some x → tframes (kern s) !! p_trapframe x = Some t →
  on_kern (upd_trapframe p f) s = Ret (tt, set_kern (put_frame (p_trapframe x) (f t) (kern s)) s).
Proof. intros Hp Ht. apply on_kern_run. by apply upd_trapframe_run. Qed.

(** The machine when a trap from user mode looks for its handler. *)
Definition entered_trap s (x : proc) (t : trapframe) : machine F :=
  set_kern (put_frame (p_trapframe x) (set_epc (sepc (csr s)) t) (peeked (kern s)))
    (set_csr (set_stvec (u64 kernelvec) (csr s)) s).

Lemma entered_runs s x t :
  user_runs (kern s) x t →
  user_runs (kern (entered_trap s x t)) x (set_epc (sepc (csr s)) t).
Proof.
  intros [Hc Hp Ht]. split; [by apply (peeked_ok (kern s))|done|]. apply lookup_insert_eq.
Qed.

Lemma user_trap_run s x t :
  user_runs (kern s) x t →
  user_trap s =
    ('(res, f) ← trap (scause (csr s));
     match f with
     | Returned => user_trap_end (cur (kern s)) res
     | _ => mret (Left f)
     end) (entered_trap s x t).
Proof.
  intros [Hc Hp Ht]. unfold user_trap.
  mstep (eq_refl : r_scause s = Ret (scause (csr s), s)).
  set (s1 := set_csr (set_stvec (u64 kernelvec) (csr s)) s).
  mstep (eq_refl : w_stvec kernelvec s = Ret (tt, s1)).
  mstep (on_kern_myproc s1 Hc).
  mstep (eq_refl : r_sepc (peek s1) = Ret (sepc (csr s), peek s1)).
  mstep (on_kern_upd_trapframe (peek s1) (cur (kern s)) x t (set_epc (sepc (csr s))) Hp Ht).
  reflexivity.
Qed.

(** The state in which a system call of the process starts. *)
Definition call_state s : machine F :=
  peek (put_sstatus (Z.lor (sstatus s) SSTATUS_SIE) (peek s)).

Lemma sstatus_peek s : sstatus (peek s) = sstatus s.
Proof.
  unfold sstatus, sie_bit. by destruct s as [[? [[[|c0 cs] ls] ???? ????? ?] ?????????] ?????].
Qed.

Lemma syscall_handler_run s x t :
  user_runs (kern s) x t → p_killed x = false →
  syscall_handler s = syscall (put_sstatus (Z.lor (sstatus s) SSTATUS_SIE) (peek s)).
Proof.
  intros [Hc Hp Ht] Hk. unfold syscall_handler. mstep (on_kern_myproc s Hc).
  mstep (on_kern_get_proc (peek s) _ x Hp). rewrite Hk.
  assert (cpu_here (kern (peek s))) as Hcp by (by apply cpu_ok_has, peeked_ok).
  mstep (intr_on_run (peek s) Hcp). by rewrite sstatus_peek.
Qed.

Lemma syscall_run s x t :
  user_runs (kern s) x t →
  syscall s =
    match (if 0 <? i32 (a7 t) then znth syscalls (i32 (a7 t)) else Some None) with
    | None => Fault
    | Some None => Panic
    | Some (Some n) =>
        (r ← on_kern (call_sys n);
         match r with
         | Result r => syscall_end (cur (kern s)) r;; mret Returned
         | Blocked _ => mret Away
         | Ended => mret Gone
         end) (peek s)
    end.
Proof.
  intros [Hc Hp Ht]. unfold syscall. mstep (on_kern_myproc s Hc).
  mstep (on_kern_trapframe_of (peek s) _ x t Hp Ht).
  destruct (0 <? i32 (a7 t)); [|done]. by destruct (znth syscalls (i32 (a7 t))) as [[n|]|].
Qed.

Lemma syscall_end_run s p x t r :
  procs (kern s) !! p = Some x → tframes (kern s) !! p_trapframe x = Some t →
  syscall_end p r s =
    Ret (tt, set_kern (put_frame (p_trapframe x) (set_epc (u64 (epc t + 4)) (set_a0 (u64 r) t))
      (kern s)) s).
Proof.
  intros Hp Ht. unfold syscall_end. mstep (on_kern_upd_trapframe s p x t (set_a0 (u64 r)) Hp Ht).
  set (s1 := set_kern _ s).
  assert (tframes (kern s1) !! p_trapframe x = Some (set_a0 (u64 r) t)) as Ht1
    by apply lookup_insert_eq.
  rewrite (on_kern_upd_trapframe s1 p x _ (λ t, set_epc (u64 (epc t + 4)) t) Hp Ht1).
  unfold s1, put_frame. cbn. by rewrite insert_insert_eq.
Qed.

(** The status register of a return to user mode: from user mode, interrupts off until then. *)
Definition user_status (v : Z) : Z :=
  Z.lor (Z.land (Z.land v (Z.lnot SSTATUS_SIE)) (Z.lnot SSTATUS_SPP)) SSTATUS_SPIE.

(** What the trampoline reads on the next trap. *)
Definition kernel_side s (x : proc) (t : trapframe) : trapframe :=
  set_ktrap_fn user_trap_fn (set_khartid 0 (set_ksatp (satp (csr s))
    (set_ksp (u64 (p_stack x + KSTACK_SIZE)) t))).

Definition frame_addr (x : proc) : Z :=
  u64 (TRAPFRAME + p_trapframe x - PGROUNDDOWN (p_trapframe x)).

(** The machine that enters user mode for the process [x] with the registers [t]. *)
Record enters_user s s' (x : proc) (t : trapframe) : Prop := {
  eu_pc : sepc (csr s') = epc t;
  eu_status : sstatus s' = user_status (sstatus s);
  eu_stvec : stvec (csr s') = u64 (TRAMPOLINE + uservec_trampoline);
  eu_cur : cur (kern s') = cur (kern s);
  eu_procs : procs (kern s') = procs (kern s);
  eu_frames : tframes (kern s') = <[p_trapframe x := kernel_side s x t]> (tframes (kern s));
  eu_memory : kvm (kern s') = kvm (kern s)
}.

Lemma dive_to_user_run s x t root :
  user_runs (kern s) x t → has_pgtbl (kern s) x root → 0 ≤ epc t < 2 ^ 64 →
  ∃ s', dive_to_user s = Ret (ToUser (frame_addr x) (MAKE_SATP root), s') ∧ enters_user s s' x t.
Proof.
  intros [Hc Hp Ht] Hr He. unfold dive_to_user. mstep (on_kern_myproc s Hc).
  assert (cpu_here (kern (peek s))) as Hc1 by (by apply cpu_ok_has, peeked_ok).
  mstep (intr_off_run (peek s) Hc1). rewrite sstatus_peek.
  set (s2 := put_sstatus _ (peek s)).
  assert (cpu_here (kern s2)) as Hc2 by (by apply put_sstatus_has).
  set (s3 := set_csr (set_stvec (u64 (TRAMPOLINE + uservec_trampoline)) (csr s2)) s2).
  mstep (eq_refl : w_stvec (TRAMPOLINE + uservec_trampoline) s2 = Ret (tt, s3)).
  mstep (r_sstatus_run s3 Hc2).
  assert (sstatus s3 = Z.land (sstatus s) (Z.lnot SSTATUS_SIE)) as E3 by (by apply sstatus_put).
  rewrite E3. change (Z.lor _ SSTATUS_SPIE) with (user_status (sstatus s)).
  mstep (w_sstatus_run (user_status (sstatus s)) s3 Hc2).
  set (s4 := put_sstatus (user_status (sstatus s)) s3).
  mstep (on_kern_trapframe_of s4 _ x t Hp Ht).
  mstep (eq_refl : w_sepc (epc t) s4 = Ret (tt, set_csr (set_sepc (u64 (epc t)) (csr s4)) s4)).
  set (s5 := set_csr _ s4).
  mstep (on_kern_get_proc s5 _ x Hp).
  mstep (eq_refl : r_satp s5 = Ret (satp (csr s), s5)).
  mstep (on_kern_upd_trapframe s5 (cur (kern s)) x t (λ t, set_ktrap_fn user_trap_fn
    (set_khartid 0 (set_ksatp (satp (csr s)) (set_ksp (u64 (p_stack x + KSTACK_SIZE)) t)))) Hp Ht).
  set (s6 := set_kern _ s5).
  assert (pgtbl_of (cur (kern s)) (kern s6) = Ret (root, kern s6)) as E6
    by (apply (pgtbl_of_run (kern s6) _ x root Hp); exact Hr).
  mstep (on_kern_run _ s6 _ _ E6). eexists. split; [reflexivity|]. split; try done.
  - cbn. by apply u64_small.
  - exact (sstatus_put (user_status (sstatus s)) s3 Hc2).
Qed.

Lemma quiet_put v s : quiet (venv (kfs (kern s))) → cpu_ok (kern (put_sstatus v s)).
Proof.
  intros (c & Hc & Hn). unfold cpu_ok, env_ok. destruct s as [[? [[[|c0 cs] ls] ???? ????? ?] ?????????] ?????]; [done|].
  cbn in *. simplify_eq. eexists. split; [reflexivity|]. cbn. lia.
Qed.

Lemma quiet_peeked k : quiet (venv (kfs k)) → quiet (venv (kfs (peeked k))).
Proof.
  intros (c & Hc & Hn). destruct k as [? [[[|c0 cs] ls] ???? ????? ?] ?????????]; [done|].
  cbn in *. simplify_eq. by eexists.
Qed.

Lemma call_state_runs s x t :
  quiet (venv (kfs (kern s))) → user_runs (kern s) x t →
  user_runs (kern (put_sstatus (Z.lor (sstatus (entered_trap s x t)) SSTATUS_SIE)
    (peek (entered_trap s x t)))) x (set_epc (sepc (csr s)) t).
Proof.
  intros Hq Hu. destruct (entered_runs s x t Hu) as [_ Hp Ht]. split; [|exact Hp|exact Ht].
  apply quiet_put. do 2 apply quiet_peeked. exact Hq.
Qed.

(** The trap of a system call runs [syscall] with interrupts enabled. *)
Lemma trap_ecall s x t :
  armed s → user_runs (kern s) x t → p_killed x = false →
  trap ENVIRONMENT_CALL_FROM_U_MODE (entered_trap s x t) =
    (f ← syscall; mret (0, f)) (put_sstatus (Z.lor (sstatus (entered_trap s x t)) SSTATUS_SIE)
      (peek (entered_trap s x t))).
Proof.
  intros Ha Hu Hk. rewrite trap_run by exact Ha.
  change ((f ← syscall_handler; mret (0, f)) (entered_trap s x t) =
    (f ← syscall; mret (0, f)) (put_sstatus (Z.lor (sstatus (entered_trap s x t)) SSTATUS_SIE)
      (peek (entered_trap s x t)))).
  unfold mbind at 1 2, M_bind. by rewrite (syscall_handler_run _ x _ (entered_runs s x t Hu) Hk).
Qed.

(** C6: A system call from user mode, all the way: the trap saves the program counter, the
    handler of the number in [a7] runs with interrupts enabled on the arguments in the
    registers, and when it comes back with [r] the process, if nobody killed it meanwhile, is
    in user mode again after the instruction of the call ([execve] has moved that), with [r]
    in [a0], interrupts off until the return, and the kernel's own registers in the frame. *)
Theorem user_syscall_returns s x t n r k1 x1 t1 root :
  armed s → quiet (venv (kfs (kern s))) → user_runs (kern s) x t → p_killed x = false →
  scause (csr s) = ENVIRONMENT_CALL_FROM_U_MODE →
  0 < i32 (a7 t) → znth syscalls (i32 (a7 t)) = Some (Some n) →
  call_sys n (kern (call_state (entered_trap s x t))) = Ret (Result r, k1) →
  cur k1 = cur (kern s) → user_runs k1 x1 t1 → p_killed x1 = false → has_pgtbl k1 x1 root →
  ∃ s', user_trap s = Ret (ToUser (frame_addr x1) (MAKE_SATP root), s') ∧
    enters_user (set_kern k1 (call_state (entered_trap s x t))) s' x1
      (set_epc (u64 (epc t1 + 4)) (set_a0 (u64 r) t1)).
Proof.
  intros Ha Hq Hu Hk Hs Hpos Hn Ec Hcur Hu1 Hk1 Hr. rewrite (user_trap_run s x t Hu), Hs.
  set (e := entered_trap s x t) in *.
  assert (user_runs (kern e) x (set_epc (sepc (csr s)) t)) as He by (by apply entered_runs).
  set (e1 := put_sstatus (Z.lor (sstatus e) SSTATUS_SIE) (peek e)).
  assert (user_runs (kern e1) x (set_epc (sepc (csr s)) t)) as He1 by (by apply call_state_runs).
  set (s2 := set_kern (put_frame (p_trapframe x1) (set_epc (u64 (epc t1 + 4)) (set_a0 (u64 r) t1)) k1)
    (call_state e)).
  assert (trap ENVIRONMENT_CALL_FROM_U_MODE e = Ret ((0, Returned), s2)) as Et.
  { unfold e. rewrite (trap_ecall s x t Ha Hu Hk). fold e e1.
    erewrite mbind_Ret; [reflexivity|]. rewrite (syscall_run e1 x _ He1). cbn [a7 set_epc]. apply Z.ltb_lt in Hpos.
    rewrite Hpos, Hn. mstep (on_kern_run _ (peek e1) _ _ Ec). change (cur (kern e1)) with (cur (kern s)).
    destruct Hu1 as [_ Hp1 Ht1]. rewrite Hcur in Hp1.
    by mstep (syscall_end_run (set_kern k1 (peek e1)) _ x1 t1 r Hp1 Ht1). }
  mstep Et. unfold user_trap_end. cbn [Z.eqb negb mwhen].
  mstep (eq_refl : (mret tt : M (machine F) unit) s2 = Ret (tt, s2)).
  destruct Hu1 as [Hc1 Hp1 Ht1]. rewrite Hcur in Hp1.
  mstep (on_kern_get_proc s2 _ x1 Hp1). rewrite Hk1.
  destruct (dive_to_user_run s2 x1 (set_epc (u64 (epc t1 + 4)) (set_a0 (u64 r) t1)) root)
    as (s' & Ed & Hd).
  - split; [exact Hc1|by rewrite <- Hcur in Hp1|apply lookup_insert_eq].
  - exact Hr.
  - apply u64_range.
  - exists s'. split; [exact Ed|]. destruct Hd as [E1 E2 E3 E4 E5 E6 E7]. split; try done.
    rewrite E6. apply insert_insert_eq.
Qed.

(** C34: A process that puts a number without a system call into [a7] brings the kernel down:
    zero, a negative number or a hole of the table ends in the panic of [syscall], and a
    number past the table is used as an index all the same. *)
Theorem user_syscall_unknown s x t :
  armed s → quiet (venv (kfs (kern s))) → user_runs (kern s) x t → p_killed x = false →
  scause (csr s) = ENVIRONMENT_CALL_FROM_U_MODE →
  (i32 (a7 t) ≤ 0 ∨ znth syscalls (i32 (a7 t)) = Some None → user_trap s = Panic) ∧
  (260 < i32 (a7 t) → user_trap s = Fault).
Proof.
  intros Ha Hq Hu Hk Hs.
  assert (∀ o, o = Panic ∨ o = Fault → syscall (put_sstatus (Z.lor (sstatus (entered_trap s x t))
    SSTATUS_SIE) (peek (entered_trap s x t))) = o → user_trap s =
    match o with Fault => Fault | _ => Panic end) as Hout.
  { intros o Ho E. rewrite (user_trap_run s x t Hu), Hs. unfold mbind at 1, M_bind.
    rewrite (trap_ecall s x t Ha Hu Hk). unfold mbind at 1, M_bind. rewrite E.
    by destruct Ho as [-> | ->]. }
  pose proof (syscall_run _ x _ (call_state_runs s x t Hq Hu)) as Hrun.
  change (a7 (set_epc (sepc (csr s)) t)) with (a7 t) in Hrun. split.
  - intros Hno. apply (Hout Panic); [by left|]. rewrite Hrun. destruct Hno as [Hle|Hhole].
    + by rewrite (proj2 (Z.ltb_ge 0 (i32 (a7 t))) Hle).
    + rewrite Hhole. by destruct (0 <? i32 (a7 t)).
  - intros Hgt. apply (Hout Fault); [by right|]. rewrite Hrun.
    rewrite (proj2 (Z.ltb_lt 0 (i32 (a7 t)))) by lia.
    replace (znth syscalls (i32 (a7 t))) with (@None (option sysno)); [done|].
    unfold znth. rewrite decide_True by lia. symmetry. apply lookup_ge_None_2.
    change (length syscalls) with 261%nat. lia.
Qed.

(** The machine whose running process is marked killed. *)
Definition marked s (x : proc) : machine F :=
  set_kern (set_procs (<[cur (kern s) := set_p_killed true x]> (procs (kern s))) (kern s)) s.

Lemma on_kern_mark s x :
  procs (kern s) !! cur (kern s) = Some x →
  on_kern (upd_proc (cur (kern s)) (set_p_killed true)) s = Ret (tt, marked s x).
Proof. intros Hp. apply on_kern_run. by apply upd_proc_run. Qed.

Lemma mark_page_unmap s x l root :
  running (kern s) x l root → touched (venv (kfs (kern s))) = venv (kfs (kern s)) →
  (f ← call_handler page_unmap; mret (0, f)) s = Ret ((0, Returned), marked s x).
Proof.
  intros Hrun Hpk. erewrite mbind_Ret; [reflexivity|]. unfold call_handler.
  mstep (eq_refl : r_stval s = Ret (stval (csr s), s)).
  mstep (eq_refl : r_scause s = Ret (scause (csr s), s)).
  mstep (on_kern_run _ s _ _ (page_unmap_handler_kills (kern s) x l root (stval (csr s))
    (scause (csr s)) Hrun)).
  unfold peeked. rewrite Hpk. by destruct s as [[? [] ?????????] ?????].
Qed.

(** A page fault or access fault of a user program is never resolved: a cause without a
    handler, and the load and store faults whose handler should map a page of the area, all
    mark the process killed and end it in [do_exit(-1)]. *)
Theorem user_fault_exits s x t l root :
  armed s → user_runs (kern s) x t →
  running (kern (entered_trap s x t)) x l root →
  cause_handler (is_interrupt (scause (csr s))) (code_of (scause (csr s))) ∈ [None; Some page_unmap] →
  user_trap s = (on_kern (do_exit (-1));; mret (Left Gone))
    (marked (entered_trap s x t) x).
Proof.
  intros Ha Hu Hrun Hsv. rewrite (user_trap_run s x t Hu). set (e := entered_trap s x t) in *.
  destruct (entered_runs s x t Hu) as [_ Hp _]. fold e in Hp.
  assert (∃ res e', trap (scause (csr s)) e = Ret ((res, Returned), e') ∧
    ((res ≠ 0 ∧ e' = e) ∨ (res = 0 ∧ e' = marked e x))) as (res & e' & Et & Hres).
  { rewrite (trap_run _ e Ha). set (past := if is_interrupt _ then 13 else 17).
    destruct (past <=? _); [by eexists _, _; split; [reflexivity|left]|].
    apply elem_of_cons in Hsv as [->|Hsv]; [by eexists _, _; split; [reflexivity|left]|].
    apply list_elem_of_singleton in Hsv as ->. exists 0, (marked e x). split; [|by right].
    apply mark_page_unmap with l root; [exact Hrun|]. apply touched_idemp. }
  mstep Et. change (cur (kern s)) with (cur (kern e)). unfold user_trap_end.
  destruct Hres as [[Hr ->]|[-> ->]].
  - apply Z.eqb_neq in Hr. rewrite Hr. cbn [negb mwhen].
    mstep (on_kern_mark e x Hp).
    by mstep (on_kern_get_proc (marked e x) _ (set_p_killed true x) (lookup_insert_eq _ _ _)).
  - mstep (eq_refl : (mret tt : M (machine F) unit) (marked e x) = Ret (tt, marked e x)).
    by mstep (on_kern_get_proc (marked e x) (cur (kern e)) (set_p_killed true x) (lookup_insert_eq _ _ _)).
Qed.
End user_traps.

Lemma has_pgtbl_check {F} (k : kernel F) x root :
  fst <$> upgtbls (kvm k) !! p_pagetable x = Some root → page_addr root →
  length <$> pt_pages (kvm k) !! root = Some 512%nat → has_pgtbl k x root.
Proof.
  intros Hu Ha Hp. split.
  - destruct (upgtbls (kvm k) !! p_pagetable x) as [[r c]|]; [|done]. exists c. by injection Hu as ->.
  - split; [exact Ha|]. destruct (pt_pages (kvm k) !! root) as [l|]; [|done]. exists l. by injection Hp.
Qed.

(** ** The first process calls [getpid] *)

Section demo.
#[local] Existing Instance demo_env.
#[local] Existing Instance demo_vm_env.
#[local] Existing Instance demo_sys_env.
#[local] Existing Instance demo_proc_env.
#[local] Instance demo_trap_env : TrapEnv unit := {|
  BIOS_SBI := true; kernelvec := 0x80200100; uservec_trampoline := 0; userret_trampoline := 0x9c;
  user_trap_fn := 0x80203000; device_isr := λ _ _ _, mret IRQ_HANDLED
|}.
#[local] Instance demo_exec_frame : ExecFrame := {|
  loc_argv := 0x87f00000; loc_envp := 0x87f00100; loc_interp_path := 0x87f00200;
  loc_path := 0x87f00280; loc_elf := 0x87f00300; loc_phdr := 0x87f00340;
  loc_ld_elf := 0x87f00380
|}.

(** The first process has just left user mode at 0x2a with [number] in [a7]. *)
Definition calling (cause number : Z) : machine unit :=
  let regs := Trapframe 0 0 0 0 0 0 0 1 2 3 4 5 6 number [] in
  let k := set_tframes ((λ _, regs) <$> tframes prepared) prepared in
  outcome_state (trap_init (Machine k (Csrs 0 0x2a cause 0 0 7 0) [] [] (IrqTab [] []) (Plic ∅ [] [] 0)))
    (Machine k (Csrs 0 0 0 0 0 0 0) [] [] (IrqTab [] []) (Plic ∅ [] [] 0)).

Definition caller_proc : proc := default zero_proc (procs prepared !! first).
Definition caller_root : Z := (default (0, 0) (upgtbls (kvm prepared) !! p_pagetable caller_proc)).1.
Definition caller_frame (number : Z) : trapframe := Trapframe 0 0 0 0 0 0 0 1 2 3 4 5 6 number [].

Lemma calling_armed cause number : armed (calling cause number).
Proof. done. Qed.
Lemma calling_quiet cause number : quiet (venv (kfs (kern (calling cause number)))).
Proof. exists (Cpu 0 true false). by vm_compute. Qed.
Lemma calling_runs cause number :
  user_runs (kern (calling cause number)) caller_proc (caller_frame number).
Proof. split; [apply quiet_env_ok, calling_quiet|by vm_compute|by vm_compute]. Qed.

(** An external interrupt, whose handler returns, and a timer interrupt, whose handler yields:
    the process goes on after the first one's state took its place, with other registers. *)
Definition handled (cause : Z) : machine unit :=
  outcome_state (trap cause (calling cause 0)) (calling cause 0).

Lemma kernel_trap_transparent_witness :
  (∃ s2, kernel_trap (calling (2 ^ 63 + 9) 0) = Ret (KReturned, s2) ∧ sepc (csr s2) = 0x2a) ∧
  (∃ pc v s3, kernel_trap (calling (2 ^ 63 + 5) 0) = Ret (KSuspended pc v, handled (2 ^ 63 + 5)) ∧
     kernel_trap_resume pc v (set_csr (set_sepc 0x99 (csr (handled (2 ^ 63 + 9)))) (handled (2 ^ 63 + 9))) =
       Ret (tt, s3) ∧ sepc (csr s3) = 0x2a).
Proof.
  split.
  - destruct (kernel_trap_transparent (calling (2 ^ 63 + 9) 0) 0 Returned (handled (2 ^ 63 + 9)))
      as (s2 & E & B).
    + apply cpu_ok_has, (calling_runs (2 ^ 63 + 9) 0).
    + vm_compute. split; congruence.
    + apply outcome_value. by vm_compute.
    + intros _. eexists. vm_compute. reflexivity.
    + exists s2. split; [exact E|]. rewrite (bi_pc _ _ _ B). by vm_compute.
  - destruct (kernel_trap_transparent (calling (2 ^ 63 + 5) 0) 0 Away (handled (2 ^ 63 + 5)))
      as (pc & v & E & H).
    + apply cpu_ok_has, (calling_runs (2 ^ 63 + 5) 0).
    + vm_compute. split; congruence.
    + apply outcome_value. by vm_compute.
    + discriminate.
    + destruct (H (set_csr (set_sepc 0x99 (csr (handled (2 ^ 63 + 9)))) (handled (2 ^ 63 + 9))))
        as (s3 & E3 & B); [eexists; vm_compute; reflexivity|].
      exists pc, v, s3. split; [exact E|]. split; [exact E3|]. rewrite (bi_pc _ _ _ B). by vm_compute.
Defined.

Lemma user_syscall_returns_witness :
  ∃ u s', user_trap (calling 8 172) = Ret (u, s') ∧ sepc (csr s') = 0x2e.
Proof.
  pose (s0 := call_state (entered_trap (calling 8 172) caller_proc (caller_frame 172))).
  pose (k1 := outcome_state (call_sys SYS_getpid (kern s0)) (kern s0)).
  destruct (user_syscall_returns (calling 8 172) caller_proc (caller_frame 172) SYS_getpid 1 k1
    caller_proc (set_epc 0x2a (caller_frame 172)) caller_root) as (s' & E & D).
  - apply calling_armed.
  - apply calling_quiet.
  - apply calling_runs.
  - by vm_compute.
  - reflexivity.
  - reflexivity.
  - reflexivity.
  - apply outcome_value. by vm_compute.
  - by vm_compute.
  - split; [apply quiet_env_ok; exists (Cpu 0 true true)| |]; by vm_compute.
  - by vm_compute.
  - apply has_pgtbl_check; [by vm_compute|split|]; by vm_compute.
  - eexists _, s'. split; [exact E|]. exact (eu_pc _ _ _ _ D).
Defined.

Lemma user_syscall_unknown_witness :
  user_trap (calling 8 1) = Panic ∧ user_trap (calling 8 261) = Fault.
Proof.
  assert (∀ n, armed (calling 8 n) ∧ quiet (venv (kfs (kern (calling 8 n)))) ∧
    user_runs (kern (calling 8 n)) caller_proc (caller_frame n) ∧ p_killed caller_proc = false ∧
    scause (csr (calling 8 n)) = 8) as Hs.
  { intros n. split_and!; [apply calling_armed|apply calling_quiet|apply calling_runs|by vm_compute|done]. }
  split.
  - destruct (Hs 1) as (Ha & Hq & Hu & Hk & Hc). refine (proj1
      (user_syscall_unknown (calling 8 1) caller_proc (caller_frame 1) Ha Hq Hu Hk Hc) _).
    right. vm_compute. reflexivity.
  - destruct (Hs 261) as (Ha & Hq & Hu & Hk & Hc). refine (proj2
      (user_syscall_unknown (calling 8 261) caller_proc (caller_frame 261) Ha Hq Hu Hk Hc) _).
    vm_compute. reflexivity.
Defined.

Lemma user_fault_exits_witness :
  user_trap (calling 13 0) = (on_kern (do_exit (-1));; mret (Left Gone))
    (marked (entered_trap (calling 13 0) caller_proc (caller_frame 0)) caller_proc).
Proof.
  apply (user_fault_exits (calling 13 0) caller_proc (caller_frame 0) [] caller_root).
  - apply calling_armed.
  - apply calling_runs.
  - split; [apply (entered_runs _ _ _ (calling_runs 13 0))|by vm_compute|by vm_compute|constructor|].
    apply has_pgtbl_check; [by vm_compute|split|]; by vm_compute.
  - left.
Defined.

(** ... and [do_exit] ends the process of that fault. *)
Example fault_ends : match user_trap (calling 13 0) with Ret (Left Gone, _) => True | _ => False end.
Proof. by vm_compute. Qed.
End demo.
