(* ===== verification/Grep.v ===== *)
(** * Pattern search

    Models [user/src/grep.c] and the function [strchr] of [user/lib/string.c]; [strlen],
    [strncpy], [memmove] and the others there are those of the kernel ([CString]).  The matcher
    and the loop over the lines of a file run on bytes of memory; the system calls are the
    class [ReadWrite], and the meaning of a pattern is a set of texts of its own. *)

From S2P Require Export CString.

(** ** [strchr] *)

Fixpoint strchr (fuel : nat) (s c : Z) : M bytes Z :=
  match fuel with
  | O => mspin
  | S fuel =>
      x ← ld s;
      if x =? 0 then mret (if c =? 0 then s else 0)
      else if x =? c then mret s else strchr fuel (s + 1) c
  end.

(** ** The matcher

    Characters are compared as bytes: [c] of [matchstar] is a [char] made an [int]. *)

Definition CARET : Z := 94.
Definition STAR : Z := 42.
Definition DOLLAR : Z := 36.
Definition DOT : Z := 46.
Definition NL : Z := 10.

Fixpoint matchhere (fuel : nat) (re text : Z) : M bytes bool :=
  match fuel with
  | O => mspin
  | S fuel =>
      r0 ← ld re;
      if r0 =? 0 then mret true
      else
        r1 ← ld (re + 1);
        if r1 =? STAR then matchstar fuel r0 (re + 2) text
        else if (r0 =? DOLLAR) && (r1 =? 0) then t ← ld text; mret (t =? 0)
        else
          t ← ld text;
          if negb (t =? 0) && ((r0 =? DOT) || (r0 =? t)) then matchhere fuel (re + 1) (text + 1)
          else mret false
  end
with matchstar (fuel : nat) (c re text : Z) : M bytes bool :=
  match fuel with
  | O => mspin
  | S fuel =>
      b ← matchhere fuel re text;
      if b : bool then mret true
      else
        t ← ld text;
        if negb (t =? 0) && ((t =? c) || (c =? DOT)) then matchstar fuel c re (text + 1)
        else mret false
  end.

(** The [do] loop of [match]; [n] counts its turns. *)
Fixpoint match_from (n fuel : nat) (re text : Z) : M bytes bool :=
  match n with
  | O => mspin
  | S n =>
      b ← matchhere fuel re text;
      if b : bool then mret true
      else t ← ld text; if t =? 0 then mret false else match_from n fuel re (text + 1)
  end.

Definition match_ (fuel : nat) (re text : Z) : M bytes bool :=
  r0 ← ld re;
  if r0 =? CARET then matchhere fuel (re + 1) text else match_from fuel fuel re text.

(** ** The meaning of a pattern *)

(** A pattern is a sequence of items, a character or any number of it, possibly anchored. *)
Inductive item := One (c : Z) | Many (c : Z).

Definition chr_ok (c t : Z) : Prop := c = DOT ∨ c = t.

Inductive lang : list item → list Z → Prop :=
  | lang_nil : lang [] []
  | lang_one c t its w : chr_ok c t → lang its w → lang (One c :: its) (t :: w)
  | lang_many c ts its w : Forall (chr_ok c) ts → lang its w → lang (Many c :: its) (ts ++ w).

(** The items of a pattern, and whether it ends in an anchor. *)
Fixpoint items (re : list Z) : list item * bool :=
  match re with
  | [] => ([], false)
  | c :: re1 =>
      match re1 with
      | [] => if c =? DOLLAR then ([], true) else ([One c], false)
      | d :: re2 =>
          if d =? STAR then let '(l, e) := items re2 in (Many c :: l, e)
          else let '(l, e) := items re1 in (One c :: l, e)
      end
  end.

(** A text that starts with a word of the pattern, up to its end if the pattern says so. *)
Definition starts (re text : list Z) : Prop :=
  ∃ w rest, text = w ++ rest ∧ lang (items re).1 w ∧ ((items re).2 = true → rest = []).

(** A text that has such a part somewhere, or at its start if the pattern begins with [^]. *)
Definition found (re text : list Z) : Prop :=
  match re with
  | c :: re' =>
      if c =? CARET then starts re' text else ∃ a b, text = a ++ b ∧ starts re b
  | [] => True
  end.

(** ** The matcher finds what the pattern means *)

Definition enough (fuel : nat) (re text : list Z) : Prop :=
  (2 * (length re + length text) < fuel)%nat.

Lemma starts_nil text : starts [] text.
Proof. exists [], text. split_and!; [done|constructor|done]. Qed.

Lemma starts_end text : starts [DOLLAR] text ↔ text = [].
Proof.
  split.
  - intros (w & rest & -> & Hw & He). cbn in Hw, He. inversion Hw. by rewrite He.
  - intros ->. exists [], []. split_and!; [done|constructor|done].
Qed.

Lemma items_one c re : (∀ d re', re = d :: re' → d ≠ STAR) → ¬ (c = DOLLAR ∧ re = []) →
  items (c :: re) = (One c :: (items re).1, (items re).2).
Proof.
  intros Hs Hd. destruct re as [|d re]; cbn.
  - destruct (Z.eqb_spec c DOLLAR); [naive_solver|done].
  - rewrite (proj2 (Z.eqb_neq d STAR)) by (by eapply Hs).
    by destruct (match re with [] => _ | _ => _ end).
Qed.

Lemma items_many c re : items (c :: STAR :: re) = (Many c :: (items re).1, (items re).2).
Proof. cbn. by destruct (items re). Qed.

Lemma starts_one c re text : (∀ d re', re = d :: re' → d ≠ STAR) → ¬ (c = DOLLAR ∧ re = []) →
  starts (c :: re) text ↔ ∃ t text', text = t :: text' ∧ chr_ok c t ∧ starts re text'.
Proof.
  intros Hs Hd. unfold starts. rewrite items_one by done. cbn. split.
  - intros (w & rest & -> & Hw & He). inversion Hw as [|? t ? w' Hc Hw'|]; simplify_eq.
    exists t, (w' ++ rest). split_and!; [done..|]. by exists w', rest.
  - intros (t & text' & -> & Hc & w & rest & -> & Hw & He).
    exists (t :: w), rest. split_and!; [done|by constructor|done].
Qed.

(** A starred character is matched by nothing, or by one text character before the rest. *)
Lemma starts_many c re text :
  starts (c :: STAR :: re) text ↔
  starts re text ∨ ∃ t text', text = t :: text' ∧ chr_ok c t ∧ starts (c :: STAR :: re) text'.
Proof.
  unfold starts. rewrite items_many. cbn. split.
  - intros (w & rest & -> & Hw & He). inversion Hw as [| |? ts ? w' Hts Hw']; simplify_eq.
    destruct ts as [|t ts].
    + left. by exists w', rest.
    + inversion Hts; simplify_eq. right. exists t, ((ts ++ w') ++ rest). split_and!; [done..|].
      exists (ts ++ w'), rest. split_and!; [done|by constructor|done].
  - intros [(w & rest & -> & Hw & He)|(t & text' & -> & Hc & w & rest & -> & Hw & He)].
    + exists w, rest. split_and!; [done| |done].
      by apply (lang_many c [] (items re).1 w).
    + inversion Hw as [| |? ts ? w' Hts Hw']; simplify_eq.
      exists (t :: ts ++ w'), rest. split_and!; [done| |done].
      apply (lang_many c (t :: ts)); [by constructor|done].
Qed.

Lemma ld_char m s l : cstr m s l → ld s m = Ret (match l with [] => 0 | c :: _ => c end, m).
Proof.
  intros Hl. destruct l as [|c l]; [apply cstr_nil in Hl|apply cstr_cons in Hl as (Hl & _)];
    by apply ld_ok.
Qed.

Definition decides (o : outcome (bool * bytes)) (m : bytes) (P : Prop) : Prop :=
  ∃ b, o = Ret (b, m) ∧ (b = true ↔ P).

Lemma decides_ret b m P : (b = true ↔ P) → decides (Ret (b, m)) m P.
Proof. by exists b. Qed.

Lemma decides_iff o m P Q : (P ↔ Q) → decides o m P → decides o m Q.
Proof. intros H (b & -> & Hb). exists b. by rewrite <- H. Qed.

Lemma chr_test c t : (c =? DOT) || (c =? t) = true ↔ chr_ok c t.
Proof. unfold chr_ok. rewrite orb_true_iff, !Z.eqb_eq. done. Qed.

Lemma match_run m fuel :
  (∀ lr lt re text, cstr m re lr → cstr m text lt → enough fuel lr lt →
    decides (matchhere fuel re text m) m (starts lr lt)) ∧
  (∀ c lr lt re text, cstr m re lr → cstr m text lt → (2 * (length lr + length lt) + 1 < fuel)%nat →
    decides (matchstar fuel c re text m) m (starts (c :: STAR :: lr) lt)).
Proof.
  induction fuel as [|fuel [IHh IHs]]; split; intros *; [unfold enough; lia|lia| |].
  - intros Hr Ht Hf. unfold enough in Hf. cbn [matchhere]. mstep (ld_char _ _ _ Hr).
    destruct lr as [|r0 lr]; [apply decides_ret; split; [intros _; apply starts_nil|done]|].
    apply cstr_cons in Hr as (_ & Hr0 & Hr). rewrite (proj2 (Z.eqb_neq r0 0)) by lia.
    mstep (ld_char _ _ _ Hr). cbn in Hf.
    destruct (decide (head lr = Some STAR)) as [Hh|Hns].
    { destruct lr as [|x lr]; [done|]. injection Hh as ->. rewrite Z.eqb_refl. apply cstr_cons in Hr as (_ & _ & Hr).
      replace (re + 1 + 1) with (re + 2) in Hr by lia. apply IHs; [done..|cbn in Hf; lia]. }
    assert (∀ d re', lr = d :: re' → d ≠ STAR) as Hns' by (intros d re' -> ->; done).
    assert ((match lr with [] => 0 | c :: _ => c end =? STAR) = false) as ->.
    { destruct lr; [done|]. apply Z.eqb_neq. by eapply Hns'. }
    destruct ((r0 =? DOLLAR) && _) eqn:Ed.
    { apply andb_prop in Ed as [->%Z.eqb_eq El%Z.eqb_eq].
      assert (lr = []) as -> by (destruct lr; [done|]; apply cstr_cons in Hr; lia).
      mstep (ld_char _ _ _ Ht). apply decides_ret. rewrite starts_end.
      destruct lt; [done|]. apply cstr_cons in Ht. rewrite Z.eqb_eq. split; [lia|done]. }
    assert (¬ (r0 = DOLLAR ∧ lr = [])) as Hnd by (intros [-> ->]; discriminate).
    mstep (ld_char _ _ _ Ht). eapply decides_iff; [symmetry; by apply starts_one|].
    destruct lt as [|t lt]; [apply decides_ret; naive_solver|].
    apply cstr_cons in Ht as (_ & Ht0 & Ht). rewrite (proj2 (Z.eqb_neq t 0)) by lia.
    cbn [negb andb]. destruct ((r0 =? DOT) || (r0 =? t)) eqn:Et.
    + eapply decides_iff; [|apply IHh; [done..|unfold enough; cbn in Hf; lia]].
      apply chr_test in Et. naive_solver.
    + apply decides_ret. split; [done|]. intros (t' & l' & [= <- <-] & Hc & _).
      apply chr_test in Hc. congruence.
  - intros Hr Ht Hf. cbn [matchstar].
    destruct (IHh lr lt re text Hr Ht) as ([] & E & Hb); [unfold enough; lia| |]; mstep E.
    { apply decides_ret. rewrite starts_many. naive_solver. }
    mstep (ld_char _ _ _ Ht). assert (¬ starts lr lt) as Hn by naive_solver.
    destruct lt as [|t lt]; [apply decides_ret; rewrite starts_many; naive_solver|].
    apply cstr_cons in Ht as (_ & Ht0 & Ht). rewrite (proj2 (Z.eqb_neq t 0)) by lia. cbn [negb andb].
    replace ((t =? c) || (c =? DOT)) with ((c =? DOT) || (c =? t))
      by (rewrite orb_comm; f_equal; apply Z.eqb_sym).
    destruct ((c =? DOT) || (c =? t)) eqn:Et.
    + eapply decides_iff; [|apply (IHs c lr lt); [done..|cbn in Hf; lia]].
      apply chr_test in Et. rewrite (starts_many c lr (t :: lt)). naive_solver.
    + apply decides_ret. rewrite starts_many. split; [done|].
      intros [|(t' & l' & [= <- <-] & Hc & _)]; [done|]. apply chr_test in Hc. congruence.
Qed.

Lemma match_loop_run m n fuel : ∀ lr lt re text,
  cstr m re lr → cstr m text lt → enough fuel lr lt → (length lt < n)%nat →
  decides (match_from n fuel re text m) m (∃ a b, lt = a ++ b ∧ starts lr b).
Proof.
  induction n as [|n IH]; intros lr lt re text Hr Ht Hf Hn; [lia|]. cbn [match_from].
  destruct (proj1 (match_run m fuel) lr lt re text Hr Ht Hf) as ([] & E & Hb); mstep E.
  { apply decides_ret. split; [|done]. intros _. exists [], lt. naive_solver. }
  mstep (ld_char _ _ _ Ht). assert (¬ starts lr lt) as Hns by naive_solver.
  destruct lt as [|t lt].
  { apply decides_ret. split; [done|]. intros (a & b & Eab & Hs).
    symmetry in Eab. by apply app_nil in Eab as [-> ->]. }
  apply cstr_cons in Ht as (_ & Ht0 & Ht). rewrite (proj2 (Z.eqb_neq t 0)) by lia.
  eapply decides_iff; [|apply (IH lr lt); [done..|unfold enough in *; cbn in Hf; lia|cbn in Hn; lia]].
  split.
  - intros (a & b & -> & Hb'). by exists (t :: a), b.
  - intros ([|x a] & b & Eb & Hb'); cbn in Eb; [by subst|]. injection Eb as -> ->. by exists a, b.
Qed.

Lemma match_found m fuel re text lr lt :
  cstr m re lr → cstr m text lt → enough fuel lr lt →
  decides (match_ fuel re text m) m (found lr lt).
Proof.
  intros Hr Ht Hf. unfold match_. mstep (ld_char _ _ _ Hr). unfold found.
  destruct lr as [|r0 lr].
  - eapply decides_iff; [|apply (match_loop_run m fuel fuel [] lt); [done..|unfold enough in Hf; lia]].
    split; [done|]. intros _. exists [], lt. split; [done|apply starts_nil].
  - destruct (r0 =? CARET).
    + apply cstr_cons in Hr as (_ & _ & Hr).
      apply (proj1 (match_run m fuel)); [done..|]. unfold enough in *. cbn in Hf. lia.
    + apply match_loop_run; [done..|unfold enough in Hf; lia].
Qed.

(** ** The lines of a file *)

(** The system calls that [grep] makes: [sys_read] stores what is next in the file (at least one
    byte, unless the file is at its end), [sys_write] adds to what was written. *)
Class ReadWrite (S : Type) `{HasMem S} := {
  sys_read : Z → Z → Z → M S Z;
  sys_write : Z → Z → Z → M S Z
}.

Class ReadWriteLaws (S : Type) `{ReadWrite S} := {
  input : S → list Z;
  output : S → list Z;
  io_mem m s : input (lset mem_lens m s) = input s ∧ output (lset mem_lens m s) = output s;
  read_ok fd a n s : 0 ≤ n → accessible (lget mem_lens s) a n →
    ∃ l s', sys_read fd a n s = Ret (zlen l, s') ∧
      input s = l ++ input s' ∧ output s' = output s ∧ zlen l ≤ n ∧
      (l = [] → n = 0 ∨ input s = []) ∧
      holds (lget mem_lens s') a l ∧
      (∀ b, (b < a ∨ a + zlen l ≤ b) → lget mem_lens s' !! b = lget mem_lens s !! b);
  write_ok a l s : holds (lget mem_lens s) a l →
    ∃ s', sys_write 1 a (zlen l) s = Ret (zlen l, s') ∧
      input s' = input s ∧ output s' = output s ++ l ∧ lget mem_lens s' = lget mem_lens s
}.

(** [sizeof(buf)]. *)
Definition BUFSIZE : Z := 1024.

Section grep.
Context {S : Type} `{ReadWrite S}.
(** The address of the array [buf]. *)
Context (buf : Z).

(** The loop over the lines in the buffer from [p]; the result is the final [p]. *)
Fixpoint lines_loop (n fuel : nat) (pattern p : Z) : M S Z :=
  match n with
  | O => mspin
  | Datatypes.S n =>
      q ← on_mem (strchr fuel p NL);
      if q =? 0 then mret p
      else
        on_mem (st q 0);;
        b ← on_mem (match_ fuel pattern p);
        mwhen b (on_mem (st q NL);; sys_write 1 p (q + 1 - p);; mret tt);;
        lines_loop n fuel pattern (q + 1)
  end.

(** The loop over the file with [m] bytes in the buffer. *)
Fixpoint grep_loop (n fuel : nat) (pattern fd m : Z) : M S unit :=
  match n with
  | O => mspin
  | Datatypes.S n =>
      r ← sys_read fd (buf + m) (BUFSIZE - m - 1);
      if 0 <? i32 r then
        let m := i32 (m + r) in
        on_mem (st (buf + m) 0);;
        p ← lines_loop fuel fuel pattern buf;
        (if 0 <? m then
           let m := m - (p - buf) in
           on_mem (memmove buf p (Z.to_nat m));; grep_loop n fuel pattern fd m
         else grep_loop n fuel pattern fd m)
      else mret tt
  end.

Definition grep (fuel : nat) (pattern fd : Z) : M S unit := grep_loop fuel fuel pattern fd 0.
End grep.

(** ** What is printed *)

(** Lines as they stand in a file. *)
Definition flat (ls : list (list Z)) : list Z := concat ((λ l, l ++ [NL]) <$> ls).

(** A character of a line. *)
Definition line_chr (c : Z) : Prop := 0 < c < 256 ∧ c ≠ NL.

#[export] Instance line_chr_dec c : Decision (line_chr c).
Proof. unfold line_chr. apply _. Defined.

Lemma line_bytes l : Forall line_chr l → Forall (λ c, 0 < c < 256) l.
Proof. intros H. eapply Forall_impl; [exact H|]. by intros c []. Qed.

Lemma flat_cons l ls : flat (l :: ls) = l ++ NL :: flat ls.
Proof. unfold flat. cbn. by rewrite <- app_assoc. Qed.

(** The first newline of a file ends its first line. *)
Lemma first_line a b rest ls tail :
  Forall line_chr a → Forall (Forall line_chr) ls → Forall line_chr tail →
  (a ++ NL :: b) ++ rest = flat ls ++ tail →
  ∃ ls', ls = a :: ls' ∧ b ++ rest = flat ls' ++ tail.
Proof.
  intros Ha Hls Ht E.
  assert (∀ x y u v : list Z, Forall line_chr x → Forall line_chr u →
    x ++ NL :: y = u ++ NL :: v → x = u ∧ y = v) as Hsplit.
  { induction x as [|c x IH]; intros y [|d u] v Hx Hu [=]; subst; [done|..].
    - by apply Forall_cons in Hu as [[_ ?] _].
    - by apply Forall_cons in Hx as [[_ ?] _].
    - apply Forall_cons in Hx as [_ Hx], Hu as [_ Hu].
      destruct (IH y u v) as [-> ->]; done. }
  destruct ls as [|l ls].
  - exfalso. cbn in E. rewrite <- E in Ht. rewrite !Forall_app, Forall_cons in Ht.
    destruct Ht as [[_ [[_ ?] _]] _]. done.
  - rewrite flat_cons, <- !app_assoc in E. cbn in E. apply Forall_cons in Hls as [Hl _].
    apply Hsplit in E as [-> E]; [|done..]. by exists ls.
Qed.

Lemma no_line cur rest ls tail :
  cur ++ rest = flat ls ++ tail → Forall line_chr cur →
  rest = [] ∨ Forall (λ l, zlen l < zlen cur) ls → ls = [].
Proof.
  intros E Hc Hr. destruct ls as [|l ls]; [done|]. exfalso.
  rewrite flat_cons, <- app_assoc in E. cbn in E.
  assert (cur !! length l = Some NL) as Hnl.
  { apply (f_equal (.!! length l)) in E. rewrite (lookup_app_r l), Nat.sub_diag in E by done.
    cbn in E. destruct Hr as [->|[Hl _]%Forall_cons]; [by rewrite app_nil_r in E|].
    unfold zlen in Hl. by rewrite lookup_app_l in E by lia. }
  rewrite Forall_lookup in Hc. by destruct (Hc _ _ Hnl).
Qed.

(** What is printed of the lines: those that have the pattern. *)
Inductive printed (re : list Z) : list (list Z) → list Z → Prop :=
  | printed_nil : printed re [] []
  | printed_line l ls o : found re l → printed re ls o → printed re (l :: ls) (l ++ NL :: o)
  | printed_skip l ls o : ¬ found re l → printed re ls o → printed re (l :: ls) o.

Lemma printed_app re ls1 ls2 o1 o2 :
  printed re ls1 o1 → printed re ls2 o2 → printed re (ls1 ++ ls2) (o1 ++ o2).
Proof.
  intros H1 H2. induction H1; cbn; [done|rewrite <- app_assoc; by constructor|by constructor].
Qed.

Lemma strchr_found m a b fuel : ∀ s,
  cstr m s (a ++ NL :: b) → Forall line_chr a → (length a < fuel)%nat →
  strchr fuel s NL m = Ret (s + zlen a, m).
Proof.
  revert fuel. induction a as [|c a IH]; intros [|fuel] s Hs Ha Hf; cbn in Hf; try lia;
    cbn [strchr]; cbn [app] in Hs; apply cstr_cons in Hs as (Hc & Hr & Hs);
    ld_step; rewrite (proj2 (Z.eqb_neq _ 0)) by lia.
  - rewrite Z.eqb_refl. unfold zlen. cbn. by rewrite Z.add_0_r.
  - apply Forall_cons in Ha as [[_ Hn] Ha]. rewrite (proj2 (Z.eqb_neq c NL)) by done.
    rewrite IH by (done || lia). rewrite zlen_cons. do 2 f_equal. lia.
Qed.

Lemma strchr_none m a fuel : ∀ s,
  cstr m s a → Forall line_chr a → (length a < fuel)%nat → strchr fuel s NL m = Ret (0, m).
Proof.
  revert fuel. induction a as [|c a IH]; intros [|fuel] s Hs Ha Hf; cbn in Hf; try lia;
    cbn [strchr].
  - apply cstr_nil in Hs. by ld_step.
  - apply cstr_cons in Hs as (Hc & Hr & Hs). ld_step. rewrite (proj2 (Z.eqb_neq _ 0)) by lia.
    apply Forall_cons in Ha as [[_ Hn] Ha]. rewrite (proj2 (Z.eqb_neq c NL)) by done.
    apply IH; (done || lia).
Qed.

(** A text of bytes has a first newline or none. *)
Lemma newline_split l : Forall (λ c, 0 < c < 256) l →
  Forall line_chr l ∨ ∃ a b, l = a ++ NL :: b ∧ Forall line_chr a.
Proof.
  induction l as [|c l IH]; intros Hl; [by left|]. apply Forall_cons in Hl as [Hc Hl].
  destruct (decide (c = NL)) as [->|Hn]; [right; by exists [], l|].
  destruct (IH Hl) as [Hl'|(a & b & -> & Ha)]; [left; by constructor|].
  right. exists (c :: a), b. split; [done|by constructor].
Qed.

Section grep_spec.
Context {S : Type} `{ReadWriteLaws S}.
Context (buf pattern : Z) (re : list Z).
Context (Hbuf : 0 < buf).

Local Abbreviation mem s := (lget mem_lens s).

Lemma on_mem_Ret {A B} (m : M bytes A) (k : A → M S B) s a m' :
  m (mem s) = Ret (a, m') → (on_mem m ≫= k) s = k a (lset mem_lens m' s).
Proof. intros E. unfold on_mem. apply mbind_Ret. unfold zoom. by rewrite E. Qed.

Lemma on_mem_same {A B} (m : M bytes A) (k : A → M S B) s a :
  m (mem s) = Ret (a, mem s) → (on_mem m ≫= k) s = k a s.
Proof. intros E. by rewrite (on_mem_Ret _ _ _ _ _ E), lens_set_get. Qed.

Lemma bind_bind {A B C} (m : M S A) (k : A → M S B) (h : B → M S C) s :
  ((m ≫= k) ≫= h) s = (m ≫= λ a, k a ≫= h) s.
Proof. unfold mbind, M_bind. by destruct (m s) as [[]| | |]. Qed.

(** The memory of [grep]: the pattern, and the buffer apart from it. *)
Record gmem (m : bytes) : Prop := {
  gm_pat : cstr m pattern re;
  gm_apart : pattern + zlen re < buf ∨ buf + BUFSIZE ≤ pattern;
  gm_buf : accessible m buf BUFSIZE;
  gm_bytes : bytes_ok m
}.

(** Changing bytes of the buffer. *)
Lemma gmem_frame m m' :
  gmem m → (∀ a, ¬ (buf ≤ a < buf + BUFSIZE) → m' !! a = m !! a) → accessible m' buf BUFSIZE →
  bytes_ok m' → gmem m'.
Proof.
  intros [Hp Ha Hb Hok] Hf Hacc Hok'. split; [|done..].
  apply (cstr_frame m); [done|]. intros b Hb'. apply Hf. lia.
Qed.

Lemma gmem_st m a v : gmem m → buf ≤ a < buf + BUFSIZE → gmem (<[a := u8 v]> m).
Proof.
  intros Hm Ha. apply (gmem_frame m); [done| | |].
  - intros b Hb. by rewrite lookup_insert_ne by lia.
  - by apply accessible_insert, gm_buf.
  - by apply bytes_ok_insert, gm_bytes.
Qed.

Lemma gmem_at m a : gmem m → buf ≤ a < buf + BUFSIZE → is_Some (m !! a).
Proof.
  intros Hm Ha. replace a with (buf + (a - buf)) by lia. apply (gm_buf _ Hm). lia.
Qed.

Lemma st_buf {B} (k : unit → M S B) s a v :
  gmem (mem s) → buf ≤ a < buf + BUFSIZE →
  (on_mem (st a v) ≫= k) s = k tt (lset mem_lens (<[a := u8 v]> (mem s)) s).
Proof.
  intros Hm Ha. destruct (gmem_at _ _ Hm Ha) as [x Hx]. apply on_mem_Ret. by eapply st_ok.
Qed.

(** The bytes of a line, of what follows it and of its end, when the newline is overwritten. *)
Lemma line_memory m p a b :
  cstr m p (a ++ NL :: b) →
  Forall (λ c, 0 < c < 256) a ∧
  ∀ v, cstr (<[p + zlen a := v]> m) (p + zlen a + 1) b ∧ holds (<[p + zlen a := v]> m) p (a ++ [v]).
Proof.
  intros [Hh [Hla [_ Hlb]%Forall_cons]%Forall_app]. split; [done|]. intros v.
  set (q := p + zlen a). pose proof (zlen_nonneg a). split.
  - apply (cstr_frame m); [|intros c Hc; by rewrite lookup_insert_ne by lia].
    split; [|done]. intros i x Hx. rewrite <- (Hh (length a + 1 + i)%nat x).
    + f_equal. unfold q, zlen. lia.
    + rewrite <- app_assoc, lookup_app_r by lia.
      replace (length a + 1 + i - length a)%nat with (Datatypes.S i) by lia. done.
  - intros i x [Hx|[Hi Hx]]%lookup_app_Some.
    + pose proof (lookup_lt_Some _ _ _ Hx). rewrite lookup_insert_ne by (unfold q, zlen; lia).
      apply Hh. rewrite <- app_assoc. by apply lookup_app_l_Some.
    + destruct (i - length a)%nat eqn:Ei; [|done]. injection Hx as <-.
      replace (p + Z.of_nat i) with q by (unfold q, zlen; lia). apply lookup_insert_eq.
Qed.

(** One line: it is printed when it has the pattern, and what follows stays. *)
Lemma one_line fuel s p a b :
  gmem (mem s) → buf ≤ p → p + zlen (a ++ NL :: b) < buf + BUFSIZE →
  cstr (mem s) p (a ++ NL :: b) → Forall line_chr a → enough fuel re a → (length a < fuel)%nat →
  ∃ s' o, (∀ n, lines_loop (Datatypes.S n) fuel pattern p s =
              lines_loop n fuel pattern (p + zlen a + 1) s') ∧
    printed re [a] o ∧ input s' = input s ∧ output s' = output s ++ o ∧ gmem (mem s') ∧
    cstr (mem s') (p + zlen a + 1) b.
Proof.
  intros Hm Hp Hlen Hc Ha Hf Hf'. rewrite zlen_app, zlen_cons in Hlen.
  pose proof (zlen_nonneg a). pose proof (zlen_nonneg b).
  set (q := p + zlen a) in *. assert (buf ≤ q < buf + BUFSIZE) as Hq by lia.
  set (s1 := lset mem_lens (<[q := u8 0]> (mem s)) s).
  assert (mem s1 = <[q := 0]> (mem s)) as E1 by apply lens_get_set.
  assert (gmem (mem s1)) as Hm1 by (rewrite E1; by apply (gmem_st _ q 0)).
  destruct (line_memory _ _ _ _ Hc) as [Hla Hline]. fold q in Hline.
  assert (∀ v, <[q := u8 v]> (mem s1) = <[q := u8 v]> (mem s)) as Hins
    by (intros; rewrite E1; apply insert_insert_eq).
  destruct (match_found (mem s1) fuel pattern p re a) as (r & Er & Hr).
  { apply gm_pat, Hm1. }
  { split; [|done]. rewrite E1. apply Hline. }
  { done. }
  assert (∀ n, lines_loop (Datatypes.S n) fuel pattern p s =
    (mwhen r (on_mem (st q NL);; sys_write 1 p (q + 1 - p);; mret tt);;
     lines_loop n fuel pattern (q + 1)) s1) as Hstep.
  { intros n. cbn [lines_loop].
    rewrite (on_mem_same _ _ _ _ (strchr_found (mem s) a b fuel p Hc Ha Hf')).
    fold q. rewrite (proj2 (Z.eqb_neq q 0)) by lia. rewrite (st_buf _ _ _ _ Hm Hq). fold s1.
    by rewrite (on_mem_same _ _ _ _ Er). }
  pose proof (proj1 (io_mem (<[q := u8 0]> (mem s)) s)) as Ei1.
  pose proof (proj2 (io_mem (<[q := u8 0]> (mem s)) s)) as Eo1. fold s1 in Ei1, Eo1.
  destruct r; cbn [mwhen] in Hstep.
  - set (s2 := lset mem_lens (<[q := u8 NL]> (mem s1)) s1).
    assert (mem s2 = <[q := NL]> (mem s)) as E2 by (unfold s2; rewrite lens_get_set; apply Hins).
    pose proof (proj1 (io_mem (<[q := u8 NL]> (mem s1)) s1)) as Ei2.
    pose proof (proj2 (io_mem (<[q := u8 NL]> (mem s1)) s1)) as Eo2. fold s2 in Ei2, Eo2.
    destruct (write_ok p (a ++ [NL]) s2) as (s3 & Ew & Ei3 & Eo3 & Em3); [rewrite E2; apply Hline|].
    exists s3, (a ++ NL :: []). split_and!.
    + intros n. rewrite Hstep. unfold mwhen. rewrite bind_bind, (st_buf _ _ _ _ Hm1 Hq).
      fold s2. rewrite bind_bind.
      replace (q + 1 - p) with (zlen (a ++ [NL])) by
        (rewrite zlen_app; change (zlen [NL]) with 1; unfold q; lia).
      by mstep Ew.
    + constructor; [by apply Hr|constructor].
    + congruence.
    + congruence.
    + rewrite Em3, E2. apply (gmem_st _ q NL); [done|lia].
    + rewrite Em3, E2. apply Hline.
  - exists s1, []. split_and!.
    + intros n. by rewrite Hstep.
    + apply printed_skip; [naive_solver|constructor].
    + done.
    + by rewrite app_nil_r.
    + done.
    + rewrite E1. apply Hline.
Qed.

Definition fuel_ok (fuel : nat) : Prop := (2 * (length re + Z.to_nat BUFSIZE) < fuel)%nat.

Lemma lines_run fuel rest tail n : ∀ s p cur ls,
  fuel_ok fuel → gmem (mem s) → buf ≤ p → p + zlen cur < buf + BUFSIZE → cstr (mem s) p cur →
  Forall (Forall line_chr) ls → Forall line_chr tail → cur ++ rest = flat ls ++ tail →
  (length cur < n)%nat →
  ∃ s' p' cur' ls1 ls2 o, lines_loop n fuel pattern p s = Ret (p', s') ∧
    ls = ls1 ++ ls2 ∧ printed re ls1 o ∧ output s' = output s ++ o ∧ input s' = input s ∧
    gmem (mem s') ∧ cstr (mem s') p' cur' ∧ p ≤ p' ∧ p' + zlen cur' = p + zlen cur ∧
    Forall line_chr cur' ∧ cur' ++ rest = flat ls2 ++ tail.
Proof.
  induction n as [|n IH]; intros s p cur ls Hf Hm Hp Hlen Hc Hls Ht E Hn; [lia|].
  unfold fuel_ok, BUFSIZE in *. destruct (newline_split cur (proj2 Hc)) as [Hcl|(a & b & -> & Ha)].
  - exists s, p, cur, [], ls, []. split_and!; try done; [|by constructor|by rewrite app_nil_r].
    cbn [lines_loop]. rewrite (on_mem_same _ _ _ _ (strchr_none _ cur fuel p Hc Hcl ltac:(unfold zlen in *; lia))).
    done.
  - pose proof Hlen as Hlen'. rewrite zlen_app, zlen_cons in Hlen'.
    pose proof (zlen_nonneg a). pose proof (zlen_nonneg b).
    destruct (first_line a b rest ls tail Ha Hls Ht E) as (ls' & -> & E').
    apply Forall_cons in Hls as [_ Hls]. rewrite length_app in Hn. cbn in Hn.
    destruct (one_line fuel s p a b Hm Hp Hlen Hc Ha) as (s1 & o1 & Es & Ho1 & Ei1 & Eo1 & Hm1 & Hc1).
    { unfold enough, zlen in *. lia. }
    { unfold zlen in *. lia. }
    destruct (IH s1 (p + zlen a + 1) b ls')
      as (s' & p' & cur' & ls1 & ls2 & o & El & -> & Ho & Eo & Ei & Hm' & Hc' & Hp' & Hpc & Hcl & Ec);
      try done; try lia.
    exists s', p', cur', (a :: ls1), ls2, (o1 ++ o). rewrite Es. split_and!; try done; try lia.
    + by apply (printed_app re [a] ls1).
    + by rewrite Eo, Eo1, app_assoc.
    + congruence.
    + rewrite zlen_app, zlen_cons. lia.
Qed.

(** What [sys_read] put behind the bytes in the buffer. *)
Lemma after_read s s1 cur l :
  gmem (mem s) → holds (mem s) buf cur → Forall (λ c, 0 < c < 256) l → zlen cur + zlen l < BUFSIZE →
  holds (mem s1) (buf + zlen cur) l →
  (∀ b, (b < buf + zlen cur ∨ buf + zlen cur + zlen l ≤ b) → mem s1 !! b = mem s !! b) →
  gmem (mem s1) ∧ holds (mem s1) buf (cur ++ l).
Proof.
  intros Hm Hc Hl Hlen Hh Hfr. pose proof (zlen_nonneg cur). pose proof (zlen_nonneg l).
  assert (∀ b, buf + zlen cur ≤ b < buf + zlen cur + zlen l →
    ∃ x, mem s1 !! b = Some x ∧ 0 < x < 256) as Hin.
  { intros b Hb. destruct (lookup_lt_is_Some_2 l (Z.to_nat (b - (buf + zlen cur)))) as [x Hx].
    { unfold zlen in *. lia. }
    exists x. split; [|by eapply (Forall_lookup_1 _ _ _ _ Hl)].
    rewrite <- (Hh _ _ Hx). f_equal. unfold zlen in *. lia. }
  split.
  - apply (gmem_frame (mem s)); [done|intros a Ha; apply Hfr; lia| |].
    + intros i Hi. destruct (decide (zlen cur ≤ i < zlen cur + zlen l)).
      * destruct (Hin (buf + i)) as (x & -> & _); [lia|done].
      * rewrite Hfr by lia. apply (gm_buf _ Hm). lia.
    + intros b x Hx. destruct (decide (buf + zlen cur ≤ b < buf + zlen cur + zlen l)) as [Hb|].
      * destruct (Hin b Hb) as (y & Ey & ?). rewrite Hx in Ey. injection Ey as ->. lia.
      * rewrite Hfr in Hx by lia. by eapply gm_bytes.
  - intros i x [Hx|[Hi Hx]]%lookup_app_Some.
    + rewrite Hfr by (apply lookup_lt_Some in Hx; unfold zlen; lia). by apply Hc.
    + rewrite <- (Hh _ _ Hx). f_equal. unfold zlen. lia.
Qed.

(** The NUL byte that [grep] puts behind the bytes read. *)
Lemma terminate m cur :
  gmem m → holds m buf cur → Forall (λ c, 0 < c < 256) cur → zlen cur < BUFSIZE →
  gmem (<[buf + zlen cur := u8 0]> m) ∧ cstr (<[buf + zlen cur := u8 0]> m) buf cur.
Proof.
  intros Hm Hc Hb Hlen. pose proof (zlen_nonneg cur). split; [apply gmem_st; [done|lia]|].
  split; [|done]. intros i x [Hx|[Hi Hx]]%lookup_app_Some.
  - rewrite lookup_insert_ne by (apply lookup_lt_Some in Hx; unfold zlen; lia). by apply Hc.
  - destruct (i - length cur)%nat eqn:Ei; [|done]. injection Hx as <-.
    replace (buf + Z.of_nat i) with (buf + zlen cur) by (unfold zlen; lia). apply lookup_insert_eq.
Qed.

(** [memmove] brings what is left to the front. *)
Lemma keep_rest m p cur :
  gmem m → cstr m p cur → buf ≤ p → p + zlen cur < buf + BUFSIZE →
  ∃ m', memmove buf p (Z.to_nat (zlen cur)) m = Ret (buf, m') ∧ gmem m' ∧ holds m' buf cur.
Proof.
  intros Hm [Hc Hb] Hp Hlen. pose proof (zlen_nonneg cur).
  assert (∀ i, 0 ≤ i < BUFSIZE → is_Some (m !! (buf + i))) as Hacc by apply (gm_buf _ Hm).
  destruct (memmove_run m buf p (Z.to_nat (zlen cur))) as (m' & E & Hm').
  { by apply gm_bytes. }
  { intros i Hi. apply Hacc. lia. }
  { intros i Hi. replace (p + i) with (buf + (p - buf + i)) by lia. apply Hacc. lia. }
  exists m'. unfold copied in Hm'. rewrite Z2Nat.id in Hm' by done. split_and!; [done| |].
  - apply (gmem_frame m); [done| | |].
    + intros a Ha. rewrite Hm', decide_False by lia. done.
    + intros i Hi. rewrite Hm'. case_decide; [|by apply Hacc].
      replace (p + (buf + i - buf)) with (buf + (p - buf + i)) by lia. apply Hacc. lia.
    + intros a x. rewrite Hm'. case_decide; apply (gm_bytes _ Hm).
  - intros i x Hx. rewrite Hm', decide_True by (apply lookup_lt_Some in Hx; unfold zlen; lia).
    replace (p + (buf + Z.of_nat i - buf)) with (p + Z.of_nat i) by lia. apply Hc.
    by apply lookup_app_l_Some.
Qed.

Lemma grep_loop_run fuel fd tail n : ∀ s m cur ls,
  fuel_ok fuel → gmem (mem s) → holds (mem s) buf cur → m = zlen cur → m < BUFSIZE →
  Forall line_chr cur → Forall (Forall line_chr) ls → Forall line_chr tail →
  Forall (λ l, zlen l < BUFSIZE - 1) ls → cur ++ input s = flat ls ++ tail →
  (length (input s) < n)%nat →
  ∃ s' o, grep_loop buf n fuel pattern fd m s = Ret (tt, s') ∧ printed re ls o ∧
    output s' = output s ++ o.
Proof.
  induction n as [|n IH]; intros s m cur ls Hf Hm Hc -> Hlen Hcl Hls Ht Hshort E Hn; [lia|].
  pose proof (zlen_nonneg cur). cbn [grep_loop].
  destruct (read_ok fd (buf + zlen cur) (BUFSIZE - zlen cur - 1) s)
    as (l & s1 & Er & Ei & Eo & Hl & Hend & Hh & Hfr); [lia| |].
  { apply (accessible_mono _ _ BUFSIZE); [apply (gm_buf _ Hm)|lia..]. }
  pose proof (zlen_nonneg l). mstep Er. unfold BUFSIZE in Hl, Hend. rewrite i32_small by lia.
  destruct (Z.ltb_spec 0 (zlen l)) as [Hpos|Hz].
  - assert (Forall (λ c, 0 < c < 256) (cur ++ l)) as Hb.
    { assert (Forall (λ c, 0 < c < 256) (cur ++ input s)) as Hall.
      { rewrite E. apply Forall_app. split; [|by apply line_bytes].
        clear -Hls. induction Hls as [|a ls Ha _ IH]; [constructor|]. rewrite flat_cons.
        apply Forall_app. split; [by apply line_bytes|by constructor]. }
      rewrite Ei, app_assoc in Hall. by apply Forall_app in Hall as [? _]. }
    pose proof (proj1 (Forall_app _ _ _) Hb) as [_ Hbl].
    destruct (after_read s s1 cur l) as [Hm1 Hh1]; [done..|unfold BUFSIZE; lia|done|done|].
    rewrite i32_small by lia. rewrite <- zlen_app.
    destruct (terminate (mem s1) (cur ++ l)) as [Hm2 Hc2]; try done.
    { rewrite zlen_app. unfold BUFSIZE. lia. }
    rewrite (st_buf _ _ _ _ Hm1) by (rewrite zlen_app; unfold BUFSIZE; lia).
    set (s2 := lset mem_lens _ s1).
    pose proof (io_mem (<[buf + zlen (cur ++ l) := u8 0]> (mem s1)) s1) as [Ei2 Eo2]. fold s2 in Ei2, Eo2.
    assert (mem s2 = <[buf + zlen (cur ++ l) := u8 0]> (mem s1)) as E2 by apply lens_get_set.
    rewrite <- E2 in Hm2, Hc2. rewrite Ei, app_assoc in E.
    destruct (lines_run fuel (input s1) tail fuel s2 buf (cur ++ l) ls)
      as (s3 & p' & cur' & ls1 & ls2 & o1 & El & -> & Ho1 & Eo3 & Ei3 & Hm3 & Hc3 & Hp' & Hpc & Hcl' & E3);
      try done; try (rewrite zlen_app; unfold BUFSIZE; lia).
    { rewrite length_app. unfold fuel_ok, BUFSIZE, zlen in *. lia. }
    mstep El. rewrite zlen_app in Hpc |- *. rewrite (proj2 (Z.ltb_lt _ _)) by lia.
    replace (zlen cur + zlen l - (p' - buf)) with (zlen cur') by lia.
    destruct (keep_rest (mem s3) p' cur') as (m4 & E4 & Hm4 & Hc4); try done.
    { unfold BUFSIZE. lia. }
    rewrite (on_mem_Ret _ _ _ _ _ E4).
    pose proof (io_mem m4 s3) as [Ei4 Eo4].
    destruct (IH (lset mem_lens m4 s3) (zlen cur') cur' ls2) as (s' & o & Eg & Ho & Eo'); try done;
      rewrite ?lens_get_set; try done.
    + unfold BUFSIZE. lia.
    + by apply Forall_app in Hls as [_ ?].
    + by apply Forall_app in Hshort as [_ ?].
    + by rewrite Ei4, Ei3, Ei2.
    + rewrite Ei4, Ei3, Ei2. rewrite Ei, length_app in Hn. unfold zlen in Hpos. lia.
    + exists s', (o1 ++ o). split_and!; [done|by apply printed_app|].
      rewrite Eo', Eo4, Eo3, Eo2, Eo. by rewrite app_assoc.
  - assert (l = []) as -> by (destruct l; [done|unfold zlen in Hz; cbn in Hz; lia]).
    assert (ls = []) as ->.
    { eapply no_line; [exact E|done|]. destruct (Hend eq_refl) as [Hfull|]; [right|by left].
      eapply Forall_impl; [exact Hshort|]. intros a Ha. cbn in *. unfold BUFSIZE in Ha. lia. }
    exists s1, []. split_and!; [done|constructor|by rewrite Eo, app_nil_r].
Qed.
End grep_spec.

(** C39: for any pattern and text, [match] of [grep] returns whether the text has a part that
    the pattern means, at its start if the pattern begins with [^], up to its end if it ends in
    [$], where a dot stands for any character and a star for any number of the character
    before it. *)
Theorem match_spec m fuel re text lr lt :
  cstr m re lr → cstr m text lt → (2 * (length lr + length lt) < fuel)%nat →
  ∃ b, match_ fuel re text m = Ret (b, m) ∧ (b = true ↔ found lr lt).
Proof. apply match_found. Qed.

(** C40: [grep] terminates and prints exactly the lines of the file that have the pattern, in
    their order, however the file arrives in pieces: for a file without NUL bytes whose lines
    have less than 1023 characters.  What follows the last newline is not printed.  Conditions:
    reads and writes do not fail ([ReadWriteLaws]), and the pattern lies apart from the
    buffer. *)
Theorem grep_prints_lines {S} `{ReadWriteLaws S} buf pattern re fd s ls tail fuel :
  0 < buf → gmem buf pattern re (lget mem_lens s) →
  input s = flat ls ++ tail →
  Forall (Forall line_chr) ls → Forall line_chr tail → Forall (λ l, zlen l < BUFSIZE - 1) ls →
  (2 * (length re + 1024) < fuel)%nat → (length (input s) < fuel)%nat →
  ∃ s' o, grep buf fuel pattern fd s = Ret (tt, s') ∧ printed re ls o ∧ output s' = output s ++ o.
Proof.
  intros Hbuf Hm E Hls Ht Hshort Hf Hn.
  apply (grep_loop_run buf pattern re Hbuf fuel fd tail fuel s 0 []); done.
Qed.

(** ** A file that arrives in pieces *)

(** The bytes that a call stores, when [avail] of the file are there. *)
Fixpoint put (m : bytes) (a : Z) (l : list Z) : bytes :=
  match l with
  | [] => m
  | c :: l => put (<[a := c]> m) (a + 1) l
  end.

Lemma put_spec l : ∀ m a,
  holds (put m a l) a l ∧ (∀ b, (b < a ∨ a + zlen l ≤ b) → put m a l !! b = m !! b).
Proof.
  induction l as [|c l IH]; intros m a; cbn [put]; [split; [apply holds_nil|done]|].
  destruct (IH (<[a := c]> m) (a + 1)) as [Hh Hf]. pose proof (zlen_nonneg l). split.
  - apply holds_cons. split; [|done]. rewrite Hf by lia. apply lookup_insert_eq.
  - intros b Hb. rewrite zlen_cons in Hb. rewrite Hf by lia. by rewrite lookup_insert_ne by lia.
Qed.

Record console := Console {
  c_mem : bytes;
  c_in : list Z;
  c_pieces : list nat;   (** how many bytes the next reads find *)
  c_out : list Z
}.

Definition c_mem_lens : lens console bytes :=
  Lens c_mem (λ m s, Console m (c_in s) (c_pieces s) (c_out s)).
#[export] Instance c_has_mem : HasMem console.
Proof. refine {| mem_lens := c_mem_lens |}. by split; intros; destruct s. Defined.

(** The bytes at [a]. *)
Fixpoint bytes_at (m : bytes) (a : Z) (n : nat) : option (list Z) :=
  match n with
  | O => Some []
  | S n => c ← m !! a; l ← bytes_at m (a + 1) n; Some (c :: l)
  end.

Lemma bytes_at_holds l : ∀ m a, holds m a l → bytes_at m a (length l) = Some l.
Proof.
  induction l as [|c l IH]; intros m a Hh; [done|]. apply holds_cons in Hh as [Hc Hl].
  cbn. by rewrite Hc, (IH _ _ Hl).
Qed.

#[export] Instance console_rw : ReadWrite console := {
  sys_read fd a n s :=
    let k := Nat.min (Z.to_nat n) (Datatypes.S (default O (head (c_pieces s)))) in
    let l := take k (c_in s) in
    Ret (zlen l, Console (put (c_mem s) a l) (drop k (c_in s)) (tail (c_pieces s)) (c_out s));
  sys_write fd a n s :=
    match bytes_at (c_mem s) a (Z.to_nat n) with
    | Some l => Ret (n, Console (c_mem s) (c_in s) (c_pieces s) (c_out s ++ l))
    | None => Fault
    end
}.

#[export] Instance console_laws : ReadWriteLaws console.
Proof.
  refine {| input := c_in; output := c_out |}.
  - done.
  - intros fd a n s Hn _. cbn. eexists _, _. split; [reflexivity|]. cbn.
    set (k := Nat.min _ _). destruct (put_spec (take k (c_in s)) (c_mem s) a) as [Hh Hf].
    split_and!; [by rewrite take_drop|done| | |done|done].
    + unfold zlen. rewrite length_take. lia.
    + intros E. apply (f_equal length) in E. rewrite length_take in E. cbn in E.
      destruct (c_in s); [by right|]. left. cbn in E. lia.
  - intros a l s Hh. cbn. unfold zlen. rewrite Nat2Z.id, bytes_at_holds by done.
    eexists. split; [reflexivity|]. done.
Defined.

Definition s_ (t : string) : list Z := (λ a, Z.of_N (Ascii.N_of_ascii a)) <$> String.list_ascii_of_string t.

(** The pattern at 8, the buffer of 1024 bytes at 100. *)
Definition grep_memory (re : list Z) : bytes :=
  put (put ∅ 8 (re ++ [0])) 100 (replicate 1024 0).

Lemma bytes_ok_put l : ∀ m a, bytes_ok m → Forall (λ c, 0 ≤ c < 256) l → bytes_ok (put m a l).
Proof.
  induction l as [|c l IH]; intros m a Hm Hl; [done|]. apply Forall_cons in Hl as [Hc Hl].
  cbn [put]. apply IH; [|done]. rewrite <- (u8_small c) by lia. by apply bytes_ok_insert.
Qed.

Lemma grep_memory_ok re :
  Forall (λ c, 0 < c < 256) re → zlen re < 90 → gmem 100 8 re (grep_memory re).
Proof.
  intros Hre Hlen. unfold grep_memory. set (m0 := put ∅ 8 (re ++ [0])).
  destruct (put_spec (re ++ [0]) ∅ 8) as [Hh0 _]. fold m0 in Hh0.
  destruct (put_spec (replicate 1024 0) m0 100) as [Hh Hf].
  assert (cstr m0 8 re) as Hc by (by split). split.
  - apply (cstr_frame m0); [done|]. intros b Hb. apply Hf. lia.
  - left. lia.
  - intros i Hi. unfold BUFSIZE in Hi.
    exists 0. replace (100 + i) with (100 + Z.of_nat (Z.to_nat i)) by lia. apply Hh.
    apply lookup_replicate. split; [done|lia].
  - apply bytes_ok_put; [|by apply Forall_replicate]. apply bytes_ok_put; [done|].
    apply Forall_app. split; [|by constructor]. eapply Forall_impl; [exact Hre|].
    intros c Hb; cbn in Hb |- *; lia.
Qed.

Definition grep_start (re text : list Z) (pieces : list nat) : console :=
  Console (grep_memory re) text pieces [].

Definition grep_output (re text : list Z) (pieces : list nat) : list Z :=
  c_out (outcome_state (grep 100 4000 8 0 (grep_start re text pieces)) (grep_start re text pieces)).

Definition nl_ (t : string) : list Z := s_ t ++ [NL].

Example grep_some :
  grep_output (s_ "^ab*.$") (nl_ "abc" ++ nl_ "xab" ++ nl_ "ad" ++ s_ "abb") [3; 0; 5]%nat =
  nl_ "abc" ++ nl_ "ad".
Proof. vm_compute. reflexivity. Qed.

(** After a line of 1023 characters nothing is printed any more. *)
Example grep_stops_at_long_line :
  grep_output (s_ "^a") (replicate 1023 98 ++ [NL] ++ nl_ "a") [1023]%nat = [] ∧
  grep_output (s_ "^a") (replicate 1022 98 ++ [NL] ++ nl_ "a") [1023]%nat = nl_ "a".
Proof. vm_compute. split; reflexivity. Qed.

(** A NUL byte hides what comes after it. *)
Example grep_stops_at_nul : grep_output (s_ "a") ([0; NL] ++ nl_ "a") [] = [].
Proof. vm_compute. reflexivity. Qed.

Ltac by_decision := eapply (bool_decide_eq_true_1 _); vm_compute; reflexivity.

Lemma match_spec_witness :
  let m := put (put ∅ 10 (s_ "b*c$" ++ [0])) 20 (s_ "abbc" ++ [0]) in
  (∃ b, match_ 100 10 20 m = Ret (b, m) ∧ (b = true ↔ found (s_ "b*c$") (s_ "abbc"))) ∧
  match_ 100 10 20 m = Ret (true, m).
Proof.
  split; [|vm_compute; reflexivity]. apply match_spec; [..|vm_compute; lia].
  - split; [|by_decision]. intros i x Hx.
    do 5 (destruct i as [|i]; [by injection Hx as <-|]). done.
  - split; [|by_decision]. intros i x Hx.
    do 5 (destruct i as [|i]; [by injection Hx as <-|]). done.
Defined.

Lemma grep_prints_lines_witness :
  let s := grep_start (s_ "b*c$") (nl_ "abbc" ++ nl_ "cd" ++ s_ "c") [3; 0]%nat in
  ∃ s' o, grep 100 4000 8 0 s = Ret (tt, s') ∧
    printed (s_ "b*c$") [s_ "abbc"; s_ "cd"] o ∧ output s' = output s ++ o ∧ o = nl_ "abbc".
Proof.
  intros s.
  destruct (grep_prints_lines 100 8 (s_ "b*c$") 0 s [s_ "abbc"; s_ "cd"] (s_ "c") 4000)
    as (s' & o & E & Ho & Eo).
  - lia.
  - apply grep_memory_ok; [by_decision|by vm_compute].
  - reflexivity.
  - by_decision.
  - by_decision.
  - by_decision.
  - vm_compute. lia.
  - vm_compute. lia.
  - exists s', o. split_and!; [done..|]. change (output s') with (c_out s') in Eo.
    assert (c_out (outcome_state (grep 100 4000 8 0 s) s) = nl_ "abbc") as Ec by (vm_compute; done).
    rewrite E in Ec. etrans; [symmetry; exact Eo|exact Ec].
Defined.
