(* ===== verification/Umalloc.v ===== *)
(** * The allocator of the user programs

    Models [user/lib/umalloc.c].  Memory is a map of units of one header each, by address; a
    unit holds what a [Header] at its address would.  Free blocks form a ring through the
    global [base], in the order of their addresses; the program gets memory from the system
    call [brk], the class [Break]. *)

From S2P Require Export Prelude.

(** [union header], and the size of one. *)
Record header := Hdr { h_ptr : Z; h_size : Z }.
#[export] Instance header_eq_dec : EqDecision header.
Proof. solve_decision. Defined.
Definition SIZEOF_HEADER : Z := 16.

(** Memory, the global [freep], and what the system keeps. *)
Record ustate (Y : Type) := UState {
  cells : gmap Z header;
  freep : Z;
  os : Y
}.
Arguments UState {Y} _ _ _.
Arguments cells {Y} _.
Arguments freep {Y} _.
Arguments os {Y} _.

Definition set_cells {Y} (c : gmap Z header) (s : ustate Y) : ustate Y := UState c (freep s) (os s).
Definition set_freep {Y} (p : Z) (s : ustate Y) : ustate Y := UState (cells s) p (os s).

(** The system calls: [brk] moves the end of the heap. *)
Class Break (Y : Type) := { brk : Z → M (ustate Y) Z }.

(** [break y] is the end of the heap.  Asked for 0, [brk] tells it; asked for more it refuses,
    or moves it at least that far and the new units are there.  The heap is small enough for
    its units to be counted in 32 bits. *)
Class BreakLaws (Y : Type) `{Break Y} := {
  break : Y → Z;
  break_bound y : break y ≤ 2 ^ 36;
  brk_query s : ∃ y, brk 0 s = Ret (break (os s), UState (cells s) (freep s) y) ∧ break y = break (os s);
  brk_grow a s : break (os s) < a → ∃ r c y, brk a s = Ret (r, UState c (freep s) y) ∧
    (∀ x, is_Some (cells s !! x) → c !! x = cells s !! x) ∧
    (r < 0 ∧ break y = break (os s) ∨
     r = 0 ∧ a ≤ break y ∧
     ∀ k, 0 ≤ k → break (os s) + SIZEOF_HEADER * k < a → is_Some (c !! (break (os s) + SIZEOF_HEADER * k)))
}.

Section umalloc.
Context {Y : Type} `{Break Y}.
(** The address of the global [base]. *)
Context (base : Z).

Definition ld_hdr (a : Z) : M (ustate Y) header := mtry (λ s, cells s !! a).
Definition st_hdr (a : Z) (h : header) : M (ustate Y) unit :=
  ld_hdr a;; modify (λ s, set_cells (<[a := h]> (cells s)) s).
Definition set_ptr (a p : Z) : M (ustate Y) unit := h ← ld_hdr a; st_hdr a (Hdr p (h_size h)).
Definition set_size (a n : Z) : M (ustate Y) unit := h ← ld_hdr a; st_hdr a (Hdr (h_ptr h) n).
Definition ptr_of (a : Z) : M (ustate Y) Z := h ← ld_hdr a; mret (h_ptr h).
Definition size_of (a : Z) : M (ustate Y) Z := h ← ld_hdr a; mret (h_size h).

(** [a + n] on a [Header *]. *)
Definition plus (a n : Z) : Z := a + SIZEOF_HEADER * n.

(** Whether the loop of [_free] ends at [p] with successor [nx]: its condition, or the [break]. *)
Definition stops (bp p nx : Z) : bool :=
  ((p <? bp) && (bp <? nx)) || ((nx <=? p) && ((p <? bp) || (bp <? nx))).

Fixpoint free_walk_loop (fuel : nat) (bp p : Z) : M (ustate Y) Z :=
  match fuel with
  | O => mspin
  | S fuel =>
      nx ← ptr_of p;
      if stops bp p nx then mret p else free_walk_loop fuel bp nx
  end.

Definition free_ (ap : Z) : M (ustate Y) unit :=
  let bp := plus ap (-1) in
  fuel ← gets (λ s, size (cells s));
  f ← gets freep;
  p ← free_walk_loop fuel bp f;
  nx ← ptr_of p;
  sz ← size_of bp;
  (if plus bp sz =? nx then
     nsz ← size_of nx;
     set_size bp (u32 (sz + nsz));;
     nnx ← ptr_of nx;
     set_ptr bp nnx
   else set_ptr bp nx);;
  psz ← size_of p;
  (if plus p psz =? bp then
     bsz ← size_of bp;
     set_size p (u32 (psz + bsz));;
     bnx ← ptr_of bp;
     set_ptr p bnx
   else set_ptr p bp);;
  modify (set_freep p).

Definition morecore (nu : Z) : M (ustate Y) Z :=
  let nu := if nu <? 4096 then 4096 else nu in
  old_brk ← brk 0;
  r ← brk (old_brk + nu * SIZEOF_HEADER);
  if r <? 0 then mret 0
  else
    set_size old_brk nu;;
    free_ (plus old_brk 1);;
    gets freep.

(** What the loop of [malloc] does with a block that is large enough: all of it, or its end. *)
Definition take_block (nunits prevp p : Z) : M (ustate Y) Z :=
  sz ← size_of p;
  p ← (if sz =? nunits then nx ← ptr_of p; set_ptr prevp nx;; mret p
       else
         set_size p (sz - nunits);;
         let p := plus p (sz - nunits) in
         set_size p nunits;; mret p);
  modify (set_freep prevp);;
  mret (plus p 1).

(** The loop of [malloc]. *)
Fixpoint malloc_loop (fuel : nat) (nunits prevp p : Z) : M (ustate Y) Z :=
  match fuel with
  | O => mspin
  | S fuel =>
      sz ← size_of p;
      if nunits <=? sz then take_block nunits prevp p
      else
        f ← gets freep;
        if p =? f then
          p ← morecore nunits;
          if p =? 0 then mret 0 else nx ← ptr_of p; malloc_loop fuel nunits p nx
        else nx ← ptr_of p; malloc_loop fuel nunits p nx
  end.

(** [nunits] is computed in 64 bits and kept in 32. *)
Definition units (nbytes : Z) : Z :=
  u32 (u64 (u64 (nbytes + SIZEOF_HEADER) - 1) / SIZEOF_HEADER + 1).

Definition malloc (nbytes : Z) : M (ustate Y) Z :=
  let nunits := units nbytes in
  fuel ← gets (λ s, 2 * size (cells s) + 4)%nat;
  f ← gets freep;
  prevp ← (if f =? 0 then
             set_ptr base base;; modify (set_freep base);; set_size base 0;; mret base
           else mret f);
  p ← ptr_of prevp;
  malloc_loop fuel nunits prevp p.
End umalloc.

(** ** The ring of free blocks *)

(** A block is its address and its number of units. *)
Abbreviation block := (Z * Z)%type.

Definition hd_addr (N : list block) (e : Z) : Z := match N with [] => e | (a, _) :: _ => a end.

(** The nodes of [N], each linked to the next and the last to [e]. *)
Fixpoint seg (c : gmap Z header) (N : list block) (e : Z) : Prop :=
  match N with
  | [] => True
  | (a, n) :: N' => c !! a = Some (Hdr (hd_addr N' e) n) ∧ seg c N' e
  end.

(** Blocks in the order of their addresses, with a gap between any two. *)
Fixpoint ordered (lo : Z) (N : list block) : Prop :=
  match N with
  | [] => True
  | (a, n) :: N' => lo < a ∧ 0 ≤ n ∧ ordered (plus a n) N'
  end.

Definition end_of (lo : Z) (N : list block) : Z :=
  match last N with Some (a, n) => plus a n | None => lo end.

Definition apart (x y : block) : Prop := plus x.1 x.2 ≤ y.1 ∨ plus y.1 y.2 ≤ x.1.

Lemma hd_addr_app N1 N2 e : hd_addr (N1 ++ N2) e = hd_addr N1 (hd_addr N2 e).
Proof. by destruct N1 as [|[]]. Qed.

Lemma seg_app c N1 N2 e : seg c (N1 ++ N2) e ↔ seg c N1 (hd_addr N2 e) ∧ seg c N2 e.
Proof.
  induction N1 as [|[a n] N1 IH]; cbn; [tauto|]. rewrite IH, hd_addr_app. tauto.
Qed.

Lemma seg_frame c c' N e :
  (∀ a, a ∈ N.*1 → c' !! a = c !! a) → seg c N e → seg c' N e.
Proof.
  induction N as [|[a n] N IH]; intros Hf; cbn; [done|]. intros [Ha Hs].
  rewrite Hf by (cbn; left). split; [done|]. apply IH; [|done]. intros b Hb. apply Hf. by right.
Qed.

Lemma seg_in c N e a n : seg c N e → (a, n) ∈ N → ∃ p, c !! a = Some (Hdr p n).
Proof.
  induction N as [|[b m] N IH]; cbn; [by intros _ ?%not_elem_of_nil|].
  intros [Hb Hs] [[= -> ->]|Hin]%elem_of_cons; [by eexists|by apply IH].
Qed.

(** A node and its successor, when that is not the end. *)
Lemma seg_next c N e a h :
  seg c N e → c !! a = Some h → a ∈ N.*1 → h_ptr h ≠ e →
  ∃ l1 l2 m, N = l1 ++ (a, h_size h) :: (h_ptr h, m) :: l2.
Proof.
  intros Hs Ha Hin Hne. apply list_elem_of_fmap in Hin as ([a' n] & -> & Hin). cbn in *.
  apply list_elem_of_split in Hin as (l1 & l2 & ->). exists l1.
  apply seg_app in Hs as [_ [Ha' _]]. rewrite Ha in Ha'. injection Ha' as ->. cbn in *.
  destruct l2 as [|[q m] l2]; [done|]. by exists l2, m.
Qed.

Lemma end_of_app lo N1 N2 : end_of lo (N1 ++ N2) = end_of (end_of lo N1) N2.
Proof.
  unfold end_of. rewrite last_app. by destruct (last N2) as [[]|].
Qed.

Lemma ordered_app lo N1 N2 :
  ordered lo (N1 ++ N2) ↔ ordered lo N1 ∧ ordered (end_of lo N1) N2.
Proof.
  revert lo. induction N1 as [|[a n] N1 IH]; intros lo; [cbn; tauto|].
  change (((a, n) :: N1) ++ N2) with ((a, n) :: (N1 ++ N2)). cbn [ordered]. rewrite IH.
  replace (end_of lo ((a, n) :: N1)) with (end_of (plus a n) N1); [tauto|].
  change ((a, n) :: N1) with ([(a, n)] ++ N1). by rewrite end_of_app.
Qed.

Lemma ordered_lo lo lo' N : lo' ≤ lo → ordered lo N → ordered lo' N.
Proof. destruct N as [|[a n] N]; cbn; [done|]. intros ? (? & ? & ?). split_and!; [lia|done..]. Qed.

Lemma ordered_in lo N a n : ordered lo N → (a, n) ∈ N → lo < a ∧ 0 ≤ n.
Proof.
  revert lo. induction N as [|[b m] N IH]; intros lo; [by intros _ ?%not_elem_of_nil|].
  cbn. intros (Hb & Hm & Ho) [[= -> ->]|Hin]%elem_of_cons; [done|].
  destruct (IH _ Ho Hin). unfold plus, SIZEOF_HEADER in *. lia.
Qed.

(** Around a node: what is before it ends below, what is behind it starts above its end. *)
Lemma ordered_split lo l1 p k l2 :
  ordered lo (l1 ++ (p, k) :: l2) →
  lo < p ∧ 0 ≤ k ∧ (∀ a n, (a, n) ∈ l1 → plus a n < p) ∧ (∀ a n, (a, n) ∈ l2 → plus p k < a).
Proof.
  revert lo. induction l1 as [|[b m] l1 IH]; intros lo; cbn.
  - intros (? & ? & Ho). split_and!; [done..| |].
    + by intros ? ? ?%not_elem_of_nil.
    + intros a n Hin. by apply (ordered_in _ _ _ _ Ho Hin).
  - intros (Hb & Hm & Ho). destruct (IH _ Ho) as (Hp & Hk & H1 & H2).
    unfold plus, SIZEOF_HEADER in *. split_and!; [lia|done| |done].
    intros a n [[= -> ->]|Hin]%elem_of_cons; [done|]. by apply H1.
Qed.

Lemma ordered_NoDup lo N : ordered lo N → NoDup N.*1.
Proof.
  revert lo. induction N as [|[a n] N IH]; intros lo; [constructor|].
  cbn. intros (Ha & Hn & Ho). constructor; [|by eapply IH].
  intros ([b m] & -> & Hin)%list_elem_of_fmap. cbn in *. apply (ordered_in _ _ _ _ Ho) in Hin.
  unfold plus, SIZEOF_HEADER in Hin. lia.
Qed.

(** The place of an address among the nodes. *)
Lemma ordered_place lo N bp :
  ordered lo N → bp ∉ N.*1 →
  (∀ a n, (a, n) ∈ N → bp < a) ∨
  ∃ l1 p k l2, N = l1 ++ (p, k) :: l2 ∧ p < bp ∧ (∀ a n, (a, n) ∈ l2 → bp < a).
Proof.
  revert lo. induction N as [|[a n] N IH]; intros lo; [left; by intros ? ? ?%not_elem_of_nil|].
  cbn. intros (Ha & Hn & Ho) [Hne Hni]%not_elem_of_cons.
  destruct (decide (bp < a)) as [Hlt|].
  { left. intros b m [[= -> ->]|Hin]%elem_of_cons; [done|].
    apply (ordered_in _ _ _ _ Ho) in Hin. unfold plus, SIZEOF_HEADER in Hin. lia. }
  right. destruct (IH _ Ho Hni) as [Hall|(l1 & p & k & l2 & -> & Hp & Hl2)].
  - exists [], a, n, N. split_and!; [done|lia|done].
  - by exists ((a, n) :: l1), p, k, l2.
Qed.

(** ** The state of the allocator *)

Section inv.
Context {Y : Type} `{BreakLaws Y}.
Context (base : Z).

Abbreviation nodes F := ((base, 0) :: F).

(** A block between [base] and the end of the heap; its units are there. *)
Record block_ok (s : ustate Y) (x : block) : Prop := {
  bo_size : 1 ≤ x.2;
  bo_low : base + SIZEOF_HEADER ≤ x.1;
  bo_high : plus x.1 x.2 ≤ break (os s);
  bo_cells : ∀ k, 0 ≤ k < x.2 → is_Some (cells s !! plus x.1 k)
}.

(** [F] are the free blocks and [A] the blocks in use: the ring runs through the free blocks in
    the order of their addresses and no two of them touch, the blocks in use carry their sizes,
    and all of them are apart. *)
Record heap_ok (s : ustate Y) (F : list block) (A : gmap Z Z) : Prop := {
  ho_seg : seg (cells s) (nodes F) base;
  ho_ordered : ordered (base - 1) (nodes F);
  ho_free : Forall (block_ok s) F;
  ho_freep : freep s ∈ (nodes F).*1;
  ho_used : map_Forall (λ a n, block_ok s (a, n) ∧ (∃ p, cells s !! a = Some (Hdr p n)) ∧
              Forall (apart (a, n)) F) A;
  ho_apart : ∀ a n b m, A !! a = Some n → A !! b = Some m → a ≠ b → apart (a, n) (b, m);
  ho_base : 0 < base ∧ base + SIZEOF_HEADER ≤ break (os s)
}.

Lemma apart_sym x y : apart x y → apart y x.
Proof. unfold apart. tauto. Qed.

(** The units of a block in use belong to no free block. *)
Lemma used_outside s F A a n k :
  heap_ok s F A → A !! a = Some n → 0 ≤ k < n →
  plus a k ≠ base ∧ ∀ b m, (b, m) ∈ F → ¬ (b ≤ plus a k < plus b m).
Proof.
  intros Hs Ha Hk. destruct (ho_used _ _ _ Hs _ _ Ha) as (Hb & _ & Hap).
  destruct Hb as [_ Hlow _ _]. cbn in Hlow. unfold plus, SIZEOF_HEADER in *. split; [lia|].
  intros b m Hin. rewrite Forall_forall in Hap. specialize (Hap _ Hin).
  unfold apart, plus, SIZEOF_HEADER in Hap. cbn in Hap. lia.
Qed.

Lemma ld_hdr_ok (s : ustate Y) a h : cells s !! a = Some h → ld_hdr a s = Ret (h, s).
Proof. intros E. unfold ld_hdr, mtry. by rewrite E. Qed.
Lemma ptr_of_ok (s : ustate Y) a h : cells s !! a = Some h → ptr_of a s = Ret (h_ptr h, s).
Proof. intros E. unfold ptr_of. by mstep (ld_hdr_ok s a h E). Qed.
Lemma size_of_ok (s : ustate Y) a h : cells s !! a = Some h → size_of a s = Ret (h_size h, s).
Proof. intros E. unfold size_of. by mstep (ld_hdr_ok s a h E). Qed.
Lemma set_ptr_ok (s : ustate Y) a h p : cells s !! a = Some h →
  set_ptr a p s = Ret (tt, set_cells (<[a := Hdr p (h_size h)]> (cells s)) s).
Proof.
  intros E. unfold set_ptr, st_hdr. mstep (ld_hdr_ok s a h E). by mstep (ld_hdr_ok s a h E).
Qed.
Lemma set_size_ok (s : ustate Y) a h n : cells s !! a = Some h →
  set_size a n s = Ret (tt, set_cells (<[a := Hdr (h_ptr h) n]> (cells s)) s).
Proof.
  intros E. unfold set_size, st_hdr. mstep (ld_hdr_ok s a h E). by mstep (ld_hdr_ok s a h E).
Qed.

(** ** The walk of [_free] *)

Lemma free_walk (s : ustate Y) bp p W : ∀ f n e fuel,
  seg (cells s) ((f, n) :: W) e → p ∈ ((f, n) :: W).*1 → (length W < fuel)%nat →
  (∀ a h, a ∈ ((f, n) :: W).*1 → cells s !! a = Some h → stops bp a (h_ptr h) = true ↔ a = p) →
  free_walk_loop fuel bp f s = Ret (p, s).
Proof.
  induction W as [|[g m] W IH]; intros f n e [|fuel] Hs Hp Hf Hst; cbn in Hf; try lia;
    destruct Hs as [Ha Hs]; cbn [free_walk_loop]; mstep (ptr_of_ok s f _ Ha); cbn [h_ptr hd_addr].
  - assert (f = p) as -> by (cbn in Hp; by apply list_elem_of_singleton in Hp).
    pose proof (proj2 (Hst p _ Hp Ha) eq_refl) as E. cbn in E. by rewrite E.
  - destruct (decide (f = p)) as [->|Hne].
    + pose proof (proj2 (Hst p _ Hp Ha) eq_refl) as E. cbn in E. by rewrite E.
    + assert (stops bp f g = false) as ->.
      { apply not_true_iff_false. intros E. apply Hne.
        apply (Hst f _ ltac:(left) Ha). exact E. }
      apply (IH g m e); [done| |lia|].
      * cbn in Hp. apply elem_of_cons in Hp as [->|Hp]; [done|exact Hp].
      * intros a h Hin. apply Hst. by right.
Qed.

(** The ring from one of its nodes. *)
Lemma seg_rotate c N f e :
  seg c N e → f ∈ N.*1 → hd_addr N e = e →
  ∃ n l1 l2, N = l1 ++ (f, n) :: l2 ∧ seg c ((f, n) :: l2 ++ l1 ++ [(f, n)]) (hd_addr l2 e).
Proof.
  intros Hs Hin Hd. apply list_elem_of_fmap in Hin as ([f' n] & -> & Hin).
  apply list_elem_of_split in Hin as (l1 & l2 & ->). exists n, l1, l2. split; [done|].
  rewrite hd_addr_app in Hd. apply seg_app in Hs as [H1 H2]. cbn [hd_addr fst] in *.
  rewrite (app_comm_cons l2 _ (f', n)). apply seg_app. rewrite hd_addr_app. cbn [hd_addr].
  rewrite Hd. split; [exact H2|]. apply seg_app. cbn. split; [exact H1|].
  split; [by destruct H2|done].
Qed.

(** The node after which a block belongs is the one where the walk stops. *)
Lemma stops_at c F bp l1 p k l2 :
  seg c (nodes F) base → ordered (base - 1) (nodes F) →
  nodes F = l1 ++ (p, k) :: l2 → p < bp → base < bp → (∀ a n, (a, n) ∈ l2 → bp < a) →
  ∀ a h, a ∈ (nodes F).*1 → c !! a = Some h → stops bp a (h_ptr h) = true ↔ a = p.
Proof.
  intros Hs Ho EN Hp Hb Hl2 a h Ha Hc.
  assert (∀ x, x ∈ (nodes F).*1 → x ≤ p ∨ bp < x) as Hplace.
  { rewrite EN in Ho |- *. destruct (ordered_split _ _ _ _ _ Ho) as (_ & _ & Hl1 & _).
    intros x ([x' n] & -> & Hin)%list_elem_of_fmap. cbn.
    apply elem_of_app in Hin as [Hin|[[= -> ->]|Hin]%elem_of_cons]; [|lia|right; by eapply Hl2].
    specialize (Hl1 _ _ Hin). destruct (ordered_in _ (l1 ++ (p, k) :: l2) x' n Ho) as [_ ?].
    { apply elem_of_app. by left. } unfold plus, SIZEOF_HEADER in Hl1. lia. }
  assert (p ∈ (nodes F).*1) as Hpin.
  { rewrite EN, fmap_app. apply elem_of_app. right. left. }
  unfold stops. rewrite orb_true_iff, !andb_true_iff, orb_true_iff, !Z.ltb_lt, Z.leb_le.
  destruct (decide (h_ptr h = base)) as [Eb|Hne].
  - assert (base ≤ a ∧ ∀ x, x ∈ (nodes F).*1 → x ≤ a) as [Hba Hall].
    { apply list_elem_of_fmap in Ha as ([a' n] & -> & Hin). cbn [fst] in *.
      apply list_elem_of_split in Hin as (m1 & m2 & EN').
      assert (base ≤ a') as Hba.
      { destruct (ordered_in _ _ a' n Ho); [|lia]. rewrite EN'. apply elem_of_app. right. left. }
      split; [done|]. rewrite EN' in Hs, Ho |- *.
      apply seg_app in Hs as [_ [Hc' _]]. rewrite Hc in Hc'. injection Hc' as ->. cbn in Eb.
      destruct (ordered_split _ _ _ _ _ Ho) as (_ & Hn & Hm1 & Hm2).
      destruct m2 as [|[q m] m2].
      - intros x ([x' m] & -> & Hx)%list_elem_of_fmap. cbn.
        apply elem_of_app in Hx as [Hx|[= -> ->]%list_elem_of_singleton]; [|done].
        specialize (Hm1 _ _ Hx). destruct (ordered_in _ _ x' m Ho); [apply elem_of_app; by left|].
        unfold plus, SIZEOF_HEADER in Hm1. lia.
      - exfalso. specialize (Hm2 q m ltac:(left)). cbn in Eb. unfold plus, SIZEOF_HEADER in Hm2. lia. }
    rewrite Eb. pose proof (Hplace a Ha). pose proof (Hall p Hpin). lia.
  - destruct (seg_next _ _ _ _ _ Hs Hc Ha Hne) as (m1 & m2 & m & EN').
    set (nx := h_ptr h) in *. rewrite EN' in Ho, Hpin.
    destruct (ordered_split _ _ _ _ _ Ho) as (_ & Hn & Hm1 & Hm2).
    pose proof Ho as Ho'. rewrite (cons_middle _ m1) in Ho'.
    rewrite app_assoc in Ho'. destruct (ordered_split _ _ _ _ _ Ho') as (_ & Hm & Hm3 & Hm4).
    assert (a < nx) as Hlt.
    { specialize (Hm2 nx m ltac:(left)). unfold plus, SIZEOF_HEADER in Hm2. lia. }
    assert (p ≤ a ∨ nx ≤ p) as Hpa.
    { apply list_elem_of_fmap in Hpin as ([p' k'] & -> & Hin). cbn [fst].
      destruct (ordered_in _ _ p' k' Ho); [done|].
      unfold plus, SIZEOF_HEADER in *.
      apply elem_of_app in Hin as [Hin|[[= -> ->]|[[= -> ->]|Hin]%elem_of_cons]%elem_of_cons];
        [specialize (Hm1 _ _ Hin)| | |specialize (Hm4 _ _ Hin)]; lia. }
    assert (nx ∈ (nodes F).*1) as Hnx.
    { rewrite EN', fmap_app. apply elem_of_app. right. right. left. }
    pose proof (Hplace a Ha). pose proof (Hplace nx Hnx). lia.
Qed.

(** ** Putting a block into the ring *)

(** A block before the blocks of [rest], one with the first of them when they touch. *)
Definition join (x : block) (rest : list block) : list block :=
  match rest with
  | (b, m) :: r => if plus x.1 x.2 =? b then (x.1, x.2 + m) :: r else x :: rest
  | [] => [x]
  end.

Lemma join_head a n rest : Forall (λ x, 0 ≤ x.2) rest →
  ∃ n' r, join (a, n) rest = (a, n') :: r ∧ n ≤ n'.
Proof.
  destruct rest as [|[b m] r]; cbn; [by exists n, []|]. intros [Hm _]%Forall_cons. cbn in Hm.
  destruct (plus a n =? b); [exists (n + m), r|exists n, ((b, m) :: r)]; split; (done || lia).
Qed.

Lemma join_ordered lo a n rest :
  lo < a → 0 ≤ n → ordered (plus a n - 1) rest → ordered lo (join (a, n) rest).
Proof.
  intros Ha Hn Ho. destruct rest as [|[b m] r]; cbn in *; [done|]. destruct Ho as (Hb & Hm & Ho).
  destruct (Z.eqb_spec (plus a n) b) as [<-|Hne]; cbn.
  - split_and!; [done|lia|]. by replace (plus a (n + m)) with (plus (plus a n) m)
      by (unfold plus, SIZEOF_HEADER; lia).
  - split_and!; try done. lia.
Qed.

Lemma join_Forall (P : block → Prop) a n rest :
  (∀ m, P (a, n) → P (plus a n, m) → P (a, n + m)) →
  P (a, n) → Forall P rest → Forall P (join (a, n) rest).
Proof.
  intros HP Hx Hr. destruct rest as [|[b m] r]; cbn; [by constructor|].
  destruct (Z.eqb_spec (plus a n) b) as [<-|Hne]; [|by constructor].
  apply Forall_cons in Hr as [Hb Hr]. constructor; [by apply HP|done].
Qed.

(** The assignments by which [_free] puts [a] before the node [b]. *)
Lemma join_run (s : ustate Y) a q n b rest :
  cells s !! a = Some (Hdr q n) → seg (cells s) rest base → hd_addr rest base = b →
  a ∉ rest.*1 → (rest = [] → plus a n ≠ base) →
  (∀ m r, rest = (plus a n, m) :: r → 0 ≤ n + m < 2 ^ 32) →
  ∃ c, (if plus a n =? b then
          nsz ← size_of b; set_size a (u32 (n + nsz));; nb ← ptr_of b; set_ptr a nb
        else set_ptr a b) s = Ret (tt, set_cells c s) ∧
    seg c (join (a, n) rest) base ∧ (∀ x, x ≠ a → c !! x = cells s !! x).
Proof.
  intros Ha Hs <- Hni Hnb Hsz.
  assert (∀ h x, x ≠ a → <[a := h]> (cells s) !! x = cells s !! x) as Hfr
    by (intros; by rewrite lookup_insert_ne).
  destruct rest as [|[b m] r]; cbn [hd_addr join].
  - rewrite (proj2 (Z.eqb_neq _ _)) by auto. rewrite (set_ptr_ok s a _ base Ha).
    eexists. split_and!; [done| |apply Hfr]. cbn. by rewrite lookup_insert_eq.
  - destruct Hs as [Hb Hr]. apply not_elem_of_cons in Hni as [Hab Hni]. cbn in Hab.
    cbn [fst snd]. destruct (Z.eqb_spec (plus a n) b) as [Eb|Hne].
    + mstep (size_of_ok s b _ Hb). cbn [h_size]. rewrite u32_small by (apply (Hsz m r); by rewrite Eb).
      mstep (set_size_ok s a _ (n + m) Ha). set (s1 := set_cells _ s).
      assert (cells s1 !! b = Some (Hdr (hd_addr r base) m)) as Hb1 by (cbn; by rewrite lookup_insert_ne).
      mstep (ptr_of_ok s1 b _ Hb1). cbn [h_ptr h_size].
      rewrite (set_ptr_ok s1 a (Hdr q (n + m)) (hd_addr r base)) by apply lookup_insert_eq.
      cbn. rewrite insert_insert_eq. eexists. split_and!; [done| | |apply Hfr].
      * by rewrite lookup_insert_eq.
      * apply (seg_frame (cells s)); [|done]. intros x Hx. apply Hfr. by intros ->.
    + rewrite (set_ptr_ok s a _ b Ha). eexists. split_and!; [done| |apply Hfr]. cbn.
      rewrite lookup_insert_eq. split_and!; [done|rewrite lookup_insert_ne by done; done|].
      apply (seg_frame (cells s)); [|done]. intros x Hx. apply Hfr. by intros ->.
Qed.

Lemma node_ring_size c N e : seg c N e → NoDup N.*1 → (length N ≤ size c)%nat.
Proof.
  intros Hs Hnd. rewrite <- (length_fmap fst N), <- size_dom.
  rewrite <- (size_list_to_set (C:=gset Z) N.*1) by done. apply subseteq_size.
  intros a ([a' n] & -> & Hin)%elem_of_list_to_set%list_elem_of_fmap. apply elem_of_dom.
  destruct (seg_in _ _ _ _ _ Hs Hin) as [p Hp]. by eexists.
Qed.

Lemma block_frame s s' x :
  block_ok s x → break (os s) ≤ break (os s') →
  (∀ a, is_Some (cells s !! a) → is_Some (cells s' !! a)) → block_ok s' x.
Proof. intros [H1 H2 H3 H4] Hb Hc. split; [done|done|lia|]. intros k Hk. by apply Hc, H4. Qed.

Lemma block_join s a n m : block_ok s (a, n) → block_ok s (plus a n, m) → block_ok s (a, n + m).
Proof.
  intros [H1 H2 H3 H4] [H1' H2' H3' H4']. cbn in *. split; cbn; [lia|lia| |].
  - unfold plus in *. lia.
  - intros k Hk. destruct (decide (k < n)); [apply H4; lia|].
    replace (plus a k) with (plus (plus a n) (k - n)) by (unfold plus; lia). apply H4'. lia.
Qed.

Lemma apart_join x a n m :
  1 ≤ x.2 → 0 ≤ n → 0 ≤ m → apart x (a, n) → apart x (plus a n, m) → apart x (a, n + m).
Proof. unfold apart, plus, SIZEOF_HEADER. cbn. lia. Qed.

Lemma block_count s a n : 0 < base → block_ok s (a, n) → 0 ≤ n < 2 ^ 32.
Proof.
  intros Hb [H1 H2 H3 _]. pose proof (break_bound (os s)). cbn in *.
  unfold plus, SIZEOF_HEADER in *. lia.
Qed.

Lemma join_first a n rest : a ∈ (join (a, n) rest).*1.
Proof. destruct rest as [|[b m] r]; cbn; [left|]. destruct (plus a n =? b); left. Qed.

Lemma join_length x rest : (length (join x rest) ≤ S (length rest))%nat.
Proof. destruct rest as [|[b m] r]; cbn; [lia|]. destruct (plus _ _ =? b); cbn; lia. Qed.

Lemma join_addrs a n rest x : x ∈ (join (a, n) rest).*1 → x = a ∨ x ∈ rest.*1.
Proof.
  destruct rest as [|[b m] r]; cbn; [by intros ?%list_elem_of_singleton; left|].
  destruct (plus a n =? b); cbn; rewrite !elem_of_cons; tauto.
Qed.

(** ** [_free] on a sound heap *)

(** Where the block [bp] of [n] units belongs: behind the node [p] of [k] units. *)
Record placed (s : ustate Y) (F : list block) (bp n : Z) (l1 : list block) (p k : Z)
    (l2 : list block) : Prop := {
  pl_nodes : nodes F = l1 ++ (p, k) :: l2;
  pl_new : bp ∉ (nodes F).*1;
  pl_node : p = base ∧ k = 0 ∨ (p, k) ∈ F;
  pl_before : p < bp ∧ plus p k ≤ bp;
  pl_after : ∀ a m, (a, m) ∈ l2 → (a, m) ∈ F ∧ bp < a ∧ plus bp n ≤ a;
  pl_low : base < bp
}.

Lemma free_place s F A bp n :
  heap_ok s F A → A !! bp = Some n → ∃ l1 p k l2, placed s F bp n l1 p k l2.
Proof.
  intros Hs HA. destruct (ho_used _ _ _ Hs _ _ HA) as ([Hn1 Hlow _ _] & _ & Hap). cbn in Hn1, Hlow.
  pose proof (ho_ordered _ _ _ Hs) as Ho. pose proof (ho_free _ _ _ Hs) as Hfr.
  rewrite Forall_forall in Hap, Hfr.
  assert (∀ a m, (a, m) ∈ F → 1 ≤ m ∧ (plus bp n ≤ a ∨ plus a m ≤ bp)) as HF.
  { intros a m Hin. split; [apply (bo_size _ _ (Hfr _ Hin))|apply (Hap _ Hin)]. }
  unfold plus, SIZEOF_HEADER in *.
  assert (bp ∉ (nodes F).*1) as Hni.
  { intros ([a m] & -> & [[= -> ->]|Hin]%elem_of_cons)%list_elem_of_fmap; cbn in *; [lia|].
    destruct (HF _ _ Hin). lia. }
  destruct (ordered_place _ _ _ Ho Hni) as [Hall|(l1 & p & k & l2 & EN & Hp & Hl2)].
  { specialize (Hall base 0 ltac:(left)). lia. }
  exists l1, p, k, l2. assert ((p, k) ∈ nodes F) as Hpk.
  { rewrite EN. apply elem_of_app. right. left. }
  split; unfold plus, SIZEOF_HEADER; [done|done| | | |lia].
  - apply elem_of_cons in Hpk as [[= -> ->]|?]; [by left|by right].
  - split; [done|]. apply elem_of_cons in Hpk as [[= -> ->]|Hin]; [lia|]. destruct (HF _ _ Hin). lia.
  - intros a m Hin. specialize (Hl2 _ _ Hin).
    assert ((a, m) ∈ nodes F) as [[= -> ->]|Hin']%elem_of_cons; [|lia|].
    { rewrite EN. apply elem_of_app. right. by right. }
    split; [done|]. destruct (HF _ _ Hin'). lia.
Qed.

(** The walk ends there. *)
Lemma free_walk_ok s F A bp n l1 p k l2 :
  heap_ok s F A → placed s F bp n l1 p k l2 → 0 ≤ n →
  free_walk_loop (size (cells s)) bp (freep s) s = Ret (p, s).
Proof.
  intros Hs Hpl Hn. pose proof (ho_seg _ _ _ Hs) as Hseg.
  pose proof (ordered_NoDup _ _ (ho_ordered _ _ _ Hs)) as Hnd.
  destruct (seg_rotate _ _ _ _ Hseg (ho_freep _ _ _ Hs) eq_refl) as (nf & m1 & m2 & EF & Hrot).
  rewrite (app_assoc m2), (app_comm_cons (m2 ++ m1)), seg_app in Hrot. destruct Hrot as [Hrot _].
  assert (∀ x, x ∈ ((freep s, nf) :: m2 ++ m1).*1 ↔ x ∈ (nodes F).*1) as Hperm.
  { intros x. rewrite EF. cbn. rewrite !fmap_app. cbn. rewrite !elem_of_cons, !elem_of_app, elem_of_cons. tauto. }
  eapply free_walk; [exact Hrot| | |].
  - apply Hperm. rewrite (pl_nodes _ _ _ _ _ _ _ _ Hpl), fmap_app. apply elem_of_app. right. left.
  - pose proof (node_ring_size _ _ _ Hseg Hnd) as Hl. rewrite EF, !length_app in Hl. cbn in Hl.
    rewrite length_app. lia.
  - intros a h Ha%Hperm. destruct Hpl as [EN _ _ [Hp _] Hl2 Hlow].
    eapply stops_at; try done; [by apply Hs|].
    intros b m Hin. by destruct (Hl2 _ _ Hin) as (_ & Hb & _).
Qed.

(** The links after the two assignments: the block stands behind [p]. *)
Lemma free_links s F A bp n l1 p k l2 :
  heap_ok s F A → A !! bp = Some n → placed s F bp n l1 p k l2 →
  ∃ c, free_ (plus bp 1) s = Ret (tt, UState c p (os s)) ∧
    seg c (l1 ++ join (p, k) (join (bp, n) l2)) base ∧
    (∀ x, x ≠ bp → x ≠ p → c !! x = cells s !! x) ∧ is_Some (c !! bp) ∧ is_Some (c !! p).
Proof.
  intros Hs HA Hpl. pose proof Hpl as [EN Hni Hpk [Hp Hpe] Hl2 Hlow].
  destruct (ho_base _ _ _ Hs) as [Hb0 _]. pose proof (ho_free _ _ _ Hs) as Hfr.
  rewrite Forall_forall in Hfr. destruct (ho_used _ _ _ Hs _ _ HA) as (Hbp & [q Hq] & _).
  assert (Forall (block_ok s) l2) as Hok2.
  { apply Forall_forall. intros [a m] Hin. by apply Hfr, Hl2. }
  pose proof (ho_seg _ _ _ Hs) as Hseg. rewrite EN in Hseg.
  apply seg_app in Hseg as [Hs1 [Hpc Hs2]]. cbn [hd_addr] in Hs1.
  pose proof (ordered_NoDup _ _ (ho_ordered _ _ _ Hs)) as Hnd. rewrite EN, fmap_app in Hnd, Hni.
  cbn in Hnd, Hni. rewrite elem_of_app, elem_of_cons in Hni.
  apply NoDup_app in Hnd as (_ & Hd & [Hpl2 _]%NoDup_cons).
  assert ((bp ∉ l1.*1) ∧ bp ≠ p ∧ (bp ∉ l2.*1) ∧ (p ∉ l1.*1)) as (Hni1 & Hnip & Hni2 & Hpl1).
  { split_and!; [tauto..|]. intros Hin. apply (Hd _ Hin). left. }
  destruct (join_run s bp q n (hd_addr l2 base) l2) as (c1 & E1 & Hj1 & Hf1); try done.
  { intros _. destruct Hbp as [? _ _ _]. cbn in *. unfold plus, SIZEOF_HEADER in *. lia. }
  { intros m r ->. apply Forall_cons in Hok2 as [Hm _].
    eapply block_count; [done|]. by apply block_join. }
  set (s1 := set_cells c1 s) in *.
  assert (cells s1 !! p = Some (Hdr (hd_addr l2 base) k)) as Hpc1 by (cbn; by rewrite Hf1).
  assert (Forall (block_ok s) (join (bp, n) l2)) as Hok1.
  { apply join_Forall; [|done..]. intros m. apply block_join. }
  destruct (join_head bp n l2) as (nb & r & Ejoin & Hnb).
  { eapply Forall_impl; [exact Hok2|]. intros x Hx. pose proof (bo_size _ _ Hx). lia. }
  assert (hd_addr (join (bp, n) l2) base = bp) as Hhd by by rewrite Ejoin.
  destruct (join_run s1 p _ k bp (join (bp, n) l2) Hpc1 Hj1 Hhd) as (c2 & E2 & Hj2 & Hf2).
  { by intros [|]%join_addrs. }
  { by rewrite Ejoin. }
  { intros m r' Er. rewrite Er in Hok1, Hhd. cbn in Hhd. apply Forall_cons in Hok1 as [Hm _].
    destruct Hpk as [[-> ->]|Hin]; [unfold plus, SIZEOF_HEADER in Hhd; lia|].
    eapply block_count; [done|]. apply block_join; [by apply Hfr|done]. }
  assert (is_Some (cells s1 !! bp)) as [h1 Hbp1].
  { rewrite Ejoin in Hj1. destruct Hj1 as [Hx _]. by eexists. }
  exists c2. split_and!.
  - unfold free_. replace (plus (plus bp 1) (-1)) with bp by (unfold plus; lia).
    do 2 (erewrite mbind_Ret by reflexivity).
    mstep (free_walk_ok s F A bp n l1 p k l2 Hs Hpl ltac:(pose proof (bo_size _ _ Hbp); cbn in *; lia)).
    mstep (ptr_of_ok s p _ Hpc). cbn [h_ptr]. mstep (size_of_ok s bp _ Hq). cbn [h_size].
    mstep E1. mstep (size_of_ok s1 p _ Hpc1). cbn [h_size]. mstep E2. done.
  - apply seg_app. split; [|done]. destruct (join_head p k (join (bp, n) l2)) as (np & r' & -> & _).
    { eapply Forall_impl; [exact Hok1|]. intros x Hx. pose proof (bo_size _ _ Hx). lia. }
    cbn [hd_addr]. apply (seg_frame (cells s)); [|done]. intros x Hx.
    rewrite Hf2 by (by intros ->). cbn. apply Hf1. by intros ->.
  - intros x Hxb Hxp. rewrite Hf2 by done. by apply Hf1.
  - rewrite Hf2 by done. by eexists.
  - destruct (join_head p k (join (bp, n) l2)) as (np & r' & Ej & _).
    { eapply Forall_impl; [exact Hok1|]. intros x Hx. pose proof (bo_size _ _ Hx). lia. }
    rewrite Ej in Hj2. destruct Hj2 as [Hx _]. by eexists.
Qed.

(** What joining keeps of the free blocks: a property of blocks that survives the union of two. *)
Lemma joined_nodes (P : block → Prop) s F bp n l1 p k l2 :
  placed s F bp n l1 p k l2 → (∀ a m m', P (a, m) → P (plus a m, m') → P (a, m + m')) →
  Forall P F → P (bp, n) →
  ∃ F', l1 ++ join (p, k) (join (bp, n) l2) = nodes F' ∧ Forall P F'.
Proof.
  intros [EN _ Hpk [Hp Hpe] Hl2 Hlow] Hj HF Hbp.
  assert (Forall P (join (bp, n) l2)) as H1.
  { apply join_Forall; [by intros; apply Hj|done|]. rewrite Forall_forall in HF.
    apply Forall_forall. intros [a m] Hin. by apply HF, Hl2. }
  destruct l1 as [|x l1].
  - injection EN as <- <- ->. exists (join (bp, n) l2). split; [|done].
    destruct l2 as [|[b m] l2]; cbn.
    + by rewrite (proj2 (Z.eqb_neq _ _)) by (unfold plus; lia).
    + destruct (plus bp n =? b); cbn; by rewrite (proj2 (Z.eqb_neq _ _)) by (unfold plus; lia).
  - injection EN as <- EF. exists (l1 ++ join (p, k) (join (bp, n) l2)). split; [done|].
    rewrite EF in HF. apply Forall_app in HF as [Hl1 [Hpk' _]%Forall_cons].
    apply Forall_app. split; [done|]. apply join_Forall; [by intros; apply Hj|done..].
Qed.

(** Every block is still covered by a free one that is at least as large. *)
Lemma joined_cover s F bp n l1 p k l2 F' :
  placed s F bp n l1 p k l2 → Forall (block_ok s) F →
  l1 ++ join (p, k) (join (bp, n) l2) = nodes F' → 1 ≤ n →
  ∃ a m, (a, m) ∈ F' ∧ n ≤ m.
Proof.
  intros [EN _ Hpk [Hp Hpe] Hl2 Hlow] HF EF Hn.
  assert (Forall (λ x : block, 0 ≤ x.2) l2) as Hnn.
  { apply Forall_forall. intros [a m] Hin. rewrite Forall_forall in HF.
    pose proof (bo_size _ _ (HF _ (proj1 (Hl2 _ _ Hin)))). cbn in *. lia. }
  destruct (join_head bp n l2 Hnn) as (nb & r & E & Hnb). rewrite E in EF. cbn in EF.
  assert (0 ≤ k) as Hk.
  { destruct Hpk as [[_ ->]|Hin]; [done|]. rewrite Forall_forall in HF.
    pose proof (bo_size _ _ (HF _ Hin)). cbn in *. lia. }
  assert (∃ a m, (a, m) ∈ nodes F' ∧ n ≤ m) as (a & m & [[= -> ->]|Hin]%elem_of_cons & Hm);
    [|lia|by exists a, m].
  rewrite <- EF. destruct (plus p k =? bp).
  - exists p, (k + nb). split; [|lia]. apply elem_of_app. right. left.
  - exists bp, nb. split; [|lia]. apply elem_of_app. right. right. left.
Qed.

Lemma joined_ordered s F A bp n l1 p k l2 :
  heap_ok s F A → placed s F bp n l1 p k l2 → 0 ≤ n →
  ordered (base - 1) (l1 ++ join (p, k) (join (bp, n) l2)).
Proof.
  intros Hs [EN _ Hpk [Hp Hpe] Hl2 Hlow] Hn. pose proof (ho_ordered _ _ _ Hs) as Ho.
  rewrite EN in Ho. apply ordered_app in Ho as [H1 (Hlo & Hk & H2)]. apply ordered_app. split; [done|].
  apply join_ordered; [done|done|]. apply join_ordered; [lia|done|].
  destruct l2 as [|[b m] l2]; [done|]. destruct H2 as (_ & Hm & H2). split_and!; [|done..].
  destruct (Hl2 b m ltac:(left)) as (_ & _ & ?). lia.
Qed.

(** The units of the other blocks in use do not change. *)
Lemma free_same s F A bp n l1 p k l2 (c : gmap Z header) :
  heap_ok s F A → A !! bp = Some n → placed s F bp n l1 p k l2 →
  (∀ x, x ≠ bp → x ≠ p → c !! x = cells s !! x) →
  ∀ a m j, delete bp A !! a = Some m → 0 ≤ j < m → c !! plus a j = cells s !! plus a j.
Proof.
  intros Hs HA Hpl Hfr a m j [Hne Ha]%lookup_delete_Some Hj.
  destruct (used_outside _ _ _ _ _ j Hs Ha Hj) as [Hb Ho].
  pose proof (ho_apart _ _ _ Hs _ _ _ _ Ha HA (not_eq_sym Hne)) as Hab.
  pose proof (bo_size _ _ (proj1 (ho_used _ _ _ Hs _ _ HA))) as Hn.
  unfold apart, plus, SIZEOF_HEADER in *. cbn in *. apply Hfr; [lia|]. intros Ep.
  destruct (pl_node _ _ _ _ _ _ _ _ Hpl) as [[-> _]|Hin]; [done|]. apply (Ho p k Hin).
  pose proof (ho_free _ _ _ Hs) as HF. rewrite Forall_forall in HF.
  pose proof (bo_size _ _ (HF _ Hin)). cbn in *. lia.
Qed.

(** The heap after [_free]. *)
Lemma heap_free_run s F A bp n :
  heap_ok s F A → A !! bp = Some n →
  ∃ s' F', free_ (plus bp 1) s = Ret (tt, s') ∧ os s' = os s ∧ heap_ok s' F' (delete bp A) ∧
    (∃ a m, (a, m) ∈ F' ∧ n ≤ m) ∧ (length F' ≤ S (length F))%nat ∧
    (∀ a m k, delete bp A !! a = Some m → 0 ≤ k < m → cells s' !! plus a k = cells s !! plus a k).
Proof.
  intros Hs HA. destruct (free_place _ _ _ _ _ Hs HA) as (l1 & p & k & l2 & Hpl).
  destruct (free_links _ _ _ _ _ _ _ _ _ Hs HA Hpl) as (c & E & Hseg & Hfr & Hcb & Hcp).
  destruct (ho_used _ _ _ Hs _ _ HA) as (Hbp & _ & Hap).
  assert (1 ≤ n) as Hn1 by apply (bo_size _ _ Hbp).
  set (s' := UState c p (os s)) in *.
  assert (∀ x, block_ok s x → block_ok s' x) as Hblk.
  { intros x Hx. apply (block_frame s); [done|done|]. intros a Ha. cbn.
    destruct (decide (a = bp)) as [->|]; [done|]. destruct (decide (a = p)) as [->|]; [done|].
    by rewrite Hfr. }
  set (P x := block_ok s x ∧ map_Forall (λ a m, apart (a, m) x) (delete bp A)).
  destruct (joined_nodes P s F bp n l1 p k l2 Hpl) as (F' & EF & HF').
  { intros a m m' [H1 H2] [H3 H4]. split; [by apply block_join|].
    intros b mb Hb. destruct H1 as [H1 _ _ _]; destruct H3 as [H3 _ _ _].
    apply apart_join; [|cbn in *; lia..|by apply H2|by apply H4].
    apply lookup_delete_Some in Hb as [_ Hb]. apply (bo_size _ _ (proj1 (ho_used _ _ _ Hs _ _ Hb))). }
  { apply Forall_forall. intros x Hx. pose proof (ho_free _ _ _ Hs) as HF. rewrite Forall_forall in HF.
    split; [by apply HF|]. intros a m [_ Ha]%lookup_delete_Some.
    pose proof (proj2 (proj2 (ho_used _ _ _ Hs _ _ Ha))) as Hx'. rewrite Forall_forall in Hx'. by apply Hx'. }
  { split; [done|]. intros a m [Hne Ha]%lookup_delete_Some. by eapply ho_apart. }
  pose proof (free_same s F A bp n l1 p k l2 c Hs HA Hpl Hfr) as Hsame.
  exists s', F'. split_and!; [done|done| | | |done].
  - split.
    + by rewrite <- EF.
    + rewrite <- EF. by eapply joined_ordered; [..|lia].
    + eapply Forall_impl; [exact HF'|]. intros x [Hx _]. by apply Hblk.
    + rewrite <- EF, fmap_app. apply elem_of_app. right. apply join_first.
    + intros a m Ha. pose proof Ha as [_ Ha0]%lookup_delete_Some.
      destruct (ho_used _ _ _ Hs _ _ Ha0) as (Hb & [q Hq] & _). split_and!; [by apply Hblk| |].
      * exists q. rewrite <- Hq. pose proof (Hsame a m 0 Ha ltac:(pose proof (bo_size _ _ Hb); cbn in *; lia)) as Hx.
        unfold plus in Hx. by rewrite !Z.mul_0_r, !Z.add_0_r in Hx.
      * eapply Forall_impl; [exact HF'|]. intros x [_ Hx]. by apply Hx.
    + intros a m b m' [_ Ha]%lookup_delete_Some [_ Hb]%lookup_delete_Some. by apply (ho_apart _ _ _ Hs).
    + apply (ho_base _ _ _ Hs).
  - eapply joined_cover; [done|by apply Hs|done|done].
  - apply (f_equal length) in EF. pose proof (f_equal length (pl_nodes _ _ _ _ _ _ _ _ Hpl)) as EN.
    pose proof (join_length (p, k) (join (bp, n) l2)). pose proof (join_length (bp, n) l2).
    rewrite !length_app in *. cbn in *. lia.
Qed.

(** ** [morecore] *)

(** A heap stays sound when the system only adds to it. *)
Lemma heap_more s s' F A :
  heap_ok s F A → freep s' = freep s → break (os s) ≤ break (os s') →
  (∀ x, is_Some (cells s !! x) → cells s' !! x = cells s !! x) → heap_ok s' F A.
Proof.
  intros Hs Hf Hb Hc.
  assert (∀ x, block_ok s x → block_ok s' x) as Hblk.
  { intros x Hx. apply (block_frame s); [done|done|]. intros a Ha. by rewrite Hc. }
  destruct Hs as [Hseg Ho HF Hfp HA Hap Hbase]. split; [|done| | | |done|lia].
  - apply (seg_frame (cells s)); [|done]. intros a ([a' n] & -> & Hin)%list_elem_of_fmap.
    destruct (seg_in _ _ _ _ _ Hseg Hin) as [p Hp]. apply Hc. by eexists.
  - eapply Forall_impl; [exact HF|]. done.
  - by rewrite Hf.
  - intros a n Ha. destruct (HA a n Ha) as (H1 & [p Hp] & H3). split_and!; [by apply Hblk| |done].
    exists p. rewrite Hc by (by eexists). done.
Qed.

(** A block at the old end of the heap, about to be freed. *)
Lemma heap_block s s' F A old nu h :
  heap_ok s F A → freep s' = freep s → old = break (os s) → 1 ≤ nu → plus old nu ≤ break (os s') →
  (∀ x, x ≠ old → is_Some (cells s !! x) → cells s' !! x = cells s !! x) →
  cells s' !! old = Some (Hdr h nu) → (∀ k, 0 ≤ k < nu → is_Some (cells s' !! plus old k)) →
  A !! old = None ∧ heap_ok s' F (<[old := nu]> A).
Proof.
  intros Hs Hf -> Hnu Hb Hc Hold Hcells. destruct (ho_base _ _ _ Hs) as [Hb0 Hb1].
  set (old := break (os s)) in *.
  assert (∀ x, block_ok s x → block_ok s' x ∧ apart x (old, nu) ∧ x.1 < old) as Hblk.
  { intros x Hx. pose proof Hx as [H1 H2 H3 H4]. fold old in H3. split_and!.
    - split; [done|done|unfold plus, SIZEOF_HEADER in *; lia|]. intros k Hk.
      rewrite Hc; [by apply H4| |by apply H4]. unfold plus, SIZEOF_HEADER in *. lia.
    - by left.
    - unfold plus, SIZEOF_HEADER in *. lia. }
  pose proof Hs as [Hseg Ho HF Hfp HA Hap Hbase].
  assert (A !! old = None) as HAo.
  { destruct (A !! old) as [n|] eqn:E; [|done]. destruct (HA _ _ E) as (H1 & _).
    destruct (Hblk _ H1) as (_ & _ & Hlt). cbn in Hlt. lia. }
  split; [done|]. rewrite Forall_forall in HF. split; [|done| | | | |unfold plus, SIZEOF_HEADER in *; lia].
  - apply (seg_frame (cells s)); [|done]. intros a ([a' n] & -> & Hin)%list_elem_of_fmap.
    destruct (seg_in _ _ _ _ _ Hseg Hin) as [p Hp]. apply Hc; [|by eexists]. cbn.
    apply elem_of_cons in Hin as [[= -> ->]|Hin]; [unfold SIZEOF_HEADER in *; lia|].
    destruct (Hblk _ (HF _ Hin)) as (_ & _ & Hlt). cbn in Hlt. lia.
  - apply Forall_forall. intros x Hx. by apply Hblk, HF.
  - by rewrite Hf.
  - intros a n [[<- <-]|[Hne Ha]]%lookup_insert_Some.
    + split_and!; [split; cbn; [done|done|done|done]|by exists h|].
      apply Forall_forall. intros x Hx. apply apart_sym. by apply Hblk, HF.
    + destruct (HA a n Ha) as (H1 & [p Hp] & H3). split_and!; [by apply Hblk| |done].
      exists p. rewrite Hc; [done|done|by eexists].
  - intros a n b m [[<- <-]|[_ Ha]]%lookup_insert_Some [[<- <-]|[_ Hm]]%lookup_insert_Some Hne; [done|..].
    + apply apart_sym. by apply Hblk, (HA _ _ Hm).
    + by apply Hblk, (HA _ _ Ha).
    + by apply Hap.
Qed.

(** The system refuses to move the end of the heap by [n] units. *)
Definition refuses (s : ustate Y) (n : Z) : Prop :=
  ∃ s1 r s2, break (os s1) = break (os s) ∧
    brk (break (os s) + SIZEOF_HEADER * n) s1 = Ret (r, s2) ∧ r < 0.

(** The contents of the blocks in use. *)
Definition same_used (s s' : ustate Y) (A : gmap Z Z) : Prop :=
  ∀ a m k, A !! a = Some m → 0 ≤ k < m → cells s' !! plus a k = cells s !! plus a k.

Lemma morecore_run s F A nunits :
  heap_ok s F A → 1 ≤ nunits < 2 ^ 32 →
  ∃ s', same_used s s' A ∧
   ((morecore nunits s = Ret (0, s') ∧ heap_ok s' F A ∧ refuses s (Z.max nunits 4096)) ∨
    ∃ F', morecore nunits s = Ret (freep s', s') ∧ heap_ok s' F' A ∧
      (∃ a m, (a, m) ∈ F' ∧ nunits ≤ m) ∧ (length F' ≤ S (length F))%nat).
Proof.
  intros Hs Hnu. destruct (ho_base _ _ _ Hs) as [Hb0 Hb1]. unfold morecore. cbv zeta.
  replace (if nunits <? 4096 then 4096 else nunits) with (Z.max nunits 4096)
    by (destruct (Z.ltb_spec nunits 4096); lia).
  set (nu := Z.max nunits 4096). assert (nunits ≤ nu ∧ 4096 ≤ nu) as [Hnu1 Hnu2] by lia.
  destruct (brk_query s) as (y1 & E1 & Hy1). mstep E1. set (s1 := UState (cells s) (freep s) y1) in *.
  set (old := break (os s)) in *. rewrite (Z.mul_comm nu).
  destruct (brk_grow (old + SIZEOF_HEADER * nu) s1) as (r & c & y2 & E2 & Hc & Hr).
  { cbn. rewrite Hy1. unfold SIZEOF_HEADER, old. lia. }
  mstep E2. change (freep s1) with (freep s) in *. set (s2 := UState c (freep s) y2) in *.
  change (cells s1) with (cells s) in Hc. change (os s1) with y1 in Hr. rewrite Hy1 in Hr. fold old in Hr.
  destruct Hr as [[Hr Hy2]|(-> & Hy2 & Hnew)].
  - rewrite (proj2 (Z.ltb_lt _ _)) by done. exists s2.
    assert (heap_ok s2 F A) as Hs2 by (apply (heap_more s); [done|done|cbn; lia|done]). split.
    + intros a m k Ha Hk. apply Hc. by apply (bo_cells _ _ (proj1 (ho_used _ _ _ Hs _ _ Ha))).
    + left. split_and!; [done|done|]. exists s1, r, s2. split_and!; [done| |done]. exact E2.
  - cbn [Z.ltb Z.compare]. destruct (Hnew 0 ltac:(lia)) as [ho Hho]; [unfold SIZEOF_HEADER; lia|].
    rewrite Z.mul_0_r, Z.add_0_r in Hho. mstep (set_size_ok s2 old ho nu Hho).
    set (s3 := set_cells _ s2).
    destruct (heap_block s s3 F A old nu (h_ptr ho) Hs) as [HAo Hs3]; try done; try lia.
    { intros x Hx Hsx. cbn. rewrite lookup_insert_ne by done. by apply Hc. }
    { apply lookup_insert_eq. }
    { intros k Hk. cbn. destruct (decide (old = plus old k)) as [<-|]; [by rewrite lookup_insert_eq|].
      rewrite lookup_insert_ne by done. apply Hnew; [lia|]. unfold SIZEOF_HEADER. lia. }
    destruct (heap_free_run s3 F (<[old := nu]> A) old nu Hs3) as (s4 & F' & E4 & Hos & Hs4 & (a & m & Hin & Hm) & Hl & Hsame).
    { apply lookup_insert_eq. }
    rewrite delete_insert_id in Hs4, Hsame by done.
    mstep E4. exists s4. split.
    + intros b n k Hb Hk. rewrite (Hsame b n k Hb Hk). cbn. rewrite lookup_insert_ne.
      * apply Hc. by apply (bo_cells _ _ (proj1 (ho_used _ _ _ Hs _ _ Hb))).
      * destruct (proj1 (ho_used _ _ _ Hs _ _ Hb)) as [_ _ Hhi _]. cbn in Hhi.
        unfold plus, SIZEOF_HEADER, old in *. lia.
    + right. exists F'. split_and!; [done|done| |done]. exists a, m. split; [done|lia].
Qed.

(** ** The search of [malloc] *)

(** What a block in use needs, when a free block gives it away. *)
Lemma heap_take s s' F F' A q nu :
  heap_ok s F A → os s' = os s → seg (cells s') (nodes F') base → ordered (base - 1) (nodes F') →
  freep s' ∈ (nodes F').*1 →
  (∃ a n, (a, n) ∈ F ∧ 1 ≤ nu ∧ a ≤ q ∧ plus q nu = plus a n ∧
    (∀ k, 0 ≤ k < nu → is_Some (cells s !! plus q k))) →
  (∃ p, cells s' !! q = Some (Hdr p nu)) →
  (∀ x, is_Some (cells s !! x) → is_Some (cells s' !! x)) →
  Forall (λ x, ∃ y, y ∈ F ∧ 1 ≤ x.2 ≤ y.2 ∧ x.1 = y.1 ∧ apart (q, nu) x) F' →
  same_used s s' A →
  A !! q = None ∧ heap_ok s' F' (<[q := nu]> A).
Proof.
  intros Hs Hos Hseg Ho Hfp (a & n & Hin & Hnu & Haq & Hend & Hcq) Hq Hc HF' Hsame.
  pose proof (ho_free _ _ _ Hs) as HF. rewrite Forall_forall in HF, HF'.
  pose proof (HF _ Hin) as [H1 H2 H3 H4]. cbn in *.
  assert (∀ x, block_ok s x → block_ok s' x) as Hblk.
  { intros x Hx. apply (block_frame s); [done|by rewrite Hos|done]. }
  assert (∀ b m, A !! b = Some m → apart (b, m) (q, nu)) as Hap.
  { intros b m Hb. pose proof (proj2 (proj2 (ho_used _ _ _ Hs _ _ Hb))) as Hx.
    rewrite Forall_forall in Hx. specialize (Hx _ Hin). unfold apart, plus, SIZEOF_HEADER in *. cbn in *. lia. }
  assert (A !! q = None) as HAq.
  { destruct (A !! q) as [m|] eqn:E; [|done]. pose proof (Hap _ _ E) as Hx.
    pose proof (bo_size _ _ (proj1 (ho_used _ _ _ Hs _ _ E))).
    unfold apart, plus, SIZEOF_HEADER in Hx. cbn in *. lia. }
  split; [done|]. split; [done|done| |done| | |rewrite Hos; apply (ho_base _ _ _ Hs)].
  - apply Forall_forall. intros [b m] Hx. destruct (HF' _ Hx) as ([b' m'] & Hy & Hm & Eb & _).
    cbn in *. subst b'. apply Hblk. pose proof (HF _ Hy) as [G1 G2 G3 G4]. cbn in *.
    split; cbn; [lia|done|unfold plus, SIZEOF_HEADER in *; lia|]. intros k Hk. apply G4. lia.
  - intros b m [[<- <-]|[Hne Hb]]%lookup_insert_Some.
    + split_and!; [|done|].
      * apply Hblk. split; cbn; [done|lia|by rewrite Hend|done].
      * apply Forall_forall. intros x Hx. by destruct (HF' _ Hx) as (_ & _ & _ & _ & ?).
    + destruct (ho_used _ _ _ Hs _ _ Hb) as (G1 & [p Hp] & G3). split_and!; [by apply Hblk| |].
      * exists p. rewrite <- Hp. pose proof (bo_size _ _ G1). cbn in *.
        replace b with (plus b 0) by (unfold plus; lia). apply (Hsame b m 0 Hb). lia.
      * apply Forall_forall. intros [c j] Hx. destruct (HF' _ Hx) as ([c' j'] & Hy & Hj & Ec & _).
        rewrite Forall_forall in G3. specialize (G3 _ Hy). cbn in *. subst c'.
        unfold apart, plus, SIZEOF_HEADER in *. cbn in *. lia.
  - intros b m b' m' [[<- <-]|[_ Hb]]%lookup_insert_Some [[<- <-]|[_ Hb']]%lookup_insert_Some Hne; [done|..].
    + apply apart_sym. by apply Hap.
    + by apply Hap.
    + by apply (ho_apart _ _ _ Hs).
Qed.

(** Changes inside the nodes and blocks of the ring leave the blocks in use alone. *)
Lemma same_used_ring s c F A :
  heap_ok s F A →
  (∀ x, (x ≠ base ∧ ∀ a n, (a, n) ∈ F → ¬ (a ≤ x < plus a n)) → c !! x = cells s !! x) →
  ∀ s', cells s' = c → same_used s s' A.
Proof.
  intros Hs Hc s' E a m k Ha Hk. rewrite E. apply Hc. by apply (used_outside _ _ _ _ _ _ Hs Ha).
Qed.

(** The nodes before and behind a free block. *)
Lemma node_ring_split s F A pv k q m l1 l2 :
  heap_ok s F A → nodes F = l1 ++ (pv, k) :: (q, m) :: l2 →
  ∃ G, F = G ++ (q, m) :: l2 ∧ nodes G = l1 ++ [(pv, k)] ∧
    (∀ a n, (a, n) ∈ nodes G → a < q ∧ plus a n < q) ∧ (∀ a n, (a, n) ∈ l2 → plus q m < a) ∧
    block_ok s (q, m).
Proof.
  intros Hs EN. assert (∃ G, F = G ++ (q, m) :: l2 ∧ nodes G = l1 ++ [(pv, k)]) as (G & EF & EG).
  { destruct l1 as [|x l1]; [injection EN as <- <- ->; by exists []|]. injection EN as <- ->.
    exists (l1 ++ [(pv, k)]). by rewrite <- app_assoc. }
  exists G. pose proof (ho_ordered _ _ _ Hs) as Ho. pose proof (ho_free _ _ _ Hs) as HF.
  rewrite EF in Ho, HF. rewrite app_comm_cons in Ho.
  destruct (ordered_split _ _ _ _ _ Ho) as (_ & _ & H1 & H2).
  split_and!; [done|done| |done|].
  - intros a n Hin. specialize (H1 _ _ Hin). split; [|done].
    destruct (ordered_in _ _ a n Ho); [apply elem_of_app; by left|].
    unfold plus, SIZEOF_HEADER in *. lia.
  - rewrite Forall_forall in HF. apply HF. apply elem_of_app. right. left.
Qed.

Lemma seg_change c c' N1 N2 e :
  (∀ a n, (a, n) ∈ N1 → c' !! a = c !! a) → seg c N1 (hd_addr N2 e) → seg c' N2 e →
  seg c' (N1 ++ N2) e.
Proof.
  intros Hf H1 H2. apply seg_app. split; [|done]. apply (seg_frame c); [|done].
  intros a ([a' n] & -> & Hin)%list_elem_of_fmap. by eapply Hf.
Qed.

(** The other free blocks when [nu] units at the end of [q] are taken. *)
Lemma kept_free s F A G q m l2 nu r x :
  heap_ok s F A → F = G ++ (q, m) :: l2 → (∀ a n, (a, n) ∈ nodes G → a < q ∧ plus a n < q) →
  (∀ a n, (a, n) ∈ l2 → plus q m < a) → q ≤ r → plus r nu = plus q m → x ∈ G ++ l2 →
  ∃ y, y ∈ F ∧ 1 ≤ x.2 ≤ y.2 ∧ x.1 = y.1 ∧ apart (r, nu) x.
Proof.
  intros Hs EF H1 H2 Hqr Hre Hx. destruct x as [a n].
  assert ((a, n) ∈ F) as HinF.
  { rewrite EF. apply elem_of_app in Hx. apply elem_of_app. rewrite elem_of_cons. tauto. }
  pose proof (ho_free _ _ _ Hs) as HF. rewrite Forall_forall in HF. pose proof (bo_size _ _ (HF _ HinF)).
  exists (a, n). split_and!; [done|done|done|done|]. unfold apart. cbn.
  apply elem_of_app in Hx as [Hin|Hin].
  - right. destruct (H1 a n); [by right|lia].
  - left. specialize (H2 _ _ Hin). lia.
Qed.

(** The whole block is taken out of the ring. *)
Lemma take_whole s F A nu pv k q hq l1 l2 m :
  heap_ok s F A → 1 ≤ nu → cells s !! pv = Some (Hdr q k) → cells s !! q = Some hq →
  nodes F = l1 ++ (pv, k) :: (q, m) :: l2 → h_size hq = nu →
  ∃ s' F', take_block nu pv q s = Ret (plus q 1, s') ∧ A !! q = None ∧
    heap_ok s' F' (<[q := nu]> A) ∧ same_used s s' A.
Proof.
  intros Hs Hnu Hpv Hq EN Hsz. destruct (node_ring_split _ _ _ _ _ _ _ _ _ Hs EN) as (G & EF & EG & H1 & H2 & Hqok).
  pose proof (ho_seg _ _ _ Hs) as Hseg. pose proof (ho_ordered _ _ _ Hs) as Ho.
  pose proof (ordered_NoDup _ _ Ho) as Hnd. rewrite EN in Hseg, Hnd.
  pose proof (proj2 (proj1 (seg_app _ _ _ _) Hseg)) as (_ & Hq' & Hs2). rewrite Hq in Hq'. injection Hq' as ->.
  cbn in Hsz. subst m. cbn [hd_addr] in *.
  assert ((pv ∉ l1.*1) ∧ (pv ∉ l2.*1) ∧ pv ≠ q) as (Hp1 & Hp2 & Hpq).
  { rewrite fmap_app in Hnd. cbn in Hnd. apply NoDup_app in Hnd as (_ & Hd & [Hn _]%NoDup_cons).
    rewrite not_elem_of_cons in Hn. split_and!; [|tauto..]. intros Hin. apply (Hd _ Hin). left. }
  assert (∀ h a, a ≠ pv → <[pv := h]> (cells s) !! a = cells s !! a) as Hfr
    by (intros; by rewrite lookup_insert_ne).
  set (c := <[pv := Hdr (hd_addr l2 base) k]> (cells s)).
  set (s' := UState c pv (os s)). exists s', (G ++ l2).
  assert (same_used s s' A) as Hsame.
  { apply (same_used_ring s c F); [done| |done]. intros x [Hxb Hx]. apply Hfr. intros ->.
    assert ((pv, k) ∈ nodes F) as [[= -> ->]|Hin]%elem_of_cons; [|done|].
    { rewrite EN. apply elem_of_app. right. left. }
    apply (Hx pv k Hin). pose proof (ho_free _ _ _ Hs) as HF. rewrite Forall_forall in HF.
    pose proof (bo_size _ _ (HF _ Hin)). unfold plus, SIZEOF_HEADER. cbn in *. lia. }
  assert (A !! q = None ∧ heap_ok s' (G ++ l2) (<[q := nu]> A)) as [HAq Hs'].
  { apply (heap_take s s' F); try done.
    + rewrite app_comm_cons, EG, <- app_assoc. cbn [app].
      apply seg_app in Hseg as [Hs1 _]. apply seg_app. split.
      * apply (seg_frame (cells s)); [|done]. intros a Ha. apply Hfr. by intros ->.
      * split; [apply lookup_insert_eq|]. apply (seg_frame (cells s)); [|done].
        intros a Ha. apply Hfr. by intros ->.
    + rewrite EF, app_comm_cons in Ho. rewrite app_comm_cons.
      apply ordered_app in Ho as [Ho1 (Hlo & Hn & Ho2)]. apply ordered_app. split; [done|].
      eapply ordered_lo; [|exact Ho2]. unfold plus, SIZEOF_HEADER. lia.
    + rewrite app_comm_cons, EG, !fmap_app. cbn. apply elem_of_app. left. apply elem_of_app. right. left.
    + exists q, nu. split_and!; [|done|lia|done|by apply (bo_cells _ _ Hqok)].
      rewrite EF. apply elem_of_app. right. left.
    + exists (hd_addr l2 base). unfold s', c. cbn. by rewrite Hfr.
    + intros x Hx. unfold s', c. cbn. destruct (decide (x = pv)) as [->|]; [by rewrite lookup_insert_eq|by rewrite Hfr].
    + apply Forall_forall. intros x Hx. by apply (kept_free s F A G q nu l2). }
  split_and!; [|done..].
  unfold take_block. mstep (size_of_ok s q _ Hq). cbn [h_size]. rewrite Z.eqb_refl.
  erewrite mbind_Ret; [|mstep (ptr_of_ok s q _ Hq); cbn [h_ptr];
    mstep (set_ptr_ok s pv _ (hd_addr l2 base) Hpv); reflexivity]. done.
Qed.

(** The end of the block is taken and the rest stays in the ring. *)
Lemma take_part s F A nu pv k q hq l1 l2 m :
  heap_ok s F A → 1 ≤ nu → cells s !! q = Some hq →
  nodes F = l1 ++ (pv, k) :: (q, m) :: l2 → nu < h_size hq → pv ∈ (nodes F).*1 →
  ∃ s' F' r, take_block nu pv q s = Ret (plus r 1, s') ∧ A !! r = None ∧ 0 < r ∧
    heap_ok s' F' (<[r := nu]> A) ∧ same_used s s' A.
Proof.
  intros Hs Hnu Hq EN Hsz Hpin. destruct (node_ring_split _ _ _ _ _ _ _ _ _ Hs EN) as (G & EF & EG & H1 & H2 & Hqok).
  pose proof (ho_seg _ _ _ Hs) as Hseg. pose proof (ho_ordered _ _ _ Hs) as Ho.
  destruct (ho_base _ _ _ Hs) as [Hb0 _]. rewrite EF, app_comm_cons in Hseg, Ho.
  pose proof (proj2 (proj1 (seg_app _ _ _ _) Hseg)) as (Hq' & Hs2). rewrite Hq in Hq'. injection Hq' as ->.
  cbn [h_size] in Hsz. pose proof Hqok as [Hm1 Hlow _ Hqc]. cbn in Hm1, Hlow, Hqc.
  set (r := plus q (m - nu)). destruct (Hqc (m - nu)) as [hr Hr]; [lia|]. fold r in Hr.
  assert (q < r ∧ r < plus q m ∧ plus r nu = plus q m) as (Hqr & Hrm & Hre)
    by (unfold r, plus, SIZEOF_HEADER; lia).
  set (c1 := <[q := Hdr (hd_addr l2 base) (m - nu)]> (cells s)).
  assert (c1 !! r = Some hr) as Hr1 by (unfold c1; rewrite lookup_insert_ne by lia; done).
  set (c := <[r := Hdr (h_ptr hr) nu]> c1). set (s' := UState c pv (os s)).
  assert (∀ a, a ≠ q → a ≠ r → c !! a = cells s !! a) as Hfr.
  { intros a Ha Hb. unfold c, c1. by rewrite !lookup_insert_ne by done. }
  assert ((q, m) ∈ F) as HqF by (rewrite EF; apply elem_of_app; right; left).
  assert (same_used s s' A) as Hsame.
  { apply (same_used_ring s c F); [done| |done]. intros x [Hxb Hx]. specialize (Hx _ _ HqF).
    apply Hfr; unfold plus, SIZEOF_HEADER in *; lia. }
  exists s', (G ++ (q, m - nu) :: l2), r.
  assert (A !! r = None ∧ heap_ok s' (G ++ (q, m - nu) :: l2) (<[r := nu]> A)) as [HAr Hs'].
  { apply (heap_take s s' F); try done.
    - rewrite app_comm_cons. apply (seg_change (cells s)).
      + intros a n Hin. destruct (H1 _ _ Hin). apply Hfr; lia.
      + by apply seg_app in Hseg as [Hseg _].
      + split; [unfold s', c, c1; cbn; rewrite lookup_insert_ne by lia; apply lookup_insert_eq|].
        apply (seg_frame (cells s)); [|done]. intros a ([a' n] & -> & Hin)%list_elem_of_fmap.
        specialize (H2 _ _ Hin). apply Hfr; cbn; lia.
    - rewrite app_comm_cons. apply ordered_app in Ho as [Ho1 (Hlo & Hn & Ho2)]. apply ordered_app.
      split; [done|]. split_and!; [done|lia|]. eapply ordered_lo; [|exact Ho2].
      unfold plus, SIZEOF_HEADER. lia.
    - rewrite app_comm_cons, EG, !fmap_app. cbn. apply elem_of_app. left. apply elem_of_app. right. left.
    - exists q, m. split_and!; [done|done|lia|done|]. intros j Hj.
      replace (plus r j) with (plus q (m - nu + j)) by (unfold r, plus; lia). apply Hqc. lia.
    - exists (h_ptr hr). apply lookup_insert_eq.
    - intros x Hx. unfold s', c, c1. cbn.
      destruct (decide (x = r)) as [->|]; [by rewrite lookup_insert_eq|rewrite lookup_insert_ne by done].
      destruct (decide (x = q)) as [->|]; [by rewrite lookup_insert_eq|by rewrite lookup_insert_ne].
    - apply Forall_forall. intros x Hx. rewrite elem_of_app, elem_of_cons in Hx.
      assert (x = (q, m - nu) ∨ x ∈ G ++ l2) as [->|Hx'] by (rewrite elem_of_app; tauto).
      + exists (q, m). split_and!; [done|cbn; lia|cbn; lia|done|]. right. cbn. unfold r. lia.
      + apply (kept_free s F A G q m l2); (done || lia). }
  split_and!; [|done|unfold SIZEOF_HEADER in Hlow; lia|done|done].
  unfold take_block. mstep (size_of_ok s q _ Hq). cbn [h_size].
  rewrite (proj2 (Z.eqb_neq m nu)) by lia.
  erewrite mbind_Ret; [|mstep (set_size_ok s q _ (m - nu) Hq); cbv zeta; fold r;
    mstep (set_size_ok (set_cells c1 s) r hr nu Hr1); reflexivity]. done.
Qed.

Lemma take_block_run s F A nu pv k q hq :
  heap_ok s F A → 1 ≤ nu → cells s !! pv = Some (Hdr q k) → pv ∈ (nodes F).*1 →
  cells s !! q = Some hq → nu ≤ h_size hq →
  ∃ s' F' r, take_block nu pv q s = Ret (plus r 1, s') ∧ A !! r = None ∧ 0 < r ∧
    heap_ok s' F' (<[r := nu]> A) ∧ same_used s s' A.
Proof.
  intros Hs Hnu Hpv Hpin Hq Hsz. pose proof (ho_seg _ _ _ Hs) as Hseg.
  destruct (ho_base _ _ _ Hs) as [Hb0 _].
  assert (q ≠ base) as Hqb.
  { intros ->. destruct Hseg as [Hb _]. rewrite Hq in Hb. injection Hb as ->. cbn in Hsz. lia. }
  destruct (seg_next _ _ _ _ _ Hseg Hpv Hpin Hqb) as (l1 & l2 & m & EN). cbn [h_ptr h_size] in EN.
  destruct (decide (h_size hq = nu)) as [Eq|].
  - destruct (take_whole s F A nu pv k q hq l1 l2 m) as (s' & F' & E & HA & Hs' & Hsame); try done.
    exists s', F', q. split_and!; try done.
    destruct (node_ring_split _ _ _ _ _ _ _ _ _ Hs EN) as (_ & _ & _ & _ & _ & [_ Hlow _ _]).
    unfold SIZEOF_HEADER in Hlow. cbn in Hlow. lia.
  - destruct (take_part s F A nu pv k q hq l1 l2 m) as (s' & F' & r & H'); try done; [lia|].
    exists s', F', r. tauto.
Qed.

(** One lap around the ring: a block that is large enough is found, or the search is back at
    [freep] and asks for more memory. *)
Definition ask_more (fuel : nat) (nunits p : Z) : M (ustate Y) Z :=
  p ← morecore nunits;
  if p =? 0 then mret 0 else nx ← ptr_of p; malloc_loop fuel nunits p nx.

Lemma scan_run s nu W : ∀ pv k f n e fuel,
  freep s = f → seg (cells s) ((pv, k) :: W ++ [(f, n)]) e → f ∉ W.*1 →
  (∃ pv' k' q hq, pv' ∈ ((pv, k) :: W).*1 ∧ cells s !! pv' = Some (Hdr q k') ∧
     cells s !! q = Some hq ∧ nu ≤ h_size hq ∧
     malloc_loop (S (length W) + fuel) nu pv (hd_addr W f) s = take_block nu pv' q s) ∨
  (Forall (λ x, x.2 < nu) (W ++ [(f, n)]) ∧
   malloc_loop (S (length W) + fuel) nu pv (hd_addr W f) s = ask_more fuel nu f s).
Proof.
  induction W as [|[q m] W IH]; intros pv k f n e fuel Hf Hs Hni.
  - destruct Hs as (Hpv & Hfc & _). cbn [hd_addr app length Nat.add] in *. cbn [malloc_loop].
    rewrite (mbind_Ret _ _ _ _ _ (size_of_ok s f _ Hfc)). cbn [h_size].
    destruct (Z.leb_spec nu n).
    + left. exists pv, k, f, (Hdr (hd_addr [] e) n). split_and!; try done. left.
    + right. split; [by repeat constructor|]. erewrite mbind_Ret by reflexivity.
      by rewrite Hf, Z.eqb_refl.
  - destruct Hs as (Hpv & Hs). pose proof Hs as (Hq & _). cbn [hd_addr app] in *.
    change (S (length ((q, m) :: W)) + fuel)%nat with (S (S (length W) + fuel)).
    apply not_elem_of_cons in Hni as [Hfq Hni]. cbn in Hfq.
    cbn [malloc_loop].
    rewrite (mbind_Ret _ _ _ _ _ (size_of_ok s q _ Hq)). cbn [h_size].
    destruct (Z.leb_spec nu m).
    + left. exists pv, k, q, (Hdr (hd_addr (W ++ [(f, n)]) e) m). split_and!; try done. left.
    + erewrite mbind_Ret by reflexivity. rewrite Hf, (proj2 (Z.eqb_neq q f)) by done.
      rewrite (mbind_Ret _ _ _ _ _ (ptr_of_ok s q _ Hq)). cbn [h_ptr]. rewrite hd_addr_app. cbn [hd_addr].
      destruct (IH q m f n e fuel Hf Hs Hni) as [(pv' & k' & q' & hq & Hin & G1 & G2 & G3 & G4)|[G1 G2]].
      * left. exists pv', k', q', hq. split_and!; [by right|done..].
      * right. split; [by constructor|done].
Qed.

(** From [freep] around the ring: the search succeeds, or asks for memory when no block is
    large enough. *)
Lemma lap s F A nu fuel :
  heap_ok s F A → 1 ≤ nu → (length F < fuel)%nat →
  ∃ h fuel', cells s !! freep s = Some h ∧ (fuel ≤ S (length F) + fuel')%nat ∧
   ((∃ s' F' r, malloc_loop fuel nu (freep s) (h_ptr h) s = Ret (plus r 1, s') ∧ A !! r = None ∧
      0 < r ∧ heap_ok s' F' (<[r := nu]> A) ∧ same_used s s' A) ∨
    (Forall (λ x, x.2 < nu) F ∧
     malloc_loop fuel nu (freep s) (h_ptr h) s = ask_more fuel' nu (freep s) s)).
Proof.
  intros Hs Hnu Hf. pose proof (ho_seg _ _ _ Hs) as Hseg.
  pose proof (ordered_NoDup _ _ (ho_ordered _ _ _ Hs)) as Hnd.
  destruct (seg_rotate _ _ _ _ Hseg (ho_freep _ _ _ Hs) eq_refl) as (nf & m1 & m2 & EF & Hrot).
  assert (length (m2 ++ m1) = length F) as El.
  { apply (f_equal length) in EF. rewrite length_app in *. cbn in EF. lia. }
  exists (Hdr (hd_addr (m2 ++ m1) (freep s)) nf), (fuel - S (length F))%nat.
  pose proof Hrot as [Hfp _]. rewrite (app_assoc m2), hd_addr_app in Hfp. cbn [hd_addr] in Hfp.
  split_and!; [done|lia|]. cbn [h_ptr]. rewrite (app_assoc m2) in Hrot.
  assert (freep s ∉ (m2 ++ m1).*1) as Hni.
  { rewrite EF, fmap_app in Hnd. cbn in Hnd. apply NoDup_app in Hnd as (_ & Hd & [Hn _]%NoDup_cons).
    rewrite fmap_app, elem_of_app. intros [|Hin]; [done|]. apply (Hd _ Hin). left. }
  pose proof (scan_run s nu (m2 ++ m1) _ nf _ nf _ (fuel - S (length F))%nat eq_refl Hrot Hni) as Hscan.
  rewrite El in Hscan. replace (S (length F) + (fuel - S (length F)))%nat with fuel in Hscan by lia.
  destruct Hscan as [(pv & k & q & hq & Hin & Hpv & Hq & Hsz & ->)|[Hall ->]].
  - left. eapply take_block_run; try done. rewrite EF. cbn in Hin. rewrite fmap_app in Hin |- *. cbn.
    rewrite elem_of_cons, elem_of_app in Hin. rewrite elem_of_app, elem_of_cons. tauto.
  - right. split; [|done]. apply Forall_forall. intros x Hx. rewrite Forall_forall in Hall. apply Hall.
    assert (x ∈ nodes F) as Hx' by (by right). rewrite EF in Hx'.
    rewrite !elem_of_app, elem_of_cons in Hx'. rewrite !elem_of_app, list_elem_of_singleton. tauto.
Qed.

Lemma freep_pos s F A : heap_ok s F A → 0 < freep s.
Proof.
  intros Hs. pose proof (ho_freep _ _ _ Hs) as Hin. destruct (ho_base _ _ _ Hs) as [Hb _].
  apply list_elem_of_fmap in Hin as ([a n] & -> & Hin). cbn.
  destruct (ordered_in _ _ a n (ho_ordered _ _ _ Hs) Hin). lia.
Qed.

Lemma same_used_trans s1 s2 s3 A : same_used s1 s2 A → same_used s2 s3 A → same_used s1 s3 A.
Proof. intros H12 H23 a m k Ha Hk. by rewrite (H23 a m k Ha Hk), (H12 a m k Ha Hk). Qed.

(** What a call of [malloc] brings about: a new block, or no change when the system refuses. *)
Definition served (s s' : ustate Y) (A : gmap Z Z) (nu r : Z) : Prop :=
  same_used s s' A ∧
  ((r = 0 ∧ (∃ F', heap_ok s' F' A ∧ Forall (λ x, x.2 < nu) F') ∧ refuses s (Z.max nu 4096)) ∨
   ∃ b F', r = plus b 1 ∧ 0 < b ∧ A !! b = None ∧ heap_ok s' F' (<[b := nu]> A)).

(** The loop of [malloc]: at most one lap, more memory, and another lap. *)
Lemma loop_run s F A nu fuel :
  heap_ok s F A → 1 ≤ nu < 2 ^ 32 → (2 * length F + 4 ≤ fuel)%nat →
  ∃ h s' r, cells s !! freep s = Some h ∧
    malloc_loop fuel nu (freep s) (h_ptr h) s = Ret (r, s') ∧ served s s' A nu r.
Proof.
  intros Hs Hnu Hf. destruct (lap s F A nu fuel Hs) as (h & fuel' & Hh & Hle & Hcase); [lia..|].
  exists h. destruct Hcase as [(s' & F' & r & E & HA & Hr & Hs' & Hsame)|[Hsmall E]].
  { exists s', (plus r 1). do 2 (split; [done|]). split; [done|]. right. by exists r, F'. }
  destruct (morecore_run s F A nu Hs Hnu) as (s1 & Hsame & [(E1 & Hs1 & Href)|(F1 & E1 & Hs1 & Hbig & Hl)]).
  - exists s1, 0. split; [done|]. split; [|split; [done|]].
    + rewrite E. unfold ask_more. by mstep E1.
    + left. split_and!; [done|by exists F|done].
  - pose proof (freep_pos _ _ _ Hs1) as Hp.
    destruct (lap s1 F1 A nu fuel' Hs1) as (h1 & fuel2 & Hh1 & _ & Hcase); [lia..|].
    destruct Hcase as [(s' & F' & r & E2 & HA & Hr & Hs' & Hsame2)|[Hsmall2 _]].
    + exists s', (plus r 1). split; [done|].
      split; [|split; [by eapply same_used_trans|right; by exists r, F']].
      rewrite E. unfold ask_more. mstep E1. rewrite (proj2 (Z.eqb_neq _ _)) by lia.
      by mstep (ptr_of_ok s1 (freep s1) h1 Hh1).
    + exfalso. destruct Hbig as (a & m & Hin & Hm). rewrite Forall_forall in Hsmall2.
      specialize (Hsmall2 _ Hin). cbn in Hsmall2. lia.
Qed.

(** ** What the allocator promises *)

(** The allocator before its first call, or on a sound heap; [A] are the blocks in use. *)
Definition heap_inv (s : ustate Y) (A : gmap Z Z) : Prop :=
  (freep s = 0 ∧ A = ∅ ∧ is_Some (cells s !! base) ∧ 0 < base ∧
   base + SIZEOF_HEADER ≤ break (os s)) ∨
  ∃ F, heap_ok s F A.

Lemma first_call s :
  is_Some (cells s !! base) → 0 < base → base + SIZEOF_HEADER ≤ break (os s) →
  heap_ok (UState (<[base := Hdr base 0]> (cells s)) base (os s)) [] ∅.
Proof.
  intros [h Hh] Hb Hbr. split; cbn; try done.
  - split; [by rewrite lookup_insert_eq|done].
  - split_and!; [lia|done|done].
  - left.
Qed.

Lemma heap_fuel s F A : heap_ok s F A → (length F < size (cells s))%nat.
Proof.
  intros Hs. pose proof (node_ring_size _ _ _ (ho_seg _ _ _ Hs)
    (ordered_NoDup _ _ (ho_ordered _ _ _ Hs))) as Hl. cbn in Hl. lia.
Qed.

Lemma units_small nbytes : 0 ≤ nbytes ≤ 2 ^ 36 - 32 →
  units nbytes = (nbytes + 15) / 16 + 1 ∧ 1 ≤ units nbytes < 2 ^ 32 ∧
  nbytes ≤ SIZEOF_HEADER * (units nbytes - 1).
Proof.
  intros Hn. unfold units, SIZEOF_HEADER. rewrite !u64_small by (rewrite ?u64_small; lia).
  replace (nbytes + 16 - 1) with (nbytes + 15) by lia.
  pose proof (Z.div_mod (nbytes + 15) 16 ltac:(lia)). pose proof (Z.mod_pos_bound (nbytes + 15) 16).
  rewrite u32_small by lia. lia.
Qed.

Lemma served_weaken s0 s s' A nu r :
  os s0 = os s → same_used s0 s A → served s s' A nu r → served s0 s' A nu r.
Proof.
  intros Hos H01 [Hsame Hcase]. split; [by eapply same_used_trans|].
  destruct Hcase as [(-> & HF & Href)|Hcase]; [left|by right]. split_and!; [done|done|].
  unfold refuses in *. by rewrite Hos.
Qed.

Lemma malloc_run s A nbytes :
  heap_inv s A → 0 ≤ nbytes ≤ 2 ^ 36 - 32 →
  ∃ r s', malloc base nbytes s = Ret (r, s') ∧ served s s' A (units nbytes) r.
Proof.
  intros Hs Hn. destruct (units_small nbytes Hn) as (_ & Hu & _).
  unfold malloc. cbv zeta. do 2 (erewrite mbind_Ret by reflexivity).
  set (fuel := (2 * size (cells s) + 4)%nat).
  destruct Hs as [(Hf & -> & Hbase & Hb & Hbr)|[F Hs]].
  - set (s1 := UState (<[base := Hdr base 0]> (cells s)) base (os s)).
    pose proof (first_call s Hbase Hb Hbr) as Hs1. fold s1 in Hs1. destruct Hbase as [h Hh].
    destruct (loop_run s1 [] ∅ (units nbytes) fuel Hs1 Hu) as (h1 & s' & r & Hh1 & E & Hserved).
    { cbn. lia. }
    exists r, s'. rewrite Hf, Z.eqb_refl. split; [|by eapply (served_weaken _ s1)].
    erewrite mbind_Ret; [|mstep (set_ptr_ok s base h base Hh); erewrite mbind_Ret by reflexivity;
      erewrite mbind_Ret by (eapply set_size_ok, lookup_insert_eq); reflexivity].
    unfold set_cells, set_freep. cbn [cells freep os h_ptr]. rewrite insert_insert_eq. fold s1.
    by mstep (ptr_of_ok s1 base h1 Hh1).
  - pose proof (freep_pos _ _ _ Hs) as Hp. pose proof (heap_fuel _ _ _ Hs) as Hl.
    destruct (loop_run s F A (units nbytes) fuel Hs Hu) as (h1 & s' & r & Hh1 & E & Hserved).
    { unfold fuel. lia. }
    exists r, s'. split; [|done]. rewrite (proj2 (Z.eqb_neq _ _)) by lia.
    erewrite mbind_Ret by reflexivity. by mstep (ptr_of_ok s (freep s) h1 Hh1).
Qed.

Lemma free_inv s A b n :
  heap_inv s A → A !! b = Some n →
  ∃ s', free_ (plus b 1) s = Ret (tt, s') ∧ heap_inv s' (delete b A) ∧ same_used s s' (delete b A).
Proof.
  intros [(_ & -> & _)|[F Hs]] HA; [by rewrite lookup_empty in HA|].
  destruct (heap_free_run s F A b n Hs HA) as (s' & F' & E & _ & Hs' & _ & _ & Hsame).
  exists s'. split_and!; [done|right; by exists F'|done].
Qed.

(** A program writes into its block, behind the header. *)
Lemma write_inv s A a n k h :
  heap_inv s A → A !! a = Some n → 1 ≤ k < n →
  heap_inv (set_cells (<[plus a k := h]> (cells s)) s) A.
Proof.
  intros [(_ & -> & _)|[F Hs]] HA Hk; [by rewrite lookup_empty in HA|]. right. exists F.
  destruct (used_outside s F A a n k Hs HA) as [Hb Hout]; [lia|].
  set (s' := set_cells _ s).
  assert (∀ x, x ≠ plus a k → cells s' !! x = cells s !! x) as Hfr
    by (intros; cbn; by rewrite lookup_insert_ne).
  assert (∀ x, block_ok s x → block_ok s' x) as Hblk.
  { intros x Hx. apply (block_frame s); [done|done|]. intros y Hy. cbn.
    destruct (decide (y = plus a k)) as [->|]; [by rewrite lookup_insert_eq|by rewrite lookup_insert_ne]. }
  destruct Hs as [Hseg Ho HF Hfp HU Hap Hbase]. split; [|done| |done| |done|done].
  - apply (seg_frame (cells s)); [|done]. intros x ([x' m] & -> & Hin)%list_elem_of_fmap. apply Hfr. cbn.
    apply elem_of_cons in Hin as [[= -> ->]|Hin]; [done|]. intros ->. apply (Hout _ _ Hin).
    rewrite Forall_forall in HF. pose proof (bo_size _ _ (HF _ Hin)). unfold plus, SIZEOF_HEADER. cbn in *. lia.
  - eapply Forall_impl; [exact HF|done].
  - intros b m Hb'. destruct (HU b m Hb') as (G1 & [p Hp] & G3). split_and!; [by apply Hblk| |done].
    exists p. rewrite Hfr; [done|]. intros ->. destruct (decide (a = plus a k)) as [Ea|Hne].
    + unfold plus, SIZEOF_HEADER in Ea. lia.
    + pose proof (Hap _ _ _ _ HA Hb' Hne) as Hx. pose proof (bo_size _ _ G1).
      unfold apart, plus, SIZEOF_HEADER in Hx. cbn in *. lia.
Qed.

(** The states that a program reaches with calls of [malloc] and [_free] and with writes into
    its blocks; [A] are the blocks it has. *)
Inductive reach : ustate Y → gmap Z Z → Prop :=
  | reach_start s : freep s = 0 → is_Some (cells s !! base) → 0 < base →
      base + SIZEOF_HEADER ≤ break (os s) → reach s ∅
  | reach_malloc s A nbytes r s' : reach s A → 0 ≤ nbytes ≤ 2 ^ 36 - 32 →
      malloc base nbytes s = Ret (r, s') →
      reach s' (if r =? 0 then A else <[plus r (-1) := units nbytes]> A)
  | reach_free s A b n s' : reach s A → A !! b = Some n → free_ (plus b 1) s = Ret (tt, s') →
      reach s' (delete b A)
  | reach_write s A a n k h : reach s A → A !! a = Some n → 1 ≤ k < n →
      reach (set_cells (<[plus a k := h]> (cells s)) s) A.

Lemma reach_inv s A : reach s A → heap_inv s A.
Proof.
  induction 1 as [s Hf Hc Hb Hbr|s A nb r s' _ IH Hn E|s A b n s' _ IH HA E|s A a n k h _ IH HA Hk].
  - left. by split_and!.
  - destruct (malloc_run s A nb IH Hn) as (r' & s1 & E' & _ & Hcase). rewrite E' in E. injection E as -> ->.
    destruct Hcase as [(-> & (F' & HF' & _) & _)|(b & F' & -> & Hb & _ & HF')]; [right; by exists F'|].
    rewrite (proj2 (Z.eqb_neq _ _)) by (unfold plus, SIZEOF_HEADER; lia).
    replace (plus (plus b 1) (-1)) with b by (unfold plus; lia). right. by exists F'.
  - destruct (free_inv s A b n IH HA) as (s1 & E' & Hs1 & _). rewrite E' in E. by injection E as <-.
  - by eapply write_inv.
Qed.

(** C36: [malloc] of at most 2 ^ 36 - 32 bytes terminates, and returns either NULL, when no free
    block is large enough and the system refuses to move the end of the heap, or the address
    behind the header of a new block with at least the bytes asked for; the new block overlaps
    no block in use, and no byte of those changes.  (From 2 ^ 36 - 16 bytes on the number of
    units wraps, see [huge_requests].) *)
Theorem malloc_spec s A nbytes :
  heap_inv s A → 0 ≤ nbytes ≤ 2 ^ 36 - 32 →
  ∃ r s', malloc base nbytes s = Ret (r, s') ∧ same_used s s' A ∧
    ((r = 0 ∧ heap_inv s' A ∧ refuses s (Z.max (units nbytes) 4096)) ∨
     ∃ b, r = plus b 1 ∧ A !! b = None ∧ heap_inv s' (<[b := units nbytes]> A) ∧
       nbytes ≤ SIZEOF_HEADER * (units nbytes - 1) ∧
       (∀ a n, A !! a = Some n → apart (a, n) (b, units nbytes))).
Proof.
  intros Hs Hn. destruct (malloc_run s A nbytes Hs Hn) as (r & s' & E & Hsame & Hcase).
  exists r, s'. split_and!; [done|done|].
  destruct Hcase as [(-> & (F' & HF' & _) & Href)|(b & F' & -> & Hb & HA & HF')].
  - left. split_and!; [done|right; by exists F'|done].
  - right. exists b. split_and!; [done|done|right; by exists F'|by apply units_small|].
    intros a n Ha. apply (ho_apart _ _ _ HF'); [|apply lookup_insert_eq|by intros ->; rewrite HA in Ha].
    rewrite lookup_insert_ne; [done|]. by intros ->; rewrite HA in Ha.
Qed.

(** C35: however a program calls [malloc], each time for at most 2 ^ 36 - 32 bytes, and [_free],
    on blocks it holds, and writes into its blocks, its blocks never overlap and carry their
    sizes, every further [malloc] of at most that size terminates, and every block can be
    given back, which terminates and changes no byte of the others.  ([huge_requests] is what
    larger requests do.) *)
Theorem heap_safe s A :
  reach s A →
  (∀ a n b m, A !! a = Some n → A !! b = Some m → a ≠ b → apart (a, n) (b, m)) ∧
  (∀ a n, A !! a = Some n → size_of a s = Ret (n, s)) ∧
  (∀ nbytes, 0 ≤ nbytes ≤ 2 ^ 36 - 32 → ∃ r s', malloc base nbytes s = Ret (r, s')) ∧
  (∀ a n, A !! a = Some n →
     ∃ s', free_ (plus a 1) s = Ret (tt, s') ∧ same_used s s' (delete a A)).
Proof.
  intros Hr. pose proof (reach_inv _ _ Hr) as Hs. split_and!.
  - destruct Hs as [(_ & -> & _)|[F Hs]]; [done|]. apply (ho_apart _ _ _ Hs).
  - intros a n Ha. destruct Hs as [(_ & -> & _)|[F Hs]]; [done|].
    destruct (ho_used _ _ _ Hs _ _ Ha) as (_ & [p Hp] & _). by apply (size_of_ok s a _ Hp).
  - intros nb Hn. destruct (malloc_run s A nb Hs Hn) as (r & s' & E & _). by exists r, s'.
  - intros a n Ha. destruct (free_inv s A a n Hs Ha) as (s' & E & _ & Hsame). by exists s'.
Qed.
End inv.

(** ** A process *)

(** The end of the heap, and how far the system lets it move. *)
Record uproc := Uproc { p_brk : Z; p_max : Z }.
Definition proc_break (y : uproc) : Z := Z.max 0 (Z.min (p_brk y) (2 ^ 36)).

(** Fresh memory: [n] units from [a]. *)
Definition fresh_units (a n : Z) : gmap Z header :=
  list_to_map ((λ k, (a + SIZEOF_HEADER * k, Hdr 0 0)) <$> seqZ 0 n).

#[export] Instance proc_break_call : Break uproc := {
  brk a s :=
    let b := proc_break (os s) in
    if a =? 0 then Ret (b, s)
    else if Z.min (p_max (os s)) (2 ^ 36) <? a then Ret (-1, s)
    else Ret (0, UState (cells s ∪ fresh_units b ((a - b + 15) / SIZEOF_HEADER)) (freep s)
                        (Uproc a (p_max (os s))))
}.

#[export] Instance proc_laws : BreakLaws uproc.
Proof.
  refine {| break := proc_break |}.
  - intros y. unfold proc_break. lia.
  - intros [c f y]. by exists y.
  - intros a [c f y] Ha. cbn in Ha |- *. assert (0 ≤ proc_break y) by (unfold proc_break; lia).
    rewrite (proj2 (Z.eqb_neq a 0)) by lia. destruct (Z.ltb_spec (Z.min (p_max y) (2 ^ 36)) a) as [Hm|Hm].
    + exists (-1), c, y. split_and!; [done|done|by left].
    + eexists 0, _, _. split; [reflexivity|]. split.
      * intros x [h Hx]. rewrite Hx. by apply lookup_union_Some_l.
      * right. unfold proc_break at 1. cbn. split_and!; [done|lia|]. intros k Hk Hlt.
        apply elem_of_dom. rewrite dom_union_L. apply elem_of_union_r, elem_of_dom.
        unfold fresh_units. rewrite <- not_eq_None_Some. intros Hnone%not_elem_of_list_to_map.
        apply Hnone. apply list_elem_of_fmap. exists (proc_break y + SIZEOF_HEADER * k, Hdr 0 0).
        split; [done|]. apply list_elem_of_fmap. exists k. split; [done|].
        apply elem_of_seqZ. unfold SIZEOF_HEADER in *.
        pose proof (Z.div_mod (a - proc_break y + 15) 16). pose proof (Z.mod_pos_bound (a - proc_break y + 15) 16).
        lia.
Defined.

(** [base] at 16, the heap from 4096 and at most [max] bytes of address space. *)
Definition boot (max : Z) : ustate uproc := UState {[ 16 := Hdr 0 0 ]} 0 (Uproc 4096 max).
Definition BASE : Z := 16.

Lemma boot_inv : heap_inv BASE (boot (2 ^ 20)) ∅.
Proof. left. split_and!; [done|done|by eexists|done|by vm_compute]. Qed.

Definition result {A} (o : outcome (A * ustate uproc)) : option A :=
  match o with Ret (a, _) => Some a | _ => None end.

(** The results of two calls, and of a third after the first block was given back. *)
Example three_calls :
  result ((a ← malloc BASE 100; b ← malloc BASE 40; free_ a;; c ← malloc BASE 40;
           mret (a, b, c)) (boot (2 ^ 20))) =
  Some (4096 + 16 * (4096 - 8) + 16, 4096 + 16 * (4096 - 12) + 16, 4096 + 16 * (4096 - 4) + 16).
Proof. by vm_compute. Qed.

(** The number of units is computed modulo 2^64 and kept modulo 2^32: a request for all of memory
    gets a block without a single byte, and one for 2^36 - 16 bytes gets [base] itself. *)
Example huge_requests :
  units (2 ^ 64 - 1) = 1 ∧ units (2 ^ 36 - 16) = 0 ∧
  result (malloc BASE (2 ^ 64 - 1) (boot (2 ^ 20))) = Some (4096 + 16 * 4096) ∧
  result (malloc BASE (2 ^ 36 - 16) (boot (2 ^ 20))) = Some (BASE + 16).
Proof. vm_compute. by split_and!. Qed.

Example out_of_memory : result (malloc BASE 100 (boot 5000)) = Some 0.
Proof. by vm_compute. Qed.

Lemma malloc_spec_witness :
  ∃ r s', malloc BASE 100 (boot (2 ^ 20)) = Ret (r, s') ∧ heap_inv BASE s' (<[plus r (-1) := 8]> ∅).
Proof.
  destruct (malloc_spec BASE (boot (2 ^ 20)) ∅ 100 boot_inv) as (r & s' & E & _ & Hcase); [lia|].
  exists r, s'. split; [done|]. destruct Hcase as [(-> & _)|(b & -> & _ & Hs' & _)].
  - exfalso. assert (result (malloc BASE 100 (boot (2 ^ 20))) = Some (4096 + 16 * (4096 - 8) + 16))
      as Er by (by vm_compute). rewrite E in Er. discriminate.
  - replace (plus (plus b 1) (-1)) with b by (unfold plus; lia). exact Hs'.
Defined.

Lemma heap_safe_witness :
  ∃ r s', malloc BASE 100 (boot (2 ^ 20)) = Ret (r, s') ∧
    ∃ s'', free_ r s' = Ret (tt, s'').
Proof.
  destruct (malloc_run BASE (boot (2 ^ 20)) ∅ 100 boot_inv) as (r & s' & E & _); [lia|].
  exists r, s'. split; [done|].
  assert (reach BASE (boot (2 ^ 20)) ∅) as H0.
  { apply reach_start; [done|by eexists|done|by vm_compute]. }
  pose proof (reach_malloc BASE _ _ 100 r s' H0 ltac:(lia) E) as H1.
  assert (r ≠ 0) as Hr.
  { intros ->. assert (result (malloc BASE 100 (boot (2 ^ 20))) = Some (4096 + 16 * (4096 - 8) + 16))
      as Er by (by vm_compute). rewrite E in Er. discriminate. }
  rewrite (proj2 (Z.eqb_neq r 0)) in H1 by done.
  destruct (heap_safe BASE s' _ H1) as (_ & _ & _ & Hfree).
  destruct (Hfree (plus r (-1)) (units 100)) as (s'' & E' & _); [apply lookup_insert_eq|].
  exists s''. replace (plus (plus r (-1)) 1) with r in E' by (unfold plus; lia). done.
Defined.
