(* ===== verification/Sh.v ===== *)
(** * The shell: reading and parsing commands

    Models [user/src/sh.c] up to the execution of a command: [gets], [getcmd], the loop of
    [main], and the parser.  A pointer into the line is its position together with the
    characters from there to [es]; a parsed command keeps positions, as the code does, and its
    strings are read from the line after [nulterminate]. *)

From S2P Require Export Prelude.

(** ** Parsed commands *)

Definition MAXARGS : Z := 10.

(** A string of a command: where it starts and where it ends. *)
Abbreviation span := (Z * Z)%type.

Inductive cmd :=
  | EXEC (argv : list span)
  | REDIR (sub : cmd) (file : span) (mode fd : Z)
  | PIPE (left right : cmd)
  | LIST (left right : cmd)
  | BACK (sub : cmd).

Definition O_RDONLY : Z := 0.
Definition O_WRONLY : Z := 1.
Definition O_CREAT : Z := 64.
Definition O_TRUNC : Z := 512.

(** [cmd->argv] of the [execcmd] that the redirections of a command wrap: the parser keeps a
    pointer to it while it adds redirections around it. *)
Fixpoint fill (args : list span) (c : cmd) : cmd :=
  match c with
  | EXEC _ => EXEC args
  | REDIR sub f m d => REDIR (fill args sub) f m d
  | _ => c
  end.

(** ** Tokens *)

Definition whitespace : list Z := [32; 9; 13; 10; 11].
Definition symbols : list Z := [60; 124; 62; 38; 59; 40; 41].
Definition PIPE_ : Z := 124.
Definition LPAREN : Z := 40.
Definition RPAREN : Z := 41.
Definition SEMI : Z := 59.
Definition AMP : Z := 38.
Definition LESS : Z := 60.
Definition GREATER : Z := 62.
Definition PLUS : Z := 43.   (** the token of [>>] *)
Definition WORD : Z := 97.   (** the token ['a'] *)

Definition member (c : Z) (l : list Z) : bool := existsb (Z.eqb c) l.
Definition is_ws (c : Z) : bool := member c whitespace.
Definition is_word (c : Z) : bool := negb (is_ws c) && negb (member c symbols).

(** A pointer: the position and the characters up to [es]. *)
Abbreviation ptr := (Z * list Z)%type.

Fixpoint skip (f : Z → bool) (pos : Z) (s : list Z) : ptr :=
  match s with
  | c :: s' => if f c then skip f (pos + 1) s' else (pos, s)
  | [] => (pos, [])
  end.

(** The [switch] of [gettoken] at [s]: the token, and the pointer behind it. *)
Definition scan (q : Z) (s : list Z) : Z * ptr :=
  match s with
  | [] => (0, (q, []))
  | c :: s' =>
      if member c [PIPE_; LPAREN; RPAREN; SEMI; AMP; LESS] then (c, (q + 1, s'))
      else if c =? GREATER then
        match s' with
        | d :: s'' => if d =? GREATER then (PLUS, (q + 2, s'')) else (c, (q + 1, s'))
        | [] => (c, (q + 1, s'))
        end
      else (WORD, skip is_word q s)
  end.

(** The token, its span, and [*ps] after it. *)
Definition gettoken : M ptr (Z * span) := λ st,
  let '(q, s) := skip is_ws st.1 st.2 in
  let '(ret, (eq, s)) := scan q s in
  Ret ((ret, (q, eq)), skip is_ws eq s).

Definition peek (toks : list Z) : M ptr bool := λ st,
  let st := skip is_ws st.1 st.2 in
  Ret (match st.2 with c :: _ => member c toks | [] => false end, st).

(** ** The parser *)

Fixpoint parseredirs (fuel : nat) (c : cmd) : M ptr cmd :=
  match fuel with
  | O => mspin
  | S fuel =>
      b ← peek [LESS; GREATER];
      if b : bool then
        t ← gettoken;
        u ← gettoken;
        if negb (u.1 =? WORD) then mpanic
        else
          let c :=
            if t.1 =? LESS then REDIR c u.2 O_RDONLY 0
            else if t.1 =? GREATER then
              REDIR c u.2 (Z.lor (Z.lor O_WRONLY O_CREAT) O_TRUNC) 1
            else if t.1 =? PLUS then REDIR c u.2 (Z.lor O_WRONLY O_CREAT) 1
            else c in
          parseredirs fuel c
      else mret c
  end.

(** The loop of [parseexec] over the arguments; [args] are those stored so far, and storing
    behind the end of [argv] is a fault. *)
Fixpoint parseargs (fuel : nat) (args : list span) (ret : cmd) : M ptr cmd :=
  match fuel with
  | O => mspin
  | S fuel =>
      b ← peek [PIPE_; RPAREN; AMP; SEMI];
      if b : bool then mret (fill args ret)
      else
        t ← gettoken;
        if t.1 =? 0 then mret (fill args ret)
        else if negb (t.1 =? WORD) then mpanic
        else if MAXARGS <=? zlen args then mfault
        else
          let args := args ++ [t.2] in
          if MAXARGS <=? zlen args then mpanic
          else ret ← parseredirs fuel ret; parseargs fuel args ret
  end.

(** The loop of [parseline] over [&]. *)
Fixpoint backs (fuel : nat) (c : cmd) : M ptr cmd :=
  match fuel with
  | O => mspin
  | S fuel =>
      b ← peek [AMP];
      if b : bool then gettoken;; backs fuel (BACK c) else mret c
  end.

Fixpoint parseline (fuel : nat) : M ptr cmd :=
  match fuel with
  | O => mspin
  | S fuel =>
      c ← parsepipe fuel;
      c ← backs fuel c;
      b ← peek [SEMI];
      if b : bool then gettoken;; r ← parseline fuel; mret (LIST c r) else mret c
  end
with parsepipe (fuel : nat) : M ptr cmd :=
  match fuel with
  | O => mspin
  | S fuel =>
      c ← parseexec fuel;
      b ← peek [PIPE_];
      if b : bool then gettoken;; r ← parsepipe fuel; mret (PIPE c r) else mret c
  end
with parseexec (fuel : nat) : M ptr cmd :=
  match fuel with
  | O => mspin
  | S fuel =>
      b ← peek [LPAREN];
      if b : bool then parseblock fuel
      else ret ← parseredirs fuel (EXEC []); parseargs fuel [] ret
  end
with parseblock (fuel : nat) : M ptr cmd :=
  match fuel with
  | O => mspin
  | S fuel =>
      b ← peek [LPAREN];
      if negb b then mpanic
      else
        gettoken;;
        c ← parseline fuel;
        b ← peek [RPAREN];
        if negb b then mpanic else gettoken;; parseredirs fuel c
  end.

(** [nulterminate] on the line with its end. *)
Definition put_nul (sp : span) : M (list Z) unit := λ b,
  match zset b sp.2 0 with Some b => Ret (tt, b) | None => Fault end.

Fixpoint nul_args (args : list span) : M (list Z) unit :=
  match args with
  | [] => mret tt
  | a :: args => put_nul a;; nul_args args
  end.

Fixpoint nulterminate (c : cmd) : M (list Z) unit :=
  match c with
  | EXEC args => nul_args args
  | REDIR sub file _ _ => nulterminate sub;; put_nul file
  | PIPE l r => nulterminate l;; nulterminate r
  | LIST l r => nulterminate l;; nulterminate r
  | BACK sub => nulterminate sub
  end.

(** [parsecmd] on a line; the fuel is four calls for each character. *)
Definition parsecmd (line : list Z) : outcome (cmd * list Z) :=
  match (c ← parseline (4 * length line + 5); peek [];; mret c) (0, line) with
  | Ret (c, (_, [])) =>
      match nulterminate c (line ++ [0]) with
      | Ret (_, b) => Ret (c, b)
      | _ => Fault
      end
  | Ret (_, (_, _ :: _)) => Panic
  | Panic => Panic
  | Fault => Fault
  | Spin => Spin
  end.

(** ** The strings of a command *)

Inductive tcmd :=
  | TExec (argv : list (list Z))
  | TRedir (sub : tcmd) (file : list Z) (mode fd : Z)
  | TPipe (left right : tcmd)
  | TList (left right : tcmd)
  | TBack (sub : tcmd).
#[export] Instance tcmd_eq_dec : EqDecision tcmd.
Proof. solve_decision. Defined.

(** The C string at a position of [b]. *)
Fixpoint upto_nul (b : list Z) : option (list Z) :=
  match b with
  | [] => None
  | c :: b => if c =? 0 then Some [] else cons c <$> upto_nul b
  end.
Definition string_at (b : list Z) (sp : span) : option (list Z) := upto_nul (drop (Z.to_nat sp.1) b).

Fixpoint strings (b : list Z) (c : cmd) : option tcmd :=
  match c with
  | EXEC args => TExec <$> mapM (string_at b) args
  | REDIR sub f m d => t ← strings b sub; s ← string_at b f; Some (TRedir t s m d)
  | PIPE l r => x ← strings b l; y ← strings b r; Some (TPipe x y)
  | LIST l r => x ← strings b l; y ← strings b r; Some (TList x y)
  | BACK sub => TBack <$> strings b sub
  end.

Definition s_ (t : string) : list Z := (λ a, Z.of_N (Ascii.N_of_ascii a)) <$> String.list_ascii_of_string t.

Definition parsed (line : list Z) : option tcmd :=
  match parsecmd line with Ret (c, b) => strings b c | _ => None end.

Example parse_some :
  parsed (s_ "ls -l>out|(grep x;wc)<in&; echo a") =
  Some (TList (TBack (TPipe (TRedir (TExec [s_ "ls"; s_ "-l"]) (s_ "out") 577 1)
    (TRedir (TList (TExec [s_ "grep"; s_ "x"]) (TExec [s_ "wc"])) (s_ "in") 0 0)))
    (TExec [s_ "echo"; s_ "a"])).
Proof. vm_compute. reflexivity. Qed.

(** ** The grammar of commands *)

Inductive redir := In (f : list Z) | Out (f : list Z) | App (f : list Z).

Inductive line :=
  | Line (p : pipe) (bg : nat)
  | Lines (p : pipe) (bg : nat) (l : line)
with pipe :=
  | Pipe (e : exec)
  | Pipes (e : exec) (p : pipe)
with exec :=
  | Words (rs : list redir) (args : list (list Z * list redir))
  | Block (l : line) (rs : list redir).

Inductive token := TWord (w : list Z) | TSym (c : Z).

Definition redir_file (r : redir) : list Z := match r with In f | Out f | App f => f end.
Definition redir_sym (r : redir) : Z := match r with In _ => LESS | Out _ => GREATER | App _ => PLUS end.
Definition redir_toks (rs : list redir) : list token :=
  concat ((λ r, [TSym (redir_sym r); TWord (redir_file r)]) <$> rs).
Definition args_toks (args : list (list Z * list redir)) : list token :=
  concat ((λ a, TWord a.1 :: redir_toks a.2) <$> args).

Fixpoint line_toks (l : line) : list token :=
  match l with
  | Line p bg => pipe_toks p ++ replicate bg (TSym AMP)
  | Lines p bg l => pipe_toks p ++ replicate bg (TSym AMP) ++ TSym SEMI :: line_toks l
  end
with pipe_toks (p : pipe) : list token :=
  match p with
  | Pipe e => exec_toks e
  | Pipes e p => exec_toks e ++ TSym PIPE_ :: pipe_toks p
  end
with exec_toks (e : exec) : list token :=
  match e with
  | Words rs args => redir_toks rs ++ args_toks args
  | Block l rs => TSym LPAREN :: line_toks l ++ TSym RPAREN :: redir_toks rs
  end.

(** What a line means: redirections wrap a command in their order, [&] and [;] as they stand. *)
Definition redir_mode (r : redir) : Z := match r with In _ => 0 | Out _ => 577 | App _ => 65 end.
Definition redir_fd (r : redir) : Z := match r with In _ => 0 | _ => 1 end.
Definition redirected (t : tcmd) (rs : list redir) : tcmd :=
  foldl (λ t r, TRedir t (redir_file r) (redir_mode r) (redir_fd r)) t rs.

Fixpoint line_cmd (l : line) : tcmd :=
  match l with
  | Line p bg => Nat.iter bg TBack (pipe_cmd p)
  | Lines p bg l => TList (Nat.iter bg TBack (pipe_cmd p)) (line_cmd l)
  end
with pipe_cmd (p : pipe) : tcmd :=
  match p with
  | Pipe e => exec_cmd e
  | Pipes e p => TPipe (exec_cmd e) (pipe_cmd p)
  end
with exec_cmd (e : exec) : tcmd :=
  match e with
  | Words rs args => redirected (TExec args.*1) (rs ++ concat args.*2)
  | Block l rs => redirected (line_cmd l) rs
  end.

(** At most nine words for a command. *)
Fixpoint line_ok (l : line) : Prop :=
  match l with
  | Line p _ => pipe_ok p
  | Lines p _ l => pipe_ok p ∧ line_ok l
  end
with pipe_ok (p : pipe) : Prop :=
  match p with
  | Pipe e => exec_ok e
  | Pipes e p => exec_ok e ∧ pipe_ok p
  end
with exec_ok (e : exec) : Prop :=
  match e with
  | Words _ args => zlen args < MAXARGS
  | Block l _ => line_ok l
  end.

(** ** Spelling *)

Definition stop (f : Z → bool) (s : list Z) : Prop :=
  match s with c :: _ => f c = false | [] => True end.

Definition text_of (t : token) : list Z :=
  match t with TWord w => w | TSym c => if c =? PLUS then [GREATER; GREATER] else [c] end.
Definition code_of (t : token) : Z := match t with TWord _ => WORD | TSym c => c end.

(** A token: a word of word characters, or a symbol. *)
Definition tok_wf (t : token) : Prop :=
  match t with
  | TWord w => w ≠ [] ∧ Forall (λ c, is_word c = true) w
  | TSym c => c ∈ PLUS :: symbols
  end.

(** What follows does not belong to the token. *)
Definition tok_ends (t : token) (s : list Z) : Prop :=
  match t with
  | TWord _ => stop is_word s
  | TSym c => c = GREATER → stop (Z.eqb GREATER) s
  end.

(** A text that consists of tokens, with whitespace before and behind them. *)
Inductive spelled : list token → list Z → Prop :=
  | sp_nil w : Forall (λ c, is_ws c = true) w → spelled [] w
  | sp_tok w t ts s : Forall (λ c, is_ws c = true) w → tok_wf t → tok_ends t s → spelled ts s →
      spelled (t :: ts) (w ++ text_of t ++ s).

Lemma skip_app f w r : ∀ p,
  Forall (λ c, f c = true) w → stop f r → skip f p (w ++ r) = (p + zlen w, r).
Proof.
  induction w as [|c w IH]; intros p Hw Hr.
  - rewrite Z.add_0_r. destruct r as [|c r]; [done|]. cbn in *. by rewrite Hr.
  - apply Forall_cons in Hw as [Hc Hw]. cbn. rewrite Hc, IH by done. rewrite zlen_cons. f_equal. lia.
Qed.

Lemma skip_split f s p :
  ∃ w r, s = w ++ r ∧ Forall (λ c, f c = true) w ∧ stop f r ∧ skip f p s = (p + zlen w, r).
Proof.
  assert (∃ w r, s = w ++ r ∧ Forall (λ c, f c = true) w ∧ stop f r) as (w & r & -> & Hw & Hr).
  { induction s as [|c s (w & r & -> & Hw & Hr)]; [by exists [], []|].
    destruct (f c) eqn:E; [exists (c :: w), r|exists [], (c :: w ++ r)]; by split_and!; try constructor. }
  exists w, r. split_and!; [done..|]. by apply skip_app.
Qed.

Lemma member_spec c l : member c l = true ↔ c ∈ l.
Proof.
  unfold member. rewrite existsb_exists. split.
  - intros (x & Hx & ->%Z.eqb_eq). by apply list_elem_of_In.
  - intros Hin. exists c. by rewrite Z.eqb_refl, <- list_elem_of_In.
Qed.

Lemma word_not_ws c : is_word c = true → is_ws c = false.
Proof. unfold is_word. intros [H _]%andb_prop. by apply negb_true_iff. Qed.

Lemma word_not_sym c l : is_word c = true → l ⊆ symbols → member c l = false.
Proof.
  unfold is_word. intros [_ H]%andb_prop Hl. apply negb_true_iff in H.
  apply not_true_iff_false. intros Hin%member_spec. apply not_true_iff_false in H. apply H.
  by apply member_spec, Hl.
Qed.

Lemma sym_not_ws c : c ∈ symbols → is_ws c = false ∧ is_word c = false.
Proof.
  intros Hin. split.
  - unfold symbols in Hin. repeat (apply elem_of_cons in Hin as [->|Hin]; [done|]).
    by apply not_elem_of_nil in Hin.
  - unfold is_word. rewrite (proj2 (member_spec c symbols) Hin). apply andb_false_r.
Qed.

Lemma tok_first t : tok_wf t → ∃ c u, text_of t = c :: u ∧ is_ws c = false.
Proof.
  destruct t as [w|c]; cbn.
  - intros [Hne Hw]. destruct w as [|c w]; [done|]. apply Forall_cons in Hw as [Hc _].
    exists c, w. split; [done|by apply word_not_ws].
  - intros [->|Hin]%elem_of_cons; [by eexists _, _|].
    destruct (Z.eqb_spec c PLUS) as [->|]; [by eexists _, _|]. eexists _, _. split; [done|].
    by apply sym_not_ws.
Qed.

(** Whitespace in front does not matter. *)
Lemma spelled_strip ts s w r :
  spelled ts s → s = w ++ r → Forall (λ c, is_ws c = true) w → stop is_ws r → spelled ts r.
Proof.
  intros Hs E Hw Hr. pose proof (skip_app is_ws w r 0 Hw Hr) as Ek. rewrite <- E in Ek.
  inversion Hs as [w' Hw' E1 E2|w' t ts' s' Hw' Ht He Hs' E1 E2]; subst.
  - apply Forall_app in Hw' as [_ Hr']. by constructor.
  - destruct (tok_first t Ht) as (c & u & Et & Hc). rewrite <- E2 in Ek.
    assert (stop is_ws (text_of t ++ s')) as Hst by (by rewrite Et).
    rewrite (skip_app is_ws w' _ 0 Hw' Hst) in Ek. injection Ek as _ <-.
    by apply (sp_tok []).
Qed.

(** ** Tokens read off a spelled line *)

Section tokens.
(** The line from its start. *)
Context (B : list Z).

(** A pointer into the line. *)
Definition at_line (st : ptr) : Prop := ∃ w, B = w ++ st.2 ∧ st.1 = zlen w.

Definition sees (ts : list token) (st : ptr) : Prop := at_line st ∧ spelled ts st.2.

(** A word of the line: what it is, and that it ends. *)
Definition word_at (sp : span) (x : list Z) : Prop :=
  ∃ w r, B = w ++ x ++ r ∧ sp = (zlen w, zlen w + zlen x) ∧ tok_wf (TWord x) ∧ stop is_word r.

Lemma at_app p w r : at_line (p, w ++ r) → at_line (p + zlen w, r).
Proof.
  intros (v & E & Ep). exists (v ++ w). cbn in *. split; [by rewrite E, app_assoc|].
  rewrite zlen_app. lia.
Qed.

Lemma strip_sees ts st : sees ts st → sees ts (skip is_ws st.1 st.2).
Proof.
  destruct st as [p s]. intros [Ha Hs]. cbn in *.
  destruct (skip_split is_ws s p) as (w & r & E & Hw & Hr & ->). split.
  - apply at_app. by rewrite <- E.
  - by eapply spelled_strip.
Qed.

(** After whitespace, a spelled line starts with its first token. *)
Lemma sees_first t ts st : sees (t :: ts) st →
  ∃ p s, skip is_ws st.1 st.2 = (p, text_of t ++ s) ∧ at_line (p, text_of t ++ s) ∧
    tok_wf t ∧ tok_ends t s ∧ spelled ts s.
Proof.
  destruct st as [p0 s0]. intros [Ha Hs]. inversion Hs as [|w t' ts' s Hw Ht He Hs' E1 E2]; subst.
  destruct (tok_first t Ht) as (c & u & Et & Hc). cbn in *. subst s0.
  exists (p0 + zlen w), s. split_and!; [|by apply at_app|done..]. apply skip_app; [done|by rewrite Et].
Qed.

Lemma sees_nil st : sees [] st → ∃ p, skip is_ws st.1 st.2 = (p, []) ∧ at_line (p, []).
Proof.
  destruct st as [p s]. intros [Ha Hs]. inversion Hs as [w Hw E|]; subst. cbn in *.
  exists (p + zlen s). split.
  - pose proof (skip_app is_ws s [] p Hw I) as Ek. by rewrite app_nil_r in Ek.
  - apply at_app. by rewrite app_nil_r.
Qed.

Lemma scan_sym p c s : tok_wf (TSym c) → tok_ends (TSym c) s →
  scan p (text_of (TSym c) ++ s) = (c, (p + zlen (text_of (TSym c)), s)).
Proof.
  intros Ht He. apply elem_of_cons in Ht as [->|Hin]; [done|].
  unfold symbols in Hin. repeat (apply elem_of_cons in Hin as [->|Hin]; [try done|]).
  - destruct s as [|e s]; [done|]. specialize (He eq_refl).
    change ((GREATER =? e) = false) in He. rewrite Z.eqb_sym in He.
    change ((if e =? GREATER then (PLUS, (p + 2, s)) else (62, (p + 1, e :: s))) =
      (62, (p + zlen [62], e :: s))). by rewrite He.
  - by apply not_elem_of_nil in Hin.
Qed.

Lemma scan_word p x s : tok_wf (TWord x) → stop is_word s →
  scan p (x ++ s) = (WORD, (p + zlen x, s)).
Proof.
  intros [Hne Hx] Hs. destruct x as [|c x]; [done|]. pose proof Hx as [Hc _]%Forall_cons.
  cbn [app scan]. rewrite (word_not_sym c) by (done || set_solver).
  assert ((c =? GREATER) = false) as -> by (apply Z.eqb_neq; intros ->; discriminate).
  change (c :: x ++ s) with ((c :: x) ++ s). by rewrite (skip_app is_word (c :: x) s p Hx Hs).
Qed.

Lemma gettoken_sees t ts st : sees (t :: ts) st →
  ∃ sp st', gettoken st = Ret ((code_of t, sp), st') ∧ sees ts st' ∧
    (∀ x, t = TWord x → word_at sp x).
Proof.
  intros H. destruct (sees_first t ts st H) as (p & s & Ek & Ha & Ht & He & Hs). unfold gettoken. rewrite Ek.
  assert (sees ts (p + zlen (text_of t), s)) as Hsees by (split; [by apply at_app|done]).
  destruct t as [x|c].
  - cbn [text_of code_of] in *. rewrite (scan_word p x s Ht He).
    eexists _, _. split; [reflexivity|]. split; [by apply (strip_sees ts (_, _))|].
    intros y [= <-]. destruct Ha as (w & EB & Ep). cbn in Ep. exists w, s. rewrite <- Ep.
    by split_and!.
  - cbn [code_of] in *.
    rewrite (scan_sym p c s Ht He). eexists _, _. split; [reflexivity|].
    split; [by apply (strip_sees ts (_, _))|done].
Qed.

Lemma gettoken_end st : sees [] st → ∃ sp st', gettoken st = Ret ((0, sp), st') ∧ sees [] st'.
Proof.
  intros (p & Ek & Ha)%sees_nil. unfold gettoken. rewrite Ek. eexists _, _. split; [reflexivity|].
  split; [done|by constructor].
Qed.

Definition code_next (ts : list token) : Z := match ts with t :: _ => code_of t | [] => 0 end.

Lemma gettoken_next ts st : sees ts st →
  ∃ sp st', gettoken st = Ret ((code_next ts, sp), st') ∧ sees (tail ts) st' ∧
    (∀ x ts', ts = TWord x :: ts' → word_at sp x).
Proof.
  intros H. destruct ts as [|t ts].
  - destruct (gettoken_end st H) as (sp & st' & E & H'). by exists sp, st'.
  - destruct (gettoken_sees t ts st H) as (sp & st' & E & H' & Hw). exists sp, st'. split_and!; [done..|].
    intros x ts' [= -> ->]. by apply Hw.
Qed.

(** Only a word has the token of words. *)
Lemma code_word ts st : sees ts st → code_next ts = WORD ∨ code_next ts = 0 →
  (∃ x ts', ts = TWord x :: ts') ∨ ts = [].
Proof.
  intros H Hc. destruct ts as [|[x|c] ts]; [by right|left; by exists x, ts|]. exfalso.
  destruct (sees_first _ _ _ H) as (_ & _ & _ & _ & Ht & _). cbn in Hc, Ht.
  unfold symbols in Ht. repeat (apply elem_of_cons in Ht as [->|Ht]; [destruct Hc; discriminate|]).
  by apply not_elem_of_nil in Ht.
Qed.

(** The first character of the next token, if it is a symbol. *)
Definition next_sym (ts : list token) : option Z :=
  match ts with TSym c :: _ => Some (if c =? PLUS then GREATER else c) | _ => None end.
Definition next_in (ts : list token) (toks : list Z) : bool :=
  match next_sym ts with Some c => member c toks | None => false end.

Lemma peek_sees ts st toks : sees ts st → toks ⊆ symbols →
  ∃ st', peek toks st = Ret (next_in ts toks, st') ∧ sees ts st'.
Proof.
  intros H Hin. pose proof (strip_sees _ _ H) as Hst. unfold peek, next_in, next_sym.
  destruct ts as [|t ts].
  - destruct (sees_nil _ H) as (p & Ek & _). rewrite Ek in *. by eexists.
  - destruct (sees_first _ _ _ H) as (p & s & Ek & _ & Ht & _). rewrite Ek in *. eexists. split; [|done].
    do 2 f_equal. cbn [snd]. destruct t as [x|c]; cbn [text_of].
    + destruct Ht as [Hne Hx]. destruct x as [|c x]; [done|]. apply Forall_cons in Hx as [Hc _].
      cbn. by apply word_not_sym.
    + by destruct (c =? PLUS).
Qed.

(** ** What a parsed command stands for *)

Inductive denotes : cmd → tcmd → Prop :=
  | den_exec args xs : Forall2 word_at args xs → denotes (EXEC args) (TExec xs)
  | den_redir c t f x m d : denotes c t → word_at f x → denotes (REDIR c f m d) (TRedir t x m d)
  | den_pipe c1 t1 c2 t2 : denotes c1 t1 → denotes c2 t2 → denotes (PIPE c1 c2) (TPipe t1 t2)
  | den_list c1 t1 c2 t2 : denotes c1 t1 → denotes c2 t2 → denotes (LIST c1 c2) (TList t1 t2)
  | den_back c t : denotes c t → denotes (BACK c) (TBack t).

(** Redirections around a command. *)
Definition wrap (rs : list (span * Z * Z)) (c : cmd) : cmd :=
  foldl (λ c x, REDIR c x.1.1 x.1.2 x.2) c rs.
Definition redir_at (x : span * Z * Z) (r : redir) : Prop :=
  word_at x.1.1 (redir_file r) ∧ x.1.2 = redir_mode r ∧ x.2 = redir_fd r.

Lemma denotes_wrap rs' rs : ∀ c t,
  Forall2 redir_at rs' rs → denotes c t → denotes (wrap rs' c) (redirected t rs).
Proof.
  revert rs. induction rs' as [|[[f m] d] rs' IH]; intros rs c t H Hc.
  - apply Forall2_nil_inv_l in H as ->. exact Hc.
  - apply Forall2_cons_inv_l in H as (r & rs2 & (Hw & Hm & Hd) & Hr & ->). cbn in *. subst m d.
    apply IH; [done|]. by constructor.
Qed.

Lemma wrap_app rs1 rs2 c : wrap (rs1 ++ rs2) c = wrap rs2 (wrap rs1 c).
Proof. apply foldl_app. Qed.

Lemma fill_wrap args rs c : fill args (wrap rs c) = wrap rs (fill args c).
Proof. revert c. induction rs as [|r rs IH]; intros c; [done|].
  exact (IH (REDIR c r.1.1 r.1.2 r.2)).
Qed.

(** ** Redirections *)

Lemma redir_toks_cons r rs :
  redir_toks (r :: rs) = TSym (redir_sym r) :: TWord (redir_file r) :: redir_toks rs.
Proof. done. Qed.

Lemma redir_toks_length rs : (length rs ≤ length (redir_toks rs))%nat.
Proof. induction rs as [|r rs IH]; [done|]. rewrite redir_toks_cons. cbn. lia. Qed.

(** One turn of [parseredirs]. *)
Lemma redir_step fuel c st r ts :
  sees (TSym (redir_sym r) :: TWord (redir_file r) :: ts) st →
  ∃ x st', parseredirs (S fuel) c st = parseredirs fuel (REDIR c x.1.1 x.1.2 x.2) st' ∧
    redir_at x r ∧ sees ts st'.
Proof.
  intros H. cbn [parseredirs].
  destruct (peek_sees _ _ [LESS; GREATER] H) as (st1 & E1 & H1); [set_solver|].
  destruct (gettoken_sees _ _ _ H1) as (sp1 & st2 & E2 & H2 & _).
  destruct (gettoken_sees _ _ _ H2) as (sp & st3 & E3 & H3 & Hw). specialize (Hw _ eq_refl).
  exists (sp, redir_mode r, redir_fd r), st3. split; [|by split].
  mstep E1. replace (next_in _ _) with true by (by destruct r). mstep E2. mstep E3.
  cbn [fst snd code_of negb Z.eqb]. by destruct r.
Qed.

Lemma redirs_end fuel c st ts : sees ts st → next_in ts [LESS; GREATER] = false →
  ∃ st', parseredirs (S fuel) c st = Ret (c, st') ∧ sees ts st'.
Proof.
  intros H Hn. cbn [parseredirs].
  destruct (peek_sees _ _ [LESS; GREATER] H) as (st1 & E1 & H1); [set_solver|].
  exists st1. split; [|done]. mstep E1. by rewrite Hn.
Qed.

Lemma redirs_complete rs : ∀ ts st c fuel,
  sees (redir_toks rs ++ ts) st → next_in ts [LESS; GREATER] = false → (length rs < fuel)%nat →
  ∃ rs' st', parseredirs fuel c st = Ret (wrap rs' c, st') ∧ Forall2 redir_at rs' rs ∧ sees ts st'.
Proof.
  induction rs as [|r rs IH]; intros ts st c [|fuel] H Hn Hf; cbn in Hf; try lia.
  - destruct (redirs_end fuel c st ts H Hn) as (st' & E & H'). by exists [], st'.
  - rewrite redir_toks_cons in H. cbn [app] in H.
    destruct (redir_step fuel c st r _ H) as (x & st' & -> & Hx & H').
    destruct (IH ts st' (REDIR c x.1.1 x.1.2 x.2) fuel H' Hn) as (rs' & st2 & E & Hrs & H2); [lia|].
    exists (x :: rs'), st2. split_and!; [done|by constructor|done].
Qed.

(** Every result of a parser is an error or comes from the grammar. *)
Definition result_of {X} (toks : X → list token) (P : X → cmd → Prop) (ts : list token)
    (o : outcome (cmd * ptr)) : Prop :=
  o = Panic ∨ ∃ c st' x ts', o = Ret (c, st') ∧ ts = toks x ++ ts' ∧ P x c ∧ sees ts' st'.

(** A symbol that starts a redirection is one of three. *)
Lemma next_redir ts st : sees ts st → next_in ts [LESS; GREATER] = true →
  ∃ c ts', ts = TSym c :: ts' ∧ (c = LESS ∨ c = GREATER ∨ c = PLUS).
Proof.
  intros H Hn. destruct ts as [|[w|c] ts]; [done..|]. exists c, ts. split; [done|].
  unfold next_in, next_sym in Hn. apply member_spec in Hn.
  destruct (Z.eqb_spec c PLUS); [by right; right|].
  apply elem_of_cons in Hn as [->|Hn]; [by left|]. apply list_elem_of_singleton in Hn as ->. by right; left.
Qed.

Lemma redirs_sound fuel : ∀ ts st c, sees ts st → (length ts < fuel)%nat →
  result_of redir_toks (λ rs c', ∃ rs', c' = wrap rs' c ∧ Forall2 redir_at rs' rs) ts
    (parseredirs fuel c st).
Proof.
  induction fuel as [|fuel IH]; intros ts st c H Hf; [lia|].
  destruct (next_in ts [LESS; GREATER]) eqn:En.
  - destruct (next_redir _ _ H En) as (s & ts1 & -> & Hs).
    destruct (decide (code_next ts1 = WORD)) as [Ew|Hnw].
    + destruct (gettoken_sees _ _ _ H) as (_ & st1 & _ & H1 & _).
      destruct (code_word ts1 st1 H1) as [(w & ts2 & ->)| ->]; [by left| |done]. clear st1 H1.
      assert (∃ r, s = redir_sym r ∧ w = redir_file r) as (r & -> & ->).
      { destruct Hs as [->|[->| ->]]; [by exists (In w)|by exists (Out w)|by exists (App w)]. }
      destruct (redir_step fuel c st r _ H) as (x & st' & -> & Hx & H').
      destruct (IH ts2 st' (REDIR c x.1.1 x.1.2 x.2) H') as
        [Ep|(c' & st2 & rs & ts' & E & -> & (rs' & -> & Hrs) & H2)]; [cbn in Hf; lia|by left|].
      right. exists (wrap (x :: rs') c), st2, (r :: rs), ts'. split_and!; [done|done| |done].
      exists (x :: rs'). split; [done|by constructor].
    + left. cbn [parseredirs].
      destruct (peek_sees _ _ [LESS; GREATER] H) as (st1 & E1 & H1); [set_solver|]. rewrite En in E1.
      destruct (gettoken_next _ _ H1) as (sp1 & st2 & E2 & H2 & _).
      destruct (gettoken_next _ _ H2) as (sp3 & st3 & E3 & _). cbn [tail] in E3.
      mstep E1. mstep E2. mstep E3. cbn [fst]. by rewrite (proj2 (Z.eqb_neq _ _)).
  - destruct (redirs_end fuel c st ts H En) as (st' & E & H'). right.
    exists c, st', [], ts. split_and!; [done|done|by exists []|done].
Qed.

(** ** Arguments *)

(** What may follow the words of a command. *)
Definition after_words (ts : list token) : Prop :=
  ts = [] ∨ next_in ts [PIPE_; RPAREN; AMP; SEMI] = true.

Lemma after_words_redir ts : after_words ts → next_in ts [LESS; GREATER] = false.
Proof.
  unfold after_words, next_in. intros [->|H]; [done|]. destruct (next_sym ts) as [c|]; [|done].
  apply member_spec in H. repeat (apply elem_of_cons in H as [->|H]; [done|]).
  by apply not_elem_of_nil in H.
Qed.

Lemma args_toks_cons a args : args_toks (a :: args) = TWord a.1 :: redir_toks a.2 ++ args_toks args.
Proof. done. Qed.

Lemma args_redir args ts : after_words ts → next_in (args_toks args ++ ts) [LESS; GREATER] = false.
Proof. destruct args; [apply after_words_redir|done]. Qed.

(** The end of the arguments. *)
Lemma args_end fuel done rs st ts : sees ts st → after_words ts →
  ∃ st', parseargs (S fuel) done (wrap rs (EXEC [])) st = Ret (wrap rs (EXEC done), st') ∧ sees ts st'.
Proof.
  intros H Ha. cbn [parseargs].
  destruct (peek_sees _ _ [PIPE_; RPAREN; AMP; SEMI] H) as (st1 & E1 & H1); [set_solver|].
  destruct Ha as [->|Hn].
  - destruct (gettoken_end _ H1) as (sp & st2 & E2 & H2). exists st2. split; [|done].
    mstep E1. cbn [next_in next_sym]. mstep E2. by rewrite fill_wrap.
  - exists st1. split; [|done]. mstep E1. rewrite Hn. by rewrite fill_wrap.
Qed.

(** One argument with room for it: the word is stored and its redirections are read. *)
Lemma args_step fuel args c st w ts :
  sees (TWord w :: ts) st →
  ∃ sp st', parseargs (S fuel) args c st =
      (if MAXARGS <=? zlen args then Fault
       else if MAXARGS <=? zlen (args ++ [sp]) then Panic
       else (ret ← parseredirs fuel c; parseargs fuel (args ++ [sp]) ret) st') ∧
    word_at sp w ∧ sees ts st'.
Proof.
  intros H. cbn [parseargs].
  destruct (peek_sees _ _ [PIPE_; RPAREN; AMP; SEMI] H) as (st1 & E1 & H1); [set_solver|].
  destruct (gettoken_sees _ _ _ H1) as (sp & st2 & E2 & H2 & Hw). exists sp, st2.
  split; [|split; [by apply Hw|done]].
  rewrite (mbind_Ret _ _ _ _ _ E1). cbn [next_in next_sym]. rewrite (mbind_Ret _ _ _ _ _ E2).
  cbn [fst snd code_of]. by destruct (MAXARGS <=? zlen args), (MAXARGS <=? zlen (args ++ [sp])).
Qed.

Lemma args_complete args : ∀ ts st done rs0 fuel,
  sees (args_toks args ++ ts) st → after_words ts → zlen done + zlen args < MAXARGS →
  (length (args_toks args) < fuel)%nat →
  ∃ args' rs' st', parseargs fuel done (wrap rs0 (EXEC [])) st =
      Ret (wrap (rs0 ++ rs') (EXEC (done ++ args')), st') ∧
    Forall2 word_at args' args.*1 ∧ Forall2 redir_at rs' (concat args.*2) ∧ sees ts st'.
Proof.
  induction args as [|a args IH]; intros ts st done rs0 [|fuel] H Ha Hn Hf; try (cbn in Hf; lia).
  - destruct (args_end fuel done rs0 st ts H Ha) as (st' & E & H'). exists [], [], st'.
    rewrite !app_nil_r. by split_and!.
  - rewrite args_toks_cons in H, Hf. cbn [app] in H. cbn in Hf. rewrite length_app in Hf.
    destruct (args_step fuel done (wrap rs0 (EXEC [])) st _ _ H) as (sp & st1 & -> & Hw & H1).
    pose proof (zlen_nonneg args). rewrite zlen_cons in Hn. rewrite zlen_app. change (zlen [sp]) with 1.
    rewrite (proj2 (Z.leb_gt _ _)), (proj2 (Z.leb_gt _ _)) by lia.
    rewrite <- app_assoc in H1.
    destruct (redirs_complete a.2 _ st1 (wrap rs0 (EXEC [])) fuel H1 (args_redir args ts Ha))
      as (rs1 & st2 & E2 & Hrs & H2).
    { pose proof (redir_toks_length a.2). lia. }
    mstep E2. rewrite <- wrap_app.
    destruct (IH ts st2 (done ++ [sp]) (rs0 ++ rs1) fuel H2 Ha) as (args' & rs' & st' & E & Hargs & Hrs' & H').
    { rewrite zlen_app. change (zlen [sp]) with 1. lia. }
    { lia. }
    exists (sp :: args'), (rs1 ++ rs'), st'. rewrite E, <- !app_assoc. cbn. split_and!; [done|by constructor| |done].
    by apply Forall2_app.
Qed.

Lemma args_sound fuel : ∀ ts st done rs0,
  sees ts st → zlen done < MAXARGS → (length ts < fuel)%nat →
  result_of args_toks (λ args c, zlen done + zlen args < MAXARGS ∧ ∃ args' rs',
      c = wrap (rs0 ++ rs') (EXEC (done ++ args')) ∧
      Forall2 word_at args' args.*1 ∧ Forall2 redir_at rs' (concat args.*2)) ts
    (parseargs fuel done (wrap rs0 (EXEC [])) st).
Proof.
  induction fuel as [|fuel IH]; intros ts st done rs0 H Hd Hf; [lia|].
  destruct (decide (after_words ts)) as [Ha|Hna].
  { destruct (args_end fuel done rs0 st ts H Ha) as (st' & E & H'). right.
    exists (wrap rs0 (EXEC done)), st', [], ts. do 2 (split; [done|]). split; [|done].
    split; [by rewrite Z.add_0_r|]. exists [], []. rewrite !app_nil_r. by split_and!. }
  destruct ts as [|[w|c] ts].
  - destruct Hna. by left.
  - destruct (args_step fuel done (wrap rs0 (EXEC [])) st _ _ H) as (sp & st1 & -> & Hw & H1).
    rewrite (proj2 (Z.leb_gt _ _)) by lia. cbn in Hf.
    destruct (Z.leb_spec MAXARGS (zlen (done ++ [sp]))); [by left|].
    destruct (redirs_sound fuel ts st1 (wrap rs0 (EXEC [])) H1) as
      [Ep|(c1 & st2 & rs & ts2 & E2 & -> & (rs1 & -> & Hrs) & H2)]; [lia|left; by munfold; rewrite Ep|].
    mstep E2. rewrite <- wrap_app. rewrite length_app in Hf.
    destruct (IH ts2 st2 (done ++ [sp]) (rs0 ++ rs1) H2) as
      [Ep|(c & st' & args & ts' & E & -> & (Hn & args' & rs' & -> & Hargs & Hrs') & H')]; [done|lia|by left|].
    right. exists (wrap ((rs0 ++ rs1) ++ rs') (EXEC ((done ++ [sp]) ++ args'))), st', ((w, rs) :: args), ts'.
    rewrite zlen_app in Hn. rewrite zlen_cons. split; [done|]. split; [|split; [|done]].
    + rewrite args_toks_cons. cbn. by rewrite <- app_assoc.
    + split; [change (zlen [sp]) with 1 in Hn; lia|]. exists (sp :: args'), (rs1 ++ rs').
      rewrite <- !app_assoc. cbn. split_and!; [done|by constructor|by apply Forall2_app].
  - left. cbn [parseargs].
    destruct (peek_sees _ _ [PIPE_; RPAREN; AMP; SEMI] H) as (st1 & E1 & H1); [set_solver|].
    destruct (gettoken_next _ _ H1) as (sp & st2 & E2 & H2 & _).
    assert (next_in (TSym c :: ts) [PIPE_; RPAREN; AMP; SEMI] = false) as En.
    { apply not_true_iff_false. intros E. apply Hna. by right. }
    mstep E1. rewrite En. mstep E2. cbn [fst].
    assert (code_next (TSym c :: ts) ≠ WORD ∧ code_next (TSym c :: ts) ≠ 0) as [Hw H0].
    { split; intros Ec; destruct (code_word _ _ H1) as [(x & ts' & ?)|?]; try done; by (left + right). }
    by rewrite (proj2 (Z.eqb_neq _ _) H0), (proj2 (Z.eqb_neq _ _) Hw).
Qed.

(** ** Lines, pipes and commands *)

Scheme line_mut := Induction for line Sort Prop
  with pipe_mut := Induction for pipe Sort Prop
  with exec_mut := Induction for exec Sort Prop.
Combined Scheme grammar_ind from line_mut, pipe_mut, exec_mut.

Definition after_pipe (ts : list token) : Prop := ts = [] ∨ next_in ts [RPAREN; AMP; SEMI] = true.
Definition after_line (ts : list token) : Prop := ts = [] ∨ next_in ts [RPAREN] = true.

(** What may follow excludes other first symbols. *)
Lemma next_mono ts l1 l2 : l1 ⊆ l2 → next_in ts l1 = true → next_in ts l2 = true.
Proof.
  unfold next_in. destruct (next_sym ts); [|done]. rewrite !member_spec. set_solver.
Qed.
Lemma next_excl ts l1 l2 : (∀ c, c ∈ l1 → c ∉ l2) → next_in ts l1 = true → next_in ts l2 = false.
Proof.
  unfold next_in. destruct (next_sym ts); [|done]. intros H Hin%member_spec%H.
  apply not_true_iff_false. by rewrite member_spec.
Qed.

Lemma after_line_pipe ts : after_line ts → after_pipe ts.
Proof. intros [->|H]; [by left|right]. eapply next_mono; [|done]. set_solver. Qed.
Lemma after_pipe_words ts : after_pipe ts → after_words ts.
Proof. intros [->|H]; [by left|right]. eapply next_mono; [|done]. set_solver. Qed.

Lemma symbols_apart l1 l2 ts : forallb (λ c, negb (member c l2)) l1 = true →
  ts = [] ∨ next_in ts l1 = true → next_in ts l2 = false.
Proof.
  intros Hl [->|H]; [done|]. eapply next_excl; [|done]. intros c Hc Hin.
  rewrite forallb_forall in Hl. specialize (Hl c (proj1 (list_elem_of_In _ _) Hc)).
  rewrite (proj2 (member_spec c l2) Hin) in Hl. done.
Qed.

Lemma backs_step fuel c st ts : sees (TSym AMP :: ts) st →
  ∃ st', backs (S fuel) c st = backs fuel (BACK c) st' ∧ sees ts st'.
Proof.
  intros H. cbn [backs]. destruct (peek_sees _ _ [AMP] H) as (st1 & E1 & H1); [set_solver|].
  destruct (gettoken_sees _ _ _ H1) as (sp & st2 & E2 & H2 & _). exists st2. split; [|done].
  rewrite (mbind_Ret _ _ _ _ _ E1). change (next_in (TSym AMP :: ts) [AMP]) with true. cbv iota.
  by rewrite (mbind_Ret _ _ _ _ _ E2).
Qed.

Lemma backs_end fuel c st ts : sees ts st → next_in ts [AMP] = false →
  ∃ st', backs (S fuel) c st = Ret (c, st') ∧ sees ts st'.
Proof.
  intros H Hn. cbn [backs]. destruct (peek_sees _ _ [AMP] H) as (st1 & E1 & H1); [set_solver|].
  exists st1. split; [|done]. mstep E1. by rewrite Hn.
Qed.

Lemma backs_complete n : ∀ ts st c fuel,
  sees (replicate n (TSym AMP) ++ ts) st → next_in ts [AMP] = false → (n < fuel)%nat →
  ∃ st', backs fuel c st = Ret (Nat.iter n BACK c, st') ∧ sees ts st'.
Proof.
  induction n as [|n IH]; intros ts st c [|fuel] H Hn Hf; try lia; [by apply backs_end|].
  destruct (backs_step fuel c st _ H) as (st1 & -> & H1).
  destruct (IH ts st1 (BACK c) fuel H1 Hn) as (st' & E & H'); [lia|]. exists st'.
  by rewrite Nat.iter_succ_r.
Qed.

Lemma backs_sound fuel : ∀ ts st c, sees ts st → (length ts < fuel)%nat →
  ∃ n ts' st', ts = replicate n (TSym AMP) ++ ts' ∧ next_in ts' [AMP] = false ∧
    backs fuel c st = Ret (Nat.iter n BACK c, st') ∧ sees ts' st'.
Proof.
  induction fuel as [|fuel IH]; intros ts st c H Hf; [lia|].
  destruct (next_in ts [AMP]) eqn:En.
  - assert (∃ ts1, ts = TSym AMP :: ts1) as (ts1 & ->).
    { unfold next_in, next_sym in En. destruct ts as [|[w|d] ts]; [done..|].
      apply member_spec, list_elem_of_singleton in En. exists ts.
      by destruct (Z.eqb_spec d PLUS); [discriminate|subst]. }
    destruct (backs_step fuel c st _ H) as (st1 & -> & H1). cbn in Hf.
    destruct (IH ts1 st1 (BACK c) H1) as (n & ts' & st' & -> & Hn & E & H'); [lia|].
    exists (S n), ts', st'. by rewrite Nat.iter_succ_r.
  - destruct (backs_end fuel c st ts H En) as (st' & E & H'). by exists 0%nat, ts, st'.
Qed.

Lemma denotes_backs n c t : denotes c t → denotes (Nat.iter n BACK c) (Nat.iter n TBack t).
Proof. intros H. induction n as [|n IH]; [done|]. cbn. by constructor. Qed.

(** A symbol that is peeked for and then read. *)
Lemma next_one ts c : next_in ts [c] = true → c ≠ GREATER → ∃ ts', ts = TSym c :: ts'.
Proof.
  intros Hn Hg. unfold next_in, next_sym in Hn. destruct ts as [|[w|d] ts]; [done..|].
  apply member_spec, list_elem_of_singleton in Hn. exists ts.
  destruct (Z.eqb_spec d PLUS); by subst.
Qed.

(** The words of a command that has no parenthesis. *)
Lemma words_complete rs args ts st fuel :
  sees (redir_toks rs ++ args_toks args ++ ts) st → after_words ts → zlen args < MAXARGS →
  (length (redir_toks rs ++ args_toks args) < fuel)%nat →
  ∃ c st', parseexec (S fuel) st = Ret (c, st') ∧ denotes c (exec_cmd (Words rs args)) ∧ sees ts st'.
Proof.
  intros H Ha Hn Hf. rewrite length_app in Hf. pose proof (redir_toks_length rs). cbn [parseexec].
  destruct (peek_sees _ _ [LPAREN] H) as (st1 & E1 & H1); [set_solver|].
  assert (next_in (redir_toks rs ++ args_toks args ++ ts) [LPAREN] = false) as En.
  { destruct rs as [|[] rs]; [|done..]. destruct args; [|done]. by eapply symbols_apart; [|exact Ha]. }
  rewrite En in E1.
  destruct (redirs_complete rs _ st1 (EXEC []) fuel H1 (args_redir args ts Ha)) as (rs' & st2 & E2 & Hrs & H2);
    [lia|].
  destruct (args_complete args ts st2 [] rs' fuel H2 Ha) as (args' & rs2 & st3 & E3 & Hargs & Hrs2 & H3);
    [done|lia|].
  exists (wrap (rs' ++ rs2) (EXEC ([] ++ args'))), st3. split_and!; [by mstep E1; mstep E2| |done].
  cbn [exec_cmd]. apply denotes_wrap; [by apply Forall2_app|]. by constructor.
Qed.

(** A symbol that the parser peeks for and takes. *)
Lemma take_sym {A} (k : M ptr A) st c ts :
  sees (TSym c :: ts) st → ∃ st', (gettoken;; k) st = k st' ∧ sees ts st'.
Proof.
  intros H. destruct (gettoken_sees _ _ _ H) as (sp & st' & E & H' & _). exists st'. by mstep E.
Qed.

Lemma peek_run {A} toks (k : bool → M ptr A) st ts b :
  sees ts st → toks ⊆ symbols → next_in ts toks = b →
  ∃ st', (peek toks ≫= k) st = k b st' ∧ sees ts st'.
Proof.
  intros H Ht <-. destruct (peek_sees _ _ toks H Ht) as (st' & E & H'). exists st'. by mstep E.
Qed.

Ltac do_peek b H st H' :=
  match goal with |- context [(peek ?t ≫= ?k) ?st0] =>
    destruct (peek_run t k st0 _ b H) as (st & -> & H'); [set_solver| |] end.
Ltac do_take H st H' :=
  cbv iota; match goal with |- context [(gettoken ≫= ?k) ?st0] =>
    destruct (take_sym (k (0, (0, 0))) st0 _ _ H) as (st & -> & H') end.

Lemma parse_complete :
  (∀ l ts st fuel, line_ok l → sees (line_toks l ++ ts) st → after_line ts →
     (4 * length (line_toks l) + 5 ≤ fuel)%nat →
     ∃ c st', parseline fuel st = Ret (c, st') ∧ denotes c (line_cmd l) ∧ sees ts st') ∧
  (∀ p ts st fuel, pipe_ok p → sees (pipe_toks p ++ ts) st → after_pipe ts →
     (4 * length (pipe_toks p) + 4 ≤ fuel)%nat →
     ∃ c st', parsepipe fuel st = Ret (c, st') ∧ denotes c (pipe_cmd p) ∧ sees ts st') ∧
  (∀ e ts st fuel, exec_ok e → sees (exec_toks e ++ ts) st → after_words ts →
     (4 * length (exec_toks e) + 3 ≤ fuel)%nat →
     ∃ c st', parseexec fuel st = Ret (c, st') ∧ denotes c (exec_cmd e) ∧ sees ts st').
Proof.
  apply grammar_ind.
  - intros p IHp bg ts st [|fuel] Hok H Ha Hf; [lia|]. cbn [line_toks] in H, Hf.
    rewrite <- app_assoc in H. rewrite length_app, length_replicate in Hf. cbn [parseline].
    destruct (IHp (replicate bg (TSym AMP) ++ ts) st fuel Hok H) as (c & st1 & E1 & Hc & H1); [|lia|].
    { destruct bg; [by apply after_line_pipe|by right]. }
    mstep E1. destruct (backs_complete bg ts st1 c fuel H1) as (st2 & E2 & H2);
      [by eapply symbols_apart; [|exact Ha]|lia|]. mstep E2.
    do_peek false H2 st3 H3; [by eapply symbols_apart; [|exact Ha]|].
    eexists _, _. split_and!; [done|by apply denotes_backs|done].
  - intros p IHp bg l IHl ts st [|fuel] [Hok Hok'] H Ha Hf; [lia|]. cbn [line_toks] in H, Hf.
    rewrite <- !app_assoc in H. rewrite !length_app, length_replicate in Hf. cbn in Hf. cbn [parseline].
    destruct (IHp _ st fuel Hok H) as (c & st1 & E1 & Hc & H1); [|lia|].
    { right. by destruct bg. }
    mstep E1. destruct (backs_complete bg _ st1 c fuel H1) as (st2 & E2 & H2); [done|lia|]. mstep E2.
    do_peek true H2 st3 H3; [done|].
    do_take H3 st4 H4.
    destruct (IHl ts st4 fuel Hok' H4 Ha) as (r & st5 & E5 & Hr & H5); [lia|]. mstep E5.
    eexists _, _. split_and!; [done| |done]. constructor; [by apply denotes_backs|done].
  - intros e IHe ts st [|fuel] Hok H Ha Hf; [lia|]. cbn [pipe_toks parsepipe] in *.
    destruct (IHe ts st fuel Hok H) as (c & st1 & E1 & Hc & H1); [by apply after_pipe_words|lia|]. mstep E1.
    do_peek false H1 st3 H3; [by eapply symbols_apart; [|exact Ha]|].
    by eexists _, _.
  - intros e IHe p IHp ts st [|fuel] [Hok Hok'] H Ha Hf; [lia|]. cbn [pipe_toks parsepipe] in *.
    rewrite <- app_assoc in H. rewrite length_app in Hf. cbn in Hf.
    destruct (IHe _ st fuel Hok H) as (c & st1 & E1 & Hc & H1); [by right|lia|]. mstep E1.
    do_peek true H1 st3 H3; [done|].
    do_take H3 st4 H4.
    destruct (IHp ts st4 fuel Hok' H4 Ha) as (r & st5 & E5 & Hr & H5); [lia|]. mstep E5.
    eexists _, _. split_and!; [done|by constructor|done].
  - intros rs args ts st [|fuel] Hok H Ha Hf; [lia|]. cbn [exec_toks] in H, Hf. rewrite <- app_assoc in H.
    apply words_complete; [done..|lia].
  - intros l IHl rs ts st [|[|fuel]] Hok H Ha Hf; [lia|cbn in Hf; lia|].
    cbn [exec_toks] in H, Hf. cbn in Hf. rewrite length_app in Hf. cbn in Hf.
    cbn [app] in H. rewrite <- app_assoc in H. cbn [app] in H.
    pose proof (redir_toks_length rs). cbn [parseexec parseblock].
    do_peek true H st1 H1; [done|].
    do_peek true H1 st2 H2; [done|]. cbn [negb].
    do_take H2 st3 H3.
    destruct (IHl _ st3 fuel Hok H3) as (c & st4 & E4 & Hc & H4); [by right|lia|]. mstep E4.
    do_peek true H4 st5 H5; [done|]. cbn [negb].
    do_take H5 st6 H6.
    destruct (redirs_complete rs ts st6 c fuel H6 (after_words_redir _ Ha)) as (rs' & st7 & E7 & Hrs & H7); [lia|].
    eexists _, _. split_and!; [done|by apply denotes_wrap|done].
Qed.

(** ** Whatever the parser accepts comes from the grammar *)

Lemma result_bind {X Y} (tx : X → list token) (ty : Y → list token) P Q ts (m : M ptr cmd)
    (k : cmd → M ptr cmd) st :
  result_of tx P ts (m st) →
  (∀ c st' x ts', ts = tx x ++ ts' → P x c → sees ts' st' → result_of ty Q ts (k c st')) →
  result_of ty Q ts ((m ≫= k) st).
Proof.
  intros [E|(c & st' & x & ts' & E & Ets & HP & Hs)] Hk.
  - left. munfold. by rewrite E.
  - rewrite (mbind_Ret _ _ _ _ _ E). by eapply Hk.
Qed.

Lemma result_ret {X} (tx : X → list token) (P : X → cmd → Prop) ts c st x ts' :
  ts = tx x ++ ts' → P x c → sees ts' st → result_of tx P ts (Ret (c, st)).
Proof. right. by exists c, st, x, ts'. Qed.

(** A parser that runs on the rest of the tokens. *)
Lemma result_more {X Y} (tx : X → list token) (ty : Y → list token) (P : X → cmd → Prop)
    (Q : Y → cmd → Prop) pre ts (f : X → Y) (g : cmd → cmd) (m : M ptr cmd) st :
  result_of tx P ts (m st) → (∀ x, pre ++ tx x = ty (f x)) → (∀ x c, P x c → Q (f x) (g c)) →
  result_of ty Q (pre ++ ts) ((c ← m; mret (g c)) st).
Proof.
  intros [E|(c & st' & x & ts' & E & -> & HP & Hs)] Ht HQ.
  - left. munfold. by rewrite E.
  - mstep E. eapply (result_ret ty Q _ _ _ (f x)); [by rewrite app_assoc, Ht|by apply HQ|done].
Qed.

Definition line_res (l : line) (c : cmd) : Prop := line_ok l ∧ denotes c (line_cmd l).
Definition pipe_res (p : pipe) (c : cmd) : Prop := pipe_ok p ∧ denotes c (pipe_cmd p).
Definition exec_res (e : exec) (c : cmd) : Prop := exec_ok e ∧ denotes c (exec_cmd e).

Lemma words_sound fuel ts st :
  sees ts st → (length ts < fuel)%nat →
  result_of exec_toks exec_res ts ((ret ← parseredirs fuel (EXEC []); parseargs fuel [] ret) st).
Proof.
  intros H Hf. eapply result_bind; [by apply redirs_sound|].
  intros c st1 rs ts1 -> (rs' & -> & Hrs) H1. rewrite length_app in Hf.
  destruct (args_sound fuel ts1 st1 [] rs' H1) as
    [E|(c & st2 & args & ts2 & E & -> & (Hn & args' & rs2 & -> & Hargs & Hrs2) & H2)]; [done|lia|by left|].
  rewrite E. eapply (result_ret _ _ _ _ _ (Words rs args)); [|split; [done|]|done].
  - cbn. by rewrite app_assoc.
  - cbn [exec_cmd]. apply denotes_wrap; [by apply Forall2_app|]. by constructor.
Qed.

Lemma parse_sound fuel :
  (∀ ts st, sees ts st → (4 * length ts + 5 ≤ fuel)%nat →
     result_of line_toks line_res ts (parseline fuel st)) ∧
  (∀ ts st, sees ts st → (4 * length ts + 4 ≤ fuel)%nat →
     result_of pipe_toks pipe_res ts (parsepipe fuel st)) ∧
  (∀ ts st, sees ts st → (4 * length ts + 3 ≤ fuel)%nat →
     result_of exec_toks exec_res ts (parseexec fuel st)) ∧
  (∀ ts st, sees ts st → (4 * length ts + 2 ≤ fuel)%nat → next_in ts [LPAREN] = true →
     result_of exec_toks exec_res ts (parseblock fuel st)).
Proof.
  induction fuel as [|fuel (IHl & IHp & IHe & IHb)]; [split_and!; intros; lia|].
  split_and!; intros ts st H Hf; cbn [parseline parsepipe parseexec parseblock].
  - eapply result_bind; [apply IHp; [done|lia]|]. intros c st1 p ts1 -> [Hok Hc] H1.
    rewrite length_app in Hf.
    destruct (backs_sound fuel ts1 st1 c H1) as (n & ts2 & st2 & -> & Hn & E2 & H2); [lia|]. mstep E2.
    rewrite length_app in Hf. destruct (next_in ts2 [SEMI]) eqn:En.
    + do_peek true H2 st3 H3; [done|]. destruct (next_one _ _ En) as (ts3 & ->); [done|].
      do_take H3 st4 H4. cbn in Hf. rewrite app_assoc, (cons_middle (TSym SEMI)), app_assoc.
      eapply (result_more _ _ _ _ _ _ (Lines p n)); [apply IHl; [exact H4|lia]| |].
      * intros l. cbn. by rewrite <- !app_assoc.
      * intros l r [Hl Hr]. split; [done|]. constructor; [by apply denotes_backs|done].
    + do_peek false H2 st3 H3; [done|]. eapply (result_ret _ _ _ _ _ (Line p n)); [|split; [done|]|done].
      * cbn. by rewrite app_assoc.
      * by apply denotes_backs.
  - eapply result_bind; [apply IHe; [done|lia]|]. intros c st1 e ts1 -> [Hok Hc] H1.
    rewrite length_app in Hf. destruct (next_in ts1 [PIPE_]) eqn:En.
    + do_peek true H1 st2 H2; [done|]. destruct (next_one _ _ En) as (ts2 & ->); [done|].
      do_take H2 st3 H3. cbn in Hf. rewrite (cons_middle (TSym PIPE_)), app_assoc.
      eapply (result_more _ _ _ _ _ _ (Pipes e)); [apply IHp; [exact H3|lia]| |].
      * intros p. cbn. by rewrite <- app_assoc.
      * intros p r [Hp Hr]. split; [done|]. by constructor.
    + do_peek false H1 st2 H2; [done|]. by eapply (result_ret _ _ _ _ _ (Pipe e)).
  - destruct (next_in ts [LPAREN]) eqn:En.
    + do_peek true H st1 H1; [done|]. apply IHb; [done|lia|done].
    + do_peek false H st1 H1; [done|]. apply words_sound; [done|lia].
  - intros En. do_peek true H st1 H1; [done|]. cbn [negb].
    destruct (next_one _ _ En) as (ts1 & ->); [done|].
    do_take H1 st2 H2. cbn in Hf.
    destruct (IHl ts1 st2 H2) as [E|(c & st3 & l & ts3 & E & -> & [Hok Hc] & H3)];
      [lia|left; munfold; by rewrite E|]. mstep E. rewrite length_app in Hf.
    destruct (next_in ts3 [RPAREN]) eqn:En3.
    + do_peek true H3 st4 H4; [done|]. cbn [negb].
      destruct (next_one _ _ En3) as (ts4 & ->); [done|]. cbn in Hf.
      do_take H4 st5 H5.
      destruct (redirs_sound fuel ts4 st5 c H5) as
        [Ep|(c' & st6 & rs & ts5 & E6 & -> & (rs' & -> & Hrs) & H6)]; [lia|by left|].
      rewrite E6. eapply (result_ret _ _ _ _ _ (Block l rs)); [|split; [done|]|done].
      * cbn. by rewrite <- app_assoc.
      * by apply denotes_wrap.
    + do_peek false H3 st4 H4; [done|]. by left.
Qed.

(** ** The strings after [nulterminate] *)

(** The line with some ends overwritten: no character of a word is. *)
Record nuls (b : list Z) : Prop := {
  nu_length : length b = S (length B);
  nu_chars : ∀ i c, (B ++ [0]) !! i = Some c →
    b !! i = Some c ∨ (b !! i = Some 0 ∧ (is_word c = false ∨ c = 0))
}.

Definition keeps_nuls (b b' : list Z) : Prop := ∀ i, b !! i = Some 0 → b' !! i = Some 0.

Definition nul_at (b : list Z) (sp : span) : Prop := b !! Z.to_nat sp.2 = Some 0.

Fixpoint ended (b : list Z) (c : cmd) : Prop :=
  match c with
  | EXEC args => Forall (nul_at b) args
  | REDIR sub f _ _ => ended b sub ∧ nul_at b f
  | PIPE l r | LIST l r => ended b l ∧ ended b r
  | BACK sub => ended b sub
  end.

Lemma ended_mono b b' c : keeps_nuls b b' → ended b c → ended b' c.
Proof.
  intros Hk. assert (∀ sp, nul_at b sp → nul_at b' sp) as Hn by (intros sp; apply Hk).
  induction c; cbn; [|intros [? ?]; split; auto..|done].
  intros H. eapply Forall_impl; [exact H|done].
Qed.

Lemma word_bounds sp x : word_at sp x →
  ∃ w r, B = w ++ x ++ r ∧ (sp.1 = zlen w ∧ 0 ≤ sp.2) ∧ Z.to_nat sp.2 = (length w + length x)%nat ∧
    Forall (λ c, is_word c = true) x ∧ stop is_word r.
Proof.
  intros (w & r & EB & -> & [_ Hx] & Hr). exists w, r. cbn. unfold zlen. split_and!; [done|done|lia|lia|done..].
Qed.

Lemma put_nul_ok b sp x : nuls b → word_at sp x →
  ∃ b', put_nul sp b = Ret (tt, b') ∧ nuls b' ∧ keeps_nuls b b' ∧ nul_at b' sp.
Proof.
  intros [Hl Hb] (w & r & EB & [_ H0] & Ee & Hx & Hr)%word_bounds.
  assert (Z.to_nat sp.2 < length b)%nat as Hlt.
  { rewrite Hl, EB, Ee, !length_app. lia. }
  unfold put_nul, zset. rewrite decide_True by (unfold zlen; lia).
  exists (<[Z.to_nat sp.2:=0]> b). split; [done|]. split_and!.
  - split; [by rewrite length_insert|]. intros i c Hi. destruct (decide (i = Z.to_nat sp.2)) as [->|Hne].
    + right. split; [by apply list_lookup_insert_eq|]. rewrite Ee, EB, <- !app_assoc in Hi.
      rewrite (app_assoc w x), lookup_app_r in Hi by (rewrite length_app; lia).
      rewrite length_app, Nat.sub_diag in Hi. destruct r as [|d r]; injection Hi as <-; [by right|by left].
    + rewrite list_lookup_insert_ne by done. by apply Hb.
  - intros i Hi. destruct (decide (i = Z.to_nat sp.2)) as [->|Hne]; [by apply list_lookup_insert_eq|].
    by rewrite list_lookup_insert_ne.
  - by apply list_lookup_insert_eq.
Qed.

Lemma nulterminate_run c t : denotes c t → ∀ b, nuls b →
  ∃ b', nulterminate c b = Ret (tt, b') ∧ nuls b' ∧ keeps_nuls b b' ∧ ended b' c.
Proof.
  induction 1 as [args xs Hargs|c t f x m d _ IH Hf|c1 t1 c2 t2 _ IH1 _ IH2|c1 t1 c2 t2 _ IH1 _ IH2|c t _ IH];
    intros b Hb; cbn [nulterminate ended].
  - revert b Hb. induction Hargs as [|sp x args xs Hw _ IH]; intros b Hb; cbn [nul_args].
    + exists b. split; [done|]. split; [done|]. split; [by intros ?|constructor].
    + destruct (put_nul_ok b sp x Hb Hw) as (b1 & E1 & Hb1 & K1 & N1).
      destruct (IH b1 Hb1) as (b2 & E2 & Hb2 & K2 & N2). exists b2. mstep E1.
      split_and!; [done|done|intros i Hi; by apply K2, K1|]. constructor; [by apply K2|done].
  - destruct (IH b Hb) as (b1 & E1 & Hb1 & K1 & N1).
    destruct (put_nul_ok b1 f x Hb1 Hf) as (b2 & E2 & Hb2 & K2 & N2). exists b2. mstep E1.
    split_and!; [done|done|intros i Hi; by apply K2, K1|by eapply ended_mono|done].
  - destruct (IH1 b Hb) as (b1 & E1 & Hb1 & K1 & N1). destruct (IH2 b1 Hb1) as (b2 & E2 & Hb2 & K2 & N2).
    exists b2. mstep E1. split_and!; [done|done|intros i Hi; by apply K2, K1|by eapply ended_mono|done].
  - destruct (IH1 b Hb) as (b1 & E1 & Hb1 & K1 & N1). destruct (IH2 b1 Hb1) as (b2 & E2 & Hb2 & K2 & N2).
    exists b2. mstep E1. split_and!; [done|done|intros i Hi; by apply K2, K1|by eapply ended_mono|done].
  - by apply IH.
Qed.

Lemma upto_nul_ok x : ∀ b, (∀ i c, x !! i = Some c → b !! i = Some c ∧ c ≠ 0) →
  b !! length x = Some 0 → upto_nul b = Some x.
Proof.
  induction x as [|c x IH]; intros [|d b] Hx Hb; try done; cbn in Hb.
  - injection Hb as ->. done.
  - destruct (Hx O c eq_refl) as [[= ->] Hc]. cbn. rewrite (proj2 (Z.eqb_neq c 0)) by done.
    rewrite (IH b); [done| |done]. intros i e Hi. exact (Hx (S i) e Hi).
Qed.

Lemma string_ok b sp x : Forall (λ c, c ≠ 0) B → nuls b → word_at sp x → nul_at b sp →
  string_at b sp = Some x.
Proof.
  intros HB [Hl Hb] (w & r & EB & [Es _] & Ee & Hx & Hr)%word_bounds Hn. unfold string_at, nul_at in *.
  rewrite Es. unfold zlen. rewrite Nat2Z.id. apply upto_nul_ok; rewrite ?lookup_drop; [|by rewrite <- Ee].
  intros i c Hi. rewrite lookup_drop.
  assert (B !! (length w + i)%nat = Some c) as HBi.
  { rewrite EB, lookup_app_r by lia. replace (length w + i - length w)%nat with i by lia.
    by apply lookup_app_l_Some. }
  pose proof (Forall_lookup_1 _ _ _ _ HB HBi) as Hc0. split; [|done].
  destruct (Hb (length w + i)%nat c) as [|[_ [Hf|]]]; [by apply lookup_app_l_Some|done| |done].
  by rewrite (Forall_lookup_1 _ _ _ _ Hx Hi) in Hf.
Qed.

Lemma strings_ok b c t : Forall (λ c, c ≠ 0) B → denotes c t → nuls b → ended b c → strings b c = Some t.
Proof.
  intros HB Hd Hb. induction Hd as [args xs Hargs|c t f x m d _ IH Hf|c1 t1 c2 t2 _ IH1 _ IH2|c1 t1 c2 t2 _ IH1 _ IH2|c t _ IH];
    cbn [ended strings].
  - intros Hn. rewrite (mapM_Some_2 (string_at b) args xs); [done|].
    induction Hargs as [|sp x args xs Hw _ IH]; [constructor|]. apply Forall_cons in Hn as [Hn Hn'].
    constructor; [by apply string_ok|by apply IH].
  - intros [H1 H2]. by rewrite (IH H1), (string_ok b f x).
  - intros [H1 H2]. by rewrite (IH1 H1), (IH2 H2).
  - intros [H1 H2]. by rewrite (IH1 H1), (IH2 H2).
  - intros H1. by rewrite (IH H1).
Qed.
End tokens.

(** ** Whole lines *)

Lemma spelled_length ts s : spelled ts s → (length ts ≤ length s)%nat.
Proof.
  induction 1 as [|w t ts s _ Ht _ _ IH]; [cbn; lia|]. rewrite !length_app. cbn.
  destruct (tok_first t Ht) as (c & u & -> & _). cbn. lia.
Qed.

(** Every text consists of tokens. *)
Lemma lex_total n : ∀ s, (length s ≤ n)%nat → ∃ ts, spelled ts s.
Proof.
  induction n as [|n IH]; intros s Hn.
  { destruct s; [|cbn in Hn; lia]. exists []. by constructor. }
  destruct (skip_split is_ws s 0) as (w & r & -> & Hw & Hr & _). destruct r as [|c r].
  { exists []. rewrite app_nil_r. by constructor. }
  rewrite length_app in Hn. cbn in Hn.
  assert (∃ t r', c :: r = text_of t ++ r' ∧ tok_wf t ∧ tok_ends t r') as (t & r' & Er & Ht & He).
  { destruct (decide (c ∈ symbols)) as [Hc|Hc].
    - assert (c ≠ PLUS) as Hp by (intros ->; unfold symbols in Hc; set_solver).
      destruct (decide (c = GREATER ∧ head r = Some GREATER)) as [[-> Hh]|Hng].
      + destruct r as [|d r]; [done|]. injection Hh as ->. exists (TSym PLUS), r.
        split_and!; [done|by left|done].
      + exists (TSym c), r. cbn. rewrite (proj2 (Z.eqb_neq c PLUS)) by done. split_and!; [done|by right|].
        intros ->. destruct r as [|d r]; [done|]. change ((GREATER =? d) = false). apply Z.eqb_neq. intros <-. by apply Hng.
    - destruct (skip_split is_word (c :: r) 0) as (x & r' & Ex & Hx & Hr' & _).
      exists (TWord x), r'. split_and!; [done| |done]. split; [|done]. intros ->. cbn in Ex. subst r'.
      unfold stop, is_word in Hr', Hr. rewrite Hr in Hr'. cbn in Hr'. apply negb_false_iff in Hr'.
      by apply Hc, member_spec. }
  destruct (tok_first t Ht) as (d & u & Et & _).
  destruct (IH r') as (ts & Hts).
  { apply (f_equal length) in Er. rewrite length_app, Et in Er. cbn in Er. lia. }
  exists (t :: ts). rewrite Er. by constructor.
Qed.

Lemma sees_start ts s : spelled ts s → sees s ts (0, s).
Proof. intros H. split; [by exists []|done]. Qed.

(** The rest of the line after the parser. *)
Lemma rest_end B ts st : sees B ts st →
  ∃ p r, peek [] st = Ret (false, (p, r)) ∧ (r = [] ↔ ts = []).
Proof.
  intros H. destruct (peek_sees B ts st [] H) as (st' & E & H'); [set_solver|].
  destruct st' as [p r]. exists p, r.
  assert (next_in ts [] = false) as En by (unfold next_in; by destruct (next_sym ts)).
  rewrite En in E. split; [done|]. unfold peek in E. injection E as _ E. destruct ts as [|t ts].
  - destruct (sees_nil _ _ H) as (p' & Ek & _). rewrite Ek in E. by injection E as _ <-.
  - destruct (sees_first _ _ _ _ H) as (p' & r' & Ek & _ & Ht & _). rewrite Ek in E. injection E as _ <-.
    destruct (tok_first t Ht) as (c & u & -> & _). done.
Qed.

Lemma finish s c t st :
  Forall (λ c, c ≠ 0) s → denotes s c t →
  parseline (4 * length s + 5) (0, s) = Ret (c, st) → sees s [] st →
  ∃ b, parsecmd s = Ret (c, b) ∧ strings b c = Some t.
Proof.
  intros Hs Hd E H. destruct (rest_end _ _ _ H) as (p & r & Ep & Hr). rewrite (proj2 Hr) in Ep by done.
  destruct (nulterminate_run s c t Hd (s ++ [0])) as (b & En & Hb & _ & Hend).
  { split; [rewrite length_app; cbn; lia|by left]. }
  exists b. split; [|by eapply strings_ok].
  unfold parsecmd. mstep E. mstep Ep. cbn. by rewrite En.
Qed.

Lemma parsecmd_complete s l :
  Forall (λ c, c ≠ 0) s → line_ok l → spelled (line_toks l) s →
  ∃ c b, parsecmd s = Ret (c, b) ∧ strings b c = Some (line_cmd l).
Proof.
  intros Hs Hl Hsp. pose proof (spelled_length _ _ Hsp).
  destruct (proj1 (parse_complete s) l [] (0, s) (4 * length s + 5)%nat Hl) as (c & st & E & Hd & H').
  - rewrite app_nil_r. by apply sees_start.
  - by left.
  - lia.
  - destruct (finish s c _ st Hs Hd E H') as (b & Eb & Hst). by exists c, b.
Qed.

Lemma parsecmd_sound s :
  Forall (λ c, c ≠ 0) s →
  parsecmd s = Panic ∨
  ∃ c b l, parsecmd s = Ret (c, b) ∧ line_ok l ∧ spelled (line_toks l) s ∧ strings b c = Some (line_cmd l).
Proof.
  intros Hs. destruct (lex_total (length s) s) as (ts & Hts); [done|].
  pose proof (spelled_length _ _ Hts).
  destruct (proj1 (parse_sound s (4 * length s + 5)) ts (0, s)) as
    [E|(c & st & l & ts' & E & -> & [Hl Hd] & H')]; [by apply sees_start|lia| |].
  - left. unfold parsecmd. munfold. by rewrite E.
  - destruct ts' as [|t ts'].
    + right. destruct (finish s c _ st Hs Hd E H') as (b & Eb & Hst). exists c, b, l.
      rewrite app_nil_r in Hts. by split_and!.
    + left. destruct (rest_end _ _ _ H') as (p & r & Ep & Hr). destruct r as [|x r]; [by destruct Hr as [Hr _]; specialize (Hr eq_refl)|].
      unfold parsecmd. mstep E. mstep Ep. done.
Qed.

(** A line printed from its tokens, with blanks between them. *)
Definition print (l : line) : list Z := concat ((λ t, text_of t ++ [32]) <$> line_toks l).

Lemma spelled_print ts : Forall tok_wf ts → spelled ts (concat ((λ t, text_of t ++ [32]) <$> ts)).
Proof.
  assert (∀ ts, Forall tok_wf ts → spelled ts ([32] ++ concat ((λ t, text_of t ++ [32]) <$> ts))) as Hb.
  { clear ts. induction 1 as [|t ts Ht _ IH]; [by repeat constructor|]. cbn [fmap list_fmap concat].
    rewrite <- app_assoc. constructor; [by repeat constructor|done| |done].
    destruct t; cbn; [done|intros _; done]. }
  destruct 1 as [|t ts Ht Hts]; [by constructor|]. cbn [fmap list_fmap concat]. rewrite <- app_assoc.
  apply (sp_tok []); [constructor|done| |by apply Hb]. by destruct t.
Qed.

(** The shell parses the text of any command line, printed from the grammar, back into that
    command: words, redirections, pipes, lists, background commands and parentheses, nested
    in any way; its strings are read from the line after [nulterminate]. *)
Theorem parse_print l :
  line_ok l → Forall tok_wf (line_toks l) → Forall (λ c, c ≠ 0) (print l) →
  parsed (print l) = Some (line_cmd l).
Proof.
  intros Hl Hw Hc. destruct (parsecmd_complete (print l) l Hc Hl) as (c & b & E & Hs).
  - by apply spelled_print.
  - unfold parsed. by rewrite E.
Qed.

(** C37: on any line [parsecmd] terminates and stays inside the array of arguments; it returns a
    command exactly when the line is spelled by the grammar, in whatever spacing, and then the
    strings of the command are what the grammar says; on any other line it panics.  Condition:
    the allocations of the command constructors succeed, whose result the code does not test. *)
Theorem parsecmd_spec s :
  Forall (λ c, c ≠ 0) s →
  match parsecmd s with
  | Ret (c, b) => ∃ t, strings b c = Some t ∧
      (∃ l, line_ok l ∧ spelled (line_toks l) s) ∧
      ∀ l, line_ok l → spelled (line_toks l) s → line_cmd l = t
  | Panic => ¬ ∃ l, line_ok l ∧ spelled (line_toks l) s
  | _ => False
  end.
Proof.
  intros Hs. destruct (parsecmd_sound s Hs) as [E|(c & b & l & E & Hl & Hsp & Hst)]; rewrite E.
  - intros (l & Hl & Hsp). destruct (parsecmd_complete s l Hs Hl Hsp) as (c & b & E' & _). congruence.
  - exists (line_cmd l). split_and!; [done|by exists l|]. intros l' Hl' Hsp'.
    destruct (parsecmd_complete s l' Hs Hl' Hsp') as (c' & b' & E' & Hst'). congruence.
Qed.

Definition sample : line :=
  Lines (Pipes (Words [] [(s_ "ls", []); (s_ "-l", [Out (s_ "out")])])
     (Pipe (Block (Lines (Pipe (Words [] [(s_ "grep", []); (s_ "x", [])])) 0
        (Line (Pipe (Words [] [(s_ "wc", [])])) 0)) [In (s_ "in"); App (s_ "log")]))) 1
    (Line (Pipe (Words [] [(s_ "echo", [])])) 0).

Ltac by_bool := eapply (bool_decide_eq_true_1 _); vm_compute; reflexivity.

Lemma sample_wf : Forall tok_wf (line_toks sample).
Proof.
  repeat (constructor; [first [by_bool|split; [done|by_bool]]|]). constructor.
Qed.

Lemma parse_print_witness : parsed (print sample) = Some (line_cmd sample).
Proof.
  apply parse_print; [by vm_compute|apply sample_wf|by_bool].
Defined.

(** Ten words are too many, a command without words is one, and nothing follows [&] but [;]. *)
Example parse_edges :
  parsecmd (s_ "a b c d e f g h i j") = Panic ∧ parsed (s_ " ") = Some (TExec []) ∧
  parsecmd (s_ "a & b") = Panic ∧ parsed (s_ "a&&") = Some (TBack (TBack (TExec [s_ "a"]))).
Proof. vm_compute. split_and!; reflexivity. Qed.

Lemma parsecmd_spec_witness :
  Forall (λ c, c ≠ 0) (s_ "a & b") ∧ ¬ ∃ l, line_ok l ∧ spelled (line_toks l) (s_ "a & b").
Proof.
  assert (Forall (λ c, c ≠ 0) (s_ "a & b")) as Hs by by_bool.
  pose proof (parsecmd_spec (s_ "a & b") Hs) as H.
  assert (parsecmd (s_ "a & b") = Panic) as E by (vm_compute; reflexivity). rewrite E in H. by split.
Defined.

(** ** Reading lines

    The standard input is the characters that are left of it; a command is run by a child, so
    [main] goes on whatever becomes of it. *)

Inductive action := Chdir (path : list Z) | Run (line : list Z).

Record term := Term { t_in : list Z; t_done : list action }.

Definition NL : Z := 10.

(** [read(0, &c, 1)]. *)
Definition read1 : M term (option Z) := λ s,
  match t_in s with
  | c :: l => Ret (Some c, Term l (t_done s))
  | [] => Ret (None, s)
  end.

(** [gets] with [n] turns left; the characters it stores. *)
Fixpoint gets_loop (n : nat) : M term (list Z) :=
  match n with
  | O => mret []
  | S n =>
      c ← read1;
      match c with
      | None => mret []
      | Some c => if c =? NL then mret [] else l ← gets_loop n; mret (c :: l)
      end
  end.

Definition BUFSIZE : nat := 100.

(** The buffer is cleared first: the string in it ends at a NUL byte that was read or behind
    the last character. *)
Definition sh_gets : M term (list Z) :=
  l ← gets_loop (BUFSIZE - 1); mret (default [] (upto_nul (l ++ [0]))).

Definition getcmd : M term (option (list Z)) :=
  buf ← sh_gets; mret (match buf with [] => None | _ => Some buf end).

Definition act (a : action) : M term unit := modify (λ s, Term (t_in s) (t_done s ++ [a])).

(** [buf[strlen(buf) - 1] = 0] drops the last character. *)
Definition chop (buf : list Z) : list Z := take (length buf - 1) buf.

Definition is_cd (buf : list Z) : bool := bool_decide (take 3 buf = s_ "cd ").

Fixpoint sh_main (n : nat) : M term unit :=
  match n with
  | O => mspin
  | S n =>
      buf ← getcmd;
      match buf with
      | None => mret tt
      | Some buf => (if is_cd buf then act (Chdir (drop 3 (chop buf))) else act (Run buf));; sh_main n
      end
  end.

(** What the lines of an input make the shell do. *)
Definition action_of (l : list Z) : action := if is_cd l then Chdir (drop 3 (chop l)) else Run l.

Definition good_line (l : list Z) : Prop := l ≠ [] ∧ zlen l ≤ 98 ∧ Forall (λ c, c ≠ 0 ∧ c ≠ NL) l.

Lemma gets_loop_line l rest acts : ∀ n, Forall (λ c, c ≠ 0 ∧ c ≠ NL) l → (length l < n)%nat →
  gets_loop n (Term (l ++ NL :: rest) acts) = Ret (l, Term rest acts).
Proof.
  induction l as [|c l IH]; intros [|n] Hl Hn; cbn in Hn; try lia; [done|].
  apply Forall_cons in Hl as [[_ Hc] Hl]. cbn [gets_loop app]. erewrite mbind_Ret by reflexivity. cbv iota.
  rewrite (proj2 (Z.eqb_neq c NL)) by done. by rewrite (mbind_Ret _ _ _ _ _ (IH n Hl ltac:(lia))).
Qed.

Lemma upto_nul_end l : Forall (λ c, c ≠ 0 ∧ c ≠ NL) l → upto_nul (l ++ [0]) = Some l.
Proof.
  intros Hl. apply upto_nul_ok; [|by rewrite lookup_app_r, Nat.sub_diag].
  intros i c Hi. split; [by apply lookup_app_l_Some|]. by apply (Forall_lookup_1 _ _ _ _ Hl Hi).
Qed.

(** The shell runs the lines of its input one after the other, up to the end of the input,
    when no line is empty or longer than 98 characters; of a line that starts with [cd] it
    drops the last character. *)
Theorem sh_main_runs_lines ls acts n :
  Forall good_line ls → (length ls < n)%nat →
  sh_main n (Term (concat ((λ l, l ++ [NL]) <$> ls)) acts) = Ret (tt, Term [] (acts ++ (action_of <$> ls))).
Proof.
  revert acts n. induction ls as [|l ls IH]; intros acts [|n] Hls Hn; cbn in Hn; try lia.
  { by rewrite app_nil_r. }
  apply Forall_cons in Hls as [(Hne & Hlen & Hl) Hls]. cbn [fmap list_fmap concat sh_main].
  rewrite <- app_assoc. cbn [app]. set (rest := concat _).
  assert (getcmd (Term (l ++ NL :: rest) acts) = Ret (Some l, Term rest acts)) as E.
  { unfold getcmd, sh_gets. rewrite (mbind_Ret _ _ _ l (Term rest acts)).
    - by destruct l.
    - erewrite mbind_Ret; [|apply gets_loop_line; [done|unfold zlen, BUFSIZE in *; lia]].
      by rewrite upto_nul_end. }
  mstep E. cbn [mbind]. unfold rest, action_of at 1.
  destruct (is_cd l); (erewrite mbind_Ret by reflexivity); cbn [t_in t_done];
    rewrite IH by (done || lia); by rewrite <- app_assoc.
Qed.

Lemma sh_main_runs_lines_witness :
  sh_main 5 (Term (s_ "ls -l" ++ [NL] ++ s_ "cd /bin" ++ [NL]) []) =
  Ret (tt, Term [] [Run (s_ "ls -l"); Chdir (s_ "/bi")]).
Proof.
  assert (Forall good_line [s_ "ls -l"; s_ "cd /bin"]) as H.
  { repeat constructor; try done; try by_bool; vm_compute; intros; discriminate. }
  apply (sh_main_runs_lines [s_ "ls -l"; s_ "cd /bin"] [] 5 H). cbn. lia.
Defined.

(** An empty line ends the shell, as the end of the input does. *)
Example empty_line_exits :
  sh_main 5 (Term ([NL] ++ s_ "ls" ++ [NL]) []) = Ret (tt, Term (s_ "ls" ++ [NL]) []).
Proof. vm_compute. reflexivity. Qed.
